(* ===== verification/_CoqProject ===== *)
-Q . S2P
Prelude.v
Framers.v
FixText.v
FixTime.v
Fix.v
FixView.v
Double.v
FixDouble.v
FixBuilder.v
FixSession.v
FixMessages.v
FixOps.v
FixConcurrent.v
FixInbound.v
FixTimers.v
FixLogon.v
BoundedQueue.v
SlotData.v
EvictingQueue.v
EvictingSlot.v
RingBuffer.v
Codecs.v
Mold.v
WebSocket.v
WsInflate.v
WsCodec.v
PacketCore.v
PacketParse.v
PacketTemplate.v
TcpSession.v
TcpOps.v
TcpStates.v
TcpReceive.v
TcpReorder.v
TcpSend.v
TcpLive.v
PollLoop.v
Arp.v
Dns.v
RouteTable.v
Poller.v
DnsAsync.v
Http.v
WsAccept.v
WsHandshake.v
QueueAllocator.v
QueueDaemon.v
Book.v
Itch.v
ItchBook.v
Histogram.v
Positions.v
Orders.v
OrderEntry.v
BytesQueue.v
