(* ===== verification/Prelude.v ===== *)
(** * ephemeral: verification of the protocol, codec, network and container core

    ephemeral is a C++ library for low-latency trading: bytes arrive over TCP or UDP, through
    the kernel or through a user-space network stack on DPDK, a framer or a codec cuts them
    into messages, a parser and a session give the messages meaning, and lock-free containers
    hand the results from one thread to another.  This development models that core; what
    follows says which part of src/ is where, how the models read, what is proved and what is
    left out.

    ** Parts and how they interact

    - Containers (eph-containers).  A single-producer single-consumer FIFO, a queue
      that evicts the oldest element in favour of the newest, and a history ring.
      They carry decoded data between threads and know nothing of protocols.
    - Framers (eph-core, eph-itch, eph-json, eph-fix).  Stateless cutting of a byte
      stream into messages behind the MessageFramer concept.
    - Codecs (eph-core, eph-codec).  The StreamCodec and PacketView concepts and their
      implementations; they consume a packet view and append replies and encoded
      frames to an OutputBuffer.  WsCodec sits on the WebSocket frame routines of
      eph-net and on an inflater over zlib; Mold64Codec on the MoldUDP64 parser of
      eph-itch.
    - FIX (eph-fix).  Text conversions, framer, parser, message views, the builder
      whose messages the framer and the parser read back, and the session, which builds
      its messages with the builder, reads what it receives with the parser and is driven
      by an application thread, a receiving thread and a timer.  Above the session, order
      entry builds requests, the pre-trade gate tests them against limits, the order manager
      follows each order through the execution reports, and its fills move the positions that
      the gate looks at.
    - Market data (eph-itch, eph-book).  ITCH messages and their parser, price levels in an
      array or a map, the builder that turns ITCH messages into a book and the adapter for
      Binance quotes.
    - HTTP (eph-net).  Parsers and builders of HTTP messages, and the opening handshake that
      turns a byte stream into a WebSocket connection.
    - Utilities (eph-utils).  The latency histogram.
    - The network stack (eph-net-dpdk).  Packet headers and checksums, the TCP session
      on top of them, ARP, which finds the MAC address its packets are sent to, DNS, which
      finds the address of a host, and the poller, which hands every received packet to
      the session, socket or resolver it is addressed to.  Processes that share a NIC get
      their queues from a daemon, which keeps the pool in shared memory.

    ** Files

    - Prelude.v: machine integers with explicit wrap-around, bytes and big-endian
      words (read_be of messages.hpp), memory as [list byte] accessed with [rd],
      [slice] and [wr], the [expected] type of the error paths, and the lemmas,
      hints and tactics every file uses.
    - Framers.v: framer_concept.hpp as the class [MessageFramer] with its promises as
      the classes [FramerSafe] (decode stays in its input) and [SelfDelimiting]
      (encode and decode are inverse on a stream); the modules [LengthPrefix],
      [SoupBin] and [Json] for length_prefix_framer.hpp, soupbintcp.hpp and
      json/framer.hpp; the generic reassembly of a stream, proved from the classes.
    - FixText.v, FixTime.v: parse_int of parse_number.hpp and the number and timestamp
      conversions of builder.hpp and parser.hpp.
    - Fix.v: framer.hpp (an instance of the framer classes) and [parse] of parser.hpp,
      with the FIX grammar as the predicate both are compared with.
    - FixView.v: lookups, repeating groups, [parse_all], [verify_checksum].
    - Double.v: binary64 numbers, what their operations return in terms of exact integers;
      FixDouble.v: [format_double] of builder.hpp.
    - FixBuilder.v: MessageBuilder of builder.hpp as a state record, one definition
      per setter, and [finish].
    - FixSession.v: session.hpp as a record of its members, one definition per operation
      ([on_rx] split into the gap detection and a handler per message type) and the clocks
      and the send callback as the record [World]; FixMessages.v: what its messages are;
      FixOps.v: any run of its operations; FixConcurrent.v: the claim of sequence numbers
      by concurrent threads; FixInbound.v: gaps and their recovery; FixTimers.v: heartbeats
      and probes; FixLogon.v: the waiting of logon.
    - BoundedQueue.v: bounded_queue.hpp, as functions and as two interleaved threads.
    - SlotData.v, EvictingQueue.v, EvictingSlot.v: evicting_queue.hpp, the ring of
      sequence locks and its one-slot specialisation, as functions and word by word.
    - BytesQueue.v: bounded_queue_bytes.hpp, over the specifications of BoundedQueue.v.
    - RingBuffer.v: ring_buffer.hpp.
    - Codecs.v: error.hpp, packet_view.hpp, codec.hpp, span_packet_view.hpp and the
      codecs without state (modules [LengthPrefixCodec], [RawStreamCodec],
      [RawDatagramCodec]).
    - Mold.v: moldudp64.hpp and mold64_codec.hpp.
    - WebSocket.v: websocket.hpp; WsInflate.v: ws_inflate.hpp; WsCodec.v: ws_codec.hpp.
    - PacketCore.v: packet_core.hpp, byte order, checksums, addresses; PacketParse.v:
      packet_parse.hpp, the parsers of TCP, UDP and ICMP packets and of TCP options;
      PacketTemplate.v: packet_template.hpp, the packets that are sent.
    - TcpSession.v: tcp.hpp and tcp_state.hpp, the session record and one definition per
      operation, with the results of the NIC and of the clocks as arguments and the packets
      sent as results.  TcpOps.v: the operations as steps of a run, and the invariant;
      TcpStates.v: the state diagram; TcpReceive.v, TcpReorder.v: what is delivered;
      TcpSend.v: what is sent, and two sessions over a network; TcpLive.v: keepalive and
      the release of buffers.
    - PollLoop.v: the send-and-poll loop that arp.hpp and dns.hpp share; Arp.v: arp.hpp, and
      the refresh of the MAC address in tcp.hpp; Dns.v: queries, replies and the blocking
      resolver of dns.hpp; DnsAsync.v: its asynchronous resolver, alone and under the poller.
    - RouteTable.v: the registry of poller.hpp, an array of entries and an open-addressing
      hash table of indices into it; Poller.v: the poll cycle on top of it.
    - Http.v: http.hpp; WsAccept.v: base64.hpp and the SHA-1 and accept key of
      ws_handshake.hpp; WsHandshake.v: the negotiation and the driver of ws_handshake.hpp.
    - QueueAllocator.v: the pool of detail/queue_allocator.hpp, as functions and as calls
      interleaved at its mutex; QueueDaemon.v: mp_ipc.hpp, the handlers of the daemon, and the
      claim and release in platform.hpp.
    - Book.v: array_book.hpp, map_book.hpp, parse_number.hpp and binance_adapter.hpp;
      Itch.v: messages.hpp and parser.hpp of eph-itch; ItchBook.v: itch_adapter.hpp.
    - Histogram.v: hdr_histogram.hpp.
    - Positions.v: position.hpp and risk_check.hpp; Orders.v: execution_report.hpp and
      order_manager.hpp; OrderEntry.v: orders.hpp.

    ** How the models read

    - A class is a record of its members and an operation a function of that record.
      Results are values: [expected] for std::expected, [option] for std::optional,
      and an outer [option] whose [None] is undefined behaviour (an access outside a
      buffer, a null dereference, a conversion out of range) or lack of fuel.  A theorem
      that an operation returns [Some] is thus a memory-safety theorem.
    - Unsigned arithmetic wraps ([u8], [u32], [u64]) where the code relies on it or
      could meet it; sums of object sizes, which C++ bounds by the address space, are
      exact where a file says so.  Doubles are IEEE 754 binary64 numbers of the Standard
      Library.
    - Loops are structural on the bytes left, or take fuel.  The fuel is always a
      bound that the theorems show to be enough: the number of bytes left for the
      scanners, framers and [parse_all] (every round consumes at least one), 20 for
      the digits of a 64-bit number (the size of the buffer in the code), the number
      of fields for groups, for inflation a bound computed from the input and the
      configured maximum, 3 for the folding of checksum carries (a 32-bit sum needs two),
      41 for TCP options (their 40 bytes and the end), one more than its length for
      the draining of the reorder buffer (every round removes an entry), the number of slots
      for the probing of the route table, 65 for the doubling loop of the histogram (64 bits)
      and the quotient of value and interval for its correction loop.
    - Threads are programs whose single accesses to shared memory are the steps of a
      machine that interleaves them arbitrarily in a sequentially consistent order.
      The queue proves freedom from data races on its slots, which is what reduces
      its acquire/release accesses to such interleavings; for the sequence locks,
      whose reads race by design, the fences of the source are taken to provide it.
      The waiting of the FIX session interleaves whole calls of the other threads with the
      iterations of the spin loop.
    - zlib, the random source of mask keys and of initial sequence numbers, the clocks, the
      NIC, user callbacks, std::pow and std::log2 and the order in which a hash map is
      traversed are parameters, with the documented behaviour that is needed as hypotheses.
    - Bounds of the TCP theorems: at most 255 reorder slots, as the counter in the code is
      eight bits wide, and streams shorter than 2^31 bytes where sequence numbers are
      compared over the whole stream.

    ** What the theorems show

    - BoundedQueue: refinement of a bounded FIFO by every operation, also across
      wrap-around of the indices; under every interleaving the consumer receives a
      prefix of what was produced, no slot is accessed by both threads at once, and
      every operation finishes in a bounded number of its own steps.
    - Evicting queues: refinement of a register with the latest value; under every
      word-by-word interleaving a successful read returns one untorn element, never
      older than the newest finished write, with indices that increase; the writer
      is wait-free.  The timed pop returns torn data ([timed_pop_returns_torn]).
    - RingBuffer: it is the window of the last [Capacity] elements.
    - Framers: decode never leaves its input; with the length-prefix, SoupBinTCP and
      FIX framers any stream of encoded messages is cut into exactly those messages
      and the unfinished rest is kept.
    - FIX messages: the parser accepts exactly the grammar ([fix_parse_exact]); whatever the
      setters are called with, [finish] stays in the buffer and either refuses or
      yields a message that framer and parser read back as the fields that were set
      ([fix_build_parse]), doubles as their rounded decimals; integers and timestamps survive text; repeating groups,
      [parse_all] and [verify_checksum] do what they promise; where truncated input
      is misreported ([fix_parse_truncated]).
    - FIX session: over any run all operations are defined and what is sent is numbered
      without repetition ([fix_session_numbering]), also when threads compete for the
      numbers ([fix_seq_claims_unique]); the states follow the diagram; every inbound gap
      is requested again ([fix_no_silent_gap]); a dead server is noticed
      ([fix_dead_server_detected]), a probe is answered ([fix_test_request_answered]) and
      [logon] ends ([fix_logon_outcome]).  GapFill answers are useless
      ([fix_gap_fill_ignored]), and fast answers to Logon and Logout are mistaken
      ([logon_answer_lost], [logout_answer_repeated]).
    - WebSocket: frame round trip, canonical headers, safety on any bytes, prefixes are
      incomplete, the fast masking loops equal the octet-wise definition, the UTF-8
      automaton accepts exactly RFC 3629, mask keys are handed out once.
    - WsCodec and WsInflate: reassembly refines the message sequence of any legal
      frame sequence, with pings answered and closes acknowledged; on any bytes the
      codec keeps its invariant and its size limit; inflation terminates within its
      bound, but delivers empty messages after a final block without reset.
    - Codecs and Mold: lossless length-prefixed delivery; the expected sequence number
      accounts for every gap and every frame over any run of datagrams.
    - Packets: the parsers stay inside the packet and return offsets inside it
      ([parse_safe]); what is built is parsed back, with valid checksums, under any padding
      ([tcp_packet_roundtrip], [udp_packet_roundtrip]); filling a template equals building
      the packet.
    - TCP: over any run of operations the session is defined and keeps its invariant
      ([session_type_safe]) and follows the state diagram, every step for the cause that the
      diagram names ([tcp_state_machine]); whatever
      the network does, the bytes delivered are a prefix of the stream of the peer
      ([tcp_receive_prefix]), and all of it arrives if no piece is overtaken too often
      ([tcp_receive_complete]); the packets sent carry the stream accepted from the callers
      ([tcp_send_stream]); two sessions together ([tcp_end_to_end]).  A silent peer is
      detected after exactly the configured probes, and every received buffer is released
      once.
    - ARP: exactly the acceptable replies are accepted ([arp_reply_exact]), and the resolve
      loop ends, with the MAC address of such a reply or an error ([arp_resolve_sound]).
    - DNS: the blocking and the asynchronous resolver answer only from a valid reply to
      their own query and send at most three, and no mbuf is lost ([dns_resolve_sound],
      [dns_async_sound]); what a name server encodes is read back ([dns_reply_roundtrip]).
    - Poller: the route table with its tombstones is a map from flows to objects
      ([poller_registry_refines]); each packet of a burst is delivered to the object of its
      flow or released, once and in order ([poller_dispatch]), so that a reply reaches the
      resolver that waits for it ([dns_reply_reaches_resolver]).
    - HTTP: the parsers are defined on any bytes and accept exactly the grammar
      ([http_parse_exact]), also when the message arrives in pieces ([http_incremental]); what
      is built is parsed back ([http_build_parse]).
    - WebSocket handshake: the accept key is that of RFC 6455 ([ws_accept_reference]); the
      handshake succeeds only on a response that agrees with the request
      ([ws_handshake_sound]) and does succeed on one, under any segmentation
      ([ws_handshake_completes]).
    - Byte queue: it is a bounded FIFO of messages, although slots keep old bytes
      ([bytes_queue_refines]).
    - Books: the array book shows exactly the best of the live levels, sorted
      ([array_book_refines]), the map book all of them ([map_book_refines]); the Binance
      adapter shows the last quote ([binance_shows_last_ticker]).
    - ITCH: a buffer is delivered as its messages and the error of its rest, with the offset
      ([itch_feed_delivered]); the accessors read the fields of all 22 types back
      ([itch_fields_roundtrip]); the book of the ITCH builder is the sum of the live orders
      ([itch_book_aggregates]).
    - Histogram: every sample is counted in the bucket of its value, which is known to the
      configured precision ([histogram_counts]); percentiles are samples of their rank to this
      precision ([histogram_percentile]); merging and subtracting are inverse
      ([histogram_merge_subtract]).
    - Orders: whatever the numbers, the gate lets no position pass its limit
      ([risk_gate_keeps_limits]); the order manager computes an exact ledger in which no order
      is filled beyond its size and terminal orders are final ([order_manager_ledger]); the
      positions are what the orders have filled ([positions_match_orders]); an order that
      passed the gate cannot take its position beyond the limit, however it is filled
      ([gate_bounds_fills]); what is ordered is what the counterparty reads, to the two digits
      that are sent ([order_entry_roundtrip]).
    - Queues: under every interleaving of claims and releases the pool behaves as if each call
      were atomic ([queue_pool_linearizable]), grants are exclusive ([queue_grants_exclusive],
      [daemon_grants_exclusive]) and the diagnostics exact ([queue_dump_exact]); traffic is
      spread over the claimed queues only ([daemon_spreads_traffic]), and what a client claims
      it gives back ([platform_claim_release]).
    - Besides, lemmas named in the text of their files exhibit concrete inputs on which the
      code departs from its comments: among them [fractional_fill_lost],
      [small_quantity_sent_as_zero], [itch_level_lost], [binance_snapshot_phantom],
      [histogram_create_diverges], [record_corrected_example], [dns_idle_answered],
      [http_split_rejected], [http_high_bytes], [tag_zero_unreadable] and
      [timed_out_claim_leaks].

    ** Not modelled

    - Logging, formatting, JSON dumps and the names of enumerators: text for people.
    - Sockets, epoll, TLS, DPDK devices and their set-up, CPU affinity, clocks and simdjson
      are calls into other software; the streams of eph-net, eph-net-kernel and eph-net-dpdk
      that are made of such calls are left out with them.
    - The blocking wrappers of the bounded queues, which are spin loops around the
      operations modelled here, and the byte variant of the evicting queue, whose slots are
      read as bytes by the same protocol as in SlotData.v.
    - OUCH messages and SBE decoders: fixed layouts in the manner of Itch.v.
    - The trading signals, the mean and deviation of the histogram and the token bucket of
      the rate limiter: floating-point formulas for which the code states no accuracy. *)

From stdpp Require Export base list numbers tactics option.
From Stdlib Require Export ZArith Lia Bool.
From Stdlib Require Export Init.Byte.
From Stdlib Require Import Strings.Byte.

#[local] Open Scope Z_scope.

(** ** Hint databases and notations of the development *)

(** [eph] collects the range facts (bytes, words, lengths) that [lia] needs. *)
Create HintDb eph.
Create Rewrite HintDb zlen.

Declare Scope eph_scope.
Delimit Scope eph_scope with eph.

(** ** Machine integers

    A [w]-bit unsigned value is a [Z] in [0, 2^w); conversions and arithmetic
    that can leave the range are written with the wrap-around explicit. *)

Definition wrap (w z : Z) : Z := z mod 2 ^ w.
Abbreviation u8 := (wrap 8).
Abbreviation u16 := (wrap 16).
Abbreviation u32 := (wrap 32).
Abbreviation u64 := (wrap 64).
Definition SIZE_MAX : Z := 2 ^ 64 - 1.
Definition UINT64_MAX : Z := 2 ^ 64 - 1.

Lemma wrap_range w z : 0 <= w -> 0 <= wrap w z < 2 ^ w.
Proof. intros. apply Z.mod_pos_bound, Z.pow_pos_nonneg; lia. Qed.

Lemma wrap_small w z : 0 <= z < 2 ^ w -> wrap w z = z.
Proof. apply Z.mod_small. Qed.


Lemma wrap_wrap w a : 0 <= w -> wrap w (wrap w a) = wrap w a.
Proof. intros. apply Z.mod_mod. lia. Qed.

Lemma wrap_sub_wrap w a b : 0 <= w -> wrap w (wrap w a - wrap w b) = wrap w (a - b).
Proof. intros. unfold wrap. symmetry. apply Zminus_mod. Qed.

Lemma wrap_sub_wrap_l w a b : 0 <= w -> wrap w (wrap w a - b) = wrap w (a - b).
Proof. intros. unfold wrap. apply Zminus_mod_idemp_l. Qed.

Lemma wrap_add_wrap_l w a b : 0 <= w -> wrap w (wrap w a + b) = wrap w (a + b).
Proof. intros. unfold wrap. apply Zplus_mod_idemp_l. Qed.

Lemma wrap_add_wrap_r w a b : 0 <= w -> wrap w (a + wrap w b) = wrap w (a + b).
Proof. intros. unfold wrap. apply Zplus_mod_idemp_r. Qed.

(** Two unbounded counters less than one period apart are equal as soon as
    their machine images are. *)
Lemma wrap_inj_close w a b :
  0 <= w -> wrap w a = wrap w b -> - 2 ^ w < a - b < 2 ^ w -> a = b.
Proof.
  unfold wrap. intros Hw E Hab.
  assert (0 < 2 ^ w) by (apply Z.pow_pos_nonneg; lia).
  pose proof (Z.div_mod a (2 ^ w) ltac:(lia)). pose proof (Z.div_mod b (2 ^ w) ltac:(lia)).
  assert (a - b = 2 ^ w * (a / 2 ^ w - b / 2 ^ w)) as Hd by (rewrite Z.mul_sub_distr_l; lia).
  assert (a / 2 ^ w - b / 2 ^ w = 0) by (rewrite Hd in Hab; nia). nia.
Qed.

(** The difference of two machine counters is the true difference when that
    difference fits. *)
Lemma wrap_sub_exact w a b :
  0 <= w -> 0 <= a - b < 2 ^ w -> wrap w (wrap w a - wrap w b) = a - b.
Proof. intros. rewrite wrap_sub_wrap by done. by apply wrap_small. Qed.

(** Masking with [2^k - 1] is reduction modulo [2^k]. *)
Lemma land_mask k z : 0 <= k -> Z.land z (2 ^ k - 1) = z mod 2 ^ k.
Proof. intros. rewrite <- Z.land_ones by done. by rewrite Z.ones_equiv, Z.sub_1_r. Qed.

Lemma wrap_land_mask w k z :
  0 <= k <= w -> Z.land (wrap w z) (2 ^ k - 1) = z mod 2 ^ k.
Proof.
  intros Hk. rewrite land_mask by lia. unfold wrap.
  apply Z.mod_mod_divide.
  exists (2 ^ (w - k)). rewrite <- Z.pow_add_r by lia. f_equal; lia.
Qed.

(** ** Bytes *)

Definition b2z (b : byte) : Z := Z.of_N (Byte.to_N b).
(** [static_cast<uint8_t>(z)]. *)
Definition z2b (z : Z) : byte :=
  match Byte.of_N (Z.to_N (z mod 256)) with Some b => b | None => x00 end.

Lemma b2z_range b : 0 <= b2z b < 256.
Proof. unfold b2z. pose proof (Byte.to_N_bounded b). lia. Qed.
#[export] Hint Resolve b2z_range : eph.

Lemma b2z_z2b z : b2z (z2b z) = z mod 256.
Proof.
  unfold b2z, z2b. destruct (Byte.of_N _) eqn:E.
  - apply Byte.to_of_N in E. rewrite E, Z2N.id; [done|]. apply Z.mod_pos_bound; lia.
  - apply Byte.of_N_None_iff in E. pose proof (Z.mod_pos_bound z 256). lia.
Qed.

Lemma z2b_b2z b : z2b (b2z b) = b.
Proof.
  unfold b2z, z2b. rewrite Z.mod_small by apply b2z_range.
  by rewrite N2Z.id, Byte.of_to_N.
Qed.

Lemma b2z_inj a b : b2z a = b2z b -> a = b.
Proof. intros E. rewrite <- (z2b_b2z a), <- (z2b_b2z b). by f_equal. Qed.

Lemma b2z_z2b_small z : 0 <= z < 256 -> b2z (z2b z) = z.
Proof. intros. rewrite b2z_z2b. by apply Z.mod_small. Qed.

Lemma z2b_mod z : z2b (z mod 256) = z2b z.
Proof. apply b2z_inj. rewrite !b2z_z2b. apply Z.mod_mod; lia. Qed.

#[export] Instance byte_eq_dec : EqDecision byte.
Proof. intros a b. destruct (Byte.byte_eq_dec a b); [by left|by right]. Defined.

(** ** Bit-level facts *)

Lemma testbit_small z n k : 0 <= z < 2 ^ n -> n <= k -> 0 <= n -> Z.testbit z k = false.
Proof.
  intros Hz Hk Hn. destruct (decide (z = 0)) as [->|]; [apply Z.bits_0|].
  apply Z.bits_above_log2; [lia|]. apply Z.log2_lt_pow2; [lia|].
  apply Z.lt_le_trans with (2 ^ n); [lia|]. apply Z.pow_le_mono_r; lia.
Qed.

(** A value below [2^n] or-ed under a value shifted by [n] is their sum. *)
Lemma lor_shiftl_add a b n :
  0 <= n -> 0 <= b < 2 ^ n -> Z.lor (Z.shiftl a n) b = a * 2 ^ n + b.
Proof.
  intros Hn Hb. rewrite <- Z.shiftl_mul_pow2 by done.
  rewrite Z.add_nocarry_lxor, Z.lxor_lor; [done|..];
    apply Z.bits_inj'; intros k Hk; rewrite Z.land_spec, Z.bits_0;
    (destruct (decide (k < n)); [rewrite Z.shiftl_spec_low by lia; done|
     rewrite (testbit_small b n) by lia; apply andb_false_r]).
Qed.

Lemma shiftr8_div z k : 0 <= k -> Z.shiftr z (8 * k) = z / 256 ^ k.
Proof. intros. rewrite Z.shiftr_div_pow2 by lia. by rewrite Z.pow_mul_r by lia. Qed.

(** A decidable property of all bytes, or of a finite range, checked by
    evaluation. *)
Lemma range_forall (P : Z -> bool) n :
  forallb (fun k => P (Z.of_nat k)) (seq 0 n) = true -> forall z, 0 <= z < Z.of_nat n -> P z = true.
Proof.
  intros Hall z Hz. rewrite forallb_forall in Hall. rewrite <- (Z2Nat.id z) by lia.
  apply Hall, in_seq. lia.
Qed.

Lemma byte_forall (P : byte -> bool) :
  forallb (fun k => P (z2b (Z.of_nat k))) (seq 0 256) = true -> forall b, P b = true.
Proof.
  intros Hall b. rewrite <- (z2b_b2z b).
  apply (range_forall (fun z => P (z2b z)) 256 Hall), b2z_range.
Qed.

(** ** Big-endian integers *)

Definition be_val (bs : list byte) : Z :=
  foldl (fun acc b => Z.lor (Z.shiftl acc 8) (b2z b)) 0 bs.

Fixpoint be_bytes (n : nat) (z : Z) : list byte :=
  match n with
  | O => []
  | S m => z2b (Z.shiftr z (8 * Z.of_nat m)) :: be_bytes m z
  end.

Lemma be_val_snoc bs b : be_val (bs ++ [b]) = be_val bs * 256 + b2z b.
Proof.
  unfold be_val. rewrite foldl_app. cbn [foldl].
  apply (lor_shiftl_add _ _ 8); [lia|apply b2z_range].
Qed.

Lemma be_val_cons b bs : be_val (b :: bs) = b2z b * 256 ^ Z.of_nat (length bs) + be_val bs.
Proof.
  induction bs as [|c bs IH] using rev_ind.
  - change [b] with ([] ++ [b]). rewrite be_val_snoc. change (be_val []) with 0.
    rewrite Z.pow_0_r. lia.
  - rewrite app_comm_cons, !be_val_snoc, IH, length_app. simpl length.
    replace (Z.of_nat (length bs + 1)) with (Z.of_nat (length bs) + 1) by lia.
    rewrite Z.pow_add_r by lia. ring.
Qed.

Lemma be_val_bound bs : 0 <= be_val bs < 256 ^ Z.of_nat (length bs).
Proof.
  induction bs as [|b bs IH]; [done|].
  rewrite be_val_cons. cbn [length]. rewrite Nat2Z.inj_succ, Z.pow_succ_r by lia.
  pose proof (b2z_range b). assert (0 < 256 ^ Z.of_nat (length bs)) by (apply Z.pow_pos_nonneg; lia).
  nia.
Qed.

Lemma length_be_bytes n z : length (be_bytes n z) = n.
Proof. induction n; simpl; congruence. Qed.

Lemma be_val_be_bytes n z : be_val (be_bytes n z) = z mod 256 ^ Z.of_nat n.
Proof.
  induction n as [|n IH]; [by rewrite Z.mod_1_r|].
  cbn [be_bytes]. rewrite be_val_cons, length_be_bytes, IH, b2z_z2b, shiftr8_div by lia.
  rewrite Nat2Z.inj_succ, Z.pow_succ_r, (Z.mul_comm 256) by lia.
  rewrite Z.rem_mul_r by (try apply Z.pow_nonzero; lia). ring.
Qed.

Lemma be_val_be_bytes_small n z :
  0 <= z < 256 ^ Z.of_nat n -> be_val (be_bytes n z) = z.
Proof. intros. rewrite be_val_be_bytes. by apply Z.mod_small. Qed.

Lemma be_val_inj xs ys : length xs = length ys -> be_val xs = be_val ys -> xs = ys.
Proof.
  revert ys; induction xs as [|x xs IH]; intros [|y ys] Hl E; simplify_eq/=; [done|].
  rewrite !be_val_cons, Hl in E.
  pose proof (be_val_bound xs). pose proof (be_val_bound ys). rewrite Hl in *.
  assert (b2z x = b2z y) as Hxy.
  { edestruct (Z.div_mod_unique (256 ^ Z.of_nat (length ys)) (b2z x) (b2z y) (be_val xs) (be_val ys)); lia. }
  rewrite Hxy in E. f_equal; [by apply b2z_inj|]. apply IH; [done|lia].
Qed.

Lemma be_bytes_be_val bs : be_bytes (length bs) (be_val bs) = bs.
Proof.
  apply be_val_inj; [apply length_be_bytes|].
  apply be_val_be_bytes_small, be_val_bound.
Qed.

(** The shift-and-or forms the sources spell out. *)
Definition read_be16 (a b : byte) : Z := Z.lor (Z.shiftl (b2z a) 8) (b2z b).

Lemma read_be16_val a b : read_be16 a b = be_val [a; b].
Proof. reflexivity. Qed.

(** ** Little-endian integers: the byte order of [memcpy] into a word *)

Fixpoint le_val (bs : list byte) : Z :=
  match bs with
  | [] => 0
  | b :: t => Z.lor (Z.shiftl (le_val t) 8) (b2z b)
  end.

Fixpoint le_bytes (n : nat) (z : Z) : list byte :=
  match n with
  | O => []
  | S m => z2b z :: le_bytes m (Z.shiftr z 8)
  end.

Lemma le_val_cons b t : le_val (b :: t) = le_val t * 256 + b2z b.
Proof. apply (lor_shiftl_add _ _ 8); [lia|apply b2z_range]. Qed.

Lemma le_bytes_le_val bs : le_bytes (length bs) (le_val bs) = bs.
Proof.
  induction bs as [|b t IH]; [done|]. cbn [length le_bytes].
  rewrite le_val_cons. f_equal.
  - apply b2z_inj. rewrite b2z_z2b, Z.add_comm, Z.mod_add by lia.
    apply Z.mod_small, b2z_range.
  - rewrite Z.shiftr_div_pow2 by lia. change (2 ^ 8) with 256.
    rewrite Z.div_add_l, Z.div_small, Z.add_0_r by (try apply b2z_range; lia). done.
Qed.

Lemma length_le_bytes n z : length (le_bytes n z) = n.
Proof. revert z; induction n; intros; simpl; [done|]. by rewrite IHn. Qed.

(** [memcpy] into an integer followed by [std::byteswap] on a little-endian
    machine. *)
Definition byteswap (n : nat) (z : Z) : Z := le_val (rev (le_bytes n z)).

Lemma le_val_rev bs : le_val (rev bs) = be_val bs.
Proof.
  induction bs as [|b bs IH] using rev_ind; [done|].
  rewrite rev_app_distr, be_val_snoc. cbn [rev app]. by rewrite le_val_cons, IH.
Qed.

Lemma byteswap_be bs : byteswap (length bs) (le_val bs) = be_val bs.
Proof. unfold byteswap. by rewrite le_bytes_le_val, le_val_rev. Qed.

(** ** Result types *)

(** [std::expected<A, E>]. *)
Inductive expected (A E : Type) : Type :=
| Ok (a : A)
| Err (e : E).
Arguments Ok {A E} a.
Arguments Err {A E} e.

(** ** Memory regions

    A [const uint8_t*] together with the number of bytes the callee may touch
    is a [list byte].  Every access goes through [rd], [slice] or [wr], which
    return [None] when it leaves the region: [None] therefore stands for
    undefined behaviour, and a theorem that a routine returns [Some _] is a
    memory-safety theorem. *)

Definition zlen {A} (l : list A) : Z := Z.of_nat (length l).

Definition rd (m : list byte) (i : Z) : option byte :=
  if 0 <=? i then m !! Z.to_nat i else None.

Definition slice (m : list byte) (off len : Z) : option (list byte) :=
  if (0 <=? off) && (0 <=? len) && (off + len <=? zlen m)
  then Some (take (Z.to_nat len) (drop (Z.to_nat off) m))
  else None.

Definition wr (m : list byte) (off : Z) (bs : list byte) : option (list byte) :=
  if (0 <=? off) && (off + zlen bs <=? zlen m)
  then Some (take (Z.to_nat off) m ++ bs ++ drop (Z.to_nat off + length bs) m)
  else None.

Section memory.
Implicit Types m bs pre post : list byte.

Lemma zlen_nonneg {A} (l : list A) : 0 <= zlen l.
Proof. unfold zlen. lia. Qed.

Lemma zlen_app {A} (l k : list A) : zlen (l ++ k) = zlen l + zlen k.
Proof. unfold zlen. rewrite length_app. lia. Qed.

Lemma zlen_nil {A} : zlen (@nil A) = 0.
Proof. done. Qed.

Lemma zlen_nil_inv {A} (l : list A) : zlen l <= 0 -> l = [].
Proof. destruct l; [done|]. unfold zlen. simpl. lia. Qed.

Lemma zlen_cons {A} (x : A) l : zlen (x :: l) = zlen l + 1.
Proof. unfold zlen. simpl. lia. Qed.

Lemma zlen_be_bytes n z : zlen (be_bytes n z) = Z.of_nat n.
Proof. unfold zlen. by rewrite length_be_bytes. Qed.

Lemma zlen_take {A} n (l : list A) : zlen (take n l) = Z.min (Z.of_nat n) (zlen l).
Proof. unfold zlen. rewrite length_take. lia. Qed.

Lemma zlen_drop {A} n (l : list A) : zlen (drop n l) = Z.max 0 (zlen l - Z.of_nat n).
Proof. unfold zlen. rewrite length_drop. lia. Qed.

#[local] Hint Rewrite @zlen_nil @zlen_app @zlen_cons @zlen_be_bytes @zlen_take @zlen_drop : zlen.
#[local] Ltac zlens := autorewrite with zlen in *.

Lemma rd_Some m i : 0 <= i < zlen m -> exists b, rd m i = Some b.
Proof.
  intros. unfold rd. rewrite (proj2 (Z.leb_le 0 i)) by lia.
  apply lookup_lt_is_Some_2. unfold zlen in *. lia.
Qed.

Lemma rd_app_r pre m i : i = zlen pre -> rd (pre ++ m) i = head m.
Proof.
  intros ->. unfold rd, zlen. rewrite (proj2 (Z.leb_le 0 _)) by lia.
  rewrite Nat2Z.id, lookup_app_r, Nat.sub_diag by lia. by destruct m.
Qed.

Lemma rd_lookup m n : rd m (Z.of_nat n) = m !! n.
Proof. unfold rd. rewrite (proj2 (Z.leb_le 0 _)) by lia. by rewrite Nat2Z.id. Qed.

Lemma slice_Some m off len :
  0 <= off -> 0 <= len -> off + len <= zlen m ->
  slice m off len = Some (take (Z.to_nat len) (drop (Z.to_nat off) m)).
Proof.
  intros. unfold slice.
  by rewrite (proj2 (Z.leb_le 0 off)), (proj2 (Z.leb_le 0 len)), (proj2 (Z.leb_le _ _)) by lia.
Qed.

Lemma slice_mid pre bs post off len :
  off = zlen pre -> len = zlen bs -> slice (pre ++ bs ++ post) off len = Some bs.
Proof.
  intros -> ->. rewrite slice_Some; [|apply zlen_nonneg..|].
  - unfold zlen. rewrite !Nat2Z.id, drop_app_length, take_app_length. done.
  - rewrite !zlen_app. pose proof (zlen_nonneg post). lia.
Qed.

Lemma slice_all m len : len = zlen m -> slice m 0 len = Some m.
Proof. intros ->. rewrite <- (app_nil_r m) at 1. by apply (slice_mid [] m []). Qed.

Lemma slice_zlen m off len bs : slice m off len = Some bs -> zlen bs = len.
Proof.
  unfold slice. destruct (_ && _) eqn:E; [|done]. intros [= <-].
  rewrite zlen_take, zlen_drop. lia.
Qed.

Lemma slice_bound m off len bs : slice m off len = Some bs -> 0 <= off /\ 0 <= len /\ off + len <= zlen m.
Proof.
  unfold slice. destruct (Z.leb_spec 0 off), (Z.leb_spec 0 len), (Z.leb_spec (off + len) (zlen m)); done.
Qed.

Lemma slice_slice_app S n k l a b :
  0 <= n -> 0 <= k -> 0 <= l -> slice S n k = Some a -> slice S (n + k) l = Some b ->
  slice S n (k + l) = Some (a ++ b).
Proof.
  intros Hn Hk Hl Ha Hb. pose proof (slice_bound _ _ _ _ Ha). pose proof (slice_bound _ _ _ _ Hb).
  rewrite slice_Some in Ha, Hb |- * by lia. injection Ha as <-. injection Hb as <-. f_equal.
  replace (Z.to_nat (k + l)) with (Z.to_nat k + Z.to_nat l)%nat by lia.
  replace (Z.to_nat (n + k)) with (Z.to_nat n + Z.to_nat k)%nat by lia.
  rewrite <- drop_drop. by rewrite take_take_drop.
Qed.

Lemma wr_app pre m off bs :
  off = zlen pre -> zlen bs <= zlen m ->
  wr (pre ++ m) off bs = Some (pre ++ bs ++ drop (length bs) m).
Proof.
  intros -> Hm. unfold wr. rewrite zlen_app.
  rewrite (proj2 (Z.leb_le 0 _)), (proj2 (Z.leb_le _ _)) by (pose proof (zlen_nonneg pre); lia).
  simpl. unfold zlen. rewrite Nat2Z.id, take_app_length, <- drop_drop, drop_app_length. done.
Qed.

Lemma wr_0 m bs : zlen bs <= zlen m -> wr m 0 bs = Some (bs ++ drop (length bs) m).
Proof. intros. by apply (wr_app [] m). Qed.

Lemma wr_Some m off bs :
  0 <= off -> off + zlen bs <= zlen m -> exists m', wr m off bs = Some m' /\ zlen m' = zlen m.
Proof.
  intros. unfold wr.
  rewrite (proj2 (Z.leb_le 0 off)), (proj2 (Z.leb_le _ _)) by lia. eexists; split; [done|].
  rewrite !zlen_app, zlen_take, zlen_drop. unfold zlen in *. lia.
Qed.

Lemma wr_None m off bs : ~ (0 <= off /\ off + zlen bs <= zlen m) -> wr m off bs = None.
Proof.
  intros Hn. unfold wr.
  destruct (Z.leb_spec 0 off), (Z.leb_spec (off + zlen bs) (zlen m)); try done. lia.
Qed.

(** Storing adjacent pieces one after the other stores their concatenation. *)
Lemma wr_bind {B} m off off' a b (k : list byte -> option B) :
  off' = off + zlen a ->
  (m1 ← wr m off a; m2 ← wr m1 off' b; k m2) = (m2 ← wr m off (a ++ b); k m2).
Proof.
  intros ->. destruct (decide (0 <= off /\ off + zlen a <= zlen m)) as [[H0 H1]|Hn].
  - assert (exists pre rest, m = pre ++ rest /\ off = zlen pre) as (pre & rest & -> & Hp).
    { exists (take (Z.to_nat off) m), (drop (Z.to_nat off) m). rewrite take_drop.
      split; [done|]. zlens. pose proof (zlen_nonneg a). lia. }
    rewrite zlen_app in H1.
    rewrite wr_app by lia. cbn [mbind option_bind]. rewrite app_assoc.
    destruct (decide (zlen a + zlen b <= zlen rest)).
    + rewrite (wr_app (pre ++ a)), (wr_app pre) by (zlens; unfold zlen in *; lia).
      cbn [mbind option_bind].
      rewrite <- !app_assoc, length_app, drop_drop. done.
    + rewrite !wr_None; [done|..]; zlens; unfold zlen in *; lia.
  - pose proof (zlen_nonneg b). rewrite !wr_None; [done|..]; zlens; lia.
Qed.

(** Writing the next piece of a prefix of [out]. *)
Lemma wr_grow hdr out bs off :
  off = zlen hdr -> zlen hdr + zlen bs <= zlen out ->
  wr (hdr ++ drop (length hdr) out) off bs = Some ((hdr ++ bs) ++ drop (length (hdr ++ bs)) out).
Proof.
  intros -> Hl. rewrite wr_app; [|done|zlens; unfold zlen in *; lia].
  rewrite drop_drop, length_app, <- app_assoc. done.
Qed.

End memory.

(** [read_beN(p)] of messages.hpp: load, then swap the bytes. *)
Definition read_be (n : nat) (m : list byte) (off : Z) : option Z :=
  w ← slice m off (Z.of_nat n); Some (byteswap n (le_val w)).

Lemma read_be_spec n m off :
  0 <= off -> off + Z.of_nat n <= zlen m ->
  read_be n m off = Some (be_val (take n (drop (Z.to_nat off) m))).
Proof.
  intros H0 H1. unfold read_be. rewrite slice_Some by lia. cbn [mbind option_bind].
  rewrite Nat2Z.id. f_equal. rewrite <- (byteswap_be (take _ _)). f_equal.
  rewrite length_take, length_drop. unfold zlen in *. lia.
Qed.

#[export] Hint Rewrite @zlen_nil @zlen_app @zlen_cons @zlen_be_bytes @zlen_take @zlen_drop : zlen.
#[export] Hint Resolve zlen_nonneg wrap_range be_val_bound : eph.

(** ** Tactics *)

(** Case analysis on every boolean comparison of the goal and hypotheses. *)
Ltac zbool :=
  repeat match goal with
  | H : context [?a <? ?b] |- _ => destruct (Z.ltb_spec a b)
  | H : context [?a <=? ?b] |- _ => destruct (Z.leb_spec a b)
  | H : context [?a =? ?b] |- _ => destruct (Z.eqb_spec a b)
  | |- context [?a <? ?b] => destruct (Z.ltb_spec a b)
  | |- context [?a <=? ?b] => destruct (Z.leb_spec a b)
  | |- context [?a =? ?b] => destruct (Z.eqb_spec a b)
  end.

(** Decide the next comparison the goal branches on, using the context. *)
Ltac zdecide :=
  match goal with
  | |- context [?a <? ?b] =>
      first [rewrite (proj2 (Z.ltb_lt a b)) by lia | rewrite (proj2 (Z.ltb_ge a b)) by lia]
  | |- context [?a <=? ?b] =>
      first [rewrite (proj2 (Z.leb_le a b)) by lia | rewrite (proj2 (Z.leb_gt a b)) by lia]
  | |- context [?a =? ?b] =>
      first [rewrite (proj2 (Z.eqb_eq a b)) by lia | rewrite (proj2 (Z.eqb_neq a b)) by lia]
  end.

Ltac zdecides := repeat (zdecide; cbn [andb orb negb]).

Ltac zlens := autorewrite with zlen in *.

(** ** Length fields of the framers and codecs *)

Lemma z2b_land z : z2b (Z.land z 255) = z2b z.
Proof. change 255 with (2 ^ 8 - 1). rewrite land_mask by lia. apply z2b_mod. Qed.

(** The two length bytes the encoders store are the big-endian image. *)
Lemma len_bytes_be n :
  [z2b (Z.land (Z.shiftr n 8) 255); z2b (Z.land n 255)] = be_bytes 2 n.
Proof.
  cbn [be_bytes]. rewrite !z2b_land. by rewrite Z.shiftr_0_r.
Qed.

Lemma u16_len_bytes a b : u16 (Z.lor (Z.shiftl (b2z a) 8) (b2z b)) = be_val [a; b].
Proof.
  change (Z.lor (Z.shiftl (b2z a) 8) (b2z b)) with (be_val [a; b]).
  apply wrap_small. apply (be_val_bound [a; b]).
Qed.

#[global] Arguments be_val : simpl never.
#[global] Arguments le_val : simpl never.
#[global] Arguments wrap : simpl never.
#[global] Arguments zlen : simpl never.
#[global] Arguments b2z : simpl never.
#[global] Arguments z2b : simpl never.
#[global] Arguments rd : simpl never.
#[global] Arguments wr : simpl never.
#[global] Arguments slice : simpl never.
