(* ===== verification/Framers.v ===== *)
(** * Message framers

    The [MessageFramer] concept of [eph-core] (framer_concept.hpp) and three of
    the framers that satisfy it: [LengthPrefixFramer] (2-byte big-endian length,
    also the [ItchFramer]), [SoupBinTcpFramer] (length plus packet type) and the
    pass-through [JsonFramer].  Outer [None] is undefined behaviour. *)

From S2P Require Import Prelude.

#[local] Open Scope Z_scope.

(** ** framer_concept.hpp *)

Inductive FrameError : Set := kIncomplete | kInvalidFormat | kPayloadTooLarge.

#[export] Instance FrameError_eq_dec : EqDecision FrameError.
Proof. solve_decision. Defined.

(** The zero-copy view: [payload] is the offset of the pointer in the receive
    buffer, [None] for a null pointer. *)
Record DecodedFrame := {
  payload : option Z;
  payload_len : Z;
  msg_type : Z;
  is_control : bool;
  total_len : Z;
}.

(** The bytes a decoded frame denotes in its receive buffer. *)
Definition frame_bytes (data : list byte) (f : DecodedFrame) : option (list byte) :=
  match payload f with
  | Some off => slice data off (payload_len f)
  | None => if payload_len f =? 0 then Some [] else None
  end.

(** The concept's operations.  [encode out data len msg_type] returns the count
    and the output buffer afterwards; a null pointer is [None]. *)
Class MessageFramer (F : Type) := {
  encode : F -> option (list byte) -> option (list byte) -> Z -> Z ->
           option (Z * option (list byte));
  decode : F -> list byte -> option (expected DecodedFrame FrameError);
  max_overhead : F -> Z;
}.

(** What every framer promises its client: decoding is memory safe on any
    input, and an accepted frame lies inside the buffer, consumes at least one
    byte and never more than is there. *)
Class FramerSafe (F : Type) `{MessageFramer F} := {
  decode_safe f data : is_Some (decode f data);
  decode_in_bounds f data fr :
    decode f data = Some (Ok fr) ->
    0 < total_len fr <= zlen data /\
    is_Some (frame_bytes data fr) /\
    (forall off, payload fr = Some off -> 0 <= off /\ off + payload_len fr <= total_len fr);
}.

(** What a framer for a byte stream promises in addition.  [wire f pl ty] is the
    wire image of a payload. *)
Class SelfDelimiting (F : Type) `{MessageFramer F} := {
  encodable : F -> list byte -> Z -> Prop;
  wire : F -> list byte -> Z -> list byte;
  encode_wire f out pl ty :
    encodable f pl ty ->
    zlen pl + max_overhead f <= zlen out ->
    zlen (wire f pl ty) <= zlen pl + max_overhead f /\
    encode f (Some out) (Some pl) (zlen pl) ty =
      Some (zlen (wire f pl ty), Some (wire f pl ty ++ drop (length (wire f pl ty)) out));
  decode_wire f pl ty rest :
    encodable f pl ty ->
    exists fr, decode f (wire f pl ty ++ rest) = Some (Ok fr) /\
      total_len fr = zlen (wire f pl ty) /\
      frame_bytes (wire f pl ty ++ rest) fr = Some pl;
  decode_prefix f pl ty p s :
    encodable f pl ty -> wire f pl ty = p ++ s -> s <> [] ->
    decode f p = Some (Err kIncomplete);
}.

(** ** LengthPrefixFramer *)

Module LengthPrefix.

Inductive LengthPrefixFramer : Set := mkLengthPrefixFramer.

Definition kMaxPayloadLen : Z := 65535.

Definition lp_max_overhead (_ : LengthPrefixFramer) : Z := 2.

Definition lp_encode (_ : LengthPrefixFramer) (out data : option (list byte)) (len : Z)
    (_msg_type : Z) : option (Z * option (list byte)) :=
  if (kMaxPayloadLen <? len) || (len =? 0) then Some (0, out) else
  match data, out with
  | Some d, Some o =>
      o1 ← wr o 0 [z2b (Z.land (Z.shiftr len 8) 255)];
      o2 ← wr o1 1 [z2b (Z.land len 255)];
      src ← slice d 0 len;
      o3 ← wr o2 2 src;
      Some (2 + len, Some o3)
  | _, _ => Some (0, out)
  end.

Definition lp_decode (_ : LengthPrefixFramer) (data : list byte)
    : option (expected DecodedFrame FrameError) :=
  let len := zlen data in
  if len <? 2 then Some (Err kIncomplete) else
  d0 ← rd data 0;
  d1 ← rd data 1;
  let msg_len := u16 (Z.lor (Z.shiftl (b2z d0) 8) (b2z d1)) in
  if msg_len =? 0 then Some (Err kInvalidFormat) else
  if len <? 2 + msg_len then Some (Err kIncomplete) else
  d2 ← rd data 2;
  Some (Ok {| payload := Some 2; payload_len := msg_len; msg_type := b2z d2;
              is_control := false; total_len := 2 + msg_len |}).

#[global] Instance lp_framer : MessageFramer LengthPrefixFramer :=
  {| encode := lp_encode; decode := lp_decode; max_overhead := lp_max_overhead |}.

(** Reading back the length prefix. *)
Lemma lp_decode_prefixed f n rest :
  0 < n < 65536 ->
  lp_decode f (be_bytes 2 n ++ rest) =
    if zlen rest <? n then Some (Err kIncomplete) else
    d2 ← head rest;
    Some (Ok {| payload := Some 2; payload_len := n; msg_type := b2z d2;
                is_control := false; total_len := 2 + n |}).
Proof.
  intros Hn. unfold lp_decode. zlens. change (Z.of_nat 2) with 2.
  pose proof (zlen_nonneg rest). zdecide.
  change (rd (be_bytes 2 n ++ rest) 0) with (Some (z2b (Z.shiftr n 8))).
  change (rd (be_bytes 2 n ++ rest) 1) with (Some (z2b (Z.shiftr n 0))).
  cbn [mbind option_bind]. rewrite u16_len_bytes.
  change (be_val _) with (be_val (be_bytes 2 n)). rewrite be_val_be_bytes_small by lia.
  zdecide. rewrite (rd_app_r (be_bytes 2 n)) by (zlens; lia).
  destruct (Z.ltb_spec (zlen rest) n); zdecide; done.
Qed.

#[global] Instance lp_safe : FramerSafe LengthPrefixFramer.
Proof.
  constructor.
  - intros f data. cbn. unfold lp_decode.
    destruct (Z.ltb_spec (zlen data) 2); [eauto|].
    destruct (rd_Some data 0) as [d0 ->]; [lia|]. destruct (rd_Some data 1) as [d1 ->]; [lia|].
    cbn [mbind option_bind]. rewrite u16_len_bytes. pose proof (be_val_bound [d0; d1]).
    zbool; eauto. destruct (rd_Some data 2) as [d2 ->]; [lia|]. cbn; eauto.
  - intros f data fr. cbn. unfold lp_decode. destruct (Z.ltb_spec (zlen data) 2); [done|].
    destruct (rd data 0) as [d0|]; [|done]. destruct (rd data 1) as [d1|]; [|done].
    cbn [mbind option_bind]. rewrite u16_len_bytes. pose proof (be_val_bound [d0; d1]).
    zbool; try done. destruct (rd data 2) as [d2|]; [|done]. cbn. intros [= <-]. cbn.
    split; [lia|]. split; [|intros off [= <-]; lia].
    unfold frame_bytes. cbn. rewrite slice_Some by lia. eauto.
Qed.

#[global] Instance lp_delim : SelfDelimiting LengthPrefixFramer.
Proof.
  refine {| encodable _ pl _ := 0 < zlen pl <= 65535;
            wire _ pl _ := be_bytes 2 (zlen pl) ++ pl |}.
  - intros f out pl ty Henc Hout. change (max_overhead f) with 2 in *.
    split; [zlens; lia|]. cbn [encode lp_framer]. unfold lp_encode, kMaxPayloadLen. zdecides.
    rewrite (slice_all pl) by done. cbn [mbind option_bind].
    rewrite !wr_bind by done. change ([?a] ++ [?b]) with [a; b]. rewrite len_bytes_be.
    rewrite wr_0 by (zlens; lia). cbn [mbind option_bind]. zlens. done.
  - intros f pl ty rest Henc. cbn [decode lp_framer]. rewrite <- app_assoc.
    rewrite lp_decode_prefixed by lia. zlens. pose proof (zlen_nonneg rest). zdecide.
    destruct pl as [|d2 pl]; [unfold zlen in *; simpl in *; lia|].
    cbn [mbind option_bind head app]. eexists; split; [done|].
    cbn [total_len payload payload_len]. unfold frame_bytes. cbn [payload payload_len].
    split; [zlens; lia|].
    by apply (slice_mid (be_bytes 2 _) (d2 :: pl)); zlens.
  - intros f pl ty p s Henc Hw Hs. cbn [decode lp_framer].
    assert (0 < zlen s) by (destruct s; [done|zlens; pose proof (zlen_nonneg s); lia]).
    destruct (decide (zlen p < 2)); [unfold lp_decode; by zdecide|].
    assert (exists q, p = be_bytes 2 (zlen pl) ++ q /\ pl = q ++ s) as (q & -> & ->).
    { destruct p as [|p0 [|p1 q]]; [unfold zlen in *; simpl in *; lia..|].
      exists q. cbn [be_bytes app] in *. by simplify_eq. }
    zlens. rewrite lp_decode_prefixed by lia. by zdecide.
Defined.

End LengthPrefix.

(** ** SoupBinTcpFramer *)

Module SoupBin.

Definition kServerHeartbeat : Z := 72.
Definition kClientHeartbeat : Z := 82.
Definition kSequencedData : Z := 83.

Definition is_heartbeat (type : Z) : bool :=
  (type =? kServerHeartbeat) || (type =? kClientHeartbeat).

Inductive SoupBinTcpFramer : Set := mkSoupBinTcpFramer.

Definition sb_max_overhead (_ : SoupBinTcpFramer) : Z := 3.
Definition sb_kMaxPayloadLen : Z := 65534.

Definition sb_encode (_ : SoupBinTcpFramer) (out data : option (list byte)) (len : Z)
    (msg_type : Z) : option (Z * option (list byte)) :=
  match out with
  | None => Some (0, out)
  | Some o =>
      if sb_kMaxPayloadLen <? len then Some (0, out) else
      if (0 <? len) && bool_decide (data = None) then Some (0, out) else
      let wire_len := u16 (len + 1) in
      o1 ← wr o 0 [z2b (Z.land (Z.shiftr wire_len 8) 255)];
      o2 ← wr o1 1 [z2b (Z.land wire_len 255)];
      o3 ← wr o2 2 [z2b msg_type];
      if 0 <? len then
        d ← data;
        src ← slice d 0 len;
        o4 ← wr o3 3 src;
        Some (3 + len, Some o4)
      else Some (3 + len, Some o3)
  end.

Definition sb_decode (_ : SoupBinTcpFramer) (data : list byte)
    : option (expected DecodedFrame FrameError) :=
  let len := zlen data in
  if len <? 2 then Some (Err kIncomplete) else
  d0 ← rd data 0;
  d1 ← rd data 1;
  let msg_len := u16 (Z.lor (Z.shiftl (b2z d0) 8) (b2z d1)) in
  if msg_len <? 1 then Some (Err kInvalidFormat) else
  let total := 2 + msg_len in
  if len <? total then Some (Err kIncomplete) else
  d2 ← rd data 2;
  let type := b2z d2 in
  let pl_len := msg_len - 1 in
  Some (Ok {| payload := if 0 <? pl_len then Some 3 else None;
              payload_len := pl_len; msg_type := type;
              is_control := is_heartbeat type; total_len := total |}).

#[global] Instance sb_framer : MessageFramer SoupBinTcpFramer :=
  {| encode := sb_encode; decode := sb_decode; max_overhead := sb_max_overhead |}.

Lemma sb_decode_prefixed f n rest :
  0 < n < 65536 ->
  sb_decode f (be_bytes 2 n ++ rest) =
    if zlen rest <? n then Some (Err kIncomplete) else
    d2 ← head rest;
    Some (Ok {| payload := if 0 <? n - 1 then Some 3 else None;
                payload_len := n - 1; msg_type := b2z d2;
                is_control := is_heartbeat (b2z d2); total_len := 2 + n |}).
Proof.
  intros Hn. unfold sb_decode. zlens. change (Z.of_nat 2) with 2.
  pose proof (zlen_nonneg rest). zdecide.
  change (rd (be_bytes 2 n ++ rest) 0) with (Some (z2b (Z.shiftr n 8))).
  change (rd (be_bytes 2 n ++ rest) 1) with (Some (z2b (Z.shiftr n 0))).
  cbn [mbind option_bind]. rewrite u16_len_bytes.
  change (be_val _) with (be_val (be_bytes 2 n)). rewrite be_val_be_bytes_small by lia.
  rewrite (proj2 (Z.ltb_ge n 1)) by lia. rewrite (rd_app_r (be_bytes 2 n)) by (zlens; lia).
  destruct (Z.ltb_spec (zlen rest) n).
  - by rewrite (proj2 (Z.ltb_lt _ _)) by lia.
  - by rewrite (proj2 (Z.ltb_ge _ _)) by lia.
Qed.

#[global] Instance sb_safe : FramerSafe SoupBinTcpFramer.
Proof.
  constructor.
  - intros f data. cbn. unfold sb_decode.
    destruct (Z.ltb_spec (zlen data) 2); [eauto|].
    destruct (rd_Some data 0) as [d0 ->]; [lia|]. destruct (rd_Some data 1) as [d1 ->]; [lia|].
    cbn [mbind option_bind]. rewrite u16_len_bytes. pose proof (be_val_bound [d0; d1]).
    destruct (Z.ltb_spec (be_val [d0; d1]) 1); [eauto|].
    destruct (Z.ltb_spec (zlen data) (2 + be_val [d0; d1])); [eauto|].
    destruct (rd_Some data 2) as [d2 ->]; [lia|]. cbn; eauto.
  - intros f data fr. cbn. unfold sb_decode. destruct (Z.ltb_spec (zlen data) 2); [done|].
    destruct (rd data 0) as [d0|]; [|done]. destruct (rd data 1) as [d1|]; [|done].
    cbn [mbind option_bind]. rewrite u16_len_bytes. pose proof (be_val_bound [d0; d1]).
    destruct (Z.ltb_spec (be_val [d0; d1]) 1); [done|].
    destruct (Z.ltb_spec (zlen data) (2 + be_val [d0; d1])); [done|].
    destruct (rd data 2) as [d2|]; [|done]. cbn [mbind option_bind]. intros [= <-].
    unfold frame_bytes. cbn [total_len payload payload_len].
    split; [lia|]. destruct (Z.ltb_spec 0 (be_val [d0; d1] - 1)).
    + rewrite slice_Some by lia. split; [eauto|]. intros off [= <-]. lia.
    + rewrite (proj2 (Z.eqb_eq _ 0)) by lia. split; [eauto|done].
Qed.

#[global] Instance sb_delim : SelfDelimiting SoupBinTcpFramer.
Proof.
  refine {| encodable _ pl ty := zlen pl <= 65534 /\ 0 <= ty < 256;
            wire _ pl ty := be_bytes 2 (zlen pl + 1) ++ z2b ty :: pl |}.
  - intros f out pl ty [Henc _] Hout. change (max_overhead f) with 3 in *.
    pose proof (zlen_nonneg pl). split; [zlens; lia|].
    cbn [encode sb_framer]. unfold sb_encode, sb_kMaxPayloadLen. zdecide.
    rewrite bool_decide_false, andb_false_r, (wrap_small 16 (zlen pl + 1)) by (done || lia).
    rewrite !wr_bind by done. change ([?a] ++ [?b]) with [a; b]. rewrite len_bytes_be.
    destruct (Z.ltb_spec 0 (zlen pl)).
    + cbn [mbind option_bind]. rewrite (slice_all pl) by done. cbn [mbind option_bind].
      rewrite wr_bind, <- app_assoc by (zlens; lia).
      rewrite wr_0 by (zlens; lia). cbn [mbind option_bind]. zlens.
      do 2 f_equal. lia.
    + assert (pl = []) as -> by (destruct pl; [done|zlens; pose proof (zlen_nonneg pl); lia]).
      rewrite wr_0 by (zlens; lia). cbn [mbind option_bind]. zlens. done.
  - intros f pl ty rest [Henc Hty]. cbn [decode sb_framer]. rewrite <- app_assoc.
    pose proof (zlen_nonneg rest). pose proof (zlen_nonneg pl).
    rewrite sb_decode_prefixed by lia. cbn [app]. zlens.
    rewrite (proj2 (Z.ltb_ge _ _)) by lia. cbn [mbind option_bind head].
    eexists; split; [done|]. unfold frame_bytes. cbn [total_len payload payload_len].
    split; [zlens; lia|]. replace (zlen pl + 1 - 1) with (zlen pl) by lia.
    destruct (Z.ltb_spec 0 (zlen pl)).
    + rewrite (cons_middle (z2b ty)), app_assoc. by apply slice_mid; zlens.
    + rewrite (proj2 (Z.eqb_eq _ 0)) by lia.
      destruct pl; [done|zlens; pose proof (zlen_nonneg pl); lia].
  - intros f pl ty p s [Henc Hty] Hw Hs. cbn [decode sb_framer]. pose proof (zlen_nonneg pl).
    assert (0 < zlen s) by (destruct s; [done|zlens; pose proof (zlen_nonneg s); lia]).
    destruct (decide (zlen p < 2)); [unfold sb_decode; by zdecide|].
    assert (exists q, p = be_bytes 2 (zlen pl + 1) ++ q /\ z2b ty :: pl = q ++ s) as (q & -> & Hq).
    { destruct p as [|p0 [|p1 q]]; [unfold zlen in *; simpl in *; lia..|].
      exists q. cbn [be_bytes app] in *. by simplify_eq. }
    apply (f_equal zlen) in Hq. zlens. rewrite sb_decode_prefixed by lia.
    by rewrite (proj2 (Z.ltb_lt _ _)) by lia.
Defined.

End SoupBin.

(** ** JsonFramer *)

Module Json.

Inductive JsonFramer : Set := mkJsonFramer.

Definition json_max_overhead (_ : JsonFramer) : Z := 0.

Definition json_encode (_ : JsonFramer) (out data : option (list byte)) (len : Z)
    (_msg_type : Z) : option (Z * option (list byte)) :=
  if len =? 0 then Some (0, out) else
  match data, out with
  | Some d, Some o =>
      src ← slice d 0 len;
      o1 ← wr o 0 src;
      Some (len, Some o1)
  | _, _ => Some (0, out)
  end.

Definition json_decode (_ : JsonFramer) (data : list byte)
    : option (expected DecodedFrame FrameError) :=
  let len := zlen data in
  if len =? 0 then Some (Err kIncomplete) else
  Some (Ok {| payload := Some 0; payload_len := len; msg_type := 0;
              is_control := false; total_len := len |}).

#[global] Instance json_framer : MessageFramer JsonFramer :=
  {| encode := json_encode; decode := json_decode; max_overhead := json_max_overhead |}.

#[global] Instance json_safe : FramerSafe JsonFramer.
Proof.
  constructor; intros f data; cbn; unfold json_decode; zbool; eauto; try done.
  - intros fr [= <-]. cbn. pose proof (zlen_nonneg data). split; [lia|].
    split; [|intros off [= <-]; lia]. unfold frame_bytes. cbn. rewrite slice_all by done. eauto.
Qed.

End Json.

(** ** A client of the interface

    The receive loop a stream client runs: decode a frame at the front, hand its
    payload on, drop the consumed bytes, stop when the framer needs more. *)

Section client.
Context {F : Type} `{MessageFramer F} `{!FramerSafe F} `{!SelfDelimiting F}.

Fixpoint decode_stream (f : F) (fuel : nat) (data : list byte)
    : option (list (list byte) * list byte * option FrameError) :=
  match fuel with
  | O => None
  | S n =>
      r ← decode f data;
      match r with
      | Err kIncomplete => Some ([], data, None)
      | Err e => Some ([], data, Some e)
      | Ok fr =>
          bs ← frame_bytes data fr;
          '(fs, rest, e) ← decode_stream f n (drop (Z.to_nat (total_len fr)) data);
          Some (bs :: fs, rest, e)
      end
  end.

(** The loop terminates without undefined behaviour on every input, in at most
    one iteration per received byte. *)
Lemma decode_stream_total f fuel data :
  (length data < fuel)%nat -> is_Some (decode_stream f fuel data).
Proof using FramerSafe0.
  revert data; induction fuel as [|n IH]; intros data Hf; [lia|]. cbn [decode_stream].
  destruct (decode_safe f data) as [r Hr]. rewrite Hr. cbn [mbind option_bind].
  destruct r as [fr|[]]; eauto.
  destruct (decode_in_bounds f data fr Hr) as (Hn & [bs Hbs] & _). rewrite Hbs. cbn.
  destruct (IH (drop (Z.to_nat (total_len fr)) data)) as [[[fs rest] e] Hfs].
  - rewrite length_drop. unfold zlen in *. lia.
  - rewrite Hfs. eauto.
Qed.

Lemma wire_nonempty f pl ty : encodable f pl ty -> (0 < length (wire f pl ty))%nat.
Proof using FramerSafe0.
  intros He. destruct (decode_wire f pl ty [] He) as (fr & Hd & Ht & _).
  apply decode_in_bounds in Hd as [Hb _]. unfold zlen in *. lia.
Qed.

Lemma decode_stream_wires f msgs p s pl ty fuel :
  Forall (fun m => encodable f m.1 m.2) msgs ->
  encodable f pl ty -> wire f pl ty = p ++ s -> s <> [] ->
  (length msgs < fuel)%nat ->
  decode_stream f fuel (concat ((fun m => wire f m.1 m.2) <$> msgs) ++ p) =
    Some (msgs.*1, p, None).
Proof using FramerSafe0.
  intros Hm Hpl Hp Hs. revert fuel; induction Hm as [|[m t] msgs Henc _ IH]; intros [|fuel] Hf;
    simpl in Hf; try lia; cbn [decode_stream fmap list_fmap concat].
  - simpl app. rewrite (decode_prefix f pl ty p s) by done. done.
  - rewrite <- app_assoc. simpl fst; simpl snd.
    destruct (decode_wire f m t
      (concat ((fun m => wire f m.1 m.2) <$> msgs) ++ p) Henc) as (fr & Hd & Ht & Hb).
    rewrite Hd. cbn [mbind option_bind]. rewrite Hb. cbn [mbind option_bind].
    rewrite Ht. unfold zlen. rewrite Nat2Z.id, drop_app_length, IH by lia. done.
Qed.

(** Reassembly: a byte stream that is the concatenation of encoded messages
    followed by the beginning of another decodes to exactly those messages and
    leaves exactly the beginning, whatever the chunk boundaries were. *)
Lemma decode_stream_reassembles f msgs p s pl ty :
  Forall (fun m => encodable f m.1 m.2) msgs ->
  encodable f pl ty -> wire f pl ty = p ++ s -> s <> [] ->
  let data := concat ((fun m => wire f m.1 m.2) <$> msgs) ++ p in
  decode_stream f (S (length data)) data = Some (msgs.*1, p, None).
Proof using FramerSafe0.
  intros Hm Hpl Hp Hs data. apply (decode_stream_wires f msgs p s pl ty); try done.
  unfold data. clear -Hm FramerSafe0. rewrite length_app.
  induction Hm as [|[m t] msgs Henc _ IH]; [simpl; lia|].
  pose proof (wire_nonempty f m t Henc). rewrite fmap_cons. cbn [concat length fst snd] in *.
  rewrite length_app. lia.
Qed.
End client.

(** One message as its framer puts it on the wire: [encode] into a fresh buffer
    of [len + max_overhead()] bytes, as the concept's precondition asks. *)
Definition encode_msg {F} `{MessageFramer F} (f : F) (m : list byte * Z) : option (list byte) :=
  '(n, o) ← encode f (Some (replicate (Z.to_nat (zlen m.1 + max_overhead f)) x00))
              (Some m.1) (zlen m.1) m.2;
  out ← o;
  Some (take (Z.to_nat n) out).

Section encode_msg.
Context {F : Type} `{MessageFramer F} `{!FramerSafe F} `{!SelfDelimiting F}.

Lemma encode_msg_wire f m :
  0 <= max_overhead f -> encodable f m.1 m.2 -> encode_msg f m = Some (wire f m.1 m.2).
Proof using Type.
  intros Ho He. unfold encode_msg. pose proof (zlen_nonneg m.1).
  edestruct (encode_wire f (replicate (Z.to_nat (zlen m.1 + max_overhead f)) x00)
    m.1 m.2 He) as [Hl ->].
  - unfold zlen at 2. rewrite length_replicate. lia.
  - cbn [mbind option_bind]. unfold zlen at 1. by rewrite Nat2Z.id, take_app_length.
Qed.

Lemma encode_msgs_wire f msgs :
  0 <= max_overhead f -> Forall (fun m => encodable f m.1 m.2) msgs ->
  mapM (encode_msg f) msgs = Some ((fun m => wire f m.1 m.2) <$> msgs).
Proof using Type.
  intros Ho Hm. apply mapM_Some. induction Hm; [constructor|].
  rewrite fmap_cons. constructor; [by apply encode_msg_wire|done].
Qed.

(** Sending and receiving through a self-delimiting framer is lossless. *)
Lemma encoded_stream_roundtrip f msgs m p s :
  0 <= max_overhead f -> Forall (fun m => encodable f m.1 m.2) msgs -> encodable f m.1 m.2 ->
  encode_msg f m = Some (p ++ s) -> s <> [] ->
  exists ws, mapM (encode_msg f) msgs = Some ws /\
    decode_stream f (S (length (concat ws ++ p))) (concat ws ++ p) = Some (msgs.*1, p, None).
Proof using FramerSafe0.
  intros Ho Hm He Hp Hs. rewrite encode_msgs_wire by done. eexists; split; [done|].
  rewrite encode_msg_wire in Hp by done. injection Hp as Hp.
  by apply (decode_stream_reassembles f msgs p s m.1 m.2).
Qed.
End encode_msg.

(** ** Properties *)

(** the framers never read outside the receive buffer: for every input
    [decode] of the length-prefix, SoupBinTCP and JSON framers returns a result,
    and a frame it accepts consumes between one and all of the bytes and denotes
    a payload that lies inside them. *)
Theorem framers_decode_memory_safe (data : list byte) :
  let safe (r : option (expected DecodedFrame FrameError)) :=
    exists v, r = Some v /\
      forall fr, v = Ok fr ->
        0 < total_len fr <= zlen data /\ is_Some (frame_bytes data fr) in
  safe (LengthPrefix.lp_decode LengthPrefix.mkLengthPrefixFramer data) /\
  safe (SoupBin.sb_decode SoupBin.mkSoupBinTcpFramer data) /\
  safe (Json.json_decode Json.mkJsonFramer data).
Proof.
  assert (forall F `{FramerSafe F} (f : F), exists v, decode f data = Some v /\
    forall fr, v = Ok fr -> 0 < total_len fr <= zlen data /\ is_Some (frame_bytes data fr)) as Hg.
  { intros F ? ? f. destruct (decode_safe f data) as [v Hv]. exists v. split; [done|].
    intros fr ->. destruct (decode_in_bounds f data fr Hv) as (? & ? & _). done. }
  split; [|split];
    [apply (Hg _ _ LengthPrefix.lp_safe)|apply (Hg _ _ SoupBin.sb_safe)|apply (Hg _ _ Json.json_safe)].
Qed.

(** length-prefix framing round trip over a stream: payloads of 1 to 65535
    bytes, encoded and sent back to back and followed by the beginning of one
    more, are decoded to exactly those payloads in order, and the unfinished
    bytes are kept. *)
Theorem lp_stream_roundtrip (msgs : list (list byte * Z)) (m : list byte * Z) (p s : list byte) :
  let f := LengthPrefix.mkLengthPrefixFramer in
  Forall (fun m => 0 < zlen m.1 <= 65535) msgs -> 0 < zlen m.1 <= 65535 ->
  encode_msg f m = Some (p ++ s) -> s <> [] ->
  exists ws, mapM (encode_msg f) msgs = Some ws /\
    decode_stream f (S (length (concat ws ++ p))) (concat ws ++ p) = Some (msgs.*1, p, None).
Proof. intros f Hm He. by apply encoded_stream_roundtrip. Qed.

Lemma lp_stream_roundtrip_witness :
  exists ws, mapM (encode_msg LengthPrefix.mkLengthPrefixFramer) [([x41; x42], 0); ([x00], 0)] = Some ws /\
    decode_stream LengthPrefix.mkLengthPrefixFramer (S (length (concat ws ++ [x00])))
      (concat ws ++ [x00]) = Some ([[x41; x42]; [x00]], [x00], None).
Proof.
  apply (lp_stream_roundtrip [([x41; x42], 0); ([x00], 0)] ([x07], 0) [x00] [x01; x07]).
  - repeat constructor; vm_compute; congruence.
  - vm_compute. split; congruence.
  - reflexivity.
  - discriminate.
Defined.

(** SoupBinTCP framing round trip over a stream: packets of any type byte
    with payloads of up to 65534 bytes (empty ones included) are decoded to
    exactly the payloads sent, in order, and the beginning of an unfinished
    packet is kept. *)
Theorem soupbin_stream_roundtrip (msgs : list (list byte * Z)) (m : list byte * Z) (p s : list byte) :
  let f := SoupBin.mkSoupBinTcpFramer in
  Forall (fun m => zlen m.1 <= 65534 /\ 0 <= m.2 < 256) msgs ->
  zlen m.1 <= 65534 /\ 0 <= m.2 < 256 ->
  encode_msg f m = Some (p ++ s) -> s <> [] ->
  exists ws, mapM (encode_msg f) msgs = Some ws /\
    decode_stream f (S (length (concat ws ++ p))) (concat ws ++ p) = Some (msgs.*1, p, None).
Proof. intros f Hm He. by apply encoded_stream_roundtrip. Qed.

Lemma soupbin_stream_roundtrip_witness :
  exists ws, mapM (encode_msg SoupBin.mkSoupBinTcpFramer) [([x41], 83); ([], 72)] = Some ws /\
    decode_stream SoupBin.mkSoupBinTcpFramer (S (length (concat ws ++ [x00; x02])))
      (concat ws ++ [x00; x02]) = Some ([[x41]; []], [x00; x02], None).
Proof.
  apply (soupbin_stream_roundtrip [([x41], 83); ([], 72)] ([x07], 83) [x00; x02] [x53; x07]).
  - repeat constructor; vm_compute; congruence.
  - split; [|split]; vm_compute; congruence.
  - reflexivity.
  - discriminate.
Defined.
