(* ===== verification/FixText.v ===== *)
(** Text conversions of the FIX module: integers in decimal
    (src/eph-core/include/eph/core/parse_number.hpp [parse_int];
    [format_uint], [format_int], [set_price] of
    src/eph-fix/include/eph/fix/builder.hpp). *)
From S2P Require Import Prelude.
Local Open Scope Z_scope.

(** ** Characters and digits *)

Definition SOH : byte := x01.
Definition ch_eq : byte := x3d.
Definition ch_minus : byte := x2d.
Definition ch_dot : byte := x2e.
Definition ch_colon : byte := x3a.

(** [c >= '0' && c <= '9'].  A [char] above 127 is negative or large; neither is a
    digit. *)
Definition is_digit (c : byte) : bool := (48 <=? b2z c) && (b2z c <=? 57).
Definition digit_of (c : byte) : Z := b2z c - 48.
Definition digit_char (d : Z) : byte := z2b (48 + d).

Definition digits (ds : list byte) : Prop := Forall (fun c => is_digit c = true) ds.
Definition dec_val (ds : list byte) : Z := foldl (fun acc c => acc * 10 + digit_of c) 0 ds.

Lemma is_digit_spec c : is_digit c = true <-> 0 <= digit_of c <= 9.
Proof. unfold is_digit, digit_of. rewrite andb_true_iff, !Z.leb_le. lia. Qed.

Lemma digit_char_spec d : 0 <= d <= 9 -> is_digit (digit_char d) = true /\ digit_of (digit_char d) = d.
Proof.
  intros Hd. rewrite is_digit_spec. unfold digit_of, digit_char. rewrite b2z_z2b_small by lia. lia.
Qed.

Lemma digit_not_soh c : is_digit c = true -> c <> SOH /\ c <> ch_eq /\ c <> ch_minus.
Proof. intros H. split_and!; intros ->; done. Qed.

Lemma dec_val_snoc ds c : dec_val (ds ++ [c]) = dec_val ds * 10 + digit_of c.
Proof. unfold dec_val. by rewrite foldl_app. Qed.

Lemma foldl_dec acc ds :
  foldl (fun a c => a * 10 + digit_of c) acc ds = acc * 10 ^ zlen ds + dec_val ds.
Proof.
  induction ds as [|c ds IH] using rev_ind.
  - change (zlen (@nil byte)) with 0. cbn. lia.
  - rewrite dec_val_snoc, foldl_app. cbn [foldl]. rewrite IH. zlens.
    rewrite Z.pow_add_r, Z.pow_1_r by (apply zlen_nonneg || lia). ring.
Qed.

Lemma dec_val_cons c ds : dec_val (c :: ds) = digit_of c * 10 ^ zlen ds + dec_val ds.
Proof. unfold dec_val at 1. cbn [foldl]. by rewrite foldl_dec. Qed.

Lemma dec_val_bound ds : digits ds -> 0 <= dec_val ds < 10 ^ zlen ds.
Proof.
  induction 1 as [|c ds Hc _ IH]; [change (zlen (@nil byte)) with 0; cbn; lia|].
  apply is_digit_spec in Hc. rewrite dec_val_cons, zlen_cons, Z.pow_add_r, Z.pow_1_r by (apply zlen_nonneg || lia). nia.
Qed.

Lemma zlen_ne_nil {A} (l : list A) : 0 < zlen l -> l <> [].
Proof. by intros H ->. Qed.

(** ** Formatting integers *)

(** [while (val > 0) tmp[i++] = '0' + val % 10; val /= 10;] into [char tmp[20]]:
    the least significant digit first, [None] if the 20 bytes do not suffice. *)
Fixpoint fu_loop (room : nat) (val : Z) : option (list byte) :=
  if val <=? 0 then Some [] else
  match room with
  | O => None
  | S room => ds ← fu_loop room (val / 10); Some (digit_char (val mod 10) :: ds)
  end.

Definition format_uint (val : Z) : option (list byte) :=
  if val =? 0 then Some [digit_char 0] else ds ← fu_loop 20 val; Some (rev ds).

(** [int64_t] reinterpreted from [uint64_t]. *)
Definition s64 (z : Z) : Z := if z <? 2 ^ 63 then z else z - 2 ^ 64.

Definition format_int (val : Z) : option (list byte) :=
  if val <? 0 then ds ← format_uint (u64 (- u64 val)); Some (ch_minus :: ds)
  else format_uint (u64 val).

Lemma fu_loop_spec room val :
  0 <= val < 10 ^ Z.of_nat room ->
  exists ds, fu_loop room val = Some ds /\ digits (rev ds) /\ dec_val (rev ds) = val /\
    (length ds <= room)%nat /\ (0 < val -> ds <> []).
Proof.
  revert val; induction room as [|room IH]; intros val Hv.
  - assert (val = 0) as -> by (cbn in Hv; lia). exists []. split_and!; try done. constructor.
  - cbn [fu_loop]. destruct (Z.leb_spec val 0).
    { exists []. assert (val = 0) as -> by lia. split_and!; try done; [constructor|cbn; lia]. }
    rewrite Nat2Z.inj_succ, Z.pow_succ_r in Hv by lia.
    destruct (IH (val / 10)) as (ds & -> & Hd & Hval & Hl & _).
    { split; [apply Z.div_pos; lia|apply Z.div_lt_upper_bound; lia]. }
    pose proof (Z.mod_pos_bound val 10 ltac:(lia)).
    destruct (digit_char_spec (val mod 10) ltac:(lia)) as [H1 H2].
    eexists. split; [done|]. cbn [rev length]. split_and!; try done.
    + apply Forall_app. split; [done|]. by repeat constructor.
    + rewrite dec_val_snoc, Hval, H2. pose proof (Z.div_mod val 10). lia.
    + lia.
Qed.

(** A 64-bit value always fits, and its text is its value in decimal. *)
Lemma format_uint_spec val :
  0 <= val < 2 ^ 64 ->
  exists ds, format_uint val = Some ds /\ digits ds /\ dec_val ds = val /\ 1 <= zlen ds <= 20.
Proof.
  intros Hv. unfold format_uint. destruct (Z.eqb_spec val 0) as [->|Hne].
  { exists [digit_char 0]. split_and!; try done. by repeat constructor. }
  destruct (fu_loop_spec 20 val) as (ds & -> & Hd & Hval & Hl & Hne'); [cbn; lia|].
  exists (rev ds). split_and!; try done; unfold zlen; rewrite length_rev; [|lia].
  destruct ds; [by destruct (Hne' ltac:(lia))|cbn; lia].
Qed.

(** ** Parsing integers: [eph::core::parse_int] *)

Definition INT64_MAX : Z := 2 ^ 63 - 1.

Fixpoint pint_loop (limit result : Z) (p : list byte) : option Z :=
  match p with
  | [] => Some result
  | c :: p =>
      if negb (is_digit c) then None else
      let digit := digit_of c in
      if u64 (limit - digit) / 10 <? result then None
      else pint_loop limit (u64 (result * 10 + digit)) p
  end.

Definition parse_int (sv : list byte) : option Z :=
  match sv with
  | [] => None
  | c :: t =>
      let '(negative, p) := if decide (c = ch_minus) then (true, t) else (false, sv) in
      match p with
      | [] => None
      | _ =>
          let limit := if negative : bool then INT64_MAX + 1 else INT64_MAX in
          result ← pint_loop limit 0 p;
          Some (s64 (if negative : bool then u64 (- result) else result))
      end
  end.

(** The reference: an optional sign, at least one digit, and a value in range. *)
Definition int_text (neg : bool) (ds : list byte) : list byte := if neg then ch_minus :: ds else ds.
Definition int_value (neg : bool) (ds : list byte) : Z := if neg then - dec_val ds else dec_val ds.

Lemma pint_loop_spec limit p :
  9 <= limit < 2 ^ 64 -> forall result, 0 <= result <= limit ->
  pint_loop limit result p =
    if decide (digits p /\ foldl (fun a c => a * 10 + digit_of c) result p <= limit)
    then Some (foldl (fun a c => a * 10 + digit_of c) result p) else None.
Proof.
  intros Hlim. induction p as [|c p IH]; intros result Hr; cbn [pint_loop foldl].
  { rewrite decide_True; [done|]. split; [constructor|lia]. }
  destruct (is_digit c) eqn:Hc; cbn [negb].
  2: { rewrite decide_False; [done|]. intros [H _]. apply Forall_cons_1 in H as [H _]. congruence. }
  apply is_digit_spec in Hc as Hd. rewrite wrap_small by lia.
  pose proof (Z.mul_div_le (limit - digit_of c) 10 ltac:(lia)).
  pose proof (Z.mul_succ_div_gt (limit - digit_of c) 10 ltac:(lia)).
  assert (digits (c :: p) <-> digits p) as Hdig.
  { split; [by intros [_ ?]%Forall_cons_1|by constructor]. }
  destruct (Z.ltb_spec ((limit - digit_of c) / 10) result).
  - rewrite decide_False; [done|]. intros [Hp Hle]. apply Hdig in Hp. rewrite foldl_dec in Hle.
    pose proof (dec_val_bound p Hp). assert (1 <= 10 ^ zlen p) by (pose proof (Z.pow_pos_nonneg 10 (zlen p)); pose proof (zlen_nonneg p); lia).
    nia.
  - rewrite wrap_small by lia. rewrite IH by lia. by apply decide_ext; rewrite Hdig.
Qed.

(** The value [pint_loop] computes, as [int64_t]. *)
Lemma pint_result neg ds :
  let limit := if neg : bool then INT64_MAX + 1 else INT64_MAX in
  (result ← pint_loop limit 0 ds; Some (s64 (if neg : bool then u64 (- result) else result))) =
    if decide (digits ds /\ - 2 ^ 63 <= int_value neg ds < 2 ^ 63) then Some (int_value neg ds) else None.
Proof.
  cbn zeta. rewrite pint_loop_spec by (unfold INT64_MAX; destruct neg; lia). fold (dec_val ds).
  destruct (decide (digits ds /\ - 2 ^ 63 <= int_value neg ds < 2 ^ 63)) as [[Hd Hr]|Hn].
  - pose proof (dec_val_bound ds Hd) as Hb. rewrite decide_True by (split; [done|destruct neg; unfold INT64_MAX, int_value in *; lia]).
    cbn. f_equal. unfold s64, int_value, INT64_MAX in *. destruct neg.
    + destruct (decide (dec_val ds = 0)) as [->|]; [done|].
      unfold wrap. rewrite Z.mod_opp_l_nz, Z.mod_small by (rewrite ?Z.mod_small; lia). zdecide. lia.
    + by zdecide.
  - rewrite decide_False; [done|]. intros [Hd Hle]. apply Hn. split; [done|].
    pose proof (dec_val_bound ds Hd). unfold int_value, INT64_MAX in *. destruct neg; lia.
Qed.

(** [parse_int] accepts exactly the decimal texts of [int64_t] values. *)
Lemma parse_int_spec sv v :
  parse_int sv = Some v <->
  exists neg ds, sv = int_text neg ds /\ ds <> [] /\ digits ds /\ v = int_value neg ds /\ - 2 ^ 63 <= v < 2 ^ 63.
Proof.
  split.
  - unfold parse_int. destruct sv as [|c t]; [done|]. intros E.
    destruct (decide (c = ch_minus)) as [->|Hc].
    + destruct t as [|c' t]; [done|]. pose proof (pint_result true (c' :: t)) as Hp. cbn zeta iota in Hp.
      rewrite Hp in E. destruct (decide _) as [[Hd Hr]|]; [|done]. simplify_eq. by exists true, (c' :: t).
    + pose proof (pint_result false (c :: t)) as Hp. cbn zeta iota in Hp.
      rewrite Hp in E. destruct (decide _) as [[Hd Hr]|]; [|done]. simplify_eq. by exists false, (c :: t).
  - intros (neg & ds & -> & Hne & Hd & -> & Hr). unfold parse_int. destruct neg; cbn [int_text].
    + rewrite decide_True by done. destruct ds as [|c t]; [done|].
      pose proof (pint_result true (c :: t)) as Hp. cbn zeta iota in Hp. rewrite Hp. by rewrite decide_True.
    + destruct ds as [|c t]; [done|]. apply Forall_cons_1 in Hd as Hd'. destruct Hd' as [Hc _].
      rewrite decide_False by (by apply digit_not_soh in Hc as (_ & _ & ?)).
      pose proof (pint_result false (c :: t)) as Hp. cbn zeta iota in Hp. rewrite Hp. by rewrite decide_True.
Qed.

Lemma format_int_spec v :
  - 2 ^ 63 <= v < 2 ^ 63 ->
  exists ds, format_int v = Some (int_text (v <? 0) ds) /\ digits ds /\ ds <> [] /\ int_value (v <? 0) ds = v.
Proof.
  intros Hv. unfold format_int. destruct (Z.ltb_spec v 0).
  - assert (u64 (- u64 v) = - v) as ->.
    { unfold wrap. rewrite <- (Z.sub_0_l (v mod _)), Zminus_mod_idemp_r. apply Z.mod_small. lia. }
    destruct (format_uint_spec (- v) ltac:(lia)) as (ds & -> & Hd & Hval & Hl). exists ds.
    cbn. split_and!; try done; [by apply zlen_ne_nil; lia|lia].
  - rewrite wrap_small by lia.
    destruct (format_uint_spec v ltac:(lia)) as (ds & -> & Hd & Hval & Hl). exists ds.
    cbn. split_and!; try done. apply zlen_ne_nil; lia.
Qed.

(** What [format_int] writes reads back. *)
Lemma format_int_parse v : - 2 ^ 63 <= v < 2 ^ 63 -> exists t, format_int v = Some t /\ parse_int t = Some v.
Proof.
  intros Hv. destruct (format_int_spec v Hv) as (ds & -> & Hd & Hne & Hval).
  eexists. split; [done|]. apply parse_int_spec. by exists (v <? 0), ds.
Qed.

(** ** Prices: [set_price] without its final [set_trusted] *)

(** [while (frac_divisor > 0 && frac_part < frac_divisor) '0', frac_divisor /= 10]
    for a divisor of [n] digits. *)
Fixpoint leading_zeros (n : nat) (frac_divisor frac_part : Z) : list byte :=
  match n with
  | O => []
  | S n =>
      if (0 <? frac_divisor) && (frac_part <? frac_divisor)
      then digit_char 0 :: leading_zeros n (frac_divisor / 10) frac_part else []
  end.

(** [mantissa * 10 ^ (- decimals)] as text, for [decimals > 0]. *)
Definition format_price (mantissa decimals : Z) : option (list byte) :=
  let decimals := if 18 <? decimals then 18 else decimals in
  let abs_val := if mantissa <? 0 then u64 (- u64 mantissa) else u64 mantissa in
  let divisor := 10 ^ decimals in
  let int_part := abs_val / divisor in
  let frac_part := abs_val mod divisor in
  ip ← format_uint int_part;
  fp ← (if 0 <? frac_part then format_uint frac_part else Some []);
  Some ((if mantissa <? 0 then [ch_minus] else []) ++ ip ++ [ch_dot] ++
        leading_zeros 18 (divisor / 10) frac_part ++ fp).

Lemma fu_loop_len room val n :
  0 < val -> 10 ^ n <= val < 10 ^ (n + 1) -> 0 <= n < Z.of_nat room ->
  exists ds, fu_loop room val = Some ds /\ zlen ds = n + 1.
Proof.
  revert val n; induction room as [|room IH]; intros val n Hp Hv Hn; [lia|].
  cbn [fu_loop]. zdecide. rewrite Z.pow_add_r, Z.pow_1_r in Hv by lia.
  destruct (decide (n = 0)) as [->|].
  - rewrite Z.div_small by (cbn in Hv; lia). exists [digit_char (val mod 10)].
    split; [by destruct room|done].
  - assert (10 ^ n = 10 ^ (n - 1) * 10) as E by (rewrite <- (Z.pow_1_r 10) at 3; rewrite <- Z.pow_add_r by lia; f_equal; lia).
    assert (0 < 10 ^ (n - 1)) by (apply Z.pow_pos_nonneg; lia).
    destruct (IH (val / 10) (n - 1)) as (ds & -> & Hl).
    + apply Z.div_str_pos. lia.
    + replace (n - 1 + 1) with n by lia. split; [apply Z.div_le_lower_bound; lia|apply Z.div_lt_upper_bound; lia].
    + lia.
    + eexists. split; [done|]. zlens. lia.
Qed.

Lemma format_uint_len val n :
  10 ^ n <= val < 10 ^ (n + 1) -> 0 <= n < 19 ->
  exists ds, format_uint val = Some ds /\ zlen ds = n + 1.
Proof.
  intros Hv Hn. assert (0 < 10 ^ n) by (apply Z.pow_pos_nonneg; lia).
  unfold format_uint. zdecide. destruct (fu_loop_len 20 val n) as (ds & -> & Hl); [lia..|].
  exists (rev ds). split; [done|]. unfold zlen in *. by rewrite length_rev.
Qed.

(** A 32-bit number has at most ten digits. *)
Lemma format_int_u32_len v : 0 <= v < 2 ^ 32 -> exists t, format_int v = Some t /\ parse_int t = Some v /\ zlen t <= 10.
Proof.
  intros Hv. destruct (format_int_parse v ltac:(lia)) as (t & E & Hp). exists t. split; [done|]. split; [done|].
  unfold format_int in E. rewrite (proj2 (Z.ltb_ge v 0)), wrap_small in E by lia.
  destruct (Z.eq_dec v 0) as [->|Hne]; [vm_compute in E; by injection E as <-|].
  assert (exists n, 0 <= n <= 9 /\ 10 ^ n <= v < 10 ^ (n + 1)) as (n & Hn & Hr).
  { exists (if v <? 10 then 0 else if v <? 100 then 1 else if v <? 1000 then 2 else if v <? 10000 then 3 else
            if v <? 100000 then 4 else if v <? 1000000 then 5 else if v <? 10000000 then 6 else
            if v <? 100000000 then 7 else if v <? 1000000000 then 8 else 9). zbool; cbn; lia. }
  destruct (format_uint_len v n Hr ltac:(lia)) as (ds & E' & Hl). rewrite E in E'. injection E' as <-. lia.
Qed.

Lemma dec_val_zero ds : dec_val (digit_char 0 :: ds) = dec_val ds.
Proof. rewrite dec_val_cons. by change (digit_of (digit_char 0)) with 0. Qed.

(** The fractional part is padded to exactly the number of decimals. *)
Lemma leading_zeros_spec n d frac fp :
  (Z.to_nat d <= n)%nat -> 0 <= d <= 18 -> 0 <= frac < 10 ^ d ->
  (if 0 <? frac then format_uint frac else Some []) = Some fp ->
  let fs := leading_zeros n (10 ^ d / 10) frac ++ fp in
  digits fs /\ zlen fs = d /\ dec_val fs = frac.
Proof.
  intros Hn Hd Hf Efp. cbn zeta. revert d Hn Hd Hf; induction n as [|n IH]; intros d Hn Hd Hf; cbn [leading_zeros].
  { assert (d = 0) as -> by lia. assert (frac = 0) as -> by (cbn in Hf; lia). cbn in Efp. simplify_eq.
    split_and!; try done. constructor. }
  destruct (decide (d = 0)) as [->|Hd0].
  { assert (frac = 0) as -> by (cbn in Hf; lia). cbn in Efp. simplify_eq. split_and!; try done. constructor. }
  assert (10 ^ d / 10 = 10 ^ (d - 1)) as ->.
  { replace d with (d - 1 + 1) at 1 by lia. rewrite Z.pow_add_r, Z.pow_1_r by lia. apply Z.div_mul. lia. }
  assert (0 < 10 ^ (d - 1)) by (apply Z.pow_pos_nonneg; lia). zdecide.
  destruct (Z.ltb_spec frac (10 ^ (d - 1))); cbn [andb app].
  - destruct (IH (d - 1)) as (H1 & H2 & H3); [lia..|]. rewrite dec_val_zero, zlen_cons.
    split_and!; try lia. by constructor.
  - rewrite (proj2 (Z.ltb_lt 0 frac)) in Efp by lia.
    destruct (format_uint_spec frac) as (ds & E & H1 & H2 & _).
    { split; [lia|]. assert (10 ^ d <= 10 ^ 18) by (apply Z.pow_le_mono_r; lia). lia. }
    destruct (format_uint_len frac (d - 1)) as (ds' & E' & H3); [replace (d - 1 + 1) with d by lia; lia|lia|].
    simplify_eq. split_and!; try done. lia.
Qed.

(** A price text is sign, integer digits, a point and exactly [decimals] digits,
    and denotes the mantissa. *)
Lemma format_price_spec mantissa decimals :
  - 2 ^ 63 <= mantissa < 2 ^ 63 -> 0 < decimals <= 18 ->
  exists ip fs, format_price mantissa decimals =
      Some ((if mantissa <? 0 then [ch_minus] else []) ++ ip ++ [ch_dot] ++ fs) /\
    digits ip /\ ip <> [] /\ digits fs /\ zlen fs = decimals /\
    dec_val ip * 10 ^ decimals + dec_val fs = Z.abs mantissa.
Proof.
  intros Hm Hd. unfold format_price. rewrite (proj2 (Z.ltb_ge 18 decimals)) by lia.
  assert ((if mantissa <? 0 then u64 (- u64 mantissa) else u64 mantissa) = Z.abs mantissa) as ->.
  { destruct (Z.ltb_spec mantissa 0).
    - unfold wrap. rewrite <- (Z.sub_0_l (mantissa mod _)), Zminus_mod_idemp_r, Z.mod_small by lia. lia.
    - rewrite wrap_small by lia. lia. }
  assert (0 < 10 ^ decimals) as Hpow by (apply Z.pow_pos_nonneg; lia).
  pose proof (Z.mod_pos_bound (Z.abs mantissa) _ Hpow) as Hmod.
  assert (0 <= Z.abs mantissa / 10 ^ decimals <= Z.abs mantissa) as Hq.
  { split; [apply Z.div_pos; lia|]. apply Z.div_le_upper_bound; nia. }
  destruct (format_uint_spec (Z.abs mantissa / 10 ^ decimals)) as (ip & -> & H1 & H2 & H3); [lia|].
  assert (exists fp, (if 0 <? Z.abs mantissa mod 10 ^ decimals
    then format_uint (Z.abs mantissa mod 10 ^ decimals) else Some []) = Some fp) as [fp Efp].
  { destruct (0 <? _); [|eauto]. assert (10 ^ decimals <= 10 ^ 18) by (apply Z.pow_le_mono_r; lia).
    destruct (format_uint_spec (Z.abs mantissa mod 10 ^ decimals)) as (fp & -> & _); [lia|eauto]. }
  destruct (leading_zeros_spec 18 decimals _ fp ltac:(lia) ltac:(lia) Hmod Efp) as (H4 & H5 & H6).
  cbn [mbind option_bind]. rewrite Efp. eexists ip, _. split; [done|].
  split_and!; try done; [apply zlen_ne_nil; lia|]. rewrite H2, H6.
  pose proof (Z.div_mod (Z.abs mantissa) (10 ^ decimals)). lia.
Qed.

(** integers as text.  [parse_int] accepts exactly an optional minus sign and one
    or more digits whose value fits [int64_t], and returns that value; what
    [format_int] writes for any [int64_t], the least one included, reads back as the
    same number. *)
Theorem int_text_exact sv v :
  (parse_int sv = Some v <->
   exists neg ds, sv = int_text neg ds /\ ds <> [] /\ digits ds /\ v = int_value neg ds /\ - 2 ^ 63 <= v < 2 ^ 63) /\
  (- 2 ^ 63 <= v < 2 ^ 63 -> exists t, format_int v = Some t /\ parse_int t = Some v).
Proof.
  split; [apply parse_int_spec|apply format_int_parse].
Qed.

Lemma int_text_exact_witness :
  exists t, format_int (- 2 ^ 63) = Some t /\ parse_int t = Some (- 2 ^ 63).
Proof. apply (int_text_exact [] (- 2 ^ 63)). lia. Defined.
