(* ===== verification/FixTime.v ===== *)
(** UTC timestamps of the FIX module: [MessageBuilder::set_timestamp] of
    src/eph-fix/include/eph/fix/builder.hpp (nanoseconds since the epoch to text) and
    [detail::parse_timestamp_value] of src/eph-fix/include/eph/fix/parser.hpp (text to
    nanoseconds), and that the second undoes the first. *)
From S2P Require Import Prelude FixText.
Local Open Scope Z_scope.

(** ** Formatting *)

(** The civil date of a day count since 0000-03-01: year, month, day. *)
Definition civil_of_days (z : Z) : Z * Z * Z :=
  let era := Z.quot (if 0 <=? z then z else z - 146096) 146097 in
  let doe := z - era * 146097 in
  let yoe := (doe - doe / 1460 + doe / 36524 - doe / 146096) / 365 in
  let y := yoe + era * 400 in
  let doy := doe - (365 * yoe + yoe / 4 - yoe / 100) in
  let mp := (5 * doy + 2) / 153 in
  let day := doy - (153 * mp + 2) / 5 + 1 in
  let mon := if mp <? 10 then mp + 3 else mp - 9 in
  (if mon <=? 2 then y + 1 else y, mon, day).

(** [for (i = frac_digits - 1; i >= 0; --i) tmp[18 + i] = '0' + frac_val % 10]. *)
Fixpoint frac_chars (n : nat) (frac_val : Z) : list byte :=
  match n with
  | O => []
  | S n => frac_chars n (frac_val / 10) ++ [digit_char (frac_val mod 10)]
  end.

Inductive TimestampPrecision := kSeconds | kMilliseconds | kMicroseconds | kNanoseconds.
Definition frac_digits (p : TimestampPrecision) : nat :=
  match p with kSeconds => 0 | kMilliseconds => 3 | kMicroseconds => 6 | kNanoseconds => 9 end.
(** Nanoseconds per unit of the last digit. *)
Definition frac_unit (p : TimestampPrecision) : Z :=
  match p with kSeconds => 1000000000 | kMilliseconds => 1000000 | kMicroseconds => 1000 | kNanoseconds => 1 end.

Definition two_digits (n : Z) : list byte := [digit_char (n / 10); digit_char (n mod 10)].

Definition format_timestamp (epoch_ns : Z) (prec : TimestampPrecision) : list byte :=
  let epoch_sec := epoch_ns / 1000000000 in
  let day_sec := epoch_sec mod 86400 in
  let hour := day_sec / 3600 in
  let minute := (day_sec mod 3600) / 60 in
  let second := day_sec mod 60 in
  let '(year, mon, day) := civil_of_days (epoch_sec / 86400 + 719468) in
  [digit_char ((year / 1000) mod 10); digit_char ((year / 100) mod 10);
   digit_char ((year / 10) mod 10); digit_char (year mod 10)] ++
  two_digits mon ++ two_digits day ++ [ch_minus] ++
  two_digits hour ++ [ch_colon] ++ two_digits minute ++ [ch_colon] ++ two_digits second ++
  (if decide (frac_digits prec = 0%nat) then []
   else ch_dot :: frac_chars (frac_digits prec) ((epoch_ns mod 1000000000) / frac_unit prec)).

(** ** Parsing *)

Definition kDaysInMonth : list Z := [31; 28; 31; 30; 31; 30; 31; 31; 30; 31; 30; 31].

Definition is_leap (year : Z) : bool :=
  (year mod 4 =? 0) && (negb (year mod 100 =? 0) || (year mod 400 =? 0)).

(** [digit(p[i])], -1 for a character that is none. *)
Definition digit_at (p : list byte) (i : Z) : option Z :=
  c ← rd p i; Some (if is_digit c then digit_of c else -1).

(** The number formed by the [n] digits at [i]; [Some None] if one is not a digit. *)
Fixpoint number_at (n : nat) (acc : Z) (p : list byte) (i : Z) : option (option Z) :=
  match n with
  | O => Some (Some acc)
  | S n =>
      d ← digit_at p i;
      if d <? 0 then Some None else number_at n (acc * 10 + d) p (i + 1)
  end.

(** The day count since the epoch. *)
Definition days_of_civil (year month day : Z) : Z :=
  let y := if month <=? 2 then year - 1 else year in
  let era := Z.quot (if 0 <=? y then y else y - 399) 400 in
  let yoe := y - era * 400 in
  let doy := (153 * (if 2 <? month then month - 3 else month + 9) + 2) / 5 + day - 1 in
  let doe := yoe * 365 + yoe / 4 - yoe / 100 + doy in
  era * 146097 + doe - 719468.

Definition kMaxEpochSec : Z := UINT64_MAX / 1000000000.

(** The range checks and the arithmetic after the fields are read. *)
Definition timestamp_of (year month day hour minute second frac_ns : Z) : option Z :=
  let days := days_of_civil year month day in
  if days <? 0 then None else
  let epoch_sec := days * 86400 + hour * 3600 + minute * 60 + second in
  if kMaxEpochSec <? epoch_sec then None else
  if (epoch_sec =? kMaxEpochSec) && (UINT64_MAX - kMaxEpochSec * 1000000000 <? frac_ns) then None
  else Some (u64 (u64 (epoch_sec * 1000000000) + frac_ns)).

Notation "x ←! e ; k" := (r ← e; match r with Some x => k | None => Some None end)
  (at level 20, e at level 100, k at level 200, only parsing).

Definition parse_timestamp_value (sv : list byte) : option (option Z) :=
  let size := zlen sv in
  if negb (size =? 17) && negb (size =? 21) && negb (size =? 24) && negb (size =? 27) then Some None else
  year ←! number_at 4 0 sv 0;
  month ←! number_at 2 0 sv 4;
  day ←! number_at 2 0 sv 6;
  c8 ← rd sv 8;
  if decide (c8 <> ch_minus) then Some None else
  if (month <? 1) || (12 <? month) || (day <? 1) || (31 <? day) then Some None else
  dim ← kDaysInMonth !! Z.to_nat (month - 1);
  let max_day := if (month =? 2) && is_leap year then 29 else dim in
  if max_day <? day then Some None else
  hour ←! number_at 2 0 sv 9;
  minute ←! number_at 2 0 sv 12;
  second ←! number_at 2 0 sv 15;
  c11 ← rd sv 11;
  c14 ← rd sv 14;
  if decide (c11 <> ch_colon \/ c14 <> ch_colon) then Some None else
  if (23 <? hour) || (59 <? minute) || (59 <? second) then Some None else
  if 17 <? size then
    c17 ← rd sv 17;
    if decide (c17 <> ch_dot) then Some None else
    let frac_len := size - 18 in
    frac_val ←! number_at (Z.to_nat frac_len) 0 sv 18;
    let frac_ns := if frac_len =? 3 then frac_val * 1000000
                   else if frac_len =? 6 then frac_val * 1000
                   else if frac_len =? 9 then frac_val else 0 in
    Some (timestamp_of year month day hour minute second frac_ns)
  else Some (timestamp_of year month day hour minute second 0).

(** ** The calendar, 400 years at a time *)

Definition max_day (year month : Z) : Z :=
  if (month =? 2) && is_leap year then 29 else default 0 (kDaysInMonth !! Z.to_nat (month - 1)).

Fixpoint upto (n : nat) (z : Z) (P : Z -> bool) : bool :=
  match n with O => true | S n => P z && upto n (z + 1) P end.

Lemma upto_forall n P : forall z, upto n z P = true -> forall x, z <= x < z + Z.of_nat n -> P x = true.
Proof.
  induction n as [|n IH]; intros z H x Hx; [lia|]. cbn in H. apply andb_true_iff in H as [H1 H2].
  destruct (decide (x = z)) as [->|]; [done|]. apply (IH (z + 1) H2). lia.
Qed.

(** Years of an era begin on 1 March: the first and the last day of year [y], and
    the year the code computes for a day. *)
Definition year_start (y : Z) : Z := 365 * y + y / 4 - y / 100.
Definition year_end (y : Z) : Z := if y =? 399 then 146096 else year_start (y + 1) - 1.
Definition yoe_of (doe : Z) : Z := (doe - doe / 1460 + doe / 36524 - doe / 146096) / 365.

(** All 400 years of an era and all 366 days of a year, by evaluation. *)
Lemma years_ok y :
  0 <= y < 400 ->
  yoe_of (year_start y) = y /\ yoe_of (year_end y) = y /\
  year_end y - year_start y = if is_leap (y + 1) then 365 else 364.
Proof.
  intros H. pose (P y := (yoe_of (year_start y) =? y) && (yoe_of (year_end y) =? y) &&
    (year_end y - year_start y =? if is_leap (y + 1) then 365 else 364)).
  assert (P y = true) as HP.
  { apply (upto_forall 400 P 0); [vm_compute; reflexivity|lia]. }
  unfold P in HP. rewrite !andb_true_iff, !Z.eqb_eq in HP. tauto.
Qed.

Lemma doys_ok doy :
  0 <= doy < 366 ->
  let mp := (5 * doy + 2) / 153 in
  let day := doy - (153 * mp + 2) / 5 + 1 in
  let mon := if mp <? 10 then mp + 3 else mp - 9 in
  1 <= mon <= 12 /\ 1 <= day /\ (if 2 <? mon then mon - 3 else mon + 9) = mp /\
  day <= (if mon =? 2 then (if doy =? 365 then 29 else 28) else default 0 (kDaysInMonth !! Z.to_nat (mon - 1))).
Proof.
  intros H. pose (P doy := let mp := (5 * doy + 2) / 153 in
    let day := doy - (153 * mp + 2) / 5 + 1 in
    let mon := if mp <? 10 then mp + 3 else mp - 9 in
    (1 <=? mon) && (mon <=? 12) && (1 <=? day) && ((if 2 <? mon then mon - 3 else mon + 9) =? mp) &&
    (day <=? if mon =? 2 then (if doy =? 365 then 29 else 28) else default 0 (kDaysInMonth !! Z.to_nat (mon - 1)))).
  assert (P doy = true) as HP.
  { apply (upto_forall 366 P 0); [vm_compute; reflexivity|lia]. }
  unfold P in HP. rewrite !andb_true_iff, !Z.leb_le, Z.eqb_eq in HP. cbn zeta. tauto.
Qed.

Lemma yoe_mono a b : 0 <= a <= b -> b < 146097 -> yoe_of a <= yoe_of b.
Proof.
  intros H1 H2. unfold yoe_of. apply Z.div_le_mono; [lia|].
  assert (forall x, 0 <= x < 146096 ->
    x - x / 1460 + x / 36524 - x / 146096 <= (x + 1) - (x + 1) / 1460 + (x + 1) / 36524 - (x + 1) / 146096) as Hstep.
  { intros x Hx. destruct (decide (x = 146095)) as [->|]; [vm_compute; discriminate|].
    rewrite !(Z.div_small _ 146096) by lia. Z.div_mod_to_equations. lia. }
  revert b H1 H2. enough (forall d, 0 <= d -> 0 <= a -> a + d < 146097 ->
    a - a / 1460 + a / 36524 - a / 146096 <=
    (a + d) - (a + d) / 1460 + (a + d) / 36524 - (a + d) / 146096) as Hd.
  { intros b H1 H2. replace b with (a + (b - a)) by lia. apply Hd; lia. }
  apply (natlike_ind (fun d => 0 <= a -> a + d < 146097 -> _)).
  - intros _ _. rewrite Z.add_0_r. lia.
  - intros d Hd IH Ha Hlt. specialize (IH Ha ltac:(lia)).
    pose proof (Hstep (a + d) ltac:(lia)). replace (a + Z.succ d) with (a + d + 1) by lia. lia.
Qed.

Lemma year_of doe : 0 <= doe < 146097 -> exists y, 0 <= y < 400 /\ year_start y <= doe <= year_end y.
Proof.
  intros H. assert (forall n, (n < 400)%nat -> doe <= year_end (Z.of_nat n) ->
    exists y, 0 <= y < 400 /\ year_start y <= doe <= year_end y) as Hn.
  { induction n as [|n IH]; intros Hlt Hle; [exists 0; change (year_start 0) with 0; repeat split; done || lia|].
    destruct (Z.leb_spec doe (year_end (Z.of_nat n))); [apply IH; [lia|done]|].
    exists (Z.of_nat (S n)). split; [lia|]. split; [|done].
    unfold year_end in *. destruct (Z.eqb_spec (Z.of_nat n) 399); [lia|].
    replace (Z.of_nat (S n)) with (Z.of_nat n + 1) by lia. lia. }
  apply (Hn 399%nat); [lia|]. change (year_end (Z.of_nat 399)) with 146096. lia.
Qed.

(** What the date computed for a day satisfies, so that the parser recovers the day. *)
Lemma era_days_ok doe :
  0 <= doe < 146097 ->
  let '(y, mon, day) := civil_of_days doe in
  1 <= mon <= 12 /\ 1 <= day <= max_day y mon /\ days_of_civil y mon day + 719468 = doe /\
  (if mon <=? 2 then 1 else 0) <= y <= (if mon <=? 2 then 400 else 399).
Proof.
  intros H. destruct (year_of doe H) as (yoe & Hy & Hb). destruct (years_ok yoe Hy) as (E1 & E2 & E3).
  assert (year_end yoe < 146097) as Hend by (unfold year_end, year_start; destruct (Z.eqb_spec yoe 399); Z.div_mod_to_equations; lia).
  assert (0 <= year_start yoe) as Hstart by (unfold year_start; Z.div_mod_to_equations; lia).
  assert (yoe_of doe = yoe) as E.
  { pose proof (yoe_mono (year_start yoe) doe ltac:(lia) ltac:(lia)).
    pose proof (yoe_mono doe (year_end yoe) ltac:(lia) ltac:(lia)). lia. }
  unfold civil_of_days. rewrite (proj2 (Z.leb_le 0 doe)) by lia.
  rewrite Z.quot_small, Z.sub_0_r by lia. fold (yoe_of doe). rewrite E.
  fold (year_start yoe). set (doy := doe - year_start yoe).
  assert (0 <= doy <= if is_leap (yoe + 1) then 365 else 364) as Hdoy by (subst doy; destruct (is_leap _); lia).
  pose proof (doys_ok doy ltac:(destruct (is_leap _); lia)) as Hok. cbn zeta in Hok |- *.
  set (mp := (5 * doy + 2) / 153) in *. set (day := doy - (153 * mp + 2) / 5 + 1) in *.
  set (mon := if mp <? 10 then mp + 3 else mp - 9) in *. clearbody mon.
  destruct Hok as (H1 & H2 & H3 & H4). rewrite Z.add_0_r.
  assert (day <= max_day (if mon <=? 2 then yoe + 1 else yoe) mon) as Hmax.
  { unfold max_day. destruct (Z.eqb_spec mon 2) as [->|]; cbn [andb]; [|done]. cbn [Z.leb].
    change (2 <=? 2) with true. change (default 0 (kDaysInMonth !! Z.to_nat (2 - 1))) with 28.
    change (2 =? 2) with true in H4. clearbody day.
    destruct (is_leap (yoe + 1)); destruct (Z.eqb_spec doy 365); lia. }
  split; [lia|]. split; [lia|]. split; [|destruct (mon <=? 2); lia].
  unfold days_of_civil. rewrite H3.
  assert ((if mon <=? 2 then (if mon <=? 2 then yoe + 1 else yoe) - 1 else if mon <=? 2 then yoe + 1 else yoe) = yoe)
    as -> by (destruct (mon <=? 2); lia).
  rewrite (proj2 (Z.leb_le 0 yoe)), Z.quot_small by lia.
  rewrite !Z.mul_0_l, !Z.sub_0_r. clear - day. subst day doy. clearbody mp. unfold year_start. lia.
Qed.

Lemma civil_shift doe era :
  0 <= doe < 146097 -> 0 <= era ->
  civil_of_days (doe + era * 146097) =
    let '(y, mon, day) := civil_of_days doe in (y + era * 400, mon, day).
Proof.
  intros Hd He. unfold civil_of_days. rewrite !(proj2 (Z.leb_le 0 _)) by lia.
  rewrite !Z.quot_div_nonneg, Z.div_add, (Z.div_small doe), Z.add_0_l by lia.
  replace (doe + era * 146097 - era * 146097) with (doe - 0 * 146097) by lia. cbn zeta.
  destruct (_ <=? 2); f_equal; f_equal; lia.
Qed.

Lemma is_leap_shift y era : is_leap (y + era * 400) = is_leap y.
Proof.
  unfold is_leap. replace (y + era * 400) with (y + (era * 100) * 4) at 1 by lia. rewrite Z.mod_add by lia.
  replace (y + era * 400) with (y + (era * 4) * 100) at 1 by lia. rewrite Z.mod_add by lia.
  by rewrite Z.mod_add by lia.
Qed.

Lemma days_shift y mon day era :
  (if mon <=? 2 then 1 else 0) <= y -> 0 <= era ->
  days_of_civil (y + era * 400) mon day = days_of_civil y mon day + era * 146097.
Proof.
  intros Hy He. unfold days_of_civil. set (b := if mon <=? 2 then 1 else 0) in *.
  assert (forall z, (if mon <=? 2 then z - 1 else z) = z - b) as E by (intros; subst b; destruct (mon <=? 2); lia).
  rewrite !E, !(proj2 (Z.leb_le 0 _)) by lia. rewrite !Z.quot_div_nonneg by lia.
  replace (y + era * 400 - b) with (y - b + era * 400) by lia. rewrite Z.div_add by lia.
  replace (y - b + era * 400 - ((y - b) / 400 + era) * 400) with (y - b - (y - b) / 400 * 400) by lia. lia.
Qed.

(** The date of a day, and that the parser computes the day back. *)
Lemma civil_roundtrip z :
  719468 <= z ->
  exists y mon day, civil_of_days z = (y, mon, day) /\ 1 <= mon <= 12 /\ 1 <= day <= max_day y mon /\
    0 <= y <= z / 146097 * 400 + 400 /\ days_of_civil y mon day = z - 719468.
Proof.
  intros Hz. set (era := z / 146097). set (doe := z mod 146097).
  assert (z = doe + era * 146097) as E by (pose proof (Z.div_mod z 146097); subst era doe; lia).
  assert (0 <= doe < 146097) as Hdoe by (apply Z.mod_pos_bound; lia).
  assert (0 <= era) as Hera by (apply Z.div_pos; lia).
  pose proof (era_days_ok doe Hdoe) as Hok.
  rewrite E, civil_shift by lia. destruct (civil_of_days doe) as [[y mon] day].
  destruct Hok as (? & ? & ? & ?).
  do 3 eexists. split; [done|]. unfold max_day in *. rewrite is_leap_shift.
  split; [lia|]. split; [lia|]. rewrite days_shift by lia.
  destruct (mon <=? 2); split; lia.
Qed.

(** ** Reading the fields back *)

Lemma number_at_app ds : forall pre rest acc,
  digits ds ->
  number_at (length ds) acc (pre ++ ds ++ rest) (zlen pre) =
    Some (Some (foldl (fun a c => a * 10 + digit_of c) acc ds)).
Proof.
  induction ds as [|c ds IH]; intros pre rest acc Hd; [done|]. apply Forall_cons_1 in Hd as [Hc Hd].
  cbn [length number_at foldl]. unfold digit_at. rewrite rd_app_r by done. cbn [app head mbind option_bind].
  rewrite Hc. apply is_digit_spec in Hc. rewrite (proj2 (Z.ltb_ge (digit_of c) 0)) by lia.
  specialize (IH (pre ++ [c]) rest (acc * 10 + digit_of c) Hd).
  rewrite <- app_assoc in IH. cbn [app] in IH. rewrite zlen_app in IH. exact IH.
Qed.

Lemma number_at_digits pre ds rest n i v :
  digits ds -> n = length ds -> i = zlen pre -> dec_val ds = v ->
  number_at n 0 (pre ++ ds ++ rest) i = Some (Some v).
Proof. intros Hd -> -> <-. by apply number_at_app. Qed.

Lemma two_digits_spec n : 0 <= n < 100 -> digits (two_digits n) /\ dec_val (two_digits n) = n.
Proof.
  intros H. assert (0 <= n / 10 <= 9 /\ 0 <= n mod 10 <= 9 /\ n = n / 10 * 10 + n mod 10) as (H1 & H2 & H3)
    by (Z.div_mod_to_equations; lia).
  destruct (digit_char_spec _ H1) as [D1 V1], (digit_char_spec _ H2) as [D2 V2].
  split; [by repeat constructor|]. unfold dec_val, two_digits. cbn [foldl]. rewrite V1, V2. lia.
Qed.

Definition year_chars (year : Z) : list byte :=
  [digit_char ((year / 1000) mod 10); digit_char ((year / 100) mod 10);
   digit_char ((year / 10) mod 10); digit_char (year mod 10)].

Lemma year_chars_spec y : 0 <= y < 10000 -> digits (year_chars y) /\ dec_val (year_chars y) = y.
Proof.
  intros H. assert (0 <= (y / 1000) mod 10 <= 9 /\ 0 <= (y / 100) mod 10 <= 9 /\
    0 <= (y / 10) mod 10 <= 9 /\ 0 <= y mod 10 <= 9 /\
    y = (((y / 1000) mod 10 * 10 + (y / 100) mod 10) * 10 + (y / 10) mod 10) * 10 + y mod 10)
    as (H1 & H2 & H3 & H4 & H5) by (Z.div_mod_to_equations; lia).
  destruct (digit_char_spec _ H1) as [D1 V1], (digit_char_spec _ H2) as [D2 V2],
    (digit_char_spec _ H3) as [D3 V3], (digit_char_spec _ H4) as [D4 V4].
  split; [by repeat constructor|]. unfold dec_val, year_chars. cbn [foldl]. rewrite V1, V2, V3, V4. lia.
Qed.

Lemma frac_chars_spec n v :
  0 <= v < 10 ^ Z.of_nat n -> digits (frac_chars n v) /\ length (frac_chars n v) = n /\ dec_val (frac_chars n v) = v.
Proof.
  revert v; induction n as [|n IH]; intros v Hv; cbn [frac_chars].
  { cbn in Hv. split_and!; [constructor|done|cbn; lia]. }
  rewrite Nat2Z.inj_succ, Z.pow_succ_r in Hv by lia.
  destruct (IH (v / 10)) as (H1 & H2 & H3).
  { split; [apply Z.div_pos; lia|apply Z.div_lt_upper_bound; lia]. }
  pose proof (Z.mod_pos_bound v 10 ltac:(lia)). destruct (digit_char_spec (v mod 10) ltac:(lia)) as [D V].
  rewrite dec_val_snoc, H3, V, length_app, H2. cbn [length]. split_and!.
  - apply Forall_app. split; [done|by repeat constructor].
  - lia.
  - pose proof (Z.div_mod v 10). lia.
Qed.

(** The fixed part of a timestamp. *)
Definition stamp (year mon day hour minute second : Z) : list byte :=
  year_chars year ++ two_digits mon ++ two_digits day ++ [ch_minus] ++
  two_digits hour ++ [ch_colon] ++ two_digits minute ++ [ch_colon] ++ two_digits second.

(** The fraction, if there is one. *)
Definition fraction (fs : list byte) : list byte := match fs with [] => [] | _ => ch_dot :: fs end.

(** The fields of a timestamp, as the parser reads them. *)
Lemma stamp_fields year mon day hour minute second tl :
  0 <= year < 10000 -> 0 <= mon < 100 -> 0 <= day < 100 ->
  0 <= hour < 100 -> 0 <= minute < 100 -> 0 <= second < 100 ->
  let sv := stamp year mon day hour minute second ++ tl in
  number_at 4 0 sv 0 = Some (Some year) /\ number_at 2 0 sv 4 = Some (Some mon) /\
  number_at 2 0 sv 6 = Some (Some day) /\ number_at 2 0 sv 9 = Some (Some hour) /\
  number_at 2 0 sv 12 = Some (Some minute) /\ number_at 2 0 sv 15 = Some (Some second) /\
  rd sv 8 = Some ch_minus /\ rd sv 11 = Some ch_colon /\ rd sv 14 = Some ch_colon.
Proof.
  intros Hy Hm Hd Hh Hn Hs sv. subst sv. unfold stamp. rewrite <- !app_assoc.
  destruct (year_chars_spec _ Hy), (two_digits_spec _ Hm), (two_digits_spec _ Hd), (two_digits_spec _ Hh),
    (two_digits_spec _ Hn), (two_digits_spec _ Hs).
  set (Y := year_chars year) in *. set (M := two_digits mon) in *. set (D := two_digits day) in *.
  set (H' := two_digits hour) in *. set (N := two_digits minute) in *. set (S := two_digits second) in *.
  split_and!; try reflexivity.
  - by apply (number_at_digits [] Y).
  - by apply (number_at_digits Y M).
  - rewrite (app_assoc Y M). by apply (number_at_digits (Y ++ M) D).
  - rewrite (app_assoc Y M), (app_assoc (Y ++ M) D), (app_assoc ((Y ++ M) ++ D)).
    by apply (number_at_digits (((Y ++ M) ++ D) ++ [ch_minus]) H').
  - rewrite (app_assoc Y M), (app_assoc (Y ++ M) D), (app_assoc ((Y ++ M) ++ D)), (app_assoc (_ ++ [ch_minus]) H'),
      (app_assoc (_ ++ H')).
    by apply (number_at_digits (((((Y ++ M) ++ D) ++ [ch_minus]) ++ H') ++ [ch_colon]) N).
  - rewrite (app_assoc Y M), (app_assoc (Y ++ M) D), (app_assoc ((Y ++ M) ++ D)), (app_assoc (_ ++ [ch_minus]) H'),
      (app_assoc (_ ++ H')), (app_assoc (_ ++ [ch_colon]) N), (app_assoc (_ ++ N)).
    by apply (number_at_digits (((((((Y ++ M) ++ D) ++ [ch_minus]) ++ H') ++ [ch_colon]) ++ N) ++ [ch_colon]) S).
Qed.

(** No month has more than 31 days. *)
Lemma month_days mon : 1 <= mon <= 12 -> exists dim, kDaysInMonth !! Z.to_nat (mon - 1) = Some dim /\ dim <= 31.
Proof.
  intros Hm. assert (Forall (fun d => d <= 31) kDaysInMonth) as Hall by (repeat constructor; lia).
  destruct (lookup_lt_is_Some_2 kDaysInMonth (Z.to_nat (mon - 1))) as [dim E]; [cbn; lia|].
  exists dim. split; [done|]. exact (Forall_lookup_1 _ _ _ _ Hall E).
Qed.

Lemma max_day_le year mon : 1 <= mon <= 12 -> max_day year mon <= 31.
Proof.
  intros Hm. unfold max_day. destruct (month_days mon Hm) as (dim & -> & Hdim). destruct (_ && _); cbn; lia.
Qed.

(** What the parser makes of a well-formed timestamp. *)
Lemma parse_stamp year mon day hour minute second fs :
  0 <= year < 10000 -> 1 <= mon <= 12 -> 1 <= day <= max_day year mon ->
  0 <= hour <= 23 -> 0 <= minute <= 59 -> 0 <= second <= 59 ->
  digits fs -> zlen fs = 0 \/ zlen fs = 3 \/ zlen fs = 6 \/ zlen fs = 9 ->
  parse_timestamp_value (stamp year mon day hour minute second ++ fraction fs) =
    Some (timestamp_of year mon day hour minute second (dec_val fs * 10 ^ (9 - zlen fs))).
Proof.
  intros Hy Hm Hd Hh Hn Hs Hfs Hlen.
  destruct (month_days mon Hm) as (dim & Edim & Hdim). pose proof (max_day_le year mon Hm) as Hmax.
  assert (max_day year mon = if (mon =? 2) && is_leap year then 29 else dim) as Emax by (unfold max_day; by rewrite Edim).
  destruct (stamp_fields year mon day hour minute second (fraction fs)) as (F1 & F2 & F3 & F4 & F5 & F6 & F7 & F8 & F9); [lia..|].
  assert (zlen (stamp year mon day hour minute second) = 17) as H17 by done.
  set (st := stamp year mon day hour minute second) in *.
  assert (zlen (fraction fs) = if zlen fs =? 0 then 0 else zlen fs + 1) as Efr.
  { destruct fs; [done|]. cbn [fraction]. rewrite !zlen_cons. pose proof (zlen_nonneg fs). by zdecide. }
  unfold parse_timestamp_value. rewrite F1, F2, F3, F4, F5, F6, F7, F8, F9, zlen_app, H17, Efr.
  cbn [mbind option_bind]. rewrite Edim. cbn [mbind option_bind]. rewrite <- Emax.
  rewrite decide_False by (intros H; by apply H). rewrite decide_False by (intros [H|H]; by apply H).
  destruct (Z.eqb_spec (zlen fs) 0) as [E0|E0].
  - zdecides. assert (fs = []) as -> by (apply zlen_nil_inv; lia). done.
  - destruct fs as [|c fs]; [done|]. cbn [fraction]. rewrite rd_app_r by done. cbn [head mbind option_bind].
    rewrite decide_False by (intros H; by apply H).
    replace (17 + (zlen (c :: fs) + 1) - 18) with (zlen (c :: fs)) by lia.
    replace (st ++ ch_dot :: c :: fs) with ((st ++ [ch_dot]) ++ (c :: fs) ++ []) by (rewrite app_nil_r, <- app_assoc; done).
    rewrite (number_at_digits (st ++ [ch_dot]) (c :: fs) [] _ 18 (dec_val (c :: fs))); [|done|unfold zlen; lia|rewrite zlen_app, H17; done|done].
    cbn [mbind option_bind]. destruct Hlen as [?|[E|[E|E]]]; [done|rewrite E..]; zdecides; [done..|by rewrite Z.mul_1_r].
Qed.

(** ** Round trip *)

Lemma format_timestamp_stamp ns prec :
  0 <= ns < 2 ^ 64 ->
  exists year mon day, civil_of_days (ns / 1000000000 / 86400 + 719468) = (year, mon, day) /\
    format_timestamp ns prec =
      stamp year mon day (ns / 1000000000 mod 86400 / 3600) (ns / 1000000000 mod 86400 mod 3600 / 60)
        (ns / 1000000000 mod 86400 mod 60) ++
      fraction (frac_chars (frac_digits prec) (ns mod 1000000000 / frac_unit prec)).
Proof.
  intros Hns. unfold format_timestamp.
  destruct (civil_of_days _) as [[year mon] day]. exists year, mon, day. split; [done|].
  unfold stamp, year_chars. rewrite <- !app_assoc. repeat f_equal.
  destruct prec; cbn [frac_digits]; [by rewrite decide_True|rewrite decide_False by done..];
    unfold fraction; by destruct (frac_chars _ _) eqn:E; [apply (f_equal length) in E|].
Qed.

(** Its characters are digits and the three separators. *)
Lemma format_timestamp_chars ns prec :
  0 <= ns < 2 ^ 64 ->
  Forall (fun c => is_digit c = true \/ c = ch_minus \/ c = ch_colon \/ c = ch_dot) (format_timestamp ns prec).
Proof.
  intros Hns. destruct (format_timestamp_stamp ns prec Hns) as (year & mon & day & Eciv & ->).
  set (sec := ns / 1000000000) in *.
  assert (0 <= sec <= 18446744073) as Hsec by (subst sec; Z.div_mod_to_equations; lia).
  assert (0 <= sec / 86400 <= 213504) as Hday by (Z.div_mod_to_equations; lia).
  destruct (civil_roundtrip (sec / 86400 + 719468)) as (y & m & d & E & Hm & Hd & Hy & Hdays); [lia|].
  rewrite E in Eciv. injection Eciv as -> -> ->.
  pose proof (max_day_le year mon ltac:(lia)) as Hmax.
  assert ((sec / 86400 + 719468) / 146097 <= 6) as Hera by (apply Z.lt_succ_r, Z.div_lt_upper_bound; lia).
  assert (forall ds, digits ds ->
    Forall (fun c => is_digit c = true \/ c = ch_minus \/ c = ch_colon \/ c = ch_dot) ds) as Hdig.
  { intros ds Hds. eapply list.Forall_impl; [exact Hds|]. cbn. auto. }
  destruct (frac_chars_spec (frac_digits prec) (ns mod 1000000000 / frac_unit prec)) as (F1 & _ & _).
  { pose proof (Z.mod_pos_bound ns 1000000000 ltac:(lia)) as Hmod.
    split; [apply Z.div_pos; [lia|by destruct prec]|]. destruct prec; apply Z.div_lt_upper_bound; cbn [frac_unit frac_digits]; cbn; lia. }
  clearbody sec. unfold stamp. repeat (apply Forall_app; split);
    try (apply Hdig; apply year_chars_spec || apply two_digits_spec; first [lia | Z.div_mod_to_equations; lia]);
    try (constructor; [by auto|constructor]).
  revert F1. unfold fraction. destruct (frac_chars _ _) as [|c fs]; intros F1; [constructor|]. constructor; [auto|by apply Hdig].
Qed.

(** timestamps survive the wire.  For every time a [uint64_t] of nanoseconds can
    express and every precision, the parser reads back from the text of
    [set_timestamp] the same time, truncated to the precision; nothing wraps and no
    access leaves the text. *)
Theorem timestamp_roundtrip ns prec :
  0 <= ns < 2 ^ 64 ->
  parse_timestamp_value (format_timestamp ns prec) = Some (Some (ns - ns mod frac_unit prec)).
Proof.
  intros Hns. destruct (format_timestamp_stamp ns prec Hns) as (year & mon & day & Eciv & ->).
  set (sec := ns / 1000000000) in *. set (dsec := sec mod 86400) in *. set (sub := ns mod 1000000000) in *.
  assert (0 <= sec <= 18446744073 /\ 0 <= sub < 1000000000 /\ ns = sec * 1000000000 + sub) as (Hsec & Hsub & Ens)
    by (subst sec sub; Z.div_mod_to_equations; lia).
  assert (0 <= dsec < 86400 /\ sec = sec / 86400 * 86400 + dsec /\ 0 <= sec / 86400 <= 213504) as (Hds & Eds & Hday)
    by (subst dsec; Z.div_mod_to_equations; lia).
  destruct (civil_roundtrip (sec / 86400 + 719468)) as (y & m & d & E & Hm & Hd & Hy & Hdays); [lia|].
  assert ((sec / 86400 + 719468) / 146097 <= 6) as Hera by (apply Z.lt_succ_r, Z.div_lt_upper_bound; lia).
  rewrite E in Eciv. injection Eciv as -> -> ->.
  destruct (frac_chars_spec (frac_digits prec) (sub / frac_unit prec)) as (F1 & F2 & F3).
  { split; [destruct prec; cbn; Z.div_mod_to_equations; lia|].
    destruct prec; apply Z.div_lt_upper_bound; cbn; lia. }
  assert (zlen (frac_chars (frac_digits prec) (sub / frac_unit prec)) = Z.of_nat (frac_digits prec)) as Hz by (unfold zlen; by rewrite F2).
  rewrite parse_stamp; [|first [assumption | lia | Z.div_mod_to_equations; lia]..|rewrite Hz; destruct prec; cbn; lia].
  rewrite Hz, F3. f_equal. unfold timestamp_of. rewrite Hdays.
  replace ((_ + 719468 - 719468) * 86400 + dsec / 3600 * 3600 + dsec mod 3600 / 60 * 60 + dsec mod 60) with sec
    by (Z.div_mod_to_equations; lia).
  rewrite (proj2 (Z.ltb_ge (sec / 86400 + _ - _) 0)) by lia.
  assert (sub / frac_unit prec * 10 ^ (9 - Z.of_nat (frac_digits prec)) = sub - sub mod frac_unit prec) as ->.
  { destruct prec; cbn [frac_unit frac_digits]; cbn [Z.of_nat Z.sub]; Z.div_mod_to_equations; cbn in *; lia. }
  assert (0 <= sub mod frac_unit prec <= sub) as Hmod.
  { split; [destruct prec; apply Z.mod_pos_bound; cbn; lia|apply Z.mod_le; [lia|destruct prec; cbn; lia]]. }
  assert (ns mod frac_unit prec = sub mod frac_unit prec) as ->.
  { rewrite Ens. destruct prec; cbn [frac_unit]; Z.div_mod_to_equations; lia. }
  assert (kMaxEpochSec = 18446744073) as -> by done. change UINT64_MAX with 18446744073709551615.
  clearbody sub sec. zdecides.
  destruct (Z.eqb_spec sec 18446744073); cbn [andb]; [rewrite (proj2 (Z.ltb_ge _ _)) by lia|];
    rewrite (wrap_small 64 (sec * _)), wrap_small by lia; f_equal; lia.
Qed.

Lemma timestamp_roundtrip_witness :
  0 <= 1700000000123456789 < 2 ^ 64 /\
  parse_timestamp_value (format_timestamp 1700000000123456789 kMicroseconds)
    = Some (Some (1700000000123456789 - 1700000000123456789 mod frac_unit kMicroseconds)).
Proof. split; [lia|]. apply timestamp_roundtrip. lia. Defined.
