(* ===== verification/Fix.v ===== *)
(** FIX messages: the parser of src/eph-fix/include/eph/fix/parser.hpp and the framer
    of src/eph-fix/include/eph/fix/framer.hpp.

    A pointer range [p, end) that a loop walks is the list of the bytes from [p] on;
    the reads at fixed offsets of the CheckSum field go through [rd], so that an
    access outside the buffer is [None]. *)
From S2P Require Import Prelude FixText Framers.
Local Open Scope Z_scope.

(** ** Shared scanning *)

Definition kDefaultMaxBodyLength : Z := 1 * 1024 * 1024.

Definition BeginString : Z := 8.
Definition BodyLength : Z := 9.
Definition MsgType : Z := 35.

Definition UINT32_MAX : Z := 2 ^ 32 - 1.
Definition kMaxTag : Z := UINT32_MAX / 10.

(** The digit loop of [parse_tag_number]: the tag (0 on failure) and the bytes
    after the [=]. *)
Fixpoint tag_loop (num : Z) (p : list byte) : Z * list byte :=
  match p with
  | [] => (0, [])
  | c :: p =>
      if decide (c = ch_eq) then (num, p) else
      if negb (is_digit c) then (0, p) else
      let digit := digit_of c in
      if kMaxTag <? num then (0, p) else
      let num := num * 10 in
      if UINT32_MAX - digit <? num then (0, p) else tag_loop (num + digit) p
  end.

Definition parse_tag_number (p : list byte) : Z * list byte :=
  match p with
  | [] => (0, [])
  | c :: _ => if negb (is_digit c) then (0, p) else tag_loop 0 p
  end.

(** [while (p != end && *p != SOH) ++p], then [++p]: the bytes before and after the
    SOH, [None] when the end comes first. *)
Fixpoint until_soh (p : list byte) : option (list byte * list byte) :=
  match p with
  | [] => None
  | c :: p => if decide (c = SOH) then Some ([], p) else '(v, r) ← until_soh p; Some (c :: v, r)
  end.

Definition compute_checksum (data : list byte) : Z :=
  u8 (Z.land (foldl (fun sum b => u32 (sum + b2z b)) 0 data) 255).

(** The tests on the CheckSum field at [off]: its form, then its three digits.
    [Some None] when malformed. *)
Definition read_checksum (data : list byte) (off : Z) : option (option Z) :=
  c0 ← rd data off; c1 ← rd data (off + 1); c2 ← rd data (off + 2);
  if decide (c0 <> x31 \/ c1 <> x30 \/ c2 <> ch_eq) then Some None else
  c6 ← rd data (off + 6);
  if decide (c6 <> SOH) then Some None else
  c3 ← rd data (off + 3); c4 ← rd data (off + 4); c5 ← rd data (off + 5);
  if is_digit c3 && is_digit c4 && is_digit c5
  then Some (Some ((digit_of c3 * 10 + digit_of c4) * 10 + digit_of c5)) else Some None.

(** ** The framer *)

(** [BasicFixFramer<MaxBodyLength>]. *)
Record FixFramer := mkFixFramer { MaxBodyLength : Z }.

Definition fix_max_overhead (_ : FixFramer) : Z := 0.

Definition fix_encode (_ : FixFramer) (out data : option (list byte)) (len : Z) (_msg_type : Z)
    : option (Z * option (list byte)) :=
  if 0 <? len then
    match out, data with
    | Some o, Some d => src ← slice d 0 len; o ← wr o 0 src; Some (len, Some o)
    | _, _ => None
    end
  else Some (len, out).

(** The BodyLength loop of the framer, up to and including the SOH. *)
Fixpoint fr_body_length (max body_length : Z) (p : list byte) : expected (Z * list byte) FrameError :=
  match p with
  | [] => Err kIncomplete
  | c :: p =>
      if decide (c = SOH) then Ok (body_length, p) else
      if negb (is_digit c) then Err kInvalidFormat else
      if max / 10 <? body_length then Err kInvalidFormat else
      let body_length := body_length * 10 + digit_of c in
      if max <? body_length then Err kInvalidFormat else fr_body_length max body_length p
  end.

(** The MsgType scan: [tag] wraps and skips what is not a digit. *)
Fixpoint scan_tag (tag : Z) (bp : list byte) : option (Z * list byte) :=
  match bp with
  | [] => None
  | c :: bp =>
      if decide (c = ch_eq) then Some (tag, bp)
      else scan_tag (if is_digit c then u32 (tag * 10 + digit_of c) else tag) bp
  end.

(** One iteration consumes at least one byte; the fuel is the number of bytes. *)
Fixpoint scan_msg_type (fuel : nat) (bp : list byte) : Z :=
  match fuel with
  | O => 0
  | S fuel =>
      match bp with
      | [] => 0
      | _ =>
          match scan_tag 0 bp with
          | None => 0
          | Some (tag, val_start) =>
              match until_soh val_start with
              | None => 0
              | Some (v, rest) =>
                  match v with
                  | c :: _ => if tag =? 35 then b2z c else scan_msg_type fuel rest
                  | [] => scan_msg_type fuel rest
                  end
              end
          end
      end
  end.

(** [decode] from behind the SOH of the BodyLength on. *)
Definition frame_rest (data : list byte) (body_length : Z) (p : list byte)
    : option (expected DecodedFrame FrameError) :=
  let len := zlen data in
  let header_len := len - zlen p in
  if (len <? header_len + 7) || (len - header_len - 7 <? body_length)
  then Some (Err kIncomplete) else
  let total := header_len + body_length + 7 in
  declared_cs ← read_checksum data (header_len + body_length);
  match declared_cs with
  | None => Some (Err kInvalidFormat)
  | Some declared_cs =>
      covered ← slice data 0 (header_len + body_length);
      if negb (compute_checksum covered =? u8 declared_cs) then Some (Err kInvalidFormat) else
      body ← slice p 0 body_length;
      Some (Ok {| payload := Some 0; payload_len := total;
                  msg_type := scan_msg_type (length body) body;
                  is_control := false; total_len := total |})
  end.

Definition fix_decode (f : FixFramer) (data : list byte) : option (expected DecodedFrame FrameError) :=
  let len := zlen data in
  if len <? 2 then Some (Err kIncomplete) else
  m0 ← rd data 0; m1 ← rd data 1;
  if decide (m0 <> x38 \/ m1 <> ch_eq) then Some (Err kInvalidFormat) else
  match until_soh (drop 2 data) with
  | None => Some (Err kIncomplete)
  | Some (_, p) =>
      if zlen p <? 2 then Some (Err kIncomplete) else
      p0 ← rd p 0; p1 ← rd p 1;
      if decide (p0 <> x39 \/ p1 <> ch_eq) then Some (Err kInvalidFormat) else
      match fr_body_length (MaxBodyLength f) 0 (drop 2 p) with
      | Err e => Some (Err e)
      | Ok (body_length, p) => frame_rest data body_length p
      end
  end.

#[global] Instance fix_framer : MessageFramer FixFramer :=
  {| encode := fix_encode; decode := fix_decode; max_overhead := fix_max_overhead |}.

(** ** The parser *)

Inductive ParseError := pIncomplete | pInvalidFormat | pChecksumMismatch | pFieldOverflow.

Record Field := mkField { ftag : Z; fvalue : list byte }.

Record MessageView := mkView { fields_ : list Field; total_len_ : Z; begin_string_ : list byte }.

(** The BodyLength loop of the parser, on the text of the field. *)
Fixpoint body_length_loop (max body_length : Z) (s : list byte) : option Z :=
  match s with
  | [] => Some body_length
  | c :: s =>
      if negb (is_digit c) then None else
      if max / 10 <? body_length then None else
      let body_length := body_length * 10 + digit_of c in
      if max <? body_length then None else body_length_loop max body_length s
  end.

(** The body loop; each iteration consumes at least two bytes, [None] is lack of
    fuel. *)
Fixpoint parse_fields (fuel : nat) (maxf : Z) (bp : list byte) (acc : list Field)
    : option (expected (list Field) ParseError) :=
  match bp with
  | [] => Some (Ok acc)
  | _ =>
      match fuel with
      | O => None
      | S fuel =>
          let '(field_tag, val_start) := parse_tag_number bp in
          if field_tag =? 0 then Some (Err pInvalidFormat) else
          match until_soh val_start with
          | None => Some (Err pInvalidFormat)
          | Some (v, bp) =>
              if maxf <=? zlen acc then Some (Err pFieldOverflow)
              else parse_fields fuel maxf bp (acc ++ [mkField field_tag v])
          end
      end
  end.

(** [parse] from the BodyLength text on: [p] is what follows its SOH. *)
Definition parse_rest (maxf max : Z) (data begin_string body_len_str p : list byte)
    : option (expected MessageView ParseError) :=
  let len := zlen data in
  match body_length_loop max 0 body_len_str with
  | None => Some (Err pInvalidFormat)
  | Some body_length =>
      let header_len := len - zlen p in
      if (len <? header_len + 7) || (len - header_len - 7 <? body_length)
      then Some (Err pIncomplete) else
      let total_needed := header_len + body_length + 7 in
      declared_cs ← read_checksum data (header_len + body_length);
      match declared_cs with
      | None => Some (Err pInvalidFormat)
      | Some declared_cs =>
          covered ← slice data 0 (header_len + body_length);
          if negb (compute_checksum covered =? u8 declared_cs)
          then Some (Err pChecksumMismatch) else
          body ← slice p 0 body_length;
          r ← parse_fields (length body) maxf body [];
          match r with
          | Err e => Some (Err e)
          | Ok fs => Some (Ok (mkView fs total_needed begin_string))
          end
      end
  end.

(** [parse<MaxFields, MaxBodyLength>]. *)
Definition parse (maxf max : Z) (data : list byte) : option (expected MessageView ParseError) :=
  let len := zlen data in
  if len =? 0 then Some (Err pIncomplete) else
  let '(t1, p) := parse_tag_number data in
  if negb (t1 =? BeginString) then Some (Err pInvalidFormat) else
  match until_soh p with
  | None => Some (Err pIncomplete)
  | Some (begin_string, p) =>
      if zlen p <=? 0 then Some (Err pIncomplete) else
      let '(t2, p) := parse_tag_number p in
      if negb (t2 =? BodyLength) then Some (Err pInvalidFormat) else
      match until_soh p with
      | None => Some (Err pIncomplete)
      | Some (body_len_str, p) => parse_rest maxf max data begin_string body_len_str p
      end
  end.

(** ** What the scanners accept *)

Lemma until_soh_app v r : SOH ∉ v -> until_soh (v ++ SOH :: r) = Some (v, r).
Proof.
  induction v as [|c v IH]; intros Hv; cbn; [by rewrite decide_True|].
  apply not_elem_of_cons in Hv as [Hc Hv]. rewrite decide_False by done. by rewrite IH.
Qed.

Lemma until_soh_none v : SOH ∉ v -> until_soh v = None.
Proof.
  induction v as [|c v IH]; intros Hv; cbn; [done|].
  apply not_elem_of_cons in Hv as [Hc Hv]. rewrite decide_False by done. by rewrite IH.
Qed.

Lemma until_soh_some p v r : until_soh p = Some (v, r) -> p = v ++ SOH :: r /\ SOH ∉ v.
Proof.
  revert v r; induction p as [|c p IH]; intros v r; cbn; [done|].
  destruct (decide (c = SOH)) as [->|Hc]; [intros; simplify_eq; split; [done|apply not_elem_of_nil]|].
  destruct (until_soh p) as [[v' r']|]; [|done]. cbn. intros; simplify_eq.
  destruct (IH v' r eq_refl) as [-> Hv]. split; [done|]. by apply not_elem_of_cons.
Qed.

Lemma digits_no_soh ds : digits ds -> (SOH ∉ ds) /\ (ch_eq ∉ ds).
Proof.
  induction 1 as [|c ds Hc _ [IH1 IH2]]; [split; apply not_elem_of_nil|].
  apply digit_not_soh in Hc as (? & ? & _). by split; apply not_elem_of_cons.
Qed.

(** The value grows with every digit. *)
Lemma foldl_dec_mono acc ds : 0 <= acc -> digits ds -> acc <= foldl (fun a c => a * 10 + digit_of c) acc ds.
Proof.
  intros Ha Hd. rewrite foldl_dec. pose proof (dec_val_bound ds Hd).
  assert (1 <= 10 ^ zlen ds) by (pose proof (Z.pow_pos_nonneg 10 (zlen ds)); pose proof (zlen_nonneg ds); lia). nia.
Qed.

Lemma tag_loop_app ds r num :
  0 <= num -> digits ds ->
  foldl (fun a c => a * 10 + digit_of c) num ds <= UINT32_MAX ->
  tag_loop num (ds ++ ch_eq :: r) = (foldl (fun a c => a * 10 + digit_of c) num ds, r).
Proof.
  intros Hn Hd. revert num Hn; induction Hd as [|c ds Hc Hd IH]; intros num Hn Hle; cbn [app tag_loop foldl] in *.
  { by rewrite decide_True. }
  destruct (digit_not_soh c Hc) as (_ & Hne & _). rewrite decide_False by done. rewrite Hc. cbn [negb].
  apply is_digit_spec in Hc. pose proof (foldl_dec_mono (num * 10 + digit_of c) ds ltac:(lia) Hd).
  assert (num <= kMaxTag) by (apply Z.div_le_lower_bound; lia). zdecides. apply IH; [lia|done].
Qed.

Lemma tag_loop_some num p n r :
  0 <= num -> tag_loop num p = (n, r) -> n <> 0 ->
  exists ds, p = ds ++ ch_eq :: r /\ digits ds /\ n = foldl (fun a c => a * 10 + digit_of c) num ds /\
    (num <= UINT32_MAX -> n <= UINT32_MAX).
Proof.
  revert num; induction p as [|c p IH]; intros num Hn E Hne; cbn in E; [by simplify_eq|].
  destruct (decide (c = ch_eq)) as [->|]; [simplify_eq; exists []; split_and!; try done; constructor|].
  destruct (is_digit c) eqn:Hc; cbn [negb] in E; [|by simplify_eq]. apply is_digit_spec in Hc as Hd.
  destruct (Z.ltb_spec kMaxTag num); [by simplify_eq|].
  destruct (Z.ltb_spec (UINT32_MAX - digit_of c) (num * 10)); [by simplify_eq|].
  destruct (IH (num * 10 + digit_of c) ltac:(lia) E Hne) as (ds & -> & Hds & -> & Hle).
  exists (c :: ds). split_and!; try done; [by constructor|]. intros _. apply Hle. lia.
Qed.

(** A tag: its digits, then [=]. *)
Lemma parse_tag_number_app ds r :
  digits ds -> ds <> [] -> dec_val ds <= UINT32_MAX -> parse_tag_number (ds ++ ch_eq :: r) = (dec_val ds, r).
Proof.
  intros Hd Hne Hle. destruct ds as [|c ds]; [done|]. apply Forall_cons_1 in Hd as Hc. destruct Hc as [Hc _].
  unfold parse_tag_number. cbn [app]. rewrite Hc. cbn [negb]. by apply (tag_loop_app (c :: ds)).
Qed.

Lemma parse_tag_number_some p n r :
  parse_tag_number p = (n, r) -> n <> 0 ->
  exists ds, p = ds ++ ch_eq :: r /\ digits ds /\ ds <> [] /\ dec_val ds = n /\ 0 < n <= UINT32_MAX.
Proof.
  destruct p as [|c p]; cbn [parse_tag_number]; [by intros; simplify_eq|].
  destruct (is_digit c) eqn:Hc; cbn [negb]; [|by intros; simplify_eq]. intros E Hne.
  destruct (tag_loop_some 0 _ n r ltac:(lia) E Hne) as (ds & Ep & Hd & -> & Hle).
  pose proof (dec_val_bound ds Hd). fold (dec_val ds) in *.
  exists ds. split_and!; try done; [|lia|by apply Hle].
  intros ->. cbn in Ep. injection Ep as -> _. done.
Qed.

Lemma body_length_app max s acc :
  0 <= acc -> digits s -> foldl (fun a c => a * 10 + digit_of c) acc s <= max ->
  body_length_loop max acc s = Some (foldl (fun a c => a * 10 + digit_of c) acc s).
Proof.
  intros Ha Hd. revert acc Ha; induction Hd as [|c s Hc Hd IH]; intros acc Ha Hle; cbn [body_length_loop foldl] in *; [done|].
  rewrite Hc. cbn [negb]. apply is_digit_spec in Hc.
  pose proof (foldl_dec_mono (acc * 10 + digit_of c) s ltac:(lia) Hd).
  assert (acc <= max / 10) by (apply Z.div_le_lower_bound; lia). zdecides. apply IH; [lia|done].
Qed.

Lemma body_length_some max s acc n :
  0 <= acc -> body_length_loop max acc s = Some n ->
  digits s /\ n = foldl (fun a c => a * 10 + digit_of c) acc s /\ (acc <= max -> n <= max).
Proof.
  revert acc; induction s as [|c s IH]; intros acc Ha E; cbn in E.
  { simplify_eq. split_and!; try done. constructor. }
  destruct (is_digit c) eqn:Hc; cbn [negb] in E; [|done]. apply is_digit_spec in Hc as Hd.
  destruct (Z.ltb_spec (max / 10) acc); [done|].
  destruct (Z.ltb_spec max (acc * 10 + digit_of c)); [done|].
  destruct (IH (acc * 10 + digit_of c) ltac:(lia) E) as (H1 & -> & H2).
  split_and!; [by constructor|done|lia].
Qed.

Lemma fr_body_length_app max s acc r :
  0 <= acc -> digits s -> foldl (fun a c => a * 10 + digit_of c) acc s <= max ->
  fr_body_length max acc (s ++ SOH :: r) = Ok (foldl (fun a c => a * 10 + digit_of c) acc s, r).
Proof.
  intros Ha Hd. revert acc Ha; induction Hd as [|c s Hc Hd IH]; intros acc Ha Hle; cbn [app fr_body_length foldl] in *.
  { by rewrite decide_True. }
  destruct (digit_not_soh c Hc) as (Hne & _). rewrite decide_False by done. rewrite Hc. cbn [negb].
  apply is_digit_spec in Hc. pose proof (foldl_dec_mono (acc * 10 + digit_of c) s ltac:(lia) Hd).
  assert (acc <= max / 10) by (apply Z.div_le_lower_bound; lia). zdecides. apply IH; [lia|done].
Qed.

(** A length cut off before its SOH. *)
Lemma fr_body_length_cut max s acc :
  0 <= acc -> digits s -> foldl (fun a c => a * 10 + digit_of c) acc s <= max ->
  fr_body_length max acc s = Err kIncomplete.
Proof.
  intros Ha Hd. revert acc Ha; induction Hd as [|c s Hc Hd IH]; intros acc Ha Hle; cbn [fr_body_length foldl] in *; [done|].
  destruct (digit_not_soh c Hc) as (Hne & _). rewrite decide_False by done. rewrite Hc. cbn [negb].
  apply is_digit_spec in Hc. pose proof (foldl_dec_mono (acc * 10 + digit_of c) s ltac:(lia) Hd).
  assert (acc <= max / 10) by (apply Z.div_le_lower_bound; lia). zdecides. apply IH; [lia|done].
Qed.

Lemma fr_body_length_ok max acc p n r :
  0 <= acc -> fr_body_length max acc p = Ok (n, r) -> 0 <= n /\ exists ds, p = ds ++ SOH :: r.
Proof.
  revert acc; induction p as [|c p IH]; intros acc Ha E; cbn in E; [done|].
  destruct (decide (c = SOH)) as [->|]; [simplify_eq; split; [done|by exists []]|].
  destruct (is_digit c) eqn:Hc; cbn [negb] in E; [|done]. apply is_digit_spec in Hc.
  destruct (max / 10 <? acc); [done|]. destruct (max <? _); [done|].
  destruct (IH (acc * 10 + digit_of c) ltac:(lia) E) as (H1 & ds & ->). split; [done|]. by exists (c :: ds).
Qed.

(** ** The checksum *)

Definition byte_sum (data : list byte) : Z := foldr (fun b s => b2z b + s) 0 data.

Lemma foldl_sum acc data :
  foldl (fun sum b => u32 (sum + b2z b)) (u32 acc) data = u32 (acc + byte_sum data).
Proof.
  revert acc; induction data as [|b data IH]; intros acc; cbn [foldl byte_sum foldr].
  { by rewrite Z.add_0_r. }
  rewrite wrap_add_wrap_l, IH by lia. fold (byte_sum data). f_equal. lia.
Qed.

(** The checksum is the sum of the bytes modulo 256, however long the message. *)
Lemma compute_checksum_sum data : compute_checksum data = byte_sum data mod 256.
Proof.
  unfold compute_checksum. change 0 with (u32 0) at 1. rewrite foldl_sum, Z.add_0_l.
  change 255 with (2 ^ 8 - 1). rewrite land_mask by lia. unfold wrap.
  change (2 ^ 32) with (256 * 16777216). change (2 ^ 8) with 256.
  rewrite Z.mod_mod by lia. rewrite Z.rem_mul_r, Z.mul_comm, Z.mod_add, Z.mod_mod by lia. done.
Qed.

Definition trailer (cc : list byte) : list byte := [x31; x30; ch_eq] ++ cc ++ [SOH].

Lemma rd_drop data off i : 0 <= off -> rd data (off + Z.of_nat i) = drop (Z.to_nat off) data !! i.
Proof.
  intros Ho. unfold rd. rewrite (proj2 (Z.leb_le 0 _)) by lia. rewrite lookup_drop. f_equal. lia.
Qed.

(** The seven bytes at [off], read one by one. *)
Lemma read_checksum_eq data off c0 c1 c2 c3 c4 c5 c6 r :
  0 <= off -> drop (Z.to_nat off) data = c0 :: c1 :: c2 :: c3 :: c4 :: c5 :: c6 :: r ->
  read_checksum data off =
    if decide (c0 = x31 /\ c1 = x30 /\ c2 = ch_eq /\ c6 = SOH /\ digits [c3; c4; c5])
    then Some (Some (dec_val [c3; c4; c5])) else Some None.
Proof.
  intros Ho E. unfold read_checksum. rewrite <- (Z.add_0_r off) at 1.
  change 0 with (Z.of_nat 0) at 1. change 1 with (Z.of_nat 1) at 1. change 2 with (Z.of_nat 2) at 1.
  change 6 with (Z.of_nat 6) at 1. change 3 with (Z.of_nat 3) at 1. change 4 with (Z.of_nat 4) at 1.
  change 5 with (Z.of_nat 5) at 1. rewrite !rd_drop, E by done. cbn [lookup list_lookup mbind option_bind].
  destruct (decide (c0 = x31)) as [->|]; [|rewrite decide_True, decide_False by tauto; done].
  destruct (decide (c1 = x30)) as [->|]; [|rewrite decide_True, decide_False by tauto; done].
  destruct (decide (c2 = ch_eq)) as [->|]; [|rewrite decide_True, decide_False by tauto; done].
  rewrite decide_False by tauto.
  destruct (decide (c6 = SOH)) as [->|]; [|rewrite decide_True, decide_False by tauto; done].
  rewrite decide_False by tauto.
  destruct (is_digit c3 && is_digit c4 && is_digit c5) eqn:Ed.
  - rewrite !andb_true_iff in Ed. destruct Ed as [[]]. rewrite decide_True; [done|].
    split_and!; try done. by repeat constructor.
  - rewrite decide_False; [done|]. intros (_ & _ & _ & _ & Hd). unfold digits in Hd.
    rewrite !list.Forall_cons in Hd. destruct Hd as (H1 & H2 & H3 & _). rewrite H1, H2, H3 in Ed. done.
Qed.

(** ** The grammar of a message *)

(** A field on the wire: the text of its tag and its value. *)
Record rawfield := mkRaw { rtag : list byte; rvalue : list byte }.

Definition raw_ok (f : rawfield) : Prop :=
  digits (rtag f) /\ rtag f <> [] /\ 0 < dec_val (rtag f) <= UINT32_MAX /\ SOH ∉ rvalue f.
Definition raw_bytes (f : rawfield) : list byte := rtag f ++ ch_eq :: rvalue f ++ [SOH].
Definition raw_field (f : rawfield) : Field := mkField (dec_val (rtag f)) (rvalue f).
Definition body_bytes (fs : list rawfield) : list byte := concat (raw_bytes <$> fs).

(** [t8=bs SOH t9=ds SOH]. *)
Definition header (t8 bs t9 ds : list byte) : list byte :=
  t8 ++ ch_eq :: bs ++ SOH :: t9 ++ ch_eq :: ds ++ [SOH].

Definition tag_text (ts : list byte) (t : Z) : Prop := digits ts /\ ts <> [] /\ dec_val ts = t.

(** What surrounds the body: tags 8 and 9, a length that is the length of the body,
    three checksum digits that agree modulo 256 with the sum of what precedes. *)
Record envelope_ok (max : Z) (t8 bs t9 ds body cc : list byte) : Prop := {
  eo_t8 : tag_text t8 BeginString;
  eo_bs : SOH ∉ bs;
  eo_t9 : tag_text t9 BodyLength;
  eo_ds : digits ds;
  eo_len : dec_val ds = zlen body;
  eo_max : zlen body <= max;
  eo_cc : digits cc /\ zlen cc = 3;
  eo_sum : byte_sum (header t8 bs t9 ds ++ body) mod 256 = dec_val cc mod 256;
}.

(** ** Field by field *)

Lemma zlen_raw f : zlen (raw_bytes f) = zlen (rtag f) + zlen (rvalue f) + 2.
Proof. unfold raw_bytes. rewrite zlen_app, zlen_cons, zlen_app. change (zlen [SOH]) with 1. lia. Qed.

Lemma parse_fields_step fuel maxf bp acc :
  bp <> [] ->
  parse_fields (S fuel) maxf bp acc =
    let '(field_tag, val_start) := parse_tag_number bp in
    if field_tag =? 0 then Some (Err pInvalidFormat) else
    match until_soh val_start with
    | None => Some (Err pInvalidFormat)
    | Some (v, bp) =>
        if maxf <=? zlen acc then Some (Err pFieldOverflow)
        else parse_fields fuel maxf bp (acc ++ [mkField field_tag v])
    end.
Proof. by destruct bp. Qed.

Lemma parse_fields_app fuel maxf fs acc :
  Forall raw_ok fs -> (length (body_bytes fs) <= fuel)%nat ->
  parse_fields fuel maxf (body_bytes fs) acc =
    Some (if zlen acc + zlen fs <=? Z.max (zlen acc) maxf then Ok (acc ++ (raw_field <$> fs)) else Err pFieldOverflow).
Proof.
  intros Hok. revert fuel acc; induction Hok as [|f fs (Hd & Hne & Ht & Hv) Hok IH]; intros fuel acc Hf.
  { cbn. rewrite app_nil_r. change (zlen (@nil rawfield)) with 0. rewrite (proj2 (Z.leb_le _ _)) by lia. by destruct fuel. }
  assert (body_bytes (f :: fs) = rtag f ++ ch_eq :: (rvalue f ++ SOH :: body_bytes fs)) as E.
  { unfold body_bytes. cbn. unfold raw_bytes at 1. rewrite <- app_assoc. cbn. by rewrite <- app_assoc. }
  assert (length (body_bytes fs) + 2 <= length (body_bytes (f :: fs)))%nat as Hlen.
  { rewrite E, length_app. cbn. rewrite length_app. cbn. lia. }
  destruct fuel as [|fuel]; [lia|]. rewrite E, parse_fields_step by (by destruct (rtag f)).
  rewrite parse_tag_number_app by (done || lia). cbn zeta. zdecide.
  rewrite until_soh_app by done. rewrite zlen_cons.
  destruct (Z.leb_spec maxf (zlen acc)).
  - rewrite (proj2 (Z.leb_gt _ _)); [done|]. pose proof (zlen_nonneg fs). lia.
  - rewrite IH by lia. rewrite zlen_app. change (zlen [_]) with 1. cbn [fmap list_fmap].
    rewrite <- app_assoc. cbn [app]. f_equal.
    replace (zlen acc + (zlen fs + 1) <=? _) with (zlen acc + 1 + zlen fs <=? Z.max (zlen acc + 1) maxf); [done|].
    apply Bool.eq_iff_eq_true. rewrite !Z.leb_le. lia.
Qed.

Lemma parse_fields_some fuel maxf bp acc r :
  parse_fields fuel maxf bp acc = Some (Ok r) ->
  exists fs, Forall raw_ok fs /\ bp = body_bytes fs /\ r = acc ++ (raw_field <$> fs) /\
    (zlen acc <= maxf -> zlen r <= maxf).
Proof.
  revert bp acc; induction fuel as [|fuel IH]; intros bp acc E.
  { destruct bp; [|done]. cbn in E. simplify_eq. exists []. rewrite app_nil_r. by repeat split; try constructor. }
  destruct bp as [|b bp]; [cbn in E; simplify_eq; exists []; rewrite app_nil_r; by repeat split; try constructor|].
  cbn [parse_fields] in E. destruct (parse_tag_number (b :: bp)) as [t vs] eqn:Et.
  destruct (Z.eqb_spec t 0) as [|Hne]; [done|].
  destruct (parse_tag_number_some _ _ _ Et Hne) as (ts & Ebp & Hd & Hts & Hval & Ht).
  destruct (until_soh vs) as [[v rest]|] eqn:Ev; [|done]. apply until_soh_some in Ev as [-> Hv].
  destruct (Z.leb_spec maxf (zlen acc)); [done|].
  destruct (IH _ _ E) as (fs & Hok & -> & -> & Hle).
  exists (mkRaw ts v :: fs). split_and!.
  - constructor; [|done]. by rewrite <- Hval in Ht.
  - rewrite Ebp. unfold body_bytes. cbn. unfold raw_bytes at 2. cbn. rewrite <- !app_assoc. cbn. by rewrite <- app_assoc.
  - rewrite <- app_assoc, <- Hval. done.
  - intros _. apply Hle. rewrite zlen_app. change (zlen [_]) with 1. lia.
Qed.

Lemma parse_fields_total fuel maxf bp acc :
  (length bp <= fuel)%nat -> is_Some (parse_fields fuel maxf bp acc).
Proof.
  revert bp acc; induction fuel as [|fuel IH]; intros bp acc Hf.
  { destruct bp; [by eexists|cbn in Hf; lia]. }
  destruct bp as [|b bp]; [by eexists|]. cbn [parse_fields].
  destruct (parse_tag_number (b :: bp)) as [t vs] eqn:Et.
  destruct (Z.eqb_spec t 0) as [|Hne]; [by eexists|].
  destruct (parse_tag_number_some _ _ _ Et Hne) as (ts & Ebp & _).
  destruct (until_soh vs) as [[v rest]|] eqn:Ev; [|by eexists]. apply until_soh_some in Ev as [-> _].
  destruct (_ <=? _); [by eexists|]. apply IH.
  apply (f_equal length) in Ebp. rewrite !length_app in Ebp. cbn in Ebp, Hf. rewrite length_app in Ebp. cbn in Ebp. lia.
Qed.

(** ** The envelope *)

Lemma header_app t8 bs t9 ds q :
  header t8 bs t9 ds ++ q = t8 ++ ch_eq :: (bs ++ SOH :: (t9 ++ ch_eq :: (ds ++ SOH :: q))).
Proof. unfold header. rewrite <- app_assoc. cbn. rewrite <- app_assoc. cbn. rewrite <- app_assoc. cbn. by rewrite <- app_assoc. Qed.

Lemma parse_header maxf max t8 bs t9 ds q :
  tag_text t8 BeginString -> SOH ∉ bs -> tag_text t9 BodyLength -> SOH ∉ ds ->
  parse maxf max (header t8 bs t9 ds ++ q) = parse_rest maxf max (header t8 bs t9 ds ++ q) bs ds q.
Proof.
  intros (H8 & N8 & V8) Hbs (H9 & N9 & V9) Hds. unfold parse.
  rewrite (proj2 (Z.eqb_neq (zlen (header t8 bs t9 ds ++ q)) 0)).
  2: { rewrite header_app, zlen_app, zlen_cons. pose proof (zlen_nonneg t8).
       match goal with |- context [zlen t8 + (?x + 1)] => pose proof (zlen_nonneg (bs ++ SOH :: (t9 ++ ch_eq :: (ds ++ SOH :: q)))) end. lia. }
  rewrite header_app at 1. rewrite parse_tag_number_app by (rewrite ?V8; done). rewrite V8. cbn [negb Z.eqb].
  change (BeginString =? BeginString) with true. cbn [negb].
  rewrite until_soh_app by done.
  rewrite (proj2 (Z.leb_gt _ 0)) by (rewrite zlen_app, zlen_cons; pose proof (zlen_nonneg t9); pose proof (zlen_nonneg (ds ++ SOH :: q)); lia).
  rewrite parse_tag_number_app by (rewrite ?V9; done). rewrite V9. change (BodyLength =? BodyLength) with true. cbn [negb].
  by rewrite until_soh_app by done.
Qed.

Lemma parse_some_header maxf max data v :
  parse maxf max data = Some (Ok v) ->
  exists t8 bs t9 ds q, tag_text t8 BeginString /\ (SOH ∉ bs) /\ tag_text t9 BodyLength /\ (SOH ∉ ds) /\
    data = header t8 bs t9 ds ++ q /\ parse_rest maxf max data bs ds q = Some (Ok v).
Proof.
  unfold parse. destruct (zlen data =? 0); [done|].
  destruct (parse_tag_number data) as [t1 p1] eqn:E1.
  destruct (Z.eqb_spec t1 BeginString) as [->|]; cbn [negb]; [|done].
  destruct (parse_tag_number_some _ _ _ E1 ltac:(done)) as (t8 & -> & H8 & N8 & V8 & _).
  destruct (until_soh p1) as [[bs p2]|] eqn:E2; [|done]. apply until_soh_some in E2 as [-> Hbs].
  destruct (zlen p2 <=? 0); [done|].
  destruct (parse_tag_number p2) as [t2 p3] eqn:E3.
  destruct (Z.eqb_spec t2 BodyLength) as [->|]; cbn [negb]; [|done].
  destruct (parse_tag_number_some _ _ _ E3 ltac:(done)) as (t9 & -> & H9 & N9 & V9 & _).
  destruct (until_soh p3) as [[ds q]|] eqn:E4; [|done]. apply until_soh_some in E4 as [-> Hds].
  intros Hr. exists t8, bs, t9, ds, q. rewrite header_app. by repeat split.
Qed.

(** The byte ranges [parse_rest] and [frame_rest] look at. *)
Lemma covered_slice (h body r : list byte) n :
  n = zlen h + zlen body -> slice (h ++ body ++ r) 0 n = Some (h ++ body).
Proof. intros ->. rewrite app_assoc. apply (slice_mid [] (h ++ body) r); [done|by rewrite zlen_app]. Qed.

Lemma trailer_read (h body cc r : list byte) off :
  digits cc -> zlen cc = 3 -> off = zlen h + zlen body ->
  read_checksum (h ++ body ++ trailer cc ++ r) off = Some (Some (dec_val cc)).
Proof.
  intros Hd H3 ->. destruct cc as [|c3 [|c4 [|c5 [|]]]]; try (unfold zlen in H3; cbn in H3; lia).
  rewrite (read_checksum_eq _ _ x31 x30 ch_eq c3 c4 c5 SOH r).
  - by rewrite decide_True.
  - pose proof (zlen_nonneg h). pose proof (zlen_nonneg body). lia.
  - rewrite app_assoc, drop_app_length'; [done|]. unfold zlen. rewrite length_app. lia.
Qed.

(** Conversely, seven bytes that pass are a trailer. *)
Lemma read_checksum_some (h q : list byte) n m :
  0 <= n -> n + 7 <= zlen q -> read_checksum (h ++ q) (zlen h + n) = Some (Some m) ->
  exists body cc r, q = body ++ trailer cc ++ r /\ zlen body = n /\ digits cc /\ zlen cc = 3 /\ m = dec_val cc.
Proof.
  intros Hn Hq E. pose proof (zlen_nonneg h).
  assert (drop (Z.to_nat (zlen h + n)) (h ++ q) = drop (Z.to_nat n) q) as Ed.
  { rewrite drop_app_ge by (unfold zlen; lia). f_equal. unfold zlen. lia. }
  assert (zlen (drop (Z.to_nat n) q) = zlen q - n) as Hl by (rewrite zlen_drop; lia).
  destruct (drop (Z.to_nat n) q) as [|c0 [|c1 [|c2 [|c3 [|c4 [|c5 [|c6 r]]]]]]] eqn:El;
    try (unfold zlen in *; cbn in Hl; lia).
  rewrite (read_checksum_eq _ _ c0 c1 c2 c3 c4 c5 c6 r) in E by (done || lia).
  destruct (decide _) as [(-> & -> & -> & -> & Hd)|]; [|done]. simplify_eq.
  exists (take (Z.to_nat n) q), [c3; c4; c5], r. split_and!; try done.
  - rewrite <- (take_drop (Z.to_nat n) q) at 1. by rewrite El.
  - rewrite zlen_take. lia.
Qed.

Lemma zlen_trailer cc : zlen (trailer cc) = zlen cc + 4.
Proof. unfold trailer. rewrite !zlen_app. change (zlen [x31; x30; ch_eq]) with 3. change (zlen [SOH]) with 1. lia. Qed.

Lemma checksum_u8 data n : compute_checksum data = u8 n <-> byte_sum data mod 256 = n mod 256.
Proof. rewrite compute_checksum_sum. done. Qed.

Lemma parse_rest_app maxf max h bs ds body cc r :
  digits ds -> dec_val ds = zlen body -> zlen body <= max -> digits cc -> zlen cc = 3 ->
  byte_sum (h ++ body) mod 256 = dec_val cc mod 256 ->
  parse_rest maxf max (h ++ body ++ trailer cc ++ r) bs ds (body ++ trailer cc ++ r) =
    (fs ← parse_fields (length body) maxf body [];
     match fs with Err e => Some (Err e) | Ok fs => Some (Ok (mkView fs (zlen h + zlen body + 7) bs)) end).
Proof.
  intros Hds Hn Hmax Hcc H3 Hsum. unfold parse_rest.
  rewrite body_length_app by (done || fold (dec_val ds); lia). fold (dec_val ds). rewrite Hn.
  set (q := body ++ trailer cc ++ r).
  assert (zlen q = zlen body + 7 + zlen r) as Hq by (subst q; rewrite !zlen_app, zlen_trailer; lia).
  rewrite zlen_app. replace (zlen h + zlen q - zlen q) with (zlen h) by lia.
  pose proof (zlen_nonneg r). pose proof (zlen_nonneg body). zdecides. subst q.
  rewrite trailer_read by done. cbn [mbind option_bind]. rewrite (covered_slice h body) by done. cbn [mbind option_bind].
  rewrite (proj2 (Z.eqb_eq _ _)) by (by apply checksum_u8). cbn [negb].
  rewrite (slice_mid [] body (trailer cc ++ r)) by done. done.
Qed.

Lemma parse_rest_some maxf max h bs ds q v :
  0 <= max -> parse_rest maxf max (h ++ q) bs ds q = Some (Ok v) ->
  exists body cc r fs, q = body ++ trailer cc ++ r /\ digits ds /\ dec_val ds = zlen body /\ zlen body <= max /\
    digits cc /\ zlen cc = 3 /\ byte_sum (h ++ body) mod 256 = dec_val cc mod 256 /\
    parse_fields (length body) maxf body [] = Some (Ok fs) /\ v = mkView fs (zlen h + zlen body + 7) bs.
Proof.
  intros Hm0 E. unfold parse_rest in E.
  destruct (body_length_loop max 0 ds) as [n|] eqn:En; [|done].
  apply body_length_some in En as (Hds & Hn & Hmax); [|done]. fold (dec_val ds) in Hn.
  rewrite zlen_app in E. replace (zlen h + zlen q - zlen q) with (zlen h) in E by lia.
  pose proof (dec_val_bound ds Hds) as Hb.
  destruct (Z.ltb_spec (zlen h + zlen q) (zlen h + 7)); [done|].
  destruct (Z.ltb_spec (zlen h + zlen q - zlen h - 7) n); [done|]. cbn [orb] in E.
  destruct (read_checksum _ _) as [[m|]|] eqn:Ec; [|done..]. cbn [mbind option_bind] in E.
  apply read_checksum_some in Ec as (body & cc & r & -> & Hl & Hcc & H3 & ->); [|lia..].
  rewrite (covered_slice h body) in E by lia. cbn [mbind option_bind] in E.
  destruct (Z.eqb_spec (compute_checksum (h ++ body)) (u8 (dec_val cc))) as [Es|]; cbn [negb] in E; [|done].
  rewrite (slice_mid [] body (trailer cc ++ r)) in E by (done || lia). cbn [mbind option_bind] in E.
  destruct (parse_fields _ _ _ _) as [[fs|]|] eqn:Ef; cbn in E; [|done..]. simplify_eq.
  exists body, cc, r, fs. apply checksum_u8 in Es. split_and!; try done; try lia. by rewrite Hl.
Qed.

(** The reads at fixed offsets are inside the buffer. *)
Lemma read_checksum_total data off : 0 <= off -> off + 7 <= zlen data -> is_Some (read_checksum data off).
Proof.
  intros H1 H2. assert (zlen (drop (Z.to_nat off) data) = zlen data - off) as Hl by (rewrite zlen_drop; lia).
  destruct (drop (Z.to_nat off) data) as [|c0 [|c1 [|c2 [|c3 [|c4 [|c5 [|c6 r]]]]]]] eqn:El;
    try (unfold zlen in *; cbn in Hl; lia).
  rewrite (read_checksum_eq _ _ c0 c1 c2 c3 c4 c5 c6 r) by done. destruct (decide _); by eexists.
Qed.

Lemma slice_total data off n : 0 <= off -> 0 <= n -> off + n <= zlen data -> exists x, slice data off n = Some x /\ zlen x = n.
Proof.
  intros H1 H2 H3. unfold slice. zdecides. eexists; split; [done|]. rewrite zlen_take, zlen_drop. lia.
Qed.

Lemma parse_rest_total maxf max h bs ds q : is_Some (parse_rest maxf max (h ++ q) bs ds q).
Proof.
  unfold parse_rest. destruct (body_length_loop max 0 ds) as [n|] eqn:En; [|by eexists].
  apply body_length_some in En as (Hds & Hn & Hmax); [|done]. fold (dec_val ds) in Hn.
  pose proof (dec_val_bound ds Hds) as Hb. pose proof (zlen_nonneg h).
  rewrite zlen_app. replace (zlen h + zlen q - zlen q) with (zlen h) by lia.
  destruct (Z.ltb_spec (zlen h + zlen q) (zlen h + 7)); [by eexists|].
  destruct (Z.ltb_spec (zlen h + zlen q - zlen h - 7) n); [by eexists|]. cbn [orb].
  destruct (read_checksum_total (h ++ q) (zlen h + n)) as [c ->]; [lia|rewrite zlen_app; lia|].
  cbn [mbind option_bind]. destruct c; [|by eexists].
  destruct (slice_total (h ++ q) 0 (zlen h + n)) as (cov & -> & _); [lia..|rewrite zlen_app; lia|].
  cbn [mbind option_bind]. destruct (negb _); [by eexists|].
  destruct (slice_total q 0 n) as (body & -> & _); [lia..|]. cbn [mbind option_bind].
  destruct (parse_fields_total (length body) maxf body []) as [[fs|e] ->]; [done|by eexists..].
Qed.

(** Every message of the grammar is accepted, whatever follows it. *)
Lemma parse_accepts maxf max t8 bs t9 ds fs cc r :
  envelope_ok max t8 bs t9 ds (body_bytes fs) cc -> Forall raw_ok fs -> zlen fs <= maxf ->
  parse maxf max (header t8 bs t9 ds ++ body_bytes fs ++ trailer cc ++ r) =
    Some (Ok (mkView (raw_field <$> fs) (zlen (header t8 bs t9 ds) + zlen (body_bytes fs) + 7) bs)).
Proof.
  intros [H8 Hbs H9 Hds N M [C C3] S] Hok Hle.
  rewrite parse_header by (done || by apply digits_no_soh).
  rewrite parse_rest_app by done. rewrite parse_fields_app by done. change (zlen (@nil Field)) with 0.
  by rewrite (proj2 (Z.leb_le _ _)) by lia.
Qed.

(** Only messages of the grammar are accepted. *)
Lemma parse_grammar maxf max data v :
  0 <= maxf -> 0 <= max -> parse maxf max data = Some (Ok v) ->
  exists t8 bs t9 ds fs cc r, envelope_ok max t8 bs t9 ds (body_bytes fs) cc /\ Forall raw_ok fs /\
    zlen fs <= maxf /\ data = header t8 bs t9 ds ++ body_bytes fs ++ trailer cc ++ r /\
    v = mkView (raw_field <$> fs) (zlen (header t8 bs t9 ds) + zlen (body_bytes fs) + 7) bs.
Proof.
  intros Hf Hm E. apply parse_some_header in E as (t8 & bs & t9 & ds & q & H8 & Hbs & H9 & Hds & -> & E).
  apply parse_rest_some in E as (body & cc & r & fs & -> & D & N & M & C & C3 & S & F & ->); [|done].
  apply parse_fields_some in F as (rs & Hok & -> & -> & Hle). cbn [app] in *.
  exists t8, bs, t9, ds, rs, cc, r. split; [by constructor|]. split; [done|]. split; [|done].
  specialize (Hle Hf). unfold zlen in *. by rewrite length_fmap in Hle.
Qed.

(** [parse] returns on any input, without leaving it. *)
Lemma parse_total maxf max data : is_Some (parse maxf max data).
Proof.
  unfold parse. destruct (_ =? 0); [by eexists|].
  destruct (parse_tag_number data) as [t1 p1] eqn:E1.
  destruct (Z.eqb_spec t1 BeginString) as [->|]; cbn [negb]; [|by eexists].
  destruct (parse_tag_number_some _ _ _ E1 ltac:(done)) as (t8 & -> & _).
  destruct (until_soh p1) as [[bs p2]|] eqn:E2; [|by eexists]. apply until_soh_some in E2 as [-> _].
  destruct (zlen p2 <=? 0); [by eexists|].
  destruct (parse_tag_number p2) as [t2 p3] eqn:E3.
  destruct (Z.eqb_spec t2 BodyLength) as [->|]; cbn [negb]; [|by eexists].
  destruct (parse_tag_number_some _ _ _ E3 ltac:(done)) as (t9 & -> & _).
  destruct (until_soh p3) as [[ds q]|] eqn:E4; [|by eexists]. apply until_soh_some in E4 as [-> _].
  rewrite <- header_app. apply parse_rest_total.
Qed.

(** C32: what the FIX parser accepts.  [parse] succeeds exactly on messages of the FIX
    grammar: BeginString, BodyLength equal to the length of the body and at most the
    maximum, fields with a nonzero 32-bit tag and a value free of SOH, at most
    [MaxFields] of them, and a checksum that agrees with the byte sum modulo 256;
    the view holds precisely those fields, in order, and the bytes consumed.  On any
    input at all it returns without leaving the buffer. *)
Theorem fix_parse_exact maxf max data v :
  0 <= maxf -> 0 <= max ->
  is_Some (parse maxf max data) /\
  (parse maxf max data = Some (Ok v) <->
   exists t8 bs t9 ds fs cc r, envelope_ok max t8 bs t9 ds (body_bytes fs) cc /\ Forall raw_ok fs /\
     zlen fs <= maxf /\ data = header t8 bs t9 ds ++ body_bytes fs ++ trailer cc ++ r /\
     v = mkView (raw_field <$> fs) (zlen (header t8 bs t9 ds) + zlen (body_bytes fs) + 7) bs).
Proof.
  intros Hf Hm. split; [|split].
  - apply parse_total.
  - by apply parse_grammar.
  - intros (t8 & bs & t9 & ds & fs & cc & r & He & Hok & Hle & -> & ->). by apply parse_accepts.
Qed.

(** ** The framer's promises *)

(** A message as the framer wants it: tags 8 and 9 without leading zeros, any body. *)
Definition fix_message (max : Z) (pl : list byte) : Prop :=
  exists bs ds body cc, envelope_ok max [x38] bs [x39] ds body cc /\
    pl = header [x38] bs [x39] ds ++ body ++ trailer cc.

Lemma frame_rest_ok data n p fr :
  0 <= n -> zlen p <= zlen data -> frame_rest data n p = Some (Ok fr) ->
  total_len fr = zlen data - zlen p + n + 7 /\ total_len fr <= zlen data /\
  payload fr = Some 0 /\ payload_len fr = total_len fr.
Proof.
  intros Hn Hp E. unfold frame_rest in E.
  destruct (Z.ltb_spec (zlen data) (zlen data - zlen p + 7)); [done|].
  destruct (Z.ltb_spec (zlen data - (zlen data - zlen p) - 7) n); [done|]. cbn [orb] in E.
  destruct (read_checksum _ _) as [[m|]|]; [|done..]. cbn [mbind option_bind] in E.
  destruct (slice data _ _); [|done]. cbn [mbind option_bind] in E. destruct (negb _); [done|].
  destruct (slice p _ _); [|done]. cbn [mbind option_bind] in E. simplify_eq. cbn. repeat split; lia.
Qed.

Lemma frame_rest_total data n p :
  0 <= n -> zlen p <= zlen data -> is_Some (frame_rest data n p).
Proof.
  intros Hn Hp. unfold frame_rest. pose proof (zlen_nonneg p).
  destruct (Z.ltb_spec (zlen data) (zlen data - zlen p + 7)); [by eexists|].
  destruct (Z.ltb_spec (zlen data - (zlen data - zlen p) - 7) n); [by eexists|]. cbn [orb].
  destruct (read_checksum_total data (zlen data - zlen p + n)) as [c ->]; [lia..|].
  cbn [mbind option_bind]. destruct c; [|by eexists].
  destruct (slice_total data 0 (zlen data - zlen p + n)) as (cov & -> & _); [lia..|].
  cbn [mbind option_bind]. destruct (negb _); [by eexists|].
  destruct (slice_total p 0 n) as (body & -> & _); [lia..|]. by eexists.
Qed.

(** [decode] reduced to its last part, or stopped before it. *)
Lemma fix_decode_cases f data :
  (exists e, fix_decode f data = Some (Err e)) \/
  (exists n p, 0 <= n /\ zlen p <= zlen data /\ 0 < zlen data - zlen p /\
     fix_decode f data = frame_rest data n p).
Proof.
  unfold fix_decode. destruct (Z.ltb_spec (zlen data) 2); [left; by eexists|].
  destruct data as [|m0 [|m1 data]]; try (unfold zlen in *; cbn in *; lia).
  change (rd (m0 :: m1 :: data) 0) with (Some m0). change (rd (m0 :: m1 :: data) 1) with (Some m1). cbn [mbind option_bind].
  destruct (decide _); [left; by eexists|]. change (drop 2 (m0 :: m1 :: data)) with data.
  destruct (until_soh data) as [[bs p]|] eqn:E; [|left; by eexists]. apply until_soh_some in E as [-> _].
  destruct (Z.ltb_spec (zlen p) 2); [left; by eexists|].
  destruct p as [|p0 [|p1 p]]; try (unfold zlen in *; cbn in *; lia).
  change (rd (p0 :: p1 :: p) 0) with (Some p0). change (rd (p0 :: p1 :: p) 1) with (Some p1). cbn [mbind option_bind].
  destruct (decide _); [left; by eexists|]. change (drop 2 (p0 :: p1 :: p)) with p.
  destruct (fr_body_length _ _ _) as [[bl q]|e] eqn:E; [|left; by eexists].
  apply fr_body_length_ok in E as [Hn [ds ->]]; [|done].
  right. exists bl, q. split; [done|]. split; [|split; [|done]];
    unfold zlen; cbn; rewrite !length_app; cbn; rewrite !length_app; cbn; lia.
Qed.

#[global] Instance fix_safe : FramerSafe FixFramer.
Proof.
  constructor.
  - intros f data. cbn. destruct (fix_decode_cases f data) as [[e ->]|(n & p & Hn & Hp & _ & ->)]; [by eexists|].
    by apply frame_rest_total.
  - intros f data fr E. cbn in E.
    destruct (fix_decode_cases f data) as [[e E']|(n & p & Hn & Hp & Hh & E')]; rewrite E' in E; [done|].
    apply frame_rest_ok in E as (H1 & H2 & H3 & H4); [|done..]. split; [lia|]. split.
    + unfold frame_bytes. rewrite H3, H4. destruct (slice_total data 0 (total_len fr)) as (x & -> & _); [lia..|]. by eexists.
    + intros off Ho. rewrite H3 in Ho. simplify_eq. lia.
Qed.

(** [decode] on a buffer that begins with a complete header. *)
Lemma fix_decode_header f bs ds q :
  SOH ∉ bs -> digits ds -> dec_val ds <= MaxBodyLength f ->
  fix_decode f (header [x38] bs [x39] ds ++ q) = frame_rest (header [x38] bs [x39] ds ++ q) (dec_val ds) q.
Proof.
  intros Hbs Hd Hmax. set (data := header [x38] bs [x39] ds ++ q).
  assert (data = x38 :: ch_eq :: (bs ++ SOH :: (x39 :: ch_eq :: (ds ++ SOH :: q)))) as E by apply header_app.
  unfold fix_decode. rewrite (proj2 (Z.ltb_ge (zlen data) 2)).
  2: { rewrite E, !zlen_cons. pose proof (zlen_nonneg (bs ++ SOH :: (x39 :: ch_eq :: (ds ++ SOH :: q)))). lia. }
  replace (rd data 0) with (Some x38) by (by rewrite E). replace (rd data 1) with (Some ch_eq) by (by rewrite E).
  cbn [mbind option_bind].
  rewrite decide_False by (intros [H|H]; by apply H).
  replace (drop 2 data) with (bs ++ SOH :: (x39 :: ch_eq :: (ds ++ SOH :: q))) by (by rewrite E).
  rewrite until_soh_app by done. rewrite (proj2 (Z.ltb_ge _ 2)).
  2: { rewrite !zlen_cons. pose proof (zlen_nonneg (ds ++ SOH :: q)). lia. }
  change (rd (x39 :: ch_eq :: ds ++ SOH :: q) 0) with (Some x39).
  change (rd (x39 :: ch_eq :: ds ++ SOH :: q) 1) with (Some ch_eq). cbn [mbind option_bind].
  rewrite decide_False by (intros [H|H]; by apply H).
  change (drop 2 (x39 :: ch_eq :: ds ++ SOH :: q)) with (ds ++ SOH :: q).
  by rewrite fr_body_length_app.
Qed.

Lemma frame_rest_message h body cc r :
  digits cc -> zlen cc = 3 -> byte_sum (h ++ body) mod 256 = dec_val cc mod 256 ->
  frame_rest (h ++ body ++ trailer cc ++ r) (zlen body) (body ++ trailer cc ++ r) =
    Some (Ok {| payload := Some 0; payload_len := zlen h + zlen body + 7;
                msg_type := scan_msg_type (length body) body; is_control := false;
                total_len := zlen h + zlen body + 7 |}).
Proof.
  intros Hcc H3 Hsum. unfold frame_rest. set (q := body ++ trailer cc ++ r).
  assert (zlen q = zlen body + 7 + zlen r) as Hq by (subst q; rewrite !zlen_app, zlen_trailer; lia).
  rewrite zlen_app. replace (zlen h + zlen q - zlen q) with (zlen h) by lia.
  pose proof (zlen_nonneg r). pose proof (zlen_nonneg body). zdecides. subst q.
  rewrite trailer_read by done. cbn [mbind option_bind]. rewrite (covered_slice h body) by done. cbn [mbind option_bind].
  rewrite (proj2 (Z.eqb_eq _ _)) by (by apply checksum_u8). cbn [negb].
  rewrite (slice_mid [] body (trailer cc ++ r)) by done. done.
Qed.

(** [decode] on a buffer that ends inside the header. *)
Lemma fix_decode_cut_begin f p : SOH ∉ p -> fix_decode f (x38 :: ch_eq :: p) = Some (Err kIncomplete).
Proof.
  intros Hp. unfold fix_decode.
  rewrite (proj2 (Z.ltb_ge _ 2)) by (rewrite !zlen_cons; pose proof (zlen_nonneg p); lia).
  change (rd (x38 :: ch_eq :: p) 0) with (Some x38). change (rd (x38 :: ch_eq :: p) 1) with (Some ch_eq).
  cbn [mbind option_bind]. rewrite decide_False by (intros [H|H]; by apply H).
  change (drop 2 (x38 :: ch_eq :: p)) with p. by rewrite until_soh_none.
Qed.

Lemma fix_decode_begin f bs p :
  SOH ∉ bs ->
  fix_decode f (x38 :: ch_eq :: bs ++ SOH :: p) =
    if zlen p <? 2 then Some (Err kIncomplete) else
    p0 ← rd p 0; p1 ← rd p 1;
    if decide (p0 <> x39 \/ p1 <> ch_eq) then Some (Err kInvalidFormat) else
    match fr_body_length (MaxBodyLength f) 0 (drop 2 p) with
    | Err e => Some (Err e)
    | Ok (body_length, q) => frame_rest (x38 :: ch_eq :: bs ++ SOH :: p) body_length q
    end.
Proof.
  intros Hbs. set (data := x38 :: ch_eq :: bs ++ SOH :: p). unfold fix_decode.
  rewrite (proj2 (Z.ltb_ge _ 2)) by (subst data; rewrite !zlen_cons; pose proof (zlen_nonneg (bs ++ SOH :: p)); lia).
  change (rd data 0) with (Some x38). change (rd data 1) with (Some ch_eq).
  cbn [mbind option_bind]. rewrite decide_False by (intros [H|H]; by apply H).
  change (drop 2 data) with (bs ++ SOH :: p). by rewrite until_soh_app.
Qed.

(** A prefix of a field that ends with SOH. *)
Lemma prefix_soh (p s v r : list byte) :
  p ++ s = v ++ SOH :: r -> (exists k, v = p ++ k) \/ (exists k, p = v ++ SOH :: k /\ r = k ++ s).
Proof.
  intros E. apply app_eq_inv in E as [(k & -> & E)|(k & -> & E)]; [|left; by exists k].
  destruct k as [|c k]; [left; exists []; by rewrite !app_nil_r|]. right. exists k. cbn in E. by simplify_eq.
Qed.

Lemma fix_decode_prefix f bs ds body cc p s :
  envelope_ok (MaxBodyLength f) [x38] bs [x39] ds body cc ->
  header [x38] bs [x39] ds ++ body ++ trailer cc = p ++ s -> s <> [] ->
  fix_decode f p = Some (Err kIncomplete).
Proof.
  intros [_ Hbs _ Hds Hlen Hmax [_ H3] _] E Hs. rewrite header_app in E. cbn [app] in E.
  destruct p as [|a [|b p]]; [done..|]. cbn [app] in E. injection E as <- <- E. symmetry in E.
  apply prefix_soh in E as [[k ->]|(k & -> & E)].
  { apply fix_decode_cut_begin. intros H. apply Hbs, elem_of_app. by left. }
  rewrite fix_decode_begin by done. destruct (Z.ltb_spec (zlen k) 2) as [|H2]; [done|].
  destruct k as [|a [|b k]]; try (unfold zlen in H2; cbn in H2; lia). cbn [app] in E. injection E as <- <- E.
  change (rd (x39 :: ch_eq :: k) 0) with (Some x39). change (rd (x39 :: ch_eq :: k) 1) with (Some ch_eq).
  cbn [mbind option_bind]. rewrite decide_False by (intros [H|H]; by apply H).
  change (drop 2 (x39 :: ch_eq :: k)) with k. symmetry in E.
  apply prefix_soh in E as [[j ->]|(j & -> & E)].
  - apply Forall_app in Hds as [Hk Hj]. unfold dec_val in Hlen. rewrite foldl_app in Hlen.
    pose proof (foldl_dec_mono 0 k ltac:(lia) Hk). pose proof (foldl_dec_mono _ j H Hj).
    rewrite fr_body_length_cut; [done|lia|done|lia].
  - fold (dec_val ds). rewrite fr_body_length_app by (done || fold (dec_val ds); lia). fold (dec_val ds).
    unfold frame_rest. set (data := x38 :: _).
    assert (zlen j < zlen body + 7) as Hj.
    { apply (f_equal zlen) in E. rewrite !zlen_app, zlen_trailer in E.
      assert (0 < zlen s) by (destruct s; [done|unfold zlen; cbn; lia]). lia. }
    pose proof (zlen_nonneg j).
    destruct (Z.ltb_spec (zlen data) (zlen data - zlen j + 7)); [done|].
    by rewrite (proj2 (Z.ltb_lt _ _)) by lia.
Qed.

Lemma fix_header_size t8 bs t9 ds : 4 <= zlen (header t8 bs t9 ds).
Proof.
  rewrite <- (app_nil_r (header _ _ _ _)), header_app. unfold zlen.
  rewrite length_app. cbn. rewrite length_app. cbn. rewrite length_app. cbn. rewrite length_app. cbn. lia.
Qed.

#[global] Instance fix_delim : SelfDelimiting FixFramer.
Proof.
  refine {| encodable := fun f pl _ => fix_message (MaxBodyLength f) pl; wire := fun _ pl _ => pl |}.
  - intros f out pl ty Hm Hout. cbn in *. unfold fix_max_overhead in *. split; [lia|]. unfold fix_encode.
    assert (0 < zlen pl) as Hp.
    { destruct Hm as (bs & ds & body & cc & _ & ->). rewrite zlen_app. pose proof (fix_header_size [x38] bs [x39] ds).
      pose proof (zlen_nonneg (body ++ trailer cc)). lia. }
    zdecide. rewrite slice_all by done. cbn [mbind option_bind]. rewrite wr_0 by lia. done.
  - intros f pl ty rest (bs & ds & body & cc & [H8 Hbs H9 Hds Hl Hm [C C3] S] & ->).
    cbn [decode fix_framer]. set (h := header [x38] bs [x39] ds) in *.
    replace ((h ++ body ++ trailer cc) ++ rest) with (h ++ body ++ trailer cc ++ rest) by (by rewrite <- !app_assoc).
    subst h. rewrite fix_decode_header by (done || lia). rewrite Hl, frame_rest_message by done.
    eexists; split; [done|]. unfold frame_bytes. cbn [total_len payload payload_len].
    set (h := header [x38] bs [x39] ds). assert (zlen (h ++ body ++ trailer cc) = zlen h + zlen body + 7) as Hz.
    { rewrite !zlen_app, zlen_trailer, C3. lia. }
    split; [done|]. rewrite <- Hz.
    replace (h ++ body ++ trailer cc ++ rest) with ([] ++ (h ++ body ++ trailer cc) ++ rest) by (by rewrite app_nil_l, <- !app_assoc).
    by apply slice_mid.
  - intros f pl ty p s (bs & ds & body & cc & He & ->) Hw Hs. by eapply fix_decode_prefix.
Defined.

(** ** Properties of streams *)

(** [parse] on a buffer whose first tag is complete. *)
Lemma parse_begin maxf max p :
  parse maxf max (x38 :: ch_eq :: p) =
    match until_soh p with
    | None => Some (Err pIncomplete)
    | Some (begin_string, q) =>
        if zlen q <=? 0 then Some (Err pIncomplete) else
        let '(t2, q) := parse_tag_number q in
        if negb (t2 =? BodyLength) then Some (Err pInvalidFormat) else
        match until_soh q with
        | None => Some (Err pIncomplete)
        | Some (body_len_str, q) => parse_rest maxf max (x38 :: ch_eq :: p) begin_string body_len_str q
        end
    end.
Proof.
  unfold parse. rewrite (proj2 (Z.eqb_neq _ 0)) by (rewrite !zlen_cons; pose proof (zlen_nonneg p); lia). done.
Qed.

(** the parser on a message that has not arrived completely.  On every strict
    prefix of a message that has any bytes at all, [parse] answers kIncomplete, with
    two exceptions: a prefix that ends right after the digit of tag 8 or of tag 9 is
    answered with kInvalidFormat, as if it could never become a message.  The framer
    answers kIncomplete on all of them. *)
Theorem fix_parse_truncated f maxf bs ds body cc p s :
  envelope_ok (MaxBodyLength f) [x38] bs [x39] ds body cc ->
  header [x38] bs [x39] ds ++ body ++ trailer cc = p ++ s -> s <> [] ->
  fix_decode f p = Some (Err kIncomplete) /\
  parse maxf (MaxBodyLength f) p =
    Some (Err (if decide (p = [x38] \/ p = [x38; ch_eq] ++ bs ++ [SOH; x39]) then pInvalidFormat else pIncomplete)).
Proof.
  intros He E Hs. split; [by eapply fix_decode_prefix|]. destruct He as [_ Hbs _ Hds Hlen Hmax [_ H3] _].
  rewrite header_app in E. cbn [app] in E.
  destruct p as [|a [|b p]]; cbn [app] in E; [done|injection E as <- E; done|]. injection E as <- <- E. symmetry in E.
  rewrite parse_begin. apply prefix_soh in E as [[k ->]|(k & -> & E)].
  { assert (SOH ∉ p) as Hp by (intros H; apply Hbs, elem_of_app; by left). rewrite until_soh_none by done.
    rewrite decide_False; [done|]. intros [?|[= Ep]]; [done|].
    apply Hp. rewrite Ep. apply elem_of_app; right. apply elem_of_cons. by left. }
  rewrite until_soh_app by done. destruct k as [|a [|b k]].
  - rewrite decide_False; [done|]. intros [?|[= H]]; [done|]. apply (f_equal length) in H. rewrite !length_app in H. cbn in H. lia.
  - cbn [app] in E. injection E as <- E. by rewrite decide_True by (by right).
  - cbn [app] in E. injection E as <- <- E. symmetry in E. rewrite decide_False.
    2: { intros [?|[= H]]; [done|]. apply (f_equal length) in H. rewrite !length_app in H. cbn in H. lia. }
    rewrite (proj2 (Z.leb_gt _ 0)) by (rewrite !zlen_cons; pose proof (zlen_nonneg k); lia).
    change (parse_tag_number (x39 :: ch_eq :: k)) with (BodyLength, k). cbn [negb Z.eqb BodyLength].
    apply prefix_soh in E as [[j ->]|(j & -> & E)].
    { apply Forall_app in Hds as [Hk _]. by rewrite until_soh_none by (by apply digits_no_soh in Hk as []). }
    rewrite until_soh_app by (by apply digits_no_soh in Hds as []). unfold parse_rest.
    rewrite body_length_app by (done || (fold (dec_val ds); lia)). fold (dec_val ds). rewrite Hlen.
    assert (zlen j < zlen body + 7) as Hj.
    { apply (f_equal zlen) in E. rewrite !zlen_app, zlen_trailer in E.
      assert (0 < zlen s) by (destruct s; [done|unfold zlen; cbn; lia]). lia. }
    set (n := zlen (x38 :: _)). destruct (Z.ltb_spec n (n - zlen j + 7)); [done|]. by rewrite (proj2 (Z.ltb_lt _ _)) by lia.
Qed.

(** [8=F|9=5|35=D|10=082|], with SOH for the bars. *)
Definition sample_message : list byte :=
  [x38; x3d; x46; x01; x39; x3d; x35; x01; x33; x35; x3d; x44; x01; x31; x30; x3d; x30; x38; x32; x01].

Lemma sample_envelope : envelope_ok 100 [x38] [x46] [x39] [x35] [x33; x35; x3d; x44; x01] [x30; x38; x32].
Proof.
  constructor; try done; try (by split; [repeat constructor|]).
  - intros H%list_elem_of_singleton. done.
  - by repeat constructor.
Qed.

Lemma fix_parse_truncated_witness :
  fix_decode (mkFixFramer 100) [x38] = Some (Err kIncomplete) /\ parse 8 100 [x38] = Some (Err pInvalidFormat).
Proof.
  apply (fix_parse_truncated (mkFixFramer 100) 8 [x46] [x35] [x33; x35; x3d; x44; x01] [x30; x38; x32] [x38]
    (drop 1 sample_message)); [apply sample_envelope|reflexivity|discriminate].
Defined.

(** FIX framing over a byte stream.  A stream that consists of complete messages
    followed by the beginning of another is cut into exactly those messages, byte for
    byte, and the beginning is kept, wherever the stream was split in transit. *)
Theorem fix_stream_reassembled f msgs m p s :
  Forall (fix_message (MaxBodyLength f)) msgs -> fix_message (MaxBodyLength f) m -> m = p ++ s -> s <> [] ->
  decode_stream f (S (length (concat msgs ++ p))) (concat msgs ++ p) = Some (msgs, p, None).
Proof.
  intros Hm He Hp Hs.
  pose proof (decode_stream_reassembles f ((fun x => (x, 0)) <$> msgs) p s m 0) as H. cbn zeta in H.
  assert (((fun x => (x, 0)) <$> msgs).*1 = msgs) as E1 
    by (clear; induction msgs as [|x l IH]; [done|]; cbn; by f_equal).
  assert ((fun m : list byte * Z => wire f m.1 m.2) <$> ((fun x => (x, 0)) <$> msgs) = msgs) as E2 by exact E1.
  rewrite E1, E2 in H. apply H; [|done..]. apply Forall_fmap. exact Hm.
Qed.

Lemma fix_stream_reassembled_witness :
  decode_stream (mkFixFramer 100) (S (length (concat [sample_message; sample_message] ++ [x38])))
    (concat [sample_message; sample_message] ++ [x38]) = Some ([sample_message; sample_message], [x38], None).
Proof.
  assert (fix_message 100 sample_message) as H by (eexists _, _, _, _; split; [apply sample_envelope|reflexivity]).
  apply (fix_stream_reassembled (mkFixFramer 100) [sample_message; sample_message] sample_message [x38] (drop 1 sample_message));
    [by repeat constructor|exact H|reflexivity|discriminate].
Defined.

Lemma fix_parse_exact_witness :
  parse 8 100 sample_message = Some (Ok (mkView [mkField 35 [x44]] 20 [x46])) /\
  exists t8 bs t9 ds fs cc r, envelope_ok 100 t8 bs t9 ds (body_bytes fs) cc /\ Forall raw_ok fs /\
     zlen fs <= 8 /\ sample_message = header t8 bs t9 ds ++ body_bytes fs ++ trailer cc ++ r /\
     mkView [mkField 35 [x44]] 20 [x46] =
       mkView (raw_field <$> fs) (zlen (header t8 bs t9 ds) + zlen (body_bytes fs) + 7) bs.
Proof.
  split; [reflexivity|].
  destruct (fix_parse_exact 8 100 sample_message (mkView [mkField 35 [x44]] 20 [x46])) as [_ [H _]]; [lia..|].
  apply H. reflexivity.
Defined.
