(* ===== verification/FixView.v ===== *)
(** What is read out of a parsed FIX message (src/eph-fix/include/eph/fix/parser.hpp):
    the lookups and the repeating groups of [BasicMessageView], and [parse_all], which
    parses a buffer of consecutive messages with and without statistics.

    A [GroupEntry] points into the view's array; it is kept as the index of its first
    field and its length.  [get_double] is in Orders.v; the formatting members are not modelled. *)
From S2P Require Import Prelude FixText FixTime Framers Fix.
Local Open Scope Z_scope.
Local Arguments raw_bytes : simpl never.
Local Arguments header : simpl never.
Local Arguments trailer : simpl never.

(** ** Lookups *)

Fixpoint find_field (t : Z) (fs : list Field) : option (list byte) :=
  match fs with
  | [] => None
  | f :: fs => if ftag f =? t then Some (fvalue f) else find_field t fs
  end.

Definition get (v : MessageView) (t : Z) : option (list byte) := find_field t (fields_ v).

Definition has (v : MessageView) (t : Z) : bool := match get v t with Some _ => true | None => false end.

Definition parse_char_value (sv : list byte) : option byte := match sv with [c] => Some c | _ => None end.

Definition parse_bool_value (sv : list byte) : option bool :=
  c ← parse_char_value sv;
  if decide (c = x59) then Some true else if decide (c = x4e) then Some false else None.

Definition view_msg_type (v : MessageView) : option (list byte) := get v MsgType.

Definition get_char (v : MessageView) (t : Z) : option byte := sv ← get v t; parse_char_value sv.

Definition get_int (v : MessageView) (t : Z) : option Z := sv ← get v t; parse_int sv.

Definition get_bool (v : MessageView) (t : Z) : option bool := sv ← get v t; parse_bool_value sv.

(** The outer option is an access outside the text, as in [parse_timestamp_value]. *)
Definition get_timestamp (v : MessageView) (t : Z) : option (option Z) :=
  match get v t with None => Some None | Some sv => parse_timestamp_value sv end.

Fixpoint count_fields (t : Z) (fs : list Field) : Z :=
  match fs with [] => 0 | f :: fs => (if ftag f =? t then 1 else 0) + count_fields t fs end.

Definition count (v : MessageView) (t : Z) : Z := count_fields t (fields_ v).

Fixpoint find_nth (t : Z) (n seen : Z) (fs : list Field) : option (list byte) :=
  match fs with
  | [] => None
  | f :: fs =>
      if ftag f =? t then (if seen =? n then Some (fvalue f) else find_nth t n (seen + 1) fs)
      else find_nth t n seen fs
  end.

Definition get_nth (v : MessageView) (t n : Z) : option (list byte) := find_nth t n 0 (fields_ v).

(** ** Repeating groups *)

Record GroupEntry := mkEntry { efirst : nat; ecount : nat }.

(** The fields an entry denotes, and its lookup. *)
Definition entry_fields (fs : list Field) (e : GroupEntry) : list Field := take (ecount e) (drop (efirst e) fs).

Definition entry_get (fs : list Field) (e : GroupEntry) (t : Z) : option (list byte) := find_field t (entry_fields fs e).

(** The inner loop: how many fields come before the next delimiter. *)
Fixpoint next_delim (delim_tag : Z) (fs : list Field) : nat :=
  match fs with [] => 0 | f :: fs => if ftag f =? delim_tag then 0 else S (next_delim delim_tag fs) end.

(** The outer loop from index [i] on, where [fs] are the fields left and [room] the
    entries left; every iteration passes a field, so their number is enough fuel. *)
Fixpoint group_scan (fuel : nat) (delim_tag : Z) (room i : nat) (fs : list Field) : list GroupEntry :=
  match fuel, fs, room with
  | S fuel, f :: fs, S room' =>
      if ftag f =? delim_tag then
        let k := next_delim delim_tag fs in
        mkEntry i (S k) :: group_scan fuel delim_tag room' (i + S k) (drop k fs)
      else group_scan fuel delim_tag room (S i) fs
  | _, _, _ => []
  end.

Definition get_group (v : MessageView) (count_tag delim_tag : Z) (max_entries : nat) : list GroupEntry :=
  match get_int v count_tag with
  | None => []
  | Some count_val =>
      if count_val <? 0 then [] else
      if count_val =? 0 then [] else
      let found := group_scan (length (fields_ v)) delim_tag max_entries 0 (fields_ v) in
      take (Z.to_nat count_val) found
  end.

(** ** parse_all *)

(** [callback] returns false to stop; a callback that returns nothing is one that
    always returns true.  The result: the views it was called with and the bytes
    consumed.  Every message has at least one byte, so the number of bytes is enough
    fuel; [None] is lack of fuel or an access outside the buffer. *)
Fixpoint parse_all (fuel : nat) (maxf : Z) (callback : MessageView -> bool) (data : list byte) (offset : Z)
    : option (list MessageView * Z) :=
  if offset <? zlen data then
    match fuel with
    | O => None
    | S fuel =>
        rest ← slice data offset (zlen data - offset);
        result ← parse maxf kDefaultMaxBodyLength rest;
        match result with
        | Err _ => Some ([], offset)
        | Ok v =>
            if negb (callback v) then Some ([v], offset + total_len_ v) else
            '(vs, consumed) ← parse_all fuel maxf callback data (offset + total_len_ v);
            Some (v :: vs, consumed)
        end
    end
  else Some ([], offset).

Record ParserStats := mkStats {
  messages_parsed : Z;
  parse_errors : Z;
  bytes_consumed : Z;
  first_error_offset : Z;
  first_error_type : ParseError;
  first_error_tag_byte : byte;
}.

(** The value-initialised enumerator is the first. *)
Definition stats_reset : ParserStats := mkStats 0 0 0 0 pIncomplete x00.

Definition on_message (s : ParserStats) (msg_bytes : Z) : ParserStats :=
  mkStats (u64 (messages_parsed s + 1)) (parse_errors s) (u64 (bytes_consumed s + msg_bytes))
    (first_error_offset s) (first_error_type s) (first_error_tag_byte s).

Definition on_error (s : ParserStats) (offset : Z) (err : ParseError) (tag_byte : byte) : ParserStats :=
  let first := parse_errors s =? 0 in
  mkStats (messages_parsed s) (u64 (parse_errors s + 1)) (bytes_consumed s)
    (if first then offset else first_error_offset s)
    (if first then err else first_error_type s)
    (if first then tag_byte else first_error_tag_byte s).

Definition stats_sub (lhs rhs : ParserStats) : ParserStats :=
  let sat a b := if b <=? a then a - b else 0 in
  mkStats (sat (messages_parsed lhs) (messages_parsed rhs)) (sat (parse_errors lhs) (parse_errors rhs))
    (sat (bytes_consumed lhs) (bytes_consumed rhs))
    (first_error_offset lhs) (first_error_type lhs) (first_error_tag_byte lhs).

Fixpoint parse_all_stats (fuel : nat) (maxf : Z) (callback : MessageView -> bool) (data : list byte) (offset : Z)
    (stats : ParserStats) : option (list MessageView * Z * ParserStats) :=
  if offset <? zlen data then
    match fuel with
    | O => None
    | S fuel =>
        rest ← slice data offset (zlen data - offset);
        result ← parse maxf kDefaultMaxBodyLength rest;
        match result with
        | Err pIncomplete => Some ([], offset, stats)
        | Err e => err_byte ← rd data offset; Some ([], offset, on_error stats offset e err_byte)
        | Ok v =>
            let stats := on_message stats (total_len_ v) in
            if negb (callback v) then Some ([v], offset + total_len_ v, stats) else
            '(vs, consumed, stats) ← parse_all_stats fuel maxf callback data (offset + total_len_ v) stats;
            Some (v :: vs, consumed, stats)
        end
    end
  else Some ([], offset, stats).

(** ** verify_checksum *)

(** [while (cs_start > msg && *cs_start != SOH) --cs_start]. *)
Fixpoint walk_back (data : list byte) (i : nat) : option nat :=
  match i with
  | O => Some O
  | S i' => c ← data !! i; if decide (c = SOH) then Some i else walk_back data i'
  end.

(** The digits of the declared value; [None] when a character is not a digit. *)
Fixpoint declared_loop (declared : Z) (s : list byte) : option Z :=
  match s with
  | [] => Some declared
  | c :: s => if is_digit c then declared_loop (u32 (declared * 10 + digit_of c)) s else None
  end.

Definition verify_checksum (data : list byte) : option bool :=
  let len := zlen data in
  if len <? 7 then Some false else
  lst ← rd data (len - 1);
  if decide (lst <> SOH) then Some false else
  p ← walk_back data (Z.to_nat (len - 2));
  if (p =? 0)%nat then Some false else
  let cs_start := Z.of_nat p + 1 in
  if len <=? cs_start + 3 then Some false else
  c0 ← rd data cs_start; c1 ← rd data (cs_start + 1); c2 ← rd data (cs_start + 2);
  if decide (c0 <> x31 \/ c1 <> x30 \/ c2 <> ch_eq) then Some false else
  cs_val ← slice data (cs_start + 3) (len - 1 - (cs_start + 3));
  if negb (zlen cs_val =? 3) then Some false else
  match declared_loop 0 cs_val with
  | None => Some false
  | Some declared =>
      covered ← slice data 0 cs_start;
      Some (compute_checksum covered =? u8 declared)
  end.

(** ** Groups *)

(** An entry: the delimiter, then other fields. *)
Definition entry_ok (delim_tag : Z) (e : list Field) : Prop :=
  exists f r, e = f :: r /\ ftag f = delim_tag /\ Forall (fun g => ftag g <> delim_tag) r.

Lemma next_delim_app delim r es :
  Forall (fun g => ftag g <> delim) r -> Forall (entry_ok delim) es -> next_delim delim (r ++ concat es) = length r.
Proof.
  intros Hr Hes. induction Hr as [|g r Hg _ IH]; cbn [app next_delim length].
  - destruct Hes as [|e es (f & r & -> & Hf & _) _]; [done|]. cbn. by rewrite (proj2 (Z.eqb_eq _ _)).
  - rewrite (proj2 (Z.eqb_neq _ _)) by done. by f_equal.
Qed.

Lemma group_scan_skip delim room pre : forall fuel i fs,
  Forall (fun g => ftag g <> delim) pre -> (length pre + length fs <= fuel)%nat ->
  exists fuel', (length fs <= fuel')%nat /\
    group_scan fuel delim room i (pre ++ fs) = group_scan fuel' delim room (i + length pre) fs.
Proof.
  induction pre as [|g pre IH]; intros fuel i fs Hp Hl; cbn [length] in *.
  { exists fuel. split; [lia|]. cbn. f_equal. lia. }
  apply Forall_cons_1 in Hp as [Hg Hp]. destruct fuel as [|fuel]; [lia|].
  destruct (IH fuel (S i) fs Hp ltac:(lia)) as (fuel' & Hl' & E). exists fuel'. split; [done|].
  replace (i + S (length pre))%nat with (S i + length pre)%nat by lia. rewrite <- E. cbn [app group_scan].
  rewrite (proj2 (Z.eqb_neq _ _)) by done. destruct room; [|done]. by destruct fuel, (pre ++ fs).
Qed.

Lemma entry_fields_mid pre (e : list Field) post n : n = length e -> entry_fields (pre ++ e ++ post) (mkEntry (length pre) n) = e.
Proof. intros ->. unfold entry_fields. cbn. by rewrite drop_app_length, take_app_length. Qed.

Lemma group_scan_entries delim es : forall fuel room pre,
  Forall (entry_ok delim) es -> (length (concat es) <= fuel)%nat ->
  entry_fields (pre ++ concat es) <$> group_scan fuel delim room (length pre) (concat es) = take room es.
Proof.
  induction es as [|e es IH]; intros fuel room pre Hes Hl; [by destruct fuel, room|].
  apply Forall_cons_1 in Hes as [(f & r & -> & Hf & Hr) Hes]. cbn [concat app length] in *. rewrite length_app in Hl.
  destruct fuel as [|fuel]; [lia|]. destruct room as [|room]; [done|]. cbn [group_scan take].
  rewrite (proj2 (Z.eqb_eq _ _)) by done. rewrite next_delim_app by done. rewrite drop_app_length.
  cbn [fmap list_fmap]. f_equal.
  - change (f :: r ++ concat es) with ((f :: r) ++ concat es). by apply entry_fields_mid.
  - change (f :: r ++ concat es) with ((f :: r) ++ concat es). rewrite app_assoc.
    replace (length pre + S (length r))%nat with (length (pre ++ f :: r)) by (rewrite length_app; cbn; lia).
    apply IH; [done|lia].
Qed.

Lemma find_field_app t pre c fs :
  Forall (fun g => ftag g <> t) pre -> find_field t (pre ++ mkField t c :: fs) = Some c.
Proof.
  induction 1 as [|g pre Hg _ IH]; cbn; [by rewrite Z.eqb_refl|]. by rewrite (proj2 (Z.eqb_neq _ _)).
Qed.

(** repeating groups.  When the message holds a count field and then entries that
    each begin with the delimiter, [get_group] returns exactly those entries, in
    order and with all their fields, cut to the declared count and to the room the
    caller has; fields before the group do not disturb it. *)
Theorem fix_group_extracted v pre ct c n delim entries max_entries :
  fields_ v = pre ++ mkField ct c :: concat entries ->
  Forall (fun g => ftag g <> ct /\ ftag g <> delim) pre -> ct <> delim ->
  parse_int c = Some n -> 0 <= n -> Forall (entry_ok delim) entries ->
  entry_fields (fields_ v) <$> get_group v ct delim max_entries = take (Nat.min (Z.to_nat n) max_entries) entries.
Proof.
  intros Hv Hpre Hne Hc Hn He. unfold get_group, get_int, get. rewrite Hv.
  rewrite find_field_app by (eapply list.Forall_impl; [exact Hpre|]; by intros ? []). cbn [mbind option_bind]. rewrite Hc.
  rewrite (proj2 (Z.ltb_ge n 0)) by done. destruct (Z.eqb_spec n 0) as [->|]; [done|].
  set (pre' := pre ++ [mkField ct c]).
  replace (pre ++ mkField ct c :: concat entries) with (pre' ++ concat entries) by (subst pre'; by rewrite <- app_assoc).
  destruct (group_scan_skip delim max_entries pre' (length (pre' ++ concat entries)) 0 (concat entries)) as (fuel & Hf & ->).
  { apply Forall_app. split; [eapply list.Forall_impl; [exact Hpre|]; by intros ? []|by constructor]. }
  { by rewrite length_app. }
  rewrite <- list.take_take, <- (group_scan_entries delim entries fuel max_entries pre') by done. cbn [Nat.add].
  by rewrite fmap_take.
Qed.

Lemma fix_group_extracted_witness :
  let v := mkView [mkField 35 [x57]; mkField 268 [x32]; mkField 269 [x30]; mkField 270 [x31]; mkField 269 [x31]] 0 [] in
  entry_fields (fields_ v) <$> get_group v 268 269 16 = [[mkField 269 [x30]; mkField 270 [x31]]; [mkField 269 [x31]]].
Proof.
  apply (fix_group_extracted
    (mkView [mkField 35 [x57]; mkField 268 [x32]; mkField 269 [x30]; mkField 270 [x31]; mkField 269 [x31]] 0 [])
    [mkField 35 [x57]] 268 [x32] 2 269 [[mkField 269 [x30]; mkField 270 [x31]]; [mkField 269 [x31]]] 16).
  - reflexivity.
  - repeat constructor; discriminate.
  - discriminate.
  - reflexivity.
  - lia.
  - constructor; [|constructor; [|constructor]]; eexists _, _; (split; [reflexivity|]); (split; [reflexivity|]); repeat constructor; discriminate.
Defined.

(** ** Consecutive messages *)

(** A message of the grammar and the view of it. *)
Definition message_of (maxf : Z) (m : list byte) (v : MessageView) : Prop :=
  exists t8 bs t9 ds fs cc, envelope_ok kDefaultMaxBodyLength t8 bs t9 ds (body_bytes fs) cc /\ Forall raw_ok fs /\
    zlen fs <= maxf /\ m = header t8 bs t9 ds ++ body_bytes fs ++ trailer cc /\
    v = mkView (raw_field <$> fs) (zlen (header t8 bs t9 ds) + zlen (body_bytes fs) + 7) bs.

Lemma message_of_parses maxf m v r :
  message_of maxf m v -> parse maxf kDefaultMaxBodyLength (m ++ r) = Some (Ok v) /\ total_len_ v = zlen m /\ 0 < zlen m.
Proof.
  intros (t8 & bs & t9 & ds & fs & cc & He & Hok & Hle & -> & ->). split_and!.
  - rewrite <- !app_assoc. by apply parse_accepts.
  - cbn [total_len_]. destruct He as [_ _ _ _ _ _ [_ H3] _]. rewrite !zlen_app, zlen_trailer. lia.
  - rewrite !zlen_app. pose proof (fix_header_size t8 bs t9 ds). pose proof (zlen_nonneg (body_bytes fs)).
    pose proof (zlen_nonneg (trailer cc)). lia.
Qed.

(** The views a callback gets to see: up to and with the first it refuses. *)
Fixpoint seen_by (callback : MessageView -> bool) (vs : list MessageView) : list MessageView :=
  match vs with [] => [] | v :: vs => v :: (if callback v then seen_by callback vs else []) end.

(** The statistics variant does the same work and counts it. *)
Lemma parse_all_stats_agrees maxf callback data : forall fuel offset stats vs consumed stats',
  parse_all_stats fuel maxf callback data offset stats = Some (vs, consumed, stats') ->
  parse_all fuel maxf callback data offset = Some (vs, consumed) /\
  u64 (messages_parsed stats') = u64 (messages_parsed stats + zlen vs) /\
  u64 (bytes_consumed stats') = u64 (bytes_consumed stats + (consumed - offset)).
Proof.
  induction fuel as [|fuel IH]; intros offset stats vs consumed stats'; cbn [parse_all parse_all_stats];
    destruct (offset <? zlen data); try done.
  2: destruct (slice data offset _) as [rest|]; [|done]; cbn [mbind option_bind].
  2: destruct (parse maxf _ rest) as [[v|e]|]; [| |done]; cbn [mbind option_bind].
  2: destruct (callback v); cbn [negb].
  2: destruct (parse_all_stats fuel _ _ _ _ _) as [[[vs1 c1] s1]|] eqn:E; [|done]; cbn [mbind option_bind].
  all: intros Heq.
  2: { simplify_eq. apply IH in E as (-> & H1 & H2). split; [done|]. unfold on_message in *. cbn [messages_parsed bytes_consumed] in *.
       rewrite H1, H2, !wrap_add_wrap_l, zlen_cons by lia. split; f_equal; lia. }
  2: { simplify_eq. split; [done|]. cbn [on_message messages_parsed bytes_consumed]. rewrite !wrap_wrap by lia.
       change (zlen [v]) with 1. split; f_equal; lia. }
  2: assert (vs = [] /\ consumed = offset /\ messages_parsed stats' = messages_parsed stats /\
         bytes_consumed stats' = bytes_consumed stats) as (-> & -> & -> & ->)
       by (destruct e; [|destruct (rd data offset); [|done]..]; cbn in Heq; by simplify_eq).
  all: simplify_eq; split; [done|]; change (zlen (@nil MessageView)) with 0; split; f_equal; lia.
Qed.

Lemma parse_all_messages maxf callback msgs vs tail e : forall fuel pre,
  Forall2 (message_of maxf) msgs vs -> parse maxf kDefaultMaxBodyLength tail = Some (Err e) ->
  (length (concat msgs) + length tail < fuel)%nat ->
  exists consumed, parse_all fuel maxf callback (pre ++ concat msgs ++ tail) (zlen pre) = Some (seen_by callback vs, consumed) /\
    consumed = zlen pre + zlen (concat (take (length (seen_by callback vs)) msgs)) /\
    forall stats, is_Some (parse_all_stats fuel maxf callback (pre ++ concat msgs ++ tail) (zlen pre) stats).
Proof.
  intros fuel pre Hm Htail. revert fuel pre. induction Hm as [|m v msgs vs Hmv Hm IH]; intros fuel pre Hl.
  - exists (zlen pre). cbn [concat app seen_by length take].
    assert (zlen pre = zlen pre + zlen (@nil byte)) as Hz by (change (zlen (@nil byte)) with 0; lia).
    destruct fuel as [|fuel]; [lia|]. cbn [parse_all parse_all_stats]. rewrite zlen_app.
    destruct (Z.ltb_spec (zlen pre) (zlen pre + zlen tail)); [|by split_and!].
    replace (pre ++ tail) with (pre ++ tail ++ []) by (by rewrite app_nil_r).
    rewrite (slice_mid pre tail []) by lia. cbn [mbind option_bind]. rewrite Htail. cbn [mbind option_bind].
    split; [done|]. split; [done|]. intros stats. destruct tail as [|c tail]; [unfold zlen in *; cbn in *; lia|].
    rewrite rd_app_r by done. by destruct e; eexists.
  - cbn [concat] in *. rewrite length_app in Hl. destruct (message_of_parses maxf m v (concat msgs ++ tail) Hmv) as (Ep & Et & Hpos).
    destruct fuel as [|fuel]; [lia|]. cbn [parse_all parse_all_stats seen_by]. rewrite <- app_assoc.
    assert (length m > 0)%nat by (unfold zlen in Hpos; lia).
    destruct (IH fuel (pre ++ m) ltac:(lia)) as (consumed & E1 & E2 & E3).
    rewrite <- !app_assoc, zlen_app, <- Et in E1, E3.
    rewrite !zlen_app. rewrite (proj2 (Z.ltb_lt (zlen pre) _)).
    2: { pose proof (zlen_nonneg (concat msgs)). pose proof (zlen_nonneg tail). lia. }
    replace (pre ++ m ++ concat msgs ++ tail) with (pre ++ (m ++ concat msgs ++ tail) ++ []) by (by rewrite app_nil_r).
    rewrite (slice_mid pre) by (rewrite ?zlen_app; lia). cbn [mbind option_bind]. rewrite Ep. cbn [mbind option_bind].
    rewrite app_nil_r. destruct (callback v); cbn [negb].
    + exists consumed. rewrite E1. cbn [mbind option_bind]. split; [done|]. split.
      * rewrite E2. cbn [length take concat]. rewrite !zlen_app. lia.
      * intros stats. destruct (E3 (on_message stats (total_len_ v))) as [[[vs1 c1] s1] ->]. by eexists.
    + eexists. split; [done|]. split; [|by eexists]. cbn [length take concat]. rewrite app_nil_r. lia.
Qed.

(** parsing a buffer of consecutive messages.  [parse_all] hands the callback the
    views of the messages in order, stops after the first it refuses or at the first
    bytes that are no message, and returns the length of the messages it handed over;
    with statistics it does the same and counts exactly those messages and bytes,
    modulo [2 ^ 64]. *)
Theorem fix_parse_all_delivers maxf callback msgs vs tail e stats :
  Forall2 (message_of maxf) msgs vs -> parse maxf kDefaultMaxBodyLength tail = Some (Err e) ->
  let data := concat msgs ++ tail in
  let fuel := S (length data) in
  let consumed := zlen (concat (take (length (seen_by callback vs)) msgs)) in
  parse_all fuel maxf callback data 0 = Some (seen_by callback vs, consumed) /\
  exists stats', parse_all_stats fuel maxf callback data 0 stats = Some (seen_by callback vs, consumed, stats') /\
    u64 (messages_parsed stats') = u64 (messages_parsed stats + zlen (seen_by callback vs)) /\
    u64 (bytes_consumed stats') = u64 (bytes_consumed stats + consumed).
Proof.
  intros Hm Ht. cbn zeta.
  destruct (parse_all_messages maxf callback msgs vs tail e (S (length (concat msgs ++ tail))) [] Hm Ht) as (c & E1 & E2 & E3).
  { rewrite length_app. lia. }
  cbn [app] in *. change (zlen (@nil byte)) with 0 in *. rewrite Z.add_0_l in E2. subst c. split; [done|].
  destruct (E3 stats) as [[[vs' c'] s'] E]. apply parse_all_stats_agrees in E as Ha. destruct Ha as (E1' & H1 & H2).
  rewrite E1 in E1'. simplify_eq. exists s'. split; [done|]. split; [done|]. rewrite H2. f_equal. lia.
Qed.

Lemma sample_message_of : message_of 8 sample_message (mkView [mkField 35 [x44]] 20 [x46]).
Proof.
  exists [x38], [x46], [x39], [x35], [mkRaw [x33; x35] [x44]], [x30; x38; x32]. destruct sample_envelope.
  split; [by constructor|]. split; [|by split_and!]. constructor; [|constructor].
  unfold raw_ok. cbn [rtag rvalue]. split; [by repeat constructor|]. split; [done|]. split; [done|].
  intros H%list_elem_of_singleton. done.
Qed.

Lemma fix_parse_all_delivers_witness :
  let v := mkView [mkField 35 [x44]] 20 [x46] in
  parse_all 42 8 (fun _ => true) (sample_message ++ sample_message ++ [x38]) 0 = Some ([v; v], 40).
Proof.
  apply (fix_parse_all_delivers 8 (fun _ => true) [sample_message; sample_message]
    [mkView [mkField 35 [x44]] 20 [x46]; mkView [mkField 35 [x44]] 20 [x46]] [x38] pInvalidFormat stats_reset).
  - constructor; [apply sample_message_of|]. constructor; [apply sample_message_of|constructor].
  - reflexivity.
Defined.

(** ** The checksum of a whole message *)

Lemma walk_back_app X w rest :
  X <> [] -> SOH ∉ w -> walk_back (X ++ SOH :: w ++ rest) (length X + length w) = Some (length X).
Proof.
  intros HX. revert rest. induction w as [|c w IH] using rev_ind; intros rest Hw.
  - cbn [length app]. rewrite Nat.add_0_r. destruct (length X) as [|n] eqn:E; [by destruct X|]. cbn [walk_back].
    rewrite (list_lookup_middle X rest SOH) by done. cbn [mbind option_bind]. by rewrite decide_True.
  - rewrite length_app. cbn [length]. replace (length X + (length w + 1))%nat with (S (length X + length w)) by lia.
    cbn [walk_back].
    replace (X ++ SOH :: (w ++ [c]) ++ rest) with ((X ++ SOH :: w) ++ c :: rest) by (rewrite <- !app_assoc; cbn; by rewrite <- ?app_assoc).
    rewrite (list_lookup_middle (X ++ SOH :: w) rest c) by (rewrite length_app; cbn; lia). cbn [mbind option_bind].
    rewrite <- app_assoc. cbn [app].
    rewrite decide_False by (intros ->; apply Hw, elem_of_app; right; by apply list_elem_of_singleton).
    apply (IH (c :: rest)). intros H. apply Hw, elem_of_app. by left.
Qed.

Lemma walk_back_total data i : (i < length data)%nat -> exists p, walk_back data i = Some p /\ (p <= i)%nat /\ (p = 0%nat \/ data !! p = Some SOH).
Proof.
  induction i as [|i IH]; intros Hi; cbn [walk_back]; [exists 0%nat; auto|].
  destruct (lookup_lt_is_Some_2 data (S i) Hi) as [c Ec]. rewrite Ec. cbn [mbind option_bind].
  destruct (decide (c = SOH)) as [->|]; [by eauto|]. destruct (IH ltac:(lia)) as (p & -> & Hp & Hs). exists p. auto.
Qed.

Lemma declared_loop_3 a b c n :
  declared_loop 0 [a; b; c] = Some n <-> digits [a; b; c] /\ n = dec_val [a; b; c].
Proof.
  cbn [declared_loop]. destruct (is_digit a) eqn:Ha; [|split; [done|]; intros [H _]; apply Forall_cons_1 in H as [H _]; congruence].
  destruct (is_digit b) eqn:Hb; [|split; [done|]; intros [H _]; apply Forall_cons_1 in H as [_ H]; apply Forall_cons_1 in H as [H _]; congruence].
  destruct (is_digit c) eqn:Hc; [|split; [done|]; intros [H _]; apply Forall_cons_1 in H as [_ H]; apply Forall_cons_1 in H as [_ H]; apply Forall_cons_1 in H as [H _]; congruence].
  apply is_digit_spec in Ha as Ha', Hb as Hb', Hc as Hc'.
  assert (declared_loop 0 [a; b; c] = Some (dec_val [a; b; c])) as E.
  { cbn [declared_loop]. rewrite Ha, Hb, Hc. unfold dec_val. cbn [foldl].
    rewrite (wrap_small 32 (0 * 10 + digit_of a)), (wrap_small 32 (_ * 10 + digit_of b)), wrap_small by lia. done. }
  cbn [declared_loop] in E. rewrite Ha, Hb, Hc in E. injection E as ->.
  split; [intros [= <-]; split; [by repeat constructor|done]|by intros [_ ->]].
Qed.

Definition checksum_ends (data X cc : list byte) : Prop :=
  X <> [] /\ data = X ++ SOH :: trailer cc /\ digits cc /\ zlen cc = 3 /\
  byte_sum (X ++ [SOH]) mod 256 = dec_val cc mod 256.

Lemma verify_checksum_holds data X cc : checksum_ends data X cc -> verify_checksum data = Some true.
Proof.
  intros (HX & -> & Hd & H3 & Hs).
  destruct cc as [|a [|b [|c [|? ?]]]]; try (unfold zlen in H3; cbn in H3; lia).
  assert (trailer [a; b; c] = [x31; x30; ch_eq; a; b; c] ++ [SOH]) as Et by done.
  assert (0 < zlen X) as HX' by (destruct X; [done|unfold zlen; cbn; lia]).
  set (data := X ++ SOH :: trailer [a; b; c]).
  assert (zlen data = zlen X + 8) as Hl by (subst data; by rewrite zlen_app).
  assert (forall i, rd data (zlen X + Z.of_nat i) = (SOH :: trailer [a; b; c]) !! i) as Hrd.
  { intros i. rewrite rd_drop by lia. subst data. unfold zlen. by rewrite Nat2Z.id, drop_app_length. }
  unfold verify_checksum. rewrite Hl. zdecides.
  replace (zlen X + 8 - 1) with (zlen X + Z.of_nat 7) by lia. rewrite Hrd.
  change ((SOH :: trailer [a; b; c]) !! 7%nat) with (Some SOH). cbn [mbind option_bind].
  rewrite decide_False by (intros H; by apply H).
  replace (Z.to_nat (zlen X + 8 - 2)) with (length X + length [x31; x30; ch_eq; a; b; c])%nat by (unfold zlen; cbn; lia).
  subst data. rewrite Et at 1. rewrite walk_back_app; [|done|].
  2: { change [x31; x30; ch_eq; a; b; c] with ([x31; x30; ch_eq] ++ [a; b; c]). intros [H|H]%elem_of_app; [|by apply digits_no_soh in Hd as []].
       repeat (apply elem_of_cons in H as [H|H]; [done|]). by apply elem_of_nil in H. }
  cbn [mbind option_bind]. fold (zlen X). rewrite (proj2 (Nat.eqb_neq _ 0)) by (unfold zlen in HX'; lia). zdecides.
  replace (zlen X + 1 + 1) with (zlen X + Z.of_nat 2) by lia. replace (zlen X + 1 + 2) with (zlen X + Z.of_nat 3) by lia.
  replace (zlen X + 1) with (zlen X + Z.of_nat 1) at 1 by lia. rewrite !Hrd.
  change ((SOH :: trailer [a; b; c]) !! 1%nat) with (Some x31). change ((SOH :: trailer [a; b; c]) !! 2%nat) with (Some x30).
  change ((SOH :: trailer [a; b; c]) !! 3%nat) with (Some ch_eq). cbn [mbind option_bind].
  rewrite decide_False by (intros [H|[H|H]]; by apply H).
  replace (X ++ SOH :: trailer [a; b; c]) with ((X ++ [SOH; x31; x30; ch_eq]) ++ [a; b; c] ++ [SOH]) at 1 by (by rewrite <- app_assoc).
  rewrite slice_mid by (rewrite ?zlen_app; cbn; unfold zlen; cbn; lia). cbn [mbind option_bind].
  change (negb (zlen [a; b; c] =? 3)) with false. cbn iota.
  rewrite (proj2 (declared_loop_3 a b c _)) by done.
  replace (X ++ SOH :: trailer [a; b; c]) with ([] ++ (X ++ [SOH]) ++ trailer [a; b; c]) by (cbn; by rewrite <- app_assoc).
  rewrite slice_mid by (rewrite ?zlen_app; done). cbn [mbind option_bind]. f_equal. apply Z.eqb_eq. by apply checksum_u8.
Qed.

Lemma verify_checksum_true data : verify_checksum data = Some true -> exists X cc, checksum_ends data X cc.
Proof.
  intros E. unfold verify_checksum in E. destruct (Z.ltb_spec (zlen data) 7); [done|].
  destruct (rd data (zlen data - 1)) as [lst|] eqn:El; [|done]. cbn [mbind option_bind] in E.
  destruct (decide (lst <> SOH)) as [|Hl]; [done|]. apply dec_stable in Hl as ->.
  destruct (walk_back_total data (Z.to_nat (zlen data - 2))) as (p & Ep & Hp & Hsoh); [unfold zlen in *; lia|].
  rewrite Ep in E. cbn [mbind option_bind] in E. destruct (Nat.eqb_spec p 0); [done|]. destruct Hsoh as [|Hsoh]; [done|].
  destruct (Z.leb_spec (zlen data) (Z.of_nat p + 1 + 3)); [done|].
  replace (Z.of_nat p + 1 + 1) with (Z.of_nat p + Z.of_nat 2) in E by lia. replace (Z.of_nat p + 1 + 2) with (Z.of_nat p + Z.of_nat 3) in E by lia.
  change (Z.of_nat p + 1) with (Z.of_nat p + Z.of_nat 1) in E. replace (zlen data - 1) with (Z.of_nat p + Z.of_nat (length data - 1 - p)) in El by (unfold zlen in *; lia).
  rewrite rd_drop in El by lia. rewrite !rd_drop in E by lia. rewrite Nat2Z.id in *.
  destruct (slice data (Z.of_nat p + Z.of_nat 1 + 3) _) as [cs|] eqn:Es; [|by destruct (_ !! 1%nat), (_ !! 2%nat), (_ !! 3%nat); try done; cbn in E; destruct (decide _)].
  assert (data = take p data ++ drop p data) as Hd by (by rewrite take_drop).
  assert (length (take p data) = p) as Hlt by (rewrite length_take; unfold zlen in *; lia).
  assert (head (drop p data) = Some SOH) as Hh by (rewrite head_lookup, lookup_drop; by rewrite Nat.add_0_r).
  destruct (drop p data) as [|c [|c0 [|c1 [|c2 w]]]] eqn:Edrop; try done. cbn in Hh. injection Hh as ->.
  cbn [lookup list_lookup mbind option_bind] in E. destruct (decide (c0 <> x31 \/ c1 <> x30 \/ c2 <> ch_eq)) as [|Hne]; [done|].
  destruct (Z.eqb_spec (zlen cs) 3) as [H3|]; [|done]. cbn [negb] in E.
  assert (c0 = x31 /\ c1 = x30 /\ c2 = ch_eq) as (-> & -> & ->).
  { split_and!; apply dec_stable; intros H'; apply Hne; auto. }
  pose proof (slice_zlen _ _ _ _ Es) as Hlen. rewrite H3 in Hlen.
  assert (length w = 4%nat) as Hw by (apply (f_equal length) in Hd; rewrite length_app, Hlt in Hd; unfold zlen in *; cbn in Hd; lia).
  destruct w as [|a [|b [|c [|d [|? ?]]]]]; try done.
  replace (length data - 1 - p)%nat with 7%nat in El by (unfold zlen in *; lia). cbn in El. injection El as ->.
  set (X := take p data) in *.
  assert (data = (X ++ [SOH; x31; x30; ch_eq]) ++ [a; b; c] ++ [SOH]) as Hd1 by (rewrite Hd at 1; by rewrite <- app_assoc).
  assert (data = [] ++ (X ++ [SOH]) ++ trailer [a; b; c]) as Hd2 by (rewrite Hd at 1; cbn; by rewrite <- app_assoc).
  assert (zlen X = Z.of_nat p) as HzX by (unfold zlen; by rewrite Hlt).
  assert (slice data (Z.of_nat p + Z.of_nat 1 + 3) (zlen data - 1 - (Z.of_nat p + Z.of_nat 1 + 3)) = Some [a; b; c]) as Es'.
  { rewrite Hd1 at 1. apply slice_mid; [rewrite zlen_app; unfold zlen at 2; cbn; lia|done]. }
  rewrite Es in Es'. injection Es' as ->. destruct (declared_loop 0 [a; b; c]) as [n'|] eqn:En; [|done].
  apply declared_loop_3 in En as [Hdig ->].
  assert (slice data 0 (Z.of_nat p + Z.of_nat 1) = Some (X ++ [SOH])) as Ec.
  { rewrite Hd2. apply slice_mid; [done|]. rewrite zlen_app. unfold zlen at 2. cbn. lia. }
  rewrite Ec in E. cbn [mbind option_bind] in E. injection E as E. apply Z.eqb_eq, checksum_u8 in E.
  exists X, [a; b; c]. split; [by intros HX; rewrite HX in Hlt; cbn in Hlt|]. split; [rewrite Hd at 1; done|].
  split; [done|]. split; [done|]. done.
Qed.

Lemma verify_checksum_total data : is_Some (verify_checksum data).
Proof.
  unfold verify_checksum. destruct (Z.ltb_spec (zlen data) 7); [by eexists|].
  destruct (rd_Some data (zlen data - 1)) as [lst ->]; [lia|]. cbn [mbind option_bind].
  destruct (decide _); [by eexists|].
  destruct (walk_back_total data (Z.to_nat (zlen data - 2))) as (p & -> & Hp & _); [unfold zlen in *; lia|].
  cbn [mbind option_bind]. destruct (_ =? 0)%nat; [by eexists|].
  destruct (Z.leb_spec (zlen data) (Z.of_nat p + 1 + 3)); [by eexists|].
  destruct (rd_Some data (Z.of_nat p + 1)) as [c0 ->]; [lia|]. destruct (rd_Some data (Z.of_nat p + 1 + 1)) as [c1 ->]; [lia|].
  destruct (rd_Some data (Z.of_nat p + 1 + 2)) as [c2 ->]; [lia|]. cbn [mbind option_bind].
  destruct (decide _); [by eexists|].
  destruct (slice_total data (Z.of_nat p + 1 + 3) (zlen data - 1 - (Z.of_nat p + 1 + 3))) as (cs & -> & _); [lia..|].
  cbn [mbind option_bind]. destruct (negb _); [by eexists|]. destruct (declared_loop _ _); [|by eexists].
  destruct (slice_total data 0 (Z.of_nat p + 1)) as (cov & -> & _); [lia..|]. by eexists.
Qed.

(** Header and body of a message end with SOH. *)
Lemma message_of_ends maxf m v : message_of maxf m v -> exists X cc, checksum_ends m X cc.
Proof.
  intros (t8 & bs & t9 & ds & fs & cc & [(_ & N8 & _) _ _ _ _ _ [Hcc H3] Hsum] & _ & _ & -> & _).
  assert (exists Y, Y <> [] /\ header t8 bs t9 ds = Y ++ [SOH]) as (Y & HY & Eh).
  { exists (t8 ++ ch_eq :: bs ++ SOH :: t9 ++ ch_eq :: ds). split; [by destruct t8|].
    unfold header. rewrite <- app_assoc. cbn. rewrite <- app_assoc. cbn. by rewrite <- app_assoc. }
  assert (exists X, X <> [] /\ header t8 bs t9 ds ++ body_bytes fs = X ++ [SOH]) as (X & HX & E).
  { destruct fs as [|f fs _] using rev_ind; [exists Y; by rewrite app_nil_r|].
    exists (header t8 bs t9 ds ++ body_bytes fs ++ rtag f ++ ch_eq :: rvalue f). split.
    - intros H. apply app_eq_nil in H as [H _]. rewrite Eh in H. by apply app_eq_nil in H as [_ ?].
    - unfold body_bytes. rewrite fmap_app, concat_app. cbn. rewrite app_nil_r. unfold raw_bytes. rewrite <- !app_assoc. cbn. done. }
  exists X, cc. split; [done|]. rewrite app_assoc, E, <- app_assoc. split; [done|]. split; [done|]. split; [done|]. by rewrite <- E.
Qed.

(** checking a checksum without parsing.  On any bytes [verify_checksum] returns
    without leaving them; it says yes exactly when they end with a CheckSum field of
    three digits that follows an SOH not at the very start and agrees modulo 256 with
    the sum of all that precedes it; and it says yes to every message the parser
    accepts. *)
Theorem fix_verify_checksum data :
  is_Some (verify_checksum data) /\
  (verify_checksum data = Some true <-> exists X cc, checksum_ends data X cc) /\
  (forall maxf v, message_of maxf data v -> verify_checksum data = Some true).
Proof.
  split; [apply verify_checksum_total|]. split.
  - split; [apply verify_checksum_true|]. intros (X & cc & H). by eapply verify_checksum_holds.
  - intros maxf v H. apply message_of_ends in H as (X & cc & H). by eapply verify_checksum_holds.
Qed.

Lemma fix_verify_checksum_witness : verify_checksum sample_message = Some true.
Proof. apply (fix_verify_checksum sample_message) with (1 := sample_message_of). Defined.
