(* ===== verification/Double.v ===== *)
(** * Binary64 numbers

    [double] as the code uses it: the [spec_float]s of the Standard Library, with precision 53
    and largest exponent 1024, and the operations on them.

    Every finite double is an integer multiple of 2^-1074, its [value].  [add_value] and
    [sub_value] say that sums and differences are the exact ones, rounded by [rnd] to nearest
    even; [rnd_mono] that rounding keeps the order; [compare_value] that comparison is by
    value. *)

From Stdlib Require Export Floats.SpecFloat.
From S2P Require Import Prelude.

#[local] Open Scope Z_scope.

(** ** Operations *)

Abbreviation double := spec_float.

Definition double_of_int (z : Z) : double := binary_normalize 53 1024 z 0 false.
Definition double_mul : double -> double -> double := SFmul 53 1024.
Definition double_add : double -> double -> double := SFadd 53 1024.
Definition double_sub : double -> double -> double := SFsub 53 1024.
Definition double_div : double -> double -> double := SFdiv 53 1024.

Definition isfinite (d : double) : bool := match d with S754_zero _ | S754_finite _ _ _ => true | _ => false end.

Definition double_zero : double := S754_zero false.

(** [std::round]: to the nearest integer, halves away from zero; the sign of zero is kept. *)
Definition double_round (d : double) : double :=
  match d with
  | S754_finite s m e =>
    if 0 <=? e then d else
    match (Zpos m + 2 ^ (- e - 1)) / 2 ^ (- e) with Zpos n => binary_round 53 1024 s n 0 | _ => S754_zero s end
  | _ => d
  end.

(** Every double the machine has. *)
Definition is_double (d : double) : bool := valid_binary 53 1024 d.

(** ** Values *)

(** In units of 2^-1074; of finite doubles. *)
Definition value (d : double) : Z :=
  match d with S754_finite s m e => cond_Zopp s (Zpos m * 2 ^ (e + 1074)) | _ => 0 end.

(** [a / 2^k], to nearest, ties to even. *)
Definition nearest (a k : Z) : Z :=
  let q := a / 2 ^ k in
  match 2 * (a mod 2 ^ k) ?= 2 ^ k with
  | Lt => q
  | Eq => if Z.even q then q else q + 1
  | Gt => q + 1
  end.

(** The bits that do not fit into a mantissa. *)
Definition spare (a : Z) : Z := Z.max 0 (Z.log2 a - 52).

Definition rnd_abs (a : Z) : Z := nearest a (spare a) * 2 ^ spare a.
Definition rnd (z : Z) : Z := Z.sgn z * rnd_abs (Z.abs z).

(** The first value that is too large. *)
Definition too_large : Z := 2 ^ 2098.

(** ** Mantissas *)

Lemma digits2_log m : Zpos (digits2_pos m) = Z.log2 (Zpos m) + 1.
Proof.
  induction m as [m IH|m IH|]; cbn [digits2_pos]; [| |done]; rewrite Pos2Z.inj_succ, IH.
  - rewrite Pos2Z.inj_xI, Z.log2_succ_double by lia. lia.
  - rewrite Pos2Z.inj_xO, Z.log2_double by lia. lia.
Qed.

Lemma fexp_64 e : fexp 53 1024 e = Z.max (e - 53) (-1074).
Proof. reflexivity. Qed.

Lemma bounded_spec m e : bounded 53 1024 m e = true <->
  -1074 <= e <= 971 /\ Zpos m < 2 ^ 53 /\ (e = -1074 \/ 2 ^ 52 <= Zpos m).
Proof.
  unfold bounded, canonical_mantissa. rewrite andb_true_iff, Z.eqb_eq, Z.leb_le, fexp_64, digits2_log.
  pose proof (Z.log2_nonneg (Zpos m)) as H0.
  assert (Z.log2 (Zpos m) < 53 <-> Zpos m < 2 ^ 53) as H53 by (symmetry; by apply Z.log2_lt_pow2).
  assert (52 <= Z.log2 (Zpos m) <-> 2 ^ 52 <= Zpos m) as H52 by (symmetry; by apply Z.log2_le_pow2).
  lia.
Qed.

Lemma nearest_0 a : nearest a 0 = a.
Proof. unfold nearest. cbn. by rewrite Z.mod_1_r, Z.div_1_r. Qed.

Lemma nearest_shift a j k : 0 <= j -> 0 <= k -> nearest (a * 2 ^ j) (k + j) = nearest a k.
Proof.
  intros Hj Hk. unfold nearest. rewrite Z.pow_add_r by done. pose proof (Z.pow_pos_nonneg 2 j ltac:(lia) Hj).
  pose proof (Z.pow_pos_nonneg 2 k ltac:(lia) Hk).
  rewrite Z.div_mul_cancel_r, Z.mul_mod_distr_r by lia. rewrite Z.mul_assoc.
  destruct (Z.compare_spec (2 * (a mod 2 ^ k) * 2 ^ j) (2 ^ k * 2 ^ j)), (Z.compare_spec (2 * (a mod 2 ^ k)) (2 ^ k)); nia || done.
Qed.

Lemma nearest_bounds a k : 0 <= k -> 2 * (nearest a k * 2 ^ k) <= 2 * a + 2 ^ k /\ 2 * a - 2 ^ k <= 2 * (nearest a k * 2 ^ k).
Proof.
  intros Hk. pose proof (Z.pow_pos_nonneg 2 k ltac:(lia) Hk) as Hp. unfold nearest.
  pose proof (Z.div_mod a (2 ^ k) ltac:(lia)) as Hd. pose proof (Z.mod_pos_bound a (2 ^ k) Hp) as Hm.
  destruct (Z.compare_spec (2 * (a mod 2 ^ k)) (2 ^ k)); [destruct (Z.even _)|..]; nia.
Qed.

Lemma nearest_mono a b k : 0 <= k -> a <= b -> nearest a k <= nearest b k.
Proof.
  intros Hk Hab. pose proof (Z.pow_pos_nonneg 2 k ltac:(lia) Hk) as Hp.
  pose proof (Z.div_mod a (2 ^ k) ltac:(lia)) as Hda. pose proof (Z.mod_pos_bound a (2 ^ k) Hp) as Hma.
  pose proof (Z.div_mod b (2 ^ k) ltac:(lia)) as Hdb. pose proof (Z.mod_pos_bound b (2 ^ k) Hp) as Hmb.
  pose proof (Z.div_le_mono a b (2 ^ k) Hp Hab) as Hq. unfold nearest.
  destruct (Z.eq_dec (a / 2 ^ k) (b / 2 ^ k)) as [E|E].
  - rewrite E in *. destruct (Z.compare_spec (2 * (a mod 2 ^ k)) (2 ^ k)), (Z.compare_spec (2 * (b mod 2 ^ k)) (2 ^ k));
      destruct (Z.even (b / 2 ^ k)); lia.
  - destruct (Z.compare_spec (2 * (a mod 2 ^ k)) (2 ^ k)), (Z.compare_spec (2 * (b mod 2 ^ k)) (2 ^ k));
      destruct (Z.even (b / 2 ^ k)), (Z.even (a / 2 ^ k)); lia.
Qed.

Lemma nearest_exact q k : 0 <= k -> nearest (q * 2 ^ k) k = q.
Proof.
  intros Hk. pose proof (Z.pow_pos_nonneg 2 k ltac:(lia) Hk) as Hp. unfold nearest. rewrite Z.mod_mul, Z.div_mul by lia.
  destruct (Z.compare_spec (2 * 0) (2 ^ k)); lia.
Qed.

(** ** Rounding *)

Lemma log2_bounds a : 0 < a -> 2 ^ Z.log2 a <= a < 2 ^ (Z.log2 a + 1).
Proof. intros H. pose proof (Z.log2_spec a H). by rewrite <- Z.add_1_r in *. Qed.

Lemma spare_nonneg a : 0 <= spare a.
Proof. unfold spare. lia. Qed.

Lemma spare_cases a : spare a = 0 \/ spare a = Z.log2 a - 52 /\ 0 < spare a.
Proof. unfold spare. lia. Qed.

(** A rounded number stays in the binade of the number, its upper end included. *)
Lemma nearest_binade a : 0 < a -> nearest a (spare a) <= 2 ^ 53 /\ (0 < spare a -> 2 ^ 52 <= nearest a (spare a)).
Proof.
  intros Ha. destruct (log2_bounds a Ha) as [Hl Hu]. pose proof (spare_nonneg a) as Hs. pose proof (Z.log2_nonneg a) as Hn.
  assert (Z.log2 a + 1 <= 53 + spare a) as Hd by (unfold spare; lia). split.
  - rewrite <- (nearest_exact (2 ^ 53) (spare a)) by done. apply nearest_mono; [done|]. rewrite <- Z.pow_add_r by lia.
    pose proof (Z.pow_le_mono_r 2 _ _ ltac:(lia) Hd). lia.
  - intros Hp. rewrite <- (nearest_exact (2 ^ 52) (spare a)) at 1 by done. apply nearest_mono; [done|]. rewrite <- Z.pow_add_r by lia.
    assert (52 + spare a = Z.log2 a) as -> by (unfold spare in *; lia). done.
Qed.

Lemma nearest_pos a : 0 < a -> 0 < nearest a (spare a).
Proof.
  intros Ha. destruct (spare_cases a) as [E|[_ Hp]].
  - by rewrite E, nearest_0.
  - destruct (nearest_binade a Ha) as [_ H]. specialize (H Hp). lia.
Qed.

Lemma rnd_abs_nonneg a : 0 <= a -> 0 <= rnd_abs a.
Proof.
  intros Ha. unfold rnd_abs. destruct (Z.eq_dec a 0) as [->|]; [done|].
  pose proof (nearest_pos a ltac:(lia)). pose proof (Z.pow_pos_nonneg 2 (spare a) ltac:(lia) (spare_nonneg a)). nia.
Qed.

Lemma rnd_abs_mono a b : 0 <= a <= b -> rnd_abs a <= rnd_abs b.
Proof.
  intros [Ha Hab]. destruct (Z.eq_dec a 0) as [->|Hne]; [apply rnd_abs_nonneg; lia|]. unfold rnd_abs.
  pose proof (Z.log2_le_mono a b Hab) as Hl. pose proof (spare_nonneg a) as Hsa. pose proof (spare_nonneg b) as Hsb.
  assert (spare a <= spare b) as Hs by (unfold spare; lia).
  destruct (Z.eq_dec (spare a) (spare b)) as [E|E].
  - rewrite E. pose proof (nearest_mono a b (spare b) Hsb Hab). pose proof (Z.pow_pos_nonneg 2 (spare b) ltac:(lia) Hsb). nia.
  - destruct (nearest_binade a ltac:(lia)) as [Hu _]. destruct (nearest_binade b ltac:(lia)) as [_ Hd]. specialize (Hd ltac:(lia)).
    pose proof (Z.pow_pos_nonneg 2 (spare a) ltac:(lia) Hsa).
    pose proof (Z.pow_le_mono_r 2 (spare a + 1) (spare b) ltac:(lia) ltac:(lia)) as Hp. rewrite Z.pow_add_r in Hp by lia. nia.
Qed.

Lemma rnd_opp z : rnd (- z) = - rnd z.
Proof. unfold rnd. rewrite Z.abs_opp, Z.sgn_opp. lia. Qed.

Lemma rnd_0 : rnd 0 = 0.
Proof. reflexivity. Qed.

Lemma rnd_nonneg z : 0 <= z -> rnd z = rnd_abs z.
Proof. intros H. unfold rnd. destruct (Z.eq_dec z 0) as [->|]; [done|]. rewrite Z.sgn_pos, Z.abs_eq by lia. lia. Qed.

Lemma rnd_mono a b : a <= b -> rnd a <= rnd b.
Proof.
  intros Hab. destruct (Z.le_gt_cases 0 a), (Z.le_gt_cases 0 b); try lia.
  - rewrite !rnd_nonneg by lia. apply rnd_abs_mono. lia.
  - rewrite (rnd_nonneg b) by lia. pose proof (rnd_abs_nonneg b ltac:(lia)). pose proof (rnd_opp a) as E. rewrite (rnd_nonneg (- a)) in E by lia.
    pose proof (rnd_abs_nonneg (- a) ltac:(lia)). lia.
  - pose proof (rnd_opp a) as Ea. pose proof (rnd_opp b) as Eb. rewrite rnd_nonneg in Ea, Eb by lia.
    pose proof (rnd_abs_mono (- b) (- a) ltac:(lia)). lia.
Qed.

(** Multiples of 2^j with at most 53 bits are not rounded. *)
Lemma rnd_exact q j : 0 <= j -> Z.abs q <= 2 ^ 53 -> rnd (q * 2 ^ j) = q * 2 ^ j.
Proof.
  intros Hj. enough (forall p, 0 <= p <= 2 ^ 53 -> rnd_abs (p * 2 ^ j) = p * 2 ^ j) as Hp.
  { intros Hq. pose proof (Z.pow_pos_nonneg 2 j ltac:(lia) Hj) as H2. destruct (Z.le_gt_cases 0 q) as [H|H].
    - rewrite rnd_nonneg by nia. apply Hp. lia.
    - pose proof (rnd_opp (- q * 2 ^ j)) as E. replace (- (- q * 2 ^ j)) with (q * 2 ^ j) in E by lia. rewrite E.
      rewrite rnd_nonneg, Hp by nia. lia. }
  intros p Hp. destruct (Z.eq_dec p 0) as [->|Hne]; [done|]. unfold rnd_abs.
  pose proof (Z.pow_pos_nonneg 2 j ltac:(lia) Hj) as H2. pose proof (spare_nonneg (p * 2 ^ j)) as Hs. destruct (Z.le_gt_cases (spare (p * 2 ^ j)) j) as [Hle|Hgt].
  - set (k := spare (p * 2 ^ j)) in *. clearbody k. assert (p * 2 ^ j = p * 2 ^ (j - k) * 2 ^ k) as ->.
    { rewrite <- Z.mul_assoc, <- Z.pow_add_r by lia. by replace (j - k + k) with j by lia. }
    by rewrite nearest_exact.
  - assert (p = 2 ^ 53) as ->.
    { assert (53 + j <= Z.log2 (p * 2 ^ j)) as H by (unfold spare in Hgt; lia). apply Z.log2_le_pow2 in H; [|nia]. rewrite Z.pow_add_r in H by lia. nia. }
    assert (spare (2 ^ 53 * 2 ^ j) = j + 1) as E by (unfold spare; rewrite <- Z.pow_add_r, Z.log2_pow2 by lia; lia).
    rewrite E. replace (2 ^ 53 * 2 ^ j) with (2 ^ 52 * 2 ^ (j + 1)) by (rewrite Z.pow_add_r by lia; lia). by rewrite nearest_exact by lia.
Qed.

(** ** The shifts of [binary_round_aux] *)

Lemma iter_pos_iter {A} (f : A -> A) p : forall x, SpecFloat.iter_pos f p x = Nat.iter (Pos.to_nat p) f x.
Proof.
  induction p as [p IH|p IH|]; intros x; cbn [SpecFloat.iter_pos]; [| |done].
  - rewrite !IH, Pos2Nat.inj_xI. replace (S (2 * Pos.to_nat p))%nat with (Pos.to_nat p + (Pos.to_nat p + 1))%nat by lia. by rewrite !Nat.iter_add.
  - rewrite !IH, Pos2Nat.inj_xO. replace (2 * Pos.to_nat p)%nat with (Pos.to_nat p + Pos.to_nat p)%nat by lia. by rewrite Nat.iter_add.
Qed.

(** After [n] steps: the quotient, the first bit below it, and whether a lower one is set. *)
Definition shifted (m : Z) (n : nat) : shr_record :=
  match n with
  | O => Build_shr_record m false false
  | S k => Build_shr_record (m / 2 ^ Z.of_nat n) (Z.odd (m / 2 ^ Z.of_nat k)) (negb (m mod 2 ^ Z.of_nat k =? 0))
  end.

Lemma shr_1_spec m r s : 0 <= m -> shr_1 (Build_shr_record m r s) = Build_shr_record (m / 2) (Z.odd m) (r || s).
Proof. intros H. rewrite <- Z.div2_div. by destruct m as [|[p|p|]|p]. Qed.

Lemma shr_iter m n : 0 <= m -> Nat.iter n shr_1 (Build_shr_record m false false) = shifted m n.
Proof.
  intros Hm. induction n as [|n IH]; [done|]. rewrite Nat.iter_succ, IH. destruct n as [|n].
  - cbn [shifted]. rewrite shr_1_spec by done. cbn. by rewrite Z.div_1_r, Z.mod_1_r.
  - cbn [shifted]. pose proof (Z.pow_pos_nonneg 2 (Z.of_nat n) ltac:(lia) ltac:(lia)) as Hp.
    rewrite shr_1_spec by (apply Z.div_pos; [done|]; apply Z.pow_pos_nonneg; lia). rewrite !Nat2Z.inj_succ, !Z.pow_succ_r by lia.
    f_equal.
    + rewrite Z.div_div by lia. f_equal. lia.
    + set (P := 2 ^ Z.of_nat n) in *. rewrite (Z.mul_comm 2 P), Z.rem_mul_r by lia. rewrite Zodd_mod.
      pose proof (Z.mod_pos_bound m P Hp). pose proof (Z.mod_pos_bound (m / P) 2 ltac:(lia)).
      destruct (Z.eqb_spec ((m / P) mod 2) 1) as [E|E].
      * rewrite E. cbn [orb]. symmetry. apply negb_true_iff, Z.eqb_neq. lia.
      * assert ((m / P) mod 2 = 0) as -> by lia. by rewrite Z.mul_0_r, Z.add_0_r.
Qed.

Lemma shifted_nearest m n : 0 <= m ->
  round_nearest_even (shr_m (shifted m n)) (loc_of_shr_record (shifted m n)) = nearest m (Z.of_nat n).
Proof.
  intros Hm. destruct n as [|n]; [by rewrite nearest_0|]. unfold nearest. rewrite Nat2Z.inj_succ, Z.pow_succ_r by lia. cbn [shifted shr_m].
  rewrite Nat2Z.inj_succ, Z.pow_succ_r by lia. pose proof (Z.pow_pos_nonneg 2 (Z.of_nat n) ltac:(lia) ltac:(lia)) as Hp.
  set (P := 2 ^ Z.of_nat n) in *. rewrite Zodd_mod.
  assert (m mod (2 * P) = m mod P + P * ((m / P) mod 2)) as Hmod by (rewrite (Z.mul_comm 2 P); apply Z.rem_mul_r; lia).
  pose proof (Z.mod_pos_bound m P Hp). pose proof (Z.mod_pos_bound (m / P) 2 ltac:(lia)).
  destruct (Z.eqb_spec ((m / P) mod 2) 1) as [E|E], (Z.eqb_spec (m mod P) 0) as [E0|E0]; cbn [negb loc_of_shr_record round_nearest_even];
    destruct (Z.compare_spec (2 * (m mod (2 * P))) (2 * P)); try done; nia.
Qed.

Lemma shr_fexp_spec m e : 0 <= m -> let n := fexp 53 1024 (Zdigits2 m + e) - e in 0 <= n ->
  shr_fexp 53 1024 m e loc_Exact = (shifted m (Z.to_nat n), e + n).
Proof.
  intros Hm n Hn. unfold shr_fexp, shr. fold n. cbn [shr_record_of_loc]. destruct n as [|p|p] eqn:En; [|  |lia].
  - cbn. by rewrite Z.add_0_r.
  - rewrite iter_pos_iter, Z2Nat.inj_pos. by rewrite shr_iter.
Qed.

(** The second shift of [binary_round_aux]: a mantissa of 2^53 is halved. *)
Lemma finish_round s r f : 0 < r <= 2 ^ 53 -> -1074 <= f -> (f = -1074 \/ 2 ^ 52 <= r) -> exists p g,
  (let '(mrs, e) := shr_fexp 53 1024 r f loc_Exact in
   match shr_m mrs with
   | Z0 => S754_zero s
   | Zpos m => if e <=? 1024 - 53 then S754_finite s m e else S754_infinity s
   | _ => S754_nan
   end) = (if g <=? 1024 - 53 then S754_finite s p g else S754_infinity s) /\
  r * 2 ^ (f + 1074) = Zpos p * 2 ^ (g + 1074) /\ -1074 <= g /\ Zpos p < 2 ^ 53 /\ (g = -1074 \/ 2 ^ 52 <= Zpos p).
Proof.
  intros Hr Hf Hlow. assert (fexp 53 1024 (Zdigits2 r + f) - f = if r =? 2 ^ 53 then 1 else 0) as En.
  { destruct r as [|p|p] eqn:Erp; [lia| |lia]. rewrite fexp_64. cbn [Zdigits2]. rewrite digits2_log. destruct (Z.eqb_spec (Zpos p) (2 ^ 53)) as [->|Hne].
    - rewrite Z.log2_pow2 by lia. lia.
    - assert (Z.log2 (Zpos p) < 53) by (apply Z.log2_lt_pow2; lia). destruct Hlow as [->|Hlow]; [lia|].
      assert (52 <= Z.log2 (Zpos p)) by (apply Z.log2_le_pow2; lia). lia. }
  rewrite (shr_fexp_spec r f) by (rewrite ?En; repeat case_match; lia). rewrite En. destruct (Z.eqb_spec r (2 ^ 53)) as [->|E].
  - exists (2 ^ 52)%positive, (f + 1). split; [reflexivity|]. change (Z.pos (2 ^ 52)) with (2 ^ 52). split_and!; try lia.
    replace (f + 1 + 1074) with (f + 1074 + 1) by lia. rewrite (Z.pow_add_r 2 (f + 1074) 1) by lia. lia.
  - exists (Z.to_pos r), f. cbn [Z.to_nat shifted shr_m]. rewrite Z2Pos.id, Z.add_0_r by lia. split_and!; try done; try lia. destruct r as [|p|p]; [lia|done|lia].
Qed.

(** The magnitude [m * 2^e] rounded, where the mantissa has at least the bits it needs. *)
Lemma round_aux_spec s m e : -1074 <= e -> e <= fexp 53 1024 (Zpos (digits2_pos m) + e) ->
  let a := Zpos m * 2 ^ (e + 1074) in
  exists x, binary_round_aux 53 1024 s (Zpos m) e loc_Exact = x /\ is_double x = true /\
    if rnd_abs a <? too_large then isfinite x = true /\ value x = cond_Zopp s (rnd_abs a) else x = S754_infinity s.
Proof.
  intros He Hf a. set (f := fexp 53 1024 (Zpos (digits2_pos m) + e)) in *. pose proof (Z.log2_nonneg (Zpos m)) as Hl.
  assert (f = Z.max (Z.log2 (Zpos m) + 1 + e - 53) (-1074)) as Ef by (unfold f; by rewrite fexp_64, digits2_log).
  assert (spare a = f - e + (e + 1074)) as Esp.
  { unfold spare, a. rewrite Z.log2_mul_pow2 by lia. lia. }
  assert (0 < a) as Ha by (unfold a; pose proof (Z.pow_pos_nonneg 2 (e + 1074) ltac:(lia) ltac:(lia)); lia).
  set (r := nearest a (spare a)). assert (nearest (Zpos m) (f - e) = r) as Er.
  { subst r. rewrite Esp. unfold a. by rewrite nearest_shift by lia. }
  destruct (nearest_binade a Ha) as [Hr1 Hr2]. pose proof (nearest_pos a Ha) as Hr0. fold r in Hr0, Hr1, Hr2.
  unfold binary_round_aux. rewrite (shr_fexp_spec (Zpos m) e) by (cbn [Zdigits2]; fold f; lia). cbn [Zdigits2]. fold f.
  rewrite shifted_nearest, Z2Nat.id, Er by lia. replace (e + (f - e)) with f by lia.
  assert (rnd_abs a = r * 2 ^ (f + 1074)) as Ernd by (unfold rnd_abs; fold r; rewrite Esp; do 2 f_equal; lia).
  destruct (finish_round s r f) as (p & g & -> & Ev & Hg & Hp1 & Hp2); [lia|lia| |].
  { destruct (Z.eq_dec f (-1074)); [by left|right]. apply Hr2. lia. }
  rewrite Ernd, Ev. eexists. split; [reflexivity|].
  pose proof (bounded_spec p g) as Hb. destruct (Z.leb_spec g (1024 - 53)) as [Hle|Hgt].
  - assert (Zpos p * 2 ^ (g + 1074) < too_large) as Hs.
    { unfold too_large. replace 2098 with (53 + 2045) by lia. rewrite (Z.pow_add_r 2 53 2045) by lia.
      apply Z.lt_le_trans with (2 ^ 53 * 2 ^ (g + 1074)).
      - apply Z.mul_lt_mono_pos_r; [apply Z.pow_pos_nonneg; lia|done].
      - apply Z.mul_le_mono_nonneg_l; [apply Z.pow_nonneg; lia|apply Z.pow_le_mono_r; lia]. }
    rewrite (proj2 (Z.ltb_lt _ _) Hs). split_and!; [|done|done]. apply Hb. split_and!; (done || lia).
  - assert (too_large <= Zpos p * 2 ^ (g + 1074)) as Hs.
    { unfold too_large. replace 2098 with (52 + 2046) by lia. rewrite (Z.pow_add_r 2 52 2046) by lia.
      apply Z.mul_le_mono_nonneg; [apply Z.pow_nonneg; lia|lia|apply Z.pow_nonneg; lia|apply Z.pow_le_mono_r; lia]. }
    by rewrite (proj2 (Z.ltb_ge _ _) Hs).
Qed.

Lemma shl_align_spec m e e' : -1074 <= e -> -1074 <= e' -> let '(m', e'') := shl_align m e e' in
  e'' = Z.min e e' /\ Zpos m' * 2 ^ (e'' + 1074) = Zpos m * 2 ^ (e + 1074) /\ Z.log2 (Zpos m') + e'' = Z.log2 (Zpos m) + e.
Proof.
  intros He He'. unfold shl_align. destruct (e' - e) as [|d|d] eqn:Ed; [split_and!; lia..|].
  assert (Zpos (Pos.iter xO m d) = Zpos m * 2 ^ Zpos d) as E.
  { clear. induction d as [|d IH] using Pos.peano_ind; [cbn; lia|]. rewrite Pos.iter_succ, Pos2Z.inj_xO, IH, Pos2Z.inj_succ, Z.pow_succ_r by lia. lia. }
  rewrite E. split_and!; [lia| |rewrite Z.log2_mul_pow2 by lia; lia].
  rewrite <- Z.mul_assoc, <- Z.pow_add_r by lia. do 2 f_equal. lia.
Qed.

(** An exact result [m * 2^e] becomes the double nearest to it. *)
Lemma normalize_spec m e s : -1074 <= e -> let z := m * 2 ^ (e + 1074) in
  exists x, binary_normalize 53 1024 m e s = x /\ is_double x = true /\
    if Z.abs (rnd z) <? too_large then isfinite x = true /\ value x = rnd z else x = S754_infinity (z <? 0).
Proof.
  intros He z. pose proof (Z.pow_pos_nonneg 2 (e + 1074) ltac:(lia) ltac:(lia)) as Hp.
  assert (forall p sg, let a := Zpos p * 2 ^ (e + 1074) in exists x, binary_round 53 1024 sg p e = x /\ is_double x = true /\
    if rnd_abs a <? too_large then isfinite x = true /\ value x = cond_Zopp sg (rnd_abs a) else x = S754_infinity sg) as Hr.
  { intros p sg a. unfold binary_round. pose proof (Z.log2_nonneg (Zpos p)).
    pose proof (shl_align_spec p e (fexp 53 1024 (Zpos (digits2_pos p) + e)) He ltac:(rewrite fexp_64; lia)) as Ha.
    destruct (shl_align _ _ _) as [m' e''] eqn:Es. destruct Ha as (Ee & Em & El). rewrite fexp_64, digits2_log in Ee.
    subst a. rewrite <- Em. apply round_aux_spec; [lia|]. rewrite fexp_64, digits2_log. lia. }
  destruct m as [|p|p]; cbn [binary_normalize].
  - subst z. eexists. split; [reflexivity|]. done.
  - destruct (Hr p false) as (x & -> & Hx & Hv). assert (0 < z) as Hz by (subst z; nia). fold z in Hv.
    exists x. split; [done|]. split; [done|]. rewrite rnd_nonneg, Z.abs_eq, (proj2 (Z.ltb_ge z 0)) by (try apply rnd_abs_nonneg; lia). done.
  - destruct (Hr p true) as (x & -> & Hx & Hv). assert (z = - (Zpos p * 2 ^ (e + 1074))) as Ez by (subst z; lia). set (a := Zpos p * 2 ^ (e + 1074)) in *.
    exists x. split; [done|]. split; [done|]. rewrite Ez, rnd_opp, rnd_nonneg, Z.abs_opp, Z.abs_eq, (proj2 (Z.ltb_lt (- a) 0)) by (try apply rnd_abs_nonneg; nia). done.
Qed.

(** ** Arithmetic on finite doubles *)

Definition finite (x : double) : Prop := is_double x = true /\ isfinite x = true.

(** What an operation with exact result [z] returns. *)
Definition rounds_to (z : Z) (x : double) : Prop :=
  is_double x = true /\ if Z.abs (rnd z) <? too_large then isfinite x = true /\ value x = rnd z else x = S754_infinity (z <? 0).

Lemma finite_form x : finite x -> exists q j, value x = q * 2 ^ j /\ 0 <= j <= 2045 /\ Z.abs q < 2 ^ 53.
Proof.
  intros [Hd Hf]. destruct x as [s| | |s m e]; try done; [exists 0, 0; cbn; lia|]. apply bounded_spec in Hd as (He & Hm & _).
  exists (cond_Zopp s (Zpos m)), (e + 1074). split_and!; try lia; [|destruct s; cbn; lia]. destruct s; cbn [value cond_Zopp]; lia.
Qed.

Lemma rnd_value x : finite x -> rnd (value x) = value x /\ Z.abs (value x) < too_large.
Proof.
  intros Hx. destruct (finite_form x Hx) as (q & j & -> & Hj & Hq). split; [apply rnd_exact; lia|].
  pose proof (Z.pow_pos_nonneg 2 j ltac:(lia) ltac:(lia)). pose proof (Z.pow_le_mono_r 2 j 2045 ltac:(lia) ltac:(lia)).
  rewrite Z.abs_mul, (Z.abs_eq (2 ^ j)) by lia. unfold too_large. change (2 ^ 2098) with (2 ^ 53 * 2 ^ 2045). nia.
Qed.

Lemma finite_rounds x z : finite x -> value x = z -> rounds_to z x.
Proof.
  intros Hx <-. destruct (rnd_value x Hx) as [E Hl]. split; [apply Hx|]. rewrite E, (proj2 (Z.ltb_lt _ _) Hl). split; [apply Hx|done].
Qed.

Lemma rounds_finite z x : rounds_to z x -> Z.abs (rnd z) < too_large -> finite x /\ value x = rnd z.
Proof. intros [Hd H] Hl. rewrite (proj2 (Z.ltb_lt _ _) Hl) in H. destruct H. by split; [split|]. Qed.

Lemma aligned_value s m e ez : -1074 <= ez <= e ->
  cond_Zopp s (Zpos (fst (shl_align m e ez))) * 2 ^ (ez + 1074) = value (S754_finite s m e).
Proof.
  intros He. pose proof (shl_align_spec m e ez ltac:(lia) ltac:(lia)) as H. destruct (shl_align m e ez) as [m' e'].
  destruct H as (-> & Hv & _). rewrite Z.min_r in Hv by lia. cbn [fst value]. destruct s; cbn [cond_Zopp]; lia.
Qed.

Lemma normalize_rounds m e s : -1074 <= e -> rounds_to (m * 2 ^ (e + 1074)) (binary_normalize 53 1024 m e s).
Proof. intros He. destruct (normalize_spec m e s He) as (x & -> & H). exact H. Qed.

Lemma add_value x y : finite x -> finite y -> rounds_to (value x + value y) (double_add x y).
Proof.
  intros Hx Hy. destruct Hx as [Dx Fx], Hy as [Dy Fy]. unfold double_add.
  destruct x as [sx| | |sx mx ex], y as [sy| | |sy my ey]; try done; cbn [SFadd].
  - destruct sx, sy; apply finite_rounds; done.
  - by apply finite_rounds.
  - apply finite_rounds; [done|]. cbn [value]. lia.
  - apply bounded_spec in Dx as (Hx & _), Dy as (Hy & _). 
    rewrite <- (aligned_value sx mx ex (Z.min ex ey)), <- (aligned_value sy my ey (Z.min ex ey)), <- Z.mul_add_distr_r by lia.
    apply normalize_rounds. lia.
Qed.

Lemma sub_value x y : finite x -> finite y -> rounds_to (value x - value y) (double_sub x y).
Proof.
  intros Hx Hy. destruct Hx as [Dx Fx], Hy as [Dy Fy]. unfold double_sub.
  destruct x as [sx| | |sx mx ex], y as [sy| | |sy my ey]; try done; cbn [SFsub].
  - destruct sx, sy; apply finite_rounds; done.
  - apply finite_rounds; [done|]. destruct sy; cbn [value negb cond_Zopp]; lia.
  - apply finite_rounds; [done|]. cbn [value]. lia.
  - apply bounded_spec in Dx as (Hx & _), Dy as (Hy & _).
    rewrite <- (aligned_value sx mx ex (Z.min ex ey)), <- (aligned_value sy my ey (Z.min ex ey)), <- Z.mul_sub_distr_r by lia.
    apply normalize_rounds. lia.
Qed.

Lemma abs_value x : finite x -> finite (SFabs x) /\ value (SFabs x) = Z.abs (value x).
Proof.
  intros [Dx Fx]. destruct x as [s| | |s m e]; try done. split; [done|]. cbn [SFabs value].
  apply bounded_spec in Dx as (He & _). pose proof (Z.pow_pos_nonneg 2 (e + 1074) ltac:(lia) ltac:(lia)). destruct s; cbn [cond_Zopp]; lia.
Qed.

(** No double is nearer to a number than its rounding. *)
Lemma nearest_multiple a w : 0 < a -> Z.abs (rnd_abs a - a) <= Z.abs (w * 2 ^ spare a - a).
Proof.
  intros Ha. unfold rnd_abs. pose proof (nearest_bounds a (spare a) (spare_nonneg a)) as [H1 H2].
  pose proof (Z.pow_pos_nonneg 2 (spare a) ltac:(lia) (spare_nonneg a)) as Hp. set (P := 2 ^ spare a) in *. set (N := nearest a (spare a)) in *.
  destruct (Z.eq_dec w N) as [->|Hne]; [lia|]. assert (P <= Z.abs (w * P - N * P)) by (rewrite <- Z.mul_sub_distr_r, Z.abs_mul; nia). lia.
Qed.

Lemma rnd_abs_nearest a q j : 0 < a -> 0 <= j -> Z.abs q < 2 ^ 53 -> Z.abs (rnd_abs a - a) <= Z.abs (q * 2 ^ j - a).
Proof.
  intros Ha Hj Hq. pose proof (spare_nonneg a) as Hs. destruct (Z.le_gt_cases (spare a) j) as [Hle|Hgt].
  - replace (q * 2 ^ j) with (q * 2 ^ (j - spare a) * 2 ^ spare a); [by apply nearest_multiple|].
    rewrite <- Z.mul_assoc, <- Z.pow_add_r by lia. do 2 f_equal. lia.
  - transitivity (Z.abs (2 ^ 52 * 2 ^ spare a - a)); [by apply nearest_multiple|]. destruct (log2_bounds a Ha) as [Hl _].
    assert (2 ^ 52 * 2 ^ spare a = 2 ^ Z.log2 a) as E by (rewrite <- Z.pow_add_r by lia; f_equal; unfold spare in *; lia).
    assert (q * 2 ^ j <= 2 ^ 52 * 2 ^ spare a); [|lia].
    pose proof (Z.pow_le_mono_r 2 (j + 1) (spare a) ltac:(lia) ltac:(lia)) as Hm. rewrite Z.pow_add_r in Hm by lia.
    pose proof (Z.pow_pos_nonneg 2 j ltac:(lia) Hj). nia.
Qed.

Lemma rnd_nearest s x : finite x -> Z.abs (rnd s - s) <= Z.abs (value x - s).
Proof.
  intros Hx. destruct (finite_form x Hx) as (q & j & -> & Hj & Hq). destruct (Z.lt_trichotomy s 0) as [Hs|[->|Hs]].
  - pose proof (rnd_opp s) as E. rewrite rnd_nonneg in E by lia. pose proof (rnd_abs_nearest (- s) (- q) j ltac:(lia) ltac:(lia) ltac:(lia)). lia.
  - rewrite rnd_0. lia.
  - rewrite rnd_nonneg by lia. apply rnd_abs_nearest; lia.
Qed.

(** ** Comparison *)

Lemma magnitude_compare m1 e1 m2 e2 : bounded 53 1024 m1 e1 = true -> bounded 53 1024 m2 e2 = true ->
  (Zpos m1 * 2 ^ (e1 + 1074) ?= Zpos m2 * 2 ^ (e2 + 1074)) =
  match e1 ?= e2 with Lt => Lt | Gt => Gt | Eq => Pos.compare_cont Eq m1 m2 end.
Proof.
  enough (forall m1 e1 m2 e2, bounded 53 1024 m1 e1 = true -> bounded 53 1024 m2 e2 = true -> e1 < e2 ->
    Zpos m1 * 2 ^ (e1 + 1074) < Zpos m2 * 2 ^ (e2 + 1074)) as H.
  { intros H1 H2. destruct (Z.compare_spec e1 e2) as [->|Hlt|Hgt].
    - apply bounded_spec in H2 as (He & _). pose proof (Z.pow_pos_nonneg 2 (e2 + 1074) ltac:(lia) ltac:(lia)).
      change (Pos.compare_cont Eq m1 m2) with (Zpos m1 ?= Zpos m2). destruct (Z.compare_spec (Zpos m1) (Zpos m2)) as [->|?|?].
      + apply Z.compare_refl.
      + apply Z.compare_lt_iff. nia.
      + apply Z.compare_gt_iff. nia.
    - apply Z.compare_lt_iff. by apply H.
    - apply Z.compare_gt_iff. by apply H. }
  clear. intros m1 e1 m2 e2 (Ha & Hb & _)%bounded_spec (Hc & _ & Hd)%bounded_spec Hlt.
  pose proof (Z.pow_pos_nonneg 2 (e1 + 1074) ltac:(lia) ltac:(lia)). pose proof (Z.pow_le_mono_r 2 (e1 + 1074 + 1) (e2 + 1074) ltac:(lia) ltac:(lia)) as Hp.
  rewrite (Z.pow_add_r 2 (e1 + 1074) 1) in Hp by lia. nia.
Qed.

Lemma compare_value x y : finite x -> finite y -> SFcompare x y = Some (value x ?= value y).
Proof.
  intros [Dx Fx] [Dy Fy].
  assert (forall m e, bounded 53 1024 m e = true -> 0 < Zpos m * 2 ^ (e + 1074)) as Hpos.
  { intros m e (He & _)%bounded_spec. pose proof (Z.pow_pos_nonneg 2 (e + 1074) ltac:(lia) ltac:(lia)). lia. }
  destruct x as [sx| | |sx mx ex], y as [sy| | |sy my ey]; try done; cbn [SFcompare value].
  - specialize (Hpos my ey Dy). destruct sy; cbn [cond_Zopp]; f_equal; symmetry; [apply Z.compare_gt_iff|apply Z.compare_lt_iff]; lia.
  - specialize (Hpos mx ex Dx). destruct sx; cbn [cond_Zopp]; f_equal; symmetry; [apply Z.compare_lt_iff|apply Z.compare_gt_iff]; lia.
  - pose proof (Hpos mx ex Dx). pose proof (Hpos my ey Dy). pose proof (magnitude_compare mx ex my ey Dx Dy) as Hc.
    destruct sx, sy; cbn [cond_Zopp]; f_equal; symmetry.
    + rewrite <- Z.compare_opp, !Z.opp_involutive, Z.compare_antisym, Hc. by destruct (ex ?= ey).
    + apply Z.compare_lt_iff. lia.
    + apply Z.compare_gt_iff. lia.
    + done.
Qed.

Lemma ltb_value x y : finite x -> finite y -> SFltb x y = (value x <? value y).
Proof. intros Hx Hy. unfold SFltb. rewrite compare_value by done. unfold Z.ltb. by destruct (_ ?= _). Qed.

Lemma leb_value x y : finite x -> finite y -> SFleb x y = (value x <=? value y).
Proof. intros Hx Hy. unfold SFleb. rewrite compare_value by done. unfold Z.leb. by destruct (_ ?= _). Qed.

Lemma eqb_value x y : finite x -> finite y -> SFeqb x y = (value x =? value y).
Proof.
  intros Hx Hy. unfold SFeqb. rewrite compare_value by done.
  destruct (Z.compare_spec (value x) (value y)); symmetry; [by apply Z.eqb_eq|apply Z.eqb_neq; lia..].
Qed.

(** Nothing but the sign of zero distinguishes doubles of the same value. *)
Lemma value_inj x y : finite x -> finite y -> value x = value y -> value x <> 0 -> x = y.
Proof.
  intros Hx Hy E H0. pose proof (compare_value x y Hx Hy) as Hc. rewrite E, Z.compare_refl in Hc.
  destruct Hx as [Dx Fx], Hy as [Dy Fy]. destruct x as [sx| | |sx mx ex], y as [sy| | |sy my ey]; try done.
  assert (forall m1 e1 m2 e2, match e1 ?= e2 with Lt => Lt | Gt => Gt | Eq => Pos.compare_cont Eq m1 m2 end = Eq -> m1 = m2 /\ e1 = e2) as H.
  { intros m1 e1 m2 e2 Hm. destruct (Z.compare_spec e1 e2); try done. split; [|done]. by apply Pos.compare_eq. }
  cbn [SFcompare] in Hc. injection Hc as Hc. destruct sx, sy; try done.
  - destruct (H mx ex my ey) as [-> ->]; [|done]. destruct (ex ?= ey); try done. by destruct (Pos.compare_cont Eq mx my).
  - destruct (H mx ex my ey Hc) as [-> ->]. done.
Qed.

(** ** Integers *)

Lemma int_value n : Z.abs n <= 2 ^ 53 -> finite (double_of_int n) /\ value (double_of_int n) = n * 2 ^ 1074.
Proof.
  intros Hn. pose proof (normalize_rounds n 0 false ltac:(lia)) as H. apply rounds_finite in H as [Hf Hv].
  - split; [exact Hf|]. change (value (double_of_int n) = rnd (n * 2 ^ 1074)) in Hv. rewrite Hv. by apply rnd_exact.
  - change (0 + 1074) with 1074. rewrite rnd_exact by done. unfold too_large. change (2 ^ 2098) with (2 ^ 1024 * 2 ^ 1074).
    rewrite Z.abs_mul. pose proof (Z.pow_le_mono_r 2 53 1000 ltac:(lia) ltac:(lia)). assert (2 ^ 1000 < 2 ^ 1024) by (apply Z.pow_lt_mono_r; lia).
    assert (0 < 2 ^ 1074) by (apply Z.pow_pos_nonneg; lia). nia.
Qed.

(** ** Results are doubles *)

Lemma shr_1_m m r s : 0 <= m -> shr_m (shr_1 (Build_shr_record m r s)) = m / 2.
Proof. intros H. by rewrite shr_1_spec. Qed.

Lemma shr_iter_m n : forall mrs, 0 <= shr_m mrs -> shr_m (Nat.iter n shr_1 mrs) = shr_m mrs / 2 ^ Z.of_nat n.
Proof.
  induction n as [|n IH]; intros mrs Hm; [by rewrite Z.div_1_r|]. rewrite Nat.iter_succ. pose proof (Z.pow_pos_nonneg 2 (Z.of_nat n) ltac:(lia) ltac:(lia)).
  assert (0 <= shr_m (Nat.iter n shr_1 mrs)) as H0 by (rewrite IH by done; by apply Z.div_pos).
  destruct (Nat.iter n shr_1 mrs) as [m r s] eqn:E. rewrite shr_1_m by done. cbn [shr_m] in *. specialize (IH mrs Hm). rewrite E in IH. cbn [shr_m] in IH.
  rewrite IH, Z.div_div, Nat2Z.inj_succ, Z.pow_succ_r by lia. f_equal. lia.
Qed.

Lemma digits_bounds m : 0 <= m -> m < 2 ^ Zdigits2 m /\ (0 < m -> 2 ^ (Zdigits2 m - 1) <= m) /\ 0 <= Zdigits2 m.
Proof.
  intros Hm. destruct m as [|p|p]; [done| |lia]. cbn [Zdigits2]. rewrite digits2_log. destruct (log2_bounds (Zpos p) ltac:(lia)) as [Hl Hu].
  pose proof (Z.log2_nonneg (Zpos p)). replace (Z.log2 (Zpos p) + 1 - 1) with (Z.log2 (Zpos p)) by lia. split_and!; try done; lia.
Qed.

Definition is_number (d : double) : bool := match d with S754_nan => false | _ => is_double d end.

(** A mantissa that has the bits it needs, with any location below it, rounds to a double, not to NaN. *)
Lemma round_aux_number s m e l : 0 <= m -> e <= fexp 53 1024 (Zdigits2 m + e) -> is_number (binary_round_aux 53 1024 s m e l) = true.
Proof.
  intros Hm Hf. unfold binary_round_aux, shr_fexp at 1. set (f := fexp 53 1024 (Zdigits2 m + e)) in *.
  assert (f = Z.max (Zdigits2 m + e - 53) (-1074)) as Ef by done.
  assert (exists mrs, shr (shr_record_of_loc m l) e (f - e) = (mrs, f) /\ shr_m mrs = m / 2 ^ (f - e)) as (mrs & -> & Em).
  { unfold shr. assert (shr_m (shr_record_of_loc m l) = m) as Er by (by destruct l as [|[]]). destruct (f - e) as [|p|p] eqn:E; [| |lia].
    - exists (shr_record_of_loc m l). rewrite Er, Z.div_1_r. split; [f_equal; lia|done].
    - eexists. split; [f_equal; lia|]. rewrite iter_pos_iter, shr_iter_m by lia. rewrite Er, positive_nat_Z. done. }
  destruct (digits_bounds m Hm) as (Hub & Hlb & Hd). pose proof (Z.pow_pos_nonneg 2 (f - e) ltac:(lia) ltac:(lia)) as Hp.
  set (r := round_nearest_even (shr_m mrs) (loc_of_shr_record mrs)).
  assert (shr_m mrs <= r <= shr_m mrs + 1) as Hr by (subst r; unfold round_nearest_even; repeat case_match; lia). clearbody r.
  assert (0 <= shr_m mrs < 2 ^ 53) as Hq.
  { rewrite Em. split; [by apply Z.div_pos|]. apply Z.div_lt_upper_bound; [done|]. rewrite <- Z.pow_add_r by lia.
    eapply Z.lt_le_trans; [exact Hub|]. apply Z.pow_le_mono_r; lia. }
  assert (0 < m -> f <> -1074 -> 2 ^ 52 <= shr_m mrs) as Hlow.
  { intros Hm0 Hn. rewrite Em. apply Z.div_le_lower_bound; [done|]. rewrite <- Z.pow_add_r by lia. etransitivity; [|by apply Hlb].
    apply Z.pow_le_mono_r; lia. }
  assert (m = 0 -> shr_m mrs = 0) as Hz by (intros ->; by rewrite Em, Z.div_0_l by lia).
  destruct (Z.eq_dec r 0) as [->|Hr0].
  { unfold shr_fexp, shr. cbn [Zdigits2 shr_record_of_loc]. rewrite fexp_64. destruct (Z.max (0 + f - 53) (-1074) - f) as [|p|p]; try done.
    rewrite iter_pos_iter. pose proof (shr_iter_m (Pos.to_nat p) (Build_shr_record 0 false false) ltac:(done)) as E0. cbn [shr_m] in E0.
    rewrite Z.div_0_l in E0 by (apply Z.pow_nonzero; lia). by rewrite E0. }
  destruct (finish_round s r f) as (p & g & -> & _ & Hg & Hp1 & Hp2); [lia|lia| |].
  { destruct (Z.eq_dec f (-1074)); [by left|right]. assert (0 < m) by (destruct (Z.eq_dec m 0); [subst m; cbn [Zdigits2] in *; lia|lia]). specialize (Hlow ltac:(done) ltac:(done)). lia. }
  destruct (Z.leb_spec g (1024 - 53)); [|done]. apply bounded_spec. split_and!; (done || lia).
Qed.

Lemma round_aux_valid s m e l : 0 <= m -> e <= fexp 53 1024 (Zdigits2 m + e) -> is_double (binary_round_aux 53 1024 s m e l) = true.
Proof. intros Hm He. pose proof (round_aux_number s m e l Hm He) as H. by destruct (binary_round_aux 53 1024 s m e l). Qed.

(** A product has the bits it needs. *)
Lemma mul_bits mx ex my ey : bounded 53 1024 mx ex = true -> bounded 53 1024 my ey = true ->
  ex + ey <= fexp 53 1024 (Zdigits2 (Zpos mx * Zpos my) + (ex + ey)).
Proof.
  intros (Hx1 & Hx2 & Hx3)%bounded_spec (Hy1 & Hy2 & Hy3)%bounded_spec. rewrite fexp_64. change (Zpos mx * Zpos my) with (Zpos (mx * my)). cbn [Zdigits2].
  rewrite digits2_log, Pos2Z.inj_mul. assert (ex = -1074 /\ ey = -1074 \/ 2 ^ 52 <= Zpos mx * Zpos my) as [?|Hm] by nia; [lia|].
  apply Z.log2_le_pow2 in Hm; [|nia]. lia.
Qed.

Lemma mul_not_nan x y : finite x -> finite y -> double_mul x y <> S754_nan.
Proof.
  intros [Hx Fx] [Hy Fy]. unfold double_mul. destruct x as [[]| | |sx mx ex], y as [[]| | |sy my ey]; try done; cbn [SFmul xorb].
  pose proof (round_aux_number (xorb sx sy) (Zpos (mx * my)) (ex + ey) loc_Exact ltac:(lia) (mul_bits mx ex my ey Hx Hy)) as H.
  by destruct (binary_round_aux 53 1024 (xorb sx sy) (Zpos (mx * my)) (ex + ey) loc_Exact).
Qed.

Lemma mul_double x y : is_double x = true -> is_double y = true -> is_double (double_mul x y) = true.
Proof.
  intros Hx Hy. unfold double_mul. destruct x as [| | |sx mx ex], y as [| | |sy my ey]; try done. cbn [SFmul].
  apply round_aux_valid; [lia|]. by apply mul_bits.
Qed.

Lemma div_double x y : is_double x = true -> is_double y = true -> is_double (double_div x y) = true.
Proof.
  intros Hx Hy. unfold double_div. destruct x as [| | |sx mx ex], y as [| | |sy my ey]; try done. cbn [SFdiv]. unfold SFdiv_core_binary.
  set (d := Zdigits2 (Zpos mx) + ex - (Zdigits2 (Zpos my) + ey)). set (e' := Z.min (fexp 53 1024 d) (ex - ey)).
  set (m' := match ex - ey - e' with Z0 => Zpos mx | Zpos _ => Z.shiftl (Zpos mx) (ex - ey - e') | Zneg _ => 0 end).
  assert (m' = Zpos mx * 2 ^ (ex - ey - e')) as Em.
  { subst m'. destruct (ex - ey - e') as [|p|p] eqn:E; [lia|by rewrite Z.shiftl_mul_pow2|lia]. }
  destruct (Z.div_eucl m' (Zpos my)) as [q r] eqn:Edm. pose proof (Z_div_mod m' (Zpos my) ltac:(lia)) as Hdm. rewrite Edm in Hdm. destruct Hdm as [Hq Hr].
  assert (0 <= q) as Hq0 by nia. apply round_aux_valid; [done|]. rewrite fexp_64.
  destruct (digits_bounds (Zpos mx) ltac:(lia)) as (_ & Hlx & Hdx). specialize (Hlx ltac:(lia)). destruct (digits_bounds (Zpos my) ltac:(lia)) as (Huy & _ & Hdy).
  destruct (digits_bounds q Hq0) as (Huq & _ & Hdq).
  assert (Zdigits2 (Zpos mx) - 1 + (ex - ey - e') < Zdigits2 q + Zdigits2 (Zpos my)) as Hdig.
  { assert (1 <= Zdigits2 (Zpos mx)) by (cbn [Zdigits2]; lia). apply (Z.pow_lt_mono_r_iff 2); [lia|lia|]. rewrite !Z.pow_add_r by lia. pose proof (Z.pow_pos_nonneg 2 (ex - ey - e') ltac:(lia) ltac:(lia)). nia. }
  assert (e' <= fexp 53 1024 d) as He by lia. rewrite fexp_64 in He. lia.
Qed.

Lemma round_double x : is_double x = true -> is_double (double_round x) = true /\ (isfinite x = true -> isfinite (double_round x) = true).
Proof.
  intros Hx. destruct x as [| | |s m e]; try done. cbn [double_round]. destruct (Z.leb_spec 0 e) as [|He]; [done|].
  destruct (_ / _) as [|n|n] eqn:En; [done| |done]. apply bounded_spec in Hx as (_ & Hm & _).
  assert (Zpos n <= 2 ^ 53) as Hn.
  { rewrite <- En. pose proof (Z.pow_pos_nonneg 2 (- e) ltac:(lia) ltac:(lia)). apply Z.div_le_upper_bound; [lia|].
    replace (- e) with (- e - 1 + 1) at 2 by lia. rewrite (Z.pow_add_r 2 (- e - 1) 1) by lia. pose proof (Z.pow_pos_nonneg 2 (- e - 1) ltac:(lia) ltac:(lia)). nia. }
  pose proof (normalize_rounds (if s then Zneg n else Zpos n) 0 false ltac:(lia)) as Hr.
  assert (binary_normalize 53 1024 (if s then Zneg n else Zpos n) 0 false = binary_round 53 1024 s n 0) as E by (by destruct s). rewrite E in Hr.
  apply rounds_finite in Hr as [[Hd Hfin] _]; [done|]. pose proof (int_value (if s then Zneg n else Zpos n) ltac:(destruct s; lia)) as [Hf Hv].
  change (0 + 1074) with 1074. rewrite <- Hv. destruct (rnd_value _ Hf) as [-> ?]. done.
Qed.

Lemma rounds_double z x : rounds_to z x -> is_double x = true.
Proof. by intros [? _]. Qed.

Lemma add_double x y : is_double x = true -> is_double y = true -> is_double (double_add x y) = true.
Proof.
  intros Hx Hy. destruct (isfinite x) eqn:Fx, (isfinite y) eqn:Fy; [by apply (rounds_double _ _ (add_value x y (conj Hx Fx) (conj Hy Fy)))|..];
    destruct x as [[]|[]| |], y as [[]|[]| |]; done.
Qed.

Lemma int_double n : is_double (double_of_int n) = true.
Proof. exact (rounds_double _ _ (normalize_rounds n 0 false ltac:(lia))). Qed.

Lemma opp_double x : is_double x = true -> is_double (SFopp x) = true.
Proof. by destruct x. Qed.

(** ** Quotients and products *)

(** A mantissa of 53 or 54 bits, with any location below it, is rounded within two units. *)
Lemma round_aux_close s m e l : 2 ^ 52 <= m < 2 ^ 54 -> -1000 <= e <= 900 -> exists p g,
  binary_round_aux 53 1024 s m e l = S754_finite s p g /\ bounded 53 1024 p g = true /\
  (m - 1) * 2 ^ (e + 1074) <= Zpos p * 2 ^ (g + 1074) <= (m + 2) * 2 ^ (e + 1074).
Proof.
  intros Hm He. assert (Zdigits2 m = Z.log2 m + 1) as Ed by (destruct m as [|q|q]; [lia| |lia]; apply digits2_log).
  assert (52 <= Z.log2 m) as Hlo by (apply Z.log2_le_pow2; lia). assert (Z.log2 m < 54) as Hhi by (apply Z.log2_lt_pow2; lia).
  unfold binary_round_aux, shr_fexp at 1. set (f := fexp 53 1024 (Zdigits2 m + e)).
  assert (f - e = Z.log2 m - 52) as Ef by (subst f; rewrite fexp_64, Ed; lia). set (k := Z.log2 m - 52) in *.
  assert (k = 0 \/ k = 1) as Hk by lia.
  assert (exists mrs, shr (shr_record_of_loc m l) e (f - e) = (mrs, f) /\ shr_m mrs = m / 2 ^ k) as (mrs & -> & Em).
  { unfold shr. rewrite Ef. assert (shr_m (shr_record_of_loc m l) = m) as Er by (by destruct l as [|[]]). destruct Hk as [->| ->]; cbn [Z.pow].
    - exists (shr_record_of_loc m l). rewrite Er, Z.div_1_r. split; [f_equal; lia|done].
    - eexists. split; [f_equal; lia|]. rewrite iter_pos_iter, shr_iter_m by lia. by rewrite Er. }
  set (r := round_nearest_even (shr_m mrs) (loc_of_shr_record mrs)).
  assert (shr_m mrs <= r <= shr_m mrs + 1) as Hr by (subst r; unfold round_nearest_even; repeat case_match; lia). clearbody r. rewrite Em in Hr.
  assert (2 ^ 52 <= m / 2 ^ k < 2 ^ 53 /\ 2 ^ k * (m / 2 ^ k) <= m < 2 ^ k * (m / 2 ^ k) + 2 ^ k) as [Hq1 Hq2].
  { pose proof (log2_bounds m ltac:(lia)) as Hb. destruct Hk as [Ek|Ek]; rewrite Ek; [replace (Z.log2 m) with 52 in Hb by lia|replace (Z.log2 m) with 53 in Hb by lia].
    - change (2 ^ 0) with 1. rewrite Z.div_1_r. change (52 + 1) with 53 in Hb. lia.
    - change (2 ^ 1) with 2. pose proof (Z.div_mod m 2 ltac:(lia)). pose proof (Z.mod_pos_bound m 2 ltac:(lia)). change (53 + 1) with 54 in Hb. lia. }
  destruct (finish_round s r f) as (p & g & -> & Ev & Hg & Hp1 & Hp2); [lia|lia|right; lia|].
  assert (f = e + k) as Ef' by lia. rewrite Ef', <- Z.add_assoc, (Z.add_comm k), Z.add_assoc, (Z.pow_add_r 2 (e + 1074) k) in Ev by lia.
  pose proof (Z.pow_pos_nonneg 2 (e + 1074) ltac:(lia) ltac:(lia)) as Hpe. set (P := 2 ^ (e + 1074)) in *.
  assert (g <= 1024 - 53) as Hgl.
  { destruct Hp2 as [->|Hp2]; [lia|]. apply Z.nlt_ge. intros Hgt. assert (2 ^ 52 * 2 ^ (g + 1074) <= 2 ^ 55 * P) as Hc.
    { transitivity (Zpos p * 2 ^ (g + 1074)); [apply Z.mul_le_mono_nonneg_r; [apply Z.pow_nonneg; lia|done]|]. rewrite <- Ev.
      transitivity (2 ^ 53 * (P * 2)); [|lia]. apply Z.mul_le_mono_nonneg; [lia|lia|destruct Hk as [->| ->]; lia|destruct Hk as [->| ->]; cbn; lia]. }
    subst P. rewrite <- !Z.pow_add_r in Hc by lia. apply Z.pow_le_mono_r_iff in Hc; lia. }
  rewrite (proj2 (Z.leb_le _ _) Hgl). exists p, g. split; [done|]. split; [apply bounded_spec; split_and!; (done || lia)|]. rewrite <- Ev.
  destruct Hk as [Ek|Ek]; rewrite Ek in *; change (2 ^ 0) with 1 in *; change (2 ^ 1) with 2 in *; nia.
Qed.

(** A normal number of moderate size. *)
Lemma normal_form x : finite x -> 2 ^ 900 <= value x <= 2 ^ 1200 -> exists m e,
  x = S754_finite false m e /\ 2 ^ 52 <= Zpos m < 2 ^ 53 /\ -300 <= e <= 300 /\ value x = Zpos m * 2 ^ (e + 1074).
Proof.
  intros [Hd Hf] Hv. assert (0 < 2 ^ 900) by (by vm_compute). destruct x as [s| | |s m e]; try done; [cbn in Hv; lia|].
  apply bounded_spec in Hd as (He & Hm & Hn). pose proof (Z.pow_pos_nonneg 2 (e + 1074) ltac:(lia) ltac:(lia)) as Hp.
  destruct s; [cbn [value cond_Zopp] in Hv; nia|]. cbn [value cond_Zopp] in *. exists m, e. split; [done|].
  assert (e + 1074 <= 1200) as Hu by (apply (Z.pow_le_mono_r_iff 2); [lia|lia|nia]).
  assert (900 < 53 + (e + 1074)) as Hl.
  { apply (Z.pow_lt_mono_r_iff 2); [lia|lia|]. rewrite Z.pow_add_r by lia. eapply Z.le_lt_trans; [apply Hv|]. by apply Z.mul_lt_mono_pos_r. }
  split_and!; try lia.
Qed.

(** A quotient of such numbers is off by one part in 2^51 at most. *)
Lemma div_close x y : finite x -> finite y -> 2 ^ 900 <= value x <= 2 ^ 1200 -> 2 ^ 900 <= value y <= 2 ^ 1200 ->
  finite (double_div x y) /\ 0 < value (double_div x y) /\ Z.abs (value (double_div x y) * value y - value x * 2 ^ 1074) * 2 ^ 51 <= value x * 2 ^ 1074.
Proof.
  intros Hx Hy Vx Vy. destruct (normal_form x Hx Vx) as (m1 & e1 & -> & Hm1 & He1 & ->). destruct (normal_form y Hy Vy) as (m2 & e2 & -> & Hm2 & He2 & ->). clear Hx Hy Vx Vy.
  unfold double_div, SFdiv, SFdiv_core_binary. cbn [Zdigits2 xorb].
  assert (forall m, 2 ^ 52 <= Zpos m < 2 ^ 53 -> Zpos (digits2_pos m) = 53) as Hdig.
  { intros m Hm. rewrite digits2_log. assert (Z.log2 (Zpos m) = 52) as ->; [|done]. apply Z.log2_unique; lia. }
  rewrite (Hdig m1), (Hdig m2), fexp_64 by done. replace (Z.min _ (e1 - e2)) with (e1 - e2 - 53) by lia. replace (e1 - e2 - (e1 - e2 - 53)) with 53 by lia.
  rewrite Z.shiftl_mul_pow2 by lia. unfold Z.div, Z.modulo. pose proof (Z.div_mod (Zpos m1 * 2 ^ 53) (Zpos m2) ltac:(lia)) as Hdm.
  pose proof (Z.mod_pos_bound (Zpos m1 * 2 ^ 53) (Zpos m2) ltac:(lia)) as Hmb. unfold Z.div, Z.modulo in Hdm, Hmb.
  destruct (Z.div_eucl (Zpos m1 * 2 ^ 53) (Zpos m2)) as [q r].
  assert (2 ^ 52 <= q < 2 ^ 54) as Hq by nia.
  destruct (round_aux_close false q (e1 - e2 - 53) (new_location (Zpos m2) r)) as (p & g & -> & Hb & Hbounds); [done|lia|].
  assert (-1074 <= g) as Hg by (apply bounded_spec in Hb; lia).
  pose proof (Z.pow_pos_nonneg 2 (g + 1074) ltac:(lia) ltac:(lia)). cbn [value cond_Zopp]. split; [by split|]. split; [lia|].
  replace (e1 - e2 - 53 + 1074) with (e1 - e2 + 1021) in Hbounds by lia. set (V := Zpos p * 2 ^ (g + 1074)) in *. clearbody V.
  set (A := 2 ^ (e1 - e2 + 1021)) in *. set (B := 2 ^ (e2 + 1074)). assert (0 < A) by (apply Z.pow_pos_nonneg; lia). assert (0 < B) by (apply Z.pow_pos_nonneg; lia).
  assert (2 ^ (e1 + 1074) * 2 ^ 1074 = 2 ^ 53 * (A * B)) as E.
  { subst A B. rewrite <- !Z.pow_add_r by lia. f_equal. lia. }
  replace (Zpos m1 * 2 ^ (e1 + 1074) * 2 ^ 1074) with (Zpos m1 * 2 ^ 53 * (A * B)) by (rewrite <- (Z.mul_assoc _ (2 ^ (e1 + 1074)) (2 ^ 1074)), E; lia).
  assert (0 < A * B) as HAB by nia. rewrite (Z.mul_assoc V). clear E Hb. clearbody A B.
  assert (V * Zpos m2 * B <= (Zpos m1 * 2 ^ 53 + 2 * Zpos m2) * (A * B)) as Hup.
  { transitivity ((q + 2) * A * Zpos m2 * B); [apply Z.mul_le_mono_nonneg_r; [lia|]; apply Z.mul_le_mono_nonneg_r; lia|].
    replace ((q + 2) * A * Zpos m2 * B) with ((q * Zpos m2 + 2 * Zpos m2) * (A * B)) by lia. apply Z.mul_le_mono_nonneg_r; lia. }
  assert ((Zpos m1 * 2 ^ 53 - 2 * Zpos m2) * (A * B) <= V * Zpos m2 * B) as Hdn.
  { transitivity ((q - 1) * A * Zpos m2 * B); [|apply Z.mul_le_mono_nonneg_r; [lia|]; apply Z.mul_le_mono_nonneg_r; lia].
    replace ((q - 1) * A * Zpos m2 * B) with ((q * Zpos m2 - Zpos m2) * (A * B)) by lia. apply Z.mul_le_mono_nonneg_r; lia. }
  set (C := A * B) in *. clearbody C. set (W := V * Zpos m2 * B) in *. clearbody W.
  assert (Z.abs (W - Zpos m1 * 2 ^ 53 * C) <= 2 * Zpos m2 * C) as Habs by lia.
  assert (2 * Zpos m2 * C * 2 ^ 51 <= Zpos m1 * 2 ^ 53 * C) by nia. lia.
Qed.

(** A number close to an integer is rounded to it. *)
Lemma round_close x n : finite x -> 0 < n < 2 ^ 53 -> 2 * Z.abs (value x - n * 2 ^ 1074) < 2 ^ 1074 ->
  finite (double_round x) /\ value (double_round x) = n * 2 ^ 1074.
Proof.
  intros [Hd Hf] Hn Hc. assert (0 < 2 ^ 1074) as HU by (by vm_compute). destruct x as [s| | |s m e]; try done; [cbn [value] in Hc; nia|].
  assert (-1074 <= e) as He by (apply bounded_spec in Hd; lia). assert (s = false) as ->.
  { destruct s; [|done]. cbn [value cond_Zopp] in Hc. pose proof (Z.pow_pos_nonneg 2 (e + 1074) ltac:(lia) ltac:(lia)). nia. }
  cbn [value cond_Zopp double_round] in *. destruct (Z.leb_spec 0 e) as [He0|He0].
  - split; [by split|]. cbn [value cond_Zopp]. rewrite (Z.pow_add_r 2 e 1074) in * by lia. rewrite Z.mul_assoc in *. remember (2 ^ 1074) as U.
    assert (Zpos m * 2 ^ e - n = 0) by nia. nia.
  - assert (2 ^ 1074 = 2 ^ (e + 1074) * (2 * 2 ^ (- e - 1))) as EU.
    { rewrite <- (Z.pow_succ_r 2 (- e - 1)), <- Z.pow_add_r by lia. f_equal. lia. }
    assert (2 ^ (- e) = 2 * 2 ^ (- e - 1)) as EH by (rewrite <- (Z.pow_succ_r 2 (- e - 1)) by lia; f_equal; lia).
    pose proof (Z.pow_pos_nonneg 2 (- e - 1) ltac:(lia) ltac:(lia)) as HH. pose proof (Z.pow_pos_nonneg 2 (e + 1074) ltac:(lia) ltac:(lia)) as HE.
    rewrite EU in Hc. rewrite EH. remember (2 ^ (- e - 1)) as H. remember (2 ^ (e + 1074)) as E.
    assert (Z.abs (Zpos m - n * (2 * H)) < H) as Hm.
    { replace (Zpos m * E - n * (E * (2 * H))) with (E * (Zpos m - n * (2 * H))) in Hc by lia. rewrite Z.abs_mul, (Z.abs_eq E) in Hc by lia. nia. }
    assert ((Zpos m + H) / (2 * H) = n) as -> by (symmetry; apply Z.div_unique with (Zpos m + H - n * (2 * H)); lia).
    destruct n as [|p|p]; [lia| |lia]. apply (int_value (Zpos p)). lia.
Qed.

(** A product that is a multiple of the unit is rounded to nearest. *)
Lemma mul_value x y w : finite x -> finite y -> 2 ^ 900 <= value x <= 2 ^ 1200 -> 2 ^ 900 <= value y <= 2 ^ 1200 ->
  value x * value y = w * 2 ^ 1074 -> 0 < w -> rnd w < too_large -> finite (double_mul x y) /\ value (double_mul x y) = rnd w.
Proof.
  intros Hx Hy Vx Vy Hw Hpos Hs. destruct (normal_form x Hx Vx) as (m1 & e1 & -> & Hm1 & He1 & E1). destruct (normal_form y Hy Vy) as (m2 & e2 & -> & Hm2 & He2 & E2).
  rewrite E1, E2 in Hw. clear Hx Hy Vx Vy E1 E2. unfold double_mul, SFmul. cbn [xorb].
  assert (Zpos (m1 * m2) * 2 ^ (e1 + e2 + 1074) = w) as Ew.
  { apply (Z.mul_cancel_r _ _ (2 ^ 1074)); [by vm_compute|]. rewrite <- Hw, Pos2Z.inj_mul. replace (e1 + e2 + 1074) with (e1 + 1074 + e2) by lia.
    assert (2 ^ (e1 + 1074 + e2) * 2 ^ 1074 = 2 ^ (e1 + 1074) * 2 ^ (e2 + 1074)) as Ep by (rewrite <- !Z.pow_add_r by lia; f_equal; lia).
    rewrite <- Z.mul_assoc, Ep. lia. }
  destruct (round_aux_spec false (m1 * m2) (e1 + e2)) as (x & Hx & Hd & Hv); [lia| |].
  { rewrite fexp_64, digits2_log. assert (104 <= Z.log2 (Zpos (m1 * m2))); [|lia]. apply Z.log2_le_pow2; [lia|].
    rewrite Pos2Z.inj_mul. change (2 ^ 104) with (2 ^ 52 * 2 ^ 52). apply Z.mul_le_mono_nonneg; lia. }
  rewrite Ew in Hv. rewrite rnd_nonneg in * by lia. rewrite (proj2 (Z.ltb_lt _ _) Hs) in Hv. change (Zpos m1 * Zpos m2) with (Zpos (m1 * m2)).
  rewrite Hx. destruct Hv as [Hf Hv]. by split; [split|].
Qed.

(** Rounding is off by one part in 2^53 at most. *)
Lemma rnd_close z : 0 <= z -> Z.abs (rnd z - z) * 2 ^ 53 <= z.
Proof.
  intros Hz. rewrite rnd_nonneg by done. destruct (Z.eq_dec z 0) as [->|Hn]; [done|]. unfold rnd_abs.
  pose proof (nearest_bounds z (spare z) (spare_nonneg z)) as [H1 H2]. destruct (spare_cases z) as [E|[E Hs]].
  - rewrite E, nearest_0. change (2 ^ 0) with 1. lia.
  - pose proof (log2_bounds z ltac:(lia)) as [Hl _]. replace (Z.log2 z) with (spare z + 52) in Hl by lia. rewrite Z.pow_add_r in Hl by lia. lia.
Qed.

(** ** Products with whole numbers *)

(** Low zero bits of the mantissa do not matter. *)
Lemma round_aux_shift s m k e : 0 <= k -> e + k <= fexp 53 1024 (Zdigits2 (Zpos m) + (e + k)) ->
  binary_round_aux 53 1024 s (Zpos m * 2 ^ k) e loc_Exact = binary_round_aux 53 1024 s (Zpos m) (e + k) loc_Exact.
Proof.
  intros Hk Hf. pose proof (Z.pow_pos_nonneg 2 k ltac:(lia) Hk) as Hp.
  assert (Zdigits2 (Zpos m * 2 ^ k) = Zdigits2 (Zpos m) + k) as Ed.
  { destruct (Zpos m * 2 ^ k) as [|p|p] eqn:E; [lia| |lia]. cbn [Zdigits2]. rewrite !digits2_log, <- E, Z.log2_mul_pow2 by lia. lia. }
  unfold binary_round_aux. rewrite (shr_fexp_spec (Zpos m * 2 ^ k) e), (shr_fexp_spec (Zpos m) (e + k)) by (rewrite ?Ed; replace (Zdigits2 (Zpos m) + k + e) with (Zdigits2 (Zpos m) + (e + k)) by lia; lia).
  rewrite Ed. replace (Zdigits2 (Zpos m) + k + e) with (Zdigits2 (Zpos m) + (e + k)) by lia. set (f := fexp 53 1024 _) in *.
  rewrite !shifted_nearest, !Z2Nat.id by lia. replace (f - e) with (f - (e + k) + k) by lia. rewrite nearest_shift by lia.
  by replace (e + (f - (e + k) + k)) with (e + k + (f - (e + k))) by lia.
Qed.

(** The product of a double that is not negative and a whole number is rounded to nearest. *)
Lemma mul_int_value x y n : finite x -> 0 <= value x -> finite y -> value y = n * 2 ^ 1074 -> 0 < n -> rounds_to (value x * n) (double_mul x y).
Proof.
  intros [Dx Fx] Hx [Dy Fy] Hy Hn. assert (0 < 2 ^ 1074) as HU by (by vm_compute).
  destruct y as [sy| | |sy my ey]; try done; [cbn [value] in Hy; nia|].
  pose proof Dy as Dy'. apply bounded_spec in Dy' as (Hey & _). pose proof (Z.pow_pos_nonneg 2 (ey + 1074) ltac:(lia) ltac:(lia)) as Hpy.
  assert (sy = false) as -> by (destruct sy; [cbn [value cond_Zopp] in Hy; nia|done]). cbn [value cond_Zopp] in Hy.
  destruct x as [sx| | |sx mx ex]; try done.
  pose proof Dx as Dx'. apply bounded_spec in Dx' as (Hex & _). pose proof (Z.pow_pos_nonneg 2 (ex + 1074) ltac:(lia) ltac:(lia)) as Hpx.
  assert (sx = false) as -> by (destruct sx; [cbn [value cond_Zopp] in Hx; nia|done]). cbn [value cond_Zopp] in *. unfold double_mul. cbn [SFmul xorb].
  pose proof (mul_bits mx ex my ey Dx Dy) as Hb. change (Zpos mx * Zpos my) with (Zpos (mx * my)) in Hb.
  set (w := Zpos mx * 2 ^ (ex + 1074) * n). assert (0 < w) as Hw by (subst w; apply Z.mul_pos_pos; lia).
  assert (w * 2 ^ 1074 = Zpos (mx * my) * (2 ^ (ex + 1074) * 2 ^ (ey + 1074))) as Ew.
  { subst w. rewrite <- (Z.mul_assoc _ n), <- Hy, Pos2Z.inj_mul. lia. }
  rewrite <- Z.pow_add_r in Ew by lia.
  assert (forall e m, -1074 <= e -> e <= fexp 53 1024 (Zpos (digits2_pos m) + e) -> Zpos m * 2 ^ (e + 1074) = w ->
    rounds_to w (binary_round_aux 53 1024 false (Zpos m) e loc_Exact)) as Hgo.
  { intros e m He Hfe Em. destruct (round_aux_spec false m e He Hfe) as (z & -> & Dz & Hz). rewrite Em in Hz. split; [done|].
    rewrite rnd_nonneg by lia. rewrite Z.abs_eq by (apply rnd_abs_nonneg; lia). cbn [cond_Zopp] in Hz. by rewrite (proj2 (Z.ltb_ge w 0)) by lia. }
  destruct (Z.le_gt_cases (-1074) (ex + ey)) as [He|He].
  - apply Hgo; [done|exact Hb|]. replace (ex + 1074 + (ey + 1074)) with (ex + ey + 1074 + 1074) in Ew by lia. rewrite (Z.pow_add_r 2 (ex + ey + 1074) 1074), Z.mul_assoc in Ew by lia.
    symmetry. by apply Z.mul_reg_r in Ew; [|lia].
  - set (k := -1074 - (ex + ey)). assert (Zpos (mx * my) = w * 2 ^ k) as Em.
    { replace 1074 with (k + (ex + 1074 + (ey + 1074))) in Ew at 1 by lia. rewrite Z.pow_add_r, Z.mul_assoc in Ew by lia. symmetry. apply Z.mul_reg_r in Ew; [done|]. apply Z.pow_nonzero; lia. }
    destruct w as [|wp|wp] eqn:Ewp; [lia| |lia]. change (Zpos mx * Zpos my) with (Zpos (mx * my)). rewrite Em. replace (ex + ey) with (-1074 - k) by lia.
    rewrite round_aux_shift by (rewrite ?fexp_64; lia). replace (-1074 - k + k) with (-1074) by lia. apply Hgo; [lia|rewrite fexp_64; lia|].
    change (-1074 + 1074) with 0. lia.
Qed.

(** ** Conversion to integers *)

(** [static_cast<uint64_t>] of a double that is not negative; [None] when it is out of range. *)
Definition uint64_of_double (d : double) : option Z :=
  match d with
  | S754_zero _ => Some 0
  | S754_finite false m e =>
    let n := if 0 <=? e then Zpos m * 2 ^ e else Zpos m / 2 ^ (- e) in
    if n <? 2 ^ 64 then Some n else None
  | _ => None
  end.

(** It truncates. *)
Lemma uint64_value x : finite x -> 0 <= value x -> value x < 2 ^ 64 * 2 ^ 1074 -> uint64_of_double x = Some (value x / 2 ^ 1074).
Proof.
  intros [Dx Fx] H0 Hx. assert (0 < 2 ^ 1074) as HU by (by vm_compute). destruct x as [s| | |s m e]; try done.
  apply bounded_spec in Dx as (He & _). pose proof (Z.pow_pos_nonneg 2 (e + 1074) ltac:(lia) ltac:(lia)) as Hp.
  assert (s = false) as -> by (destruct s; [cbn [value cond_Zopp] in H0; nia|done]). cbn [value cond_Zopp uint64_of_double] in *.
  assert ((if 0 <=? e then Zpos m * 2 ^ e else Zpos m / 2 ^ (- e)) = Zpos m * 2 ^ (e + 1074) / 2 ^ 1074) as ->.
  { destruct (Z.leb_spec 0 e) as [Hp0|Hn].
    - by rewrite Z.pow_add_r, Z.mul_assoc, Z.div_mul by lia.
    - replace (2 ^ 1074) with (2 ^ (- e) * 2 ^ (e + 1074)) by (rewrite <- Z.pow_add_r by lia; f_equal; lia).
      rewrite Z.div_mul_cancel_r; [done|apply Z.pow_nonzero; lia|lia]. }
  rewrite (proj2 (Z.ltb_lt _ _)); [done|]. apply Z.div_lt_upper_bound; lia.
Qed.
