(* ===== verification/FixDouble.v ===== *)
(** * Doubles as decimal text

    [format_double] of src/eph-fix/include/eph/fix/builder.hpp: a double as sign, integer part and
    a fixed number of digits behind the point, computed in double arithmetic.
    [format_double_spec]: the text is the decimal of the value, rounded to that number of digits. *)
From S2P Require Import Prelude FixText Double.
Local Open Scope Z_scope.

Definition one_half : double := S754_finite false 4503599627370496 (-53).

Definition multiplier (precision : nat) : double := Nat.iter precision (fun m => double_mul m (double_of_int 10)) (double_of_int 1).

Definition format_double (val : double) (precision : nat) : option (list byte) :=
  let '(sign, val) := if SFltb val double_zero then ([ch_minus], SFopp val) else ([], val) in
  int_part ← uint64_of_double val;
  int_text ← format_uint int_part;
  if bool_decide (precision = 0%nat) then Some (sign ++ int_text) else
  let frac := double_sub val (double_of_int int_part) in
  frac_int ← uint64_of_double (double_add (double_mul frac (multiplier precision)) one_half);
  frac_limit ← uint64_of_double (multiplier precision);
  '(int_text, frac_int) ←
    (if frac_limit <=? frac_int then t ← format_uint (u64 (int_part + 1)); Some (t, 0) else Some (int_text, frac_int));
  frac_buf ← format_uint frac_int;
  Some (sign ++ int_text ++ [ch_dot] ++ replicate (precision - length frac_buf) (digit_char 0) ++ frac_buf).

(** 1e19. *)
Definition kMaxDoubleMagnitude : double := double_of_int (10 ^ 19).

(** ** Decimal texts *)

(** The text of [D] units of the [p]-th digit behind the point: a sign, the integer part as
    [format_uint] writes it, and [p] digits behind a point if [p] is not 0. *)
Definition is_decimal (p : nat) (neg : bool) (D : Z) (text : list byte) : Prop :=
  exists ip fs, format_uint (D / 10 ^ Z.of_nat p) = Some ip /\ digits fs /\ length fs = p /\ dec_val fs = D mod 10 ^ Z.of_nat p /\
    text = (if neg then [ch_minus] else []) ++ ip ++ match p with O => [] | S _ => ch_dot :: fs end.

(** [D] is the magnitude [a] (in units of 2^-1074) in units of the [p]-th digit behind the point:
    truncated for [p = 0], and otherwise rounded to the nearest, up to the errors of the two
    roundings of the computation, of one part in 2^53 each. *)
Definition rounds_decimal (p : nat) (a D : Z) : Prop :=
  match p with
  | O => D = a / 2 ^ 1074
  | S _ => Z.abs (D * 2 ^ 1074 - a * 10 ^ Z.of_nat p) * 2 ^ 54 <= (2 ^ 53 + 4 * 10 ^ Z.of_nat p + 2) * 2 ^ 1074
  end.

Lemma unit_positive : 0 < 2 ^ 1074.
Proof. by vm_compute. Qed.

Lemma half_unit : 2 ^ 1074 = 2 * 2 ^ 1073.
Proof. by vm_compute. Qed.

Lemma one_half_value : finite one_half /\ value one_half = 2 ^ 1073.
Proof. split; [split|]; vm_compute; reflexivity. Qed.

Lemma multiplier_value p : (p <= 15)%nat -> finite (multiplier p) /\ value (multiplier p) = 10 ^ Z.of_nat p * 2 ^ 1074 /\
  uint64_of_double (multiplier p) = Some (10 ^ Z.of_nat p).
Proof. intros H. do 16 (destruct p as [|p]; [split; [split|split]; vm_compute; reflexivity|]). lia. Qed.

Lemma ten_pow_bound p : (p <= 15)%nat -> 1 <= 10 ^ Z.of_nat p <= 10 ^ 15.
Proof.
  intros H. split; [change 1 with (10 ^ 0)|]; apply Z.pow_le_mono_r; lia.
Qed.

(** The integer part of a double is a double, and so is the rest. *)
Lemma int_part_exact x : finite x -> 0 <= value x < 10 ^ 19 * 2 ^ 1074 ->
  let d := double_of_int (value x / 2 ^ 1074) in let frac := double_sub x d in
  finite d /\ value d = value x / 2 ^ 1074 * 2 ^ 1074 /\ finite frac /\ value frac = value x mod 2 ^ 1074.
Proof.
  intros Hx Hv. cbv zeta. pose proof unit_positive as HU. destruct (finite_form x Hx) as (q & j & Eq & Hj & Hq).
  pose proof (Z.pow_pos_nonneg 2 j ltac:(lia) ltac:(lia)) as Hp. assert (10 ^ 19 * 2 ^ 1074 < too_large) as Htl by (by vm_compute).
  pose proof (Z.div_mod (value x) (2 ^ 1074) ltac:(lia)) as Edm. pose proof (Z.mod_pos_bound (value x) (2 ^ 1074) HU) as Hm.
  pose proof (Z.div_pos (value x) (2 ^ 1074) ltac:(lia) HU) as Hd0.
  assert (rnd (value x / 2 ^ 1074 * 2 ^ 1074) = value x / 2 ^ 1074 * 2 ^ 1074 /\ rnd (value x mod 2 ^ 1074) = value x mod 2 ^ 1074) as [E1 E2].
  { destruct (Z.le_gt_cases 1074 j) as [Hge|Hlt].
    - assert (value x mod 2 ^ 1074 = 0) as E0.
      { rewrite Eq. replace j with (j - 1074 + 1074) by lia. rewrite Z.pow_add_r, Z.mul_assoc by lia. apply Z.mod_mul. lia. }
      rewrite E0 in *. split; [|apply rnd_0]. replace (value x / 2 ^ 1074 * 2 ^ 1074) with (value x) by lia. apply (rnd_value x Hx).
    - assert (0 <= q) as Hq0 by nia. assert (2 ^ 1074 = 2 ^ (1074 - j) * 2 ^ j) as EU by (rewrite <- Z.pow_add_r by lia; f_equal; lia).
      pose proof (Z.pow_pos_nonneg 2 (1074 - j) ltac:(lia) ltac:(lia)) as Hk.
      assert (value x / 2 ^ 1074 = q / 2 ^ (1074 - j)) as Ed by (rewrite Eq, EU; apply Z.div_mul_cancel_r; lia).
      assert (0 <= q / 2 ^ (1074 - j) <= q) as Hdq by (split; [by apply Z.div_pos|apply Z.div_le_upper_bound; nia]).
      split; [rewrite Ed; apply rnd_exact; lia|].
      assert (value x mod 2 ^ 1074 = q mod 2 ^ (1074 - j) * 2 ^ j) as -> by (rewrite Eq, EU; apply Z.mul_mod_distr_r; lia).
      apply rnd_exact; [lia|]. pose proof (Z.mod_pos_bound q (2 ^ (1074 - j)) Hk). pose proof (Z.mod_le q (2 ^ (1074 - j)) Hq0 Hk). lia. }
  assert (rounds_to (value x / 2 ^ 1074 * 2 ^ 1074) (double_of_int (value x / 2 ^ 1074))) as R1 by (apply (normalize_rounds _ 0); lia).
  apply rounds_finite in R1 as [F1 V1]; [|rewrite E1; lia]. rewrite E1 in V1. split; [done|]. split; [done|].
  pose proof (sub_value x _ Hx F1) as R2. rewrite V1 in R2. replace (value x - value x / 2 ^ 1074 * 2 ^ 1074) with (value x mod 2 ^ 1074) in R2 by lia.
  apply rounds_finite in R2 as [F2 V2]; [|rewrite E2; lia]. split; [done|congruence].
Qed.

(** The errors of the scaled and rounded fraction. *)
Lemma frac_error U H M v r1 r2 : U = 2 * H -> 0 < H -> 1 <= M -> 0 <= v < U ->
  Z.abs (r1 - v * M) * 2 ^ 53 <= v * M -> 0 <= r1 <= M * U -> Z.abs (r2 - (r1 + H)) * 2 ^ 53 <= r1 + H -> 0 <= r2 <= (2 * M + 1) * H ->
  0 <= r2 / U <= M /\ Z.abs (r2 / U * U - v * M) * 2 ^ 54 <= (2 ^ 53 + 4 * M + 2) * U.
Proof.
  intros EU HH HM Hv C1 B1 C2 B2. assert (v * M <= M * U) as Hz by nia. pose proof (Z.div_mod r2 U ltac:(lia)) as Ed. pose proof (Z.mod_pos_bound r2 U ltac:(lia)) as Hm.
  split; [split; [apply Z.div_pos; lia|apply Z.lt_succ_r, Z.div_lt_upper_bound; lia]|].
  rewrite (Z.mul_comm (r2 / U)). set (z := v * M) in *. set (MU := M * U) in *. set (n := U * (r2 / U)) in *.
  assert ((2 ^ 53 + 4 * M + 2) * U = 2 ^ 53 * U + 4 * MU + 2 * U) as -> by (subst MU; ring). lia.
Qed.

(** The scaled and rounded fraction. *)
Lemma frac_rounded p f : (p <= 15)%nat -> finite f -> 0 <= value f < 2 ^ 1074 ->
  exists n, uint64_of_double (double_add (double_mul f (multiplier p)) one_half) = Some n /\ 0 <= n <= 10 ^ Z.of_nat p /\
    Z.abs (n * 2 ^ 1074 - value f * 10 ^ Z.of_nat p) * 2 ^ 54 <= (2 ^ 53 + 4 * 10 ^ Z.of_nat p + 2) * 2 ^ 1074.
Proof.
  intros Hp Hf Hv. destruct (multiplier_value p Hp) as (Fm & Vm & _). pose proof (ten_pow_bound p Hp) as HM. set (M := 10 ^ Z.of_nat p) in *. clearbody M.
  pose proof (mul_int_value f _ M Hf ltac:(lia) Fm Vm ltac:(lia)) as R1. pose proof half_unit as EU.
  assert ((10 ^ 15 + 1) * 2 ^ 1074 < too_large /\ (10 ^ 15 + 1) * 2 ^ 1074 < 2 ^ 64 * 2 ^ 1074) as [Htl H64] by (split; by vm_compute).
  destruct one_half_value as [Fh Vh]. assert (0 < 2 ^ 1073) as HH by (by vm_compute).
  assert (rnd (M * 2 ^ 1074) = M * 2 ^ 1074) as X1 by (apply rnd_exact; lia).
  assert (rnd ((2 * M + 1) * 2 ^ 1073) = (2 * M + 1) * 2 ^ 1073) as X2 by (apply rnd_exact; lia).
  assert (0 <= value f * M <= M * 2 ^ 1074) as Hz1 by nia. assert ((2 * M + 1) * 2 ^ 1073 < (10 ^ 15 + 1) * 2 ^ 1074 /\ M * 2 ^ 1074 < (10 ^ 15 + 1) * 2 ^ 1074) as [B1 B2] by lia.
  pose proof (rnd_mono 0 (value f * M) ltac:(lia)) as L1. rewrite rnd_0 in L1. pose proof (rnd_mono _ _ (proj2 Hz1)) as U1. rewrite X1 in U1. pose proof (rnd_close (value f * M) ltac:(lia)) as C1.
  apply rounds_finite in R1 as [F1 V1]; [|lia]. pose proof (add_value _ _ F1 Fh) as R2. rewrite V1, Vh in R2. set (r1 := rnd (value f * M)) in *.
  pose proof (rnd_mono 0 (r1 + 2 ^ 1073) ltac:(lia)) as L2. rewrite rnd_0 in L2. pose proof (rnd_mono (r1 + 2 ^ 1073) ((2 * M + 1) * 2 ^ 1073) ltac:(lia)) as U2. rewrite X2 in U2.
  pose proof (rnd_close (r1 + 2 ^ 1073) ltac:(lia)) as C2. apply rounds_finite in R2 as [F2 V2]; [|lia]. set (r2 := rnd (r1 + 2 ^ 1073)) in *.
  exists (r2 / 2 ^ 1074). split; [rewrite <- V2; apply uint64_value; [done|lia|lia]|]. apply (frac_error _ (2 ^ 1073) M (value f) r1 r2); [exact EU|exact HH|lia|exact Hv|exact C1|split; [exact L1|exact U1]|exact C2|split; [exact L2|exact U2]].
Qed.

Lemma dec_val_zeros n ds : dec_val (replicate n (digit_char 0) ++ ds) = dec_val ds.
Proof. induction n as [|n IH]; [done|]. cbn [replicate app]. by rewrite dec_val_zero. Qed.

Lemma digits_zeros n : digits (replicate n (digit_char 0)).
Proof. induction n; [constructor|]. constructor; [by vm_compute|done]. Qed.

Lemma ten_bracket p n : 0 < n < 10 ^ Z.of_nat p -> exists k, 0 <= k < Z.of_nat p /\ 10 ^ k <= n < 10 ^ (k + 1).
Proof.
  induction p as [|p IH]; intros Hn; [cbn in Hn; lia|]. destruct (Z.lt_ge_cases n (10 ^ Z.of_nat p)) as [Hlt|Hge].
  - destruct IH as (k & Hk & Hb); [lia|]. exists k. lia.
  - exists (Z.of_nat p). split; [lia|]. replace (Z.of_nat p + 1) with (Z.of_nat (S p)) by lia. lia.
Qed.

(** A number below [10 ^ p], padded to [p] digits. *)
Lemma padded_digits p n ds : (1 <= p <= 15)%nat -> 0 <= n < 10 ^ Z.of_nat p -> format_uint n = Some ds ->
  let fs := replicate (p - length ds) (digit_char 0) ++ ds in digits fs /\ length fs = p /\ dec_val fs = n.
Proof.
  intros Hp Hn E. pose proof (ten_pow_bound p ltac:(lia)). destruct (format_uint_spec n ltac:(lia)) as (ds' & E' & Hd & Hv & Hl). rewrite E in E'. injection E' as <-.
  assert (length ds <= p)%nat as Hlen.
  { destruct (Z.eq_dec n 0) as [->|Hne]; [vm_compute in E; injection E as <-; cbn; lia|].
    destruct (ten_bracket p n ltac:(lia)) as (k & Hk & Hb).
    destruct (format_uint_len n k Hb ltac:(lia)) as (ds' & E' & Hz). rewrite E in E'. injection E' as <-. unfold zlen in Hz. lia. }
  split; [apply Forall_app; split; [apply digits_zeros|done]|]. split; [rewrite length_app, length_replicate; lia|]. by rewrite dec_val_zeros.
Qed.

Lemma opp_value x : finite x -> finite (SFopp x) /\ value (SFopp x) = - value x.
Proof.
  intros [Dx Fx]. split; [split; [by apply opp_double|by destruct x]|]. destruct x as [| | |[] m e]; try done; cbn [SFopp negb value cond_Zopp]; lia.
Qed.

(** What [format_double] writes: the decimal of the rounded value, within the 40 bytes of the
    buffer of its caller. *)
Lemma format_double_spec x p : finite x -> Z.abs (value x) < 10 ^ 19 * 2 ^ 1074 -> (p <= 15)%nat ->
  exists D text, format_double x p = Some text /\ 0 <= D < 2 ^ 64 * 10 ^ Z.of_nat p /\ is_decimal p (value x <? 0) D text /\ rounds_decimal p (Z.abs (value x)) D /\ zlen text <= 40.
Proof.
  intros Hx Hv Hp. pose proof unit_positive as HU. unfold format_double. rewrite (ltb_value x double_zero) by done. change (value double_zero) with 0.
  assert (exists y, (if value x <? 0 then ([ch_minus], SFopp x) else ([], x)) = (if value x <? 0 then [ch_minus] else [], y) /\ finite y /\ value y = Z.abs (value x)) as (y & -> & Fy & Ey).
  { destruct (Z.ltb_spec (value x) 0); [exists (SFopp x)|exists x]; (split; [done|]); [destruct (opp_value x Hx) as [? ->]|]; (split; [done|lia]). }
  set (sign := if value x <? 0 then _ else _). assert (zlen sign <= 1) as Hsign by (subst sign; by destruct (value x <? 0)).
  assert (0 <= value y < 10 ^ 19 * 2 ^ 1074) as Hy by lia. rewrite <- Ey. clear Hv Ey.
  assert (0 <= value y / 2 ^ 1074 < 10 ^ 19) as HI by (split; [apply Z.div_pos; lia|apply Z.div_lt_upper_bound; lia]).
  rewrite (uint64_value y) by (done || lia). cbn [mbind option_bind]. destruct (int_part_exact y Fy Hy) as (_ & _ & Ff & Vf).
  set (I := value y / 2 ^ 1074) in *. destruct (format_uint_spec I ltac:(lia)) as (ip & Eip & _ & _ & Hip). rewrite Eip. cbn [mbind option_bind].
  case_bool_decide as E0.
  { subst p. exists I, (sign ++ ip). split; [done|]. split; [cbn; lia|]. split; [|split; [done|rewrite zlen_app; lia]].
    exists ip, []. change (10 ^ Z.of_nat 0) with 1. rewrite Z.div_1_r, Z.mod_1_r. split_and!; [done|constructor|done|done|]. by rewrite app_nil_r. }
  destruct (frac_rounded p _ Hp Ff) as (n & -> & Hn & Hc); [rewrite Vf; apply Z.mod_pos_bound; lia|]. cbn [mbind option_bind]. rewrite Vf in Hc. clear Ff Vf.
  destruct (multiplier_value p Hp) as (_ & _ & ->). cbn [mbind option_bind]. pose proof (ten_pow_bound p Hp) as HM. set (M := 10 ^ Z.of_nat p) in *.
  pose proof (Z.div_mod (value y) (2 ^ 1074) ltac:(lia)) as Edm. fold I in Edm. exists (I * M + n).
  assert (rounds_decimal p (value y) (I * M + n)) as Hr.
  { unfold rounds_decimal. destruct p as [|p]; [done|]. fold M. by replace ((I * M + n) * 2 ^ 1074 - value y * M) with (n * 2 ^ 1074 - value y mod 2 ^ 1074 * M) by (rewrite Edm at 2; ring). }
  assert (forall I' n' it, I * M + n = I' * M + n' -> 0 <= n' < M -> 0 <= I' < 2 ^ 64 -> format_uint I' = Some it -> exists text,
    (fb ← format_uint n'; Some (sign ++ it ++ [ch_dot] ++ replicate (p - length fb) (digit_char 0) ++ fb)) = Some text /\
    0 <= I * M + n < 2 ^ 64 * M /\ is_decimal p (value x <? 0) (I * M + n) text /\ rounds_decimal p (value y) (I * M + n) /\ zlen text <= 40) as Hgo.
  { intros I' n' it ED Hn' HI' Eit. destruct (format_uint_spec n' ltac:(lia)) as (fb & Efb & _). rewrite Efb. cbn [mbind option_bind]. eexists. split; [done|].
    destruct (padded_digits p n' fb ltac:(lia) Hn' Efb) as (Hfd & Hfl & Hfv). destruct (format_uint_spec I' HI') as (it' & Eit' & _ & _ & Hit). rewrite Eit in Eit'. injection Eit' as <-.
    split; [nia|]. split; [|split; [done|rewrite !zlen_app; change (zlen [ch_dot]) with 1; rewrite <- zlen_app; unfold zlen at 3; lia]].
    eexists it, _. fold M. rewrite ED, Z.div_add_l, Z.div_small, Z.add_0_r by lia. split; [done|]. split; [exact Hfd|]. split; [exact Hfl|].
    split; [rewrite Hfv, Z.add_comm, Z.mod_add by lia; by rewrite Z.mod_small|]. by destruct p. }
  destruct (Z.leb_spec M n) as [Hcarry|Hno].
  - rewrite wrap_small by lia. destruct (format_uint_spec (I + 1) ltac:(lia)) as (it & Eit & _). rewrite Eit. cbn [mbind option_bind]. apply (Hgo (I + 1) 0 it); try done; lia.
  - cbn [mbind option_bind]. apply (Hgo I n ip); try done; lia.
Qed.
