(* ===== verification/FixBuilder.v ===== *)
(** The message builder of src/eph-fix/include/eph/fix/builder.hpp: it writes fields
    behind 32 reserved bytes of a caller's buffer, and [finish] puts the header in
    front, the checksum behind, and moves the message to the start.

    Outer [None] is a store outside the buffer.  Sums of sizes are exact: an object
    is smaller than [2 ^ 63] bytes, so they do not wrap.  The logging is left out. *)
From S2P Require Import Prelude Double FixText FixTime Framers Fix FixDouble.
Local Open Scope Z_scope.
Local Arguments raw_bytes : simpl never.
Local Arguments header : simpl never.
Local Arguments trailer : simpl never.

Definition kHeaderReserve : Z := 32.
Definition kTrailerLen : Z := 7.
Definition kMaxBeginString : Z := 32.

(** [buf_] is [None] for a null pointer; the region has [capacity_] bytes if the
    caller keeps his side of the contract. *)
Record builder := mkBuilder {
  buf_ : option (list byte);
  capacity_ : Z;
  body_start_ : Z;
  pos_ : Z;
  btotal_len_ : Z;
  field_count_ : Z;
  overflow_ : bool;
  finished_ : bool;
}.

Definition set_overflow (b : builder) : builder :=
  mkBuilder (buf_ b) (capacity_ b) (body_start_ b) (pos_ b) (btotal_len_ b) (field_count_ b) true (finished_ b).
Definition set_buf (b : builder) (m : list byte) : builder :=
  mkBuilder (Some m) (capacity_ b) (body_start_ b) (pos_ b) (btotal_len_ b) (field_count_ b) (overflow_ b) (finished_ b).

(** The constructor. *)
Definition new_builder (buf : option (list byte)) (capacity : Z) : builder :=
  match buf with
  | None => mkBuilder None capacity 0 0 0 0 true false
  | Some _ =>
      if capacity <? kHeaderReserve then mkBuilder buf capacity 0 0 0 0 true false
      else mkBuilder buf capacity kHeaderReserve kHeaderReserve 0 0 false false
  end.

Definition reset (b : builder) : builder :=
  mkBuilder (buf_ b) (capacity_ b) kHeaderReserve kHeaderReserve 0 0 false false.

(** A store of [bs] at [off]; nothing is touched for no bytes. *)
Definition store (b : builder) (off : Z) (bs : list byte) : option builder :=
  match bs with
  | [] => Some b
  | _ => m ← buf_ b; m ← wr m off bs; Some (set_buf b m)
  end.

(** [write_uint]: the digits, stored at [offset] if they fit. *)
Definition write_uint (b : builder) (val offset : Z) : option (list byte * builder) :=
  ds ← format_uint val;
  if offset + zlen ds <=? capacity_ b then b ← store b offset ds; Some (ds, b) else Some (ds, b).

Definition set_trusted (t : Z) (value : list byte) (b : builder) : option builder :=
  if overflow_ b then Some b else
  if finished_ b then Some b else
  if capacity_ b <? zlen value then Some (set_overflow b) else
  '(ds, b) ← write_uint b t (pos_ b);
  let needed := zlen ds + 1 + zlen value + 1 in
  if capacity_ b <? pos_ b + needed then Some (set_overflow b) else
  let pos := pos_ b + zlen ds in
  b ← store b pos [ch_eq];
  b ← store b (pos + 1) value;
  b ← store b (pos + 1 + zlen value) [SOH];
  Some (mkBuilder (buf_ b) (capacity_ b) (body_start_ b) (pos + 1 + zlen value + 1) (btotal_len_ b)
          (field_count_ b + 1) (overflow_ b) (finished_ b)).

(** ** The setters *)

Definition has_soh (v : list byte) : bool := existsb (fun c => bool_decide (c = SOH)) v.

Definition set (t : Z) (value : list byte) (b : builder) : option builder :=
  if overflow_ b then Some b else
  if has_soh value then Some (set_overflow b) else set_trusted t value b.

(** [None] is a null pointer. *)
Definition set_raw (t : Z) (data : option (list byte)) (b : builder) : option builder :=
  match data with
  | None => set_trusted t [] b
  | Some data =>
      if zlen data =? 0 then set_trusted t [] b else
      if has_soh data then Some (set_overflow b) else set_trusted t data b
  end.

Definition set_int (t value : Z) (b : builder) : option builder :=
  ds ← format_int value; set_trusted t ds b.

Definition set_bool (t : Z) (value : bool) (b : builder) : option builder :=
  set_trusted t [if value then x59 else x4e] b.

Definition set_char (t : Z) (value : byte) (b : builder) : option builder := set t [value] b.

Definition set_price (t mantissa decimals : Z) (b : builder) : option builder :=
  if decimals =? 0 then set_int t mantissa b else
  ds ← format_price mantissa decimals; set_trusted t ds b.

Definition set_timestamp (t epoch_ns : Z) (prec : TimestampPrecision) (b : builder) : option builder :=
  set_trusted t (format_timestamp epoch_ns prec) b.

Definition begin_group (count_tag count : Z) (b : builder) : option builder :=
  set_int count_tag (s64 count) b.

(** [[-]digits[.digits]]: the loop over the characters after the sign. *)
Fixpoint decimal_loop (has_digits has_dot : bool) (s : list byte) : bool :=
  match s with
  | [] => has_digits
  | c :: s =>
      if is_digit c then decimal_loop true has_dot s else
      if bool_decide (c = ch_dot) && negb has_dot then
        match s with
        | d :: _ => if is_digit d then decimal_loop has_digits true s else false
        | [] => false
        end
      else false
  end.
Definition valid_decimal (s : list byte) : bool :=
  match s with
  | [] => false
  | c :: r => if bool_decide (c = ch_minus) then (match r with [] => false | _ => decimal_loop false false r end)
              else decimal_loop false false s
  end.
Definition set_decimal (t : Z) (decimal : list byte) (b : builder) : option builder :=
  if overflow_ b then Some b else
  if valid_decimal decimal then set_trusted t decimal b else Some (set_overflow b).

(** The text goes through [char tmp[40]]; [None] is a store outside it. *)
Definition set_double (t : Z) (value : double) (precision : Z) (b : builder) : option builder :=
  if negb (isfinite value) then Some (set_overflow b) else
  let precision := Z.min 15 (Z.max 0 precision) in
  if SFleb kMaxDoubleMagnitude (SFabs value) then Some (set_overflow b) else
  text ← format_double value (Z.to_nat precision);
  if 40 <? zlen text then None else set_trusted t text b.

(** [has_tag]: compare the text before each [=] with the digits of the tag.  The
    scan stays within the bytes written; the fuel is their number. *)
Fixpoint split_eq (p : list byte) : option (list byte * list byte) :=
  match p with
  | [] => None
  | c :: p => if decide (c = ch_eq) then Some ([], p) else '(v, r) ← split_eq p; Some (c :: v, r)
  end.
Fixpoint has_tag_loop (fuel : nat) (tag_str : list byte) (p : list byte) : bool :=
  match fuel with
  | O => false
  | S fuel =>
      match p with
      | [] => false
      | _ =>
          match split_eq p with
          | None => false
          | Some (tag, v) =>
              if bool_decide (tag = tag_str) then true else
              match until_soh v with
              | None => false
              | Some (_, rest) => has_tag_loop fuel tag_str rest
              end
          end
      end
  end.
Definition has_tag (t : Z) (b : builder) : option bool :=
  if overflow_ b || (pos_ b <=? body_start_ b) then Some false else
  tag_str ← format_uint t;
  m ← buf_ b;
  body ← slice m (body_start_ b) (pos_ b - body_start_ b);
  Some (has_tag_loop (length body) tag_str body).

(** The [_unique] setters. *)
Definition unique (t : Z) (setter : builder -> option builder) (b : builder) : option builder :=
  dup ← has_tag t b;
  if dup : bool then Some (set_overflow b) else setter b.

(** ** finish *)

Definition checksum_digits (cs : Z) : list byte :=
  [digit_char ((cs / 100) mod 10); digit_char ((cs / 10) mod 10); digit_char (cs mod 10)].

Definition finish (begin_string : list byte) (b : builder) : option (Z * builder) :=
  if overflow_ b then Some (0, b) else
  let body_length := pos_ b - body_start_ b in
  if kMaxBeginString <? zlen begin_string then Some (0, set_overflow b) else
  if zlen begin_string =? 0 then Some (0, set_overflow b) else
  if existsb (fun c => bool_decide (c = SOH) || bool_decide (c = x00)) begin_string
  then Some (0, set_overflow b) else
  ds ← format_uint body_length;
  let hdr := [x38; ch_eq] ++ begin_string ++ [SOH] ++ [x39; ch_eq] ++ ds ++ [SOH] in
  let hpos := zlen hdr in
  if body_start_ b <? hpos then Some (0, set_overflow b) else
  let header_offset := body_start_ b - hpos in
  b ← store b header_offset hdr;
  m ← buf_ b;
  covered ← slice m header_offset (pos_ b - header_offset);
  let cs := compute_checksum covered in
  if capacity_ b <? pos_ b + kTrailerLen then Some (0, set_overflow b) else
  b ← store b (pos_ b) (trailer (checksum_digits cs));
  let pos := pos_ b + kTrailerLen in
  let total := pos - header_offset in
  m ← buf_ b;
  src ← slice m header_offset total;
  m ← (if 0 <? header_offset then wr m 0 src else Some m);
  Some (total, mkBuilder (Some m) (capacity_ b) (body_start_ b) pos total (field_count_ b) (overflow_ b) true).

(** ** The body under construction *)

(** [body] has been written behind the reserved bytes. *)
Record holds (b : builder) (body : list byte) : Prop := {
  h_buf : exists pre post, buf_ b = Some (pre ++ body ++ post) /\ zlen pre = kHeaderReserve /\
            capacity_ b = kHeaderReserve + zlen body + zlen post;
  h_start : body_start_ b = kHeaderReserve;
  h_pos : pos_ b = kHeaderReserve + zlen body;
  h_open : overflow_ b = false /\ finished_ b = false;
}.

Lemma store_app b pre m off bs :
  buf_ b = Some (pre ++ m) -> off = zlen pre -> zlen bs <= zlen m ->
  store b off bs = Some (set_buf b (pre ++ bs ++ drop (length bs) m)).
Proof.
  intros Hb -> Hl. unfold store. destruct bs as [|c bs].
  - destruct b; cbn in *. unfold set_buf; cbn. by rewrite Hb.
  - rewrite Hb. cbn [mbind option_bind]. by rewrite wr_app.
Qed.

Lemma holds_new m capacity :
  zlen m = capacity -> kHeaderReserve <= capacity -> holds (new_builder (Some m) capacity) [].
Proof.
  intros Hm Hc. unfold new_builder. rewrite (proj2 (Z.ltb_ge capacity kHeaderReserve)) by lia.
  constructor; cbn; try done.
  exists (take 32 m), (drop 32 m). rewrite take_drop. split; [done|]. rewrite zlen_take, zlen_drop. unfold kHeaderReserve in *.
  change (zlen (@nil byte)) with 0. lia.
Qed.

Lemma set_trusted_spec b body t v :
  holds b body -> 0 <= t < 2 ^ 32 ->
  exists ds b', format_uint t = Some ds /\ digits ds /\ ds <> [] /\ dec_val ds = t /\
    set_trusted t v b = Some b' /\ capacity_ b' = capacity_ b /\
    if kHeaderReserve + zlen (body ++ raw_bytes (mkRaw ds v)) <=? capacity_ b
    then holds b' (body ++ raw_bytes (mkRaw ds v)) /\ field_count_ b' = field_count_ b + 1
    else overflow_ b' = true.
Proof.
  intros [(pre & post & Hbuf & Hpre & Hcap) Hstart Hpos [Hov Hfin]] Ht.
  destruct (format_uint_spec t ltac:(lia)) as (ds & Eds & Hd & Hval & Hl).
  exists ds. unfold set_trusted, write_uint. rewrite Hov, Hfin, Eds. cbn [mbind option_bind].
  rewrite zlen_app, zlen_raw. cbn [rtag rvalue]. pose proof (zlen_nonneg v). pose proof (zlen_nonneg body). pose proof (zlen_nonneg post).
  assert (ds <> []) as Hne by (apply zlen_ne_nil; lia).
  destruct (Z.ltb_spec (capacity_ b) (zlen v)).
  { eexists. rewrite (proj2 (Z.leb_gt _ _)) by (unfold kHeaderReserve in *; lia). by repeat split. }
  destruct (Z.leb_spec (pos_ b + zlen ds) (capacity_ b)) as [Hfit|Hfit].
  2: { cbn [mbind option_bind]. rewrite (proj2 (Z.ltb_lt _ _)) by lia. eexists.
       rewrite (proj2 (Z.leb_gt _ _)) by (unfold kHeaderReserve in *; lia). by repeat split. }
  rewrite app_assoc in Hbuf.
  assert (zlen (pre ++ body) = pos_ b) as Hz by (rewrite zlen_app; lia).
  rewrite (store_app b (pre ++ body) post) by (done || lia). cbn [mbind option_bind].
  change (pos_ (set_buf b _)) with (pos_ b). change (capacity_ (set_buf b _)) with (capacity_ b).
  set (post1 := drop (length ds) post).
  assert (zlen post1 = zlen post - zlen ds) as Hp1 by (subst post1; rewrite zlen_drop; unfold zlen in *; lia).
  destruct (Z.ltb_spec (capacity_ b) (pos_ b + (zlen ds + 1 + zlen v + 1))).
  { eexists. rewrite (proj2 (Z.leb_gt _ _)) by (unfold kHeaderReserve in *; lia). by repeat split. }
  rewrite (store_app _ ((pre ++ body) ++ ds) post1); [|cbn; by rewrite <- !app_assoc|rewrite zlen_app; lia|change (zlen [ch_eq]) with 1; lia].
  cbn [mbind option_bind]. set (post2 := drop 1 post1).
  assert (zlen post2 = zlen post1 - 1) as Hp2 by (subst post2; rewrite zlen_drop; unfold zlen in *; lia).
  rewrite (store_app _ (((pre ++ body) ++ ds) ++ [ch_eq]) post2); [|cbn; by rewrite <- !app_assoc|rewrite !zlen_app in *; change (zlen [ch_eq]) with 1; lia|lia].
  cbn [mbind option_bind]. set (post3 := drop (length v) post2).
  assert (zlen post3 = zlen post2 - zlen v) as Hp3 by (subst post3; rewrite zlen_drop; unfold zlen in *; lia).
  rewrite (store_app _ ((((pre ++ body) ++ ds) ++ [ch_eq]) ++ v) post3);
    [|cbn; by rewrite <- !app_assoc|rewrite !zlen_app in *; change (zlen [ch_eq]) with 1; lia|change (zlen [SOH]) with 1; lia].
  cbn [mbind option_bind]. eexists. rewrite (proj2 (Z.leb_le _ _)) by (unfold kHeaderReserve in *; lia).
  split_and!; try done. constructor; cbn; try done.
  - exists pre, (drop 1 post3). split; [|split; [done|]].
    + unfold raw_bytes. cbn [rtag rvalue]. rewrite <- !app_assoc. cbn. by rewrite <- !app_assoc.
    + rewrite zlen_app, zlen_raw, zlen_drop. cbn [rtag rvalue]. unfold kHeaderReserve in *. lia.
  - rewrite zlen_app, zlen_raw. cbn [rtag rvalue]. lia.
Qed.

(** ** finish *)

Lemma checksum_digits_spec cs :
  0 <= cs < 256 -> digits (checksum_digits cs) /\ zlen (checksum_digits cs) = 3 /\ dec_val (checksum_digits cs) = cs.
Proof.
  intros H. assert (0 <= (cs / 100) mod 10 <= 9 /\ 0 <= (cs / 10) mod 10 <= 9 /\ 0 <= cs mod 10 <= 9 /\
    cs = ((cs / 100) mod 10 * 10 + (cs / 10) mod 10) * 10 + cs mod 10) as (H1 & H2 & H3 & H4)
    by (Z.div_mod_to_equations; lia).
  destruct (digit_char_spec _ H1) as [D1 V1], (digit_char_spec _ H2) as [D2 V2], (digit_char_spec _ H3) as [D3 V3].
  split; [by repeat constructor|]. split; [done|]. unfold dec_val, checksum_digits. cbn [foldl]. rewrite V1, V2, V3. lia.
Qed.

(** The BeginStrings [finish] accepts. *)
Definition begin_string_ok (bs : list byte) : Prop :=
  bs <> [] /\ zlen bs <= kMaxBeginString /\ (SOH ∉ bs) /\ (x00 ∉ bs).

Lemma existsb_not_elem (bs : list byte) (f : byte -> bool) :
  (forall c, c ∈ bs -> f c = false) -> existsb f bs = false.
Proof.
  induction bs as [|c bs IH]; intros H; [done|]. cbn.
  rewrite (H c) by (apply elem_of_cons; by left). apply IH. intros x Hx. apply H, elem_of_cons. by right.
Qed.

(** The complete message around [body]. *)
Definition message (bs ds body : list byte) : list byte :=
  let h := header [x38] bs [x39] ds in
  h ++ body ++ trailer (checksum_digits (compute_checksum (h ++ body))).

Lemma zlen_message bs ds body :
  zlen (message bs ds body) = zlen (header [x38] bs [x39] ds) + zlen body + 7.
Proof. unfold message. cbn zeta. rewrite !zlen_app, zlen_trailer. change (zlen (checksum_digits _)) with 3. lia. Qed.

(** The header put into the reserved bytes, just before the body. *)
Lemma header_placed pre body post h :
  zlen h <= zlen pre ->
  exists pre1, zlen pre1 = zlen pre - zlen h /\
    forall b, buf_ b = Some (pre ++ body ++ post) ->
      store b (zlen pre - zlen h) h = Some (set_buf b (pre1 ++ h ++ body ++ post)).
Proof.
  intros Hl. pose proof (zlen_nonneg h). set (n := Z.to_nat (zlen pre - zlen h)).
  exists (take n pre). assert (zlen (take n pre) = zlen pre - zlen h) as H1 by (rewrite zlen_take; subst n; lia).
  split; [done|]. intros b Hb.
  rewrite (store_app b (take n pre) (drop n pre ++ body ++ post)).
  - rewrite drop_app_length'; [done|]. rewrite length_drop. subst n. unfold zlen in *. lia.
  - by rewrite app_assoc, take_drop.
  - by rewrite H1.
  - rewrite !zlen_app, zlen_drop. pose proof (zlen_nonneg body). pose proof (zlen_nonneg post). subst n. lia.
Qed.

Lemma finish_spec b body bs :
  holds b body -> begin_string_ok bs -> capacity_ b < 2 ^ 63 ->
  exists ds n b', format_uint (zlen body) = Some ds /\ finish bs b = Some (n, b') /\
    if (zlen (header [x38] bs [x39] ds) <=? kHeaderReserve) && (kHeaderReserve + zlen body + kTrailerLen <=? capacity_ b)
    then n = zlen (message bs ds body) /\ btotal_len_ b' = n /\ finished_ b' = true /\
      exists rest, buf_ b' = Some (message bs ds body ++ rest)
    else n = 0 /\ overflow_ b' = true.
Proof.
  intros [(pre & post & Hbuf & Hpre & Hcap) Hstart Hpos [Hov Hfin]] (Hne & H32 & Hsoh & Hnul) Hsz.
  pose proof (zlen_nonneg body). pose proof (zlen_nonneg post).
  destruct (format_uint_spec (zlen body)) as (ds & Eds & _); [unfold kHeaderReserve in *; lia|].
  exists ds. unfold finish. rewrite Hov, Hstart, Hpos.
  replace (kHeaderReserve + zlen body - kHeaderReserve) with (zlen body) by lia.
  rewrite (proj2 (Z.ltb_ge _ _)) by lia.
  assert (0 < zlen bs) by (destruct bs; [done|unfold zlen; cbn; lia]). rewrite (proj2 (Z.eqb_neq _ _)) by lia.
  rewrite existsb_not_elem by (intros c Hc; rewrite !bool_decide_eq_false_2; [done|by intros ->..]).
  rewrite Eds. cbn [mbind option_bind].
  change ([x38; ch_eq] ++ bs ++ [SOH] ++ [x39; ch_eq] ++ ds ++ [SOH]) with (header [x38] bs [x39] ds).
  set (h := header [x38] bs [x39] ds).
  destruct (Z.leb_spec (zlen h) kHeaderReserve) as [Hfit|Hfit]; cbn [andb].
  2: { rewrite (proj2 (Z.ltb_lt _ _)) by done. by do 2 eexists. }
  rewrite (proj2 (Z.ltb_ge _ _)) by done.
  destruct (header_placed pre body post h ltac:(lia)) as (pre1 & Hp1 & Hst). rewrite <- Hpre in *.
  rewrite (Hst b Hbuf). cbn [mbind option_bind set_buf buf_ capacity_ pos_]. rewrite Hpos.
  rewrite (app_assoc h body post), (slice_mid pre1 (h ++ body) post) by (rewrite ?zlen_app; lia).
  cbn [mbind option_bind]. set (t := trailer _).
  assert (zlen t = 7) as Ht by done.
  destruct (Z.leb_spec (zlen pre + zlen body + kTrailerLen) (capacity_ b)) as [Hfit2|Hfit2].
  2: { rewrite (proj2 (Z.ltb_lt _ _)) by done. by do 2 eexists. }
  rewrite (proj2 (Z.ltb_ge _ _)) by done. unfold kTrailerLen in *.
  rewrite (store_app _ (pre1 ++ h ++ body) post); [|cbn; by rewrite <- !app_assoc|rewrite !zlen_app; lia|lia].
  cbn [mbind option_bind set_buf buf_ capacity_ pos_]. rewrite Hpos.
  assert (message bs ds body = (h ++ body) ++ t) as Em by (unfold message; by rewrite <- app_assoc).
  replace ((pre1 ++ h ++ body) ++ t ++ drop (length t) post) with (pre1 ++ message bs ds body ++ drop (length t) post)
    by (rewrite Em, <- !app_assoc; done).
  assert (zlen (message bs ds body) = zlen h + zlen body + 7) as Hz by apply zlen_message.
  rewrite (slice_mid pre1) by lia. cbn [mbind option_bind].
  destruct (Z.ltb_spec 0 (zlen pre - zlen h)).
  - rewrite wr_0 by (rewrite !zlen_app; pose proof (zlen_nonneg pre1); pose proof (zlen_nonneg (drop (length t) post)); lia).
    cbn [mbind option_bind]. do 2 eexists. split; [done|]. split; [done|]. cbn. split; [lia|]. split; [done|]. split; [done|]. by eexists.
  - assert (pre1 = []) as -> by (apply zlen_nil_inv; lia). cbn [mbind option_bind]. do 2 eexists. split; [done|].
    split; [done|]. cbn. split; [lia|]. split; [done|]. split; [done|]. by eexists.
Qed.

(** ** Fields as the parser will see them *)

Definition text_of (f : Field) : rawfield := mkRaw (default [] (format_uint (ftag f))) (fvalue f).
Definition field_ok (f : Field) : Prop := 0 < ftag f < 2 ^ 32 /\ (SOH ∉ fvalue f).
Definition body_of (fs : list Field) : list byte := body_bytes (text_of <$> fs).

Lemma tag_text_spec t :
  0 <= t < 2 ^ 32 -> exists ds, format_uint t = Some ds /\ digits ds /\ ds <> [] /\ dec_val ds = t.
Proof.
  intros Ht. destruct (format_uint_spec t ltac:(lia)) as (ds & E & Hd & Hv & Hl). exists ds.
  split_and!; try done. apply zlen_ne_nil. lia.
Qed.

Lemma text_of_ok f : field_ok f -> raw_ok (text_of f) /\ raw_field (text_of f) = f.
Proof.
  destruct f as [t v]. intros [Ht Hv]; cbn in Ht, Hv. destruct (tag_text_spec t ltac:(lia)) as (ds & E & Hd & Hne & Hval).
  unfold text_of, raw_ok, raw_field. cbn [rtag rvalue ftag fvalue]. rewrite E. cbn [from_option]. unfold id, UINT32_MAX.
  rewrite Hval. split_and!; done || lia.
Qed.

Lemma texts_ok fs : Forall field_ok fs -> Forall raw_ok (text_of <$> fs) /\ raw_field <$> (text_of <$> fs) = fs.
Proof.
  induction 1 as [|f fs Hf _ [IH1 IH2]]; [by split; [constructor|]|].
  apply text_of_ok in Hf as [H1 H2]. cbn [fmap list_fmap] in *. rewrite H2. split; [by constructor|by f_equal].
Qed.

Lemma body_of_snoc fs f : body_of (fs ++ [f]) = body_of fs ++ raw_bytes (text_of f).
Proof.
  unfold body_of, body_bytes. rewrite !fmap_app, concat_app. cbn. by rewrite app_nil_r.
Qed.

Lemma body_of_extends fs more : zlen (body_of fs) <= zlen (body_of (fs ++ more)).
Proof.
  unfold body_of, body_bytes. rewrite !fmap_app, concat_app, zlen_app. pose proof (zlen_nonneg (concat (raw_bytes <$> (text_of <$> more)))). lia.
Qed.

(** *** has_tag *)

Lemma split_eq_app ds r : ch_eq ∉ ds -> split_eq (ds ++ ch_eq :: r) = Some (ds, r).
Proof.
  induction ds as [|c ds IH]; intros H; cbn; [by rewrite decide_True|].
  apply not_elem_of_cons in H as [Hc H]. rewrite decide_False by done. by rewrite IH.
Qed.

Lemma has_tag_loop_spec fuel tag_str fs :
  Forall raw_ok fs -> (length (body_bytes fs) <= fuel)%nat ->
  has_tag_loop fuel tag_str (body_bytes fs) = existsb (fun f => bool_decide (rtag f = tag_str)) fs.
Proof.
  intros Hok. revert fuel; induction Hok as [|f fs Hf Hok IH]; intros fuel Hl; [by destruct fuel|].
  destruct Hf as (Hd & Hne & _ & Hv). apply digits_no_soh in Hd as [_ Heq].
  change (body_bytes (f :: fs)) with (raw_bytes f ++ body_bytes fs) in *.
  replace (raw_bytes f ++ body_bytes fs) with (rtag f ++ ch_eq :: rvalue f ++ SOH :: body_bytes fs) in *
    by (unfold raw_bytes; by rewrite <- app_assoc; cbn; rewrite <- app_assoc).
  rewrite length_app in Hl. cbn [length] in Hl. rewrite length_app in Hl. cbn [length] in Hl.
  destruct fuel as [|fuel]; [lia|]. cbn [has_tag_loop existsb].
  destruct (rtag f ++ _) as [|c l] eqn:E; [by destruct (rtag f)|]. rewrite <- E, split_eq_app by done.
  destruct (bool_decide _); [done|]. rewrite until_soh_app by done. cbn [orb]. apply IH. lia.
Qed.

Lemma has_tag_spec b fs t :
  holds b (body_of fs) -> Forall field_ok fs -> 0 <= t < 2 ^ 32 ->
  has_tag t b = Some (existsb (fun f => ftag f =? t) fs).
Proof.
  intros [(pre & post & Hbuf & Hpre & Hcap) Hstart Hpos [Hov Hfin]] Hok Ht. unfold has_tag. rewrite Hov, Hpos, Hstart.
  cbn [orb]. destruct (Z.leb_spec (kHeaderReserve + zlen (body_of fs)) kHeaderReserve) as [Hz|Hz].
  { destruct fs as [|f fs]; [done|]. exfalso. revert Hz. unfold body_of, body_bytes. cbn.
    rewrite zlen_app, zlen_raw. pose proof (zlen_nonneg (concat (raw_bytes <$> (text_of <$> fs)))).
    pose proof (zlen_nonneg (rtag (text_of f))). pose proof (zlen_nonneg (rvalue (text_of f))). lia. }
  destruct (tag_text_spec t Ht) as (ds & E & Hd & Hne & Hval). rewrite E, Hbuf. cbn [mbind option_bind].
  rewrite (slice_mid pre (body_of fs) post) by lia. cbn [mbind option_bind]. f_equal.
  unfold body_of. rewrite has_tag_loop_spec by (by apply texts_ok || done).
  clear -Hok E Hval. induction Hok as [|f fs Hf _ IH]; [done|]. cbn. rewrite IH. f_equal.
  destruct Hf as [Hf _]. destruct (tag_text_spec (ftag f) ltac:(lia)) as (ds' & E' & _ & _ & Hval').
  rewrite E'. cbn. destruct (Z.eqb_spec (ftag f) t) as [E2|Hne].
  - rewrite E2 in E'. simplify_eq. by apply bool_decide_eq_true_2.
  - apply bool_decide_eq_false_2. intros ->. congruence.
Qed.

(** ** Building a message *)

(** One call of a setter. *)
Inductive op :=
  | OSet (t : Z) (value : list byte)
  | ORaw (t : Z) (data : option (list byte))
  | OInt (t value : Z)
  | OBool (t : Z) (value : bool)
  | OChar (t : Z) (value : byte)
  | OPrice (t mantissa decimals : Z)
  | OTimestamp (t epoch_ns : Z) (prec : TimestampPrecision)
  | OGroup (count_tag count : Z)
  | ODecimal (t : Z) (decimal : list byte)
  | ODouble (t : Z) (value : double) (precision : Z).

Definition op_tag (o : op) : Z :=
  match o with
  | OSet t _ | ORaw t _ | OInt t _ | OBool t _ | OChar t _ | OPrice t _ _ | OTimestamp t _ _ | OGroup t _
  | ODecimal t _ | ODouble t _ _ => t
  end.

Definition run_op (o : op) : builder -> option builder :=
  match o with
  | OSet t v => set t v
  | ORaw t v => set_raw t v
  | OInt t n => set_int t n
  | OBool t v => set_bool t v
  | OChar t c => set_char t c
  | OPrice t m d => set_price t m d
  | OTimestamp t ns p => set_timestamp t ns p
  | OGroup t n => begin_group t n
  | ODecimal t s => set_decimal t s
  | ODouble t x p => set_double t x p
  end.

(** A call, with or without the check for duplicates. *)
Definition run_call (c : bool * op) (b : builder) : option builder :=
  if c.1 then unique (op_tag c.2) (run_op c.2) b else run_op c.2 b.
Fixpoint run_calls (cs : list (bool * op)) (b : builder) : option builder :=
  match cs with [] => Some b | c :: cs => b ← run_call c b; run_calls cs b end.

(** Clamped to 0..15. *)
Definition digits_behind (precision : Z) : nat := Z.to_nat (Z.min 15 (Z.max 0 precision)).

(** The value a call denotes; [None] when the setter must refuse it. *)
Definition op_value (o : op) : option (list byte) :=
  match o with
  | OSet _ v => if has_soh v then None else Some v
  | ORaw _ d => let v := default [] d in if has_soh v then None else Some v
  | OInt _ n => format_int n
  | OBool _ v => Some [if v then x59 else x4e]
  | OChar _ c => if has_soh [c] then None else Some [c]
  | OPrice _ m d => if d =? 0 then format_int m else format_price m d
  | OTimestamp _ ns p => Some (format_timestamp ns p)
  | OGroup _ n => format_int (s64 n)
  | ODecimal _ s => if valid_decimal s then Some s else None
  | ODouble _ x p => if isfinite x && SFltb (SFabs x) kMaxDoubleMagnitude then format_double x (digits_behind p) else None
  end.

(** Arguments within their C++ types; FIX has no tag 0. *)
Definition op_ok (o : op) : Prop :=
  0 < op_tag o < 2 ^ 32 /\
  match o with
  | OInt _ n => - 2 ^ 63 <= n < 2 ^ 63
  | OPrice _ m d => - 2 ^ 63 <= m < 2 ^ 63 /\ 0 <= d < 256
  | OTimestamp _ ns _ => 0 <= ns < 2 ^ 64
  | OGroup _ n => 0 <= n < 2 ^ 64
  | ODouble _ x p => is_double x = true /\ - 2 ^ 31 <= p < 2 ^ 31
  | _ => True
  end.

(** The fields the calls ask for, after [fs]; [None] when one must be refused. *)
Fixpoint wanted (cs : list (bool * op)) (fs : list Field) : option (list Field) :=
  match cs with
  | [] => Some fs
  | (uniq, o) :: cs =>
      v ← op_value o;
      if uniq && existsb (fun f => ftag f =? op_tag o) fs then None
      else wanted cs (fs ++ [mkField (op_tag o) v])
  end.

(** *** No formatter writes SOH *)

Lemma has_soh_spec v : has_soh v = false <-> SOH ∉ v.
Proof.
  induction v as [|c v IH]; cbn; [split; [intros _; apply not_elem_of_nil|done]|].
  rewrite orb_false_iff, bool_decide_eq_false, IH, not_elem_of_cons.
  split; intros [H1 H2]; (split; [by intros E; apply H1|done]).
Qed.

Lemma soh_app v w : SOH ∉ v -> SOH ∉ w -> SOH ∉ v ++ w.
Proof. intros H1 H2 [?|?]%elem_of_app; done. Qed.

Lemma soh_digits ds : digits ds -> SOH ∉ ds.
Proof. intros H. by apply digits_no_soh in H as []. Qed.

Lemma soh_const c : c <> SOH -> SOH ∉ [c].
Proof. intros H ?%list_elem_of_singleton. by subst. Qed.

Lemma format_int_soh n : - 2 ^ 63 <= n < 2 ^ 63 -> exists v, format_int n = Some v /\ (SOH ∉ v).
Proof.
  intros Hn. destruct (format_int_spec n Hn) as (ds & E & Hd & _). eexists. split; [done|].
  unfold int_text. destruct (_ <? _); [|by apply soh_digits].
  apply (soh_app [ch_minus]); [by apply soh_const|by apply soh_digits].
Qed.

Lemma format_price_soh m d :
  - 2 ^ 63 <= m < 2 ^ 63 -> 0 < d < 256 -> exists v, format_price m d = Some v /\ (SOH ∉ v).
Proof.
  intros Hm Hd. assert (exists d', 0 < d' <= 18 /\ format_price m d = format_price m d') as (d' & Hd' & ->).
  { destruct (Z.ltb_spec 18 d) as [H|H]; [exists 18|exists d; split; [lia|done]]. split; [lia|]. unfold format_price.
    by rewrite (proj2 (Z.ltb_lt 18 d)). }
  destruct (format_price_spec m d' Hm Hd') as (ip & fs & -> & H1 & _ & H2 & _). eexists. split; [done|].
  apply soh_app; [destruct (m <? 0); [by apply soh_const|apply not_elem_of_nil]|].
  apply soh_app; [by apply soh_digits|]. apply soh_app; [by apply soh_const|by apply soh_digits].
Qed.

Lemma decimal_loop_soh hd dot s : decimal_loop hd dot s = true -> SOH ∉ s.
Proof.
  revert hd dot; induction s as [|c s IH]; intros hd dot H; [apply not_elem_of_nil|]. cbn in H.
  apply not_elem_of_cons. destruct (is_digit c) eqn:Hc.
  { split; [by apply digit_not_soh in Hc as (? & _)|by eapply IH]. }
  destruct (bool_decide (c = ch_dot)) eqn:Hd; [|done]. apply bool_decide_eq_true in Hd as ->.
  split; [done|]. destruct dot; [done|]. cbn in H. destruct s as [|d s]; [done|]. destruct (is_digit d); [|done]. by eapply IH.
Qed.

Lemma valid_decimal_soh s : valid_decimal s = true -> SOH ∉ s.
Proof.
  destruct s as [|c r]; [done|]. unfold valid_decimal. destruct (bool_decide (c = ch_minus)) eqn:Hc.
  - apply bool_decide_eq_true in Hc as ->. destruct r; [done|]. intros ?%decimal_loop_soh. by apply not_elem_of_cons.
  - apply decimal_loop_soh.
Qed.

Lemma format_timestamp_soh ns prec : 0 <= ns < 2 ^ 64 -> SOH ∉ format_timestamp ns prec.
Proof.
  intros H%(format_timestamp_chars ns prec) Hin. rewrite list.Forall_forall in H. by destruct (H SOH Hin) as [?|[?|[?|?]]].
Qed.

Lemma s64_range n : 0 <= n < 2 ^ 64 -> - 2 ^ 63 <= s64 n < 2 ^ 63.
Proof. intros H. unfold s64. destruct (Z.ltb_spec n (2 ^ 63)); lia. Qed.

(** The doubles that are written, and what is written for them. *)
Definition double_written (x : double) (p : Z) (text : option (list byte)) : Prop :=
  match text with
  | Some text => isfinite x = true /\ Z.abs (value x) < 10 ^ 19 * 2 ^ 1074 /\
      exists D, is_decimal (digits_behind p) (value x <? 0) D text /\ rounds_decimal (digits_behind p) (Z.abs (value x)) D
  | None => isfinite x = false \/ 10 ^ 19 * 2 ^ 1074 <= Z.abs (value x)
  end.

Lemma max_magnitude : finite kMaxDoubleMagnitude /\ value kMaxDoubleMagnitude = 10 ^ 19 * 2 ^ 1074.
Proof. split; [split|]; vm_compute; reflexivity. Qed.

Lemma magnitude_tests x : finite x -> SFltb (SFabs x) kMaxDoubleMagnitude = (Z.abs (value x) <? 10 ^ 19 * 2 ^ 1074) /\
  SFleb kMaxDoubleMagnitude (SFabs x) = negb (Z.abs (value x) <? 10 ^ 19 * 2 ^ 1074).
Proof.
  intros Hx. destruct max_magnitude as [Fm Em], (abs_value x Hx) as [Fa Ea]. rewrite ltb_value, leb_value, Em, Ea by done. split; [done|].
  by rewrite Z.leb_antisym.
Qed.

Lemma is_decimal_soh p neg D text : 0 <= D < 2 ^ 64 * 10 ^ Z.of_nat p -> is_decimal p neg D text -> SOH ∉ text.
Proof.
  intros HD (ip & fs & Ei & Hf & _ & _ & ->). destruct (format_uint_spec (D / 10 ^ Z.of_nat p)) as (ds & E & Hd & _).
  { split; [apply Z.div_pos; lia|apply Z.div_lt_upper_bound; lia]. }
  rewrite Ei in E. injection E as <-. apply soh_app; [destruct neg; [by apply soh_const|apply not_elem_of_nil]|].
  apply soh_app; [by apply soh_digits|]. destruct p; [apply not_elem_of_nil|]. apply (soh_app [ch_dot]); [by apply soh_const|by apply soh_digits].
Qed.

(** [set_double] writes what its call denotes, and that is the rounded decimal. *)
Lemma set_double_value t x p b : is_double x = true ->
  double_written x p (op_value (ODouble t x p)) /\
  match op_value (ODouble t x p) with
  | Some v => (SOH ∉ v) /\ set_double t x p b = set_trusted t v b
  | None => set_double t x p b = Some (set_overflow b)
  end.
Proof.
  intros Hd. cbn [op_value]. unfold set_double. fold (digits_behind p). destruct (isfinite x) eqn:Hf; [|split; [by left|done]].
  assert (finite x) as Hx by done. destruct (magnitude_tests x Hx) as [-> ->]. cbn [negb andb].
  destruct (Z.ltb_spec (Z.abs (value x)) (10 ^ 19 * 2 ^ 1074)) as [Hlt|Hge]; cbn [negb]; [|split; [by right|done]].
  destruct (format_double_spec x (digits_behind p) Hx Hlt) as (D & text & -> & HD & Hdec & Hr & Hl); [unfold digits_behind; lia|]. cbn [mbind option_bind].
  split; [split; [done|]; split; [done|by exists D]|]. rewrite (proj2 (Z.ltb_ge _ _)) by lia. split; [|done]. by eapply is_decimal_soh.
Qed.

(** Every setter writes the value of its call, or refuses it; nothing else. *)
Lemma run_op_value o b :
  op_ok o -> overflow_ b = false ->
  match op_value o with
  | Some v => (SOH ∉ v) /\ run_op o b = set_trusted (op_tag o) v b
  | None => run_op o b = Some (set_overflow b)
  end.
Proof.
  intros [Ht Ho] Hov. destruct o as [t v|t v|t n|t v|t c|t m d|t ns p|t n|t s|t x p]; cbn [op_value op_tag run_op] in *.
  - unfold set. rewrite Hov. destruct (has_soh v) eqn:E; [done|]. by apply has_soh_spec in E.
  - destruct v as [v|]; [|split; [apply not_elem_of_nil|done]]. cbn [from_option]. unfold id. cbn zeta. unfold set_raw.
    destruct (has_soh v) eqn:E.
    + destruct v; [done|]. by rewrite (proj2 (Z.eqb_neq _ 0)) by (rewrite zlen_cons; pose proof (zlen_nonneg v); lia).
    + apply has_soh_spec in E. split; [done|]. by destruct v.
  - unfold set_int. destruct (format_int_soh n Ho) as (v & -> & Hv). done.
  - split; [|done]. apply soh_const. by destruct v.
  - unfold set_char, set. rewrite Hov. destruct (has_soh [c]) eqn:E; [done|]. by apply has_soh_spec in E.
  - unfold set_price, set_int. destruct Ho as [Hm Hd]. destruct (Z.eqb_spec d 0).
    + destruct (format_int_soh m Hm) as (v & -> & Hv). done.
    + destruct (format_price_soh m d Hm ltac:(lia)) as (v & -> & Hv). done.
  - split; [by apply format_timestamp_soh|done].
  - unfold begin_group, set_int. destruct (format_int_soh _ (s64_range n Ho)) as (v & -> & Hv). done.
  - unfold set_decimal. rewrite Hov. destruct (valid_decimal s) eqn:E; [|done]. by apply valid_decimal_soh in E.
  - destruct Ho as [Hd _]. exact (proj2 (set_double_value t x p b Hd)).
Qed.

(** A builder that has overflowed stays that way. *)
Lemma run_call_overflow c b :
  op_ok c.2 -> overflow_ b = true -> exists b', run_call c b = Some b' /\ overflow_ b' = true.
Proof.
  intros [Ht Ho] Hov. assert (exists b', run_op c.2 b = Some b' /\ overflow_ b' = true) as Hrun.
  { assert (forall t v, set_trusted t v b = Some b) as Hst by (intros; unfold set_trusted; by rewrite Hov).
    destruct c as [u o]; cbn [snd] in *.
    destruct o as [t v|t v|t n|t v|t c|t m d|t ns p|t n|t s|t x p]; cbn [op_tag run_op] in *;
      unfold set, set_raw, set_int, set_bool, set_char, set, set_price, set_int, set_timestamp, begin_group, set_int, set_decimal;
      rewrite ?Hov; rewrite ?Hst; try (by eexists).
    - destruct v as [v|]; [|rewrite ?Hst; by eexists]. destruct (_ =? 0); [rewrite ?Hst; by eexists|].
      destruct (has_soh v); [|rewrite ?Hst]; by eexists.
    - destruct (format_int_soh n Ho) as (v & -> & _). cbn. rewrite Hst. by eexists.
    - destruct Ho as [Hm Hd]. destruct (Z.eqb_spec d 0).
      + destruct (format_int_soh m Hm) as (v & -> & _). cbn. rewrite Hst. by eexists.
      + destruct (format_price_soh m d Hm ltac:(lia)) as (v & -> & _). cbn. rewrite Hst. by eexists.
    - destruct (format_int_soh _ (s64_range n Ho)) as (v & -> & _). cbn. rewrite Hst. by eexists.
    - destruct (set_double_value t x p b) as [_ H]; [apply Ho|]. destruct (op_value (ODouble t x p)); [destruct H as [_ ->]; rewrite Hst|rewrite H]; by eexists. }
  unfold run_call, unique, has_tag. rewrite Hov. destruct c.1; cbn [orb mbind option_bind]; exact Hrun.
Qed.

Lemma run_calls_overflow cs b :
  Forall (fun c => op_ok c.2) cs -> overflow_ b = true -> exists b', run_calls cs b = Some b' /\ overflow_ b' = true.
Proof.
  intros Hok. revert b; induction Hok as [|c cs Hc _ IH]; intros b Hov; [by exists b|].
  destruct (run_call_overflow c b Hc Hov) as (b1 & E & Hb1). cbn. rewrite E. cbn. by apply IH.
Qed.

Lemma wanted_extends cs fs fs' : wanted cs fs = Some fs' -> exists more, fs' = fs ++ more.
Proof.
  revert fs; induction cs as [|[u o] cs IH]; intros fs H; cbn in H; [simplify_eq; exists []; by rewrite app_nil_r|].
  destruct (op_value o) as [v|]; [|done]. cbn in H. destruct (_ && _); [done|].
  apply IH in H as [more ->]. eexists. by rewrite <- app_assoc.
Qed.

Lemma op_value_field o v : op_ok o -> op_value o = Some v -> field_ok (mkField (op_tag o) v).
Proof.
  intros Ho Ev. pose proof (run_op_value o (mkBuilder None 0 0 0 0 0 false false) Ho eq_refl) as Hv.
  rewrite Ev in Hv. split; [apply Ho|apply Hv].
Qed.

Lemma wanted_ok cs fs fs' :
  Forall (fun c => op_ok c.2) cs -> Forall field_ok fs -> wanted cs fs = Some fs' -> Forall field_ok fs'.
Proof.
  intros Hok. revert fs; induction Hok as [|[u o] cs Ho _ IH]; intros fs Hfs; cbn; [by intros; simplify_eq|].
  destruct (op_value o) as [v|] eqn:Ev; [|done]. cbn. destruct (_ && _); [done|]. apply IH.
  apply Forall_app. split; [done|]. constructor; [by apply op_value_field|constructor].
Qed.

(** One call on a builder that holds the fields [fs]. *)
Lemma run_call_spec b fs u o :
  holds b (body_of fs) -> Forall field_ok fs -> op_ok o ->
  exists b', run_call (u, o) b = Some b' /\ capacity_ b' = capacity_ b /\
    match op_value o with
    | Some v =>
        let f := mkField (op_tag o) v in
        field_ok f /\
        if u && existsb (fun f => ftag f =? op_tag o) fs then overflow_ b' = true else
        if kHeaderReserve + zlen (body_of (fs ++ [f])) <=? capacity_ b then holds b' (body_of (fs ++ [f]))
        else overflow_ b' = true
    | None => overflow_ b' = true
    end.
Proof.
  intros Hb Hfs Ho. pose proof Hb as [_ _ _ [Hov _]]. destruct Ho as [Ht Ho'] eqn:EHo. clear EHo.
  pose proof (run_op_value o b (conj Ht Ho') Hov) as Hval. unfold run_call, unique. cbn [fst snd].
  rewrite (has_tag_spec b fs) by (done || lia). cbn [mbind option_bind].
  destruct u; cbn [andb].
  1: destruct (existsb _ fs).
  { exists (set_overflow b). split; [done|]. split; [done|]. destruct (op_value o) as [v|]; [|done].
    destruct Hval as [Hv _]. split; [by split|done]. }
  all: destruct (op_value o) as [v|]; [|by exists (set_overflow b)].
  all: destruct Hval as [Hv ->]; destruct (set_trusted_spec b (body_of fs) (op_tag o) v Hb ltac:(lia))
         as (ds & b' & Eds & _ & _ & _ & E & Hcap & Hif).
  all: exists b'; split; [done|]; split; [done|]; cbn zeta; split; [by split|].
  all: rewrite body_of_snoc; unfold text_of; cbn [ftag fvalue]; rewrite Eds; cbn [from_option]; unfold id.
  all: by destruct (_ <=? _); [destruct Hif|].
Qed.

Lemma run_calls_spec cs : forall b fs,
  holds b (body_of fs) -> Forall field_ok fs -> Forall (fun c => op_ok c.2) cs ->
  exists b', run_calls cs b = Some b' /\ (overflow_ b' = false -> capacity_ b' = capacity_ b) /\
    match wanted cs fs with
    | Some fs' => Forall field_ok fs' /\
        if kHeaderReserve + zlen (body_of fs') <=? capacity_ b then holds b' (body_of fs') else overflow_ b' = true
    | None => overflow_ b' = true
    end.
Proof.
  induction cs as [|[u o] cs IH]; intros b fs Hb Hfs Hok.
  { exists b. split; [done|]. split; [done|]. split; [done|]. pose proof Hb as [(pre & post & _ & _ & Hc) _ _ _].
    pose proof (zlen_nonneg post). by rewrite (proj2 (Z.leb_le _ _)) by lia. }
  apply Forall_cons_1 in Hok as [Ho Hok]. cbn [snd] in Ho.
  destruct (run_call_spec b fs u o Hb Hfs Ho) as (b1 & E & Hcap & H). cbn [run_calls wanted]. rewrite E. cbn [mbind option_bind].
  assert (overflow_ b1 = true -> exists b', run_calls cs b1 = Some b' /\ overflow_ b' = true) as Hover
    by (intros; by apply run_calls_overflow).
  destruct (op_value o) as [v|]; cbn [mbind option_bind].
  2: { destruct (Hover H) as (b' & -> & Hb'). exists b'. split; [done|]. split; [congruence|done]. }
  destruct H as [Hf H]. destruct (u && _).
  { destruct (Hover H) as (b' & -> & Hb'). exists b'. split; [done|]. split; [congruence|done]. }
  assert (Forall field_ok (fs ++ [mkField (op_tag o) v])) as Hfs' by (apply Forall_app; split; [done|by constructor]).
  destruct (Z.leb_spec (kHeaderReserve + zlen (body_of (fs ++ [mkField (op_tag o) v]))) (capacity_ b)) as [Hle|Hlt].
  - destruct (IH b1 _ H Hfs' Hok) as (b' & -> & Hc & Hrest). rewrite Hcap in Hrest, Hc. by exists b'.
  - destruct (Hover H) as (b' & -> & Hb'). exists b'. split; [done|]. split; [congruence|].
    destruct (wanted cs _) as [fs'|] eqn:Ew; [|done].
    split; [by eapply wanted_ok|]. apply wanted_extends in Ew as [more ->].
    pose proof (body_of_extends (fs ++ [mkField (op_tag o) v]) more). by rewrite (proj2 (Z.leb_gt _ _)) by lia.
Qed.

(** ** Properties *)

(** Room for the header in the reserved bytes, and for body and trailer. *)
Definition fits (capacity : Z) (bs : list byte) (fs : list Field) : bool :=
  let ds := default [] (format_uint (zlen (body_of fs))) in
  (zlen (header [x38] bs [x39] ds) <=? kHeaderReserve) &&
  (kHeaderReserve + zlen (body_of fs) + kTrailerLen <=? capacity).

Lemma message_envelope max bs ds body :
  begin_string_ok bs -> format_uint (zlen body) = Some ds -> zlen body <= max -> zlen body < 2 ^ 64 ->
  envelope_ok max [x38] bs [x39] ds body (checksum_digits (compute_checksum (header [x38] bs [x39] ds ++ body))).
Proof.
  intros (_ & _ & Hsoh & _) Eds Hmax Hlt. pose proof (zlen_nonneg body).
  destruct (format_uint_spec (zlen body) ltac:(lia)) as (ds' & E & Hd & Hval & _). rewrite Eds in E. injection E as <-.
  assert (0 <= compute_checksum (header [x38] bs [x39] ds ++ body) < 256) as Hc.
  { rewrite compute_checksum_sum. apply Z.mod_pos_bound. lia. }
  destruct (checksum_digits_spec _ Hc) as (H1 & H2 & H3). constructor; try done.
  - by split; [repeat constructor|].
  - by split; [repeat constructor|].
  - rewrite H3, compute_checksum_sum, Z.mod_mod by lia. done.
Qed.

(** [finish] on a builder that holds the fields [fs]: it refuses when there is no room,
    and otherwise leaves a message that the parser and the framer read back. *)
Lemma finish_parses b fs bs :
  holds b (body_of fs) -> Forall field_ok fs -> begin_string_ok bs -> capacity_ b < 2 ^ 63 ->
  exists n b', finish bs b = Some (n, b') /\
    if fits (capacity_ b) bs fs then
      exists msg left, buf_ b' = Some (msg ++ left) /\ n = zlen msg /\ btotal_len_ b' = n /\ 0 < n /\
        forall maxf max rest, zlen fs <= maxf -> zlen (body_of fs) <= max ->
          parse maxf max (msg ++ rest) = Some (Ok (mkView fs n bs)) /\
          exists fr, decode (mkFixFramer max) (msg ++ rest) = Some (Ok fr) /\ total_len fr = n /\
            frame_bytes (msg ++ rest) fr = Some msg
    else n = 0.
Proof.
  intros H Hfs Hbs Hcap. unfold fits. pose proof H as [(pre & post & _ & _ & Hc) _ _ _]. pose proof (zlen_nonneg post).
  destruct (finish_spec b (body_of fs) bs H Hbs Hcap) as (ds & n & b' & Eds & -> & Hfin).
  exists n, b'. split; [done|]. rewrite Eds. cbn [from_option]. unfold id.
  destruct (_ && _); [|apply Hfin]. destruct Hfin as (Hn & Htot & _ & left & Hbuf).
  pose proof (zlen_nonneg (body_of fs)).
  exists (message bs ds (body_of fs)), left. split_and!; [done..| |].
  { rewrite Hn, zlen_message. pose proof (zlen_nonneg (header [x38] bs [x39] ds)). lia. }
  intros maxf max rest Hf Hmax. unfold kHeaderReserve in Hc.
  pose proof (message_envelope max bs ds (body_of fs) Hbs Eds Hmax ltac:(lia)) as Henv.
  destruct (texts_ok fs Hfs) as [Hraw Efs]. split.
  - unfold message. cbn zeta. rewrite <- !app_assoc. unfold body_of in *.
    rewrite parse_accepts; [|done..|unfold zlen in *; by rewrite length_fmap]. rewrite Efs, Hn, zlen_message. done.
  - rewrite Hn. set (msg := message bs ds (body_of fs)).
    assert (encodable (mkFixFramer max) msg 0) as Henc.
    { by exists bs, ds, (body_of fs), (checksum_digits (compute_checksum (header [x38] bs [x39] ds ++ body_of fs))). }
    exact (decode_wire (mkFixFramer max) msg 0 rest Henc).
Qed.

(** C30: what is built is what is parsed.  For any calls of any of the setters, with or
    without the check for duplicates and with positive tags (FIX has no tag 0, see
    [tag_zero_unreadable]), [finish] stays inside the buffer, and so does the formatting of
    doubles.  If a value must be refused (an SOH in it, a malformed decimal, a double that is
    not finite or of at least 1e19, a duplicate in a [_unique] setter) or the message does not
    fit, it returns 0; otherwise it returns the length of a message at the start of the
    buffer, which the framer cuts out of any stream and which the parser reads back as exactly
    the fields that were set, in order, whatever bytes follow.  The text of a double is its
    decimal with the precision asked for, clamped to 0..15: rounded to nearest up to the error
    of two double operations, and truncated for precision 0. *)
Theorem fix_build_parse m capacity cs bs maxf max rest :
  zlen m = capacity -> kHeaderReserve <= capacity < 2 ^ 63 ->
  Forall (fun c => op_ok c.2) cs -> begin_string_ok bs ->
  (forall u t x p, (u, ODouble t x p) ∈ cs -> double_written x p (op_value (ODouble t x p))) /\
  exists n b', (b ← run_calls cs (new_builder (Some m) capacity); finish bs b) = Some (n, b') /\
    match wanted cs [] with
    | None => n = 0
    | Some fs =>
        if fits capacity bs fs then
          exists msg left, buf_ b' = Some (msg ++ left) /\ n = zlen msg /\ btotal_len_ b' = n /\
            (zlen fs <= maxf -> zlen (body_of fs) <= max ->
             parse maxf max (msg ++ rest) = Some (Ok (mkView fs n bs)) /\
             exists fr, decode (mkFixFramer max) (msg ++ rest) = Some (Ok fr) /\ total_len fr = n /\
               frame_bytes (msg ++ rest) fr = Some msg)
        else n = 0
    end.
Proof.
  intros Hm Hcap Hcs Hbs. split.
  { intros u t x p Hin. rewrite list.Forall_forall in Hcs. destruct (Hcs _ Hin) as [_ [Hd _]]. exact (proj1 (set_double_value t x p (new_builder None 0) Hd)). }
  assert (holds (new_builder (Some m) capacity) (body_of [])) as H0 by (apply holds_new; lia).
  assert (capacity_ (new_builder (Some m) capacity) = capacity) as Ec
    by (unfold new_builder; by destruct (_ <? _)).
  destruct (run_calls_spec cs _ [] H0 (List.Forall_nil _) Hcs) as (b & -> & Hc & H). cbn [mbind option_bind]. rewrite Ec in *.
  assert (overflow_ b = true -> finish bs b = Some (0, b)) as Hzero by (intros E; unfold finish; by rewrite E).
  destruct (wanted cs []) as [fs|]; [|by exists 0, b; auto].
  destruct H as [Hfs H].
  destruct (Z.leb_spec (kHeaderReserve + zlen (body_of fs)) capacity) as [Hle|Hlt].
  2: { exists 0, b. split; [auto|]. unfold fits, kTrailerLen. by rewrite andb_comm, (proj2 (Z.leb_gt _ capacity)) by lia. }
  assert (capacity_ b = capacity) as Ecb by (apply Hc, H).
  destruct (finish_parses b fs bs H Hfs Hbs ltac:(lia)) as (n & b' & -> & Hfin). rewrite Ecb in Hfin.
  exists n, b'. split; [done|]. destruct (fits _ _ _); [|done].
  destruct Hfin as (msg & left & Hbuf & Hn & Htot & _ & Hp). exists msg, left. split_and!; [done..|]. apply Hp.
Qed.

(** 9.9951. *)
Definition sample_double : double := double_div (double_of_int 99951) (double_of_int 10000).
Definition sample_calls : list (bool * op) :=
  [(false, OSet 35 [x44]); (true, OInt 34 7); (false, OPrice 44 (-12345) 2); (true, ODouble 38 sample_double 2)].
Definition sample_fields : list Field :=
  [mkField 35 [x44]; mkField 34 [x37]; mkField 44 [x2d; x31; x32; x33; x2e; x34; x35]; mkField 38 [x31; x30; x2e; x30; x30]].

Lemma fix_build_parse_witness :
  wanted sample_calls [] = Some sample_fields /\ fits 128 [x46; x49; x58] sample_fields = true /\
  double_written sample_double 2 (Some [x31; x30; x2e; x30; x30]) /\
  exists n b' msg left,
    (b ← run_calls sample_calls (new_builder (Some (replicate 128 x00)) 128); finish [x46; x49; x58] b) = Some (n, b') /\
    buf_ b' = Some (msg ++ left) /\ n = zlen msg /\
    parse 8 1000 (msg ++ [x38]) = Some (Ok (mkView sample_fields n [x46; x49; x58])).
Proof.
  assert (wanted sample_calls [] = Some sample_fields) as Ew by (vm_compute; reflexivity). split; [exact Ew|].
  assert (fits 128 [x46; x49; x58] sample_fields = true) as Ef by (vm_compute; reflexivity). split; [exact Ef|].
  destruct (fix_build_parse (replicate 128 x00) 128 sample_calls [x46; x49; x58] 8 1000 [x38])
    as (Hdbl & n & b' & E & H).
  - vm_compute; reflexivity.
  - vm_compute. split; [discriminate|reflexivity].
  - repeat constructor; vm_compute; (reflexivity || discriminate).
  - split; [discriminate|]. split; [vm_compute; discriminate|].
    split; intros Hin; repeat (apply elem_of_cons in Hin as [Hin|Hin]; [discriminate|]); by apply elem_of_nil in Hin.
  - split.
    { assert (op_value (ODouble 38 sample_double 2) = Some [x31; x30; x2e; x30; x30]) as Ev by (vm_compute; reflexivity).
      rewrite <- Ev. apply (Hdbl true 38). do 3 right. left. }
    rewrite Ew in H. cbn beta iota in H. rewrite Ef in H. cbn beta iota in H.
    destruct H as (msg & left & H1 & H2 & _ & H3). exists n, b', msg, left. split; [exact E|]. split; [exact H1|].
    split; [exact H2|]. apply H3; vm_compute; discriminate.
Defined.

(** The builder writes a field with tag 0, which the parser does not read. *)
Lemma tag_zero_unreadable : exists n b', (b ← set 0 [x31] (new_builder (Some (replicate 64 x00)) 64); finish [x46; x49; x58] b) = Some (n, b') /\
  n = 21 /\ (m ← buf_ b'; parse 8 1000 (take 21 m)) = Some (Err pInvalidFormat).
Proof. eexists _, _. split; [vm_compute; reflexivity|]. split; vm_compute; reflexivity. Qed.

(** [reset] forgets that construction failed: on a buffer smaller than the reserved
    bytes, [finish] then stores the header outside the buffer. *)
Lemma reset_small_buffer_overrun m :
  zlen m = 8 -> finish [x46; x49; x58; x2e; x34; x2e; x34] (new_builder (Some m) 8) = Some (0, new_builder (Some m) 8) /\
  finish [x46; x49; x58; x2e; x34; x2e; x34] (reset (new_builder (Some m) 8)) = None.
Proof. intros Hm. do 8 (destruct m as [|? m]; [done|]). destruct m; [by split|]. unfold zlen in Hm. cbn in Hm. lia. Qed.
