(* ===== verification/FixSession.v ===== *)
(** The FIX session of src/eph-fix/include/eph/fix/session.hpp: Logon and Logout, heartbeats
    and test requests, outbound numbering and inbound gap detection.

    The world is a record of parameters: the readings of the two clocks, in the order in
    which they are taken, and the result of the send callback, a function of everything it
    was handed before.  The session record holds the members and, behind them, what the
    session has done to the world: how often it read each clock, what it handed to the
    callback with the result, and the pairs [on_state_change] was called with.  The units of
    [steady_clock] are nanoseconds.

    Doubles are [spec_float]s, multiplied as IEEE 754 binary64 does.  The outer [option] of
    an operation is [None] where the C++ would access memory out of bounds.  Logging and the
    formatting members are left out, and [ErrorInfo] strings are constructors. *)
From Stdlib Require Import Floats.SpecFloat.
From S2P Require Import Prelude FixText FixTime Framers Fix FixView FixBuilder.
Local Open Scope Z_scope.

(** ** Tags (tags.hpp) *)

Definition SenderCompID : Z := 49.
Definition TargetCompID : Z := 56.
Definition MsgSeqNum : Z := 34.
Definition SendingTime : Z := 52.
Definition BeginSeqNo : Z := 7.
Definition EndSeqNo : Z := 16.
Definition PossDupFlag : Z := 43.
Definition EncryptMethod : Z := 98.
Definition HeartBtInt : Z := 108.
Definition TestReqID : Z := 112.
Definition GapFillFlag : Z := 123.
Definition ResetSeqNumFlag : Z := 141.
Definition NewSeqNo : Z := 36.

Definition Heartbeat : list byte := [x30].
Definition TestRequest : list byte := [x31].
Definition ResendRequest : list byte := [x32].
Definition SequenceReset : list byte := [x34].
Definition Logout : list byte := [x35].
Definition Logon : list byte := [x41].
Definition yes : list byte := [x59].

(** ** Doubles *)

Definition double_of_int (z : Z) : spec_float := binary_normalize 53 1024 z 0 false.
Definition double_mul : spec_float -> spec_float -> spec_float := SFmul 53 1024.
Definition isfinite (d : spec_float) : bool := match d with S754_zero _ | S754_finite _ _ _ => true | _ => false end.

(** [static_cast<int64_t>]: the fraction is cut off; [None] when the result does not fit,
    which is undefined. *)
Definition int_of_double (d : spec_float) : option Z :=
  match d with
  | S754_zero _ => Some 0
  | S754_finite s m e =>
      let a := if 0 <=? e then Z.pos m * 2 ^ e else Z.pos m / 2 ^ (- e) in
      let v := if s then - a else a in
      if (- 2 ^ 63 <=? v) && (v <? 2 ^ 63) then Some v else None
  | _ => None
  end.

(** ** Configuration *)

Inductive SessionState := kDisconnected | kLogonSent | kActive | kLogoutSent.
#[global] Instance SessionState_eq_dec : EqDecision SessionState.
Proof. solve_decision. Defined.

Record FixSessionConfig := mkFixConfig {
  sender_comp_id : list byte;
  target_comp_id : list byte;
  heartbeat_interval_sec : Z;
  reset_seq_on_logon : bool;
  begin_string : list byte;
  heartbeat_timeout_factor : spec_float;
  resend_on_gap : bool;
}.

(** The diagnostics of [validate], in its order. *)
Inductive ConfigError :=
  | NoSender | NoTarget | BadHeartbeat | NoBeginString | FactorNotFinite | FactorTooSmall | FactorTooLarge.

Definition validate (c : FixSessionConfig) : option ConfigError :=
  if decide (sender_comp_id c = []) then Some NoSender else
  if decide (target_comp_id c = []) then Some NoTarget else
  if heartbeat_interval_sec c <=? 0 then Some BadHeartbeat else
  if decide (begin_string c = []) then Some NoBeginString else
  if negb (isfinite (heartbeat_timeout_factor c)) then Some FactorNotFinite else
  if SFleb (heartbeat_timeout_factor c) (double_of_int 1) then Some FactorTooSmall else
  if SFltb (double_of_int 10) (heartbeat_timeout_factor c) then Some FactorTooLarge else
  None.

Inductive ConfigWarning := HeartbeatLarge | HeartbeatShort | SequencePersisted | UncommonVersion.

(** The three versions [warnings] knows: FIX.4.4, FIX.4.2 and FIXT.1.1. *)
Definition common_versions : list (list byte) :=
  [[x46; x49; x58; x2e; x34; x2e; x34]; [x46; x49; x58; x2e; x34; x2e; x32]; [x46; x49; x58; x54; x2e; x31; x2e; x31]].
Definition warnings (c : FixSessionConfig) : list ConfigWarning :=
  (if 120 <? heartbeat_interval_sec c then [HeartbeatLarge] else []) ++
  (if heartbeat_interval_sec c <? 5 then [HeartbeatShort] else []) ++
  (if reset_seq_on_logon c then [] else [SequencePersisted]) ++
  (if bool_decide (begin_string c ∈ common_versions) then [] else [UncommonVersion]).

(** ** State *)

Record World := mkWorld {
  steady_clock : nat -> Z;
  system_clock : nat -> Z;
  send_ : list (list byte * bool) -> list byte -> bool;
}.

Record FixSession := mkSession {
  state_ : SessionState;
  heartbeat_interval_sec_ : Z;
  outbound_seq_ : Z;
  last_inbound_seq_ : Z;
  expected_inbound_seq_ : Z;
  last_sent_time_ : Z;
  last_recv_time_ : Z;
  test_request_pending_ : bool;
  steady_reads : nat;
  system_reads : nat;
  sent : list (list byte * bool);
  changes : list (SessionState * SessionState);
}.

Definition set_state_ v s := mkSession v (heartbeat_interval_sec_ s) (outbound_seq_ s) (last_inbound_seq_ s)
  (expected_inbound_seq_ s) (last_sent_time_ s) (last_recv_time_ s) (test_request_pending_ s) (steady_reads s) (system_reads s) (sent s) (changes s).
Definition set_heartbeat_interval_sec_ v s := mkSession (state_ s) v (outbound_seq_ s) (last_inbound_seq_ s)
  (expected_inbound_seq_ s) (last_sent_time_ s) (last_recv_time_ s) (test_request_pending_ s) (steady_reads s) (system_reads s) (sent s) (changes s).
Definition set_outbound_seq_ v s := mkSession (state_ s) (heartbeat_interval_sec_ s) v (last_inbound_seq_ s)
  (expected_inbound_seq_ s) (last_sent_time_ s) (last_recv_time_ s) (test_request_pending_ s) (steady_reads s) (system_reads s) (sent s) (changes s).
Definition set_last_inbound_seq_ v s := mkSession (state_ s) (heartbeat_interval_sec_ s) (outbound_seq_ s) v
  (expected_inbound_seq_ s) (last_sent_time_ s) (last_recv_time_ s) (test_request_pending_ s) (steady_reads s) (system_reads s) (sent s) (changes s).
Definition set_expected_inbound_seq_ v s := mkSession (state_ s) (heartbeat_interval_sec_ s) (outbound_seq_ s) (last_inbound_seq_ s)
  v (last_sent_time_ s) (last_recv_time_ s) (test_request_pending_ s) (steady_reads s) (system_reads s) (sent s) (changes s).
Definition set_last_sent_time_ v s := mkSession (state_ s) (heartbeat_interval_sec_ s) (outbound_seq_ s) (last_inbound_seq_ s)
  (expected_inbound_seq_ s) v (last_recv_time_ s) (test_request_pending_ s) (steady_reads s) (system_reads s) (sent s) (changes s).
Definition set_last_recv_time_ v s := mkSession (state_ s) (heartbeat_interval_sec_ s) (outbound_seq_ s) (last_inbound_seq_ s)
  (expected_inbound_seq_ s) (last_sent_time_ s) v (test_request_pending_ s) (steady_reads s) (system_reads s) (sent s) (changes s).
Definition set_test_request_pending_ v s := mkSession (state_ s) (heartbeat_interval_sec_ s) (outbound_seq_ s) (last_inbound_seq_ s)
  (expected_inbound_seq_ s) (last_sent_time_ s) (last_recv_time_ s) v (steady_reads s) (system_reads s) (sent s) (changes s).
Definition set_steady_reads v s := mkSession (state_ s) (heartbeat_interval_sec_ s) (outbound_seq_ s) (last_inbound_seq_ s)
  (expected_inbound_seq_ s) (last_sent_time_ s) (last_recv_time_ s) (test_request_pending_ s) v (system_reads s) (sent s) (changes s).
Definition set_system_reads v s := mkSession (state_ s) (heartbeat_interval_sec_ s) (outbound_seq_ s) (last_inbound_seq_ s)
  (expected_inbound_seq_ s) (last_sent_time_ s) (last_recv_time_ s) (test_request_pending_ s) (steady_reads s) v (sent s) (changes s).
Definition set_sent v s := mkSession (state_ s) (heartbeat_interval_sec_ s) (outbound_seq_ s) (last_inbound_seq_ s)
  (expected_inbound_seq_ s) (last_sent_time_ s) (last_recv_time_ s) (test_request_pending_ s) (steady_reads s) (system_reads s) v (changes s).
Definition set_changes v s := mkSession (state_ s) (heartbeat_interval_sec_ s) (outbound_seq_ s) (last_inbound_seq_ s)
  (expected_inbound_seq_ s) (last_sent_time_ s) (last_recv_time_ s) (test_request_pending_ s) (steady_reads s) (system_reads s) (sent s) v.

(** The constructor. *)
Definition new_session (c : FixSessionConfig) : FixSession :=
  mkSession kDisconnected (heartbeat_interval_sec c) 1 0 1 0 0 false 0 0 [] [].

Section Session.
Context (w : World) (cfg_ : FixSessionConfig).

(** ** Clocks, state changes, the callback *)

Definition steady_now (s : FixSession) : Z * FixSession :=
  (steady_clock w (steady_reads s), set_steady_reads (S (steady_reads s)) s).

(** The cast of the count to [uint64_t]. *)
Definition system_now_ns (s : FixSession) : Z * FixSession :=
  (u64 (system_clock w (system_reads s)), set_system_reads (S (system_reads s)) s).

Definition call_send (data : list byte) (s : FixSession) : bool * FixSession :=
  let ok := send_ w (sent s) data in (ok, set_sent (sent s ++ [(data, ok)]) s).

Definition set_state (new_state : SessionState) (s : FixSession) : FixSession :=
  let old := state_ s in
  let s := set_state_ new_state s in
  if decide (old = new_state) then s else set_changes (changes s ++ [(old, new_state)]) s.

Definition update_sent_time (s : FixSession) : FixSession :=
  let '(now, s) := steady_now s in set_last_sent_time_ now s.

Definition update_recv_time (s : FixSession) : FixSession :=
  let '(now, s) := steady_now s in set_last_recv_time_ now s.

(** [duration_cast<seconds>], which rounds towards zero. *)
Definition seconds (ns : Z) : Z := Z.quot ns 1000000000.

(** ** Messages of the session *)

(** The claim of the sequence number is one step here; its interleavings are in
    FixConcurrent.v. *)
Definition fill_session_header (b : builder) (s : FixSession) : option (bool * builder * FixSession) :=
  b ← set SenderCompID (sender_comp_id cfg_) b;
  b ← set TargetCompID (target_comp_id cfg_) b;
  let seq := outbound_seq_ s in
  if UINT32_MAX <=? seq then Some (false, b, s) else
  let s := set_outbound_seq_ (u32 (seq + 1)) s in
  b ← set_int MsgSeqNum seq b;
  let '(now_ns, s) := system_now_ns s in
  b ← set_timestamp SendingTime now_ns kMilliseconds b;
  Some (true, b, s).

Definition send_message (b : builder) (s : FixSession) : option (bool * builder * FixSession) :=
  '(len, b) ← finish (begin_string cfg_) b;
  if len =? 0 then Some (false, b, s) else
  m ← buf_ b;
  span ← slice m 0 (btotal_len_ b);
  let '(ok, s) := call_send span s in
  Some (ok, b, if ok : bool then update_sent_time s else s).

(** A buffer on the stack. *)
Definition stack_builder (size : nat) : builder := new_builder (Some (replicate size x00)) (Z.of_nat size).

Definition send_logon (s : FixSession) : option (bool * FixSession) :=
  b ← set MsgType Logon (stack_builder 512);
  '(ok, b, s) ← fill_session_header b s;
  if negb ok then Some (false, s) else
  b ← set_int EncryptMethod 0 b;
  b ← set_int HeartBtInt (heartbeat_interval_sec cfg_) b;
  b ← (if reset_seq_on_logon cfg_ then set_bool ResetSeqNumFlag true b else Some b);
  '(ok, b, s) ← send_message b s;
  Some (ok, s).

Definition send_logout (s : FixSession) : option (bool * FixSession) :=
  b ← set MsgType Logout (stack_builder 256);
  '(ok, b, s) ← fill_session_header b s;
  if negb ok then Some (false, s) else
  '(ok, b, s) ← send_message b s;
  Some (ok, s).

Definition send_heartbeat (test_req_id : list byte) (s : FixSession) : option (bool * FixSession) :=
  b ← set MsgType Heartbeat (stack_builder 256);
  '(ok, b, s) ← fill_session_header b s;
  if negb ok then Some (false, s) else
  b ← (if decide (test_req_id = []) then Some b else set TestReqID test_req_id b);
  '(ok, b, s) ← send_message b s;
  Some (ok, s).

(** [snprintf(id_buf, 32, "TR%llu", now)]: the text, cut to what the buffer holds. *)
Definition test_req_id (now : Z) : option (list byte) :=
  ds ← format_uint (u64 now);
  Some (take 31 ([x54; x52] ++ ds)).

Definition send_test_request (s : FixSession) : option (bool * FixSession) :=
  let '(now, s) := steady_now s in
  id ← test_req_id now;
  b ← set MsgType TestRequest (stack_builder 256);
  '(ok, b, s) ← fill_session_header b s;
  if negb ok then Some (false, s) else
  b ← set TestReqID id b;
  '(ok, b, s) ← send_message b s;
  Some (ok, if ok : bool then set_test_request_pending_ true s else s).

Definition send_resend_request (begin_seq end_seq : Z) (s : FixSession) : option (bool * FixSession) :=
  b ← set MsgType ResendRequest (stack_builder 256);
  '(ok, b, s) ← fill_session_header b s;
  if negb ok then Some (false, s) else
  b ← set_int BeginSeqNo begin_seq b;
  b ← set_int EndSeqNo end_seq b;
  '(ok, b, s) ← send_message b s;
  Some (ok, s).

Definition send_sequence_reset_gap_fill (new_seq : Z) (s : FixSession) : option (bool * FixSession) :=
  b ← set MsgType SequenceReset (stack_builder 256);
  '(ok, b, s) ← fill_session_header b s;
  if negb ok then Some (false, s) else
  b ← set_bool GapFillFlag true b;
  b ← set_int NewSeqNo new_seq b;
  '(ok, b, s) ← send_message b s;
  Some (ok, s).

(** ** on_rx *)

(** The gap detection; [false] when the message is to be ignored. *)
Definition track_sequence (msg : MessageView) (s : FixSession) : option (bool * FixSession) :=
  match get_int msg MsgSeqNum with
  | None => Some (true, s)
  | Some received_seq =>
      if received_seq <? 1 then Some (false, s) else
      if UINT32_MAX <? received_seq then Some (false, s) else
      let recv := u32 received_seq in
      let expected := expected_inbound_seq_ s in
      let s := set_last_inbound_seq_ recv s in
      let is_dup := bool_decide (get msg PossDupFlag = Some yes) in
      if (expected <? recv) && negb is_dup then
        s ← (if resend_on_gap cfg_ then '(_, s) ← send_resend_request expected (u32 (recv - 1)) s; Some s else Some s);
        Some (true, set_expected_inbound_seq_ (if recv =? UINT32_MAX then UINT32_MAX else u32 (recv + 1)) s)
      else if recv =? expected then
        Some (true, set_expected_inbound_seq_ (if recv =? UINT32_MAX then UINT32_MAX else u32 (recv + 1)) s)
      else Some (true, s)
  end.

Definition kMaxHeartbeatSec : Z := 3600.

(** The interval the server asks for, if it is reasonable. *)
Definition adopt_heartbeat (msg : MessageView) (s : FixSession) : FixSession :=
  match get_int msg HeartBtInt with
  | Some server_hb =>
      if (0 <? server_hb) && (server_hb <=? kMaxHeartbeatSec) then
        if server_hb =? heartbeat_interval_sec_ s then s else set_heartbeat_interval_sec_ server_hb s
      else s
  | None => s
  end.

Definition on_logon (msg : MessageView) (cur_state : SessionState) (s : FixSession) : FixSession :=
  let s := adopt_heartbeat msg s in
  if decide (cur_state = kLogonSent) then set_state kActive s else s.

Definition on_logout (cur_state : SessionState) (s : FixSession) : option FixSession :=
  match cur_state with
  | kLogoutSent => Some (set_state kDisconnected s)
  | kActive => '(_, s) ← send_logout s; Some (set_state kDisconnected s)
  | kLogonSent => Some (set_state kDisconnected s)
  | kDisconnected => Some s
  end.

Definition on_sequence_reset (msg : MessageView) (s : FixSession) : FixSession :=
  match get_int msg NewSeqNo with
  | None => s
  | Some new_seq =>
      if new_seq <? 1 then s else
      if UINT32_MAX <? new_seq then s else
      let ns := u32 new_seq in
      if bool_decide (get msg GapFillFlag = Some yes) then
        if ns <? expected_inbound_seq_ s then s else
        if ns =? expected_inbound_seq_ s then s else set_expected_inbound_seq_ ns s
      else set_expected_inbound_seq_ ns s
  end.

(** The dispatch on the type; [true] for a session-level message. *)
Definition dispatch (type : list byte) (msg : MessageView) (s : FixSession) : option (bool * FixSession) :=
  let cur_state := state_ s in
  if decide (type = Logon) then Some (true, on_logon msg cur_state s) else
  if decide (type = Logout) then s ← on_logout cur_state s; Some (true, s) else
  if decide (type = Heartbeat) then Some (true, set_test_request_pending_ false s) else
  if decide (type = TestRequest) then '(_, s) ← send_heartbeat (default [] (get msg TestReqID)) s; Some (true, s) else
  if decide (type = SequenceReset) then Some (true, on_sequence_reset msg s) else
  if decide (type = ResendRequest) then
    let next := outbound_seq_ s in '(_, s) ← send_sequence_reset_gap_fill next s; Some (true, s) else
  Some (false, s).

(** The defaults of the template [parse]. *)
Definition kMaxFields : Z := 128.

Definition on_rx (data : list byte) (s : FixSession) : option (bool * FixSession) :=
  let s := update_recv_time s in
  result ← parse kMaxFields kDefaultMaxBodyLength data;
  match result with
  | Err _ => Some (true, s)
  | Ok msg =>
      match view_msg_type msg with
      | None => Some (false, s)
      | Some type =>
          '(go_on, s) ← track_sequence msg s;
          if negb go_on then Some (true, s) else dispatch type msg s
      end
  end.

(** ** Timers *)

Definition maybe_send_heartbeat (s : FixSession) : option FixSession :=
  let '(now, s) := steady_now s in
  if heartbeat_interval_sec_ s <=? seconds (now - last_sent_time_ s)
  then '(_, s) ← send_heartbeat [] s; Some s else Some s.

(** [hb_sec * factor], the largest number when that is not finite. *)
Definition timeout_secs (hb_sec : Z) : option Z :=
  let timeout_d := double_mul (double_of_int hb_sec) (heartbeat_timeout_factor cfg_) in
  if isfinite timeout_d then int_of_double timeout_d else Some (2 ^ 63 - 1).

Definition tick (s : FixSession) : option (bool * FixSession) :=
  if decide (state_ s <> kActive) then Some (true, s) else
  let '(now, s) := steady_now s in
  let hb_sec := heartbeat_interval_sec_ s in
  s ← maybe_send_heartbeat s;
  let recv_elapsed := seconds (now - last_recv_time_ s) in
  timeout_secs ← timeout_secs hb_sec;
  if (timeout_secs <=? recv_elapsed) && test_request_pending_ s then
    Some (false, set_state kDisconnected s)
  else if (hb_sec <=? recv_elapsed) && negb (test_request_pending_ s) then
    '(_, s) ← send_test_request s; Some (true, s)
  else Some (true, s).

(** ** Application messages *)

Definition send_app (b : builder) (s : FixSession) : option (bool * builder * FixSession) :=
  if decide (state_ s <> kActive) then Some (false, b, s) else
  '(ok, b, s) ← fill_session_header b s;
  if negb ok then Some (false, b, s) else send_message b s.

(** ** Lifecycle *)

Definition session_reset (s : FixSession) : FixSession :=
  let s := set_state kDisconnected s in
  let s := set_outbound_seq_ 1 s in
  let s := set_expected_inbound_seq_ 1 s in
  let s := set_last_inbound_seq_ 0 s in
  let s := set_test_request_pending_ false s in
  set_heartbeat_interval_sec_ (heartbeat_interval_sec cfg_) s.

(** What other threads do while [logon] and [logout] wait. *)
Inductive bg_op := BRx (data : list byte) | BTick.

Definition run_bg1 (o : bg_op) (s : FixSession) : option FixSession :=
  '(_, s) ← (match o with BRx data => on_rx data s | BTick => tick s end); Some s.
Fixpoint run_bg (os : list bg_op) (s : FixSession) : option FixSession :=
  match os with [] => Some s | o :: os => s ← run_bg1 o s; run_bg os s end.

Inductive LogonError := NotDisconnected | LogonSendFailed | LogonTimeout | NotActiveAfterLogon.
Inductive LogoutError := NotActive | LogoutSendFailed.

(** How the spin loop ended, if it has: [rounds] are what happens in the background between
    its iterations, and it still waits when they are used up. *)
Inductive wait_result := Left | TimedOut | Waiting.

Fixpoint spin_wait (waiting : SessionState) (deadline : Z) (rounds : list (list bg_op)) (s : FixSession)
    : option (wait_result * FixSession) :=
  if decide (state_ s = waiting) then
    let '(now, s) := steady_now s in
    if deadline <=? now then Some (TimedOut, set_state kDisconnected s) else
    match rounds with
    | [] => Some (Waiting, s)
    | r :: rounds => s ← run_bg r s; spin_wait waiting deadline rounds s
    end
  else Some (Left, s).

(** [before] happens between the send and the state change.  The result is [None] while
    the call has not returned. *)
Definition logon (timeout_ns : Z) (before : list bg_op) (rounds : list (list bg_op)) (s : FixSession)
    : option (option (expected unit LogonError) * FixSession) :=
  if decide (state_ s <> kDisconnected) then Some (Some (Err NotDisconnected), s) else
  let s := if reset_seq_on_logon cfg_
           then set_last_inbound_seq_ 0 (set_expected_inbound_seq_ 1 (set_outbound_seq_ 1 s)) else s in
  '(ok, s) ← send_logon s;
  if negb ok then Some (Some (Err LogonSendFailed), s) else
  s ← run_bg before s;
  let s := set_state kLogonSent s in
  let '(now, s) := steady_now s in
  '(r, s) ← spin_wait kLogonSent (now + timeout_ns) rounds s;
  match r with
  | Waiting => Some (None, s)
  | TimedOut => Some (Some (Err LogonTimeout), s)
  | Left =>
      if decide (state_ s <> kActive) then Some (Some (Err NotActiveAfterLogon), s) else
      let '(now, s) := steady_now s in
      Some (Some (Ok tt), set_test_request_pending_ false (set_last_recv_time_ now (set_last_sent_time_ now s)))
  end.

Definition logout (timeout_ns : Z) (before : list bg_op) (rounds : list (list bg_op)) (s : FixSession)
    : option (option (expected unit LogoutError) * FixSession) :=
  if decide (state_ s <> kActive) then Some (Some (Err NotActive), s) else
  '(ok, s) ← send_logout s;
  if negb ok then Some (Some (Err LogoutSendFailed), s) else
  s ← run_bg before s;
  let s := set_state kLogoutSent s in
  let '(now, s) := steady_now s in
  '(r, s) ← spin_wait kLogoutSent (now + timeout_ns) rounds s;
  match r with
  | Waiting => Some (None, s)
  | _ => Some (Some (Ok tt), s)
  end.

End Session.
