(* ===== verification/FixMessages.v ===== *)
(** What the messages of a FIX session (FixSession.v) are: each send function is reduced to
    one description, the setters called before and after [fill_session_header], and that
    description is shown to hand over a message which framer and parser read back as the
    fields that were set, or nothing at all. *)
From S2P Require Import Prelude FixText FixTime Framers Fix FixView FixBuilder FixSession.
Local Open Scope Z_scope.
Local Arguments raw_bytes : simpl never.
Local Arguments header : simpl never.
Local Arguments trailer : simpl never.
Local Arguments FixBuilder.set : simpl never.
Local Arguments set_int : simpl never.
Local Arguments set_bool : simpl never.
Local Arguments set_timestamp : simpl never.
Local Arguments stack_builder : simpl never.
Local Arguments fill_session_header : simpl never.
Local Arguments send_message : simpl never.
Local Arguments format_timestamp : simpl never.
Local Arguments fits : simpl never.

(** ** Calls without the check for duplicates *)

Definition plain (os : list op) : list (bool * op) := pair false <$> os.

(** The fields the calls denote. *)
Definition ops_fields (os : list op) : option (list Field) :=
  mapM (fun o => v ← op_value o; Some (mkField (op_tag o) v)) os.

Lemma wanted_plain os : forall fs, wanted (plain os) fs = (app fs) <$> ops_fields os.
Proof.
  unfold ops_fields. induction os as [|o os IH]; intros fs; cbn; [by rewrite app_nil_r|].
  destruct (op_value o) as [v|]; cbn; [|done]. rewrite IH. unfold ops_fields.
  destruct (mapM _ os) as [vs|]; cbn; [by rewrite <- app_assoc|done].
Qed.

Lemma ops_fields_app os1 os2 :
  ops_fields (os1 ++ os2) = f1 ← ops_fields os1; f2 ← ops_fields os2; Some (f1 ++ f2).
Proof.
  unfold ops_fields. induction os1 as [|o os IH]; cbn.
  - by destruct (mapM _ os2).
  - destruct (op_value o); cbn; [|done]. rewrite IH. destruct (mapM _ os); cbn; [|done]. by destruct (mapM _ os2).
Qed.

Lemma ops_fields_length os fs : ops_fields os = Some fs -> length fs = length os.
Proof. intros H. symmetry. by eapply length_mapM. Qed.

Lemma run_calls_app cs1 : forall cs2 b, run_calls (cs1 ++ cs2) b = b ← run_calls cs1 b; run_calls cs2 b.
Proof. induction cs1 as [|c cs1 IH]; intros cs2 b; cbn; [done|]. destruct (run_call c b); cbn; [apply IH|done]. Qed.

Lemma plain_app os1 os2 : plain (os1 ++ os2) = plain os1 ++ plain os2.
Proof. apply fmap_app. Qed.

Lemma plain_ok os : Forall op_ok os -> Forall (fun c : bool * op => op_ok c.2) (plain os).
Proof. intros H. unfold plain. by rewrite list.Forall_fmap. Qed.

(** ** Configurations and sessions in range *)

Record config_ok (cfg : FixSessionConfig) : Prop := {
  co_valid : validate cfg = None;
  co_begin : begin_string_ok (begin_string cfg);
  co_int : heartbeat_interval_sec cfg < 2 ^ 31;
  co_timeout : forall hb, 0 < hb <= kMaxHeartbeatSec \/ hb = heartbeat_interval_sec cfg -> is_Some (timeout_secs cfg hb);
}.

Record session_ok (cfg : FixSessionConfig) (s : FixSession) : Prop := {
  so_out : 1 <= outbound_seq_ s <= UINT32_MAX;
  so_last : 0 <= last_inbound_seq_ s <= UINT32_MAX;
  so_expected : 1 <= expected_inbound_seq_ s <= UINT32_MAX;
  so_hb : 0 < heartbeat_interval_sec_ s <= kMaxHeartbeatSec \/ heartbeat_interval_sec_ s = heartbeat_interval_sec cfg;
}.

Lemma co_hb cfg : config_ok cfg -> 0 < heartbeat_interval_sec cfg.
Proof.
  intros [H _ _ _]. unfold validate in H. do 2 (destruct (decide _); [done|]).
  destruct (Z.leb_spec (heartbeat_interval_sec cfg) 0); [done|lia].
Qed.

Section Messages.
Context (w : World) (cfg_ : FixSessionConfig).

(** [msg] reads back as the fields [fs], whatever follows it. *)
Definition reads_as (msg : list byte) (fs : list Field) : Prop :=
  forall rest,
    parse kMaxFields kDefaultMaxBodyLength (msg ++ rest) = Some (Ok (mkView fs (zlen msg) (begin_string cfg_))) /\
    exists fr, decode (mkFixFramer kDefaultMaxBodyLength) (msg ++ rest) = Some (Ok fr) /\ total_len fr = zlen msg /\
      frame_bytes (msg ++ rest) fr = Some msg.

(** The session after the callback was handed [msg]. *)
Definition after_send (msg : list byte) (s : FixSession) : FixSession :=
  let ok := send_ w (sent s) msg in
  let s := set_sent (sent s ++ [(msg, ok)]) s in
  if ok then update_sent_time w s else s.

(** A sequence number and a reading of the system clock taken. *)
Definition claimed (s : FixSession) : FixSession :=
  set_system_reads (S (system_reads s)) (set_outbound_seq_ (outbound_seq_ s + 1) s).

Definition header_ops (s : FixSession) : list op :=
  [OSet SenderCompID (sender_comp_id cfg_); OSet TargetCompID (target_comp_id cfg_);
   OInt MsgSeqNum (outbound_seq_ s); OTimestamp SendingTime (u64 (system_clock w (system_reads s))) kMilliseconds].

(** The shape of all messages: calls of setters before and after the session header. *)
Definition build_and_send (b : builder) (pre post : list op) (s : FixSession) : option (bool * builder * FixSession) :=
  b ← run_calls (plain pre) b;
  '(ok, b, s) ← fill_session_header w cfg_ b s;
  if negb ok then Some (false, b, s) else
  b ← run_calls (plain post) b;
  send_message w cfg_ b s.

Definition session_msg (size : nat) (pre post : list op) (s : FixSession) : option (bool * FixSession) :=
  '(ok, _, s) ← build_and_send (stack_builder size) pre post s; Some (ok, s).

(** What it comes to: nothing when the numbers are exhausted, a number without a message
    when a value is refused or there is no room, and otherwise a message that carries the
    number and reads back as the fields [fs] already there and those of the calls. *)
Definition msg_outcome (capacity : Z) (fs : list Field) (pre post : list op) (s : FixSession) (ok : bool) (s' : FixSession) : Prop :=
  if UINT32_MAX <=? outbound_seq_ s then ok = false /\ s' = s else
  match ops_fields (pre ++ header_ops s ++ post) with
  | Some fs' =>
      if fits capacity (begin_string cfg_) (fs ++ fs')
      then exists msg, reads_as msg (fs ++ fs') /\ ok = send_ w (sent s) msg /\ s' = after_send msg (claimed s)
      else ok = false /\ s' = claimed s
  | None => ok = false /\ s' = claimed s
  end.

Lemma header_ops_ok s : session_ok cfg_ s -> Forall op_ok (header_ops s).
Proof.
  intros [[H1 H2] _ _ _]. unfold UINT32_MAX in *. pose proof (wrap_range 64 (system_clock w (system_reads s)) ltac:(lia)).
  repeat constructor; cbn; lia.
Qed.

Lemma fill_session_header_calls b s :
  session_ok cfg_ s ->
  fill_session_header w cfg_ b s =
    if UINT32_MAX <=? outbound_seq_ s
    then b ← run_calls (plain (take 2 (header_ops s))) b; Some (false, b, s)
    else b ← run_calls (plain (header_ops s)) b; Some (true, b, claimed s).
Proof.
  intros [[H1 H2] _ _ _]. unfold fill_session_header, run_calls, run_call. cbn.
  destruct (set SenderCompID _ b) as [b1|]; cbn; [|by destruct (_ <=? _)].
  destruct (set TargetCompID _ b1) as [b2|]; cbn; [|by destruct (_ <=? _)].
  destruct (Z.leb_spec UINT32_MAX (outbound_seq_ s)); [done|].
  destruct (set_int _ _ b2) as [b3|]; cbn; [|done]. destruct (set_timestamp _ _ _ b3); cbn; [|done].
  unfold claimed. cbn. rewrite (wrap_small 32) by (unfold UINT32_MAX in *; lia). done.
Qed.

(** *** Every send function has that shape *)

#[local] Ltac shape :=
  unfold session_msg, build_and_send, run_calls, run_call; cbn;
  match goal with |- mbind _ ?x = _ => destruct x; cbn; [|done] end;
  match goal with |- mbind _ ?x = _ => destruct x as [[[[] ?] ?]|]; cbn; [|done..] end.

Lemma send_logon_shape s :
  send_logon w cfg_ s = session_msg 512 [OSet MsgType Logon]
    ([OInt EncryptMethod 0; OInt HeartBtInt (heartbeat_interval_sec cfg_)] ++
     if reset_seq_on_logon cfg_ then [OBool ResetSeqNumFlag true] else []) s.
Proof.
  unfold send_logon. shape. destruct (set_int _ _ _) as [b1|]; cbn; [|done]. destruct (set_int _ _ b1) as [b2|]; cbn; [|done].
  destruct (reset_seq_on_logon cfg_); cbn; [|done]. by destruct (set_bool _ _ b2).
Qed.

Lemma send_logout_shape s : send_logout w cfg_ s = session_msg 256 [OSet MsgType Logout] [] s.
Proof. unfold send_logout. by shape. Qed.

Lemma send_heartbeat_shape id s :
  send_heartbeat w cfg_ id s = session_msg 256 [OSet MsgType Heartbeat] (if decide (id = []) then [] else [OSet TestReqID id]) s.
Proof. unfold send_heartbeat. shape. destruct (decide _); cbn; [done|]. by destruct (set _ id _). Qed.

Lemma send_resend_request_shape a e s :
  send_resend_request w cfg_ a e s = session_msg 256 [OSet MsgType ResendRequest] [OInt BeginSeqNo a; OInt EndSeqNo e] s.
Proof.
  unfold send_resend_request. shape. destruct (set_int _ _ _) as [b1|]; cbn; [|done]. by destruct (set_int _ _ b1).
Qed.

Lemma send_gap_fill_shape n s :
  send_sequence_reset_gap_fill w cfg_ n s =
    session_msg 256 [OSet MsgType SequenceReset] [OBool GapFillFlag true; OInt NewSeqNo n] s.
Proof.
  unfold send_sequence_reset_gap_fill. shape. destruct (set_bool _ _ _) as [b1|]; cbn; [|done]. by destruct (set_int _ _ b1).
Qed.

Lemma test_req_id_spec now : exists ds, digits ds /\ 1 <= zlen ds <= 20 /\ dec_val ds = u64 now /\
  test_req_id now = Some ([x54; x52] ++ ds).
Proof.
  pose proof (wrap_range 64 now ltac:(lia)).
  destruct (format_uint_spec (u64 now)) as (ds & E & Hd & Hv & Hl); [lia|]. exists ds. unfold test_req_id. rewrite E. cbn.
  split_and!; try done; [lia..|]. do 3 f_equal. apply take_ge. unfold zlen in *. lia.
Qed.

Lemma send_test_request_shape s :
  exists ds, digits ds /\ 1 <= zlen ds <= 20 /\
  send_test_request w cfg_ s =
    '(ok, s) ← session_msg 256 [OSet MsgType TestRequest] [OSet TestReqID ([x54; x52] ++ ds)] (steady_now w s).2;
    Some (ok, if ok : bool then set_test_request_pending_ true s else s).
Proof.
  destruct (test_req_id_spec (steady_clock w (steady_reads s))) as (ds & Hd & Hl & _ & E). exists ds. split_and!; [done|lia..|].
  unfold send_test_request. cbn [steady_now fst snd]. rewrite E. cbn [mbind option_bind].
  unfold session_msg, build_and_send, run_calls, run_call. cbn.
  match goal with |- mbind _ ?x = _ => destruct x; cbn; [|done] end.
  match goal with |- mbind _ ?x = _ => destruct x as [[[[] ?] ?]|]; cbn; [|done..] end.
  destruct (set TestReqID _ _) as [b1|]; cbn; [|done]. by destruct (send_message _ _ b1 _) as [[[[] ?] ?]|].
Qed.

(** *** The outcome *)

Lemma send_message_spec b fs s :
  config_ok cfg_ -> holds b (body_of fs) -> Forall field_ok fs -> zlen fs <= kMaxFields -> capacity_ b <= kDefaultMaxBodyLength ->
  exists b', if fits (capacity_ b) (begin_string cfg_) fs
    then exists msg, reads_as msg fs /\ send_message w cfg_ b s = Some (send_ w (sent s) msg, b', after_send msg s)
    else send_message w cfg_ b s = Some (false, b', s).
Proof.
  intros [_ Hbs _ _] Hb Hfs Hn Hcap. unfold kDefaultMaxBodyLength in *.
  destruct (finish_parses b fs (begin_string cfg_) Hb Hfs Hbs ltac:(lia)) as (n & b' & E & H). exists b'.
  unfold send_message. rewrite E. cbn [mbind option_bind]. destruct (fits _ _ _) eqn:Hfit.
  2: { rewrite H. done. }
  destruct H as (msg & left & Hbuf & -> & -> & Hpos & Hparse). exists msg. split.
  - intros rest. apply Hparse; [done|]. unfold fits in Hfit. apply andb_true_iff in Hfit as [_ Hf].
    apply Z.leb_le in Hf. unfold kHeaderReserve, kTrailerLen, kDefaultMaxBodyLength in *. lia.
  - rewrite (proj2 (Z.eqb_neq _ _)) by lia. rewrite Hbuf. cbn [mbind option_bind].
    rewrite (slice_mid [] msg left) by (change (zlen (@nil byte)) with 0; lia). done.
Qed.

Lemma send_message_overflow b s : overflow_ b = true -> send_message w cfg_ b s = Some (false, b, s).
Proof. intros H. unfold send_message, finish. by rewrite H. Qed.

Lemma build_and_send_spec b fs pre post s :
  config_ok cfg_ -> session_ok cfg_ s -> holds b (body_of fs) -> Forall field_ok fs ->
  Forall op_ok pre -> Forall op_ok post -> capacity_ b <= kDefaultMaxBodyLength ->
  (length fs + length pre + length post <= 124)%nat ->
  exists ok b' s', build_and_send b pre post s = Some (ok, b', s') /\ msg_outcome (capacity_ b) fs pre post s ok s'.
Proof.
  intros Hc Hs Hb Hfs Hpre Hpost Hcap Hlen. unfold build_and_send, msg_outcome.
  pose proof (header_ops_ok s Hs) as Hhdr.
  destruct (Z.leb_spec UINT32_MAX (outbound_seq_ s)) as [Hmax|Hmax].
  - assert (Forall op_ok (pre ++ take 2 (header_ops s))) as Hops by (apply list.Forall_app; split; [done|by apply Forall_take]).
    destruct (run_calls_spec _ b fs Hb Hfs (plain_ok _ Hops)) as (b' & E & _).
    rewrite plain_app, run_calls_app in E. destruct (run_calls (plain pre) b) as [b1|]; [|done]. cbn [mbind option_bind] in *.
    rewrite fill_session_header_calls by done. rewrite (proj2 (Z.leb_le _ _)) by done. rewrite E.
    exists false, b', s. done.
  - assert (Forall op_ok (pre ++ header_ops s ++ post)) as Hops by by rewrite !list.Forall_app.
    destruct (run_calls_spec _ b fs Hb Hfs (plain_ok _ Hops)) as (b' & E & Hcap' & H).
    rewrite !plain_app, !run_calls_app in E. destruct (run_calls (plain pre) b) as [b1|]; [|done]. cbn [mbind option_bind] in *.
    rewrite run_calls_app in E. rewrite fill_session_header_calls by done. rewrite (proj2 (Z.leb_gt _ _)) by done.
    destruct (run_calls (plain (header_ops s)) b1) as [b2|]; [|done]. cbn [mbind option_bind negb] in *. rewrite E. cbn [mbind option_bind].
    rewrite wanted_plain in H. destruct (ops_fields _) as [fs'|] eqn:Ef; cbn [fmap option_fmap option_map] in H.
    2: { rewrite send_message_overflow by done. by eexists _, _, _. }
    destruct H as [Hok H]. pose proof (ops_fields_length _ _ Ef) as Hl. rewrite !length_app in Hl. cbn [length header_ops] in Hl.
    destruct (Z.leb_spec (kHeaderReserve + zlen (body_of (fs ++ fs'))) (capacity_ b)) as [Hle|Hgt].
    + rewrite <- (Hcap' (proj1 (h_open _ _ H))) in *.
      destruct (send_message_spec b' (fs ++ fs') (claimed s) Hc H Hok) as (b3 & Hsend); [|lia|].
      { unfold zlen, kMaxFields. rewrite length_app. lia. }
      destruct (fits _ _ _); [|by eexists _, _, _]. destruct Hsend as (msg & Hr & ->). eexists _, _, _. split; [done|]. by exists msg.
    + rewrite send_message_overflow by done. eexists _, _, _. split; [done|].
      unfold fits. rewrite andb_comm, (proj2 (Z.leb_gt _ (capacity_ b))); [done|]. unfold kTrailerLen. lia.
Qed.

Lemma session_msg_spec size pre post s :
  config_ok cfg_ -> session_ok cfg_ s -> Forall op_ok pre -> Forall op_ok post ->
  32 <= Z.of_nat size <= kDefaultMaxBodyLength -> (length pre + length post <= 124)%nat ->
  exists ok s', session_msg size pre post s = Some (ok, s') /\ msg_outcome (Z.of_nat size) [] pre post s ok s'.
Proof.
  intros Hc Hs Hpre Hpost Hsize Hlen.
  assert (holds (stack_builder size) (body_of [])) as Hb.
  { apply holds_new; [unfold zlen; by rewrite length_replicate|unfold kHeaderReserve; lia]. }
  assert (capacity_ (stack_builder size) = Z.of_nat size) as Ec by (unfold stack_builder, new_builder; by destruct (_ <? _)).
  destruct (build_and_send_spec (stack_builder size) [] pre post s) as (ok & b' & s' & E & H); try done; [lia|].
  rewrite Ec in H. exists ok, s'. unfold session_msg. by rewrite E.
Qed.

(** *** Messages that fit *)

(** CompIDs and BeginString short enough for the buffers of the session. *)
Record small_config : Prop := {
  sc_sender : has_soh (sender_comp_id cfg_) = false /\ zlen (sender_comp_id cfg_) <= 40;
  sc_target : has_soh (target_comp_id cfg_) = false /\ zlen (target_comp_id cfg_) <= 40;
  sc_begin : zlen (begin_string cfg_) <= 20;
}.

Lemma body_of_app fs1 fs2 : body_of (fs1 ++ fs2) = body_of fs1 ++ body_of fs2.
Proof. unfold body_of, body_bytes. by rewrite !fmap_app, concat_app. Qed.

Lemma zlen_body_of_cons f fs : zlen (body_of (f :: fs)) = zlen (default [] (format_uint (ftag f))) + zlen (fvalue f) + 2 + zlen (body_of fs).
Proof. change (f :: fs) with ([f] ++ fs). rewrite body_of_app, zlen_app. unfold body_of, body_bytes. cbn. rewrite app_nil_r, zlen_raw. done. Qed.

Lemma zlen_timestamp ns : zlen (format_timestamp ns kMilliseconds) = 21.
Proof. unfold format_timestamp. by destruct (civil_of_days _) as [[y m] d]. Qed.

(** The fields of a session message of type [c] with the fields [fp] after the header. *)
Definition session_fields (c : list byte) (v ts : list byte) (fp : list Field) : list Field :=
  [mkField MsgType c; mkField SenderCompID (sender_comp_id cfg_); mkField TargetCompID (target_comp_id cfg_);
   mkField MsgSeqNum v; mkField SendingTime ts] ++ fp.

Lemma small_fits c v ts fp :
  small_config -> zlen c = 1 -> zlen v <= 10 -> zlen ts = 21 -> zlen (body_of fp) <= 60 ->
  fits 256 (begin_string cfg_) (session_fields c v ts fp) = true.
Proof.
  intros [[_ H1] [_ H2] H3] Hc Hv Hts Hfp. unfold fits.
  set (fs := session_fields c v ts fp).
  assert (zlen (body_of fs) <= 217) as Hb.
  { subst fs. unfold session_fields. cbn [app]. rewrite !zlen_body_of_cons. cbn [ftag fvalue].
    change (zlen (default [] (format_uint MsgType))) with 2. change (zlen (default [] (format_uint SenderCompID))) with 2.
    change (zlen (default [] (format_uint TargetCompID))) with 2. change (zlen (default [] (format_uint MsgSeqNum))) with 2.
    change (zlen (default [] (format_uint SendingTime))) with 2. lia. }
  pose proof (zlen_nonneg (body_of fs)).
  destruct (format_int_u32_len (zlen (body_of fs)) ltac:(lia)) as (ds & Eds & _ & Hds). unfold format_int in Eds.
  rewrite (proj2 (Z.ltb_ge _ 0)), wrap_small in Eds by lia. rewrite Eds. cbn [from_option]. unfold id.
  assert (zlen ds <= 3) as Hds3.
  { destruct (Z.eq_dec (zlen (body_of fs)) 0) as [E0|Hne].
    - rewrite E0 in Eds. vm_compute in Eds. by injection Eds as <-.
    - assert (exists n, 0 <= n <= 2 /\ 10 ^ n <= zlen (body_of fs) < 10 ^ (n + 1)) as (n & Hn & Hr).
      { revert Hb Hne. generalize dependent (zlen (body_of fs)). clear. intros k Hk _ Hb Hne.
        exists (if k <? 10 then 0 else if k <? 100 then 1 else 2). zbool; cbn; lia. }
      destruct (format_uint_len _ n Hr ltac:(lia)) as (ds' & E' & Hl). rewrite Eds in E'. injection E' as <-. lia. }
  apply andb_true_iff. rewrite !Z.leb_le. unfold kHeaderReserve, kTrailerLen. split; [|lia].
  unfold header. repeat (rewrite zlen_app || rewrite zlen_cons). change (zlen (@nil byte)) with 0.
  lia.
Qed.

(** With numbers left and a small configuration, a session message is always handed over. *)
Lemma small_outcome c post fp s ok s' :
  config_ok cfg_ -> small_config -> session_ok cfg_ s -> outbound_seq_ s < UINT32_MAX -> zlen c = 1 -> has_soh c = false ->
  ops_fields post = Some fp -> zlen (body_of fp) <= 60 ->
  msg_outcome 256 [] [OSet MsgType c] post s ok s' ->
  exists msg v ts, reads_as msg (session_fields c v ts fp) /\ parse_int v = Some (outbound_seq_ s) /\
    ok = send_ w (sent s) msg /\ s' = after_send msg (claimed s).
Proof.
  intros Hc Hsm Hs Hlt Hlc Hsoh Hp Hfp. unfold msg_outcome. rewrite (proj2 (Z.leb_gt _ _)) by done.
  rewrite !ops_fields_app, Hp. pose proof (so_out _ _ Hs).
  destruct (format_int_u32_len (outbound_seq_ s)) as (v & Ev & Hv & Hlv); [unfold UINT32_MAX in *; lia|].
  pose proof Hsm as [[H1 _] [H2 _] _]. unfold ops_fields, header_ops. cbn. rewrite Hsoh, H1, H2. cbn. rewrite Ev. cbn.
  set (ts := format_timestamp _ kMilliseconds).
  pose proof (small_fits c v ts fp Hsm Hlc Hlv (zlen_timestamp _) Hfp) as Hfit. unfold session_fields in Hfit.
  cbn [app] in Hfit. rewrite Hfit. intros (msg & Hr & Hok & Hs'). by exists msg, v, ts.
Qed.

End Messages.
