(* ===== verification/FixOps.v ===== *)
(** The operations of a FIX session (FixSession.v) over any run: they are defined on every
    input and keep the session in range, number what they send, and follow the state
    diagram. *)
From S2P Require Import Prelude FixText FixTime Framers Fix FixView FixBuilder FixSession FixMessages.
Local Open Scope Z_scope.
Local Arguments FixBuilder.set : simpl never.
Local Arguments fill_session_header : simpl never.
Local Arguments send_message : simpl never.
Local Arguments session_msg : simpl never.
Local Arguments msg_outcome : simpl never.
Local Arguments header_ops : simpl never.

(** ** Operations of a run *)

Inductive session_op :=
  | OLogon (timeout_ns : Z) (before : list bg_op) (rounds : list (list bg_op))
  | OLogout (timeout_ns : Z) (before : list bg_op) (rounds : list (list bg_op))
  | OReset
  | ORx (data : list byte)
  | OTick
  | OSendApp (b : builder).

Definition run_session_op (w : World) (cfg : FixSessionConfig) (o : session_op) (s : FixSession) : option FixSession :=
  match o with
  | OLogon t before rounds => '(_, s) ← logon w cfg t before rounds s; Some s
  | OLogout t before rounds => '(_, s) ← logout w cfg t before rounds s; Some s
  | OReset => Some (session_reset cfg s)
  | ORx data => '(_, s) ← on_rx w cfg data s; Some s
  | OTick => '(_, s) ← tick w cfg s; Some s
  | OSendApp b => '(_, _, s) ← send_app w cfg b s; Some s
  end.

Fixpoint run_session (w : World) (cfg : FixSessionConfig) (os : list session_op) (s : FixSession) : option FixSession :=
  match os with [] => Some s | o :: os => s ← run_session_op w cfg o s; run_session w cfg os s end.

(** The tags [fill_session_header] sets. *)
Definition session_tags : list Z := [SenderCompID; TargetCompID; MsgSeqNum; SendingTime].

(** The builder an application may pass: not finished, its fields within the limits of the
    parser and without those of the header; or one that has overflowed. *)
Definition app_builder_ok (b : builder) : Prop :=
  overflow_ b = true \/
  exists fs, holds b (body_of fs) /\ Forall field_ok fs /\ Forall (fun f => ftag f ∉ session_tags) fs /\
    (length fs <= 124)%nat /\ capacity_ b <= kDefaultMaxBodyLength.

Definition session_op_ok (o : session_op) : Prop := match o with OSendApp b => app_builder_ok b | _ => True end.

(** Operations that may set the outbound number back to 1. *)
Definition restarts (cfg : FixSessionConfig) (o : session_op) : nat :=
  match o with OReset => 1 | OLogon _ _ _ => if reset_seq_on_logon cfg then 1 else 0 | _ => 0 end.
Definition total_restarts (cfg : FixSessionConfig) (os : list session_op) : nat := sum_list (restarts cfg <$> os).

(** Does another thread run between the send of a Logout and the change of state? *)
Definition logout_races (o : session_op) : bool :=
  match o with OLogout _ (_ :: _) _ => true | _ => false end.

(** ** The state diagram *)

(** With [race], also the step that a Logout reply before the state change allows. *)
Definition edge (race : bool) (a b : SessionState) : bool :=
  match a, b with
  | kDisconnected, kLogonSent | kLogonSent, kActive | kLogonSent, kDisconnected
  | kActive, kLogoutSent | kActive, kDisconnected | kLogoutSent, kDisconnected => true
  | kDisconnected, kLogoutSent => race
  | _, _ => false
  end.

Inductive path (race : bool) : SessionState -> list (SessionState * SessionState) -> SessionState -> Prop :=
  | path_nil a : path race a [] a
  | path_cons a b l c : edge race a b = true -> path race b l c -> path race a ((a, b) :: l) c.

Lemma path_app race a l b l' c : path race a l b -> path race b l' c -> path race a (l ++ l') c.
Proof. induction 1; [done|]. intros. cbn. constructor; auto. Qed.

Lemma path_weaken a l b : path false a l b -> forall race, path race a l b.
Proof. induction 1 as [|a b l c H _ IH]; intros race; constructor; [|done]. destruct race; [|done]. by destruct a, b. Qed.

(** ** Numbered messages *)

Section Numbered.
Context (cfg_ : FixSessionConfig).

(** [msg] is a message of this session with the number [seq]. *)
Definition carries (seq : Z) (msg : list byte) : Prop :=
  exists fs, reads_as cfg_ msg fs /\ (v ← find_field MsgSeqNum fs; parse_int v) = Some seq /\
    find_field SenderCompID fs = Some (sender_comp_id cfg_) /\ find_field TargetCompID fs = Some (target_comp_id cfg_).

(** The messages carry increasing numbers from [a] on, all below [b], but start again
    from 1 at [n] places. *)
Inductive numbered : Z -> list (list byte) -> Z -> nat -> Prop :=
  | nb_nil a b : a <= b -> numbered a [] b 0
  | nb_msg a seq msg ms b n :
      a <= seq < UINT32_MAX -> carries seq msg -> numbered (seq + 1) ms b n -> numbered a (msg :: ms) b n
  | nb_restart a ms b n : numbered 1 ms b n -> numbered a ms b (S n).

Lemma numbered_weaken a a' ms b n : a <= a' -> numbered a' ms b n -> numbered a ms b n.
Proof.
  intros Ha H. destruct H as [a' b H|a' seq msg ms b n H Hc Hms|a' ms b n H].
  - constructor. lia.
  - econstructor; [|done..]. lia.
  - by constructor.
Qed.

Lemma numbered_app a ms b n ms' c m : numbered a ms b n -> numbered b ms' c m -> numbered a (ms ++ ms') c (n + m).
Proof.
  intros H H'. induction H as [a b H|a seq msg ms b n H Hc _ IH|a ms b n _ IH]; cbn.
  - by eapply numbered_weaken.
  - econstructor; eauto.
  - constructor. auto.
Qed.

End Numbered.

(** ** What a send does to the session *)

Section Sends.
Context (w : World) (cfg_ : FixSessionConfig).

(** Sending claims at most one number, and touches the send time and the log of the callback; the
    rest of the session stays. *)
Record sends (s s' : FixSession) : Prop := {
  sd_state : state_ s' = state_ s;
  sd_hb : heartbeat_interval_sec_ s' = heartbeat_interval_sec_ s;
  sd_last : last_inbound_seq_ s' = last_inbound_seq_ s;
  sd_expected : expected_inbound_seq_ s' = expected_inbound_seq_ s;
  sd_recv : last_recv_time_ s' = last_recv_time_ s;
  sd_changes : changes s' = changes s;
  sd_reads : (steady_reads s <= steady_reads s')%nat;
  sd_out : outbound_seq_ s <= outbound_seq_ s' <= Z.min (outbound_seq_ s + 1) UINT32_MAX;
  sd_sent : exists ms, sent s' = sent s ++ ms /\ numbered cfg_ (outbound_seq_ s) ms.*1 (outbound_seq_ s') 0;
}.

Lemma sends_ok s s' : sends s s' -> session_ok cfg_ s -> session_ok cfg_ s'.
Proof.
  intros [_ Hhb Hlast Hexp _ _ _ Hout _] [H1 H2 H3 H4]. constructor; rewrite ?Hhb, ?Hlast, ?Hexp; try done. lia.
Qed.

Lemma sends_refl s : session_ok cfg_ s -> sends s s.
Proof.
  intros [? _ _ _]. constructor; try done; try lia.
  exists []. rewrite app_nil_r. split; [done|]. constructor. lia.
Qed.

Lemma ops_fields_tags os fs : ops_fields os = Some fs -> ftag <$> fs = op_tag <$> os.
Proof.
  unfold ops_fields. revert fs; induction os as [|o os IH]; intros fs; cbn; [by intros [= <-]|].
  destruct (op_value o) as [v|]; cbn; [|done]. destruct (mapM _ os) as [fs'|]; cbn; [|done]. intros [= <-]. cbn. by rewrite IH.
Qed.

Lemma header_fields s fs :
  session_ok cfg_ s -> ops_fields (header_ops w cfg_ s) = Some fs ->
  exists v ts, parse_int v = Some (outbound_seq_ s) /\
    fs = [mkField SenderCompID (sender_comp_id cfg_); mkField TargetCompID (target_comp_id cfg_);
          mkField MsgSeqNum v; mkField SendingTime ts].
Proof.
  intros [Hs _ _ _]. unfold UINT32_MAX in Hs. unfold header_ops, ops_fields. cbn.
  destruct (has_soh (sender_comp_id cfg_)); [done|]. cbn. destruct (has_soh (target_comp_id cfg_)); [done|]. cbn.
  destruct (format_int_parse (outbound_seq_ s) ltac:(lia)) as (v & -> & Hv). cbn. intros [= <-]. by eexists _, _.
Qed.

Lemma find_field_skip t pre rest : t ∉ (ftag <$> pre) -> find_field t (pre ++ rest) = find_field t rest.
Proof.
  induction pre as [|f pre IH]; intros H; [done|]. cbn in *. apply not_elem_of_cons in H as [Hf H].
  rewrite (proj2 (Z.eqb_neq _ _)) by done. auto.
Qed.

(** The message of a send carries the number that was claimed. *)
Lemma outcome_carries fs pre post s fs' msg :
  session_ok cfg_ s -> (forall t, t ∈ session_tags -> t ∉ (ftag <$> fs) ++ (op_tag <$> pre)) ->
  ops_fields (pre ++ header_ops w cfg_ s ++ post) = Some fs' -> reads_as cfg_ msg (fs ++ fs') ->
  carries cfg_ (outbound_seq_ s) msg.
Proof.
  intros Hs Htags Hf Hr. exists (fs ++ fs'). split; [done|]. rewrite !ops_fields_app in Hf.
  destruct (ops_fields pre) as [f1|] eqn:E1; [|done]. cbn in Hf.
  destruct (ops_fields (header_ops w cfg_ s)) as [f2|] eqn:E2; [|done]. cbn in Hf.
  destruct (ops_fields post) as [f3|] eqn:E3; [|done]. cbn in Hf. simplify_eq.
  destruct (header_fields s f2 Hs E2) as (v & ts & Hv & ->). rewrite app_assoc.
  assert (forall t r, t ∈ session_tags -> find_field t ((fs ++ f1) ++ r) = find_field t r) as Hskip.
  { intros t r Ht. apply find_field_skip. rewrite fmap_app, (ops_fields_tags _ _ E1). by apply Htags. }
  rewrite !Hskip by (unfold session_tags; rewrite ?elem_of_cons; tauto). cbn. by rewrite Hv.
Qed.

(** [msg_outcome] as an effect. *)
Lemma outcome_sends capacity fs pre post s ok s' :
  session_ok cfg_ s -> (forall t, t ∈ session_tags -> t ∉ (ftag <$> fs) ++ (op_tag <$> pre)) ->
  msg_outcome w cfg_ capacity fs pre post s ok s' ->
  sends s s' /\ test_request_pending_ s' = test_request_pending_ s.
Proof.
  intros Hs Htags. unfold msg_outcome. destruct (Z.leb_spec UINT32_MAX (outbound_seq_ s)) as [|Hlt].
  { intros [_ ->]. split; [by apply sends_refl|done]. }
  assert (sends s (claimed s)) as Hclaim.
  { pose proof (so_out _ _ Hs). constructor; try done; cbn; try lia. exists []. rewrite app_nil_r. split; [done|]. constructor. lia. }
  destruct (ops_fields _) as [fs'|] eqn:Ef; [|by intros [_ ->]]. destruct (fits _ _ _); [|by intros [_ ->]].
  intros (msg & Hr & _ & ->). pose proof (so_out _ _ Hs).
  pose proof (outcome_carries fs pre post s fs' msg Hs Htags Ef Hr) as Hc. unfold after_send.
  assert (numbered cfg_ (outbound_seq_ s) [msg] (outbound_seq_ s + 1) 0) as Hnum.
  { eapply nb_msg; [split; [reflexivity|lia]|done|]. constructor. lia. }
  destruct (send_ w _ msg); (split; [|done]); constructor; try done; cbn; try lia; eexists; (split; [done|]); exact Hnum.
Qed.

Lemma session_send size type post s :
  config_ok cfg_ -> session_ok cfg_ s -> Forall op_ok post -> 32 <= Z.of_nat size <= kDefaultMaxBodyLength ->
  (length post <= 100)%nat ->
  exists ok s', session_msg w cfg_ size [OSet MsgType type] post s = Some (ok, s') /\
    msg_outcome w cfg_ (Z.of_nat size) [] [OSet MsgType type] post s ok s' /\
    sends s s' /\ test_request_pending_ s' = test_request_pending_ s.
Proof.
  intros Hc Hs Hpost Hsize Hlen.
  destruct (session_msg_spec w cfg_ size [OSet MsgType type] post s) as (ok & s' & E & H); try done; [by repeat constructor|cbn; lia|].
  exists ok, s'. split_and!; [done..| |]; eapply outcome_sends; try done;
    intros t Ht; cbn; unfold session_tags in Ht; intros ->%list_elem_of_singleton; by repeat (apply elem_of_cons in Ht as [Ht|Ht]; [done|]); apply elem_of_nil in Ht.
Qed.

#[local] Ltac session_send :=
  match goal with |- exists ok s', session_msg _ _ ?n [OSet MsgType ?t] ?post ?s = _ /\ _ =>
    let H := fresh in destruct (session_send n t post s) as (? & ? & ? & _ & ? & ?); [done|done| |cbn; unfold kDefaultMaxBodyLength; lia| |by eexists _, _]
  end.

Lemma send_heartbeat_sends id s :
  config_ok cfg_ -> session_ok cfg_ s ->
  exists ok s', send_heartbeat w cfg_ id s = Some (ok, s') /\ sends s s' /\ test_request_pending_ s' = test_request_pending_ s.
Proof. intros. rewrite send_heartbeat_shape. session_send; destruct (decide _); cbn; try lia; by repeat constructor. Qed.

Lemma send_logout_sends s :
  config_ok cfg_ -> session_ok cfg_ s ->
  exists ok s', send_logout w cfg_ s = Some (ok, s') /\ sends s s' /\ test_request_pending_ s' = test_request_pending_ s.
Proof. intros. rewrite send_logout_shape. session_send; cbn; try lia; by repeat constructor. Qed.

Lemma send_logon_sends s :
  config_ok cfg_ -> session_ok cfg_ s ->
  exists ok s', send_logon w cfg_ s = Some (ok, s') /\ sends s s' /\ test_request_pending_ s' = test_request_pending_ s.
Proof.
  intros Hc Hs. rewrite send_logon_shape. pose proof (co_hb _ Hc). pose proof (co_int _ Hc).
  session_send; destruct (reset_seq_on_logon cfg_); cbn; try lia; repeat constructor; cbn; lia.
Qed.

Lemma send_resend_request_sends a e s :
  config_ok cfg_ -> session_ok cfg_ s -> 0 <= a < 2 ^ 32 -> 0 <= e < 2 ^ 32 ->
  exists ok s', send_resend_request w cfg_ a e s = Some (ok, s') /\ sends s s' /\ test_request_pending_ s' = test_request_pending_ s.
Proof. intros. rewrite send_resend_request_shape. session_send; cbn; try lia; repeat constructor; cbn; lia. Qed.

Lemma send_gap_fill_sends n s :
  config_ok cfg_ -> session_ok cfg_ s -> 0 <= n < 2 ^ 32 ->
  exists ok s', send_sequence_reset_gap_fill w cfg_ n s = Some (ok, s') /\ sends s s' /\ test_request_pending_ s' = test_request_pending_ s.
Proof. intros. rewrite send_gap_fill_shape. session_send; cbn; try lia; repeat constructor; cbn; lia. Qed.

(** A reading of the clock or a new flag before or after a send does not matter. *)
Lemma send_test_request_sends s :
  config_ok cfg_ -> session_ok cfg_ s ->
  exists ok s', send_test_request w cfg_ s = Some (ok, s') /\ sends s s' /\
    test_request_pending_ s' = (ok || test_request_pending_ s).
Proof.
  intros Hc Hs. destruct (send_test_request_shape w cfg_ s) as (ds & Hd & Hl & ->).
  assert (session_ok cfg_ (steady_now w s).2) as Hs1 by (destruct Hs; by constructor).
  destruct (session_send 256 TestRequest [OSet TestReqID ([x54; x52] ++ ds)] (steady_now w s).2)
    as (ok & s' & -> & _ & Hsend & Hp); [done..|apply list.Forall_singleton; split; [cbn; unfold TestReqID; lia|done]|unfold kDefaultMaxBodyLength; lia|cbn; lia|].
  cbn [mbind option_bind]. eexists _, _. split; [done|].
  destruct Hsend as [H1 H2 H3 H4 H5 H6 H7 H8 H9]. cbn in H7. destruct ok; (split; [constructor; try done; cbn; lia|done]).
Qed.

End Sends.

(** ** What an operation does to the session *)

Section Effects.
Context (w : World) (cfg_ : FixSessionConfig).

(** It stays in range, the messages are numbered with at most [n] restarts, and the
    reported changes are a path of the diagram from the old to the new state. *)
Record effect (race : bool) (n : nat) (s s' : FixSession) : Prop := {
  ef_ok : session_ok cfg_ s';
  ef_sent : exists ms k, sent s' = sent s ++ ms /\ (k <= n)%nat /\ numbered cfg_ (outbound_seq_ s) ms.*1 (outbound_seq_ s') k;
  ef_path : exists cs, changes s' = changes s ++ cs /\ path race (state_ s) cs (state_ s');
}.

Lemma effect_trans race n m s1 s2 s3 : effect race n s1 s2 -> effect race m s2 s3 -> effect race (n + m) s1 s3.
Proof.
  intros [_ (ms & k & E & Hk & Hn) (cs & Ec & Hp)] [Hok (ms' & k' & E' & Hk' & Hn') (cs' & Ec' & Hp')]. constructor; [done| |].
  - exists (ms ++ ms'), (k + k')%nat. split; [by rewrite E', E, <- app_assoc|]. split; [lia|]. rewrite fmap_app.
    by eapply numbered_app.
  - exists (cs ++ cs'). split; [by rewrite Ec', Ec, <- app_assoc|]. by eapply path_app.
Qed.

Lemma effect_trans0 race s1 s2 s3 : effect race 0 s1 s2 -> effect race 0 s2 s3 -> effect race 0 s1 s3.
Proof. apply effect_trans. Qed.

Lemma effect_weaken race race' n n' s s' :
  effect race n s s' -> (race = race' \/ race = false) -> (n <= n')%nat -> effect race' n' s s'.
Proof.
  intros [Hok (ms & k & E & Hk & Hn) (cs & Ec & Hp)] Hr Hle. constructor; [done| |].
  - exists ms, k. split_and!; [done|lia|done].
  - exists cs. split; [done|]. destruct Hr as [<-| ->]; [done|by apply path_weaken].
Qed.

Lemma sends_effect race s s' : session_ok cfg_ s -> sends cfg_ s s' -> effect race 0 s s'.
Proof.
  intros Hs H. pose proof (sends_ok _ _ _ H Hs). destruct H as [H1 _ _ _ _ H6 _ _ (ms & E & Hn)]. constructor; [done| |].
  - exists ms, 0%nat. split_and!; [done|lia|done].
  - exists []. rewrite H6, H1, app_nil_r. split; [done|constructor].
Qed.

(** Nothing sent, no change of state. *)
Lemma quiet_effect race s s' :
  session_ok cfg_ s' -> sent s' = sent s -> changes s' = changes s -> state_ s' = state_ s ->
  outbound_seq_ s <= outbound_seq_ s' -> effect race 0 s s'.
Proof.
  intros Hok E1 E2 E3 Hle. constructor; [done| |].
  - exists [], 0%nat. rewrite E1, app_nil_r. split_and!; [done|lia|]. by constructor.
  - exists []. rewrite E2, E3, app_nil_r. split; [done|constructor].
Qed.

Lemma set_state_effect race x s :
  session_ok cfg_ s -> edge race (state_ s) x = true \/ state_ s = x -> effect race 0 s (set_state x s).
Proof.
  intros Hok He. assert (session_ok cfg_ (set_state x s)) by (unfold set_state; destruct (decide _); destruct Hok; by constructor).
  unfold set_state in *. destruct (decide (state_ s = x)) as [Ex|Ex].
  - by apply quiet_effect.
  - destruct He as [He|]; [|done]. constructor; [done| |].
    + exists [], 0%nat. cbn. rewrite app_nil_r. split_and!; [done|lia|]. by constructor.
    + exists [(state_ s, x)]. cbn. split; [done|]. apply path_cons; [done|constructor].
Qed.

(** *** Receiving *)

Context (Hc : config_ok cfg_).

(** The steps that receiving and the timer can take. *)
Definition rx_edge (a b : SessionState) : bool :=
  bool_decide (a = b) ||
  match a, b with kLogonSent, kActive | kLogonSent, kDisconnected | kActive, kDisconnected | kLogoutSent, kDisconnected => true | _, _ => false end.

Lemma rx_edge_edge a b : rx_edge a b = true -> edge false a b = true \/ a = b.
Proof. by destruct a, b; cbn; auto. Qed.

Lemma rx_edge_refl a : rx_edge a a = true.
Proof. by destruct a. Qed.

(** An operation that is defined on [s], with its effect. *)
Definition rx_step {A} (r : option (A * FixSession)) (s : FixSession) : Prop :=
  exists x s', r = Some (x, s') /\ effect false 0 s s' /\ rx_edge (state_ s) (state_ s') = true.

Lemma rx_quiet {A} (x : A) s s' :
  session_ok cfg_ s' -> sent s' = sent s -> changes s' = changes s -> state_ s' = state_ s ->
  outbound_seq_ s = outbound_seq_ s' -> rx_step (Some (x, s')) s.
Proof.
  intros. exists x, s'. split; [done|]. split; [apply quiet_effect; try done; lia|].
  replace (state_ s') with (state_ s). apply rx_edge_refl.
Qed.

Lemma rx_step_set_state {A} (x : A) y s :
  session_ok cfg_ s -> rx_edge (state_ s) y = true -> rx_step (Some (x, set_state y s)) s.
Proof.
  intros Hs He. exists x, (set_state y s). split; [done|]. split; [by apply set_state_effect, rx_edge_edge|].
  unfold set_state. by destruct (decide _).
Qed.

Lemma rx_step_sends {A} (x : A) s s' : session_ok cfg_ s -> sends cfg_ s s' -> rx_step (Some (x, s')) s.
Proof.
  intros Hs H. exists x, s'. split; [done|]. split; [by apply sends_effect|].
  rewrite (sd_state _ _ _ H). apply rx_edge_refl.
Qed.

Lemma rx_edge_trans a b c : rx_edge a b = true -> rx_edge b c = true -> rx_edge a c = true.
Proof. by destruct a, b, c. Qed.

Lemma rx_trans {A} (r : option (A * FixSession)) s1 s2 :
  effect false 0 s1 s2 -> rx_edge (state_ s1) (state_ s2) = true -> rx_step r s2 -> rx_step r s1.
Proof.
  intros H1 He (x & s' & -> & H2 & He'). exists x, s'. split; [done|]. split; [by eapply effect_trans0|].
  by eapply rx_edge_trans.
Qed.

Lemma next_seq_range n : 1 <= n <= UINT32_MAX -> 1 <= (if n =? UINT32_MAX then UINT32_MAX else u32 (n + 1)) <= UINT32_MAX.
Proof.
  unfold UINT32_MAX. intros H. destruct (Z.eqb_spec n (2 ^ 32 - 1)); [lia|]. rewrite wrap_small by lia. lia.
Qed.

#[local] Hint Resolve sends_ok : core.
#[local] Ltac ok_update := match goal with H : session_ok _ _ |- _ => destruct H; constructor; cbn; try done; try lia end.

Lemma track_sequence_step msg s : session_ok cfg_ s -> rx_step (track_sequence w cfg_ msg s) s.
Proof.
  intros Hs. unfold track_sequence. destruct (get_int msg MsgSeqNum) as [n|]; [|by apply rx_quiet].
  destruct (Z.ltb_spec n 1); [by apply rx_quiet|]. destruct (Z.ltb_spec UINT32_MAX n); [by apply rx_quiet|].
  cbn zeta. rewrite (wrap_small 32 n) by (unfold UINT32_MAX in *; lia). set (s1 := set_last_inbound_seq_ n s).
  assert (session_ok cfg_ s1) as Hs1 by (subst s1; ok_update).
  pose proof (next_seq_range n ltac:(lia)) as Hnext. set (nx := if n =? UINT32_MAX then _ else _) in *.
  assert (forall s2, session_ok cfg_ s2 -> session_ok cfg_ (set_expected_inbound_seq_ nx s2)) as Hset by (intros; ok_update).
  destruct (_ && _) eqn:Hgap.
  - apply (rx_trans _ _ s1); [by apply quiet_effect|apply rx_edge_refl|].
    destruct (resend_on_gap cfg_); [|by apply rx_quiet; [apply Hset|..]].
    apply andb_true_iff in Hgap as [Hlt _]. apply Z.ltb_lt in Hlt. pose proof (so_expected _ _ Hs).
    destruct (send_resend_request_sends w cfg_ (expected_inbound_seq_ s) (u32 (n - 1)) s1) as (ok & s2 & -> & Hsend & _);
      [done..|unfold UINT32_MAX in *; lia|apply wrap_range; lia|].
    cbn [mbind option_bind]. apply (rx_trans _ _ s2); [by apply sends_effect|rewrite (sd_state _ _ _ Hsend); apply rx_edge_refl|].
    apply rx_quiet; try done. apply Hset. eauto.
  - destruct (n =? expected_inbound_seq_ s); [|by apply rx_quiet]. by apply rx_quiet; [apply Hset|..].
Qed.

Lemma on_logon_step msg s : session_ok cfg_ s -> rx_step (Some (true, on_logon msg (state_ s) s)) s.
Proof.
  intros Hs. unfold on_logon. cbn zeta. set (s1 := adopt_heartbeat msg s).
  assert (session_ok cfg_ s1 /\ sent s1 = sent s /\ changes s1 = changes s /\ state_ s1 = state_ s /\ outbound_seq_ s1 = outbound_seq_ s)
    as (Hs1 & E1 & E2 & E3 & E4).
  { subst s1. unfold adopt_heartbeat. destruct (get_int msg HeartBtInt) as [hb|]; [|done].
    destruct (Z.ltb_spec 0 hb), (Z.leb_spec hb kMaxHeartbeatSec); cbn [andb]; try done.
    destruct (hb =? _); [done|]. split; [ok_update|done]. }
  destruct (decide (state_ s = kLogonSent)) as [E|E].
  - apply (rx_trans _ _ s1); [apply quiet_effect; try done; lia|rewrite E3; apply rx_edge_refl|].
    apply rx_step_set_state; [done|]. by rewrite E3, E.
  - by apply rx_quiet.
Qed.

Lemma on_logout_step s : session_ok cfg_ s -> rx_step (s ← on_logout w cfg_ (state_ s) s; Some (true, s)) s.
Proof.
  intros Hs. unfold on_logout. destruct (state_ s) eqn:E; cbn [mbind option_bind].
  - by apply rx_quiet.
  - apply rx_step_set_state; [done|by rewrite E].
  - destruct (send_logout_sends w cfg_ s Hc Hs) as (ok & s' & -> & Hsend & _). cbn [mbind option_bind].
    apply (rx_trans _ _ s'); [by apply sends_effect|by rewrite (sd_state _ _ _ Hsend), E|].
    apply rx_step_set_state; [eauto|]. by rewrite (sd_state _ _ _ Hsend), E.
  - apply rx_step_set_state; [done|by rewrite E].
Qed.

Lemma on_sequence_reset_step msg s : session_ok cfg_ s -> rx_step (Some (true, on_sequence_reset msg s)) s.
Proof.
  intros Hs. unfold on_sequence_reset. destruct (get_int msg NewSeqNo) as [n|]; [|by apply rx_quiet].
  destruct (Z.ltb_spec n 1); [by apply rx_quiet|]. destruct (Z.ltb_spec UINT32_MAX n); [by apply rx_quiet|].
  cbn zeta. rewrite (wrap_small 32 n) by (unfold UINT32_MAX in *; lia).
  assert (session_ok cfg_ (set_expected_inbound_seq_ n s)) by ok_update.
  destruct (bool_decide _); [|by apply rx_quiet].
  destruct (_ <? _); [by apply rx_quiet|]. destruct (_ =? _); by apply rx_quiet.
Qed.

Lemma dispatch_step type msg s : session_ok cfg_ s -> rx_step (dispatch w cfg_ type msg s) s.
Proof.
  intros Hs. unfold dispatch. cbn zeta.
  destruct (decide (type = Logon)); [by apply on_logon_step|].
  destruct (decide (type = Logout)); [by apply on_logout_step|].
  destruct (decide (type = Heartbeat)); [apply rx_quiet; try done; ok_update|].
  destruct (decide (type = TestRequest)).
  { destruct (send_heartbeat_sends w cfg_ (default [] (get msg TestReqID)) s Hc Hs) as (ok & s' & -> & Hsend & _).
    by apply rx_step_sends. }
  destruct (decide (type = SequenceReset)); [by apply on_sequence_reset_step|].
  destruct (decide (type = ResendRequest)); [|by apply rx_quiet].
  destruct (send_gap_fill_sends w cfg_ (outbound_seq_ s) s Hc Hs) as (ok & s' & -> & Hsend & _).
  { pose proof (so_out _ _ Hs). unfold UINT32_MAX in *. lia. }
  by apply rx_step_sends.
Qed.

Lemma on_rx_step data s : session_ok cfg_ s -> rx_step (on_rx w cfg_ data s) s.
Proof.
  intros Hs. unfold on_rx. set (s1 := update_recv_time w s).
  assert (session_ok cfg_ s1) as Hs1 by (subst s1; ok_update).
  apply (rx_trans _ _ s1); [by apply quiet_effect|apply rx_edge_refl|].
  destruct (parse_total kMaxFields kDefaultMaxBodyLength data) as [[msg|e] ->]; cbn [mbind option_bind]; [|by apply rx_quiet].
  destruct (view_msg_type msg) as [type|]; [|by apply rx_quiet].
  destruct (track_sequence_step msg s1 Hs1) as (go & s2 & -> & H2 & He). cbn [mbind option_bind].
  apply (rx_trans _ _ s2); [done..|]. pose proof (ef_ok _ _ _ _ H2). destruct go; cbn [negb]; [by apply dispatch_step|by apply rx_quiet].
Qed.

(** *** The timer *)

Lemma tick_step s : session_ok cfg_ s -> rx_step (tick w cfg_ s) s.
Proof.
  intros Hs. unfold tick. destruct (decide (state_ s <> kActive)) as [|Ea]; [by apply rx_quiet|].
  apply dec_stable in Ea. cbn [steady_now fst snd]. set (s1 := set_steady_reads _ s).
  assert (session_ok cfg_ s1) as Hs1 by (subst s1; ok_update).
  apply (rx_trans _ _ s1); [by apply quiet_effect|apply rx_edge_refl|].
  unfold maybe_send_heartbeat. cbn [steady_now fst snd]. set (s2 := set_steady_reads _ s1).
  assert (session_ok cfg_ s2) as Hs2 by (subst s2; ok_update).
  assert (exists s3, (if heartbeat_interval_sec_ s2 <=? seconds (steady_clock w (steady_reads s1) - last_sent_time_ s2)
            then '(_, s) ← send_heartbeat w cfg_ [] s2; Some s else Some s2) = Some s3 /\ sends cfg_ s2 s3) as (s3 & -> & Hsend).
  { destruct (_ <=? _); [|exists s2; split; [done|by apply sends_refl]].
    destruct (send_heartbeat_sends w cfg_ [] s2 Hc Hs2) as (ok & s3 & -> & Hsend & _). by exists s3. }
  cbn [mbind option_bind]. assert (session_ok cfg_ s3) as Hs3 by eauto.
  apply (rx_trans _ _ s3).
  { apply (effect_trans0 _ _ s2); [by apply quiet_effect|by apply sends_effect]. }
  { rewrite (sd_state _ _ _ Hsend). cbn. by rewrite Ea. }
  destruct (co_timeout _ Hc (heartbeat_interval_sec_ s1) (so_hb _ _ Hs1)) as [t ->]. cbn [mbind option_bind].
  destruct (_ && _); [apply rx_step_set_state; [done|]; rewrite (sd_state _ _ _ Hsend); cbn; by rewrite Ea|].
  destruct (_ && _); [|by apply rx_quiet].
  destruct (send_test_request_sends w cfg_ s3 Hc Hs3) as (ok & s4 & -> & Hsend' & _). by apply rx_step_sends.
Qed.

Lemma run_bg_step os : forall s, session_ok cfg_ s ->
  exists s', run_bg w cfg_ os s = Some s' /\ effect false 0 s s' /\ rx_edge (state_ s) (state_ s') = true.
Proof.
  induction os as [|o os IH]; intros s Hs; cbn [run_bg].
  { exists s. split; [done|]. split; [by apply quiet_effect|apply rx_edge_refl]. }
  assert (exists s1, run_bg1 w cfg_ o s = Some s1 /\ effect false 0 s s1 /\ rx_edge (state_ s) (state_ s1) = true) as (s1 & -> & H1 & E1).
  { unfold run_bg1. destruct o as [data|].
    - destruct (on_rx_step data s Hs) as (x & s1 & -> & H). by exists s1.
    - destruct (tick_step s Hs) as (x & s1 & -> & H). by exists s1. }
  cbn [mbind option_bind]. destruct (IH s1 (ef_ok _ _ _ _ H1)) as (s' & -> & H2 & E2). exists s'. split; [done|].
  split; [by eapply effect_trans0|by eapply rx_edge_trans].
Qed.

(** *** Waiting *)

(** How the state tells the three outcomes apart. *)
Definition wait_post (waiting : SessionState) (r : wait_result) (s : FixSession) : Prop :=
  match r with Left => state_ s <> waiting | TimedOut => state_ s = kDisconnected | Waiting => state_ s = waiting end.

Lemma set_state_state x s : state_ (set_state x s) = x.
Proof. unfold set_state. destruct (decide _); done. Qed.

Lemma spin_wait_step waiting deadline rounds : forall s, session_ok cfg_ s -> rx_edge waiting kDisconnected = true ->
  exists r s', spin_wait w cfg_ waiting deadline rounds s = Some (r, s') /\ effect false 0 s s' /\
    rx_edge (state_ s) (state_ s') = true /\ wait_post waiting r s'.
Proof.
  induction rounds as [|r rounds IH]; intros s Hs Hw; cbn [spin_wait];
    (destruct (decide (state_ s = waiting)) as [E|E]; [|exists Left, s; split; [done|]; split; [by apply quiet_effect|]; split; [apply rx_edge_refl|done]]);
    cbn [steady_now fst snd]; set (s1 := set_steady_reads _ s);
    (assert (session_ok cfg_ s1) as Hs1 by (subst s1; ok_update));
    (assert (effect false 0 s s1) as H1 by by apply quiet_effect);
    (destruct (_ <=? _);
      [exists TimedOut, (set_state kDisconnected s1); split; [done|]; rewrite set_state_state;
       split; [apply (effect_trans0 _ _ s1); [done|]; apply set_state_effect; [done|]; apply rx_edge_edge; cbn; by rewrite E|];
       split; [by rewrite E|apply set_state_state]|]).
  - exists Waiting, s1. split; [done|]. split; [done|]. split; [apply rx_edge_refl|done].
  - destruct (run_bg_step r s1 Hs1) as (s2 & -> & H2 & E2). cbn [mbind option_bind].
    destruct (IH s2 (ef_ok _ _ _ _ H2) Hw) as (x & s3 & -> & H3 & E3 & Hpost). exists x, s3. split; [done|].
    split; [eapply effect_trans0; [done|]; by eapply effect_trans0|]. split; [|done]. eapply rx_edge_trans; [exact E2|done].
Qed.

(** *** Lifecycle *)

Lemma restart_effect race s s' :
  session_ok cfg_ s' -> sent s' = sent s -> changes s' = changes s -> state_ s' = state_ s -> outbound_seq_ s' = 1 ->
  effect race 1 s s'.
Proof.
  intros Hok E1 E2 E3 E4. constructor; [done| |].
  - exists [], 1%nat. rewrite E1, E4, app_nil_r. split_and!; [done|lia|]. constructor. by constructor.
  - exists []. rewrite E2, E3, app_nil_r. split; [done|constructor].
Qed.

Lemma session_reset_effect race s :
  session_ok cfg_ s -> state_ s = kDisconnected \/ edge race (state_ s) kDisconnected = true -> effect race 1 s (session_reset cfg_ s).
Proof.
  intros Hs He. unfold session_reset. cbn zeta. set (s1 := set_state kDisconnected s).
  assert (effect race 0 s s1) as H1 by (apply set_state_effect; [done|]; tauto).
  apply (effect_trans race 0 1 _ s1); [done|]. apply restart_effect; try done.
  pose proof (ef_ok _ _ _ _ H1). ok_update; unfold UINT32_MAX; lia.
Qed.

(** The part of [logon] and [logout] from the change of state on. *)
Lemma enter_wait_effect race x deadline rounds s :
  session_ok cfg_ s -> edge race (state_ s) x = true \/ state_ s = x -> rx_edge x kDisconnected = true ->
  exists r s', spin_wait w cfg_ x deadline rounds (steady_now w (set_state x s)).2 = Some (r, s') /\ effect race 0 s s' /\
    rx_edge x (state_ s') = true /\ wait_post x r s'.
Proof.
  intros Hs He Hx. set (s1 := set_state x s). assert (effect race 0 s s1) as H1 by by apply set_state_effect.
  pose proof (ef_ok _ _ _ _ H1) as Hs1. set (s2 := (steady_now w s1).2).
  assert (session_ok cfg_ s2) as Hs2 by (subst s2; ok_update).
  destruct (spin_wait_step x deadline rounds s2 Hs2 Hx) as (r & s' & E & H & Hr & Hp). exists r, s'. split; [done|].
  split; [|split; [|done]].
  - apply (effect_trans0 _ _ s1); [done|]. apply (effect_trans0 _ _ s2); [by apply quiet_effect|].
    eapply effect_weaken; [done|by right|done].
  - replace x with (state_ s2) at 1; [done|]. cbn. apply set_state_state.
Qed.

Lemma logon_effect t before rounds s :
  session_ok cfg_ s ->
  exists r s', logon w cfg_ t before rounds s = Some (r, s') /\ effect false (if reset_seq_on_logon cfg_ then 1 else 0) s s'.
Proof.
  intros Hs. unfold logon. destruct (decide (state_ s <> kDisconnected)) as [|Ed].
  { eexists _, _. split; [done|]. eapply effect_weaken; [by apply quiet_effect|by right|lia]. }
  apply dec_stable in Ed. set (s1 := if reset_seq_on_logon cfg_ then _ else s).
  assert (effect false (if reset_seq_on_logon cfg_ then 1 else 0) s s1 /\ state_ s1 = kDisconnected) as [H1 E1].
  { subst s1. destruct (reset_seq_on_logon cfg_); (split; [|done]); [|by apply quiet_effect].
    apply restart_effect; try done. ok_update; unfold UINT32_MAX; lia. }
  pose proof (ef_ok _ _ _ _ H1) as Hs1.
  assert (forall s2, effect false 0 s1 s2 -> effect false (if reset_seq_on_logon cfg_ then 1 else 0) s s2) as Hlift.
  { intros s2 H2. eapply effect_weaken; [by eapply effect_trans|by right|lia]. }
  destruct (send_logon_sends w cfg_ s1 Hc Hs1) as (ok & s2 & -> & Hsend & _). cbn [mbind option_bind].
  assert (effect false 0 s1 s2) as H2 by by apply sends_effect.
  destruct ok; cbn [negb]; [|eexists _, _; split; [done|by apply Hlift]].
  destruct (run_bg_step before s2 (ef_ok _ _ _ _ H2)) as (s3 & -> & H3 & E3). cbn [mbind option_bind].
  rewrite (sd_state _ _ _ Hsend), E1 in E3.
  destruct (enter_wait_effect false kLogonSent (steady_clock w (steady_reads (set_state kLogonSent s3)) + t) rounds s3)
    as (r & s4 & E & H4 & _ & Hp); [apply (ef_ok _ _ _ _ H3)|left; by destruct (state_ s3)|done|].
  cbn [steady_now fst snd] in *. rewrite E. cbn [mbind option_bind].
  assert (effect false 0 s1 s4) as H by (eapply effect_trans0; [done|]; by eapply effect_trans0).
  destruct r; try (eexists _, _; split; [done|by apply Hlift]).
  destruct (decide _); [eexists _, _; split; [done|by apply Hlift]|].
  eexists _, _. split; [done|]. apply Hlift. eapply effect_trans0; [done|]. pose proof (ef_ok _ _ _ _ H4).
  apply quiet_effect; try done. ok_update.
Qed.

Lemma logout_effect t before rounds s :
  session_ok cfg_ s ->
  exists r s', logout w cfg_ t before rounds s = Some (r, s') /\ effect (match before with [] => false | _ => true end) 0 s s'.
Proof.
  intros Hs. unfold logout. destruct (decide (state_ s <> kActive)) as [|Ea].
  { eexists _, _. split; [done|]. by apply quiet_effect. }
  apply dec_stable in Ea. destruct (send_logout_sends w cfg_ s Hc Hs) as (ok & s2 & -> & Hsend & _). cbn [mbind option_bind].
  assert (effect false 0 s s2) as H2 by by apply sends_effect.
  destruct ok; cbn [negb]; [|eexists _, _; split; [done|eapply effect_weaken; [done|by right|done]]].
  destruct (run_bg_step before s2 (ef_ok _ _ _ _ H2)) as (s3 & E3 & H3 & Hedge). rewrite E3. cbn [mbind option_bind].
  rewrite (sd_state _ _ _ Hsend), Ea in Hedge.
  destruct (enter_wait_effect (match before with [] => false | _ => true end) kLogoutSent
    (steady_clock w (steady_reads (set_state kLogoutSent s3)) + t) rounds s3) as (r & s4 & E & H4 & _ & _);
    [apply (ef_ok _ _ _ _ H3)| |done|].
  { left. destruct before; [|by destruct (state_ s3)]. cbn in E3. simplify_eq. by rewrite (sd_state _ _ _ Hsend), Ea. }
  cbn [steady_now fst snd] in *. rewrite E. cbn [mbind option_bind].
  assert (effect (match before with [] => false | _ => true end) 0 s s4) as H.
  { eapply effect_trans0; [|done]. eapply effect_weaken; [by eapply effect_trans0|by right|done]. }
  destruct r; by eexists _, _.
Qed.

Lemma send_app_effect b s :
  session_ok cfg_ s -> app_builder_ok b ->
  exists ok b' s', send_app w cfg_ b s = Some (ok, b', s') /\ sends cfg_ s s' /\
    (state_ s <> kActive -> ok = false /\ s' = s).
Proof.
  intros Hs Hb. unfold send_app. destruct (decide (state_ s <> kActive)) as [|Ea].
  { eexists _, _, _. split; [done|]. split; [by apply sends_refl|done]. }
  destruct Hb as [Hov|(fs & Hb & Hfs & Htags & Hlen & Hcap)].
  - rewrite fill_session_header_calls by done. pose proof (header_ops_ok w cfg_ s Hs) as Hops.
    assert (forall os, Forall op_ok os -> exists b', run_calls (plain os) b = Some b' /\ overflow_ b' = true) as Hrun
      by (intros; apply run_calls_overflow; [by apply plain_ok|done]).
    destruct (Z.leb_spec UINT32_MAX (outbound_seq_ s)) as [|Hlt].
    + destruct (Hrun (take 2 (header_ops w cfg_ s))) as (b' & -> & _); [by apply Forall_take|].
      eexists _, _, _. split; [done|]. split; [by apply sends_refl|done].
    + destruct (Hrun _ Hops) as (b' & -> & Hov'). cbn [mbind option_bind negb].
      rewrite send_message_overflow by done. eexists _, _, _. split; [done|]. split; [|done].
      pose proof (so_out _ _ Hs). constructor; try done; cbn; try lia. exists []. rewrite app_nil_r. split; [done|]. constructor. lia.
  - destruct (build_and_send_spec w cfg_ b fs [] [] s) as (ok & b' & s' & E & H); try done; [cbn; lia|].
    unfold build_and_send in E. cbn [run_calls plain fmap list_fmap mbind option_bind] in E.
    exists ok, b', s'. split; [|split; [|done]].
    + rewrite <- E. destruct (fill_session_header w cfg_ b s) as [[[[] ?] ?]|]; done.
    + eapply outcome_sends; [done| |done]. intros t Ht. cbn. rewrite app_nil_r. intros (f & -> & Hf)%list_elem_of_fmap.
      rewrite list.Forall_forall in Htags. by apply (Htags f).
Qed.

Lemma run_session_op_effect o s :
  session_ok cfg_ s -> session_op_ok o ->
  exists s', run_session_op w cfg_ o s = Some s' /\ effect (logout_races o) (restarts cfg_ o) s s'.
Proof.
  intros Hs Ho. destruct o as [t before rounds|t before rounds| |data| |b]; cbn [run_session_op logout_races restarts].
  - destruct (logon_effect t before rounds s Hs) as (r & s' & -> & H). by exists s'.
  - destruct (logout_effect t before rounds s Hs) as (r & s' & -> & H). by exists s'.
  - eexists. split; [done|]. apply session_reset_effect; [done|]. destruct (state_ s); auto.
  - destruct (on_rx_step data s Hs) as (r & s' & -> & H & _). by exists s'.
  - destruct (tick_step s Hs) as (r & s' & -> & H & _). by exists s'.
  - destruct (send_app_effect b s Hs Ho) as (ok & b' & s' & -> & H & _). exists s'. split; [done|]. by apply sends_effect.
Qed.

Lemma run_session_effect os : forall s, session_ok cfg_ s -> Forall session_op_ok os ->
  exists s', run_session w cfg_ os s = Some s' /\ effect (existsb logout_races os) (total_restarts cfg_ os) s s'.
Proof.
  induction os as [|o os IH]; intros s Hs Hos; cbn [run_session existsb].
  { exists s. split; [done|]. by apply quiet_effect. }
  apply list.Forall_cons in Hos as [Ho Hos]. destruct (run_session_op_effect o s Hs Ho) as (s1 & -> & H1). cbn [mbind option_bind].
  destruct (IH s1 (ef_ok _ _ _ _ H1) Hos) as (s' & -> & H2). exists s'. split; [done|].
  change (total_restarts cfg_ (o :: os)) with (restarts cfg_ o + total_restarts cfg_ os)%nat.
  eapply effect_trans; (eapply effect_weaken; [done| |done]).
  - destruct (logout_races o); auto.
  - destruct (logout_races o), (existsb logout_races os); auto.
Qed.

End Effects.

(** ** A sample session *)

(** A factor of 1.5. *)
Definition demo_factor : SpecFloat.spec_float := SpecFloat.S754_finite false 6755399441055744 (-52).
Definition demo_cfg : FixSessionConfig :=
  mkFixConfig [x41] [x42] 30 true [x46; x49; x58; x2e; x34; x2e; x34] demo_factor true.

(** Both clocks advance a second at each reading, and every send succeeds. *)
Definition demo_world : World :=
  mkWorld (fun k => Z.of_nat k * 1000000000) (fun k => 1700000000000000000 + Z.of_nat k * 1000000000) (fun _ _ => true).

(** A message of the peer. *)
Definition demo_msg (os : list op) : list byte :=
  match (b ← run_calls (plain os) (stack_builder 256); finish (begin_string demo_cfg) b) with
  | Some (n, b) => take (Z.to_nat n) (default [] (buf_ b))
  | None => []
  end.

Definition demo_logon : list byte := demo_msg [OSet MsgType Logon; OInt MsgSeqNum 1; OInt HeartBtInt 20].
Definition demo_app : builder := default (stack_builder 0) (FixBuilder.set MsgType [x44] (stack_builder 256)).

Lemma timeouts_defined cfg :
  forallb (fun n => bool_decide (is_Some (timeout_secs cfg (Z.of_nat n)))) (seq 1 3600) = true ->
  is_Some (timeout_secs cfg (heartbeat_interval_sec cfg)) ->
  forall hb, 0 < hb <= kMaxHeartbeatSec \/ hb = heartbeat_interval_sec cfg -> is_Some (timeout_secs cfg hb).
Proof.
  intros Hall Hcfg hb [Hhb| ->]; [|done]. rewrite forallb_forall in Hall.
  specialize (Hall (Z.to_nat hb)). rewrite in_seq, Z2Nat.id, bool_decide_eq_true in Hall by lia. apply Hall. unfold kMaxHeartbeatSec in *. lia.
Qed.

Lemma demo_cfg_ok : config_ok demo_cfg.
Proof.
  constructor; [reflexivity| |reflexivity|apply timeouts_defined; [vm_compute; reflexivity|by eexists]].
  split; [done|]. split; [vm_compute; discriminate|].
  split; intros Hin; by repeat (apply elem_of_cons in Hin as [Hin|Hin]; [done|]); apply elem_of_nil in Hin.
Qed.

Lemma new_session_ok cfg : session_ok cfg (new_session cfg).
Proof. constructor; cbn; unfold UINT32_MAX; auto; lia. Qed.

Lemma demo_app_ok : app_builder_ok demo_app.
Proof.
  right. exists [mkField MsgType [x44]]. split; [|split; [|split; [|split]]].
  - constructor; [|done..]. exists (replicate 32 x00), (drop 37 (default [] (buf_ demo_app))). by vm_compute.
  - repeat constructor. apply soh_const. done.
  - constructor; [|constructor]. intros Hin. by repeat (apply elem_of_cons in Hin as [Hin|Hin]; [done|]); apply elem_of_nil in Hin.
  - cbn. lia.
  - vm_compute. discriminate.
Qed.

(** ** Properties *)

(** C7: outbound numbering.  On any run of logons, logouts, resets, timer ticks,
    application messages and received bytes whatever, with other threads receiving while
    [logon] and [logout] wait, every operation is defined (no access out of bounds, no
    undefined conversion) and the session stays in the ranges of its types.  Whatever it
    handed to the send callback are FIX messages that parser and framer read back, with the
    CompIDs of the configuration, and their MsgSeqNum increase strictly and stay below
    2^32 - 1, starting again at 1 only at a reset or a logon with ResetSeqNumFlag. *)
Theorem fix_session_numbering w cfg os s :
  config_ok cfg -> session_ok cfg s -> Forall session_op_ok os ->
  exists s' ms k, run_session w cfg os s = Some s' /\ session_ok cfg s' /\
    sent s' = sent s ++ ms /\ (k <= total_restarts cfg os)%nat /\
    numbered cfg (outbound_seq_ s) ms.*1 (outbound_seq_ s') k.
Proof.
  intros Hc Hs Hos. destruct (run_session_effect w cfg Hc os s Hs Hos) as (s' & E & [Hok (ms & k & H) _]). by exists s', ms, k.
Qed.

Definition demo_session_ops : list session_op :=
  [OLogon 5000000000 [] [[BRx demo_logon]; [BTick]]; ORx (demo_msg [OSet MsgType TestRequest; OInt MsgSeqNum 2; OSet TestReqID [x58]]);
   OSendApp demo_app; ORx [x38; x3d]; ORx (demo_msg [OSet MsgType [x38]; OInt MsgSeqNum 7]); OLogout 1000000000 [] [[]]].

Lemma demo_session_ops_ok : Forall session_op_ok demo_session_ops.
Proof. repeat (constructor; [first [exact I | exact demo_app_ok]|]). constructor. Qed.

Lemma fix_session_numbering_witness :
  exists s' (ms : list (list byte * bool)), run_session demo_world demo_cfg demo_session_ops (new_session demo_cfg) = Some s' /\
    length ms = 5%nat /\ outbound_seq_ s' = 6 /\ expected_inbound_seq_ s' = 8 /\
    exists k, (k <= 1)%nat /\ numbered demo_cfg 1 ms.*1 6 k.
Proof.
  destruct (fix_session_numbering demo_world demo_cfg demo_session_ops (new_session demo_cfg) demo_cfg_ok (new_session_ok _) demo_session_ops_ok)
    as (s' & ms & k & E & _ & Hms & Hk & Hnum).
  exists s', ms. split; [exact E|].
  assert (option_map (fun s => (length (sent s), outbound_seq_ s, expected_inbound_seq_ s))
    (run_session demo_world demo_cfg demo_session_ops (new_session demo_cfg)) = Some (5%nat, 6, 8)) as H by (vm_compute; reflexivity).
  rewrite E in H. cbn [option_map] in H. injection H as H1 H2 H3. rewrite Hms, length_app in H1. cbn [sent new_session length] in H1.
  split; [exact H1|]. split; [exact H2|]. split; [exact H3|]. exists k. split; [exact Hk|]. rewrite H2 in Hnum. exact Hnum.
Defined.

(** C29: the state machine.  On any such run, the pairs that [on_state_change] is called
    with form a path of the diagram DISCONNECTED -> LOGON_SENT -> ACTIVE -> LOGOUT_SENT ->
    DISCONNECTED with the short cuts to DISCONNECTED, from the old state to the new one:
    ACTIVE is reached only through LOGON_SENT.  Only if another thread receives between
    the sending of a Logout and the change of state, the step DISCONNECTED -> LOGOUT_SENT
    can occur too.  [send_app] refuses in every state but ACTIVE, and then takes no number
    and sends nothing. *)
Theorem fix_session_state_machine w cfg os s s' :
  config_ok cfg -> session_ok cfg s -> Forall session_op_ok os -> run_session w cfg os s = Some s' ->
  (exists cs, changes s' = changes s ++ cs /\ path (existsb logout_races os) (state_ s) cs (state_ s')) /\
  (forall b, state_ s' <> kActive -> send_app w cfg b s' = Some (false, b, s')).
Proof.
  intros Hc Hs Hos E. destruct (run_session_effect w cfg Hc os s Hs Hos) as (s1 & E1 & [_ _ Hp]). simplify_eq. split; [done|].
  intros b Hb. unfold send_app. by rewrite decide_True.
Qed.

Lemma fix_session_state_machine_witness :
  exists s', run_session demo_world demo_cfg demo_session_ops (new_session demo_cfg) = Some s' /\ state_ s' = kDisconnected /\
    length (changes s') = 4%nat /\ path false kDisconnected (changes s') kDisconnected.
Proof.
  assert (option_map (fun s => (state_ s, length (changes s)))
    (run_session demo_world demo_cfg demo_session_ops (new_session demo_cfg)) = Some (kDisconnected, 4%nat)) as H by (vm_compute; reflexivity).
  destruct (run_session demo_world demo_cfg demo_session_ops (new_session demo_cfg)) as [s'|] eqn:E; [|discriminate H].
  cbn [option_map] in H. injection H as H1 H2.
  destruct (fix_session_state_machine demo_world demo_cfg demo_session_ops (new_session demo_cfg) s' demo_cfg_ok (new_session_ok _) demo_session_ops_ok E)
    as [(cs & Hcs & Hp) _].
  exists s'. split; [reflexivity|]. split; [exact H1|]. split; [exact H2|]. rewrite Hcs. rewrite H1 in Hp. exact Hp.
Defined.
