(* ===== verification/FixConcurrent.v ===== *)
(** The claim of an outbound sequence number by several threads at once:
    [fill_session_header] of src/eph-fix/include/eph/fix/session.hpp, access by access.

    The application thread and the receiving thread both run the loop of [load] and
    [compare_exchange_weak] on the same counter.  Every access is one step of a machine that
    interleaves the threads arbitrarily; as all accesses are to one atomic object, their
    modification order makes this sequentially consistent whatever their memory order. *)
From S2P Require Import Prelude Fix.
Local Open Scope Z_scope.

(** Before the load; at the head of the loop with the value read; after it. *)
Inductive claim_pc := PLoad | PLoop (seq : Z) | PClaimed (seq : Z) | PRefused.

Record claim_state := mkClaim {
  counter : Z;
  threads : list claim_pc;
  claims : list (nat * Z);
}.

(** One step of thread [i].  The exchange is weak: it may fail on the expected value. *)
Inductive claim_step (i : nat) : claim_state -> claim_state -> Prop :=
  | step_load c ts l :
      ts !! i = Some PLoad -> claim_step i (mkClaim c ts l) (mkClaim c (<[i := PLoop c]> ts) l)
  | step_refuse c ts l seq :
      ts !! i = Some (PLoop seq) -> UINT32_MAX <= seq ->
      claim_step i (mkClaim c ts l) (mkClaim c (<[i := PRefused]> ts) l)
  | step_exchange c ts l seq :
      ts !! i = Some (PLoop seq) -> seq < UINT32_MAX -> c = seq ->
      claim_step i (mkClaim c ts l) (mkClaim (u32 (seq + 1)) (<[i := PClaimed seq]> ts) (l ++ [(i, seq)]))
  | step_retry c ts l seq :
      ts !! i = Some (PLoop seq) -> seq < UINT32_MAX ->
      claim_step i (mkClaim c ts l) (mkClaim c (<[i := PLoop c]> ts) l)
  | step_next c ts l seq :
      ts !! i = Some (PClaimed seq) -> claim_step i (mkClaim c ts l) (mkClaim c (<[i := PLoad]> ts) l)
  | step_again c ts l :
      ts !! i = Some PRefused -> claim_step i (mkClaim c ts l) (mkClaim c (<[i := PLoad]> ts) l).

Inductive claim_steps : claim_state -> claim_state -> Prop :=
  | steps_refl x : claim_steps x x
  | steps_step i x y z : claim_step i x y -> claim_steps y z -> claim_steps x z.

(** From the counter [a]: the claims so far are consecutive, a value read is not ahead of the
    counter, a claim held is in the log, and a refusal means exhaustion. *)
Record claim_inv (a : Z) (x : claim_state) : Prop := {
  ci_range : 1 <= a <= counter x /\ counter x <= UINT32_MAX;
  ci_claims : (claims x).*2 = seqZ a (counter x - a);
  ci_threads : forall i pc, threads x !! i = Some pc ->
    match pc with
    | PLoad => True
    | PLoop seq => seq <= counter x
    | PClaimed seq => (i, seq) ∈ claims x
    | PRefused => counter x = UINT32_MAX
    end;
}.

Lemma thread_update (P : nat -> claim_pc -> Prop) (ts : list claim_pc) i pc' :
  (forall j pc, ts !! j = Some pc -> P j pc) -> P i pc' -> forall j pc, <[i := pc']> ts !! j = Some pc -> P j pc.
Proof.
  intros H Hi j pc Hj. destruct (decide (i = j)) as [<-|Hne].
  - apply list_lookup_insert_Some in Hj as [(_ & <- & _)|[? _]]; done.
  - rewrite list_lookup_insert_ne in Hj by done. auto.
Qed.

Lemma claim_step_inv a i x y : claim_inv a x -> claim_step i x y -> claim_inv a y.
Proof.
  intros [Hr Hc Ht] Hstep. destruct Hstep as [c ts l E|c ts l seq E Hm|c ts l seq E Hm ->|c ts l seq E Hm|c ts l seq E|c ts l E];
    cbn in *; pose proof (Ht i _ E) as Hi; cbn in Hi.
  - constructor; cbn; [done..|]. apply thread_update; [exact Ht|]. cbn. lia.
  - constructor; cbn; [done..|]. apply thread_update; [exact Ht|]. cbn. lia.
  - rewrite (wrap_small 32) by (unfold UINT32_MAX in *; lia). constructor; cbn; [lia| |].
    + rewrite fmap_app, Hc. cbn. replace (seq + 1 - a) with ((seq - a) + 1) by lia.
      rewrite seqZ_app by lia. f_equal. rewrite seqZ_cons, seqZ_nil by lia. f_equal. lia.
    + apply thread_update; [|apply elem_of_app; right; by apply list_elem_of_singleton].
      intros j pc Hj. specialize (Ht j pc Hj). destruct pc; [done|lia| |lia]. apply elem_of_app. by left.
  - constructor; cbn; [done..|]. apply thread_update; [exact Ht|]. cbn. lia.
  - constructor; cbn; [done..|]. by apply thread_update; [exact Ht|].
  - constructor; cbn; [done..|]. by apply thread_update; [exact Ht|].
Qed.

Lemma claim_steps_inv a x y : claim_steps x y -> claim_inv a x -> claim_inv a y.
Proof. induction 1; [done|]. intros. eauto using claim_step_inv. Qed.

Lemma NoDup_second {A B} (l : list (A * B)) i j x :
  NoDup l.*2 -> (i, x) ∈ l -> (j, x) ∈ l -> i = j.
Proof.
  induction l as [|[k y] l IH]; intros Hn Hi Hj; [by apply elem_of_nil in Hi|]. cbn in Hn. apply list.NoDup_cons in Hn as [Hy Hn].
  assert (forall k', (k', y) ∈ l -> False) as Hno by (intros k' H; apply Hy, list_elem_of_fmap; by exists (k', y)).
  apply elem_of_cons in Hi as [Hi|Hi]; apply elem_of_cons in Hj as [Hj|Hj]; simplify_eq; eauto; exfalso; eauto.
Qed.

(** C8: no number is used twice.  When any number of threads claim outbound numbers from a
    counter at [a] in any interleaving, with exchanges that fail for no reason, the numbers
    handed out so far are exactly [a], [a + 1], ... up to the counter, in that order: two
    threads never hold the same one, none is skipped, and none reaches 2^32 - 1.  A thread is
    refused only when the counter is exhausted; and as long as it is not, a thread at the
    exchange with the current value can take it, and that step leaves every other thread
    that read the same value to retry. *)
Theorem fix_seq_claims_unique a n x :
  1 <= a <= UINT32_MAX -> claim_steps (mkClaim a (replicate n PLoad) []) x ->
  (claims x).*2 = seqZ a (counter x - a) /\ a <= counter x <= UINT32_MAX /\
  (forall i j seq, threads x !! i = Some (PClaimed seq) -> threads x !! j = Some (PClaimed seq) -> i = j) /\
  (forall i, threads x !! i = Some PRefused -> counter x = UINT32_MAX) /\
  (forall i, threads x !! i = Some (PLoop (counter x)) -> counter x < UINT32_MAX ->
     exists y, claim_step i x y /\ counter y = counter x + 1 /\ claims y = claims x ++ [(i, counter x)]).
Proof.
  intros Ha Hx. assert (claim_inv a x) as [Hr Hc Ht].
  { apply (claim_steps_inv a _ _ Hx). constructor; cbn; [lia|by rewrite Z.sub_diag|].
    intros i pc Hi. apply lookup_replicate in Hi as [-> _]. done. }
  split; [done|]. split; [lia|]. split_and!.
  - intros i j seq Hi Hj. eapply (NoDup_second (claims x)); [rewrite Hc; apply NoDup_seqZ|exact (Ht i _ Hi)|exact (Ht j _ Hj)].
  - intros i Hi. exact (Ht i _ Hi).
  - intros i Hi Hlt. destruct x as [c ts l]. cbn in *. eexists. split; [by apply step_exchange|]. cbn.
    rewrite wrap_small by (unfold UINT32_MAX in *; lia). done.
Qed.

(** Two threads race for the same number; the loser retries and takes the next. *)
Lemma fix_seq_claims_unique_witness :
  exists x, claim_steps (mkClaim 7 (replicate 2 PLoad) []) x /\ claims x = [(1%nat, 7); (0%nat, 8)] /\
    (claims x).*2 = seqZ 7 (counter x - 7).
Proof.
  exists (mkClaim 9 [PClaimed 8; PClaimed 7] [(1%nat, 7); (0%nat, 8)]).
  assert (claim_steps (mkClaim 7 (replicate 2 PLoad) []) (mkClaim 9 [PClaimed 8; PClaimed 7] [(1%nat, 7); (0%nat, 8)])) as H.
  { eapply (steps_step 0); [by apply step_load|]. eapply (steps_step 1); [by apply step_load|].
    eapply (steps_step 1); [by apply (step_exchange 1 7 _ _ 7)|]. cbn.
    eapply (steps_step 0); [by apply (step_retry 0 8 _ _ 7)|]. cbn.
    eapply (steps_step 0); [by apply (step_exchange 0 8 _ _ 8)|]. apply steps_refl. }
  split; [exact H|]. split; [reflexivity|].
  refine (proj1 (fix_seq_claims_unique 7 2 _ _ H)). unfold UINT32_MAX. lia.
Defined.
