(* ===== verification/FixInbound.v ===== *)
(** Inbound sequence numbers of a FIX session (FixSession.v): the gap detection of [on_rx]
    and the recovery messages around it. *)
From S2P Require Import Prelude FixText FixTime Framers Fix FixView FixBuilder FixSession FixMessages FixOps.
Local Open Scope Z_scope.
Local Arguments FixBuilder.set : simpl never.
Local Arguments session_msg : simpl never.
Local Arguments msg_outcome : simpl never.
Local Arguments header_ops : simpl never.
Local Arguments format_uint : simpl never.

(** ** What a message says *)

Definition int_field (t : Z) (fs : list Field) : option Z := v ← find_field t fs; parse_int v.

(** [msg] asks for the messages [a] to [e] again. *)
Definition requests (cfg : FixSessionConfig) (a e : Z) (msg : list byte) : Prop :=
  exists fs, reads_as cfg msg fs /\ find_field MsgType fs = Some ResendRequest /\
    int_field BeginSeqNo fs = Some a /\ int_field EndSeqNo fs = Some e.

(** The data holds a message with the number [n]. *)
Definition received (data : list byte) (n : Z) : Prop :=
  exists v, parse kMaxFields kDefaultMaxBodyLength data = Some (Ok v) /\ get_int v MsgSeqNum = Some n.

Definition not_sequence_reset (data : list byte) : Prop :=
  forall v, parse kMaxFields kDefaultMaxBodyLength data = Some (Ok v) -> view_msg_type v <> Some SequenceReset.

(** The number expected after one with [n] arrived while [e] was expected: a number that was
    expected or is ahead moves it behind itself, one behind and a duplicate ahead do not. *)
Definition inbound_next (dup : bool) (e n : Z) : Z :=
  if (n =? e) || ((e <? n) && negb dup) then Z.min (n + 1) UINT32_MAX else e.

Section Inbound.
Context (w : World) (cfg_ : FixSessionConfig) (Hc : config_ok cfg_) (Hsm : small_config cfg_).

Lemma send_resend_request_small a e s :
  session_ok cfg_ s -> outbound_seq_ s < UINT32_MAX -> 0 <= a < 2 ^ 32 -> 0 <= e < 2 ^ 32 ->
  exists msg, requests cfg_ a e msg /\
    send_resend_request w cfg_ a e s = Some (send_ w (sent s) msg, after_send w msg (claimed s)).
Proof.
  intros Hs Hlt Ha He. rewrite send_resend_request_shape.
  destruct (format_int_u32_len a Ha) as (va & Ea & Pa & La), (format_int_u32_len e He) as (ve & Ee & Pe & Le).
  destruct (session_send w cfg_ 256 ResendRequest [OInt BeginSeqNo a; OInt EndSeqNo e] s) as (ok & s' & -> & H & _);
    [done..|repeat constructor; cbn; lia|unfold kDefaultMaxBodyLength; lia|cbn; lia|].
  apply (small_outcome w cfg_ ResendRequest [OInt BeginSeqNo a; OInt EndSeqNo e] [mkField BeginSeqNo va; mkField EndSeqNo ve])
    in H as (msg & v & ts & Hr & _ & -> & ->); try done.
  - exists msg. split; [|done]. exists (session_fields cfg_ ResendRequest v ts [mkField BeginSeqNo va; mkField EndSeqNo ve]).
    split; [done|]. split; [done|]. split; [exact Pa|exact Pe].
  - unfold ops_fields. cbn. by rewrite Ea, Ee.
  - rewrite !zlen_body_of_cons. cbn [ftag fvalue]. change (zlen (body_of [])) with 0.
    change (zlen (default [] (format_uint BeginSeqNo))) with 1. change (zlen (default [] (format_uint EndSeqNo))) with 2. lia.
Qed.

(** [msg] is a SequenceReset-GapFill with its own number and a new one. *)
Definition gap_fill (n ns : Z) (msg : list byte) : Prop :=
  exists fs, reads_as cfg_ msg fs /\ find_field MsgType fs = Some SequenceReset /\ find_field GapFillFlag fs = Some yes /\
    find_field PossDupFlag fs = None /\ int_field MsgSeqNum fs = Some n /\ int_field NewSeqNo fs = Some ns.

Lemma send_gap_fill_small ns s :
  session_ok cfg_ s -> outbound_seq_ s < UINT32_MAX -> 0 <= ns < 2 ^ 32 ->
  exists msg, gap_fill (outbound_seq_ s) ns msg /\
    send_sequence_reset_gap_fill w cfg_ ns s = Some (send_ w (sent s) msg, after_send w msg (claimed s)).
Proof.
  intros Hs Hlt Hns. rewrite send_gap_fill_shape. destruct (format_int_u32_len ns Hns) as (vn & En & Pn & Ln).
  destruct (session_send w cfg_ 256 SequenceReset [OBool GapFillFlag true; OInt NewSeqNo ns] s) as (ok & s' & -> & H & _);
    [done..|repeat constructor; cbn; lia|unfold kDefaultMaxBodyLength; lia|cbn; lia|].
  apply (small_outcome w cfg_ SequenceReset [OBool GapFillFlag true; OInt NewSeqNo ns] [mkField GapFillFlag yes; mkField NewSeqNo vn])
    in H as (msg & v & ts & Hr & Hv & -> & ->); try done.
  - exists msg. split; [|done]. exists (session_fields cfg_ SequenceReset v ts [mkField GapFillFlag yes; mkField NewSeqNo vn]).
    by split_and!.
  - unfold ops_fields. cbn. by rewrite En.
  - rewrite !zlen_body_of_cons. cbn [ftag fvalue]. change (zlen (body_of [])) with 0. change (zlen yes) with 1.
    change (zlen (default [] (format_uint GapFillFlag))) with 3. change (zlen (default [] (format_uint NewSeqNo))) with 2. lia.
Qed.

Lemma after_send_facts msg s :
  sent (after_send w msg (claimed s)) = sent s ++ [(msg, send_ w (sent s) msg)] /\
  expected_inbound_seq_ (after_send w msg (claimed s)) = expected_inbound_seq_ s /\
  last_inbound_seq_ (after_send w msg (claimed s)) = last_inbound_seq_ s /\
  heartbeat_interval_sec_ (after_send w msg (claimed s)) = heartbeat_interval_sec_ s /\
  outbound_seq_ (after_send w msg (claimed s)) = outbound_seq_ s + 1.
Proof. unfold after_send. cbn. by destruct (send_ w _ msg). Qed.

(** ** One message *)

(** What tracking does with a legal number: the request goes out exactly on a gap, and
    covers exactly the missing numbers. *)
Lemma track_sequence_spec msg n s :
  session_ok cfg_ s -> get_int msg MsgSeqNum = Some n -> 1 <= n <= UINT32_MAX -> outbound_seq_ s < UINT32_MAX ->
  let e := expected_inbound_seq_ s in
  let dup := bool_decide (get msg PossDupFlag = Some yes) in
  exists s', track_sequence w cfg_ msg s = Some (true, s') /\ session_ok cfg_ s' /\
    expected_inbound_seq_ s' = inbound_next dup e n /\ last_inbound_seq_ s' = n /\
    outbound_seq_ s <= outbound_seq_ s' <= outbound_seq_ s + 1 /\
    if resend_on_gap cfg_ && ((e <? n) && negb dup)
    then exists req ok, requests cfg_ e (n - 1) req /\ sent s' = sent s ++ [(req, ok)]
    else sent s' = sent s.
Proof.
  intros Hs En Hn Hout e dup. destruct (track_sequence_step w cfg_ Hc msg s Hs) as (x & s0 & E0 & H0 & _).
  pose proof (ef_ok _ _ _ _ _ H0) as Hok0. revert E0. unfold track_sequence. rewrite En.
  rewrite (proj2 (Z.ltb_ge n 1)), (proj2 (Z.ltb_ge UINT32_MAX n)) by lia. cbn zeta.
  rewrite (wrap_small 32 n) by (unfold UINT32_MAX in *; lia). rewrite (wrap_small 32 (n - 1)) by (unfold UINT32_MAX in *; lia).
  fold dup. fold e. pose proof (so_expected _ _ Hs) as He. fold e in He.
  assert ((if n =? UINT32_MAX then UINT32_MAX else u32 (n + 1)) = Z.min (n + 1) UINT32_MAX) as ->.
  { destruct (Z.eqb_spec n UINT32_MAX); [lia|]. rewrite wrap_small by (unfold UINT32_MAX in *; lia). lia. }
  unfold inbound_next. destruct (Z.ltb_spec e n) as [Hgt|Hle], dup; cbn [andb negb orb].
  - rewrite (proj2 (Z.eqb_neq n e)) by lia. rewrite andb_false_r. intros [= <- <-]. eexists. split; [done|]. split_and!; try done; cbn; lia.
  - rewrite orb_true_r. destruct (resend_on_gap cfg_); cbn [andb].
    + set (s1 := set_last_inbound_seq_ n s). assert (session_ok cfg_ s1) as Hs1 by (subst s1; destruct Hs; constructor; cbn; lia).
      destruct (send_resend_request_small e (n - 1) s1) as (req & Hreq & ->); [done|done|unfold UINT32_MAX in *; lia..|].
      destruct (after_send_facts req s1) as (F1 & F2 & F3 & F4 & F5).
      cbn [mbind option_bind]. intros [= <- <-]. eexists. split; [done|]. split; [done|].
      cbn [expected_inbound_seq_ last_inbound_seq_ outbound_seq_ sent set_expected_inbound_seq_].
      rewrite F1, F3, F5. split; [done|]. split; [done|]. split; [cbn; lia|]. by eexists _, _.
    + intros [= <- <-]. eexists. split; [done|]. split_and!; try done; cbn; lia.
  - rewrite orb_false_r, andb_false_r. destruct (Z.eqb_spec n e); intros [= <- <-]; eexists; (split; [done|]); split_and!; try done; cbn; lia.
  - rewrite orb_false_r, andb_false_r. destruct (Z.eqb_spec n e); intros [= <- <-]; eexists; (split; [done|]); split_and!; try done; cbn; lia.
Qed.

(** The handlers other than that of SequenceReset leave the expected number alone. *)
Lemma dispatch_keeps type msg s :
  session_ok cfg_ s -> type <> SequenceReset ->
  exists r s', dispatch w cfg_ type msg s = Some (r, s') /\ session_ok cfg_ s' /\
    expected_inbound_seq_ s' = expected_inbound_seq_ s /\ outbound_seq_ s <= outbound_seq_ s' <= outbound_seq_ s + 1 /\
    exists ms, sent s' = sent s ++ ms.
Proof.
  intros Hs Ht. destruct (dispatch_step w cfg_ Hc type msg s Hs) as (r & s' & E & [Hok (ms & _ & Hms & _) _] & _).
  exists r, s'. split; [done|]. split; [done|].
  revert E. unfold dispatch. cbn zeta.
  assert (forall x, expected_inbound_seq_ (set_state x s) = expected_inbound_seq_ s /\ outbound_seq_ (set_state x s) = outbound_seq_ s) as Hset
    by (intros x; unfold set_state; by destruct (decide _)).
  assert (forall s1, sends cfg_ s s1 -> expected_inbound_seq_ s1 = expected_inbound_seq_ s /\ outbound_seq_ s <= outbound_seq_ s1 <= outbound_seq_ s + 1) as Hsends
    by (intros s1 Hsd; split; [apply (sd_expected _ _ _ Hsd)|pose proof (sd_out _ _ _ Hsd); lia]).
  assert (expected_inbound_seq_ s' = expected_inbound_seq_ s /\ outbound_seq_ s <= outbound_seq_ s' <= outbound_seq_ s + 1 ->
    expected_inbound_seq_ s' = expected_inbound_seq_ s /\ outbound_seq_ s <= outbound_seq_ s' <= outbound_seq_ s + 1 /\ exists ms, sent s' = sent s ++ ms)
    as Hgoal by (intros []; eauto).
  destruct (decide (type = Logon)) as [_|_].
  { intros [= <- <-]. apply Hgoal. unfold on_logon, adopt_heartbeat.
    destruct (get_int msg HeartBtInt) as [hb|]; [destruct (_ && _); [destruct (hb =? _)|]|]; destruct (decide _);
      unfold set_state; cbn; try (destruct (decide _)); cbn; lia. }
  destruct (decide (type = Logout)) as [_|_].
  { unfold on_logout. destruct (state_ s) eqn:Es; cbn [mbind option_bind]; try (intros [= <- <-]; apply Hgoal; rewrite ?(proj1 (Hset _)), ?(proj2 (Hset _)); lia).
    destruct (send_logout_sends w cfg_ s Hc Hs) as (ok & s1 & -> & Hsd & _). cbn [mbind option_bind]. intros [= <- <-].
    apply Hgoal. specialize (Hsends s1 Hsd). unfold set_state. destruct (decide _); cbn; lia. }
  destruct (decide (type = Heartbeat)) as [_|_]; [intros [= <- <-]; apply Hgoal; cbn; lia|].
  destruct (decide (type = TestRequest)) as [_|_].
  { destruct (send_heartbeat_sends w cfg_ (default [] (get msg TestReqID)) s Hc Hs) as (ok & s1 & -> & Hsd & _).
    cbn [mbind option_bind]. intros [= <- <-]. auto. }
  rewrite decide_False by done. destruct (decide (type = ResendRequest)) as [_|_]; [|intros [= <- <-]; apply Hgoal; lia].
  destruct (send_gap_fill_sends w cfg_ (outbound_seq_ s) s Hc Hs) as (ok & s1 & -> & Hsd & _).
  { pose proof (so_out _ _ Hs). unfold UINT32_MAX in *. lia. }
  cbn [mbind option_bind]. intros [= <- <-]. auto.
Qed.

(** ** Accounting *)

(** Every number from [e0] up to [e1] was received with [data] or requested in [ms]. *)
Definition accounted (datas : list (list byte)) (e0 e1 : Z) (ms : list (list byte * bool)) : Prop :=
  e0 <= e1 /\ forall n, e0 <= n < e1 ->
    (exists data, data ∈ datas /\ received data n) \/
    (exists req ok a e, (req, ok) ∈ ms /\ requests cfg_ a e req /\ a <= n <= e).

Lemma accounted_nil datas e ms : accounted datas e e ms.
Proof. split; [done|]. intros. lia. Qed.

Lemma accounted_app datas datas' e0 e1 e2 ms ms' :
  accounted datas e0 e1 ms -> accounted datas' e1 e2 ms' -> accounted (datas ++ datas') e0 e2 (ms ++ ms').
Proof.
  intros [H1 A1] [H2 A2]. split; [lia|]. intros n Hn. destruct (Z.lt_ge_cases n e1).
  - destruct (A1 n ltac:(lia)) as [(d & Hd & Hr)|(req & ok & a & e & Hin & H')].
    + left. exists d. split; [|done]. apply elem_of_app. by left.
    + right. exists req, ok, a, e. split; [|done]. apply elem_of_app. by left.
  - destruct (A2 n ltac:(lia)) as [(d & Hd & Hr)|(req & ok & a & e & Hin & H')].
    + left. exists d. split; [|done]. apply elem_of_app. by right.
    + right. exists req, ok, a, e. split; [|done]. apply elem_of_app. by right.
Qed.

(** An operation on [s] that claims at most [k] numbers and accounts with [datas] for what it
    moves the expected number over. *)
Definition accounts {A} (r : option (A * FixSession)) (datas : list (list byte)) (k : Z) (s : FixSession) : Prop :=
  exists x s' ms, r = Some (x, s') /\ session_ok cfg_ s' /\ sent s' = sent s ++ ms /\ outbound_seq_ s' <= outbound_seq_ s + k /\
    accounted datas (expected_inbound_seq_ s) (expected_inbound_seq_ s') ms.

Lemma accounts_same {A} (x : A) datas k s s' :
  session_ok cfg_ s' -> sent s' = sent s -> outbound_seq_ s' = outbound_seq_ s -> expected_inbound_seq_ s' = expected_inbound_seq_ s ->
  0 <= k -> accounts (Some (x, s')) datas k s.
Proof.
  intros H1 H2 H3 H4 Hk. exists x, s', []. rewrite app_nil_r, H4. split_and!; try done; [lia|apply accounted_nil].
Qed.

Lemma track_sequence_accounts data v s :
  session_ok cfg_ s -> resend_on_gap cfg_ = true -> outbound_seq_ s < UINT32_MAX ->
  parse kMaxFields kDefaultMaxBodyLength data = Some (Ok v) ->
  accounts (track_sequence w cfg_ v s) [data] 1 s.
Proof.
  intros Hs Hres Hout Ep. destruct (get_int v MsgSeqNum) as [n|] eqn:En.
  2: { unfold track_sequence. rewrite En. by apply accounts_same. }
  destruct (decide (1 <= n <= UINT32_MAX)) as [Hn|Hn].
  2: { unfold track_sequence. rewrite En. destruct (Z.ltb_spec n 1); [by apply accounts_same|].
       rewrite (proj2 (Z.ltb_lt UINT32_MAX n)) by lia. by apply accounts_same. }
  destruct (track_sequence_spec v n s Hs En Hn Hout) as (s2 & E2 & Hok2 & Hexp & _ & Ho & Hreq).
  rewrite Hres in Hreq. cbn [andb] in Hreq. pose proof (so_expected _ _ Hs) as He. unfold inbound_next in Hexp.
  set (dup := bool_decide _) in *. set (e := expected_inbound_seq_ s) in *.
  assert (exists d, d ∈ [data] /\ received d n) as Hrecv by (exists data; split; [by apply list_elem_of_singleton|by exists v]).
  destruct ((e <? n) && negb dup) eqn:Hgap.
  - destruct Hreq as (req & ok & Hreq & Ems). rewrite orb_true_r in Hexp. apply andb_true_iff in Hgap as [Hlt%Z.ltb_lt _].
    exists true, s2, [(req, ok)]. split_and!; try done; [lia|]. split; [lia|]. intros k Hk.
    destruct (Z.eq_dec k n) as [->|Hkn]; [by left|]. right. exists req, ok, e, (n - 1).
    split; [by apply list_elem_of_singleton|]. split; [done|]. lia.
  - exists true, s2, []. rewrite app_nil_r. split_and!; try done; [lia|]. rewrite orb_false_r in Hexp.
    destruct (Z.eqb_spec n e) as [->|]; [|rewrite Hexp; apply accounted_nil].
    split; [lia|]. intros k Hk. left. by replace k with e by lia.
Qed.

Lemma on_rx_accounts data s :
  session_ok cfg_ s -> resend_on_gap cfg_ = true -> not_sequence_reset data -> outbound_seq_ s < UINT32_MAX ->
  accounts (on_rx w cfg_ data s) [data] 2 s.
Proof.
  intros Hs Hres Hnot Hout. unfold on_rx. set (s1 := update_recv_time w s).
  assert (session_ok cfg_ s1) as Hs1 by (destruct Hs; by constructor).
  destruct (parse_total kMaxFields kDefaultMaxBodyLength data) as [[v|err] Ep]; rewrite Ep; cbn [mbind option_bind];
    [|by apply accounts_same].
  destruct (view_msg_type v) as [type|] eqn:Et; [|by apply accounts_same].
  assert (type <> SequenceReset) as Htype by (intros ->; by apply (Hnot v Ep)).
  destruct (track_sequence_accounts data v s1 Hs1 Hres Hout Ep) as (go & s2 & ms & -> & Hs2 & Ems & Ho2 & Hacc).
  cbn [mbind option_bind]. change (sent s1) with (sent s) in Ems. change (outbound_seq_ s1) with (outbound_seq_ s) in Ho2.
  destruct go; cbn [negb].
  2: { exists true, s2, ms. split_and!; try done; lia. }
  destruct (dispatch_keeps type v s2 Hs2 Htype) as (r & s3 & -> & Hs3 & E3 & Ho3 & ms' & Ems').
  exists r, s3, (ms ++ ms'). split; [done|]. split; [done|]. split; [by rewrite Ems', Ems, <- app_assoc|].
  split; [lia|]. rewrite E3. apply (accounted_app [data] [] _ (expected_inbound_seq_ s2)); [exact Hacc|apply accounted_nil].
Qed.

Lemma run_rx_accounts datas : forall s,
  session_ok cfg_ s -> resend_on_gap cfg_ = true -> Forall not_sequence_reset datas ->
  outbound_seq_ s + 2 * zlen datas <= UINT32_MAX ->
  exists s' ms, run_bg w cfg_ (BRx <$> datas) s = Some s' /\ sent s' = sent s ++ ms /\
    accounted datas (expected_inbound_seq_ s) (expected_inbound_seq_ s') ms.
Proof.
  induction datas as [|data datas IH]; intros s Hs Hres Hnot Hout.
  { exists s, []. rewrite app_nil_r. split; [done|]. split; [done|apply accounted_nil]. }
  apply list.Forall_cons in Hnot as [Hd Hnot]. rewrite zlen_cons in Hout. pose proof (zlen_nonneg datas).
  destruct (on_rx_accounts data s Hs Hres Hd ltac:(lia)) as (r & s1 & ms & E & Hs1 & Ems & Ho & Hacc).
  destruct (IH s1 Hs1 Hres Hnot ltac:(lia)) as (s' & ms' & E' & Ems' & Hacc').
  exists s', (ms ++ ms'). change (run_bg w cfg_ (BRx <$> data :: datas) s) with (s2 ← run_bg1 w cfg_ (BRx data) s; run_bg w cfg_ (BRx <$> datas) s2).
  unfold run_bg1 at 1. rewrite E. cbn [mbind option_bind]. split; [done|].
  split; [by rewrite Ems', Ems, <- app_assoc|]. by eapply (accounted_app [data]).
Qed.

End Inbound.

(** C27: no gap goes unnoticed.  Let a session with [resend_on_gap] receive any byte strings
    that hold no SequenceReset, in whatever order and with whatever numbers, and let it have
    enough outbound numbers left.  Then the expected number never decreases, and every number
    it moved past was either received with one of the messages or lies in the range of a
    ResendRequest that was handed to the send callback. *)
Theorem fix_no_silent_gap w cfg datas s :
  config_ok cfg -> small_config cfg -> resend_on_gap cfg = true -> session_ok cfg s ->
  Forall not_sequence_reset datas -> outbound_seq_ s + 2 * zlen datas <= UINT32_MAX ->
  exists s' ms, run_bg w cfg (BRx <$> datas) s = Some s' /\ sent s' = sent s ++ ms /\
    expected_inbound_seq_ s <= expected_inbound_seq_ s' /\
    forall n, expected_inbound_seq_ s <= n < expected_inbound_seq_ s' ->
      (exists data, data ∈ datas /\ received data n) \/
      (exists req ok a e, (req, ok) ∈ ms /\ requests cfg a e req /\ a <= n <= e).
Proof.
  intros Hc Hsm Hres Hs Hnot Hout. destruct (run_rx_accounts w cfg Hc Hsm datas s Hs Hres Hnot Hout) as (s' & ms & E & Ems & H).
  exists s', ms. by split; [|split].
Qed.

(** GapFill answers have no effect.  A session that receives a ResendRequest answers
    with a SequenceReset-GapFill whose NewSeqNo is its own MsgSeqNum, because the number is
    read before the message claims it.  Whatever session receives that answer, in whatever
    state, treats it as any message with that number: the GapFill is always rejected as
    pointing backwards and moves the expected number nowhere. *)
Theorem fix_gap_fill_ignored w cfg w' cfg' req v m s s' :
  config_ok cfg -> small_config cfg -> session_ok cfg s -> outbound_seq_ s + 1 < UINT32_MAX ->
  parse kMaxFields kDefaultMaxBodyLength req = Some (Ok v) -> view_msg_type v = Some ResendRequest ->
  get_int v MsgSeqNum = Some m -> 1 <= m <= UINT32_MAX ->
  config_ok cfg' -> small_config cfg' -> session_ok cfg' s' -> outbound_seq_ s' < UINT32_MAX ->
  exists t pre msg ok n, on_rx w cfg req s = Some (true, t) /\ sent t = sent s ++ pre ++ [(msg, ok)] /\ gap_fill cfg n n msg /\
    exists t', on_rx w' cfg' msg s' = Some (true, t') /\
      expected_inbound_seq_ t' = inbound_next false (expected_inbound_seq_ s') n.
Proof.
  intros Hc Hsm Hs Hout Ep Et Em Hm Hc' Hsm' Hs' Hout'. unfold on_rx at 1. rewrite Ep. cbn [mbind option_bind]. rewrite Et.
  set (s1 := update_recv_time w s). assert (session_ok cfg s1) as Hs1 by (destruct Hs; by constructor).
  destruct (track_sequence_spec w cfg Hc Hsm v m s1 Hs1 Em Hm ltac:(cbn; lia)) as (s2 & -> & Hs2 & _ & _ & Ho & Hsent).
  cbn [mbind option_bind negb]. unfold dispatch. cbn zeta. rewrite !decide_False by done. rewrite decide_True by done.
  cbn in Ho. pose proof (so_out _ _ Hs2) as Hr2. unfold UINT32_MAX in Hr2.
  destruct (send_gap_fill_small w cfg Hc Hsm (outbound_seq_ s2) s2) as (msg & Hmsg & ->); [done|lia|lia|]. cbn [mbind option_bind].
  destruct (after_send_facts w msg s2) as (F1 & _).
  assert (exists pre, sent s2 = sent s ++ pre) as [pre Epre].
  { destruct (_ && _) in Hsent; [destruct Hsent as (? & ? & _ & E); eauto|exists []; by rewrite app_nil_r]. }
  eexists _, pre, msg, _, (outbound_seq_ s2). split; [done|]. split; [by rewrite F1, Epre, <- app_assoc|]. split; [done|].
  destruct Hmsg as (fs & Hreads & Ht & Hg & Hd & Hn & Hns). destruct (Hreads []) as [Hp _]. rewrite app_nil_r in Hp.
  set (view := mkView fs (zlen msg) (begin_string cfg)) in *. unfold on_rx. rewrite Hp. cbn [mbind option_bind].
  change (view_msg_type view) with (find_field MsgType fs). rewrite Ht.
  set (s1' := update_recv_time w' s'). assert (session_ok cfg' s1') as Hs1' by (destruct Hs'; by constructor).
  destruct (track_sequence_spec w' cfg' Hc' Hsm' view (outbound_seq_ s2) s1' Hs1' Hn ltac:(unfold UINT32_MAX; lia) Hout')
    as (s2' & -> & Hs2' & He & _).
  cbn [mbind option_bind negb]. unfold dispatch. cbn zeta. rewrite !decide_False by done. rewrite decide_True by done.
  eexists. split; [done|]. change (get view PossDupFlag) with (find_field PossDupFlag fs) in He. rewrite Hd in He.
  rewrite bool_decide_eq_false_2 in He by done. cbn in He. rewrite <- He. unfold on_sequence_reset.
  change (get_int view NewSeqNo) with (int_field NewSeqNo fs). rewrite Hns.
  rewrite (proj2 (Z.ltb_ge _ 1)), (proj2 (Z.ltb_ge UINT32_MAX _)) by (unfold UINT32_MAX; lia). cbn zeta.
  rewrite wrap_small by lia. change (get view GapFillFlag) with (find_field GapFillFlag fs). rewrite Hg, bool_decide_eq_true_2 by done.
  rewrite (proj2 (Z.ltb_lt (outbound_seq_ s2) _)); [done|]. rewrite He. unfold inbound_next.
  rewrite andb_true_r. unfold UINT32_MAX in *. zbool; cbn [orb]; lia.
Qed.

Lemma demo_small : small_config demo_cfg.
Proof. by constructor; vm_compute. Qed.

Definition demo_seqs (ns : list Z) : list (list byte) := (fun n => demo_msg [OSet MsgType [x38]; OInt MsgSeqNum n]) <$> ns.

Lemma fix_no_silent_gap_witness :
  exists s' ms, run_bg demo_world demo_cfg (BRx <$> demo_seqs [1; 2; 6; 4; 7]) (new_session demo_cfg) = Some s' /\
    sent s' = ms /\ expected_inbound_seq_ s' = 8 /\ length ms = 1%nat /\
    exists req ok a e, (req, ok) ∈ ms /\ requests demo_cfg a e req /\ a <= 3 <= e.
Proof.
  destruct (fix_no_silent_gap demo_world demo_cfg (demo_seqs [1; 2; 6; 4; 7]) (new_session demo_cfg)
    demo_cfg_ok demo_small eq_refl (new_session_ok _)) as (s' & ms & E & Hms & _ & Hacc).
  - repeat constructor; intros v Hv; vm_compute in Hv; injection Hv as <-; discriminate.
  - vm_compute. discriminate.
  - assert (option_map (fun s => (length (sent s), expected_inbound_seq_ s))
      (run_bg demo_world demo_cfg (BRx <$> demo_seqs [1; 2; 6; 4; 7]) (new_session demo_cfg)) = Some (1%nat, 8)) as H by (vm_compute; reflexivity).
    rewrite E in H. cbn [option_map] in H. injection H as H1 H2. cbn [sent new_session app] in Hms. rewrite Hms in H1.
    exists s', ms. split; [exact E|]. split; [exact Hms|]. split; [exact H2|]. split; [exact H1|].
    destruct (Hacc 3) as [(d & Hd & v & Ep & Hn)|H3]; [rewrite H2; cbn; lia| |exact H3].
    exfalso. repeat (apply elem_of_cons in Hd as [->|Hd]; [vm_compute in Ep; injection Ep as <-; vm_compute in Hn; discriminate|]).
    by apply elem_of_nil in Hd.
Defined.

Definition demo_request : list byte := demo_msg [OSet MsgType ResendRequest; OInt MsgSeqNum 1; OInt BeginSeqNo 1; OInt EndSeqNo 0].

Lemma fix_gap_fill_ignored_witness :
  exists t pre msg ok n, on_rx demo_world demo_cfg demo_request (new_session demo_cfg) = Some (true, t) /\
    sent t = pre ++ [(msg, ok)] /\ gap_fill demo_cfg n n msg /\
    exists t', on_rx demo_world demo_cfg msg (new_session demo_cfg) = Some (true, t') /\
      expected_inbound_seq_ t' = inbound_next false 1 n.
Proof.
  destruct (parse kMaxFields kDefaultMaxBodyLength demo_request) as [[v|e]|] eqn:E; [|vm_compute in E; discriminate..].
  assert (view_msg_type v = Some ResendRequest /\ get_int v MsgSeqNum = Some 1) as [Hv1 Hv2]
    by (vm_compute in E; injection E as <-; split; reflexivity).
  destruct (fix_gap_fill_ignored demo_world demo_cfg demo_world demo_cfg demo_request v 1 (new_session demo_cfg) (new_session demo_cfg)
    demo_cfg_ok demo_small (new_session_ok _) ltac:(reflexivity) E Hv1 Hv2 ltac:(split; discriminate) demo_cfg_ok demo_small (new_session_ok _) ltac:(reflexivity))
    as (t & pre & msg & ok & n & H1 & H2 & H3 & H4).
  exists t, pre, msg, ok, n. split; [exact H1|]. split; [exact H2|]. split; [exact H3|exact H4].
Defined.

(** A possible duplicate with the expected number moves the expected number. *)
Lemma poss_dup_advances :
  option_map (fun p => expected_inbound_seq_ p.2)
    (on_rx demo_world demo_cfg (demo_msg [OSet MsgType [x38]; OInt MsgSeqNum 1; OBool PossDupFlag true]) (new_session demo_cfg)) = Some 2.
Proof. vm_compute. reflexivity. Qed.
