(* ===== verification/FixTimers.v ===== *)
(** The timers of a FIX session (FixSession.v): heartbeats, test requests, the detection of a
    dead server, and the waiting of [logon]. *)
From S2P Require Import Prelude FixText FixTime Framers Fix FixView FixBuilder FixSession FixMessages FixOps FixInbound.
Local Open Scope Z_scope.
Local Arguments FixBuilder.set : simpl never.
Local Arguments session_msg : simpl never.
Local Arguments msg_outcome : simpl never.
Local Arguments header_ops : simpl never.
Local Arguments format_uint : simpl never.

(** [msg] is a message of type [c] that carries the TestReqID [id]. *)
Definition with_id (cfg : FixSessionConfig) (c id : list byte) (msg : list byte) : Prop :=
  exists fs n, reads_as cfg msg fs /\ find_field MsgType fs = Some c /\ find_field TestReqID fs = Some id /\
    int_field MsgSeqNum fs = Some n /\ 1 <= n < UINT32_MAX /\ find_field PossDupFlag fs = None.

(** The identifiers a session generates. *)
Definition own_id (id : list byte) : Prop := id <> [] /\ has_soh id = false /\ zlen id <= 22.

Definition monotone (clock : nat -> Z) : Prop := forall i j, (i <= j)%nat -> clock i <= clock j.

Lemma seconds_mono a b : a <= b -> seconds a <= seconds b.
Proof. intros. unfold seconds. apply Z.quot_le_mono; lia. Qed.

Section Timers.
Context (w : World) (cfg_ : FixSessionConfig) (Hc : config_ok cfg_) (Hsm : small_config cfg_).

(** ** Messages with an identifier *)

Lemma send_with_id c id s :
  session_ok cfg_ s -> outbound_seq_ s < UINT32_MAX -> zlen c = 1 -> has_soh c = false -> own_id id ->
  exists msg, with_id cfg_ c id msg /\
    session_msg w cfg_ 256 [OSet MsgType c] [OSet TestReqID id] s = Some (send_ w (sent s) msg, after_send w msg (claimed s)).
Proof.
  intros Hs Hlt Hl Hsoh (Hne & Hid & Hlen). pose proof (so_out _ _ Hs).
  destruct (session_send w cfg_ 256 c [OSet TestReqID id] s) as (ok & s' & -> & H' & _);
    [done..|repeat constructor; cbn; unfold TestReqID; lia|unfold kDefaultMaxBodyLength; lia|cbn; lia|].
  apply (small_outcome w cfg_ c [OSet TestReqID id] [mkField TestReqID id]) in H' as (msg & v & ts & Hr & Hv & -> & ->); try done.
  - exists msg. split; [|done]. exists (session_fields cfg_ c v ts [mkField TestReqID id]), (outbound_seq_ s).
    split; [done|]. split; [done|]. split; [done|]. split; [done|]. split; [lia|done].
  - unfold ops_fields. cbn. by rewrite Hid.
  - rewrite zlen_body_of_cons. cbn [ftag fvalue]. change (zlen (body_of [])) with 0.
    change (zlen (default [] (format_uint TestReqID))) with 3. lia.
Qed.

Lemma digits_id ds : digits ds -> 1 <= zlen ds <= 20 -> own_id ([x54; x52] ++ ds).
Proof.
  intros Hd Hl. split; [done|]. split; [|rewrite zlen_app; change (zlen [x54; x52]) with 2; lia].
  apply has_soh_spec. apply soh_app; [|by apply soh_digits]. intros Hin.
  by repeat (apply elem_of_cons in Hin as [Hin|Hin]; [done|]); apply elem_of_nil in Hin.
Qed.

Lemma send_test_request_small s :
  session_ok cfg_ s -> outbound_seq_ s < UINT32_MAX ->
  exists msg id, own_id id /\ with_id cfg_ TestRequest id msg /\
    let s1 := after_send w msg (claimed (steady_now w s).2) in let ok := send_ w (sent s) msg in
    send_test_request w cfg_ s = Some (ok, if ok then set_test_request_pending_ true s1 else s1).
Proof.
  intros Hs Hlt. destruct (send_test_request_shape w cfg_ s) as (ds & Hd & Hl & ->). pose proof (digits_id ds Hd Hl) as Hid.
  assert (session_ok cfg_ (steady_now w s).2) as Hs1 by (destruct Hs; by constructor).
  destruct (send_with_id TestRequest ([x54; x52] ++ ds) (steady_now w s).2) as (msg & Hm & ->); [done..|].
  by exists msg, ([x54; x52] ++ ds).
Qed.

Lemma send_heartbeat_small id s :
  session_ok cfg_ s -> outbound_seq_ s < UINT32_MAX -> own_id id ->
  exists msg, with_id cfg_ Heartbeat id msg /\
    send_heartbeat w cfg_ id s = Some (send_ w (sent s) msg, after_send w msg (claimed s)).
Proof.
  intros Hs Hlt Hid. rewrite send_heartbeat_shape. rewrite decide_False by apply Hid. by apply send_with_id.
Qed.

Lemma after_send_timer msg s :
  state_ (after_send w msg s) = state_ s /\ last_recv_time_ (after_send w msg s) = last_recv_time_ s /\
  test_request_pending_ (after_send w msg s) = test_request_pending_ s /\ (steady_reads s <= steady_reads (after_send w msg s))%nat.
Proof. unfold after_send. destruct (send_ w _ msg); cbn; split_and!; auto. Qed.

(** ** One tick *)

(** What a tick does to an active session that can send: [e] is the time since the last
    message from the server. *)
Lemma tick_spec s t :
  session_ok cfg_ s -> state_ s = kActive -> outbound_seq_ s + 1 < UINT32_MAX -> timeout_secs cfg_ (heartbeat_interval_sec_ s) = Some t ->
  let e := seconds (steady_clock w (steady_reads s) - last_recv_time_ s) in
  exists r s', tick w cfg_ s = Some (r, s') /\ session_ok cfg_ s' /\ last_recv_time_ s' = last_recv_time_ s /\
    heartbeat_interval_sec_ s' = heartbeat_interval_sec_ s /\ (steady_reads s < steady_reads s')%nat /\
    outbound_seq_ s' <= outbound_seq_ s + 2 /\
    if (t <=? e) && test_request_pending_ s then r = false /\ state_ s' = kDisconnected
    else r = true /\ state_ s' = kActive /\
      if (heartbeat_interval_sec_ s <=? e) && negb (test_request_pending_ s)
      then exists pre msg id ok, sent s' = sent s ++ pre ++ [(msg, ok)] /\ own_id id /\ with_id cfg_ TestRequest id msg /\
             ok = send_ w (sent s ++ pre) msg /\ test_request_pending_ s' = ok
      else test_request_pending_ s' = test_request_pending_ s.
Proof.
  intros Hs Ha Hout Et e. unfold tick. rewrite decide_False by (by intros H; apply H). cbn [steady_now fst snd].
  set (s1 := set_steady_reads _ s). unfold maybe_send_heartbeat. cbn [steady_now fst snd]. set (s2 := set_steady_reads _ s1).
  assert (session_ok cfg_ s2) as Hs2 by (destruct Hs; by constructor).
  assert (exists s3, (if heartbeat_interval_sec_ s2 <=? seconds (steady_clock w (steady_reads s1) - last_sent_time_ s2)
            then '(_, s) ← send_heartbeat w cfg_ [] s2; Some s else Some s2) = Some s3 /\ sends cfg_ s2 s3 /\
            test_request_pending_ s3 = test_request_pending_ s2) as (s3 & -> & Hsend & Hp).
  { destruct (_ <=? _); [|exists s2; split; [done|]; split; [by apply sends_refl|done]].
    destruct (send_heartbeat_sends w cfg_ [] s2 Hc Hs2) as (ok & s3 & -> & Hsend). by exists s3. }
  cbn [mbind option_bind]. pose proof (sends_ok _ _ _ Hsend Hs2) as Hs3.
  destruct Hsend as [F1 F2 F3 F4 F5 F6 F7 F8 (pre & Epre & _)].
  change (heartbeat_interval_sec_ s1) with (heartbeat_interval_sec_ s). rewrite Et. cbn [mbind option_bind].
  rewrite F5, Hp. change (last_recv_time_ s2) with (last_recv_time_ s). change (test_request_pending_ s2) with (test_request_pending_ s).
  fold e. cbn in F7, F8. destruct ((t <=? e) && test_request_pending_ s).
  { exists false, (set_state kDisconnected s3). split; [done|].
    assert (session_ok cfg_ (set_state kDisconnected s3)) by (unfold set_state; destruct (decide _), Hs3; by constructor).
    unfold set_state in *. destruct (decide _); cbn in *; split_and!; try done; lia. }
  destruct ((heartbeat_interval_sec_ s <=? e) && negb (test_request_pending_ s)) eqn:Hidle.
  2: { exists true, s3. split_and!; try done; [lia|lia|by rewrite F1]. }
  apply andb_true_iff in Hidle as [_ Hnp%negb_true_iff].
  destruct (send_test_request_small s3 Hs3 ltac:(lia)) as (msg & id & Hid & Hm & E). cbn zeta in E.
  destruct (send_test_request_sends w cfg_ s3 Hc Hs3) as (ok & s4 & E4 & Hsend4 & Hp4). rewrite E4. cbn [mbind option_bind].
  pose proof (sends_ok _ _ _ Hsend4 Hs3) as Hs4. rewrite E4 in E. injection E as Eok Es4.
  destruct Hsend4 as [G1 G2 G3 G4 G5 G6 G7 G8 _].
  exists true, s4. split_and!; try done; [by rewrite G5, F5|by rewrite G2, F2|lia|lia|by rewrite G1, F1|].
  exists pre, msg, id, ok. split; [|split; [done|split; [done|]]].
  - rewrite Es4. destruct (after_send_facts w msg (steady_now w s3).2) as [Esent _]. cbn [steady_now snd set_steady_reads sent] in Esent, Epre.
    rewrite <- Eok. destruct ok; cbn [sent set_test_request_pending_]; rewrite Esent, <- Eok, Epre, <- app_assoc; done.
  - rewrite Hp4, Hp. cbn [test_request_pending_ set_steady_reads]. rewrite Eok, Epre. subst s2 s1. cbn. rewrite Hnp.
    by rewrite orb_false_r.
Qed.

(** ** Ticks without a message from the server *)

Abbreviation ticks n := (run_bg w cfg_ (replicate n BTick)).

Lemma ticks_S n s : ticks (S n) s = '(_, s1) ← tick w cfg_ s; ticks n s1.
Proof. cbn. unfold run_bg1. by destruct (tick w cfg_ s) as [[]|]. Qed.

Lemma ticks_disconnected n s : state_ s = kDisconnected -> ticks n s = Some s.
Proof. intros Hd. induction n as [|n IH]; [done|]. rewrite ticks_S. unfold tick. rewrite decide_True by by rewrite Hd. exact IH. Qed.

(** After [n] ticks the session is disconnected, or is active and has the same server data,
    a later clock and at most [2 n] fewer numbers. *)
Lemma ticks_spec n : forall s,
  session_ok cfg_ s -> state_ s = kActive -> outbound_seq_ s + 2 * Z.of_nat n <= UINT32_MAX ->
  exists s', ticks n s = Some s' /\
    (state_ s' = kDisconnected \/
     state_ s' = kActive /\ session_ok cfg_ s' /\ last_recv_time_ s' = last_recv_time_ s /\
     heartbeat_interval_sec_ s' = heartbeat_interval_sec_ s /\ (steady_reads s + n <= steady_reads s')%nat /\
     outbound_seq_ s' <= outbound_seq_ s + 2 * Z.of_nat n).
Proof.
  induction n as [|n IH]; intros s Hs Ha Hout.
  { exists s. split; [done|]. right. split_and!; try done; lia. }
  destruct (co_timeout _ Hc _ (so_hb _ _ Hs)) as [t Et].
  destruct (tick_spec s t Hs Ha ltac:(lia) Et) as (r & s1 & E & Hs1 & H1 & H2 & H3 & H4 & H5). rewrite ticks_S, E. cbn [mbind option_bind].
  destruct (_ && _) in H5.
  { exists s1. destruct H5 as [_ Hd]. rewrite ticks_disconnected by done. split; [done|by left]. }
  destruct H5 as (_ & Ha1 & _). destruct (IH s1 Hs1 Ha1 ltac:(lia)) as (s' & E' & H). exists s'. split; [done|].
  destruct H as [|(G1 & G2 & G3 & G4 & G5 & G6)]; [by left|right]. rewrite H1 in G3. rewrite H2 in G4. split_and!; try done; lia.
Qed.

Lemma run_bg_app os1 os2 s : run_bg w cfg_ (os1 ++ os2) s = s1 ← run_bg w cfg_ os1 s; run_bg w cfg_ os2 s1.
Proof. revert s; induction os1 as [|o os1 IH]; intros s; cbn; [done|]. destruct (run_bg1 w cfg_ o s); cbn; [apply IH|done]. Qed.

(** Two ticks past both limits: the first probes if that has not been done, the second gives up. *)
Lemma two_ticks s t :
  session_ok cfg_ s -> state_ s = kActive -> outbound_seq_ s + 4 <= UINT32_MAX -> monotone (steady_clock w) ->
  (forall h d, send_ w h d = true) -> timeout_secs cfg_ (heartbeat_interval_sec_ s) = Some t ->
  t <= seconds (steady_clock w (steady_reads s) - last_recv_time_ s) ->
  heartbeat_interval_sec_ s <= seconds (steady_clock w (steady_reads s) - last_recv_time_ s) ->
  exists s', ticks 2 s = Some s' /\ state_ s' = kDisconnected.
Proof.
  intros Hs Ha Hout Hmono Hsend Et Ht Hhb.
  destruct (tick_spec s t Hs Ha ltac:(lia) Et) as (r & s1 & E & Hs1 & H1 & H2 & H3 & H4 & H5). rewrite ticks_S, E. cbn [mbind option_bind].
  rewrite (proj2 (Z.leb_le t _)) in H5 by done. rewrite (proj2 (Z.leb_le (heartbeat_interval_sec_ s) _)) in H5 by done.
  cbn [andb] in H5. destruct (test_request_pending_ s); cbn [negb] in H5.
  { destruct H5 as [_ Hd]. rewrite ticks_disconnected by done. by eexists. }
  destruct H5 as (_ & Ha1 & pre & msg & id & ok & _ & _ & _ & -> & Hp). rewrite Hsend in Hp.
  rewrite <- H2 in Et. destruct (tick_spec s1 t Hs1 Ha1 ltac:(lia) Et) as (r' & s2 & E2 & _ & _ & _ & _ & _ & H6).
  rewrite ticks_S, E2. cbn [mbind option_bind]. rewrite (proj2 (Z.leb_le t _)) in H6.
  - rewrite Hp in H6. destruct H6 as [_ Hd]. rewrite ticks_disconnected by done. by eexists.
  - etransitivity; [exact Ht|]. rewrite H1. apply seconds_mono. specialize (Hmono (steady_reads s) (steady_reads s1) ltac:(lia)). lia.
Qed.

End Timers.

(** C28: a dead server is noticed, a live one is not given up.  Let an active session receive
    nothing while [tick] is called again and again, its sends succeed, and the monotone clock
    pass both the heartbeat interval and the timeout within [K] readings.  Then at the latest
    after [K + 2] ticks the session is DISCONNECTED.  On the other hand, a tick returns false
    and disconnects only if a TestRequest is pending and the timeout has passed since the last
    message; otherwise the session stays ACTIVE, and a TestRequest goes out exactly when the
    server has been silent for the heartbeat interval and none is pending. *)
Theorem fix_dead_server_detected w cfg s t K :
  config_ok cfg -> small_config cfg -> session_ok cfg s -> state_ s = kActive ->
  timeout_secs cfg (heartbeat_interval_sec_ s) = Some t -> outbound_seq_ s + 2 * (Z.of_nat K + 2) <= UINT32_MAX ->
  monotone (steady_clock w) -> (forall h d, send_ w h d = true) ->
  Z.max t (heartbeat_interval_sec_ s) <= seconds (steady_clock w (steady_reads s + K) - last_recv_time_ s) ->
  (exists s', run_bg w cfg (replicate (K + 2) BTick) s = Some s' /\ state_ s' = kDisconnected) /\
  let e := seconds (steady_clock w (steady_reads s) - last_recv_time_ s) in
  exists r s', tick w cfg s = Some (r, s') /\ (r = false <-> t <= e /\ test_request_pending_ s = true) /\
    state_ s' = (if r then kActive else kDisconnected) /\
    (heartbeat_interval_sec_ s <= e /\ test_request_pending_ s = false ->
     exists pre msg id, sent s' = sent s ++ pre ++ [(msg, true)] /\ with_id cfg TestRequest id msg /\ test_request_pending_ s' = true).
Proof.
  intros Hc Hsm Hs Ha Et Hout Hmono Hsend Hlate. split.
  - rewrite replicate_add, run_bg_app. destruct (ticks_spec w cfg Hc Hsm K s Hs Ha ltac:(lia)) as (s1 & -> & H). cbn [mbind option_bind].
    destruct H as [Hd|(Ha1 & Hs1 & H1 & H2 & H3 & H4)]; [exists s1; split; [by apply ticks_disconnected|done]|].
    rewrite <- H2 in Et, Hlate. rewrite <- H1 in Hlate.
    assert (seconds (steady_clock w (steady_reads s + K) - last_recv_time_ s1) <= seconds (steady_clock w (steady_reads s1) - last_recv_time_ s1)) as Hle.
    { apply seconds_mono. specialize (Hmono _ _ H3). lia. }
    apply (two_ticks w cfg Hc Hsm s1 t); try done; lia.
  - intros e. destruct (tick_spec w cfg Hc Hsm s t Hs Ha ltac:(lia) Et) as (r & s' & E & _ & _ & _ & _ & _ & H). fold e in H.
    exists r, s'. split; [done|]. destruct (Z.leb_spec t e), (test_request_pending_ s); cbn [andb negb] in H; rewrite ?andb_false_r, ?andb_true_r in H.
    all: try (destruct H as [-> Hd]; split; [done|]; split; [done|]; intros [_ ?]; done).
    all: destruct H as (-> & Hst & H); split; [split; [done|intros [? ?]; done || lia]|]; split; [done|]; intros [Hhb ?]; try done.
    all: rewrite (proj2 (Z.leb_le _ _)) in H by done; destruct H as (pre & msg & id & ok & Esent & _ & Hm & Eok & Hp).
    all: rewrite Hsend in Eok; subst ok; by exists pre, msg, id.
Qed.

Definition demo_active : FixSession := set_state kActive (new_session demo_cfg).

Lemma demo_active_ok : session_ok demo_cfg demo_active.
Proof. constructor; [vm_compute; split; discriminate..|right; reflexivity]. Qed.

Lemma fix_dead_server_detected_witness :
  timeout_secs demo_cfg 30 = Some 45 /\
  exists s', run_bg demo_world demo_cfg (replicate (45 + 2) BTick) demo_active = Some s' /\ state_ s' = kDisconnected.
Proof.
  split; [reflexivity|].
  refine (proj1 (fix_dead_server_detected demo_world demo_cfg demo_active 45 45 demo_cfg_ok demo_small demo_active_ok _ _ _ _ _ _));
    try reflexivity; try (vm_compute; discriminate).
  intros i j Hij. cbn. lia.
Defined.

(** ** A probe and its answer *)

Section Answer.
Context (w : World) (cfg_ : FixSessionConfig) (Hc : config_ok cfg_) (Hsm : small_config cfg_).

Lemma track_sequence_frame msg s go s' :
  session_ok cfg_ s -> track_sequence w cfg_ msg s = Some (go, s') ->
  state_ s' = state_ s /\ last_recv_time_ s' = last_recv_time_ s /\ test_request_pending_ s' = test_request_pending_ s /\
  (steady_reads s <= steady_reads s')%nat.
Proof.
  intros Hs. unfold track_sequence. destruct (get_int msg MsgSeqNum) as [n|]; [|by intros [= <- <-]].
  destruct (Z.ltb_spec n 1); [by intros [= <- <-]|]. destruct (Z.ltb_spec UINT32_MAX n); [by intros [= <- <-]|]. cbn zeta.
  rewrite (wrap_small 32 n) by (unfold UINT32_MAX in *; lia).
  destruct (_ && _); [|destruct (n =? _); by intros [= <- <-]]. destruct (resend_on_gap cfg_); [|by intros [= <- <-]].
  set (s1 := set_last_inbound_seq_ n s). assert (session_ok cfg_ s1) as Hs1 by (destruct Hs; constructor; cbn; (done || lia)).
  pose proof (so_expected _ _ Hs).
  destruct (send_resend_request_sends w cfg_ (expected_inbound_seq_ s) (u32 (n - 1)) s1) as (ok & s2 & -> & Hsd & Hp);
    [done..|unfold UINT32_MAX in *; lia|apply wrap_range; lia|].
  cbn [mbind option_bind]. intros [= <- <-]. destruct Hsd as [F1 _ _ _ F5 _ F7 _ _]. cbn. rewrite F1, F5, Hp. done.
Qed.

(** Receiving a message that carries an identifier: tracking, then the handler of its type. *)
Lemma on_rx_with_id cfg' c id msg s :
  with_id cfg' c id msg -> session_ok cfg_ s -> outbound_seq_ s < UINT32_MAX ->
  exists v s2 pre, on_rx w cfg_ msg s = dispatch w cfg_ c v s2 /\ get v TestReqID = Some id /\ session_ok cfg_ s2 /\
    sent s2 = sent s ++ pre /\ outbound_seq_ s2 <= outbound_seq_ s + 1 /\ state_ s2 = state_ s /\
    last_recv_time_ s2 = steady_clock w (steady_reads s).
Proof.
  intros (fs & n & Hr & Ht & Hid & Hn & Hrange & Hd) Hs Hout. destruct (Hr []) as [Hp _]. rewrite app_nil_r in Hp.
  set (view := mkView fs (zlen msg) (begin_string cfg')) in *. unfold on_rx. rewrite Hp. cbn [mbind option_bind].
  change (view_msg_type view) with (find_field MsgType fs). rewrite Ht. set (s1 := update_recv_time w s).
  assert (session_ok cfg_ s1) as Hs1 by (destruct Hs; by constructor).
  destruct (track_sequence_spec w cfg_ Hc Hsm view n s1 Hs1 Hn ltac:(lia) Hout) as (s2 & E2 & Hs2 & _ & _ & Ho & Hsent).
  destruct (track_sequence_frame view s1 true s2 Hs1 E2) as (F1 & F2 & _ & _). rewrite E2. cbn [mbind option_bind negb].
  assert (exists pre, sent s2 = sent s ++ pre) as [pre Epre].
  { destruct (_ && _) in Hsent; [destruct Hsent as (? & ? & _ & E); eauto|exists []; by rewrite app_nil_r]. }
  exists view, s2, pre. split_and!; try done. cbn in Ho. lia.
Qed.

Lemma on_test_request cfg' id msg s :
  with_id cfg' TestRequest id msg -> own_id id -> session_ok cfg_ s -> outbound_seq_ s + 1 < UINT32_MAX ->
  exists s' pre reply ok, on_rx w cfg_ msg s = Some (true, s') /\ sent s' = sent s ++ pre ++ [(reply, ok)] /\
    with_id cfg_ Heartbeat id reply.
Proof.
  intros Hm Hid Hs Hout. destruct (on_rx_with_id cfg' TestRequest id msg s Hm Hs ltac:(lia)) as (v & s2 & pre & -> & Hv & Hs2 & Epre & Ho & _ & _).
  unfold dispatch. cbn zeta. rewrite !decide_False by done. rewrite decide_True by done. rewrite Hv. cbn [from_option]. unfold Datatypes.id.
  destruct (send_heartbeat_small w cfg_ Hc Hsm id s2 Hs2 ltac:(lia) Hid) as (reply & Hreply & ->). cbn [mbind option_bind].
  destruct (after_send_facts w reply s2) as [Esent _]. eexists _, pre, reply, _. split; [done|].
  split; [by rewrite Esent, Epre, <- app_assoc|done].
Qed.

Lemma on_heartbeat cfg' id msg s :
  with_id cfg' Heartbeat id msg -> session_ok cfg_ s -> outbound_seq_ s < UINT32_MAX ->
  exists s', on_rx w cfg_ msg s = Some (true, s') /\ test_request_pending_ s' = false /\ state_ s' = state_ s /\
    last_recv_time_ s' = steady_clock w (steady_reads s).
Proof.
  intros Hm Hs Hout. destruct (on_rx_with_id cfg' Heartbeat id msg s Hm Hs Hout) as (v & s2 & pre & -> & _ & _ & _ & _ & E1 & E2).
  unfold dispatch. cbn zeta. rewrite !decide_False by done. rewrite decide_True by done. by eexists.
Qed.

End Answer.

(** probing works.  When the timer of an active session [s] finds its peer silent for the
    heartbeat interval and the send succeeds, the TestRequest it hands over, received by any
    session [p] in any state, is answered by a Heartbeat with the same TestReqID; and that
    answer, received by [s], clears the pending probe, renews the time of the last message
    and keeps the session ACTIVE.  The two sessions may have different configurations,
    clocks and numbers. *)
Theorem fix_test_request_answered w cfg s t w' cfg' p :
  config_ok cfg -> small_config cfg -> session_ok cfg s -> state_ s = kActive -> outbound_seq_ s + 3 < UINT32_MAX ->
  (forall h d, send_ w h d = true) -> timeout_secs cfg (heartbeat_interval_sec_ s) = Some t -> test_request_pending_ s = false ->
  heartbeat_interval_sec_ s <= seconds (steady_clock w (steady_reads s) - last_recv_time_ s) ->
  config_ok cfg' -> small_config cfg' -> session_ok cfg' p -> outbound_seq_ p + 1 < UINT32_MAX ->
  exists s1 pre probe id p' pre' reply ok s2,
    tick w cfg s = Some (true, s1) /\ sent s1 = sent s ++ pre ++ [(probe, true)] /\ with_id cfg TestRequest id probe /\
    test_request_pending_ s1 = true /\
    on_rx w' cfg' probe p = Some (true, p') /\ sent p' = sent p ++ pre' ++ [(reply, ok)] /\ with_id cfg' Heartbeat id reply /\
    on_rx w cfg reply s1 = Some (true, s2) /\ test_request_pending_ s2 = false /\ state_ s2 = kActive /\
    last_recv_time_ s2 = steady_clock w (steady_reads s1).
Proof.
  intros Hc Hsm Hs Ha Hout Hsend Et Hp Hidle Hc' Hsm' Hp' Hout'.
  destruct (tick_spec w cfg Hc Hsm s t Hs Ha ltac:(lia) Et) as (r & s1 & E & Hs1 & _ & _ & _ & Ho & H).
  rewrite Hp, andb_false_r, (proj2 (Z.leb_le _ _)) in H by done. cbn [andb negb] in H.
  destruct H as (-> & Ha1 & pre & probe & id & ok & Esent & Hid & Hprobe & -> & Hp1). rewrite Hsend in *.
  destruct (on_test_request w' cfg' Hc' Hsm' cfg id probe p Hprobe Hid Hp' Hout') as (p' & pre' & reply & ok & E' & Esent' & Hreply).
  destruct (on_heartbeat w cfg Hc Hsm cfg' id reply s1 Hreply Hs1 ltac:(lia)) as (s2 & E2 & G1 & G2 & G3).
  exists s1, pre, probe, id, p', pre', reply, ok, s2. rewrite Ha1 in G2. by split_and!.
Qed.

(** A session whose server has been silent for 31 seconds. *)
Definition demo_silent : FixSession := set_last_recv_time_ (- 31000000000) demo_active.

Lemma demo_silent_ok : session_ok demo_cfg demo_silent.
Proof. constructor; [vm_compute; split; discriminate..|right; reflexivity]. Qed.

Lemma fix_test_request_answered_witness :
  exists s1 probe p' reply ok s2,
    tick demo_world demo_cfg demo_silent = Some (true, s1) /\ (probe, true) ∈ sent s1 /\ test_request_pending_ s1 = true /\
    on_rx demo_world demo_cfg probe (new_session demo_cfg) = Some (true, p') /\ (reply, ok) ∈ sent p' /\
    on_rx demo_world demo_cfg reply s1 = Some (true, s2) /\ test_request_pending_ s2 = false /\ state_ s2 = kActive.
Proof.
  destruct (fix_test_request_answered demo_world demo_cfg demo_silent 45 demo_world demo_cfg (new_session demo_cfg)
    demo_cfg_ok demo_small demo_silent_ok eq_refl ltac:(reflexivity) (fun _ _ => eq_refl) ltac:(vm_compute; reflexivity) eq_refl
    ltac:(vm_compute; discriminate) demo_cfg_ok demo_small (new_session_ok _) ltac:(reflexivity))
    as (s1 & pre & probe & id & p' & pre' & reply & ok & s2 & H1 & H2 & _ & H3 & H4 & H5 & _ & H6 & H7 & H8 & _).
  exists s1, probe, p', reply, ok, s2. split; [exact H1|].
  split; [rewrite H2; apply elem_of_app; right; apply elem_of_app; right; by apply list_elem_of_singleton|].
  split; [exact H3|]. split; [exact H4|].
  split; [rewrite H5; apply elem_of_app; right; apply elem_of_app; right; by apply list_elem_of_singleton|].
  split; [exact H6|]. split; [exact H7|exact H8].
Defined.

(** With the default factor of 1.5 the rounded product is exact: the timeout is the interval
    and a half, cut to seconds, for every interval a server may ask for. *)
Lemma default_timeout_exact cfg hb :
  heartbeat_timeout_factor cfg = demo_factor -> 0 < hb <= kMaxHeartbeatSec -> timeout_secs cfg hb = Some (3 * hb / 2).
Proof.
  intros Hf Hhb. unfold kMaxHeartbeatSec in *.
  assert (forallb (fun n => bool_decide (timeout_secs demo_cfg (Z.of_nat n) = Some (3 * Z.of_nat n / 2))) (seq 1 3600) = true) as Hall
    by (vm_compute; reflexivity).
  rewrite forallb_forall in Hall. specialize (Hall (Z.to_nat hb)). rewrite in_seq, Z2Nat.id, bool_decide_eq_true in Hall by lia.
  unfold timeout_secs in *. rewrite Hf. apply Hall. lia.
Qed.
