(* ===== verification/FixLogon.v ===== *)
(** Opening a FIX session (FixSession.v): how [logon] ends, that it ends, and what is lost
    when the answer is faster than the caller. *)
From S2P Require Import Prelude FixText FixTime Framers Fix FixView FixBuilder FixSession FixMessages FixOps FixInbound FixTimers.
Local Open Scope Z_scope.
Local Arguments FixBuilder.set : simpl never.
Local Arguments session_msg : simpl never.

Section Logon.
Context (w : World) (cfg_ : FixSessionConfig) (Hc : config_ok cfg_).

(** ** The clock only moves forward *)

Abbreviation later s s' := (steady_reads s <= steady_reads s')%nat.

Lemma set_state_reads x s : steady_reads (set_state x s) = steady_reads s.
Proof. unfold set_state. by destruct (decide _). Qed.

Lemma dispatch_reads type msg s r s' : session_ok cfg_ s -> dispatch w cfg_ type msg s = Some (r, s') -> later s s'.
Proof.
  intros Hs. unfold dispatch. cbn zeta.
  destruct (decide (type = Logon)).
  { intros [= <- <-]. unfold on_logon, adopt_heartbeat. cbn zeta.
    destruct (get_int msg HeartBtInt) as [hb|]; [destruct (_ && _); [destruct (hb =? _)|]|]; destruct (decide _); rewrite ?set_state_reads; done. }
  destruct (decide (type = Logout)).
  { unfold on_logout. destruct (state_ s); cbn [mbind option_bind]; try (intros [= <- <-]; rewrite ?set_state_reads; done).
    destruct (send_logout_sends w cfg_ s Hc Hs) as (ok & s1 & -> & Hsd & _). cbn [mbind option_bind]. intros [= <- <-].
    rewrite set_state_reads. apply (sd_reads _ _ _ Hsd). }
  destruct (decide (type = Heartbeat)); [by intros [= <- <-]|].
  destruct (decide (type = TestRequest)).
  { destruct (send_heartbeat_sends w cfg_ (default [] (get msg TestReqID)) s Hc Hs) as (ok & s1 & -> & Hsd & _).
    cbn [mbind option_bind]. intros [= <- <-]. apply (sd_reads _ _ _ Hsd). }
  destruct (decide (type = SequenceReset)).
  { intros [= <- <-]. unfold on_sequence_reset. destruct (get_int msg NewSeqNo) as [k|]; [|done].
    destruct (k <? 1); [done|]. destruct (_ <? k); [done|]. cbn zeta.
    destruct (bool_decide _); [destruct (_ <? _); [|destruct (_ =? _)]|]; done. }
  destruct (decide (type = ResendRequest)); [|by intros [= <- <-]].
  destruct (send_gap_fill_sends w cfg_ (outbound_seq_ s) s Hc Hs) as (ok & s1 & -> & Hsd & _).
  { pose proof (so_out _ _ Hs). unfold UINT32_MAX in *. lia. }
  cbn [mbind option_bind]. intros [= <- <-]. apply (sd_reads _ _ _ Hsd).
Qed.

Lemma on_rx_reads data s r s' : session_ok cfg_ s -> on_rx w cfg_ data s = Some (r, s') -> later s s'.
Proof.
  intros Hs. unfold on_rx. set (s1 := update_recv_time w s). assert (session_ok cfg_ s1) as Hs1 by (destruct Hs; by constructor).
  assert (later s s1) as H1 by (cbn; lia).
  destruct (parse _ _ data) as [[msg|e]|]; cbn [mbind option_bind]; [|by intros [= <- <-]|done].
  destruct (view_msg_type msg) as [type|]; [|by intros [= <- <-]].
  destruct (track_sequence_step w cfg_ Hc msg s1 Hs1) as (go & s2 & E2 & H2 & _). rewrite E2. cbn [mbind option_bind].
  destruct (track_sequence_frame w cfg_ Hc msg s1 go s2 Hs1 E2) as (_ & _ & _ & H3).
  destruct go; cbn [negb]; [|intros [= <- <-]; lia]. intros E%dispatch_reads; [lia|apply (ef_ok _ _ _ _ _ H2)].
Qed.

Lemma tick_reads s r s' : session_ok cfg_ s -> tick w cfg_ s = Some (r, s') -> later s s'.
Proof.
  intros Hs. unfold tick. destruct (decide _); [by intros [= <- <-]|]. cbn [steady_now fst snd]. set (s1 := set_steady_reads _ s).
  unfold maybe_send_heartbeat. cbn [steady_now fst snd]. set (s2 := set_steady_reads _ s1).
  assert (session_ok cfg_ s2) as Hs2 by (destruct Hs; by constructor).
  assert (exists s3, (if heartbeat_interval_sec_ s2 <=? seconds (steady_clock w (steady_reads s1) - last_sent_time_ s2)
            then '(_, s) ← send_heartbeat w cfg_ [] s2; Some s else Some s2) = Some s3 /\ sends cfg_ s2 s3) as (s3 & -> & Hsd).
  { destruct (_ <=? _); [|exists s2; split; [done|by apply sends_refl]].
    destruct (send_heartbeat_sends w cfg_ [] s2 Hc Hs2) as (ok & s3 & -> & Hsd & _). by exists s3. }
  cbn [mbind option_bind]. pose proof (sends_ok _ _ _ Hsd Hs2) as Hs3. pose proof (sd_reads _ _ _ Hsd) as Hr. cbn in Hr.
  destruct (timeout_secs _ _) as [t|]; cbn [mbind option_bind]; [|done].
  destruct (_ && _); [intros [= <- <-]; rewrite set_state_reads; lia|]. destruct (_ && _); [|intros [= <- <-]; lia].
  destruct (send_test_request_sends w cfg_ s3 Hc Hs3) as (ok & s4 & -> & Hsd' & _). cbn [mbind option_bind]. intros [= <- <-].
  pose proof (sd_reads _ _ _ Hsd'). lia.
Qed.

Lemma run_bg_reads os : forall s s', session_ok cfg_ s -> run_bg w cfg_ os s = Some s' -> later s s'.
Proof.
  induction os as [|o os IH]; intros s s' Hs; cbn [run_bg]; [by intros [= <-]|]. unfold run_bg1 at 1. destruct o as [data|].
  - destruct (on_rx_step w cfg_ Hc data s Hs) as (x & s1 & E & H1 & _). rewrite E. cbn [mbind option_bind].
    intros E'. apply on_rx_reads in E; [|done]. apply IH in E'; [lia|apply (ef_ok _ _ _ _ _ H1)].
  - destruct (tick_step w cfg_ Hc s Hs) as (x & s1 & E & H1 & _). rewrite E. cbn [mbind option_bind].
    intros E'. apply tick_reads in E; [|done]. apply IH in E'; [lia|apply (ef_ok _ _ _ _ _ H1)].
Qed.

(** The loop has ended once the clock has passed the deadline. *)
Lemma spin_wait_ends waiting deadline rounds : forall s r s',
  session_ok cfg_ s -> monotone (steady_clock w) -> deadline <= steady_clock w (steady_reads s + length rounds) ->
  spin_wait w cfg_ waiting deadline rounds s = Some (r, s') -> r <> Waiting.
Proof.
  induction rounds as [|bg rounds IH]; intros s r s' Hs Hmono Hd; cbn [spin_wait length] in *;
    (destruct (decide _); [|by intros [= <- <-]]); cbn [steady_now fst snd].
  - rewrite Nat.add_0_r in Hd. rewrite (proj2 (Z.leb_le _ _)) by done. by intros [= <- <-].
  - destruct (_ <=? _); [by intros [= <- <-]|]. set (s1 := set_steady_reads _ s).
    assert (session_ok cfg_ s1) as Hs1 by (destruct Hs; by constructor).
    destruct (run_bg_step w cfg_ Hc bg s1 Hs1) as (s2 & E2 & H2 & _). rewrite E2. cbn [mbind option_bind].
    apply run_bg_reads in E2; [|done]. cbn in E2. apply IH; [apply (ef_ok _ _ _ _ _ H2)|done|].
    etransitivity; [exact Hd|]. apply Hmono. lia.
Qed.

End Logon.

(** What the result of [logon] says about the session. *)
Definition logon_post (r : option (expected unit LogonError)) (s s' : FixSession) : Prop :=
  match r with
  | None => state_ s' = kLogonSent
  | Some (Ok _) => state_ s' = kActive /\ test_request_pending_ s' = false /\ last_recv_time_ s' = last_sent_time_ s'
  | Some (Err NotDisconnected) => False
  | Some (Err LogonSendFailed) => state_ s' = kDisconnected /\ changes s' = changes s
  | Some (Err LogonTimeout) | Some (Err NotActiveAfterLogon) => state_ s' = kDisconnected
  end.

(** C40: how [logon] ends.  Called in DISCONNECTED, with other threads receiving any bytes and
    ticking meanwhile, it is defined; when it reports success the session is ACTIVE, with
    fresh timers and no probe pending, and when it reports an error the session is
    DISCONNECTED again, without a change of state if nothing could be sent.  And it does
    return: it cannot still be waiting after as many iterations as the clock needs readings
    to advance by the timeout, whatever the other threads do. *)
Theorem fix_logon_outcome w cfg timeout before rounds s :
  config_ok cfg -> session_ok cfg s -> state_ s = kDisconnected ->
  exists r s', logon w cfg timeout before rounds s = Some (r, s') /\ logon_post r s s' /\
    (monotone (steady_clock w) ->
     (forall k, steady_clock w k + timeout <= steady_clock w (k + S (length rounds))) -> r <> None).
Proof.
  intros Hc Hs Hd. unfold logon. rewrite decide_False by (intros H; by apply H). set (s1 := if reset_seq_on_logon cfg then _ else s).
  assert (session_ok cfg s1 /\ state_ s1 = kDisconnected /\ changes s1 = changes s) as (Hs1 & E1 & Ec1).
  { subst s1. destruct (reset_seq_on_logon cfg); [|done]. split; [|done]. destruct Hs. constructor; cbn; unfold UINT32_MAX; (done || lia). }
  clearbody s1. destruct (send_logon_sends w cfg s1 Hc Hs1) as (ok & s2 & -> & Hsd & _). cbn [mbind option_bind].
  pose proof (sends_ok _ _ _ Hsd Hs1) as Hs2.
  destruct ok; cbn [negb].
  2: { eexists _, _. split; [done|]. split; [|done]. cbn. by rewrite (sd_state _ _ _ Hsd), (sd_changes _ _ _ Hsd). }
  destruct (run_bg_step w cfg Hc before s2 Hs2) as (s3 & -> & H3 & E3). cbn [mbind option_bind].
  rewrite (sd_state _ _ _ Hsd), E1 in E3. pose proof (ef_ok _ _ _ _ _ H3) as Hs3.
  destruct (enter_wait_effect w cfg Hc false kLogonSent (steady_clock w (steady_reads (set_state kLogonSent s3)) + timeout) rounds s3)
    as (r & s4 & E & H4 & Hedge & Hp); [done|left; by destruct (state_ s3)|done|].
  cbn [steady_now fst snd] in *. rewrite E. cbn [mbind option_bind].
  assert (monotone (steady_clock w) -> (forall k, steady_clock w k + timeout <= steady_clock w (k + S (length rounds))) -> r <> Waiting) as Hterm.
  { intros Hmono Hdl. eapply spin_wait_ends; [done| |done| |exact E].
    - unfold set_state. destruct (decide _), Hs3; by constructor.
    - etransitivity; [apply Hdl|]. apply Hmono. cbn. lia. }
  destruct r; cbn in Hp.
  - destruct (decide _) as [Hna|Ha]; eexists _, _; (split; [done|]); (split; [|done]); cbn.
    + by destruct (state_ s4).
    + apply dec_stable in Ha. by rewrite Ha.
  - by eexists _, _.
  - eexists _, _. split; [done|]. split; [done|]. intros Hm Hk. by destruct (Hterm Hm Hk).
Qed.

(** The server's Logon arrives in the second iteration. *)
Lemma fix_logon_outcome_witness :
  exists s', logon demo_world demo_cfg 5000000000 [] [[]; [BRx demo_logon]; []; []; []; []] (new_session demo_cfg) = Some (Some (Ok tt), s') /\
    state_ s' = kActive /\ heartbeat_interval_sec_ s' = 20.
Proof.
  destruct (fix_logon_outcome demo_world demo_cfg 5000000000 [] [[]; [BRx demo_logon]; []; []; []; []] (new_session demo_cfg)
    demo_cfg_ok (new_session_ok _) eq_refl) as (r & s' & E & Hpost & _).
  assert (option_map (fun p => (p.1, heartbeat_interval_sec_ p.2))
    (logon demo_world demo_cfg 5000000000 [] [[]; [BRx demo_logon]; []; []; []; []] (new_session demo_cfg)) = Some (Some (Ok tt), 20)) as H
    by (vm_compute; reflexivity).
  rewrite E in H. cbn [option_map fst snd] in H. injection H as H1 H2. subst r. exists s'. split; [exact E|].
  split; [exact (proj1 Hpost)|exact H2].
Defined.

(** An answer that is processed between the send and the change of state is lost: the same
    Logon that makes [logon] succeed above lets it time out here. *)
Lemma logon_answer_lost :
  option_map fst (logon demo_world demo_cfg 5000000000 [BRx demo_logon] [[]; []; []; []; []; []] (new_session demo_cfg))
    = Some (Some (Err LogonTimeout)).
Proof. vm_compute. reflexivity. Qed.

(** A Logout reply that is processed there is answered with a second Logout, and the session
    leaves DISCONNECTED for LOGOUT_SENT to wait for the timeout. *)
Lemma logout_answer_repeated :
  option_map (fun p => (p.1, length (sent p.2), changes p.2))
    (logout demo_world demo_cfg 1000000000 [BRx (demo_msg [OSet MsgType Logout; OInt MsgSeqNum 1])] [[]; []; []] demo_active)
    = Some (Some (Ok tt), 2%nat, [(kDisconnected, kActive); (kActive, kDisconnected); (kDisconnected, kLogoutSent); (kLogoutSent, kDisconnected)]).
Proof. vm_compute. reflexivity. Qed.

(** A number is spent although nothing can be sent: an application message that does not fit
    leaves a gap that the counterparty will see. *)
Lemma send_app_overflow_spends_number :
  option_map (fun p => (p.1.1, outbound_seq_ p.2, sent p.2)) (send_app demo_world demo_cfg (set_overflow demo_app) demo_active)
    = Some (false, 2, []).
Proof. vm_compute. reflexivity. Qed.
