(* ===== verification/BoundedQueue.v ===== *)
(** * BoundedQueue: the lock-free bounded SPSC queue

    bounded_queue.hpp of eph-containers.  The first part models every
    non-blocking operation as a state transformer and proves that it refines a
    bounded FIFO; the second part interleaves one producer and one consumer at
    the granularity of single accesses to shared memory (atomic loads and stores,
    slot reads and writes) and proves FIFO delivery and the absence of data races
    on the slots, which is what makes the sequentially consistent interleaving an
    adequate reading of the acquire/release protocol. *)

From S2P Require Import Prelude.
From stdpp Require Import relations.

#[local] Open Scope Z_scope.

Section bounded_queue.
Context {T : Type}.
(** [Capacity = 2^k]; [size_t] has 64 bits. *)
Variable k : Z.

Definition Capacity : Z := 2 ^ k.
Definition mask_ : Z := Capacity - 1.

(** WriterLine, ReaderLine and the slots. *)
Record bq := mkbq {
  tail_ : Z;
  shadow_head_ : Z;
  head_ : Z;
  shadow_tail_ : Z;
  buffer_ : list T;
}.

Definition slot (i : Z) : nat := Z.to_nat (Z.land i mask_).

Definition bq_init (d : T) : bq :=
  mkbq 0 0 0 0 (replicate (Z.to_nat Capacity) d).

Definition set_shadow_head (q : bq) (h : Z) : bq :=
  mkbq (tail_ q) h (head_ q) (shadow_tail_ q) (buffer_ q).
Definition set_shadow_tail (q : bq) (t : Z) : bq :=
  mkbq (tail_ q) (shadow_head_ q) (head_ q) t (buffer_ q).
Definition set_tail (q : bq) (t : Z) : bq :=
  mkbq t (shadow_head_ q) (head_ q) (shadow_tail_ q) (buffer_ q).
Definition set_head (q : bq) (h : Z) : bq :=
  mkbq (tail_ q) (shadow_head_ q) h (shadow_tail_ q) (buffer_ q).
Definition set_buffer (q : bq) (b : list T) : bq :=
  mkbq (tail_ q) (shadow_head_ q) (head_ q) (shadow_tail_ q) b.

(** ** Writer operations *)

(** The space test of [try_produce]; the shadow is refreshed from [head_] only
    when it reports the queue full. *)
Definition reserve_one (q : bq) : bool * bq :=
  let tail := tail_ q in
  if Capacity <=? u64 (tail - shadow_head_ q) then
    let head := head_ q in
    let q := set_shadow_head q head in
    (negb (Capacity <=? u64 (tail - head)), q)
  else (true, q).

Definition try_produce (writer_func : T -> T) (q : bq) : option (bool * bq) :=
  let tail := tail_ q in
  let '(room, q) := reserve_one q in
  if room then
    x ← buffer_ q !! slot tail;
    Some (true, set_tail (set_buffer q (<[slot tail := writer_func x]> (buffer_ q))) (u64 (tail + 1)))
  else Some (false, q).

Definition try_emplace (v : T) (q : bq) : option (bool * bq) := try_produce (fun _ => v) q.
Definition try_push (v : T) (q : bq) : option (bool * bq) := try_produce (fun _ => v) q.

(** The space test of the batch writers. *)
Definition reserve_n (n : Z) (q : bq) : bool * bq :=
  let tail := tail_ q in
  let available := u64 (Capacity - u64 (tail - shadow_head_ q)) in
  if available <? n then
    let head := head_ q in
    let q := set_shadow_head q head in
    let available := u64 (Capacity - u64 (tail - head)) in
    (negb (available <? n), q)
  else (true, q).

(** [for (i = 0; i < n; ++i) writer(buffer_[(tail + i) & mask_], i)], started at [i]. *)
Fixpoint write_slots (writer : T -> Z -> T) (tail i : Z) (n : nat) (b : list T) : option (list T) :=
  match n with
  | O => Some b
  | S m =>
      x ← b !! slot (u64 (tail + i));
      write_slots writer tail (i + 1) m (<[slot (u64 (tail + i)) := writer x i]> b)
  end.

Definition try_produce_n (n : Z) (writer : T -> Z -> T) (q : bq) : option (bool * bq) :=
  if n =? 0 then Some (true, q) else
  let tail := tail_ q in
  let '(room, q) := reserve_n n q in
  if room then
    b ← write_slots writer tail 0 (Z.to_nat n) (buffer_ q);
    Some (true, set_tail (set_buffer q b) (u64 (tail + n)))
  else Some (false, q).

(** [buffer_[(tail + i) & mask_] = data[i]]. *)
Definition try_push_n (data : list T) (q : bq) : option (bool * bq) :=
  try_produce_n (zlen data) (fun x i => default x (data !! Z.to_nat i)) q.

(** ** Reader operations *)

Definition acquire_one (q : bq) : bool * bq :=
  let head := head_ q in
  if shadow_tail_ q =? head then
    let tail := tail_ q in
    let q := set_shadow_tail q tail in
    (negb (head =? tail), q)
  else (true, q).

(** The result is the element handed to the visitor. *)
Definition try_consume (q : bq) : option (option T * bq) :=
  let head := head_ q in
  let '(avail, q) := acquire_one q in
  if avail then
    x ← buffer_ q !! slot head;
    Some (Some x, set_head q (u64 (head + 1)))
  else Some (None, q).

Definition try_peek (q : bq) : option (option T * bq) :=
  let head := head_ q in
  let '(avail, q) := acquire_one q in
  if avail then x ← buffer_ q !! slot head; Some (Some x, q)
  else Some (None, q).

Definition try_pop (q : bq) : option (option T * bq) := try_consume q.

Definition acquire_n (q : bq) : Z * bq :=
  let head := head_ q in
  let available := u64 (shadow_tail_ q - head) in
  if available =? 0 then
    let tail := tail_ q in
    (u64 (tail - head), set_shadow_tail q tail)
  else (available, q).

Fixpoint read_slots (head i : Z) (n : nat) (b : list T) : option (list T) :=
  match n with
  | O => Some []
  | S m =>
      x ← b !! slot (u64 (head + i));
      xs ← read_slots head (i + 1) m b;
      Some (x :: xs)
  end.

(** The list is what the visitor saw, in order; its length is the return value. *)
Definition try_consume_n (n : Z) (q : bq) : option (list T * bq) :=
  if n =? 0 then Some ([], q) else
  let head := head_ q in
  let '(available, q) := acquire_n q in
  if available =? 0 then Some ([], q) else
  let count := if available <? n then available else n in
  xs ← read_slots head 0 (Z.to_nat count) (buffer_ q);
  Some (xs, set_head q (u64 (head + count))).

Definition try_pop_n (max_n : Z) (q : bq) : option (list T * bq) := try_consume_n max_n q.
Definition try_consume_all (q : bq) : option (list T * bq) := try_consume_n Capacity q.

(** ** State queries *)

Definition clear (q : bq) : bq :=
  let tail := tail_ q in
  set_shadow_tail (set_shadow_head (set_head q tail) tail) tail.

Definition size (q : bq) : Z := u64 (tail_ q - head_ q).
Definition empty (q : bq) : bool := size q =? 0.
Definition full (q : bq) : bool := Capacity <=? size q.
Definition available_write (q : bq) : Z :=
  let used := size q in if used <? Capacity then Capacity - used else 0.
Definition available_read (q : bq) : Z := size q.

Record BoundedQueueStats := mkStats {
  total_pushed : Z;
  total_popped : Z;
  current_size : Z;
  capacity : Z;
}.

Definition stats (q : bq) : BoundedQueueStats :=
  let tail := tail_ q in
  let head := head_ q in
  let size := if head <=? tail then tail - head else 0 in
  mkStats tail head (Z.min size Capacity) Capacity.

Definition stats_sub (lhs rhs : BoundedQueueStats) : BoundedQueueStats :=
  mkStats
    (if total_pushed rhs <=? total_pushed lhs then total_pushed lhs - total_pushed rhs else 0)
    (if total_popped rhs <=? total_popped lhs then total_popped lhs - total_popped rhs else 0)
    (current_size lhs) (capacity lhs).

(** ** Representation invariant

    [h], [t], [sh], [st] are the unbounded counters whose low 64 bits the queue
    stores.  The shadows lag behind the index they cache, and never so far that
    the space and occupancy tests could be misled. *)
Record counters (q : bq) (h t sh st : Z) : Prop := {
  c_tail : tail_ q = u64 t;
  c_head : head_ q = u64 h;
  c_shadow_head : shadow_head_ q = u64 sh;
  c_shadow_tail : shadow_tail_ q = u64 st;
  c_order : 0 <= sh <= h /\ h <= st <= t /\ t <= sh + Capacity;
  c_len : zlen (buffer_ q) = Capacity;
}.

(** Slots [h .. h + length l) hold [l]. *)
Definition holds (b : list T) (h : Z) (l : list T) : Prop :=
  forall j x, l !! j = Some x -> b !! Z.to_nat ((h + Z.of_nat j) mod Capacity) = Some x.

(** The queue represents the FIFO content [l], oldest first. *)
Definition represents (q : bq) (l : list T) : Prop :=
  exists h t sh st, counters q h t sh st /\ t = h + zlen l /\ holds (buffer_ q) h l.

Hypothesis Hk : 0 <= k <= 63.

Lemma Capacity_pos : 0 < Capacity <= 2 ^ 63.
Proof using Hk.
  unfold Capacity. split; [apply Z.pow_pos_nonneg; lia|apply Z.pow_le_mono_r; lia].
Qed.

Lemma slot_u64 i : slot (u64 i) = Z.to_nat (i mod Capacity).
Proof using Hk. unfold slot, mask_, Capacity. by rewrite wrap_land_mask by lia. Qed.

Lemma slot_lookup (b : list T) i : zlen b = Capacity -> is_Some (b !! Z.to_nat (i mod Capacity)).
Proof using Hk.
  intros Hb. pose proof Capacity_pos. apply lookup_lt_is_Some_2. unfold zlen in Hb.
  pose proof (Z.mod_pos_bound i Capacity). lia.
Qed.

(** Slots of two positions less than a lap apart are distinct. *)
Lemma slot_ne i j :
  i <> j -> - Capacity < i - j < Capacity -> Z.to_nat (i mod Capacity) <> Z.to_nat (j mod Capacity).
Proof using Hk.
  intros Hne Hij E. pose proof Capacity_pos. apply Hne.
  apply (wrap_inj_close k); [lia| |exact Hij]. unfold wrap. fold Capacity.
  pose proof (Z.mod_pos_bound i Capacity). pose proof (Z.mod_pos_bound j Capacity). lia.
Qed.

Lemma holds_insert (b : list T) h l i y :
  holds b h l -> h + zlen l <= i < h + Capacity ->
  holds (<[Z.to_nat (i mod Capacity) := y]> b) h l.
Proof using Hk.
  intros Hh Hi j x Hj. rewrite list_lookup_insert_ne; [by apply Hh|].
  apply lookup_lt_Some in Hj. unfold zlen in *. apply slot_ne; lia.
Qed.

Lemma holds_snoc (b : list T) h l y :
  zlen b = Capacity -> holds b h l -> zlen l < Capacity ->
  holds (<[Z.to_nat ((h + zlen l) mod Capacity) := y]> b) h (l ++ [y]).
Proof using Hk.
  intros Hb Hh Hl j x Hj. destruct (decide (j < length l)%nat).
  - rewrite lookup_app_l in Hj by done. eapply holds_insert; [done| |done].
    unfold zlen in *. lia.
  - apply lookup_snoc_Some in Hj as [[? _]|[-> <-]]; [lia|]. fold (zlen l).
    apply list_lookup_insert_eq.
    destruct (slot_lookup b (h + zlen l) Hb) as [z Hz]. by eapply lookup_lt_Some.
Qed.

Lemma holds_tail (b : list T) h x l : holds b h (x :: l) -> holds b (h + 1) l.
Proof.
  intros Hh j y Hj. specialize (Hh (S j) y Hj).
  replace (h + 1 + Z.of_nat j) with (h + Z.of_nat (S j)) by lia. done.
Qed.

Lemma holds_drop (b : list T) h l n :
  holds b h l -> holds b (h + Z.of_nat n) (drop n l).
Proof.
  intros Hh j x Hj. rewrite lookup_drop in Hj. apply Hh in Hj.
  rewrite <- Hj. do 3 f_equal. lia.
Qed.

(** ** The space and occupancy tests *)

Lemma reserve_one_spec q h t sh st :
  counters q h t sh st ->
  exists q' sh', reserve_one q = (t - h <? Capacity, q') /\
    counters q' h t sh' st /\ buffer_ q' = buffer_ q /\ tail_ q' = tail_ q /\
    (t - h < Capacity -> t < sh' + Capacity).
Proof using Hk.
  intros [Ct Ch Csh Cst Co Cl]. pose proof Capacity_pos. unfold reserve_one.
  rewrite Ct, Ch, Csh, !wrap_sub_exact by lia.
  destruct (Z.leb_spec Capacity (t - sh)).
  - exists (set_shadow_head q (u64 h)), h. split.
    { f_equal. destruct (Z.leb_spec Capacity (t - h)); zdecide; done. }
    split; [constructor; cbn; try done; lia|]. split; [done|]. split; [by cbn|]. lia.
  - exists q, sh. split; [by zdecide|]. split; [by constructor|]. repeat split; try done. lia.
Qed.

Lemma reserve_n_spec q h t sh st n :
  counters q h t sh st ->
  exists q' sh', reserve_n n q = (n <=? Capacity - (t - h), q') /\
    counters q' h t sh' st /\ buffer_ q' = buffer_ q /\ tail_ q' = tail_ q /\
    (n <= Capacity - (t - h) -> t + n <= sh' + Capacity).
Proof using Hk.
  intros [Ct Ch Csh Cst Co Cl]. pose proof Capacity_pos. unfold reserve_n.
  rewrite Ct, Ch, Csh, !wrap_sub_exact by lia. rewrite !wrap_small by lia.
  destruct (Z.ltb_spec (Capacity - (t - sh)) n).
  - exists (set_shadow_head q (u64 h)), h. split.
    { f_equal. destruct (Z.ltb_spec (Capacity - (t - h)) n); zdecide; done. }
    split; [constructor; cbn; try done; lia|]. split; [done|]. split; [by cbn|]. lia.
  - exists q, sh. split; [by zdecide|]. split; [by constructor|]. repeat split; try done. lia.
Qed.

Lemma acquire_one_spec q h t sh st :
  counters q h t sh st ->
  exists q' st', acquire_one q = (h <? t, q') /\
    counters q' h t sh st' /\ buffer_ q' = buffer_ q /\ head_ q' = head_ q /\ (h < t -> h < st').
Proof using Hk.
  intros [Ct Ch Csh Cst Co Cl]. pose proof Capacity_pos. unfold acquire_one.
  rewrite Ct, Ch, Cst.
  destruct (Z.eqb_spec (u64 st) (u64 h)) as [E|E].
  - apply wrap_inj_close in E; [subst st|lia..].
    exists (set_shadow_tail q (u64 t)), t. split.
    { f_equal. destruct (Z.eqb_spec (u64 h) (u64 t)) as [E|E].
      - apply wrap_inj_close in E; [|lia..]. by zdecide.
      - destruct (decide (h = t)) as [->|]; [done|]. by zdecide. }
    split; [constructor; cbn; try done; lia|]. repeat split; done.
  - assert (h <> st) by (intros ->; done).
    exists q, st. split; [by zdecide|]. split; [by constructor|]. repeat split; try done. lia.
Qed.

Lemma acquire_n_spec q h t sh st :
  counters q h t sh st ->
  exists q' st', acquire_n q = (st' - h, q') /\
    counters q' h t sh st' /\ buffer_ q' = buffer_ q /\ head_ q' = head_ q /\
    (h < t -> h < st') /\ (h = st -> st' = t).
Proof using Hk.
  intros [Ct Ch Csh Cst Co Cl]. pose proof Capacity_pos. unfold acquire_n.
  rewrite Ct, Ch, Cst, !wrap_sub_exact by lia.
  destruct (Z.eqb_spec (st - h) 0).
  - exists (set_shadow_tail q (u64 t)), t. split; [done|].
    split; [constructor; cbn; try done; lia|]. repeat split; done.
  - exists q, st. split; [done|]. split; [by constructor|]. repeat split; try done; lia.
Qed.

(** ** Refinement: each operation against the bounded FIFO *)

Lemma bq_init_represents d : represents (bq_init d) [].
Proof using Hk.
  pose proof Capacity_pos. exists 0, 0, 0, 0. split; [|split; [done|]].
  - constructor; cbn; try done; [lia|]. unfold zlen. rewrite length_replicate. lia.
  - intros j x Hj. by rewrite lookup_nil in Hj.
Qed.

Lemma represents_size q l : represents q l -> size q = zlen l /\ zlen l <= Capacity.
Proof using Hk.
  intros (h & t & sh & st & [Ct Ch Csh Cst Co Cl] & Ht & _). pose proof Capacity_pos.
  unfold size. rewrite Ct, Ch, wrap_sub_exact by lia. lia.
Qed.

Lemma try_produce_spec f q l :
  represents q l ->
  if zlen l <? Capacity
  then exists x q', try_produce f q = Some (true, q') /\ represents q' (l ++ [f x])
  else exists q', try_produce f q = Some (false, q') /\ represents q' l.
Proof using Hk.
  intros (h & t & sh & st & C & Ht & Hh). pose proof Capacity_pos. unfold try_produce.
  destruct (reserve_one_spec q h t sh st C) as (q' & sh' & -> & C' & Eb & Et & Hroom).
  replace (t - h) with (zlen l) by lia. rewrite (c_tail _ _ _ _ _ C) in *.
  destruct (Z.ltb_spec (zlen l) Capacity).
  - rewrite slot_u64. destruct (slot_lookup (buffer_ q') t (c_len _ _ _ _ _ C')) as [x Hx].
    rewrite Hx. cbn [mbind option_bind]. exists x. eexists; split; [done|].
    rewrite Eb in *. destruct C'. exists h, (t + 1), sh', st. split; [|split].
    + constructor; cbn; try done; [by rewrite wrap_add_wrap_l|lia|].
      unfold zlen. rewrite length_insert. by rewrite <- c_len0, Eb.
    + zlens. lia.
    + cbn. rewrite Ht. apply holds_snoc; [by rewrite <- c_len0, Eb|done|lia].
  - exists q'. split; [done|]. exists h, t, sh', st. by rewrite Eb.
Qed.

Lemma write_slots_spec writer t b h l i n :
  zlen b = Capacity -> holds b h l -> t + i = h + zlen l -> zlen l + Z.of_nat n <= Capacity ->
  exists b' ys, write_slots writer (u64 t) i n b = Some b' /\ zlen b' = Capacity /\
    holds b' h (l ++ ys) /\ length ys = n /\
    forall j y, ys !! j = Some y -> exists x, y = writer x (i + Z.of_nat j).
Proof using Hk.
  revert b l i. induction n as [|n IH]; intros b l i Hb Hh Ht Hn.
  - exists b, []. rewrite app_nil_r. split_and!; try done. 
  - cbn [write_slots]. rewrite wrap_add_wrap_l by lia. rewrite slot_u64, Ht.
    destruct (slot_lookup b (h + zlen l) Hb) as [x Hx]. rewrite Hx. cbn [mbind option_bind].
    destruct (IH (<[Z.to_nat ((h + zlen l) mod Capacity) := writer x i]> b) (l ++ [writer x i]) (i + 1))
      as (b' & ys & E & Hb' & Hh' & Hl & Hys).
    + unfold zlen. by rewrite length_insert.
    + apply holds_snoc; [done|done|lia].
    + zlens. lia.
    + zlens. lia.
    + exists b', (writer x i :: ys). rewrite cons_middle, app_assoc. split_and!; try done; [cbn; lia|].
      intros [|j] y Hj.
      * injection Hj as <-. exists x. f_equal. lia.
      * destruct (Hys j y Hj) as [z ->]. exists z. f_equal. lia.
Qed.

Lemma try_produce_n_spec n writer q l :
  represents q l -> 0 < n ->
  if n <=? Capacity - zlen l
  then exists ys q', try_produce_n n writer q = Some (true, q') /\ represents q' (l ++ ys) /\
         zlen ys = n /\ forall j y, ys !! j = Some y -> exists x, y = writer x (Z.of_nat j)
  else exists q', try_produce_n n writer q = Some (false, q') /\ represents q' l.
Proof using Hk.
  intros (h & t & sh & st & C & Ht & Hh) Hn. pose proof Capacity_pos. unfold try_produce_n.
  zdecide. destruct (reserve_n_spec q h t sh st n C) as (q' & sh' & -> & C' & Eb & Et & Hroom).
  replace (t - h) with (zlen l) in * by lia. rewrite (c_tail _ _ _ _ _ C) in *.
  destruct (Z.leb_spec n (Capacity - zlen l)).
  - destruct C'. rewrite Eb in *.
    destruct (write_slots_spec writer t (buffer_ q) h l 0 (Z.to_nat n))
      as (b' & ys & E & Hb' & Hh' & Hl & Hys); [done|done|lia|lia|].
    rewrite E. cbn [mbind option_bind]. exists ys. eexists; split_and!; try done.
    + exists h, (t + n), sh', st. split_and!; cbn.
      * constructor; cbn; try done; [by rewrite wrap_add_wrap_l|lia].
      * zlens. unfold zlen in *. lia.
      * done.
    + unfold zlen. lia.
  - exists q'. split; [done|]. exists h, t, sh', st. by rewrite Eb.
Qed.

Lemma try_push_n_spec data q l :
  represents q l ->
  if zlen data <=? Capacity - zlen l
  then exists q', try_push_n data q = Some (true, q') /\ represents q' (l ++ data)
  else exists q', try_push_n data q = Some (false, q') /\ represents q' l.
Proof using Hk.
  intros Hq. destruct (represents_size q l Hq) as [_ Hl].
  destruct (decide (zlen data = 0)) as [E|].
  - assert (data = []) as -> by (destruct data; [done|unfold zlen in E; simpl in E; lia]).
    zdecide. exists q. rewrite app_nil_r. by unfold try_push_n, try_produce_n.
  - pose proof (zlen_nonneg data).
    pose proof (try_produce_n_spec (zlen data) (fun x i => default x (data !! Z.to_nat i)) q l Hq
      ltac:(lia)) as Hs. fold (try_push_n data q) in Hs.
    destruct (zlen data <=? Capacity - zlen l); [|done].
    destruct Hs as (ys & q' & E & Hr & Hz & Hy). exists q'. split; [done|].
    replace data with ys; [done|]. apply list_eq_same_length with (length data);
      [done|unfold zlen in *; lia|].
    intros j x y Hj Hx Hd. destruct (Hy j x Hx) as [z ->]. by rewrite Nat2Z.id, Hd.
Qed.

Lemma try_consume_spec q l :
  represents q l ->
  match l with
  | [] => exists q', try_consume q = Some (None, q') /\ represents q' []
  | x :: l' => exists q', try_consume q = Some (Some x, q') /\ represents q' l'
  end.
Proof using Hk.
  intros (h & t & sh & st & C & Ht & Hh). pose proof Capacity_pos. unfold try_consume.
  destruct (acquire_one_spec q h t sh st C) as (q' & st' & -> & C' & Eb & Et & Hav).
  rewrite (c_head _ _ _ _ _ C) in *. destruct l as [|x l]; zlens.
  - zdecide. exists q'. split; [done|]. exists h, t, sh, st'. by rewrite Eb.
  - pose proof (zlen_nonneg l). zdecide. rewrite slot_u64, Eb.
    assert (buffer_ q !! Z.to_nat (h mod Capacity) = Some x) as Hx.
    { specialize (Hh 0%nat x eq_refl). by rewrite Z.add_0_r in Hh. }
    rewrite Hx. cbn [mbind option_bind]. eexists; split; [done|].
    destruct C'. exists (h + 1), t, sh, st'. split; [|split].
    + constructor; cbn; try done; [by rewrite wrap_add_wrap_l|lia].
    + lia.
    + cbn. rewrite Eb. by apply holds_tail with x.
Qed.

Lemma try_peek_spec q l :
  represents q l -> exists q', try_peek q = Some (head l, q') /\ represents q' l.
Proof using Hk.
  intros (h & t & sh & st & C & Ht & Hh). pose proof Capacity_pos. unfold try_peek.
  destruct (acquire_one_spec q h t sh st C) as (q' & st' & -> & C' & Eb & Et & Hav).
  rewrite (c_head _ _ _ _ _ C) in *. exists q'. split.
  - destruct l as [|x l]; zlens; [by zdecide|]. pose proof (zlen_nonneg l). zdecide.
    rewrite slot_u64, Eb. specialize (Hh 0%nat x eq_refl). rewrite Z.add_0_r in Hh. by rewrite Hh.
  - exists h, t, sh, st'. by rewrite Eb.
Qed.

Lemma read_slots_spec b h l i n :
  zlen b = Capacity -> holds b (h + i) l -> (n <= length l)%nat ->
  read_slots (u64 h) i n b = Some (take n l).
Proof using Hk.
  intros Hb. revert l i. induction n as [|n IH]; intros l i Hh Hn; [done|].
  destruct l as [|x l]; simpl in Hn; [lia|]. cbn [read_slots].
  rewrite wrap_add_wrap_l by lia. rewrite slot_u64.
  pose proof (Hh 0%nat x eq_refl) as Hx. rewrite Z.add_0_r in Hx. rewrite Hx.
  cbn [mbind option_bind]. rewrite (IH l (i + 1)); [done|..|lia].
  rewrite Z.add_assoc. by apply holds_tail with x.
Qed.

(** The batch readers hand out a prefix of the content; it is empty only when
    nothing is asked for or nothing is there. *)
Lemma try_consume_n_spec n q l :
  represents q l -> 0 <= n ->
  exists c q', try_consume_n n q = Some (take c l, q') /\ represents q' (drop c l) /\
    (c <= length l)%nat /\ Z.of_nat c <= n /\ (c = 0%nat -> n = 0 \/ l = []).
Proof using Hk.
  intros (h & t & sh & st & C & Ht & Hh) Hn. pose proof Capacity_pos. unfold try_consume_n.
  destruct (Z.eqb_spec n 0) as [->|].
  { exists 0%nat, q. rewrite take_0, drop_0. split_and!; try done; try lia. by exists h, t, sh, st. }
  destruct (acquire_n_spec q h t sh st C) as (q' & st' & -> & C' & Eb & Et & Hav & _).
  rewrite (c_head _ _ _ _ _ C) in *. unfold zlen in Ht.
  destruct (Z.eqb_spec (st' - h) 0).
  - exists 0%nat, q'. rewrite take_0, drop_0.
    destruct C'. split_and!; try done; try lia.
    + exists h, t, sh, st'. rewrite Eb. split; [by constructor|done].
    + intros _. right. destruct l; [done|simpl in *; lia].
  - set (c := if st' - h <? n then st' - h else n).
    assert (0 < c <= st' - h /\ c <= n) as Hc.
    { destruct C'. unfold c. destruct (Z.ltb_spec (st' - h) n); lia. }
    destruct C'. rewrite Eb in *.
    rewrite (read_slots_spec (buffer_ q) h l 0 (Z.to_nat c));
      [|done|by rewrite Z.add_0_r|lia]. cbn [mbind option_bind].
    exists (Z.to_nat c). eexists; split_and!; [done| |lia..].
    exists (h + c), t, sh, st'. split_and!.
    + constructor; cbn; try done; [by rewrite wrap_add_wrap_l|lia|by rewrite Eb].
    + zlens. unfold zlen in *. lia.
    + cbn. rewrite Eb. replace (h + c) with (h + Z.of_nat (Z.to_nat c)) by lia. by apply holds_drop.
Qed.

Lemma clear_spec q l : represents q l -> represents (clear q) [].
Proof using Hk.
  intros (h & t & sh & st & [Ct Ch Csh Cst Co Cl] & Ht & Hh). pose proof Capacity_pos.
  exists t, t, t, t. split; [|split; [unfold zlen; simpl; lia|intros j x Hj; by rewrite lookup_nil in Hj]].
  unfold clear. constructor; cbn; try done; lia.
Qed.

(** ** Interleaved execution

    Program counters of the producer and of the consumer, one shared access per
    step.  [tail_] is written by the producer only and [head_] by the consumer
    only, so loading one's own index is merged with the local test after it. *)

Inductive ppc :=
| PIdle
| PStart (single : bool) (vs : list T)
| PReload (single : bool) (vs : list T) (tail : Z)
| PWrite (vs : list T) (tail : Z) (i : nat)
| PPublish (vs : list T) (tail : Z).

(** [try_produce] tests for one free slot, the batch writers for [n]. *)
Definition room (single : bool) (n tail shadow : Z) : bool :=
  if single then negb (Capacity <=? u64 (tail - shadow))
  else negb (u64 (Capacity - u64 (tail - shadow)) <? n).

(** One step of [try_produce] / [try_push_n]: next program counter, queue, and
    the elements published by the step. *)
Definition p_step (pc : ppc) (q : bq) : option (ppc * bq * list T) :=
  match pc with
  | PIdle => None
  | PStart single vs =>
      let tail := tail_ q in
      if room single (zlen vs) tail (shadow_head_ q)
      then Some (PWrite vs tail 0, q, []) else Some (PReload single vs tail, q, [])
  | PReload single vs tail =>
      let head := head_ q in
      let q := set_shadow_head q head in
      if room single (zlen vs) tail head
      then Some (PWrite vs tail 0, q, []) else Some (PIdle, q, [])
  | PWrite vs tail i =>
      v ← vs !! i;
      _ ← buffer_ q !! slot (u64 (tail + Z.of_nat i));
      let q := set_buffer q (<[slot (u64 (tail + Z.of_nat i)) := v]> (buffer_ q)) in
      if (S i <? length vs)%nat then Some (PWrite vs tail (S i), q, [])
      else Some (PPublish vs tail, q, [])
  | PPublish vs tail => Some (PIdle, set_tail q (u64 (tail + zlen vs)), vs)
  end.

Inductive rmode := RConsume | RPeek | RBatch (n : Z).

Inductive cpc :=
| CIdle
| CStart (m : rmode)
| CReload (m : rmode) (head : Z)
| CRead (m : rmode) (head : Z) (count : nat) (acc : list T)
| CPublish (head : Z) (acc : list T).

(** How many elements the reader takes given a cached tail; 0 when it must
    reload or give up. *)
Definition take_count (m : rmode) (head shadow : Z) : Z :=
  match m with
  | RConsume | RPeek => if shadow =? head then 0 else 1
  | RBatch n => let available := u64 (shadow - head) in
                if available <? n then available else n
  end.

(** One step of [try_consume], [try_peek] or [try_consume_n]: next program
    counter, queue, elements released by the step, elements peeked at. *)
Definition c_step (pc : cpc) (q : bq) : option (cpc * bq * list T * list T) :=
  match pc with
  | CIdle => None
  | CStart m =>
      let head := head_ q in
      let c := take_count m head (shadow_tail_ q) in
      if c =? 0 then Some (CReload m head, q, [], [])
      else Some (CRead m head (Z.to_nat c) [], q, [], [])
  | CReload m head =>
      let tail := tail_ q in
      let q := set_shadow_tail q tail in
      let c := take_count m head tail in
      if c =? 0 then Some (CIdle, q, [], [])
      else Some (CRead m head (Z.to_nat c) [], q, [], [])
  | CRead m head count acc =>
      x ← buffer_ q !! slot (u64 (head + zlen acc));
      if (S (length acc) <? count)%nat then Some (CRead m head count (acc ++ [x]), q, [], [])
      else match m with
           | RPeek => Some (CIdle, q, [], [x])
           | _ => Some (CPublish head (acc ++ [x]), q, [], [])
           end
  | CPublish head acc => Some (CIdle, set_head q (u64 (head + zlen acc)), acc, [])
  end.

(** The two threads, the queue, and what has crossed the interface so far:
    everything published, everything consumed, and each peek with the number of
    elements consumed before it. *)
Record sys := mksys {
  sq : bq;
  sp : ppc;
  sc : cpc;
  pushed : list T;
  popped : list T;
  peeked : list (nat * T);
}.

Definition sys_init (d : T) : sys := mksys (bq_init d) PIdle CIdle [] [] [].

Inductive step : sys -> sys -> Prop :=
| step_call_push s v :
    sp s = PIdle ->
    step s (mksys (sq s) (PStart true [v]) (sc s) (pushed s) (popped s) (peeked s))
| step_call_push_n s vs :
    sp s = PIdle -> vs <> [] ->
    step s (mksys (sq s) (PStart false vs) (sc s) (pushed s) (popped s) (peeked s))
| step_producer s pc q out :
    p_step (sp s) (sq s) = Some (pc, q, out) ->
    step s (mksys q pc (sc s) (pushed s ++ out) (popped s) (peeked s))
| step_call_reader s m :
    sc s = CIdle -> (forall n, m = RBatch n -> 0 < n) ->
    step s (mksys (sq s) (sp s) (CStart m) (pushed s) (popped s) (peeked s))
| step_consumer s pc q out pk :
    c_step (sc s) (sq s) = Some (pc, q, out, pk) ->
    step s (mksys q (sp s) pc (pushed s) (popped s ++ out)
              (peeked s ++ ((fun x => (length (popped s), x)) <$> pk))).

(** ** The invariant of the interleaving *)

Definition p_inv (pc : ppc) (b : list T) (t sh : Z) : Prop :=
  match pc with
  | PIdle => True
  | PStart single vs => vs <> [] /\ (single = true -> zlen vs = 1)
  | PReload single vs tail => vs <> [] /\ (single = true -> zlen vs = 1) /\ tail = u64 t
  | PWrite vs tail i =>
      tail = u64 t /\ (i < length vs)%nat /\ t + zlen vs <= sh + Capacity /\ holds b t (take i vs)
  | PPublish vs tail => tail = u64 t /\ t + zlen vs <= sh + Capacity /\ holds b t vs
  end.

Definition m_inv (m : rmode) : Prop := forall n, m = RBatch n -> 0 < n.

Definition c_inv (pc : cpc) (ps : list T) (h st : Z) : Prop :=
  match pc with
  | CIdle => True
  | CStart m => m_inv m
  | CReload m head => m_inv m /\ head = u64 h
  | CRead m head count acc =>
      head = u64 h /\ (length acc < count)%nat /\ h + Z.of_nat count <= st /\
      (m = RPeek -> count = 1%nat) /\ acc = take (length acc) (drop (Z.to_nat h) ps)
  | CPublish head acc =>
      head = u64 h /\ h + zlen acc <= st /\ acc = take (length acc) (drop (Z.to_nat h) ps)
  end.

Record inv (s : sys) : Prop := mkinv {
  i_counters : exists sh st,
    counters (sq s) (zlen (popped s)) (zlen (pushed s)) sh st /\
    p_inv (sp s) (buffer_ (sq s)) (zlen (pushed s)) sh /\
    c_inv (sc s) (pushed s) (zlen (popped s)) st;
  i_prefix : popped s = take (length (popped s)) (pushed s);
  i_holds : holds (buffer_ (sq s)) (zlen (popped s)) (drop (length (popped s)) (pushed s));
  i_peeked : forall n x, (n, x) ∈ peeked s -> pushed s !! n = Some x;
}.

Lemma holds_app (b : list T) h l l' :
  holds b h l -> holds b (h + zlen l) l' -> holds b h (l ++ l').
Proof.
  intros H1 H2 j x Hj. apply lookup_app_Some in Hj as [Hj|[Hl Hj]]; [by apply H1|].
  apply H2 in Hj. rewrite <- Hj. unfold zlen. do 3 f_equal. lia.
Qed.

Lemma room_spec single n t s :
  0 <= t - s <= Capacity -> (single = true -> n = 1) ->
  room single n (u64 t) (u64 s) = (t + n <=? s + Capacity).
Proof using Hk.
  intros Hd Hs. pose proof Capacity_pos. unfold room. rewrite wrap_sub_exact by lia.
  destruct single; [rewrite Hs by done|rewrite wrap_small by lia]; zbool; simpl; done || lia.
Qed.

Lemma zlen_pos {A} (l : list A) : l <> [] -> 0 < zlen l.
Proof. destruct l; [done|]. unfold zlen. simpl. lia. Qed.

(** The space test, on the cached or on the reloaded head. *)
Lemma p_test_inv s q single vs sh st fail :
  inv s -> counters q (zlen (popped s)) (zlen (pushed s)) sh st ->
  buffer_ q = buffer_ (sq s) -> c_inv (sc s) (pushed s) (zlen (popped s)) st ->
  vs <> [] -> (single = true -> zlen vs = 1) -> p_inv fail (buffer_ q) (zlen (pushed s)) sh ->
  inv (mksys q (if room single (zlen vs) (u64 (zlen (pushed s))) (u64 sh)
                then PWrite vs (u64 (zlen (pushed s))) 0 else fail)
         (sc s) (pushed s ++ []) (popped s) (peeked s)).
Proof using Hk.
  intros [_ Hpre Hh Hpk] C Eb Hc Hne Hs Hf. rewrite app_nil_r.
  rewrite room_spec by (done || destruct C; lia). pose proof (zlen_pos vs Hne).
  constructor; cbn; try done; [|by rewrite Eb]. exists sh, st. split_and!; try done.
  destruct (Z.leb_spec (zlen (pushed s) + zlen vs) (sh + Capacity)); [|done].
  cbn. split_and!; try done. unfold zlen in *; lia.
Qed.

Lemma p_write_inv s vs tail i pc q out :
  inv s -> sp s = PWrite vs tail i -> p_step (PWrite vs tail i) (sq s) = Some (pc, q, out) ->
  inv (mksys q pc (sc s) (pushed s ++ out) (popped s) (peeked s)).
Proof using Hk.
  intros [(sh & st & C & Hp & Hc) Hpre Hh Hpk] Hsp E. rewrite Hsp in Hp.
  destruct Hp as (-> & Hi & Hroom & Hw). cbn [p_step] in E.
  rewrite wrap_add_wrap_l, slot_u64 in E by lia.
  destruct (lookup_lt_is_Some_2 vs i Hi) as [v Hv]. rewrite Hv in E. cbn [mbind option_bind] in E.
  destruct (slot_lookup (buffer_ (sq s)) (zlen (pushed s) + Z.of_nat i) (c_len _ _ _ _ _ C)) as [y Hy].
  rewrite Hy in E. cbn [mbind option_bind] in E. clear y Hy.
  set (b' := <[Z.to_nat ((zlen (pushed s) + Z.of_nat i) mod Capacity) := v]> (buffer_ (sq s))) in *.
  assert (counters (set_buffer (sq s) b') (zlen (popped s)) (zlen (pushed s)) sh st) as C'.
  { destruct C. constructor; cbn; try done. unfold b', zlen. by rewrite length_insert. }
  assert (holds b' (zlen (popped s)) (drop (length (popped s)) (pushed s))) as Hh'.
  { apply holds_insert; [done|]. destruct C. zlens. unfold zlen in *. lia. }
  assert (holds b' (zlen (pushed s)) (take (S i) vs)) as Hw'.
  { rewrite (take_S_r _ _ v) by done.
    assert (zlen (take i vs) = Z.of_nat i) as Hz by (zlens; unfold zlen; lia).
    unfold b'. rewrite <- Hz at 1.
    apply holds_snoc; [by destruct C|done|destruct C; unfold zlen in *; lia]. }
  destruct (Nat.ltb_spec (S i) (length vs)); simplify_eq; rewrite app_nil_r;
    constructor; try done; exists sh, st; split_and!; cbn; try done;
    split_and!; try done.
  by rewrite take_ge in Hw' by lia.
Qed.

(** Elements published later do not change what the reader is reading. *)
Lemma c_inv_mono pc ps out h st :
  0 <= h -> st <= zlen ps -> c_inv pc ps h st -> c_inv pc (ps ++ out) h st.
Proof.
  intros Hh Hst. destruct pc as [|m|m head|m head count acc|head acc]; cbn; try done.
  - intros (? & ? & ? & ? & Hacc). split_and!; try done.
    rewrite drop_app_le, take_app_le; rewrite ?length_drop; unfold zlen in *; done || lia.
  - intros (? & ? & Hacc). split_and!; try done.
    rewrite drop_app_le, take_app_le; rewrite ?length_drop; unfold zlen in *; done || lia.
Qed.

Lemma p_publish_inv s vs tail :
  inv s -> sp s = PPublish vs tail ->
  inv (mksys (set_tail (sq s) (u64 (tail + zlen vs))) PIdle (sc s) (pushed s ++ vs)
         (popped s) (peeked s)).
Proof using Hk.
  intros [(sh & st & C & Hp & Hc) Hpre Hh Hpk] Hsp. rewrite Hsp in Hp.
  destruct Hp as (-> & Hroom & Hw). pose proof (zlen_nonneg vs).
  assert (zlen (popped s) <= zlen (pushed s)) as Hle by (destruct C; lia). constructor; cbn.
  - exists sh, st. split_and!; try done.
    + destruct C. constructor; cbn; try done; [by rewrite wrap_add_wrap_l, zlen_app|zlens; lia].
    + apply c_inv_mono; [apply zlen_nonneg|destruct C; lia|done].
  - rewrite take_app_le by (unfold zlen in *; lia). done.
  - rewrite drop_app_le by (unfold zlen in *; lia). apply holds_app; [done|].
    replace (zlen (popped s) + _) with (zlen (pushed s)); [done|]. zlens. unfold zlen in *. lia.
  - intros n x Hin. apply lookup_app_l_Some. by apply Hpk.
Qed.

Lemma p_step_inv s pc q out :
  inv s -> p_step (sp s) (sq s) = Some (pc, q, out) ->
  inv (mksys q pc (sc s) (pushed s ++ out) (popped s) (peeked s)).
Proof using Hk.
  intros I E. pose proof (i_counters s I) as (sh & st & C & Hp & Hc). pose proof Capacity_pos.
  destruct (sp s) as [|single vs|single vs tail|vs tail i|vs tail] eqn:Hsp;
    cbn [p_step p_inv] in *; [done|..].
  - destruct Hp as [Hne Hs]. rewrite (c_tail _ _ _ _ _ C), (c_shadow_head _ _ _ _ _ C) in E.
    pose proof (p_test_inv s (sq s) single vs sh st (PReload single vs (u64 (zlen (pushed s))))
      I C eq_refl Hc Hne Hs) as Ht.
    destruct (room _ _ _ _); simplify_eq; by apply Ht.
  - destruct Hp as (Hne & Hs & ->). rewrite (c_head _ _ _ _ _ C) in E.
    assert (counters (set_shadow_head (sq s) (u64 (zlen (popped s))))
      (zlen (popped s)) (zlen (pushed s)) (zlen (popped s)) st) as C'.
    { destruct C. constructor; cbn; try done; lia. }
    pose proof (p_test_inv s _ single vs _ st PIdle I C' eq_refl Hc Hne Hs) as Ht.
    destruct (room _ _ _ _); simplify_eq; by apply Ht.
  - by apply (p_write_inv s vs tail i).
  - injection E as <- <- <-. by apply p_publish_inv.
Qed.

Lemma take_count_spec m h s :
  0 <= s - h <= Capacity -> m_inv m ->
  let c := take_count m (u64 h) (u64 s) in
  0 <= c <= s - h /\ (m = RPeek -> c <= 1) /\ (c = 0 -> s = h).
Proof using Hk.
  intros Hs Hm. pose proof Capacity_pos.
  destruct m as [| |n]; cbn.
  1-2: destruct (Z.eqb_spec (u64 s) (u64 h)) as [E|E];
    [apply wrap_inj_close in E; lia|split_and!; try lia; destruct (decide (s = h)) as [->|]; [done|lia]].
  rewrite wrap_sub_exact by lia. specialize (Hm n eq_refl).
  destruct (Z.ltb_spec (s - h) n); split_and!; try lia; done.
Qed.

(** The state in which the reader starts on its slots. *)
Lemma c_inv_begin m h s ps :
  0 <= h -> 0 <= s - h <= Capacity -> m_inv m -> take_count m (u64 h) (u64 s) <> 0 ->
  c_inv (CRead m (u64 h) (Z.to_nat (take_count m (u64 h) (u64 s))) []) ps h s.
Proof using Hk.
  intros Hh Hs Hm Hne. destruct (take_count_spec m h s Hs Hm) as (H1 & H2 & _).
  cbn. split_and!; try done; try lia. intros E. specialize (H2 E). lia.
Qed.

(** A consumer step that releases nothing keeps every other part of the
    invariant. *)
Lemma c_quiet_inv s q pc st sh :
  inv s -> counters q (zlen (popped s)) (zlen (pushed s)) sh st ->
  p_inv (sp s) (buffer_ q) (zlen (pushed s)) sh ->
  buffer_ q = buffer_ (sq s) -> c_inv pc (pushed s) (zlen (popped s)) st ->
  inv (mksys q (sp s) pc (pushed s) (popped s ++ []) (peeked s ++ [])).
Proof.
  intros [_ Hpre Hh Hpk] C Hp Hb Hc. rewrite !app_nil_r. constructor; cbn; try done.
  - by exists sh, st.
  - by rewrite Hb.
Qed.

(** The slot the reader is at holds the next element to consume. *)
Lemma read_slot s sh st count acc :
  inv s -> counters (sq s) (zlen (popped s)) (zlen (pushed s)) sh st ->
  (length acc < count)%nat -> zlen (popped s) + Z.of_nat count <= st ->
  acc = take (length acc) (drop (length (popped s)) (pushed s)) ->
  exists x, buffer_ (sq s) !! slot (u64 (u64 (zlen (popped s)) + zlen acc)) = Some x /\
    acc ++ [x] = take (S (length acc)) (drop (length (popped s)) (pushed s)) /\
    pushed s !! (length (popped s) + length acc)%nat = Some x.
Proof using Hk.
  intros I C Hl Hst Hacc. rewrite wrap_add_wrap_l, slot_u64 by lia.
  destruct (lookup_lt_is_Some_2 (drop (length (popped s)) (pushed s)) (length acc)) as [x Hx].
  { rewrite length_drop. destruct C. unfold zlen in *. lia. }
  exists x. split_and!.
  - by apply (i_holds s I).
  - rewrite (take_S_r _ _ x) by done. by rewrite Hacc at 1.
  - by rewrite lookup_drop in Hx.
Qed.

Lemma c_read_inv s m head count acc pc q out pk :
  inv s -> sc s = CRead m head count acc -> c_step (sc s) (sq s) = Some (pc, q, out, pk) ->
  inv (mksys q (sp s) pc (pushed s) (popped s ++ out)
         (peeked s ++ ((fun x => (length (popped s), x)) <$> pk))).
Proof using Hk.
  intros I Hsc E. pose proof (i_counters s I) as (sh & st & C & Hp & Hc). rewrite Hsc in E, Hc.
  assert (Z.to_nat (zlen (popped s)) = length (popped s)) as Hz by apply Nat2Z.id.
  cbn in Hc. rewrite Hz in Hc. destruct Hc as (-> & Hl & Hst & Hm & Hacc).
  destruct (read_slot s sh st count acc I C Hl Hst Hacc) as (x & Hx & Hsnoc & Hpx).
  cbn [c_step] in E. rewrite Hx in E. cbn [mbind option_bind] in E.
  assert (length (acc ++ [x]) = S (length acc)) as Hlen by (rewrite length_app; simpl; lia).
  destruct (Nat.ltb_spec (S (length acc)) count); [|destruct m]; simplify_eq.
  1,2,4: apply (c_quiet_inv s (sq s) _ st sh); try done; cbn; rewrite Hlen, Hz;
    split_and!; try done; unfold zlen in *; rewrite ?Hlen; lia.
  destruct I as [_ Hpre Hh Hpk]. rewrite app_nil_r. constructor; cbn; try done; [by exists sh, st|].
  intros n y [Hin|Hin]%elem_of_app; [by apply Hpk|]. apply list_elem_of_singleton in Hin. simplify_eq.
  rewrite Hm in Hl by done. destruct acc; [|simpl in Hl; lia]. by rewrite Nat.add_0_r in Hpx.
Qed.

Lemma c_publish_inv s head acc :
  inv s -> sc s = CPublish head acc ->
  inv (mksys (set_head (sq s) (u64 (head + zlen acc))) (sp s) CIdle (pushed s) (popped s ++ acc)
         (peeked s ++ [])).
Proof using Hk.
  intros I Hsc. destruct (i_counters s I) as (sh & st & C & Hp & Hc). rewrite Hsc in Hc.
  assert (Z.to_nat (zlen (popped s)) = length (popped s)) as Hz by apply Nat2Z.id.
  cbn in Hc. rewrite Hz in Hc. destruct Hc as (-> & Hst & Hacc).
  pose proof (zlen_nonneg acc). destruct I as [_ Hpre Hh Hpk]. rewrite app_nil_r.
  constructor; cbn; try done.
  - exists sh, st. split_and!; try done. destruct C. constructor; cbn; try done.
    + by rewrite zlen_app, wrap_add_wrap_l.
    + zlens. lia.
  - rewrite length_app, <- take_take_drop. by rewrite <- Hpre, <- Hacc.
  - rewrite zlen_app, length_app, <- drop_drop. by apply holds_drop.
Qed.

Lemma c_step_inv s pc q out pk :
  inv s -> c_step (sc s) (sq s) = Some (pc, q, out, pk) ->
  inv (mksys q (sp s) pc (pushed s) (popped s ++ out)
         (peeked s ++ ((fun x => (length (popped s), x)) <$> pk))).
Proof using Hk.
  intros I E. pose proof (i_counters s I) as (sh & st & C & Hp & Hc). pose proof Capacity_pos.
  destruct (sc s) as [|m|m head|m head count acc|head acc] eqn:Hsc; cbn [c_step c_inv] in *; [done|..].
  - rewrite (c_head _ _ _ _ _ C), (c_shadow_tail _ _ _ _ _ C) in E.
    destruct (Z.eqb_spec (take_count m (u64 (zlen (popped s))) (u64 st)) 0); simplify_eq;
      apply (c_quiet_inv s (sq s) _ st sh); try done.
    apply c_inv_begin; try done; [apply zlen_nonneg|destruct C; lia].
  - destruct Hc as [Hm ->]. rewrite (c_tail _ _ _ _ _ C) in E.
    set (t := zlen (pushed s)) in *.
    assert (counters (set_shadow_tail (sq s) (u64 t)) (zlen (popped s)) t sh t).
    { destruct C. constructor; cbn; try done; lia. }
    destruct (Z.eqb_spec (take_count m (u64 (zlen (popped s))) (u64 t)) 0); simplify_eq;
      apply (c_quiet_inv s _ _ t sh); try done.
    apply c_inv_begin; try done; [apply zlen_nonneg|destruct C; lia].
  - apply (c_read_inv s m head count acc); [done..|by rewrite Hsc].
  - injection E as <- <- <- <-. by apply c_publish_inv.
Qed.

Lemma sys_init_inv d : inv (sys_init d).
Proof using Hk.
  pose proof Capacity_pos. constructor; cbn; try done.
  - exists 0, 0. rewrite zlen_nil. split_and!; try done. constructor; cbn; try done; [lia|].
    unfold zlen. rewrite length_replicate. lia.
  - intros n x Hin. by apply elem_of_nil in Hin.
Qed.

Lemma step_inv s s' : inv s -> step s s' -> inv s'.
Proof using Hk.
  intros I Hst. destruct Hst as [s v E|s vs E Hne|s pc q out E|s m E Hm|s pc q out pk E].
  - destruct I as [(sh & st & C & Hp & Hc) Hpre Hh Hpk]. constructor; try done. by exists sh, st.
  - destruct I as [(sh & st & C & Hp & Hc) Hpre Hh Hpk]. constructor; try done. by exists sh, st.
  - by apply p_step_inv.
  - destruct I as [(sh & st & C & Hp & Hc) Hpre Hh Hpk]. constructor; try done. by exists sh, st.
  - by apply c_step_inv.
Qed.

Lemma reachable_inv d s : rtc step (sys_init d) s -> inv s.
Proof using Hk.
  intros Hr. remember (sys_init d) as s0 eqn:E. assert (inv s0) as I0 by (subst; apply sys_init_inv).
  clear E. induction Hr as [|s0 s1 s2 Hst _ IH]; [done|]. by apply IH, (step_inv s0).
Qed.

(** The slot an active writer is about to store to, and the slot an active
    reader is about to load. *)
Definition writing (pc : ppc) : option nat :=
  match pc with PWrite _ tail i => Some (slot (u64 (tail + Z.of_nat i))) | _ => None end.
Definition reading (pc : cpc) : option nat :=
  match pc with CRead _ head _ acc => Some (slot (u64 (head + zlen acc))) | _ => None end.

(** Own steps left until the running call returns. *)
Definition p_work (pc : ppc) : nat :=
  match pc with
  | PIdle => 0
  | PStart _ vs => length vs + 3
  | PReload _ vs _ => length vs + 2
  | PWrite vs _ i => length vs - i + 1
  | PPublish _ _ => 1
  end.
Definition c_work (pc : cpc) : nat :=
  match pc with
  | CIdle => 0
  | CStart _ => Z.to_nat Capacity + 3
  | CReload _ _ => Z.to_nat Capacity + 2
  | CRead _ _ count acc => count - length acc + 1
  | CPublish _ _ => 1
  end.

Lemma p_step_progress s :
  inv s -> sp s <> PIdle ->
  exists pc q out, p_step (sp s) (sq s) = Some (pc, q, out) /\ (p_work pc < p_work (sp s))%nat.
Proof using Hk.
  intros [(sh & st & C & Hp & _) _ _ _] Hne.
  destruct (sp s) as [|single vs|single vs tail|vs tail i|vs tail]; cbn [p_step p_inv] in *; [done|..].
  - destruct (room _ _ _ _); do 3 eexists; (split; [done|cbn; lia]).
  - destruct (room _ _ _ _); do 3 eexists; (split; [done|cbn; lia]).
  - destruct Hp as (-> & Hi & _). rewrite wrap_add_wrap_l, slot_u64 by lia.
    destruct (lookup_lt_is_Some_2 vs i Hi) as [v ->].
    destruct (slot_lookup (buffer_ (sq s)) (zlen (pushed s) + Z.of_nat i) (c_len _ _ _ _ _ C)) as [y ->].
    cbn [mbind option_bind].
    destruct (Nat.ltb_spec (S i) (length vs)); do 3 eexists; (split; [done|cbn; lia]).
  - do 3 eexists; (split; [done|cbn; lia]).
Qed.

Lemma c_step_progress s :
  inv s -> sc s <> CIdle ->
  exists pc q out pk, c_step (sc s) (sq s) = Some (pc, q, out, pk) /\ (c_work pc < c_work (sc s))%nat.
Proof using Hk.
  intros [(sh & st & C & _ & Hc) _ _ _] Hne. pose proof Capacity_pos.
  destruct (sc s) as [|m|m head|m head count acc|head acc]; cbn [c_step c_inv] in *; [done|..].
  - rewrite (c_head _ _ _ _ _ C), (c_shadow_tail _ _ _ _ _ C).
    destruct (take_count_spec m (zlen (popped s)) st) as (H1 & _); [destruct C; lia|done|].
    destruct (Z.eqb_spec (take_count m (u64 (zlen (popped s))) (u64 st)) 0);
      do 4 eexists; (split; [done|cbn; destruct C; lia]).
  - destruct Hc as [Hm ->]. rewrite (c_tail _ _ _ _ _ C).
    destruct (take_count_spec m (zlen (popped s)) (zlen (pushed s))) as (H1 & _); [destruct C; lia|done|].
    destruct (Z.eqb_spec (take_count m (u64 (zlen (popped s))) (u64 (zlen (pushed s)))) 0);
      do 4 eexists; (split; [done|cbn; destruct C; lia]).
  - destruct Hc as (-> & Hl & _). rewrite wrap_add_wrap_l, slot_u64 by lia.
    destruct (slot_lookup (buffer_ (sq s)) (zlen (popped s) + zlen acc) (c_len _ _ _ _ _ C)) as [y ->].
    cbn [mbind option_bind]. destruct (Nat.ltb_spec (S (length acc)) count); [|destruct m];
      do 4 eexists; (split; [done|cbn; rewrite ?length_app; simpl; lia]).
  - do 4 eexists; (split; [done|cbn; lia]).
Qed.

(** ** The contract: a bounded FIFO *)

Inductive op :=
| OProduce (f : T -> T)
| OPush (v : T)
| OPushN (data : list T)
| OConsume
| OPeek
| OConsumeN (n : Z)
| OClear.

Inductive res :=
| RBool (b : bool)
| RElem (x : option T)
| RElems (xs : list T)
| RUnit.

Definition exec (o : op) (q : bq) : option (res * bq) :=
  match o with
  | OProduce f => '(b, q) ← try_produce f q; Some (RBool b, q)
  | OPush v => '(b, q) ← try_push v q; Some (RBool b, q)
  | OPushN data => '(b, q) ← try_push_n data q; Some (RBool b, q)
  | OConsume => '(x, q) ← try_consume q; Some (RElem x, q)
  | OPeek => '(x, q) ← try_peek q; Some (RElem x, q)
  | OConsumeN n => '(xs, q) ← try_consume_n n q; Some (RElems xs, q)
  | OClear => Some (RUnit, clear q)
  end.

(** What a bounded FIFO with content [l] may answer, and its content after.
    Pushes are all or nothing and fail exactly when there is no room; a batch
    read returns some prefix, empty only if nothing was asked for or is there. *)
Inductive fifo : list T -> op -> res -> list T -> Prop :=
| fifo_produce l f x :
    zlen l < Capacity -> fifo l (OProduce f) (RBool true) (l ++ [f x])
| fifo_produce_full l f :
    zlen l = Capacity -> fifo l (OProduce f) (RBool false) l
| fifo_push l v :
    zlen l < Capacity -> fifo l (OPush v) (RBool true) (l ++ [v])
| fifo_push_full l v :
    zlen l = Capacity -> fifo l (OPush v) (RBool false) l
| fifo_push_n l data :
    zlen l + zlen data <= Capacity -> fifo l (OPushN data) (RBool true) (l ++ data)
| fifo_push_n_full l data :
    Capacity < zlen l + zlen data -> fifo l (OPushN data) (RBool false) l
| fifo_consume x l : fifo (x :: l) OConsume (RElem (Some x)) l
| fifo_consume_empty : fifo [] OConsume (RElem None) []
| fifo_peek l : fifo l OPeek (RElem (head l)) l
| fifo_consume_n l n c :
    (c <= length l)%nat -> Z.of_nat c <= n -> (c = 0%nat -> n = 0 \/ l = []) ->
    fifo l (OConsumeN n) (RElems (take c l)) (drop c l)
| fifo_clear l : fifo l OClear RUnit [].

Inductive fifo_trace : list T -> list op -> list res -> list T -> Prop :=
| fifo_done l : fifo_trace l [] [] l
| fifo_more l o r l1 os rs l2 :
    fifo l o r l1 -> fifo_trace l1 os rs l2 -> fifo_trace l (o :: os) (r :: rs) l2.

Fixpoint exec_all (os : list op) (q : bq) : option (list res * bq) :=
  match os with
  | [] => Some ([], q)
  | o :: os => '(r, q) ← exec o q; '(rs, q) ← exec_all os q; Some (r :: rs, q)
  end.

(** [size_t] arguments are not negative. *)
Definition op_ok (o : op) : Prop := match o with OConsumeN n => 0 <= n | _ => True end.

Lemma exec_refines o q l :
  represents q l -> op_ok o ->
  exists r q' l', exec o q = Some (r, q') /\ represents q' l' /\ fifo l o r l'.
Proof using Hk.
  intros Hq Ho. destruct (represents_size q l Hq) as [_ Hl].
  destruct o as [f|v|data| | |n|]; cbn [exec op_ok] in *.
  - pose proof (try_produce_spec f q l Hq) as Hs. destruct (Z.ltb_spec (zlen l) Capacity).
    + destruct Hs as (x & q' & -> & Hq'). do 3 eexists; split; [done|]. split; [done|by constructor].
    + destruct Hs as (q' & -> & Hq'). do 3 eexists; split; [done|]. split; [done|constructor; lia].
  - pose proof (try_produce_spec (fun _ => v) q l Hq) as Hs. unfold try_push.
    destruct (Z.ltb_spec (zlen l) Capacity).
    + destruct Hs as (_ & q' & -> & Hq'). do 3 eexists; split; [done|]. split; [done|by constructor].
    + destruct Hs as (q' & -> & Hq'). do 3 eexists; split; [done|]. split; [done|constructor; lia].
  - pose proof (try_push_n_spec data q l Hq) as Hs. destruct (Z.leb_spec (zlen data) (Capacity - zlen l)).
    + destruct Hs as (q' & -> & Hq'). do 3 eexists; split; [done|]. split; [done|constructor; lia].
    + destruct Hs as (q' & -> & Hq'). do 3 eexists; split; [done|]. split; [done|constructor; lia].
  - pose proof (try_consume_spec q l Hq) as Hs. destruct l as [|x l]; destruct Hs as (q' & -> & Hq');
      do 3 eexists; (split; [done|]; split; [done|constructor]).
  - destruct (try_peek_spec q l Hq) as (q' & -> & Hq').
    do 3 eexists; (split; [done|]; split; [done|constructor]).
  - destruct (try_consume_n_spec n q l Hq Ho) as (c & q' & -> & Hq' & ? & ? & ?).
    do 3 eexists; (split; [done|]; split; [done|by constructor]).
  - do 3 eexists; (split; [done|]; split; [by apply clear_spec with l|constructor]).
Qed.

(** C17: the queue refines a bounded FIFO.  From a fresh queue, any sequence of
    operations runs to completion (no slot access leaves the buffer) and answers as
    a FIFO of at most [Capacity] elements does; the counters may wrap around
    64 bits on the way. *)
Theorem bounded_queue_refines_fifo d os :
  Forall op_ok os ->
  exists rs q l, exec_all os (bq_init d) = Some (rs, q) /\ fifo_trace [] os rs l /\
    size q = zlen l /\ zlen l <= Capacity.
Proof using Hk.
  intros Hos. pose proof (bq_init_represents d) as Hq. revert Hq. generalize (bq_init d) as q, (@nil T) as l.
  induction Hos as [|o os Ho Hos IH]; intros q l Hq.
  - exists [], q, l. split; [done|]. split; [constructor|by apply represents_size].
  - destruct (exec_refines o q l Hq Ho) as (r & q1 & l1 & E & Hq1 & Hf).
    destruct (IH q1 l1 Hq1) as (rs & q2 & l2 & E2 & Ht & Hs).
    exists (r :: rs), q2, l2. cbn [exec_all]. rewrite E. cbn [mbind option_bind]. rewrite E2.
    split; [done|]. split; [by econstructor|done].
Qed.

(** C3: FIFO delivery under concurrency.  In every state reachable by interleaving
    one producer and one consumer access by access, what has been consumed is a
    prefix of what has been published (nothing lost, duplicated, torn or reordered),
    at most [Capacity] elements are in flight, and a peek saw the element that is
    consumed next. *)
Theorem spsc_fifo d s :
  rtc step (sys_init d) s ->
  popped s `prefix_of` pushed s /\
  zlen (pushed s) - zlen (popped s) <= Capacity /\
  (forall n x, (n, x) ∈ peeked s -> pushed s !! n = Some x).
Proof using Hk.
  intros Hr. destruct (reachable_inv d s Hr) as [(sh & st & C & _) Hpre _ Hpk].
  split; [|split; [destruct C; lia|done]].
  rewrite Hpre. exists (drop (length (popped s)) (pushed s)). by rewrite take_drop.
Qed.

(** no data race on the slots.  Whenever the producer is about to store to a
    slot and the consumer is about to load one, the slots differ. *)
Theorem spsc_race_free d s i j :
  rtc step (sys_init d) s -> writing (sp s) = Some i -> reading (sc s) = Some j -> i <> j.
Proof using Hk.
  intros Hr Hi Hj. destruct (reachable_inv d s Hr) as [(sh & st & C & Hp & Hc) _ _ _].
  destruct (sp s) as [| | |vs tail n|]; try done. destruct (sc s) as [| | |m head count acc|]; try done.
  cbn in *. destruct Hp as (-> & Hn & Hroom & _). destruct Hc as (-> & Hl & Hst & _).
  simplify_eq. rewrite !wrap_add_wrap_l, !slot_u64 by lia.
  destruct C. apply slot_ne; unfold zlen in *; lia.
Qed.

(** both sides are wait-free.  In every reachable state a running call can take
    its next step whatever the other thread does, and each of its steps brings it
    strictly closer to returning. *)
Theorem spsc_wait_free d s :
  rtc step (sys_init d) s ->
  (sp s <> PIdle -> exists pc q out,
     p_step (sp s) (sq s) = Some (pc, q, out) /\ (p_work pc < p_work (sp s))%nat) /\
  (sc s <> CIdle -> exists pc q out pk,
     c_step (sc s) (sq s) = Some (pc, q, out, pk) /\ (c_work pc < c_work (sc s))%nat).
Proof using Hk.
  intros Hr. pose proof (reachable_inv d s Hr) as I.
  split; [by apply p_step_progress|by apply c_step_progress].
Qed.

End bounded_queue.

(** ** Witnesses *)

Lemma bounded_queue_refines_fifo_witness :
  Forall op_ok [OPushN [1; 2; 3]; OConsume; OPush 4; OConsumeN 9; OPeek] /\
  exists rs q l,
    exec_all 2 [OPushN [1; 2; 3]; OConsume; OPush 4; OConsumeN 9; OPeek] (bq_init 2 0) = Some (rs, q) /\
    fifo_trace 2 [] [OPushN [1; 2; 3]; OConsume; OPush 4; OConsumeN 9; OPeek] rs l /\
    size q = zlen l /\ zlen l <= Capacity 2.
Proof.
  assert (Forall op_ok [OPushN [1; 2; 3]; OConsume; OPush 4; OConsumeN 9; OPeek]) as H
    by (repeat constructor; cbn; lia).
  split; [exact H|]. apply (bounded_queue_refines_fifo 2); [lia|exact H].
Defined.

(** A run in which the consumer reads slot 0 while the producer fills slot 1. *)
Definition demo_state : sys (T := Z) :=
  mksys (mkbq 1 0 0 1 [7; 0; 0; 0]) (PWrite [8; 9] 1 0) (CRead RConsume 0 1 []) [7] [] [].

Lemma demo_reachable : rtc (step 2) (sys_init 2 0) demo_state.
Proof.
  eapply rtc_l; [apply (step_call_push _ _ 7); done|].
  do 3 (eapply rtc_l; [eapply step_producer; vm_compute; reflexivity|]).
  eapply rtc_l; [apply (step_call_reader _ _ RConsume); done|].
  do 2 (eapply rtc_l; [eapply step_consumer; vm_compute; reflexivity|]).
  eapply rtc_l; [apply (step_call_push_n _ _ [8; 9]); done|].
  eapply rtc_l; [eapply step_producer; vm_compute; reflexivity|].
  apply rtc_refl.
Qed.

Lemma spsc_fifo_witness :
  rtc (step 2) (sys_init 2 0) demo_state /\
  popped demo_state `prefix_of` pushed demo_state /\
  zlen (pushed demo_state) - zlen (popped demo_state) <= Capacity 2 /\
  (forall n x, (n, x) ∈ peeked demo_state -> pushed demo_state !! n = Some x).
Proof. split; [apply demo_reachable|]. apply (spsc_fifo 2 ltac:(lia) 0), demo_reachable. Defined.

Lemma spsc_race_free_witness :
  rtc (step 2) (sys_init 2 0) demo_state /\
  writing 2 (sp demo_state) = Some 1%nat /\ reading 2 (sc demo_state) = Some 0%nat /\ 1%nat <> 0%nat.
Proof.
  split; [apply demo_reachable|]. split; [reflexivity|]. split; [reflexivity|].
  apply (spsc_race_free 2 ltac:(lia) 0 demo_state); [apply demo_reachable|reflexivity|reflexivity].
Defined.

Lemma spsc_wait_free_witness :
  rtc (step 2) (sys_init 2 0) demo_state /\
  (sp demo_state <> PIdle -> exists pc q out,
     p_step 2 (sp demo_state) (sq demo_state) = Some (pc, q, out) /\
     (p_work pc < p_work (sp demo_state))%nat) /\
  (sc demo_state <> CIdle -> exists pc q out pk,
     c_step 2 (sc demo_state) (sq demo_state) = Some (pc, q, out, pk) /\
     (c_work 2 pc < c_work 2 (sc demo_state))%nat).
Proof. split; [apply demo_reachable|]. apply (spsc_wait_free 2 ltac:(lia) 0), demo_reachable. Defined.

(** The stale-shadow behaviour of [try_consume_all].  With two elements in a
    quiescent queue it may hand out only the first, because the cached tail is
    refreshed only once it is exhausted. *)
Theorem consume_all_partial :
  exists q q', exec_all 2 [OPush 1; OPeek; OPush 2] (bq_init 2 0)
                 = Some ([RBool true; RElem (Some 1); RBool true], q) /\
    size q = 2 /\ try_consume_all 2 q = Some ([1], q') /\ size q' = 1.
Proof.
  exists (mkbq 2 0 0 1 [1; 2; 0; 0]), (mkbq 2 0 1 1 [1; 2; 0; 0]).
  split_and!; vm_compute; reflexivity.
Qed.
