(* ===== verification/SlotData.v ===== *)
(** Shared by the two evicting queues of
    src/eph-containers/include/eph/containers/evicting_queue.hpp: an element of a
    trivially copyable type as the machine words it consists of, a writer callback
    as the word stores it performs, a reader callback as the word loads it performs,
    and the statistics record. *)
From stdpp Require Import base list.
From S2P Require Import Prelude.
Local Open Scope Z_scope.

(** ** Elements as words *)

(** An element of a [TrivialData] type: its object representation. *)
Abbreviation data := (list Z).

(** A writer callback, given the present content of the slot, performs a sequence
    of word stores; each is one access of the interleaving. *)
Abbreviation stores := (list (nat * Z)).
Abbreviation writer_func := (data -> stores).

Fixpoint apply_stores (ss : stores) (d : data) : data :=
  match ss with
  | [] => d
  | (i, w) :: ss => apply_stores ss (<[i := w]> d)
  end.

(** The callback of [push]: assignment of all words. *)
Definition assign (v : data) : writer_func := fun _ => imap (fun i w => (i, w)) v.

(** A reader callback loads words; the copying callback of [try_pop_latest] loads
    all of them in order. *)
Abbreviation script := (list nat).
Definition copy (W : nat) : script := seq 0 W.
Definition visit (sc : script) (d : data) : option (list Z) := mapM (fun i => d !! i) sc.

Definition func_ok (W : nat) (f : writer_func) : Prop :=
  forall d, length d = W -> Forall (fun s => (fst s < W)%nat) (f d).
Definition script_ok (W : nat) (sc : script) : Prop := Forall (fun i => (i < W)%nat) sc.

Lemma length_apply_stores ss d : length (apply_stores ss d) = length d.
Proof. revert d; induction ss as [|[i w] ss IH]; intros d; [done|]. cbn. by rewrite IH, length_insert. Qed.

Lemma apply_assign pre v d :
  length d = length v ->
  apply_stores (imap (fun i w => ((length pre + i)%nat, w)) v) (pre ++ d) = pre ++ v.
Proof.
  revert pre d; induction v as [|w v IH]; intros pre [|x d] Hl; try done.
  cbn. rewrite Nat.add_0_r, insert_app_r_alt, Nat.sub_diag by lia. cbn.
  specialize (IH (pre ++ [w]) d ltac:(simpl in Hl; lia)). rewrite <- !app_assoc in IH. cbn in IH.
  rewrite <- IH. f_equal. apply imap_ext. intros i y _. rewrite length_app; cbn. f_equal. lia.
Qed.

Lemma assign_spec v d : length d = length v -> apply_stores (assign v d) d = v.
Proof. apply (apply_assign []). Qed.

Lemma assign_ok W v : length v = W -> func_ok W (assign v).
Proof.
  intros Hv d _. apply Forall_forall. intros [i w] Hin%list_elem_of_In.
  apply elem_of_lookup_imap in Hin as (j & y & E & Hj). simplify_eq. cbn.
  by apply lookup_lt_Some in Hj.
Qed.

Lemma copy_ok W : script_ok W (copy W).
Proof. apply Forall_forall. intros i Hi%in_seq. lia. Qed.

Lemma visit_copy d : visit (copy (length d)) d = Some d.
Proof.
  apply mapM_Some. apply Forall2_same_length_lookup_2; [unfold copy; by rewrite length_seq|].
  intros i a x Ha Hx. apply lookup_seq in Ha as [-> _]. done.
Qed.

Lemma visit_snoc sc i d acc w :
  visit sc d = Some acc -> d !! i = Some w -> visit (sc ++ [i]) d = Some (acc ++ [w]).
Proof.
  unfold visit. rewrite !mapM_Some. intros H1 H2. apply Forall2_app; [done|].
  by constructor.
Qed.

Lemma visit_ok W sc d : script_ok W sc -> length d = W -> exists acc, visit sc d = Some acc.
Proof.
  intros Hs Hd. apply mapM_is_Some. eapply Forall_impl; [|exact Hs].
  intros i Hi. apply lookup_lt_is_Some_2. cbn in Hi. lia.
Qed.

(** ** Statistics *)

Record EvictingQueueStats := mkEStats {
  total_pushed : Z;
  total_popped : Z;
  overwritten : Z;
  current_size : Z;
  capacity : Z;
}.

(** [operator-]: the difference of two snapshots, clamped at 0. *)
Definition estats_sub (lhs rhs : EvictingQueueStats) : EvictingQueueStats :=
  let d a b := if b <=? a then a - b else 0 in
  mkEStats (d (total_pushed lhs) (total_pushed rhs)) (d (total_popped lhs) (total_popped rhs))
    (d (overwritten lhs) (overwritten rhs)) (current_size lhs) (capacity lhs).
