(* ===== verification/EvictingQueue.v ===== *)
(** The multi-slot evicting queue of
    src/eph-containers/include/eph/containers/evicting_queue.hpp (primary template,
    [Capacity > 1]): a ring of slots, each guarded by a sequence lock.

    First the operations as functions (one thread at a time), then the same
    operations as two threads whose accesses to shared memory interleave: every
    store and load of a sequence word, of the global index and of each word of an
    element is one step, so a reader can see a half-written element.  Accesses are
    sequentially consistent steps; the fences and release/acquire orders of the
    source are what the hardware needs to provide that order. *)
From Stdlib Require Import Sorted.
From stdpp Require Import base list relations sorting.
From S2P Require Import Prelude SlotData.
Local Open Scope Z_scope.

Section evicting_queue.
(** [Capacity] is the power of two [2 ^ k]; an element has [W] words. *)
Variable k : Z.
Variable W : nat.

Definition ECapacity : Z := 2 ^ k.

Record Slot := mkSlot { seq_ : Z; data_ : data }.

Record evq := mkevq {
  global_index_ : Z;
  shadow_global_index_ : Z;
  last_global_index_ : Z;
  slots_ : list Slot;
}.

Definition evq_init (d : data) : evq :=
  mkevq 0 0 0 (replicate (Z.to_nat ECapacity) (mkSlot 0 d)).

(** Bit 0 of a sequence word is the lock flag, the other 63 the global index. *)
Definition encode_seq (idx : Z) (locked : bool) : Z := Z.lor (u64 (Z.shiftl idx 1)) (Z.b2z locked).
Definition decode_idx (seq : Z) : Z := Z.shiftr seq 1.
Definition is_locked (seq : Z) : bool := negb (Z.land seq 1 =? 0).

Definition slot_of (idx : Z) : nat := Z.to_nat (Z.land idx (ECapacity - 1)).

Definition set_slot (q : evq) (i : nat) (s : Slot) : evq :=
  mkevq (global_index_ q) (shadow_global_index_ q) (last_global_index_ q) (<[i := s]> (slots_ q)).
Definition set_global (q : evq) (g : Z) : evq :=
  mkevq g (shadow_global_index_ q) (last_global_index_ q) (slots_ q).
Definition set_shadow (q : evq) (g : Z) : evq :=
  mkevq (global_index_ q) g (last_global_index_ q) (slots_ q).
Definition set_last (q : evq) (l : Z) : evq :=
  mkevq (global_index_ q) (shadow_global_index_ q) l (slots_ q).

(** ** Writer operations *)

(** [produce]: lock the next slot, run the callback on it, unlock, publish the
    index, update the shadow. *)
Definition produce (f : writer_func) (q : evq) : option evq :=
  let next_idx := u64 (shadow_global_index_ q + 1) in
  let i := slot_of next_idx in
  s ← slots_ q !! i;
  let q := set_slot q i (mkSlot (encode_seq next_idx true) (data_ s)) in
  let d := apply_stores (f (data_ s)) (data_ s) in
  let q := set_slot q i (mkSlot (encode_seq next_idx true) d) in
  let q := set_slot q i (mkSlot (encode_seq next_idx false) d) in
  let q := set_global q next_idx in
  Some (set_shadow q next_idx).

Definition epush (v : data) (q : evq) : option evq := produce (assign v) q.
Definition eemplace (v : data) (q : evq) : option evq := produce (assign v) q.

(** [produce_n]: [count] single writes, each with its index. *)
Fixpoint produce_from (i n : nat) (visitor : nat -> writer_func) (q : evq) : option evq :=
  match n with
  | O => Some q
  | S n => q ← produce (visitor i) q; produce_from (S i) n visitor q
  end.
Definition produce_n (count : nat) (visitor : nat -> writer_func) (q : evq) : option evq :=
  produce_from 0 count visitor q.
Definition epush_n (items : list data) (q : evq) : option evq :=
  produce_n (length items) (fun i => match items !! i with Some v => assign v | None => fun _ => [] end) q.

(** ** Reader operations *)

(** The optimistic read both [try_consume_latest] and [try_peek_latest] perform.
    The result says whether it succeeded and, if the visitor ran, what it loaded
    and the index of the slot. *)
Definition optimistic_read (sc : script) (q : evq) : option (bool * option (list Z) * Z) :=
  let idx := global_index_ q in
  let last_read := last_global_index_ q in
  if idx <=? last_read then Some (false, None, 0) else
  s ← slots_ q !! slot_of idx;
  let seq1 := seq_ s in
  if is_locked seq1 then Some (false, None, 0) else
  let actual_idx := decode_idx seq1 in
  if actual_idx <=? last_read then Some (false, None, 0) else
  out ← visit sc (data_ s);
  let seq2 := seq_ s in
  Some (seq1 =? seq2, Some out, actual_idx).

Definition try_consume_latest (sc : script) (q : evq) : option (bool * option (list Z) * evq) :=
  '(ok, out, actual_idx) ← optimistic_read sc q;
  Some (ok, out, if ok : bool then set_last q actual_idx else q).

Definition try_peek_latest (sc : script) (q : evq) : option (bool * option (list Z)) :=
  '(ok, out, _) ← optimistic_read sc q; Some (ok, out).

(** The overloads that return an optional element. *)
Definition try_pop_latest (q : evq) : option (option data * evq) :=
  '(ok, out, q) ← try_consume_latest (copy W) q; Some (if ok : bool then out else None, q).
Definition try_peek_latest_value (q : evq) : option (option data) :=
  '(ok, out) ← try_peek_latest (copy W) q; Some (if ok : bool then out else None).

(** ** Maintenance and monitoring *)

Definition eclear (q : evq) : evq := set_last q (global_index_ q).

Definition size_approx (q : evq) : Z :=
  let written := global_index_ q in
  let read := last_global_index_ q in
  let pending := if read <=? written then written - read else 0 in
  Z.min pending ECapacity.
Definition eempty (q : evq) : bool := size_approx q =? 0.
Definition efull (q : evq) : bool := ECapacity <=? size_approx q.
Definition write_count (q : evq) : Z := global_index_ q.
Definition read_count (q : evq) : Z := last_global_index_ q.
Definition overwrite_count_approx (q : evq) : Z :=
  let written := global_index_ q in
  let read := last_global_index_ q in
  if written <=? u64 (read + ECapacity) then 0 else u64 (written - read - ECapacity).
Definition estats (q : evq) : EvictingQueueStats :=
  let written := global_index_ q in
  let read := last_global_index_ q in
  let pending := if read <=? written then written - read else 0 in
  mkEStats written read
    (if u64 (read + ECapacity) <? written then u64 (written - read - ECapacity) else 0)
    (Z.min pending ECapacity) ECapacity.

(** ** The two threads *)

(** The writer inside [produce], between its shared accesses: about to lock, with
    word stores left to do (and the element they lead to), about to publish the
    index, about to update the shadow. *)
Inductive wpc :=
| WIdle
| WLock (f : writer_func)
| WWrite (next_idx : Z) (todo : stores) (target : data)
| WPublish (next_idx : Z)
| WShadow (next_idx : Z).

(** One access of the writer.  The third component is the element that becomes
    readable with this access.  What the callback reads of the slot before it
    stores is written by no other thread, so it is taken with the lock access. *)
Definition w_step (pc : wpc) (q : evq) : option (wpc * evq * list data) :=
  match pc with
  | WIdle => None
  | WLock f =>
      let next_idx := u64 (shadow_global_index_ q + 1) in
      s ← slots_ q !! slot_of next_idx;
      Some (WWrite next_idx (f (data_ s)) (apply_stores (f (data_ s)) (data_ s)),
            set_slot q (slot_of next_idx) (mkSlot (encode_seq next_idx true) (data_ s)), [])
  | WWrite next_idx ((i, w) :: todo) target =>
      s ← slots_ q !! slot_of next_idx;
      _ ← data_ s !! i;
      Some (WWrite next_idx todo target,
            set_slot q (slot_of next_idx) (mkSlot (seq_ s) (<[i := w]> (data_ s))), [])
  | WWrite next_idx [] target =>
      s ← slots_ q !! slot_of next_idx;
      Some (WPublish next_idx,
            set_slot q (slot_of next_idx) (mkSlot (encode_seq next_idx false) (data_ s)), [target])
  | WPublish next_idx => Some (WShadow next_idx, set_global q next_idx, [])
  | WShadow next_idx => Some (WIdle, set_shadow q next_idx, [])
  end.

(** How a reader call repeats its attempts: once, until the deadline
    ([try_*_latest_for]: one attempt, then at least one more before the clock is
    read), or for ever ([consume_latest]). *)
Inductive mode := MTry | MFor | MBlock.
Record rcall := mkcall { peek : bool; c_mode : mode; c_script : script }.

(** What a reader call returned: its boolean, what the visitor last loaded in this
    call (the variable the visitor assigns), and, for a successful read, the global
    index it started from and the index of the element. *)
Record ret := mkret { r_call : rcall; r_ok : bool; r_out : option (list Z); r_from : Z; r_actual : Z }.

(** The overloads that return an optional: [try_pop_latest()] tests the boolean,
    [try_pop_latest_for(timeout)] does not. *)
Definition opt_checked (r : ret) : option (list Z) := if r_ok r then r_out r else None.
Definition opt_for (r : ret) : option (list Z) := r_out r.

Inductive rpc :=
| RIdle
| RStart (c : rcall) (first : bool) (out : option (list Z))
| RSeq (c : rcall) (first : bool) (out : option (list Z)) (idx last : Z)
| RRead (c : rcall) (first : bool) (out : option (list Z)) (idx seq1 : Z) (todo : script) (acc : list Z)
| RClock (c : rcall) (out : option (list Z)).

(** A failed attempt. *)
Definition attempt_failed (c : rcall) (first : bool) (out : option (list Z)) : rpc * list ret :=
  match c_mode c with
  | MTry => (RIdle, [mkret c false out 0 0])
  | MBlock => (RStart c false out, [])
  | MFor => if first then (RStart c false out, []) else (RClock c out, [])
  end.

(** One access of the reader.  [last_global_index_] is written by the reader alone,
    so its accesses are taken with the neighbouring shared one. *)
Definition r_step (pc : rpc) (q : evq) : option (rpc * evq * list ret) :=
  match pc with
  | RIdle | RClock _ _ => None
  | RStart c first out =>
      let idx := global_index_ q in
      let last := last_global_index_ q in
      if idx <=? last then let '(pc, r) := attempt_failed c first out in Some (pc, q, r)
      else Some (RSeq c first out idx last, q, [])
  | RSeq c first out idx last =>
      s ← slots_ q !! slot_of idx;
      let seq1 := seq_ s in
      if is_locked seq1 then let '(pc, r) := attempt_failed c first out in Some (pc, q, r)
      else if decode_idx seq1 <=? last then let '(pc, r) := attempt_failed c first out in Some (pc, q, r)
      else Some (RRead c first out idx seq1 (c_script c) [], q, [])
  | RRead c first out idx seq1 (i :: todo) acc =>
      s ← slots_ q !! slot_of idx;
      w ← data_ s !! i;
      Some (RRead c first out idx seq1 todo (acc ++ [w]), q, [])
  | RRead c first out idx seq1 [] acc =>
      s ← slots_ q !! slot_of idx;
      if seq1 =? seq_ s
      then Some (RIdle, if peek c then q else set_last q (decode_idx seq1),
                 [mkret c true (Some acc) idx (decode_idx seq1)])
      else let '(pc, r) := attempt_failed c first (Some acc) in Some (pc, q, r)
  end.

(** The queue, the two threads, the elements written so far (the element with
    index [i] at position [i - 1]) and the reader calls that have returned. *)
Record sys := mksys {
  sq : evq;
  sw : wpc;
  sr : rpc;
  hist : list data;
  rets : list ret;
}.

Definition sys_init (d : data) : sys := mksys (evq_init d) WIdle RIdle [] [].

Inductive step : sys -> sys -> Prop :=
| step_call_produce s f :
    sw s = WIdle -> func_ok W f -> step s (mksys (sq s) (WLock f) (sr s) (hist s) (rets s))
| step_writer s pc q out :
    w_step (sw s) (sq s) = Some (pc, q, out) ->
    step s (mksys q pc (sr s) (hist s ++ out) (rets s))
| step_call_read s c :
    sr s = RIdle -> script_ok W (c_script c) ->
    step s (mksys (sq s) (sw s) (RStart c true None) (hist s) (rets s))
| step_reader s pc q r :
    r_step (sr s) (sq s) = Some (pc, q, r) ->
    step s (mksys q (sw s) pc (hist s) (rets s ++ r))
| step_clock_again s c out :
    sr s = RClock c out -> step s (mksys (sq s) (sw s) (RStart c false out) (hist s) (rets s))
| step_clock_deadline s c out :
    sr s = RClock c out ->
    step s (mksys (sq s) (sw s) RIdle (hist s) (rets s ++ [mkret c false out 0 0])).

(** ** Invariant *)

Hypothesis Hk : 1 <= k <= 62.

(** A slot outside the writer's hands: unlocked, holding the newest element whose
    index falls on it. *)
Definition slot_good (h : list data) (i : nat) (s : Slot) : Prop :=
  exists j, seq_ s = 2 * j /\ 0 <= j <= zlen h /\
    (j = 0 \/ h !! Z.to_nat (j - 1) = Some (data_ s)) /\
    (forall m, 1 <= m <= zlen h -> slot_of m = i -> m <= j).

Definition slot_inv (pc : wpc) (h : list data) (i : nat) (s : Slot) : Prop :=
  length (data_ s) = W /\
  match pc with
  | WWrite next_idx todo target =>
      if decide (i = slot_of next_idx)
      then seq_ s = 2 * next_idx + 1 /\ apply_stores todo (data_ s) = target /\
           Forall (fun x => (fst x < W)%nat) todo
      else slot_good h i s
  | _ => slot_good h i s
  end.

Definition w_inv (pc : wpc) (g sh n : Z) : Prop :=
  match pc with
  | WIdle => g = n /\ sh = n
  | WLock f => g = n /\ sh = n /\ func_ok W f
  | WWrite next_idx _ _ => g = n /\ sh = n /\ next_idx = n + 1
  | WPublish next_idx => g = n - 1 /\ sh = n - 1 /\ next_idx = n
  | WShadow next_idx => g = n /\ sh = n - 1 /\ next_idx = n
  end.

(** What the reader knows: the sequence word it holds belongs to an element not
    older than the index it started from, and as long as the slot still carries
    that word everything loaded so far comes from that element. *)
Definition r_inv (pc : rpc) (q : evq) (h : list data) : Prop :=
  match pc with
  | RIdle => True
  | RStart c _ _ | RClock c _ => script_ok W (c_script c)
  | RSeq c _ _ idx last =>
      script_ok W (c_script c) /\ last = last_global_index_ q /\ last < idx <= global_index_ q
  | RRead c _ _ idx seq1 todo acc =>
      exists actual d s past, c_script c = past ++ todo /\ script_ok W (c_script c) /\
        seq1 = 2 * actual /\ 0 <= last_global_index_ q < actual /\ actual <= zlen h /\
        1 <= idx <= actual /\
        h !! Z.to_nat (actual - 1) = Some d /\ slots_ q !! slot_of idx = Some s /\
        seq1 <= seq_ s /\ (seq_ s = seq1 -> visit past d = Some acc)
  end.

(** A successful read: the element with index [r_actual] exists and is the one the
    visitor saw, and it is not older than the newest one published at the start. *)
Definition ret_good (h : list data) (r : ret) : Prop :=
  1 <= r_from r <= r_actual r /\ r_actual r <= zlen h /\
  exists d out, h !! Z.to_nat (r_actual r - 1) = Some d /\ r_out r = Some out /\
    visit (c_script (r_call r)) d = Some out.

Definition consumed (rs : list ret) : list Z :=
  r_actual <$> filter (fun r => r_ok r = true /\ peek (r_call r) = false) rs.
#[local] Arguments consumed : simpl never.

Record inv (s : sys) : Prop := mkinv {
  i_len : zlen (slots_ (sq s)) = ECapacity;
  i_slots : forall i x, slots_ (sq s) !! i = Some x -> slot_inv (sw s) (hist s) i x;
  i_writer : w_inv (sw s) (global_index_ (sq s)) (shadow_global_index_ (sq s)) (zlen (hist s));
  i_words : Forall (fun d => length d = W) (hist s);
  i_last : 0 <= last_global_index_ (sq s) <= zlen (hist s);
  i_reader : r_inv (sr s) (sq s) (hist s);
  i_rets : Forall (fun r => r_ok r = true -> ret_good (hist s) r) (rets s);
  i_order : StronglySorted Z.lt (consumed (rets s)) /\
            Forall (fun a => 1 <= a <= last_global_index_ (sq s)) (consumed (rets s));
}.

(** ** Sequence words and slots *)

Lemma ECapacity_pos : 2 <= ECapacity <= 2 ^ 62.
Proof using Hk.
  unfold ECapacity. split; [change 2 with (2 ^ 1) at 1|]; apply Z.pow_le_mono_r; lia.
Qed.

Lemma encode_seq_val idx locked :
  0 <= idx < 2 ^ 63 -> encode_seq idx locked = 2 * idx + Z.b2z locked.
Proof.
  intros Hi. unfold encode_seq. rewrite wrap_small by (rewrite Z.shiftl_mul_pow2; lia).
  rewrite lor_shiftl_add by (destruct locked; cbn; lia). cbn. lia.
Qed.

Lemma is_locked_even j : is_locked (2 * j) = false.
Proof.
  unfold is_locked. change 1 with (2 ^ 1 - 1). rewrite land_mask by lia.
  by rewrite Z.mul_comm, Z.mod_mul by lia.
Qed.

Lemma is_locked_odd j : is_locked (2 * j + 1) = true.
Proof.
  unfold is_locked. change 1 with (2 ^ 1 - 1) at 2. rewrite land_mask by lia.
  by rewrite Z.mul_comm, Z.add_comm, Z.mod_add by lia.
Qed.

Lemma decode_idx_even j : decode_idx (2 * j) = j.
Proof. unfold decode_idx. rewrite Z.shiftr_div_pow2 by lia. by rewrite Z.mul_comm, Z.div_mul by lia. Qed.

Lemma slot_of_mod i : slot_of i = Z.to_nat (i mod ECapacity).
Proof using Hk. unfold slot_of, ECapacity. rewrite land_mask by lia. done. Qed.

Lemma evq_slot_lookup (l : list Slot) i :
  zlen l = ECapacity -> exists s, l !! slot_of i = Some s.
Proof using Hk.
  intros Hl. apply lookup_lt_is_Some_2. rewrite slot_of_mod. pose proof ECapacity_pos.
  pose proof (Z.mod_pos_bound i ECapacity ltac:(lia)). unfold zlen in Hl. lia.
Qed.

(** An unlocked slot is in order, whatever the writer does. *)
Lemma slot_unlocked pc h i s : slot_inv pc h i s -> is_locked (seq_ s) = false -> slot_good h i s.
Proof.
  intros [_ H] Hl. destruct pc; try done. destruct (decide _); [|done].
  destruct H as (E & _). by rewrite E, is_locked_odd in Hl.
Qed.

Lemma slot_good_snoc h d i s j :
  j = zlen h + 1 -> slot_of j <> i -> slot_good h i s -> slot_good (h ++ [d]) i s.
Proof.
  intros -> Hi (a & E & Hj & Hd & Hf). exists a. zlens. split_and!; try done; try lia.
  - destruct Hd as [?|Hd]; [by left|right]. by apply lookup_app_l_Some.
  - intros m Hm Hs. destruct (decide (m = zlen h + 1)) as [->|]; [done|]. apply Hf; [lia|done].
Qed.

(** ** The writer preserves the invariant *)

(** From [x] to [y] a sequence word does not fall below, and does not come back to,
    the word of any of the first [n] elements.  (Unlocking takes it from
    [2 * idx + 1] down to [2 * idx], for a new [idx].) *)
Definition advances (n x y : Z) : Prop :=
  forall a, 0 <= a <= n -> 2 * a <= x -> 2 * a <= y /\ (y = 2 * a -> x = 2 * a).

Lemma advances_le n x y : x <= y -> advances n x y.
Proof. intros H a Ha Hx. lia. Qed.

Definition slots_advance (n : Z) (l l' : list Slot) : Prop :=
  forall i s, l !! i = Some s -> exists s', l' !! i = Some s' /\ advances n (seq_ s) (seq_ s').

(** What the reader has loaded stays valid. *)
Lemma r_inv_mono pc q q' h h' :
  last_global_index_ q' = last_global_index_ q -> global_index_ q <= global_index_ q' ->
  h `prefix_of` h' ->
  slots_advance (zlen h) (slots_ q) (slots_ q') ->
  r_inv pc q h -> r_inv pc q' h'.
Proof.
  intros El Hg Hh Hs. destruct pc as [|c fi out|c fi out idx last|c fi out idx seq1 todo acc|c out]; cbn;
    rewrite ?El; try done; [intros (? & -> & ?); repeat split; done || lia|].
  intros (actual & d & s & past & Esc & Hok & E1 & Ha & Hah & Hi & Hd & Es & Hle & Hv).
  destruct (Hs _ _ Es) as (s' & Es' & Hadv). destruct (Hadv actual) as [Hle' Hback]; [lia..|].
  exists actual, d, s', past. split_and!; try done; try lia.
  - apply prefix_length in Hh. unfold zlen in *. lia.
  - by eapply prefix_lookup_Some.
  - intros E. apply Hv. lia.
Qed.

Lemma ret_good_mono h h' r : h `prefix_of` h' -> ret_good h r -> ret_good h' r.
Proof.
  intros Hh (H1 & H2 & d & out & Hd & E & Hv). split; [done|]. split.
  - apply prefix_length in Hh. unfold zlen in *. lia.
  - exists d, out. split_and!; try done. by eapply prefix_lookup_Some.
Qed.

(** The parts of the invariant that a writer access can touch. *)
Lemma writer_inv s pc q out :
  inv s -> last_global_index_ q = last_global_index_ (sq s) ->
  global_index_ (sq s) <= global_index_ q ->
  zlen (slots_ q) = ECapacity -> Forall (fun d => length d = W) out ->
  slots_advance (zlen (hist s)) (slots_ (sq s)) (slots_ q) ->
  (forall i x, slots_ q !! i = Some x -> slot_inv pc (hist s ++ out) i x) ->
  w_inv pc (global_index_ q) (shadow_global_index_ q) (zlen (hist s ++ out)) ->
  inv (mksys q pc (sr s) (hist s ++ out) (rets s)).
Proof.
  intros [Hlen Hsl Hw Hwd Hla Hr Hrt Ho] El Hg Hlen' Hout Hmono Hsl' Hw'.
  assert (hist s `prefix_of` hist s ++ out) as Hp by by eexists.
  constructor; cbn; try done.
  - by apply Forall_app.
  - rewrite El. apply prefix_length in Hp. unfold zlen in *. lia.
  - by eapply r_inv_mono.
  - eapply Forall_impl; [|exact Hrt]. intros r H E. eapply ret_good_mono; [done|by apply H].
  - by rewrite El.
Qed.

(** Replacing the slot in the writer's hands. *)
Lemma set_slot_mono n (q : evq) i x y :
  slots_ q !! i = Some x -> advances n (seq_ x) (seq_ y) ->
  slots_advance n (slots_ q) (<[i := y]> (slots_ q)).
Proof.
  intros Hx Hle j z Hz. destruct (decide (i = j)) as [<-|Hne].
  - exists y. rewrite list_lookup_insert_eq by (by eapply lookup_lt_Some). split; [done|]. by simplify_eq.
  - exists z. rewrite list_lookup_insert_ne by done. split; [done|by apply advances_le].
Qed.

Lemma zlen_set_slot (q : evq) i y : zlen (<[i := y]> (slots_ q)) = zlen (slots_ q).
Proof. unfold zlen. by rewrite length_insert. Qed.

Lemma w_lock_inv s f x :
  inv s -> zlen (hist s) < 2 ^ 63 - 1 -> sw s = WLock f ->
  let next_idx := u64 (shadow_global_index_ (sq s) + 1) in
  slots_ (sq s) !! slot_of next_idx = Some x ->
  inv (mksys (set_slot (sq s) (slot_of next_idx) (mkSlot (encode_seq next_idx true) (data_ x)))
         (WWrite next_idx (f (data_ x)) (apply_stores (f (data_ x)) (data_ x)))
         (sr s) (hist s ++ []) (rets s)).
Proof using Hk.
  intros I Hn Ew next_idx Hx. pose proof (i_writer s I) as Hw. rewrite Ew in Hw. destruct Hw as (Eg & Es & Hf).
  pose proof (zlen_nonneg (hist s)) as H0.
  assert (next_idx = zlen (hist s) + 1) as En by (unfold next_idx; rewrite wrap_small; lia).
  clearbody next_idx. pose proof (i_slots s I) as Hsl. rewrite Ew in Hsl.
  destruct (Hsl _ _ Hx) as [Hl Hg]. cbn in Hg.
  rewrite encode_seq_val by lia. cbn [Z.b2z].
  apply writer_inv; cbn; try done; try lia; [by rewrite zlen_set_slot; apply I|..|by rewrite app_nil_r].
  - apply (set_slot_mono _ _ _ x); [done|]. destruct Hg as (j & -> & ? & _). apply advances_le. cbn. lia.
  - intros i y Hy. rewrite app_nil_r. destruct (decide (slot_of next_idx = i)) as [<-|Hne].
    + rewrite list_lookup_insert_eq in Hy by (by eapply lookup_lt_Some). simplify_eq. split; [done|].
      cbn. rewrite decide_True by done. split_and!; try done. by apply Hf.
    + rewrite list_lookup_insert_ne in Hy by done. destruct (Hsl _ _ Hy) as [Hl' Hg']. split; [done|].
      cbn. by rewrite decide_False.
Qed.

Lemma w_word_inv s next_idx i w todo target x :
  inv s -> sw s = WWrite next_idx ((i, w) :: todo) target ->
  slots_ (sq s) !! slot_of next_idx = Some x ->
  inv (mksys (set_slot (sq s) (slot_of next_idx) (mkSlot (seq_ x) (<[i := w]> (data_ x))))
         (WWrite next_idx todo target) (sr s) (hist s ++ []) (rets s)).
Proof.
  intros I Ew Hx. pose proof (i_writer s I) as Hw. pose proof (i_slots s I) as Hsl. rewrite Ew in Hw, Hsl.
  destruct (Hsl _ _ Hx) as [Hl Hd]. cbn in Hd. rewrite decide_True in Hd by done.
  destruct Hd as (Eq & Et & Hv). apply Forall_cons_1 in Hv as [_ Hv].
  apply writer_inv; cbn; try done; [by rewrite zlen_set_slot; apply I|..|by rewrite app_nil_r].
  - apply (set_slot_mono _ _ _ x); [done|by apply advances_le].
  - intros j y Hy. rewrite app_nil_r. destruct (decide (slot_of next_idx = j)) as [<-|Hne].
    + rewrite list_lookup_insert_eq in Hy by (by eapply lookup_lt_Some). simplify_eq.
      split; cbn; [by rewrite length_insert|]. by rewrite decide_True.
    + rewrite list_lookup_insert_ne in Hy by done. destruct (Hsl _ _ Hy) as [Hl' Hg']. split; [done|].
      cbn in *. by rewrite decide_False in * by done.
Qed.

Lemma w_unlock_inv s next_idx target x :
  inv s -> zlen (hist s) < 2 ^ 63 - 1 -> sw s = WWrite next_idx [] target ->
  slots_ (sq s) !! slot_of next_idx = Some x ->
  inv (mksys (set_slot (sq s) (slot_of next_idx) (mkSlot (encode_seq next_idx false) (data_ x)))
         (WPublish next_idx) (sr s) (hist s ++ [target]) (rets s)).
Proof.
  intros I Hn Ew Hx. pose proof (i_writer s I) as Hw. pose proof (i_slots s I) as Hsl. rewrite Ew in Hw, Hsl.
  destruct Hw as (Eg & Es & En). pose proof (zlen_nonneg (hist s)).
  destruct (Hsl _ _ Hx) as [Hl Hd]. cbn in Hd. rewrite decide_True in Hd by done.
  destruct Hd as (Eq & Et & _). rewrite encode_seq_val by lia. cbn [Z.b2z]. rewrite Z.add_0_r.
  apply writer_inv; cbn; try done; [by rewrite zlen_set_slot; apply I|..|zlens; lia].
  - constructor; [by rewrite <- Et|constructor].
  - apply (set_slot_mono _ _ _ x); [done|]. cbn. rewrite Eq. intros a Ha. lia.
  - intros j y Hy. destruct (decide (slot_of next_idx = j)) as [<-|Hne].
    + rewrite list_lookup_insert_eq in Hy by (by eapply lookup_lt_Some). simplify_eq. split; [done|].
      exists (zlen (hist s) + 1). cbn. zlens. split_and!; try done; try lia. right.
      replace (Z.to_nat _) with (length (hist s)) by (unfold zlen; lia).
      by apply list_lookup_middle.
    + rewrite list_lookup_insert_ne in Hy by done. destruct (Hsl _ _ Hy) as [Hl' Hg']. split; [done|].
      cbn in *. rewrite decide_False in Hg' by done. by eapply slot_good_snoc.
Qed.

Lemma w_step_inv s pc q out :
  inv s -> zlen (hist s) < 2 ^ 63 - 1 -> w_step (sw s) (sq s) = Some (pc, q, out) ->
  inv (mksys q pc (sr s) (hist s ++ out) (rets s)).
Proof using Hk.
  intros I Hn E. pose proof (i_writer s I) as Hw. pose proof (i_slots s I) as Hsl.
  assert (slots_advance (zlen (hist s)) (slots_ (sq s)) (slots_ (sq s))) as Hsame.
  { intros i x Hx. exists x. split; [done|by apply advances_le]. }
  destruct (sw s) as [|f|next_idx [|[i w] todo] target|next_idx|next_idx] eqn:Ew; cbn [w_step] in E; [done|..].
  - destruct (slots_ (sq s) !! _) as [x|] eqn:Hx; [|done]. cbn [mbind option_bind] in E. simplify_eq.
    by apply w_lock_inv.
  - destruct (slots_ (sq s) !! _) as [x|] eqn:Hx; [|done]. cbn [mbind option_bind] in E. simplify_eq.
    by apply w_unlock_inv.
  - destruct (slots_ (sq s) !! _) as [x|] eqn:Hx; [|done]. cbn [mbind option_bind] in E.
    destruct (data_ x !! i); [|done]. cbn [mbind option_bind] in E. simplify_eq.
    by apply w_word_inv.
  - simplify_eq. destruct Hw as (? & ? & ?). apply writer_inv; cbn; rewrite ?app_nil_r; try done; try lia.
    apply I.
  - simplify_eq. destruct Hw as (? & ? & ?). apply writer_inv; cbn; rewrite ?app_nil_r; try done; try lia.
    apply I.
Qed.

(** ** The reader preserves the invariant *)

Lemma consumed_app rs rs' : consumed (rs ++ rs') = consumed rs ++ consumed rs'.
Proof. unfold consumed. by rewrite list.filter_app, fmap_app. Qed.

Lemma consumed_failed r : Forall (fun x => r_ok x = false) r -> consumed r = [].
Proof.
  induction 1 as [|x r Hx _ IH]; [done|].
  unfold consumed in *. rewrite list.filter_cons, decide_False; [done|]. rewrite Hx. by intros [].
Qed.

Lemma consumed_one c out from a :
  consumed [mkret c true out from a] = if peek c then [] else [a].
Proof. unfold consumed. rewrite list.filter_cons. by destruct (peek c) eqn:E; cbn; rewrite E. Qed.

Lemma sorted_snoc l a :
  StronglySorted Z.lt l -> Forall (fun b => b < a) l -> StronglySorted Z.lt (l ++ [a]).
Proof.
  intros Hs Hl. apply StronglySorted_app. split_and!; [|done|by repeat constructor].
  intros x b Hx Hb%list_elem_of_singleton. subst. rewrite list.Forall_forall in Hl. by apply Hl.
Qed.

(** An access after which the reader goes on, or returns without a result. *)
Lemma reader_quiet_inv s pc r :
  inv s -> r_inv pc (sq s) (hist s) -> Forall (fun x => r_ok x = false) r ->
  inv (mksys (sq s) (sw s) pc (hist s) (rets s ++ r)).
Proof.
  intros [Hlen Hsl Hw Hwd Hla Hr Hrt Ho] Hpc Hfail.
  constructor; cbn; try done.
  - apply Forall_app; split; [done|]. eapply Forall_impl; [|exact Hfail]. cbn. intros x E1 E2. congruence.
  - by rewrite consumed_app, (consumed_failed r), app_nil_r.
Qed.

Lemma attempt_failed_inv s c first out :
  inv s -> script_ok W (c_script c) ->
  inv (mksys (sq s) (sw s) (attempt_failed c first out).1 (hist s)
         (rets s ++ (attempt_failed c first out).2)).
Proof.
  intros I Hsc. unfold attempt_failed.
  destruct (c_mode c); [|destruct first|]; apply reader_quiet_inv; cbn; try done; by repeat constructor.
Qed.

Lemma r_inv_begin s c first out idx x :
  inv s -> script_ok W (c_script c) -> last_global_index_ (sq s) < idx <= global_index_ (sq s) ->
  slots_ (sq s) !! slot_of idx = Some x -> is_locked (seq_ x) = false ->
  last_global_index_ (sq s) < decode_idx (seq_ x) ->
  r_inv (RRead c first out idx (seq_ x) (c_script c) []) (sq s) (hist s).
Proof.
  intros I Hsc Hidx Hx Hl Hd. pose proof (i_last s I) as Hla. pose proof (i_writer s I) as Hw.
  destruct (slot_unlocked _ _ _ _ (i_slots s I _ _ Hx) Hl) as (j & Ej & Hj & Hdat & Hf).
  rewrite Ej, decode_idx_even in Hd. destruct Hdat as [->|Hdat]; [lia|].
  assert (global_index_ (sq s) <= zlen (hist s)) as Hg.
  { destruct (sw s); cbn in Hw; lia. }
  specialize (Hf idx ltac:(lia) eq_refl).
  exists j, (data_ x), x, []. split_and!; try done; lia.
Qed.

Lemma r_word_inv s c first out idx seq1 i todo acc x w :
  inv s -> sr s = RRead c first out idx seq1 (i :: todo) acc ->
  slots_ (sq s) !! slot_of idx = Some x -> data_ x !! i = Some w ->
  r_inv (RRead c first out idx seq1 todo (acc ++ [w])) (sq s) (hist s).
Proof.
  intros I Er Hx Hw. pose proof (i_reader s I) as Hr. rewrite Er in Hr.
  destruct Hr as (actual & d & y & past & Esc & Hok & E1 & Ha & Hah & Hi & Hd & Hy & Hle & Hv).
  simplify_eq. exists actual, d, x, (past ++ [i]). split_and!; try done; try lia.
  { by rewrite <- app_assoc. }
  intros E. specialize (Hv E).
  destruct (slot_unlocked _ _ _ _ (i_slots s I _ _ Hx)) as (j & Ej & _ & Hdat & _).
  { rewrite E. apply is_locked_even. }
  assert (j = actual) as -> by lia. destruct Hdat as [->|Hdat]; [lia|].
  simplify_eq. by apply visit_snoc.
Qed.

Lemma r_success_inv s c first out idx seq1 acc x :
  inv s -> sr s = RRead c first out idx seq1 [] acc ->
  slots_ (sq s) !! slot_of idx = Some x -> seq1 = seq_ x ->
  inv (mksys (if peek c then sq s else set_last (sq s) (decode_idx seq1)) (sw s) RIdle (hist s)
         (rets s ++ [mkret c true (Some acc) idx (decode_idx seq1)])).
Proof.
  intros I Er Hx Eq. pose proof (i_reader s I) as Hr. rewrite Er in Hr.
  destruct Hr as (actual & d & y & past & Esc & Hok & E1 & Ha & Hah & Hi & Hd & Hy & Hle & Hv).
  simplify_eq. rewrite app_nil_r in Esc. rewrite E1, decode_idx_even. specialize (Hv eq_refl).
  destruct I as [Hlen Hsl Hw Hwd Hla _ Hrt [Ho1 Ho2]].
  assert (ret_good (hist s) (mkret c true (Some acc) idx actual)) as Hgood.
  { split; [done|]. split; [done|]. exists d, acc. cbn. by rewrite Esc. }
  assert (Forall (fun r => r_ok r = true -> ret_good (hist s) r)
    (rets s ++ [mkret c true (Some acc) idx actual])) as Hrt'.
  { apply Forall_app; split; [done|]. constructor; [done|constructor]. }
  destruct (peek c) eqn:Ep; constructor; cbn; try done; try lia.
  - by rewrite consumed_app, consumed_one, Ep, app_nil_r.
  - rewrite consumed_app, consumed_one, Ep. split.
    + apply sorted_snoc; [done|]. eapply Forall_impl; [|exact Ho2]. cbn. lia.
    + apply Forall_app; split; [|repeat constructor; cbn; lia].
      eapply Forall_impl; [|exact Ho2]. cbn. lia.
Qed.

Lemma r_step_inv s pc q r :
  inv s -> r_step (sr s) (sq s) = Some (pc, q, r) ->
  inv (mksys q (sw s) pc (hist s) (rets s ++ r)).
Proof.
  intros I E. pose proof (i_reader s I) as Hr.
  destruct (sr s) as [|c fi out|c fi out idx last|c fi out idx seq1 [|i todo] acc|c out] eqn:Er;
    cbn [r_step] in E; [done|..|done].
  - pose proof (attempt_failed_inv s c fi out I Hr) as Hf. destruct (attempt_failed c fi out) as [pc' r'].
    destruct (Z.leb_spec (global_index_ (sq s)) (last_global_index_ (sq s))); simplify_eq; [done|].
    apply reader_quiet_inv; [done| |constructor]. repeat split; [done|lia|done].
  - destruct Hr as (Hsc & -> & Hidx).
    pose proof (attempt_failed_inv s c fi out I Hsc) as Hf. destruct (attempt_failed c fi out) as [pc' r'].
    destruct (slots_ (sq s) !! _) as [x|] eqn:Hx; [|done]. cbn [mbind option_bind] in E.
    destruct (is_locked (seq_ x)) eqn:Hl; [by simplify_eq|].
    destruct (Z.leb_spec (decode_idx (seq_ x)) (last_global_index_ (sq s))); [by simplify_eq|].
    simplify_eq. apply reader_quiet_inv; [done| |constructor]. by apply r_inv_begin.
  - assert (script_ok W (c_script c)) as Hsc by (by destruct Hr as (? & ? & ? & ? & ? & ? & _)).
    pose proof (attempt_failed_inv s c fi (Some acc) I Hsc) as Hf.
    destruct (attempt_failed c fi (Some acc)) as [pc' r'].
    destruct (slots_ (sq s) !! _) as [x|] eqn:Hx; [|done]. cbn [mbind option_bind] in E.
    destruct (Z.eqb_spec seq1 (seq_ x)); simplify_eq; [|done]. by eapply r_success_inv.
  - destruct (slots_ (sq s) !! _) as [x|] eqn:Hx; [|done]. cbn [mbind option_bind] in E.
    destruct (data_ x !! i) as [w|] eqn:Hw; [|done]. cbn [mbind option_bind] in E. simplify_eq.
    apply reader_quiet_inv; [done| |constructor]. by eapply r_word_inv.
Qed.

Lemma evq_init_inv d : length d = W -> inv (sys_init d).
Proof using Hk.
  intros Hd. pose proof ECapacity_pos. constructor; cbn; try done.
  - unfold zlen. rewrite length_replicate. lia.
  - intros i x Hx. apply lookup_replicate in Hx as [-> _]. split; [done|]. exists 0. cbn.
    split_and!; try done; [by left|]. change (zlen (@nil data)) with 0. lia.
  - split; constructor.
Qed.

Lemma evq_step_inv s s' : inv s -> zlen (hist s) < 2 ^ 63 - 1 -> step s s' -> inv s'.
Proof using Hk.
  intros I Hn Hst. destruct Hst as [s f E Hf|s pc q out E|s c E Hc|s pc q r E|s c out E|s c out E].
  - destruct I as [? Hsl Hw ? ? ? ? ?]. rewrite E in Hsl, Hw. destruct Hw. constructor; cbn; done.
  - by apply w_step_inv.
  - destruct I as [? ? ? ? ? ? ? ?]. by constructor.
  - by apply r_step_inv.
  - pose proof (i_reader s I) as Hr. rewrite E in Hr. destruct I as [? ? ? ? ? ? ? ?]. by constructor.
  - apply reader_quiet_inv; [done..|by repeat constructor].
Qed.

Lemma hist_mono s s' : rtc step s s' -> zlen (hist s) <= zlen (hist s').
Proof.
  induction 1 as [|s0 s1 s2 Hst _ IH]; [done|]. enough (zlen (hist s0) <= zlen (hist s1)) by lia.
  destruct Hst as [| ? ? ? out| | | |]; cbn; try lia. rewrite zlen_app. pose proof (zlen_nonneg out). lia.
Qed.

Lemma steps_inv s s' : inv s -> rtc step s s' -> zlen (hist s') < 2 ^ 63 - 1 -> inv s'.
Proof using Hk.
  intros I Hr. induction Hr as [|s0 s1 s2 Hst Hr IH]; intros Hn; [done|].
  apply IH; [|done]. apply (evq_step_inv s0); [done| |done].
  pose proof (hist_mono s0 s2 (rtc_l step s0 s1 s2 Hst Hr)). lia.
Qed.

(** ** Progress *)

(** Accesses left to a writer inside [produce], and to a reader inside one attempt. *)
Definition w_work (pc : wpc) (q : evq) : nat :=
  match pc with
  | WIdle => 0
  | WLock f =>
      match slots_ q !! slot_of (u64 (shadow_global_index_ q + 1)) with
      | Some s => length (f (data_ s)) + 4
      | None => 0
      end
  | WWrite _ todo _ => length todo + 3
  | WPublish _ => 2
  | WShadow _ => 1
  end.
Definition r_work (pc : rpc) : nat :=
  match pc with
  | RIdle | RClock _ _ => 0
  | RStart c _ _ => length (c_script c) + 3
  | RSeq c _ _ _ _ => length (c_script c) + 2
  | RRead _ _ _ _ _ todo _ => length todo + 1
  end.
Definition attempt_over (pc : rpc) : Prop :=
  match pc with RIdle | RClock _ _ | RStart _ _ _ => True | _ => False end.

Lemma attempt_failed_over c fi out : attempt_over (attempt_failed c fi out).1.
Proof. unfold attempt_failed. by destruct (c_mode c); [|destruct fi|]. Qed.

Lemma w_step_progress s :
  inv s -> sw s <> WIdle ->
  exists pc q out, w_step (sw s) (sq s) = Some (pc, q, out) /\ (w_work pc q < w_work (sw s) (sq s))%nat.
Proof using Hk.
  intros I Hne. pose proof (i_slots s I) as Hsl.
  destruct (sw s) as [|f|next_idx [|[i w] todo] target|next_idx|next_idx] eqn:Ew; [done|..].
  1: destruct (evq_slot_lookup (slots_ (sq s)) (u64 (shadow_global_index_ (sq s) + 1)) (i_len s I)) as [x Hx].
  2-3: destruct (evq_slot_lookup (slots_ (sq s)) next_idx (i_len s I)) as [x Hx].
  4-5: do 3 eexists; (split; [done|cbn; lia]).
  1: do 3 eexists; split; [cbn; by rewrite Hx|cbn; rewrite Hx; lia].
  1: do 3 eexists; split; [cbn; by rewrite Hx|cbn; lia].
  destruct (Hsl _ _ Hx) as [Hl Hd]. cbn in Hd. rewrite decide_True in Hd by done.
  destruct Hd as (_ & _ & Hv). apply Forall_cons_1 in Hv as [Hv _].
  destruct (lookup_lt_is_Some_2 (data_ x) i) as [y Hy]; [cbn in Hv; lia|].
  do 3 eexists; split; [cbn; rewrite Hx; cbn; by rewrite Hy|cbn; lia].
Qed.

Lemma r_step_progress s :
  inv s -> ~ attempt_over (sr s) \/ (exists c fi out, sr s = RStart c fi out) ->
  exists pc q r, r_step (sr s) (sq s) = Some (pc, q, r) /\
    (attempt_over pc \/ (r_work pc < r_work (sr s))%nat).
Proof using Hk.
  intros I Hne. pose proof (i_reader s I) as Hr. pose proof (i_slots s I) as Hsl.
  destruct (sr s) as [|c fi out|c fi out idx last|c fi out idx seq1 [|i todo] acc|c out] eqn:Er.
  1,6: exfalso; destruct Hne as [Hne|(? & ? & ? & ?)]; [by apply Hne|done].
  2-4: destruct (evq_slot_lookup (slots_ (sq s)) idx (i_len s I)) as [x Hx].
  - pose proof (attempt_failed_over c fi out) as Ho. cbn. destruct (attempt_failed c fi out).
    destruct (_ <=? _); do 3 eexists; (split; [done|]); [by left|right; cbn; lia].
  - pose proof (attempt_failed_over c fi out) as Ho. cbn. rewrite Hx. cbn.
    destruct (attempt_failed c fi out).
    destruct (is_locked _); [|destruct (_ <=? _)]; do 3 eexists; (split; [done|]); [by left..|right; cbn; lia].
  - pose proof (attempt_failed_over c fi (Some acc)) as Ho. cbn. rewrite Hx. cbn.
    destruct (attempt_failed c fi (Some acc)).
    destruct (_ =? _); do 3 eexists; (split; [done|]); by left.
  - destruct Hr as (? & ? & ? & past & Esc & Hok & _). rewrite Esc in Hok. apply Forall_app in Hok as [_ Hok].
    apply Forall_cons_1 in Hok as [Hi _]. destruct (Hsl _ _ Hx) as [Hl _].
    destruct (lookup_lt_is_Some_2 (data_ x) i) as [y Hy]; [cbn in Hi; lia|].
    do 3 eexists; split; [cbn; rewrite Hx; cbn; by rewrite Hy|right; cbn; lia].
Qed.

(** ** Schedules *)

(** A schedule names the thread that moves next; [ev_push] and [ev_read] start a
    call, [ev_clock] is what the clock said. *)
Inductive event := ev_push (v : data) | ev_writer | ev_read (c : rcall) | ev_reader | ev_clock (deadline : bool).

Definition play1 (e : event) (s : sys) : option sys :=
  match e, sw s, sr s with
  | ev_push v, WIdle, _ =>
      if decide (length v = W) then Some (mksys (sq s) (WLock (assign v)) (sr s) (hist s) (rets s)) else None
  | ev_writer, _, _ =>
      '(pc, q, out) ← w_step (sw s) (sq s); Some (mksys q pc (sr s) (hist s ++ out) (rets s))
  | ev_read c, _, RIdle =>
      if decide (script_ok W (c_script c))
      then Some (mksys (sq s) (sw s) (RStart c true None) (hist s) (rets s)) else None
  | ev_reader, _, _ =>
      '(pc, q, r) ← r_step (sr s) (sq s); Some (mksys q (sw s) pc (hist s) (rets s ++ r))
  | ev_clock false, _, RClock c out => Some (mksys (sq s) (sw s) (RStart c false out) (hist s) (rets s))
  | ev_clock true, _, RClock c out =>
      Some (mksys (sq s) (sw s) RIdle (hist s) (rets s ++ [mkret c false out 0 0]))
  | _, _, _ => None
  end.

Fixpoint play (es : list event) (s : sys) : option sys :=
  match es with
  | [] => Some s
  | e :: es => s ← play1 e s; play es s
  end.

Lemma play1_step e s s' : play1 e s = Some s' -> step s s'.
Proof.
  intros E. destruct e as [v| |c| |[]]; cbn in E.
  - destruct (sw s) eqn:Ew; try done. destruct (decide _); simplify_eq.
    apply step_call_produce; [done|by apply assign_ok].
  - destruct (w_step _ _) as [[[pc q] out]|] eqn:Ew; [|done]. cbn in E. simplify_eq. by apply step_writer.
  - destruct (sr s) eqn:Er; try done; [destruct (decide _); simplify_eq; by apply step_call_read|..];
      destruct (sw s); done.
  - destruct (r_step _ _) as [[[pc q] r]|] eqn:Er; [|done]. cbn in E. simplify_eq. by apply step_reader.
  - destruct (sr s) eqn:Er; try (destruct (sw s); done). simplify_eq. by apply step_clock_deadline.
  - destruct (sr s) eqn:Er; try (destruct (sw s); done). simplify_eq. by apply step_clock_again.
Qed.

Lemma play_steps es s s' : play es s = Some s' -> rtc step s s'.
Proof.
  revert s; induction es as [|e es IH]; intros s E; cbn in E; [simplify_eq; apply rtc_refl|].
  destruct (play1 e s) as [s1|] eqn:E1; [|done]. eapply rtc_l; [by eapply play1_step|by apply IH].
Qed.

(** ** One thread at a time *)

(** The writer alone performs the stores of its callback ... *)
Lemma stores_run q next_idx x todo target r h rs :
  slots_ q !! slot_of next_idx = Some x ->
  Forall (fun y => (fst y < length (data_ x))%nat) todo ->
  rtc step (mksys q (WWrite next_idx todo target) r h rs)
    (mksys (set_slot q (slot_of next_idx) (mkSlot (seq_ x) (apply_stores todo (data_ x))))
       (WWrite next_idx [] target) r h rs).
Proof.
  revert q x. induction todo as [|[i w] todo IH]; intros q x Hx Hok.
  - destruct q, x. unfold set_slot. cbn in *. rewrite list_insert_id by done. apply rtc_refl.
  - apply Forall_cons_1 in Hok as [Hi Hok].
    destruct (lookup_lt_is_Some_2 (data_ x) i Hi) as [y Hy].
    eapply rtc_l.
    { eapply step_writer. cbn. rewrite Hx. cbn. rewrite Hy. done. }
    cbn. rewrite app_nil_r. assert (slot_of next_idx < length (slots_ q))%nat by (by eapply lookup_lt_Some).
    etrans; [apply (IH _ (mkSlot (seq_ x) (<[i := w]> (data_ x))))|].
    + cbn. by rewrite list_lookup_insert_eq.
    + cbn. rewrite length_insert. done.
    + unfold set_slot. cbn. rewrite list_insert_insert_eq. apply rtc_refl.
Qed.

(** ... and the whole of [produce]: the threaded writer, undisturbed, does what
    the function does. *)
Lemma produce_runs q f x r h rs :
  slots_ q !! slot_of (u64 (shadow_global_index_ q + 1)) = Some x ->
  length (data_ x) = W -> func_ok W f ->
  exists q', produce f q = Some q' /\
    rtc step (mksys q (WLock f) r h rs)
      (mksys q' WIdle r (h ++ [apply_stores (f (data_ x)) (data_ x)]) rs).
Proof.
  intros Hx Hl Hf. unfold produce. rewrite Hx. cbn [mbind option_bind]. eexists; split; [done|].
  set (n := u64 (shadow_global_index_ q + 1)) in *.
  assert (slot_of n < length (slots_ q))%nat by (by eapply lookup_lt_Some).
  eapply rtc_l; [eapply step_writer; cbn [w_step sw sq]; fold n; rewrite Hx; done|].
  cbn [sr hist rets]. rewrite app_nil_r. etrans.
  { apply (stores_run _ _ (mkSlot (encode_seq n true) (data_ x))).
    - cbn. by rewrite list_lookup_insert_eq.
    - cbn. rewrite Hl. by apply Hf. }
  eapply rtc_l.
  { eapply step_writer. cbn. rewrite list_lookup_insert_eq by (by rewrite length_insert). done. }
  eapply rtc_l; [by eapply step_writer|]. eapply rtc_l; [by eapply step_writer|].
  cbn. rewrite !app_nil_r. apply rtc_refl.
Qed.

(** A queue no operation is running on, with the elements written to it. *)
Definition quiet (q : evq) (h : list data) : Prop := exists rs, inv (mksys q WIdle RIdle h rs).

Lemma quiet_init d : length d = W -> quiet (evq_init d) [].
Proof using Hk. exists []. by apply evq_init_inv. Qed.

Lemma produce_spec f q h :
  quiet q h -> func_ok W f -> zlen h < 2 ^ 63 - 2 ->
  exists q' old, produce f q = Some q' /\ length old = W /\
    quiet q' (h ++ [apply_stores (f old) old]) /\ last_global_index_ q' = last_global_index_ q.
Proof using Hk.
  intros [rs I] Hf Hn.
  destruct (evq_slot_lookup (slots_ q) (u64 (shadow_global_index_ q + 1)) (i_len _ I)) as [x Hx].
  destruct (i_slots _ I _ _ Hx) as [Hl _].
  destruct (produce_runs q f x RIdle h rs Hx Hl Hf) as (q' & E & Hr).
  exists q', (data_ x). split_and!; try done.
  - exists rs. eapply steps_inv; [exact I| |cbn; zlens; lia].
    eapply rtc_l; [by eapply step_call_produce|]. done.
  - unfold produce in E. rewrite Hx in E. cbn in E. by simplify_eq.
Qed.

Lemma epush_n_from pre items q h :
  quiet q h -> Forall (fun v => length v = W) items -> zlen h + zlen items < 2 ^ 63 - 1 ->
  exists q', produce_from (length pre) (length items)
      (fun i => match (pre ++ items) !! i with Some v => assign v | None => fun _ => [] end) q = Some q' /\
    quiet q' (h ++ items) /\ last_global_index_ q' = last_global_index_ q.
Proof using Hk.
  intros Hq Hv. revert pre q h Hq. induction Hv as [|v items Hv _ IH]; intros pre q h Hq Hn.
  - exists q. rewrite (app_nil_r h). done.
  - rewrite zlen_cons in Hn. pose proof (zlen_nonneg items).
    destruct (produce_spec _ q h Hq (assign_ok W v Hv) ltac:(lia)) as (q1 & old & E & Hl & Hq1 & El).
    rewrite assign_spec in Hq1 by congruence.
    destruct (IH (pre ++ [v]) q1 (h ++ [v]) Hq1 ltac:(zlens; lia)) as (q2 & E2 & Hq2 & El2).
    exists q2. cbn [length produce_from]. rewrite list_lookup_middle, E by done. cbn [mbind option_bind].
    rewrite <- !app_assoc in *. cbn [app] in *. rewrite length_app, Nat.add_1_r in E2. split_and!; try done.
    congruence.
Qed.

Lemma optimistic_read_spec sc q h :
  quiet q h -> script_ok W sc ->
  0 <= last_global_index_ q <= zlen h /\ global_index_ q = zlen h /\
  optimistic_read sc q =
    Some (if last_global_index_ q <? zlen h
          then (true, match list.last h with Some d => visit sc d | None => None end, zlen h)
          else (false, None, 0)).
Proof using Hk.
  intros [rs I] Hsc. pose proof (i_writer _ I) as [Eg _]. pose proof (i_last _ I) as Hla. cbn in Eg, Hla.
  split; [done|]. split; [done|]. unfold optimistic_read. rewrite Eg.
  destruct (Z.ltb_spec (last_global_index_ q) (zlen h)); destruct (Z.leb_spec (zlen h) (last_global_index_ q));
    try lia; [|done].
  destruct (evq_slot_lookup (slots_ q) (zlen h) (i_len _ I)) as [x Hx]. rewrite Hx. cbn.
  destruct (i_slots _ I _ _ Hx) as [Hl (j & Ej & Hj & Hd & Hf)].
  specialize (Hf (zlen h) ltac:(cbn; lia) eq_refl). cbn in Hj, Hf, Hd. assert (j = zlen h) as -> by lia.
  destruct Hd as [?|Hd]; [lia|]. rewrite Ej, is_locked_even, decode_idx_even.
  destruct (Z.leb_spec (zlen h) (last_global_index_ q)); [lia|].
  destruct (visit_ok W sc (data_ x) Hsc Hl) as [acc Hv]. rewrite Hv. cbn. rewrite Z.eqb_refl.
  rewrite list.last_lookup. replace (Nat.pred (length h)) with (Z.to_nat (zlen h - 1)) by (unfold zlen; lia).
  by rewrite Hd, Hv.
Qed.

Lemma set_last_quiet q h l :
  quiet q h -> last_global_index_ q <= l <= zlen h -> quiet (set_last q l) h.
Proof.
  intros [rs [? ? ? ? ? ? ? [? Ho]]] Hl. exists rs. constructor; cbn in *; try done; [lia|].
  split; [done|]. eapply Forall_impl; [|exact Ho]. cbn. lia.
Qed.

(** ** The contract: a register that holds the latest element *)

Inductive eop :=
| EProduce (f : writer_func)
| EPush (v : data)
| EPushN (items : list data)
| EConsume (sc : script)
| EPop
| EPeek (sc : script)
| EClear.

Definition eop_ok (o : eop) : Prop :=
  match o with
  | EProduce f => func_ok W f
  | EPush v => length v = W
  | EPushN items => Forall (fun v => length v = W) items
  | EConsume sc | EPeek sc => script_ok W sc
  | EPop | EClear => True
  end.

(** At most how many elements the operations write. *)
Definition op_writes (o : eop) : Z := match o with EPushN items => zlen items | _ => 1 end.
Fixpoint ops_write (os : list eop) : Z :=
  match os with [] => 0 | o :: os => op_writes o + ops_write os end.

(** One operation; the result is what a reader got. *)
Definition eexec (o : eop) (q : evq) : option (option (list Z) * evq) :=
  match o with
  | EProduce f => q ← produce f q; Some (None, q)
  | EPush v => q ← epush v q; Some (None, q)
  | EPushN items => q ← epush_n items q; Some (None, q)
  | EConsume sc => '(ok, out, q) ← try_consume_latest sc q; Some (if ok : bool then out else None, q)
  | EPop => try_pop_latest q
  | EPeek sc => '(ok, out) ← try_peek_latest sc q; Some (if ok : bool then out else None, q)
  | EClear => Some (None, eclear q)
  end.

(** The elements written so far and how many of them are behind the reader. *)
Inductive latest : list data * Z -> eop -> option (list Z) -> list data * Z -> Prop :=
| latest_produce h l f old :
    length old = W -> latest (h, l) (EProduce f) None (h ++ [apply_stores (f old) old], l)
| latest_push h l v : latest (h, l) (EPush v) None (h ++ [v], l)
| latest_push_n h l items : latest (h, l) (EPushN items) None (h ++ items, l)
| latest_consume h d l sc : l <= zlen h ->
    latest (h ++ [d], l) (EConsume sc) (visit sc d) (h ++ [d], zlen h + 1)
| latest_pop h d l : l <= zlen h -> latest (h ++ [d], l) EPop (Some d) (h ++ [d], zlen h + 1)
| latest_peek h d l sc : l <= zlen h ->
    latest (h ++ [d], l) (EPeek sc) (visit sc d) (h ++ [d], l)
| latest_consume_none h sc : latest (h, zlen h) (EConsume sc) None (h, zlen h)
| latest_pop_none h : latest (h, zlen h) EPop None (h, zlen h)
| latest_peek_none h sc : latest (h, zlen h) (EPeek sc) None (h, zlen h)
| latest_clear h l : latest (h, l) EClear None (h, zlen h).

Inductive latest_trace : list data * Z -> list eop -> list (option (list Z)) -> list data * Z -> Prop :=
| latest_done a : latest_trace a [] [] a
| latest_more a o r b os rs c :
    latest a o r b -> latest_trace b os rs c -> latest_trace a (o :: os) (r :: rs) c.

Fixpoint eexec_all (os : list eop) (q : evq) : option (list (option (list Z)) * evq) :=
  match os with
  | [] => Some ([], q)
  | o :: os => '(r, q) ← eexec o q; '(rs, q) ← eexec_all os q; Some (r :: rs, q)
  end.

Lemma zlen_split (h : list data) : 0 < zlen h -> exists h' d, h = h' ++ [d] /\ zlen h' + 1 = zlen h.
Proof.
  intros Hp. destruct h as [|d h' _] using rev_ind; [by change (zlen (@nil data)) with 0 in Hp|].
  exists h', d. split; [done|]. by zlens.
Qed.

(** What a read answers, against the register. *)
Lemma read_cases sc q h :
  quiet q h -> script_ok W sc ->
  (exists h' d out, h = h' ++ [d] /\ length d = W /\ visit sc d = Some out /\ last_global_index_ q <= zlen h' /\
     optimistic_read sc q = Some (true, Some out, zlen h' + 1) /\ quiet (set_last q (zlen h' + 1)) h) \/
  (last_global_index_ q = zlen h /\ optimistic_read sc q = Some (false, None, 0)).
Proof using Hk.
  intros Hq Hsc. destruct (optimistic_read_spec sc q h Hq Hsc) as (Hla & _ & ->).
  destruct (Z.ltb_spec (last_global_index_ q) (zlen h)) as [Hlt|]; [left|right; split; [lia|done]].
  destruct (zlen_split h ltac:(lia)) as (h' & d & -> & Hz).
  assert (length d = W) as Hd.
  { destruct Hq as [rs I]. pose proof (i_words _ I) as Hw. cbn in Hw.
    apply Forall_app in Hw as [_ Hw]. by apply Forall_cons_1 in Hw as [Hw _]. }
  destruct (visit_ok W sc d Hsc Hd) as [out Hv]. exists h', d, out.
  rewrite list.last_snoc, Hv, Hz. split_and!; try done; [lia|]. apply set_last_quiet; [done|lia].
Qed.

Lemma op_writes_nonneg o : 0 <= op_writes o.
Proof. destruct o; cbn; try lia. apply zlen_nonneg. Qed.
Lemma ops_write_nonneg os : 0 <= ops_write os.
Proof. induction os as [|o os IH]; cbn; [lia|]. pose proof (op_writes_nonneg o). lia. Qed.

Lemma eexec_refines o q h :
  quiet q h -> eop_ok o -> zlen h + op_writes o < 2 ^ 63 - 1 ->
  exists r q' h', eexec o q = Some (r, q') /\ quiet q' h' /\
    latest (h, last_global_index_ q) o r (h', last_global_index_ q') /\ zlen h' <= zlen h + op_writes o.
Proof using Hk.
  intros Hq Ho Hn. destruct o as [f|v|items|sc| |sc|]; cbn [eexec eop_ok op_writes] in *.
  - destruct (produce_spec f q h Hq Ho ltac:(lia)) as (q' & old & -> & Hl & Hq' & El).
    do 3 eexists. split; [done|]. split; [done|]. rewrite El. split; [by constructor|zlens; lia].
  - destruct (produce_spec _ q h Hq (assign_ok W v Ho) ltac:(lia)) as (q' & old & E & Hl & Hq' & El).
    unfold epush. rewrite E. rewrite assign_spec in Hq' by congruence.
    do 3 eexists. split; [done|]. split; [done|]. rewrite El. split; [by constructor|zlens; lia].
  - destruct (epush_n_from [] items q h Hq Ho Hn) as (q' & E & Hq' & El).
    unfold epush_n, produce_n. cbn [app length] in E. rewrite E.
    do 3 eexists. split; [done|]. split; [done|]. rewrite El. split; [by constructor|zlens; lia].
  - unfold try_consume_latest.
    destruct (read_cases sc q h Hq Ho) as [(h' & d & out & -> & _ & Hv & Hl & -> & Hq')|[El ->]];
      do 3 eexists; (split; [done|]); (split; [done|]); (split; [|lia]); cbn.
    + rewrite <- Hv. by constructor.
    + rewrite El. constructor.
  - unfold try_pop_latest, try_consume_latest.
    destruct (read_cases (copy W) q h Hq (copy_ok W)) as [(h' & d & out & -> & Hd & Hv & Hl & -> & Hq')|[El ->]];
      do 3 eexists; (split; [done|]); (split; [done|]); (split; [|lia]); cbn.
    + rewrite <- Hd, visit_copy in Hv. simplify_eq. by constructor.
    + rewrite El. constructor.
  - unfold try_peek_latest.
    destruct (read_cases sc q h Hq Ho) as [(h' & d & out & -> & _ & Hv & Hl & -> & _)|[El ->]];
      do 3 eexists; (split; [done|]); (split; [done|]); (split; [|lia]); cbn.
    + rewrite <- Hv. by constructor.
    + rewrite El. constructor.
  - destruct Hq as [rs I]. pose proof (i_writer _ I) as [Eg _]. pose proof (i_last _ I) as Hla. cbn in Eg, Hla.
    do 3 eexists. split; [done|]. unfold eclear. rewrite Eg. split; [|split; [constructor|lia]].
    apply set_last_quiet; [by exists rs|lia].
Qed.

(** The monitoring functions of a queue at rest. *)
Lemma quiet_counts q h :
  quiet q h -> zlen h < 2 ^ 63 - 1 ->
  write_count q = zlen h /\ read_count q = last_global_index_ q /\
  size_approx q = Z.min (zlen h - last_global_index_ q) ECapacity /\
  overwrite_count_approx q = Z.max 0 (zlen h - last_global_index_ q - ECapacity) /\
  estats q = mkEStats (write_count q) (read_count q) (overwrite_count_approx q) (size_approx q) ECapacity.
Proof using Hk.
  intros [rs I] Hn. pose proof (i_writer _ I) as [Eg _]. pose proof (i_last _ I) as Hla. cbn in Eg, Hla.
  pose proof ECapacity_pos.
  unfold write_count, read_count, size_approx, overwrite_count_approx, estats. rewrite Eg.
  rewrite (wrap_small 64 (last_global_index_ q + ECapacity)) by lia.
  assert (forall a b : Z, (a <? b) = negb (b <=? a)) as -> by (intros; by rewrite Z.leb_antisym, negb_involutive).
  rewrite (proj2 (Z.leb_le (last_global_index_ q) (zlen h))) by lia.
  destruct (Z.leb_spec (zlen h) (last_global_index_ q + ECapacity)); cbn [negb];
    rewrite ?(wrap_small 64 (zlen h - last_global_index_ q - ECapacity)) by lia;
    (split_and!; [done..|lia|done]).
Qed.

(** the multi-slot evicting queue refines a register that always holds the
    latest element.  From a fresh queue, any sequence of operations with
    fewer than [2 ^ 63 - 1] writes runs to completion; a read returns the latest element, completely,
    exactly if it was not consumed before, and the monitoring functions report the
    number of writes, the unread ones up to [Capacity], and the excess over it. *)
Theorem evicting_queue_refines_latest d os :
  length d = W -> Forall eop_ok os -> ops_write os < 2 ^ 63 - 1 ->
  exists rs q h l, eexec_all os (evq_init d) = Some (rs, q) /\
    latest_trace ([], 0) os rs (h, l) /\ write_count q = zlen h /\ read_count q = l /\
    size_approx q = Z.min (zlen h - l) ECapacity /\
    overwrite_count_approx q = Z.max 0 (zlen h - l - ECapacity).
Proof using Hk.
  intros Hd Hos Hn. pose proof (quiet_init d Hd) as Hq.
  change 0 with (last_global_index_ (evq_init d)) at 1. assert (zlen (@nil data) + ops_write os < 2 ^ 63 - 1) as Hb.
  { by change (zlen (@nil data)) with 0. }
  clear Hn. revert Hq Hb. generalize (evq_init d) as q, (@nil data) as h.
  induction Hos as [|o os Ho _ IH]; intros q h Hq Hb.
  - cbn in Hb. destruct (quiet_counts q h Hq ltac:(lia)) as (? & ? & ? & ? & _).
    exists [], q, h, (last_global_index_ q). split_and!; try done. constructor.
  - cbn in Hb. pose proof (ops_write_nonneg os).
    destruct (eexec_refines o q h Hq Ho ltac:(lia)) as (r & q1 & h1 & E & Hq1 & Hl & Hz).
    destruct (IH q1 h1 Hq1 ltac:(lia)) as (rs & q2 & h2 & l2 & E2 & Ht & Hc).
    exists (r :: rs), q2, h2, l2. cbn [eexec_all]. rewrite E. cbn [mbind option_bind]. rewrite E2.
    split; [done|]. split; [by econstructor|done].
Qed.

(** C12: no torn reads.  In every interleaving of one writer and one reader, word by
    word, with fewer than [2 ^ 63 - 1] writes, a read that reports success saw the
    words of one single element that was written, not older than the newest one
    published when the attempt began, and consuming reads deliver elements of
    strictly increasing index, so none twice. *)
Theorem evicting_queue_reads_consistent d s :
  length d = W -> rtc step (sys_init d) s -> zlen (hist s) < 2 ^ 63 - 1 ->
  (forall r, r ∈ rets s -> r_ok r = true -> exists v out,
     hist s !! Z.to_nat (r_actual r - 1) = Some v /\ r_out r = Some out /\
     visit (c_script (r_call r)) v = Some out /\ 1 <= r_from r <= r_actual r) /\
  StronglySorted Z.lt (consumed (rets s)).
Proof using Hk.
  intros Hd Hr Hn. pose proof (steps_inv _ _ (evq_init_inv d Hd) Hr Hn) as I. split; [|by apply I].
  intros r Hin Hok. pose proof (i_rets s I) as Hall. rewrite list.Forall_forall in Hall.
  destruct (Hall r Hin Hok) as (H1 & _ & v & out & H2 & H3 & H4). by exists v, out.
Qed.

(** the writer is wait-free and a read attempt is bounded.  In every reachable
    state a running [produce] can take its next access whatever the reader does and
    comes strictly closer to returning; a running read attempt can take its next
    access, and each one ends the attempt or brings it strictly closer to its end. *)
Theorem evicting_queue_wait_free d s :
  length d = W -> rtc step (sys_init d) s -> zlen (hist s) < 2 ^ 63 - 1 ->
  (sw s <> WIdle -> exists pc q out,
     w_step (sw s) (sq s) = Some (pc, q, out) /\ (w_work pc q < w_work (sw s) (sq s))%nat) /\
  (~ attempt_over (sr s) \/ (exists c fi out, sr s = RStart c fi out) -> exists pc q r,
     r_step (sr s) (sq s) = Some (pc, q, r) /\ (attempt_over pc \/ (r_work pc < r_work (sr s))%nat)).
Proof using Hk.
  intros Hd Hr Hn. pose proof (steps_inv _ _ (evq_init_inv d Hd) Hr Hn) as I.
  split; [by apply w_step_progress|by apply r_step_progress].
Qed.

End evicting_queue.

(** ** Witnesses *)

Lemma evicting_queue_refines_latest_witness :
  let os := [EPush [1; 1]; EPushN [[2; 2]; [3; 3]]; EPeek [1%nat]; EPop; EPop; EPush [4; 5]; EClear; EPop] in
  (length [0; 0] = 2%nat /\ Forall (eop_ok 2) os /\ ops_write os < 2 ^ 63 - 1) /\
  exists rs q h l, eexec_all 1 2 os (evq_init 1 [0; 0]) = Some (rs, q) /\
    latest_trace 2 ([], 0) os rs (h, l) /\ write_count q = zlen h /\ read_count q = l /\
    size_approx 1 q = Z.min (zlen h - l) (ECapacity 1) /\
    overwrite_count_approx 1 q = Z.max 0 (zlen h - l - ECapacity 1).
Proof.
  intros os. assert (Forall (eop_ok 2) os) as Ho by (repeat constructor).
  assert (ops_write os < 2 ^ 63 - 1) as Hn by (vm_compute; reflexivity).
  split; [exact (conj eq_refl (conj Ho Hn))|].
  apply (evicting_queue_refines_latest 1 2); [lia|reflexivity|exact Ho|exact Hn].
Defined.

(** A reader that copies both words of an element, timed and untimed. *)
Definition timed_copy : rcall := mkcall false MFor [0%nat; 1%nat].
Definition plain_copy : rcall := mkcall false MTry [0%nat; 1%nat].

(** A complete [push] of a two-word element. *)
Definition push_all (v : data) : list event := ev_push v :: replicate 6 ev_writer.

(** A run in which a reader has read one element, and the writer is half way
    through the next while the reader is in its second call. *)
Definition busy_state : sys :=
  mksys (mkevq 1 1 1 [mkSlot 5 [8; 0]; mkSlot 2 [7; 7]])
    (WWrite 2 [(1%nat, 8)] [8; 8]) (RStart plain_copy true None) [[7; 7]]
    [mkret plain_copy true (Some [7; 7]) 1 1].

Lemma busy_reachable : rtc (step 1 2) (sys_init 1 [0; 0]) busy_state.
Proof.
  apply (play_steps 1 2 (push_all [7; 7] ++ ev_read plain_copy :: replicate 5 ev_reader ++
    [ev_read plain_copy; ev_push [8; 8]; ev_writer; ev_writer])).
  vm_compute. reflexivity.
Qed.

Lemma evicting_queue_reads_consistent_witness :
  (length [0; 0] = 2%nat /\ rtc (step 1 2) (sys_init 1 [0; 0]) busy_state /\
   zlen (hist busy_state) < 2 ^ 63 - 1) /\
  (forall r, r ∈ rets busy_state -> r_ok r = true -> exists v out,
     hist busy_state !! Z.to_nat (r_actual r - 1) = Some v /\ r_out r = Some out /\
     visit (c_script (r_call r)) v = Some out /\ 1 <= r_from r <= r_actual r) /\
  StronglySorted Z.lt (consumed (rets busy_state)).
Proof.
  assert (zlen (hist busy_state) < 2 ^ 63 - 1) as Hn by (vm_compute; reflexivity).
  split; [exact (conj eq_refl (conj busy_reachable Hn))|].
  apply (evicting_queue_reads_consistent 1 2 ltac:(lia) [0; 0]); [reflexivity|apply busy_reachable|exact Hn].
Defined.

Lemma evicting_queue_wait_free_witness :
  (length [0; 0] = 2%nat /\ rtc (step 1 2) (sys_init 1 [0; 0]) busy_state /\
   zlen (hist busy_state) < 2 ^ 63 - 1) /\
  (sw busy_state <> WIdle -> exists pc q out,
     w_step 1 (sw busy_state) (sq busy_state) = Some (pc, q, out) /\
     (w_work 1 pc q < w_work 1 (sw busy_state) (sq busy_state))%nat) /\
  (~ attempt_over (sr busy_state) \/ (exists c fi out, sr busy_state = RStart c fi out) -> exists pc q r,
     r_step 1 (sr busy_state) (sq busy_state) = Some (pc, q, r) /\
     (attempt_over pc \/ (r_work pc < r_work (sr busy_state))%nat)).
Proof.
  assert (zlen (hist busy_state) < 2 ^ 63 - 1) as Hn by (vm_compute; reflexivity).
  split; [exact (conj eq_refl (conj busy_reachable Hn))|].
  apply (evicting_queue_wait_free 1 2 ltac:(lia) [0; 0]); [reflexivity|apply busy_reachable|exact Hn].
Defined.

(** ** What the code does beside its documentation *)

(** a timed pop can return a torn element.  [try_pop_latest_for(timeout)]
    discards the boolean of [try_consume_latest_for] and returns the variable the
    visitor assigned: when a torn attempt is followed by a failing one and the
    deadline, it returns words of two different elements, which nobody wrote, with
    no sign of failure.  (The overload that fills an argument reports failure, but
    has overwritten the argument.) *)
Theorem timed_pop_returns_torn :
  exists s r, rtc (step 1 2) (sys_init 1 [0; 0]) s /\ r ∈ rets s /\
    r_call r = timed_copy /\ r_ok r = false /\ opt_checked r = None /\
    opt_for r = Some [2; 4] /\ [2; 4] ∉ hist s.
Proof.
  exists (mksys (mkevq 5 5 0 [mkSlot 13 [4; 4]; mkSlot 10 [5; 5]])
            (WWrite 6 [(0%nat, 6); (1%nat, 6)] [6; 6]) RIdle
            [[1; 1]; [2; 2]; [3; 3]; [4; 4]; [5; 5]] [mkret timed_copy false (Some [2; 4]) 0 0]),
    (mkret timed_copy false (Some [2; 4]) 0 0).
  split.
  - apply (play_steps 1 2 (push_all [1; 1] ++ push_all [2; 2] ++
      ev_read timed_copy :: replicate 3 ev_reader ++ push_all [3; 3] ++ push_all [4; 4] ++
      replicate 3 ev_reader ++ push_all [5; 5] ++
      [ev_push [6; 6]; ev_writer; ev_reader; ev_clock true])).
    vm_compute. reflexivity.
  - split; [by apply list_elem_of_singleton|]. split_and!; try done. by apply (bool_decide_unpack _).
Qed.

(** [read_count] is an index, not a number of reads.  After three writes and a
    single successful pop it answers 3, and no loss is reported although two of the
    three elements were never read. *)
Theorem read_count_counts_skipped :
  exists q, eexec_all 1 2 [EPush [1; 1]; EPush [2; 2]; EPush [3; 3]; EPop] (evq_init 1 [0; 0])
              = Some ([None; None; None; Some [3; 3]], q) /\
    read_count q = 3 /\ overwrite_count_approx 1 q = 0.
Proof.
  exists (mkevq 3 3 3 [mkSlot 4 [2; 2]; mkSlot 6 [3; 3]]). split_and!; vm_compute; reflexivity.
Qed.
