(* ===== verification/EvictingSlot.v ===== *)
(** The single-slot specialisation [EvictingQueue<T, 1>] of
    src/eph-containers/include/eph/containers/evicting_queue.hpp: one element under
    one sequence counter, even when idle and odd while a write is in progress.

    As in EvictingQueue.v the operations come first as functions and then as two
    threads that interleave word by word. *)
From Stdlib Require Import Sorted.
From stdpp Require Import base list relations sorting.
From S2P Require Import Prelude SlotData EvictingQueue.
Local Open Scope Z_scope.

#[local] Arguments consumed : simpl never.

Section evicting_slot.
(** An element has [W] words. *)
Variable W : nat.

Record evs := mkevs { sl_seq_ : Z; last_seq_ : Z; sl_data_ : data }.

Definition evs_init (d : data) : evs := mkevs 0 0 d.

Definition set_seq (q : evs) (z : Z) : evs := mkevs z (last_seq_ q) (sl_data_ q).
Definition set_data (q : evs) (d : data) : evs := mkevs (sl_seq_ q) (last_seq_ q) d.
Definition set_last_seq (q : evs) (z : Z) : evs := mkevs (sl_seq_ q) z (sl_data_ q).

(** ** Operations *)

Definition sl_produce (f : writer_func) (q : evs) : evs :=
  let seq := sl_seq_ q in
  let q := set_seq q (u64 (seq + 1)) in
  let q := set_data q (apply_stores (f (sl_data_ q)) (sl_data_ q)) in
  set_seq q (u64 (seq + 2)).

Definition sl_push (v : data) (q : evs) : evs := sl_produce (assign v) q.
Definition sl_emplace (v : data) (q : evs) : evs := sl_produce (assign v) q.

Fixpoint sl_produce_from (i n : nat) (visitor : nat -> writer_func) (q : evs) : evs :=
  match n with O => q | S n => sl_produce_from (S i) n visitor (sl_produce (visitor i) q) end.
Definition sl_produce_n (count : nat) (visitor : nat -> writer_func) (q : evs) : evs :=
  sl_produce_from 0 count visitor q.
Definition sl_push_n (items : list data) (q : evs) : evs :=
  sl_produce_n (length items) (fun i => match items !! i with Some v => assign v | None => fun _ => [] end) q.

Definition sl_odd (seq : Z) : bool := negb (Z.land seq 1 =? 0).

(** The optimistic read; the last component is the sequence number to store. *)
Definition sl_read (sc : script) (q : evs) : option (bool * option (list Z) * Z) :=
  let seq0 := sl_seq_ q in
  if (seq0 <=? last_seq_ q) || sl_odd seq0 then Some (false, None, 0) else
  out ← visit sc (sl_data_ q);
  let seq1 := sl_seq_ q in
  Some (seq0 =? seq1, Some out, seq1).

Definition sl_try_consume_latest (sc : script) (q : evs) : option (bool * option (list Z) * evs) :=
  '(ok, out, seq1) ← sl_read sc q; Some (ok, out, if ok : bool then set_last_seq q seq1 else q).
Definition sl_try_peek_latest (sc : script) (q : evs) : option (bool * option (list Z)) :=
  '(ok, out, _) ← sl_read sc q; Some (ok, out).
Definition sl_try_pop_latest (q : evs) : option (option data * evs) :=
  '(ok, out, q) ← sl_try_consume_latest (copy W) q; Some (if ok : bool then out else None, q).
Definition sl_try_peek_latest_value (q : evs) : option (option data) :=
  '(ok, out) ← sl_try_peek_latest (copy W) q; Some (if ok : bool then out else None).

Definition sl_clear (q : evs) : evs := set_last_seq q (sl_seq_ q).

Definition sl_size_approx (q : evs) : Z :=
  let seq := sl_seq_ q in
  if sl_odd seq || (seq <=? last_seq_ q) then 0 else 1.
Definition sl_empty (q : evs) : bool := sl_size_approx q =? 0.
Definition sl_full (q : evs) : bool := 1 <=? sl_size_approx q.
Definition sl_write_count (q : evs) : Z := sl_seq_ q / 2.
Definition sl_read_count (q : evs) : Z := last_seq_ q / 2.
Definition sl_overwrite_count_approx (q : evs) : Z :=
  let writes := sl_write_count q in
  let reads := sl_read_count q in
  if writes <=? u64 (reads + 1) then 0 else u64 (writes - reads - 1).
Definition sl_stats (q : evs) : EvictingQueueStats :=
  mkEStats (sl_write_count q) (sl_read_count q) (sl_overwrite_count_approx q) (sl_size_approx q) 1.

(** ** The two threads *)

Inductive swpc :=
| SIdle
| SLock (f : writer_func)
| SWrite (seq : Z) (todo : stores) (target : data).

Definition sw_step (pc : swpc) (q : evs) : option (swpc * evs * list data) :=
  match pc with
  | SIdle => None
  | SLock f =>
      let seq := sl_seq_ q in
      Some (SWrite seq (f (sl_data_ q)) (apply_stores (f (sl_data_ q)) (sl_data_ q)),
            set_seq q (u64 (seq + 1)), [])
  | SWrite seq ((i, w) :: todo) target =>
      _ ← sl_data_ q !! i;
      Some (SWrite seq todo target, set_data q (<[i := w]> (sl_data_ q)), [])
  | SWrite seq [] target => Some (SIdle, set_seq q (u64 (seq + 2)), [target])
  end.

Inductive srpc :=
| SRIdle
| SRStart (c : rcall) (first : bool) (out : option (list Z))
| SRRead (c : rcall) (first : bool) (out : option (list Z)) (seq0 : Z) (todo : script) (acc : list Z)
| SRClock (c : rcall) (out : option (list Z)).

Definition s_failed (c : rcall) (first : bool) (out : option (list Z)) : srpc * list ret :=
  match c_mode c with
  | MTry => (SRIdle, [mkret c false out 0 0])
  | MBlock => (SRStart c false out, [])
  | MFor => if first then (SRStart c false out, []) else (SRClock c out, [])
  end.

(** The index of an element is half its sequence number. *)
Definition sr_step (pc : srpc) (q : evs) : option (srpc * evs * list ret) :=
  match pc with
  | SRIdle | SRClock _ _ => None
  | SRStart c first out =>
      let seq0 := sl_seq_ q in
      if (seq0 <=? last_seq_ q) || sl_odd seq0
      then let '(pc, r) := s_failed c first out in Some (pc, q, r)
      else Some (SRRead c first out seq0 (c_script c) [], q, [])
  | SRRead c first out seq0 (i :: todo) acc =>
      w ← sl_data_ q !! i; Some (SRRead c first out seq0 todo (acc ++ [w]), q, [])
  | SRRead c first out seq0 [] acc =>
      let seq1 := sl_seq_ q in
      if seq0 =? seq1
      then Some (SRIdle, if peek c then q else set_last_seq q seq1,
                 [mkret c true (Some acc) (seq0 / 2) (seq0 / 2)])
      else let '(pc, r) := s_failed c first (Some acc) in Some (pc, q, r)
  end.

Record ssys := mkssys {
  ssq : evs;
  ssw : swpc;
  ssr : srpc;
  shist : list data;
  srets : list ret;
}.

Definition ssys_init (d : data) : ssys := mkssys (evs_init d) SIdle SRIdle [] [].

Inductive sstep : ssys -> ssys -> Prop :=
| sstep_call_produce s f :
    ssw s = SIdle -> func_ok W f -> sstep s (mkssys (ssq s) (SLock f) (ssr s) (shist s) (srets s))
| sstep_writer s pc q out :
    sw_step (ssw s) (ssq s) = Some (pc, q, out) ->
    sstep s (mkssys q pc (ssr s) (shist s ++ out) (srets s))
| sstep_call_read s c :
    ssr s = SRIdle -> script_ok W (c_script c) ->
    sstep s (mkssys (ssq s) (ssw s) (SRStart c true None) (shist s) (srets s))
| sstep_reader s pc q r :
    sr_step (ssr s) (ssq s) = Some (pc, q, r) ->
    sstep s (mkssys q (ssw s) pc (shist s) (srets s ++ r))
| sstep_clock_again s c out :
    ssr s = SRClock c out -> sstep s (mkssys (ssq s) (ssw s) (SRStart c false out) (shist s) (srets s))
| sstep_clock_deadline s c out :
    ssr s = SRClock c out ->
    sstep s (mkssys (ssq s) (ssw s) SRIdle (shist s) (srets s ++ [mkret c false out 0 0])).

(** ** Invariant *)

Definition sw_inv (pc : swpc) (q : evs) (h : list data) : Prop :=
  match pc with
  | SIdle | SLock _ =>
      sl_seq_ q = 2 * zlen h /\ (h = [] \/ h !! Z.to_nat (zlen h - 1) = Some (sl_data_ q)) /\
      (forall f, pc = SLock f -> func_ok W f)
  | SWrite seq todo target =>
      seq = 2 * zlen h /\ sl_seq_ q = seq + 1 /\ apply_stores todo (sl_data_ q) = target /\
      Forall (fun x => (fst x < W)%nat) todo
  end.

Definition sr_inv (pc : srpc) (q : evs) (h : list data) : Prop :=
  match pc with
  | SRIdle => True
  | SRStart c _ _ | SRClock c _ => script_ok W (c_script c)
  | SRRead c _ _ seq0 todo acc =>
      exists actual d past, c_script c = past ++ todo /\ script_ok W (c_script c) /\
        seq0 = 2 * actual /\ last_seq_ q < seq0 /\ 1 <= actual <= zlen h /\
        h !! Z.to_nat (actual - 1) = Some d /\ seq0 <= sl_seq_ q /\
        (sl_seq_ q = seq0 -> visit past d = Some acc)
  end.

Record sinv (s : ssys) : Prop := mksinv {
  si_len : length (sl_data_ (ssq s)) = W;
  si_writer : sw_inv (ssw s) (ssq s) (shist s);
  si_words : Forall (fun d => length d = W) (shist s);
  si_last : 0 <= last_seq_ (ssq s) <= 2 * zlen (shist s);
  si_reader : sr_inv (ssr s) (ssq s) (shist s);
  si_rets : Forall (fun r => r_ok r = true -> ret_good (shist s) r) (srets s);
  si_order : StronglySorted Z.lt (consumed (srets s)) /\
             Forall (fun a => 1 <= a /\ 2 * a <= last_seq_ (ssq s)) (consumed (srets s));
}.

Lemma sl_odd_even j : sl_odd (2 * j) = false.
Proof. apply is_locked_even. Qed.
Lemma sl_odd_odd j : sl_odd (2 * j + 1) = true.
Proof. apply is_locked_odd. Qed.

(** The parts of the invariant that a writer access can touch. *)
Lemma s_writer_inv s pc q out :
  sinv s -> last_seq_ q = last_seq_ (ssq s) -> sl_seq_ (ssq s) <= sl_seq_ q ->
  length (sl_data_ q) = W -> Forall (fun d => length d = W) out -> sw_inv pc q (shist s ++ out) ->
  sinv (mkssys q pc (ssr s) (shist s ++ out) (srets s)).
Proof.
  intros [Hl Hw Hwd Hla Hr Hrt Ho] El Hseq Hlen Hout Hw'.
  assert (shist s `prefix_of` shist s ++ out) as Hp by by eexists.
  assert (zlen (shist s) <= zlen (shist s ++ out)) as Hz by (apply prefix_length in Hp; unfold zlen; lia).
  constructor; cbn; try done.
  - by apply Forall_app.
  - rewrite El. lia.
  - destruct (ssr s) as [|c fi o|c fi o seq0 todo acc|]; cbn in *; rewrite ?El; try done.
    destruct Hr as (actual & d & past & Esc & Hok & E0 & Hlt & Ha & Hd & Hle & Hv).
    exists actual, d, past. split_and!; try done; try lia; [by eapply prefix_lookup_Some|].
    intros E. apply Hv. lia.
  - eapply Forall_impl; [|exact Hrt]. intros r H E. eapply ret_good_mono; [done|by apply H].
  - by rewrite El.
Qed.

Lemma sw_step_inv s pc q out :
  sinv s -> zlen (shist s) < 2 ^ 63 - 1 -> sw_step (ssw s) (ssq s) = Some (pc, q, out) ->
  sinv (mkssys q pc (ssr s) (shist s ++ out) (srets s)).
Proof.
  intros I Hn E. pose proof (si_writer s I) as Hw. pose proof (si_len s I) as Hl.
  pose proof (zlen_nonneg (shist s)) as Hz.
  destruct (ssw s) as [|f|seq [|[i w] todo] target] eqn:Ew; cbn [sw_step] in E; [done|..].
  - destruct Hw as (Es & _ & Hf). simplify_eq. specialize (Hf f eq_refl).
    apply s_writer_inv; cbn; try done; rewrite ?Es, ?app_nil_r, ?wrap_small by lia; try lia.
    split_and!; try done. by apply Hf.
  - destruct Hw as (-> & Es & Et & _). simplify_eq. cbn in *.
    apply s_writer_inv; cbn; try done; rewrite ?wrap_small by lia; try lia.
    + by repeat constructor.
    + zlens. split_and!; try done; try lia. right.
      replace (Z.to_nat _) with (length (shist s)) by (unfold zlen; lia). by apply list_lookup_middle.
  - destruct Hw as (-> & Es & Et & Hv). apply Forall_cons_1 in Hv as [_ Hv].
    destruct (sl_data_ (ssq s) !! i); [|done]. cbn in E. simplify_eq.
    apply s_writer_inv; cbn; try done; [by rewrite length_insert|]. by rewrite app_nil_r.
Qed.

Lemma s_reader_quiet_inv s pc r :
  sinv s -> sr_inv pc (ssq s) (shist s) -> Forall (fun x => r_ok x = false) r ->
  sinv (mkssys (ssq s) (ssw s) pc (shist s) (srets s ++ r)).
Proof.
  intros [Hl Hw Hwd Hla Hr Hrt Ho] Hpc Hfail. constructor; cbn; try done.
  - apply Forall_app; split; [done|]. eapply Forall_impl; [|exact Hfail]. cbn. intros x E1 E2. congruence.
  - by rewrite consumed_app, (consumed_failed r), app_nil_r.
Qed.

Lemma s_failed_inv s c first out :
  sinv s -> script_ok W (c_script c) ->
  sinv (mkssys (ssq s) (ssw s) (s_failed c first out).1 (shist s) (srets s ++ (s_failed c first out).2)).
Proof.
  intros I Hsc. unfold s_failed.
  destruct (c_mode c); [|destruct first|]; apply s_reader_quiet_inv; cbn; try done; by repeat constructor.
Qed.

(** When the counter is even the slot holds the newest element. *)
Lemma sl_even s :
  sinv s -> sl_odd (sl_seq_ (ssq s)) = false -> 0 < sl_seq_ (ssq s) ->
  sl_seq_ (ssq s) = 2 * zlen (shist s) /\ shist s !! Z.to_nat (zlen (shist s) - 1) = Some (sl_data_ (ssq s)).
Proof.
  intros I Ho Hp. pose proof (si_writer s I) as Hw. destruct (ssw s) as [|f|seq todo target]; cbn in Hw.
  1-2: destruct Hw as (E & [Eh|Hd] & _); [rewrite Eh in E; change (zlen (@nil data)) with 0 in E; lia|done].
  destruct Hw as (-> & E & _). by rewrite E, sl_odd_odd in Ho.
Qed.

Lemma s_success_inv s c first out seq0 acc :
  sinv s -> ssr s = SRRead c first out seq0 [] acc -> seq0 = sl_seq_ (ssq s) ->
  sinv (mkssys (if peek c then ssq s else set_last_seq (ssq s) (sl_seq_ (ssq s))) (ssw s) SRIdle (shist s)
         (srets s ++ [mkret c true (Some acc) (seq0 / 2) (seq0 / 2)])).
Proof.
  intros I Er Eq. pose proof (si_reader s I) as Hr. rewrite Er in Hr.
  destruct Hr as (actual & d & past & Esc & Hok & E0 & Hlt & Ha & Hd & Hle & Hv).
  rewrite app_nil_r in Esc. rewrite <- Eq in *. specialize (Hv eq_refl).
  replace (seq0 / 2) with actual by (rewrite E0, Z.mul_comm, Z.div_mul; lia).
  destruct I as [Hl Hw Hwd Hla _ Hrt [Ho1 Ho2]].
  assert (Forall (fun r => r_ok r = true -> ret_good (shist s) r)
    (srets s ++ [mkret c true (Some acc) actual actual])) as Hrt'.
  { apply Forall_app; split; [done|]. constructor; [|constructor]. intros _. split; [cbn; lia|].
    split; [cbn; lia|]. exists d, acc. cbn. by rewrite Esc. }
  destruct (peek c) eqn:Ep; constructor; cbn; try done; try lia.
  - by rewrite consumed_app, consumed_one, Ep, app_nil_r.
  - rewrite consumed_app, consumed_one, Ep. split.
    + apply sorted_snoc; [done|]. eapply Forall_impl; [|exact Ho2]. cbn. lia.
    + apply Forall_app; split; [|repeat constructor; cbn; lia].
      eapply Forall_impl; [|exact Ho2]. cbn. lia.
Qed.

Lemma sr_step_inv s pc q r :
  sinv s -> sr_step (ssr s) (ssq s) = Some (pc, q, r) ->
  sinv (mkssys q (ssw s) pc (shist s) (srets s ++ r)).
Proof.
  intros I E. pose proof (si_reader s I) as Hr. pose proof (si_last s I) as Hla.
  destruct (ssr s) as [|c fi out|c fi out seq0 [|i todo] acc|c out] eqn:Er; cbn [sr_step] in E; [done|..|done].
  - pose proof (s_failed_inv s c fi out I Hr) as Hf. destruct (s_failed c fi out) as [pc' r'].
    destruct (Z.leb_spec (sl_seq_ (ssq s)) (last_seq_ (ssq s))); [by simplify_eq/=|].
    destruct (sl_odd _) eqn:Ho; cbn [orb] in E; [by simplify_eq|]. simplify_eq.
    destruct (sl_even s I Ho ltac:(lia)) as [Es Hd].
    apply s_reader_quiet_inv; [done| |constructor].
    exists (zlen (shist s)), (sl_data_ (ssq s)), []. split_and!; try done; lia.
  - assert (script_ok W (c_script c)) as Hsc by (by destruct Hr as (? & ? & ? & ? & ? & _)).
    pose proof (s_failed_inv s c fi (Some acc) I Hsc) as Hf. destruct (s_failed c fi (Some acc)) as [pc' r'].
    destruct (Z.eqb_spec seq0 (sl_seq_ (ssq s))); simplify_eq; [|done]. by eapply s_success_inv.
  - destruct (sl_data_ (ssq s) !! i) as [w|] eqn:Hw; [|done]. cbn in E. simplify_eq.
    apply s_reader_quiet_inv; [done| |constructor].
    destruct Hr as (actual & d & past & Esc & Hok & E0 & Hlt & Ha & Hd & Hle & Hv).
    exists actual, d, (past ++ [i]). split_and!; try done; try lia; [by rewrite <- app_assoc|].
    intros E. destruct (sl_even s I) as [E1 Hd']; [by rewrite E, E0, sl_odd_even|lia|].
    assert (actual = zlen (shist s)) as -> by lia. simplify_eq. apply visit_snoc; [by apply Hv|done].
Qed.

Lemma evs_init_inv d : length d = W -> sinv (ssys_init d).
Proof.
  intros Hd. constructor; cbn; try done.
  - split_and!; try done. by left.
  - split; constructor.
Qed.

Lemma sstep_inv s s' : sinv s -> zlen (shist s) < 2 ^ 63 - 1 -> sstep s s' -> sinv s'.
Proof.
  intros I Hn Hst. destruct Hst as [s f E Hf|s pc q out E|s c E Hc|s pc q r E|s c out E|s c out E].
  - destruct I as [? Hw ? ? ? ? ?]. rewrite E in Hw. destruct Hw as (? & ? & _). constructor; cbn; try done.
    split_and!; try done. by intros f' [= <-].
  - by apply sw_step_inv.
  - destruct I as [? ? ? ? ? ? ?]. by constructor.
  - by apply sr_step_inv.
  - pose proof (si_reader s I) as Hr. rewrite E in Hr. destruct I as [? ? ? ? ? ? ?]. by constructor.
  - apply s_reader_quiet_inv; [done..|by repeat constructor].
Qed.

Lemma shist_mono s s' : rtc sstep s s' -> zlen (shist s) <= zlen (shist s').
Proof.
  induction 1 as [|s0 s1 s2 Hst _ IH]; [done|]. enough (zlen (shist s0) <= zlen (shist s1)) by lia.
  destruct Hst as [| ? ? ? out| | | |]; cbn; try lia. rewrite zlen_app. pose proof (zlen_nonneg out). lia.
Qed.

Lemma ssteps_inv s s' : sinv s -> rtc sstep s s' -> zlen (shist s') < 2 ^ 63 - 1 -> sinv s'.
Proof.
  intros I Hr. induction Hr as [|s0 s1 s2 Hst Hr IH]; intros Hn; [done|].
  apply IH; [|done]. apply (sstep_inv s0); [done| |done].
  pose proof (shist_mono s0 s2 (rtc_l sstep s0 s1 s2 Hst Hr)). lia.
Qed.

(** ** Progress *)

Definition sw_work (pc : swpc) (q : evs) : nat :=
  match pc with
  | SIdle => 0
  | SLock f => length (f (sl_data_ q)) + 2
  | SWrite _ todo _ => length todo + 1
  end.

Lemma sw_step_progress s :
  sinv s -> ssw s <> SIdle ->
  exists pc q out, sw_step (ssw s) (ssq s) = Some (pc, q, out) /\ (sw_work pc q < sw_work (ssw s) (ssq s))%nat.
Proof.
  intros I Hne. pose proof (si_writer s I) as Hw. pose proof (si_len s I) as Hl.
  destruct (ssw s) as [|f|seq [|[i w] todo] target]; [done|..]; cbn [sw_step].
  1-2: do 3 eexists; (split; [done|cbn; lia]).
  destruct Hw as (_ & _ & _ & Hv). apply Forall_cons_1 in Hv as [Hv _].
  destruct (lookup_lt_is_Some_2 (sl_data_ (ssq s)) i) as [y ->]; [cbn in Hv; lia|].
  do 3 eexists; (split; [done|cbn; lia]).
Qed.

(** ** One thread at a time *)

Lemma sl_stores_run q seq todo target r h rs :
  Forall (fun y => (fst y < length (sl_data_ q))%nat) todo ->
  rtc sstep (mkssys q (SWrite seq todo target) r h rs)
    (mkssys (set_data q (apply_stores todo (sl_data_ q))) (SWrite seq [] target) r h rs).
Proof.
  revert q. induction todo as [|[i w] todo IH]; intros q Hok; [by destruct q|].
  apply Forall_cons_1 in Hok as [Hi Hok]. destruct (lookup_lt_is_Some_2 (sl_data_ q) i Hi) as [y Hy].
  eapply rtc_l; [eapply sstep_writer; cbn; by rewrite Hy|]. cbn. rewrite app_nil_r.
  apply (IH (set_data q _)). cbn. by rewrite length_insert.
Qed.

Lemma sl_produce_runs q f r h rs :
  length (sl_data_ q) = W -> func_ok W f ->
  rtc sstep (mkssys q (SLock f) r h rs)
    (mkssys (sl_produce f q) SIdle r (h ++ [apply_stores (f (sl_data_ q)) (sl_data_ q)]) rs).
Proof.
  intros Hl Hf. eapply rtc_l; [by eapply sstep_writer|]. cbn. rewrite app_nil_r. etrans.
  { apply sl_stores_run. cbn. rewrite Hl. by apply Hf. }
  eapply rtc_l; [by eapply sstep_writer|]. apply rtc_refl.
Qed.

Definition sl_quiet (q : evs) (h : list data) : Prop := exists rs, sinv (mkssys q SIdle SRIdle h rs).

Lemma sl_produce_spec f q h :
  sl_quiet q h -> func_ok W f -> zlen h < 2 ^ 63 - 2 ->
  length (sl_data_ q) = W /\
  sl_quiet (sl_produce f q) (h ++ [apply_stores (f (sl_data_ q)) (sl_data_ q)]).
Proof.
  intros [rs I] Hf Hn. pose proof (si_len _ I) as Hl. split; [done|].
  exists rs. eapply ssteps_inv; [exact I| |cbn; zlens; lia].
  eapply rtc_l; [by eapply sstep_call_produce|]. by apply sl_produce_runs.
Qed.

Lemma sl_push_n_from pre items q h :
  sl_quiet q h -> Forall (fun v => length v = W) items -> zlen h + zlen items < 2 ^ 63 - 1 ->
  let q' := sl_produce_from (length pre) (length items)
      (fun i => match (pre ++ items) !! i with Some v => assign v | None => fun _ => [] end) q in
  sl_quiet q' (h ++ items) /\ last_seq_ q' = last_seq_ q.
Proof.
  intros Hq Hv. revert pre q h Hq. induction Hv as [|v items Hv _ IH]; intros pre q h Hq Hn.
  - cbn. by rewrite app_nil_r.
  - rewrite zlen_cons in Hn. pose proof (zlen_nonneg items).
    destruct (sl_produce_spec _ q h Hq (assign_ok W v Hv) ltac:(lia)) as (Hl & Hq1).
    rewrite assign_spec in Hq1 by congruence.
    specialize (IH (pre ++ [v]) _ _ Hq1 ltac:(zlens; lia)).
    cbn [length sl_produce_from]. rewrite list_lookup_middle by done.
    rewrite <- !app_assoc in IH. cbn [app] in IH. rewrite length_app, Nat.add_1_r in IH. done.
Qed.

(** The operations on the register of EvictingQueue.v. *)
Definition sl_exec (o : eop) (q : evs) : option (option (list Z) * evs) :=
  match o with
  | EProduce f => Some (None, sl_produce f q)
  | EPush v => Some (None, sl_push v q)
  | EPushN items => Some (None, sl_push_n items q)
  | EConsume sc => '(ok, out, q) ← sl_try_consume_latest sc q; Some (if ok : bool then out else None, q)
  | EPop => sl_try_pop_latest q
  | EPeek sc => '(ok, out) ← sl_try_peek_latest sc q; Some (if ok : bool then out else None, q)
  | EClear => Some (None, sl_clear q)
  end.

Fixpoint sl_exec_all (os : list eop) (q : evs) : option (list (option (list Z)) * evs) :=
  match os with
  | [] => Some ([], q)
  | o :: os => '(r, q) ← sl_exec o q; '(rs, q) ← sl_exec_all os q; Some (r :: rs, q)
  end.

(** In a queue at rest both counters are even. *)
Definition sl_at (q : evs) (h : list data) (l : Z) : Prop := sl_quiet q h /\ last_seq_ q = 2 * l.

Lemma sl_read_cases sc q h l :
  sl_at q h l -> script_ok W sc ->
  (exists h' d out, h = h' ++ [d] /\ length d = W /\ visit sc d = Some out /\ l <= zlen h' /\
     sl_read sc q = Some (true, Some out, 2 * (zlen h' + 1)) /\
     sl_at (set_last_seq q (2 * (zlen h' + 1))) h (zlen h' + 1)) \/
  (l = zlen h /\ sl_read sc q = Some (false, None, 0)).
Proof.
  intros [[rs I] El] Hsc. pose proof (si_last _ I) as Hla. pose proof (si_writer _ I) as (Es & Hd & _).
  cbn in Es, Hd, Hla. unfold sl_read. rewrite Es, El, sl_odd_even, orb_false_r, Z.eqb_refl.
  destruct (Z.leb_spec (2 * zlen h) (2 * l)); [right; split; [lia|done]|left].
  destruct (zlen_split h ltac:(lia)) as (h' & d & -> & Hz).
  destruct Hd as [Hd|Hd]; [by destruct h'|]. rewrite <- Hz in Hd.
  replace (Z.to_nat _) with (length h') in Hd by (unfold zlen; lia).
  rewrite list_lookup_middle in Hd by done. simplify_eq. pose proof (si_len _ I) as Hl. cbn in Hl.
  destruct (visit_ok W sc (sl_data_ q) Hsc Hl) as [out Hv]. rewrite Hv. cbn. rewrite <- Hz.
  exists h', (sl_data_ q), out. split_and!; try done; [lia|].
  destruct I as [? ? ? ? ? ? [? Ho]]. split; [|done]. exists rs. constructor; cbn in *; try done; [lia|].
  split; [done|]. eapply Forall_impl; [|exact Ho]. cbn. lia.
Qed.

Lemma sl_exec_refines o q h l :
  sl_at q h l -> eop_ok W o -> zlen h + op_writes o < 2 ^ 63 - 1 ->
  exists r q' h' l', sl_exec o q = Some (r, q') /\ sl_at q' h' l' /\
    latest W (h, l) o r (h', l') /\ zlen h' <= zlen h + op_writes o.
Proof.
  intros [Hq El] Ho Hn. assert (sl_at q h l) as Hat by done.
  destruct o as [f|v|items|sc| |sc|]; cbn [sl_exec eop_ok op_writes] in *.
  - destruct (sl_produce_spec f q h Hq Ho ltac:(lia)) as (Hl & Hq').
    do 4 eexists. split; [done|]. split; [by split|]. split; [by constructor|zlens; lia].
  - destruct (sl_produce_spec _ q h Hq (assign_ok W v Ho) ltac:(lia)) as (Hl & Hq').
    rewrite assign_spec in Hq' by congruence.
    do 4 eexists. split; [done|]. split; [by split|]. split; [by constructor|zlens; lia].
  - destruct (sl_push_n_from [] items q h Hq Ho Hn) as (Hq' & El').
    do 4 eexists. split; [done|]. split; [split; [done|by rewrite <- El]|]. split; [by constructor|zlens; lia].
  - unfold sl_try_consume_latest.
    destruct (sl_read_cases sc q h l Hat Ho) as [(h' & d & out & -> & _ & Hv & Hl & -> & Hq')|[-> ->]];
      do 4 eexists; (split; [done|]); (split; [done|]); (split; [|lia]); [|constructor].
    rewrite <- Hv. by constructor.
  - unfold sl_try_pop_latest, sl_try_consume_latest.
    destruct (sl_read_cases _ q h l Hat (copy_ok W)) as [(h' & d & out & -> & Hd & Hv & Hl & -> & Hq')|[-> ->]];
      do 4 eexists; (split; [done|]); (split; [done|]); (split; [|lia]); [|constructor].
    rewrite <- Hd, visit_copy in Hv. simplify_eq. by constructor.
  - unfold sl_try_peek_latest.
    destruct (sl_read_cases sc q h l Hat Ho) as [(h' & d & out & -> & _ & Hv & Hl & -> & _)|[-> ->]];
      do 4 eexists; (split; [done|]); (split; [done|]); (split; [|lia]); [|constructor].
    rewrite <- Hv. by constructor.
  - destruct Hq as [rs I]. pose proof (si_writer _ I) as (Es & _). pose proof (si_last _ I) as Hla. cbn in Es, Hla.
    do 4 eexists. split; [done|]. split; [|split; [constructor|lia]]. split; [|by cbn].
    destruct I as [? ? ? ? ? ? [? Hc]]. exists rs. constructor; cbn in *; try done; [lia|].
    split; [done|]. eapply Forall_impl; [|exact Hc]. cbn. lia.
Qed.

Lemma sl_counts q h l :
  sl_at q h l -> zlen h < 2 ^ 63 - 1 ->
  sl_write_count q = zlen h /\ sl_read_count q = l /\ sl_size_approx q = Z.min (zlen h - l) 1 /\
  sl_overwrite_count_approx q = Z.max 0 (zlen h - l - 1).
Proof.
  intros [[rs I] El] Hn. pose proof (si_writer _ I) as (Es & _). pose proof (si_last _ I) as Hla. cbn in Es, Hla.
  unfold sl_overwrite_count_approx, sl_write_count, sl_read_count, sl_size_approx.
  rewrite Es, El, sl_odd_even, !(Z.mul_comm 2), !Z.div_mul, (wrap_small 64 (l + 1)) by lia. cbn [orb].
  split; [done|]. split; [done|]. split.
  - destruct (Z.leb_spec (zlen h * 2) (l * 2)); lia.
  - destruct (Z.leb_spec (zlen h) (l + 1)); rewrite ?wrap_small by lia; lia.
Qed.

(** the single-slot queue refines the same register.  From a fresh queue, any
    sequence of operations with fewer than [2 ^ 63 - 1] writes answers as a register holding
    the latest element, and the monitoring functions agree with it. *)
Theorem evicting_slot_refines_latest d os :
  length d = W -> Forall (eop_ok W) os -> ops_write os < 2 ^ 63 - 1 ->
  exists rs q h l, sl_exec_all os (evs_init d) = Some (rs, q) /\
    latest_trace W ([], 0) os rs (h, l) /\ sl_write_count q = zlen h /\ sl_read_count q = l /\
    sl_size_approx q = Z.min (zlen h - l) 1 /\ sl_overwrite_count_approx q = Z.max 0 (zlen h - l - 1).
Proof.
  intros Hd Hos Hn. assert (sl_at (evs_init d) [] 0) as Hq by (split; [exists []; by apply evs_init_inv|done]).
  assert (zlen (@nil data) + ops_write os < 2 ^ 63 - 1) as Hb by (by change (zlen (@nil data)) with 0).
  clear Hn. revert Hq Hb. generalize (evs_init d) as q, (@nil data) as h. generalize 0 at 1 2 as l.
  intros l q h; revert l q h.
  induction Hos as [|o os Ho _ IH]; intros l q h Hq Hb.
  - cbn in Hb. destruct (sl_counts q h l Hq ltac:(lia)) as (? & ? & ? & ?).
    exists [], q, h, l. split_and!; try done. constructor.
  - cbn in Hb. pose proof (ops_write_nonneg os).
    destruct (sl_exec_refines o q h l Hq Ho ltac:(lia)) as (r & q1 & h1 & l1 & E & Hq1 & Hl & Hz).
    destruct (IH l1 q1 h1 Hq1 ltac:(lia)) as (rs & q2 & h2 & l2 & E2 & Ht & Hc).
    exists (r :: rs), q2, h2, l2. cbn [sl_exec_all]. rewrite E. cbn [mbind option_bind]. rewrite E2.
    split; [done|]. split; [by econstructor|done].
Qed.

(** no torn reads in the single slot, and a wait-free writer.  In every
    interleaving with fewer than [2 ^ 63 - 1] writes a successful read saw the words
    of one element that was written, consuming reads deliver strictly newer
    elements, and a running [produce] can always take its next access and comes
    strictly closer to returning. *)
Theorem evicting_slot_reads_consistent d s :
  length d = W -> rtc sstep (ssys_init d) s -> zlen (shist s) < 2 ^ 63 - 1 ->
  (forall r, r ∈ srets s -> r_ok r = true -> exists v out,
     shist s !! Z.to_nat (r_actual r - 1) = Some v /\ r_out r = Some out /\
     visit (c_script (r_call r)) v = Some out) /\
  StronglySorted Z.lt (consumed (srets s)) /\
  (ssw s <> SIdle -> exists pc q out,
     sw_step (ssw s) (ssq s) = Some (pc, q, out) /\ (sw_work pc q < sw_work (ssw s) (ssq s))%nat).
Proof.
  intros Hd Hr Hn. pose proof (ssteps_inv _ _ (evs_init_inv d Hd) Hr Hn) as I.
  split; [|split; [by apply I|by apply sw_step_progress]].
  intros r Hin Hok. pose proof (si_rets s I) as Hall. rewrite list.Forall_forall in Hall.
  destruct (Hall r Hin Hok) as (_ & _ & v & out & H2 & H3 & H4). by exists v, out.
Qed.

End evicting_slot.

(** ** Witnesses *)

Lemma evicting_slot_refines_latest_witness :
  let os := [EPush [1; 1]; EPushN [[2; 2]; [3; 3]]; EPeek [1%nat]; EPop; EPop; EPush [4; 5]; EClear; EPop] in
  (length [0; 0] = 2%nat /\ Forall (eop_ok 2) os /\ ops_write os < 2 ^ 63 - 1) /\
  exists rs q h l, sl_exec_all 2 os (evs_init [0; 0]) = Some (rs, q) /\
    latest_trace 2 ([], 0) os rs (h, l) /\ sl_write_count q = zlen h /\ sl_read_count q = l /\
    sl_size_approx q = Z.min (zlen h - l) 1 /\ sl_overwrite_count_approx q = Z.max 0 (zlen h - l - 1).
Proof.
  intros os. assert (Forall (eop_ok 2) os) as Ho by (repeat constructor).
  assert (ops_write os < 2 ^ 63 - 1) as Hn by (vm_compute; reflexivity).
  split; [exact (conj eq_refl (conj Ho Hn))|].
  apply (evicting_slot_refines_latest 2); [reflexivity|exact Ho|exact Hn].
Defined.

(** One element written and read, the next half written. *)
Definition slot_state : ssys :=
  mkssys (mkevs 3 2 [8; 7]) (SWrite 2 [(1%nat, 8)] [8; 8]) SRIdle [[7; 7]]
    [mkret plain_copy true (Some [7; 7]) 1 1].

Lemma slot_state_reachable : rtc (sstep 2) (ssys_init [0; 0]) slot_state.
Proof.
  eapply rtc_l; [apply (sstep_call_produce _ _ (assign [7; 7])); [done|by apply assign_ok]|].
  do 4 (eapply rtc_l; [by eapply sstep_writer|]; cbn).
  eapply rtc_l; [apply (sstep_call_read _ _ plain_copy); [done|repeat constructor]|]; cbn.
  do 4 (eapply rtc_l; [by eapply sstep_reader|]; cbn).
  eapply rtc_l; [apply (sstep_call_produce _ _ (assign [8; 8])); [done|by apply assign_ok]|]; cbn.
  do 2 (eapply rtc_l; [by eapply sstep_writer|]; cbn).
  apply rtc_refl.
Qed.

Lemma evicting_slot_reads_consistent_witness :
  (length [0; 0] = 2%nat /\ rtc (sstep 2) (ssys_init [0; 0]) slot_state /\
   zlen (shist slot_state) < 2 ^ 63 - 1) /\
  (forall r, r ∈ srets slot_state -> r_ok r = true -> exists v out,
     shist slot_state !! Z.to_nat (r_actual r - 1) = Some v /\ r_out r = Some out /\
     visit (c_script (r_call r)) v = Some out) /\
  StronglySorted Z.lt (consumed (srets slot_state)) /\
  (ssw slot_state <> SIdle -> exists pc q out,
     sw_step (ssw slot_state) (ssq slot_state) = Some (pc, q, out) /\
     (sw_work pc q < sw_work (ssw slot_state) (ssq slot_state))%nat).
Proof.
  assert (zlen (shist slot_state) < 2 ^ 63 - 1) as Hn by (vm_compute; reflexivity).
  split; [exact (conj eq_refl (conj slot_state_reachable Hn))|].
  apply (evicting_slot_reads_consistent 2 [0; 0]); [reflexivity|apply slot_state_reachable|exact Hn].
Defined.
