(* ===== verification/RingBuffer.v ===== *)
(** The tick-history ring of
    src/eph-containers/include/eph/containers/ring_buffer.hpp.

    The operations as functions, with the contract that the buffer holds the last
    [Capacity] pushed elements; then [push] and [at] access by access, to see what a
    reader running beside the writer can get. *)
From stdpp Require Import base list relations.
From S2P Require Import Prelude.
Local Open Scope Z_scope.

Section ring_buffer.
Context {T : Type}.
(** [Capacity] is the power of two [2 ^ k]. *)
Variable k : Z.

Definition RCapacity : Z := 2 ^ k.
Definition kMask : Z := RCapacity - 1.

Record ring := mkring { rb_data_ : list T; head_ : Z; count_ : Z }.

Definition ring_init (d : T) : ring := mkring (replicate (Z.to_nat RCapacity) d) 0 0.

Definition rslot (i : Z) : nat := Z.to_nat (Z.land i kMask).

(** ** Operations *)

(** Slots outside the array are [None]: an access there would be undefined. *)
Definition push (item : T) (r : ring) : option ring :=
  let h := head_ r in
  _ ← rb_data_ r !! rslot h;
  let c := count_ r in
  Some (mkring (<[rslot h := item]> (rb_data_ r)) (u64 (h + 1)) (if c <? RCapacity then u64 (c + 1) else c)).

Definition at_ (offset : Z) (r : ring) : option (option T) :=
  let h := head_ r in
  let c := count_ r in
  if c <=? offset then Some None
  else x ← rb_data_ r !! rslot (u64 (u64 (h - 1) - offset)); Some (Some x).

Definition front (r : ring) : option (option T) := at_ 0 r.

Definition back (r : ring) : option (option T) :=
  let h := head_ r in
  let c := count_ r in
  if c =? 0 then Some None
  else x ← rb_data_ r !! rslot (u64 (u64 (h - 1) - u64 (c - 1))); Some (Some x).

Definition rcount (r : ring) : Z := count_ r.
Definition rfull (r : ring) : bool := count_ r =? RCapacity.
Definition rempty (r : ring) : bool := count_ r =? 0.
Definition rclear (r : ring) : ring := mkring (rb_data_ r) 0 0.

(** ** The history a ring holds *)

Hypothesis Hk : 0 <= k <= 63.

(** [hs] are the elements pushed since the last [clear], oldest first. *)
Record holds_history (r : ring) (hs : list T) : Prop := {
  hh_len : zlen (rb_data_ r) = RCapacity;
  hh_head : head_ r = u64 (zlen hs);
  hh_count : count_ r = Z.min (zlen hs) RCapacity;
  hh_data : forall i x, hs !! i = Some x -> zlen hs - RCapacity <= Z.of_nat i ->
    rb_data_ r !! Z.to_nat (Z.of_nat i mod RCapacity) = Some x;
}.

Lemma RCapacity_pos : 0 < RCapacity <= 2 ^ 63.
Proof using Hk.
  unfold RCapacity. split; [apply Z.pow_pos_nonneg; lia|apply Z.pow_le_mono_r; lia].
Qed.

Lemma rslot_u64 i : rslot (u64 i) = Z.to_nat (i mod RCapacity).
Proof using Hk. unfold rslot, kMask, RCapacity. rewrite wrap_land_mask by lia. done. Qed.

Lemma rslot_range i : 0 <= i mod RCapacity < RCapacity.
Proof using Hk. apply Z.mod_pos_bound, RCapacity_pos. Qed.

Lemma ring_init_history d : holds_history (ring_init d) [].
Proof using Hk.
  pose proof RCapacity_pos. constructor; cbn; try done.
  - unfold zlen. rewrite length_replicate. lia.
  - unfold zlen. cbn. lia.
Qed.

(** Positions less than [Capacity] apart fall on different slots. *)
Lemma mod_far a b : 0 < b - a < RCapacity -> a mod RCapacity <> b mod RCapacity.
Proof using Hk.
  intros H E. pose proof RCapacity_pos.
  assert ((b - a) mod RCapacity = 0) as Hz by (rewrite Zminus_mod, E, Z.sub_diag; apply Z.mod_0_l; lia).
  rewrite Z.mod_small in Hz; lia.
Qed.

Lemma push_spec item r hs :
  holds_history r hs -> exists r', push item r = Some r' /\ holds_history r' (hs ++ [item]).
Proof using Hk.
  intros [Hl Hh Hc Hd]. pose proof RCapacity_pos. pose proof (rslot_range (zlen hs)).
  unfold push. rewrite Hh, rslot_u64.
  destruct (lookup_lt_is_Some_2 (rb_data_ r) (Z.to_nat (zlen hs mod RCapacity))) as [y ->];
    [unfold zlen in Hl; lia|].
  eexists; split; [done|]. constructor; cbn.
  - unfold zlen. by rewrite length_insert.
  - zlens. by rewrite wrap_add_wrap_l by lia.
  - zlens. pose proof (zlen_nonneg hs). rewrite Hc. zdecides.
    destruct (Z.ltb_spec (Z.min (zlen hs) RCapacity) RCapacity); [rewrite wrap_small by lia|]; lia.
  - zlens. intros i x Hi Hn. apply lookup_app_Some in Hi as [Hi|[Hge Hi]].
    + pose proof (lookup_lt_Some _ _ _ Hi). rewrite list_lookup_insert_ne.
      * apply Hd; [done|lia].
      * intros E. pose proof (rslot_range (Z.of_nat i)).
        apply (mod_far (Z.of_nat i) (zlen hs)); unfold zlen in *; lia.
    + apply list_lookup_singleton_Some in Hi as [Hi <-].
      replace (Z.of_nat i) with (zlen hs) by (unfold zlen; lia).
      rewrite list_lookup_insert_eq; [done|]. unfold zlen in *. lia.
Qed.

(** The element [j] positions from the newest, at the index the code computes. *)
Lemma history_slot r hs j :
  holds_history r hs -> 0 <= j < Z.min (zlen hs) RCapacity ->
  exists x, rb_data_ r !! Z.to_nat ((zlen hs - 1 - j) mod RCapacity) = Some x /\
    reverse hs !! Z.to_nat j = Some x.
Proof.
  intros [Hl Hh Hc Hd] Hj.
  destruct (lookup_lt_is_Some_2 hs (Z.to_nat (zlen hs - 1 - j))) as [x Hx]; [unfold zlen in *; lia|].
  exists x. split.
  - rewrite <- (Z2Nat.id (zlen hs - 1 - j)) at 1 by lia. apply Hd; [done|lia].
  - rewrite reverse_lookup by (unfold zlen in *; lia). rewrite <- Hx. f_equal. unfold zlen in *. lia.
Qed.

Lemma at_spec offset r hs :
  holds_history r hs -> 0 <= offset ->
  at_ offset r = Some (if offset <? Z.min (zlen hs) RCapacity then reverse hs !! Z.to_nat offset else None).
Proof using Hk.
  intros H Ho. destruct (H) as [Hl Hh Hc Hd]. unfold at_. rewrite Hh, Hc.
  destruct (Z.ltb_spec offset (Z.min (zlen hs) RCapacity)); zdecides; [|done].
  destruct (history_slot r hs offset H ltac:(lia)) as (x & Hx & Hr).
  rewrite (wrap_sub_wrap_l 64 (zlen hs)), wrap_sub_wrap_l, rslot_u64 by lia.
  by rewrite Hx, Hr.
Qed.

Lemma back_spec r hs :
  holds_history r hs ->
  back r = Some (if 0 <? zlen hs then reverse hs !! Z.to_nat (Z.min (zlen hs) RCapacity - 1) else None).
Proof using Hk.
  intros H. destruct (H) as [Hl Hh Hc Hd]. pose proof RCapacity_pos. pose proof (zlen_nonneg hs).
  unfold back. rewrite Hh, Hc. destruct (Z.ltb_spec 0 (zlen hs)); zdecides; [|done].
  destruct (history_slot r hs (Z.min (zlen hs) RCapacity - 1) H ltac:(lia)) as (x & Hx & Hr).
  rewrite (wrap_small 64 (Z.min _ _ - 1)), (wrap_sub_wrap_l 64 (zlen hs)), wrap_sub_wrap_l, rslot_u64 by lia. by rewrite Hx, Hr.
Qed.

Inductive rop := RPush (x : T) | RAt (offset : Z) | RFront | RBack | RClear.
Definition rop_ok (o : rop) : Prop := match o with RAt offset => 0 <= offset | _ => True end.

Definition rexec (o : rop) (r : ring) : option (option T * ring) :=
  match o with
  | RPush x => r ← push x r; Some (None, r)
  | RAt offset => x ← at_ offset r; Some (x, r)
  | RFront => x ← front r; Some (x, r)
  | RBack => x ← back r; Some (x, r)
  | RClear => Some (None, rclear r)
  end.

Fixpoint rexec_all (os : list rop) (r : ring) : option (list (option T) * ring) :=
  match os with
  | [] => Some ([], r)
  | o :: os => '(x, r) ← rexec o r; '(xs, r) ← rexec_all os r; Some (x :: xs, r)
  end.

(** The contract: the window of the last [Capacity] elements, newest first. *)
Definition window_step (o : rop) (w : list T) : option T * list T :=
  match o with
  | RPush x => (None, take (Z.to_nat RCapacity) (x :: w))
  | RAt offset => (w !! Z.to_nat offset, w)
  | RFront => (list.head w, w)
  | RBack => (list.last w, w)
  | RClear => (None, [])
  end.

Fixpoint window_run (os : list rop) (w : list T) : list (option T) * list T :=
  match os with
  | [] => ([], w)
  | o :: os => let '(x, w) := window_step o w in let '(xs, w) := window_run os w in (x :: xs, w)
  end.

Definition window (hs : list T) : list T := take (Z.to_nat RCapacity) (reverse hs).

Lemma zlen_window hs : zlen (window hs) = Z.min (zlen hs) RCapacity.
Proof using Hk. pose proof RCapacity_pos. unfold window. rewrite zlen_take. unfold zlen. rewrite length_reverse. lia. Qed.

Lemma window_lookup hs j :
  0 <= j -> window hs !! Z.to_nat j = if j <? Z.min (zlen hs) RCapacity then reverse hs !! Z.to_nat j else None.
Proof using Hk.
  intros Hj. pose proof RCapacity_pos. unfold window. destruct (Z.ltb_spec j (Z.min (zlen hs) RCapacity)).
  - rewrite lookup_take_lt by lia. done.
  - destruct (decide (j < RCapacity)).
    + rewrite lookup_take_lt by lia. apply lookup_ge_None_2. rewrite length_reverse. unfold zlen in *. lia.
    + apply lookup_take_ge. lia.
Qed.

Lemma rexec_window o r hs :
  holds_history r hs -> rop_ok o ->
  exists x r' hs', rexec o r = Some (x, r') /\ holds_history r' hs' /\ window_step o (window hs) = (x, window hs').
Proof using Hk.
  intros H Ho. pose proof RCapacity_pos. destruct o as [x|offset| | |]; cbn [rexec rop_ok] in *.
  - destruct (push_spec x r hs H) as (r' & -> & H'). do 3 eexists. split; [done|]. split; [done|].
    cbn. f_equal. unfold window. rewrite reverse_snoc.
    destruct (Z.to_nat RCapacity) as [|n] eqn:E; [lia|]. cbn. by rewrite take_take, Nat.min_l by lia.
  - rewrite (at_spec offset r hs) by done. do 3 eexists. split; [done|]. split; [done|].
    cbn. by rewrite window_lookup.
  - unfold front. rewrite (at_spec 0 r hs) by done. do 3 eexists. split; [done|]. split; [done|].
    cbn. rewrite <- window_lookup by lia. by destruct (window hs).
  - rewrite (back_spec r hs) by done. do 3 eexists. split; [done|]. split; [done|].
    cbn. f_equal. rewrite list.last_lookup. pose proof (zlen_window hs) as Hz. pose proof (zlen_nonneg hs).
    replace (Nat.pred (length (window hs))) with (Z.to_nat (Z.min (zlen hs) RCapacity - 1)) by (unfold zlen in *; lia).
    destruct (Z.ltb_spec 0 (zlen hs)).
    + rewrite window_lookup by lia. by zdecides.
    + apply lookup_ge_None_2. unfold zlen in *. lia.
  - exists None, (rclear r), []. split; [done|].
    split; [|unfold window; cbn; by rewrite take_nil]. destruct H. constructor; cbn; try done.
    change (zlen (@nil T)) with 0. lia.
Qed.

(** the ring buffer is the window of the last [Capacity] elements.  From a
    fresh buffer, any sequence of operations runs to completion inside the array
    and answers as that window, newest element first; [count], [full] and [empty]
    report its length.  The write position may wrap around 64 bits. *)
Theorem ring_buffer_is_window d os :
  Forall rop_ok os ->
  exists xs r w, rexec_all os (ring_init d) = Some (xs, r) /\ window_run os [] = (xs, w) /\
    rcount r = zlen w /\ rfull r = (zlen w =? RCapacity) /\ rempty r = (zlen w =? 0).
Proof using Hk.
  intros Hos. pose proof (ring_init_history d) as H. revert H.
  assert (window_run os [] = window_run os (window [])) as -> by (unfold window; cbn; by rewrite take_nil).
  generalize (ring_init d) as r, (@nil T) as hs.
  induction Hos as [|o os Ho _ IH]; intros r hs H.
  - exists [], r, (window hs). split; [done|]. split; [done|].
    unfold rcount, rfull, rempty. by rewrite (hh_count _ _ H), zlen_window.
  - destruct (rexec_window o r hs H Ho) as (x & r1 & hs1 & E & H1 & Ew).
    destruct (IH r1 hs1 H1) as (xs & r2 & w & E2 & Ew2 & Hc).
    exists (x :: xs), r2, w. cbn [rexec_all window_run]. rewrite E, Ew. cbn [mbind option_bind]. rewrite E2, Ew2.
    done.
Qed.

(** ** A reader beside the writer *)

(** The shared accesses of [push]: element, head, count (in that order). *)
Inductive push_pc := PushIdle | PushData (x : T) | PushHead (h : Z) | PushCount.
Definition push_step (pc : push_pc) (r : ring) : option (push_pc * ring) :=
  match pc with
  | PushIdle => None
  | PushData x =>
      let h := head_ r in
      Some (PushHead h, mkring (<[rslot h := x]> (rb_data_ r)) h (count_ r))
  | PushHead h => Some (PushCount, mkring (rb_data_ r) (u64 (h + 1)) (count_ r))
  | PushCount =>
      let c := count_ r in
      Some (PushIdle, mkring (rb_data_ r) (head_ r) (if c <? RCapacity then u64 (c + 1) else c))
  end.

(** The shared accesses of [at]: head, count, element (in that order). *)
Inductive at_pc := AtIdle | AtHead (offset : Z) | AtCount (offset h : Z) | AtData (idx : Z).
Definition at_step (pc : at_pc) (r : ring) : option (at_pc * list (option T)) :=
  match pc with
  | AtIdle => None
  | AtHead offset => Some (AtCount offset (head_ r), [])
  | AtCount offset h =>
      if count_ r <=? offset then Some (AtIdle, [None])
      else Some (AtData (u64 (u64 (h - 1) - offset)), [])
  | AtData idx => x ← rb_data_ r !! rslot idx; Some (AtIdle, [Some x])
  end.

Record rsys := mkrsys {
  rs_ring : ring; rs_push : push_pc; rs_at : at_pc; rs_pushed : list T; rs_got : list (option T);
}.
Definition rsys_init (d : T) : rsys := mkrsys (ring_init d) PushIdle AtIdle [] [].

Inductive rstep : rsys -> rsys -> Prop :=
| rstep_push s x :
    rs_push s = PushIdle ->
    rstep s (mkrsys (rs_ring s) (PushData x) (rs_at s) (rs_pushed s ++ [x]) (rs_got s))
| rstep_writer s pc r :
    push_step (rs_push s) (rs_ring s) = Some (pc, r) ->
    rstep s (mkrsys r pc (rs_at s) (rs_pushed s) (rs_got s))
| rstep_at s offset :
    rs_at s = AtIdle -> 0 <= offset ->
    rstep s (mkrsys (rs_ring s) (rs_push s) (AtHead offset) (rs_pushed s) (rs_got s))
| rstep_reader s pc out :
    at_step (rs_at s) (rs_ring s) = Some (pc, out) ->
    rstep s (mkrsys (rs_ring s) (rs_push s) pc (rs_pushed s) (rs_got s ++ out)).

End ring_buffer.

(** ** Witnesses *)

Lemma ring_buffer_is_window_witness :
  let os := [RPush 1; RPush 2; RPush 3; RAt 1; RBack; RPush 4; RPush 5; RFront; RBack; RAt 4; RClear; RFront] in
  Forall rop_ok os /\
  exists xs r w, rexec_all 2 os (ring_init 2 0) = Some (xs, r) /\ window_run 2 os [] = (xs, w) /\
    rcount r = zlen w /\ rfull 2 r = (zlen w =? RCapacity 2) /\ rempty r = (zlen w =? 0).
Proof.
  intros os. assert (Forall rop_ok os) as Ho by (repeat constructor; cbn; lia).
  split; [exact Ho|]. apply (ring_buffer_is_window 2); [lia|exact Ho].
Defined.

(** A reader beside the writer can get an element that was never pushed.  The
    comment in [at] promises at worst a slightly stale element; but with the head
    loaded before and the count after the very first [push], offset 0 passes the
    test and reads the slot before position 0, which holds the default value. *)
Theorem ring_at_unwritten :
  exists s, rtc (rstep 2) (rsys_init 2 0) s /\ rs_pushed s = [7] /\ rs_got s = [Some 0].
Proof.
  exists (mkrsys (mkring [7; 0; 0; 0] 1 1) PushIdle AtIdle [7] [Some 0]). split; [|done].
  eapply rtc_l; [by apply (rstep_at _ _ 0)|]. eapply rtc_l; [by eapply rstep_reader|].
  eapply rtc_l; [by apply (rstep_push _ _ 7)|]. cbn.
  do 3 (eapply rtc_l; [by eapply rstep_writer|]; cbn).
  do 2 (eapply rtc_l; [by eapply rstep_reader|]; cbn). apply rtc_refl.
Qed.
