(* ===== verification/Codecs.v ===== *)
(** * Codecs: packet views, the output buffer and the stateless codecs

    The interfaces of eph-core (error.hpp, packet_view.hpp, codec.hpp) and the
    codecs of eph-codec without protocol state: LengthPrefixCodec, RawStreamCodec
    and RawDatagramCodec.  [ErrorInfo] is modelled by its code; its detail string
    is log text. *)

From S2P Require Import Prelude.

#[local] Open Scope Z_scope.

(** ** error.hpp *)

Inductive Error : Set :=
| EOk | ConnectFailed | Disconnected | Timeout | NotAttached
| TlsHandshakeFailed | TlsRecordBad | TlsCipherFailed
| WsHandshakeFailed | WsFrameBad | WsCloseReceived
| CodecBad | CodecOverflow
| WouldBlock | BufferFull
| InvalidConfig | OutOfMemory
| ProxyConnectFailed | ProxyHandshakeFailed | ProxyAuthRequired
| NotFound | DaemonDisconnected.

#[export] Instance Error_eq_dec : EqDecision Error.
Proof. solve_decision. Defined.

(** ** packet_view.hpp *)

(** [window v] is the memory [data()] points to, [length()] bytes of it. *)
Class PacketView (V : Type) := {
  window : V -> list byte;
  vlength : V -> Z;
  trim_front : Z -> V -> V;
  trim_back : Z -> V -> V;
}.

(** What every view promises the codecs. *)
Class PacketViewLaws (V : Type) `{PacketView V} := {
  view_wf : V -> Prop;
  vlength_window v : view_wf v -> vlength v = zlen (window v);
  trim_front_wf n v : view_wf v -> 0 <= n -> view_wf (trim_front n v);
  trim_front_window n v : view_wf v -> 0 <= n -> window (trim_front n v) = drop (Z.to_nat n) (window v);
  trim_back_wf n v : view_wf v -> 0 <= n -> view_wf (trim_back n v);
  trim_back_window n v : view_wf v -> 0 <= n ->
    window (trim_back n v) = take (Z.to_nat (zlen (window v) - n)) (window v);
}.

(** ** span_packet_view.hpp *)

Record SpanPacketView := mkSpan {
  spv_base : list byte;
  spv_head : Z;
  spv_tail : Z;
}.

Definition spv_init (base : list byte) : SpanPacketView := mkSpan base 0 (zlen base).
Definition spv_length (v : SpanPacketView) : Z := spv_tail v - spv_head v.
Definition spv_data (v : SpanPacketView) : list byte :=
  take (Z.to_nat (spv_length v)) (drop (Z.to_nat (spv_head v)) (spv_base v)).
Definition spv_trim_front (n : Z) (v : SpanPacketView) : SpanPacketView :=
  let room := spv_tail v - spv_head v in
  mkSpan (spv_base v) (spv_head v + (if room <? n then room else n)) (spv_tail v).
Definition spv_trim_back (n : Z) (v : SpanPacketView) : SpanPacketView :=
  let room := spv_tail v - spv_head v in
  mkSpan (spv_base v) (spv_head v) (spv_tail v - (if room <? n then room else n)).

#[export] Instance span_view : PacketView SpanPacketView :=
  {| window := spv_data; vlength := spv_length; trim_front := spv_trim_front; trim_back := spv_trim_back |}.

Definition span_wf (v : SpanPacketView) : Prop :=
  0 <= spv_head v <= spv_tail v /\ spv_tail v <= zlen (spv_base v).

#[export] Instance span_view_laws : PacketViewLaws SpanPacketView.
Proof.
  refine {| view_wf := span_wf |}; unfold span_wf; intros.
  - cbn. unfold spv_data, spv_length. zlens. lia.
  - cbn. unfold span_wf, spv_trim_front. cbn. zbool; lia.
  - cbn. unfold spv_data, spv_trim_front, spv_length. cbn.
    destruct (Z.ltb_spec (spv_tail v - spv_head v) n).
    + rewrite (drop_ge (take _ _)) by (rewrite length_take; lia).
      replace (spv_tail v - (spv_head v + (spv_tail v - spv_head v))) with 0 by lia. done.
    + rewrite skipn_firstn_comm, drop_drop. f_equal; [lia|]. f_equal. lia.
  - cbn. unfold span_wf, spv_trim_back. cbn. zbool; lia.
  - cbn. assert (zlen (spv_data v) = spv_tail v - spv_head v) as ->
      by (unfold spv_data, spv_length; zlens; lia).
    unfold spv_data, spv_trim_back, spv_length. cbn.
    rewrite take_take. f_equal. zbool; lia.
Defined.

(** ** OutputBuffer *)

(** [base_] is the writable region; [cap_] is its size. *)
Record OutputBuffer := mkOut { ob_base : list byte; ob_cap : Z; ob_len : Z }.

Definition ob_init (base : list byte) : OutputBuffer := mkOut base (zlen base) 0.

Definition ob_append (src : list byte) (o : OutputBuffer) : option (expected unit Error * OutputBuffer) :=
  if u64 (ob_cap o - ob_len o) <? zlen src then Some (Err BufferFull, o) else
  if zlen src =? 0 then Some (Ok tt, o) else
  b ← wr (ob_base o) (ob_len o) src;
  Some (Ok tt, mkOut b (ob_cap o) (ob_len o + zlen src)).

Definition ob_reserve (n : Z) (o : OutputBuffer) : expected unit Error :=
  if u64 (ob_cap o - ob_len o) <? n then Err BufferFull else Ok tt.

(** The offset of the tail, [None] for a null pointer. *)
Definition ob_writable_tail (n : Z) (o : OutputBuffer) : option Z :=
  if u64 (ob_cap o - ob_len o) <? n then None else Some (ob_len o).

Definition ob_commit (n : Z) (o : OutputBuffer) : OutputBuffer :=
  mkOut (ob_base o) (ob_cap o) (u64 (ob_len o + n)).

Definition ob_available (o : OutputBuffer) : Z := u64 (ob_cap o - ob_len o).

Definition ob_committed (o : OutputBuffer) : list byte := take (Z.to_nat (ob_len o)) (ob_base o).

Definition ob_wf (o : OutputBuffer) : Prop :=
  ob_cap o = zlen (ob_base o) /\ 0 <= ob_len o <= ob_cap o /\ ob_cap o <= SIZE_MAX.

Lemma ob_append_spec src o :
  ob_wf o ->
  if zlen src <=? ob_cap o - ob_len o
  then exists o', ob_append src o = Some (Ok tt, o') /\ ob_wf o' /\ ob_cap o' = ob_cap o /\
         ob_committed o' = ob_committed o ++ src
  else ob_append src o = Some (Err BufferFull, o).
Proof.
  intros (Hc & Hl & Hs). unfold SIZE_MAX in *. unfold ob_append. rewrite wrap_small by lia.
  destruct (Z.leb_spec (zlen src) (ob_cap o - ob_len o)); [|by zdecide].
  rewrite (proj2 (Z.ltb_ge _ _)) by lia. destruct (Z.eqb_spec (zlen src) 0).
  - destruct src; [|zlens; pose proof (zlen_nonneg src); lia].
    exists o. rewrite app_nil_r. by split_and!.
  - assert (zlen (ob_committed o) = ob_len o) as Hcl by (unfold ob_committed; zlens; lia).
    assert (wr (ob_base o) (ob_len o) src =
      Some (ob_committed o ++ src ++ drop (length src) (drop (Z.to_nat (ob_len o)) (ob_base o)))) as E.
    { rewrite <- (take_drop (Z.to_nat (ob_len o)) (ob_base o)) at 1. by apply wr_app; zlens; lia. }
    rewrite E.
    cbn [mbind option_bind]. eexists; split; [done|]. split_and!; try done.
    + pose proof (zlen_nonneg src). unfold ob_wf, SIZE_MAX. cbn. zlens. unfold zlen in *. lia.
    + unfold ob_committed at 1. cbn. rewrite app_assoc.
      apply take_app_length'. rewrite length_app. unfold zlen in *. lia.
Qed.

(** ** codec.hpp: the StreamCodec concept *)

Class StreamCodec (C : Type) := {
  sc_decode : forall {V} `{PacketView V},
    C -> V -> OutputBuffer -> option (expected (option (list byte)) Error * C * V * OutputBuffer);
  sc_encode : C -> list byte -> list byte -> option (expected Z Error * C * list byte);
}.

(** What a stream codec promises the receive loop: from a good state it never
    leaves the memory it is given, it stays in a good state, and it only consumes
    bytes from the front of the view. *)
Class StreamCodecLaws (C : Type) `{StreamCodec C} := {
  sc_inv : C -> Prop;
  sc_decode_safe {V} `{PacketViewLaws V} c (v : V) o :
    sc_inv c -> view_wf v -> ob_wf o ->
    exists r c' v' o', sc_decode c v o = Some (r, c', v', o') /\
      sc_inv c' /\ view_wf v' /\ ob_wf o' /\
      exists n, 0 <= n /\ window v' = drop (Z.to_nat n) (window v);
}.

(** ** LengthPrefixCodec *)

Module LengthPrefixCodec.

Inductive codec : Set := mk.

Definition lpc_max_overhead : Z := 4.
Definition kMaxFrameLen : Z := 16 * 1024 * 1024.

Definition lpc_decode {V} `{PacketView V} (c : codec) (view : V) (out : OutputBuffer)
    : option (expected (option (list byte)) Error * codec * V * OutputBuffer) :=
  let avail := vlength view in
  if avail <? 4 then Some (Ok None, c, view, out) else
  let p := window view in
  p0 ← rd p 0;
  p1 ← rd p 1;
  p2 ← rd p 2;
  p3 ← rd p 3;
  let payload_len :=
    Z.lor (Z.lor (Z.lor (Z.shiftl (b2z p0) 24) (Z.shiftl (b2z p1) 16)) (Z.shiftl (b2z p2) 8)) (b2z p3) in
  if kMaxFrameLen <? payload_len then Some (Err CodecOverflow, c, view, out) else
  let needed := 4 + payload_len in
  if avail <? needed then Some (Ok None, c, view, out) else
  frame ← slice p 4 payload_len;
  Some (Ok (Some frame), c, trim_front needed view, out).

Definition lpc_encode (c : codec) (buf payload : list byte) : option (expected Z Error * codec * list byte) :=
  let cap := zlen buf in
  if kMaxFrameLen <? zlen payload then Some (Err CodecOverflow, c, buf) else
  let needed := 4 + zlen payload in
  if cap <? needed then Some (Err BufferFull, c, buf) else
  let n := u32 (zlen payload) in
  buf ← wr buf 0 [z2b (Z.land (Z.shiftr n 24) 255)];
  buf ← wr buf 1 [z2b (Z.land (Z.shiftr n 16) 255)];
  buf ← wr buf 2 [z2b (Z.land (Z.shiftr n 8) 255)];
  buf ← wr buf 3 [z2b (Z.land n 255)];
  if zlen payload =? 0 then Some (Ok needed, c, buf) else
  buf ← wr buf 4 payload;
  Some (Ok needed, c, buf).

#[global] Instance stream : StreamCodec codec := {| sc_decode := @lpc_decode; sc_encode := lpc_encode |}.

Definition lpc_wire (payload : list byte) : list byte := be_bytes 4 (zlen payload) ++ payload.

Lemma be4_val p0 p1 p2 p3 :
  Z.lor (Z.lor (Z.lor (Z.shiftl (b2z p0) 24) (Z.shiftl (b2z p1) 16)) (Z.shiftl (b2z p2) 8)) (b2z p3)
  = be_val [p0; p1; p2; p3].
Proof.
  change (be_val [p0; p1; p2; p3]) with
    (Z.lor (Z.shiftl (Z.lor (Z.shiftl (Z.lor (Z.shiftl (b2z p0) 8) (b2z p1)) 8) (b2z p2)) 8) (b2z p3)).
  rewrite !Z.shiftl_lor, !Z.shiftl_shiftl by lia. done.
Qed.

Section generic_view.
Context {V : Type} `{PacketViewLaws V}.
Implicit Types v : V.

(** Decoding once the header is there. *)
Lemma decode_header c v o bs rest :
  view_wf v -> window v = bs ++ rest -> length bs = 4%nat ->
  lpc_decode c v o =
    if kMaxFrameLen <? be_val bs then Some (Err CodecOverflow, c, v, o) else
    if zlen rest <? be_val bs then Some (Ok None, c, v, o) else
    Some (Ok (Some (take (Z.to_nat (be_val bs)) rest)), c, trim_front (4 + be_val bs) v, o).
Proof.
  intros Hv Hw Hb. unfold lpc_decode. rewrite vlength_window, Hw by done.
  pose proof (zlen_nonneg rest). assert (zlen bs = 4) as Hz by (unfold zlen; lia).
  zlens. rewrite Hz. zdecide.
  destruct bs as [|p0 [|p1 [|p2 [|p3 [|]]]]]; try done. cbn [app].
  change (rd (p0 :: _) 0) with (Some p0). change (rd (p0 :: _) 1) with (Some p1).
  change (rd (p0 :: _) 2) with (Some p2). change (rd (p0 :: _) 3) with (Some p3).
  cbn [mbind option_bind]. rewrite be4_val. pose proof (be_val_bound [p0; p1; p2; p3]).
  destruct (kMaxFrameLen <? _); [done|].
  destruct (Z.ltb_spec (zlen rest) (be_val [p0; p1; p2; p3])); zdecide; [done|].
  rewrite slice_Some by (zlens; lia). done.
Qed.

Lemma decode_short c v o :
  view_wf v -> zlen (window v) < 4 -> lpc_decode c v o = Some (Ok None, c, v, o).
Proof. intros. unfold lpc_decode. rewrite vlength_window by done. by zdecide. Qed.

Lemma decode_safe c v o :
  view_wf v -> ob_wf o ->
  exists r c' v' o', lpc_decode c v o = Some (r, c', v', o') /\ view_wf v' /\ ob_wf o' /\
    exists n, 0 <= n /\ window v' = drop (Z.to_nat n) (window v).
Proof.
  intros Hv Ho. destruct (decide (zlen (window v) < 4)).
  - rewrite decode_short by done. do 4 eexists; split; [done|]. split_and!; try done. exists 0. by rewrite drop_0.
  - erewrite (decode_header c v o (take 4 (window v)) (drop 4 (window v)));
      [|done|by rewrite take_drop|rewrite length_take; unfold zlen in *; lia].
    pose proof (be_val_bound (take 4 (window v))).
    destruct (_ <? _); [|destruct (_ <? _)]; do 4 eexists; (split; [done|]); split_and!; try done;
      try by (exists 0; rewrite drop_0).
    + apply trim_front_wf; [done|lia].
    + exists (4 + be_val (take 4 (window v))). split; [lia|]. rewrite trim_front_window by (done || lia). done.
Qed.

Lemma decode_wire c v o pl rest :
  view_wf v -> zlen pl <= kMaxFrameLen -> window v = lpc_wire pl ++ rest ->
  exists v', lpc_decode c v o = Some (Ok (Some pl), c, v', o) /\ view_wf v' /\ window v' = rest.
Proof.
  unfold kMaxFrameLen. intros Hv Hp Hw. pose proof (zlen_nonneg pl). pose proof (zlen_nonneg rest).
  unfold lpc_wire in Hw. rewrite <- app_assoc in Hw.
  rewrite (decode_header c v o _ _ Hv Hw) by apply length_be_bytes.
  rewrite be_val_be_bytes_small by (change (256 ^ Z.of_nat 4) with 4294967296; lia).
  unfold kMaxFrameLen. zlens. rewrite (proj2 (Z.ltb_ge (16 * 1024 * 1024) _)), (proj2 (Z.ltb_ge _ (zlen pl))) by lia.
  exists (trim_front (4 + zlen pl) v). split; [|split; [apply trim_front_wf; [done|lia]|]].
  - unfold zlen. rewrite Nat2Z.id, take_app_length. done.
  - rewrite trim_front_window, Hw by (done || lia). rewrite app_assoc, drop_app_length'; [done|].
    rewrite length_app, length_be_bytes. unfold zlen. lia.
Qed.

End generic_view.

Lemma encode_spec c buf pl :
  zlen pl <= kMaxFrameLen -> 4 + zlen pl <= zlen buf ->
  lpc_encode c buf pl = Some (Ok (zlen (lpc_wire pl)), c, lpc_wire pl ++ drop (length (lpc_wire pl)) buf).
Proof.
  unfold kMaxFrameLen. intros Hp Hb. pose proof (zlen_nonneg pl). unfold lpc_encode, kMaxFrameLen.
  rewrite (proj2 (Z.ltb_ge _ (zlen pl))), (proj2 (Z.ltb_ge (zlen buf) _)) by lia.
  rewrite wrap_small by lia. rewrite !wr_bind by done. cbn [app].
  assert ([z2b (Z.land (Z.shiftr (zlen pl) 24) 255); z2b (Z.land (Z.shiftr (zlen pl) 16) 255);
           z2b (Z.land (Z.shiftr (zlen pl) 8) 255); z2b (Z.land (zlen pl) 255)] = be_bytes 4 (zlen pl)) as ->.
  { rewrite !z2b_land. cbn [be_bytes]. by rewrite Z.shiftr_0_r. }
  rewrite wr_0 by (zlens; lia). cbn [mbind option_bind]. unfold lpc_wire.
  replace (zlen (be_bytes 4 (zlen pl) ++ pl)) with (4 + zlen pl) by (zlens; lia).
  destruct (Z.eqb_spec (zlen pl) 0).
  - destruct pl; [|zlens; pose proof (zlen_nonneg pl); lia]. by rewrite app_nil_r.
  - rewrite wr_app by (zlens; rewrite ?length_be_bytes; lia). cbn [mbind option_bind].
    rewrite length_be_bytes, drop_drop, length_app, length_be_bytes, <- app_assoc. done.
Qed.

End LengthPrefixCodec.

#[export] Instance length_prefix_codec_laws : StreamCodecLaws LengthPrefixCodec.codec.
Proof.
  refine {| sc_inv _ := True |}. intros V HV HL c v o _ Hv Ho.
  destruct (LengthPrefixCodec.decode_safe c v o Hv Ho) as (r & c' & v' & o' & E & Hr).
  exists r, c', v', o'. split; [exact E|]. by split.
Defined.

(** ** RawStreamCodec and RawDatagramCodec *)

Module RawStreamCodec.

Inductive codec : Set := mk.

Definition rsc_decode {V} `{PacketView V} (c : codec) (view : V) (out : OutputBuffer)
    : option (expected (option (list byte)) Error * codec * V * OutputBuffer) :=
  let n := vlength view in
  if n =? 0 then Some (Ok None, c, view, out) else
  frame ← slice (window view) 0 n;
  Some (Ok (Some frame), c, trim_front n view, out).

Definition rsc_encode (c : codec) (buf payload : list byte) : option (expected Z Error * codec * list byte) :=
  if zlen buf <? zlen payload then Some (Err BufferFull, c, buf) else
  if zlen payload =? 0 then Some (Ok (zlen payload), c, buf) else
  buf ← wr buf 0 payload;
  Some (Ok (zlen payload), c, buf).

#[global] Instance stream : StreamCodec codec := {| sc_decode := @rsc_decode; sc_encode := rsc_encode |}.

End RawStreamCodec.

#[export] Instance raw_stream_codec_laws : StreamCodecLaws RawStreamCodec.codec.
Proof.
  refine {| sc_inv _ := True |}. intros V HV HL c v o _ Hv Ho. cbn. unfold RawStreamCodec.rsc_decode.
  rewrite vlength_window by done. pose proof (zlen_nonneg (window v)).
  destruct (zlen (window v) =? 0).
  - do 4 eexists; split; [done|]. split_and!; try done. exists 0. by rewrite drop_0.
  - rewrite slice_all by done. cbn [mbind option_bind]. do 4 eexists; split; [done|].
    split_and!; try done; [by apply trim_front_wf|].
    exists (zlen (window v)). split; [done|]. by apply trim_front_window.
Defined.

(** A datagram codec reports frames to a sink; an unset [std::function] is
    [false].  The list holds the frames handed to the sink. *)
Module RawDatagramCodec.

Definition rdc_decode {V} `{PacketView V} (dgram : V) (sink : bool)
    : option (expected Z Error * V * list (list byte)) :=
  let n := vlength dgram in
  if n =? 0 then Some (Err CodecBad, dgram, []) else
  frame ← slice (window dgram) 0 n;
  let dgram := trim_front n dgram in
  if negb sink then Some (Err InvalidConfig, dgram, []) else
  Some (Ok 1, dgram, [frame]).

Definition rdc_encode (buf payload : list byte) : option (expected Z Error * list byte) :=
  if zlen buf <? zlen payload then Some (Err BufferFull, buf) else
  if zlen payload =? 0 then Some (Ok (zlen payload), buf) else
  buf ← wr buf 0 payload;
  Some (Ok (zlen payload), buf).

End RawDatagramCodec.

(** ** The receive loop over a StreamCodec

    Decode until the codec asks for more bytes or fails; [fuel] bounds the number
    of frames. *)
Fixpoint drain {C V} `{StreamCodec C} `{PacketView V} (fuel : nat) (c : C) (v : V) (o : OutputBuffer)
    : option (list (list byte) * option Error * C * V * OutputBuffer) :=
  match fuel with
  | O => None
  | S fuel =>
      '(r, c, v, o) ← sc_decode c v o;
      match r with
      | Err e => Some ([], Some e, c, v, o)
      | Ok None => Some ([], None, c, v, o)
      | Ok (Some f) =>
          '(fs, e, c, v, o) ← drain fuel c v o;
          Some (f :: fs, e, c, v, o)
      end
  end.

(** ** Properties *)

(** [OutputBuffer::append] is all or nothing.  It appends the bytes after what
    is committed, or leaves the buffer unchanged with BufferFull exactly when they do
    not fit; it never writes outside the region. *)
Theorem output_buffer_append src o :
  ob_wf o ->
  if zlen src <=? ob_cap o - ob_len o
  then exists o', ob_append src o = Some (Ok tt, o') /\ ob_wf o' /\ ob_cap o' = ob_cap o /\
         ob_committed o' = ob_committed o ++ src
  else ob_append src o = Some (Err BufferFull, o).
Proof. apply ob_append_spec. Qed.

Lemma output_buffer_append_witness :
  ob_wf (mkOut [x01; x02; x03; x04] 4 1) /\
  exists o', ob_append [xaa; xbb] (mkOut [x01; x02; x03; x04] 4 1) = Some (Ok tt, o') /\ ob_wf o' /\
    ob_cap o' = 4 /\ ob_committed o' = [x01] ++ [xaa; xbb].
Proof.
  assert (ob_wf (mkOut [x01; x02; x03; x04] 4 1)) as Hw by (split_and!; try reflexivity; cbn; unfold SIZE_MAX; lia).
  split; [exact Hw|]. exact (output_buffer_append [xaa; xbb] _ Hw).
Defined.

(** LengthPrefixCodec round trip over a stream.  Messages encoded back to back
    and followed by an incomplete frame are delivered exactly, in order, and the
    incomplete bytes stay in the view for the next call. *)
Theorem length_prefix_codec_roundtrip {V} `{PacketViewLaws V} (v : V) o pls pl cut rest :
  view_wf v -> Forall (fun p => zlen p <= LengthPrefixCodec.kMaxFrameLen) (pl :: pls) ->
  LengthPrefixCodec.lpc_wire pl = cut ++ rest -> rest <> [] ->
  window v = concat (LengthPrefixCodec.lpc_wire <$> pls) ++ cut ->
  (forall p buf, In p pls -> 4 + zlen p <= zlen buf ->
     sc_encode LengthPrefixCodec.mk buf p =
       Some (Ok (zlen (LengthPrefixCodec.lpc_wire p)), LengthPrefixCodec.mk,
             LengthPrefixCodec.lpc_wire p ++ drop (length (LengthPrefixCodec.lpc_wire p)) buf)) /\
  exists v', drain (S (length pls)) LengthPrefixCodec.mk v o = Some (pls, None, LengthPrefixCodec.mk, v', o) /\
    window v' = cut.
Proof.
  intros Hv Hall Hpl Hrest Hw. apply Forall_cons_1 in Hall as [Hp Hall]. split.
  { intros p buf Hin Hb. apply LengthPrefixCodec.encode_spec; [|done].
    rewrite List.Forall_forall in Hall. by apply Hall. }
  revert v Hv Hw. induction Hall as [|q pls Hq Hall IH]; intros v Hv Hw.
  - cbn [fmap list_fmap concat app] in Hw. exists v. split; [|done]. cbn [length drain].
    cbn [sc_decode LengthPrefixCodec.stream].
    destruct (decide (zlen cut < 4)).
    { rewrite LengthPrefixCodec.decode_short by (rewrite ?Hw; done). done. }
    unfold LengthPrefixCodec.lpc_wire in Hpl.
    destruct cut as [|b0 [|b1 [|b2 [|b3 cut]]]]; try by (zlens; lia).
    cbn [be_bytes app] in Hpl. injection Hpl as <- <- <- <- Hpl.
    match type of Hw with window v = ?a :: ?b :: ?c :: ?d :: _ =>
      change (window v = be_bytes 4 (zlen pl) ++ cut) in Hw end.
    rewrite (LengthPrefixCodec.decode_header _ _ _ _ _ Hv Hw) by apply length_be_bytes.
    unfold LengthPrefixCodec.kMaxFrameLen in *. pose proof (zlen_nonneg pl).
    rewrite be_val_be_bytes_small by (change (256 ^ Z.of_nat 4) with 4294967296; lia).
    assert (0 < zlen rest) by (destruct rest; [done|zlens; pose proof (zlen_nonneg rest); lia]).
    assert (zlen pl = zlen cut + zlen rest) as Hz by (rewrite Hpl; by zlens).
    rewrite (proj2 (Z.ltb_ge _ _)), (proj2 (Z.ltb_lt _ _)) by lia. done.
  - rewrite fmap_cons in Hw. cbn [concat] in Hw. rewrite <- app_assoc in Hw.
    destruct (LengthPrefixCodec.decode_wire LengthPrefixCodec.mk v o q _ Hv Hq Hw) as (v1 & E & Hv1 & Hw1).
    destruct (IH v1 Hv1 Hw1) as (v2 & E2 & Hw2). exists v2. split; [|done].
    change (S (length (q :: pls))) with (S (S (length pls))). remember (S (length pls)) as n.
    cbn [drain]. change (sc_decode LengthPrefixCodec.mk v o) with (LengthPrefixCodec.lpc_decode LengthPrefixCodec.mk v o).
    rewrite E. cbn [mbind option_bind]. by rewrite E2.
Qed.

Lemma length_prefix_codec_roundtrip_witness :
  exists v', drain 3 LengthPrefixCodec.mk
      (spv_init [x00; x00; x00; x01; x61; x00; x00; x00; x00; x00; x00; x00; x02; x62]) (ob_init [])
    = Some ([[x61]; []], None, LengthPrefixCodec.mk, v', ob_init []) /\ window v' = [x00; x00; x00; x02; x62].
Proof.
  apply (length_prefix_codec_roundtrip
    (spv_init [x00; x00; x00; x01; x61; x00; x00; x00; x00; x00; x00; x00; x02; x62]) (ob_init [])
    [[x61]; []] [x62; x63] [x00; x00; x00; x02; x62] [x63]).
  - split_and!; cbn; try lia. done.
  - repeat constructor; vm_compute; discriminate.
  - reflexivity.
  - done.
  - reflexivity.
Defined.

(** An unset sink costs RawDatagramCodec its datagram.  The call fails with
    InvalidConfig and reports no frame, yet the view it leaves is empty: nothing
    remains to be retried. *)
Theorem raw_datagram_unset_sink_consumes {V} `{PacketViewLaws V} (v : V) :
  view_wf v -> window v <> [] ->
  exists v', RawDatagramCodec.rdc_decode v false = Some (Err InvalidConfig, v', []) /\ window v' = [].
Proof.
  intros Hv Hne. unfold RawDatagramCodec.rdc_decode. rewrite vlength_window by done.
  assert (0 < zlen (window v)).
  { destruct (window v) as [|b l]; [done|]. zlens. pose proof (zlen_nonneg l). lia. }
  zdecide. rewrite slice_all by done. cbn [mbind option_bind negb]. eexists; split; [done|].
  rewrite trim_front_window by (done || lia). apply drop_ge. unfold zlen. lia.
Qed.

Lemma raw_datagram_unset_sink_consumes_witness :
  exists v', RawDatagramCodec.rdc_decode (spv_init [x01; x02]) false = Some (Err InvalidConfig, v', []) /\
    window v' = [].
Proof.
  apply (raw_datagram_unset_sink_consumes (spv_init [x01; x02])); [split_and!; cbn; try lia; done|done].
Defined.
