(* ===== verification/Mold.v ===== *)
(** * Mold: MoldUDP64 parsing and sequence tracking

    moldudp64.hpp of eph-itch (header and message iteration) and Mold64Codec of
    eph-codec (gap detection, delivery, encoding). *)

From Stdlib Require Import Sorted.
From S2P Require Import Prelude.
From S2P Require Import Codecs.

#[local] Open Scope Z_scope.

Definition kSessionLen : Z := 10.
Definition kHeaderLen : Z := 20.
Definition kEndOfSession : Z := 65535.

(** [ParseError::kTruncated] is the only error the header parser returns. *)
Inductive ParseError : Set := kTruncated.

Record MoldUDP64Header := mkHdr {
  session : list byte;
  sequence_number : Z;
  message_count : Z;
}.

Definition parse_moldudp64_header (data : list byte) : option (expected MoldUDP64Header ParseError) :=
  let len := zlen data in
  if len <? kHeaderLen then Some (Err kTruncated) else
  session ← slice data 0 kSessionLen;
  seq ← read_be 8 data kSessionLen;
  count ← read_be 2 data (kSessionLen + 8);
  Some (Ok (mkHdr session seq count)).

(** Mold64Codec::Frame. *)
Record MoldFrame := mkFrame { seq_num : Z; mpayload : list byte }.

(** The message loop: [n] iterations left, at index [i] and [offset]; the calls
    of the callback, in order. *)
Fixpoint mold_messages (n : nat) (data : list byte) (seq i offset : Z) : option (list MoldFrame) :=
  match n with
  | O => Some []
  | S n =>
      let len := zlen data in
      if len <? offset + 2 then Some [] else
      msg_len ← read_be 2 data offset;
      let offset := offset + 2 in
      if len <? offset + msg_len then Some [] else
      msg ← slice data offset msg_len;
      rest ← mold_messages n data seq (i + 1) (offset + msg_len);
      Some (mkFrame (u64 (seq + i)) msg :: rest)
  end.

Definition parse_moldudp64 (data : list byte) : option (list MoldFrame) :=
  let len := zlen data in
  r ← parse_moldudp64_header data;
  match r with
  | Err _ => Some []
  | Ok hdr =>
      if message_count hdr =? kEndOfSession then Some [] else
      if UINT64_MAX - message_count hdr <? sequence_number hdr then Some [] else
      if len <? kHeaderLen + message_count hdr * 2 then Some [] else
      mold_messages (Z.to_nat (message_count hdr)) data (sequence_number hdr) 0 kHeaderLen
  end.

(** ** Mold64Codec *)

Record Mold64Codec := mkMold { expected_seq_ : Z; gaps_ : Z }.

Definition mold_init (initial_expected_seq : Z) : Mold64Codec := mkMold initial_expected_seq 0.

Definition mold_decode {V} `{PacketView V} (c : Mold64Codec) (dgram : V) (sink : bool)
    : option (expected Z Error * Mold64Codec * V * list MoldFrame) :=
  let len := vlength dgram in
  let data := window dgram in
  if negb sink then Some (Err InvalidConfig, c, dgram, []) else
  hdr ← parse_moldudp64_header data;
  match hdr with
  | Err _ => Some (Err CodecBad, c, trim_front len dgram, [])
  | Ok hdr =>
      if message_count hdr =? kEndOfSession then Some (Ok 0, c, trim_front len dgram, []) else
      let c := if expected_seq_ c <? sequence_number hdr
               then mkMold (expected_seq_ c) (u64 (gaps_ c + (sequence_number hdr - expected_seq_ c)))
               else c in
      frames ← parse_moldudp64 data;
      let delivered := zlen frames in
      let c := if expected_seq_ c <? u64 (sequence_number hdr + delivered)
               then mkMold (u64 (sequence_number hdr + delivered)) (gaps_ c) else c in
      Some (Ok delivered, c, trim_front len dgram, frames)
  end.

(** [for (int i = 0; i < 8; ++i) buf[10 + i] = (seq >> ((7 - i) * 8)) & 0xFF]. *)
Fixpoint put_seq (n : nat) (buf : list byte) (seq i : Z) : option (list byte) :=
  match n with
  | O => Some buf
  | S n =>
      buf ← wr buf (kSessionLen + i) [z2b (Z.land (Z.shiftr seq ((7 - i) * 8)) 255)];
      put_seq n buf seq (i + 1)
  end.

Definition mold_encode (buf : list byte) (f : MoldFrame) : option (expected Z Error * list byte) :=
  let cap := zlen buf in
  if 65535 <? zlen (mpayload f) then Some (Err CodecOverflow, buf) else
  let needed := kHeaderLen + 2 + zlen (mpayload f) in
  if cap <? needed then Some (Err BufferFull, buf) else
  buf ← wr buf 0 (replicate 10 x00);
  buf ← put_seq 8 buf (seq_num f) 0;
  buf ← wr buf (kSessionLen + 8) [x00];
  buf ← wr buf (kSessionLen + 9) [x01];
  let mlen := u16 (zlen (mpayload f)) in
  let msg_off := kHeaderLen in
  buf ← wr buf (msg_off + 0) [z2b (Z.land (Z.shiftr mlen 8) 255)];
  buf ← wr buf (msg_off + 1) [z2b (Z.land mlen 255)];
  if zlen (mpayload f) =? 0 then Some (Ok needed, buf) else
  src ← slice (mpayload f) 0 mlen;
  buf ← wr buf (msg_off + 2) src;
  Some (Ok needed, buf).

(** ** Header and messages *)

Lemma header_spec data :
  kHeaderLen <= zlen data ->
  exists s seq cnt, parse_moldudp64_header data = Some (Ok (mkHdr s seq cnt)) /\
    0 <= seq < 2 ^ 64 /\ 0 <= cnt < 65536 /\
    (forall a b c rest, data = a ++ b ++ c ++ rest -> length a = 10%nat -> length b = 8%nat ->
       length c = 2%nat -> s = a /\ seq = be_val b /\ cnt = be_val c).
Proof.
  unfold kHeaderLen. intros Hl. unfold parse_moldudp64_header, kHeaderLen, kSessionLen. zdecide.
  rewrite slice_Some by lia. cbn [mbind option_bind].
  rewrite read_be_spec by lia. cbn [mbind option_bind].
  rewrite read_be_spec by lia. cbn [mbind option_bind].
  do 3 eexists. split; [reflexivity|].
  assert (forall n m, 0 <= be_val (take n m) < 256 ^ Z.of_nat n) as Hb.
  { intros n m. pose proof (be_val_bound (take n m)). assert (length (take n m) <= n)%nat by (rewrite length_take; lia).
    assert (256 ^ Z.of_nat (length (take n m)) <= 256 ^ Z.of_nat n) by (apply Z.pow_le_mono_r; lia). lia. }
  split; [apply (Hb 8%nat)|]. split; [apply (Hb 2%nat)|].
  intros a b c rest -> Ha Hbl Hc. split_and!.
  - by rewrite drop_0, take_app_length'.
  - rewrite drop_app_length' by done. by rewrite take_app_length'.
  - rewrite app_assoc, drop_app_length' by (rewrite length_app; lia). by rewrite take_app_length'.
Qed.

(** Delivery: consecutive sequence numbers from the start, at most [n] of them. *)
Lemma mold_messages_spec n data seq i offset :
  0 <= offset -> 0 <= seq -> 0 <= i -> seq + i + Z.of_nat n < 2 ^ 64 ->
  exists fs, mold_messages n data seq i offset = Some fs /\ (length fs <= n)%nat /\
    forall j f, fs !! j = Some f -> seq_num f = seq + i + Z.of_nat j.
Proof.
  revert i offset. induction n as [|n IH]; intros i offset Ho Hs Hi Hn.
  - exists []. split_and!; try done. 
  - cbn [mold_messages]. destruct (Z.ltb_spec (zlen data) (offset + 2)).
    { exists []. split_and!; try done. simpl; lia. }
    rewrite read_be_spec by lia. cbn [mbind option_bind].
    pose proof (be_val_bound (take 2 (drop (Z.to_nat offset) data))) as Hm.
    set (msg_len := be_val _) in *. destruct (Z.ltb_spec (zlen data) (offset + 2 + msg_len)).
    { exists []. split_and!; try done. simpl; lia. }
    rewrite slice_Some by lia. cbn [mbind option_bind].
    destruct (IH (i + 1) (offset + 2 + msg_len)) as (fs & E & Hl & Hf); try lia.
    rewrite E. cbn [mbind option_bind]. eexists; split; [done|]. split; [simpl; lia|].
    intros [|j] f Hj; [injection Hj as <-; cbn; rewrite wrap_small; lia|].
    rewrite (Hf j f Hj). lia.
Qed.

(** A well-formed message block is delivered whole. *)
Definition mold_block (msgs : list (list byte)) : list byte :=
  concat ((fun m => be_bytes 2 (zlen m) ++ m) <$> msgs).

Definition mold_packet (s : list byte) (seq : Z) (msgs : list (list byte)) : list byte :=
  s ++ be_bytes 8 seq ++ be_bytes 2 (zlen msgs) ++ mold_block msgs.

Lemma mold_messages_block msgs pre seq i :
  Forall (fun m => zlen m < 65536) msgs ->
  0 <= seq -> 0 <= i -> seq + i + zlen msgs < 2 ^ 64 ->
  mold_messages (length msgs) (pre ++ mold_block msgs) seq i (zlen pre) =
    Some (imap (fun j m => mkFrame (seq + i + Z.of_nat j) m) msgs).
Proof.
  intros Hall. revert pre i. induction Hall as [|m msgs Hm Hall IH]; intros pre i Hs Hi Hn; [done|].
  unfold mold_block in *. rewrite fmap_cons in *. cbn [length mold_messages concat].
  pose proof (zlen_nonneg m). pose proof (zlen_nonneg pre). pose proof (zlen_nonneg msgs).
  rewrite <- app_assoc. set (tl := concat _) in *. pose proof (zlen_nonneg tl).
  zlens. change (Z.of_nat 2) with 2. rewrite (proj2 (Z.ltb_ge _ (zlen pre + 2))) by lia.
  assert (read_be 2 (pre ++ be_bytes 2 (zlen m) ++ m ++ tl) (zlen pre) = Some (zlen m)) as ->.
  { rewrite read_be_spec by (zlens; lia). unfold zlen at 1. rewrite Nat2Z.id, drop_app_length.
    rewrite take_app_length' by (by rewrite length_be_bytes). f_equal. by apply be_val_be_bytes_small. }
  cbn [mbind option_bind]. rewrite (proj2 (Z.ltb_ge _ (zlen pre + 2 + zlen m))) by lia.
  rewrite app_assoc, (slice_mid (pre ++ be_bytes 2 (zlen m)) m tl) by (zlens; lia). cbn [mbind option_bind].
  rewrite app_assoc.
  specialize (IH ((pre ++ be_bytes 2 (zlen m)) ++ m) (i + 1) Hs ltac:(lia) ltac:(lia)).
  replace (zlen pre + 2 + zlen m) with (zlen ((pre ++ be_bytes 2 (zlen m)) ++ m)) by (zlens; lia).
  rewrite IH. cbn [mbind option_bind]. rewrite imap_cons, wrap_small, Z.add_0_r by lia. do 2 f_equal.
  apply imap_ext. intros j x _. cbn. f_equal. lia.
Qed.

(** ** Encoding *)

Lemma put_seq_grow n i hdr out seq :
  zlen hdr = 10 + i -> i + Z.of_nat n = 8 -> zlen hdr + Z.of_nat n <= zlen out ->
  put_seq n (hdr ++ drop (length hdr) out) seq i =
    Some ((hdr ++ be_bytes n seq) ++ drop (length (hdr ++ be_bytes n seq)) out).
Proof.
  revert i hdr. induction n as [|n IH]; intros i hdr Hh Hi Hl.
  - cbn [put_seq be_bytes]. by rewrite app_nil_r.
  - cbn [put_seq be_bytes]. rewrite wr_grow by (unfold kSessionLen; zlens; lia). cbn [mbind option_bind].
    rewrite IH by (zlens; lia). rewrite z2b_land.
    replace ((7 - i) * 8) with (8 * Z.of_nat n) by lia. by rewrite <- (app_assoc hdr [_]).
Qed.

Lemma mold_encode_spec buf f :
  zlen (mpayload f) < 65536 -> 22 + zlen (mpayload f) <= zlen buf ->
  let p := mold_packet (replicate 10 x00) (seq_num f) [mpayload f] in
  mold_encode buf f = Some (Ok (zlen p), p ++ drop (length p) buf).
Proof.
  intros Hp Hb p. pose proof (zlen_nonneg (mpayload f)). unfold mold_encode, kHeaderLen.
  rewrite (proj2 (Z.ltb_ge 65535 _)), (proj2 (Z.ltb_ge (zlen buf) _)) by lia.
  set (h0 := replicate 10 x00). assert (zlen h0 = 10) as Hh0 by reflexivity.
  rewrite (wr_0 buf) by lia. cbn [mbind option_bind].
  rewrite (put_seq_grow 8 0) by lia. cbn [mbind option_bind].
  do 2 (rewrite wr_grow by (unfold kSessionLen; zlens; lia); cbn [mbind option_bind]).
  rewrite wrap_small by lia.
  do 2 (rewrite wr_grow by (zlens; lia); cbn [mbind option_bind]).
  assert (p = ((((((h0 ++ be_bytes 8 (seq_num f)) ++ [x00]) ++ [x01]) ++
     [z2b (Z.land (Z.shiftr (zlen (mpayload f)) 8) 255)]) ++ [z2b (Z.land (zlen (mpayload f)) 255)])
     ++ mpayload f)) as Epk.
  { unfold p, mold_packet, mold_block. rewrite fmap_cons, fmap_nil. cbn [concat]. rewrite app_nil_r.
    change (be_bytes 2 (zlen [mpayload f])) with ([x00] ++ [x01]). rewrite <- len_bytes_be.
    rewrite <- !app_assoc. done. }
  assert (zlen p = 20 + 2 + zlen (mpayload f)) as Hz by (rewrite Epk; zlens; lia).
  destruct (Z.eqb_spec (zlen (mpayload f)) 0).
  - destruct (mpayload f) as [|b l] eqn:Em; [|zlens; pose proof (zlen_nonneg l); lia].
    rewrite app_nil_r in Epk. rewrite <- Epk, Hz. done.
  - rewrite slice_all by done. cbn [mbind option_bind]. rewrite wr_grow by (zlens; lia).
    cbn [mbind option_bind]. rewrite <- Epk, Hz. done.
Qed.

(** ** Sequence tracking *)

(** What one datagram says: its first sequence number, if it carries one. *)
Definition mold_start (data : list byte) : option Z :=
  match parse_moldudp64_header data with
  | Some (Ok hdr) => if message_count hdr =? kEndOfSession then None else Some (sequence_number hdr)
  | _ => None
  end.

(** Missing messages the datagram reveals, and its frames not seen before. *)
Definition gap_of (c : Mold64Codec) (data : list byte) : Z :=
  match mold_start data with Some s => Z.max 0 (s - expected_seq_ c) | None => 0 end.
Definition fresh (c : Mold64Codec) (fs : list MoldFrame) : list MoldFrame :=
  filter (fun f => expected_seq_ c <= seq_num f) fs.

Definition mold_wf (c : Mold64Codec) : Prop :=
  0 <= expected_seq_ c < 2 ^ 64 /\ 0 <= gaps_ c <= expected_seq_ c.

Lemma parse_frames data :
  exists fs, parse_moldudp64 data = Some fs /\
    (fs <> [] -> exists s, mold_start data = Some s /\ s + zlen fs < 2 ^ 64 /\
       forall j f, fs !! j = Some f -> seq_num f = s + Z.of_nat j).
Proof.
  unfold parse_moldudp64, mold_start. destruct (Z.ltb_spec (zlen data) kHeaderLen) as [Hl|Hl].
  { unfold parse_moldudp64_header at 1. rewrite (proj2 (Z.ltb_lt _ _)) by lia. by exists []. }
  destruct (header_spec data Hl) as (s & seq & cnt & -> & Hs & Hc & _).
  cbn [mbind option_bind message_count sequence_number]. unfold UINT64_MAX.
  destruct (cnt =? kEndOfSession); [by exists []|].
  destruct (Z.ltb_spec (2 ^ 64 - 1 - cnt) seq); [by exists []|].
  destruct (zlen data <? _); [by exists []|].
  destruct (mold_messages_spec (Z.to_nat cnt) data seq 0 kHeaderLen) as (fs & E & Hf & Hq);
    [unfold kHeaderLen; lia|lia..|].
  exists fs. split; [done|]. intros _. exists seq. split; [done|]. split; [unfold zlen; lia|].
  intros j f Hj. rewrite (Hq j f Hj). lia.
Qed.

(** Consecutive sequence numbers: those at or past [e] are the last ones. *)
Lemma fresh_count fs e s :
  (forall j f, fs !! j = Some f -> seq_num f = s + Z.of_nat j) ->
  zlen (filter (fun f => e <= seq_num f) fs) = Z.max 0 (Z.min (zlen fs) (s + zlen fs - e)).
Proof.
  revert s. induction fs as [|f fs IH]; intros s Hq; [cbn; unfold zlen; simpl; lia|].
  assert (forall j g, fs !! j = Some g -> seq_num g = (s + 1) + Z.of_nat j) as Hq'.
  { intros j g Hj. rewrite (Hq (S j) g Hj). lia. }
  pose proof (Hq 0%nat f eq_refl) as Hf. rewrite filter_cons. specialize (IH (s + 1) Hq').
  pose proof (zlen_nonneg fs). destruct (decide (e <= seq_num f)); zlens; rewrite IH; lia.
Qed.

(** One datagram: no undefined behaviour, no wrap-around, and the counter moves
    past exactly the gap and the fresh frames. *)
Lemma mold_decode_step {V} `{PacketViewLaws V} c (v : V) :
  mold_wf c -> view_wf v ->
  exists r c' v' fs, mold_decode c v true = Some (r, c', v', fs) /\ mold_wf c' /\
    window v' = [] /\
    gaps_ c' = gaps_ c + gap_of c (window v) /\
    expected_seq_ c' = expected_seq_ c + gap_of c (window v) + zlen (fresh c fs) /\
    (fs <> [] -> exists s, mold_start (window v) = Some s /\
       forall j f, fs !! j = Some f -> seq_num f = s + Z.of_nat j).
Proof.
  intros Hwf Hv. destruct Hwf as [He Hg] eqn:Ewf. clear Ewf. unfold mold_decode. cbn [negb].
  pose proof (zlen_nonneg (window v)) as Hlen.
  assert (window (trim_front (vlength v) v) = []) as Hw.
  { rewrite vlength_window, trim_front_window by done. apply drop_ge. unfold zlen; lia. }
  destruct (parse_frames (window v)) as (fs & Ep & Hfs). unfold gap_of.
  destruct (Z.ltb_spec (zlen (window v)) kHeaderLen) as [Hl|Hl].
  { unfold parse_moldudp64_header, mold_start, parse_moldudp64_header. rewrite !(proj2 (Z.ltb_lt _ _)) by lia.
    cbn [mbind option_bind]. do 4 eexists. split; [reflexivity|].
    change (fresh c []) with (@nil MoldFrame). zlens. split_and!; try done; lia. }
  destruct (header_spec (window v) Hl) as (s & seq & cnt & Eh & Hs & Hc & _).
  rewrite Eh. cbn [mbind option_bind message_count sequence_number].
  unfold mold_start in *. rewrite Eh in *. cbn [message_count sequence_number] in *.
  destruct (cnt =? kEndOfSession) eqn:Ee.
  { do 4 eexists. split; [reflexivity|].
    change (fresh c []) with (@nil MoldFrame). zlens. split_and!; try done; lia. }
  rewrite Ep. cbn [mbind option_bind]. pose proof (zlen_nonneg fs).
  assert (seq + zlen fs < 2 ^ 64 /\ zlen (fresh c fs) = Z.max 0 (Z.min (zlen fs) (seq + zlen fs - expected_seq_ c)))
    as [Hsum Hfr].
  { destruct fs as [|f fs]; [unfold zlen; cbn; lia|].
    destruct Hfs as (s' & [= <-] & Hlt & Hq); [done|]. split; [done|]. by apply fresh_count. }
  do 4 eexists. split; [reflexivity|]. rewrite Hfr.
  destruct (Z.ltb_spec (expected_seq_ c) seq); cbn [expected_seq_ gaps_];
    rewrite !(wrap_small 64 (seq + zlen fs)) by lia;
    destruct (Z.ltb_spec (expected_seq_ c) (seq + zlen fs)); cbn [expected_seq_ gaps_];
    rewrite ?(wrap_small 64) by lia;
    (split; [split; cbn [expected_seq_ gaps_]; lia|]);
    (split; [done|]); (split; [lia|]); (split; [lia|]); intros Hne;
    destruct (Hfs Hne) as (s' & E1 & _ & Hq); by exists s'.
Qed.

(** ** Runs: a sequence of datagrams through one codec *)

(** The state after the run, everything delivered, and the part of it that was
    fresh when it arrived. *)
Fixpoint mold_run (c : Mold64Codec) (dgrams : list (list byte))
    : option (Mold64Codec * list MoldFrame * list MoldFrame) :=
  match dgrams with
  | [] => Some (c, [], [])
  | d :: ds =>
      '(_, c1, _, fs) ← mold_decode c (spv_init d) true;
      '(c2, all, new) ← mold_run c1 ds;
      Some (c2, fs ++ all, fresh c fs ++ new)
  end.

Lemma spv_init_wf d : view_wf (spv_init d).
Proof. cbn. unfold span_wf. cbn. pose proof (zlen_nonneg d). lia. Qed.

Lemma spv_init_window d : window (spv_init d) = d.
Proof. cbn. unfold spv_data, spv_length. cbn. rewrite Z.sub_0_r. unfold zlen. by rewrite Nat2Z.id, firstn_all. Qed.

(** Frames of one datagram that are fresh have increasing numbers below the new
    expected number. *)
Lemma fresh_sorted c fs s :
  (forall j f, fs !! j = Some f -> seq_num f = s + Z.of_nat j) ->
  StronglySorted Z.lt (seq_num <$> fresh c fs) /\
  Forall (fun f => Z.max (expected_seq_ c) s <= seq_num f < s + zlen fs) (fresh c fs).
Proof.
  unfold fresh. revert s. induction fs as [|f fs IH]; intros s Hq; [split; constructor|].
  assert (forall j g, fs !! j = Some g -> seq_num g = (s + 1) + Z.of_nat j) as Hq'.
  { intros j g Hj. rewrite (Hq (S j) g Hj). lia. }
  destruct (IH (s + 1) Hq') as [Hs Hb]. pose proof (Hq 0%nat f eq_refl) as Hf.
  rewrite filter_cons. zlens. destruct (decide (expected_seq_ c <= seq_num f)).
  - rewrite fmap_cons. split.
    + constructor; [done|]. apply Forall_fmap. eapply Forall_impl; [|exact Hb]. cbn. intros g Hg. lia.
    + constructor; [pose proof (zlen_nonneg fs); lia|]. eapply Forall_impl; [|exact Hb]. cbn. intros g Hg. lia.
  - split; [done|]. eapply Forall_impl; [|exact Hb]. cbn. intros g Hg. lia.
Qed.

Lemma StronglySorted_app_bound (xs ys : list Z) b :
  StronglySorted Z.lt xs -> StronglySorted Z.lt ys -> Forall (fun x => x < b) xs ->
  Forall (fun y => b <= y) ys -> StronglySorted Z.lt (xs ++ ys).
Proof.
  intros Hx Hy Hxb Hyb. induction Hx as [|x xs Hx IH Hlt]; [done|]. cbn.
  apply Forall_cons_1 in Hxb as [Hb Hxb]. constructor; [by apply IH|].
  apply Forall_app_2; [done|]. eapply Forall_impl; [|exact Hyb]. cbn. intros; lia.
Qed.

Lemma mold_run_spec c dgrams :
  mold_wf c ->
  exists c' all new, mold_run c dgrams = Some (c', all, new) /\ mold_wf c' /\
    expected_seq_ c <= expected_seq_ c' /\
    expected_seq_ c' - expected_seq_ c = (gaps_ c' - gaps_ c) + zlen new /\
    sublist new all /\ StronglySorted Z.lt (seq_num <$> new) /\
    Forall (fun f => expected_seq_ c <= seq_num f < expected_seq_ c') new.
Proof.
  revert c. induction dgrams as [|d ds IH]; intros c Hc.
  - exists c, [], []. cbn. zlens. split_and!; try done; try lia; constructor.
  - destruct (mold_decode_step c (spv_init d) Hc (spv_init_wf d))
      as (r & c1 & v1 & fs & E & Hc1 & _ & Hg & He & Hq). rewrite spv_init_window in *.
    destruct (IH c1 Hc1) as (c2 & all & new & E2 & Hc2 & Hmono & Hsum & Hsub & Hsort & Hb).
    cbn [mold_run]. rewrite E. cbn [mbind option_bind]. rewrite E2. cbn [mbind option_bind].
    assert (0 <= gap_of c d) by (unfold gap_of; destruct (mold_start d); lia).
    pose proof (zlen_nonneg (fresh c fs)).
    assert (StronglySorted Z.lt (seq_num <$> fresh c fs) /\
      Forall (fun f => expected_seq_ c <= seq_num f < expected_seq_ c1) (fresh c fs)) as [Hs1 Hb1].
    { destruct fs as [|f fs]; [by split; constructor|]. destruct Hq as (s & Hst & Hq); [done|].
      destruct (fresh_sorted c (f :: fs) s Hq) as [Hs1 Hb1]. split; [done|].
      pose proof (fresh_count (f :: fs) (expected_seq_ c) s Hq) as Hfc. fold (fresh c (f :: fs)) in Hfc.
      unfold gap_of in He. rewrite Hst in He. eapply Forall_impl; [|exact Hb1]. cbn. intros g Hg'. lia. }
    exists c2, (fs ++ all), (fresh c fs ++ new). split; [done|]. split; [done|]. split; [lia|].
    split; [zlens; lia|]. split; [apply sublist_app; [apply sublist_filter|done]|].
    rewrite fmap_app. split.
    + apply (StronglySorted_app_bound _ _ (expected_seq_ c1)); [done|done|..];
        apply Forall_fmap; (eapply Forall_impl; [|eassumption]); cbn; intros; lia.
    + apply Forall_app_2; (eapply Forall_impl; [|eassumption]); cbn; intros; lia.
Qed.

(** Parsing a well-formed packet. *)
Lemma parse_packet s seq msgs :
  length s = 10%nat -> 0 <= seq -> seq + zlen msgs < 2 ^ 64 -> zlen msgs < 65535 ->
  Forall (fun m => zlen m < 65536) msgs ->
  parse_moldudp64_header (mold_packet s seq msgs) = Some (Ok (mkHdr s seq (zlen msgs))) /\
  parse_moldudp64 (mold_packet s seq msgs) = Some (imap (fun j m => mkFrame (seq + Z.of_nat j) m) msgs).
Proof.
  intros Hs Hseq Hsum Hn Hall. set (d := mold_packet s seq msgs). pose proof (zlen_nonneg msgs).
  assert (zlen d = 20 + zlen (mold_block msgs)) as Hd.
  { unfold d, mold_packet. zlens. unfold zlen at 1. lia. }
  assert (2 * zlen msgs <= zlen (mold_block msgs)) as Hbl.
  { unfold mold_block. clear. induction msgs as [|m msgs IH]; [done|].
    rewrite fmap_cons. cbn [concat]. zlens. pose proof (zlen_nonneg m). lia. }
  destruct (header_spec d) as (s' & seq' & cnt & Eh & _ & _ & Hf); [unfold kHeaderLen; lia|].
  destruct (Hf s (be_bytes 8 seq) (be_bytes 2 (zlen msgs)) (mold_block msgs)) as (-> & Eq & Ec);
    [done|done|by rewrite length_be_bytes..|].
  rewrite be_val_be_bytes_small in Eq by (change (256 ^ Z.of_nat 8) with (2 ^ 64); lia).
  rewrite be_val_be_bytes_small in Ec by (change (256 ^ Z.of_nat 2) with 65536; lia). subst seq' cnt.
  split; [done|]. unfold parse_moldudp64. rewrite Eh. cbn [mbind option_bind message_count sequence_number].
  unfold kEndOfSession, UINT64_MAX, kHeaderLen. rewrite (proj2 (Z.eqb_neq _ _)), !(proj2 (Z.ltb_ge _ _)) by lia.
  unfold zlen at 1. rewrite Nat2Z.id. unfold d, mold_packet. rewrite !app_assoc.
  pose proof (mold_messages_block msgs ((s ++ be_bytes 8 seq) ++ be_bytes 2 (zlen msgs)) seq 0 Hall Hseq
    ltac:(lia) ltac:(lia)) as E.
  replace (zlen ((s ++ be_bytes 8 seq) ++ be_bytes 2 (zlen msgs))) with 20 in E by (zlens; unfold zlen at 1; lia).
  rewrite E. f_equal. apply imap_ext. intros. f_equal. lia.
Qed.

Lemma parse_one s f :
  length s = 10%nat -> 0 <= seq_num f < 2 ^ 64 - 1 -> zlen (mpayload f) < 65536 ->
  let p := mold_packet s (seq_num f) [mpayload f] in
  parse_moldudp64_header p = Some (Ok (mkHdr s (seq_num f) 1)) /\ parse_moldudp64 p = Some [f].
Proof.
  intros Hs Hq Hp p. destruct (parse_packet s (seq_num f) [mpayload f]) as [Eh Ep]; try done; try lia.
  - change (zlen [mpayload f]) with 1. lia.
  - by constructor.
  - split; [exact Eh|]. unfold p. rewrite Ep. cbn. rewrite Z.add_0_r. by destruct f.
Qed.

(** ** Properties *)

(** C33: sequence accounting.  For any run of datagrams, malformed ones included,
    the codec never leaves its buffers nor wraps its counters; the expected number
    never goes back and equals the initial one plus the gaps counted plus the fresh
    frames delivered; fresh frames come out in strictly increasing order, each
    sequence number at most once. *)
Theorem mold_sequence_accounting init dgrams :
  0 <= init < 2 ^ 64 ->
  exists c' all new, mold_run (mold_init init) dgrams = Some (c', all, new) /\
    init <= expected_seq_ c' < 2 ^ 64 /\
    expected_seq_ c' = init + gaps_ c' + zlen new /\
    sublist new all /\ StronglySorted Z.lt (seq_num <$> new) /\
    Forall (fun f => init <= seq_num f < expected_seq_ c') new.
Proof.
  intros Hi. destruct (mold_run_spec (mold_init init) dgrams) as (c' & all & new & E & [He _] & Hm & Hs & Hr).
  { split; cbn; lia. }
  cbn in *. exists c', all, new. split; [done|]. split; [lia|]. split; [lia|done].
Qed.

Lemma mold_sequence_accounting_witness :
  exists c' all new,
    mold_run (mold_init 1) [mold_packet (replicate 10 x41) 3 [[x01]; [x02]]; mold_packet (replicate 10 x41) 2 [[x05]]; [x00]]
      = Some (c', all, new) /\
    1 <= expected_seq_ c' < 2 ^ 64 /\ expected_seq_ c' = 1 + gaps_ c' + zlen new /\
    sublist new all /\ StronglySorted Z.lt (seq_num <$> new) /\
    Forall (fun f => 1 <= seq_num f < expected_seq_ c') new.
Proof.
  apply (mold_sequence_accounting 1
    [mold_packet (replicate 10 x41) 3 [[x01]; [x02]]; mold_packet (replicate 10 x41) 2 [[x05]]; [x00]]). lia.
Defined.

(** a well-formed packet is delivered whole.  Every message of a packet arrives
    with its payload and consecutive sequence numbers, and the codec then expects
    the number after the last one. *)
Theorem mold_packet_delivered c s seq msgs :
  mold_wf c -> length s = 10%nat -> 0 <= seq -> seq + zlen msgs < 2 ^ 64 ->
  zlen msgs < 65535 -> Forall (fun m => zlen m < 65536) msgs ->
  exists c' v', mold_decode c (spv_init (mold_packet s seq msgs)) true =
    Some (Ok (zlen msgs), c', v', imap (fun j m => mkFrame (seq + Z.of_nat j) m) msgs) /\
    window v' = [] /\ expected_seq_ c' = Z.max (expected_seq_ c) (seq + zlen msgs).
Proof.
  intros Hc Hs Hseq Hsum Hn Hall. pose proof (zlen_nonneg msgs).
  destruct (parse_packet s seq msgs) as [Eh Ep]; try done.
  unfold mold_decode. cbn [negb]. rewrite spv_init_window, Eh. cbn [mbind option_bind message_count sequence_number].
  unfold kEndOfSession. rewrite (proj2 (Z.eqb_neq _ _)) by lia. rewrite Ep. cbn [mbind option_bind].
  assert (zlen (imap (fun j m => mkFrame (seq + Z.of_nat j) m) msgs) = zlen msgs) as ->
    by (unfold zlen; by rewrite length_imap).
  rewrite !(wrap_small 64 (seq + zlen msgs)) by lia. do 2 eexists; split; [reflexivity|]. split.
  - rewrite vlength_window, trim_front_window by (apply spv_init_wf || apply zlen_nonneg).
    apply drop_ge. unfold zlen. lia.
  - destruct (Z.ltb_spec (expected_seq_ c) seq); cbn [expected_seq_];
      destruct (Z.ltb_spec (expected_seq_ c) (seq + zlen msgs)); cbn [expected_seq_]; lia.
Qed.

Lemma mold_packet_delivered_witness :
  exists c' v', mold_decode (mold_init 1) (spv_init (mold_packet (replicate 10 x41) 5 [[x61]; []])) true =
    Some (Ok 2, c', v', imap (fun j m => mkFrame (5 + Z.of_nat j) m) [[x61]; []]) /\
    window v' = [] /\ expected_seq_ c' = Z.max 1 (5 + 2).
Proof.
  apply (mold_packet_delivered (mold_init 1) (replicate 10 x41) 5 [[x61]; []]).
  - split; cbn; lia.
  - reflexivity.
  - lia.
  - vm_compute; reflexivity.
  - vm_compute; reflexivity.
  - repeat constructor; vm_compute; reflexivity.
Defined.

(** encode/decode round trip.  A datagram written by [encode] decodes to the
    one frame it was made from, sequence number and payload, and nothing past the
    [needed] bytes is written. *)
Theorem mold_encode_roundtrip buf f :
  0 <= seq_num f < 2 ^ 64 - 1 -> zlen (mpayload f) < 65536 -> 22 + zlen (mpayload f) <= zlen buf ->
  exists p, mold_encode buf f = Some (Ok (zlen p), p ++ drop (length p) buf) /\
    exists c' v', mold_decode (mold_init (seq_num f)) (spv_init p) true = Some (Ok 1, c', v', [f]) /\
      expected_seq_ c' = seq_num f + 1 /\ gaps_ c' = 0.
Proof.
  intros Hs Hp Hb. exists (mold_packet (replicate 10 x00) (seq_num f) [mpayload f]).
  split; [by apply mold_encode_spec|].
  assert (mold_wf (mold_init (seq_num f))) as Hwf by (split; cbn; lia).
  destruct (parse_one (replicate 10 x00) f) as [Eh Ep]; [done|lia|done|].
  unfold mold_decode. cbn [negb]. rewrite spv_init_window, Eh. cbn [mbind option_bind message_count sequence_number].
  change (1 =? kEndOfSession) with false. rewrite Ep. cbn [mbind option_bind]. cbn [mold_init expected_seq_ gaps_].
  rewrite (Z.ltb_irrefl (seq_num f)). change (zlen [f]) with 1. cbn [mold_init expected_seq_ gaps_].
  rewrite wrap_small, (proj2 (Z.ltb_lt _ _)) by lia. do 2 eexists; split; [reflexivity|done].
Qed.

Lemma mold_encode_roundtrip_witness :
  exists p, mold_encode (replicate 30 xff) (mkFrame 7 [x61; x62]) = Some (Ok (zlen p), p ++ drop (length p) (replicate 30 xff)) /\
    exists c' v', mold_decode (mold_init 7) (spv_init p) true = Some (Ok 1, c', v', [mkFrame 7 [x61; x62]]) /\
      expected_seq_ c' = 7 + 1 /\ gaps_ c' = 0.
Proof.
  apply (mold_encode_roundtrip (replicate 30 xff) (mkFrame 7 [x61; x62])); cbn [seq_num mpayload];
    [lia|vm_compute; reflexivity|vm_compute; discriminate].
Defined.

(** A datagram the parser drops still moves the sequence state.  A header whose
    sequence number is too close to the 64-bit limit delivers nothing, but the codec
    counts the jump as a gap and expects the bogus number from then on, so that every
    later genuine packet is treated as a replay. *)
Theorem mold_dropped_packet_advances :
  exists c', mold_decode (mold_init 1) (spv_init (mold_packet (replicate 10 x20) (2 ^ 64 - 1) [[x41]])) true
    = Some (Ok 0, c', mkSpan (mold_packet (replicate 10 x20) (2 ^ 64 - 1) [[x41]]) 23 23, []) /\
    expected_seq_ c' = 2 ^ 64 - 1 /\ gaps_ c' = 2 ^ 64 - 2.
Proof. eexists. split; [vm_compute; reflexivity|]. split; reflexivity. Qed.
