(* ===== verification/WebSocket.v ===== *)
(** * WebSocket: RFC 6455 frames

    websocket.hpp of eph-net: payload masking (word-at-a-time loops), the frame
    encoder and decoder, close/ping/pong builders, the mask-key cache and the
    UTF-8 validator.  Memory is a [list byte]; [None] is an access out of it. *)

From S2P Require Import Prelude.

#[local] Open Scope Z_scope.

(** ** Constants *)

Module opcode.
Definition kContinuation : Z := 0.
Definition kText : Z := 1.
Definition kBinary : Z := 2.
Definition kClose : Z := 8.
Definition kPing : Z := 9.
Definition kPong : Z := 10.
End opcode.

Definition kFinBit : Z := 128.
Definition kMaskBit : Z := 128.
Definition kMaxFrameHeaderLen : Z := 14.
Definition kMaxWsPayloadLen : Z := 2 ^ 63 - 1.
Definition kMaxControlPayloadLen : Z := 125.

Definition is_valid_close_code (code : Z) : bool :=
  if (1000 <=? code) && (code <=? 1003) then true else
  if (1007 <=? code) && (code <=? 1011) then true else
  if (3000 <=? code) && (code <=? 4999) then true else false.

Inductive DecodeError : Set :=
| kWsIncomplete | kReservedBits | kFragmentedControl | kControlPayloadTooLarge
| kInvalidOpcode | kInvalidLengthEncoding | kInvalidCloseFrame.

#[export] Instance DecodeError_eq_dec : EqDecision DecodeError.
Proof. solve_decision. Defined.

(** ** Masking *)

(** [a ^ b] on [uint8_t]. *)
Definition bxor (a b : byte) : byte := z2b (Z.lxor (b2z a) (b2z b)).

(** [uint32_t]/[uint64_t] loads and stores by [memcpy], little-endian. *)
Definition load_word (n : nat) (m : list byte) (off : Z) : option Z :=
  w ← slice m off (Z.of_nat n); Some (le_val w).
Definition store_word (n : nat) (m : list byte) (off z : Z) : option (list byte) :=
  wr m off (le_bytes n z).

(** [for (; i + 4 <= len; i += 4) data[i..i+4) ^= mask32]; the fuel is the
    number of iterations still possible. *)
Fixpoint apply_mask_blocks (fuel : nat) (data : list byte) (len i mask32 : Z)
    : option (Z * list byte) :=
  if i + 4 <=? len then
    match fuel with
    | O => None
    | S fuel =>
        block ← load_word 4 data i;
        data ← store_word 4 data i (Z.lxor block mask32);
        apply_mask_blocks fuel data len (i + 4) mask32
    end
  else Some (i, data).

(** [for (; i < len; ++i) dst[i] = src[i] ^ mask[i & 3]]. *)
Fixpoint mask_tail (fuel : nat) (dst src : list byte) (len i : Z) (mask : list byte)
    : option (list byte) :=
  if i <? len then
    match fuel with
    | O => None
    | S fuel =>
        b ← rd src i;
        m ← rd mask (Z.land i 3);
        dst ← wr dst i [bxor b m];
        mask_tail fuel dst src len (i + 1) mask
    end
  else Some dst.

(** In-place byte loop: source and destination are the same memory. *)
Fixpoint mask_tail_inplace (fuel : nat) (data : list byte) (len i : Z) (mask : list byte)
    : option (list byte) :=
  if i <? len then
    match fuel with
    | O => None
    | S fuel =>
        b ← rd data i;
        m ← rd mask (Z.land i 3);
        data ← wr data i [bxor b m];
        mask_tail_inplace fuel data len (i + 1) mask
    end
  else Some data.

Definition apply_mask (data : list byte) (len : Z) (mask : list byte) : option (list byte) :=
  mask32 ← load_word 4 mask 0;
  '(i, data) ← apply_mask_blocks (Z.to_nat len) data len 0 mask32;
  mask_tail_inplace (Z.to_nat len) data len i mask.

(** [for (; i + 8 <= len; i += 8) dst[i..i+8) = src[i..i+8) ^ mask64]. *)
Fixpoint masked_copy_blocks (fuel : nat) (dst src : list byte) (len i mask64 : Z)
    : option (Z * list byte) :=
  if i + 8 <=? len then
    match fuel with
    | O => None
    | S fuel =>
        block ← load_word 8 src i;
        dst ← store_word 8 dst i (Z.lxor block mask64);
        masked_copy_blocks fuel dst src len (i + 8) mask64
    end
  else Some (i, dst).

Definition masked_copy (dst src : list byte) (len : Z) (mask : list byte) : option (list byte) :=
  mask32 ← load_word 4 mask 0;
  let mask64 := Z.lor (u64 (Z.shiftl mask32 32)) mask32 in
  '(i, dst) ← masked_copy_blocks (Z.to_nat len) dst src len 0 mask64;
  '(i, dst) ← (if i + 4 <=? len then
      block ← load_word 4 src i;
      dst ← store_word 4 dst i (Z.lxor block mask32);
      Some (i + 4, dst)
    else Some (i, dst));
  mask_tail (Z.to_nat len) dst src len i mask.

(** The RFC's definition: octet [i] is XORed with octet [i mod 4] of the key. *)
Fixpoint mask_from (mask : list byte) (i : nat) (bs : list byte) : list byte :=
  match bs with
  | [] => []
  | b :: t => bxor b (nth (i mod 4) mask x00) :: mask_from mask (S i) t
  end.

Definition mask_ref (mask bs : list byte) : list byte := mask_from mask 0 bs.

Lemma b2z_bxor a b : b2z (bxor a b) = Z.lxor (b2z a) (b2z b).
Proof.
  apply b2z_z2b_small. pose proof (b2z_range a). pose proof (b2z_range b).
  split; [apply Z.lxor_nonneg; lia|].
  destruct (decide (Z.lxor (b2z a) (b2z b) = 0)) as [->|]; [lia|].
  apply (Z.log2_lt_cancel _ 256). eapply Z.le_lt_trans; [apply Z.log2_lxor; lia|].
  change (Z.log2 256) with 8. apply Z.max_lub_lt;
    (destruct (decide (b2z a = 0)) as [Ha|], (decide (b2z b = 0)) as [Hb|]);
    rewrite ?Ha, ?Hb; try done; apply Z.log2_lt_pow2; lia.
Qed.

Lemma bxor_invol a b : bxor (bxor a b) b = a.
Proof. apply b2z_inj. by rewrite !b2z_bxor, Z.lxor_assoc, Z.lxor_nilpotent, Z.lxor_0_r. Qed.

Lemma length_mask_from mask i bs : length (mask_from mask i bs) = length bs.
Proof. revert i; induction bs; intros; simpl; congruence. Qed.

Lemma zlen_mask_from mask i bs : zlen (mask_from mask i bs) = zlen bs.
Proof. unfold zlen. by rewrite length_mask_from. Qed.

Lemma mask_from_app mask i a b :
  mask_from mask i (a ++ b) = mask_from mask i a ++ mask_from mask (i + length a) b.
Proof.
  revert i. induction a as [|x a IH]; intros i; simpl; [by rewrite Nat.add_0_r|].
  f_equal. rewrite IH. do 2 f_equal. lia.
Qed.

Lemma mask_from_invol mask i bs : mask_from mask i (mask_from mask i bs) = bs.
Proof. revert i. induction bs as [|b bs IH]; intros i; simpl; [done|]. by rewrite bxor_invol, IH. Qed.

Lemma mask_ref_invol mask bs : mask_ref mask (mask_ref mask bs) = bs.
Proof. apply mask_from_invol. Qed.

(** XOR of two words loaded from memory is the byte-wise XOR. *)
Lemma le_val_lxor a b :
  length a = length b -> Z.lxor (le_val a) (le_val b) = le_val (zip_with bxor a b).
Proof.
  revert b; induction a as [|x a IH]; intros [|y b] Hl; simplify_eq/=; [done|].
  specialize (IH b Hl). apply Z.bits_inj'. intros n Hn. cbn [le_val].
  change (le_val (?x :: ?t)) with (Z.lor (Z.shiftl (le_val t) 8) (b2z x)).
  rewrite b2z_bxor, <- IH.
  rewrite !Z.lxor_spec, !Z.lor_spec, !Z.shiftl_spec, !Z.lxor_spec by lia.
  destruct (decide (n < 8)).
  - rewrite !(Z.testbit_neg_r _ (n - 8)) by lia. done.
  - rewrite !(testbit_small (b2z _) 8) by (try apply b2z_range; lia). by rewrite !orb_false_r.
Qed.

Lemma lxor_word n a b :
  length a = n -> length b = n -> le_bytes n (Z.lxor (le_val a) (le_val b)) = zip_with bxor a b.
Proof.
  intros Ha Hb. rewrite le_val_lxor by lia.
  replace n with (length (zip_with bxor a b)); [apply le_bytes_le_val|].
  rewrite length_zip_with. lia.
Qed.

(** One aligned word of the key, applied to a word of the payload. *)
Lemma mask_word mask i w :
  length mask = 4%nat -> length w = 4%nat -> (i mod 4 = 0)%nat ->
  zip_with bxor w mask = mask_from mask i w.
Proof.
  intros Hm Hw Hi.
  destruct mask as [|m0 [|m1 [|m2 [|m3 [|]]]]]; try done.
  destruct w as [|w0 [|w1 [|w2 [|w3 [|]]]]]; try done.
  cbn [zip_with mask_from].
  assert (forall k, (k < 4)%nat -> ((k + i) mod 4 = k)%nat) as Hk.
  { intros k Hk. rewrite Nat.Div0.add_mod, Hi, Nat.add_0_r, Nat.Div0.mod_mod.
    by apply Nat.mod_small. }
  rewrite Hi. change (S (S (S i))) with (3 + i)%nat. change (S (S i)) with (2 + i)%nat.
  change (S i) with (1 + i)%nat. by rewrite !Hk by lia.
Qed.

(** The doubled key, applied to eight bytes. *)
Lemma mask_dword mask i w :
  length mask = 4%nat -> length w = 8%nat -> (i mod 4 = 0)%nat ->
  zip_with bxor w (mask ++ mask) = mask_from mask i w.
Proof.
  intros Hm Hw Hi. rewrite <- (take_drop 4 w).
  assert (length (take 4 w) = 4%nat) by (rewrite length_take; lia).
  assert (length (drop 4 w) = 4%nat) by (rewrite length_drop; lia).
  rewrite zip_with_app by lia. rewrite mask_from_app.
  rewrite (mask_word mask i (take 4 w)), (mask_word mask (i + length (take 4 w)) (drop 4 w)); try done.
  by rewrite H, Nat.Div0.add_mod, Hi.
Qed.

Lemma mask64_val mask :
  length mask = 4%nat ->
  Z.lor (u64 (Z.shiftl (le_val mask) 32)) (le_val mask) = le_val (mask ++ mask).
Proof.
  intros Hm. destruct mask as [|m0 [|m1 [|m2 [|m3 [|]]]]]; try done. cbn [app].
  rewrite !le_val_cons. change (le_val []) with 0.
  pose proof (b2z_range m0). pose proof (b2z_range m1). pose proof (b2z_range m2). pose proof (b2z_range m3).
  rewrite wrap_small.
  - rewrite lor_shiftl_add by lia. change (2 ^ 32) with 4294967296. lia.
  - rewrite Z.shiftl_mul_pow2 by lia. lia.
Qed.

Lemma rd_mask mask i n :
  length mask = 4%nat -> i = Z.of_nat n -> rd mask (Z.land i 3) = Some (nth (n mod 4) mask x00).
Proof.
  intros Hm ->. change 3 with (2 ^ 2 - 1). rewrite land_mask by lia.
  change (2 ^ 2) with (Z.of_nat 4). rewrite <- Nat2Z.inj_mod, rd_lookup.
  destruct (lookup_lt_is_Some_2 mask (n mod 4)) as [m E].
  { rewrite Hm. apply Nat.mod_upper_bound. lia. }
  rewrite E. f_equal. symmetry. by apply nth_lookup_Some.
Qed.

Section mask_loops.
Implicit Types pre body post : list byte.

Lemma load_word_mid n pre w post i :
  i = zlen pre -> length w = n -> load_word n (pre ++ w ++ post) i = Some (le_val w).
Proof.
  intros -> Hw. unfold load_word. rewrite (slice_mid pre w post); [done|done|]. unfold zlen. lia.
Qed.

Lemma store_word_mid n pre w post z i :
  i = zlen pre -> length w = n -> store_word n (pre ++ w ++ post) i z = Some (pre ++ le_bytes n z ++ post).
Proof.
  intros -> Hw. unfold store_word. rewrite wr_app; [|done|].
  - rewrite length_le_bytes, drop_app_length' by done. done.
  - zlens. unfold zlen. rewrite length_le_bytes. lia.
Qed.

Lemma split_word (n : nat) body :
  (n <= length body)%nat -> exists w rest, body = w ++ rest /\ length w = n.
Proof.
  intros. exists (take n body), (drop n body). rewrite take_drop, length_take. split; [done|lia].
Qed.

Lemma aligned_step (i n : nat) (w : list byte) :
  length w = n -> (n mod 4 = 0)%nat -> (i mod 4 = 0)%nat -> ((i + length w) mod 4 = 0)%nat.
Proof. intros -> Hn Hi. by rewrite Nat.Div0.add_mod, Hi, Hn. Qed.

Lemma apply_mask_blocks_spec mask fuel pre body post :
  length mask = 4%nat -> (length pre mod 4 = 0)%nat -> (length body <= fuel)%nat ->
  exists a b, body = a ++ b /\ (length b < 4)%nat /\
    apply_mask_blocks fuel (pre ++ body ++ post) (zlen pre + zlen body) (zlen pre) (le_val mask)
    = Some (zlen pre + zlen a, pre ++ mask_from mask (length pre) a ++ b ++ post).
Proof.
  intros Hm. revert pre body. induction fuel as [|fuel IH]; intros pre body Hp Hf.
  - destruct body; [|simpl in Hf; lia]. exists [], []. cbn [apply_mask_blocks].
    zlens. rewrite !Z.add_0_r. zdecide. split_and!; try done. simpl; lia.
  - cbn [apply_mask_blocks]. destruct (Z.leb_spec (zlen pre + 4) (zlen pre + zlen body)).
    + destruct (split_word 4 body) as (w & rest & -> & Hw); [unfold zlen in *; lia|].
      rewrite <- !app_assoc, load_word_mid by done. cbn [mbind option_bind].
      rewrite store_word_mid by done. cbn [mbind option_bind].
      rewrite (lxor_word 4) by done. rewrite (mask_word mask (length pre)) by done.
      destruct (IH (pre ++ mask_from mask (length pre) w) rest) as (a & b & -> & Hb & E).
      { rewrite length_app, length_mask_from. by apply (aligned_step _ 4 w). }
      { rewrite length_app in Hf. lia. }
      exists (w ++ a), b. rewrite app_assoc. split_and!; try done.
      rewrite <- !app_assoc in E. zlens. rewrite zlen_mask_from in E.
      assert (zlen w = 4) as Hz by (unfold zlen; lia). rewrite Hz in *.
      replace (zlen pre + (4 + zlen a + zlen b)) with (zlen pre + 4 + (zlen a + zlen b)) by lia.
      rewrite <- !app_assoc, E. rewrite mask_from_app, !length_app, length_mask_from, <- !app_assoc.
      do 2 f_equal. lia.
    + exists [], body. zlens. rewrite Z.add_0_r. split_and!; try done. unfold zlen in *. lia.
Qed.

Lemma mask_tail_inplace_spec mask fuel pre body post :
  length mask = 4%nat -> (length body <= fuel)%nat ->
  mask_tail_inplace fuel (pre ++ body ++ post) (zlen pre + zlen body) (zlen pre) mask
  = Some (pre ++ mask_from mask (length pre) body ++ post).
Proof.
  intros Hm. revert pre body. induction fuel as [|fuel IH]; intros pre body Hf.
  - destruct body; [|simpl in Hf; lia]. cbn [mask_tail_inplace]. zlens. by zdecide.
  - cbn [mask_tail_inplace]. destruct body as [|x body]; zlens; [by zdecide|].
    pose proof (zlen_nonneg body). zdecide. rewrite rd_app_r by done. cbn [head app mbind option_bind].
    rewrite (rd_mask mask _ (length pre)) by done. cbn [mbind option_bind].
    rewrite wr_app by (zlens; pose proof (zlen_nonneg post); lia). cbn [mbind option_bind length drop].
    rewrite drop_0, app_assoc. specialize (IH (pre ++ [bxor x (nth (length pre mod 4) mask x00)]) body).
    zlens. rewrite Z.add_0_l in IH. replace (zlen pre + (zlen body + 1)) with (zlen pre + 1 + zlen body) by lia.
    rewrite IH by (simpl in Hf; lia). rewrite length_app. cbn [length mask_from].
    rewrite Nat.add_1_r, <- app_assoc. done.
Qed.

(** The in-place masking loop computes the RFC's octet-wise masking. *)
Lemma apply_mask_spec mask body post :
  length mask = 4%nat ->
  apply_mask (body ++ post) (zlen body) mask = Some (mask_ref mask body ++ post).
Proof.
  intros Hm. unfold apply_mask.
  pose proof (load_word_mid 4 [] mask [] 0 eq_refl Hm) as El. rewrite app_nil_r in El. cbn in El.
  rewrite El. cbn [mbind option_bind].
  destruct (apply_mask_blocks_spec mask (Z.to_nat (zlen body)) [] body post Hm eq_refl)
    as (a & b & -> & Hb & E); [unfold zlen; lia|].
  cbn [app length] in E. change (zlen []) with 0 in E. rewrite !Z.add_0_l in E. rewrite E.
  cbn [mbind option_bind].
  pose proof (mask_tail_inplace_spec mask (Z.to_nat (zlen (a ++ b))) (mask_from mask 0 a) b post Hm) as Et.
  rewrite zlen_mask_from, length_mask_from in Et. rewrite zlen_app in *. rewrite Et by (unfold zlen; lia).
  unfold mask_ref. by rewrite mask_from_app, <- app_assoc.
Qed.

Lemma masked_copy_blocks_spec mask fuel pre dbody dpost spre body spost :
  length mask = 4%nat -> (length pre mod 4 = 0)%nat -> length spre = length pre ->
  length dbody = length body -> (length body <= fuel)%nat ->
  exists a b db, body = a ++ b /\ (length b < 8)%nat /\ length db = length b /\
    (length a mod 4 = 0)%nat /\
    masked_copy_blocks fuel (pre ++ dbody ++ dpost) (spre ++ body ++ spost)
      (zlen pre + zlen body) (zlen pre) (le_val (mask ++ mask))
    = Some (zlen pre + zlen a, pre ++ mask_from mask (length pre) a ++ db ++ dpost).
Proof.
  intros Hm. revert pre dbody spre body.
  induction fuel as [|fuel IH]; intros pre dbody spre body Hp Hs Hd Hf.
  - destruct body; [|simpl in Hf; lia]. destruct dbody; [|done]. exists [], [], [].
    cbn [masked_copy_blocks]. zlens. rewrite !Z.add_0_r. zdecide. split_and!; try done. simpl; lia.
  - cbn [masked_copy_blocks]. destruct (Z.leb_spec (zlen pre + 8) (zlen pre + zlen body)).
    + destruct (split_word 8 body) as (w & rest & -> & Hw); [unfold zlen in *; lia|].
      rewrite length_app in Hd. destruct (split_word 8 dbody) as (dw & drest & -> & Hdw); [lia|].
      rewrite length_app in Hd.
      rewrite <- !app_assoc, load_word_mid by (done || unfold zlen; lia). cbn [mbind option_bind].
      rewrite store_word_mid by done. cbn [mbind option_bind].
      rewrite (lxor_word 8) by (rewrite ?length_app; lia). rewrite (mask_dword mask (length pre)) by done.
      destruct (IH (pre ++ mask_from mask (length pre) w) drest (spre ++ w) rest)
        as (a & b & db & -> & Hb & Hdb & Ha & E).
      { rewrite length_app, length_mask_from. by apply (aligned_step _ 8 w). }
      { rewrite !length_app, length_mask_from. lia. }
      { lia. }
      { rewrite length_app in Hf. lia. }
      exists (w ++ a), b, db. rewrite app_assoc. split_and!; try done.
      { rewrite length_app, Nat.add_comm. by apply (aligned_step _ 8 w). }
      rewrite <- !app_assoc in E. zlens. rewrite zlen_mask_from in E.
      assert (zlen w = 8) as Hz by (unfold zlen; lia). rewrite Hz in *.
      replace (zlen pre + (8 + zlen a + zlen b)) with (zlen pre + 8 + (zlen a + zlen b)) by lia.
      rewrite <- !app_assoc, E. rewrite mask_from_app, !length_app, length_mask_from, <- !app_assoc.
      do 2 f_equal. lia.
    + exists [], body, dbody. zlens. rewrite Z.add_0_r. split_and!; try done. unfold zlen in *. lia.
Qed.

Lemma mask_tail_spec mask fuel pre dbody dpost spre body spost :
  length mask = 4%nat -> length spre = length pre -> length dbody = length body ->
  (length body <= fuel)%nat ->
  mask_tail fuel (pre ++ dbody ++ dpost) (spre ++ body ++ spost) (zlen pre + zlen body) (zlen pre) mask
  = Some (pre ++ mask_from mask (length pre) body ++ dpost).
Proof.
  intros Hm. revert pre dbody spre body. induction fuel as [|fuel IH]; intros pre dbody spre body Hs Hd Hf.
  - destruct body; [|simpl in Hf; lia]. destruct dbody; [|done]. cbn [mask_tail]. zlens. by zdecide.
  - cbn [mask_tail]. destruct body as [|x body], dbody as [|d dbody]; try done; zlens; [by zdecide|].
    pose proof (zlen_nonneg body). zdecide. rewrite rd_app_r by (unfold zlen; lia).
    cbn [head app mbind option_bind].
    rewrite (rd_mask mask _ (length pre)) by done. cbn [mbind option_bind].
    rewrite wr_app by (zlens; pose proof (zlen_nonneg dbody); pose proof (zlen_nonneg dpost); lia).
    cbn [mbind option_bind length drop]. rewrite drop_0, app_assoc.
    specialize (IH (pre ++ [bxor x (nth (length pre mod 4) mask x00)]) dbody (spre ++ [x]) body).
    zlens. rewrite Z.add_0_l in IH.
    replace (zlen pre + (zlen body + 1)) with (zlen pre + 1 + zlen body) by lia.
    simpl in Hf, Hd. rewrite <- (app_assoc spre) in IH. cbn [app] in IH.
    rewrite IH by (rewrite ?length_app; simpl; lia).
    rewrite length_app. cbn [length mask_from]. rewrite Nat.add_1_r, <- app_assoc. done.
Qed.

(** The fused copy-and-mask loop (64-bit, 32-bit and byte stages) writes the
    octet-wise masking of the source and nothing else. *)
Lemma masked_copy_spec mask dbody dpost body spost :
  length mask = 4%nat -> length dbody = length body ->
  masked_copy (dbody ++ dpost) (body ++ spost) (zlen body) mask
  = Some (mask_ref mask body ++ dpost).
Proof.
  intros Hm Hd. unfold masked_copy.
  pose proof (load_word_mid 4 [] mask [] 0 eq_refl Hm) as El. rewrite app_nil_r in El. cbn in El.
  rewrite El. cbn [mbind option_bind]. rewrite mask64_val by done.
  destruct (masked_copy_blocks_spec mask (Z.to_nat (zlen body)) [] dbody dpost [] body spost)
    as (a & b & db & -> & Hb & Hdb & Ha & E); try done; [unfold zlen; lia|].
  cbn [app length] in E. change (zlen []) with 0 in E. rewrite !Z.add_0_l in E. rewrite E.
  cbn [mbind option_bind]. rewrite zlen_app. unfold mask_ref. rewrite mask_from_app.
  destruct (Z.leb_spec (zlen a + 4) (zlen a + zlen b)).
  - destruct (split_word 4 b) as (w & b' & -> & Hw); [unfold zlen in *; lia|].
    rewrite length_app in Hdb. destruct (split_word 4 db) as (dw & db' & -> & Hdw); [lia|].
    rewrite length_app in Hdb. rewrite <- !app_assoc, load_word_mid by done. cbn [mbind option_bind].
    rewrite store_word_mid by (done || by rewrite zlen_mask_from). cbn [mbind option_bind].
    rewrite (lxor_word 4) by done. rewrite (mask_word mask (0 + length a)) by done.
    rewrite !(app_assoc _ _ (db' ++ dpost)), (app_assoc a).
    pose proof (mask_tail_spec mask (Z.to_nat (zlen (a ++ w ++ b')))
      (mask_from mask 0 a ++ mask_from mask (0 + length a) w) db' dpost (a ++ w) b' spost Hm) as Et.
    zlens. rewrite !zlen_mask_from in Et. assert (zlen w = 4) as Hz by (unfold zlen; lia). rewrite Hz in *.
    rewrite !Z.add_assoc in *. rewrite <- !app_assoc in *. rewrite Et by (rewrite ?length_app, ?length_mask_from; unfold zlen; lia).
    rewrite (mask_from_app _ _ w), !length_app, !length_mask_from, <- !app_assoc. done.
  - pose proof (mask_tail_spec mask (Z.to_nat (zlen a + zlen b)) (mask_from mask 0 a) db dpost a b spost Hm) as Et.
    rewrite zlen_mask_from, length_mask_from in Et. rewrite <- !app_assoc in *.
    cbn [mbind option_bind]. rewrite Et by (unfold zlen; lia). done.
Qed.

End mask_loops.

(** ** Frame encoder *)

(** [for (int i = n - 1; i >= 0; --i) out[pos++] = (payload_len >> (i * 8)) & 0xFF]. *)
Fixpoint put_be (n : nat) (out : list byte) (pos payload_len : Z) : option (Z * list byte) :=
  match n with
  | O => Some (pos, out)
  | S m =>
      out ← wr out pos [z2b (Z.land (Z.shiftr payload_len (Z.of_nat m * 8)) 255)];
      put_be m out (pos + 1) payload_len
  end.

Definition encode_frame_header (out : list byte) (opcode_val payload_len : Z) (fin : bool)
    (mask_key : list byte) : option (Z * list byte) :=
  if kMaxWsPayloadLen <? payload_len then Some (0, out) else
  if negb (Z.land opcode_val 8 =? 0) && (kMaxControlPayloadLen <? payload_len)
  then Some (0, out) else
  out ← wr out 0 [z2b (Z.lor (if fin then kFinBit else 0) (Z.land opcode_val 15))];
  '(pos, out) ← (if payload_len <? 126 then
      out ← wr out 1 [z2b (Z.lor kMaskBit (u8 payload_len))];
      Some (2, out)
    else if payload_len <=? 65535 then
      out ← wr out 1 [z2b (Z.lor kMaskBit 126)];
      out ← wr out 2 [z2b (Z.shiftr payload_len 8)];
      out ← wr out 3 [z2b (Z.land payload_len 255)];
      Some (4, out)
    else
      out ← wr out 1 [z2b (Z.lor kMaskBit 127)];
      put_be 8 out 2 payload_len);
  key ← slice mask_key 0 4;
  out ← wr out pos key;
  Some (pos + 4, out).

Definition is_valid_payload_len (opcode_val payload_len : Z) : bool :=
  if kMaxWsPayloadLen <? payload_len then false else
  if negb (Z.land opcode_val 8 =? 0) && (kMaxControlPayloadLen <? payload_len) then false
  else true.

Definition frame_header_size (payload_len : Z) : Z :=
  if payload_len <? 126 then 2 + 4 else
  if payload_len <=? 65535 then 2 + 2 + 4 else 2 + 8 + 4.

Definition total_frame_size (payload_len : Z) : Z :=
  let header := frame_header_size payload_len in
  if SIZE_MAX - header <? payload_len then SIZE_MAX else header + payload_len.

(** [encode_frame] after [generate_mask_key(mask_key)]; a null payload pointer is
    [None]. *)
Definition encode_frame (mask_key out : list byte) (opcode_val : Z)
    (payload : option (list byte)) (payload_len : Z) (fin : bool) : option (Z * list byte) :=
  '(header_len, out) ← encode_frame_header out opcode_val payload_len fin mask_key;
  if header_len =? 0 then Some (0, out) else
  match payload with
  | Some src =>
      if 0 <? payload_len then
        dst ← slice out header_len (zlen out - header_len);
        dst ← masked_copy dst src payload_len mask_key;
        out ← wr out header_len dst;
        Some (header_len + payload_len, out)
      else Some (header_len + payload_len, out)
  | None => Some (header_len + payload_len, out)
  end.

(** ** Frame decoder *)

Record WsFrame := mkWsFrame {
  f_opcode : Z;
  f_fin : bool;
  f_rsv1 : bool;
  f_masked : bool;
  f_payload_len : Z;
  f_payload : Z;           (* offset of the pointer in the wire buffer *)
  f_mask_key : list byte;
  f_total_len : Z;
}.

Fixpoint get_be (n : nat) (wire : list byte) (pos acc : Z) : option Z :=
  match n with
  | O => Some acc
  | S m => b ← rd wire pos; get_be m wire (pos + 1) (Z.lor (u64 (Z.shiftl acc 8)) (b2z b))
  end.

(** The extended length: value and position after it. *)
Definition decode_len (wire : list byte) (len_byte : Z) : option (expected (Z * Z) DecodeError) :=
  let len := zlen wire in
  let pos := 2 in
  if len_byte <? 126 then Some (Ok (len_byte, pos)) else
  if len_byte =? 126 then
    if len <? pos + 2 then Some (Err kWsIncomplete) else
    b0 ← rd wire pos;
    b1 ← rd wire (pos + 1);
    let payload_len := Z.lor (Z.shiftl (b2z b0) 8) (b2z b1) in
    if payload_len <? 126 then Some (Err kInvalidLengthEncoding) else Some (Ok (payload_len, pos + 2))
  else
    if len <? pos + 8 then Some (Err kWsIncomplete) else
    payload_len ← get_be 8 wire pos 0;
    if kMaxWsPayloadLen <? payload_len then Some (Err kInvalidLengthEncoding) else
    if payload_len <=? 65535 then Some (Err kInvalidLengthEncoding) else
    Some (Ok (payload_len, pos + 8)).

Definition is_reserved_opcode (op : Z) : bool :=
  ((3 <=? op) && (op <=? 7)) || ((11 <=? op) && (op <=? 15)).

(** The checks after the payload is known to be complete. *)
Definition check_opcode (opcode : Z) (fin : bool) (payload_len : Z) : option DecodeError :=
  if is_reserved_opcode opcode then Some kInvalidOpcode else
  if negb (Z.land opcode 8 =? 0) then
    if negb fin then Some kFragmentedControl else
    if 125 <? payload_len then Some kControlPayloadTooLarge else
    if (opcode =? opcode.kClose) && (payload_len =? 1) then Some kInvalidCloseFrame else None
  else None.

Definition decode_frame (wire : list byte) (allow_rsv1 : bool) : option (expected WsFrame DecodeError) :=
  let len := zlen wire in
  if len <? 2 then Some (Err kWsIncomplete) else
  w0 ← rd wire 0;
  let fin := negb (Z.land (b2z w0) kFinBit =? 0) in
  let opcode := Z.land (b2z w0) 15 in
  let rsv_bits := Z.land (b2z w0) 112 in
  let allowed_mask := if allow_rsv1 then 64 else 0 in
  if negb (rsv_bits =? 0) && negb (Z.land rsv_bits (Z.lnot allowed_mask) =? 0)
  then Some (Err kReservedBits) else
  let rsv1 := negb (rsv_bits =? 0) in
  w1 ← rd wire 1;
  let masked := negb (Z.land (b2z w1) kMaskBit =? 0) in
  let len_byte := Z.land (b2z w1) 127 in
  r ← decode_len wire len_byte;
  match r with
  | Err e => Some (Err e)
  | Ok (payload_len, pos) =>
      if masked && (len <? pos + 4) then Some (Err kWsIncomplete) else
      mask_key ← (if masked then slice wire pos 4 else Some [x00; x00; x00; x00]);
      let pos := if masked then pos + 4 else pos in
      if (len <? pos) || (len - pos <? payload_len) then Some (Err kWsIncomplete) else
      match check_opcode opcode fin payload_len with
      | Some e => Some (Err e)
      | None => Some (Ok (mkWsFrame opcode fin rsv1 masked payload_len pos mask_key (pos + payload_len)))
      end
  end.

Definition is_control (f : WsFrame) : bool := negb (Z.land (f_opcode f) 8 =? 0).
Definition is_data (f : WsFrame) : bool :=
  (f_opcode f =? opcode.kText) || (f_opcode f =? opcode.kBinary) || (f_opcode f =? opcode.kContinuation).
Definition is_ping (f : WsFrame) : bool := f_opcode f =? opcode.kPing.
Definition is_pong (f : WsFrame) : bool := f_opcode f =? opcode.kPong.
Definition is_close (f : WsFrame) : bool := f_opcode f =? opcode.kClose.

Definition close_status_code (wire : list byte) (f : WsFrame) : option Z :=
  if negb (f_opcode f =? opcode.kClose) || (f_payload_len f <? 2) then Some 0 else
  b0 ← rd wire (f_payload f);
  b1 ← rd wire (f_payload f + 1);
  if f_masked f then
    k0 ← rd (f_mask_key f) 0;
    k1 ← rd (f_mask_key f) 1;
    Some (u16 (Z.lor (Z.shiftl (b2z (bxor b0 k0)) 8) (b2z (bxor b1 k1))))
  else Some (u16 (Z.lor (Z.shiftl (b2z b0) 8) (b2z b1))).

Definition close_reason (wire : list byte) (f : WsFrame) : option (list byte) :=
  if negb (f_opcode f =? opcode.kClose) || (f_payload_len f <=? 2) then Some [] else
  slice wire (f_payload f + 2) (f_payload_len f - 2).

(** [for (i = 0; i < reason_len; ++i) result[i] ^= mask_key[(i + 2) & 3]]. *)
Fixpoint unmask_reason (mask_key : list byte) (i : Z) (bs : list byte) : option (list byte) :=
  match bs with
  | [] => Some []
  | b :: t =>
      m ← rd mask_key (Z.land (i + 2) 3);
      t ← unmask_reason mask_key (i + 1) t;
      Some (bxor b m :: t)
  end.

Definition close_reason_unmasked (wire : list byte) (f : WsFrame) : option (list byte) :=
  if negb (f_opcode f =? opcode.kClose) || (f_payload_len f <=? 2) then Some [] else
  result ← slice wire (f_payload f + 2) (f_payload_len f - 2);
  if f_masked f then unmask_reason (f_mask_key f) 0 result else Some result.

(** ** Control-frame builders *)

Definition build_close_frame (mask_key out : list byte) (status_code : Z) (reason : list byte)
    : option (Z * list byte) :=
  let reason_len := Z.min (zlen reason) 123 in
  let close_payload_len := 2 + reason_len in
  reason' ← slice reason 0 reason_len;
  let close_payload :=
    [z2b (Z.shiftr status_code 8); z2b (Z.land status_code 255)] ++ reason' in
  encode_frame mask_key out opcode.kClose (Some close_payload) close_payload_len true.

Definition build_pong_frame (mask_key out : list byte) (ping_payload : option (list byte))
    (payload_len : Z) : option (Z * list byte) :=
  let payload_len := match ping_payload with None => 0 | Some _ => payload_len end in
  encode_frame mask_key out opcode.kPong ping_payload payload_len true.

Definition build_ping_frame (mask_key out : list byte) (payload : option (list byte))
    (payload_len : Z) : option (Z * list byte) :=
  let payload_len := match payload with None => 0 | Some _ => payload_len end in
  encode_frame mask_key out opcode.kPing payload payload_len true.

Record FrameTemplate := mkTemplate { t_opcode_val : Z; t_fin : bool }.
Definition template_encode (t : FrameTemplate) (mask_key out : list byte)
    (payload : option (list byte)) (payload_len : Z) : option (Z * list byte) :=
  encode_frame mask_key out (t_opcode_val t) payload payload_len (t_fin t).
Definition for_binary : FrameTemplate := mkTemplate opcode.kBinary true.
Definition for_text : FrameTemplate := mkTemplate opcode.kText true.

(** ** The wire format *)

Definition len_code (n : Z) : Z := if n <? 126 then n else if n <=? 65535 then 126 else 127.
Definition len_ext (n : Z) : list byte :=
  if n <? 126 then [] else if n <=? 65535 then be_bytes 2 n else be_bytes 8 n.

(** RFC 6455 section 5.2, a masked frame without extension bits. *)
Definition ws_header (op : Z) (fin : bool) (n : Z) (key : list byte) : list byte :=
  z2b ((if fin then 128 else 0) + op) :: z2b (128 + len_code n) :: len_ext n ++ key.
Definition ws_wire (op : Z) (fin : bool) (key pl : list byte) : list byte :=
  ws_header op fin (zlen pl) key ++ mask_ref key pl.

(** The frames the protocol allows a client to send. *)
Definition ws_sendable (op : Z) (fin : bool) (n : Z) : Prop :=
  0 <= op < 16 /\ 0 <= n <= kMaxWsPayloadLen /\ check_opcode op fin n = None.

Lemma len_code_range n : 0 <= n -> 0 <= len_code n < 128.
Proof. intros. unfold len_code. zbool; lia. Qed.

Lemma zlen_len_ext n : zlen (len_ext n) = frame_header_size n - 6.
Proof. unfold len_ext, frame_header_size. zbool; by zlens. Qed.

Lemma zlen_header op fin n key :
  length key = 4%nat -> zlen (ws_header op fin n key) = frame_header_size n.
Proof. intros. unfold ws_header. zlens. rewrite zlen_len_ext. unfold zlen at 1. lia. Qed.

Lemma put_be_grow n hdr out pos z :
  pos = zlen hdr -> zlen hdr + Z.of_nat n <= zlen out ->
  put_be n (hdr ++ drop (length hdr) out) pos z =
    Some (pos + Z.of_nat n, (hdr ++ be_bytes n z) ++ drop (length (hdr ++ be_bytes n z)) out).
Proof.
  revert hdr pos. induction n as [|n IH]; intros hdr pos -> Hl.
  - cbn [put_be be_bytes]. by rewrite app_nil_r, Z.add_0_r.
  - cbn [put_be be_bytes]. rewrite wr_grow by (done || zlens; lia). cbn [mbind option_bind].
    rewrite IH by (zlens; lia).
    assert (z2b (Z.land (Z.shiftr z (Z.of_nat n * 8)) 255) = z2b (Z.shiftr z (8 * Z.of_nat n))) as ->.
    { by rewrite z2b_land, Z.mul_comm. }
    rewrite <- (app_assoc hdr [_]).
    by replace (zlen hdr + 1 + Z.of_nat n) with (zlen hdr + Z.of_nat (S n)) by lia.
Qed.

Lemma fin_op_byte op (fin : bool) :
  0 <= op < 16 -> z2b (Z.lor (if fin then kFinBit else 0) (Z.land op 15)) = z2b ((if fin then 128 else 0) + op).
Proof.
  intros Hop. change 15 with (2 ^ 4 - 1). rewrite land_mask, Z.mod_small by lia.
  destruct fin; [|done]. unfold kFinBit. change 128 with (Z.shiftl 8 4) at 1.
  rewrite lor_shiftl_add by lia. done.
Qed.

Lemma mask_len_byte n : 0 <= n < 128 -> Z.lor kMaskBit n = 128 + n.
Proof.
  intros. unfold kMaskBit. change 128 with (Z.shiftl 1 7) at 1. rewrite lor_shiftl_add by lia. done.
Qed.

(** The encoder emits exactly the RFC header, at the front of the buffer. *)
Lemma encode_frame_header_spec out op fin n key :
  0 <= op < 16 -> 0 <= n -> is_valid_payload_len op n = true -> length key = 4%nat ->
  frame_header_size n <= zlen out ->
  encode_frame_header out op n fin key =
    Some (frame_header_size n,
          ws_header op fin n key ++ drop (length (ws_header op fin n key)) out).
Proof.
  intros Hop Hn Hv Hk Ho. unfold is_valid_payload_len in Hv. unfold encode_frame_header.
  destruct (kMaxWsPayloadLen <? n); [done|]. destruct (negb _ && _); [done|]. clear Hv.
  pose proof (zlen_nonneg out). assert (zlen key = 4) as Hkz by (unfold zlen; lia).
  pose proof (wr_grow [] out [z2b (Z.lor (if fin then kFinBit else 0) (Z.land op 15))] 0 eq_refl) as E0.
  cbn [app length] in E0. rewrite drop_0 in E0. unfold frame_header_size in *.
  rewrite E0 by (zlens; zbool; lia). cbn [mbind option_bind]. clear E0. rewrite fin_op_byte by lia.
  rewrite slice_all by lia. unfold ws_header, len_code, len_ext. set (b0 := z2b (_ + op)).
  change (b0 :: drop 1 out) with ([b0] ++ drop (length [b0]) out).
  destruct (Z.ltb_spec n 126).
  - rewrite wr_grow by (done || zlens; lia). cbn [mbind option_bind].
    rewrite wrap_small, mask_len_byte by lia.
    rewrite wr_grow by (done || zlens; lia). done.
  - destruct (Z.leb_spec n 65535).
    + do 4 (rewrite wr_grow by (done || zlens; lia); cbn [mbind option_bind]).
      change (z2b (Z.lor kMaskBit 126)) with (z2b (128 + 126)).
      assert ([z2b (Z.shiftr n 8); z2b (Z.land n 255)] = be_bytes 2 n) as Eb.
      { by rewrite <- len_bytes_be, !z2b_land. }
      rewrite <- Eb. done.
    + rewrite wr_grow by (done || zlens; lia). cbn [mbind option_bind].
      rewrite put_be_grow by (done || zlens; lia). cbn [mbind option_bind].
      rewrite wr_grow by (zlens; lia). cbn [mbind option_bind].
      change (z2b (Z.lor kMaskBit 127)) with (z2b (128 + 127)). done.
Qed.

Lemma check_opcode_len op fin n : check_opcode op fin n = None -> 0 <= n <= kMaxWsPayloadLen ->
  is_valid_payload_len op n = true.
Proof.
  intros Hc Hn. unfold is_valid_payload_len, kMaxControlPayloadLen. zdecide.
  unfold check_opcode in Hc. destruct (is_reserved_opcode op); [done|].
  destruct (negb (Z.land op 8 =? 0)); [|done]. destruct (negb fin); [done|].
  destruct (125 <? n); done.
Qed.

Lemma encode_frame_spec key out op fin pl :
  ws_sendable op fin (zlen pl) -> length key = 4%nat -> total_frame_size (zlen pl) <= zlen out ->
  total_frame_size (zlen pl) = zlen (ws_wire op fin key pl) /\
  encode_frame key out op (Some pl) (zlen pl) fin =
    Some (zlen (ws_wire op fin key pl),
          ws_wire op fin key pl ++ drop (length (ws_wire op fin key pl)) out).
Proof.
  intros (Hop & Hn & Hc) Hk Ho. pose proof (check_opcode_len _ _ _ Hc Hn) as Hv.
  assert (6 <= frame_header_size (zlen pl) <= 14) as Hh by (unfold frame_header_size; zbool; lia).
  unfold kMaxWsPayloadLen, SIZE_MAX in *.
  assert (total_frame_size (zlen pl) = frame_header_size (zlen pl) + zlen pl) as Et.
  { unfold total_frame_size, SIZE_MAX. by zdecide. }
  assert (zlen (ws_wire op fin key pl) = frame_header_size (zlen pl) + zlen pl) as Ew.
  { unfold ws_wire, mask_ref. rewrite zlen_app, zlen_header, zlen_mask_from by done. done. }
  split; [lia|]. rewrite Ew. unfold encode_frame. rewrite encode_frame_header_spec by (done || lia).
  cbn [mbind option_bind]. zdecide. set (h := ws_header op fin (zlen pl) key).
  assert (zlen h = frame_header_size (zlen pl)) as Eh by (by apply zlen_header).
  unfold ws_wire. fold h. destruct (Z.ltb_spec 0 (zlen pl)).
  - set (rest := drop (length h) out).
    assert (zlen rest = zlen out - zlen h) as Er by (unfold rest; zlens; unfold zlen in *; lia).
    pose proof (slice_mid h rest [] (frame_header_size (zlen pl)) (zlen (h ++ rest) - frame_header_size (zlen pl)))
      as Es. rewrite app_nil_r in Es. rewrite Es by (zlens; lia). cbn [mbind option_bind].
    destruct (split_word (length pl) rest) as (d & r & Erest & Hd); [unfold zlen in *; lia|].
    rewrite Erest. pose proof (masked_copy_spec key d r pl [] Hk Hd) as Ec.
    rewrite app_nil_r in Ec. rewrite Ec. cbn [mbind option_bind].
    rewrite wr_app; [|done|zlens; unfold mask_ref; rewrite zlen_mask_from; unfold zlen in *; lia].
    cbn [mbind option_bind]. unfold mask_ref. rewrite drop_ge by (rewrite !length_app, length_mask_from; lia).
    rewrite app_nil_r, length_app, length_mask_from, <- app_assoc, <- drop_drop. fold rest.
    rewrite Erest, drop_app_length' by done. done.
  - assert (pl = []) as -> by (destruct pl; [done|unfold zlen in *; simpl in *; lia]).
    cbn [mask_ref mask_from]. rewrite app_nil_r. rewrite zlen_nil in *. by rewrite Z.add_0_r.
Qed.

(** ** Decoder: the length field *)

Lemma get_be_spec n pre bs post acc :
  length bs = n -> (n <= 8)%nat -> 0 <= acc < 2 ^ (64 - 8 * Z.of_nat n) ->
  get_be n (pre ++ bs ++ post) (zlen pre) acc = Some (acc * 256 ^ Z.of_nat n + be_val bs).
Proof.
  revert pre bs acc. induction n as [|n IH]; intros pre bs acc Hl Hn Ha.
  - destruct bs; [|done]. cbn [get_be]. change (be_val []) with 0. f_equal. change (256 ^ Z.of_nat 0) with 1. lia.
  - destruct bs as [|b bs]; [done|]. injection Hl as Hl. cbn [get_be].
    rewrite rd_app_r by done. cbn [head app mbind option_bind].
    pose proof (b2z_range b).
    assert (2 ^ (64 - 8 * Z.of_nat (S n)) * 256 = 2 ^ (64 - 8 * Z.of_nat n)) as Hpow.
    { change 256 with (2 ^ 8). rewrite <- Z.pow_add_r by lia. f_equal. lia. }
    assert (2 ^ (64 - 8 * Z.of_nat n) <= 2 ^ 64) by (apply Z.pow_le_mono_r; lia).
    rewrite wrap_small by (rewrite Z.shiftl_mul_pow2 by lia; lia).
    rewrite lor_shiftl_add by lia. change (2 ^ 8) with 256.
    rewrite cons_middle, app_assoc.
    specialize (IH (pre ++ [b]) bs (acc * 256 + b2z b) Hl ltac:(lia) ltac:(lia)).
    rewrite zlen_app in IH. change (zlen [b]) with 1 in IH. rewrite <- app_assoc in IH |- *. rewrite IH.
    rewrite be_val_cons, Hl, Nat2Z.inj_succ, Z.pow_succ_r by lia. f_equal. ring.
Qed.

Lemma decode_len_spec b0 b1 n tail :
  0 <= n <= kMaxWsPayloadLen ->
  decode_len (b0 :: b1 :: len_ext n ++ tail) (len_code n) = Some (Ok (n, 2 + zlen (len_ext n))).
Proof.
  unfold kMaxWsPayloadLen. intros Hn. unfold decode_len, len_code, len_ext.
  destruct (Z.ltb_spec n 126); [by zdecide|]. pose proof (zlen_nonneg tail).
  destruct (Z.leb_spec n 65535).
  - rewrite (proj2 (Z.ltb_ge 126 126)), Z.eqb_refl by lia. zlens. change (Z.of_nat 2) with 2. zdecide.
    change (rd _ 2) with (Some (z2b (Z.shiftr n 8))). change (rd _ (2 + 1)) with (Some (z2b (Z.shiftr n 0))).
    cbn [mbind option_bind].
    change (Z.lor _ _) with (be_val (be_bytes 2 n)). rewrite be_val_be_bytes_small by lia. by zdecide.
  - change (127 <? 126) with false. change (127 =? 126) with false. cbn [negb]. zlens.
    change (Z.of_nat 8) with 8. zdecide.
    pose proof (get_be_spec 8 [b0; b1] (be_bytes 8 n) tail 0 eq_refl ltac:(lia) ltac:(done)) as E.
    cbn [app] in E. change (zlen [b0; b1]) with 2 in E. rewrite E. cbn [mbind option_bind].
    rewrite Z.mul_0_l, Z.add_0_l, be_val_be_bytes_small by (change (256 ^ Z.of_nat 8) with (2 ^ 64); lia).
    unfold kMaxWsPayloadLen. by zdecides.
Qed.

(** An accepted length field is the unique minimal encoding of its value. *)
Lemma decode_len_inv w0 w1 rest lb n pos :
  decode_len (w0 :: w1 :: rest) lb = Some (Ok (n, pos)) -> 0 <= lb < 128 ->
  0 <= n <= kMaxWsPayloadLen /\ lb = len_code n /\ pos = 2 + zlen (len_ext n) /\
  exists tail, rest = len_ext n ++ tail.
Proof.
  unfold decode_len, kMaxWsPayloadLen. intros E Hlb.
  destruct (Z.ltb_spec lb 126).
  { simplify_eq. unfold len_code, len_ext. zdecide. split_and!; try lia; try done. by exists rest. }
  destruct (Z.eqb_spec lb 126) as [->|].
  - zlens. destruct (Z.ltb_spec (zlen rest + 1 + 1) (2 + 2)); [done|].
    destruct rest as [|c0 [|c1 tail]]; [by zlens; lia..|].
    change (rd _ 2) with (Some c0) in E. change (rd _ (2 + 1)) with (Some c1) in E.
    cbn [mbind option_bind] in E. change (Z.lor _ _) with (be_val [c0; c1]) in E.
    pose proof (be_val_bound [c0; c1]) as Hb. change (256 ^ _) with 65536 in Hb.
    destruct (Z.ltb_spec (be_val [c0; c1]) 126); [done|]. simplify_eq.
    pose proof (be_bytes_be_val [c0; c1]) as Eb. cbn [length] in Eb.
    unfold len_code, len_ext. zdecides. rewrite Eb. split_and!; try lia; try done. by exists tail.
  - zlens. destruct (Z.ltb_spec (zlen rest + 1 + 1) (2 + 8)); [done|].
    destruct (split_word 8 rest) as (bs & tail & -> & Hbs); [unfold zlen in *; lia|].
    pose proof (get_be_spec 8 [w0; w1] bs tail 0 Hbs ltac:(lia) ltac:(done)) as G.
    cbn [app] in G. change (zlen [w0; w1]) with 2 in G. rewrite G in E. cbn [mbind option_bind] in E.
    rewrite Z.mul_0_l, Z.add_0_l in E.
    destruct (Z.ltb_spec (2 ^ 63 - 1) (be_val bs)); [done|].
    destruct (Z.leb_spec (be_val bs) 65535); [done|]. simplify_eq.
    pose proof (be_bytes_be_val bs) as Eb. rewrite Hbs in Eb. pose proof (be_val_bound bs).
    unfold len_code, len_ext. zdecides. rewrite Eb.
    split_and!; try lia; [unfold zlen; by rewrite Hbs|by exists tail].
Qed.

Lemma decode_len_total w0 w1 rest lb : is_Some (decode_len (w0 :: w1 :: rest) lb).
Proof.
  unfold decode_len. destruct (lb <? 126); [eauto|]. destruct (lb =? 126).
  - destruct (Z.ltb_spec (zlen (w0 :: w1 :: rest)) (2 + 2)); [eauto|].
    destruct (rd_Some (w0 :: w1 :: rest) 2) as [c0 ->]; [lia|].
    destruct (rd_Some (w0 :: w1 :: rest) (2 + 1)) as [c1 ->]; [lia|].
    cbn [mbind option_bind]. zbool; eauto.
  - destruct (Z.ltb_spec (zlen (w0 :: w1 :: rest)) (2 + 8)); [eauto|].
    destruct (split_word 8 rest) as (bs & tail & -> & Hbs); [zlens; unfold zlen in *; lia|].
    pose proof (get_be_spec 8 [w0; w1] bs tail 0 Hbs ltac:(lia) ltac:(done)) as G.
    cbn [app] in G. change (zlen [w0; w1]) with 2 in G. rewrite G. cbn [mbind option_bind].
    zbool; eauto.
Qed.

(** ** Decoder: whole frames *)

(** The fields of the two fixed header bytes. *)
Lemma op_byte_fields op (fin : bool) :
  0 <= op < 16 ->
  let z := b2z (z2b ((if fin then 128 else 0) + op)) in
  negb (Z.land z kFinBit =? 0) = fin /\ Z.land z 15 = op /\ Z.land z 112 = 0.
Proof.
  intros Hop z.
  assert ((Bool.eqb (negb (Z.land z kFinBit =? 0)) fin && (Z.land z 15 =? op) && (Z.land z 112 =? 0)) = true)
    as E.
  { subst z. revert op Hop. apply (range_forall (fun op => _) 16). by destruct fin; vm_compute. }
  apply andb_prop in E as [[E1%Bool.eqb_prop E2]%andb_prop E3]. split_and!; [exact E1|lia|lia].
Qed.

Lemma len_byte_fields lc :
  0 <= lc < 128 ->
  let z := b2z (z2b (128 + lc)) in negb (Z.land z kMaskBit =? 0) = true /\ Z.land z 127 = lc.
Proof.
  intros Hlc z. assert (negb (Z.land z kMaskBit =? 0) && (Z.land z 127 =? lc) = true) as E.
  { subst z. revert lc Hlc. apply (range_forall (fun lc => _) 128). by vm_compute. }
  apply andb_prop in E as [E1 E2]. split; [exact E1|lia].
Qed.

Lemma op_byte_inv w :
  Z.land (b2z w) 112 = 0 ->
  w = z2b ((if negb (Z.land (b2z w) kFinBit =? 0) then 128 else 0) + Z.land (b2z w) 15) /\
  0 <= Z.land (b2z w) 15 < 16.
Proof.
  intros Hw. assert ((negb (Z.land (b2z w) 112 =? 0) ||
    ((b2z w =? b2z (z2b ((if negb (Z.land (b2z w) kFinBit =? 0) then 128 else 0) + Z.land (b2z w) 15)))
     && (Z.land (b2z w) 15 <? 16) && (0 <=? Z.land (b2z w) 15))) = true) as E.
  { revert w Hw. intros w _. revert w. apply (byte_forall (fun w => _)). by vm_compute. }
  rewrite Hw in E. cbn in E. apply andb_prop in E as [[E1 E2]%andb_prop E3].
  split; [apply b2z_inj|]; lia.
Qed.

Lemma len_byte_inv w :
  0 <= Z.land (b2z w) 127 < 128 /\
  (negb (Z.land (b2z w) kMaskBit =? 0) = true -> w = z2b (128 + Z.land (b2z w) 127)).
Proof.
  assert (((0 <=? Z.land (b2z w) 127) && (Z.land (b2z w) 127 <? 128) &&
    ((Z.land (b2z w) kMaskBit =? 0) || (b2z w =? b2z (z2b (128 + Z.land (b2z w) 127))))) = true) as E.
  { revert w. apply (byte_forall (fun w => _)). by vm_compute. }
  apply andb_prop in E as [[E1 E2]%andb_prop E3]. split; [lia|].
  intros Hm. apply b2z_inj. destruct (Z.land (b2z w) kMaskBit =? 0); [done|]. cbn in E3. lia.
Qed.

Lemma decode_frame_wire op fin key pl rest allow :
  ws_sendable op fin (zlen pl) -> length key = 4%nat ->
  decode_frame (ws_wire op fin key pl ++ rest) allow =
    Some (Ok (mkWsFrame op fin false true (zlen pl) (frame_header_size (zlen pl)) key
                (zlen (ws_wire op fin key pl)))).
Proof.
  intros (Hop & Hn & Hc) Hk. unfold decode_frame, ws_wire, ws_header.
  pose proof (zlen_nonneg rest). pose proof (len_code_range (zlen pl) ltac:(lia)) as Hlc.
  assert (zlen key = 4) as Hkz by (unfold zlen; lia).
  assert (2 + zlen (len_ext (zlen pl)) = frame_header_size (zlen pl) - 4) as Hx.
  { rewrite zlen_len_ext. lia. }
  destruct (op_byte_fields op fin Hop) as (F1 & F2 & F3).
  destruct (len_byte_fields _ Hlc) as (G1 & G2).
  set (w0 := z2b (_ + op)) in *. set (w1 := z2b (128 + _)) in *.
  set (masked := mask_ref key pl). cbn [app]. rewrite <- !app_assoc.
  assert (zlen masked = zlen pl) as Hm by apply zlen_mask_from.
  pose proof (zlen_nonneg (len_ext (zlen pl))).
  zlens. zdecide. change (rd (w0 :: _) 0) with (Some w0). change (rd (w0 :: w1 :: _) 1) with (Some w1).
  cbn [mbind option_bind]. rewrite F1, F2, F3, G1, G2. change (0 =? 0) with true. cbn [negb andb].
  rewrite decode_len_spec by done. cbn [mbind option_bind]. rewrite Hx. zdecide.
  pose proof (slice_mid (w0 :: w1 :: len_ext (zlen pl)) key (masked ++ rest)
    (frame_header_size (zlen pl) - 4) 4) as Es. cbn [app] in Es.
  rewrite Es by (zlens; lia). cbn [mbind option_bind]. zdecides. rewrite Hc.
  do 3 f_equal; lia.
Qed.

(** Frames from a server carry no mask. *)
Definition srv_wire (op : Z) (fin : bool) (pl : list byte) : list byte :=
  z2b ((if fin then 128 else 0) + op) :: z2b (len_code (zlen pl)) :: len_ext (zlen pl) ++ pl.

Lemma unmasked_len_byte lc :
  0 <= lc < 128 ->
  let z := b2z (z2b lc) in negb (Z.land z kMaskBit =? 0) = false /\ Z.land z 127 = lc.
Proof.
  intros Hlc z. assert ((Z.land z kMaskBit =? 0) && (Z.land z 127 =? lc) = true) as E.
  { subst z. revert lc Hlc. apply (range_forall (fun lc => _) 128). by vm_compute. }
  apply andb_prop in E as [E1 E2]. split; [by rewrite E1|lia].
Qed.

Lemma decode_frame_srv op fin pl rest allow :
  ws_sendable op fin (zlen pl) ->
  decode_frame (srv_wire op fin pl ++ rest) allow =
    Some (Ok (mkWsFrame op fin false false (zlen pl) (2 + zlen (len_ext (zlen pl)))
                [x00; x00; x00; x00] (zlen (srv_wire op fin pl)))).
Proof.
  intros (Hop & Hn & Hc). unfold decode_frame, srv_wire.
  pose proof (zlen_nonneg rest). pose proof (len_code_range (zlen pl) ltac:(lia)) as Hlc.
  destruct (op_byte_fields op fin Hop) as (F1 & F2 & F3).
  destruct (unmasked_len_byte _ Hlc) as (G1 & G2).
  set (w0 := z2b (_ + op)) in *. set (w1 := z2b (len_code _)) in *.
  cbn [app]. rewrite <- !app_assoc. pose proof (zlen_nonneg (len_ext (zlen pl))).
  zlens. zdecide. change (rd (w0 :: _) 0) with (Some w0). change (rd (w0 :: w1 :: _) 1) with (Some w1).
  cbn [mbind option_bind]. rewrite F1, F2, F3, G1, G2. change (0 =? 0) with true. cbn [negb andb].
  rewrite decode_len_spec by done. cbn [mbind option_bind andb]. zdecides. rewrite Hc.
  do 3 f_equal; lia.
Qed.

(** What a decoded frame says about the input. *)
Lemma decode_frame_inv wire allow f :
  decode_frame wire allow = Some (Ok f) ->
  exists w0 w1 key tail n,
    wire = w0 :: w1 :: len_ext n ++ key ++ tail /\ 0 <= n <= kMaxWsPayloadLen /\
    f_payload_len f = n /\ len_code n = Z.land (b2z w1) 127 /\ n <= zlen tail /\
    f_payload f = 2 + zlen (len_ext n) + zlen key /\ f_total_len f = f_payload f + n /\
    f_masked f = negb (Z.land (b2z w1) kMaskBit =? 0) /\
    (if f_masked f then key = f_mask_key f /\ length key = 4%nat else key = []) /\
    f_fin f = negb (Z.land (b2z w0) kFinBit =? 0) /\ f_opcode f = Z.land (b2z w0) 15 /\
    f_rsv1 f = negb (Z.land (b2z w0) 112 =? 0) /\
    check_opcode (f_opcode f) (f_fin f) n = None.
Proof.
  unfold decode_frame. intros E. destruct (Z.ltb_spec (zlen wire) 2); [done|].
  destruct wire as [|w0 [|w1 rest]]; [by zlens; lia..|].
  change (rd _ 0) with (Some w0) in E. change (rd _ 1) with (Some w1) in E. cbn [mbind option_bind] in E.
  destruct (negb _ && negb _); [done|]. cbn [mbind option_bind] in E.
  destruct (decode_len _ _) as [[[n pos]|e]|] eqn:El; cbn [mbind option_bind] in E; try done.
  destruct (len_byte_inv w1) as [Hlb _].
  destruct (decode_len_inv _ _ _ _ _ _ El Hlb) as (Hn & Hlc & Hpos & tail & ->). clear El.
  assert (zlen (w0 :: w1 :: len_ext n ++ tail) = pos + zlen tail) as Hz by (zlens; lia). rewrite Hz in E.
  destruct (negb (Z.land (b2z w1) kMaskBit =? 0)) eqn:Em; cbn [andb] in E.
  - destruct (Z.ltb_spec (pos + zlen tail) (pos + 4)); [done|].
    destruct (split_word 4 tail) as (key & tail' & -> & Hk); [unfold zlen in *; lia|].
    pose proof (slice_mid (w0 :: w1 :: len_ext n) key tail' pos 4) as Es. cbn [app] in Es.
    rewrite Es in E by (zlens; unfold zlen in *; lia). cbn [mbind option_bind] in E.
    assert (zlen key = 4) by (unfold zlen; lia). zlens.
    destruct (_ || _) eqn:Ec in E; [done|]. destruct (check_opcode _ _ n) eqn:Eo; [done|]. simplify_eq.
    cbn. exists w0, w1, key, tail', n. rewrite Em. cbn. split_and!; try done; lia.
  - cbn [mbind option_bind] in E.
    destruct (_ || _) eqn:Ec in E; [done|]. destruct (check_opcode _ _ n) eqn:Eo; [done|]. simplify_eq.
    cbn. exists w0, w1, [], tail, n. rewrite Em. cbn [app]. split_and!; try done; zlens; lia.
Qed.

Lemma decode_frame_total wire allow : is_Some (decode_frame wire allow).
Proof.
  unfold decode_frame. destruct (Z.ltb_spec (zlen wire) 2); [eauto|].
  destruct wire as [|w0 [|w1 rest]]; [by zlens; lia..|].
  change (rd _ 0) with (Some w0). change (rd _ 1) with (Some w1). cbn [mbind option_bind].
  destruct (negb _ && negb _); [eauto|]. cbn [mbind option_bind].
  destruct (decode_len_total w0 w1 rest (Z.land (b2z w1) 127)) as [r E]. rewrite E.
  cbn [mbind option_bind]. destruct r as [[n pos]|e]; [|eauto].
  destruct (len_byte_inv w1) as [Hlb _].
  destruct (decode_len_inv _ _ _ _ _ _ E Hlb) as (Hn & Hlc & Hpos & tail & ->).
  pose proof (zlen_nonneg (len_ext n)).
  destruct (negb (Z.land (b2z w1) kMaskBit =? 0)); cbn [andb mbind option_bind].
  - destruct (Z.ltb_spec (zlen (w0 :: w1 :: len_ext n ++ tail)) (pos + 4)); [eauto|].
    rewrite slice_Some by lia. cbn [mbind option_bind].
    destruct (_ || _); [eauto|]. destruct (check_opcode _ _ _); eauto.
  - destruct (_ || _); [eauto|]. destruct (check_opcode _ _ _); eauto.
Qed.

(** ** Truncated frames *)

Lemma decode_len_short w0 w1 q n tail :
  0 <= n <= kMaxWsPayloadLen -> q `prefix_of` len_ext n ++ tail -> zlen q < zlen (len_ext n) ->
  decode_len (w0 :: w1 :: q) (len_code n) = Some (Err kWsIncomplete).
Proof.
  intros Hn _. unfold decode_len, len_code, len_ext.
  destruct (Z.ltb_spec n 126); [pose proof (zlen_nonneg q); zlens; lia|].
  destruct (Z.leb_spec n 65535); intros Hq; zlens.
  - change (126 <? 126) with false. change (126 =? 126) with true. by zdecide.
  - change (127 <? 126) with false. change (127 =? 126) with false. by zdecide.
Qed.

Lemma prefix_split (q a b : list byte) :
  q `prefix_of` a ++ b -> zlen a <= zlen q -> exists q', q = a ++ q' /\ q' `prefix_of` b.
Proof.
  intros [s E] Hl. exists (drop (length a) q).
  assert (q = a ++ drop (length a) q) as Eq.
  { rewrite <- (take_drop (length a) q) at 1. f_equal.
    apply (f_equal (take (length a))) in E. rewrite take_app_length, take_app_le in E; [done|].
    unfold zlen in *. lia. }
  split; [done|]. exists s. rewrite Eq, <- app_assoc in E. by simplify_list_eq.
Qed.

Lemma decode_frame_truncated op fin key pl p s allow :
  ws_sendable op fin (zlen pl) -> length key = 4%nat ->
  ws_wire op fin key pl = p ++ s -> s <> [] ->
  decode_frame p allow = Some (Err kWsIncomplete).
Proof.
  intros (Hop & Hn & Hc) Hk Hw Hs. unfold decode_frame.
  destruct (Z.ltb_spec (zlen p) 2); [done|].
  destruct p as [|w0 [|w1 q]]; [by zlens; lia..|]. change (rd _ 0) with (Some w0). change (rd _ 1) with (Some w1).
  unfold ws_wire, ws_header in Hw. cbn [app] in Hw. injection Hw as Hw0 Hw1 Hq. rewrite <- app_assoc in Hq.
  cbn [mbind option_bind].
  pose proof (len_code_range (zlen pl) ltac:(lia)) as Hlc.
  destruct (op_byte_fields op fin Hop) as (F1 & F2 & F3). destruct (len_byte_fields _ Hlc) as (G1 & G2).
  rewrite Hw0 in F1, F2, F3. rewrite Hw1 in G1, G2. rewrite F1, F2, F3, G1, G2.
  change (0 =? 0) with true. cbn [negb andb mbind option_bind].
  assert (zlen q + zlen s = zlen (len_ext (zlen pl)) + 4 + zlen pl) as Hlen.
  { assert (zlen key = 4) by (unfold zlen; lia). apply (f_equal zlen) in Hq.
    unfold mask_ref in Hq. zlens. rewrite zlen_mask_from in Hq. lia. }
  assert (0 < zlen s) by (destruct s; [done|zlens; pose proof (zlen_nonneg s); lia]).
  assert (q `prefix_of` len_ext (zlen pl) ++ key ++ mask_ref key pl) as Hpre by (exists s; done).
  destruct (decide (zlen q < zlen (len_ext (zlen pl)))) as [Hsh|Hsh].
  - by erewrite decode_len_short by done.
  - destruct (prefix_split _ _ _ Hpre) as (q' & -> & Hpre'); [lia|].
    rewrite decode_len_spec by done. cbn [mbind option_bind]. zlens.
    destruct (Z.ltb_spec (zlen (len_ext (zlen pl)) + zlen q' + 1 + 1) (2 + zlen (len_ext (zlen pl)) + 4)); [done|].
    rewrite slice_Some by (zlens; pose proof (zlen_nonneg (len_ext (zlen pl))); lia). cbn [mbind option_bind].
    zdecides. done.
Qed.

(** ** Close frames *)

Lemma unmask_reason_spec key i bs :
  length key = 4%nat -> unmask_reason key (Z.of_nat i) bs = Some (mask_from key (i + 2) bs).
Proof.
  intros Hk. revert i. induction bs as [|b t IH]; intros i; [done|]. cbn [unmask_reason mask_from].
  rewrite (rd_mask key _ (i + 2)) by (done || lia). cbn [mbind option_bind].
  replace (Z.of_nat i + 1) with (Z.of_nat (S i)) by lia. by rewrite IH.
Qed.

Lemma close_fields key h c0 c1 reason rest op fin n tl :
  length key = 4%nat -> n = 2 + zlen reason -> op = opcode.kClose ->
  let f := mkWsFrame op fin false true n (zlen h) key tl in
  close_status_code (h ++ mask_ref key (c0 :: c1 :: reason) ++ rest) f = Some (be_val [c0; c1]) /\
  close_reason_unmasked (h ++ mask_ref key (c0 :: c1 :: reason) ++ rest) f = Some reason.
Proof.
  intros Hk -> -> f. pose proof (zlen_nonneg reason).
  unfold close_status_code, close_reason_unmasked. cbn [f_opcode f_payload_len f_payload f_masked f_mask_key f].
  change (opcode.kClose =? opcode.kClose) with true. cbn [negb orb].
  unfold mask_ref. cbn [mask_from]. set (m0 := nth (0 mod 4) key x00). set (m1 := nth (1 mod 4) key x00).
  destruct key as [|k0 [|k1 [|k2 [|k3 [|]]]]]; try done. split.
  - zdecide. rewrite (rd_app_r h _ (zlen h)) by done. cbn [head app mbind option_bind].
    rewrite cons_middle, app_assoc, rd_app_r by (by zlens). cbn [head app mbind option_bind].
    change (rd _ 0) with (Some m0). change (rd _ 1) with (Some m1). cbn [mbind option_bind].
    rewrite !bxor_invol. by rewrite u16_len_bytes.
  - destruct (Z.leb_spec (2 + zlen reason) 2).
    { destruct reason; [done|]. zlens. pose proof (zlen_nonneg reason). lia. }
    set (key := [k0; k1; k2; k3]) in *.
    pose proof (slice_mid (h ++ [bxor c0 m0; bxor c1 m1]) (mask_from key 2 reason) rest
      (zlen h + 2) (2 + zlen reason - 2)) as Es. rewrite <- app_assoc in Es. cbn [app] in Es |- *.
    rewrite Es by (zlens; rewrite ?zlen_mask_from; lia). cbn [mbind option_bind].
    pose proof (unmask_reason_spec key 0 (mask_from key 2 reason) Hk) as Eu.
    change (Z.of_nat 0) with 0 in Eu. rewrite Eu.
    f_equal. apply mask_from_invol.
Qed.

(** ** Mask-key cache *)

Section mask_key_cache.
(** [getrandom(2)]: the count it returns and the buffer it leaves. *)
Context {rng : Type} (getrandom : rng -> Z -> Z * list byte * rng).

Definition kPoolSize : Z := 1024.

Record MaskKeyCache := mkCache { pool_ : list byte; pos_ : Z }.

Inductive aborted : Set := Aborted.

(** [refill], [attempt] tries left. *)
Fixpoint refill (attempts : nat) (r : rng) : expected (MaskKeyCache * rng) aborted :=
  match attempts with
  | O => Err Aborted
  | S n =>
      let '(got, bytes, r) := getrandom r (kPoolSize * 4) in
      if got =? kPoolSize * 4 then Ok (mkCache bytes 0, r) else refill n r
  end.

(** [None] is an out-of-bounds read of the pool, [Err] is [std::abort]. *)
Definition next_key (c : MaskKeyCache) (r : rng)
    : option (expected (list byte * MaskKeyCache * rng) aborted) :=
  match (if kPoolSize <=? pos_ c then refill 3 r else Ok (c, r)) with
  | Err e => Some (Err e)
  | Ok (c, r) =>
      key ← slice (pool_ c) (pos_ c * 4) 4;
      Some (Ok (key, mkCache (pool_ c) (pos_ c + 1), r))
  end.

(** A run of [n] calls: the keys handed out. *)
Fixpoint next_keys (n : nat) (c : MaskKeyCache) (r : rng)
    : option (expected (list (list byte) * MaskKeyCache * rng) aborted) :=
  match n with
  | O => Some (Ok ([], c, r))
  | S n =>
      x ← next_key c r;
      match x with
      | Err e => Some (Err e)
      | Ok (k, c, r) =>
          y ← next_keys n c r;
          match y with
          | Err e => Some (Err e)
          | Ok (ks, c, r) => Some (Ok (k :: ks, c, r))
          end
      end
  end.

Definition cache_inv (c : MaskKeyCache) : Prop :=
  zlen (pool_ c) = kPoolSize * 4 /\ 0 <= pos_ c <= kPoolSize.

(** A full read fills the whole buffer. *)
Hypothesis getrandom_full : forall r n bytes r',
  0 <= n -> getrandom r n = (n, bytes, r') -> zlen bytes = n.

Lemma refill_inv n r c r' : refill n r = Ok (c, r') -> cache_inv c /\ pos_ c = 0.
Proof using getrandom_full.
  revert r. induction n as [|n IH]; intros r; cbn [refill]; [done|].
  destruct (getrandom r (kPoolSize * 4)) as [[got bytes] r1] eqn:E.
  destruct (Z.eqb_spec got (kPoolSize * 4)) as [->|]; [|apply IH].
  intros [= <- <-]. apply getrandom_full in E; [|done]. split; [|done]. split; [done|cbn; unfold kPoolSize; lia].
Qed.

Lemma next_key_inv c r :
  cache_inv c ->
  exists x, next_key c r = Some x /\
    match x with Err _ => True | Ok (k, c', _) => length k = 4%nat /\ cache_inv c' end.
Proof using getrandom_full.
  intros Hc. unfold next_key. destruct (Z.leb_spec kPoolSize (pos_ c)).
  - destruct (refill 3 r) as [[c1 r1]|e] eqn:E; [|by eexists].
    destruct (refill_inv _ _ _ _ E) as [[Hl Hp] H0].
    rewrite slice_Some by (rewrite ?Hl, ?H0; unfold kPoolSize; lia).
    cbn [mbind option_bind]. eexists; split; [done|]. cbn.
    rewrite length_take, length_drop. unfold cache_inv, zlen, kPoolSize in *. cbn. lia.
  - destruct Hc as [Hl Hp]. rewrite slice_Some by (rewrite ?Hl; unfold kPoolSize in *; lia).
    cbn [mbind option_bind]. eexists; split; [done|]. cbn.
    rewrite length_take, length_drop. unfold cache_inv, zlen, kPoolSize in *. cbn. lia.
Qed.

(** Between two refills the keys are consecutive, disjoint quadruples of the
    pool. *)
Lemma next_keys_run n c r :
  cache_inv c -> pos_ c + Z.of_nat n <= kPoolSize ->
  exists ks, next_keys n c r = Some (Ok (ks, mkCache (pool_ c) (pos_ c + Z.of_nat n), r)) /\
    length ks = n /\
    forall j, (j < n)%nat ->
      ks !! j = slice (pool_ c) ((pos_ c + Z.of_nat j) * 4) 4.
Proof.
  intros Hc. revert c Hc. induction n as [|n IH]; intros c [Hl Hp] Hn.
  - exists []. cbn. split; [|split; [done|lia]]. rewrite Z.add_0_r. by destruct c.
  - cbn [next_keys]. unfold next_key. zdecide.
    rewrite slice_Some by (rewrite ?Hl; lia). cbn [mbind option_bind].
    destruct (IH (mkCache (pool_ c) (pos_ c + 1))) as (ks & E & Hk & Hj).
    { split; cbn; [done|lia]. } { cbn. lia. }
    cbn [pool_ pos_] in *. rewrite E. cbn [mbind option_bind].
    replace (pos_ c + 1 + Z.of_nat n) with (pos_ c + Z.of_nat (S n)) by lia.
    eexists; split; [reflexivity|]. split; [simpl; lia|]. intros [|j] Hjn.
    + rewrite Z.add_0_r, slice_Some by (rewrite ?Hl; lia). done.
    + cbn. rewrite Hj by lia. f_equal. lia.
Qed.

End mask_key_cache.

(** ** UTF-8 validation *)

(** The Hoehrmann table of the source: 256 byte classes, then nine rows of
    sixteen transitions. *)
Definition utf8d : list Z :=
  replicate 128 0 ++
  replicate 16 1 ++ replicate 16 9 ++ replicate 32 7 ++
  [8;8;2;2;2;2;2;2;2;2;2;2;2;2;2;2;2;2;2;2;2;2;2;2;2;2;2;2;2;2;2;2] ++
  [10;3;3;3;3;3;3;3;3;3;3;3;3;4;3;3] ++
  [11;6;6;6;5;8;8;8;8;8;8;8;8;8;8;8] ++
  [0;1;2;3;5;8;7;1;1;1;4;6;1;1;1;1] ++
  [1;1;1;1;1;1;1;1;1;1;1;1;1;1;1;1;1;0;1;1;1;1;1;0;1;0;1;1;1;1;1;1] ++
  [1;2;1;1;1;1;1;2;1;2;1;1;1;1;1;1;1;1;1;1;1;1;1;2;1;1;1;1;1;1;1;1] ++
  [1;2;1;1;1;1;1;1;1;2;1;1;1;1;1;1;1;1;1;1;1;1;1;3;1;3;1;1;1;1;1;1] ++
  [1;3;1;1;1;1;1;3;1;3;1;1;1;1;1;1;1;3;1;1;1;1;1;1;1;1;1;1;1;1;1;1].

Definition utf8_lookup (i : Z) : option Z := if 0 <=? i then utf8d !! Z.to_nat i else None.

Fixpoint utf8_loop (state : Z) (data : list byte) : option bool :=
  match data with
  | [] => Some (state =? 0)
  | b :: t =>
      type ← utf8_lookup (b2z b);
      state ← utf8_lookup (256 + state * 16 + type);
      if state =? 1 then Some false else utf8_loop state t
  end.

Definition is_valid_utf8 (data : list byte) : option bool := utf8_loop 0 data.

(** RFC 3629 section 4: the octet ranges after each lead octet. *)
Definition in_range (b : byte) (r : Z * Z) : bool := (fst r <=? b2z b) && (b2z b <=? snd r).
Definition tail_range : Z * Z := (128, 191).

Definition utf8_rows : list ((Z * Z) * list (Z * Z)) :=
  [ ((0, 127), []);
    ((194, 223), [tail_range]);
    ((224, 224), [(160, 191); tail_range]);
    ((225, 236), [tail_range; tail_range]);
    ((237, 237), [(128, 159); tail_range]);
    ((238, 239), [tail_range; tail_range]);
    ((240, 240), [(144, 191); tail_range; tail_range]);
    ((241, 243), [tail_range; tail_range; tail_range]);
    ((244, 244), [(128, 143); tail_range; tail_range]) ].

(** A UTF-8 character, and a well-formed UTF-8 string. *)
Definition utf8_char (bs : list byte) : Prop :=
  exists lead row, (lead, row) ∈ utf8_rows /\
    Forall2 (fun b r => in_range b r = true) bs (lead :: row).
Definition utf8_string (bs : list byte) : Prop :=
  exists cs, Forall utf8_char cs /\ bs = concat cs.

(** The octets a state still expects, and the row of a lead octet. *)
Definition pending (s : Z) : list (Z * Z) :=
  match s with
  | 2 => [tail_range]
  | 3 => [tail_range; tail_range]
  | 4 => [(160, 191); tail_range]
  | 5 => [(128, 159); tail_range]
  | 6 => [(144, 191); tail_range; tail_range]
  | 7 => [tail_range; tail_range; tail_range]
  | 8 => [(128, 143); tail_range; tail_range]
  | _ => []
  end.

Definition utf8_next (s : Z) (b : byte) : option Z :=
  type ← utf8_lookup (b2z b); utf8_lookup (256 + s * 16 + type).

Definition ranges_eqb (a b : list (Z * Z)) : bool := bool_decide (a = b).

(** One table row, checked on every byte. *)
Definition row_ok (s : Z) (b : byte) : bool :=
  match utf8_next s b with
  | None => false
  | Some s' =>
      (0 <=? s') && (s' <=? 8) &&
      match pending s with
      | [] =>
          match list_find (fun r => in_range b (fst r) = true) utf8_rows with
          | Some (_, (_, row)) => negb (s' =? 1) && ranges_eqb (pending s') row &&
                                  (if s' =? 0 then ranges_eqb row [] else negb (ranges_eqb row []))
          | None => s' =? 1
          end
      | r :: rs =>
          if in_range b r then negb (s' =? 1) && ranges_eqb (pending s') rs &&
                               (if s' =? 0 then ranges_eqb rs [] else negb (ranges_eqb rs []))
          else s' =? 1
      end
  end.

Lemma table_ok : forallb (fun s => forallb (fun k => row_ok s (z2b (Z.of_nat k))) (seq 0 256))
  [0; 2; 3; 4; 5; 6; 7; 8] = true.
Proof. vm_compute. reflexivity. Qed.

Definition live (s : Z) : Prop := s ∈ [0; 2; 3; 4; 5; 6; 7; 8].

Lemma row_ok_live s b : live s -> row_ok s b = true.
Proof.
  intros Hs. apply (byte_forall (row_ok s)). pose proof table_ok as Ht.
  rewrite forallb_forall in Ht. apply Ht. by apply list_elem_of_In.
Qed.

Lemma live_of s : 0 <= s <= 8 -> s <> 1 -> live s.
Proof.
  intros. unfold live. assert (s = 0 \/ s = 2 \/ s = 3 \/ s = 4 \/ s = 5 \/ s = 6 \/ s = 7 \/ s = 8) by lia.
  rewrite !elem_of_cons. tauto.
Qed.

Lemma pending_nil s : live s -> pending s = [] <-> s = 0.
Proof.
  unfold live. intros Hs. split; [|by intros ->].
  repeat (apply elem_of_cons in Hs as [->|Hs]; [done|]). by apply elem_of_nil in Hs.
Qed.

(** The row found for a lead octet is the only one it starts. *)
Lemma lead_unique b lead row :
  (lead, row) ∈ utf8_rows -> in_range b lead = true ->
  snd <$> list_find (fun r => in_range b (fst r) = true) utf8_rows = Some (lead, row).
Proof.
  intros Hin Hb.
  assert (forallb (fun lr => negb (in_range b (fst lr)) || bool_decide
    (snd <$> list_find (fun r => in_range b (fst r) = true) utf8_rows = Some lr)) utf8_rows = true) as Hall.
  { clear. revert b. apply byte_forall. by vm_compute. }
  rewrite forallb_forall in Hall. specialize (Hall (lead, row)).
  cbn [fst] in Hall. rewrite Hb in Hall. cbn [negb orb] in Hall.
  apply (bool_decide_eq_true_1 _), Hall. by apply list_elem_of_In.
Qed.

(** From state [s], the rest of a character followed by whole characters. *)
Definition accepts (s : Z) (bs : list byte) : Prop :=
  exists pre cs, Forall2 (fun b r => in_range b r = true) pre (pending s) /\
    Forall utf8_char cs /\ bs = pre ++ concat cs.

Lemma utf8_char_cons c : utf8_char c -> exists b t, c = b :: t.
Proof. intros (lead & row & _ & H). destruct c as [|b t]; [by inversion H|eauto]. Qed.

Lemma accepts_nil s : live s -> accepts s [] <-> s = 0.
Proof.
  intros Hs. split.
  - intros (pre & cs & Hp & Hc & E). symmetry in E. apply app_nil in E as [-> E].
    apply pending_nil; [done|]. by inversion Hp.
  - intros ->. exists [], []. split; [constructor|]. split; [constructor|done].
Qed.

(** A transition inside a character consumes the next expected octet. *)
Lemma accepts_tail s s' r rs b t :
  pending s = r :: rs -> pending s' = rs -> in_range b r = true -> accepts s (b :: t) <-> accepts s' t.
Proof.
  intros Hp Hp' Hb. unfold accepts. rewrite Hp, Hp'. split.
  - intros (pre & cs & Hf & Hc & E). inversion Hf as [|? ? pre' ? ? Hf' E1 E2]; subst. simplify_eq/=. eauto.
  - intros (pre & cs & Hf & Hc & ->). exists (b :: pre), cs. split; [by constructor|done].
Qed.

(** From the accepting state, the row of the lead octet is what is expected. *)
Lemma accepts_lead s s' lead row b t :
  pending s = [] -> pending s' = row -> (lead, row) ∈ utf8_rows -> in_range b lead = true ->
  accepts s (b :: t) <-> accepts s' t.
Proof.
  intros Hp Hp' Hin Hb. unfold accepts. rewrite Hp, Hp'. split.
  - intros (pre & cs & Hf & Hc & E). inversion Hf; subst pre. destruct Hc as [|c cs Hc Hcs]; [done|].
    destruct Hc as (lead' & row' & Hin' & Hf'). destruct c as [|b' c]; [by inversion Hf'|].
    cbn in E. injection E as <- ->. apply Forall2_cons_1 in Hf' as [Hb' Hrow].
    pose proof (lead_unique _ _ _ Hin Hb) as E1. rewrite (lead_unique _ _ _ Hin' Hb') in E1.
    simplify_eq. by exists c, cs.
  - intros (pre & cs & Hf & Hc & ->). exists [], ((b :: pre) :: cs). split; [constructor|]. split; [|done].
    constructor; [|done]. exists lead, row. split; [done|by constructor].
Qed.

Lemma utf8_loop_spec s bs :
  live s -> exists r, utf8_loop s bs = Some r /\ (r = true <-> accepts s bs).
Proof.
  revert s. induction bs as [|b t IH]; intros s Hs.
  - exists (s =? 0). split; [done|]. rewrite accepts_nil by done. apply Z.eqb_eq.
  - pose proof (row_ok_live s b Hs) as Hr. unfold row_ok in Hr. cbn [utf8_loop].
    unfold utf8_next in Hr. destruct (utf8_lookup (b2z b)) as [type|]; [|done]. cbn [mbind option_bind] in *.
    destruct (utf8_lookup (256 + s * 16 + type)) as [s'|]; [|done]. cbn [mbind option_bind].
    apply andb_prop in Hr as [[H0 H8]%andb_prop Hr].
    destruct (pending s) as [|r rs] eqn:Hp.
    + destruct (list_find _ utf8_rows) as [[i [lead row]]|] eqn:Hf.
      * apply andb_prop in Hr as [[H1 Hrow]%andb_prop _].
        destruct (Z.eqb_spec s' 1); [done|]. apply bool_decide_eq_true_1 in Hrow.
        apply list_find_Some in Hf as (Hi & Hb & _). cbn in Hb.
        destruct (IH s') as (x & E & Hx); [apply live_of; lia|]. exists x. split; [done|].
        rewrite Hx. symmetry. eapply accepts_lead; eauto using list_elem_of_lookup_2.
      * rewrite Hr. exists false. split; [done|]. split; [done|].
        intros (pre & cs & Hf2 & Hc & E). rewrite Hp in Hf2. inversion Hf2; subst pre.
        destruct Hc as [|c cs Hc Hcs]; [done|]. destruct Hc as (lead & row & Hin & Hf').
        destruct c as [|b' c]; [by inversion Hf'|]. cbn in E. injection E as <- _.
        apply Forall2_cons_1 in Hf' as [Hb' _]. pose proof (lead_unique _ _ _ Hin Hb') as E1.
        by rewrite Hf in E1.
    + destruct (in_range b r) eqn:Hb.
      * apply andb_prop in Hr as [[H1 Hrow]%andb_prop _].
        destruct (Z.eqb_spec s' 1); [done|]. apply bool_decide_eq_true_1 in Hrow.
        destruct (IH s') as (x & E & Hx); [apply live_of; lia|]. exists x. split; [done|].
        rewrite Hx. symmetry. by eapply accepts_tail.
      * rewrite Hr. exists false. split; [done|]. split; [done|].
        intros (pre & cs & Hf2 & Hc & E). rewrite Hp in Hf2. destruct pre as [|p pre]; [by inversion Hf2|].
        apply Forall2_cons_1 in Hf2 as [Hp1 _]. cbn in E. injection E as <- _. congruence.
Qed.

(** ** Properties *)

(** the word-at-a-time loops compute RFC 6455 masking.  [apply_mask] (in
    place, 32-bit blocks) and [masked_copy] (64-bit, 32-bit and byte stages) both
    write octet [i] XORed with key octet [i mod 4], touch nothing past the payload
    and never leave the buffers; masking twice restores the payload. *)
Theorem ws_masking_correct mask body post dbody :
  length mask = 4%nat -> length dbody = length body ->
  apply_mask (body ++ post) (zlen body) mask = Some (mask_ref mask body ++ post) /\
  masked_copy (dbody ++ post) body (zlen body) mask = Some (mask_ref mask body ++ post) /\
  (m ← apply_mask body (zlen body) mask; apply_mask m (zlen body) mask) = Some body.
Proof.
  intros Hm Hd. split; [by apply apply_mask_spec|]. split.
  - rewrite <- (app_nil_r body). rewrite zlen_app, zlen_nil, Z.add_0_r.
    rewrite (app_nil_r body) at 2. by apply masked_copy_spec.
  - pose proof (apply_mask_spec mask body [] Hm) as E1. rewrite !app_nil_r in E1. rewrite E1.
    cbn [mbind option_bind]. pose proof (apply_mask_spec mask (mask_ref mask body) [] Hm) as E2.
    rewrite !app_nil_r, mask_ref_invol in E2. unfold mask_ref in *. by rewrite zlen_mask_from in E2.
Qed.

Lemma ws_masking_correct_witness :
  let k := [x01; x02; x03; x04] in let p := [x10; x20; x30; x40; x50; x60; x70; x80; x90; xa0; xb0; xc0; xd0] in
  apply_mask (p ++ [xff]) (zlen p) k = Some (mask_ref k p ++ [xff]) /\
  masked_copy (replicate 13 x00 ++ [xff]) p (zlen p) k = Some (mask_ref k p ++ [xff]) /\
  (m ← apply_mask p (zlen p) k; apply_mask m (zlen p) k) = Some p.
Proof. intros k p. apply (ws_masking_correct k p [xff] (replicate 13 x00)); reflexivity. Defined.

(** C16: frame round trip.  [encode_frame] writes exactly [total_frame_size] bytes
    and leaves the rest of the buffer alone; decoding those bytes, whatever follows
    them, yields the same opcode, FIN bit and length, and unmasking the payload view
    gives back the payload. *)
Theorem ws_frame_roundtrip key out op fin pl rest allow :
  ws_sendable op fin (zlen pl) -> length key = 4%nat -> total_frame_size (zlen pl) <= zlen out ->
  exists frame f,
    encode_frame key out op (Some pl) (zlen pl) fin
      = Some (total_frame_size (zlen pl), frame ++ drop (length frame) out) /\
    zlen frame = total_frame_size (zlen pl) /\
    decode_frame (frame ++ rest) allow = Some (Ok f) /\
    f_opcode f = op /\ f_fin f = fin /\ f_rsv1 f = false /\ f_payload_len f = zlen pl /\
    f_total_len f = zlen frame /\
    (masked ← slice (frame ++ rest) (f_payload f) (f_payload_len f);
     apply_mask masked (f_payload_len f) (f_mask_key f)) = Some pl.
Proof.
  intros Hs Hk Ho. destruct (encode_frame_spec key out op fin pl Hs Hk Ho) as [Et Ee].
  exists (ws_wire op fin key pl). eexists. rewrite Et. split; [exact Ee|]. split; [done|].
  split; [by apply decode_frame_wire|]. cbn. split_and!; try done.
  unfold ws_wire. rewrite <- app_assoc.
  rewrite (slice_mid (ws_header op fin (zlen pl) key) (mask_ref key pl) rest);
    [|symmetry; by apply zlen_header|symmetry; apply zlen_mask_from].
  cbn [mbind option_bind]. pose proof (apply_mask_spec key (mask_ref key pl) [] Hk) as E.
  rewrite !app_nil_r, mask_ref_invol in E. unfold mask_ref in *. by rewrite zlen_mask_from in E.
Qed.

Lemma ws_frame_roundtrip_witness :
  exists frame f,
    encode_frame [x0a; x0b; x0c; x0d] (replicate 16 x00) 1 (Some [x68; x69]) 2 true
      = Some (8, frame ++ drop (length frame) (replicate 16 x00)) /\ zlen frame = 8 /\
    decode_frame (frame ++ [x81]) false = Some (Ok f) /\
    f_opcode f = 1 /\ f_fin f = true /\ f_rsv1 f = false /\ f_payload_len f = 2 /\
    f_total_len f = zlen frame /\
    (masked ← slice (frame ++ [x81]) (f_payload f) (f_payload_len f);
     apply_mask masked (f_payload_len f) (f_mask_key f)) = Some [x68; x69].
Proof.
  apply (ws_frame_roundtrip [x0a; x0b; x0c; x0d] (replicate 16 x00) 1 true [x68; x69] [x81] false).
  - split; [lia|]. split; [unfold kMaxWsPayloadLen, zlen; cbn; lia|reflexivity].
  - reflexivity.
  - vm_compute. discriminate.
Defined.

(** the decoder accepts only the canonical encoding.  The header of any
    accepted masked frame without extension bits is byte for byte what
    [encode_frame_header] produces for the decoded fields: non-minimal lengths,
    lengths with the top bit set, reserved opcodes and oversized or fragmented
    control frames are all refused. *)
Theorem ws_decode_canonical wire allow f :
  decode_frame wire allow = Some (Ok f) -> f_masked f = true -> f_rsv1 f = false ->
  exists hdr tail,
    wire = hdr ++ tail /\ f_payload f = zlen hdr /\ f_payload_len f <= zlen tail /\
    ws_sendable (f_opcode f) (f_fin f) (f_payload_len f) /\
    encode_frame_header hdr (f_opcode f) (f_payload_len f) (f_fin f) (f_mask_key f) = Some (zlen hdr, hdr).
Proof.
  intros E Hm Hr. destruct (decode_frame_inv wire allow f E)
    as (w0 & w1 & key & tail & n & -> & Hn & En & Hlc & Ht & Hp & _ & Em & Hk & Ef & Eo & Er & Hc).
  rewrite Hm in Em, Hk. destruct Hk as [-> Hk]. rewrite Hr in Er.
  destruct (op_byte_inv w0) as [E0 Ho]; [symmetry in Er; apply negb_false_iff in Er; lia|].
  destruct (len_byte_inv w1) as [_ E1]. specialize (E1 (eq_sym Em)).
  rewrite <- Ef, <- Eo in E0. rewrite <- Hlc in E1. rewrite <- Eo in Ho. rewrite En.
  assert (w0 :: w1 :: len_ext n ++ f_mask_key f = ws_header (f_opcode f) (f_fin f) n (f_mask_key f)) as Eh.
  { unfold ws_header. by rewrite <- E0, <- E1. }
  exists (ws_header (f_opcode f) (f_fin f) n (f_mask_key f)), tail. rewrite <- Eh.
  split; [cbn; by rewrite <- app_assoc|]. split; [zlens; lia|]. split; [lia|].
  split; [by split_and!; try lia|]. rewrite Eh.
  rewrite encode_frame_header_spec; [|lia..| | |].
  - rewrite zlen_header, drop_ge, app_nil_r by (done || lia). done.
  - by apply check_opcode_len with (f_fin f).
  - done.
  - rewrite zlen_header by done. lia.
Qed.

Lemma ws_decode_canonical_witness :
  let wire := [x82; x81; x01; x02; x03; x04; x55; x00] in
  exists f, decode_frame wire false = Some (Ok f) /\ f_masked f = true /\ f_rsv1 f = false /\
  exists hdr tail,
    wire = hdr ++ tail /\ f_payload f = zlen hdr /\ f_payload_len f <= zlen tail /\
    ws_sendable (f_opcode f) (f_fin f) (f_payload_len f) /\
    encode_frame_header hdr (f_opcode f) (f_payload_len f) (f_fin f) (f_mask_key f) = Some (zlen hdr, hdr).
Proof.
  intros wire. exists (mkWsFrame 2 true false true 1 6 [x01; x02; x03; x04] 7).
  split; [reflexivity|]. split; [reflexivity|]. split; [reflexivity|].
  apply (ws_decode_canonical wire false); reflexivity.
Defined.

(** decoding is memory safe.  On any bytes [decode_frame] returns without
    reading outside them, and the payload view, key and total length of an accepted
    frame lie inside the input. *)
Theorem ws_decode_safe wire allow :
  (exists r, decode_frame wire allow = Some r) /\
  forall f, decode_frame wire allow = Some (Ok f) ->
    2 <= f_payload f /\ 0 <= f_payload_len f <= kMaxWsPayloadLen /\
    f_total_len f = f_payload f + f_payload_len f /\ f_total_len f <= zlen wire.
Proof.
  split; [apply decode_frame_total|]. intros f E.
  destruct (decode_frame_inv wire allow f E)
    as (w0 & w1 & key & tail & n & -> & Hn & En & _ & Ht & Hp & Hl & _).
  pose proof (zlen_nonneg key). pose proof (zlen_nonneg (len_ext n)). zlens. lia.
Qed.

(** a truncated frame is always reported as incomplete, so a receiver that
    waits for more bytes never mistakes a partial frame for an error. *)
Theorem ws_truncated_incomplete op fin key pl p s allow :
  ws_sendable op fin (zlen pl) -> length key = 4%nat -> ws_wire op fin key pl = p ++ s -> s <> [] ->
  decode_frame p allow = Some (Err kWsIncomplete).
Proof. apply decode_frame_truncated. Qed.

Lemma ws_truncated_incomplete_witness :
  ws_wire 2 true [x01; x02; x03; x04] [x05] = [x82; x81; x01; x02] ++ [x03; x04; x04] /\
  decode_frame [x82; x81; x01; x02] false = Some (Err kWsIncomplete).
Proof.
  split; [reflexivity|].
  apply (ws_truncated_incomplete 2 true [x01; x02; x03; x04] [x05] _ [x03; x04; x04] false);
    [split; [lia|split; [unfold kMaxWsPayloadLen, zlen; cbn; lia|reflexivity]]|reflexivity|reflexivity|done].
Defined.

(** close frames carry their status code and reason.  Decoding what
    [build_close_frame] writes, [close_status_code] returns the code and
    [close_reason_unmasked] the reason, cut to the 123 bytes a control frame can
    hold. *)
Theorem ws_close_roundtrip key out code reason :
  length key = 4%nat -> 0 <= code < 65536 -> 131 <= zlen out ->
  exists frame f n,
    build_close_frame key out code reason = Some (n, frame ++ drop (length frame) out) /\
    n = zlen frame /\ decode_frame frame false = Some (Ok f) /\ f_total_len f = n /\
    is_close f = true /\ close_status_code frame f = Some code /\
    close_reason_unmasked frame f = Some (take 123 reason).
Proof.
  intros Hk Hcode Ho. set (r := take 123 reason). set (pl := be_bytes 2 code ++ r).
  assert (zlen r = Z.min (zlen reason) 123) as Hr by (unfold r; zlens; unfold zlen; lia).
  assert (zlen pl = 2 + Z.min (zlen reason) 123) as Hpl by (unfold pl; zlens; lia).
  assert (0 <= zlen reason) by apply zlen_nonneg.
  assert (ws_sendable opcode.kClose true (zlen pl)) as Hs.
  { split; [unfold opcode.kClose; lia|]. split; [unfold kMaxWsPayloadLen; lia|].
    unfold check_opcode. cbn [negb]. change (Z.land opcode.kClose 8 =? 0) with false. cbn [negb].
    change (is_reserved_opcode opcode.kClose) with false. zdecides. done. }
  assert (build_close_frame key out code reason = encode_frame key out opcode.kClose (Some pl) (zlen pl) true) as Eb.
  { unfold build_close_frame. rewrite slice_Some by lia. cbn [mbind option_bind]. rewrite drop_0.
    rewrite Hpl. do 2 f_equal. unfold pl. f_equal.
    - by rewrite <- len_bytes_be, !z2b_land.
    - unfold r, zlen. destruct (decide (length reason <= 123)%nat).
      + rewrite !take_ge; [done|lia..].
      + do 2 f_equal. lia. }
  destruct (encode_frame_spec key out opcode.kClose true pl Hs Hk) as [Et Ee].
  { unfold total_frame_size, frame_header_size, SIZE_MAX in *. zbool; lia. }
  exists (ws_wire opcode.kClose true key pl). eexists. eexists. rewrite Eb, Ee. split; [done|]. split; [done|].
  pose proof (decode_frame_wire opcode.kClose true key pl [] false Hs Hk) as Ed. rewrite app_nil_r in Ed.
  split; [exact Ed|]. split; [done|]. split; [done|].
  unfold ws_wire, pl. cbn [be_bytes app].
  destruct (close_fields key (ws_header opcode.kClose true (zlen pl) key) (z2b (Z.shiftr code 8))
    (z2b (Z.shiftr code 0)) r [] opcode.kClose true (zlen pl) (zlen (ws_wire opcode.kClose true key pl)))
    as [E1 E2]; [done|lia|done|]. rewrite zlen_header in E1, E2 by done. rewrite app_nil_r in E1, E2.
  split; [|exact E2]. etrans; [exact E1|]. f_equal.
  change [z2b (Z.shiftr code 8); z2b (Z.shiftr code 0)] with (be_bytes 2 code).
  by apply be_val_be_bytes_small.
Qed.

Lemma ws_close_roundtrip_witness :
  exists frame f n,
    build_close_frame [x01; x02; x03; x04] (replicate 131 x00) 1000 [x62; x79; x65]
      = Some (n, frame ++ drop (length frame) (replicate 131 x00)) /\
    n = zlen frame /\ decode_frame frame false = Some (Ok f) /\ f_total_len f = n /\
    is_close f = true /\ close_status_code frame f = Some 1000 /\
    close_reason_unmasked frame f = Some (take 123 [x62; x79; x65]).
Proof.
  apply (ws_close_roundtrip [x01; x02; x03; x04] (replicate 131 x00) 1000 [x62; x79; x65]);
    [reflexivity|lia|vm_compute; discriminate].
Defined.

(** [is_valid_utf8] decides RFC 3629.  The table-driven automaton never indexes
    outside its table and accepts exactly the concatenations of well-formed UTF-8
    characters: no overlong forms, no surrogates, nothing above U+10FFFF, no
    truncated sequence. *)
Theorem utf8_validator_correct bs :
  exists r, is_valid_utf8 bs = Some r /\ (r = true <-> utf8_string bs).
Proof.
  destruct (utf8_loop_spec 0 bs) as (r & E & Hr); [by left|]. exists r. split; [done|].
  rewrite Hr. unfold accepts, utf8_string. split.
  - intros (pre & cs & Hp & Hc & ->). inversion Hp. by exists cs.
  - intros (cs & Hc & ->). exists [], cs. split; [constructor|done].
Qed.

(** mask keys are fresh.  From a filled pool, as many calls of [next_key] as
    keys are left hand out the consecutive quadruples of the pool, each exactly once
    and without another call to the random source; any call keeps the cache
    invariant and reads inside the pool, whatever the random source returns. *)
Theorem mask_keys_fresh {rng} (getrandom : rng -> Z -> Z * list byte * rng)
    (getrandom_full : forall r n bytes r',
       0 <= n -> getrandom r n = (n, bytes, r') -> zlen bytes = n) c r n :
  cache_inv c ->
  (exists x, next_key getrandom c r = Some x /\
    match x with Err _ => True | Ok (k, c', _) => length k = 4%nat /\ cache_inv c' end) /\
  (pos_ c + Z.of_nat n <= kPoolSize ->
   exists ks, next_keys getrandom n c r = Some (Ok (ks, mkCache (pool_ c) (pos_ c + Z.of_nat n), r)) /\
     length ks = n /\
     forall j, (j < n)%nat -> ks !! j = slice (pool_ c) ((pos_ c + Z.of_nat j) * 4) 4).
Proof.
  intros Hc. split; [by apply next_key_inv|]. intros Hn. by apply next_keys_run.
Qed.

Lemma mask_keys_fresh_witness :
  let getrandom := fun (r : nat) (n : Z) => (n, replicate (Z.to_nat n) x07, S r) in
  let c := mkCache (replicate 4096 x01) 1000 in
  (exists x, next_key getrandom c 0%nat = Some x /\
    match x with Err _ => True | Ok (k, c', _) => length k = 4%nat /\ cache_inv c' end) /\
  (pos_ c + Z.of_nat 3 <= kPoolSize ->
   exists ks, next_keys getrandom 3 c 0%nat = Some (Ok (ks, mkCache (pool_ c) (pos_ c + Z.of_nat 3), 0%nat)) /\
     length ks = 3%nat /\
     forall j, (j < 3)%nat -> ks !! j = slice (pool_ c) ((pos_ c + Z.of_nat j) * 4) 4).
Proof.
  intros getrandom c. assert (zlen (replicate 4096 x01) = 4096) as Hl by (unfold zlen; rewrite length_replicate; lia).
  apply (mask_keys_fresh getrandom).
  - intros r n bytes r' Hn [= <- _]. unfold zlen. rewrite length_replicate. lia.
  - split; [exact Hl|unfold kPoolSize; cbn; lia].
Defined.
