(* ===== verification/WsInflate.v ===== *)
(** * WsInflate: bounded inflation of compressed WebSocket messages

    WsInflater of eph-codec (ws_inflate.hpp).  zlib is a parameter: its opaque
    stream state, [inflateInit2], [inflate] and [inflateReset], with the part of its
    documented contract the loops rely on as hypotheses. *)

From S2P Require Import Prelude.
From S2P Require Import Codecs.

#[local] Open Scope Z_scope.

Definition Z_OK : Z := 0.
Definition Z_STREAM_END : Z := 1.
Definition Z_BUF_ERROR : Z := -5.

Definition kInitialOutCapacity : Z := 4096.
Definition kDeflateTail : list byte := [x00; x00; xff; xff].

(** [inflate(&strm, flush)] on [avail_in] input and [avail_out] output bytes: its
    return code, the bytes consumed, the bytes written and the new stream. *)
Record zlib (zs : Type) := mkZlib {
  inflateInit2 : Z * zs;
  inflate : zs -> list byte -> Z -> bool -> Z * Z * list byte * zs;
  inflateReset : zs -> Z * zs;
}.
Arguments inflateInit2 {zs} _.
Arguments inflate {zs} _ _ _ _ _.
Arguments inflateReset {zs} _ _.

Section inflater.
Context {zs : Type} (zl : zlib zs).
(** Capacity a [std::vector] picks when it must grow to a size: unspecified. *)
Variable vec_grow : Z -> Z -> Z.

Record WsInflater := mkInfl {
  strm_ : option zs;          (* [initialized_] is [Some] *)
  out_ : list byte;
  out_capacity : Z;
  max_inflated_size : Z;
}.

Definition infl_new (max_size : Z) : WsInflater := mkInfl None [] 0 max_size.

Definition vec_reserve (cap n : Z) : Z := if n <=? cap then cap else vec_grow cap n.

(** One call of zlib into the region [out_[old_size .. total)]: the vector is first
    resized (zero-filled) to [total], then cut back to what was produced. *)
Definition inflate_into (z : zs) (input out : list byte) (total : Z) (flush : bool)
    : Z * Z * Z * list byte * zs :=
  let old_size := zlen out in
  let room := total - old_size in
  let '(ret, used, prod, z) := inflate zl z input (u32 room) flush in
  let avail_out := u32 room - zlen prod in
  let produced := room - avail_out in
  let region := prod ++ replicate (Z.to_nat (room - zlen prod)) x00 in
  (ret, used, produced, out ++ take (Z.to_nat produced) region, z).

(** The [feed] lambda.  [None]: the fuel ran out. *)
Fixpoint feed (fuel : nat) (z : zs) (input out : list byte) (cap max_size : Z)
    : option (expected unit Error * zs * list byte * Z) :=
  match fuel with
  | O => None
  | S fuel =>
      if zlen input =? 0 then Some (Ok tt, z, out, cap) else
      if max_size <=? zlen out then Some (Err CodecOverflow, z, out, cap) else
      let want_total := Z.max cap (zlen out + kInitialOutCapacity) in
      let total := Z.min want_total max_size in
      let cap := vec_reserve cap total in
      let '(ret, used, produced, out, z) := inflate_into z input out total false in
      if (ret =? Z_OK) || (ret =? Z_BUF_ERROR) then
        if (produced =? 0) && (used =? 0) then Some (Err CodecBad, z, out, cap)
        else feed fuel z (drop (Z.to_nat used) input) out cap max_size
      else if ret =? Z_STREAM_END then Some (Ok tt, z, out, cap)
      else Some (Err CodecBad, z, out, cap)
  end.

(** The final [while (true)] loop. *)
Fixpoint drain_output (fuel : nat) (z : zs) (out : list byte) (cap max_size : Z)
    : option (expected unit Error * zs * list byte * Z) :=
  match fuel with
  | O => None
  | S fuel =>
      if max_size <=? zlen out then Some (Err CodecOverflow, z, out, cap) else
      let total := Z.min (zlen out + kInitialOutCapacity) max_size in
      let cap := vec_reserve cap total in
      let '(ret, _, produced, out, z) := inflate_into z [] out total true in
      if (produced =? 0) || (ret =? Z_BUF_ERROR) then Some (Ok tt, z, out, cap) else
      if negb (ret =? Z_OK) && negb (ret =? Z_STREAM_END) then Some (Err CodecBad, z, out, cap)
      else drain_output fuel z out cap max_size
  end.

(** Enough for every iteration: each consumes input or produces output. *)
Definition infl_fuel (input : list byte) (max_size : Z) : nat := S (length input + Z.to_nat max_size).

Definition reset_on_error (st : WsInflater) (z : zs) (out : list byte) (cap : Z) (e : Error)
    : expected (list byte) Error * WsInflater :=
  (Err e, mkInfl (Some (snd (inflateReset zl z))) out cap (max_inflated_size st)).

(** After the feeds and the drain. *)
Definition inflate_finish (st : WsInflater) (z : zs) (out : list byte) (cap : Z) (reset_after : bool)
    : expected (list byte) Error * WsInflater :=
  if reset_after then
    let '(ret, z) := inflateReset zl z in
    let st := mkInfl (Some z) out cap (max_inflated_size st) in
    if negb (ret =? Z_OK) then (Err CodecBad, st) else (Ok out, st)
  else (Ok out, mkInfl (Some z) out cap (max_inflated_size st)).

Definition inflate_message (st : WsInflater) (compressed : list byte) (reset_after : bool)
    : option (expected (list byte) Error * WsInflater) :=
  let max_size := max_inflated_size st in
  let init := match strm_ st with
    | Some z => Some (z, out_capacity st)
    | None => let '(ret, z) := inflateInit2 zl in
              if ret =? Z_OK then Some (z, vec_reserve (out_capacity st) kInitialOutCapacity) else None
    end in
  match init with
  | None => Some (Err CodecBad, st)
  | Some (z, cap) =>
      let out := [] in
      '(r, z, out, cap) ← (if zlen compressed =? 0 then Some (Ok tt, z, out, cap)
         else feed (infl_fuel compressed max_size) z (take (Z.to_nat (u32 (zlen compressed))) compressed)
                out cap max_size);
      match r with
      | Err e => Some (reset_on_error st z out cap e)
      | Ok _ =>
          '(r, z, out, cap) ← feed (infl_fuel kDeflateTail max_size) z kDeflateTail out cap max_size;
          match r with
          | Err e => Some (reset_on_error st z out cap e)
          | Ok _ =>
              '(r, z, out, cap) ← drain_output (infl_fuel [] max_size) z out cap max_size;
              match r with
              | Err e => Some (reset_on_error st z out cap e)
              | Ok _ => Some (inflate_finish st z out cap reset_after)
              end
          end
      end
  end.

(** zlib never consumes or produces more than it is offered. *)
Hypothesis inflate_bounds : forall z input n flush ret used prod z',
  0 <= n -> inflate zl z input n flush = (ret, used, prod, z') ->
  0 <= used <= zlen input /\ zlen prod <= n.

Lemma inflate_into_bounds z input out total flush ret used produced out' z' :
  zlen out <= total < 2 ^ 32 ->
  inflate_into z input out total flush = (ret, used, produced, out', z') ->
  0 <= used <= zlen input /\ 0 <= produced <= total - zlen out /\ zlen out' = zlen out + produced.
Proof using inflate_bounds.
  intros Ht E. unfold inflate_into in E. pose proof (zlen_nonneg out).
  rewrite !wrap_small in E by lia.
  destruct (inflate zl z input (total - zlen out) flush) as [[[r u] p] z1] eqn:Ei.
  apply inflate_bounds in Ei as [Hu Hp]; [|lia]. simplify_eq. pose proof (zlen_nonneg p).
  split; [done|]. split; [lia|]. zlens. unfold zlen. rewrite length_replicate. unfold zlen in *. lia.
Qed.

Lemma feed_total fuel z input out cap max_size :
  0 <= max_size < 2 ^ 32 -> zlen out <= max_size ->
  zlen input + (max_size - zlen out) < Z.of_nat fuel ->
  exists r z' out' cap', feed fuel z input out cap max_size = Some (r, z', out', cap') /\
    zlen out <= zlen out' <= max_size.
Proof using inflate_bounds.
  intros Hm. revert z input out cap. induction fuel as [|fuel IH]; intros z input out cap Ho Hf.
  - pose proof (zlen_nonneg input). lia.
  - cbn [feed]. destruct (zlen input =? 0); [do 4 eexists; split; [done|lia]|].
    destruct (Z.leb_spec max_size (zlen out)); [do 4 eexists; split; [done|lia]|].
    set (total := Z.min _ max_size).
    assert (zlen out < total <= max_size) as Ht by (unfold total, kInitialOutCapacity; lia).
    destruct (inflate_into z input out total false) as [[[[ret used] produced] out1] z1] eqn:E.
    apply inflate_into_bounds in E as (Hu & Hp & Hl); [|lia].
    destruct ((ret =? Z_OK) || (ret =? Z_BUF_ERROR)).
    + destruct ((produced =? 0) && (used =? 0)) eqn:Ez; [do 4 eexists; split; [done|lia]|].
      destruct (IH z1 (drop (Z.to_nat used) input) out1 (vec_reserve cap total)) as (r & z' & out' & cap' & E & Hb).
      { lia. } { zlens. lia. }
      do 4 eexists; split; [done|lia].
    + destruct (ret =? Z_STREAM_END); (do 4 eexists; split; [done|lia]).
Qed.

Lemma drain_total fuel z out cap max_size :
  0 <= max_size < 2 ^ 32 -> zlen out <= max_size -> max_size - zlen out < Z.of_nat fuel ->
  exists r z' out' cap', drain_output fuel z out cap max_size = Some (r, z', out', cap') /\
    zlen out' <= max_size /\ (r = Ok tt -> zlen out < max_size).
Proof using inflate_bounds.
  intros Hm. revert z out cap. induction fuel as [|fuel IH]; intros z out cap Ho Hf; [lia|].
  cbn [drain_output]. destruct (Z.leb_spec max_size (zlen out)); [do 4 eexists; split; [done|done]|].
  set (total := Z.min _ max_size).
  assert (zlen out < total <= max_size) as Ht by (unfold total, kInitialOutCapacity; lia).
  destruct (inflate_into z [] out total true) as [[[[ret used] produced] out1] z1] eqn:E.
  apply inflate_into_bounds in E as (Hu & Hp & Hl); [|lia].
  destruct ((produced =? 0) || (ret =? Z_BUF_ERROR)) eqn:Ez; [do 4 eexists; split; [done|lia]|].
  destruct (negb _ && negb _); [do 4 eexists; split; [done|lia]|].
  destruct (IH z1 out1 (vec_reserve cap total)) as (r & z' & out' & cap' & E & Hb); [lia..|].
  do 4 eexists; split; [exact E|lia].
Qed.

(** [inflate_message] always returns. *)
Lemma inflate_message_total st compressed reset_after :
  0 <= max_inflated_size st < 2 ^ 32 ->
  exists r st', inflate_message st compressed reset_after = Some (r, st') /\
    max_inflated_size st' = max_inflated_size st /\
    (strm_ st' = None \/ zlen (out_ st') <= max_inflated_size st) /\
    (forall bytes, r = Ok bytes -> zlen bytes <= max_inflated_size st).
Proof using inflate_bounds.
  intros Hm. unfold inflate_message. set (max_size := max_inflated_size st) in *.
  set (init := match strm_ st with Some _ => _ | None => _ end).
  destruct init as [[z cap]|] eqn:Ei; cycle 1.
  { exists (Err CodecBad), st. split; [done|]. split; [done|]. split; [|done]. left.
    unfold init in Ei. by destruct (strm_ st). }
  assert (exists r z1 out1 cap1, (if zlen compressed =? 0 then Some (Ok tt, z, [], cap)
     else feed (infl_fuel compressed max_size) z (take (Z.to_nat (u32 (zlen compressed))) compressed) [] cap max_size)
     = Some (r, z1, out1, cap1) /\ zlen out1 <= max_size) as (r1 & z1 & out1 & cap1 & -> & H1).
  { destruct (zlen compressed =? 0); [do 4 eexists; split; [done|rewrite zlen_nil; lia]|].
    destruct (feed_total (infl_fuel compressed max_size) z
      (take (Z.to_nat (u32 (zlen compressed))) compressed) [] cap max_size) as (r & z1 & o1 & c1 & E & Hb).
    - done.
    - rewrite zlen_nil; lia.
    - unfold infl_fuel. zlens. unfold zlen. lia.
    - do 4 eexists; split; [exact E|lia]. }
  cbn [mbind option_bind]. destruct r1 as [[]|e].
  2: { do 2 eexists; split; [reflexivity|]. cbn. split_and!; try done. by right. }
  destruct (feed_total (infl_fuel kDeflateTail max_size) z1 kDeflateTail out1 cap1 max_size)
    as (r2 & z2 & out2 & cap2 & -> & H2); [done|done|unfold infl_fuel, zlen in *; cbn [length kDeflateTail] in *; lia|].
  cbn [mbind option_bind]. destruct r2 as [[]|e].
  2: { do 2 eexists; split; [reflexivity|]. cbn. split_and!; try done. right; lia. }
  destruct (drain_total (infl_fuel [] max_size) z2 out2 cap2 max_size)
    as (r3 & z3 & out3 & cap3 & -> & H3 & _); [done|lia|unfold infl_fuel, zlen in *; cbn [length]; lia|].
  cbn [mbind option_bind]. destruct r3 as [[]|e].
  2: { do 2 eexists; split; [reflexivity|]. cbn. split_and!; try done. by right. }
  unfold inflate_finish. destruct reset_after; [destruct (inflateReset zl z3) as [ret z4]; destruct (negb _)|];
    do 2 eexists; (split; [reflexivity|]); cbn; split_and!; try done; try (by right); by intros ? [= <-].
Qed.

(** inflation terminates and is bounded.  Whatever the compressed bytes are,
    [inflate_message] returns after finitely many calls of zlib, and what it returns
    or buffers never exceeds the configured maximum, so a deflate bomb costs at most
    that much memory. *)
Theorem inflate_message_bounded st compressed reset_after :
  0 <= max_inflated_size st < 2 ^ 32 ->
  exists r st', inflate_message st compressed reset_after = Some (r, st') /\
    max_inflated_size st' = max_inflated_size st /\
    (strm_ st' = None \/ zlen (out_ st') <= max_inflated_size st) /\
    (forall bytes, r = Ok bytes -> zlen bytes <= max_inflated_size st).
Proof using inflate_bounds.
  apply inflate_message_total.
Qed.

(** a finished stream swallows every later message.  Once zlib has seen a block
    with BFINAL set it answers Z_STREAM_END without consuming anything until it is
    reset; without [reset_after] every later message is then delivered as empty, and
    reported as success. *)
Theorem inflate_after_stream_end st z compressed :
  strm_ st = Some z -> 0 < max_inflated_size st < 2 ^ 32 ->
  (forall input n flush, inflate zl z input n flush = (Z_STREAM_END, 0, [], z)) ->
  exists st', inflate_message st compressed false = Some (Ok [], st') /\ strm_ st' = Some z.
Proof.
  intros Hz Hm Hend. unfold inflate_message. rewrite Hz. set (max_size := max_inflated_size st) in *.
  assert (forall input total flush, 0 <= total < 2 ^ 32 ->
    inflate_into z input [] total flush = (Z_STREAM_END, 0, 0, [], z)) as Hi.
  { intros. unfold inflate_into. change (zlen (@nil byte)) with 0. rewrite Z.sub_0_r, Hend.
    change (zlen (@nil byte)) with 0. rewrite !wrap_small, !Z.sub_0_r, Z.sub_diag by lia. done. }
  assert (forall fuel input cap, exists cap',
    feed (S fuel) z input [] cap max_size = Some (Ok tt, z, [], cap')) as Hf.
  { intros. cbn [feed]. change (zlen (@nil byte)) with 0. destruct (zlen input =? 0); [eauto|]. zdecide.
    rewrite Hi by (unfold kInitialOutCapacity; lia). cbn. eauto. }
  assert (forall fuel cap, exists cap',
    drain_output (S fuel) z [] cap max_size = Some (Ok tt, z, [], cap')) as Hd.
  { intros. cbn [drain_output]. change (zlen (@nil byte)) with 0. zdecide.
    rewrite Hi by (unfold kInitialOutCapacity; lia). cbn. eauto. }
  unfold infl_fuel. set (n1 := (length compressed + Z.to_nat max_size)%nat).
  assert (exists cap1, (if zlen compressed =? 0 then Some (Ok tt, z, [], out_capacity st)
     else feed (S n1) z (take (Z.to_nat (u32 (zlen compressed))) compressed) [] (out_capacity st) max_size)
     = Some (Ok tt, z, [], cap1)) as [cap1 ->] by (destruct (zlen compressed =? 0); eauto).
  cbn [mbind option_bind].
  destruct (Hf (length kDeflateTail + Z.to_nat max_size)%nat kDeflateTail cap1) as [cap2 ->].
  cbn [mbind option_bind]. destruct (Hd (length (@nil byte) + Z.to_nat max_size)%nat cap2) as [cap3 ->].
  cbn [mbind option_bind]. eexists; split; reflexivity.
Qed.

End inflater.

(** ** Witnesses: a stored-block "zlib" that copies its input *)

Definition copy_zlib : zlib unit :=
  mkZlib unit (0, tt)
    (fun _ input n _ => let m := Z.min (zlen input) n in (Z_OK, m, take (Z.to_nat m) input, tt))
    (fun _ => (0, tt)).

Lemma inflate_message_bounded_witness :
  exists r st', inflate_message copy_zlib (fun _ n => n) (infl_new 64) [x61; x62] true = Some (r, st') /\
    max_inflated_size st' = 64 /\
    (strm_ st' = None \/ zlen (out_ st') <= 64) /\
    (forall bytes, r = Ok bytes -> zlen bytes <= 64).
Proof.
  apply (inflate_message_bounded copy_zlib (fun _ n => n)) with (st := infl_new 64); [|cbn; lia].
  intros z input n flush ret used prod z' Hn [= <- <- <- <-]. pose proof (zlen_nonneg input).
  split; [lia|]. rewrite zlen_take. lia.
Defined.

Definition ended_zlib : zlib unit :=
  mkZlib unit (0, tt) (fun _ _ _ _ => (Z_STREAM_END, 0, [], tt)) (fun _ => (0, tt)).

Lemma inflate_after_stream_end_witness :
  exists st', inflate_message ended_zlib (fun _ n => n) (mkInfl (Some tt) [] 0 64) [x4b; x04] false
    = Some (Ok [], st') /\ strm_ st' = Some tt.
Proof.
  apply (inflate_after_stream_end ended_zlib (fun _ n => n) (mkInfl (Some tt) [] 0 64) tt [x4b; x04]);
    [reflexivity|cbn; lia|reflexivity].
Defined.
