(* ===== verification/WsCodec.v ===== *)
(** * WsCodec: the stateful WebSocket codec

    ws_codec.hpp of eph-codec: control-frame replies, message reassembly and
    permessage-deflate on top of the frame routines of WebSocket.v.  The frame the
    codec returns is modelled by its bytes at the time of the call. *)

From S2P Require Import Prelude.
From S2P Require Import Codecs.
From S2P Require Import WebSocket.
From S2P Require Import WsInflate.

#[local] Open Scope Z_scope.

#[local] Arguments ws_header : simpl never.
#[local] Arguments ws_wire : simpl never.
#[local] Arguments srv_wire : simpl never.

Record WsCodecConfig := mkWsCfg {
  max_message_size : Z;
  auto_pong : bool;
  auto_close_ack : bool;
  permessage_deflate : bool;
  server_no_context_takeover : bool;
}.

Definition ws_cfg_default : WsCodecConfig := mkWsCfg (2 ^ 20) true true false false.

Section ws_codec.
Context {zs : Type} (zl : zlib zs).
Variable vec_grow : Z -> Z -> Z.

(** [mask_keys], [key_ix]: what [generate_mask_key] will hand out on this thread. *)
Record WsCodec := mkWs {
  cfg_ : WsCodecConfig;
  frag_buf_ : list byte;
  frag_opcode_ : Z;
  compressed_msg_ : bool;
  inflater_ : option (WsInflater (zs := zs));
  deflate_bytes_in_ : Z;
  deflate_bytes_out_ : Z;
  mask_keys : nat -> list byte;
  key_ix : nat;
}.

Definition ws_new (cfg : WsCodecConfig) (keys : nat -> list byte) : WsCodec :=
  mkWs cfg [] 0 false None 0 0 keys 0.

Definition set_frag (c : WsCodec) (buf : list byte) (op : Z) (comp : bool) : WsCodec :=
  mkWs (cfg_ c) buf op comp (inflater_ c) (deflate_bytes_in_ c) (deflate_bytes_out_ c)
    (mask_keys c) (key_ix c).
Definition next_mask (c : WsCodec) : list byte * WsCodec :=
  (mask_keys c (key_ix c),
   mkWs (cfg_ c) (frag_buf_ c) (frag_opcode_ c) (compressed_msg_ c) (inflater_ c)
     (deflate_bytes_in_ c) (deflate_bytes_out_ c) (mask_keys c) (S (key_ix c))).

Definition enable_permessage_deflate (no_ctx : bool) (c : WsCodec) : WsCodec :=
  let cfg := cfg_ c in
  mkWs (mkWsCfg (max_message_size cfg) (auto_pong cfg) (auto_close_ack cfg) true no_ctx)
    (frag_buf_ c) (frag_opcode_ c) (compressed_msg_ c) (inflater_ c)
    (deflate_bytes_in_ c) (deflate_bytes_out_ c) (mask_keys c) (key_ix c).

(** [copy + apply_mask] into a fresh region; the unmasked bytes otherwise. *)
Definition unmask_copy (wire : list byte) (f : WsFrame) : option (list byte) :=
  bytes ← slice wire (f_payload f) (f_payload_len f);
  if f_masked f then apply_mask bytes (f_payload_len f) (f_mask_key f) else Some bytes.

(** [scratch] is uninitialised stack memory; its content is irrelevant. *)
Definition scratch (n : Z) : list byte := replicate (Z.to_nat n) x00.

Definition emit_pong (c : WsCodec) (out : OutputBuffer) (wire : list byte) (ping : WsFrame)
    : option (expected unit Error * WsCodec * OutputBuffer) :=
  if kMaxControlPayloadLen <? f_payload_len ping then Some (Err CodecBad, c, out) else
  pong_payload ← (if f_masked ping && (0 <? f_payload_len ping) then unmask_copy wire ping
                  else slice wire (f_payload ping) (f_payload_len ping));
  let '(key, c) := next_mask c in
  '(n, buf) ← build_pong_frame key (scratch (kMaxFrameHeaderLen + kMaxControlPayloadLen))
                (Some pong_payload) (f_payload_len ping);
  if n =? 0 then Some (Err CodecBad, c, out) else
  src ← slice buf 0 n;
  '(r, out) ← ob_append src out;
  Some (r, c, out).

Definition emit_close (c : WsCodec) (out : OutputBuffer) (status_code : Z)
    : option (expected unit Error * WsCodec * OutputBuffer) :=
  let '(key, c) := next_mask c in
  '(n, buf) ← build_close_frame key (scratch (kMaxFrameHeaderLen + 2)) status_code [];
  if n =? 0 then Some (Err CodecBad, c, out) else
  src ← slice buf 0 n;
  '(r, out) ← ob_append src out;
  Some (r, c, out).

(** The code a received close is acknowledged with. *)
Definition ack_code_for (payload_len code : Z) : Z :=
  if payload_len =? 0 then 1000
  else if negb (is_valid_close_code code) then 1002 else code.

(** Data frames: what happens to the reassembly state before the payload is looked
    at. *)
Definition begin_data (c : WsCodec) (f : WsFrame) : expected WsCodec Error :=
  if negb (f_opcode f =? opcode.kContinuation) then
    let c := set_frag c [] (if f_fin f then 0 else f_opcode f) (f_rsv1 f) in
    if compressed_msg_ c && negb (permessage_deflate (cfg_ c)) then Err CodecBad else Ok c
  else if frag_opcode_ c =? 0 then Err WsFrameBad
  else if f_rsv1 f then Err WsFrameBad
  else Ok c.

(** The state an error of [begin_data] leaves behind. *)
Definition begin_data_state (c : WsCodec) (f : WsFrame) : WsCodec :=
  if negb (f_opcode f =? opcode.kContinuation)
  then set_frag c [] (if f_fin f then 0 else f_opcode f) (f_rsv1 f) else c.

(** [resize + memcpy + apply_mask] behind what is accumulated. *)
Definition accumulate (c : WsCodec) (wire : list byte) (f : WsFrame) : option WsCodec :=
  if 0 <? f_payload_len f then
    bytes ← unmask_copy wire f;
    Some (set_frag c (frag_buf_ c ++ bytes) (frag_opcode_ c) (compressed_msg_ c))
  else Some c.

Definition finish_compressed (c : WsCodec) : option (expected (option (list byte)) Error * WsCodec) :=
  let infl := match inflater_ c with
    | Some i => i
    | None => infl_new (max_message_size (cfg_ c))
    end in
  let in_bytes := zlen (frag_buf_ c) in
  '(inflated, infl) ← inflate_message zl vec_grow infl (frag_buf_ c) (server_no_context_takeover (cfg_ c));
  let c := mkWs (cfg_ c) [] 0 false (Some infl) (deflate_bytes_in_ c) (deflate_bytes_out_ c)
             (mask_keys c) (key_ix c) in
  match inflated with
  | Err e => Some (Err e, c)
  | Ok bytes =>
      Some (Ok (Some bytes),
            mkWs (cfg_ c) [] 0 false (Some infl) (u64 (deflate_bytes_in_ c + in_bytes))
              (u64 (deflate_bytes_out_ c + zlen bytes)) (mask_keys c) (key_ix c))
  end.

Definition decode_data {V} `{PacketView V} (c : WsCodec) (view : V) (f : WsFrame)
    : option (expected (option (list byte)) Error * WsCodec * V) :=
  let wire := window view in
  let consumed := f_total_len f in
  match begin_data c f with
  | Err e => Some (Err e, begin_data_state c f, view)
  | Ok c =>
      let new_size := zlen (frag_buf_ c) + f_payload_len f in
      let cleared := set_frag c [] (frag_opcode_ c) (compressed_msg_ c) in
      if compressed_msg_ c then
        if max_message_size (cfg_ c) <? new_size
        then Some (Err CodecOverflow, cleared, trim_front consumed view) else
        c ← accumulate c wire f;
        let view := trim_front consumed view in
        if negb (f_fin f) then Some (Ok None, c, view) else
        '(r, c) ← finish_compressed c;
        Some (r, c, view)
      else
        let single_frame := negb (f_opcode f =? opcode.kContinuation) && f_fin f in
        if single_frame && (zlen (frag_buf_ c) =? 0) then
          if max_message_size (cfg_ c) <? f_payload_len f
          then Some (Err CodecOverflow, c, trim_front consumed view) else
          payload ← slice wire (f_payload f) (f_payload_len f);
          let view := trim_front consumed view in
          if f_masked f && (0 <? f_payload_len f) then
            bytes ← unmask_copy wire f;
            Some (Ok (Some bytes), set_frag c bytes (frag_opcode_ c) (compressed_msg_ c), view)
          else Some (Ok (Some payload), c, view)
        else
          if max_message_size (cfg_ c) <? new_size
          then Some (Err CodecOverflow, cleared, trim_front consumed view) else
          c ← accumulate c wire f;
          let view := trim_front consumed view in
          if negb (f_fin f) then Some (Ok None, c, view) else
          Some (Ok (Some (frag_buf_ c)), set_frag c (frag_buf_ c) 0 (compressed_msg_ c), view)
  end.

Definition ws_decode {V} `{PacketView V} (c : WsCodec) (view : V) (out : OutputBuffer)
    : option (expected (option (list byte)) Error * WsCodec * V * OutputBuffer) :=
  let avail := vlength view in
  let wire := window view in
  if avail <? 2 then Some (Ok None, c, view, out) else
  decoded ← decode_frame wire (permessage_deflate (cfg_ c));
  match decoded with
  | Err kWsIncomplete => Some (Ok None, c, view, out)
  | Err _ => Some (Err WsFrameBad, c, view, out)
  | Ok f =>
      let consumed := f_total_len f in
      if f_rsv1 f && is_control f then Some (Err WsFrameBad, c, view, out) else
      if is_ping f then
        '(err, c, out) ← (if auto_pong (cfg_ c) then emit_pong c out wire f else Some (Ok tt, c, out));
        match err with
        | Err e => Some (Err e, c, view, out)
        | Ok _ => Some (Ok None, c, trim_front consumed view, out)
        end
      else if is_pong f then Some (Ok None, c, trim_front consumed view, out)
      else if is_close f then
        code ← close_status_code wire f;
        '(err, c, out) ← (if auto_close_ack (cfg_ c)
                          then emit_close c out (ack_code_for (f_payload_len f) code)
                          else Some (Ok tt, c, out));
        match err with
        | Err e => Some (Err e, c, view, out)
        | Ok _ => Some (Err WsCloseReceived, c, trim_front consumed view, out)
        end
      else if negb (is_data f) then Some (Err WsFrameBad, c, view, out)
      else
        '(r, c, view) ← decode_data c view f;
        Some (r, c, view, out)
  end.

(** [encode] and [encode_text] differ in the opcode only. *)
Definition ws_encode_op (op : Z) (c : WsCodec) (buf payload : list byte)
    : option (expected Z Error * WsCodec * list byte) :=
  let needed := total_frame_size (zlen payload) in
  if (needed =? SIZE_MAX) || (zlen buf <? needed) then Some (Err BufferFull, c, buf) else
  let '(key, c) := next_mask c in
  '(n, buf) ← encode_frame key buf op (Some payload) (zlen payload) true;
  if n =? 0 then Some (Err CodecBad, c, buf) else Some (Ok n, c, buf).
Definition ws_encode := ws_encode_op opcode.kBinary.
Definition ws_encode_text := ws_encode_op opcode.kText.

Definition ws_encode_close (c : WsCodec) (buf : list byte) (status_code : Z) (reason : list byte)
    : option (expected Z Error * WsCodec * list byte) :=
  let needed := kMaxFrameHeaderLen + 2 + zlen reason in
  if zlen buf <? needed then Some (Err BufferFull, c, buf) else
  let '(key, c) := next_mask c in
  '(n, buf) ← build_close_frame key buf status_code reason;
  if n =? 0 then Some (Err CodecBad, c, buf) else Some (Ok n, c, buf).

(** ** Invariant *)

Hypothesis inflate_bounds : forall z input n flush ret used prod z',
  0 <= n -> inflate zl z input n flush = (ret, used, prod, z') ->
  0 <= used <= zlen input /\ zlen prod <= n.

Record ws_inv (c : WsCodec) : Prop := {
  wi_max : 0 <= max_message_size (cfg_ c) < 2 ^ 32;
  wi_buf : zlen (frag_buf_ c) <= max_message_size (cfg_ c);
  wi_op : frag_opcode_ c = 0 \/ frag_opcode_ c = opcode.kText \/ frag_opcode_ c = opcode.kBinary;
  wi_infl : forall i, inflater_ c = Some i -> max_inflated_size i = max_message_size (cfg_ c);
  wi_keys : forall n, length (mask_keys c n) = 4%nat;
}.

Lemma ws_new_inv cfg keys :
  0 <= max_message_size cfg < 2 ^ 32 -> (forall n, length (keys n) = 4%nat) -> ws_inv (ws_new cfg keys).
Proof. intros. constructor; cbn; try done; [rewrite zlen_nil; lia|by left]. Qed.

Lemma set_frag_inv c buf op comp :
  ws_inv c -> zlen buf <= max_message_size (cfg_ c) ->
  (op = 0 \/ op = opcode.kText \/ op = opcode.kBinary) -> ws_inv (set_frag c buf op comp).
Proof. intros [] ? ?. by constructor. Qed.

Lemma next_mask_inv c : ws_inv c -> ws_inv (snd (next_mask c)).
Proof. intros []. by constructor. Qed.

(** The unmasked payload of a decoded frame. *)
Lemma unmask_copy_total wire allow f :
  decode_frame wire allow = Some (Ok f) ->
  exists raw bytes, slice wire (f_payload f) (f_payload_len f) = Some raw /\
    unmask_copy wire f = Some bytes /\ zlen bytes = f_payload_len f.
Proof.
  intros E. destruct (decode_frame_inv wire allow f E)
    as (w0 & w1 & key & tail & n & -> & Hn & En & _ & Ht & Hp & _ & _ & Hk & _).
  assert (length (take (Z.to_nat n) tail) = Z.to_nat n) as Hl by (rewrite length_take; unfold zlen in *; lia).
  assert (zlen (take (Z.to_nat n) tail) = n) as Hz by (unfold zlen; lia).
  pose proof (slice_mid (w0 :: w1 :: len_ext n ++ key) (take (Z.to_nat n) tail) (drop (Z.to_nat n) tail)
    (f_payload f) (f_payload_len f)) as Es.
  rewrite take_drop in Es. cbn [app] in Es. rewrite <- app_assoc in Es.
  specialize (Es ltac:(zlens; lia) ltac:(lia)). exists (take (Z.to_nat n) tail).
  unfold unmask_copy. rewrite Es. cbn [mbind option_bind]. destruct (f_masked f).
  - destruct Hk as [<- Hk]. pose proof (apply_mask_spec key (take (Z.to_nat n) tail) [] Hk) as Ea.
    rewrite !app_nil_r, Hz in Ea. rewrite En, Ea. eexists; split; [done|]. split; [done|].
    unfold mask_ref. rewrite zlen_mask_from. lia.
  - exists (take (Z.to_nat n) tail). split; [done|]. split; [done|lia].
Qed.

Lemma accumulate_inv c wire allow f :
  ws_inv c -> decode_frame wire allow = Some (Ok f) ->
  zlen (frag_buf_ c) + f_payload_len f <= max_message_size (cfg_ c) ->
  exists c', accumulate c wire f = Some c' /\ ws_inv c' /\ cfg_ c' = cfg_ c.
Proof.
  intros I E Hs. destruct (unmask_copy_total wire allow f E) as (raw & bytes & _ & Eu & Hl).
  unfold accumulate. destruct (0 <? f_payload_len f); [|by exists c].
  rewrite Eu. cbn [mbind option_bind]. eexists; split; [done|]. split; [|done].
  apply set_frag_inv; [done|zlens; lia|by apply wi_op].
Qed.

Lemma finish_compressed_inv c :
  ws_inv c -> exists r c', finish_compressed c = Some (r, c') /\ ws_inv c'.
Proof using inflate_bounds.
  intros I. unfold finish_compressed.
  set (i := match inflater_ c with Some i => i | None => _ end).
  assert (max_inflated_size i = max_message_size (cfg_ c)) as Hi.
  { unfold i. destruct (inflater_ c) eqn:Ei; [by apply (wi_infl c I)|done]. }
  destruct (inflate_message_total zl vec_grow inflate_bounds i (frag_buf_ c) (server_no_context_takeover (cfg_ c)))
    as (r & i' & E & Hm & _); [rewrite Hi; apply (wi_max c I)|].
  rewrite E. cbn [mbind option_bind]. destruct I. destruct r as [bytes|e]; do 2 eexists; (split; [done|]);
    (constructor; cbn; [done|rewrite zlen_nil; lia|by left|intros ? [= <-]; congruence|done]).
Qed.

Lemma data_opcode_inv wire allow f :
  decode_frame wire allow = Some (Ok f) -> is_data f = true ->
  f_opcode f = 0 \/ f_opcode f = opcode.kText \/ f_opcode f = opcode.kBinary.
Proof.
  unfold is_data, opcode.kText, opcode.kBinary, opcode.kContinuation. intros _ Hd.
  destruct (Z.eqb_spec (f_opcode f) 1), (Z.eqb_spec (f_opcode f) 2), (Z.eqb_spec (f_opcode f) 0); try done; tauto.
Qed.

Lemma begin_data_inv c wire allow f :
  ws_inv c -> decode_frame wire allow = Some (Ok f) -> is_data f = true ->
  ws_inv (begin_data_state c f) /\
  forall c', begin_data c f = Ok c' -> ws_inv c' /\ cfg_ c' = cfg_ c.
Proof.
  intros I E Hd. unfold begin_data, begin_data_state.
  pose proof (data_opcode_inv wire allow f E Hd) as Ho. pose proof (wi_max c I).
  assert (ws_inv (set_frag c [] (if f_fin f then 0 else f_opcode f) (f_rsv1 f))) as I'.
  { apply set_frag_inv; [done|rewrite zlen_nil; lia|]. destruct (f_fin f); [by left|done]. }
  destruct (negb (f_opcode f =? opcode.kContinuation)); (split; [done|]).
  - destruct (_ && _); [done|]. by intros c' [= <-].
  - destruct (frag_opcode_ c =? 0); [done|]. destruct (f_rsv1 f); [done|]. by intros c' [= <-].
Qed.

Section safe.
Context {V : Type} `{PacketViewLaws V}.
Implicit Types v : V.

(** The front of the view was consumed, or nothing was. *)
Definition consumed_from v v' : Prop :=
  view_wf v' /\ exists n, 0 <= n /\ window v' = drop (Z.to_nat n) (window v).

Lemma consumed_refl v : view_wf v -> consumed_from v v.
Proof. split; [done|]. exists 0. by rewrite drop_0. Qed.

Lemma consumed_trim v n : view_wf v -> 0 <= n -> consumed_from v (trim_front n v).
Proof. split; [by apply trim_front_wf|]. exists n. split; [done|]. by apply trim_front_window. Qed.

Lemma decode_data_inv c v f :
  ws_inv c -> view_wf v -> decode_frame (window v) (permessage_deflate (cfg_ c)) = Some (Ok f) ->
  is_data f = true ->
  exists r c' v', decode_data c v f = Some (r, c', v') /\ ws_inv c' /\ consumed_from v v'.
Proof using inflate_bounds.
  intros I Hv E Hd. destruct (begin_data_inv c _ _ f I E Hd) as [Ib Hb].
  destruct (unmask_copy_total _ _ f E) as (raw & bytes & Es & Eu & Hl).
  assert (0 <= f_total_len f /\ 0 <= f_payload_len f) as [Ht Hp].
  { destruct (decode_frame_inv _ _ f E) as (w0 & w1 & key & tail & n & _ & Hn & En & _ & _ & Ep & Et & _).
    pose proof (zlen_nonneg (len_ext n)). pose proof (zlen_nonneg key). lia. }
  pose proof (consumed_trim v _ Hv Ht) as Hc. unfold decode_data.
  destruct (begin_data c f) as [c1|e]; [|do 3 eexists; split_and!; [done|done|by apply consumed_refl]].
  destruct (Hb c1 eq_refl) as [I1 Ecfg]. pose proof (wi_max c1 I1). pose proof (wi_op c1 I1).
  assert (ws_inv (set_frag c1 [] (frag_opcode_ c1) (compressed_msg_ c1))) as Iclr
    by (apply set_frag_inv; [done|rewrite zlen_nil; lia|done]).
  assert (zlen (frag_buf_ c1) + f_payload_len f <= max_message_size (cfg_ c1) ->
    exists c2, accumulate c1 (window v) f = Some c2 /\ ws_inv c2) as Hacc.
  { intros Hs. destruct (accumulate_inv c1 _ _ f I1 E Hs) as (c2 & E2 & I2 & _). by exists c2. }
  destruct (compressed_msg_ c1).
  - destruct (Z.ltb_spec (max_message_size (cfg_ c1)) (zlen (frag_buf_ c1) + f_payload_len f)) as [Hs|Hs];
      [do 3 eexists; by split_and!|].
    destruct (Hacc Hs) as (c2 & -> & I2). cbn [mbind option_bind].
    destruct (negb (f_fin f)); [do 3 eexists; by split_and!|].
    destruct (finish_compressed_inv c2 I2) as (r & c3 & -> & I3). cbn [mbind option_bind]. do 3 eexists; by split_and!.
  - destruct (_ && (zlen _ =? 0)).
    + destruct (Z.ltb_spec (max_message_size (cfg_ c1)) (f_payload_len f)); [do 3 eexists; by split_and!|].
      rewrite Es. cbn [mbind option_bind]. destruct (_ && _); [|do 3 eexists; by split_and!].
      rewrite Eu. cbn [mbind option_bind]. do 3 eexists; split_and!; [done| |done]. apply set_frag_inv; [done|lia|done].
    + destruct (Z.ltb_spec (max_message_size (cfg_ c1)) (zlen (frag_buf_ c1) + f_payload_len f)) as [Hs|Hs];
      [do 3 eexists; by split_and!|].
      destruct (Hacc Hs) as (c2 & -> & I2). cbn [mbind option_bind].
      destruct (negb (f_fin f)); do 3 eexists; split_and!; try done.
      apply set_frag_inv; [done|by apply wi_buf|by left].
Qed.

End safe.

(** ** Replies *)

Lemma control_len wire allow f :
  decode_frame wire allow = Some (Ok f) -> is_control f = true ->
  0 <= f_payload_len f <= 125 /\ f_fin f = true.
Proof.
  intros E Hc. destruct (decode_frame_inv wire allow f E)
    as (w0 & w1 & key & tail & n & _ & Hn & En & _ & _ & _ & _ & _ & _ & _ & _ & _ & Hchk).
  unfold is_control in Hc. unfold check_opcode in Hchk. rewrite Hc in Hchk. rewrite En.
  destruct (is_reserved_opcode _); [done|]. destruct (f_fin f); [|done]. cbn [negb] in Hchk.
  destruct (Z.ltb_spec 125 n); [done|]. split; [lia|done].
Qed.

Lemma slice_prefix (a b : list byte) : slice (a ++ b) 0 (zlen a) = Some a.
Proof. by apply (slice_mid [] a b). Qed.

Lemma scratch_len n : 0 <= n -> zlen (scratch n) = n.
Proof. intros. unfold scratch, zlen. rewrite length_replicate. lia. Qed.

Lemma control_sendable op n :
  op = opcode.kPong \/ op = opcode.kPing \/ (op = opcode.kClose /\ n <> 1) -> 0 <= n <= 125 ->
  ws_sendable op true n.
Proof.
  intros Ho Hn. unfold ws_sendable, kMaxWsPayloadLen, check_opcode.
  assert (is_reserved_opcode op = false /\ (Z.land op 8 =? 0) = false /\ 0 <= op < 16) as (-> & -> & Hr)
    by (destruct Ho as [->|[->|[-> _]]]; repeat split; unfold opcode.kPong, opcode.kPing, opcode.kClose; done).
  cbn [negb]. split; [lia|]. split; [lia|]. rewrite (proj2 (Z.ltb_ge 125 n)) by lia.
  destruct Ho as [->|[->|[-> Hne]]]; [done|done|]. by rewrite (proj2 (Z.eqb_neq n 1)).
Qed.

Lemma total_small n : 0 <= n <= 125 -> total_frame_size n = 6 + n.
Proof. intros. unfold total_frame_size, frame_header_size, SIZE_MAX. zbool; lia. Qed.

(** A ping is answered with a pong that carries the unmasked ping payload. *)
Lemma emit_pong_spec c out wire allow f :
  ws_inv c -> decode_frame wire allow = Some (Ok f) -> is_control f = true ->
  exists bytes, unmask_copy wire f = Some bytes /\
    emit_pong c out wire f =
      ('(r, out) ← ob_append (ws_wire opcode.kPong true (mask_keys c (key_ix c)) bytes) out;
       Some (r, snd (next_mask c), out)).
Proof.
  intros I E Hc. destruct (control_len wire allow f E Hc) as [Hl _].
  destruct (unmask_copy_total wire allow f E) as (raw & bytes & Es & Eu & Hb). exists bytes. split; [done|].
  unfold emit_pong, kMaxControlPayloadLen. rewrite (proj2 (Z.ltb_ge 125 _)) by lia.
  assert ((if f_masked f && (0 <? f_payload_len f) then unmask_copy wire f
           else slice wire (f_payload f) (f_payload_len f)) = Some bytes) as ->.
  { destruct (f_masked f) eqn:Em; cbn [andb].
    - destruct (Z.ltb_spec 0 (f_payload_len f)); [done|]. rewrite Es. f_equal.
      assert (zlen raw = f_payload_len f) by (by eapply slice_zlen).
      by rewrite (zlen_nil_inv raw), (zlen_nil_inv bytes) by lia.
    - unfold unmask_copy in Eu. rewrite Es, Em in Eu. rewrite Es. exact Eu. }
  cbn [mbind option_bind next_mask fst snd]. unfold build_pong_frame. rewrite <- Hb in *.
  destruct (encode_frame_spec (mask_keys c (key_ix c)) (scratch (kMaxFrameHeaderLen + 125))
    opcode.kPong true bytes) as [Et Ee].
  - apply control_sendable; [by left|lia].
  - apply (wi_keys c I).
  - rewrite total_small, scratch_len by (unfold kMaxFrameHeaderLen; lia). unfold kMaxFrameHeaderLen. lia.
  - rewrite Ee. cbn [mbind option_bind]. rewrite total_small in Et by lia.
    rewrite (proj2 (Z.eqb_neq _ 0)), slice_prefix by lia. cbn [mbind option_bind]. done.
Qed.

Lemma ack_code_range n code : 0 <= code < 65536 -> 0 <= ack_code_for n code < 65536.
Proof. intros. unfold ack_code_for. destruct (n =? 0); [lia|]. destruct (negb _); lia. Qed.

Lemma emit_close_spec c out code :
  ws_inv c -> 0 <= code < 65536 ->
  emit_close c out code =
    ('(r, out) ← ob_append (ws_wire opcode.kClose true (mask_keys c (key_ix c)) (be_bytes 2 code)) out;
     Some (r, snd (next_mask c), out)).
Proof.
  intros I Hc. unfold emit_close. cbn [next_mask]. unfold build_close_frame.
  change (Z.min (zlen []) 123) with 0. rewrite slice_all by done. cbn [mbind option_bind].
  change (z2b (Z.land code 255)) with (z2b (Z.land code 255)).
  assert ([z2b (Z.shiftr code 8); z2b (Z.land code 255)] ++ [] = be_bytes 2 code) as ->
    by (rewrite app_nil_r; by rewrite <- len_bytes_be, !z2b_land).
  destruct (encode_frame_spec (mask_keys c (key_ix c)) (scratch (kMaxFrameHeaderLen + 2))
    opcode.kClose true (be_bytes 2 code)) as [Et Ee].
  - apply control_sendable; [right; right; split; [done|zlens; done]|zlens; lia].
  - apply (wi_keys c I).
  - zlens. rewrite total_small, scratch_len by (unfold kMaxFrameHeaderLen; lia). unfold kMaxFrameHeaderLen. lia.
  - zlens. change (Z.of_nat 2) with 2 in *. change (2 + 0) with 2. rewrite Ee. cbn [mbind option_bind].
    rewrite total_small in Et by lia. rewrite (proj2 (Z.eqb_neq _ 0)), slice_prefix by lia. done.
Qed.

Lemma close_code_total wire allow f :
  decode_frame wire allow = Some (Ok f) ->
  exists code, close_status_code wire f = Some code /\ 0 <= code < 65536.
Proof.
  intros E. unfold close_status_code.
  destruct (negb _ || _) eqn:Ec; [exists 0; split; [done|lia]|]. apply orb_false_iff in Ec as [_ Ec].
  destruct (decode_frame_inv wire allow f E)
    as (w0 & w1 & key & tail & n & Ew & Hn & En & _ & Ht & Hp & _ & _ & Hk & _).
  assert (zlen wire = f_payload f + zlen tail) as Hz by (rewrite Ew; zlens; lia).
  pose proof (zlen_nonneg (len_ext n)). pose proof (zlen_nonneg key).
  destruct (rd_Some wire (f_payload f)) as [b0 ->]; [lia|].
  destruct (rd_Some wire (f_payload f + 1)) as [b1 ->]; [lia|]. cbn [mbind option_bind].
  destruct (f_masked f).
  - destruct Hk as [<- Hk]. destruct (rd_Some key 0) as [k0 ->]; [unfold zlen; lia|].
    destruct (rd_Some key 1) as [k1 ->]; [unfold zlen; lia|]. cbn [mbind option_bind].
    eexists; split; [done|]. apply (wrap_range 16); lia.
  - eexists; split; [done|]. apply (wrap_range 16); lia.
Qed.

(** ** The StreamCodec interface *)

#[local] Instance ws_stream : StreamCodec WsCodec :=
  {| sc_decode := @ws_decode; sc_encode := ws_encode |}.

Section safe_decode.
Context {V : Type} `{PacketViewLaws V}.
Implicit Types v : V.

Lemma append_then_wf src o (c : WsCodec) :
  ob_wf o -> exists r o', ('(r, o) ← ob_append src o; Some (r, c, o)) = Some (r, c, o') /\ ob_wf o'.
Proof.
  intros Ho. pose proof (ob_append_spec src o Ho) as Hs. destruct (zlen src <=? _).
  - destruct Hs as (o' & -> & Ho' & _). cbn [mbind option_bind]. eauto.
  - rewrite Hs. cbn [mbind option_bind]. eauto.
Qed.

Lemma ws_decode_inv c v o :
  ws_inv c -> view_wf v -> ob_wf o ->
  exists r c' v' o', ws_decode c v o = Some (r, c', v', o') /\
    ws_inv c' /\ ob_wf o' /\ consumed_from v v'.
Proof using inflate_bounds.
  intros I Hv Ho. unfold ws_decode. rewrite vlength_window by done. pose proof (consumed_refl v Hv) as Hr.
  destruct (Z.ltb_spec (zlen (window v)) 2); [do 4 eexists; by split_and!|].
  destruct (decode_frame_total (window v) (permessage_deflate (cfg_ c))) as [[f|e] E]; rewrite E;
    cbn [mbind option_bind]; [|destruct e; do 4 eexists; by split_and!].
  assert (consumed_from v (trim_front (f_total_len f) v)) as Ht.
  { apply consumed_trim; [done|]. destruct (decode_frame_inv _ _ f E)
      as (w0 & w1 & key & tail & n & _ & Hn & En & _ & _ & Ep & Et & _).
    pose proof (zlen_nonneg (len_ext n)). pose proof (zlen_nonneg key). lia. }
  destruct (f_rsv1 f && is_control f); [do 4 eexists; by split_and!|].
  destruct (is_ping f) eqn:Ep.
  { destruct (auto_pong (cfg_ c)); [|do 4 eexists; by split_and!].
    destruct (emit_pong_spec c o _ _ f I E) as (bytes & _ & ->).
    { unfold is_ping in Ep. apply Z.eqb_eq in Ep. unfold is_control. by rewrite Ep. }
    edestruct (append_then_wf) as (r & o' & -> & Ho'); [done|]. cbn [mbind option_bind].
    destruct r; do 4 eexists; (split_and!; [done|by apply next_mask_inv|done|done]). }
  destruct (is_pong f); [do 4 eexists; by split_and!|].
  destruct (is_close f).
  { destruct (close_code_total _ _ f E) as (code & -> & Hcode). cbn [mbind option_bind].
    destruct (auto_close_ack (cfg_ c)); [|do 4 eexists; by split_and!].
    rewrite emit_close_spec by (done || by apply ack_code_range).
    edestruct (append_then_wf) as (r & o' & -> & Ho'); [done|]. cbn [mbind option_bind].
    destruct r; do 4 eexists; (split_and!; [done|by apply next_mask_inv|done|done]). }
  destruct (is_data f) eqn:Ed; cbn [negb]; [|do 4 eexists; by split_and!].
  destruct (decode_data_inv c v f I Hv E Ed) as (r & c' & v' & -> & I' & Hc').
  cbn [mbind option_bind]. do 4 eexists; by split_and!.
Qed.

End safe_decode.

(** ** The protocol the codec implements *)

Inductive ws_item :=
| IData (op : Z) (fin : bool) (pl : list byte)
| IPing (pl : list byte)
| IPong (pl : list byte).

(** Message reassembly of RFC 6455 section 5.4: [Some acc] while a fragmented
    message is in flight; the delivered message, if any. *)
Inductive ws_proto (max : Z) : option (list byte) -> ws_item -> option (list byte) -> option (list byte) -> Prop :=
| p_single op pl :
    op = opcode.kText \/ op = opcode.kBinary -> zlen pl <= max ->
    ws_proto max None (IData op true pl) (Some pl) None
| p_first op pl :
    op = opcode.kText \/ op = opcode.kBinary -> zlen pl <= max ->
    ws_proto max None (IData op false pl) None (Some pl)
| p_more acc pl :
    zlen acc + zlen pl <= max ->
    ws_proto max (Some acc) (IData opcode.kContinuation false pl) None (Some (acc ++ pl))
| p_last acc pl :
    zlen acc + zlen pl <= max ->
    ws_proto max (Some acc) (IData opcode.kContinuation true pl) (Some (acc ++ pl)) None
| p_ping st pl : zlen pl <= 125 -> ws_proto max st (IPing pl) None st
| p_pong st pl : zlen pl <= 125 -> ws_proto max st (IPong pl) None st.

Inductive ws_proto_run (max : Z)
    : option (list byte) -> list (option (list byte) * ws_item) -> list (list byte) -> option (list byte) -> Prop :=
| pr_nil st : ws_proto_run max st [] [] st
| pr_cons st k i d st1 items ds st2 :
    ws_proto max st i d st1 -> ws_proto_run max st1 items ds st2 ->
    ws_proto_run max st ((k, i) :: items) (match d with Some m => m :: ds | None => ds end) st2.

(** Wire images; the key is absent for an unmasked (server) frame. *)
Definition frame_wire (op : Z) (fin : bool) (k : option (list byte)) (pl : list byte) : list byte :=
  match k with Some key => ws_wire op fin key pl | None => srv_wire op fin pl end.
Definition item_wire (ki : option (list byte) * ws_item) : list byte :=
  match snd ki with
  | IData op fin pl => frame_wire op fin (fst ki) pl
  | IPing pl => frame_wire opcode.kPing true (fst ki) pl
  | IPong pl => frame_wire opcode.kPong true (fst ki) pl
  end.
Definition key_ok (k : option (list byte)) : Prop :=
  match k with Some key => length key = 4%nat | None => True end.

(** The pongs owed, with the mask keys they will carry. *)
Fixpoint replies (keys : nat -> list byte) (ix : nat) (items : list (option (list byte) * ws_item)) : list byte :=
  match items with
  | [] => []
  | (_, IPing pl) :: t => ws_wire opcode.kPong true (keys ix) pl ++ replies keys (S ix) t
  | _ :: t => replies keys ix t
  end.

(** The codec state that stands for a protocol state. *)
Definition ws_at (c : WsCodec) (st : option (list byte)) : Prop :=
  match st with
  | None => frag_opcode_ c = 0
  | Some acc => frag_opcode_ c <> 0 /\ frag_buf_ c = acc /\ compressed_msg_ c = false
  end.

(** [n] calls of [decode], as long as they succeed. *)
Fixpoint recv {V} `{PacketView V} (n : nat) (c : WsCodec) (v : V) (o : OutputBuffer)
    : option (list (list byte) * option Error * WsCodec * V * OutputBuffer) :=
  match n with
  | O => Some ([], None, c, v, o)
  | S n =>
      '(r, c, v, o) ← ws_decode c v o;
      match r with
      | Err e => Some ([], Some e, c, v, o)
      | Ok d =>
          '(fs, e, c, v, o) ← recv n c v o;
          Some (match d with Some f => f :: fs | None => fs end, e, c, v, o)
      end
  end.

Lemma decode_item op fin k pl rest allow :
  ws_sendable op fin (zlen pl) -> key_ok k ->
  exists f, decode_frame (frame_wire op fin k pl ++ rest) allow = Some (Ok f) /\
    f_opcode f = op /\ f_fin f = fin /\ f_rsv1 f = false /\ f_payload_len f = zlen pl /\
    f_total_len f = zlen (frame_wire op fin k pl) /\
    unmask_copy (frame_wire op fin k pl ++ rest) f = Some pl /\
    exists raw, slice (frame_wire op fin k pl ++ rest) (f_payload f) (f_payload_len f) = Some raw /\
      (f_masked f && (0 <? f_payload_len f) = false -> raw = pl).
Proof.
  intros Hs Hk. destruct k as [key|]; cbn [frame_wire key_ok] in *.
  - eexists. split; [by apply decode_frame_wire|]. cbn. split_and!; try done.
    + unfold unmask_copy, ws_wire. cbn. rewrite <- app_assoc.
      rewrite (slice_mid (ws_header op fin (zlen pl) key) (mask_ref key pl) rest);
        [|symmetry; by apply zlen_header|symmetry; apply zlen_mask_from].
      cbn [mbind option_bind]. pose proof (apply_mask_spec key (mask_ref key pl) [] Hk) as E.
      rewrite !app_nil_r, mask_ref_invol in E. unfold mask_ref in *. by rewrite zlen_mask_from in E.
    + exists (mask_ref key pl). split.
      * unfold ws_wire. rewrite <- app_assoc. apply slice_mid; [symmetry; by apply zlen_header|symmetry; apply zlen_mask_from].
      * intros Hl. by rewrite (zlen_nil_inv pl) by lia.
  - eexists. split; [by apply decode_frame_srv|]. cbn.
    assert (slice (srv_wire op fin pl ++ rest) (2 + zlen (len_ext (zlen pl))) (zlen pl) = Some pl) as Es.
    { unfold srv_wire. cbn [app]. rewrite <- app_assoc.
      pose proof (slice_mid (z2b ((if fin then 128 else 0) + op) :: z2b (len_code (zlen pl)) :: len_ext (zlen pl))
        pl rest) as E. cbn [app] in E. apply E; [zlens; lia|done]. }
    split_and!; try done; [unfold unmask_copy; cbn; by rewrite Es|]. exists pl. done.
Qed.

Section protocol.
Context {V : Type} `{PacketViewLaws V}.
Implicit Types v : V.

(** The result of one call: what is delivered, the next state, the reply bytes. *)
Definition ws_step_ok c v o d st' rest reply nkeys : Prop :=
  exists c' v' o', ws_decode c v o = Some (Ok d, c', v', o') /\
    ws_inv c' /\ ws_at c' st' /\ cfg_ c' = cfg_ c /\ mask_keys c' = mask_keys c /\
    key_ix c' = (key_ix c + nkeys)%nat /\
    view_wf v' /\ window v' = rest /\ ob_wf o' /\ ob_cap o' = ob_cap o /\
    ob_committed o' = ob_committed o ++ reply.

Lemma drop_wire (a b : list byte) : drop (Z.to_nat (zlen a)) (a ++ b) = b.
Proof. unfold zlen. by rewrite Nat2Z.id, drop_app_length. Qed.

Lemma data_sendable op fin n :
  op = opcode.kContinuation \/ op = opcode.kText \/ op = opcode.kBinary -> 0 <= n < 2 ^ 32 ->
  ws_sendable op fin n.
Proof.
  intros Ho Hn. unfold ws_sendable, kMaxWsPayloadLen.
  split; [|split; [lia|]]; destruct Ho as [->|[->| ->]]; done.
Qed.

(** Decoding a data frame reduces to [decode_data]. *)
Lemma ws_decode_data c v o op fin k pl rest :
  view_wf v -> window v = frame_wire op fin k pl ++ rest -> key_ok k ->
  op = opcode.kContinuation \/ op = opcode.kText \/ op = opcode.kBinary -> zlen pl < 2 ^ 32 ->
  exists f, ws_decode c v o = ('(r, c, v) ← decode_data c v f; Some (r, c, v, o)) /\
    f_opcode f = op /\ f_fin f = fin /\ f_rsv1 f = false /\ f_payload_len f = zlen pl /\
    view_wf (trim_front (f_total_len f) v) /\ window (trim_front (f_total_len f) v) = rest /\
    unmask_copy (window v) f = Some pl /\
    exists raw, slice (window v) (f_payload f) (f_payload_len f) = Some raw /\
      (f_masked f && (0 <? f_payload_len f) = false -> raw = pl).
Proof.
  intros Hv Hw Hk Ho Hl. pose proof (zlen_nonneg pl).
  destruct (decode_item op fin k pl rest (permessage_deflate (cfg_ c)))
    as (f & E & Eo & Ef & Er & El & Et & Eu & Es); [by apply data_sendable|done|].
  exists f. rewrite <- Hw in *. split_and!; try done.
  - unfold ws_decode. rewrite vlength_window, E by done. cbn [mbind option_bind].
    assert (2 <= zlen (window v)) as H2.
    { rewrite Hw. destruct k as [key|]; cbn [frame_wire]; unfold ws_wire, ws_header, srv_wire; zlens;
        pose proof (zlen_nonneg rest); pose proof (zlen_nonneg (len_ext (zlen pl)));
        unfold mask_ref; rewrite ?zlen_mask_from; try pose proof (zlen_nonneg key); lia. }
    rewrite (proj2 (Z.ltb_ge _ 2)) by lia. rewrite Er. cbn [andb].
    unfold is_ping, is_pong, is_close, is_data. rewrite Eo.
    by destruct Ho as [->|[->| ->]].
  - apply trim_front_wf; [done|]. rewrite Et. apply zlen_nonneg.
  - rewrite trim_front_window by (done || rewrite Et; apply zlen_nonneg). rewrite Hw, Et. apply drop_wire.
Qed.

Lemma step_new c v o op fin k pl rest :
  ws_inv c -> view_wf v -> ob_wf o -> window v = frame_wire op fin k pl ++ rest -> key_ok k ->
  op = opcode.kText \/ op = opcode.kBinary -> zlen pl <= max_message_size (cfg_ c) ->
  ws_step_ok c v o (if fin then Some pl else None) (if fin then None else Some pl) rest [] 0.
Proof.
  intros I Hv Ho Hw Hk Hop Hl. pose proof (wi_max c I).
  destruct (ws_decode_data c v o op fin k pl rest) as (f & E & Eo & Ef & Er & El & Hv' & Hw' & Eu & raw & Es & Hraw);
    [done|done|done|by right|lia|].
  assert (begin_data c f = Ok (set_frag c [] (if fin then 0 else op) false)) as Eb.
  { unfold begin_data. rewrite Eo, Ef, Er. by destruct Hop as [->| ->]. }
  assert (op <> 0 /\ negb (op =? opcode.kContinuation) = true) as [Hne Hnc] by (by destruct Hop as [->| ->]).
  assert (forall buf, zlen buf <= max_message_size (cfg_ c) -> ws_inv (set_frag c buf (if fin then 0 else op) false))
    as Hi.
  { intros buf Hb. apply set_frag_inv; [done|done|]. destruct fin; [by left|by right]. }
  unfold ws_step_ok. rewrite E. unfold decode_data. rewrite Eb. cbn [compressed_msg_ set_frag cfg_ frag_buf_].
  change (zlen (@nil byte)) with 0. rewrite El in *. rewrite Eo, Ef, Hnc. change (0 =? 0) with true. cbn [andb].
  rewrite (proj2 (Z.ltb_ge (max_message_size (cfg_ c)) (zlen pl))) by lia.
  destruct fin; cbn [andb].
  - rewrite Es. cbn [mbind option_bind]. destruct (f_masked f && (0 <? zlen pl)).
    + rewrite Eu. cbn [mbind option_bind]. do 3 eexists. split; [reflexivity|].
      rewrite app_nil_r, Nat.add_0_r. split_and!; try done. by apply Hi.
    + rewrite (Hraw eq_refl). do 3 eexists. split; [reflexivity|]. rewrite app_nil_r, Nat.add_0_r.
      split_and!; try done. apply Hi. rewrite zlen_nil. lia.
  - rewrite (proj2 (Z.ltb_ge _ (0 + zlen pl))) by lia. unfold accumulate. rewrite El, Eu. cbn [frag_buf_ set_frag app mbind option_bind].
    destruct (Z.ltb_spec 0 (zlen pl)); cbn [mbind option_bind negb].
    + do 3 eexists. split; [reflexivity|]. rewrite app_nil_r, Nat.add_0_r. split_and!; try done. by apply Hi.
    + rewrite (zlen_nil_inv pl) by lia. do 3 eexists. split; [reflexivity|]. rewrite app_nil_r, Nat.add_0_r.
      split_and!; try done. apply Hi. rewrite zlen_nil. lia.
Qed.

Lemma step_continue c v o fin k acc pl rest :
  ws_inv c -> view_wf v -> ob_wf o ->
  window v = frame_wire opcode.kContinuation fin k pl ++ rest -> key_ok k ->
  ws_at c (Some acc) -> zlen acc + zlen pl <= max_message_size (cfg_ c) ->
  ws_step_ok c v o (if fin then Some (acc ++ pl) else None) (if fin then None else Some (acc ++ pl)) rest [] 0.
Proof.
  intros I Hv Ho Hw Hk (Hop & Hb & Hc) Hl. pose proof (wi_max c I). pose proof (zlen_nonneg acc).
  destruct (ws_decode_data c v o opcode.kContinuation fin k pl rest)
    as (f & E & Eo & Ef & Er & El & Hv' & Hw' & Eu & _); [done|done|done|by left|lia|].
  assert (begin_data c f = Ok c) as Eb.
  { unfold begin_data. rewrite Eo, Er. change (opcode.kContinuation =? opcode.kContinuation) with true.
    cbn [negb]. by rewrite (proj2 (Z.eqb_neq (frag_opcode_ c) 0)). }
  assert (exists c1, accumulate c (window v) f = Some c1 /\ frag_buf_ c1 = acc ++ pl /\
    frag_opcode_ c1 = frag_opcode_ c /\ compressed_msg_ c1 = false /\ ws_inv c1 /\ cfg_ c1 = cfg_ c /\
    mask_keys c1 = mask_keys c /\ key_ix c1 = key_ix c) as (c1 & Ea & Hb1 & Ho1 & Hc1 & I1 & Hcfg & Hk1 & Hx1).
  { unfold accumulate. rewrite El, Eu. destruct (Z.ltb_spec 0 (zlen pl)); cbn [mbind option_bind].
    - eexists; split; [reflexivity|]. cbn. rewrite Hb. split_and!; try done.
      apply set_frag_inv; [done|zlens; lia|apply (wi_op c I)].
    - exists c. rewrite (zlen_nil_inv pl) by lia. rewrite app_nil_r. by split_and!. }
  unfold ws_step_ok. rewrite E. unfold decode_data. rewrite Eb, Hc, Eo, Ef, Ea, El, Hb. cbn [negb andb].
  change (negb (opcode.kContinuation =? opcode.kContinuation)) with false. cbn [andb].
  rewrite (proj2 (Z.ltb_ge _ (zlen acc + zlen pl))) by lia. cbn [mbind option_bind].
  destruct fin; cbn [negb]; do 3 eexists; (split; [rewrite ?Hb1; reflexivity|]);
    rewrite app_nil_r, Nat.add_0_r; split_and!; try done.
  - apply set_frag_inv; [done|rewrite <- Hb1; apply (wi_buf c1 I1)|by left].
  - cbn. by rewrite Ho1.
Qed.

Lemma step_control c v o (ping : bool) k pl st rest :
  ws_inv c -> view_wf v -> ob_wf o -> key_ok k -> ws_at c st -> zlen pl <= 125 ->
  auto_pong (cfg_ c) = true ->
  window v = frame_wire (if ping then opcode.kPing else opcode.kPong) true k pl ++ rest ->
  (ping = true -> 6 + zlen pl <= ob_cap o - ob_len o) ->
  ws_step_ok c v o None st rest
    (if ping then ws_wire opcode.kPong true (mask_keys c (key_ix c)) pl else []) (if ping then 1 else 0).
Proof.
  intros I Hv Ho Hk Hat Hl Hap Hw Hroom. pose proof (zlen_nonneg pl).
  set (op := if ping then opcode.kPing else opcode.kPong) in *.
  assert (ws_sendable op true (zlen pl)) as Hs by (apply control_sendable; [unfold op; destruct ping; tauto|lia]).
  destruct (decode_item op true k pl rest (permessage_deflate (cfg_ c)) Hs Hk)
    as (f & E & Eo & Ef & Er & El & Et & Eu & _). rewrite <- Hw in E, Eu.
  pose proof (zlen_nonneg (frame_wire op true k pl)) as Hfw.
  assert (window (trim_front (f_total_len f) v) = rest /\ view_wf (trim_front (f_total_len f) v)) as [Hw' Hv'].
  { rewrite trim_front_window by (done || lia). split; [rewrite Hw, Et; apply drop_wire|apply trim_front_wf; done || lia]. }
  assert (2 <= zlen (window v)) as H2.
  { destruct (decode_frame_inv _ _ f E) as (w0 & w1 & key & tail & n & -> & _).
    zlens. pose proof (zlen_nonneg (len_ext n)). pose proof (zlen_nonneg key). pose proof (zlen_nonneg tail). lia. }
  unfold ws_step_ok, ws_decode. rewrite vlength_window, E by done. cbn [mbind option_bind].
  rewrite (proj2 (Z.ltb_ge _ 2)) by lia. rewrite Er. cbn [andb]. unfold is_ping, is_pong. rewrite Eo.
  unfold op. destruct ping; cbn [andb].
  - change (opcode.kPing =? opcode.kPing) with true. rewrite Hap.
    destruct (emit_pong_spec c o (window v) _ f I E) as (bytes & Eu' & ->);
      [unfold is_control; by rewrite Eo|]. rewrite Eu in Eu'. injection Eu' as <-.
    pose proof (ob_append_spec (ws_wire opcode.kPong true (mask_keys c (key_ix c)) pl) o Ho) as Hap'.
    assert (zlen (ws_wire opcode.kPong true (mask_keys c (key_ix c)) pl) = 6 + zlen pl) as Hz.
    { unfold ws_wire, mask_ref. rewrite zlen_app, zlen_mask_from, zlen_header by apply (wi_keys c I).
      unfold frame_header_size. by zdecide. }
    rewrite Hz, (proj2 (Z.leb_le _ _)) in Hap' by (apply Hroom; done).
    destruct Hap' as (o' & -> & Ho' & Hcap & Hcom). cbn [mbind option_bind]. do 3 eexists. split; [reflexivity|].
    split_and!; try done; [by apply next_mask_inv|cbn; lia].
  - change (opcode.kPong =? opcode.kPing) with false. change (opcode.kPong =? opcode.kPong) with true.
    do 3 eexists. split; [reflexivity|]. rewrite app_nil_r, Nat.add_0_r. by split_and!.
Qed.

(** One protocol step is one call of [decode]. *)
Lemma ws_proto_step c v o st k i d st' rest :
  ws_inv c -> view_wf v -> ob_wf o -> auto_pong (cfg_ c) = true -> key_ok k -> ws_at c st ->
  ws_proto (max_message_size (cfg_ c)) st i d st' -> window v = item_wire (k, i) ++ rest ->
  zlen (replies (mask_keys c) (key_ix c) [(k, i)]) <= ob_cap o - ob_len o ->
  exists n, ws_step_ok c v o d st' rest (replies (mask_keys c) (key_ix c) [(k, i)]) n /\
    forall items, replies (mask_keys c) (key_ix c) ((k, i) :: items) =
      replies (mask_keys c) (key_ix c) [(k, i)] ++ replies (mask_keys c) (key_ix c + n) items.
Proof.
  intros I Hv Ho Hap Hk Hat Hp Hw Hr. unfold item_wire in Hw. cbn [fst snd] in Hw.
  destruct Hp as [op pl Hop Hl|op pl Hop Hl|acc pl Hl|acc pl Hl|st pl Hl|st pl Hl]; cbn [replies app] in *.
  - exists 0%nat. split; [by apply (step_new c v o op true k)|]. intros; by rewrite Nat.add_0_r.
  - exists 0%nat. split; [by apply (step_new c v o op false k)|]. intros; by rewrite Nat.add_0_r.
  - exists 0%nat. split; [by apply (step_continue c v o false k acc)|]. intros; by rewrite Nat.add_0_r.
  - exists 0%nat. split; [by apply (step_continue c v o true k acc)|]. intros; by rewrite Nat.add_0_r.
  - exists 1%nat. rewrite app_nil_r in *. split; [|intros; by rewrite Nat.add_1_r].
    apply (step_control c v o true k pl st); try done. intros _.
    unfold ws_wire, mask_ref in Hr. rewrite zlen_app, zlen_mask_from, zlen_header in Hr by apply (wi_keys c I).
    unfold frame_header_size in Hr. rewrite (proj2 (Z.ltb_lt (zlen pl) 126)) in Hr by lia. lia.
  - exists 0%nat. split; [by apply (step_control c v o false k pl st)|]. intros; by rewrite Nat.add_0_r.
Qed.

Lemma ob_committed_len o : ob_wf o -> zlen (ob_committed o) = ob_len o.
Proof. intros (Hc & Hl & _). unfold ob_committed. zlens. lia. Qed.

Lemma recv_proto_run items c v o st ds st' tail :
  ws_inv c -> view_wf v -> ob_wf o -> auto_pong (cfg_ c) = true -> ws_at c st ->
  Forall (fun ki => key_ok (fst ki)) items ->
  ws_proto_run (max_message_size (cfg_ c)) st items ds st' ->
  window v = concat (item_wire <$> items) ++ tail ->
  zlen (replies (mask_keys c) (key_ix c) items) <= ob_cap o - ob_len o ->
  exists c' v' o', recv (length items) c v o = Some (ds, None, c', v', o') /\
    ws_inv c' /\ ws_at c' st' /\ window v' = tail /\
    ob_committed o' = ob_committed o ++ replies (mask_keys c) (key_ix c) items.
Proof.
  intros I Hv Ho Hap Hat Hks Hrun. revert c v o I Hv Ho Hap Hat Hks Hrun.
  induction items as [|[k i] items IH] in st, ds |- *; intros c v o I Hv Ho Hap Hat Hks Hrun Hw Hroom.
  - inversion Hrun; subst. cbn in Hw. exists c, v, o. cbn. rewrite app_nil_r. by split_and!.
  - inversion Hrun as [|? ? ? d st1 ? ds' ? Hp Hrun' E1 E2]; subst. apply Forall_cons_1 in Hks as [Hk Hks].
    rewrite fmap_cons in Hw. cbn [concat] in Hw. rewrite <- app_assoc in Hw. cbn [fst] in Hk.
    destruct (ws_proto_step c v o st k i d st1 _ I Hv Ho Hap Hk Hat Hp Hw) as (n & Hstep & Hrep).
    { destruct i; cbn [replies] in Hroom |- *; rewrite ?zlen_nil, ?app_nil_r;
        try (pose proof (zlen_nonneg (replies (mask_keys c) (key_ix c) items)); lia).
      rewrite zlen_app in Hroom. pose proof (zlen_nonneg (replies (mask_keys c) (S (key_ix c)) items)). lia. }
    destruct Hstep as (c1 & v1 & o1 & E & I1 & Hat1 & Hcfg & Hmk & Hix & Hv1 & Hw1 & Ho1 & Hcap & Hcom).
    assert (ob_len o1 = ob_len o + zlen (replies (mask_keys c) (key_ix c) [(k, i)])) as Hlen.
    { rewrite <- !ob_committed_len, Hcom by done. by zlens. }
    rewrite Hrep in Hroom |- *. zlens.
    destruct (IH st1 ds' c1 v1 o1) as (c2 & v2 & o2 & E2 & I2 & Hat2 & Hw2 & Hcom2); try done; try congruence.
    + rewrite Hmk, Hix, Hcap, Hlen. lia.
    + exists c2, v2, o2. cbn [length recv]. rewrite E. cbn [mbind option_bind]. rewrite E2. cbn [mbind option_bind].
      split_and!; try done. rewrite Hcom2, Hcom, Hmk, Hix. by rewrite app_assoc.
Qed.

End protocol.

(** ** Properties *)

(** the codec is a safe stream codec.  From any state it can reach, on any
    bytes and whatever zlib answers, a call of [decode] stays inside its buffers,
    keeps the reassembly buffer within the configured maximum, consumes only from
    the front of the view and leaves a good state. *)
Theorem ws_codec_safe {V} `{PacketViewLaws V} c (v : V) o :
  ws_inv c -> view_wf v -> ob_wf o ->
  exists r c' v' o', sc_decode c v o = Some (r, c', v', o') /\
    ws_inv c' /\ zlen (frag_buf_ c') <= max_message_size (cfg_ c') /\ ob_wf o' /\ consumed_from v v'.
Proof using inflate_bounds.
  intros I Hv Ho. destruct (ws_decode_inv c v o I Hv Ho) as (r & c' & v' & o' & E & I' & Ho' & Hc).
  exists r, c', v', o'. split; [exact E|]. split; [done|]. split; [by apply wi_buf|done].
Qed.

(** C6: the codec refines the RFC 6455 message protocol.  For any legal sequence of
    text/binary messages, whole or fragmented, with pings and pongs interleaved
    anywhere, masked or not, [decode] delivers exactly the reassembled messages in
    order, answers every ping with a pong carrying its payload, consumes exactly the
    frames and leaves the following bytes in the view. *)
Theorem ws_codec_refines_protocol {V} `{PacketViewLaws V} items c (v : V) o st ds st' tail :
  ws_inv c -> view_wf v -> ob_wf o -> auto_pong (cfg_ c) = true -> ws_at c st ->
  Forall (fun ki => key_ok (fst ki)) items ->
  ws_proto_run (max_message_size (cfg_ c)) st items ds st' ->
  window v = concat (item_wire <$> items) ++ tail ->
  zlen (replies (mask_keys c) (key_ix c) items) <= ob_cap o - ob_len o ->
  exists c' v' o', recv (length items) c v o = Some (ds, None, c', v', o') /\
    ws_inv c' /\ ws_at c' st' /\ window v' = tail /\
    ob_committed o' = ob_committed o ++ replies (mask_keys c) (key_ix c) items.
Proof. apply recv_proto_run. Qed.

(** A continuation frame is accepted only inside a message.  When no fragmented
    message is in flight, also right after one was delivered and its bytes are still
    in the buffer, a continuation frame is refused with WsFrameBad and nothing is
    consumed. *)
Theorem ws_orphan_continuation_refused {V} `{PacketViewLaws V} c (v : V) o fin k pl rest :
  view_wf v -> ws_at c None -> key_ok k -> zlen pl < 2 ^ 32 ->
  window v = frame_wire opcode.kContinuation fin k pl ++ rest ->
  exists c', ws_decode c v o = Some (Err WsFrameBad, c', v, o) /\ c' = c.
Proof.
  intros Hv Hat Hk Hl Hw. destruct (ws_decode_data c v o opcode.kContinuation fin k pl rest)
    as (f & E & Eo & Ef & Er & _); [done|done|done|by left|done|].
  exists c. rewrite E. unfold decode_data, begin_data, begin_data_state. rewrite Eo. cbn in Hat. rewrite Hat.
  by split.
Qed.

(** the close handshake.  A close frame is answered, when acks are enabled, by
    one close frame whose status code RFC 6455 allows on the wire: the peer's own
    code if it is legal, 1000 if it sent none and 1002 otherwise; the caller learns of
    the close by WsCloseReceived. *)
Theorem ws_close_acknowledged {V} `{PacketViewLaws V} c (v : V) o f :
  ws_inv c -> view_wf v -> ob_wf o -> auto_close_ack (cfg_ c) = true ->
  decode_frame (window v) (permessage_deflate (cfg_ c)) = Some (Ok f) ->
  is_close f = true -> f_rsv1 f = false -> 8 <= ob_cap o - ob_len o ->
  exists code c' v' o' ack fa,
    close_status_code (window v) f = Some code /\
    ws_decode c v o = Some (Err WsCloseReceived, c', v', o') /\
    ob_committed o' = ob_committed o ++ ack /\ decode_frame ack false = Some (Ok fa) /\
    is_close fa = true /\ close_status_code ack fa = Some (ack_code_for (f_payload_len f) code) /\
    is_valid_close_code (ack_code_for (f_payload_len f) code) = true.
Proof.
  intros I Hv Ho Hack E Hcl Hr Hroom. destruct (close_code_total _ _ f E) as (code & Ec & Hcode).
  pose proof (ack_code_range (f_payload_len f) code Hcode) as Hak. set (ak := ack_code_for _ _) in *.
  set (key := mask_keys c (key_ix c)). assert (length key = 4%nat) as Hk by apply (wi_keys c I).
  set (ack := ws_wire opcode.kClose true key (be_bytes 2 ak)).
  assert (ws_sendable opcode.kClose true (zlen (be_bytes 2 ak))) as Hs.
  { apply control_sendable; [right; right; split; [done|zlens; done]|zlens; lia]. }
  assert (zlen ack = 8) as Hz.
  { unfold ack, ws_wire, mask_ref. rewrite zlen_app, zlen_mask_from, zlen_header by done. by zlens. }
  pose proof (decode_frame_wire opcode.kClose true key (be_bytes 2 ak) [] false Hs Hk) as Ed.
  rewrite app_nil_r in Ed. fold ack in Ed.
  destruct (close_fields key (ws_header opcode.kClose true (zlen (be_bytes 2 ak)) key)
    (z2b (Z.shiftr ak 8)) (z2b (Z.shiftr ak 0)) [] [] opcode.kClose true 2 (zlen ack)) as [Ecc _]; [done|done|done|].
  rewrite zlen_header, app_nil_r in Ecc by done.
  change [z2b (Z.shiftr ak 8); z2b (Z.shiftr ak 0)] with (be_bytes 2 ak) in Ecc.
  rewrite be_val_be_bytes_small in Ecc by (change (256 ^ Z.of_nat 2) with 65536; lia).
  pose proof (ob_append_spec ack o Ho) as Ha. rewrite Hz, (proj2 (Z.leb_le _ _)) in Ha by lia.
  destruct Ha as (o' & Ea & _ & _ & Hcom).
  assert (2 <= zlen (window v)) as H2.
  { destruct (decode_frame_inv _ _ f E) as (w0 & w1 & kk & tl & n & -> & _).
    zlens. pose proof (zlen_nonneg (len_ext n)). pose proof (zlen_nonneg kk). pose proof (zlen_nonneg tl). lia. }
  exists code, (snd (next_mask c)), (trim_front (f_total_len f) v), o', ack. eexists.
  split; [done|]. split.
  - unfold ws_decode. rewrite vlength_window, E by done. rewrite (proj2 (Z.ltb_ge _ 2)) by lia.
    cbn [mbind option_bind]. rewrite Hr, Hcl, Hack, Ec. unfold is_close in Hcl. apply Z.eqb_eq in Hcl.
    unfold is_ping, is_pong. rewrite Hcl. cbn [andb mbind option_bind]. fold ak.
    change (opcode.kClose =? opcode.kPing) with false. change (opcode.kClose =? opcode.kPong) with false.
    rewrite emit_close_spec by done. fold key ack. by rewrite Ea.
  - split; [done|]. split; [exact Ed|]. split; [done|]. split; [exact Ecc|].
    unfold ak, ack_code_for. destruct (f_payload_len f =? 0); [done|].
    destruct (is_valid_close_code code) eqn:Ev; done.
Qed.

End ws_codec.

(** ** Witnesses *)

Definition demo_codec : WsCodec (zs := unit) := ws_new ws_cfg_default (fun _ => [x01; x02; x03; x04]).

Lemma copy_zlib_bounds z input n flush ret used prod z' :
  0 <= n -> inflate copy_zlib z input n flush = (ret, used, prod, z') ->
  0 <= used <= zlen input /\ zlen prod <= n.
Proof.
  intros Hn [= <- <- <- <-]. pose proof (zlen_nonneg input). split; [lia|]. rewrite zlen_take. lia.
Qed.

Lemma demo_inv : ws_inv demo_codec.
Proof. apply ws_new_inv; [cbn; lia|done]. Qed.

Lemma ob_init_wf base : zlen base <= SIZE_MAX -> ob_wf (ob_init base).
Proof. intros. pose proof (zlen_nonneg base). unfold ob_wf, ob_init. cbn. lia. Qed.

Lemma span_init_wf base : view_wf (spv_init base).
Proof. cbn. unfold span_wf. cbn. pose proof (zlen_nonneg base). lia. Qed.

Lemma ws_codec_safe_witness :
  exists r c' v' o', ws_decode copy_zlib (fun _ n => n) demo_codec (spv_init [x89; x01; x41; x82]) (ob_init (replicate 64 x00))
      = Some (r, c', v', o') /\
    ws_inv c' /\ zlen (frag_buf_ c') <= max_message_size (cfg_ c') /\ ob_wf o' /\
    consumed_from (spv_init [x89; x01; x41; x82]) v'.
Proof.
  apply (ws_codec_safe copy_zlib (fun _ n => n) copy_zlib_bounds demo_codec);
    [apply demo_inv|apply span_init_wf|apply ob_init_wf; vm_compute; discriminate].
Defined.

(** "He" + ping + "llo" in two fragments, then one masked whole message. *)
Definition demo_items : list (option (list byte) * ws_item) :=
  [(None, IData 1 false [x48; x65]); (None, IPing [x70]); (None, IData 0 true [x6c; x6c; x6f]);
   (Some [x0a; x0b; x0c; x0d], IData 2 true [x01])].

Lemma ws_codec_refines_protocol_witness :
  exists c' v' o', recv copy_zlib (fun _ n => n) (length demo_items) demo_codec
      (spv_init (concat (item_wire <$> demo_items) ++ [x81])) (ob_init (replicate 64 x00))
      = Some ([[x48; x65; x6c; x6c; x6f]; [x01]], None, c', v', o') /\
    ws_inv c' /\ ws_at c' None /\ window v' = [x81] /\
    ob_committed o' = ob_committed (ob_init (replicate 64 x00)) ++ replies (mask_keys demo_codec) 0 demo_items.
Proof.
  apply (ws_codec_refines_protocol copy_zlib (fun _ n => n) demo_items demo_codec
    (spv_init (concat (item_wire <$> demo_items) ++ [x81])) (ob_init (replicate 64 x00)) None).
  - apply demo_inv.
  - apply span_init_wf.
  - apply ob_init_wf; vm_compute; discriminate.
  - reflexivity.
  - reflexivity.
  - repeat constructor.
  - eapply pr_cons with (d := None); [apply p_first; [by left|vm_compute; discriminate]|].
    eapply pr_cons with (d := None); [apply p_ping; vm_compute; discriminate|].
    eapply pr_cons with (d := Some ([x48; x65] ++ [x6c; x6c; x6f])) (ds := [[x01]]);
      [apply p_last; vm_compute; discriminate|].
    eapply pr_cons with (d := Some [x01]) (ds := []); [apply p_single; [by right|vm_compute; discriminate]|constructor].
  - vm_compute. reflexivity.
  - vm_compute. discriminate.
Defined.

Lemma ws_orphan_continuation_refused_witness :
  exists c', ws_decode copy_zlib (fun _ n => n) demo_codec (spv_init (frame_wire 0 true None [x41] ++ [])) (ob_init [])
      = Some (Err WsFrameBad, c', spv_init (frame_wire 0 true None [x41] ++ []), ob_init []) /\ c' = demo_codec.
Proof.
  apply (ws_orphan_continuation_refused copy_zlib (fun _ n => n) demo_codec
    (spv_init (frame_wire 0 true None [x41] ++ [])) (ob_init []) true None [x41] []);
    [apply span_init_wf|reflexivity|exact I|vm_compute; reflexivity|reflexivity].
Defined.

Lemma ws_close_acknowledged_witness :
  let v := spv_init [x88; x02; x03; xec] in
  exists code c' v' o' ack fa,
    close_status_code (window v) (mkWsFrame 8 true false false 2 2 [x00; x00; x00; x00] 4) = Some code /\
    ws_decode copy_zlib (fun _ n => n) demo_codec v (ob_init (replicate 64 x00)) = Some (Err WsCloseReceived, c', v', o') /\
    ob_committed o' = ob_committed (ob_init (replicate 64 x00)) ++ ack /\ decode_frame ack false = Some (Ok fa) /\
    is_close fa = true /\ close_status_code ack fa = Some (ack_code_for 2 code) /\
    is_valid_close_code (ack_code_for 2 code) = true.
Proof.
  intros v. apply (ws_close_acknowledged copy_zlib (fun _ n => n) demo_codec v (ob_init (replicate 64 x00))
    (mkWsFrame 8 true false false 2 2 [x00; x00; x00; x00] 4));
    [apply demo_inv|apply span_init_wf|apply ob_init_wf; vm_compute; discriminate|reflexivity|reflexivity
    |reflexivity|reflexivity|vm_compute; discriminate].
Defined.
