(* ===== verification/PacketCore.v ===== *)
(** * Packet constants, byte order, checksums and addresses

    packet_core.hpp of eph-net-dpdk: the protocol constants, [hton16]/[hton32], the
    Internet checksum and the TCP and UDP checksums with their pseudo-header, the SYN
    options, the connection tuple and the textual form of IPv4 addresses.  The machine
    is little-endian, as on every platform DPDK is built for here: a field of a packed
    header that is assigned [v] holds the bytes [le_bytes n v].

    The theorems: the byte-order helpers turn an assignment into the big-endian image;
    the folding loop ends and computes the one's-complement sum; a header or segment
    whose checksum field was filled in checks to zero; an address printed by
    [format_ipv4] is read back by [parse_ipv4], which accepts nothing else. *)

From S2P Require Import Prelude FixText.

#[local] Open Scope Z_scope.

(** ** Constants *)

Definition kEtherTypeIpv4 : Z := 0x0800.
Definition kIpProtoIcmp : Z := 1.
Definition kIpProtoTcp : Z := 6.
Definition kIpProtoUdp : Z := 17.

Definition kIpv4HeaderLen : Z := 20.
Definition kTcpHeaderLen : Z := 20.
Definition kEtherHeaderLen : Z := 14.
Definition kUdpHeaderLen : Z := 8.
Definition kAllHeadersLen : Z := kEtherHeaderLen + kIpv4HeaderLen + kTcpHeaderLen.
Definition kUdpAllHeadersLen : Z := kEtherHeaderLen + kIpv4HeaderLen + kUdpHeaderLen.

Definition kTcpFin : Z := 0x01.
Definition kTcpSyn : Z := 0x02.
Definition kTcpRst : Z := 0x04.
Definition kTcpPsh : Z := 0x08.
Definition kTcpAck : Z := 0x10.
Definition kTcpUrg : Z := 0x20.

Definition kIpv4VersionIhl5 : Z := 0x45.
Definition kIpDontFragment : Z := 0x4000.
Definition kIpMoreFragments : Z := 0x2000.
Definition kIpFragOffsetMask : Z := 0x1FFF.
Definition kDefaultTtl : Z := 64.

Definition kDefaultMss : Z := 1460.
Definition kJumboMaxMss : Z := 9000.
Definition kSynOptionsLen : Z := 12.
Definition kSynTcpHeaderLen : Z := kTcpHeaderLen + kSynOptionsLen.
Definition UINT16_MAX : Z := 65535.

(** ** Byte order *)

Definition hton16 (h : Z) : Z := u16 (Z.lor (Z.shiftr h 8) (Z.shiftl h 8)).

Definition hton32 (h : Z) : Z :=
  Z.lor (Z.lor (Z.lor (Z.land (Z.shiftr h 24) 0xFF) (Z.land (Z.shiftr h 8) 0xFF00))
    (Z.land (u32 (Z.shiftl h 8)) 0xFF0000)) (Z.land (u32 (Z.shiftl h 24)) 0xFF000000).

Definition ntoh16 (n : Z) : Z := hton16 n.
Definition ntoh32 (n : Z) : Z := hton32 n.

(** ** Checksums *)

(** The sum of the 16-bit words of a buffer, a trailing byte counting as the low half
    of a word; the accumulator is a [uint32_t]. *)
Fixpoint word_sum (sum : Z) (data : list byte) : Z :=
  match data with
  | a :: b :: t => word_sum (u32 (sum + Z.lor (b2z a) (u16 (Z.shiftl (b2z b) 8)))) t
  | [a] => u32 (sum + b2z a)
  | [] => sum
  end.

(** [while (sum >> 16) sum = (sum & 0xFFFF) + (sum >> 16)]. *)
Fixpoint fold_carries (fuel : nat) (sum : Z) : Z :=
  match fuel with
  | O => sum
  | S f =>
      if Z.shiftr sum 16 =? 0 then sum
      else fold_carries f (u32 (Z.land sum 0xFFFF + Z.shiftr sum 16))
  end.

Definition finish_checksum (sum : Z) : Z := u16 (Z.lnot (fold_carries 3 sum)).

Definition internet_checksum (data : option (list byte)) : Z :=
  match data with
  | None | Some [] => 0xFFFF
  | Some bs => finish_checksum (word_sum 0 bs)
  end.

Definition pseudo_header_sum (src_ip_net dst_ip_net protocol tcp_len_host : Z) : Z :=
  let sum := u32 (Z.land src_ip_net 0xFFFF) in
  let sum := u32 (sum + Z.shiftr src_ip_net 16) in
  let sum := u32 (sum + Z.land dst_ip_net 0xFFFF) in
  let sum := u32 (sum + Z.shiftr dst_ip_net 16) in
  let sum := u32 (sum + hton16 protocol) in
  u32 (sum + hton16 tcp_len_host).

Definition tcp_checksum (src_ip_net dst_ip_net : Z) (tcp_seg : list byte) : Z :=
  finish_checksum
    (word_sum (pseudo_header_sum src_ip_net dst_ip_net kIpProtoTcp (u16 (zlen tcp_seg))) tcp_seg).

Definition udp_checksum (src_ip_net dst_ip_net : Z) (udp_seg : list byte) : Z :=
  let result := finish_checksum
    (word_sum (pseudo_header_sum src_ip_net dst_ip_net kIpProtoUdp (u16 (zlen udp_seg))) udp_seg) in
  if result =? 0 then 0xFFFF else result.

(** ** SYN options *)

(** Stores to consecutive fields of a packed structure at [off]. *)
Fixpoint store_fields (m : list byte) (off : Z) (fields : list (list byte)) : option (list byte) :=
  match fields with
  | [] => Some m
  | f :: t => m ← wr m off f; store_fields m (off + zlen f) t
  end.

(** [buf] is the offset of the option area in [m]. *)
Definition write_syn_options (m : list byte) (buf mss : Z) : option (list byte) :=
  store_fields m buf
    [[x02]; [x04]; le_bytes 2 (hton16 mss);
     [x04]; [x02];
     [x01];
     [x03]; [x03]; [x00];
     [x01]; [x01]].

(** ** Connection tuple *)

Record ConnectionTuple := mkTuple {
  src_ip : Z;
  dst_ip : Z;
  src_port : Z;
  dst_port : Z
}.

#[global] Instance ConnectionTuple_eq_dec : EqDecision ConnectionTuple.
Proof. solve_decision. Defined.

(** [validate()], with the returned description as the field it names. *)
Inductive tuple_error := SrcIpZero | DstIpZero | SrcPortZero | DstPortZero.

Definition tuple_validate (t : ConnectionTuple) : option tuple_error :=
  if src_ip t =? 0 then Some SrcIpZero
  else if dst_ip t =? 0 then Some DstIpZero
  else if src_port t =? 0 then Some SrcPortZero
  else if dst_port t =? 0 then Some DstPortZero
  else None.

(** ** IPv4 addresses as text

    A [const char*] is the list of its bytes before the terminator, [None] for a null
    pointer; reading at the end of the list reads the terminator. *)

Definition peek (p : list byte) : byte := default x00 (head p).

Fixpoint octet_loop (digits : nat) (val : Z) (p : list byte) : Z * list byte :=
  match digits, p with
  | S d, c :: t => if is_digit c then octet_loop d (u32 (val * 10 + digit_of c)) t else (val, p)
  | _, _ => (val, p)
  end.

Definition parse_octet (p : list byte) : option (Z * list byte) :=
  if negb (is_digit (peek p)) then None
  else if bool_decide (peek p = x30) && is_digit (peek (tail p)) then None
  else let '(val, p) := octet_loop 3 0 p in
       if 255 <? val then None else Some (val, p).

Definition expect_dot (p : list byte) : option (list byte) :=
  if bool_decide (peek p = ch_dot) then Some (tail p) else None.

Definition parse_octets (p : list byte) : option Z :=
  '(o0, p) ← parse_octet p;
  p ← expect_dot p; '(o1, p) ← parse_octet p;
  p ← expect_dot p; '(o2, p) ← parse_octet p;
  p ← expect_dot p; '(o3, p) ← parse_octet p;
  if bool_decide (peek p = x00)
  then Some (Z.lor (Z.lor (Z.lor (u32 (Z.shiftl o0 24)) (Z.shiftl o1 16)) (Z.shiftl o2 8)) o3)
  else None.

Definition parse_ipv4 (str : option (list byte)) : Z :=
  match str with
  | None => 0
  | Some p => default 0 (parse_octets p)
  end.

(** [std::format] of a value below 256: at most three digits. *)
Definition dec_octet (v : Z) : list byte :=
  if 100 <=? v then [digit_char (v / 100); digit_char (v / 10 mod 10); digit_char (v mod 10)]
  else if 10 <=? v then [digit_char (v / 10); digit_char (v mod 10)]
  else [digit_char v].

Definition format_ipv4 (ip : Z) : list byte :=
  dec_octet (Z.land (Z.shiftr ip 24) 0xFF) ++ [ch_dot] ++
  dec_octet (Z.land (Z.shiftr ip 16) 0xFF) ++ [ch_dot] ++
  dec_octet (Z.land (Z.shiftr ip 8) 0xFF) ++ [ch_dot] ++
  dec_octet (Z.land ip 0xFF).

(** ** Byte order: assigning [hton16 h] stores the big-endian image of [h] *)

(** [x & (0xFF << k)] isolates one byte of [x]. *)
Lemma land_byte x k : 0 <= k -> Z.land x (Z.shiftl 255 k) = Z.shiftl (x / 2 ^ k mod 256) k.
Proof.
  intros Hk. rewrite <- Z.shiftr_div_pow2 by done. change 256 with (2 ^ 8).
  rewrite <- Z.land_ones by lia. apply Z.bits_inj'. intros n Hn.
  rewrite Z.land_spec. destruct (decide (n < k)).
  - rewrite !Z.shiftl_spec_low by lia. apply andb_false_r.
  - rewrite !Z.shiftl_spec, Z.land_spec, Z.shiftr_spec by lia.
    replace (n - k + k) with n by lia. f_equal.
Qed.

Lemma hton16_val h : 0 <= h < 2 ^ 16 -> hton16 h = h mod 256 * 2 ^ 8 + h / 256.
Proof.
  intros Hh. unfold hton16. rewrite Z.lor_comm, Z.shiftr_div_pow2 by lia.
  change (2 ^ 8) with 256 in *. change (2 ^ 16) with 65536 in *.
  rewrite lor_shiftl_add by (change (2 ^ 8) with 256; Z.to_euclidean_division_equations; lia).
  unfold wrap. change (2 ^ 16) with 65536. change (2 ^ 8) with 256.
  Z.to_euclidean_division_equations; lia.
Qed.

Lemma hton32_val h : 0 <= h < 2 ^ 32 ->
  hton32 h = h mod 256 * 2 ^ 24 + (h / 2 ^ 8 mod 256 * 2 ^ 16
             + (h / 2 ^ 16 mod 256 * 2 ^ 8 + h / 2 ^ 24)).
Proof.
  intros Hh. unfold hton32.
  change 0xFF with (Z.shiftl 255 0). change 0xFF00 with (Z.shiftl 255 8).
  change 0xFF0000 with (Z.shiftl 255 16). change 0xFF000000 with (Z.shiftl 255 24).
  rewrite !land_byte, !Z.shiftr_div_pow2, !(Z.shiftl_mul_pow2 h), !Z.shiftl_0_r, !Z.div_div by lia.
  change (2 ^ 0) with 1. rewrite Z.mul_1_r.
  replace (h / 2 ^ 24 mod 256) with (h / 2 ^ 24)
    by (change (2 ^ 24) with 16777216; change (2 ^ 32) with 4294967296 in *;
        Z.to_euclidean_division_equations; lia).
  change (2 ^ 8 * 2 ^ 8) with (2 ^ 16).
  replace (u32 (h * 2 ^ 8) / 2 ^ 16 mod 256) with (h / 2 ^ 8 mod 256)
    by (unfold wrap; change (2 ^ 8) with 256; change (2 ^ 16) with 65536;
        change (2 ^ 32) with 4294967296 in *; Z.to_euclidean_division_equations; lia).
  replace (u32 (h * 2 ^ 24) / 2 ^ 24 mod 256) with (h mod 256)
    by (unfold wrap; change (2 ^ 24) with 16777216; change (2 ^ 32) with 4294967296 in *;
        Z.to_euclidean_division_equations; lia).
  set (a := h / 2 ^ 24). set (b := h / 2 ^ 16 mod 256). set (c := h / 2 ^ 8 mod 256).
  assert (0 <= a < 2 ^ 8).
  { subst a. change (2 ^ 24) with 16777216. change (2 ^ 32) with 4294967296 in *.
    change (2 ^ 8) with 256. Z.to_euclidean_division_equations; lia. }
  assert (0 <= b < 256) by (apply Z.mod_pos_bound; lia).
  assert (0 <= c < 256) by (apply Z.mod_pos_bound; lia).
  rewrite (Z.lor_comm a), (lor_shiftl_add b) by lia.
  rewrite (Z.lor_comm _ (Z.shiftl c 16)), (lor_shiftl_add c) by lia.
  rewrite (Z.lor_comm _ (Z.shiftl _ 24)), lor_shiftl_add by lia. lia.
Qed.

Lemma ntoh16_le a b : ntoh16 (le_val [a; b]) = be_val [a; b].
Proof.
  unfold ntoh16. rewrite !be_val_cons, !le_val_cons. change (le_val []) with 0.
  change (be_val []) with 0. cbn [length]. change (256 ^ Z.of_nat 1) with 256.
  change (256 ^ Z.of_nat 0) with 1.
  pose proof (b2z_range a). pose proof (b2z_range b).
  rewrite hton16_val by (change (2 ^ 16) with 65536; lia).
  change (2 ^ 8) with 256. Z.to_euclidean_division_equations; lia.
Qed.

Lemma ntoh32_le a b c d : ntoh32 (le_val [a; b; c; d]) = be_val [a; b; c; d].
Proof.
  unfold ntoh32. rewrite !be_val_cons, !le_val_cons. change (le_val []) with 0.
  change (be_val []) with 0. cbn [length]. change (256 ^ Z.of_nat 1) with 256.
  change (256 ^ Z.of_nat 0) with 1. change (256 ^ Z.of_nat 2) with 65536.
  change (256 ^ Z.of_nat 3) with 16777216.
  pose proof (b2z_range a). pose proof (b2z_range b). pose proof (b2z_range c).
  pose proof (b2z_range d).
  rewrite hton32_val by (change (2 ^ 32) with 4294967296; lia).
  change (2 ^ 8) with 256. change (2 ^ 16) with 65536. change (2 ^ 24) with 16777216.
  Z.to_euclidean_division_equations; lia.
Qed.

Lemma le_val_be_rev bs : le_val bs = be_val (rev bs).
Proof. rewrite <- (rev_involutive bs) at 1. apply le_val_rev. Qed.

Lemma le_bytes_hton16 h : 0 <= h < 2 ^ 16 -> le_bytes 2 (hton16 h) = be_bytes 2 h.
Proof.
  intros Hh.
  assert (exists a b, be_bytes 2 h = [a; b]) as (a & b & Hab) by (cbn [be_bytes]; eauto).
  rewrite Hab. assert (h = le_val [b; a]) as ->.
  { rewrite le_val_be_rev. cbn [rev app]. rewrite <- Hab. symmetry.
    by apply be_val_be_bytes_small. }
  fold (ntoh16 (le_val [b; a])). rewrite ntoh16_le.
  rewrite <- (le_bytes_le_val [a; b]). cbn [length].
  by rewrite le_val_be_rev.
Qed.

Lemma le_bytes_hton32 h : 0 <= h < 2 ^ 32 -> le_bytes 4 (hton32 h) = be_bytes 4 h.
Proof.
  intros Hh.
  assert (exists a b c d, be_bytes 4 h = [a; b; c; d]) as (a & b & c & d & Hab)
    by (cbn [be_bytes]; eauto).
  rewrite Hab. assert (h = le_val [d; c; b; a]) as ->.
  { rewrite le_val_be_rev. cbn [rev app]. rewrite <- Hab. symmetry.
    by apply be_val_be_bytes_small. }
  fold (ntoh32 (le_val [d; c; b; a])). rewrite ntoh32_le.
  rewrite <- (le_bytes_le_val [a; b; c; d]). cbn [length].
  by rewrite le_val_be_rev.
Qed.

(** ** Checksums: the loop computes the one's-complement sum *)

(** The reference: the unbounded sum of the 16-bit words, and its residue in
    one's-complement representation, where only the sum zero is represented by 0. *)
Fixpoint word_total (data : list byte) : Z :=
  match data with
  | a :: b :: t => le_val [a; b] + word_total t
  | [a] => b2z a
  | [] => 0
  end.

Definition ones_complement (s : Z) : Z := if s =? 0 then 0 else (s - 1) mod 65535 + 1.

Lemma list_ind2 {A} (P : list A -> Prop) :
  P [] -> (forall a, P [a]) -> (forall a b t, P t -> P (a :: b :: t)) -> forall l, P l.
Proof.
  intros H0 H1 H2 l. enough (P l /\ forall a, P (a :: l)) by tauto.
  induction l as [|b t [IH1 IH2]]; [auto|]. split; auto.
Qed.

Lemma word_lor a b : Z.lor (b2z a) (u16 (Z.shiftl (b2z b) 8)) = le_val [a; b].
Proof.
  pose proof (b2z_range b). rewrite wrap_small.
  - rewrite Z.lor_comm. reflexivity.
  - rewrite Z.shiftl_mul_pow2 by lia. change (2 ^ 8) with 256. change (2 ^ 16) with 65536. lia.
Qed.

Lemma le_val2_range a b : 0 <= le_val [a; b] < 65536.
Proof.
  rewrite !le_val_cons. change (le_val []) with 0.
  pose proof (b2z_range a). pose proof (b2z_range b). lia.
Qed.

Lemma word_total_range bs : 0 <= word_total bs <= 65535 * ((zlen bs + 1) / 2).
Proof.
  induction bs as [|a|a b t IH] using list_ind2; cbn [word_total].
  - done.
  - pose proof (b2z_range a). zlens. change ((0 + 1 + 1) / 2) with 1. lia.
  - pose proof (le_val2_range a b). zlens.
    replace (zlen t + 1 + 1 + 1) with (zlen t + 1 + 1 * 2) by lia.
    rewrite Z.div_add by lia. lia.
Qed.

Lemma word_sum_total bs : forall sum,
  0 <= sum -> sum + word_total bs < 2 ^ 32 -> word_sum sum bs = sum + word_total bs.
Proof.
  induction bs as [|a|a b t IH] using list_ind2; intros sum H0 H1; cbn [word_sum word_total] in *.
  - lia.
  - pose proof (b2z_range a). apply wrap_small. lia.
  - pose proof (le_val2_range a b). pose proof (word_total_range t).
    rewrite word_lor, wrap_small by lia. rewrite IH by lia. lia.
Qed.

Lemma word_total_app pre m :
  Z.even (zlen pre) = true -> word_total (pre ++ m) = word_total pre + word_total m.
Proof.
  induction pre as [|a|a b t IH] using list_ind2; intros He; cbn [app word_total].
  - done.
  - done.
  - rewrite IH; [lia|]. revert He. zlens. rewrite <- Z.add_assoc, Z.even_add. by destruct (Z.even _).
Qed.

Lemma carry_step s : 0 < s ->
  0 < s mod 65536 + s / 65536 /\
  (s mod 65536 + s / 65536 - 1) mod 65535 = (s - 1) mod 65535.
Proof.
  intros Hs. split; [Z.to_euclidean_division_equations; lia|].
  replace (s - 1) with (s mod 65536 + s / 65536 - 1 + s / 65536 * 65535)
    by (Z.to_euclidean_division_equations; lia).
  by rewrite Z.mod_add by lia.
Qed.

Lemma shiftr16_zero s : 0 <= s -> (Z.shiftr s 16 =? 0) = (s <? 65536).
Proof.
  intros. rewrite Z.shiftr_div_pow2 by lia. change (2 ^ 16) with 65536.
  zbool; try done; Z.to_euclidean_division_equations; lia.
Qed.

Lemma fold_carries_step n s : 0 <= s < 2 ^ 32 ->
  fold_carries (S n) s = if s <? 65536 then s else fold_carries n (s mod 65536 + s / 65536).
Proof.
  intros Hs. cbn [fold_carries]. rewrite shiftr16_zero by lia.
  destruct (Z.ltb_spec s 65536); [done|]. f_equal.
  change 0xFFFF with (2 ^ 16 - 1). rewrite land_mask, Z.shiftr_div_pow2 by lia.
  change (2 ^ 16) with 65536. apply wrap_small. change (2 ^ 32) with 4294967296 in *.
  Z.to_euclidean_division_equations; lia.
Qed.

(** Three rounds are enough for any 32-bit sum, and the result is below [2^16]. *)
Lemma fold_carries_spec s : 0 <= s < 2 ^ 32 -> fold_carries 3 s = ones_complement s.
Proof.
  intros Hs. unfold ones_complement. destruct (Z.eqb_spec s 0) as [->|Hn]; [done|].
  assert (forall r, 0 < r < 65536 -> r = (r - 1) mod 65535 + 1) as Hend.
  { intros r Hr. rewrite Z.mod_small; lia. }
  change (2 ^ 32) with 4294967296 in *.
  destruct (carry_step s ltac:(lia)) as [P1 E1]. rewrite <- E1.
  rewrite fold_carries_step by lia.
  destruct (Z.ltb_spec s 65536); [rewrite E1; apply Hend; lia|].
  set (s1 := s mod 65536 + s / 65536) in *.
  assert (s1 <= 131070) by (subst s1; Z.to_euclidean_division_equations; lia).
  destruct (carry_step s1 ltac:(lia)) as [P2 E2]. rewrite <- E2.
  rewrite fold_carries_step by (change (2 ^ 32) with 4294967296; lia).
  destruct (Z.ltb_spec s1 65536); [rewrite E2; apply Hend; lia|].
  set (s2 := s1 mod 65536 + s1 / 65536) in *.
  assert (s2 < 65536) by (subst s2; Z.to_euclidean_division_equations; lia).
  rewrite fold_carries_step by (change (2 ^ 32) with 4294967296; lia).
  destruct (Z.ltb_spec s2 65536); [apply Hend; lia|lia].
Qed.

Lemma ones_complement_range s : 0 <= s -> 0 <= ones_complement s <= 65535.
Proof.
  intros. unfold ones_complement. destruct (Z.eqb_spec s 0); [lia|].
  pose proof (Z.mod_pos_bound (s - 1) 65535). lia.
Qed.

Lemma finish_checksum_spec s : 0 <= s < 2 ^ 32 -> finish_checksum s = 65535 - ones_complement s.
Proof.
  intros Hs. unfold finish_checksum. rewrite fold_carries_spec by done.
  pose proof (ones_complement_range s ltac:(lia)). unfold Z.lnot, wrap.
  change (2 ^ 16) with 65536. rewrite <- (Z.mod_add _ 1) by lia.
  rewrite Z.mod_small by lia. lia.
Qed.

(** Adding the checksum to the sum it was computed from gives zero. *)
Lemma finish_checksum_verify s :
  0 <= s -> s + 65535 < 2 ^ 32 -> finish_checksum (s + finish_checksum s) = 0.
Proof.
  intros H0 H1. rewrite (finish_checksum_spec s) by lia.
  pose proof (ones_complement_range s H0). rewrite finish_checksum_spec by lia.
  unfold ones_complement at 1. destruct (Z.eqb_spec (s + (65535 - ones_complement s)) 0) as [E|E].
  - unfold ones_complement in *. destruct (Z.eqb_spec s 0); lia.
  - unfold ones_complement in *. destruct (Z.eqb_spec s 0) as [->|].
    + reflexivity.
    + pose proof (Z.div_mod (s - 1) 65535 ltac:(lia)).
      replace (s + (65535 - ((s - 1) mod 65535 + 1)) - 1)
        with (65534 + (s - 1) / 65535 * 65535) by lia.
      rewrite Z.mod_add by lia. reflexivity.
Qed.

Lemma pseudo_header_sum_val src dst proto len :
  0 <= src < 2 ^ 32 -> 0 <= dst < 2 ^ 32 ->
  0 <= pseudo_header_sum src dst proto len <= 6 * 65535.
Proof.
  intros Hs Hd. unfold pseudo_header_sum.
  change 0xFFFF with (2 ^ 16 - 1). rewrite !land_mask, !Z.shiftr_div_pow2 by lia.
  assert (forall h, 0 <= hton16 h < 2 ^ 16) as Hh by (intros; apply wrap_range; lia).
  pose proof (Hh proto). pose proof (Hh len). change (2 ^ 16) with 65536 in *.
  change (2 ^ 32) with 4294967296 in *.
  assert (0 <= src / 65536 <= 65535) by (Z.to_euclidean_division_equations; lia).
  assert (0 <= dst / 65536 <= 65535) by (Z.to_euclidean_division_equations; lia).
  pose proof (Z.mod_pos_bound src 65536). pose proof (Z.mod_pos_bound dst 65536).
  assert (forall a, 0 <= a -> 0 <= u32 a <= a) as Hw
    by (intros; split; [apply wrap_range|apply Z.mod_le]; lia).
  pose proof (Hw (src mod 65536)). set (s0 := u32 (src mod 65536)) in *.
  pose proof (Hw (s0 + src / 65536)). set (s1 := u32 (s0 + src / 65536)) in *.
  pose proof (Hw (s1 + dst mod 65536)). set (s2 := u32 (s1 + dst mod 65536)) in *.
  pose proof (Hw (s2 + dst / 65536)). set (s3 := u32 (s2 + dst / 65536)) in *.
  pose proof (Hw (s3 + hton16 proto)). set (s4 := u32 (s3 + hton16 proto)) in *.
  pose proof (Hw (s4 + hton16 len)). lia.
Qed.

(** A buffer with a two-byte checksum field, and its sum. *)
Lemma word_total_field pre c post :
  Z.even (zlen pre) = true -> 0 <= c < 2 ^ 16 ->
  word_total (pre ++ le_bytes 2 c ++ post) = word_total (pre ++ le_bytes 2 0 ++ post) + c.
Proof.
  intros He Hc. rewrite !word_total_app by done. cbn [le_bytes app word_total].
  rewrite !le_val_cons, !b2z_z2b, Z.shiftr_div_pow2 by lia. change (le_val []) with 0.
  rewrite Z.shiftr_0_l. change (0 mod 256) with 0. change (2 ^ 16) with 65536 in *.
  change (2 ^ 8) with 256. Z.to_euclidean_division_equations; lia.
Qed.

Lemma zlen_le_bytes n z : zlen (le_bytes n z) = Z.of_nat n.
Proof. unfold zlen. by rewrite length_le_bytes. Qed.
#[export] Hint Rewrite zlen_le_bytes : zlen.

(** A segment with a checksum field [c] between [pre] and [post]. *)
Section checksum_field.
Context (pre post : list byte).
Hypothesis Heven : Z.even (zlen pre) = true.
Hypothesis Hlen : zlen pre + 2 + zlen post <= UINT16_MAX.

Let seg (c : Z) : list byte := pre ++ le_bytes 2 c ++ post.

Lemma seg_total_range : 0 <= word_total (seg 0) <= 65535 * 32768.
Proof.
  pose proof (word_total_range (seg 0)) as H. pose proof (zlen_nonneg (seg 0)).
  subst seg. cbn beta in *. unfold UINT16_MAX in Hlen. zlens.
  Z.to_euclidean_division_equations; lia.
Qed.

Lemma seg_word_sum c s : 0 <= c < 2 ^ 16 -> 0 <= s <= 6 * 65535 ->
  word_sum s (seg c) = s + word_total (seg 0) + c.
Proof.
  intros Hc Hs. pose proof seg_total_range as HT.
  assert (word_total (seg c) = word_total (seg 0) + c) as Ht by exact (word_total_field pre c post Heven Hc).
  change (2 ^ 16) with 65536 in Hc.
  rewrite word_sum_total, Ht; [lia|lia|]. rewrite Ht. change (2 ^ 32) with 4294967296. lia.
Qed.

Lemma seg_internet c : internet_checksum (Some (seg c)) = finish_checksum (word_sum 0 (seg c)).
Proof.
  unfold internet_checksum. destruct (seg c) eqn:E; [|done].
  apply (f_equal length) in E. unfold seg in E. revert E. rewrite !length_app, length_le_bytes.
  cbn [length]. lia.
Qed.

Lemma finish_checksum_range s : 0 <= finish_checksum s < 2 ^ 16.
Proof. apply wrap_range. lia. Qed.

(** Storing the checksum makes the segment check to zero. *)
Lemma seg_verify s : 0 <= s <= 6 * 65535 ->
  finish_checksum (word_sum s (seg (finish_checksum (word_sum s (seg 0))))) = 0.
Proof.
  intros Hs. pose proof seg_total_range. rewrite seg_word_sum by (auto using finish_checksum_range).
  rewrite (seg_word_sum 0) by lia.
  rewrite Z.add_0_r. apply finish_checksum_verify; [lia|]. change (2 ^ 32) with 4294967296. lia.
Qed.

(** So does storing all ones where the checksum is zero. *)
Lemma seg_verify_ones s : 0 <= s <= 6 * 65535 ->
  finish_checksum (word_sum s (seg 0)) = 0 -> finish_checksum (word_sum s (seg 0xFFFF)) = 0.
Proof.
  intros Hs. pose proof seg_total_range. rewrite !seg_word_sum by lia.
  rewrite !finish_checksum_spec by (change (2 ^ 32) with 4294967296; lia). unfold ones_complement.
  destruct (Z.eqb_spec (s + word_total (seg 0) + 0) 0); [lia|].
  destruct (Z.eqb_spec (s + word_total (seg 0) + 0xFFFF) 0); [lia|].
  replace (s + word_total (seg 0) + 0xFFFF - 1)
    with (s + word_total (seg 0) + 0 - 1 + 1 * 65535) by lia.
  rewrite Z.mod_add by lia. lia.
Qed.

Lemma seg_detect w w' : 0 <= w < 2 ^ 16 -> 0 <= w' < 2 ^ 16 ->
  internet_checksum (Some (seg w)) = internet_checksum (Some (seg w')) ->
  w = w' \/ (w = 0 /\ w' = 0xFFFF) \/ (w = 0xFFFF /\ w' = 0).
Proof.
  intros Hw Hw'. pose proof seg_total_range. rewrite !seg_internet, !seg_word_sum by (auto; lia).
  change (2 ^ 16) with 65536 in *.
  rewrite !finish_checksum_spec by (change (2 ^ 32) with 4294967296; lia).
  unfold ones_complement.
  destruct (Z.eqb_spec (0 + word_total (seg 0) + w) 0), (Z.eqb_spec (0 + word_total (seg 0) + w') 0);
    Z.to_euclidean_division_equations; lia.
Qed.
End checksum_field.

(** The checksums do what RFC 1071, 793 and 768 ask of them, on any buffer whose
    16-bit checksum field lies at an even offset: once the checksum computed over the
    buffer with a zero field is stored in the field, recomputing over the whole buffer
    gives zero (the receiver's test), for the IP header and for TCP; for UDP, where a
    computed zero is sent as 0xFFFF, the recomputed complement is zero too.  And a change
    of one word is detected unless it exchanges the two representations of zero. *)
Theorem checksum_verifies (pre post : list byte) (src dst : Z) :
  Z.even (zlen pre) = true -> zlen pre + 2 + zlen post <= UINT16_MAX ->
  0 <= src < 2 ^ 32 -> 0 <= dst < 2 ^ 32 ->
  let seg c := pre ++ le_bytes 2 c ++ post in
  internet_checksum (Some (seg (internet_checksum (Some (seg 0))))) = 0 /\
  tcp_checksum src dst (seg (tcp_checksum src dst (seg 0))) = 0 /\
  finish_checksum (word_sum (pseudo_header_sum src dst kIpProtoUdp (zlen (seg 0)))
    (seg (udp_checksum src dst (seg 0)))) = 0 /\
  (forall w w', 0 <= w < 2 ^ 16 -> 0 <= w' < 2 ^ 16 ->
    internet_checksum (Some (seg w)) = internet_checksum (Some (seg w')) ->
    w = w' \/ (w = 0 /\ w' = 0xFFFF) \/ (w = 0xFFFF /\ w' = 0)).
Proof.
  intros He Hlen Hs Hd seg.
  assert (forall p len, 0 <= pseudo_header_sum src dst p len <= 6 * 65535) as Hp
    by (intros; by apply pseudo_header_sum_val).
  assert (forall c, u16 (zlen (seg c)) = zlen (seg 0)) as Hu.
  { intros c. subst seg. cbn beta. pose proof (zlen_nonneg pre). pose proof (zlen_nonneg post).
    unfold UINT16_MAX in Hlen. zlens. apply wrap_small. change (2 ^ 16) with 65536. lia. }
  split_and!.
  - subst seg. cbn beta. rewrite !seg_internet. by apply seg_verify.
  - unfold tcp_checksum. rewrite !Hu. by apply seg_verify.
  - unfold udp_checksum. rewrite !Hu.
    destruct (Z.eqb_spec (finish_checksum (word_sum (pseudo_header_sum src dst kIpProtoUdp
      (zlen (seg 0))) (seg 0))) 0); [by apply seg_verify_ones|by apply seg_verify].
  - intros w w' Hw Hw'. by apply seg_detect.
Qed.

(** The IPv4 header of the RFC 1071 discussions, 20 bytes with the field at offset 10. *)
Lemma checksum_verifies_witness :
  let pre := [x45; x00; x00; x73; x00; x00; x40; x00; x40; x11] in
  let post := [xc0; xa8; x00; x01; xc0; xa8; x00; xc7] in
  internet_checksum (Some (pre ++ le_bytes 2 0 ++ post)) = 0x61b8 /\
  internet_checksum (Some (pre ++ le_bytes 2 (internet_checksum (Some (pre ++ le_bytes 2 0 ++ post))) ++ post)) = 0.
Proof.
  split; [vm_compute; reflexivity|].
  apply (checksum_verifies [x45; x00; x00; x73; x00; x00; x40; x00; x40; x11]
    [xc0; xa8; x00; x01; xc0; xa8; x00; xc7] 0 0); (vm_compute; done) || lia.
Defined.

(** ** Addresses as text *)

Lemma peek_cons c t : peek (c :: t) = c.
Proof. reflexivity. Qed.

Lemma digit_char_of c : is_digit c = true -> digit_char (digit_of c) = c.
Proof. intros _. unfold digit_char, digit_of. replace (48 + (b2z c - 48)) with (b2z c) by lia. apply z2b_b2z. Qed.

Lemma octet_loop_digit n v c t : is_digit c = true -> 0 <= v <= 99 ->
  octet_loop (S n) v (c :: t) = octet_loop n (v * 10 + digit_of c) t.
Proof.
  intros Hc Hv. cbn [octet_loop]. rewrite Hc. apply is_digit_spec in Hc. f_equal.
  apply wrap_small. change (2 ^ 32) with 4294967296. lia.
Qed.

Lemma octet_loop_stop n v p : is_digit (peek p) = false -> octet_loop n v p = (v, p).
Proof. destruct n, p as [|c t]; try done. cbn. by intros ->. Qed.

Lemma dec_octet_shape v : 0 <= v <= 255 ->
  (exists d, dec_octet v = [digit_char d] /\ 0 <= d <= 9 /\ v = d) \/
  (exists d e, dec_octet v = [digit_char d; digit_char e] /\ 1 <= d <= 9 /\ 0 <= e <= 9 /\ v = 10 * d + e) \/
  (exists d e f, dec_octet v = [digit_char d; digit_char e; digit_char f] /\
     1 <= d <= 9 /\ 0 <= e <= 9 /\ 0 <= f <= 9 /\ v = 100 * d + 10 * e + f).
Proof.
  intros Hv. unfold dec_octet. destruct (Z.leb_spec 100 v); [do 2 right|destruct (Z.leb_spec 10 v); [right; left|left]].
  - do 3 eexists. split; [done|]. Z.to_euclidean_division_equations; lia.
  - do 2 eexists. split; [done|]. Z.to_euclidean_division_equations; lia.
  - eexists. split; [done|]. lia.
Qed.

Lemma parse_octet_print v rest :
  0 <= v <= 255 -> is_digit (peek rest) = false -> parse_octet (dec_octet v ++ rest) = Some (v, rest).
Proof.
  assert (forall d, 1 <= d <= 9 -> bool_decide (digit_char d = x30) = false) as Hz.
  { intros d Hd. apply bool_decide_eq_false. intros E. apply (f_equal b2z) in E.
    unfold digit_char in E. rewrite b2z_z2b_small in E by lia. change (b2z x30) with 48 in E. lia. }
  intros Hv Hr. unfold parse_octet.
  destruct (dec_octet_shape v Hv) as [(d & -> & Hd & ->)|[(d & e & -> & Hd & He & ->)|
    (d & e & f & -> & Hd & He & Hf & ->)]]; cbn [app tail]; rewrite ?peek_cons.
  - destruct (digit_char_spec d Hd) as [Hc Ho]. rewrite Hc, Hr. cbn [negb]. rewrite andb_false_r.
    rewrite octet_loop_digit, Ho, octet_loop_stop by (done || lia). by zdecides.
  - destruct (digit_char_spec d) as [Hc Ho]; [lia|]. destruct (digit_char_spec e He) as [Hc' Ho'].
    rewrite Hc, Hz by lia. cbn [negb andb].
    rewrite !octet_loop_digit, Ho, Ho', octet_loop_stop by (done || lia). zdecides. do 2 f_equal. lia.
  - destruct (digit_char_spec d) as [Hc Ho]; [lia|]. destruct (digit_char_spec e He) as [Hc' Ho'].
    destruct (digit_char_spec f Hf) as [Hc'' Ho''].
    rewrite Hc, Hz by lia. cbn [negb andb].
    rewrite !octet_loop_digit, Ho, Ho', Ho'' by (done || lia). cbn [octet_loop].
    zdecides. do 2 f_equal. lia.
Qed.

Lemma parse_octet_inv p v rest :
  parse_octet p = Some (v, rest) -> 0 <= v <= 255 /\ p = dec_octet v ++ rest.
Proof.
  assert (forall c, is_digit c = true -> bool_decide (c = x30) = false -> 1 <= digit_of c <= 9) as Hz.
  { intros c Hc Hz. apply is_digit_spec in Hc. apply bool_decide_eq_false in Hz.
    assert (digit_of c <> 0); [|lia]. intros E. apply Hz, b2z_inj. unfold digit_of in E.
    change (b2z x30) with 48. lia. }
  unfold parse_octet. destruct p as [|c t]; [done|]. cbn [tail]. rewrite peek_cons.
  destruct (is_digit c) eqn:Hc; [|done]. cbn [negb].
  pose proof (proj1 (is_digit_spec c) Hc) as Hr. rewrite octet_loop_digit by (done || lia).
  replace (0 * 10 + digit_of c) with (digit_of c) by lia.
  destruct (bool_decide (c = x30) && is_digit (peek t)) eqn:E; [done|].
  destruct (is_digit (peek t)) eqn:Ht.
  2: { rewrite octet_loop_stop by done. zdecides. intros [= <- <-]. split; [lia|].
       unfold dec_octet. zdecides. cbn [app]. by rewrite digit_char_of. }
  rewrite andb_true_r in E. specialize (Hz c Hc E). destruct t as [|c2 t]; [done|].
  rewrite peek_cons in Ht. pose proof (proj1 (is_digit_spec c2) Ht) as Hr2.
  rewrite octet_loop_digit by (done || lia). destruct (is_digit (peek t)) eqn:Ht3.
  2: { rewrite octet_loop_stop by done. zdecides. intros [= <- <-]. split; [lia|].
       unfold dec_octet. zdecides. rewrite Z.div_add_l, Z.div_small, Z.add_0_r by lia.
       rewrite Z.add_comm, Z.mod_add, Z.mod_small by lia. cbn [app]. by rewrite !digit_char_of. }
  destruct t as [|c3 t]; [done|]. rewrite peek_cons in Ht3.
  pose proof (proj1 (is_digit_spec c3) Ht3) as Hr3. rewrite octet_loop_digit by (done || lia).
  cbn [octet_loop]. destruct (Z.ltb_spec 255 ((digit_of c * 10 + digit_of c2) * 10 + digit_of c3)); [done|].
  intros [= <- <-]. split; [lia|]. unfold dec_octet. zdecides. cbn [app].
  replace (((digit_of c * 10 + digit_of c2) * 10 + digit_of c3) / 100) with (digit_of c)
    by (Z.to_euclidean_division_equations; lia).
  replace (((digit_of c * 10 + digit_of c2) * 10 + digit_of c3) / 10 mod 10) with (digit_of c2)
    by (Z.to_euclidean_division_equations; lia).
  replace (((digit_of c * 10 + digit_of c2) * 10 + digit_of c3) mod 10) with (digit_of c3)
    by (Z.to_euclidean_division_equations; lia).
  by rewrite !digit_char_of.
Qed.

Definition ipv4_of (a b c d : Z) : Z := a * 2 ^ 24 + (b * 2 ^ 16 + (c * 2 ^ 8 + d)).

Definition octet (z : Z) : Prop := 0 <= z <= 255.

Lemma ipv4_lor a b c d : octet a -> octet b -> octet c -> octet d ->
  Z.lor (Z.lor (Z.lor (u32 (Z.shiftl a 24)) (Z.shiftl b 16)) (Z.shiftl c 8)) d = ipv4_of a b c d.
Proof.
  unfold octet. intros Ha Hb Hc Hd.
  rewrite wrap_small by (rewrite Z.shiftl_mul_pow2 by lia; change (2 ^ 32) with 4294967296;
    change (2 ^ 24) with 16777216; lia).
  rewrite <- !Z.lor_assoc. unfold ipv4_of. rewrite (lor_shiftl_add c) by (change (2 ^ 8) with 256; lia).
  rewrite (lor_shiftl_add b) by (change (2 ^ 16) with 65536; change (2 ^ 8) with 256; lia).
  rewrite (lor_shiftl_add a); [done|lia|].
  change (2 ^ 24) with 16777216; change (2 ^ 16) with 65536; change (2 ^ 8) with 256; lia.
Qed.

Lemma expect_dot_inv p q : expect_dot p = Some q -> p = ch_dot :: q.
Proof.
  unfold expect_dot. case_bool_decide as E; [|done]. intros [= <-].
  destruct p as [|c t]; [done|]. rewrite peek_cons in E. by subst.
Qed.

Lemma format_ipv4_of a b c d : octet a -> octet b -> octet c -> octet d ->
  format_ipv4 (ipv4_of a b c d) =
  dec_octet a ++ [ch_dot] ++ dec_octet b ++ [ch_dot] ++ dec_octet c ++ [ch_dot] ++ dec_octet d.
Proof.
  unfold octet, format_ipv4, ipv4_of. intros Ha Hb Hc Hd.
  change 0xFF with (2 ^ 8 - 1). rewrite !land_mask, !Z.shiftr_div_pow2 by lia.
  change (2 ^ 24) with 16777216; change (2 ^ 16) with 65536; change (2 ^ 8) with 256.
  repeat f_equal; Z.to_euclidean_division_equations; lia.
Qed.

Lemma ipv4_octets ip : 0 <= ip < 2 ^ 32 ->
  exists a b c d, octet a /\ octet b /\ octet c /\ octet d /\ ip = ipv4_of a b c d.
Proof.
  intros H. exists (ip / 2 ^ 24), (ip / 2 ^ 16 mod 256), (ip / 2 ^ 8 mod 256), (ip mod 256).
  unfold octet, ipv4_of. change (2 ^ 24) with 16777216; change (2 ^ 16) with 65536;
    change (2 ^ 8) with 256; change (2 ^ 32) with 4294967296 in *.
  Z.to_euclidean_division_equations; lia.
Qed.

Lemma parse_octets_print a b c d : octet a -> octet b -> octet c -> octet d ->
  parse_octets (dec_octet a ++ [ch_dot] ++ dec_octet b ++ [ch_dot] ++ dec_octet c ++ [ch_dot] ++ dec_octet d)
  = Some (ipv4_of a b c d).
Proof.
  intros Ha Hb Hc Hd. unfold parse_octets, expect_dot.
  do 3 (rewrite parse_octet_print by done; cbn [mbind option_bind]; cbn [app tail]; rewrite peek_cons;
        rewrite bool_decide_eq_true_2 by done; cbn [mbind option_bind]).
  rewrite <- (app_nil_r (dec_octet d)), parse_octet_print by done. cbn [mbind option_bind].
  rewrite bool_decide_eq_true_2 by done. by rewrite ipv4_lor.
Qed.

(** [parse_ipv4] and [format_ipv4] are exact inverses.  Every address is printed in
    a form that parses back to it, and a string without embedded terminator is accepted
    only if it is the canonical form of the address returned: leading zeros, missing or
    surplus octets, values above 255 and trailing characters are all rejected. *)
Theorem ipv4_text_exact (p : list byte) (ip : Z) :
  Forall (fun c => c <> x00) p -> 0 <= ip < 2 ^ 32 ->
  (parse_octets p = Some ip <-> p = format_ipv4 ip) /\
  parse_ipv4 (Some (format_ipv4 ip)) = ip /\
  (parse_octets p = None -> parse_ipv4 (Some p) = 0).
Proof.
  intros Hp Hip. destruct (ipv4_octets ip Hip) as (a & b & c & d & Ha & Hb & Hc & Hd & ->).
  rewrite format_ipv4_of by done. split_and!.
  - split; [|intros ->; by apply parse_octets_print].
    intros H. unfold parse_octets in H.
    destruct (parse_octet p) as [[o0 p1]|] eqn:E0; [|done]. cbn [mbind option_bind] in H.
    destruct (expect_dot p1) as [q1|] eqn:D1; [|done]. cbn [mbind option_bind] in H.
    destruct (parse_octet q1) as [[o1 p2]|] eqn:E1; [|done]. cbn [mbind option_bind] in H.
    destruct (expect_dot p2) as [q2|] eqn:D2; [|done]. cbn [mbind option_bind] in H.
    destruct (parse_octet q2) as [[o2 p3]|] eqn:E2; [|done]. cbn [mbind option_bind] in H.
    destruct (expect_dot p3) as [q3|] eqn:D3; [|done]. cbn [mbind option_bind] in H.
    destruct (parse_octet q3) as [[o3 p4]|] eqn:E3; [|done]. cbn [mbind option_bind] in H.
    case_bool_decide as Hend; [|done]. apply expect_dot_inv in D1, D2, D3.
    apply parse_octet_inv in E0 as [R0 ->], E1 as [R1 ->], E2 as [R2 ->], E3 as [R3 ->]. subst.
    destruct p4 as [|z p4].
    2: { rewrite peek_cons in Hend. subst z.
         apply list.Forall_app in Hp as [_ Hp]. inversion Hp as [|? ? _ Hp1]; subst.
         apply list.Forall_app in Hp1 as [_ Hp1]. inversion Hp1 as [|? ? _ Hp2]; subst.
         apply list.Forall_app in Hp2 as [_ Hp2]. inversion Hp2 as [|? ? _ Hp3]; subst.
         apply list.Forall_app in Hp3 as [_ Hp3]. by inversion Hp3. }
    rewrite ipv4_lor in H by done. injection H as E. unfold ipv4_of, octet in *.
    change (2 ^ 24) with 16777216 in E; change (2 ^ 16) with 65536 in E; change (2 ^ 8) with 256 in E.
    assert (o0 = a /\ o1 = b /\ o2 = c /\ o3 = d) as (-> & -> & -> & ->) by lia.
    by rewrite app_nil_r.
  - unfold parse_ipv4. by rewrite parse_octets_print.
  - unfold parse_ipv4. by intros ->.
Qed.

(** "10.0.0.1" is 0x0A000001; "010.0.0.1" is rejected. *)
Lemma ipv4_text_exact_witness :
  let p := [x31; x30; x2e; x30; x2e; x30; x2e; x31] in
  parse_octets p = Some 0x0A000001 /\ p = format_ipv4 0x0A000001 /\
  parse_octets (x30 :: p) = None.
Proof.
  split_and!; [vm_compute; reflexivity| |vm_compute; reflexivity].
  apply (ipv4_text_exact [x31; x30; x2e; x30; x2e; x30; x2e; x31] 0x0A000001);
    [repeat constructor; discriminate|lia|vm_compute; reflexivity].
Defined.

(** ** Stores *)

Lemma store_fields_wr m off f fs :
  store_fields m off (f :: fs) = wr m off (concat (f :: fs)).
Proof.
  revert m off f. induction fs as [|g fs IH]; intros m off f.
  - cbn [store_fields concat]. rewrite app_nil_r. by destruct (wr m off f).
  - change (store_fields m off (f :: g :: fs))
      with (m1 ← wr m off f; store_fields m1 (off + zlen f) (g :: fs)).
    transitivity (m1 ← wr m off f; m2 ← wr m1 (off + zlen f) (concat (g :: fs)); Some m2).
    + destruct (wr m off f); [|done]. cbn [mbind option_bind]. rewrite IH.
      by destruct (wr _ _ (concat _)).
    + rewrite wr_bind by done. by destruct (wr m off _).
Qed.

Lemma syn_options_bytes m buf mss : 0 <= mss < 2 ^ 16 ->
  write_syn_options m buf mss =
  wr m buf ([x02; x04] ++ be_bytes 2 mss ++ [x04; x02; x01; x03; x03; x00; x01; x01]).
Proof. intros Hm. unfold write_syn_options. rewrite store_fields_wr, le_bytes_hton16 by done. done. Qed.
