(* ===== verification/PacketParse.v ===== *)
(** * Parsing received packets

    packet_parse.hpp of eph-net-dpdk.  An mbuf is its number of segments and the bytes of
    its first segment ([rte_pktmbuf_mtod], [rte_pktmbuf_data_len]); a pointer into it is
    an offset, a null pointer [None].  The fields of the packed DPDK headers are loads at
    their offsets, in the byte order of the machine, followed by [ntoh16]/[ntoh32] where
    the code has them.  Every load goes through [slice] or [rd]: [None] is an access
    outside the packet.

    [view] collects what the TCP session reads of a [ParsedPacket]; [parse_safe] shows
    that no parser leaves the packet, whatever bytes the network delivers. *)

From S2P Require Import Prelude PacketCore.

#[local] Open Scope Z_scope.

(** ** Memory of an mbuf *)

Record mbuf := mkMbuf {
  nb_segs : Z;
  mb_data : list byte
}.

(** [data_len] is a [uint16_t]. *)
Definition mbuf_ok (m : mbuf) : Prop := zlen (mb_data m) <= UINT16_MAX.

Definition load8 (m : list byte) (off : Z) : option Z := b ← rd m off; Some (b2z b).
Definition load16 (m : list byte) (off : Z) : option Z := w ← slice m off 2; Some (le_val w).
Definition load32 (m : list byte) (off : Z) : option Z := w ← slice m off 4; Some (le_val w).
Definition load_ntoh16 (m : list byte) (off : Z) : option Z := v ← load16 m off; Some (ntoh16 v).
Definition load_ntoh32 (m : list byte) (off : Z) : option Z := v ← load32 m off; Some (ntoh32 v).

(** Offsets of the fields within [rte_ether_hdr], [rte_ipv4_hdr], [rte_tcp_hdr] and
    [UdpHeader]. *)
Definition eth_ether_type : Z := 12.
Definition ip_version_ihl : Z := 0.
Definition ip_total_length : Z := 2.
Definition ip_fragment_offset : Z := 6.
Definition ip_next_proto_id : Z := 9.
Definition ip_src_addr : Z := 12.
Definition ip_dst_addr : Z := 16.
Definition tcp_src_port : Z := 0.
Definition tcp_dst_port : Z := 2.
Definition tcp_sent_seq : Z := 4.
Definition tcp_recv_ack : Z := 8.
Definition tcp_data_off : Z := 12.
Definition tcp_flags_off : Z := 13.
Definition tcp_rx_win : Z := 14.
Definition udp_length : Z := 4.

(** ** L2 and L3 *)

Record ParsedIpHeader := mkIpHeader {
  pih_eth : option Z;
  pih_ip : option Z;
  pih_ihl : Z;
  pih_proto : Z
}.

Definition no_ip : ParsedIpHeader := mkIpHeader None None 0 0.

Definition fragment_bits (frag_off : Z) : bool :=
  negb (Z.land frag_off (Z.lor kIpMoreFragments kIpFragOffsetMask) =? 0).

Definition parse_ip_header (mbuf : option mbuf) : option ParsedIpHeader :=
  match mbuf with
  | None => Some no_ip
  | Some mb =>
    if 1 <? nb_segs mb then Some no_ip else
    let data := mb_data mb in
    let pkt_len := zlen data in
    if pkt_len <? kEtherHeaderLen + kIpv4HeaderLen then Some no_ip else
    ether_type ← load_ntoh16 data eth_ether_type;
    if negb (ether_type =? kEtherTypeIpv4) then Some no_ip else
    let ip := kEtherHeaderLen in
    version_ihl ← load8 data (ip + ip_version_ihl);
    if negb (Z.shiftr version_ihl 4 =? 4) then Some no_ip else
    let ihl := u8 (Z.shiftl (Z.land version_ihl 0x0F) 2) in
    if ihl <? kIpv4HeaderLen then Some no_ip else
    if pkt_len <? kEtherHeaderLen + ihl then Some no_ip else
    frag_off ← load_ntoh16 data (ip + ip_fragment_offset);
    if fragment_bits frag_off then Some no_ip else
    proto ← load8 data (ip + ip_next_proto_id);
    Some (mkIpHeader (Some 0) (Some ip) ihl proto)
  end.

Definition is_ip_fragment (mbuf : option mbuf) : option bool :=
  match mbuf with
  | None => Some false
  | Some mb =>
    if 1 <? nb_segs mb then Some false else
    let data := mb_data mb in
    if zlen data <? kEtherHeaderLen + kIpv4HeaderLen then Some false else
    ether_type ← load_ntoh16 data eth_ether_type;
    if negb (ether_type =? kEtherTypeIpv4) then Some false else
    frag_off ← load_ntoh16 data (kEtherHeaderLen + ip_fragment_offset);
    Some (fragment_bits frag_off)
  end.

(** ** TCP *)

Record ParsedPacket := mkParsed {
  pp_eth : option Z;
  pp_ip : option Z;
  pp_tcp : option Z;
  pp_payload : option Z;
  pp_payload_len : Z
}.

Definition no_packet : ParsedPacket := mkParsed None None None None 0.

Definition parse_tcp_from_ip (mbuf : option mbuf) (ip_hdr : ParsedIpHeader) : option ParsedPacket :=
  match mbuf, pih_ip ip_hdr with
  | Some mb, Some ip =>
    if negb (pih_proto ip_hdr =? kIpProtoTcp) then Some no_packet else
    let data := mb_data mb in
    let pkt_len := zlen data in
    let tcp_offset := u16 (kEtherHeaderLen + pih_ihl ip_hdr) in
    if pkt_len <? tcp_offset + kTcpHeaderLen then Some no_packet else
    let tcp := tcp_offset in
    data_off ← load8 data (tcp + tcp_data_off);
    let tcp_doff := u8 (Z.shiftl (Z.shiftr data_off 4) 2) in
    if (tcp_doff <? kTcpHeaderLen) || (60 <? tcp_doff) then Some no_packet else
    if pkt_len <? tcp_offset + tcp_doff then Some no_packet else
    ip_total ← load_ntoh16 data (ip + ip_total_length);
    let tcp_start := pih_ihl ip_hdr in
    let data_start := u16 (tcp_start + tcp_doff) in
    if ip_total <? data_start then Some no_packet else
    if pkt_len <? kEtherHeaderLen + ip_total then Some no_packet else
    if data_start <? ip_total then
      let payload_offset := u16 (kEtherHeaderLen + data_start) in
      Some (mkParsed (pih_eth ip_hdr) (Some ip) (Some tcp) (Some payload_offset)
              (u16 (ip_total - data_start)))
    else Some (mkParsed (pih_eth ip_hdr) (Some ip) (Some tcp) None 0)
  | _, _ => Some no_packet
  end.

Definition parse_packet (mbuf : option mbuf) : option ParsedPacket :=
  ip_hdr ← parse_ip_header mbuf;
  match pih_ip ip_hdr with
  | None => Some no_packet
  | Some _ => if negb (pih_proto ip_hdr =? kIpProtoTcp) then Some no_packet
              else parse_tcp_from_ip mbuf ip_hdr
  end.

(** The accessors of [ParsedPacket]: zero where the header is absent. *)
Section accessors.
Context (m : list byte) (p : ParsedPacket).

Definition of_hdr (h : option Z) (k : Z -> option Z) : option Z :=
  match h with None => Some 0 | Some off => k off end.

Definition pp_tcp_flags : option Z := of_hdr (pp_tcp p) (fun t => load8 m (t + tcp_flags_off)).
Definition pp_seq : option Z := of_hdr (pp_tcp p) (fun t => load_ntoh32 m (t + tcp_sent_seq)).
Definition pp_ack : option Z := of_hdr (pp_tcp p) (fun t => load_ntoh32 m (t + tcp_recv_ack)).
Definition pp_window : option Z := of_hdr (pp_tcp p) (fun t => load_ntoh16 m (t + tcp_rx_win)).
Definition pp_src_port : option Z := of_hdr (pp_tcp p) (fun t => load_ntoh16 m (t + tcp_src_port)).
Definition pp_dst_port : option Z := of_hdr (pp_tcp p) (fun t => load_ntoh16 m (t + tcp_dst_port)).
Definition pp_src_ip : option Z := of_hdr (pp_ip p) (fun i => load_ntoh32 m (i + ip_src_addr)).
Definition pp_dst_ip : option Z := of_hdr (pp_ip p) (fun i => load_ntoh32 m (i + ip_dst_addr)).
End accessors.

(** ** UDP *)

Record ParsedUdpPacket := mkParsedUdp {
  pu_eth : option Z;
  pu_ip : option Z;
  pu_udp : option Z;
  pu_payload : option Z;
  pu_payload_len : Z
}.

Definition no_udp : ParsedUdpPacket := mkParsedUdp None None None None 0.

Definition parse_udp_from_ip (mbuf : option mbuf) (ip_hdr : ParsedIpHeader) : option ParsedUdpPacket :=
  match mbuf, pih_ip ip_hdr with
  | Some mb, Some ip =>
    if negb (pih_proto ip_hdr =? kIpProtoUdp) then Some no_udp else
    let data := mb_data mb in
    let pkt_len := zlen data in
    let udp_offset := u16 (kEtherHeaderLen + pih_ihl ip_hdr) in
    if pkt_len <? udp_offset + kUdpHeaderLen then Some no_udp else
    let udp := udp_offset in
    udp_len ← load_ntoh16 data (udp + udp_length);
    if udp_len <? kUdpHeaderLen then Some no_udp else
    if pkt_len <? udp_offset + udp_len then Some no_udp else
    ip_total ← load_ntoh16 data (ip + ip_total_length);
    if ip_total <? pih_ihl ip_hdr + kUdpHeaderLen then Some no_udp else
    if negb (udp_len =? ip_total - pih_ihl ip_hdr) then Some no_udp else
    let payload_offset := u16 (udp_offset + kUdpHeaderLen) in
    Some (mkParsedUdp (pih_eth ip_hdr) (Some ip) (Some udp) (Some payload_offset)
            (u16 (udp_len - kUdpHeaderLen)))
  | _, _ => Some no_udp
  end.

Definition parse_udp_packet (mbuf : option mbuf) : option ParsedUdpPacket :=
  ip_hdr ← parse_ip_header mbuf;
  match pih_ip ip_hdr with
  | None => Some no_udp
  | Some _ => if negb (pih_proto ip_hdr =? kIpProtoUdp) then Some no_udp
              else parse_udp_from_ip mbuf ip_hdr
  end.

Section udp_accessors.
Context (m : list byte) (p : ParsedUdpPacket).

Definition pu_src_ip : option Z := of_hdr (pu_ip p) (fun i => load_ntoh32 m (i + ip_src_addr)).
Definition pu_dst_ip : option Z := of_hdr (pu_ip p) (fun i => load_ntoh32 m (i + ip_dst_addr)).
Definition pu_src_port : option Z := of_hdr (pu_udp p) (fun u => load_ntoh16 m (u + tcp_src_port)).
Definition pu_dst_port : option Z := of_hdr (pu_udp p) (fun u => load_ntoh16 m (u + tcp_dst_port)).
End udp_accessors.

(** ** ICMP *)

Record ParsedIcmp := mkIcmp {
  pi_eth : option Z;
  pi_ip : option Z;
  pi_type : Z;
  pi_code : Z;
  pi_next_hop_mtu : Z;
  pi_embedded_src_ip : Z;
  pi_embedded_dst_ip : Z;
  pi_embedded_src_port : Z;
  pi_embedded_dst_port : Z;
  pi_embedded_proto : Z;
  pi_embedded_valid : bool
}.

Definition no_icmp : ParsedIcmp := mkIcmp None None 0 0 0 0 0 0 0 0 false.

Definition is_frag_needed (type code : Z) : bool := (type =? 3) && (code =? 4).

(** The embedded IP header and the first bytes of its payload, from [emb_ip_off]. *)
Definition parse_embedded (data : list byte) (emb_ip_off parse_end : Z) (out : ParsedIcmp)
    : option ParsedIcmp :=
  if parse_end <? emb_ip_off + kIpv4HeaderLen then Some out else
  version_ihl ← load8 data (emb_ip_off + ip_version_ihl);
  if negb (Z.shiftr version_ihl 4 =? 4) then Some out else
  let e_ihl := u8 (Z.shiftl (Z.land version_ihl 0x0F) 2) in
  if e_ihl <? kIpv4HeaderLen then Some out else
  if parse_end <? u32 (emb_ip_off + e_ihl + 4) then Some out else
  src ← load_ntoh32 data (emb_ip_off + ip_src_addr);
  dst ← load_ntoh32 data (emb_ip_off + ip_dst_addr);
  proto ← load8 data (emb_ip_off + ip_next_proto_id);
  if (proto =? kIpProtoTcp) || (proto =? kIpProtoUdp) then
    sp ← load_ntoh16 data (emb_ip_off + e_ihl);
    dp ← load_ntoh16 data (emb_ip_off + e_ihl + 2);
    Some (mkIcmp (pi_eth out) (pi_ip out) (pi_type out) (pi_code out) (pi_next_hop_mtu out) src dst sp dp proto true)
  else
    Some (mkIcmp (pi_eth out) (pi_ip out) (pi_type out) (pi_code out) (pi_next_hop_mtu out) src dst 0 0 proto false).

Definition parse_icmp (mbuf : option mbuf) : option ParsedIcmp :=
  ip_hdr ← parse_ip_header mbuf;
  match mbuf, pih_ip ip_hdr with
  | Some mb, Some ip =>
    if negb (pih_proto ip_hdr =? kIpProtoIcmp) then Some no_icmp else
    let data := mb_data mb in
    let pkt_len := zlen data in
    let icmp_offset := u16 (kEtherHeaderLen + pih_ihl ip_hdr) in
    ip_total ← load_ntoh16 data (ip + ip_total_length);
    if pkt_len <? u32 (kEtherHeaderLen + ip_total) then Some no_icmp else
    if ip_total <? u32 (pih_ihl ip_hdr + 8) then Some no_icmp else
    if pkt_len <? u32 (icmp_offset + 8) then Some no_icmp else
    type ← load8 data icmp_offset;
    code ← load8 data (icmp_offset + 1);
    let out := mkIcmp (pih_eth ip_hdr) (Some ip) type code 0 0 0 0 0 0 false in
    if is_frag_needed type code then
      mtu ← load_ntoh16 data (icmp_offset + 6);
      let out := mkIcmp (pih_eth ip_hdr) (Some ip) type code mtu 0 0 0 0 0 false in
      let emb_ip_off := u16 (icmp_offset + 8) in
      let ip_declared_end := u32 (kEtherHeaderLen + ip_total) in
      let parse_end := Z.min pkt_len ip_declared_end in
      parse_embedded data emb_ip_off parse_end out
    else Some out
  | _, _ => Some no_icmp
  end.

(** ** TCP options *)

Record TcpOptions := mkOptions {
  opt_mss : Z;
  opt_wscale : Z;
  has_mss : bool;
  has_wscale : bool;
  has_sack_perm : bool
}.

Definition no_options : TcpOptions := mkOptions 0 0 false false false.

(** One option of kind [kind] and length [len], its bytes at [off]. *)
Definition apply_option (m : list byte) (off kind len : Z) (out : TcpOptions) : option TcpOptions :=
  if (kind =? 2) && (len =? 4) then
    mss ← load_ntoh16 m (off + 2);
    Some (mkOptions mss (opt_wscale out) true (has_wscale out) (has_sack_perm out))
  else if (kind =? 3) && (len =? 3) then
    ws ← load8 m (off + 2);
    Some (mkOptions (opt_mss out) ws (has_mss out) true (has_sack_perm out))
  else if (kind =? 4) && (len =? 2) then
    Some (mkOptions (opt_mss out) (opt_wscale out) (has_mss out) (has_wscale out) true)
  else Some out.

(** The [while (i < opt_len)] loop; the outer [None] is also lack of fuel. *)
Fixpoint options_loop (fuel : nat) (m : list byte) (opts opt_len i : Z) (out : TcpOptions)
    : option TcpOptions :=
  match fuel with
  | O => None
  | S f =>
    if negb (i <? opt_len) then Some out else
    kind ← load8 m (opts + i);
    if kind =? 0 then Some out else
    if kind =? 1 then options_loop f m opts opt_len (u16 (i + 1)) out else
    if opt_len <=? i + 1 then Some out else
    len ← load8 m (opts + i + 1);
    if len <? 2 then Some out else
    if opt_len <? u16 (i + len) then Some out else
    out ← apply_option m (opts + i) kind len out;
    options_loop f m opts opt_len (u16 (i + len)) out
  end.

(** At most 40 bytes of options, of which every round consumes one or more. *)
Definition parse_tcp_options (m : list byte) (parsed : ParsedPacket) : option TcpOptions :=
  match pp_tcp parsed with
  | None => Some no_options
  | Some tcp =>
    data_off ← load8 m (tcp + tcp_data_off);
    let tcp_doff_bytes := u8 (Z.shiftl (Z.shiftr data_off 4) 2) in
    if tcp_doff_bytes <=? kTcpHeaderLen then Some no_options else
    let opt_len := u16 (tcp_doff_bytes - kTcpHeaderLen) in
    options_loop 41 m (tcp + kTcpHeaderLen) opt_len 0 no_options
  end.

(** ** What a session reads of a packet *)

Record Segment := mkSegment {
  sg_src_ip : Z; sg_dst_ip : Z; sg_src_port : Z; sg_dst_port : Z;
  sg_seq : Z; sg_ack : Z; sg_flags : Z; sg_window : Z;
  sg_payload : option (list byte);
  sg_options : TcpOptions
}.

Definition sg_payload_len (s : Segment) : Z := zlen (default [] (sg_payload s)).

Definition has_flag (s : Segment) (flag : Z) : bool := negb (Z.land (sg_flags s) flag =? 0).

(** [matches]: source and destination of a received packet are swapped. *)
Definition matches (s : Segment) (t : ConnectionTuple) : bool :=
  (sg_src_ip s =? dst_ip t) && (sg_dst_ip s =? src_ip t) &&
  (sg_src_port s =? dst_port t) && (sg_dst_port s =? src_port t).

(** The packet as the accessors show it; the inner [None] is a null [tcp]. *)
Definition view (mb : mbuf) : option (option Segment) :=
  let m := mb_data mb in
  p ← parse_packet (Some mb);
  match pp_tcp p with
  | None => Some None
  | Some _ =>
    sip ← pp_src_ip m p; dip ← pp_dst_ip m p;
    sp ← pp_src_port m p; dp ← pp_dst_port m p;
    seq ← pp_seq m p; ack ← pp_ack m p; fl ← pp_tcp_flags m p; win ← pp_window m p;
    pl ← match pp_payload p with
         | None => Some None
         | Some off => bs ← slice m off (pp_payload_len p); Some (Some bs)
         end;
    opts ← parse_tcp_options m p;
    Some (Some (mkSegment sip dip sp dp seq ack fl win pl opts))
  end.

(** ** Safety *)

Lemma load8_Some m off : 0 <= off < zlen m -> exists v, load8 m off = Some v /\ 0 <= v < 256.
Proof.
  intros H. unfold load8. destruct (rd_Some m off H) as [b ->]. cbn. eauto using b2z_range.
Qed.

Lemma slice2 m off : 0 <= off -> off + 2 <= zlen m -> exists a b, slice m off 2 = Some [a; b].
Proof.
  intros H0 H1. rewrite slice_Some by lia.
  destruct (take _ _) as [|a [|b [|c t]]] eqn:E; apply (f_equal length) in E; revert E;
    rewrite length_take, length_drop; unfold zlen in *; cbn [length]; intros; try lia. eauto.
Qed.

Lemma slice4 m off : 0 <= off -> off + 4 <= zlen m ->
  exists a b c d, slice m off 4 = Some [a; b; c; d].
Proof.
  intros H0 H1. rewrite slice_Some by lia.
  destruct (take _ _) as [|a [|b [|c [|d [|e t]]]]] eqn:E; apply (f_equal length) in E; revert E;
    rewrite length_take, length_drop; unfold zlen in *; cbn [length]; intros; try lia. eauto 6.
Qed.

Lemma load_ntoh16_Some m off : 0 <= off -> off + 2 <= zlen m ->
  exists v, load_ntoh16 m off = Some v /\ 0 <= v < 65536.
Proof.
  intros H0 H1. unfold load_ntoh16, load16. destruct (slice2 m off H0 H1) as (a & b & ->).
  cbn [mbind option_bind]. rewrite ntoh16_le. eexists. split; [done|]. apply (be_val_bound [a; b]).
Qed.

Lemma load_ntoh32_Some m off : 0 <= off -> off + 4 <= zlen m ->
  exists v, load_ntoh32 m off = Some v /\ 0 <= v < 2 ^ 32.
Proof.
  intros H0 H1. unfold load_ntoh32, load32. destruct (slice4 m off H0 H1) as (a & b & c & d & ->).
  cbn [mbind option_bind]. rewrite ntoh32_le. eexists. split; [done|]. apply (be_val_bound [a; b; c; d]).
Qed.

(** Perform the next load of the goal, whose bounds follow from the context. *)
Ltac load_step :=
  let v := fresh "v" in let E := fresh "E" in let R := fresh "R" in
  match goal with
  | |- context [mbind ?k ?e] =>
      lazymatch e with
      | load8 ?m ?off => destruct (load8_Some m off) as (v & E & R); [lia|]
      | load_ntoh16 ?m ?off => destruct (load_ntoh16_Some m off) as (v & E & R); [lia|lia|]
      | load_ntoh32 ?m ?off => destruct (load_ntoh32_Some m off) as (v & E & R); [lia|lia|]
      end
  end; rewrite E; cbn [mbind option_bind].

(** Take the next branch of the goal. *)
Ltac branch :=
  match goal with
  | |- context [if ?c then _ else _] =>
      lazymatch c with
      | negb (?a =? ?b) => destruct (Z.eqb_spec a b); cbn [negb]
      | ?a <? ?b => destruct (Z.ltb_spec a b)
      | ?a <=? ?b => destruct (Z.leb_spec a b)
      | ?a =? ?b => destruct (Z.eqb_spec a b)
      | _ => destruct c eqn:?
      end
  end.

#[local] Ltac consts :=
  unfold kEtherHeaderLen, kIpv4HeaderLen, kTcpHeaderLen, kUdpHeaderLen, UINT16_MAX in *.

(** The header length nibble scaled by four. *)
Lemma nibble_len v : 0 <= v < 256 -> 0 <= u8 (Z.shiftl (Z.land v 0x0F) 2) <= 60.
Proof.
  intros Hv. change 0x0F with (2 ^ 4 - 1). rewrite land_mask, Z.shiftl_mul_pow2 by lia.
  pose proof (Z.mod_pos_bound v (2 ^ 4)). change (2 ^ 4) with 16 in *. change (2 ^ 2) with 4.
  rewrite wrap_small; change (2 ^ 8) with 256; lia.
Qed.

Lemma doff_len v : 0 <= v < 256 -> 0 <= u8 (Z.shiftl (Z.shiftr v 4) 2) <= 60.
Proof.
  intros Hv. rewrite Z.shiftr_div_pow2, Z.shiftl_mul_pow2 by lia.
  change (2 ^ 4) with 16 in *. change (2 ^ 2) with 4.
  assert (0 <= v / 16 <= 15) by (Z.to_euclidean_division_equations; lia).
  rewrite wrap_small; change (2 ^ 8) with 256; lia.
Qed.

(** What a successful L3 parse guarantees of the packet. *)
Definition ip_header_in (data : list byte) (h : ParsedIpHeader) : Prop :=
  pih_ip h = None \/
  (pih_eth h = Some 0 /\ pih_ip h = Some kEtherHeaderLen /\
   kIpv4HeaderLen <= pih_ihl h <= 60 /\ kEtherHeaderLen + pih_ihl h <= zlen data).

Lemma parse_ip_header_safe mb :
  exists h, parse_ip_header (Some mb) = Some h /\ ip_header_in (mb_data mb) h.
Proof.
  unfold parse_ip_header, ip_version_ihl, ip_fragment_offset, ip_next_proto_id, eth_ether_type.
  assert (ip_header_in (mb_data mb) no_ip) by (by left). consts.
  branch; [eauto|]. branch; [eauto|]. load_step.
  branch; [|eauto].
  load_step. branch; [|eauto]. pose proof (nibble_len v0 ltac:(lia)).
  branch; [eauto|]. branch; [eauto|]. load_step. branch; [eauto|]. load_step.
  eexists. split; [done|]. right. cbn [pih_eth pih_ip pih_ihl]. consts. split_and!; (done || lia).
Qed.

Lemma is_ip_fragment_safe mb : exists b, is_ip_fragment (Some mb) = Some b.
Proof.
  unfold is_ip_fragment, ip_fragment_offset, eth_ether_type. consts.
  branch; [eauto|]. branch; [eauto|]. load_step. branch; [|eauto]. load_step. eauto.
Qed.

(** What a successful TCP parse guarantees: header, options and payload lie in the packet. *)
Definition tcp_packet_in (data : list byte) (p : ParsedPacket) : Prop :=
  (pp_tcp p = None /\ p = no_packet) \/
  exists tcp doff,
    pp_ip p = Some kEtherHeaderLen /\ pp_tcp p = Some tcp /\
    kEtherHeaderLen + kIpv4HeaderLen <= tcp /\
    load8 data (tcp + tcp_data_off) = Some doff /\
    kTcpHeaderLen <= u8 (Z.shiftl (Z.shiftr doff 4) 2) <= 60 /\
    tcp + u8 (Z.shiftl (Z.shiftr doff 4) 2) <= zlen data /\
    match pp_payload p with
    | None => pp_payload_len p = 0
    | Some off => off = tcp + u8 (Z.shiftl (Z.shiftr doff 4) 2) /\ 0 < pp_payload_len p /\
                  off + pp_payload_len p <= zlen data
    end.

Lemma parse_tcp_from_ip_safe mb h :
  mbuf_ok mb -> ip_header_in (mb_data mb) h ->
  exists p, parse_tcp_from_ip (Some mb) h = Some p /\ tcp_packet_in (mb_data mb) p.
Proof.
  assert (tcp_packet_in (mb_data mb) no_packet) as Hno by (by left).
  intros Hok [Hn|(He & Hi & Hl & Hin)]; unfold parse_tcp_from_ip; [rewrite Hn; eauto|].
  rewrite Hi. unfold mbuf_ok, ip_total_length in *. consts.
  branch; [|eauto]. rewrite (wrap_small 16 (14 + _)) by (change (2 ^ 16) with 65536; lia).
  branch; [eauto|]. destruct (load8_Some (mb_data mb) (14 + pih_ihl h + tcp_data_off))
    as (d & Ed & Rd); [unfold tcp_data_off; lia|]. rewrite Ed. cbn [mbind option_bind].
  pose proof (doff_len d Rd) as Hd. set (doff := u8 (Z.shiftl (Z.shiftr d 4) 2)) in *.
  destruct ((doff <? 20) || (60 <? doff)) eqn:Hb; [eauto|].
  apply orb_false_iff in Hb as [Hb _]. apply Z.ltb_ge in Hb.
  branch; [eauto|]. load_step. rewrite (wrap_small 16 (pih_ihl h + doff)) by (change (2 ^ 16) with 65536; lia).
  branch; [eauto|]. branch; [eauto|]. branch; eexists; (split; [done|]); right;
    exists (14 + pih_ihl h), d; fold doff; cbn [pp_ip pp_tcp pp_payload pp_payload_len]; consts;
    split_and!; try (done || lia).
  all: rewrite !wrap_small by (change (2 ^ 16) with 65536; lia); lia.
Qed.

Lemma parse_packet_safe mb : mbuf_ok mb ->
  exists p, parse_packet (Some mb) = Some p /\ tcp_packet_in (mb_data mb) p.
Proof.
  intros Hok. unfold parse_packet. destruct (parse_ip_header_safe mb) as (h & -> & Hh).
  cbn [mbind option_bind]. assert (tcp_packet_in (mb_data mb) no_packet) by (by left).
  destruct (pih_ip h) eqn:E; [|eauto]. branch; [|eauto]. by apply parse_tcp_from_ip_safe.
Qed.

(** What a successful UDP parse guarantees. *)
Definition udp_packet_in (data : list byte) (p : ParsedUdpPacket) : Prop :=
  p = no_udp \/
  exists udp, pu_ip p = Some kEtherHeaderLen /\ pu_udp p = Some udp /\
    kEtherHeaderLen + kIpv4HeaderLen <= udp /\ pu_payload p = Some (udp + kUdpHeaderLen) /\
    0 <= pu_payload_len p /\ udp + kUdpHeaderLen + pu_payload_len p <= zlen data.

Lemma parse_udp_packet_safe mb : mbuf_ok mb ->
  exists p, parse_udp_packet (Some mb) = Some p /\ udp_packet_in (mb_data mb) p.
Proof.
  intros Hok. unfold parse_udp_packet. destruct (parse_ip_header_safe mb) as (h & -> & Hh).
  cbn [mbind option_bind]. assert (udp_packet_in (mb_data mb) no_udp) by (by left).
  destruct Hh as [->|(He & Hi & Hl & Hin)]; [eauto|]. rewrite Hi. branch; [|eauto].
  unfold parse_udp_from_ip. rewrite Hi. unfold mbuf_ok, ip_total_length, udp_length in *. consts.
  branch; [|eauto]. rewrite !(wrap_small 16 (14 + _)) by (change (2 ^ 16) with 65536; lia).
  branch; [eauto|]. load_step. branch; [eauto|]. branch; [eauto|]. load_step.
  branch; [eauto|]. branch; [|eauto]. eexists. split; [done|]. right. exists (14 + pih_ihl h).
  cbn [pu_ip pu_udp pu_payload pu_payload_len]. consts.
  rewrite !wrap_small by (change (2 ^ 16) with 65536; lia). split_and!; (done || lia).
Qed.

Lemma parse_embedded_safe data off e out :
  0 <= off <= 65535 -> e <= zlen data -> e <= 2 * 65536 ->
  exists r, parse_embedded data off e out = Some r.
Proof.
  intros Ho He Hs. unfold parse_embedded, ip_version_ihl, ip_src_addr, ip_dst_addr, ip_next_proto_id.
  consts. branch; [eauto|]. load_step. branch; [|eauto]. pose proof (nibble_len v ltac:(lia)).
  branch; [eauto|]. rewrite (wrap_small 32) by (change (2 ^ 32) with 4294967296; lia).
  branch; [eauto|]. do 3 load_step. branch; [|eauto]. do 2 load_step. eauto.
Qed.

Lemma parse_icmp_safe mb : mbuf_ok mb -> exists r, parse_icmp (Some mb) = Some r.
Proof.
  intros Hok. unfold parse_icmp. destruct (parse_ip_header_safe mb) as (h & -> & Hh).
  cbn [mbind option_bind]. destruct Hh as [->|(He & Hi & Hl & Hin)]; [eauto|]. rewrite Hi.
  branch; [|eauto]. unfold mbuf_ok, ip_total_length in *. consts.
  rewrite !(wrap_small 16 (14 + _)) by (change (2 ^ 16) with 65536; lia). load_step.
  rewrite !(wrap_small 32) by (change (2 ^ 32) with 4294967296; lia).
  branch; [eauto|]. branch; [eauto|]. branch; [eauto|]. do 2 load_step. branch; [|eauto]. load_step.
  rewrite wrap_small by (change (2 ^ 16) with 65536; lia). apply parse_embedded_safe; lia.
Qed.

Lemma apply_option_safe m off kind len out :
  0 <= off -> off + len <= zlen m -> exists r, apply_option m off kind len out = Some r.
Proof.
  intros H0 H1. unfold apply_option.
  destruct ((kind =? 2) && (len =? 4)) eqn:E2.
  { apply andb_true_iff in E2 as [_ E2%Z.eqb_eq]. load_step. eauto. }
  destruct ((kind =? 3) && (len =? 3)) eqn:E3.
  { apply andb_true_iff in E3 as [_ E3%Z.eqb_eq]. load_step. eauto. }
  branch; eauto.
Qed.

(** The loop needs no more rounds than there are bytes left. *)
Lemma options_loop_safe fuel m opts opt_len : forall i out,
  0 <= opts -> opts + opt_len <= zlen m -> opt_len <= 40 -> 0 <= i <= opt_len ->
  opt_len - i < Z.of_nat fuel ->
  exists r, options_loop fuel m opts opt_len i out = Some r.
Proof.
  induction fuel as [|f IH]; intros i out H0 H1 H2 Hi Hf; [lia|]. cbn [options_loop].
  destruct (Z.ltb_spec i opt_len); cbn [negb]; [|eauto].
  load_step. branch; [eauto|]. branch.
  { rewrite wrap_small by (change (2 ^ 16) with 65536; lia). apply IH; lia. }
  branch; [eauto|]. load_step. branch; [eauto|].
  rewrite wrap_small by (change (2 ^ 16) with 65536; lia). branch; [eauto|].
  destruct (apply_option_safe m (opts + i) v v0 out) as [r ->]; [lia|lia|].
  cbn [mbind option_bind]. apply IH; lia.
Qed.

Lemma parse_tcp_options_safe m p : tcp_packet_in m p -> exists o, parse_tcp_options m p = Some o.
Proof.
  intros [[Hn _]|(tcp & doff & Hi & Ht & Hlo & Hd & Hr & Hin & _)]; unfold parse_tcp_options;
    [rewrite Hn; eauto|]. rewrite Ht, Hd. cbn [mbind option_bind].
  set (d := u8 (Z.shiftl (Z.shiftr doff 4) 2)) in *. consts.
  branch; [eauto|]. rewrite wrap_small by (change (2 ^ 16) with 65536; lia).
  apply options_loop_safe; lia.
Qed.

Lemma view_safe mb : mbuf_ok mb -> exists s, view mb = Some s.
Proof.
  intros Hok. unfold view. destruct (parse_packet_safe mb Hok) as (p & -> & Hp).
  cbn [mbind option_bind]. pose proof (parse_tcp_options_safe _ _ Hp) as [o Ho].
  destruct Hp as [[-> _]|(tcp & doff & Hi & Ht & Hlo & Hd & Hr & Hin & Hpl)]; [eauto|].
  rewrite Ht. unfold pp_src_ip, pp_dst_ip, pp_src_port, pp_dst_port, pp_seq, pp_ack, pp_tcp_flags,
    pp_window. rewrite Ht, Hi, Ho. cbn [of_hdr].
  unfold ip_src_addr, ip_dst_addr, tcp_src_port, tcp_dst_port, tcp_sent_seq, tcp_recv_ack,
    tcp_flags_off, tcp_rx_win. set (d := u8 (Z.shiftl (Z.shiftr doff 4) 2)) in *. consts.
  do 8 load_step. destruct (pp_payload p) as [off|]; [|cbn; eauto].
  rewrite slice_Some by lia. cbn. eauto.
Qed.

(** *** Ranges of what a packet shows *)

Lemma slice_4_inv m off w : slice m off 4 = Some w -> exists a b c d, w = [a; b; c; d].
Proof.
  intros H. pose proof (slice_zlen _ _ _ _ H) as Hl. unfold zlen in Hl.
  destruct w as [|a [|b [|c [|d [|e w]]]]]; cbn [length] in Hl; try lia. eauto 6.
Qed.

Lemma load_ntoh16_range m off v : load_ntoh16 m off = Some v -> 0 <= v < 2 ^ 16.
Proof.
  unfold load_ntoh16, load16. destruct (slice m off 2); [|done]. cbn. intros [= <-].
  apply wrap_range. lia.
Qed.

Lemma load_ntoh32_range m off v : load_ntoh32 m off = Some v -> 0 <= v < 2 ^ 32.
Proof.
  unfold load_ntoh32, load32. destruct (slice m off 4) as [w|] eqn:E; [|done].
  destruct (slice_4_inv _ _ _ E) as (a & b & c & d & ->). cbn [mbind option_bind].
  rewrite ntoh32_le. intros [= <-]. apply (be_val_bound [a; b; c; d]).
Qed.

Lemma load8_range m off v : load8 m off = Some v -> 0 <= v < 256.
Proof. unfold load8. destruct (rd m off); [|done]. cbn. intros [= <-]. apply b2z_range. Qed.

Lemma options_loop_range fuel m opts n : forall i out r,
  0 <= opt_mss out < 2 ^ 16 -> options_loop fuel m opts n i out = Some r -> 0 <= opt_mss r < 2 ^ 16.
Proof.
  induction fuel as [|f IH]; intros i out r Ho; [done|]. cbn [options_loop].
  destruct (i <? n); cbn [negb]; [|by intros [= <-]].
  destruct (load8 m (opts + i)) as [k|]; [|done]. cbn [mbind option_bind].
  destruct (k =? 0); [by intros [= <-]|]. destruct (k =? 1); [by apply IH|].
  destruct (n <=? i + 1); [by intros [= <-]|].
  destruct (load8 m (opts + i + 1)) as [l|]; [|done]. cbn [mbind option_bind].
  destruct (l <? 2); [by intros [= <-]|]. destruct (n <? _); [by intros [= <-]|].
  destruct (apply_option m (opts + i) k l out) as [o|] eqn:E; [|done]. cbn [mbind option_bind].
  apply IH. revert E. unfold apply_option.
  destruct ((k =? 2) && (l =? 4)).
  { destruct (load_ntoh16 _ _) eqn:E; [|done]. intros [= <-]. by eapply load_ntoh16_range. }
  destruct ((k =? 3) && (l =? 3)); [destruct (load8 _ _); [|done]; by intros [= <-]|].
  destruct ((k =? 4) && (l =? 2)); by intros [= <-].
Qed.

Record segment_ok (p : Segment) : Prop := {
  sgo_seq : 0 <= sg_seq p < 2 ^ 32;
  sgo_ack : 0 <= sg_ack p < 2 ^ 32;
  sgo_window : 0 <= sg_window p < 2 ^ 16;
  sgo_flags : 0 <= sg_flags p < 256;
  sgo_payload : forall bs, sg_payload p = Some bs -> 0 < zlen bs <= UINT16_MAX;
  sgo_mss : 0 <= opt_mss (sg_options p) < 2 ^ 16
}.

(** Take the next bind of the hypothesis apart. *)
Ltac bind_inv H :=
  match type of H with
  | context [mbind ?k ?e] =>
      let E := fresh "E" in destruct e eqn:E; cbn [mbind option_bind] in H; [|done]
  end.

Lemma view_segment_ok mb p : mbuf_ok mb -> view mb = Some (Some p) -> segment_ok p.
Proof.
  intros Hok. unfold view. destruct (parse_packet_safe mb Hok) as (q & -> & Hq).
  cbn [mbind option_bind].
  destruct Hq as [[-> _]|(tcp & doff & Hi & Ht & Hlo & Hd & Hr & Hin & Hpl)]; [done|].
  rewrite Ht. unfold pp_src_ip, pp_dst_ip, pp_src_port, pp_dst_port, pp_seq, pp_ack, pp_tcp_flags,
    pp_window. rewrite Ht, Hi. cbn [of_hdr]. intros H.
  do 8 bind_inv H.
  assert (forall bs, (match pp_payload q with
         | None => Some None
         | Some off => b ← slice (mb_data mb) off (pp_payload_len q); Some (Some b)
         end) = Some (Some bs) -> 0 < zlen bs <= UINT16_MAX) as Hbs.
  { intros bs. destruct (pp_payload q) as [off|]; [|done].
    destruct (slice _ _ _) eqn:Es; [|done]. cbn. intros [= ->].
    apply slice_zlen in Es. destruct Hpl as (-> & Hp & Hp2). unfold mbuf_ok in Hok. consts. lia. }
  destruct (match pp_payload q with None => _ | _ => _ end) as [pl|]; [|done]. cbn [mbind option_bind] in H.
  destruct (parse_tcp_options (mb_data mb) q) as [o|] eqn:Eo; [|done]. cbn [mbind option_bind] in H.
  injection H as <-. constructor; cbn; eauto using load_ntoh16_range, load_ntoh32_range, load8_range.
  - intros bs ->. by apply Hbs.
  - revert Eo. unfold parse_tcp_options. rewrite Ht, Hd. cbn [mbind option_bind].
    destruct (_ <=? _); [by intros [= <-]|]. by apply options_loop_range.
Qed.

(** C38: No parser leaves the packet, whatever bytes it holds.  For every mbuf, also null,
    chained or truncated: the L3, TCP, UDP and ICMP parsers, the fragment test and the
    option parser return (every load is inside the packet and the option loop ends); a
    non-null TCP or UDP header, its options and its payload lie inside the packet; and
    every accessor of the result is defined. *)
Theorem parse_safe (mb : mbuf) :
  mbuf_ok mb ->
  (exists h, parse_ip_header (Some mb) = Some h /\ ip_header_in (mb_data mb) h) /\
  (exists b, is_ip_fragment (Some mb) = Some b) /\
  (exists p o, parse_packet (Some mb) = Some p /\ tcp_packet_in (mb_data mb) p /\
               parse_tcp_options (mb_data mb) p = Some o) /\
  (exists u, parse_udp_packet (Some mb) = Some u /\ udp_packet_in (mb_data mb) u) /\
  (exists i, parse_icmp (Some mb) = Some i) /\
  (exists s, view mb = Some s) /\
  parse_packet None = Some no_packet /\ parse_udp_packet None = Some no_udp /\
  parse_icmp None = Some no_icmp /\ is_ip_fragment None = Some false.
Proof.
  intros Hok. destruct (parse_packet_safe mb Hok) as (p & Hp & Hin).
  destruct (parse_tcp_options_safe _ _ Hin) as [o Ho].
  split_and!; eauto using parse_ip_header_safe, is_ip_fragment_safe, parse_udp_packet_safe,
    parse_icmp_safe, view_safe.
Qed.

(** A packet of 60 bytes whose header claims more than it holds is refused. *)
Lemma parse_safe_witness :
  let mb := mkMbuf 1 (repeat x00 12 ++ [x08; x00; x4f] ++ repeat x00 45) in
  mbuf_ok mb /\ parse_packet (Some mb) = Some no_packet /\
  exists h, parse_ip_header (Some mb) = Some h /\ ip_header_in (mb_data mb) h.
Proof.
  split_and!; [vm_compute; discriminate|vm_compute; reflexivity|].
  apply (parse_safe (mkMbuf 1 (repeat x00 12 ++ [x08; x00; x4f] ++ repeat x00 45))).
  vm_compute; discriminate.
Defined.
