(* ===== verification/PacketTemplate.v ===== *)
(** * Packet templates

    packet_template.hpp of eph-net-dpdk: [PacketTemplate] builds Ethernet/IPv4/TCP packets
    and [UdpPacketTemplate] Ethernet/IPv4/UDP packets.

    DPDK is called for the memory of a packet and for the hardware-offload checksum.  An
    allocated mbuf is what [rte_pktmbuf_append] answers for it ([room]): [None] when the
    requested length does not fit, otherwise the appended bytes, whose contents are
    arbitrary; [rte_ipv4_phdr_cksum] and the offload flag bits are parameters.

    The theorems show that the packets built are read back by the parsers of
    PacketParse.v, with valid checksums, and that stale memory never reaches the wire. *)

From S2P Require Import Prelude PacketCore PacketParse.

#[local] Open Scope Z_scope.

(** ** Transmit buffers *)

Record fresh_mbuf := mkFresh {
  room : Z -> option (list byte);
  stale_lens : Z * Z * Z
}.

(** [rte_pktmbuf_append] returns a region of the requested length. *)
Definition room_ok (f : fresh_mbuf) : Prop :=
  forall n r, room f n = Some r -> zlen r = n.

Record tx_mbuf := mkTx {
  tx_data : list byte;
  ol_flags : Z;
  l_lens : Z * Z * Z
}.

(** The mempool argument: a null pointer, a failed allocation, or an mbuf. *)
Inductive mempool := NullPool | Exhausted | Alloc (f : fresh_mbuf).

(** What becomes of the allocation: no mbuf, an mbuf freed again, or a packet. *)
Inductive build_result := NoMbuf | Freed | Built (m : tx_mbuf).

Section templates.
(** The DPDK calls: pseudo-header checksum of the IP header at the start of a buffer. *)
Context (rte_ipv4_phdr_cksum : list byte -> Z -> Z).
Context (RTE_MBUF_F_TX_IP_CKSUM RTE_MBUF_F_TX_TCP_CKSUM RTE_MBUF_F_TX_UDP_CKSUM : Z).

(** ** TCP *)

Record PacketTemplate := mkTemplate {
  src_mac : list byte;
  dst_mac : list byte;
  tuple : ConnectionTuple;
  ip_id : Z;
  mss : Z;
  hw_cksum : bool
}.

Definition set_ip_id (t : PacketTemplate) (id : Z) : PacketTemplate :=
  mkTemplate (src_mac t) (dst_mac t) (tuple t) id (mss t) (hw_cksum t).

Inductive template_error := BadTuple (e : tuple_error) | MssZero | MssTooLarge.

Definition template_validate (t : PacketTemplate) : option template_error :=
  match tuple_validate (tuple t) with
  | Some e => Some (BadTuple e)
  | None => if mss t =? 0 then Some MssZero
            else if kJumboMaxMss <? mss t then Some MssTooLarge else None
  end.

Definition ether_fields (t : PacketTemplate) : list (list byte) :=
  [dst_mac t; src_mac t; le_bytes 2 (hton16 kEtherTypeIpv4)].

(** The IPv4 header up to the addresses, with a zero checksum. *)
Definition ipv4_fields (t : PacketTemplate) (total_length : Z) : list (list byte) :=
  [[z2b kIpv4VersionIhl5]; [x00];
   le_bytes 2 (hton16 (u16 total_length));
   le_bytes 2 (hton16 (ip_id t));
   le_bytes 2 (hton16 kIpDontFragment);
   [z2b kDefaultTtl]; [z2b kIpProtoTcp];
   le_bytes 2 0;
   le_bytes 4 (hton32 (src_ip (tuple t)));
   le_bytes 4 (hton32 (dst_ip (tuple t)))].

Definition tcp_fields (t : PacketTemplate) (tcp_hdr_len seq ack flags window : Z)
    : list (list byte) :=
  [le_bytes 2 (hton16 (src_port (tuple t)));
   le_bytes 2 (hton16 (dst_port (tuple t)));
   le_bytes 4 (hton32 seq);
   le_bytes 4 (hton32 ack);
   [z2b (Z.shiftl (tcp_hdr_len / 4) 4)]; [z2b flags];
   le_bytes 2 (hton16 window);
   le_bytes 2 0;
   le_bytes 2 0].

Definition ip_off : Z := kEtherHeaderLen.
Definition tcp_off : Z := kEtherHeaderLen + kIpv4HeaderLen.
Definition ip_hdr_checksum : Z := 10.
Definition tcp_cksum : Z := 16.

(** [hw_cksum ? 0 : internet_checksum(ip, kIpv4HeaderLen)]. *)
Definition ip_checksum_of (hw : bool) (pkt : list byte) : option Z :=
  if hw then Some 0
  else h ← slice pkt ip_off kIpv4HeaderLen; Some (internet_checksum (Some h)).

(** The optional payload copy. *)
Definition copy_payload (pkt : list byte) (off : Z) (payload : option (list byte)) (payload_len : Z)
    : option (list byte) :=
  match payload with
  | Some src => if 0 <? payload_len
                then bytes ← slice src 0 payload_len; wr pkt off bytes
                else Some pkt
  | None => Some pkt
  end.

Definition build_packet (t : PacketTemplate) (pool : mempool) (seq ack flags window : Z)
    (payload : option (list byte)) (payload_len : Z)
    : option (PacketTemplate * build_result) :=
  match pool with
  | NullPool | Exhausted => Some (t, NoMbuf)
  | Alloc fresh =>
    let is_syn := negb (Z.land flags kTcpSyn =? 0) in
    let tcp_hdr_len := if is_syn then kSynTcpHeaderLen else kTcpHeaderLen in
    let total_len := kEtherHeaderLen + kIpv4HeaderLen + tcp_hdr_len + payload_len in
    if UINT16_MAX <? total_len then Some (t, Freed) else
    match room fresh total_len with
    | None => Some (t, Freed)
    | Some pkt =>
      pkt ← store_fields pkt 0 (ether_fields t);
      pkt ← store_fields pkt ip_off (ipv4_fields t (kIpv4HeaderLen + tcp_hdr_len + payload_len));
      let t' := set_ip_id t (u16 (ip_id t + 1)) in
      ck ← ip_checksum_of (hw_cksum t) pkt;
      pkt ← wr pkt (ip_off + ip_hdr_checksum) (le_bytes 2 ck);
      pkt ← store_fields pkt tcp_off (tcp_fields t tcp_hdr_len seq ack flags window);
      pkt ← (if is_syn then write_syn_options pkt (tcp_off + kTcpHeaderLen) (mss t) else Some pkt);
      pkt ← copy_payload pkt (tcp_off + tcp_hdr_len) payload payload_len;
      if hw_cksum t then
        let ol := Z.lor RTE_MBUF_F_TX_IP_CKSUM RTE_MBUF_F_TX_TCP_CKSUM in
        pkt ← wr pkt (ip_off + ip_hdr_checksum) (le_bytes 2 0);
        iph ← slice pkt ip_off kIpv4HeaderLen;
        pkt ← wr pkt (tcp_off + tcp_cksum) (le_bytes 2 (rte_ipv4_phdr_cksum iph ol));
        Some (t', Built (mkTx pkt ol (kEtherHeaderLen, kIpv4HeaderLen, tcp_hdr_len)))
      else
        let tcp_total := u16 (tcp_hdr_len + payload_len) in
        src ← load32 pkt (ip_off + ip_src_addr);
        dst ← load32 pkt (ip_off + ip_dst_addr);
        seg ← slice pkt tcp_off tcp_total;
        pkt ← wr pkt (tcp_off + tcp_cksum) (le_bytes 2 (tcp_checksum src dst seg));
        Some (t', Built (mkTx pkt 0 (stale_lens fresh)))
    end
  end.

(** [fill_packet] on an mbuf that was reset: the bytes written, 0 on failure. *)
Definition fill_packet (t : PacketTemplate) (mbuf : option fresh_mbuf) (seq ack flags window : Z)
    (payload : option (list byte)) (payload_len : Z)
    : option (PacketTemplate * Z * option tx_mbuf) :=
  match mbuf with
  | None => Some (t, 0, None)
  | Some fresh =>
    if negb (Z.land flags kTcpSyn =? 0) then Some (t, 0, None) else
    let total_len := kAllHeadersLen + payload_len in
    if UINT16_MAX <? total_len then Some (t, 0, None) else
    match room fresh total_len with
    | None => Some (t, 0, None)
    | Some pkt =>
      pkt ← store_fields pkt 0 (ether_fields t);
      pkt ← store_fields pkt ip_off (ipv4_fields t (kIpv4HeaderLen + kTcpHeaderLen + payload_len));
      let t' := set_ip_id t (u16 (ip_id t + 1)) in
      ck ← ip_checksum_of (hw_cksum t) pkt;
      pkt ← wr pkt (ip_off + ip_hdr_checksum) (le_bytes 2 ck);
      pkt ← store_fields pkt tcp_off (tcp_fields t kTcpHeaderLen seq ack flags window);
      pkt ← copy_payload pkt kAllHeadersLen payload payload_len;
      if hw_cksum t then
        let ol := Z.lor RTE_MBUF_F_TX_IP_CKSUM RTE_MBUF_F_TX_TCP_CKSUM in
        iph ← slice pkt ip_off kIpv4HeaderLen;
        pkt ← wr pkt (tcp_off + tcp_cksum) (le_bytes 2 (rte_ipv4_phdr_cksum iph ol));
        Some (t', total_len, Some (mkTx pkt ol (kEtherHeaderLen, kIpv4HeaderLen, kTcpHeaderLen)))
      else
        let tcp_total := u16 (kTcpHeaderLen + payload_len) in
        src ← load32 pkt (ip_off + ip_src_addr);
        dst ← load32 pkt (ip_off + ip_dst_addr);
        seg ← slice pkt tcp_off tcp_total;
        pkt ← wr pkt (tcp_off + tcp_cksum) (le_bytes 2 (tcp_checksum src dst seg));
        Some (t', total_len, Some (mkTx pkt 0 (stale_lens fresh)))
    end
  end.

(** ** UDP *)

Record UdpPacketTemplate := mkUdpTemplate {
  header_ : list byte;
  ip_id_ : Z;
  hw_cksum_ : bool
}.

(** Construction leaves the 42 header bytes zero. *)
Definition udp_template0 : UdpPacketTemplate :=
  mkUdpTemplate (repeat x00 (Z.to_nat kUdpAllHeadersLen)) 0 false.

Definition udp_init (u : UdpPacketTemplate) (smac dmac : list byte)
    (sip dip sport dport : Z) (hw : bool) : option UdpPacketTemplate :=
  let pkt := header_ u in
  pkt ← store_fields pkt 0 [dmac; smac; le_bytes 2 (hton16 kEtherTypeIpv4)];
  pkt ← wr pkt ip_off (repeat x00 (Z.to_nat kIpv4HeaderLen));
  pkt ← store_fields pkt ip_off
    [[z2b kIpv4VersionIhl5]; [x00]; le_bytes 2 0; le_bytes 2 0;
     le_bytes 2 (hton16 kIpDontFragment); [z2b kDefaultTtl]; [z2b kIpProtoUdp]; le_bytes 2 0;
     le_bytes 4 (hton32 sip); le_bytes 4 (hton32 dip)];
  pkt ← store_fields pkt tcp_off
    [le_bytes 2 (hton16 sport); le_bytes 2 (hton16 dport); le_bytes 2 0; le_bytes 2 0];
  Some (mkUdpTemplate pkt (ip_id_ u) hw).

Definition udp_checksum_off : Z := 6.

Definition udp_fill (u : UdpPacketTemplate) (mbuf : option fresh_mbuf)
    (payload : option (list byte)) (payload_len : Z)
    : option (UdpPacketTemplate * Z * option tx_mbuf) :=
  match mbuf with
  | None => Some (u, 0, None)
  | Some fresh =>
    let total_len := kUdpAllHeadersLen + payload_len in
    if UINT16_MAX <? total_len then Some (u, 0, None) else
    match room fresh total_len with
    | None => Some (u, 0, None)
    | Some pkt =>
      pkt ← wr pkt 0 (header_ u);
      pkt ← wr pkt (ip_off + ip_total_length)
              (le_bytes 2 (hton16 (u16 (kIpv4HeaderLen + kUdpHeaderLen + payload_len))));
      pkt ← wr pkt (ip_off + 4) (le_bytes 2 (hton16 (ip_id_ u)));
      let u' := mkUdpTemplate (header_ u) (u16 (ip_id_ u + 1)) (hw_cksum_ u) in
      pkt ← wr pkt (tcp_off + udp_length) (le_bytes 2 (hton16 (u16 (kUdpHeaderLen + payload_len))));
      pkt ← copy_payload pkt kUdpAllHeadersLen payload payload_len;
      if hw_cksum_ u then
        let ol := Z.lor RTE_MBUF_F_TX_IP_CKSUM RTE_MBUF_F_TX_UDP_CKSUM in
        pkt ← wr pkt (ip_off + ip_hdr_checksum) (le_bytes 2 0);
        iph ← slice pkt ip_off kIpv4HeaderLen;
        pkt ← wr pkt (tcp_off + udp_checksum_off) (le_bytes 2 (rte_ipv4_phdr_cksum iph ol));
        Some (u', total_len, Some (mkTx pkt ol (kEtherHeaderLen, kIpv4HeaderLen, kUdpHeaderLen)))
      else
        pkt ← wr pkt (tcp_off + udp_checksum_off) (le_bytes 2 0);
        pkt ← wr pkt (ip_off + ip_hdr_checksum) (le_bytes 2 0);
        iph ← slice pkt ip_off kIpv4HeaderLen;
        pkt ← wr pkt (ip_off + ip_hdr_checksum) (le_bytes 2 (internet_checksum (Some iph)));
        Some (u', total_len, Some (mkTx pkt 0 (stale_lens fresh)))
    end
  end.

Definition udp_build (u : UdpPacketTemplate) (pool : mempool)
    (payload : option (list byte)) (payload_len : Z)
    : option (UdpPacketTemplate * build_result) :=
  match pool with
  | NullPool | Exhausted => Some (u, NoMbuf)
  | Alloc fresh =>
    '(u', written, tx) ← udp_fill u (Some fresh) payload payload_len;
    match tx with
    | Some m => if written =? 0 then Some (u', Freed) else Some (u', Built m)
    | None => Some (u', Freed)
    end
  end.

(** ** The bytes of a packet *)

Record template_ok (t : PacketTemplate) : Prop := {
  ok_src_mac : zlen (src_mac t) = 6;
  ok_dst_mac : zlen (dst_mac t) = 6;
  ok_src_ip : 0 <= src_ip (tuple t) < 2 ^ 32;
  ok_dst_ip : 0 <= dst_ip (tuple t) < 2 ^ 32;
  ok_src_port : 0 <= src_port (tuple t) < 2 ^ 16;
  ok_dst_port : 0 <= dst_port (tuple t) < 2 ^ 16;
  ok_ip_id : 0 <= ip_id t < 2 ^ 16;
  ok_mss : 0 <= mss t < 2 ^ 16
}.

Definition E_bytes (t : PacketTemplate) : list byte := dst_mac t ++ src_mac t ++ [x08; x00].

Definition I1_bytes (t : PacketTemplate) (total : Z) : list byte :=
  [x45; x00] ++ be_bytes 2 total ++ be_bytes 2 (ip_id t) ++ [x40; x00; x40; x06].

Definition I2_bytes (t : PacketTemplate) : list byte :=
  be_bytes 4 (src_ip (tuple t)) ++ be_bytes 4 (dst_ip (tuple t)).

Definition T1_bytes (t : PacketTemplate) (doff seq ack flags window : Z) : list byte :=
  be_bytes 2 (src_port (tuple t)) ++ be_bytes 2 (dst_port (tuple t)) ++
  be_bytes 4 seq ++ be_bytes 4 ack ++ [z2b doff; z2b flags] ++ be_bytes 2 window.

(** The frame with the checksums [ck] and [tck]; [rest] is options and payload. *)
Definition frame (t : PacketTemplate) (total doff seq ack flags window ck tck : Z)
    (rest : list byte) : list byte :=
  (E_bytes t ++ I1_bytes t total) ++ le_bytes 2 ck ++
  (I2_bytes t ++ T1_bytes t doff seq ack flags window) ++ le_bytes 2 tck ++ [x00; x00] ++ rest.

Lemma store_ether t m off : store_fields m off (ether_fields t) = wr m off (E_bytes t).
Proof. unfold ether_fields. by rewrite store_fields_wr. Qed.

Lemma store_ipv4 t total m off : template_ok t -> 0 <= total < 2 ^ 16 ->
  store_fields m off (ipv4_fields t total) =
  wr m off (I1_bytes t total ++ le_bytes 2 0 ++ I2_bytes t).
Proof.
  intros [] Ht. unfold ipv4_fields, I1_bytes, I2_bytes.
  rewrite store_fields_wr, (wrap_small 16 total) by done.
  rewrite !le_bytes_hton16, !le_bytes_hton32 by (done || (unfold kIpDontFragment; lia)).
  cbn [concat]. rewrite app_nil_r, <- !app_assoc. done.
Qed.

Lemma store_tcp t hl seq ack flags window m off : template_ok t ->
  0 <= seq < 2 ^ 32 -> 0 <= ack < 2 ^ 32 -> 0 <= window < 2 ^ 16 ->
  store_fields m off (tcp_fields t hl seq ack flags window) =
  wr m off (T1_bytes t (Z.shiftl (hl / 4) 4) seq ack flags window ++ le_bytes 2 0 ++ [x00; x00]).
Proof.
  intros [] Hs Ha Hw. unfold tcp_fields, T1_bytes. rewrite store_fields_wr.
  rewrite !le_bytes_hton16, !le_bytes_hton32 by done.
  cbn [concat]. rewrite <- !app_assoc. done.
Qed.

Lemma wr_mid pre old new post off :
  off = zlen pre -> length new = length old ->
  wr (pre ++ old ++ post) off new = Some (pre ++ new ++ post).
Proof.
  intros -> Hl. rewrite wr_app; [|done|zlens; unfold zlen; lia].
  do 3 f_equal. rewrite Hl. by rewrite drop_app_length.
Qed.

Lemma slice_at m pre bs post off len :
  m = pre ++ bs ++ post -> off = zlen pre -> len = zlen bs -> slice m off len = Some bs.
Proof. intros -> -> ->. by apply slice_mid. Qed.

Lemma zlen_E t : template_ok t -> zlen (E_bytes t) = 14.
Proof. intros []. unfold E_bytes. zlens. change (zlen (@nil byte)) with 0. lia. Qed.

Lemma zlen_I1 t total : zlen (I1_bytes t total) = 10.
Proof. done. Qed.

Lemma zlen_I2 t : zlen (I2_bytes t) = 8.
Proof. done. Qed.

Lemma zlen_T1 t doff seq ack flags window : zlen (T1_bytes t doff seq ack flags window) = 16.
Proof. done. Qed.

#[local] Hint Rewrite zlen_I1 zlen_I2 zlen_T1 : zlen.

Lemma drop_zlen_nil {A} n (l : list A) : zlen l = Z.of_nat n -> drop n l = [].
Proof. intros H. apply drop_ge. unfold zlen in H. lia. Qed.

(** The header stores of both constructors, on a region of [54 + n] bytes. *)
Lemma headers_written t r total hl seq ack flags window :
  template_ok t -> 0 <= total < 2 ^ 16 -> 0 <= seq < 2 ^ 32 -> 0 <= ack < 2 ^ 32 ->
  0 <= window < 2 ^ 16 -> 54 <= zlen r ->
  exists ck,
  (hw_cksum t = true -> ck = 0) /\
  (hw_cksum t = false ->
     ck = internet_checksum (Some (I1_bytes t total ++ le_bytes 2 0 ++ I2_bytes t))) /\
  forall A (k : list byte -> option A),
  (pkt ← store_fields r 0 (ether_fields t);
   pkt ← store_fields pkt ip_off (ipv4_fields t total);
   ck ← ip_checksum_of (hw_cksum t) pkt;
   pkt ← wr pkt (ip_off + ip_hdr_checksum) (le_bytes 2 ck);
   pkt ← store_fields pkt tcp_off (tcp_fields t hl seq ack flags window); k pkt)
  = k (frame t total (Z.shiftl (hl / 4) 4) seq ack flags window ck 0 (drop 54 r)).
Proof.
  intros Hok Ht Hs Ha Hw Hr.
  pose proof (zlen_E t Hok) as HE.
  set (I := I1_bytes t total ++ le_bytes 2 0 ++ I2_bytes t).
  exists (if hw_cksum t then 0 else internet_checksum (Some I)).
  split; [by intros ->|]. split; [by intros ->|]. intros A k.
  rewrite store_ether, wr_0 by lia. cbn [mbind option_bind].
  rewrite store_ipv4 by done. fold I. rewrite wr_grow by (subst I; zlens; (done || lia)). cbn [mbind option_bind].
  assert (ip_checksum_of (hw_cksum t) ((E_bytes t ++ I) ++ drop (length (E_bytes t ++ I)) r)
    = Some (if hw_cksum t then 0 else internet_checksum (Some I))) as ->.
  { unfold ip_checksum_of. destruct (hw_cksum t); [done|]. rewrite <- app_assoc.
    rewrite slice_mid; [done|by rewrite HE|subst I; zlens; done]. }
  cbn [mbind option_bind]. set (ck := if hw_cksum t then 0 else _).
  replace ((E_bytes t ++ I) ++ drop (length (E_bytes t ++ I)) r)
    with ((E_bytes t ++ I1_bytes t total) ++ le_bytes 2 0 ++ (I2_bytes t ++ drop 34 r)).
  2: { subst I. rewrite <- !app_assoc. do 5 f_equal. revert HE. unfold zlen.
       rewrite !length_app. intros HE. replace (length (E_bytes t)) with 14%nat by lia. done. }
  rewrite wr_mid by (zlens; rewrite ?HE; (done || lia)). cbn [mbind option_bind].
  rewrite store_tcp by done.
  set (T := T1_bytes t _ seq ack flags window ++ le_bytes 2 0 ++ [x00; x00]).
  replace ((E_bytes t ++ I1_bytes t total) ++ le_bytes 2 ck ++ (I2_bytes t ++ drop 34 r))
    with ((E_bytes t ++ I1_bytes t total ++ le_bytes 2 ck ++ I2_bytes t) ++ drop 34 r)
    by (by rewrite <- !app_assoc).
  rewrite wr_app; [|by autorewrite with zlen; rewrite ?HE|subst T; autorewrite with zlen; lia].
  cbn [mbind option_bind]. f_equal. unfold frame. subst T. rewrite <- !app_assoc, drop_drop. done.
Qed.

(** ** Loads from a frame *)

Lemma list6 {A} (l : list A) : zlen l = 6 -> exists a b c d e f, l = [a; b; c; d; e; f].
Proof.
  intros H. destruct l as [|a [|b [|c [|d [|e [|f [|g l]]]]]]]; unfold zlen in H; cbn [length] in H;
    try lia. by repeat eexists.
Qed.

Lemma slice_in_prefix h rest off len :
  0 <= off -> 0 <= len -> off + len <= zlen h -> slice (h ++ rest) off len = slice h off len.
Proof.
  intros H0 H1 H2. pose proof (zlen_nonneg rest). rewrite !slice_Some by (zlens; lia). f_equal.
  rewrite drop_app_le by (unfold zlen in *; lia).
  rewrite take_app_le; [done|]. rewrite length_drop. unfold zlen in *. lia.
Qed.

Lemma load_of_slice16 m off v : 0 <= v < 2 ^ 16 ->
  slice m off 2 = Some (be_bytes 2 v) -> load_ntoh16 m off = Some v.
Proof.
  intros Hv H. unfold load_ntoh16, load16. rewrite H. cbn [mbind option_bind].
  change (be_bytes 2 v) with [z2b (Z.shiftr v 8); z2b (Z.shiftr v 0)]. rewrite ntoh16_le.
  f_equal. by apply (be_val_be_bytes_small 2).
Qed.

Lemma load_of_slice32 m off v : 0 <= v < 2 ^ 32 ->
  slice m off 4 = Some (be_bytes 4 v) -> load_ntoh32 m off = Some v.
Proof.
  intros Hv H. unfold load_ntoh32, load32. rewrite H. cbn [mbind option_bind].
  change (be_bytes 4 v) with [z2b (Z.shiftr v 24); z2b (Z.shiftr v 16); z2b (Z.shiftr v 8); z2b (Z.shiftr v 0)].
  rewrite ntoh32_le. f_equal. by apply (be_val_be_bytes_small 4).
Qed.

Lemma load_of_slice8 m off b : slice m off 1 = Some [b] -> load8 m off = Some (b2z b).
Proof.
  unfold slice, load8, rd.
  destruct (Z.leb_spec 0 off), (Z.leb_spec (off + 1) (zlen m)); cbn [andb]; intros H1; try done.
  injection H1 as H1. destruct (drop (Z.to_nat off) m) as [|x t] eqn:E; [done|].
  cbn in H1. injection H1 as ->.
  rewrite <- (Nat.add_0_r (Z.to_nat off)), <- lookup_drop, E. done.
Qed.

Section frame_loads.
Context (t : PacketTemplate) (total doff seq ack flags window ck tck : Z) (rest : list byte).
Hypothesis (Hok : template_ok t) (Htot : 0 <= total < 2 ^ 16) (Hd : 0 <= doff < 256)
  (Hseq : 0 <= seq < 2 ^ 32) (Hack : 0 <= ack < 2 ^ 32) (Hfl : 0 <= flags < 256)
  (Hwin : 0 <= window < 2 ^ 16).

Let hdr : list byte := frame t total doff seq ack flags window ck tck [].

Lemma frame_app : frame t total doff seq ack flags window ck tck rest = hdr ++ rest.
Proof. unfold hdr, frame. by rewrite <- !app_assoc. Qed.

Lemma zlen_hdr : zlen hdr = 54.
Proof. unfold hdr, frame. autorewrite with zlen. rewrite zlen_E by done. lia. Qed.

Lemma frame_field off len bs :
  0 <= off -> 0 <= len -> off + len <= 54 -> slice hdr off len = Some bs ->
  slice (frame t total doff seq ack flags window ck tck rest) off len = Some bs.
Proof.
  intros H0 H1 H2 <-. rewrite frame_app. apply slice_in_prefix; [done|done|]. by rewrite zlen_hdr.
Qed.

Lemma frame_loads : let F := frame t total doff seq ack flags window ck tck rest in
  load_ntoh16 F 12 = Some kEtherTypeIpv4 /\ load8 F 14 = Some kIpv4VersionIhl5 /\
  load_ntoh16 F 16 = Some total /\ load_ntoh16 F 20 = Some kIpDontFragment /\
  load8 F 23 = Some kIpProtoTcp /\
  load_ntoh32 F 26 = Some (src_ip (tuple t)) /\ load_ntoh32 F 30 = Some (dst_ip (tuple t)) /\
  load_ntoh16 F 34 = Some (src_port (tuple t)) /\ load_ntoh16 F 36 = Some (dst_port (tuple t)) /\
  load_ntoh32 F 38 = Some seq /\ load_ntoh32 F 42 = Some ack /\
  load8 F 46 = Some doff /\ load8 F 47 = Some flags /\ load_ntoh16 F 48 = Some window.
Proof.
  pose proof Hok as [Hsm Hdm ? ? ? ? ? ?]. intros F.
  assert (forall off len bs, 0 <= off -> 0 <= len -> off + len <= 54 ->
    slice hdr off len = Some bs -> slice F off len = Some bs) as HF by exact frame_field.
  unfold hdr, frame, E_bytes in HF.
  destruct (list6 _ Hsm) as (s1 & s2 & s3 & s4 & s5 & s6 & Es).
  destruct (list6 _ Hdm) as (d1 & d2 & d3 & d4 & d5 & d6 & Ed).
  rewrite Es, Ed in HF. clearbody F.
  assert (forall off b v, v = b2z b -> 0 <= off -> off + 1 <= 54 ->
    slice F off 1 = Some [b] -> load8 F off = Some v) as H8
    by (intros ? ? ? -> ? ? ?; by apply load_of_slice8).
  split_and!;
    first [eapply load_of_slice16|eapply load_of_slice32|eapply H8]; try done;
    try (symmetry; by apply b2z_z2b_small);
    try (apply HF; [lia|lia|lia|reflexivity]).
Qed.
End frame_loads.

(** ** Frames are read back *)

Definition syn_option_bytes (m : Z) : list byte :=
  [x02; x04] ++ be_bytes 2 m ++ [x04; x02; x01; x03; x03; x00; x01; x01].

(** Header length, option bytes and parsed options of a packet with or without SYN. *)
Definition hdr_len (is_syn : bool) : Z := if is_syn then kSynTcpHeaderLen else kTcpHeaderLen.
Definition option_bytes (is_syn : bool) (m : Z) : list byte := if is_syn then syn_option_bytes m else [].
Definition options_of (is_syn : bool) (m : Z) : TcpOptions :=
  if is_syn then mkOptions m 0 true true true else no_options.

Definition payload_view (bs : list byte) : option (list byte) :=
  match bs with [] => None | _ => Some bs end.

Lemma zlen_option_bytes is_syn m : zlen (option_bytes is_syn m) = hdr_len is_syn - kTcpHeaderLen.
Proof. by destruct is_syn. Qed.

Lemma doff_hdr_len is_syn : u8 (Z.shiftl (Z.shiftr (Z.shiftl (hdr_len is_syn / 4) 4) 4) 2) = hdr_len is_syn.
Proof. by destruct is_syn. Qed.

Lemma options_nop f m opts n i out :
  0 <= i < n -> n <= 40 -> load8 m (opts + i) = Some 1 ->
  options_loop (S f) m opts n i out = options_loop f m opts n (i + 1) out.
Proof.
  intros Hi Hn E. cbn [options_loop]. zdecides. rewrite E. cbn [mbind option_bind Z.eqb Pos.eqb].
  by rewrite wrap_small by lia.
Qed.

Lemma options_opt f m opts n i out kind len :
  0 <= i -> 2 <= len -> i + len <= n -> n <= 40 -> 2 <= kind ->
  load8 m (opts + i) = Some kind -> load8 m (opts + i + 1) = Some len ->
  options_loop (S f) m opts n i out =
  (out ← apply_option m (opts + i) kind len out; options_loop f m opts n (i + len) out).
Proof.
  intros Hi Hl Hn Hn' Hk E1 E2. cbn [options_loop]. zdecides. rewrite E1. cbn [mbind option_bind].
  zdecides. rewrite E2. cbn [mbind option_bind]. rewrite wrap_small by lia. by zdecides.
Qed.

Lemma options_end f m opts n out : options_loop (S f) m opts n n out = Some out.
Proof. cbn [options_loop]. by rewrite Z.ltb_irrefl. Qed.

Lemma options_loop_syn m F rest : 0 <= m < 2 ^ 16 -> zlen F = 54 ->
  options_loop 41 (F ++ syn_option_bytes m ++ rest) 54 12 0 no_options = Some (mkOptions m 0 true true true).
Proof.
  intros Hm HF. set (M := F ++ syn_option_bytes m ++ rest).
  assert (forall off len bs, 0 <= off -> 0 <= len -> off + len <= 12 ->
    slice (syn_option_bytes m) off len = Some bs -> slice M (54 + off) len = Some bs) as HM.
  { intros off len bs H0 H1 H2 E. subst M. rewrite <- E. clear E. pose proof (zlen_nonneg rest).
    assert (zlen (syn_option_bytes m) = 12) as HS by done.
    rewrite <- HF, !slice_Some by (zlens; rewrite ?HS; lia). f_equal.
    replace (Z.to_nat (zlen F + off)) with (length F + Z.to_nat off)%nat by (unfold zlen; lia).
    rewrite <- drop_drop, drop_app_length, drop_app_le by (unfold zlen in *; lia).
    rewrite take_app_le; [done|]. rewrite length_drop. unfold zlen in *. lia. }
  assert (forall off b, 0 <= off -> off + 1 <= 12 -> slice (syn_option_bytes m) off 1 = Some [b] ->
    load8 M (54 + off) = Some (b2z b)) as H8
    by (intros; apply load_of_slice8, HM; (done || lia)).
  assert (load_ntoh16 M (54 + 0 + 2) = Some m) as H2.
  { apply load_of_slice16; [done|]. change (54 + 0 + 2) with (54 + 2). apply HM; (done || lia). }
  clearbody M.
  pose proof (H8 0 x02 ltac:(lia) ltac:(lia) eq_refl) as L0.
  pose proof (H8 1 x04 ltac:(lia) ltac:(lia) eq_refl) as L1.
  pose proof (H8 4 x04 ltac:(lia) ltac:(lia) eq_refl) as L4.
  pose proof (H8 5 x02 ltac:(lia) ltac:(lia) eq_refl) as L5.
  pose proof (H8 6 x01 ltac:(lia) ltac:(lia) eq_refl) as L6.
  pose proof (H8 7 x03 ltac:(lia) ltac:(lia) eq_refl) as L7.
  pose proof (H8 8 x03 ltac:(lia) ltac:(lia) eq_refl) as L8.
  pose proof (H8 9 x00 ltac:(lia) ltac:(lia) eq_refl) as L9.
  pose proof (H8 10 x01 ltac:(lia) ltac:(lia) eq_refl) as L10.
  pose proof (H8 11 x01 ltac:(lia) ltac:(lia) eq_refl) as L11.
  change (54 + 0 + 2) with 56 in H2.
  rewrite (options_opt 40 M 54 12 0 _ 2 4) by (done || lia).
  unfold apply_option at 1. change (54 + 0 + 2) with 56. rewrite H2. cbn [Z.eqb Pos.eqb andb mbind option_bind].
  rewrite (options_opt 39 M 54 12 4 _ 4 2) by (done || lia). cbn [apply_option Z.eqb Pos.eqb andb mbind option_bind].
  rewrite (options_nop 38 M 54 12 6) by (done || lia).
  rewrite (options_opt 37 M 54 12 7 _ 3 3) by (done || lia).
  unfold apply_option at 1. change (54 + 7 + 2) with (54 + 9). rewrite L9. cbn [Z.eqb Pos.eqb andb mbind option_bind].
  rewrite (options_nop 36 M 54 12 10), (options_nop 35 M 54 12 11) by (done || lia).
  apply (options_end 34 M 54 12).
Qed.

Section view_frame.
Context (t : PacketTemplate) (is_syn : bool) (seq ack flags window ck tck : Z) (bs pad : list byte).
Hypothesis (Hok : template_ok t) (Hseq : 0 <= seq < 2 ^ 32) (Hack : 0 <= ack < 2 ^ 32)
  (Hfl : 0 <= flags < 256) (Hwin : 0 <= window < 2 ^ 16)
  (Hlen : 34 + hdr_len is_syn + zlen bs + zlen pad <= UINT16_MAX).

Let total : Z := kIpv4HeaderLen + hdr_len is_syn + zlen bs.
Let F : list byte := frame t total (Z.shiftl (hdr_len is_syn / 4) 4) seq ack flags window ck tck
                       (option_bytes is_syn (mss t) ++ bs ++ pad).

Lemma zlen_F : zlen F = 34 + hdr_len is_syn + zlen bs + zlen pad.
Proof.
  unfold F. rewrite frame_app, zlen_app, zlen_hdr by done. rewrite !zlen_app, zlen_option_bytes.
  unfold kTcpHeaderLen. lia.
Qed.

Lemma hdr_len_cases : hdr_len is_syn = 20 \/ hdr_len is_syn = 32.
Proof. destruct is_syn; [by right|by left]. Qed.

Lemma total_range : 0 <= total < 2 ^ 16.
Proof.
  pose proof hdr_len_cases. pose proof (zlen_nonneg bs). pose proof (zlen_nonneg pad).
  unfold total, kIpv4HeaderLen, UINT16_MAX in *. change (2 ^ 16) with 65536. lia.
Qed.

Lemma frame_parse_packet :
  parse_packet (Some (mkMbuf 1 F)) =
  Some (mkParsed (Some 0) (Some 14) (Some 34)
          (match bs with [] => None | _ => Some (34 + hdr_len is_syn) end) (zlen bs)).
Proof.
  pose proof zlen_F as HF. pose proof hdr_len_cases as Hh. pose proof total_range as Htr.
  pose proof (zlen_nonneg bs). pose proof (zlen_nonneg pad).
  assert (0 <= Z.shiftl (hdr_len is_syn / 4) 4 < 256) as Hd by (by destruct is_syn).
  destruct (frame_loads t total _ seq ack flags window ck tck
    (option_bytes is_syn (mss t) ++ bs ++ pad) Hok Htr Hd Hseq Hack Hfl Hwin)
    as (L12 & L14 & L16 & L20 & L23 & _ & _ & _ & _ & _ & _ & L46 & _ & _).
  fold F in L12, L14, L16, L20, L23, L46. unfold UINT16_MAX in *.
  unfold parse_packet, parse_ip_header, eth_ether_type, ip_version_ihl, ip_fragment_offset,
    ip_next_proto_id. cbn [nb_segs mb_data].
  unfold kEtherHeaderLen, kIpv4HeaderLen. zdecides. rewrite L12. cbn [mbind option_bind].
  change (14 + 0) with 14. change (14 + 6) with 20. change (14 + 9) with 23.
  rewrite L14, L20, L23. unfold kEtherTypeIpv4, kIpv4VersionIhl5.
  cbn [mbind option_bind negb Z.eqb Pos.eqb]. change (u8 (Z.shiftl (Z.land 69 15) 2)) with 20.
  change (Z.shiftr 69 4) with 4. change (fragment_bits kIpDontFragment) with false.
  cbn [Z.eqb Pos.eqb negb]. zdecides. cbn [mbind option_bind pih_ip pih_proto].
  unfold parse_tcp_from_ip, tcp_data_off, ip_total_length, kIpProtoTcp, kEtherHeaderLen, kTcpHeaderLen.
  cbn [pih_ip pih_proto pih_ihl pih_eth Z.eqb Pos.eqb negb mb_data].
  change (u16 (14 + 20)) with 34. zdecides. change (34 + 12) with 46. change (14 + 2) with 16.
  rewrite L46. cbn [mbind option_bind]. rewrite doff_hdr_len, L16. cbn [mbind option_bind].
  replace ((hdr_len is_syn <? 20) || (60 <? hdr_len is_syn)) with false by (by destruct is_syn).
  zdecides. change (2 ^ 16) with 65536 in *. rewrite (wrap_small 16 (20 + _)) by (change (2 ^ 16) with 65536; lia).
  unfold total in *. unfold kIpv4HeaderLen in *. zdecides. destruct bs as [|b bs'].
  - change (zlen (@nil byte)) with 0 in *. zdecides. done.
  - rewrite zlen_cons in *. pose proof (zlen_nonneg bs'). zdecides.
    rewrite !wrap_small by (change (2 ^ 16) with 65536; lia). do 2 f_equal; [f_equal|]; lia.
Qed.

Lemma frame_options :
  parse_tcp_options F (mkParsed (Some 0) (Some 14) (Some 34)
    (match bs with [] => None | _ => Some (34 + hdr_len is_syn) end) (zlen bs))
  = Some (options_of is_syn (mss t)).
Proof.
  pose proof total_range as Htr.
  assert (0 <= Z.shiftl (hdr_len is_syn / 4) 4 < 256) as Hd by (by destruct is_syn).
  destruct (frame_loads t total _ seq ack flags window ck tck
    (option_bytes is_syn (mss t) ++ bs ++ pad) Hok Htr Hd Hseq Hack Hfl Hwin)
    as (_ & _ & _ & _ & _ & _ & _ & _ & _ & _ & _ & L46 & _ & _).
  fold F in L46. unfold parse_tcp_options, tcp_data_off. cbn [pp_tcp].
  change (34 + 12) with 46. rewrite L46. cbn [mbind option_bind]. rewrite doff_hdr_len.
  destruct is_syn; [|done]. change (hdr_len true <=? kTcpHeaderLen) with false. cbv iota.
  change (u16 (hdr_len true - kTcpHeaderLen)) with 12. change (34 + kTcpHeaderLen) with 54.
  unfold F. rewrite frame_app. cbn [option_bytes]. apply options_loop_syn; [apply Hok|].
  by apply zlen_hdr.
Qed.

(** Parsing a frame, with any padding behind it, gives back what was put in. *)
Lemma view_frame :
  view (mkMbuf 1 F) =
  Some (Some (mkSegment (src_ip (tuple t)) (dst_ip (tuple t)) (src_port (tuple t)) (dst_port (tuple t))
                seq ack flags window (payload_view bs) (options_of is_syn (mss t)))).
Proof.
  pose proof total_range as Htr. pose proof zlen_F as HF.
  assert (0 <= Z.shiftl (hdr_len is_syn / 4) 4 < 256) as Hd by (by destruct is_syn).
  destruct (frame_loads t total _ seq ack flags window ck tck
    (option_bytes is_syn (mss t) ++ bs ++ pad) Hok Htr Hd Hseq Hack Hfl Hwin)
    as (_ & _ & _ & _ & _ & L26 & L30 & L34 & L36 & L38 & L42 & _ & L47 & L48).
  fold F in L26, L30, L34, L36, L38, L42, L47, L48.
  unfold view. rewrite frame_parse_packet. cbn [mbind option_bind mb_data].
  unfold pp_src_ip, pp_dst_ip, pp_src_port, pp_dst_port, pp_seq, pp_ack, pp_tcp_flags, pp_window.
  cbn [pp_tcp pp_ip of_hdr].
  unfold ip_src_addr, ip_dst_addr, tcp_src_port, tcp_dst_port, tcp_sent_seq, tcp_recv_ack,
    tcp_flags_off, tcp_rx_win.
  change (14 + 12) with 26. change (14 + 16) with 30. change (34 + 0) with 34. change (34 + 2) with 36.
  change (34 + 4) with 38. change (34 + 8) with 42. change (34 + 13) with 47. change (34 + 14) with 48.
  rewrite L26, L30, L34, L36, L38, L42, L47, L48. cbn [mbind option_bind].
  rewrite frame_options. cbn [pp_payload pp_payload_len].
  assert (bs <> [] -> slice F (34 + hdr_len is_syn) (zlen bs) = Some bs) as Hs.
  { intros _. unfold F. rewrite frame_app. rewrite app_assoc, slice_mid; [done| |done].
    rewrite zlen_app, zlen_hdr, zlen_option_bytes by done. unfold kTcpHeaderLen. lia. }
  destruct bs as [|b bs']; [done|]. rewrite Hs by done. done.
Qed.
End view_frame.

(** ** The constructors *)

Definition payload_is (payload : option (list byte)) (bs : list byte) : Prop :=
  payload = Some bs \/ (payload = None /\ bs = []).

Lemma frame_wr_rest t total doff seq ack flags window ck tck pre new post off :
  template_ok t -> off = 54 + zlen pre -> zlen new <= zlen post ->
  wr (frame t total doff seq ack flags window ck tck (pre ++ post)) off new =
  Some (frame t total doff seq ack flags window ck tck (pre ++ new ++ drop (length new) post)).
Proof.
  intros Hok -> Hn. rewrite !(frame_app _ _ _ _ _ _ _ _ _ (pre ++ _)), !(app_assoc _ pre).
  apply wr_app; [|done]. rewrite zlen_app, zlen_hdr by done. lia.
Qed.

(** The body after the headers: options, then payload, over whatever was there. *)
Lemma body_written t total doff seq ack flags window ck is_syn payload bs rest :
  template_ok t -> payload_is payload bs -> zlen rest = hdr_len is_syn - 20 + zlen bs ->
  forall A (k : list byte -> option A),
  (pkt ← (if is_syn then write_syn_options (frame t total doff seq ack flags window ck 0 rest) 54 (mss t)
          else Some (frame t total doff seq ack flags window ck 0 rest));
   pkt ← copy_payload pkt (34 + hdr_len is_syn) payload (zlen bs); k pkt)
  = k (frame t total doff seq ack flags window ck 0 (option_bytes is_syn (mss t) ++ bs)).
Proof.
  intros Hok Hp Hr A k. pose proof (zlen_nonneg bs).
  set (opts := option_bytes is_syn (mss t)). set (r2 := drop (length opts) rest).
  assert (zlen opts = hdr_len is_syn - 20) as Ho by apply zlen_option_bytes.
  assert ((if is_syn then write_syn_options (frame t total doff seq ack flags window ck 0 rest) 54 (mss t)
          else Some (frame t total doff seq ack flags window ck 0 rest))
    = Some (frame t total doff seq ack flags window ck 0 (opts ++ r2))) as ->.
  { destruct is_syn; [|done]. rewrite syn_options_bytes by apply Hok.
    exact (frame_wr_rest t total doff seq ack flags window ck 0 [] opts rest 54 Hok eq_refl ltac:(lia)). }
  cbn [mbind option_bind].
  assert (zlen r2 = zlen bs) as H2 by (subst r2; rewrite zlen_drop; unfold zlen in *; lia).
  assert (copy_payload (frame t total doff seq ack flags window ck 0 (opts ++ r2))
    (34 + hdr_len is_syn) payload (zlen bs)
    = Some (frame t total doff seq ack flags window ck 0 (opts ++ bs))) as ->; [|done].
  unfold copy_payload. destruct Hp as [->|[-> ->]].
  - destruct (Z.ltb_spec 0 (zlen bs)).
    + rewrite slice_all by done. cbn [mbind option_bind]. rewrite frame_wr_rest by (done || lia).
      rewrite drop_zlen_nil, app_nil_r; [done|]. rewrite H2. done.
    + rewrite (zlen_nil_inv bs), (zlen_nil_inv r2) by lia. done.
  - rewrite (zlen_nil_inv r2); [done|]. rewrite H2. by change (zlen (@nil byte)) with 0.
Qed.

(** A software checksum over a frame whose checksum field is still zero. *)
Lemma frame_tcp_checksum t total doff seq ack flags window ck rest :
  template_ok t -> zlen rest <= UINT16_MAX - 54 ->
  let F tck := frame t total doff seq ack flags window ck tck rest in
  let S tck := T1_bytes t doff seq ack flags window ++ le_bytes 2 tck ++ [x00; x00] ++ rest in
  exists src dst,
  load32 (F 0) 26 = Some src /\ load32 (F 0) 30 = Some dst /\
  slice (F 0) 34 (20 + zlen rest) = Some (S 0) /\
  (forall tck, wr (F 0) 50 (le_bytes 2 tck) = Some (F tck)) /\
  (forall tck, load32 (F tck) 26 = Some src /\ load32 (F tck) 30 = Some dst /\
               slice (F tck) 34 (20 + zlen rest) = Some (S tck)) /\
  tcp_checksum src dst (S (tcp_checksum src dst (S 0))) = 0.
Proof.
  intros Hok Hl F S. pose proof (zlen_E t Hok) as HE.
  exists (le_val (be_bytes 4 (src_ip (tuple t)))), (le_val (be_bytes 4 (dst_ip (tuple t)))).
  assert (forall tck, load32 (F tck) 26 = Some (le_val (be_bytes 4 (src_ip (tuple t)))) /\
    load32 (F tck) 30 = Some (le_val (be_bytes 4 (dst_ip (tuple t)))) /\
    slice (F tck) 34 (20 + zlen rest) = Some (S tck)) as HF.
  { intros tck. set (pre := (E_bytes t ++ I1_bytes t total) ++ le_bytes 2 ck).
    assert (zlen pre = 26) as Hpre by (subst pre; autorewrite with zlen; lia).
    assert (F tck = pre ++ be_bytes 4 (src_ip (tuple t)) ++ be_bytes 4 (dst_ip (tuple t)) ++ S tck) as EF
      by (unfold F, frame, S, pre, I2_bytes; by rewrite <- !app_assoc).
    rewrite EF. unfold load32. split_and!.
    - rewrite (slice_at _ _ _ _ 26 4 eq_refl); done.
    - rewrite (slice_at _ (pre ++ be_bytes 4 (src_ip (tuple t))) (be_bytes 4 (dst_ip (tuple t))) (S tck) 30 4);
        [done|by rewrite <- app_assoc|rewrite zlen_app, Hpre; done|done].
    - rewrite (slice_at _ (pre ++ be_bytes 4 (src_ip (tuple t)) ++ be_bytes 4 (dst_ip (tuple t)))
        (S tck) [] 34); [done|by rewrite app_nil_r, <- !app_assoc|rewrite !zlen_app, Hpre; done|].
      unfold S. autorewrite with zlen. lia. }
  assert (forall v, 0 <= le_val (be_bytes 4 v) < 2 ^ 32) as Hle.
  { intros v. rewrite le_val_be_rev. pose proof (be_val_bound (rev (be_bytes 4 v))) as H.
    rewrite length_rev, length_be_bytes in H. exact H. }
  split_and!; try apply HF.
  - intros tck.
    assert (forall c, F c = ((E_bytes t ++ I1_bytes t total) ++ le_bytes 2 ck ++ I2_bytes t ++
      T1_bytes t doff seq ack flags window) ++ le_bytes 2 c ++ ([x00; x00] ++ rest)) as ->
      by (intros; unfold F, frame; by rewrite <- !app_assoc).
    rewrite wr_mid; [|autorewrite with zlen; lia|by rewrite !length_le_bytes].
    unfold F, frame. by rewrite <- !app_assoc.
  - unfold tcp_checksum, S. rewrite !zlen_app, !zlen_le_bytes, zlen_T1.
    apply seg_verify; [by rewrite zlen_T1| |by apply pseudo_header_sum_val].
    unfold UINT16_MAX in *. autorewrite with zlen. lia.
Qed.

Lemma frame_wr_ip_ck t total doff seq ack flags window ck tck rest c :
  template_ok t ->
  wr (frame t total doff seq ack flags window ck tck rest) 24 (le_bytes 2 c) =
  Some (frame t total doff seq ack flags window c tck rest).
Proof.
  intros Hok. unfold frame. apply wr_mid; [|by rewrite !length_le_bytes].
  autorewrite with zlen. rewrite zlen_E by done. done.
Qed.

Lemma frame_ip_header t total doff seq ack flags window ck tck rest :
  template_ok t ->
  slice (frame t total doff seq ack flags window ck tck rest) 14 20 =
  Some (I1_bytes t total ++ le_bytes 2 ck ++ I2_bytes t).
Proof.
  intros Hok. eapply (slice_at _ (E_bytes t) _ (T1_bytes t doff seq ack flags window ++
    le_bytes 2 tck ++ [x00; x00] ++ rest)); [|by rewrite zlen_E|done].
  unfold frame. by rewrite <- !app_assoc.
Qed.

Lemma ip_checksum_verifies t total ck :
  ck = internet_checksum (Some (I1_bytes t total ++ le_bytes 2 0 ++ I2_bytes t)) ->
  internet_checksum (Some (I1_bytes t total ++ le_bytes 2 ck ++ I2_bytes t)) = 0.
Proof. intros ->. rewrite !seg_internet. by apply seg_verify. Qed.

(** What the receiver's checksum tests compute on a packet. *)
Definition checksums_ok (data : list byte) : Prop :=
  exists src dst iph seg, load32 data 26 = Some src /\ load32 data 30 = Some dst /\
    slice data 14 20 = Some iph /\ slice data 34 (zlen data - 34) = Some seg /\
    internet_checksum (Some iph) = 0 /\ tcp_checksum src dst seg = 0.

Section build.
Context (t : PacketTemplate) (fresh : fresh_mbuf) (seq ack flags window : Z)
  (payload : option (list byte)) (bs r : list byte).
Let is_syn : bool := negb (Z.land flags kTcpSyn =? 0).
Let total_len : Z := 34 + hdr_len is_syn + zlen bs.
Hypothesis (Hok : template_ok t) (Hseq : 0 <= seq < 2 ^ 32) (Hack : 0 <= ack < 2 ^ 32)
  (Hwin : 0 <= window < 2 ^ 16) (Hp : payload_is payload bs)
  (Hfit : total_len <= UINT16_MAX) (Hroom : room fresh total_len = Some r)
  (Hr : zlen r = total_len).

Lemma build_packet_built : exists ck tck ol lens,
  let data := frame t (20 + hdr_len is_syn + zlen bs) (Z.shiftl (hdr_len is_syn / 4) 4)
                seq ack flags window ck tck (option_bytes is_syn (mss t) ++ bs) in
  build_packet t (Alloc fresh) seq ack flags window payload (zlen bs) =
    Some (set_ip_id t (u16 (ip_id t + 1)), Built (mkTx data ol lens)) /\
  (hw_cksum t = false -> checksums_ok data).
Proof.
  pose proof (zlen_nonneg bs). assert (hdr_len is_syn = 20 \/ hdr_len is_syn = 32) as Hh
    by (destruct is_syn; [by right|by left]).
  assert (0 <= 20 + hdr_len is_syn + zlen bs < 2 ^ 16) as Ht
    by (unfold total_len, UINT16_MAX in *; change (2 ^ 16) with 65536; lia).
  destruct (headers_written t r (20 + hdr_len is_syn + zlen bs) (hdr_len is_syn) seq ack flags window
    Hok Ht Hseq Hack Hwin ltac:(unfold total_len in *; lia)) as (ck & Hck1 & Hck2 & HW).
  set (rest := option_bytes is_syn (mss t) ++ bs).
  assert (20 + zlen rest = hdr_len is_syn + zlen bs) as Hrest
    by (unfold rest; rewrite zlen_app, zlen_option_bytes; unfold kTcpHeaderLen; lia).
  destruct (frame_tcp_checksum t (20 + hdr_len is_syn + zlen bs) (Z.shiftl (hdr_len is_syn / 4) 4)
    seq ack flags window ck rest Hok ltac:(unfold total_len, UINT16_MAX in *; lia))
    as (src & dst & Hsrc & Hdst & Hseg & Hwr & Hall & Hv).
  assert (build_packet t (Alloc fresh) seq ack flags window payload (zlen bs) =
    let pkt := frame t (20 + hdr_len is_syn + zlen bs) (Z.shiftl (hdr_len is_syn / 4) 4) seq ack
                 flags window ck 0 rest in
    let t' := set_ip_id t (u16 (ip_id t + 1)) in
    if hw_cksum t then
      let ol := Z.lor RTE_MBUF_F_TX_IP_CKSUM RTE_MBUF_F_TX_TCP_CKSUM in
      pkt ← wr pkt 24 (le_bytes 2 0);
      iph ← slice pkt 14 20;
      pkt ← wr pkt 50 (le_bytes 2 (rte_ipv4_phdr_cksum iph ol));
      Some (t', Built (mkTx pkt ol (kEtherHeaderLen, kIpv4HeaderLen, hdr_len is_syn)))
    else
      let tcp_total := u16 (hdr_len is_syn + zlen bs) in
      src ← load32 pkt 26;
      dst ← load32 pkt 30;
      seg ← slice pkt 34 tcp_total;
      pkt ← wr pkt 50 (le_bytes 2 (tcp_checksum src dst seg));
      Some (t', Built (mkTx pkt 0 (stale_lens fresh)))) as ->.
  { unfold build_packet. fold is_syn. fold (hdr_len is_syn). unfold kEtherHeaderLen at 1 2, kIpv4HeaderLen at 1 2.
    change (14 + 20) with 34. fold total_len. rewrite Hroom. rewrite (proj2 (Z.ltb_ge _ _)) by lia.
    change (kIpv4HeaderLen + hdr_len is_syn + zlen bs) with (20 + hdr_len is_syn + zlen bs). rewrite HW.
    change (tcp_off + kTcpHeaderLen) with 54. change (tcp_off + hdr_len is_syn) with (34 + hdr_len is_syn).
    rewrite body_written; [done|done|done|]. rewrite zlen_drop, Hr. unfold total_len. lia. }
  assert (forall tck, hw_cksum t = false -> tck = tcp_checksum src dst
    (T1_bytes t (Z.shiftl (hdr_len is_syn / 4) 4) seq ack flags window ++ le_bytes 2 0 ++ [x00; x00] ++ rest) ->
    checksums_ok (frame t (20 + hdr_len is_syn + zlen bs) (Z.shiftl (hdr_len is_syn / 4) 4)
      seq ack flags window ck tck rest)) as Hcs.
  { intros tck Hhw ->. eexists src, dst, _, _. split; [apply Hall|]. split; [apply Hall|].
    split; [by apply frame_ip_header|]. split; [|split; [by apply ip_checksum_verifies, Hck2|exact Hv]].
    rewrite frame_app, zlen_app, zlen_hdr by done. rewrite <- frame_app.
    replace (54 + zlen rest - 34) with (20 + zlen rest) by lia. apply Hall. }
  cbv zeta. destruct (hw_cksum t) eqn:Hhw.
  - rewrite Hck1 in * by done. rewrite frame_wr_ip_ck by done. cbn [mbind option_bind].
    rewrite frame_ip_header by done. cbn [mbind option_bind]. rewrite Hwr. cbn [mbind option_bind].
    eexists 0, _, _, _. split; [done|by intros ?].
  - rewrite Hsrc, Hdst. cbn [mbind option_bind].
    rewrite (wrap_small 16 (hdr_len is_syn + zlen bs)) by lia.
    rewrite <- Hrest, Hseg. cbn [mbind option_bind]. rewrite Hwr. cbn [mbind option_bind].
    eexists ck, _, _, _. split; [done|]. intros _. by apply Hcs.
Qed.
End build.

(** ** UDP frames *)

Definition udp_header (smac dmac : list byte) (frag total id sip dip sport dport len ck uck : Z) : list byte :=
  dmac ++ smac ++ [x08; x00; x45; x00] ++ be_bytes 2 total ++ be_bytes 2 id ++ be_bytes 2 frag ++ [x40; x11] ++
  le_bytes 2 ck ++ be_bytes 4 sip ++ be_bytes 4 dip ++
  be_bytes 2 sport ++ be_bytes 2 dport ++ be_bytes 2 len ++ le_bytes 2 uck.

Lemma wr_prefix h rest off bs h' :
  wr h off bs = Some h' -> wr (h ++ rest) off bs = Some (h' ++ rest).
Proof.
  unfold wr. rewrite zlen_app. pose proof (zlen_nonneg rest).
  destruct (Z.leb_spec 0 off), (Z.leb_spec (off + zlen bs) (zlen h)); cbn [andb]; try done.
  intros [= <-]. rewrite (proj2 (Z.leb_le _ _)) by lia. f_equal.
  rewrite take_app_le by (unfold zlen in *; lia). rewrite drop_app_le by (unfold zlen in *; lia).
  by rewrite <- !app_assoc.
Qed.

Section udp.
Context (smac dmac : list byte) (sip dip sport dport id : Z).
Hypothesis (Hsm : zlen smac = 6) (Hdm : zlen dmac = 6) (Hsip : 0 <= sip < 2 ^ 32)
  (Hdip : 0 <= dip < 2 ^ 32) (Hsp : 0 <= sport < 2 ^ 16) (Hdp : 0 <= dport < 2 ^ 16)
  (Hid : 0 <= id < 2 ^ 16).

Let uh := udp_header smac dmac kIpDontFragment.

Lemma udp_init_header u hw : zlen (header_ u) = kUdpAllHeadersLen ->
  udp_init u smac dmac sip dip sport dport hw =
  Some (mkUdpTemplate (uh 0 0 sip dip sport dport 0 0 0) (ip_id_ u) hw).
Proof.
  intros Hu. unfold udp_init. rewrite !store_fields_wr, wr_0.
  2: { unfold kUdpAllHeadersLen, kEtherHeaderLen, kIpv4HeaderLen, kUdpHeaderLen in Hu.
       cbn [concat]. autorewrite with zlen. lia. }
  cbn [mbind option_bind].
  destruct (list6 _ Hsm) as (s1 & s2 & s3 & s4 & s5 & s6 & ->).
  destruct (list6 _ Hdm) as (d1 & d2 & d3 & d4 & d5 & d6 & ->).
  assert (exists tl, drop (length (concat [[d1; d2; d3; d4; d5; d6]; [s1; s2; s3; s4; s5; s6];
    le_bytes 2 (hton16 kEtherTypeIpv4)])) (header_ u) = tl /\ zlen tl = 28) as (tl & -> & Htl).
  { eexists. split; [done|]. rewrite zlen_drop, Hu. done. }
  do 28 (destruct tl as [|? tl]; [discriminate Htl|]).
  destruct tl; [|exfalso; revert Htl; rewrite !zlen_cons; pose proof (zlen_nonneg tl); lia].
  rewrite !le_bytes_hton32, !(le_bytes_hton16 sport), !(le_bytes_hton16 dport) by done.
  reflexivity.
Qed.

(** Every store of [udp_fill] into the header is a store into one field. *)
Lemma uh_stores total0 id0 len0 ck0 uck0 rest :
  (forall total, wr (uh total0 id0 sip dip sport dport len0 ck0 uck0 ++ rest) 16 (be_bytes 2 total) =
     Some (uh total id0 sip dip sport dport len0 ck0 uck0 ++ rest)) /\
  (forall id, wr (uh total0 id0 sip dip sport dport len0 ck0 uck0 ++ rest) 18 (be_bytes 2 id) =
     Some (uh total0 id sip dip sport dport len0 ck0 uck0 ++ rest)) /\
  (forall len, wr (uh total0 id0 sip dip sport dport len0 ck0 uck0 ++ rest) 38 (be_bytes 2 len) =
     Some (uh total0 id0 sip dip sport dport len ck0 uck0 ++ rest)) /\
  (forall ck, wr (uh total0 id0 sip dip sport dport len0 ck0 uck0 ++ rest) 24 (le_bytes 2 ck) =
     Some (uh total0 id0 sip dip sport dport len0 ck uck0 ++ rest)) /\
  (forall uck, wr (uh total0 id0 sip dip sport dport len0 ck0 uck0 ++ rest) 40 (le_bytes 2 uck) =
     Some (uh total0 id0 sip dip sport dport len0 ck0 uck ++ rest)) /\
  slice (uh total0 id0 sip dip sport dport len0 ck0 uck0 ++ rest) 14 20 =
    Some (([x45; x00] ++ be_bytes 2 total0 ++ be_bytes 2 id0 ++ [x40; x00; x40; x11]) ++
          le_bytes 2 ck0 ++ be_bytes 4 sip ++ be_bytes 4 dip).
Proof.
  unfold uh, udp_header.
  destruct (list6 _ Hsm) as (s1 & s2 & s3 & s4 & s5 & s6 & ->).
  destruct (list6 _ Hdm) as (d1 & d2 & d3 & d4 & d5 & d6 & ->).
  split_and!; intros; try (apply wr_prefix; reflexivity).
  rewrite slice_in_prefix; [reflexivity|lia|lia|by vm_compute].
Qed.

Lemma udp_fill_built hw fresh payload bs r :
  payload_is payload bs -> 42 + zlen bs <= UINT16_MAX -> room fresh (42 + zlen bs) = Some r ->
  zlen r = 42 + zlen bs ->
  exists ck uck ol lens,
  let data := uh (28 + zlen bs) id sip dip sport dport (8 + zlen bs) ck uck ++ bs in
  udp_fill (mkUdpTemplate (uh 0 0 sip dip sport dport 0 0 0) id hw) (Some fresh) payload (zlen bs) =
    Some (mkUdpTemplate (uh 0 0 sip dip sport dport 0 0 0) (u16 (id + 1)) hw, 42 + zlen bs,
          Some (mkTx data ol lens)) /\
  (hw = false -> uck = 0 /\
     exists iph, slice data 14 20 = Some iph /\ internet_checksum (Some iph) = 0).
Proof.
  intros Hp Hfit Hroom Hr. pose proof (zlen_nonneg bs). unfold UINT16_MAX in Hfit.
  assert (zlen (uh 0 0 sip dip sport dport 0 0 0) = 42) as Hz
    by (unfold uh, udp_header; autorewrite with zlen; lia).
  unfold udp_fill. cbn [header_ ip_id_ hw_cksum_].
  change kUdpAllHeadersLen with 42. unfold UINT16_MAX. zdecides. rewrite Hroom, wr_0 by lia.
  cbn [mbind option_bind].
  change (ip_off + ip_total_length) with 16. change (ip_off + 4) with 18.
  change (tcp_off + udp_length) with 38. change (ip_off + ip_hdr_checksum) with 24.
  change (tcp_off + udp_checksum_off) with 40. change ip_off with 14. change kIpv4HeaderLen with 20.
  change kUdpHeaderLen with 8. change (20 + 8) with 28.
  rewrite !(wrap_small 16 (_ + zlen bs)) by (change (2 ^ 16) with 65536; lia).
  rewrite !le_bytes_hton16 by (done || (change (2 ^ 16) with 65536; lia)).
  rewrite (proj1 (uh_stores 0 0 0 0 0 _)). cbn [mbind option_bind].
  rewrite (proj1 (proj2 (uh_stores _ 0 0 0 0 _))). cbn [mbind option_bind].
  rewrite (proj1 (proj2 (proj2 (uh_stores _ _ 0 0 0 _)))). cbn [mbind option_bind].
  set (H1 := uh (28 + zlen bs) id sip dip sport dport (8 + zlen bs) 0 0).
  set (rest := drop _ r).
  assert (zlen rest = zlen bs) as Hrest by (subst rest; rewrite zlen_drop; unfold zlen in *; lia).
  assert (copy_payload (H1 ++ rest) 42 payload (zlen bs) = Some (H1 ++ bs)) as ->.
  { unfold copy_payload. destruct Hp as [->|[-> ->]].
    - destruct (Z.ltb_spec 0 (zlen bs)).
      + rewrite slice_all by done. cbn [mbind option_bind].
        rewrite wr_app; [|unfold H1, uh, udp_header; autorewrite with zlen; lia|lia].
        rewrite drop_zlen_nil, app_nil_r; [done|]. rewrite Hrest. done.
      + rewrite (zlen_nil_inv bs), (zlen_nil_inv rest) by lia. done.
    - rewrite (zlen_nil_inv rest); [done|]. rewrite Hrest. by change (zlen (@nil byte)) with 0. }
  cbn [mbind option_bind]. destruct hw.
  - unfold H1. destruct (uh_stores (28 + zlen bs) id (8 + zlen bs) 0 0 bs) as (_ & _ & _ & W24 & W40 & S14).
    rewrite W24. cbn [mbind option_bind]. rewrite S14. cbn [mbind option_bind].
    rewrite W40. cbn [mbind option_bind]. eexists _, _, _, _. split; [done|by intros].
  - unfold H1. destruct (uh_stores (28 + zlen bs) id (8 + zlen bs) 0 0 bs) as (_ & _ & _ & W24 & W40 & S14).
    rewrite W40. cbn [mbind option_bind]. rewrite W24. cbn [mbind option_bind]. rewrite S14.
    cbn [mbind option_bind]. rewrite W24. cbn [mbind option_bind].
    eexists _, _, _, _. split; [done|]. intros _. split; [done|]. eexists. split.
    { exact (proj2 (proj2 (proj2 (proj2 (proj2 (uh_stores (28 + zlen bs) id (8 + zlen bs) _ 0 bs)))))). }
    rewrite !seg_internet. by apply seg_verify.
Qed.

Lemma uh_loads frag total len ck uck rest : 0 <= frag < 2 ^ 16 -> 0 <= total < 2 ^ 16 -> 0 <= len < 2 ^ 16 ->
  let F := udp_header smac dmac frag total id sip dip sport dport len ck uck ++ rest in
  load_ntoh16 F 12 = Some kEtherTypeIpv4 /\ load8 F 14 = Some kIpv4VersionIhl5 /\
  load_ntoh16 F 16 = Some total /\ load_ntoh16 F 20 = Some frag /\
  load8 F 23 = Some kIpProtoUdp /\ load_ntoh32 F 26 = Some sip /\ load_ntoh32 F 30 = Some dip /\
  load_ntoh16 F 34 = Some sport /\ load_ntoh16 F 36 = Some dport /\ load_ntoh16 F 38 = Some len.
Proof.
  intros Hfr Ht Hl F.
  assert (forall off n bs, 0 <= off -> 0 <= n -> off + n <= 42 ->
    slice (udp_header smac dmac frag total id sip dip sport dport len ck uck) off n = Some bs -> slice F off n = Some bs) as HF.
  { intros off n bs' H0 H1 H2 <-. subst F. apply slice_in_prefix; [done|done|].
    unfold udp_header. autorewrite with zlen. lia. }
  unfold udp_header in HF.
  destruct (list6 _ Hsm) as (s1 & s2 & s3 & s4 & s5 & s6 & Es).
  destruct (list6 _ Hdm) as (d1 & d2 & d3 & d4 & d5 & d6 & Ed).
  rewrite Es, Ed in HF. clearbody F.
  assert (forall off b v, v = b2z b -> 0 <= off -> off + 1 <= 42 ->
    slice F off 1 = Some [b] -> load8 F off = Some v) as H8
    by (intros ? ? ? -> ? ? ?; by apply load_of_slice8).
  split_and!;
    first [eapply load_of_slice16|eapply load_of_slice32|eapply H8]; try done;
    try (symmetry; by apply b2z_z2b_small);
    try (apply HF; [lia|lia|lia|reflexivity]).
Qed.

Lemma udp_frame_parse frag bs pad ck uck : 0 <= frag < 2 ^ 16 -> fragment_bits frag = false ->
  42 + zlen bs + zlen pad <= UINT16_MAX ->
  parse_udp_packet (Some (mkMbuf 1
    (udp_header smac dmac frag (28 + zlen bs) id sip dip sport dport (8 + zlen bs) ck uck ++ bs ++ pad))) =
  Some (mkParsedUdp (Some 0) (Some 14) (Some 34) (Some 42) (zlen bs)).
Proof.
  intros Hfr Hfb Hl. pose proof (zlen_nonneg bs). pose proof (zlen_nonneg pad). unfold UINT16_MAX in Hl.
  destruct (uh_loads frag (28 + zlen bs) (8 + zlen bs) ck uck (bs ++ pad))
    as (L12 & L14 & L16 & L20 & L23 & _ & _ & _ & _ & L38); [done|change (2 ^ 16) with 65536; lia..|].
  set (F := udp_header smac dmac frag (28 + zlen bs) id sip dip sport dport (8 + zlen bs) ck uck ++ bs ++ pad) in *.
  assert (zlen F = 42 + zlen bs + zlen pad) as HF.
  { subst F. unfold udp_header. autorewrite with zlen. lia. }
  unfold parse_udp_packet, parse_ip_header, eth_ether_type, ip_version_ihl, ip_fragment_offset,
    ip_next_proto_id. cbn [nb_segs mb_data].
  unfold kEtherHeaderLen, kIpv4HeaderLen. zdecides. rewrite L12. cbn [mbind option_bind].
  change (14 + 0) with 14. change (14 + 6) with 20. change (14 + 9) with 23.
  rewrite L14, L20, L23. unfold kEtherTypeIpv4, kIpv4VersionIhl5.
  cbn [mbind option_bind negb Z.eqb Pos.eqb]. change (u8 (Z.shiftl (Z.land 69 15) 2)) with 20.
  change (Z.shiftr 69 4) with 4. rewrite Hfb.
  cbn [Z.eqb Pos.eqb negb]. zdecides. cbn [mbind option_bind pih_ip pih_proto].
  unfold parse_udp_from_ip, udp_length, ip_total_length, kIpProtoUdp, kEtherHeaderLen, kUdpHeaderLen.
  cbn [pih_ip pih_proto pih_ihl pih_eth Z.eqb Pos.eqb negb mb_data].
  change (u16 (14 + 20)) with 34. zdecides. change (34 + 4) with 38. change (14 + 2) with 16.
  rewrite L38, L16. cbn [mbind option_bind]. zdecides. change (u16 (34 + 8)) with 42.
  rewrite wrap_small by (change (2 ^ 16) with 65536; lia). do 2 f_equal. lia.
Qed.
End udp.

(** ** Theorems *)

Definition segment_of (t : PacketTemplate) (seq ack flags window : Z) (bs : list byte) : Segment :=
  let is_syn := negb (Z.land flags kTcpSyn =? 0) in
  mkSegment (src_ip (tuple t)) (dst_ip (tuple t)) (src_port (tuple t)) (dst_port (tuple t))
    seq ack flags window (payload_view bs) (options_of is_syn (mss t)).

(** What [build_packet] yields, on every branch. *)
Lemma build_packet_cases t fresh seq ack flags window payload bs :
  template_ok t -> room_ok fresh -> 0 <= seq < 2 ^ 32 -> 0 <= ack < 2 ^ 32 ->
  0 <= flags < 256 -> 0 <= window < 2 ^ 16 -> payload_is payload bs ->
  let len := 34 + hdr_len (negb (Z.land flags kTcpSyn =? 0)) + zlen bs in
  (len <= UINT16_MAX /\ room fresh len <> None /\
   exists m, build_packet t (Alloc fresh) seq ack flags window payload (zlen bs) =
       Some (set_ip_id t (u16 (ip_id t + 1)), Built m) /\
     zlen (tx_data m) = len /\
     (forall pad, len + zlen pad <= UINT16_MAX ->
        view (mkMbuf 1 (tx_data m ++ pad)) = Some (Some (segment_of t seq ack flags window bs))) /\
     (hw_cksum t = false -> checksums_ok (tx_data m))) \/
  ((UINT16_MAX < len \/ room fresh len = None) /\
   build_packet t (Alloc fresh) seq ack flags window payload (zlen bs) = Some (t, Freed)).
Proof.
  intros Hok Hr Hs Ha Hf Hw Hp len.
  set (is_syn := negb (Z.land flags kTcpSyn =? 0)) in *.
  assert (UINT16_MAX < len \/ room fresh len = None ->
    build_packet t (Alloc fresh) seq ack flags window payload (zlen bs) = Some (t, Freed)) as Hfail.
  { intros Hc. unfold build_packet. fold is_syn. fold (hdr_len is_syn).
    change (kEtherHeaderLen + kIpv4HeaderLen + hdr_len is_syn + zlen bs) with len.
    destruct (Z.ltb_spec UINT16_MAX len); [done|]. destruct Hc as [Hc|Hc]; [lia|by rewrite Hc]. }
  destruct (Z.ltb_spec UINT16_MAX len) as [Hlt|Hge]; [by right; auto|].
  destruct (room fresh len) as [r|] eqn:Er; [|by right; auto].
  left. split; [done|]. split; [done|].
  destruct (build_packet_built t fresh seq ack flags window payload bs r Hok Hs Ha Hw Hp Hge Er
    (Hr _ _ Er)) as (ck & tck & ol & lens & Hb & Hc).
  eexists. split; [exact Hb|]. cbn [tx_data].
  assert (zlen (option_bytes is_syn (mss t) ++ bs) = hdr_len is_syn - 20 + zlen bs) as Hrest
    by (rewrite zlen_app, zlen_option_bytes; done).
  split; [|split; [|exact Hc]].
  - fold is_syn. rewrite frame_app, zlen_app, zlen_hdr, Hrest by done. subst len. lia.
  - intros pad Hpad. fold is_syn. rewrite frame_app, <- !app_assoc, <- frame_app.
    by apply view_frame.
Qed.

(** C37: TCP packets are read back exactly.  For any template, sequence and acknowledgment
    numbers, flags, window and payload: [build_packet] either refuses, freeing the mbuf it
    allocated and leaving the template alone, exactly when the packet exceeds 65535 bytes
    or does not fit the mbuf; or it yields a packet that [parse_packet] and the accessors,
    also behind any Ethernet padding, read back as the values and the payload given, SYN
    options included, whatever the buffer held before; and with software checksums the IP
    header and the TCP segment pass the receiver's checksum test.  No access leaves the
    packet.  Without an mbuf nothing is built. *)
Theorem tcp_packet_roundtrip t fresh seq ack flags window payload bs :
  template_ok t -> room_ok fresh -> 0 <= seq < 2 ^ 32 -> 0 <= ack < 2 ^ 32 ->
  0 <= flags < 256 -> 0 <= window < 2 ^ 16 -> payload_is payload bs ->
  let len := 34 + hdr_len (negb (Z.land flags kTcpSyn =? 0)) + zlen bs in
  ((len <= UINT16_MAX /\ room fresh len <> None /\
    exists m, build_packet t (Alloc fresh) seq ack flags window payload (zlen bs) =
        Some (set_ip_id t (u16 (ip_id t + 1)), Built m) /\
      zlen (tx_data m) = len /\
      (forall pad, len + zlen pad <= UINT16_MAX ->
         view (mkMbuf 1 (tx_data m ++ pad)) = Some (Some (segment_of t seq ack flags window bs))) /\
      (hw_cksum t = false -> checksums_ok (tx_data m))) \/
   ((UINT16_MAX < len \/ room fresh len = None) /\
    build_packet t (Alloc fresh) seq ack flags window payload (zlen bs) = Some (t, Freed))) /\
  build_packet t NullPool seq ack flags window payload (zlen bs) = Some (t, NoMbuf) /\
  build_packet t Exhausted seq ack flags window payload (zlen bs) = Some (t, NoMbuf).
Proof. intros. split; [by apply build_packet_cases|done]. Qed.

(** UDP packets are read back exactly: a template initialised once, with any stale
    contents, fills packets whose parse gives back addresses, ports and the payload, also
    an empty one and behind padding; the template's header is unchanged by a send and the
    identification advances; without offload the IP header checks to zero and the UDP
    checksum is the zero that RFC 768 allows. *)
Theorem udp_packet_roundtrip u smac dmac sip dip sport dport hw fresh payload bs pad :
  zlen (header_ u) = kUdpAllHeadersLen -> 0 <= ip_id_ u < 2 ^ 16 ->
  zlen smac = 6 -> zlen dmac = 6 -> 0 <= sip < 2 ^ 32 -> 0 <= dip < 2 ^ 32 ->
  0 <= sport < 2 ^ 16 -> 0 <= dport < 2 ^ 16 -> room_ok fresh ->
  payload_is payload bs -> 42 + zlen bs + zlen pad <= UINT16_MAX -> room fresh (42 + zlen bs) <> None ->
  exists u0 u1 m,
    udp_init u smac dmac sip dip sport dport hw = Some u0 /\
    udp_fill u0 (Some fresh) payload (zlen bs) = Some (u1, 42 + zlen bs, Some m) /\
    udp_build u0 (Alloc fresh) payload (zlen bs) = Some (u1, Built m) /\
    header_ u1 = header_ u0 /\ ip_id_ u1 = u16 (ip_id_ u + 1) /\
    let data := tx_data m ++ pad in
    exists p, parse_udp_packet (Some (mkMbuf 1 data)) = Some p /\
      pu_src_ip data p = Some sip /\ pu_dst_ip data p = Some dip /\
      pu_src_port data p = Some sport /\ pu_dst_port data p = Some dport /\
      pu_payload_len p = zlen bs /\ pu_payload p = Some 42 /\ slice data 42 (zlen bs) = Some bs /\
      (hw = false -> exists iph, slice data 14 20 = Some iph /\ internet_checksum (Some iph) = 0).
Proof.
  intros Hu Hid Hsm Hdm Hsip Hdip Hsp Hdp Hr Hp Hl Hroom.
  pose proof (zlen_nonneg bs). pose proof (zlen_nonneg pad). unfold UINT16_MAX in Hl.
  destruct (room fresh (42 + zlen bs)) as [r|] eqn:Er; [|done].
  destruct (udp_fill_built smac dmac sip dip sport dport (ip_id_ u) Hsm Hdm Hid hw fresh payload bs r
    Hp ltac:(unfold UINT16_MAX; lia) Er (Hr _ _ Er)) as (ck & uck & ol & lens & Hf & Hc).
  eexists _, _, _. split; [by apply udp_init_header|]. split; [exact Hf|]. split.
  { unfold udp_build. rewrite Hf. cbn [mbind option_bind]. by zdecides. }
  split; [done|]. split; [done|]. cbn [tx_data]. rewrite <- app_assoc.
  set (h := udp_header smac dmac kIpDontFragment (28 + zlen bs) (ip_id_ u) sip dip sport dport (8 + zlen bs) ck uck) in *.
  assert (zlen h = 42) as Hh by (subst h; unfold udp_header; autorewrite with zlen; lia).
  eexists. split; [apply udp_frame_parse; (done || (unfold UINT16_MAX; lia))|].
  destruct (uh_loads smac dmac sip dip sport dport (ip_id_ u) Hsm Hdm Hsip Hdip Hsp Hdp
    kIpDontFragment (28 + zlen bs) (8 + zlen bs) ck uck (bs ++ pad))
    as (_ & _ & _ & _ & _ & L26 & L30 & L34 & L36 & _); [done|change (2 ^ 16) with 65536; lia..|].
  fold h in L26, L30, L34, L36.
  split_and!; try done; [rewrite slice_mid; done|].
  intros ->. destruct (Hc eq_refl) as (_ & iph & Hs & Hv). exists iph. split; [|done].
  rewrite app_assoc, slice_in_prefix; [done|lia|lia|rewrite zlen_app, Hh; lia].
Qed.

Lemma fill_build_eq t fresh seq ack flags window payload bs :
  template_ok t -> room_ok fresh -> 0 <= seq < 2 ^ 32 -> 0 <= ack < 2 ^ 32 ->
  0 <= window < 2 ^ 16 -> payload_is payload bs ->
  fill_packet t (Some fresh) seq ack flags window payload (zlen bs) =
  if negb (Z.land flags kTcpSyn =? 0) then Some (t, 0, None) else
  match build_packet t (Alloc fresh) seq ack flags window payload (zlen bs) with
  | Some (t', Built m) => Some (t', kAllHeadersLen + zlen bs, Some m)
  | Some (t', _) => Some (t', 0, None)
  | None => None
  end.
Proof.
  intros Hok Hr Hs Ha Hw Hp. pose proof (zlen_nonneg bs). unfold fill_packet, build_packet.
  destruct (negb (Z.land flags kTcpSyn =? 0)) eqn:Hsyn; [done|].
  change (kEtherHeaderLen + kIpv4HeaderLen + kTcpHeaderLen + zlen bs) with (kAllHeadersLen + zlen bs).
  destruct (Z.ltb_spec UINT16_MAX (kAllHeadersLen + zlen bs)) as [|Hfit]; [done|].
  destruct (room fresh (kAllHeadersLen + zlen bs)) as [r|] eqn:Er; [|done].
  pose proof (Hr _ _ Er) as Hlr. change kAllHeadersLen with 54 in Hlr, Hfit. unfold UINT16_MAX in Hfit.
  change (kIpv4HeaderLen + kTcpHeaderLen + zlen bs) with (20 + 20 + zlen bs).
  destruct (headers_written t r (20 + 20 + zlen bs) kTcpHeaderLen seq ack flags window
    Hok ltac:(change (2 ^ 16) with 65536; lia) Hs Ha Hw ltac:(lia)) as (ck & Hck1 & _ & HW).
  rewrite !HW. cbn [mbind option_bind].
  set (F0 := frame t (20 + 20 + zlen bs) _ seq ack flags window ck 0 (drop 54 r)).
  assert (copy_payload F0 kAllHeadersLen payload (zlen bs) =
    Some (frame t (20 + 20 + zlen bs) (Z.shiftl (kTcpHeaderLen / 4) 4) seq ack flags window ck 0 bs)) as Hcp.
  { pose proof (body_written t (20 + 20 + zlen bs) (Z.shiftl (kTcpHeaderLen / 4) 4) seq ack flags window ck
      false payload bs (drop 54 r) Hok Hp ltac:(rewrite zlen_drop, Hlr; change (hdr_len false) with 20; lia) _ Some) as HB.
    cbn [mbind option_bind option_bytes app hdr_len] in HB. fold F0 in HB.
    change (34 + kTcpHeaderLen) with kAllHeadersLen in HB. rewrite <- HB. by destruct (copy_payload _ _ _ _). }
  change (tcp_off + kTcpHeaderLen) with kAllHeadersLen. rewrite Hcp. cbn [mbind option_bind].
  destruct (hw_cksum t) eqn:Hhw.
  - rewrite (Hck1 eq_refl). change (ip_off + ip_hdr_checksum) with 24.
    rewrite frame_wr_ip_ck by done. cbn [mbind option_bind].
    destruct (slice _ _ _); [|done]. cbn [mbind option_bind]. by destruct (wr _ _ _).
  - destruct (load32 _ (ip_off + ip_src_addr)); [|done]. cbn [mbind option_bind].
    destruct (load32 _ _); [|done].
    cbn [mbind option_bind]. destruct (slice _ _ _); [|done]. cbn [mbind option_bind].
    by destruct (wr _ _ _).
Qed.

(** The two TCP constructors stay in step, as the source asks of them: on segments
    without SYN, [fill_packet] into a caller's mbuf writes the same packet, advances the
    template the same way and fails in the same cases as [build_packet] into one it
    allocates; and a SYN, which needs options, is refused by [fill_packet]. *)
Theorem fill_equals_build t fresh seq ack flags window payload bs :
  template_ok t -> room_ok fresh -> 0 <= seq < 2 ^ 32 -> 0 <= ack < 2 ^ 32 ->
  0 <= window < 2 ^ 16 -> payload_is payload bs ->
  fill_packet t (Some fresh) seq ack flags window payload (zlen bs) =
  if negb (Z.land flags kTcpSyn =? 0) then Some (t, 0, None) else
  match build_packet t (Alloc fresh) seq ack flags window payload (zlen bs) with
  | Some (t', Built m) => Some (t', kAllHeadersLen + zlen bs, Some m)
  | Some (t', _) => Some (t', 0, None)
  | None => None
  end.
Proof. exact (fill_build_eq t fresh seq ack flags window payload bs). Qed.

End templates.

#[global] Arguments template_ok : clear implicits.

(** ** Witnesses *)

(** A template of a client at 10.0.0.1:40000 talking to 10.0.0.2:443, and an mbuf whose
    memory holds stale 0xEE bytes. *)
Definition demo_tuple : ConnectionTuple := mkTuple 0x0A000001 0x0A000002 40000 443.
Definition demo_template : PacketTemplate :=
  mkTemplate [x02; x00; x00; x00; x00; x01] [x02; x00; x00; x00; x00; x02] demo_tuple 65535 1460 false.
Definition demo_fresh : fresh_mbuf :=
  mkFresh (fun n => if (0 <=? n) && (n <=? 2048) then Some (repeat xee (Z.to_nat n)) else None) (0, 0, 0).

Lemma demo_template_ok : template_ok demo_template.
Proof. by constructor. Qed.

Lemma demo_room_ok : room_ok demo_fresh.
Proof.
  intros n r. cbn [demo_fresh room]. destruct (Z.leb_spec 0 n), (n <=? 2048); try done.
  intros [= <-]. unfold zlen. rewrite repeat_length. lia.
Qed.

(** A data segment "hi" with sequence number [2^32 - 1]: it is built and read back. *)
Lemma tcp_packet_roundtrip_witness :
  exists m, build_packet (fun _ _ => 0) 1 2 demo_template (Alloc demo_fresh) (2 ^ 32 - 1) 7 0x18 65535
              (Some [x68; x69]) 2 = Some (set_ip_id demo_template 0, Built m) /\
    view (mkMbuf 1 (tx_data m ++ [])) =
      Some (Some (segment_of demo_template (2 ^ 32 - 1) 7 0x18 65535 [x68; x69])).
Proof.
  destruct (tcp_packet_roundtrip (fun _ _ => 0) 1 2 demo_template demo_fresh (2 ^ 32 - 1) 7 0x18 65535
    (Some [x68; x69]) [x68; x69] demo_template_ok demo_room_ok ltac:(lia) ltac:(lia) ltac:(lia)
    ltac:(lia) (or_introl eq_refl)) as [[(H1 & H2 & m & Hb & _ & Hv & _)|([H|H] & _)] _];
    [|exfalso; vm_compute in H; discriminate..].
  exists m. split; [|apply Hv; vm_compute; discriminate].
  change (zlen [x68; x69]) with 2 in Hb. exact Hb.
Defined.

(** An empty datagram is still delivered. *)
Lemma udp_packet_roundtrip_witness :
  exists u0 u1 m, udp_init udp_template0 [x02; x00; x00; x00; x00; x01] [x02; x00; x00; x00; x00; x02]
      0x0A000001 0x0A000002 5000 6000 false = Some u0 /\
    udp_fill (fun _ _ => 0) 1 4 u0 (Some demo_fresh) None 0 = Some (u1, 42, Some m) /\
    exists p, parse_udp_packet (Some (mkMbuf 1 (tx_data m ++ repeat x00 18))) = Some p /\ pu_payload_len p = 0.
Proof.
  destruct (udp_packet_roundtrip (fun _ _ => 0) 1 4 udp_template0 [x02; x00; x00; x00; x00; x01]
    [x02; x00; x00; x00; x00; x02] 0x0A000001 0x0A000002 5000 6000 false demo_fresh None [] (repeat x00 18))
    as (u0 & u1 & m & Hi & Hf & _ & _ & _ & p & Hp & _ & _ & _ & _ & Hl & _);
    [vm_compute; reflexivity|cbn; lia|reflexivity|reflexivity|lia|lia|lia|lia|apply demo_room_ok|by right
    |vm_compute; discriminate|vm_compute; discriminate|].
  change (zlen (@nil byte)) with 0 in Hf, Hl. change (42 + 0) with 42 in Hf.
  exists u0, u1, m. split; [exact Hi|]. split; [exact Hf|]. exists p. split; [exact Hp|exact Hl].
Defined.

Lemma fill_equals_build_witness :
  fill_packet (fun _ _ => 0) 1 2 demo_template (Some demo_fresh) 5 7 0x18 65535 (Some [x68; x69]) 2 =
  match build_packet (fun _ _ => 0) 1 2 demo_template (Alloc demo_fresh) 5 7 0x18 65535 (Some [x68; x69]) 2 with
  | Some (t', Built m) => Some (t', 56, Some m)
  | Some (t', _) => Some (t', 0, None)
  | None => None
  end.
Proof.
  apply (fill_equals_build (fun _ _ => 0) 1 2 demo_template demo_fresh 5 7 0x18 65535 (Some [x68; x69]) [x68; x69]);
    [apply demo_template_ok|apply demo_room_ok|lia|lia|lia|by left].
Defined.
