(* ===== verification/TcpSession.v ===== *)
(** * The user-space TCP session

    tcp.hpp and tcp_state.hpp of eph-net-dpdk and eph-core: the configuration, the session
    record and one definition per operation.

    What the operations ask of the world is an argument: the result of the mbuf
    allocation and of [rte_eth_tx_burst], the clocks, the random initial sequence number,
    the burst of mbufs that [rte_eth_rx_burst] returned.  What they do to the world is
    part of the result: the packets handed to the NIC (their bytes), the chunks passed to
    the data callback, the order in which received mbufs are freed.  The outer [option] is
    [None] where the C++ would access memory out of bounds.

    [TSC::to_cycles] and the floating-point fallback of the keepalive interval are
    parameters.  Logging is left out; [ErrorInfo] is its code, and where one code has
    several causes, [SessionError] names them. *)

From S2P Require Import Prelude Codecs PacketCore PacketParse PacketTemplate.

#[local] Open Scope Z_scope.

(** ** tcp_state.hpp *)

Inductive TcpState :=
| Closed | Listen | SynSent | SynReceived | Established
| FinWait1 | FinWait2 | CloseWait | Closing | LastAck | TimeWait.

#[global] Instance TcpState_eq_dec : EqDecision TcpState.
Proof. solve_decision. Defined.

(** ** Configuration *)

Record TcpConfig := mkConfig {
  c_tuple : ConnectionTuple;
  c_src_mac : list byte;
  c_dst_mac : list byte;
  c_mss : Z;
  c_recv_window : Z;
  c_port_id : Z;
  c_tx_queue_id : Z;
  c_rx_queue_id : Z;
  c_max_rx_burst : Z;
  c_keepalive_interval : Z;
  c_keepalive_probes : Z
}.

Inductive config_error :=
| CfgTuple (e : tuple_error) | CfgMssZero | CfgMssTooLarge | CfgWindowZero | CfgWindowTooLarge
| CfgBurst | CfgKeepaliveNegative | CfgKeepaliveProbes.

Definition config_validate (c : TcpConfig) : option config_error :=
  match tuple_validate (c_tuple c) with
  | Some e => Some (CfgTuple e)
  | None =>
    if c_mss c =? 0 then Some CfgMssZero
    else if kJumboMaxMss <? c_mss c then Some CfgMssTooLarge
    else if c_recv_window c =? 0 then Some CfgWindowZero
    else if 65535 <? c_recv_window c then Some CfgWindowTooLarge
    else if 32 <? c_max_rx_burst c then Some CfgBurst
    else if c_keepalive_interval c <? 0 then Some CfgKeepaliveNegative
    else if (0 <? c_keepalive_interval c) &&
            ((c_keepalive_probes c =? 0) || (10 <? c_keepalive_probes c)) then Some CfgKeepaliveProbes
    else None
  end.

Inductive config_warning :=
| WarnLoopbackSrc | WarnLoopbackDst | WarnSelfConnect | WarnMssSmall | WarnMssJumbo
| WarnSrcMacZero | WarnDstMacZero | WarnSharedQueue.

Definition zero_mac : list byte := [x00; x00; x00; x00; x00; x00].

Definition config_warnings (c : TcpConfig) : list config_warning :=
  let t := c_tuple c in
  (if Z.shiftr (src_ip t) 24 =? 127 then [WarnLoopbackSrc] else []) ++
  (if Z.shiftr (dst_ip t) 24 =? 127 then [WarnLoopbackDst] else []) ++
  (if negb (src_ip t =? 0) && (src_ip t =? dst_ip t) then [WarnSelfConnect] else []) ++
  (if c_mss c <? 536 then [WarnMssSmall] else []) ++
  (if (kDefaultMss <? c_mss c) && (c_mss c <=? kJumboMaxMss) then [WarnMssJumbo] else []) ++
  (if bool_decide (c_src_mac c = zero_mac) then [WarnSrcMacZero] else []) ++
  (if bool_decide (c_dst_mac c = zero_mac) then [WarnDstMacZero] else []) ++
  (if (c_tx_queue_id c =? c_rx_queue_id c) && (0 <? c_tx_queue_id c) then [WarnSharedQueue] else []).

Definition kDefaultRxBudgetBytes : Z := 32768.
Definition kRxBurstSize : Z := 32.

(** [detail::ack_timer_expired]. *)
Definition ack_timer_expired (pending_since_tsc now_tsc delay_cycles : Z) : bool :=
  if pending_since_tsc =? 0 then false
  else delay_cycles <=? u64 (now_tsc - pending_since_tsc).

(** ** Statistics

    The 64-bit counters by name; [max_gap_size] and the histogram apart. *)
Inductive stat :=
| tx_packets | rx_packets | rx_bursts | tx_bytes | rx_bytes | acks_sent | out_of_order
| resets_received | mss_negotiations_applied | icmp_frag_needed_received
| keepalive_probes_sent | keepalive_send_failures | reorder_hits | reorder_overflows
| packets_dropped | fragment_rejected | dup_segments | numerical_anomalies.

#[global] Instance stat_eq_dec : EqDecision stat.
Proof. solve_decision. Defined.

Record Stats := mkStats {
  counter : stat -> Z;
  max_gap_size : Z;
  gap_histogram : Z -> Z
}.

Definition stats0 : Stats := mkStats (fun _ => 0) 0 (fun _ => 0).

Definition stat_add (k : stat) (n : Z) (t : Stats) : Stats :=
  mkStats (fun j => if decide (j = k) then u64 (counter t k + n) else counter t j)
    (max_gap_size t) (gap_histogram t).

(** [31 - countl_zero(gap)]. *)
Definition gap_bucket (gap : Z) : Z := if gap =? 0 then 0 else Z.log2 gap.

Definition record_gap (gap : Z) (t : Stats) : Stats :=
  mkStats (counter t) (if max_gap_size t <? gap then gap else max_gap_size t)
    (fun i => if i =? gap_bucket gap then u64 (gap_histogram t i + 1) else gap_histogram t i).

(** [operator-]: all counters and buckets wrap, the maximum is the later snapshot's. *)
Definition stats_sub (lhs rhs : Stats) : Stats :=
  mkStats (fun k => u64 (counter lhs k - counter rhs k)) (max_gap_size lhs)
    (fun i => u64 (gap_histogram lhs i - gap_histogram rhs i)).

(** ** The session *)

Record ReorderEntry := mkEntry {
  e_seq : Z;
  e_len : Z;
  e_data : list byte
}.

Record TcpSession := mkSession {
  config_ : TcpConfig;
  pool_ : bool;
  state_ : TcpState;
  pkt_template_ : PacketTemplate;
  snd_nxt_ : Z;
  snd_una_ : Z;
  rcv_nxt_ : Z;
  rcv_wnd_ : Z;
  snd_wnd_ : Z;
  effective_mss_ : Z;
  peer_mss_ : Z;
  peer_mss_negotiated_ : bool;
  reorder_buf_ : list ReorderEntry;
  stats_ : Stats;
  ack_pending_since_tsc_ : Z;
  time_wait_deadline_ : Z;
  syn_retransmit_at_ : Z;
  rx_feed_ : list byte;
  feed_only_ : bool;
  last_rx_tsc_ : Z;
  last_keepalive_tsc_ : Z;
  keepalive_misses_ : Z;
  last_rx_burst_tsc_ : Z;
  arp_refresh_gateway_ip_ : Z;
  arp_refresh_interval_ : Z;
  arp_next_refresh_ : Z
}.

(** Assignments to one member. *)
Definition set_config_ (v : TcpConfig) (s : TcpSession) : TcpSession :=
  mkSession v (pool_ s) (state_ s) (pkt_template_ s) (snd_nxt_ s) (snd_una_ s) (rcv_nxt_ s)
    (rcv_wnd_ s) (snd_wnd_ s) (effective_mss_ s) (peer_mss_ s) (peer_mss_negotiated_ s)
    (reorder_buf_ s) (stats_ s) (ack_pending_since_tsc_ s) (time_wait_deadline_ s)
    (syn_retransmit_at_ s) (rx_feed_ s) (feed_only_ s) (last_rx_tsc_ s) (last_keepalive_tsc_ s)
    (keepalive_misses_ s) (last_rx_burst_tsc_ s) (arp_refresh_gateway_ip_ s)
    (arp_refresh_interval_ s) (arp_next_refresh_ s).
Definition set_pool_ (v : bool) (s : TcpSession) : TcpSession :=
  mkSession (config_ s) v (state_ s) (pkt_template_ s) (snd_nxt_ s) (snd_una_ s) (rcv_nxt_ s)
    (rcv_wnd_ s) (snd_wnd_ s) (effective_mss_ s) (peer_mss_ s) (peer_mss_negotiated_ s)
    (reorder_buf_ s) (stats_ s) (ack_pending_since_tsc_ s) (time_wait_deadline_ s)
    (syn_retransmit_at_ s) (rx_feed_ s) (feed_only_ s) (last_rx_tsc_ s) (last_keepalive_tsc_ s)
    (keepalive_misses_ s) (last_rx_burst_tsc_ s) (arp_refresh_gateway_ip_ s)
    (arp_refresh_interval_ s) (arp_next_refresh_ s).
Definition set_state_ (v : TcpState) (s : TcpSession) : TcpSession :=
  mkSession (config_ s) (pool_ s) v (pkt_template_ s) (snd_nxt_ s) (snd_una_ s) (rcv_nxt_ s)
    (rcv_wnd_ s) (snd_wnd_ s) (effective_mss_ s) (peer_mss_ s) (peer_mss_negotiated_ s)
    (reorder_buf_ s) (stats_ s) (ack_pending_since_tsc_ s) (time_wait_deadline_ s)
    (syn_retransmit_at_ s) (rx_feed_ s) (feed_only_ s) (last_rx_tsc_ s) (last_keepalive_tsc_ s)
    (keepalive_misses_ s) (last_rx_burst_tsc_ s) (arp_refresh_gateway_ip_ s)
    (arp_refresh_interval_ s) (arp_next_refresh_ s).
Definition set_pkt_template_ (v : PacketTemplate) (s : TcpSession) : TcpSession :=
  mkSession (config_ s) (pool_ s) (state_ s) v (snd_nxt_ s) (snd_una_ s) (rcv_nxt_ s) (rcv_wnd_
    s) (snd_wnd_ s) (effective_mss_ s) (peer_mss_ s) (peer_mss_negotiated_ s) (reorder_buf_ s)
    (stats_ s) (ack_pending_since_tsc_ s) (time_wait_deadline_ s) (syn_retransmit_at_ s)
    (rx_feed_ s) (feed_only_ s) (last_rx_tsc_ s) (last_keepalive_tsc_ s) (keepalive_misses_ s)
    (last_rx_burst_tsc_ s) (arp_refresh_gateway_ip_ s) (arp_refresh_interval_ s)
    (arp_next_refresh_ s).
Definition set_snd_nxt_ (v : Z) (s : TcpSession) : TcpSession :=
  mkSession (config_ s) (pool_ s) (state_ s) (pkt_template_ s) v (snd_una_ s) (rcv_nxt_ s)
    (rcv_wnd_ s) (snd_wnd_ s) (effective_mss_ s) (peer_mss_ s) (peer_mss_negotiated_ s)
    (reorder_buf_ s) (stats_ s) (ack_pending_since_tsc_ s) (time_wait_deadline_ s)
    (syn_retransmit_at_ s) (rx_feed_ s) (feed_only_ s) (last_rx_tsc_ s) (last_keepalive_tsc_ s)
    (keepalive_misses_ s) (last_rx_burst_tsc_ s) (arp_refresh_gateway_ip_ s)
    (arp_refresh_interval_ s) (arp_next_refresh_ s).
Definition set_snd_una_ (v : Z) (s : TcpSession) : TcpSession :=
  mkSession (config_ s) (pool_ s) (state_ s) (pkt_template_ s) (snd_nxt_ s) v (rcv_nxt_ s)
    (rcv_wnd_ s) (snd_wnd_ s) (effective_mss_ s) (peer_mss_ s) (peer_mss_negotiated_ s)
    (reorder_buf_ s) (stats_ s) (ack_pending_since_tsc_ s) (time_wait_deadline_ s)
    (syn_retransmit_at_ s) (rx_feed_ s) (feed_only_ s) (last_rx_tsc_ s) (last_keepalive_tsc_ s)
    (keepalive_misses_ s) (last_rx_burst_tsc_ s) (arp_refresh_gateway_ip_ s)
    (arp_refresh_interval_ s) (arp_next_refresh_ s).
Definition set_rcv_nxt_ (v : Z) (s : TcpSession) : TcpSession :=
  mkSession (config_ s) (pool_ s) (state_ s) (pkt_template_ s) (snd_nxt_ s) (snd_una_ s) v
    (rcv_wnd_ s) (snd_wnd_ s) (effective_mss_ s) (peer_mss_ s) (peer_mss_negotiated_ s)
    (reorder_buf_ s) (stats_ s) (ack_pending_since_tsc_ s) (time_wait_deadline_ s)
    (syn_retransmit_at_ s) (rx_feed_ s) (feed_only_ s) (last_rx_tsc_ s) (last_keepalive_tsc_ s)
    (keepalive_misses_ s) (last_rx_burst_tsc_ s) (arp_refresh_gateway_ip_ s)
    (arp_refresh_interval_ s) (arp_next_refresh_ s).
Definition set_rcv_wnd_ (v : Z) (s : TcpSession) : TcpSession :=
  mkSession (config_ s) (pool_ s) (state_ s) (pkt_template_ s) (snd_nxt_ s) (snd_una_ s)
    (rcv_nxt_ s) v (snd_wnd_ s) (effective_mss_ s) (peer_mss_ s) (peer_mss_negotiated_ s)
    (reorder_buf_ s) (stats_ s) (ack_pending_since_tsc_ s) (time_wait_deadline_ s)
    (syn_retransmit_at_ s) (rx_feed_ s) (feed_only_ s) (last_rx_tsc_ s) (last_keepalive_tsc_ s)
    (keepalive_misses_ s) (last_rx_burst_tsc_ s) (arp_refresh_gateway_ip_ s)
    (arp_refresh_interval_ s) (arp_next_refresh_ s).
Definition set_snd_wnd_ (v : Z) (s : TcpSession) : TcpSession :=
  mkSession (config_ s) (pool_ s) (state_ s) (pkt_template_ s) (snd_nxt_ s) (snd_una_ s)
    (rcv_nxt_ s) (rcv_wnd_ s) v (effective_mss_ s) (peer_mss_ s) (peer_mss_negotiated_ s)
    (reorder_buf_ s) (stats_ s) (ack_pending_since_tsc_ s) (time_wait_deadline_ s)
    (syn_retransmit_at_ s) (rx_feed_ s) (feed_only_ s) (last_rx_tsc_ s) (last_keepalive_tsc_ s)
    (keepalive_misses_ s) (last_rx_burst_tsc_ s) (arp_refresh_gateway_ip_ s)
    (arp_refresh_interval_ s) (arp_next_refresh_ s).
Definition set_effective_mss_ (v : Z) (s : TcpSession) : TcpSession :=
  mkSession (config_ s) (pool_ s) (state_ s) (pkt_template_ s) (snd_nxt_ s) (snd_una_ s)
    (rcv_nxt_ s) (rcv_wnd_ s) (snd_wnd_ s) v (peer_mss_ s) (peer_mss_negotiated_ s)
    (reorder_buf_ s) (stats_ s) (ack_pending_since_tsc_ s) (time_wait_deadline_ s)
    (syn_retransmit_at_ s) (rx_feed_ s) (feed_only_ s) (last_rx_tsc_ s) (last_keepalive_tsc_ s)
    (keepalive_misses_ s) (last_rx_burst_tsc_ s) (arp_refresh_gateway_ip_ s)
    (arp_refresh_interval_ s) (arp_next_refresh_ s).
Definition set_peer_mss_ (v : Z) (s : TcpSession) : TcpSession :=
  mkSession (config_ s) (pool_ s) (state_ s) (pkt_template_ s) (snd_nxt_ s) (snd_una_ s)
    (rcv_nxt_ s) (rcv_wnd_ s) (snd_wnd_ s) (effective_mss_ s) v (peer_mss_negotiated_ s)
    (reorder_buf_ s) (stats_ s) (ack_pending_since_tsc_ s) (time_wait_deadline_ s)
    (syn_retransmit_at_ s) (rx_feed_ s) (feed_only_ s) (last_rx_tsc_ s) (last_keepalive_tsc_ s)
    (keepalive_misses_ s) (last_rx_burst_tsc_ s) (arp_refresh_gateway_ip_ s)
    (arp_refresh_interval_ s) (arp_next_refresh_ s).
Definition set_peer_mss_negotiated_ (v : bool) (s : TcpSession) : TcpSession :=
  mkSession (config_ s) (pool_ s) (state_ s) (pkt_template_ s) (snd_nxt_ s) (snd_una_ s)
    (rcv_nxt_ s) (rcv_wnd_ s) (snd_wnd_ s) (effective_mss_ s) (peer_mss_ s) v (reorder_buf_ s)
    (stats_ s) (ack_pending_since_tsc_ s) (time_wait_deadline_ s) (syn_retransmit_at_ s)
    (rx_feed_ s) (feed_only_ s) (last_rx_tsc_ s) (last_keepalive_tsc_ s) (keepalive_misses_ s)
    (last_rx_burst_tsc_ s) (arp_refresh_gateway_ip_ s) (arp_refresh_interval_ s)
    (arp_next_refresh_ s).
Definition set_reorder_buf_ (v : list ReorderEntry) (s : TcpSession) : TcpSession :=
  mkSession (config_ s) (pool_ s) (state_ s) (pkt_template_ s) (snd_nxt_ s) (snd_una_ s)
    (rcv_nxt_ s) (rcv_wnd_ s) (snd_wnd_ s) (effective_mss_ s) (peer_mss_ s)
    (peer_mss_negotiated_ s) v (stats_ s) (ack_pending_since_tsc_ s) (time_wait_deadline_ s)
    (syn_retransmit_at_ s) (rx_feed_ s) (feed_only_ s) (last_rx_tsc_ s) (last_keepalive_tsc_ s)
    (keepalive_misses_ s) (last_rx_burst_tsc_ s) (arp_refresh_gateway_ip_ s)
    (arp_refresh_interval_ s) (arp_next_refresh_ s).
Definition set_stats_ (v : Stats) (s : TcpSession) : TcpSession :=
  mkSession (config_ s) (pool_ s) (state_ s) (pkt_template_ s) (snd_nxt_ s) (snd_una_ s)
    (rcv_nxt_ s) (rcv_wnd_ s) (snd_wnd_ s) (effective_mss_ s) (peer_mss_ s)
    (peer_mss_negotiated_ s) (reorder_buf_ s) v (ack_pending_since_tsc_ s) (time_wait_deadline_
    s) (syn_retransmit_at_ s) (rx_feed_ s) (feed_only_ s) (last_rx_tsc_ s) (last_keepalive_tsc_
    s) (keepalive_misses_ s) (last_rx_burst_tsc_ s) (arp_refresh_gateway_ip_ s)
    (arp_refresh_interval_ s) (arp_next_refresh_ s).
Definition set_ack_pending_since_tsc_ (v : Z) (s : TcpSession) : TcpSession :=
  mkSession (config_ s) (pool_ s) (state_ s) (pkt_template_ s) (snd_nxt_ s) (snd_una_ s)
    (rcv_nxt_ s) (rcv_wnd_ s) (snd_wnd_ s) (effective_mss_ s) (peer_mss_ s)
    (peer_mss_negotiated_ s) (reorder_buf_ s) (stats_ s) v (time_wait_deadline_ s)
    (syn_retransmit_at_ s) (rx_feed_ s) (feed_only_ s) (last_rx_tsc_ s) (last_keepalive_tsc_ s)
    (keepalive_misses_ s) (last_rx_burst_tsc_ s) (arp_refresh_gateway_ip_ s)
    (arp_refresh_interval_ s) (arp_next_refresh_ s).
Definition set_time_wait_deadline_ (v : Z) (s : TcpSession) : TcpSession :=
  mkSession (config_ s) (pool_ s) (state_ s) (pkt_template_ s) (snd_nxt_ s) (snd_una_ s)
    (rcv_nxt_ s) (rcv_wnd_ s) (snd_wnd_ s) (effective_mss_ s) (peer_mss_ s)
    (peer_mss_negotiated_ s) (reorder_buf_ s) (stats_ s) (ack_pending_since_tsc_ s) v
    (syn_retransmit_at_ s) (rx_feed_ s) (feed_only_ s) (last_rx_tsc_ s) (last_keepalive_tsc_ s)
    (keepalive_misses_ s) (last_rx_burst_tsc_ s) (arp_refresh_gateway_ip_ s)
    (arp_refresh_interval_ s) (arp_next_refresh_ s).
Definition set_syn_retransmit_at_ (v : Z) (s : TcpSession) : TcpSession :=
  mkSession (config_ s) (pool_ s) (state_ s) (pkt_template_ s) (snd_nxt_ s) (snd_una_ s)
    (rcv_nxt_ s) (rcv_wnd_ s) (snd_wnd_ s) (effective_mss_ s) (peer_mss_ s)
    (peer_mss_negotiated_ s) (reorder_buf_ s) (stats_ s) (ack_pending_since_tsc_ s)
    (time_wait_deadline_ s) v (rx_feed_ s) (feed_only_ s) (last_rx_tsc_ s) (last_keepalive_tsc_
    s) (keepalive_misses_ s) (last_rx_burst_tsc_ s) (arp_refresh_gateway_ip_ s)
    (arp_refresh_interval_ s) (arp_next_refresh_ s).
Definition set_rx_feed_ (v : list byte) (s : TcpSession) : TcpSession :=
  mkSession (config_ s) (pool_ s) (state_ s) (pkt_template_ s) (snd_nxt_ s) (snd_una_ s)
    (rcv_nxt_ s) (rcv_wnd_ s) (snd_wnd_ s) (effective_mss_ s) (peer_mss_ s)
    (peer_mss_negotiated_ s) (reorder_buf_ s) (stats_ s) (ack_pending_since_tsc_ s)
    (time_wait_deadline_ s) (syn_retransmit_at_ s) v (feed_only_ s) (last_rx_tsc_ s)
    (last_keepalive_tsc_ s) (keepalive_misses_ s) (last_rx_burst_tsc_ s)
    (arp_refresh_gateway_ip_ s) (arp_refresh_interval_ s) (arp_next_refresh_ s).
Definition set_feed_only_ (v : bool) (s : TcpSession) : TcpSession :=
  mkSession (config_ s) (pool_ s) (state_ s) (pkt_template_ s) (snd_nxt_ s) (snd_una_ s)
    (rcv_nxt_ s) (rcv_wnd_ s) (snd_wnd_ s) (effective_mss_ s) (peer_mss_ s)
    (peer_mss_negotiated_ s) (reorder_buf_ s) (stats_ s) (ack_pending_since_tsc_ s)
    (time_wait_deadline_ s) (syn_retransmit_at_ s) (rx_feed_ s) v (last_rx_tsc_ s)
    (last_keepalive_tsc_ s) (keepalive_misses_ s) (last_rx_burst_tsc_ s)
    (arp_refresh_gateway_ip_ s) (arp_refresh_interval_ s) (arp_next_refresh_ s).
Definition set_last_rx_tsc_ (v : Z) (s : TcpSession) : TcpSession :=
  mkSession (config_ s) (pool_ s) (state_ s) (pkt_template_ s) (snd_nxt_ s) (snd_una_ s)
    (rcv_nxt_ s) (rcv_wnd_ s) (snd_wnd_ s) (effective_mss_ s) (peer_mss_ s)
    (peer_mss_negotiated_ s) (reorder_buf_ s) (stats_ s) (ack_pending_since_tsc_ s)
    (time_wait_deadline_ s) (syn_retransmit_at_ s) (rx_feed_ s) (feed_only_ s) v
    (last_keepalive_tsc_ s) (keepalive_misses_ s) (last_rx_burst_tsc_ s)
    (arp_refresh_gateway_ip_ s) (arp_refresh_interval_ s) (arp_next_refresh_ s).
Definition set_last_keepalive_tsc_ (v : Z) (s : TcpSession) : TcpSession :=
  mkSession (config_ s) (pool_ s) (state_ s) (pkt_template_ s) (snd_nxt_ s) (snd_una_ s)
    (rcv_nxt_ s) (rcv_wnd_ s) (snd_wnd_ s) (effective_mss_ s) (peer_mss_ s)
    (peer_mss_negotiated_ s) (reorder_buf_ s) (stats_ s) (ack_pending_since_tsc_ s)
    (time_wait_deadline_ s) (syn_retransmit_at_ s) (rx_feed_ s) (feed_only_ s) (last_rx_tsc_ s)
    v (keepalive_misses_ s) (last_rx_burst_tsc_ s) (arp_refresh_gateway_ip_ s)
    (arp_refresh_interval_ s) (arp_next_refresh_ s).
Definition set_keepalive_misses_ (v : Z) (s : TcpSession) : TcpSession :=
  mkSession (config_ s) (pool_ s) (state_ s) (pkt_template_ s) (snd_nxt_ s) (snd_una_ s)
    (rcv_nxt_ s) (rcv_wnd_ s) (snd_wnd_ s) (effective_mss_ s) (peer_mss_ s)
    (peer_mss_negotiated_ s) (reorder_buf_ s) (stats_ s) (ack_pending_since_tsc_ s)
    (time_wait_deadline_ s) (syn_retransmit_at_ s) (rx_feed_ s) (feed_only_ s) (last_rx_tsc_ s)
    (last_keepalive_tsc_ s) v (last_rx_burst_tsc_ s) (arp_refresh_gateway_ip_ s)
    (arp_refresh_interval_ s) (arp_next_refresh_ s).
Definition set_last_rx_burst_tsc_ (v : Z) (s : TcpSession) : TcpSession :=
  mkSession (config_ s) (pool_ s) (state_ s) (pkt_template_ s) (snd_nxt_ s) (snd_una_ s)
    (rcv_nxt_ s) (rcv_wnd_ s) (snd_wnd_ s) (effective_mss_ s) (peer_mss_ s)
    (peer_mss_negotiated_ s) (reorder_buf_ s) (stats_ s) (ack_pending_since_tsc_ s)
    (time_wait_deadline_ s) (syn_retransmit_at_ s) (rx_feed_ s) (feed_only_ s) (last_rx_tsc_ s)
    (last_keepalive_tsc_ s) (keepalive_misses_ s) v (arp_refresh_gateway_ip_ s)
    (arp_refresh_interval_ s) (arp_next_refresh_ s).
Definition set_arp_refresh_gateway_ip_ (v : Z) (s : TcpSession) : TcpSession :=
  mkSession (config_ s) (pool_ s) (state_ s) (pkt_template_ s) (snd_nxt_ s) (snd_una_ s)
    (rcv_nxt_ s) (rcv_wnd_ s) (snd_wnd_ s) (effective_mss_ s) (peer_mss_ s)
    (peer_mss_negotiated_ s) (reorder_buf_ s) (stats_ s) (ack_pending_since_tsc_ s)
    (time_wait_deadline_ s) (syn_retransmit_at_ s) (rx_feed_ s) (feed_only_ s) (last_rx_tsc_ s)
    (last_keepalive_tsc_ s) (keepalive_misses_ s) (last_rx_burst_tsc_ s) v
    (arp_refresh_interval_ s) (arp_next_refresh_ s).
Definition set_arp_refresh_interval_ (v : Z) (s : TcpSession) : TcpSession :=
  mkSession (config_ s) (pool_ s) (state_ s) (pkt_template_ s) (snd_nxt_ s) (snd_una_ s)
    (rcv_nxt_ s) (rcv_wnd_ s) (snd_wnd_ s) (effective_mss_ s) (peer_mss_ s)
    (peer_mss_negotiated_ s) (reorder_buf_ s) (stats_ s) (ack_pending_since_tsc_ s)
    (time_wait_deadline_ s) (syn_retransmit_at_ s) (rx_feed_ s) (feed_only_ s) (last_rx_tsc_ s)
    (last_keepalive_tsc_ s) (keepalive_misses_ s) (last_rx_burst_tsc_ s)
    (arp_refresh_gateway_ip_ s) v (arp_next_refresh_ s).
Definition set_arp_next_refresh_ (v : Z) (s : TcpSession) : TcpSession :=
  mkSession (config_ s) (pool_ s) (state_ s) (pkt_template_ s) (snd_nxt_ s) (snd_una_ s)
    (rcv_nxt_ s) (rcv_wnd_ s) (snd_wnd_ s) (effective_mss_ s) (peer_mss_ s)
    (peer_mss_negotiated_ s) (reorder_buf_ s) (stats_ s) (ack_pending_since_tsc_ s)
    (time_wait_deadline_ s) (syn_retransmit_at_ s) (rx_feed_ s) (feed_only_ s) (last_rx_tsc_ s)
    (last_keepalive_tsc_ s) (keepalive_misses_ s) (last_rx_burst_tsc_ s)
    (arp_refresh_gateway_ip_ s) (arp_refresh_interval_ s) v.

Definition bump (k : stat) (n : Z) (s : TcpSession) : TcpSession :=
  set_stats_ (stat_add k n (stats_ s)) s.

(** [kNever]: [steady_clock::time_point::max()], later than any time point. *)
Definition kNever : Z := 2 ^ 63 - 1.

(** The constructor; [isn] is the result of [generate_isn()]. *)
Definition session_init (c : TcpConfig) (pool : bool) (isn : option Z) : TcpSession :=
  let n := default 1 isn in
  mkSession c pool Closed
    (mkTemplate (c_src_mac c) (c_dst_mac c) (c_tuple c) 0 (c_mss c) false)
    n n 0 (u16 (c_recv_window c)) 0 (c_mss c) 0 false [] stats0 0 0 0 [] false 0 0 0 0 0 0 kNever.

(** Sequence number comparison on the 32-bit circle: [static_cast<int32_t>(a - b) > 0]. *)
Definition s32 (z : Z) : Z := if z <? 2 ^ 31 then z else z - 2 ^ 32.
Definition seq_after (a b : Z) : bool := 0 <? s32 (u32 (a - b)).

Definition should_rst_on_destroy_ (s : TcpState) : bool :=
  match s with
  | Established | SynSent | SynReceived | CloseWait => true
  | Closed | Listen | FinWait1 | FinWait2 | Closing | LastAck | TimeWait => false
  end.

(** The causes behind [ErrorInfo]. *)
Inductive SessionError :=
| ETimeWait | ENotClosed | EIsn | ESynAlloc | ESynTx | ENotSynSent | ERefused | EConnectTimeout
| ENotEstablished | ETooLarge | EAlloc | ETx | EReset | EReorderFull | EBadCloseState.

Definition error_code (e : SessionError) : Error :=
  match e with
  | ETimeWait | ENotClosed | ENotSynSent | ETooLarge | EBadCloseState => InvalidConfig
  | EIsn | ESynAlloc | EAlloc => OutOfMemory
  | ESynTx | ETx => BufferFull
  | ERefused => ConnectFailed
  | EConnectTimeout => Timeout
  | ENotEstablished | EReset | EReorderFull => Disconnected
  end.

(** What one call sees of the world: the mbuf allocation, whether [tx_burst] accepted the
    packet, [steady_clock::now()] in nanoseconds, [TSC::now()] and [ack_delay_cycles_()]. *)
Record Env := mkEnv {
  alloc : option fresh_mbuf;
  tx_ok : bool;
  now_ns : Z;
  now_tsc : Z;
  ack_delay : Z
}.

Section session.
Context (rte_ipv4_phdr_cksum : list byte -> Z -> Z).
Context (RTE_MBUF_F_TX_IP_CKSUM RTE_MBUF_F_TX_TCP_CKSUM : Z).
(** The template parameter, at most 255. *)
Context (ReorderSlots : Z).
(** [TSC::to_cycles] of a number of nanoseconds, and [static_cast<uint64_t>(ns * 3.0)]
    saturated, as computed in floating point. *)
Context (to_cycles : Z -> option Z) (fallback_cycles : Z -> Z).

(** ** Transmitting one packet

    [build_packet] followed by [rte_eth_tx_burst] of that one mbuf, which is freed when
    the NIC does not take it. *)
Inductive tx_result := TxNoMbuf | TxRejected | TxSent (wire : list byte).

Definition transmit (e : Env) (seq ack flags window : Z) (payload : option (list byte)) (len : Z)
    (s : TcpSession) : option (TcpSession * tx_result) :=
  let pool := if pool_ s then match alloc e with Some f => Alloc f | None => Exhausted end else NullPool in
  '(t, r) ← build_packet rte_ipv4_phdr_cksum RTE_MBUF_F_TX_IP_CKSUM RTE_MBUF_F_TX_TCP_CKSUM
              (pkt_template_ s) pool seq ack flags window payload len;
  let s := set_pkt_template_ t s in
  match r with
  | NoMbuf | Freed => Some (s, TxNoMbuf)
  | Built m => Some (s, if tx_ok e then TxSent (tx_data m) else TxRejected)
  end.

Definition send_ack (e : Env) (s : TcpSession)
    : option (TcpSession * list (list byte) * expected unit SessionError) :=
  '(s, r) ← transmit e (snd_nxt_ s) (rcv_nxt_ s) kTcpAck (rcv_wnd_ s) None 0 s;
  match r with
  | TxNoMbuf => Some (s, [], Err EAlloc)
  | TxRejected => Some (s, [], Err ETx)
  | TxSent w => Some (bump tx_packets 1 (bump acks_sent 1 s), [w], Ok tt)
  end.

(** ** Connection establishment *)

Definition kSynRetransmitInterval : Z := 200 * 1000000.

(** A fresh start from the initial sequence number [n]. *)
Definition restart (n : Z) (s : TcpSession) : TcpSession :=
  set_snd_nxt_ n (set_snd_una_ n (set_rcv_nxt_ 0 (set_reorder_buf_ []
    (set_ack_pending_since_tsc_ 0 (set_effective_mss_ (c_mss (config_ s)) (set_peer_mss_ 0
    (set_peer_mss_negotiated_ false (set_last_rx_tsc_ 0 (set_last_keepalive_tsc_ 0
    (set_keepalive_misses_ 0 s)))))))))).

Definition begin_connect (e : Env) (isn : option Z) (s : TcpSession)
    : option (TcpSession * list (list byte) * expected unit SessionError) :=
  let expired := time_wait_deadline_ s <=? now_ns e in
  if bool_decide (state_ s = TimeWait) && negb expired then Some (s, [], Err ETimeWait) else
  let s := if bool_decide (state_ s = TimeWait) then set_state_ Closed s else s in
  if negb (bool_decide (state_ s = Closed)) then Some (s, [], Err ENotClosed) else
  match isn with
  | None => Some (s, [], Err EIsn)
  | Some n =>
    let s := restart n s in
    '(s, r) ← transmit e (snd_nxt_ s) 0 kTcpSyn (rcv_wnd_ s) None 0 s;
    match r with
    | TxNoMbuf => Some (s, [], Err ESynAlloc)
    | TxRejected => Some (s, [], Err ESynTx)
    | TxSent w =>
      let s := bump tx_packets 1 s in
      let s := set_snd_nxt_ (u32 (snd_nxt_ s + 1)) (set_state_ SynSent s) in
      let s := set_syn_retransmit_at_ (now_ns e + kSynRetransmitInterval) s in
      Some (s, [w], Ok tt)
    end
  end.

Definition maybe_retransmit_syn_ (e : Env) (s : TcpSession) : option (TcpSession * list (list byte)) :=
  if syn_retransmit_at_ s <=? now_ns e then
    '(s, r) ← transmit e (u32 (snd_nxt_ s - 1)) 0 kTcpSyn (rcv_wnd_ s) None 0 s;
    let '(s, out) := match r with
                     | TxSent w => (bump tx_packets 1 s, [w])
                     | _ => (s, [])
                     end in
    Some (set_syn_retransmit_at_ (now_ns e + kSynRetransmitInterval) s, out)
  else Some (s, []).

(** The SYN-ACK: sequence state, window and MSS negotiation. *)
Definition accept_syn_ack (p : Segment) (s : TcpSession) : TcpSession :=
  let s := set_rcv_nxt_ (u32 (sg_seq p + 1)) s in
  let s := set_snd_una_ (sg_ack p) s in
  let s := set_snd_wnd_ (sg_window p) s in
  let o := sg_options p in
  if has_mss o && (0 <? opt_mss o) then
    let before := effective_mss_ s in
    let s := set_peer_mss_ (opt_mss o) s in
    let s := set_effective_mss_ (Z.min (effective_mss_ s) (opt_mss o)) s in
    let s := set_peer_mss_negotiated_ true s in
    if effective_mss_ s <? before then bump mss_negotiations_applied 1 s else s
  else s.

(** [handle_handshake_burst_]: [i] counts the packets looked at; every mbuf is freed.
    The result says which, in order. *)
Fixpoint handle_handshake_burst_ (e : Env) (i : nat) (pkts : list mbuf) (s : TcpSession)
    : option (TcpSession * list (list byte) * list nat * expected bool SessionError) :=
  match pkts with
  | [] => Some (s, [], [], Ok false)
  | m :: rest =>
    let skip s := '(s, out, freed, r) ← handle_handshake_burst_ e (S i) rest s;
                  Some (s, out, i :: freed, r) in
    let all_freed := i :: seq (S i) (length rest) in
    v ← view m;
    match v with
    | None => skip s
    | Some p =>
      if negb (matches p (c_tuple (config_ s))) then skip s else
      let s := bump rx_packets 1 s in
      if has_flag p kTcpRst then
        let s := bump resets_received 1 (set_state_ Closed s) in
        Some (s, [], all_freed, Err ERefused)
      else if has_flag p kTcpSyn && has_flag p kTcpAck then
        if negb (sg_ack p =? snd_nxt_ s) then skip s
        else
          let s := accept_syn_ack p s in
          '(s, out, r) ← send_ack e s;
          match r with
          | Err err => Some (s, out, all_freed, Err err)
          | Ok _ => Some (set_state_ Established s, out, all_freed, Ok true)
          end
      else skip s
    end
  end.

(** [connect_step], with the burst it polled or was handed; [e] for the retransmission,
    [e'] for the final ACK.  Without [SynSent] the mbufs are not touched. *)
Definition connect_step (e e' : Env) (pkts : list mbuf) (s : TcpSession)
    : option (TcpSession * list (list byte) * list nat * expected bool SessionError) :=
  if bool_decide (state_ s = Established) then Some (s, [], [], Ok true)
  else if negb (bool_decide (state_ s = SynSent)) then Some (s, [], [], Err ENotSynSent)
  else
    '(s, out) ← maybe_retransmit_syn_ e s;
    '(s, out', freed, r) ← handle_handshake_burst_ e' 0 pkts s;
    Some (s, out ++ out', freed, r).

(** The polling loop of [connect]: one entry per round before the deadline. *)
Fixpoint connect_loop (rounds : list (Env * Env * list mbuf)) (s : TcpSession)
    : option (TcpSession * list (list byte) * expected unit SessionError) :=
  match rounds with
  | [] => Some (set_state_ Closed s, [], Err EConnectTimeout)
  | (e, e', pkts) :: rest =>
    '(s, out, _, r) ← connect_step e e' pkts s;
    match r with
    | Err err => Some (s, out, Err err)
    | Ok true => Some (s, out, Ok tt)
    | Ok false => '(s, out', r) ← connect_loop rest s; Some (s, out ++ out', r)
    end
  end.

Definition connect (e : Env) (isn : option Z) (rounds : list (Env * Env * list mbuf)) (s : TcpSession)
    : option (TcpSession * list (list byte) * expected unit SessionError) :=
  '(s, out, r) ← begin_connect e isn s;
  match r with
  | Err err => Some (s, out, Err err)
  | Ok _ => '(s, out', r) ← connect_loop rounds s; Some (s, out ++ out', r)
  end.

(** ** Sending *)

Definition send (e : Env) (data : list byte) (s : TcpSession)
    : option (TcpSession * list (list byte) * expected Z SessionError) :=
  let len := zlen data in
  if negb (bool_decide (state_ s = Established)) then Some (s, [], Err ENotEstablished)
  else if effective_mss_ s <? len then Some (s, [], Err ETooLarge)
  else
    '(s, r) ← transmit e (snd_nxt_ s) (rcv_nxt_ s) (Z.lor kTcpAck kTcpPsh) (rcv_wnd_ s)
                (Some data) (u16 len) s;
    match r with
    | TxNoMbuf => Some (s, [], Err EAlloc)
    | TxRejected => Some (s, [], Err ETx)
    | TxSent w =>
      let s := set_ack_pending_since_tsc_ 0 s in
      let s := set_snd_nxt_ (u32 (snd_nxt_ s + u32 len)) s in
      let s := bump tx_bytes len (bump tx_packets 1 s) in
      Some (s, [w], Ok len)
    end.

(** [total_payload_len_]: a 32-bit sum. *)
Definition total_payload_len_ (lengths : list Z) (n : nat) : Z :=
  foldl (fun total l => u32 (total + l)) 0 (take n lengths).

(** The preparing loop of [send_batch]: packets built and their lengths. *)
Fixpoint prepare_batch (allocs : list (option fresh_mbuf)) (segments : list (list byte))
    (mbufs : list (list byte)) (seg_lengths : list Z) (s : TcpSession)
    : option (TcpSession * list (list byte) * list Z) :=
  match segments with
  | [] => Some (s, mbufs, seg_lengths)
  | d :: rest =>
    if effective_mss_ s <? zlen d then Some (s, mbufs, seg_lengths) else
    let pool := if pool_ s then match head allocs with Some (Some f) => Alloc f | _ => Exhausted end
                else NullPool in
    '(t, r) ← build_packet rte_ipv4_phdr_cksum RTE_MBUF_F_TX_IP_CKSUM RTE_MBUF_F_TX_TCP_CKSUM
                (pkt_template_ s) pool
                (u32 (snd_nxt_ s + total_payload_len_ seg_lengths (length mbufs))) (rcv_nxt_ s)
                (Z.lor kTcpAck kTcpPsh) (rcv_wnd_ s) (Some d) (zlen d);
    let s := set_pkt_template_ t s in
    match r with
    | NoMbuf | Freed => Some (s, mbufs, seg_lengths)
    | Built m => prepare_batch (tail allocs) rest (mbufs ++ [tx_data m]) (seg_lengths ++ [zlen d]) s
    end
  end.

Definition kMaxBatchSize : nat := 32.

(** [burst n] is what [rte_eth_tx_burst] accepts of [n] packets.  The result: sent and
    requested numbers of segments. *)
Definition send_batch (allocs : list (option fresh_mbuf)) (burst : nat -> nat)
    (segments : list (list byte)) (s : TcpSession)
    : option (TcpSession * list (list byte) * (nat * nat)) :=
  let original_count := length segments in
  if negb (bool_decide (state_ s = Established)) then Some (s, [], (0%nat, original_count)) else
  '(s, mbufs, seg_lengths) ← prepare_batch allocs (take kMaxBatchSize segments) [] [] s;
  let prepared := length mbufs in
  if decide (prepared = 0%nat) then Some (s, [], (0%nat, original_count)) else
  let sent := burst prepared in
  let sent_bytes := total_payload_len_ seg_lengths sent in
  let s := set_snd_nxt_ (u32 (snd_nxt_ s + sent_bytes)) s in
  let s := bump tx_bytes sent_bytes (bump tx_packets (Z.of_nat sent) s) in
  let s := if decide (0 < sent)%nat then set_ack_pending_since_tsc_ 0 s else s in
  Some (s, take sent mbufs, (sent, original_count)).

(** [build_data_packet] into a caller's mbuf: the packet to transmit, if any. *)
Definition build_data_packet (mbuf : option fresh_mbuf) (data : list byte) (s : TcpSession)
    : option (TcpSession * option (list byte)) :=
  let len := zlen data in
  if negb (bool_decide (state_ s = Established)) || (effective_mss_ s <? len) then Some (s, None) else
  '(t, written, m) ← fill_packet rte_ipv4_phdr_cksum RTE_MBUF_F_TX_IP_CKSUM RTE_MBUF_F_TX_TCP_CKSUM
                       (pkt_template_ s) mbuf (snd_nxt_ s) (rcv_nxt_ s)
                       (Z.lor kTcpAck kTcpPsh) (rcv_wnd_ s) (Some data) len;
  let s := set_pkt_template_ t s in
  match m with
  | None => Some (s, None)
  | Some m =>
    if written =? 0 then Some (s, None) else
    let s := set_snd_nxt_ (u32 (snd_nxt_ s + len)) s in
    let s := bump tx_bytes len (bump tx_packets 1 s) in
    Some (s, Some (tx_data m))
  end.

(** ** Receiving *)

Definition enter_time_wait (e : Env) (s : TcpSession) : TcpSession :=
  set_time_wait_deadline_ (now_ns e + 2 * (60 * 1000000000)) (set_state_ TimeWait s).

(** The index of the first buffered segment that starts at [seq]. *)
Fixpoint find_entry (seq : Z) (buf : list ReorderEntry) : option nat :=
  match buf with
  | [] => None
  | x :: t => if e_seq x =? seq then Some 0%nat else i ← find_entry seq t; Some (S i)
  end.

(** [buf[i] = buf[--count]]. *)
Definition swap_remove (i : nat) (buf : list ReorderEntry) : list ReorderEntry :=
  match list.last buf with
  | None => buf
  | Some x => <[i := x]> (removelast buf)
  end.

(** [drain_reorder_buf]: the chunks delivered, in order.  Every round removes an entry. *)
Fixpoint drain_reorder_buf (fuel : nat) (s : TcpSession) : TcpSession * list (list byte) :=
  match fuel with
  | O => (s, [])
  | S f =>
    match find_entry (rcv_nxt_ s) (reorder_buf_ s) with
    | None => (s, [])
    | Some i =>
      match reorder_buf_ s !! i with
      | None => (s, [])
      | Some x =>
        let s := set_rcv_nxt_ (u32 (rcv_nxt_ s + e_len x)) s in
        let s := bump rx_bytes (e_len x) s in
        let s := set_reorder_buf_ (swap_remove i (reorder_buf_ s)) s in
        let '(s, out) := drain_reorder_buf f s in
        (s, e_data x :: out)
      end
    end
  end.

Definition rst_in_window (seq : Z) (s : TcpSession) : bool :=
  (seq =? rcv_nxt_ s) ||
  (seq_after seq (rcv_nxt_ s) && negb (seq_after seq (u32 (rcv_nxt_ s + rcv_wnd_ s)))).

(** The acknowledgment block. *)
Definition handle_ack (e : Env) (p : Segment) (s : TcpSession) : TcpSession :=
  let peer_ack := sg_ack p in
  let s := if seq_after peer_ack (snd_una_ s) && negb (seq_after peer_ack (snd_nxt_ s))
           then set_snd_una_ peer_ack s else s in
  let s := set_snd_wnd_ (sg_window p) s in
  if snd_una_ s =? snd_nxt_ s then
    match state_ s with
    | FinWait1 => set_state_ FinWait2 s
    | Closing => enter_time_wait e s
    | LastAck => set_state_ Closed s
    | _ => s
    end
  else s.

Definition receives_data (st : TcpState) : bool :=
  match st with
  | Established | FinWait1 | FinWait2 | CloseWait | Closing => true
  | _ => false
  end.

(** What a block of the receive loop decides: go on with the next block, take the next
    packet, or leave [process_rx] with an error. *)
Inductive rx_flow := Next | Skip | AbortRx (e : SessionError).

(** Out-of-order payload: buffer, drop or give up. *)
Definition handle_out_of_order (p : Segment) (s : TcpSession) : TcpSession * rx_flow :=
  let seg_seq := sg_seq p in
  let s := bump out_of_order 1 s in
  let s := if seq_after seg_seq (rcv_nxt_ s)
           then set_stats_ (record_gap (u32 (seg_seq - rcv_nxt_ s)) (stats_ s)) s else s in
  if kDefaultMss <? sg_payload_len p then (s, Skip) else
  match sg_payload p with
  | Some bytes =>
    if seq_after seg_seq (rcv_nxt_ s) && (zlen (reorder_buf_ s) <? ReorderSlots) &&
       (sg_payload_len p <=? kDefaultMss)
    then (set_reorder_buf_ (reorder_buf_ s ++ [mkEntry seg_seq (sg_payload_len p) bytes])
            (bump reorder_hits 1 s), Skip)
    else if negb (seq_after seg_seq (rcv_nxt_ s)) then (bump dup_segments 1 s, Skip)
    else (bump reorder_overflows 1 s, AbortRx EReorderFull)
  | None =>
    if negb (seq_after seg_seq (rcv_nxt_ s)) then (bump dup_segments 1 s, Skip)
    else (bump reorder_overflows 1 s, AbortRx EReorderFull)
  end.

(** The data block: chunks delivered, data packets counted, whether an ACK is owed. *)
Definition handle_data (p : Segment) (s : TcpSession)
    : TcpSession * list (list byte) * Z * bool * rx_flow :=
  if negb (receives_data (state_ s)) then (s, [], 0, false, Next) else
  if negb (sg_seq p =? rcv_nxt_ s) && (0 <? sg_payload_len p) then
    let '(s, flow) := handle_out_of_order p s in (s, [], 0, false, flow)
  else
    match sg_payload p with
    | Some bytes =>
      if 0 <? sg_payload_len p then
        let s := set_rcv_nxt_ (u32 (rcv_nxt_ s + sg_payload_len p)) s in
        let s := bump rx_bytes (sg_payload_len p) s in
        let '(s, more) := drain_reorder_buf (S (length (reorder_buf_ s))) s in
        (s, bytes :: more, 1 + zlen more, true, Next)
      else (s, [], 0, false, Next)
    | None => (s, [], 0, false, Next)
    end.

(** The FIN block; the flag says whether an ACK is owed. *)
Definition handle_fin (e : Env) (p : Segment) (s : TcpSession) : TcpSession * bool :=
  let fin_seq := u32 (sg_seq p + sg_payload_len p) in
  if fin_seq =? rcv_nxt_ s then
    let advance s := set_rcv_nxt_ (u32 (rcv_nxt_ s + 1)) s in
    match state_ s with
    | Established => (set_state_ CloseWait (advance s), true)
    | FinWait1 =>
        let s := advance s in
        (if snd_una_ s =? snd_nxt_ s then enter_time_wait e s else set_state_ Closing s, true)
    | Closing | FinWait2 => (enter_time_wait e (advance s), true)
    | _ => (s, false)
    end
  else (s, false).

(** One packet that parsed and matches the connection. *)
Definition process_segment (e : Env) (p : Segment) (s : TcpSession)
    : TcpSession * list (list byte) * Z * bool * rx_flow :=
  let s := bump rx_packets 1 s in
  let s := set_keepalive_misses_ 0 (set_last_rx_tsc_ (last_rx_burst_tsc_ s) s) in
  if has_flag p kTcpRst then
    if rst_in_window (sg_seq p) s
    then (bump resets_received 1 (set_state_ Closed s), [], 0, false, AbortRx EReset)
    else (s, [], 0, false, Skip)
  else
    let s := if has_flag p kTcpAck then handle_ack e p s else s in
    let '(s, out, count, owed, flow) := handle_data p s in
    match flow with
    | Next =>
        if has_flag p kTcpFin
        then let '(s, owed') := handle_fin e p s in (s, out, count, owed || owed', Next)
        else (s, out, count, owed, Next)
    | _ => (s, out, count, owed, flow)
    end.

(** [free_list] has room for [kRxBurstSize] mbufs: storing one more is out of bounds. *)
Definition push_free (free_list : list nat) (i : nat) : option (list nat) :=
  if zlen free_list <? kRxBurstSize then Some (free_list ++ [i]) else None.

Record rx_result := mkRx {
  rx_session : TcpSession;
  rx_chunks : list (list byte);
  rx_freed : list nat;
  rx_value : expected Z SessionError
}.

(** The loop of [process_rx] from packet [i]; [data_count], [need_ack] and [free_list] are
    its local variables. *)
Fixpoint process_loop (e : Env) (i : nat) (pkts : list mbuf) (free_list : list nat)
    (data_count : Z) (need_ack : bool) (s : TcpSession) : option rx_result :=
  match pkts with
  | [] =>
    let s := if need_ack && (ack_pending_since_tsc_ s =? 0)
             then set_ack_pending_since_tsc_ (now_tsc e) s else s in
    Some (mkRx s [] free_list (Ok data_count))
  | m :: rest =>
    v ← view m;
    let drop s :=
      fl ← push_free free_list i; process_loop e (S i) rest fl data_count need_ack s in
    match v with
    | None =>
      frag ← is_ip_fragment (Some m);
      drop (bump (if (frag : bool) then fragment_rejected else packets_dropped) 1 s)
    | Some p =>
      if negb (matches p (c_tuple (config_ s))) then drop (bump packets_dropped 1 s) else
      let '(s, out, count, owed, flow) := process_segment e p s in
      match flow with
      | AbortRx err =>
        fl ← push_free free_list i;
        Some (mkRx s out (seq (S i) (length rest) ++ fl) (Err err))
      | _ =>
        fl ← push_free free_list i;
        r ← process_loop e (S i) rest fl (u16 (data_count + count)) (need_ack || owed) s;
        Some (mkRx (rx_session r) (out ++ rx_chunks r) (rx_freed r) (rx_value r))
      end
    end
  end.

Definition process_rx (e : Env) (pkts : list mbuf) (s : TcpSession) : option rx_result :=
  process_loop e 0 pkts [] 0 false s.

(** ** ICMP, keepalive, delayed ACK *)

Definition on_icmp_frag_needed (next_hop_mtu : Z) (s : TcpSession) : TcpSession :=
  let s := bump icmp_frag_needed_received 1 s in
  let kMinHeaders := kIpv4HeaderLen + kTcpHeaderLen in
  if next_hop_mtu <=? kMinHeaders then s
  else set_effective_mss_ (Z.min (effective_mss_ s) (u16 (next_hop_mtu - kMinHeaders))) s.

(** [keepalive_interval_cycles_]: milliseconds to nanoseconds to cycles. *)
Definition keepalive_interval_cycles_ (s : TcpSession) : TcpSession * Z :=
  let ns := c_keepalive_interval (config_ s) * 1000000 in
  match to_cycles ns with
  | Some c => (s, c)
  | None => (bump numerical_anomalies 1 s, fallback_cycles ns)
  end.

Definition send_keepalive_probe_ (e : Env) (s : TcpSession)
    : option (TcpSession * list (list byte) * expected unit SessionError) :=
  '(s, r) ← transmit e (u32 (snd_nxt_ s - 1)) (rcv_nxt_ s) kTcpAck (rcv_wnd_ s) None 0 s;
  match r with
  | TxNoMbuf => Some (s, [], Err EAlloc)
  | TxRejected => Some (s, [], Err ETx)
  | TxSent w => Some (bump tx_packets 1 s, [w], Ok tt)
  end.

Definition tick_keepalive (e : Env) (tsc : Z) (s : TcpSession)
    : option (TcpSession * list (list byte)) :=
  if c_keepalive_interval (config_ s) =? 0 then Some (s, [])
  else if negb (bool_decide (state_ s = Established)) then Some (s, [])
  else if last_rx_tsc_ s =? 0 then Some (set_last_rx_tsc_ tsc s, [])
  else
    let '(s, interval_cycles) := keepalive_interval_cycles_ s in
    if u64 (tsc - last_rx_tsc_ s) <? interval_cycles then Some (s, [])
    else if negb (last_keepalive_tsc_ s =? 0) &&
            (u64 (tsc - last_keepalive_tsc_ s) <? interval_cycles) then Some (s, [])
    else if c_keepalive_probes (config_ s) <=? keepalive_misses_ s then Some (set_state_ Closed s, [])
    else
      '(s, out, r) ← send_keepalive_probe_ e s;
      let s := set_last_keepalive_tsc_ tsc s in
      let s := set_keepalive_misses_ (u8 (keepalive_misses_ s + 1)) s in
      Some (bump (match r with Ok _ => keepalive_probes_sent | Err _ => keepalive_send_failures end) 1 s,
            out).

Definition flush_pending_ack (e : Env) (s : TcpSession) : option (TcpSession * list (list byte)) :=
  if negb (ack_timer_expired (ack_pending_since_tsc_ s) (now_tsc e) (ack_delay e)) then Some (s, []) else
  '(s, out, r) ← send_ack e s;
  match r with
  | Err _ => Some (s, out)
  | Ok _ => Some (set_ack_pending_since_tsc_ 0 s, out)
  end.

(** ** Polling *)

Definition feed_rx (data : list byte) (s : TcpSession) : TcpSession :=
  set_rx_feed_ (rx_feed_ s ++ data) s.

Definition set_feed_only (v : bool) (s : TcpSession) : TcpSession := set_feed_only_ v s.

(** Chunks of at most 0xFFFF bytes of the fed payload. *)
Fixpoint feed_chunks (fuel : nat) (feed : list byte) : list (list byte) :=
  match fuel, feed with
  | S f, _ :: _ => take (Z.to_nat 0xFFFF) feed :: feed_chunks f (drop (Z.to_nat 0xFFFF) feed)
  | _, _ => []
  end.

Definition burst_limit (c : TcpConfig) : Z :=
  if 0 <? c_max_rx_burst c then c_max_rx_burst c
  else if 0 <? c_mss c then Z.min kRxBurstSize (u16 (kDefaultRxBudgetBytes / c_mss c))
  else kRxBurstSize.

(** [rx n] is the burst [rte_eth_rx_burst] returns when asked for at most [n] packets. *)
Definition poll_rx (e : Env) (rx : Z -> list mbuf) (s : TcpSession)
    : option (rx_result * list (list byte)) :=
  match rx_feed_ s with
  | _ :: _ =>
    let chunks := feed_chunks (length (rx_feed_ s)) (rx_feed_ s) in
    Some (mkRx (set_rx_feed_ [] s) chunks [] (Ok (u16 (zlen chunks))), [])
  | [] =>
    if feed_only_ s then
      '(s, out) ← flush_pending_ack e s; Some (mkRx s [] [] (Ok 0), out)
    else
      match rx (burst_limit (config_ s)) with
      | [] => '(s, out) ← flush_pending_ack e s; Some (mkRx s [] [] (Ok 0), out)
      | pkts =>
        let s := bump rx_bursts 1 s in
        let s := set_last_rx_burst_tsc_ (now_tsc e) s in
        r ← process_rx e pkts s; Some (r, [])
      end
  end.

Definition set_last_rx_burst_tsc (tsc : Z) (s : TcpSession) : TcpSession := set_last_rx_burst_tsc_ tsc s.

(** ** Closing *)

Definition close (e : Env) (s : TcpSession)
    : option (TcpSession * list (list byte) * expected unit SessionError) :=
  if negb (bool_decide (state_ s = Established)) && negb (bool_decide (state_ s = CloseWait))
  then Some (s, [], Err EBadCloseState)
  else
    '(s, r) ← transmit e (snd_nxt_ s) (rcv_nxt_ s) (Z.lor kTcpFin kTcpAck) (rcv_wnd_ s) None 0 s;
    match r with
    | TxNoMbuf => Some (s, [], Err EAlloc)
    | TxRejected => Some (s, [], Err ETx)
    | TxSent w =>
      let s := bump tx_packets 1 (set_snd_nxt_ (u32 (snd_nxt_ s + 1)) s) in
      let s := if bool_decide (state_ s = Established) then set_state_ FinWait1 s
               else set_state_ LastAck s in
      Some (s, [w], Ok tt)
    end.

(** What [reset] clears of the dead connection. *)
Definition forget_peer (s : TcpSession) : TcpSession :=
  set_state_ Closed (set_reorder_buf_ [] (set_ack_pending_since_tsc_ 0 (set_snd_wnd_ 0
    (set_rcv_nxt_ 0 (set_last_rx_tsc_ 0 (set_last_keepalive_tsc_ 0 (set_keepalive_misses_ 0
    (set_effective_mss_ (c_mss (config_ s)) (set_peer_mss_ 0
    (set_peer_mss_negotiated_ false s)))))))))).

Definition reset (e : Env) (s : TcpSession) : option (TcpSession * list (list byte)) :=
  '(s, r) ← transmit e (snd_nxt_ s) (rcv_nxt_ s) (Z.lor kTcpRst kTcpAck) 0 None 0 s;
  let '(s, out) := match r with
                   | TxSent w => (bump tx_packets 1 s, [w])
                   | _ => (s, [])
                   end in
  let s := forget_peer s in
  Some (s, out).

(** The destructor: a best-effort RST, or nothing. *)
Definition destroy (e : Env) (s : TcpSession) : option (list (list byte)) :=
  if negb (should_rst_on_destroy_ (state_ s)) then Some []
  else if negb (pool_ s) then Some []
  else '(_, out) ← reset e s; Some out.

(** ** Moves

    The move constructor leaves the members it does not mention at their defaults; both
    moves leave [other] without pool, state, buffered segments and pending ACK. *)

Definition moved_from (other : TcpSession) : TcpSession :=
  set_pool_ false (set_state_ Closed (set_reorder_buf_ [] (set_ack_pending_since_tsc_ 0 other))).

Definition move_construct (other : TcpSession) : TcpSession * TcpSession :=
  (mkSession (config_ other) (pool_ other) (state_ other) (pkt_template_ other)
     (snd_nxt_ other) (snd_una_ other) (rcv_nxt_ other) (rcv_wnd_ other) (snd_wnd_ other)
     (effective_mss_ other) (peer_mss_ other) (peer_mss_negotiated_ other) (reorder_buf_ other)
     (stats_ other) (ack_pending_since_tsc_ other) (time_wait_deadline_ other)
     0 [] false (last_rx_tsc_ other) (last_keepalive_tsc_ other) (keepalive_misses_ other)
     (last_rx_burst_tsc_ other) 0 0 kNever,
   moved_from other).

Definition move_assign (e : Env) (this other : TcpSession)
    : option (TcpSession * TcpSession * list (list byte)) :=
  '(this, out) ← (if should_rst_on_destroy_ (state_ this) && pool_ this then reset e this
                  else Some (this, []));
  Some (mkSession (config_ other) (pool_ other) (state_ other) (pkt_template_ other)
     (snd_nxt_ other) (snd_una_ other) (rcv_nxt_ other) (rcv_wnd_ other) (snd_wnd_ other)
     (effective_mss_ other) (peer_mss_ other) (peer_mss_negotiated_ other) (reorder_buf_ other)
     (stats_ other) (ack_pending_since_tsc_ other) (time_wait_deadline_ other)
     (syn_retransmit_at_ other) (rx_feed_ other) (feed_only_ other)
     (last_rx_tsc_ other) (last_keepalive_tsc_ other) (keepalive_misses_ other)
     (last_rx_burst_tsc_ other) (arp_refresh_gateway_ip_ this) (arp_refresh_interval_ this)
     (arp_next_refresh_ this),
   set_rx_feed_ [] (moved_from other), out).

(** ** ARP refresh *)

Definition set_arp_refresh (e : Env) (gateway_ip interval : Z) (s : TcpSession) : TcpSession :=
  let s := set_arp_refresh_interval_ interval (set_arp_refresh_gateway_ip_ gateway_ip s) in
  if 0 <? interval then set_arp_next_refresh_ (now_ns e + interval * 1000000000) s
  else set_arp_next_refresh_ kNever s.

End session.

(** Evaluate the members of an updated session. *)
Ltac fields := cbn [config_ pool_ state_ pkt_template_ snd_nxt_ snd_una_ rcv_nxt_ rcv_wnd_
    snd_wnd_ effective_mss_ peer_mss_ peer_mss_negotiated_ reorder_buf_ stats_ ack_pending_since_tsc_
    time_wait_deadline_ syn_retransmit_at_ rx_feed_ feed_only_ last_rx_tsc_ last_keepalive_tsc_
    keepalive_misses_ last_rx_burst_tsc_ bump set_state_ set_pkt_template_ set_snd_nxt_ set_snd_una_ set_rcv_nxt_ set_snd_wnd_ set_effective_mss_ set_peer_mss_ set_peer_mss_negotiated_ set_reorder_buf_ set_stats_ set_ack_pending_since_tsc_ set_time_wait_deadline_ set_syn_retransmit_at_ set_rx_feed_ set_feed_only_ set_last_rx_tsc_ set_last_keepalive_tsc_ set_keepalive_misses_ set_last_rx_burst_tsc_ arp_refresh_gateway_ip_ arp_refresh_interval_ arp_next_refresh_ set_arp_refresh_gateway_ip_ set_arp_refresh_interval_ set_arp_next_refresh_
  set_config_ set_pool_ set_rcv_wnd_].
