(* ===== verification/TcpOps.v ===== *)
(** * Sessions as transition systems, and their well-formedness

    Every public operation of TcpSession as one step ([run_op]), what its arguments must
    satisfy ([op_ok]), and the invariant [session_ok]: all members are in the range of
    their C++ type, the reorder buffer respects its capacity, the packet template belongs
    to the configured connection, the effective MSS is positive and never above the
    configured one.  [session_type_safe]: from a validated configuration every sequence of
    operations is defined and keeps the invariant. *)

From S2P Require Import Prelude Codecs PacketCore PacketParse PacketTemplate TcpSession.

#[local] Open Scope Z_scope.

Create HintDb sess discriminated.
#[export] Hint Constants Opaque : sess.

Section ops.
Context (rte_ipv4_phdr_cksum : list byte -> Z -> Z).
Context (RTE_MBUF_F_TX_IP_CKSUM RTE_MBUF_F_TX_TCP_CKSUM : Z).
Context (ReorderSlots : Z).
Context (to_cycles : Z -> option Z) (fallback_cycles : Z -> Z).

#[local] Abbreviation transmit := (transmit rte_ipv4_phdr_cksum RTE_MBUF_F_TX_IP_CKSUM RTE_MBUF_F_TX_TCP_CKSUM).
#[local] Abbreviation send_ack := (send_ack rte_ipv4_phdr_cksum RTE_MBUF_F_TX_IP_CKSUM RTE_MBUF_F_TX_TCP_CKSUM).
#[local] Abbreviation process_rx := (process_rx ReorderSlots).

(** ** Operations *)

Inductive Op :=
| OBeginConnect (e : Env) (isn : option Z)
| OConnectStep (e e' : Env) (pkts : list mbuf)
| OSend (e : Env) (data : list byte)
| OSendBatch (allocs : list (option fresh_mbuf)) (burst : nat -> nat) (segments : list (list byte))
| OBuildData (m : option fresh_mbuf) (data : list byte)
| OProcessRx (e : Env) (pkts : list mbuf)
| OPollRx (e : Env) (rx : Z -> list mbuf)
| OIcmp (next_hop_mtu : Z)
| OKeepalive (e : Env) (tsc : Z)
| OFlushAck (e : Env)
| OClose (e : Env)
| OReset (e : Env)
| OFeed (data : list byte)
| OFeedOnly (v : bool)
| OSetTsc (tsc : Z)
| OSetArp (e : Env) (gateway interval : Z).

(** What a step shows the outside: packets sent, chunks delivered to the callback, and
    the payload accepted from the caller. *)
Record effect := mkEffect {
  eff_wire : list (list byte);
  eff_chunks : list (list byte);
  eff_accepted : list byte
}.

Definition no_effect : effect := mkEffect [] [] [].
Definition wire_effect (w : list (list byte)) : effect := mkEffect w [] [].

Definition run_op (op : Op) (s : TcpSession) : option (TcpSession * effect) :=
  match op with
  | OBeginConnect e isn =>
      '(s, w, _) ← begin_connect rte_ipv4_phdr_cksum RTE_MBUF_F_TX_IP_CKSUM RTE_MBUF_F_TX_TCP_CKSUM e isn s;
      Some (s, wire_effect w)
  | OConnectStep e e' pkts =>
      '(s, w, _, _) ← connect_step rte_ipv4_phdr_cksum RTE_MBUF_F_TX_IP_CKSUM RTE_MBUF_F_TX_TCP_CKSUM e e' pkts s;
      Some (s, wire_effect w)
  | OSend e data =>
      '(s, w, r) ← send rte_ipv4_phdr_cksum RTE_MBUF_F_TX_IP_CKSUM RTE_MBUF_F_TX_TCP_CKSUM e data s;
      Some (s, mkEffect w [] (match r with Ok _ => data | Err _ => [] end))
  | OSendBatch allocs burst segments =>
      '(s, w, (sent, _)) ← send_batch rte_ipv4_phdr_cksum RTE_MBUF_F_TX_IP_CKSUM RTE_MBUF_F_TX_TCP_CKSUM
                             allocs burst segments s;
      Some (s, mkEffect w [] (concat (take sent segments)))
  | OBuildData m data =>
      '(s, w) ← build_data_packet rte_ipv4_phdr_cksum RTE_MBUF_F_TX_IP_CKSUM RTE_MBUF_F_TX_TCP_CKSUM m data s;
      Some (s, match w with Some p => mkEffect [p] [] data | None => no_effect end)
  | OProcessRx e pkts =>
      r ← process_rx e pkts s; Some (rx_session r, mkEffect [] (rx_chunks r) [])
  | OPollRx e rx =>
      '(r, w) ← poll_rx rte_ipv4_phdr_cksum RTE_MBUF_F_TX_IP_CKSUM RTE_MBUF_F_TX_TCP_CKSUM ReorderSlots e rx s;
      Some (rx_session r, mkEffect w (rx_chunks r) [])
  | OIcmp mtu => Some (on_icmp_frag_needed mtu s, no_effect)
  | OKeepalive e tsc =>
      '(s, w) ← tick_keepalive rte_ipv4_phdr_cksum RTE_MBUF_F_TX_IP_CKSUM RTE_MBUF_F_TX_TCP_CKSUM
                  to_cycles fallback_cycles e tsc s;
      Some (s, wire_effect w)
  | OFlushAck e =>
      '(s, w) ← flush_pending_ack rte_ipv4_phdr_cksum RTE_MBUF_F_TX_IP_CKSUM RTE_MBUF_F_TX_TCP_CKSUM e s;
      Some (s, wire_effect w)
  | OClose e =>
      '(s, w, _) ← close rte_ipv4_phdr_cksum RTE_MBUF_F_TX_IP_CKSUM RTE_MBUF_F_TX_TCP_CKSUM e s;
      Some (s, wire_effect w)
  | OReset e =>
      '(s, w) ← reset rte_ipv4_phdr_cksum RTE_MBUF_F_TX_IP_CKSUM RTE_MBUF_F_TX_TCP_CKSUM e s;
      Some (s, wire_effect w)
  | OFeed data => Some (feed_rx data s, no_effect)
  | OFeedOnly v => Some (set_feed_only v s, no_effect)
  | OSetTsc tsc => Some (set_last_rx_burst_tsc tsc s, no_effect)
  | OSetArp e g i => Some (set_arp_refresh e g i s, no_effect)
  end.

Fixpoint run_ops (ops : list Op) (s : TcpSession) : option (TcpSession * effect) :=
  match ops with
  | [] => Some (s, no_effect)
  | op :: rest =>
      '(s, x) ← run_op op s; '(s, y) ← run_ops rest s;
      Some (s, mkEffect (eff_wire x ++ eff_wire y) (eff_chunks x ++ eff_chunks y)
                 (eff_accepted x ++ eff_accepted y))
  end.

(** ** What callers and the world provide *)

Record env_ok (e : Env) : Prop := {
  env_room : forall f, alloc e = Some f -> room_ok f;
  env_tsc : 0 <= now_tsc e < 2 ^ 64
}.

Definition burst_ok (pkts : list mbuf) : Prop := Forall mbuf_ok pkts.

Definition alloc_ok (a : option fresh_mbuf) : Prop := forall f, a = Some f -> room_ok f.

Definition op_ok (op : Op) : Prop :=
  match op with
  | OBeginConnect e isn => env_ok e /\ (forall n, isn = Some n -> 0 <= n < 2 ^ 32)
  | OConnectStep e e' pkts => env_ok e /\ env_ok e' /\ burst_ok pkts
  | OSend e data => env_ok e
  | OSendBatch allocs burst segments => Forall alloc_ok allocs /\ (forall n, (burst n <= n)%nat)
  | OBuildData m data => alloc_ok m
  | OProcessRx e pkts => env_ok e /\ burst_ok pkts /\ zlen pkts <= kRxBurstSize
  | OPollRx e rx => env_ok e /\ forall n, 0 <= n -> burst_ok (rx n) /\ zlen (rx n) <= n
  | OIcmp mtu => 0 <= mtu < 2 ^ 16
  | OKeepalive e tsc => env_ok e /\ 0 <= tsc < 2 ^ 64
  | OFlushAck e | OClose e | OReset e => env_ok e
  | OFeed _ | OFeedOnly _ | OSetArp _ _ _ => True
  | OSetTsc tsc => 0 <= tsc < 2 ^ 64
  end.

(** ** The invariant *)

Definition entry_ok (x : ReorderEntry) : Prop :=
  0 <= e_seq x < 2 ^ 32 /\ e_len x = zlen (e_data x) /\ 0 < e_len x <= kDefaultMss.

Record config_ok (c : TcpConfig) : Prop := {
  cfg_valid : config_validate c = None;
  cfg_src_mac : zlen (c_src_mac c) = 6;
  cfg_dst_mac : zlen (c_dst_mac c) = 6;
  cfg_src_ip : 0 <= src_ip (c_tuple c) < 2 ^ 32;
  cfg_dst_ip : 0 <= dst_ip (c_tuple c) < 2 ^ 32;
  cfg_src_port : 0 <= src_port (c_tuple c) < 2 ^ 16;
  cfg_dst_port : 0 <= dst_port (c_tuple c) < 2 ^ 16;
  cfg_mss : 0 <= c_mss c < 2 ^ 16;
  cfg_window : 0 <= c_recv_window c < 2 ^ 32;
  cfg_burst : 0 <= c_max_rx_burst c < 2 ^ 16;
  cfg_probes : 0 <= c_keepalive_probes c < 2 ^ 8
}.

Record session_ok (s : TcpSession) : Prop := {
  so_config : config_ok (config_ s);
  so_template : template_ok (pkt_template_ s);
  so_tuple : tuple (pkt_template_ s) = c_tuple (config_ s);
  so_state : state_ s <> Listen /\ state_ s <> SynReceived;
  so_snd_nxt : 0 <= snd_nxt_ s < 2 ^ 32;
  so_snd_una : 0 <= snd_una_ s < 2 ^ 32;
  so_rcv_nxt : 0 <= rcv_nxt_ s < 2 ^ 32;
  so_rcv_wnd : 0 <= rcv_wnd_ s < 2 ^ 16;
  so_snd_wnd : 0 <= snd_wnd_ s < 2 ^ 16;
  so_mss : 0 < effective_mss_ s <= c_mss (config_ s);
  so_peer_mss : 0 <= peer_mss_ s < 2 ^ 16;
  so_slots : ReorderSlots <= 255;
  so_reorder_len : zlen (reorder_buf_ s) <= ReorderSlots;
  so_reorder : Forall entry_ok (reorder_buf_ s);
  so_ack_pending : 0 <= ack_pending_since_tsc_ s < 2 ^ 64;
  so_last_rx : 0 <= last_rx_tsc_ s < 2 ^ 64;
  so_last_ka : 0 <= last_keepalive_tsc_ s < 2 ^ 64;
  so_burst_tsc : 0 <= last_rx_burst_tsc_ s < 2 ^ 64;
  so_misses : 0 <= keepalive_misses_ s <= c_keepalive_probes (config_ s)
}.
(** ** Assignments keep the invariant *)

Ltac ok_field := intros; match goal with H : session_ok _ |- _ => destruct H end; by constructor.

Lemma ok_set_state_ v s : session_ok s -> v <> Listen /\ v <> SynReceived -> session_ok (set_state_ v s).
Proof. ok_field. Qed.
Lemma ok_set_pkt_template_ v s : session_ok s -> template_ok v -> tuple v = c_tuple (config_ s) -> session_ok (set_pkt_template_ v s).
Proof. ok_field. Qed.
Lemma ok_set_snd_nxt_ v s : session_ok s -> 0 <= v < 2 ^ 32 -> session_ok (set_snd_nxt_ v s).
Proof. ok_field. Qed.
Lemma ok_set_snd_una_ v s : session_ok s -> 0 <= v < 2 ^ 32 -> session_ok (set_snd_una_ v s).
Proof. ok_field. Qed.
Lemma ok_set_rcv_nxt_ v s : session_ok s -> 0 <= v < 2 ^ 32 -> session_ok (set_rcv_nxt_ v s).
Proof. ok_field. Qed.
Lemma ok_set_snd_wnd_ v s : session_ok s -> 0 <= v < 2 ^ 16 -> session_ok (set_snd_wnd_ v s).
Proof. ok_field. Qed.
Lemma ok_set_effective_mss_ v s : session_ok s -> 0 < v <= c_mss (config_ s) -> session_ok (set_effective_mss_ v s).
Proof. ok_field. Qed.
Lemma ok_set_peer_mss_ v s : session_ok s -> 0 <= v < 2 ^ 16 -> session_ok (set_peer_mss_ v s).
Proof. ok_field. Qed.
Lemma ok_set_peer_mss_negotiated_ v s : session_ok s -> session_ok (set_peer_mss_negotiated_ v s).
Proof. ok_field. Qed.
Lemma ok_set_reorder_buf_ v s : session_ok s -> zlen v <= ReorderSlots -> Forall entry_ok v -> session_ok (set_reorder_buf_ v s).
Proof. ok_field. Qed.
Lemma ok_set_stats_ v s : session_ok s -> session_ok (set_stats_ v s).
Proof. ok_field. Qed.
Lemma ok_set_ack_pending_since_tsc_ v s : session_ok s -> 0 <= v < 2 ^ 64 -> session_ok (set_ack_pending_since_tsc_ v s).
Proof. ok_field. Qed.
Lemma ok_set_time_wait_deadline_ v s : session_ok s -> session_ok (set_time_wait_deadline_ v s).
Proof. ok_field. Qed.
Lemma ok_set_syn_retransmit_at_ v s : session_ok s -> session_ok (set_syn_retransmit_at_ v s).
Proof. ok_field. Qed.
Lemma ok_set_rx_feed_ v s : session_ok s -> session_ok (set_rx_feed_ v s).
Proof. ok_field. Qed.
Lemma ok_set_feed_only_ v s : session_ok s -> session_ok (set_feed_only_ v s).
Proof. ok_field. Qed.
Lemma ok_set_last_rx_tsc_ v s : session_ok s -> 0 <= v < 2 ^ 64 -> session_ok (set_last_rx_tsc_ v s).
Proof. ok_field. Qed.
Lemma ok_set_last_keepalive_tsc_ v s : session_ok s -> 0 <= v < 2 ^ 64 -> session_ok (set_last_keepalive_tsc_ v s).
Proof. ok_field. Qed.
Lemma ok_set_keepalive_misses_ v s : session_ok s -> 0 <= v <= c_keepalive_probes (config_ s) -> session_ok (set_keepalive_misses_ v s).
Proof. ok_field. Qed.
Lemma ok_set_last_rx_burst_tsc_ v s : session_ok s -> 0 <= v < 2 ^ 64 -> session_ok (set_last_rx_burst_tsc_ v s).
Proof. ok_field. Qed.
Lemma ok_set_arp_refresh_gateway_ip_ v s : session_ok s -> session_ok (set_arp_refresh_gateway_ip_ v s).
Proof. ok_field. Qed.
Lemma ok_set_arp_refresh_interval_ v s : session_ok s -> session_ok (set_arp_refresh_interval_ v s).
Proof. ok_field. Qed.
Lemma ok_set_arp_next_refresh_ v s : session_ok s -> session_ok (set_arp_next_refresh_ v s).
Proof. ok_field. Qed.

Lemma ok_bump k n s : session_ok s -> session_ok (bump k n s).
Proof. apply ok_set_stats_. Qed.

(** Peel the assignments off a session. *)
Ltac ok_step := lazymatch goal with
  | |- session_ok (set_state_ _ _) => apply ok_set_state_
  | |- session_ok (set_pkt_template_ _ _) => apply ok_set_pkt_template_
  | |- session_ok (set_snd_nxt_ _ _) => apply ok_set_snd_nxt_
  | |- session_ok (set_snd_una_ _ _) => apply ok_set_snd_una_
  | |- session_ok (set_rcv_nxt_ _ _) => apply ok_set_rcv_nxt_
  | |- session_ok (set_snd_wnd_ _ _) => apply ok_set_snd_wnd_
  | |- session_ok (set_effective_mss_ _ _) => apply ok_set_effective_mss_
  | |- session_ok (set_peer_mss_ _ _) => apply ok_set_peer_mss_
  | |- session_ok (set_peer_mss_negotiated_ _ _) => apply ok_set_peer_mss_negotiated_
  | |- session_ok (set_reorder_buf_ _ _) => apply ok_set_reorder_buf_
  | |- session_ok (set_stats_ _ _) => apply ok_set_stats_
  | |- session_ok (set_ack_pending_since_tsc_ _ _) => apply ok_set_ack_pending_since_tsc_
  | |- session_ok (set_time_wait_deadline_ _ _) => apply ok_set_time_wait_deadline_
  | |- session_ok (set_syn_retransmit_at_ _ _) => apply ok_set_syn_retransmit_at_
  | |- session_ok (set_rx_feed_ _ _) => apply ok_set_rx_feed_
  | |- session_ok (set_feed_only_ _ _) => apply ok_set_feed_only_
  | |- session_ok (set_last_rx_tsc_ _ _) => apply ok_set_last_rx_tsc_
  | |- session_ok (set_last_keepalive_tsc_ _ _) => apply ok_set_last_keepalive_tsc_
  | |- session_ok (set_keepalive_misses_ _ _) => apply ok_set_keepalive_misses_
  | |- session_ok (set_last_rx_burst_tsc_ _ _) => apply ok_set_last_rx_burst_tsc_
  | |- session_ok (set_arp_refresh_gateway_ip_ _ _) => apply ok_set_arp_refresh_gateway_ip_
  | |- session_ok (set_arp_refresh_interval_ _ _) => apply ok_set_arp_refresh_interval_
  | |- session_ok (set_arp_next_refresh_ _ _) => apply ok_set_arp_next_refresh_
  | |- session_ok (bump _ _ _) => apply ok_bump
  end.

Lemma u32_range z : 0 <= u32 z < 2 ^ 32.
Proof. apply wrap_range. lia. Qed.
Lemma u16_range z : 0 <= u16 z < 2 ^ 16.
Proof. apply wrap_range. lia. Qed.
#[local] Hint Resolve u32_range u16_range : sess.
Ltac ok_steps := repeat ok_step; try assumption; fields; eauto with sess.

(** ** Transmitting *)

Lemma set_ip_id_ok t id : template_ok t -> 0 <= id < 2 ^ 16 -> template_ok (set_ip_id t id).
Proof. intros [] ?. by constructor. Qed.

Lemma segment_of_ip_id t id seq ack flags window bs :
  segment_of (set_ip_id t id) seq ack flags window bs = segment_of t seq ack flags window bs.
Proof. done. Qed.

(** A packet on the wire carries these values, whatever padding the link adds. *)
Definition carries (w : list byte) (p : Segment) : Prop :=
  forall pad, zlen w + zlen pad <= UINT16_MAX -> view (mkMbuf 1 (w ++ pad)) = Some (Some p).

Lemma transmit_spec e seq ack flags window payload bs len s :
  session_ok s -> env_ok e -> 0 <= seq < 2 ^ 32 -> 0 <= ack < 2 ^ 32 -> 0 <= flags < 256 ->
  0 <= window < 2 ^ 16 -> payload_is payload bs -> len = zlen bs ->
  exists t r, transmit e seq ack flags window payload len s = Some (set_pkt_template_ t s, r) /\
    template_ok t /\ tuple t = c_tuple (config_ s) /\
    (forall w, r = TxSent w ->
       tx_ok e = true /\ carries w (segment_of (pkt_template_ s) seq ack flags window bs)).
Proof.
  intros Hs He Hseq Hack Hfl Hw Hp ->. pose proof (so_template _ Hs) as Ht.
  pose proof (so_tuple _ Hs) as Htu.
  assert (forall (r : tx_result), (forall w, r <> TxSent w) ->
    exists t r', Some (set_pkt_template_ (pkt_template_ s) s, r) = Some (set_pkt_template_ t s, r') /\
    template_ok t /\ tuple t = c_tuple (config_ s) /\
    (forall w, r' = TxSent w -> tx_ok e = true /\
       carries w (segment_of (pkt_template_ s) seq ack flags window bs))) as Hno.
  { intros r Hr. eexists _, _. split; [done|]. split; [done|]. split; [done|]. intros w E. by destruct (Hr w). }
  unfold transmit. destruct (pool_ s); [|by apply Hno].
  destruct (alloc e) as [f|] eqn:Ef; [|by apply Hno].
  destruct (build_packet_cases rte_ipv4_phdr_cksum RTE_MBUF_F_TX_IP_CKSUM RTE_MBUF_F_TX_TCP_CKSUM
    (pkt_template_ s) f seq ack flags window payload bs Ht (env_room _ He f Ef) Hseq Hack Hfl Hw Hp)
    as [(Hle & _ & m & -> & Hlen & Hv & _)|(_ & ->)]; cbn [mbind option_bind]; [|by apply Hno].
  eexists _, _. split; [done|]. split; [apply set_ip_id_ok; [done|apply u16_range]|]. split; [done|].
  intros w. destruct (tx_ok e); [|done]. intros [= <-]. split; [done|].
  intros pad Hpad. apply Hv. by rewrite <- Hlen.
Qed.

#[local] Ltac tx_step Hs He :=
  match goal with
  | |- context [transmit ?e ?seq ?ack ?fl ?win ?pl ?len ?s] =>
      let t := fresh "t" in let r := fresh "r" in
      let Ht := fresh "Ht" in let Htu := fresh "Htu" in let Hr := fresh "Hr" in
      destruct (transmit_spec e seq ack fl win pl (default [] pl) len s) as (t & r & -> & Ht & Htu & Hr);
      [ok_steps|exact He|try apply Hs; eauto with sess|try apply Hs; eauto with sess
      |vm_compute; done|try apply Hs; try (vm_compute; done)|by (left + right)|try done|]
  end; cbn [mbind option_bind].

Lemma send_ack_ok e s : session_ok s -> env_ok e ->
  exists s' w r, send_ack e s = Some (s', w, r) /\ session_ok s' /\ state_ s' = state_ s /\
    config_ s' = config_ s.
Proof.
  intros Hs He. unfold TcpSession.send_ack. tx_step Hs He.
  destruct r; eexists _, _, _; (split; [reflexivity|]); (split; [ok_steps|done]).
Qed.

Lemma so_probes s : session_ok s -> 0 <= 0 <= c_keepalive_probes (config_ s).
Proof. intros Hs. pose proof (cfg_probes _ (so_config _ Hs)). lia. Qed.

Lemma so_cmss s : session_ok s -> 0 < c_mss (config_ s) <= c_mss (config_ s).
Proof. intros Hs. pose proof (so_mss _ Hs). lia. Qed.

Lemma zero64 : 0 <= 0 < 2 ^ 64.
Proof. lia. Qed.
Lemma zero32 : 0 <= 0 < 2 ^ 32.
Proof. lia. Qed.
Lemma zero16 : 0 <= 0 < 2 ^ 16.
Proof. lia. Qed.

Lemma slots_nonneg s : session_ok s -> zlen (@nil ReorderEntry) <= ReorderSlots.
Proof. intros Hs. pose proof (so_reorder_len _ Hs). pose proof (zlen_nonneg (reorder_buf_ s)). by change (zlen (@nil ReorderEntry)) with 0; lia. Qed.

#[local] Hint Resolve so_probes so_cmss zero64 zero32 zero16 slots_nonneg Forall_nil_2 : sess.
#[local] Hint Extern 1 (_ /\ _ <> SynReceived) => split; discriminate : sess.

(** ** Connecting *)

Lemma restart_ok n s : session_ok s -> 0 <= n < 2 ^ 32 ->
  session_ok (restart n s) /\ config_ (restart n s) = config_ s.
Proof. intros Hs Hn. unfold restart. split; [ok_steps|done]. Qed.

Lemma begin_connect_ok e isn s : session_ok s -> op_ok (OBeginConnect e isn) ->
  exists s' x, run_op (OBeginConnect e isn) s = Some (s', x) /\ session_ok s' /\ config_ s' = config_ s.
Proof.
  intros Hs [He Hisn]. cbn [run_op]. unfold begin_connect.
  destruct (bool_decide (state_ s = TimeWait) && _); [eexists _, _; by split_and!|].
  set (s1 := if bool_decide (state_ s = TimeWait) then _ else s).
  assert (session_ok s1 /\ config_ s1 = config_ s) as [Hs1 Hc1]
    by (subst s1; destruct (bool_decide _); split; ok_steps).
  clearbody s1.
  destruct (negb _); [eexists _, _; by split_and!|].
  destruct isn as [n|]; [|eexists _, _; by split_and!]. specialize (Hisn n eq_refl).
  destruct (restart_ok n s1 Hs1 Hisn) as [Hs2 Hc2]. revert Hs2 Hc2. generalize (restart n s1).
  intros s2 Hs2 Hc2.
  tx_step Hs2 He.
  destruct r; eexists _, _; (split; [reflexivity|]); (split; [ok_steps|fields; congruence]).
Qed.

Lemma accept_syn_ack_ok p s : session_ok s -> segment_ok p ->
  session_ok (accept_syn_ack p s) /\ config_ (accept_syn_ack p s) = config_ s.
Proof.
  intros Hs Hp. unfold accept_syn_ack. cbv zeta.
  set (s1 := set_snd_wnd_ (sg_window p) (set_snd_una_ (sg_ack p) (set_rcv_nxt_ (u32 (sg_seq p + 1)) s))).
  assert (session_ok s1 /\ config_ s1 = config_ s) as [H1 Hc1]
    by (subst s1; split; [ok_steps; apply Hp|done]).
  generalize dependent s1. intros s1 H1 Hc1.
  destruct (has_mss _ && (0 <? _)) eqn:Em; [|by split].
  apply andb_true_iff in Em as [_ Em%Z.ltb_lt].
  pose proof (so_mss _ H1). pose proof (sgo_mss _ Hp).
  destruct (_ <? _); (split; [ok_steps; try lia|done]).
Qed.

Lemma handshake_ok e pkts : env_ok e -> burst_ok pkts -> forall i s, session_ok s ->
  exists s' w freed r, handle_handshake_burst_ rte_ipv4_phdr_cksum RTE_MBUF_F_TX_IP_CKSUM
      RTE_MBUF_F_TX_TCP_CKSUM e i pkts s = Some (s', w, freed, r) /\
    session_ok s' /\ config_ s' = config_ s /\ freed = seq i (length pkts).
Proof.
  intros He. induction 1 as [|m rest Hm _ IH]; intros i s Hs; cbn [handle_handshake_burst_].
  { eexists _, _, _, _. by split_and!. }
  assert (forall s1, session_ok s1 -> config_ s1 = config_ s ->
    exists s' w freed r, ('(s2, out, freed, r) ← handle_handshake_burst_ rte_ipv4_phdr_cksum
      RTE_MBUF_F_TX_IP_CKSUM RTE_MBUF_F_TX_TCP_CKSUM e (S i) rest s1; Some (s2, out, i :: freed, r)) =
      Some (s', w, freed, r) /\ session_ok s' /\ config_ s' = config_ s /\
      freed = seq i (length (m :: rest))) as Hskip.
  { intros s1 Hs1 Hc1. destruct (IH (S i) s1 Hs1) as (s' & w & fr & r & -> & Hs' & Hc' & ->).
    cbn [mbind option_bind]. eexists _, _, _, _. split_and!; [done|done|congruence|done]. }
  destruct (view_safe m Hm) as [v Hv]. rewrite Hv. cbn [mbind option_bind].
  destruct v as [p|]; [|by apply Hskip]. pose proof (view_segment_ok m p Hm Hv) as Hp.
  destruct (negb (matches _ _)); [by apply Hskip|].
  assert (session_ok (bump rx_packets 1 s) /\ config_ (bump rx_packets 1 s) = config_ s) as [Hs1 Hc1]
    by (split; [ok_steps|done]). revert Hs1 Hc1. generalize (bump rx_packets 1 s). intros s1 Hs1 Hc1.
  destruct (has_flag p kTcpRst).
  { eexists _, _, _, _. split; [reflexivity|]. split; [ok_steps|]. by split. }
  destruct (_ && _); [|by apply Hskip]. destruct (negb _); [by apply Hskip|].
  destruct (accept_syn_ack_ok p s1 Hs1 Hp) as [Hs2 Hc2]. revert Hs2 Hc2.
  generalize (accept_syn_ack p s1). intros s2 Hs2 Hc2.
  destruct (send_ack_ok e s2 Hs2 He) as (s3 & w & r & -> & Hs3 & _ & Hc3). cbn [mbind option_bind].
  destruct r; eexists _, _, _, _; (split; [reflexivity|]); (split; [ok_steps|]);
    (split; [fields; congruence|done]).
Qed.

Lemma retransmit_ok e s : session_ok s -> env_ok e ->
  exists s1 w, maybe_retransmit_syn_ rte_ipv4_phdr_cksum RTE_MBUF_F_TX_IP_CKSUM
    RTE_MBUF_F_TX_TCP_CKSUM e s = Some (s1, w) /\ session_ok s1 /\ config_ s1 = config_ s.
Proof.
  intros Hs He. unfold maybe_retransmit_syn_. destruct (_ <=? _); [|eexists _, _; by split_and!].
  tx_step Hs He. destruct r; eexists _, _; (split; [reflexivity|]); (split; [ok_steps|done]).
Qed.

Lemma connect_step_ok e e' pkts s : session_ok s -> op_ok (OConnectStep e e' pkts) ->
  exists s' x, run_op (OConnectStep e e' pkts) s = Some (s', x) /\ session_ok s' /\ config_ s' = config_ s.
Proof.
  intros Hs (He & He' & Hb). cbn [run_op]. unfold connect_step.
  destruct (bool_decide _); [eexists _, _; by split_and!|].
  destruct (negb _); [eexists _, _; by split_and!|].
  destruct (retransmit_ok e s Hs He) as (s1 & w1 & -> & Hs1 & Hc1).
  cbn [mbind option_bind].
  destruct (handshake_ok e' pkts He' Hb 0 s1 Hs1) as (s2 & w & fr & r & -> & Hs2 & Hc2 & _).
  cbn [mbind option_bind]. eexists _, _. split; [reflexivity|]. split; [done|congruence].
Qed.

(** ** Sending *)

Lemma mss_u16 s (data : list byte) : session_ok s -> zlen data <= effective_mss_ s -> u16 (zlen data) = zlen data.
Proof.
  intros Hs Hl. pose proof (so_mss _ Hs). pose proof (cfg_mss _ (so_config _ Hs)).
  pose proof (zlen_nonneg data). apply wrap_small. lia.
Qed.

Lemma send_ok e data s : session_ok s -> op_ok (OSend e data) ->
  exists s' x, run_op (OSend e data) s = Some (s', x) /\ session_ok s' /\ config_ s' = config_ s.
Proof.
  intros Hs He. cbn [run_op op_ok] in *. unfold send. destruct (negb _); [eexists _, _; by split_and!|].
  destruct (Z.ltb_spec (effective_mss_ s) (zlen data)); [eexists _, _; by split_and!|].
  rewrite (mss_u16 s data Hs) by lia. tx_step Hs He.
  destruct r; eexists _, _; (split; [reflexivity|]); (split; [ok_steps|done]).
Qed.

Lemma prepare_batch_ok allocs segs : Forall alloc_ok allocs -> forall mbufs lens s, session_ok s ->
  exists s' m l, prepare_batch rte_ipv4_phdr_cksum RTE_MBUF_F_TX_IP_CKSUM RTE_MBUF_F_TX_TCP_CKSUM
      allocs segs mbufs lens s = Some (s', m, l) /\ session_ok s' /\ config_ s' = config_ s.
Proof.
  intros Ha. revert allocs Ha. induction segs as [|d rest IH]; intros allocs Ha mbufs lens s Hs;
    cbn [prepare_batch]; [eexists _, _, _; by split_and!|].
  destruct (Z.ltb_spec (effective_mss_ s) (zlen d)) as [|Hle]; [eexists _, _, _; by split_and!|].
  assert (forall t, template_ok t -> tuple t = c_tuple (config_ s) ->
    session_ok (set_pkt_template_ t s) /\ config_ (set_pkt_template_ t s) = config_ s) as Hset
    by (intros; split; [ok_steps|done]).
  pose proof (so_template _ Hs) as Ht. pose proof (so_tuple _ Hs) as Htu.
  destruct (pool_ s); [|cbn [build_packet mbind option_bind]; eexists _, _, _; split; [reflexivity|];
    by apply Hset].
  destruct (head allocs) as [[f|]|] eqn:Eh; try (cbn [build_packet mbind option_bind];
    eexists _, _, _; split; [reflexivity|]; by apply Hset).
  assert (room_ok f /\ Forall alloc_ok (tail allocs)) as [Hf Ha'].
  { destruct allocs as [|a al]; [done|]. injection Eh as ->. inversion Ha; subst. split; auto. }
  destruct (build_packet_cases rte_ipv4_phdr_cksum RTE_MBUF_F_TX_IP_CKSUM RTE_MBUF_F_TX_TCP_CKSUM
    (pkt_template_ s) f (u32 (snd_nxt_ s + total_payload_len_ lens (length mbufs))) (rcv_nxt_ s)
    (Z.lor kTcpAck kTcpPsh) (rcv_wnd_ s) (Some d) d Ht Hf (u32_range _) (so_rcv_nxt _ Hs)
    ltac:(vm_compute; done) (so_rcv_wnd _ Hs) (or_introl eq_refl))
    as [(_ & _ & m & -> & _)|(_ & ->)]; cbn [mbind option_bind].
  - destruct (Hset (set_ip_id (pkt_template_ s) (u16 (ip_id (pkt_template_ s) + 1)))) as [Hs1 Hc1];
      [apply set_ip_id_ok; [done|apply u16_range]|done|].
    revert Hs1 Hc1. generalize (set_pkt_template_ (set_ip_id (pkt_template_ s)
      (u16 (ip_id (pkt_template_ s) + 1))) s). intros s1 Hs1 Hc1.
    destruct (IH (tail allocs) Ha' (mbufs ++ [tx_data m]) (lens ++ [zlen d]) s1 Hs1)
      as (s' & m' & l' & -> & Hs' & Hc'). eexists _, _, _. split_and!; [done|done|congruence].
  - eexists _, _, _. split; [reflexivity|]. by apply Hset.
Qed.

Lemma send_batch_ok allocs burst segs s : session_ok s -> op_ok (OSendBatch allocs burst segs) ->
  exists s' x, run_op (OSendBatch allocs burst segs) s = Some (s', x) /\ session_ok s' /\
    config_ s' = config_ s.
Proof.
  intros Hs [Ha _]. cbn [run_op]. unfold send_batch. destruct (negb _); [eexists _, _; by split_and!|].
  destruct (prepare_batch_ok allocs (take kMaxBatchSize segs) Ha [] [] s Hs)
    as (s1 & m & l & -> & Hs1 & Hc1). cbn [mbind option_bind].
  destruct (decide _); [eexists _, _; by split_and!|]. cbn [mbind option_bind].
  eexists _, _. split; [reflexivity|]. destruct (decide _); (split; [ok_steps|fields; done]).
Qed.

Lemma build_data_ok m data s : session_ok s -> op_ok (OBuildData m data) ->
  exists s' x, run_op (OBuildData m data) s = Some (s', x) /\ session_ok s' /\ config_ s' = config_ s.
Proof.
  intros Hs Ha. cbn [run_op op_ok] in *. unfold build_data_packet.
  destruct (_ || _); [eexists _, _; by split_and!|].
  pose proof (so_template _ Hs) as Ht. pose proof (so_tuple _ Hs) as Htu.
  assert (forall t, template_ok t -> tuple t = c_tuple (config_ s) ->
    session_ok (set_pkt_template_ t s) /\ config_ (set_pkt_template_ t s) = config_ s) as Hset
    by (intros; split; [ok_steps|done]).
  destruct m as [f|].
  2: { cbn [fill_packet mbind option_bind]. eexists _, _. split; [reflexivity|]. by apply Hset. }
  specialize (Ha f eq_refl).
  rewrite (fill_build_eq _ _ _ _ f _ _ _ _ (Some data) data Ht Ha (so_snd_nxt _ Hs) (so_rcv_nxt _ Hs)
    (so_rcv_wnd _ Hs) (or_introl eq_refl)).
  change (negb (Z.land (Z.lor kTcpAck kTcpPsh) kTcpSyn =? 0)) with false. cbv iota.
  destruct (build_packet_cases rte_ipv4_phdr_cksum RTE_MBUF_F_TX_IP_CKSUM RTE_MBUF_F_TX_TCP_CKSUM
    (pkt_template_ s) f (snd_nxt_ s) (rcv_nxt_ s) (Z.lor kTcpAck kTcpPsh) (rcv_wnd_ s) (Some data) data
    Ht Ha (so_snd_nxt _ Hs) (so_rcv_nxt _ Hs) ltac:(vm_compute; done) (so_rcv_wnd _ Hs) (or_introl eq_refl))
    as [(_ & _ & m & -> & _)|(_ & ->)]; cbn [mbind option_bind].
  - destruct (Hset (set_ip_id (pkt_template_ s) (u16 (ip_id (pkt_template_ s) + 1)))) as [Hs1 Hc1];
      [apply set_ip_id_ok; [done|apply u16_range]|done|].
    revert Hs1 Hc1. generalize (set_pkt_template_ (set_ip_id (pkt_template_ s)
      (u16 (ip_id (pkt_template_ s) + 1))) s). intros s1 Hs1 Hc1.
    destruct (_ =? 0); eexists _, _; (split; [reflexivity|]); (split; [ok_steps|fields; done]).
  - eexists _, _. split; [reflexivity|]. by apply Hset.
Qed.

(** ** Receiving *)

Lemma find_entry_lookup seq buf i : find_entry seq buf = Some i ->
  exists x, buf !! i = Some x /\ e_seq x = seq.
Proof.
  revert i. induction buf as [|x t IH]; intros i; cbn [find_entry]; [done|].
  destruct (Z.eqb_spec (e_seq x) seq); [intros [= <-]; by exists x|].
  destruct (find_entry seq t) as [j|]; [|done]. intros [= <-]. by apply IH.
Qed.

Lemma find_entry_None seq buf : find_entry seq buf = None -> Forall (fun x => e_seq x <> seq) buf.
Proof.
  induction buf as [|x t IH]; cbn [find_entry]; [constructor|].
  destruct (Z.eqb_spec (e_seq x) seq); [done|]. destruct (find_entry seq t); [done|]. auto.
Qed.

Lemma find_entry_absent seq buf : Forall (fun x => e_seq x <> seq) buf -> find_entry seq buf = None.
Proof.
  induction 1 as [|x t Hx _ IH]; cbn [find_entry]; [done|].
  destruct (Z.eqb_spec (e_seq x) seq); [done|]. by rewrite IH.
Qed.

(** Removal by overwriting with the last entry loses exactly that entry. *)
Lemma swap_remove_perm i buf x : buf !! i = Some x -> buf ≡ₚ x :: swap_remove i buf.
Proof.
  intros Hi. unfold swap_remove. destruct buf as [|y t] using rev_ind; [done|].
  rewrite last_snoc, removelast_last. apply lookup_app_Some in Hi as [Hi|[Hl Hi]].
  - rewrite (insert_take_drop _ _ _ (lookup_lt_Some _ _ _ Hi)).
    rewrite <- (take_drop_middle _ _ _ Hi) at 1.
    rewrite <- app_assoc. cbn. rewrite <- Permutation_middle. apply perm_skip, Permutation_app_head.
    by rewrite Permutation_app_comm.
  - rewrite list_insert_ge by lia. apply list_lookup_singleton_Some in Hi as [_ ->].
    by rewrite Permutation_app_comm.
Qed.

Lemma drain_ok fuel : forall s, session_ok s ->
  session_ok (drain_reorder_buf fuel s).1 /\ config_ (drain_reorder_buf fuel s).1 = config_ s /\
  state_ (drain_reorder_buf fuel s).1 = state_ s.
Proof.
  induction fuel as [|f IH]; intros s Hs; cbn [drain_reorder_buf]; [done|].
  destruct (find_entry _ _) as [i|] eqn:Ei; [|done]. destruct (find_entry_lookup _ _ _ Ei) as (x & Hx & _).
  rewrite Hx. cbv zeta. pose proof (swap_remove_perm i _ x Hx) as Hperm.
  assert (zlen (swap_remove i (reorder_buf_ s)) <= ReorderSlots /\
          Forall entry_ok (swap_remove i (reorder_buf_ s))) as [Hl Hf].
  { pose proof (so_reorder_len _ Hs). pose proof (so_reorder _ Hs) as Hf. rewrite Hperm in Hf.
    apply Permutation_length in Hperm. cbn [length] in Hperm. inversion Hf; subst.
    split; [unfold zlen in *; lia|done]. }
  fields.
  set (s1 := set_reorder_buf_ (swap_remove i (reorder_buf_ s)) (bump rx_bytes (e_len x)
               (set_rcv_nxt_ (u32 (rcv_nxt_ s + e_len x)) s))).
  change (set_reorder_buf_ _ _) with s1.
  assert (session_ok s1 /\ config_ s1 = config_ s /\ state_ s1 = state_ s) as (H1 & Hc & Hst)
    by (subst s1; split; [ok_steps|done]).
  generalize dependent s1. intros s1 H1 Hc Hst. specialize (IH s1 H1).
  destruct (drain_reorder_buf f s1) as [s2 out]. cbn [fst] in *. destruct IH as (? & ? & ?).
  split_and!; [done|congruence..].
Qed.

(** An invariant-preserving update that stays in the connection. *)
Definition keeps (s s' : TcpSession) : Prop := session_ok s' /\ config_ s' = config_ s.

Lemma keeps_trans s1 s2 s3 : keeps s1 s2 -> keeps s2 s3 -> keeps s1 s3.
Proof. intros [? ?] [? ?]. split; [done|congruence]. Qed.

Lemma enter_time_wait_ok e s : session_ok s -> keeps s (enter_time_wait e s).
Proof. intros Hs. unfold enter_time_wait. split; [ok_steps|done]. Qed.

Lemma handle_ack_ok e p s : session_ok s -> segment_ok p -> keeps s (handle_ack e p s).
Proof.
  intros Hs Hp. unfold handle_ack. cbv zeta.
  set (s1 := set_snd_wnd_ (sg_window p) _).
  assert (keeps s s1) as Hk.
  { subst s1. destruct (_ && _); (split; [ok_steps; apply Hp|done]). }
  generalize dependent s1. intros s1 Hk. apply (keeps_trans s s1); [done|]. destruct Hk as [H1 _].
  destruct (_ =? _); [|by split]. destruct (state_ s1); try (by split).
  - split; [ok_steps|done].
  - by apply enter_time_wait_ok.
  - split; [ok_steps|done].
Qed.

Lemma handle_out_of_order_ok p s : session_ok s -> segment_ok p ->
  keeps s (handle_out_of_order ReorderSlots p s).1.
Proof.
  intros Hs Hp. unfold handle_out_of_order. cbv zeta.
  set (s1 := if seq_after (sg_seq p) (rcv_nxt_ (bump out_of_order 1 s)) then _ else _).
  assert (keeps s s1) as Hk by (subst s1; destruct (seq_after _ _); (split; [ok_steps|done])).
  generalize dependent s1. intros s1 Hk. apply (keeps_trans s s1); [done|]. destruct Hk as [H1 _].
  destruct (kDefaultMss <? _); [by split|].
  unfold sg_payload_len. destruct (sg_payload p) as [bs|] eqn:Ep; cbn [default].
  2: { destruct (negb _); (split; [cbn [fst]; ok_steps|done]). }
  destruct (_ && _) eqn:Ec.
  - apply andb_true_iff in Ec as [[_ Ec1%Z.ltb_lt]%andb_true_iff Ec2%Z.leb_le].
    pose proof (sgo_payload _ Hp _ Ep). cbn [fst]. split; [|done].
    apply ok_set_reorder_buf_; [ok_steps| |].
    + fields. rewrite zlen_app. change (zlen [mkEntry _ _ _]) with 1. lia.
    + fields. apply list.Forall_app. split; [apply H1|]. constructor; [|constructor].
      unfold entry_ok. cbn. pose proof (sgo_seq _ Hp). split_and!; (done || lia).
  - destruct (negb _); (split; [cbn [fst]; ok_steps|done]).
Qed.

Lemma handle_data_ok p s : session_ok s -> segment_ok p ->
  keeps s (handle_data ReorderSlots p s).1.1.1.1.
Proof.
  intros Hs Hp. unfold handle_data. destruct (negb _); [by split|]. destruct (_ && _).
  { pose proof (handle_out_of_order_ok p s Hs Hp).
    by destruct (handle_out_of_order ReorderSlots p s) as [s1 fl]. }
  destruct (sg_payload p) as [bs|]; [|by split]. destruct (0 <? _); [|by split]. cbv zeta.
  set (s1 := bump rx_bytes _ _).
  assert (keeps s s1) as Hk by (subst s1; split; [ok_steps|done]).
  generalize dependent s1. intros s1 Hk. apply (keeps_trans s s1); [done|].
  destruct (drain_ok (S (length (reorder_buf_ s1))) s1 (proj1 Hk)) as (Hd & Hc & _).
  destruct (drain_reorder_buf _ s1) as [s2 out]. by split.
Qed.

Lemma handle_fin_ok e p s : session_ok s -> keeps s (handle_fin e p s).1.
Proof.
  intros Hs. unfold handle_fin. cbv zeta. destruct (_ =? _); [|by split].
  set (s1 := set_rcv_nxt_ _ s). assert (keeps s s1) as Hk by (subst s1; split; [ok_steps|done]).
  generalize dependent s1. intros s1 Hk. pose proof (proj1 Hk) as H1.
  destruct (state_ s); cbn [fst]; try (by split); try (apply (keeps_trans s s1); [done|]);
    try (by apply enter_time_wait_ok).
  - split; [ok_steps|done].
  - destruct (_ =? _); [by apply enter_time_wait_ok|]. split; [ok_steps|done].
Qed.

Lemma process_segment_ok e p s : session_ok s -> segment_ok p ->
  keeps s (process_segment ReorderSlots e p s).1.1.1.1.
Proof.
  intros Hs Hp. unfold process_segment. cbv zeta.
  set (s1 := set_keepalive_misses_ 0 _).
  assert (keeps s s1) as Hk.
  { subst s1. pose proof (so_burst_tsc _ Hs). split; [ok_steps|done]. }
  generalize dependent s1. intros s1 Hk. pose proof (proj1 Hk) as H1. apply (keeps_trans s s1); [done|].
  clear Hk. destruct (has_flag p kTcpRst).
  { destruct (rst_in_window _ _); cbn [fst]; [split; [ok_steps|done]|by split]. }
  set (s2 := if has_flag p kTcpAck then _ else s1).
  assert (keeps s1 s2) as Hk by (subst s2; destruct (has_flag _ _); [by apply handle_ack_ok|by split]).
  generalize dependent s2. intros s2 Hk. apply (keeps_trans s1 s2); [done|]. destruct Hk as [H2 _].
  pose proof (handle_data_ok p s2 H2 Hp) as Hk.
  destruct (handle_data ReorderSlots p s2) as [[[[s3 out] count] owed] flow]. cbn [fst] in Hk.
  destruct flow; [|done..]. destruct (has_flag p kTcpFin); [|done].
  apply (keeps_trans s2 s3); [done|]. pose proof (handle_fin_ok e p s3 (proj1 Hk)).
  by destruct (handle_fin e p s3).
Qed.

(** The loop returns, frees every mbuf once and keeps the invariant, as long as the free
    list has room for the burst. *)
Lemma process_loop_ok e pkts : env_ok e -> burst_ok pkts -> forall i fl dc na s,
  session_ok s -> zlen fl + zlen pkts <= kRxBurstSize ->
  exists r, process_loop ReorderSlots e i pkts fl dc na s = Some r /\ keeps s (rx_session r) /\
    rx_freed r ≡ₚ fl ++ seq i (length pkts).
Proof.
  intros He. induction 1 as [|m rest Hm _ IH]; intros i fl dc na s Hs Hl; cbn [process_loop].
  { eexists. split; [reflexivity|]. cbn [rx_session rx_freed length seq]. rewrite app_nil_r.
    split; [|done]. destruct (_ && _); [|by split]. pose proof (env_tsc _ He). split; [ok_steps|done]. }
  rewrite zlen_cons in Hl. pose proof (zlen_nonneg rest).
  assert (push_free fl i = Some (fl ++ [i])) as Hpush by (unfold push_free; by zdecides).
  assert (zlen (fl ++ [i]) + zlen rest <= kRxBurstSize) as Hl'
    by (rewrite zlen_app; change (zlen [i]) with 1; lia).
  assert (forall dc na s1, keeps s s1 -> exists r, (fl' ← push_free fl i;
    process_loop ReorderSlots e (S i) rest fl' dc na s1) = Some r /\ keeps s (rx_session r) /\
    rx_freed r ≡ₚ fl ++ seq i (length (m :: rest))) as Hnext.
  { intros dc' na' s1 Hk. rewrite Hpush. cbn [mbind option_bind].
    destruct (IH (S i) (fl ++ [i]) dc' na' s1 (proj1 Hk) Hl') as (r & -> & Hr & Hp).
    exists r. split; [done|]. split; [by apply (keeps_trans s s1)|].
    rewrite Hp, <- app_assoc. done. }
  destruct (view_safe m Hm) as [v Hv]. rewrite Hv. cbn [mbind option_bind].
  destruct v as [p|].
  2: { destruct (is_ip_fragment_safe m) as [b ->]. cbn [mbind option_bind]. apply Hnext.
       split; [ok_steps|done]. }
  pose proof (view_segment_ok m p Hm Hv) as Hp.
  destruct (negb (matches _ _)); [apply Hnext; split; [ok_steps|done]|].
  pose proof (process_segment_ok e p s Hs Hp) as Hk.
  destruct (process_segment ReorderSlots e p s) as [[[[s1 out] count] owed] flow]. cbn [fst] in Hk.
  destruct flow as [| |err].
  3: { rewrite Hpush. cbn [mbind option_bind]. eexists. split; [reflexivity|]. split; [done|].
       cbn [rx_freed length]. rewrite (Permutation_app_comm _ (fl ++ [i])), <- app_assoc. done. }
  all: destruct (Hnext (u16 (dc + count)) (na || owed) s1 Hk) as (r & Er & Hr & Hf);
    rewrite Hpush in *; cbn [mbind option_bind] in *; rewrite Er; cbn [mbind option_bind];
    eexists; (split; [reflexivity|]); done.
Qed.

(** ** The remaining operations *)

Lemma flush_ok e s : session_ok s -> env_ok e ->
  exists s' w, flush_pending_ack rte_ipv4_phdr_cksum RTE_MBUF_F_TX_IP_CKSUM RTE_MBUF_F_TX_TCP_CKSUM e s =
    Some (s', w) /\ keeps s s'.
Proof.
  intros Hs He. unfold flush_pending_ack. destruct (negb _); [eexists _, _; by split_and!|].
  destruct (send_ack_ok e s Hs He) as (s1 & w & r & -> & H1 & _ & Hc). cbn [mbind option_bind].
  destruct r; eexists _, _; (split; [reflexivity|]); (split; [ok_steps|done]).
Qed.

Lemma burst_limit_nonneg c : config_ok c -> 0 <= burst_limit c.
Proof.
  intros Hc. unfold burst_limit, kRxBurstSize. destruct (Z.ltb_spec 0 (c_max_rx_burst c)); [lia|].
  pose proof (u16_range (kDefaultRxBudgetBytes / c_mss c)). destruct (_ <? _); lia.
Qed.

Lemma burst_limit_range c : config_ok c -> burst_limit c <= kRxBurstSize.
Proof.
  intros Hc. unfold burst_limit, kRxBurstSize. pose proof (cfg_valid _ Hc) as Hv.
  destruct (Z.ltb_spec 0 (c_max_rx_burst c)).
  - revert Hv. unfold config_validate. destruct (tuple_validate _); [done|].
    destruct (_ =? _); [done|]. destruct (_ <? c_mss c); [done|]. destruct (c_recv_window c =? _); [done|].
    destruct (_ <? c_recv_window c); [done|]. destruct (Z.ltb_spec 32 (c_max_rx_burst c)); [done|lia].
  - destruct (0 <? c_mss c); lia.
Qed.

Lemma poll_ok e rx s : session_ok s -> op_ok (OPollRx e rx) ->
  exists s' x, run_op (OPollRx e rx) s = Some (s', x) /\ keeps s s'.
Proof.
  intros Hs [He Hrx]. cbn [run_op]. unfold poll_rx.
  destruct (rx_feed_ s); [|eexists _, _; split; [reflexivity|]; split; [cbn [rx_session]; ok_steps|done]].
  destruct (flush_ok e s Hs He) as (s1 & w & Hf & H1).
  destruct (feed_only_ s); [rewrite Hf; eexists _, _; by split|].
  destruct (Hrx (burst_limit (config_ s))) as [Hb Hl]; [apply burst_limit_nonneg, Hs|].
  destruct (rx (burst_limit (config_ s))) as [|m rest] eqn:Er; [rewrite Hf; eexists _, _; by split|].
  cbv zeta. set (s2 := set_last_rx_burst_tsc_ _ _).
  assert (keeps s s2) as Hk by (subst s2; pose proof (env_tsc _ He); split; [ok_steps|done]).
  generalize dependent s2. intros s2 Hk.
  pose proof (burst_limit_range _ (so_config _ Hs)).
  destruct (process_loop_ok e (m :: rest) He Hb 0 [] 0 false s2 (proj1 Hk)) as (r & Er' & Hk' & _).
  { change (zlen (@nil nat)) with 0. lia. }
  unfold process_rx. rewrite Er'. cbn [mbind option_bind]. eexists _, _. split; [reflexivity|].
  by apply (keeps_trans s s2).
Qed.

Lemma icmp_ok mtu s : session_ok s -> 0 <= mtu < 2 ^ 16 -> keeps s (on_icmp_frag_needed mtu s).
Proof.
  intros Hs Hm. unfold on_icmp_frag_needed, kIpv4HeaderLen, kTcpHeaderLen. cbv zeta.
  pose proof (so_mss _ Hs). pose proof (cfg_mss _ (so_config _ Hs)).
  destruct (Z.leb_spec mtu (20 + 20)); (split; [ok_steps|done]).
  rewrite wrap_small by lia. lia.
Qed.

Lemma keepalive_ok e tsc s : session_ok s -> op_ok (OKeepalive e tsc) ->
  exists s' x, run_op (OKeepalive e tsc) s = Some (s', x) /\ keeps s s'.
Proof.
  intros Hs [He Htsc]. cbn [run_op]. unfold tick_keepalive.
  destruct (_ =? 0); [eexists _, _; by split|]. destruct (negb _); [eexists _, _; by split|].
  destruct (last_rx_tsc_ s =? 0).
  { eexists _, _. split; [reflexivity|]. split; [ok_steps|done]. }
  assert (keeps s (keepalive_interval_cycles_ to_cycles fallback_cycles s).1) as Hk
    by (unfold keepalive_interval_cycles_; destruct (to_cycles _); (split; [cbn [fst]; ok_steps|done])).
  destruct (keepalive_interval_cycles_ to_cycles fallback_cycles s) as [s1 c]. cbn [fst] in Hk.
  pose proof (proj1 Hk) as H1.
  destruct (_ <? c); [eexists _, _; by split|]. destruct (_ && _); [eexists _, _; by split|].
  destruct (Z.leb_spec (c_keepalive_probes (config_ s1)) (keepalive_misses_ s1)) as [|Hm].
  { eexists _, _. split; [reflexivity|]. apply (keeps_trans s s1); [done|]. split; [ok_steps|done]. }
  unfold send_keepalive_probe_. tx_step H1 He. pose proof (cfg_probes _ (so_config _ H1)).
  pose proof (so_misses _ H1). change (2 ^ 8) with 256 in *.
  assert (u8 (keepalive_misses_ s1 + 1) = keepalive_misses_ s1 + 1) as Hu by (apply wrap_small; lia).
  destruct r; cbn [mbind option_bind]; eexists _, _; (split; [reflexivity|]);
    apply (keeps_trans s s1); try done; (split; [ok_steps; try (rewrite Hu; lia)|done]).
Qed.

Lemma close_ok e s : session_ok s -> env_ok e ->
  exists s' x, run_op (OClose e) s = Some (s', x) /\ keeps s s'.
Proof.
  intros Hs He. cbn [run_op]. unfold close. destruct (_ && _); [eexists _, _; by split|].
  tx_step Hs He.
  destruct r; try (eexists _, _; (split; [reflexivity|]); (split; [ok_steps|done])).
  cbv zeta. set (s1 := bump tx_packets 1 _).
  assert (keeps s s1) as Hk by (subst s1; split; [ok_steps|done]). generalize dependent s1.
  intros s1 Hk. eexists _, _. split; [reflexivity|]. apply (keeps_trans s s1); [done|].
  destruct Hk as [H1 _]. destruct (bool_decide _); (split; [ok_steps|done]).
Qed.

Lemma reset_ok e s : session_ok s -> env_ok e ->
  exists s' w, reset rte_ipv4_phdr_cksum RTE_MBUF_F_TX_IP_CKSUM RTE_MBUF_F_TX_TCP_CKSUM e s = Some (s', w) /\
    keeps s s'.
Proof.
  intros Hs He. unfold reset.
  assert (forall s1, keeps s s1 -> keeps s (forget_peer s1)) as Hf.
  { intros s1 Hk. apply (keeps_trans s s1); [done|]. destruct Hk as [H1 _]. unfold forget_peer.
    split; [ok_steps|done]. }
  tx_step Hs He. destruct r; eexists _, _; (split; [reflexivity|]); apply Hf; (split; [ok_steps|done]).
Qed.

Lemma session_init_ok c pool isn :
  config_ok c -> 0 <= ReorderSlots <= 255 -> (forall n, isn = Some n -> 0 <= n < 2 ^ 32) ->
  session_ok (session_init c pool isn).
Proof.
  intros Hc [Hr0 Hr1] Hi. pose proof Hc as [Hv ? ? ? ? ? ? ? ? ? ?].
  assert (0 < c_mss c) as Hmss.
  { revert Hv. unfold config_validate. destruct (tuple_validate _); [done|].
    destruct (Z.eqb_spec (c_mss c) 0); [done|]. lia. }
  assert (0 <= default 1 isn < 2 ^ 32) by (destruct isn; cbn; [by apply Hi|lia]).
  assert (0 <= u16 (c_recv_window c) < 2 ^ 16) by (apply wrap_range; lia).
  constructor; unfold session_init; fields; try done; try lia.
Qed.

(** One step: defined, and the invariant and the connection are kept. *)
Lemma run_op_ok op s : session_ok s -> op_ok op ->
  exists s' x, run_op op s = Some (s', x) /\ keeps s s'.
Proof.
  intros Hs Hop. destruct op; eauto using begin_connect_ok, connect_step_ok, send_ok, send_batch_ok,
    build_data_ok, poll_ok, keepalive_ok, close_ok.
  - destruct Hop as (He & Hb & Hl). cbn [run_op]. unfold process_rx.
    destruct (process_loop_ok e pkts He Hb 0 [] 0 false s Hs) as (r & -> & Hk & _).
    { change (zlen (@nil nat)) with 0. lia. } eexists _, _. by split.
  - eexists _, _. split; [reflexivity|]. by apply icmp_ok.
  - cbn [run_op]. destruct (flush_ok e s Hs Hop) as (s' & w & -> & Hk). eexists _, _. by split.
  - cbn [run_op]. destruct (reset_ok e s Hs Hop) as (s' & w & -> & Hk). eexists _, _. by split.
  - eexists _, _. split; [reflexivity|]. unfold feed_rx. split; [ok_steps|done].
  - eexists _, _. split; [reflexivity|]. unfold set_feed_only. split; [ok_steps|done].
  - eexists _, _. split; [reflexivity|]. unfold set_last_rx_burst_tsc. split; [ok_steps|done].
  - eexists _, _. split; [reflexivity|]. unfold set_arp_refresh. cbv zeta.
    destruct (0 <? interval); (split; [ok_steps|done]).
Qed.

Lemma run_ops_ok ops : forall s, session_ok s -> Forall op_ok ops ->
  exists s' x, run_ops ops s = Some (s', x) /\ keeps s s'.
Proof.
  induction ops as [|op rest IH]; intros s Hs Ho; cbn [run_ops]; [eexists _, _; by split|].
  inversion Ho; subst. destruct (run_op_ok op s Hs) as (s1 & x & -> & Hk); [done|].
  destruct (IH s1 (proj1 Hk)) as (s2 & y & E & Hk2); [done|]. cbn [mbind option_bind]. rewrite E.
  eexists _, _. split; [reflexivity|]. by apply (keeps_trans s s1).
Qed.

(** C13: The session is type-safe.  From a validated configuration, any sequence of public
    operations -- connecting, sending, batches, polling, arbitrary bytes from the network,
    ICMP, keepalive, closing, reset, each with any allocation failure and NIC
    back-pressure -- is defined (no access leaves a packet, a buffer or the free list),
    and every member stays in its type: sequence numbers are 32-bit and windows 16-bit
    values, the reorder buffer holds at most [ReorderSlots] entries of 1 to 1460 bytes,
    the effective MSS is positive and at most the configured one, the keepalive misses
    are at most the configured probes, and the packet template keeps the connection's
    addresses. *)
Theorem session_type_safe c pool isn ops :
  config_ok c -> 0 <= ReorderSlots <= 255 -> (forall n, isn = Some n -> 0 <= n < 2 ^ 32) ->
  Forall op_ok ops ->
  exists s x, run_ops ops (session_init c pool isn) = Some (s, x) /\ session_ok s /\ config_ s = c.
Proof.
  intros Hc Hr Hi Ho. destruct (run_ops_ok ops _ (session_init_ok c pool isn Hc Hr Hi) Ho)
    as (s & x & E & Hs & Hcf). exists s, x. by split.
Qed.

End ops.

(** ** Concrete instances

    The client of [demo_tuple] with three keepalive probes, a second apart; the network
    accepts every packet. *)

Definition demo_config : TcpConfig :=
  mkConfig demo_tuple [x02; x00; x00; x00; x00; x01] [x02; x00; x00; x00; x00; x02] 1460 65535 0 0 0 32 1000 3.

Definition demo_env : Env := mkEnv (Some demo_fresh) true 0 1000 0.

(** The client with an established connection: it sends from 1000 and expects 5000. *)
Definition demo_session : TcpSession :=
  set_state_ Established (set_rcv_nxt_ 5000 (session_init demo_config true (Some 1000))).

(** The server's side of the same connection, sending from 5000. *)
Definition demo_server : TcpSession :=
  set_state_ Established (set_rcv_nxt_ 1000 (session_init
    (mkConfig (mkTuple 0x0A000002 0x0A000001 443 40000) (c_dst_mac demo_config) (c_src_mac demo_config)
       1460 65535 0 0 0 32 0 0) true (Some 5000))).

(** A packet of the server to the client. *)
Definition demo_packet (seq flags : Z) (payload : list byte) : mbuf :=
  match build_packet (fun _ _ => 0) 1 2 (pkt_template_ demo_server) (Alloc demo_fresh) seq 1000 flags 65535
          (Some payload) (zlen payload) with
  | Some (_, Built m) => mkMbuf 1 (tx_data m)
  | _ => mkMbuf 1 []
  end.

Lemma demo_config_ok : config_ok demo_config.
Proof. constructor; try reflexivity; by vm_compute. Qed.

Lemma demo_env_ok : env_ok demo_env.
Proof. split; [|by vm_compute]. intros f [= <-]. apply demo_room_ok. Qed.

Lemma demo_session_ok : session_ok 8 demo_session.
Proof.
  apply ok_set_state_; [|done]. apply ok_set_rcv_nxt_; [|lia].
  apply session_init_ok; [apply demo_config_ok|lia|]. intros n [= <-]. lia.
Qed.

Lemma demo_server_ok : session_ok 8 demo_server.
Proof.
  apply ok_set_state_; [|done]. apply ok_set_rcv_nxt_; [|lia].
  apply session_init_ok; [|lia|].
  - constructor; try reflexivity; by vm_compute.
  - intros n [= <-]. lia.
Qed.

(** One packet is a burst. *)
Lemma demo_burst_ok seq flags payload :
  (zlen (mb_data (demo_packet seq flags payload)) <=? UINT16_MAX) = true -> burst_ok [demo_packet seq flags payload].
Proof. intros H%Z.leb_le. by constructor. Qed.

(** Opening, a SYN-ACK and a ping of the peer: every step is defined. *)
Lemma session_type_safe_witness :
  exists s x, run_ops (fun _ _ => 0) 1 2 8 Some id
      [OBeginConnect demo_env (Some 1000); OConnectStep demo_env demo_env [demo_packet 4999 0x12 []];
       OPollRx demo_env (fun n => if 1 <=? n then [demo_packet 5000 0x18 [x68; x69]] else [])]
      (session_init demo_config true (Some 1)) = Some (s, x) /\ session_ok 8 s /\ config_ s = demo_config.
Proof.
  apply (session_type_safe (fun _ _ => 0) 1 2 8 Some id demo_config true (Some 1)); [apply demo_config_ok|lia| |].
  - intros n [= <-]. lia.
  - constructor; [|constructor; [|constructor; [|constructor]]].
    + split; [apply demo_env_ok|]. intros n [= <-]. lia.
    + split; [apply demo_env_ok|]. split; [apply demo_env_ok|]. by apply demo_burst_ok.
    + split; [apply demo_env_ok|]. intros n Hn. destruct (Z.leb_spec 1 n).
      * split; [by apply demo_burst_ok|done].
      * split; [constructor|done].
Defined.
