(* ===== verification/TcpStates.v ===== *)
(** * The connection state machine

    The transition diagram of RFC 793 for an active opener as a function of a cause and a
    state, and the frame of each operation: which members it can change.  [tcp_state_machine]:
    every operation moves the state along the diagram, each step for a cause that the operation
    or a packet it received carries, and every segment has exactly the effect the diagram gives
    it; [live_established]: the data phase is entered by the handshake alone. *)

From stdpp Require Import relations.
From S2P Require Import Prelude Codecs PacketCore PacketParse PacketTemplate TcpSession TcpOps.

#[local] Open Scope Z_scope.

Lemma some_pair_inj {A B} (a c : A) (b d : B) : Some (a, b) = Some (c, d) -> a = c /\ b = d.
Proof. by intros [= -> ->]. Qed.

(** ** The diagram *)

(** Why a connection changes its state.  [FinReceived acked]: the peer's FIN, in order; the flag
    says whether it has acknowledged everything of ours. *)
Inductive Cause :=
| UserOpen | TimeWaitOver | SynAckReceived | UserClose | FinAcked | FinReceived (acked : bool) | AbortCause.

(** RFC 793, with one exception: a second FIN takes [Closing] to [TimeWait], where RFC 793 stays
    in [Closing]. *)
Definition next (c : Cause) (st : TcpState) : option TcpState :=
  match c, st with
  | UserOpen, Closed => Some SynSent
  | TimeWaitOver, TimeWait => Some Closed
  | SynAckReceived, SynSent => Some Established
  | UserClose, Established => Some FinWait1
  | UserClose, CloseWait => Some LastAck
  | FinAcked, FinWait1 => Some FinWait2
  | FinAcked, Closing => Some TimeWait
  | FinAcked, LastAck => Some Closed
  | FinReceived _, Established => Some CloseWait
  | FinReceived acked, FinWait1 => Some (if acked then TimeWait else Closing)
  | FinReceived _, (FinWait2 | Closing) => Some TimeWait
  | AbortCause, _ => Some Closed
  | _, _ => None
  end.

(** A path through the diagram, one cause per step. *)
Inductive path : list Cause -> TcpState -> TcpState -> Prop :=
| path_nil st : path [] st st
| path_cons c cs st st1 st2 : next c st = Some st1 -> path cs st1 st2 -> path (c :: cs) st st2.

Lemma path_one c st st' : next c st = Some st' -> path [c] st st'.
Proof. intros H. econstructor; [exact H|constructor]. Qed.

Lemma cause_path_app cs1 cs2 a b c : path cs1 a b -> path cs2 b c -> path (cs1 ++ cs2) a c.
Proof. induction 1; [done|]. intros. econstructor; eauto. Qed.

(** The effect of causes of which those that do not concern the state are ignored. *)
Definition fire (cs : list Cause) (st : TcpState) : TcpState := fold_left (fun st c => default st (next c st)) cs st.

Fixpoint applied (cs : list Cause) (st : TcpState) : list Cause :=
  match cs with
  | [] => []
  | c :: cs => match next c st with Some st' => c :: applied cs st' | None => applied cs st end
  end.

Lemma fire_path cs : forall st, path (applied cs st) st (fire cs st).
Proof.
  induction cs as [|c cs IH]; intros st; [constructor|]. unfold fire. cbn. destruct (next c st) eqn:E; cbn; [|apply IH].
  econstructor; [exact E|apply IH].
Qed.

Lemma applied_Forall (P : Cause -> Prop) cs : forall st, Forall P cs -> Forall P (applied cs st).
Proof.
  induction cs as [|c cs IH]; intros st H; [constructor|]. inversion H; subst. cbn. destruct (next c st); [constructor; auto|auto].
Qed.

(** The states after our FIN. *)
Definition past_fin (st : TcpState) : bool :=
  match st with
  | FinWait1 | FinWait2 | Closing | TimeWait | LastAck | Closed => true
  | _ => false
  end.

(** Steps without a new handshake. *)
Inductive live_edge : TcpState -> TcpState -> Prop :=
| live c st st' : next c st = Some st' -> c <> UserOpen -> c <> SynAckReceived -> live_edge st st'.

Lemma live_past_fin st st' : rtc live_edge st st' -> past_fin st = true -> past_fin st' = true.
Proof.
  induction 1 as [|a b c [k x y He Hn Hn'] _ IH]; [done|]. intros Ha. apply IH.
  destruct k, x; cbn in He; try done; injection He as <-; try done. by destruct acked.
Qed.

Lemma live_established st st' : rtc live_edge st st' -> st' = Established -> st = Established.
Proof.
  induction 1 as [|a b c [k x y He Hn Hn'] _ IH]; [done|]. intros Hc. specialize (IH Hc). subst.
  destruct k, x; cbn in He; try done. by destruct acked.
Qed.

Lemma path_live cs st st' : path cs st st' -> Forall (fun c => c <> UserOpen /\ c <> SynAckReceived) cs -> rtc live_edge st st'.
Proof.
  induction 1 as [|c cs a b d E _ IH]; intros Hf; [apply rtc_refl|]. inversion Hf as [|? ? [H1 H2] H3]; subst.
  eapply rtc_l; [by econstructor|auto].
Qed.

Lemma path_rtc c st st' : next c st = Some st' -> c <> UserOpen -> c <> SynAckReceived -> rtc live_edge st st'.
Proof. intros. apply rtc_once. by econstructor. Qed.

Lemma next_abort st : next AbortCause st = Some Closed.
Proof. by destruct st. Qed.

Lemma abort_path st : rtc live_edge st Closed.
Proof. apply (path_rtc AbortCause); [apply next_abort|done|done]. Qed.

(** One live step, decided by evaluation of the states. *)
Ltac live_step := first [apply rtc_refl | by apply (path_rtc FinAcked) | by apply (path_rtc (FinReceived true)) | by apply (path_rtc (FinReceived false)) | by apply (path_rtc UserClose)].

(** ** What one segment does *)

(** The segment acknowledges everything of ours. *)
Definition acks_all (p : Segment) (s : TcpSession) : bool :=
  has_flag p kTcpAck && ((snd_una_ s =? snd_nxt_ s) || (sg_ack p =? snd_nxt_ s) && seq_after (sg_ack p) (snd_una_ s)).

(** The session when the data of the segment is looked at. *)
Definition at_data (e : Env) (p : Segment) (s : TcpSession) : TcpSession :=
  let s := set_keepalive_misses_ 0 (set_last_rx_tsc_ (last_rx_burst_tsc_ s) (bump rx_packets 1 s)) in
  if has_flag p kTcpAck then handle_ack e p s else s.

(** Its FIN follows the last byte received in order, its own data included. *)
Definition fin_due (slots : Z) (p : Segment) (s : TcpSession) : bool :=
  has_flag p kTcpFin &&
  match handle_data slots p s with
  | (s', _, _, _, Next) => u32 (sg_seq p + sg_payload_len p) =? rcv_nxt_ s'
  | _ => false
  end.

(** What a segment means for the connection: an RST in the window, the acknowledgment of
    everything sent, a FIN in order. *)
Definition segment_causes (slots : Z) (e : Env) (p : Segment) (s : TcpSession) : list Cause :=
  if has_flag p kTcpRst then (if rst_in_window (sg_seq p) s then [AbortCause] else []) else
  (if acks_all p s then [FinAcked] else []) ++
  (if fin_due slots p (at_data e p s) then [FinReceived (acks_all p s || (snd_una_ s =? snd_nxt_ s))] else []).

Lemma seq_after_refl a : seq_after a a = false.
Proof. unfold seq_after. by rewrite Z.sub_diag. Qed.

Lemma handle_ack_next e p s : let all := (snd_una_ s =? snd_nxt_ s) || (sg_ack p =? snd_nxt_ s) && seq_after (sg_ack p) (snd_una_ s) in
  state_ (handle_ack e p s) = fire (if all then [FinAcked] else []) (state_ s) /\
  (snd_una_ (handle_ack e p s) =? snd_nxt_ (handle_ack e p s)) = all.
Proof.
  unfold handle_ack, enter_time_wait. cbv zeta.
  set (una := if seq_after (sg_ack p) (snd_una_ s) && negb (seq_after (sg_ack p) (snd_nxt_ s)) then sg_ack p else snd_una_ s).
  assert ((una =? snd_nxt_ s) = (snd_una_ s =? snd_nxt_ s) || (sg_ack p =? snd_nxt_ s) && seq_after (sg_ack p) (snd_una_ s)) as E.
  { subst una. destruct (seq_after (sg_ack p) (snd_una_ s)) eqn:Ea; cbn [andb]; [|by rewrite andb_false_r, orb_false_r]. rewrite andb_true_r.
    destruct (Z.eqb_spec (sg_ack p) (snd_nxt_ s)) as [->|Hne]; [by rewrite seq_after_refl, Z.eqb_refl, orb_true_r|]. rewrite orb_false_r.
    destruct (seq_after (sg_ack p) (snd_nxt_ s)) eqn:Eb; cbn [negb]; [done|]. rewrite (proj2 (Z.eqb_neq _ _) Hne). symmetry. apply Z.eqb_neq. congruence. }
  assert ((if seq_after (sg_ack p) (snd_una_ s) && negb (seq_after (sg_ack p) (snd_nxt_ s)) then set_snd_una_ (sg_ack p) s else s) = set_snd_una_ una s) as ->.
  { subst una. destruct (_ && _); [done|]. by destruct s. }
  fields. rewrite E. destruct (_ || _) eqn:Eall; [|fields; by rewrite E].
  destruct (state_ s) eqn:Est; fields; rewrite ?Est, E; done.
Qed.

Lemma drain_frame fuel : forall s, state_ (drain_reorder_buf fuel s).1 = state_ s /\ snd_una_ (drain_reorder_buf fuel s).1 = snd_una_ s /\ snd_nxt_ (drain_reorder_buf fuel s).1 = snd_nxt_ s.
Proof.
  induction fuel as [|f IH]; intros s; cbn [drain_reorder_buf]; [done|]. destruct (find_entry _ _) as [i|]; [|done].
  destruct (_ !! i); [|done]. cbv zeta. set (s1 := set_reorder_buf_ _ _). specialize (IH s1). by destruct (drain_reorder_buf f s1).
Qed.

Lemma handle_data_frame slots p s s' out c o flow : handle_data slots p s = (s', out, c, o, flow) ->
  state_ s' = state_ s /\ snd_una_ s' = snd_una_ s /\ snd_nxt_ s' = snd_nxt_ s.
Proof.
  unfold handle_data. destruct (negb _); [by intros [= <- _ _ _ _]|]. destruct (_ && _).
  - unfold handle_out_of_order. cbv zeta. set (s1 := if seq_after _ _ then _ else _).
    assert (state_ s1 = state_ s /\ snd_una_ s1 = snd_una_ s /\ snd_nxt_ s1 = snd_nxt_ s) as H1 by (subst s1; by destruct (seq_after _ _)).
    generalize dependent s1. intros s1 H1. destruct (_ <? _); [by intros [= <- _ _ _ _]|]. destruct (sg_payload p);
      repeat match goal with |- context [if ?c then _ else _] => destruct c end; by intros [= <- _ _ _ _].
  - destruct (sg_payload p); [|by intros [= <- _ _ _ _]]. destruct (0 <? _); [|by intros [= <- _ _ _ _]].
    cbv zeta. set (s1 := bump _ _ _). pose proof (drain_frame (S (length (reorder_buf_ s1))) s1) as H.
    destruct (drain_reorder_buf _ s1). by intros [= <- _ _ _ _].
Qed.

Lemma fire_app cs1 cs2 st : fire (cs1 ++ cs2) st = fire cs2 (fire cs1 st).
Proof. unfold fire. apply fold_left_app. Qed.

(** A segment has exactly the effect the diagram gives to what it means. *)
Lemma process_segment_next slots e p s : state_ (process_segment slots e p s).1.1.1.1 = fire (segment_causes slots e p s) (state_ s).
Proof.
  unfold process_segment, segment_causes, acks_all. cbv zeta.
  change (rst_in_window (sg_seq p) (set_keepalive_misses_ 0 (set_last_rx_tsc_ (last_rx_burst_tsc_ (bump rx_packets 1 s)) (bump rx_packets 1 s)))) with (rst_in_window (sg_seq p) s).
  destruct (has_flag p kTcpRst); [destruct (rst_in_window _ _); [|done]; unfold fire; cbn [fold_left]; by rewrite next_abort|].
  change (if has_flag p kTcpAck then handle_ack e p (set_keepalive_misses_ 0 (set_last_rx_tsc_ (last_rx_burst_tsc_ (bump rx_packets 1 s)) (bump rx_packets 1 s)))
    else set_keepalive_misses_ 0 (set_last_rx_tsc_ (last_rx_burst_tsc_ (bump rx_packets 1 s)) (bump rx_packets 1 s))) with (at_data e p s).
  set (all := (snd_una_ s =? snd_nxt_ s) || (sg_ack p =? snd_nxt_ s) && seq_after (sg_ack p) (snd_una_ s)).
  assert (state_ (at_data e p s) = fire (if has_flag p kTcpAck && all then [FinAcked] else []) (state_ s) /\
    (snd_una_ (at_data e p s) =? snd_nxt_ (at_data e p s)) = (has_flag p kTcpAck && all || (snd_una_ s =? snd_nxt_ s))) as [E1 E2].
  { unfold at_data. destruct (has_flag p kTcpAck); cbn [andb orb]; [|done]. destruct (handle_ack_next e p (set_keepalive_misses_ 0 (set_last_rx_tsc_ (last_rx_burst_tsc_ s) (bump rx_packets 1 s)))) as [-> ->].
    split; [done|]. fold all. change (all = all || (snd_una_ s =? snd_nxt_ s)). subst all. by destruct (snd_una_ s =? snd_nxt_ s); [|rewrite orb_false_r]. }
  rewrite fire_app, <- E1, <- E2. generalize (at_data e p s). intros s1. unfold fin_due.
  destruct (handle_data slots p s1) as [[[[s3 out] c] o] flow] eqn:Ed. destruct (handle_data_frame _ _ _ _ _ _ _ _ Ed) as (F1 & F2 & F3).
  destruct flow; cbn [fst]; rewrite ?andb_false_r; [|by rewrite F1..]. destruct (has_flag p kTcpFin); cbn [andb fst]; [|done].
  unfold handle_fin, enter_time_wait. cbv zeta. destruct (_ =? rcv_nxt_ s3); [|done]. rewrite <- F1, <- F2, <- F3.
  destruct (state_ s3) eqn:Es; cbn [fst]; fields; rewrite ?Es; try done. by destruct (snd_una_ s3 =? snd_nxt_ s3).
Qed.

(** The flags a cause is announced by. *)
Definition signals (p : Segment) (c : Cause) : Prop :=
  match c with
  | AbortCause => has_flag p kTcpRst = true
  | FinAcked => has_flag p kTcpAck = true
  | FinReceived _ => has_flag p kTcpFin = true
  | _ => False
  end.

Lemma segment_causes_signalled slots e p s : Forall (signals p) (segment_causes slots e p s).
Proof.
  unfold segment_causes. destruct (has_flag p kTcpRst) eqn:E; [destruct (rst_in_window _ _); by repeat constructor|].
  apply Forall_app. split.
  - unfold acks_all. destruct (has_flag p kTcpAck) eqn:Ea; cbn [andb]; [|done]. destruct (_ || _); by repeat constructor.
  - unfold fin_due. destruct (has_flag p kTcpFin) eqn:Ef; cbn [andb]; [|done]. destruct (handle_data slots p (at_data e p s)) as [[[[s3 out] c] o] []]; try done. destruct (_ =? _); by repeat constructor.
Qed.

(** A packet of the burst announces the cause. *)
Definition carried (pkts : list mbuf) (c : Cause) : Prop := exists m p, m ∈ pkts /\ view m = Some (Some p) /\ signals p c.

(** A packet of the burst is a SYN-ACK. *)
Definition has_syn_ack (pkts : list mbuf) : Prop :=
  exists m p, m ∈ pkts /\ view m = Some (Some p) /\ has_flag p kTcpSyn = true /\ has_flag p kTcpAck = true.

(** What a burst does to a connection that is being opened. *)
Definition handshake_causes (pkts : list mbuf) (cs : list Cause) : Prop :=
  cs = [] \/ cs = [AbortCause] /\ carried pkts AbortCause \/ cs = [SynAckReceived] /\ has_syn_ack pkts.

Lemma handshake_causes_cons m pkts cs : handshake_causes pkts cs -> handshake_causes (m :: pkts) cs.
Proof.
  intros [H|[[H (m' & p & Hm & Hp)]|[H (m' & p & Hm & Hp)]]]; [by left|right; left|right; right]; (split; [done|]); exists m', p; (split; [by right|done]).
Qed.

(** ** What the receive path can change *)

Record same_tx (s s' : TcpSession) : Prop := {
  st_config : config_ s' = config_ s;
  st_pool : pool_ s' = pool_ s;
  st_template : pkt_template_ s' = pkt_template_ s;
  st_snd_nxt : snd_nxt_ s' = snd_nxt_ s;
  st_rcv_wnd : rcv_wnd_ s' = rcv_wnd_ s;
  st_mss : effective_mss_ s' = effective_mss_ s;
  st_feed : rx_feed_ s' = rx_feed_ s;
  st_feed_only : feed_only_ s' = feed_only_ s
}.

Lemma same_tx_trans s1 s2 s3 : same_tx s1 s2 -> same_tx s2 s3 -> same_tx s1 s3.
Proof. intros [] []. constructor; congruence. Qed.

(** The receive path neither sends nor reconfigures, and follows live edges. *)
Definition rx_step (s s' : TcpSession) : Prop := same_tx s s' /\ rtc live_edge (state_ s) (state_ s').

Lemma rx_step_trans s1 s2 s3 : rx_step s1 s2 -> rx_step s2 s3 -> rx_step s1 s3.
Proof. intros [? ?] [? ?]. split; [by apply (same_tx_trans s1 s2)|by etrans]. Qed.

Lemma rx_step_quiet s s' : same_tx s s' -> state_ s' = state_ s -> rx_step s s'.
Proof. intros H E. split; [done|]. rewrite E. apply rtc_refl. Qed.

Lemma drain_step fuel : forall s, rx_step s (drain_reorder_buf fuel s).1.
Proof.
  induction fuel as [|f IH]; intros s; cbn [drain_reorder_buf]; [by apply rx_step_quiet|].
  destruct (find_entry _ _) as [i|]; [|by apply rx_step_quiet].
  destruct (_ !! i); [|by apply rx_step_quiet]. cbv zeta.
  set (s1 := set_reorder_buf_ _ _). assert (rx_step s s1) by (by apply rx_step_quiet).
  specialize (IH s1). destruct (drain_reorder_buf f s1). by apply (rx_step_trans s s1).
Qed.

Lemma handle_ack_step e p s : rx_step s (handle_ack e p s).
Proof.
  unfold handle_ack, enter_time_wait. cbv zeta. set (s1 := set_snd_wnd_ _ _).
  assert (rx_step s s1) as H1 by (subst s1; destruct (_ && _); by apply rx_step_quiet).
  generalize dependent s1. intros s1 H1. apply (rx_step_trans s s1); [done|].
  destruct (_ =? _); [|by apply rx_step_quiet].
  destruct (state_ s1) eqn:E; try (by apply rx_step_quiet); (split; [done|]); rewrite E; fields; live_step.
Qed.

Lemma handle_data_step slots p s : rx_step s (handle_data slots p s).1.1.1.1.
Proof.
  unfold handle_data. destruct (negb _); [by apply rx_step_quiet|]. destruct (_ && _).
  - assert (rx_step s (handle_out_of_order slots p s).1) as H; [|by destruct (handle_out_of_order slots p s)].
    unfold handle_out_of_order. cbv zeta. set (s1 := if seq_after _ _ then _ else _).
    assert (rx_step s s1) as H1 by (subst s1; destruct (seq_after _ _); by apply rx_step_quiet).
    generalize dependent s1. intros s1 H1. apply (rx_step_trans s s1); [done|].
    destruct (_ <? _); [by apply rx_step_quiet|]. destruct (sg_payload p);
      repeat match goal with |- context [if ?c then _ else _] => destruct c end; by apply rx_step_quiet.
  - destruct (sg_payload p); [|by apply rx_step_quiet]. destruct (0 <? _); [|by apply rx_step_quiet].
    cbv zeta. set (s1 := bump _ _ _). assert (rx_step s s1) as H1 by (by apply rx_step_quiet).
    generalize dependent s1. intros s1 H1. pose proof (drain_step (S (length (reorder_buf_ s1))) s1).
    destruct (drain_reorder_buf _ s1). by apply (rx_step_trans s s1).
Qed.

Lemma handle_fin_step e p s : rx_step s (handle_fin e p s).1.
Proof.
  unfold handle_fin, enter_time_wait. cbv zeta. destruct (_ =? _); [|by apply rx_step_quiet].
  destruct (state_ s) eqn:E; try (by apply rx_step_quiet); try (split; [done|]; rewrite E; cbn [fst]; fields; live_step).
  fields. destruct (_ =? _); (split; [done|]); rewrite E; cbn [fst]; fields; live_step.
Qed.

Lemma process_segment_step slots e p s : rx_step s (process_segment slots e p s).1.1.1.1.
Proof.
  unfold process_segment. cbv zeta. set (s1 := set_keepalive_misses_ 0 _).
  assert (rx_step s s1) as H1 by (by apply rx_step_quiet). generalize dependent s1. intros s1 H1.
  apply (rx_step_trans s s1); [done|]. clear H1. destruct (has_flag p kTcpRst).
  { destruct (rst_in_window _ _); [|by apply rx_step_quiet]. split; [done|]. cbn [fst]. fields. apply abort_path. }
  set (s2 := if has_flag p kTcpAck then _ else s1).
  assert (rx_step s1 s2) as H2 by (subst s2; destruct (has_flag _ _); [apply handle_ack_step|by apply rx_step_quiet]).
  generalize dependent s2. intros s2 H2. apply (rx_step_trans s1 s2); [done|]. clear H2.
  pose proof (handle_data_step slots p s2) as H3.
  destruct (handle_data slots p s2) as [[[[s3 out] c] o] flow]. cbn [fst] in H3.
  destruct flow; [|done..]. destruct (has_flag p kTcpFin); [|done].
  pose proof (handle_fin_step e p s3). destruct (handle_fin e p s3). by apply (rx_step_trans s2 s3).
Qed.

Lemma process_loop_step slots e pkts : forall i fl dc na s r,
  process_loop slots e i pkts fl dc na s = Some r -> rx_step s (rx_session r).
Proof.
  induction pkts as [|m rest IH]; intros i fl dc na s r; cbn [process_loop].
  { intros [= <-]. cbn [rx_session]. destruct (_ && _); by apply rx_step_quiet. }
  destruct (view m) as [v|]; [|done]. cbn [mbind option_bind].
  assert (forall dc na s1, rx_step s s1 -> (fl' ← push_free fl i; process_loop slots e (S i) rest fl' dc na s1) =
    Some r -> rx_step s (rx_session r)) as Hskip.
  { intros dc' na' s1 H1 E. destruct (push_free fl i); [|done]. apply IH in E. by apply (rx_step_trans s s1). }
  destruct v as [p|].
  2: { destruct (is_ip_fragment _); [|done]. apply Hskip. by apply rx_step_quiet. }
  destruct (negb _); [apply Hskip; by apply rx_step_quiet|].
  pose proof (process_segment_step slots e p s) as H1.
  destruct (process_segment slots e p s) as [[[[s1 out] c] o] flow]. cbn [fst] in H1.
  destruct flow; (destruct (push_free fl i) as [fl'|]; [|done]); cbn [mbind option_bind].
  3: by intros [= <-].
  all: destruct (process_loop _ _ _ _ _ _ _ _) eqn:E; [|done]; apply IH in E; cbn [mbind option_bind];
    intros [= <-]; by apply (rx_step_trans s s1).
Qed.

Lemma carried_cons m pkts cs : Forall (carried pkts) cs -> Forall (carried (m :: pkts)) cs.
Proof. intros H. eapply list.Forall_impl; [exact H|]. intros c (m' & p & Hm & Hv & Hc). exists m', p. split; [by right|done]. Qed.

(** A burst moves the state for causes that its packets announce. *)
Lemma process_loop_path slots e pkts : forall i fl dc na s r, process_loop slots e i pkts fl dc na s = Some r ->
  exists cs, path cs (state_ s) (state_ (rx_session r)) /\ Forall (carried pkts) cs.
Proof.
  induction pkts as [|m rest IH]; intros i fl dc na s r; cbn [process_loop].
  { intros [= <-]. exists []. split; [|constructor]. cbn [rx_session]. destruct (_ && _); apply path_nil. }
  destruct (view m) as [v|] eqn:Ev; [|done]. cbn [mbind option_bind].
  assert (forall dc na s1, state_ s1 = state_ s -> (fl' ← push_free fl i; process_loop slots e (S i) rest fl' dc na s1) = Some r ->
    exists cs, path cs (state_ s) (state_ (rx_session r)) /\ Forall (carried (m :: rest)) cs) as Hskip.
  { intros dc' na' s1 H1 E. destruct (push_free fl i); [|done]. apply IH in E as (cs & Hp & Hc). rewrite H1 in Hp. exists cs. split; [done|by apply carried_cons]. }
  destruct v as [p|].
  2: { destruct (is_ip_fragment _); [|done]. by apply Hskip. }
  destruct (negb _); [by apply Hskip|].
  pose proof (process_segment_next slots e p s) as Hn. pose proof (fire_path (segment_causes slots e p s) (state_ s)) as Hp1. rewrite <- Hn in Hp1.
  pose proof (applied_Forall _ _ (state_ s) (segment_causes_signalled slots e p s)) as Hc1. set (cs1 := applied _ _) in *. clearbody cs1.
  assert (Forall (carried (m :: rest)) cs1) as Hc1'.
  { eapply list.Forall_impl; [exact Hc1|]. intros c Hc. exists m, p. split; [left|done]. }
  destruct (process_segment slots e p s) as [[[[s1 out] c] o] flow]. cbn [fst] in Hp1.
  destruct flow; (destruct (push_free fl i) as [fl'|]; [|done]); cbn [mbind option_bind].
  3: { intros [= <-]. by exists cs1. }
  all: destruct (process_loop _ _ _ _ _ _ _ _) eqn:E; [|done]; apply IH in E as (cs2 & Hp2 & Hc2); cbn [mbind option_bind];
    intros [= <-]; exists (cs1 ++ cs2); split; [by eapply cause_path_app|apply Forall_app; split; [done|by apply carried_cons]].
Qed.

(** ** Operations that do not touch the receive state *)

Record same_rx (s s' : TcpSession) : Prop := {
  sr_nxt : rcv_nxt_ s' = rcv_nxt_ s;
  sr_buf : reorder_buf_ s' = reorder_buf_ s;
  sr_feed : rx_feed_ s' = rx_feed_ s;
  sr_config : config_ s' = config_ s
}.

Lemma same_rx_trans s1 s2 s3 : same_rx s1 s2 -> same_rx s2 s3 -> same_rx s1 s3.
Proof. intros [] []. constructor; congruence. Qed.

Section operations.
Context (rte_ipv4_phdr_cksum : list byte -> Z -> Z).
Context (RTE_MBUF_F_TX_IP_CKSUM RTE_MBUF_F_TX_TCP_CKSUM : Z).
Context (ReorderSlots : Z).
Context (to_cycles : Z -> option Z) (fallback_cycles : Z -> Z).

#[local] Abbreviation run_op := (run_op rte_ipv4_phdr_cksum RTE_MBUF_F_TX_IP_CKSUM RTE_MBUF_F_TX_TCP_CKSUM
  ReorderSlots to_cycles fallback_cycles).
#[local] Abbreviation run_ops := (run_ops rte_ipv4_phdr_cksum RTE_MBUF_F_TX_IP_CKSUM RTE_MBUF_F_TX_TCP_CKSUM
  ReorderSlots to_cycles fallback_cycles).
#[local] Abbreviation transmit := (transmit rte_ipv4_phdr_cksum RTE_MBUF_F_TX_IP_CKSUM RTE_MBUF_F_TX_TCP_CKSUM).
#[local] Abbreviation build_packet := (build_packet rte_ipv4_phdr_cksum RTE_MBUF_F_TX_IP_CKSUM RTE_MBUF_F_TX_TCP_CKSUM).

Lemma transmit_frame e seq ack fl win pl len s s' r :
  transmit e seq ack fl win pl len s = Some (s', r) -> exists t, s' = set_pkt_template_ t s.
Proof.
  unfold TcpSession.transmit. destruct (build_packet _ _ _ _ _ _ _ _) as [[t b]|]; [|done].
  cbn [mbind option_bind]. destruct b; intros [= <- <-]; eauto.
Qed.

Lemma send_ack_frame e s s' w r :
  send_ack rte_ipv4_phdr_cksum RTE_MBUF_F_TX_IP_CKSUM RTE_MBUF_F_TX_TCP_CKSUM e s = Some (s', w, r) ->
  same_rx s s'.
Proof.
  unfold send_ack. destruct (transmit _ _ _ _ _ _ _ _) as [[s1 x]|] eqn:E; [|done].
  apply transmit_frame in E as [t ->]. cbn [mbind option_bind]. destruct x; intros [= <- <- <-]; done.
Qed.

Lemma flush_frame e s s' w :
  flush_pending_ack rte_ipv4_phdr_cksum RTE_MBUF_F_TX_IP_CKSUM RTE_MBUF_F_TX_TCP_CKSUM e s = Some (s', w) ->
  same_rx s s'.
Proof.
  unfold flush_pending_ack. destruct (negb _); [by intros [= <- <-]|].
  destruct (send_ack _ _ _ _ _) as [[[s1 w1] r]|] eqn:E; [|done]. apply send_ack_frame in E.
  cbn [mbind option_bind]. destruct r; intros [= <- <-]; [|done]. by apply (same_rx_trans s s1).
Qed.

Lemma prepare_frame allocs segs : forall mbufs lens s s' m l,
  prepare_batch rte_ipv4_phdr_cksum RTE_MBUF_F_TX_IP_CKSUM RTE_MBUF_F_TX_TCP_CKSUM allocs segs mbufs lens s =
    Some (s', m, l) -> exists t, s' = set_pkt_template_ t s.
Proof.
  revert allocs. induction segs as [|d rest IH]; intros allocs mbufs lens s s' m l; cbn [prepare_batch].
  { intros [= <- <- <-]. exists (pkt_template_ s). by destruct s. }
  destruct (_ <? _). { intros [= <- <- <-]. exists (pkt_template_ s). by destruct s. }
  destruct (build_packet _ _ _ _ _ _ _ _) as [[t b]|]; [|done]. cbn [mbind option_bind].
  destruct b; try (intros [= <- <- <-]; by eauto).
  intros E. apply IH in E as [t' ->]. by exists t'.
Qed.

Definition within_connection (op : Op) : Prop :=
  match op with
  | OBeginConnect _ _ | OConnectStep _ _ _ | OReset _ | OFeed _ => False
  | _ => True
  end.

Definition receives (op : Op) : bool :=
  match op with OProcessRx _ _ | OPollRx _ _ => true | _ => false end.

Lemma run_op_same_rx op s s' x :
  within_connection op -> receives op = false -> run_op op s = Some (s', x) ->
  same_rx s s' /\ eff_chunks x = [].
Proof.
  destruct op; try done; intros _ _; cbn [TcpOps.run_op].
  - unfold send. destruct (negb _); [by intros [= <- <-]|]. destruct (_ <? _); [by intros [= <- <-]|].
    destruct (transmit _ _ _ _ _ _ _ _) as [[s1 r]|] eqn:E; [|done]. apply transmit_frame in E as [t ->].
    cbn [mbind option_bind]. destruct r; by intros [= <- <-].
  - unfold send_batch. destruct (negb _); [by intros [= <- <-]|].
    destruct (prepare_batch _ _ _ _ _ _ _ _) as [[[s1 m] l]|] eqn:E; [|done].
    apply prepare_frame in E as [t ->]. cbn [mbind option_bind].
    destruct (decide _); [by intros [= <- <-]|]. cbn [mbind option_bind]. intros [= <- <-].
    by destruct (decide _).
  - unfold build_data_packet. destruct (_ || _); [by intros [= <- <-]|].
    destruct (fill_packet _ _ _ _ _ _ _ _ _ _ _) as [[[t w] tx]|]; [|done]. cbn [mbind option_bind].
    destruct tx; [|by intros [= <- <-]]. destruct (w =? 0); by intros [= <- <-].
  - intros [= <- <-]. unfold on_icmp_frag_needed. cbv zeta. by destruct (_ <=? _).
  - unfold tick_keepalive. destruct (_ =? 0); [by intros [= <- <-]|].
    destruct (negb _); [by intros [= <- <-]|]. destruct (last_rx_tsc_ s =? 0); [by intros [= <- <-]|].
    assert (same_rx s (keepalive_interval_cycles_ to_cycles fallback_cycles s).1) as H1
      by (unfold keepalive_interval_cycles_; by destruct (to_cycles _)).
    destruct (keepalive_interval_cycles_ _ _ s) as [s1 c]. cbn [fst] in H1.
    destruct (_ <? c); [by intros [= <- <-]|]. destruct (_ && _); [by intros [= <- <-]|].
    destruct (_ <=? _); [intros [= <- <-]; split; [by apply (same_rx_trans s s1)|done]|].
    unfold send_keepalive_probe_.
    destruct (transmit _ _ _ _ _ _ _ _) as [[s2 r]|] eqn:E; [|done]. apply transmit_frame in E as [t ->].
    cbn [mbind option_bind]. destruct r; cbn [mbind option_bind]; intros [= <- <-];
      (split; [by apply (same_rx_trans s s1)|done]).
  - destruct (flush_pending_ack _ _ _ _ _) as [[s1 w]|] eqn:E; [|done]. apply flush_frame in E.
    cbn [mbind option_bind]. by intros [= <- <-].
  - unfold close. destruct (_ && _); [by intros [= <- <-]|].
    destruct (transmit _ _ _ _ _ _ _ _) as [[s1 r]|] eqn:E; [|done]. apply transmit_frame in E as [t ->].
    cbn [mbind option_bind]. destruct r; [by intros [= <- <-]..|]. cbv zeta. intros [= <- <-].
    by destruct (bool_decide _).
  - by intros [= <- <-].
  - by intros [= <- <-].
  - intros [= <- <-]. unfold set_arp_refresh. cbv zeta. by destruct (_ <? _).
Qed.

(** ** Every operation follows the diagram *)

Lemma transmit_state e seq ack fl win pl len s s' r :
  transmit e seq ack fl win pl len s = Some (s', r) -> state_ s' = state_ s.
Proof. intros E. by apply transmit_frame in E as [t ->]. Qed.

Lemma send_ack_state e s s' w r :
  send_ack rte_ipv4_phdr_cksum RTE_MBUF_F_TX_IP_CKSUM RTE_MBUF_F_TX_TCP_CKSUM e s = Some (s', w, r) ->
  state_ s' = state_ s.
Proof.
  unfold send_ack. destruct (transmit _ _ _ _ _ _ _ _) as [[s1 x]|] eqn:E; [|done].
  apply transmit_frame in E as [t ->]. cbn [mbind option_bind]. destruct x; by intros [= <- <- <-].
Qed.

Lemma flush_state e s s' w :
  flush_pending_ack rte_ipv4_phdr_cksum RTE_MBUF_F_TX_IP_CKSUM RTE_MBUF_F_TX_TCP_CKSUM e s = Some (s', w) ->
  state_ s' = state_ s.
Proof.
  unfold flush_pending_ack. destruct (negb _); [by intros [= <- <-]|].
  destruct (send_ack _ _ _ _ _) as [[[s1 w1] r]|] eqn:E; [|done]. apply send_ack_state in E.
  cbn [mbind option_bind]. destruct r; intros [= <- <-]; done.
Qed.

(** Operations on a connection that do not start a new one. *)
Definition no_handshake (op : Op) : Prop :=
  match op with OBeginConnect _ _ | OConnectStep _ _ _ => False | _ => True end.

Lemma handshake_path e pkts : forall i s s' w fr r,
  handle_handshake_burst_ rte_ipv4_phdr_cksum RTE_MBUF_F_TX_IP_CKSUM RTE_MBUF_F_TX_TCP_CKSUM e i pkts s = Some (s', w, fr, r) -> state_ s = SynSent ->
  exists cs, handshake_causes pkts cs /\ path cs SynSent (state_ s').
Proof.
  induction pkts as [|m rest IH]; intros i s s' w fr r; cbn [handle_handshake_burst_].
  { intros [= <- <- <- <-] ->. exists []. split; [by left|constructor]. }
  intros E Hs. revert E.
  assert (forall s1, state_ s1 = state_ s ->
    ('(s2, out, freed, r) ← handle_handshake_burst_ rte_ipv4_phdr_cksum RTE_MBUF_F_TX_IP_CKSUM
       RTE_MBUF_F_TX_TCP_CKSUM e (S i) rest s1; Some (s2, out, i :: freed, r)) = Some (s', w, fr, r) ->
    exists cs, handshake_causes (m :: rest) cs /\ path cs SynSent (state_ s')) as Hskip.
  { intros s1 E1 E. destruct (handle_handshake_burst_ _ _ _ _ _ _ _) as [[[[s2 o] f] r2]|] eqn:E2; [|done].
    apply IH in E2 as (cs & H1 & H2); [|congruence]. injection E as <- <- <- <-. exists cs. split; [by apply handshake_causes_cons|done]. }
  destruct (view m) as [v|] eqn:Ev; [|done]. cbn [mbind option_bind]. destruct v as [p|]; [|by apply Hskip].
  destruct (negb _); [by apply Hskip|]. destruct (has_flag p kTcpRst) eqn:Er.
  { intros [= <- <- <- <-]. exists [AbortCause]. split; [|by apply path_one]. right. left. split; [done|]. exists m, p. split; [left|done]. }
  destruct (has_flag p kTcpSyn && has_flag p kTcpAck) eqn:Ef; [|by apply Hskip]. apply andb_true_iff in Ef. destruct (negb _); [by apply Hskip|].
  assert (forall s, state_ (accept_syn_ack p s) = state_ s) as Ha.
  { intros s1. unfold accept_syn_ack. cbv zeta. destruct (_ && _); [|done]. by destruct (_ <? _). }
  destruct (send_ack _ _ _ _ _) as [[[s2 w2] r2]|] eqn:E; [|done]. apply send_ack_state in E.
  rewrite Ha in E. cbn [mbind option_bind]. destruct r2; intros [= <- <- <- <-].
  - exists [SynAckReceived]. split; [|by apply path_one]. right. right. split; [done|]. exists m, p. split; [left|done].
  - exists []. split; [by left|]. rewrite E. fields. rewrite Hs. constructor.
Qed.

(** The causes an operation can have. *)
Definition raises (op : Op) (cs : list Cause) : Prop :=
  match op with
  | OBeginConnect _ _ => cs = [] \/ cs = [TimeWaitOver] \/ cs = [UserOpen] \/ cs = [TimeWaitOver; UserOpen]
  | OConnectStep _ _ pkts => handshake_causes pkts cs
  | OProcessRx _ pkts => Forall (carried pkts) cs
  | OPollRx _ rx => exists n, Forall (carried (rx n)) cs
  | OKeepalive _ _ => cs = [] \/ cs = [AbortCause]
  | OClose _ => cs = [] \/ cs = [UserClose]
  | OReset _ => cs = [AbortCause]
  | _ => cs = []
  end.

(** [begin_connect] and [close] move the state exactly when they have sent their packet. *)
Lemma begin_connect_state e isn s s' w r :
  begin_connect rte_ipv4_phdr_cksum RTE_MBUF_F_TX_IP_CKSUM RTE_MBUF_F_TX_TCP_CKSUM e isn s = Some (s', w, r) ->
  exists cs, (cs = [] \/ cs = [TimeWaitOver]) /\ path (cs ++ if r is Ok _ then [UserOpen] else []) (state_ s) (state_ s').
Proof.
  unfold begin_connect. destruct (_ && _); [intros [= <- <- <-]; exists []; split; [by left|constructor]|].
  set (s1 := if bool_decide (state_ s = TimeWait) then _ else s).
  assert (exists cs, (cs = [] \/ cs = [TimeWaitOver]) /\ path cs (state_ s) (state_ s1)) as (cs & Hcs & H1).
  { subst s1. case_bool_decide as E; [exists [TimeWaitOver]|exists []]; (split; [by auto|]); [rewrite E; by apply path_one|constructor]. }
  generalize dependent s1. intros s1 H1.
  destruct (decide (state_ s1 = Closed)) as [Hc|Hc].
  2: { rewrite bool_decide_eq_false_2 by done. intros [= <- <- <-]. exists cs. split; [done|]. by rewrite app_nil_r. }
  rewrite bool_decide_eq_true_2 by done. cbn [negb]. destruct isn as [n|]; [|intros [= <- <- <-]; exists cs; split; [done|]; by rewrite app_nil_r].
  assert (state_ (restart n s1) = Closed) as H2 by exact Hc. revert H2. generalize (restart n s1).
  intros s2 H2. destruct (transmit _ _ _ _ _ _ _ _) as [[s3 r1]|] eqn:E; [|done]. apply transmit_frame in E as [t ->].
  rewrite Hc in H1. cbn [mbind option_bind]. exists cs. split; [done|]. destruct r1; simplify_eq; fields; rewrite ?app_nil_r, ?H2; try done.
  eapply cause_path_app; [exact H1|by apply path_one].
Qed.

Lemma close_state e s s' w r :
  close rte_ipv4_phdr_cksum RTE_MBUF_F_TX_IP_CKSUM RTE_MBUF_F_TX_TCP_CKSUM e s = Some (s', w, r) ->
  path (if r is Ok _ then [UserClose] else []) (state_ s) (state_ s').
Proof.
  unfold close. destruct (_ && _) eqn:Hst; [intros [= <- <- <-]; constructor|].
  destruct (transmit _ _ _ _ _ _ _ _) as [[s1 r1]|] eqn:E; [|done]. apply transmit_frame in E as [t ->].
  cbn [mbind option_bind]. destruct r1; [intros [= <- <- <-]; constructor..|]. cbv zeta. intros [= <- <- <-]. fields.
  destruct (state_ s) eqn:Es; cbn in Hst; try done; cbn; by apply path_one.
Qed.

Lemma keepalive_state e tsc s s' w :
  tick_keepalive rte_ipv4_phdr_cksum RTE_MBUF_F_TX_IP_CKSUM RTE_MBUF_F_TX_TCP_CKSUM to_cycles fallback_cycles e tsc s = Some (s', w) ->
  state_ s' = state_ s \/ state_ s' = Closed.
Proof.
  unfold tick_keepalive. destruct (_ =? 0); [intros [= <- <-]; by left|].
  destruct (negb _); [intros [= <- <-]; by left|]. destruct (last_rx_tsc_ s =? 0); [intros [= <- <-]; by left|].
  assert (state_ (keepalive_interval_cycles_ to_cycles fallback_cycles s).1 = state_ s) as H1
    by (unfold keepalive_interval_cycles_; by destruct (to_cycles _)).
  destruct (keepalive_interval_cycles_ _ _ s) as [s1 c]. cbn [fst] in H1. rewrite <- H1.
  destruct (_ <? c); [intros [= <- <-]; by left|]. destruct (_ && _); [intros [= <- <-]; by left|].
  destruct (_ <=? _); [intros [= <- <-]; by right|]. unfold send_keepalive_probe_.
  destruct (transmit _ _ _ _ _ _ _ _) as [[s2 r]|] eqn:E; [|done]. apply transmit_frame in E as [t ->].
  cbn [mbind option_bind]. destruct r; cbn [mbind option_bind]; intros [= <- <-]; by left.
Qed.

Lemma connect_step_path e e' pkts s s' w fr r :
  connect_step rte_ipv4_phdr_cksum RTE_MBUF_F_TX_IP_CKSUM RTE_MBUF_F_TX_TCP_CKSUM e e' pkts s = Some (s', w, fr, r) ->
  exists cs, raises (OConnectStep e e' pkts) cs /\ path cs (state_ s) (state_ s').
Proof.
  unfold connect_step. destruct (bool_decide _); [intros [= <- <- <- <-]; exists []; split; [by left|constructor]|].
  destruct (decide (state_ s = SynSent)) as [Hs|Hs].
  2: { rewrite bool_decide_eq_false_2 by done. intros [= <- <- <- <-]. exists []. split; [by left|constructor]. }
  rewrite bool_decide_eq_true_2 by done. cbn [negb].
  destruct (maybe_retransmit_syn_ _ _ _ _ _) as [[s1 w1]|] eqn:E1; [|done]. cbn [mbind option_bind].
  assert (state_ s1 = SynSent) as H1.
  { revert E1. unfold maybe_retransmit_syn_. destruct (_ <=? _); [|by intros [= <- <-]].
    destruct (transmit _ _ _ _ _ _ _ _) as [[s2 r2]|] eqn:E; [|done]. apply transmit_frame in E as [t ->].
    cbn [mbind option_bind]. destruct r2; by intros [= <- <-]. }
  destruct (handle_handshake_burst_ _ _ _ _ _ _ _) as [[[[s2 o] f] r2]|] eqn:E2; [|done].
  apply handshake_path in E2 as (cs & H2 & H3); [|done]. cbn [mbind option_bind]. intros [= <- <- <- <-].
  exists cs. by rewrite Hs.
Qed.

Lemma poll_rx_path e rx s r w :
  poll_rx rte_ipv4_phdr_cksum RTE_MBUF_F_TX_IP_CKSUM RTE_MBUF_F_TX_TCP_CKSUM ReorderSlots e rx s = Some (r, w) ->
  exists cs, raises (OPollRx e rx) cs /\ path cs (state_ s) (state_ (rx_session r)).
Proof.
  assert (forall s', state_ s' = state_ s -> exists cs, raises (OPollRx e rx) cs /\ path cs (state_ s) (state_ s')) as Hq.
  { intros s' ->. exists []. split; [by exists 0|constructor]. }
  unfold poll_rx, process_rx. destruct (rx_feed_ s).
  2: { cbn [mbind option_bind]. intros [<- _]%some_pair_inj. by apply Hq. }
  destruct (feed_only_ s).
  { destruct (flush_pending_ack _ _ _ _ _) as [[s1 w1]|] eqn:E; [|done]. apply flush_state in E. intros [= <- <-]. by apply Hq. }
  destruct (rx _) as [|m rest] eqn:Erx.
  { destruct (flush_pending_ack _ _ _ _ _) as [[s1 w1]|] eqn:E; [|done]. apply flush_state in E. intros [= <- <-]. by apply Hq. }
  cbv zeta. destruct (process_loop _ _ _ _ _ _ _ _) as [r1|] eqn:E; [|done]. intros [= <- <-].
  apply process_loop_path in E as (cs & Hp & Hc). exists cs. split; [|exact Hp]. cbn [raises]. eexists. by rewrite Erx.
Qed.

(** Operations that leave the state alone. *)
Definition neutral (op : Op) : Prop :=
  match op with
  | OSend _ _ | OSendBatch _ _ _ | OBuildData _ _ | OIcmp _ | OFlushAck _ | OFeed _ | OFeedOnly _ | OSetTsc _ | OSetArp _ _ _ => True
  | _ => False
  end.

Lemma run_op_neutral op s s' x : neutral op -> run_op op s = Some (s', x) -> state_ s' = state_ s.
Proof.
  destruct op; try done; intros _; cbn [TcpOps.run_op].
  - unfold send. destruct (negb _); [by intros [= <- <-]|]. destruct (_ <? _); [by intros [= <- <-]|].
    destruct (transmit _ _ _ _ _ _ _ _) as [[s1 r]|] eqn:E; [|done]. apply transmit_frame in E as [t ->].
    cbn [mbind option_bind]. destruct r; by intros [= <- <-].
  - unfold send_batch. destruct (negb _); [by intros [= <- <-]|].
    destruct (prepare_batch _ _ _ _ _ _ _ _) as [[[s1 m] l]|] eqn:E; [|done].
    apply prepare_frame in E as [t ->]. cbn [mbind option_bind].
    destruct (decide _); [by intros [= <- <-]|]. cbn [mbind option_bind]. intros [= <- <-].
    by destruct (decide _).
  - unfold build_data_packet. destruct (_ || _); [by intros [= <- <-]|].
    destruct (fill_packet _ _ _ _ _ _ _ _ _ _ _) as [[[t w] tx]|]; [|done]. cbn [mbind option_bind].
    destruct tx; [|by intros [= <- <-]]. destruct (w =? 0); by intros [= <- <-].
  - intros [= <- <-]. unfold on_icmp_frag_needed. cbv zeta. by destruct (_ <=? _).
  - destruct (flush_pending_ack _ _ _ _ _) as [[s1 w]|] eqn:E; [|done]. apply flush_state in E.
    cbn [mbind option_bind]. by intros [= <- <-].
  - by intros [= <- <-].
  - by intros [= <- <-].
  - by intros [= <- <-].
  - intros [= <- <-]. unfold set_arp_refresh. cbv zeta. by destruct (_ <? _).
Qed.

Lemma reset_state e s s' w :
  reset rte_ipv4_phdr_cksum RTE_MBUF_F_TX_IP_CKSUM RTE_MBUF_F_TX_TCP_CKSUM e s = Some (s', w) -> state_ s' = Closed.
Proof.
  unfold reset. destruct (transmit _ _ _ _ _ _ _ _) as [[s1 r]|]; [|done]. cbn [mbind option_bind].
  destruct r; by intros [= <- <-].
Qed.

(** Every operation follows the diagram, for its own causes. *)
Lemma run_op_path op s s' x : run_op op s = Some (s', x) -> exists cs, raises op cs /\ path cs (state_ s) (state_ s').
Proof.
  assert (neutral op -> raises op [] -> run_op op s = Some (s', x) -> exists cs, raises op cs /\ path cs (state_ s) (state_ s')) as Hq.
  { intros Hn Hr ->%run_op_neutral; [|done]. exists []. split; [done|constructor]. }
  destruct op; try (by apply Hq); cbn [TcpOps.run_op]; clear Hq.
  - destruct (begin_connect _ _ _ _ _ _) as [[[s1 w] r]|] eqn:E; [|done]. apply begin_connect_state in E as (cs & Hcs & Hp).
    cbn [mbind option_bind]. intros [= <- <-]. eexists. split; [|exact Hp]. cbn [raises].
    destruct Hcs as [-> | ->], r; cbn; auto.
  - destruct (connect_step _ _ _ _ _ _ _) as [[[[s1 w] fr] r]|] eqn:E; [|done]. cbn [mbind option_bind]. intros [= <- <-].
    by eapply connect_step_path.
  - unfold process_rx. destruct (process_loop _ _ _ _ _ _ _ _) as [r|] eqn:E; [|done].
    intros [= <- <-]. apply process_loop_path in E as (cs & Hp & Hc). by exists cs.
  - destruct (poll_rx _ _ _ _ _ _ _) as [[r w]|] eqn:E; [|done]. cbn [mbind option_bind]. intros [= <- <-]. by eapply poll_rx_path.
  - destruct (tick_keepalive _ _ _ _ _ _ _ _) as [[s1 w]|] eqn:E; [|done]. cbn [mbind option_bind]. intros [= <- <-].
    apply keepalive_state in E as [-> | ->]; [exists []; split; [by left|constructor]|exists [AbortCause]; split; [by right|apply path_one, next_abort]].
  - destruct (close _ _ _ _ _) as [[[s1 w] r]|] eqn:E; [|done]. apply close_state in E. cbn [mbind option_bind]. intros [= <- <-].
    eexists. split; [|exact E]. cbn [raises]. destruct r; auto.
  - destruct (reset _ _ _ _ _) as [[s1 w]|] eqn:E; [|done]. apply reset_state in E. cbn [mbind option_bind]. intros [= <- <-].
    rewrite E. exists [AbortCause]. split; [done|apply path_one, next_abort].
Qed.

Lemma raises_live op cs : no_handshake op -> raises op cs -> Forall (fun c => c <> UserOpen /\ c <> SynAckReceived) cs.
Proof.
  assert (forall pkts, Forall (carried pkts) cs -> Forall (fun c => c <> UserOpen /\ c <> SynAckReceived) cs) as Hc.
  { intros pkts H. eapply list.Forall_impl; [exact H|]. intros c (m & p & _ & _ & Hp). by destruct c. }
  destruct op; try done; intros _; cbn [raises]; try (intros ->; by repeat constructor); try (intros [-> | ->]; by repeat constructor).
  - apply Hc.
  - intros [n Hn]. by eapply Hc.
Qed.

Lemma run_op_live op s s' x : no_handshake op -> run_op op s = Some (s', x) -> rtc live_edge (state_ s) (state_ s').
Proof. intros Hn (cs & Hr & Hp)%run_op_path. eapply path_live; [exact Hp|by eapply raises_live]. Qed.

Lemma run_ops_path ops : forall s s' x, run_ops ops s = Some (s', x) ->
  (exists css, Forall2 raises ops css /\ path (concat css) (state_ s) (state_ s')) /\
  (Forall no_handshake ops -> rtc live_edge (state_ s) (state_ s')).
Proof.
  induction ops as [|op rest IH]; intros s s' x; cbn [TcpOps.run_ops].
  { intros [= <- <-]. split; [exists []; split; constructor|intros _; apply rtc_refl]. }
  destruct (run_op op s) as [[s1 y]|] eqn:E; [|done]. cbn [mbind option_bind].
  destruct (run_ops rest s1) as [[s2 z]|] eqn:E2; [|done]. intros [= <- <-].
  apply IH in E2 as [(css & H0 & H1) H2]. split.
  - destruct (run_op_path _ _ _ _ E) as (cs & Hr & Hp). exists (cs :: css). split; [by constructor|]. by eapply cause_path_app.
  - intros Hn. inversion Hn; subst. etrans; [by eapply run_op_live|auto].
Qed.

(** C11: The session follows the TCP state machine.  Along any run of operations the state
    moves along the RFC 793 diagram for an active opener ([next], a function of the cause and
    the state; the one exception is a second FIN in CLOSING, which the code answers by going
    to TIME_WAIT), and every step has a cause of its operation: an open, a SYN-ACK, a close, and
    for what is received, a packet of the burst that carries the flag (RST for an abort, ACK for
    the acknowledgment of our FIN, FIN for the peer's close); reset and a dead peer abort, and
    no other operation changes the state.  In whatever state the run ends, a segment has exactly
    the effect that the diagram gives to what it means there (an RST in the window, the
    acknowledgment of everything sent, a FIN that follows the bytes received), [close] takes the
    step of a close exactly when it succeeds, [reset] ends in CLOSED, and [begin_connect] opens
    exactly when it succeeds.  Without a new handshake a connection that left ESTABLISHED never
    returns to it, and one that sent its FIN never accepts data again: [send] refuses with
    Disconnected and puts nothing on the wire. *)
Theorem tcp_state_machine ops s s' x :
  run_ops ops s = Some (s', x) ->
  (exists css, Forall2 raises ops css /\ path (concat css) (state_ s) (state_ s')) /\
  (forall e p, state_ (process_segment ReorderSlots e p s').1.1.1.1 = fire (segment_causes ReorderSlots e p s') (state_ s')) /\
  (forall e s2 w r, close rte_ipv4_phdr_cksum RTE_MBUF_F_TX_IP_CKSUM RTE_MBUF_F_TX_TCP_CKSUM e s' = Some (s2, w, r) ->
     path (if r is Ok _ then [UserClose] else []) (state_ s') (state_ s2)) /\
  (forall e s2 w, reset rte_ipv4_phdr_cksum RTE_MBUF_F_TX_IP_CKSUM RTE_MBUF_F_TX_TCP_CKSUM e s' = Some (s2, w) -> state_ s2 = Closed) /\
  (forall e isn s2 w r, begin_connect rte_ipv4_phdr_cksum RTE_MBUF_F_TX_IP_CKSUM RTE_MBUF_F_TX_TCP_CKSUM e isn s' = Some (s2, w, r) ->
     exists cs, (cs = [] \/ cs = [TimeWaitOver]) /\ path (cs ++ if r is Ok _ then [UserOpen] else []) (state_ s') (state_ s2)) /\
  (Forall no_handshake ops -> state_ s <> Established ->
     state_ s' <> Established /\
     (past_fin (state_ s) = true -> past_fin (state_ s') = true) /\
     forall e data, send rte_ipv4_phdr_cksum RTE_MBUF_F_TX_IP_CKSUM RTE_MBUF_F_TX_TCP_CKSUM e data s' =
       Some (s', [], Err ENotEstablished)).
Proof.
  intros E. destruct (run_ops_path ops s s' x E) as [H1 H2]. split; [done|].
  split; [intros; apply process_segment_next|]. split; [intros *; apply close_state|]. split; [intros *; apply reset_state|].
  split; [intros *; apply begin_connect_state|].
  intros Hn Hs. specialize (H2 Hn).
  assert (state_ s' <> Established) as Hne by (intros He; by eapply Hs, live_established).
  split; [done|]. split; [by eapply live_past_fin|].
  intros e data. unfold send. by rewrite bool_decide_eq_false_2.
Qed.

End operations.

(** The ACK of our FIN moves [FIN_WAIT_1] on; nothing can be sent any more. *)
Lemma tcp_state_machine_witness :
  exists s' x, run_ops (fun _ _ => 0) 1 2 8 Some id [OProcessRx demo_env [demo_packet 5000 0x10 []]]
      (set_state_ FinWait1 demo_session) = Some (s', x) /\
    (exists css, Forall2 raises [OProcessRx demo_env [demo_packet 5000 0x10 []]] css /\ path (concat css) FinWait1 (state_ s')) /\
    past_fin (state_ s') = true.
Proof.
  destruct (run_ops_ok (fun _ _ => 0) 1 2 8 Some id [OProcessRx demo_env [demo_packet 5000 0x10 []]]
    (set_state_ FinWait1 demo_session)) as (s' & x & E & _).
  - apply ok_set_state_; [apply demo_session_ok|done].
  - constructor; [|constructor]. split; [apply demo_env_ok|]. split; [by apply demo_burst_ok|done].
  - exists s', x. split; [exact E|].
    destruct (tcp_state_machine (fun _ _ => 0) 1 2 8 Some id _ _ s' x E) as (Hp & _ & _ & _ & _ & Hn). split; [exact Hp|].
    apply Hn; [by repeat constructor|done|done].
Defined.
