(* ===== verification/TcpReceive.v ===== *)
(** * Receiving: the delivered bytes are the peer's stream

    The abstract specification of the receive path is a byte stream [S] that the peer
    numbers from [base]: a packet is [honest] when its payload is the piece of [S] at its
    sequence number.  The network may drop, duplicate, reorder and pad packets and mix in
    packets of other connections.

    [tcp_receive_prefix]: what the session delivers is a prefix of [S] and [rcv_nxt_] says
    how long it is. *)

From stdpp Require Import list.
From S2P Require Import Prelude Codecs PacketCore PacketParse PacketTemplate TcpSession TcpOps TcpStates.

#[local] Open Scope Z_scope.

(** ** Positions in a stream *)

(** The bytes [n, n') of [S], delivered as the chunks [out]. *)
Definition advances (S : list byte) (n n' : Z) (out : list (list byte)) : Prop :=
  n <= n' <= zlen S /\ slice S n (n' - n) = Some (concat out).

Lemma advances_refl S n : 0 <= n <= zlen S -> advances S n n [].
Proof.
  intros H. split; [lia|]. rewrite slice_Some by lia. replace (n - n) with 0 by lia. done.
Qed.

Lemma advances_trans S n n' n'' a b :
  0 <= n -> advances S n n' a -> advances S n' n'' b -> advances S n n'' (a ++ b).
Proof.
  intros H0 [Ha Hsa] [Hb Hsb]. split; [lia|]. rewrite concat_app.
  replace (n'' - n) with (n' - n + (n'' - n')) by lia. apply slice_slice_app; try lia; [done|].
  by replace (n + (n' - n)) with n' by lia.
Qed.

Lemma advances_one S n bs :
  0 <= n -> slice S n (zlen bs) = Some bs -> advances S n (n + zlen bs) [bs].
Proof.
  intros H0 H. pose proof (zlen_nonneg bs).
  assert (n + zlen bs <= zlen S).
  { revert H. unfold slice. destruct (Z.leb_spec (n + zlen bs) (zlen S)); [lia|].
    by rewrite andb_false_r. }
  split; [lia|]. replace (n + zlen bs - n) with (zlen bs) by lia. cbn [concat]. by rewrite app_nil_r.
Qed.

Lemma u32_inj b x y : 0 <= x < 2 ^ 32 -> 0 <= y < 2 ^ 32 -> u32 (b + x) = u32 (b + y) -> x = y.
Proof. intros Hx Hy H. apply wrap_inj_close in H; lia. Qed.

Section receive.
Context (S : list byte) (base : Z).
(** The stream and its FIN fit the 32-bit sequence space. *)
Hypothesis HS : zlen S + 1 < 2 ^ 32.

(** ** Honest packets *)

Record honest_data (p : Segment) (off : Z) : Prop := {
  hd_off : 0 <= off;
  hd_seq : sg_seq p = u32 (base + off);
  hd_bytes : slice S off (sg_payload_len p) = Some (default [] (sg_payload p));
  hd_fin : has_flag p kTcpFin = true -> off + sg_payload_len p = zlen S
}.

(** A RST may carry anything, and so may the sequence number of a segment that has
    neither payload nor FIN; everything else is a piece of the stream. *)
Definition honest (p : Segment) : Prop :=
  has_flag p kTcpRst = true \/
  (sg_payload_len p = 0 /\ has_flag p kTcpFin = false) \/
  (exists off, honest_data p off).

(** What must hold of the packets of a burst: those of this connection are honest. *)
Definition honest_burst (t : ConnectionTuple) (pkts : list mbuf) : Prop :=
  Forall (fun m => mbuf_ok m /\
    forall p, view m = Some (Some p) -> matches p t = true -> honest p) pkts.

(** ** The invariant: [n] bytes delivered, the FIN consumed or not *)

Definition entry_honest (x : ReorderEntry) : Prop :=
  exists off, 0 <= off /\ e_seq x = u32 (base + off) /\ 0 < e_len x /\
    e_len x = zlen (e_data x) /\ slice S off (e_len x) = Some (e_data x).

Definition fin_len (fin : bool) : Z := if fin then 1 else 0.

Record rx_at (n : Z) (fin : bool) (s : TcpSession) : Prop := {
  rx_n : 0 <= n <= zlen S;
  rx_nxt : rcv_nxt_ s = u32 (base + (n + fin_len fin));
  rx_fin : fin = true -> n = zlen S;
  rx_buf : Forall entry_honest (reorder_buf_ s)
}.

(** A piece that starts at [rcv_nxt_] starts at [n], and the FIN has not been consumed. *)
Lemma seq_is_n n fin s off len bs :
  rx_at n fin s -> 0 < len -> slice S off len = Some bs -> u32 (base + off) = rcv_nxt_ s ->
  off = n /\ fin = false.
Proof.
  intros [Hn Hx Hf _] Hl Hs E. apply slice_bound in Hs. rewrite Hx in E.
  assert (off = n + fin_len fin) as Ho by (apply (u32_inj base); destruct fin; cbn [fin_len]; lia || done).
  destruct fin; [|cbn [fin_len] in Ho; split; [lia|done]].
  specialize (Hf eq_refl). cbn [fin_len] in Ho. lia.
Qed.

Lemma rx_at_same n fin s s' :
  rcv_nxt_ s' = rcv_nxt_ s -> reorder_buf_ s' = reorder_buf_ s -> rx_at n fin s -> rx_at n fin s'.
Proof. intros E1 E2 []. constructor; [done|by rewrite E1|done|by rewrite E2]. Qed.

(** Delivering [len] bytes at [rcv_nxt_]. *)
Lemma rx_at_step n fin s s' len buf :
  rx_at n fin s -> fin = false -> n + len <= zlen S -> 0 <= len ->
  rcv_nxt_ s' = u32 (rcv_nxt_ s + len) -> reorder_buf_ s' = buf -> Forall entry_honest buf ->
  rx_at (n + len) false s'.
Proof.
  intros [Hn Hx Hf Hb] -> Hl H0 E1 E2 Hb'. constructor; [lia| |done|by rewrite E2].
  rewrite E1, Hx, wrap_add_wrap_l by lia. f_equal. cbn [fin_len]. lia.
Qed.

(** ** Blocks of the receive loop *)

Lemma drain_rx fuel : forall n s, rx_at n false s ->
  exists n', rx_at n' false (drain_reorder_buf fuel s).1 /\
    advances S n n' (drain_reorder_buf fuel s).2 /\
    (length (reorder_buf_ (drain_reorder_buf fuel s).1) + length (drain_reorder_buf fuel s).2 =
     length (reorder_buf_ s))%nat.
Proof.
  induction fuel as [|f IH]; intros n s Hs; cbn [drain_reorder_buf].
  { exists n. split; [done|]. split; [apply advances_refl, Hs|cbn; lia]. }
  destruct (find_entry _ _) as [i|] eqn:Ei.
  2: { exists n. split; [done|]. split; [apply advances_refl, Hs|cbn; lia]. }
  destruct (find_entry_lookup _ _ _ Ei) as (x & Hx & Hseq). rewrite Hx. cbv zeta.
  pose proof (swap_remove_perm i _ x Hx) as Hperm. pose proof (rx_buf _ _ _ Hs) as Hb.
  rewrite Hperm in Hb. inversion Hb as [|? ? (off & H0 & Es & Hl & Hz & Hsl) Hb']; subst.
  destruct (seq_is_n n false s off (e_len x) (e_data x) Hs Hl Hsl ltac:(congruence)) as [-> _].
  pose proof (slice_bound _ _ _ _ Hsl) as Hsb.
  set (s1 := set_reorder_buf_ _ _).
  assert (rx_at (n + e_len x) false s1) as H1
    by (eapply (rx_at_step n false s); [done|done|lia|lia|reflexivity|reflexivity|done]).
  assert (length (reorder_buf_ s) = Datatypes.S (length (reorder_buf_ s1))) as Hlen
    by exact (Permutation_length Hperm).
  generalize dependent s1. intros s1 H1 Hlen. destruct (IH _ _ H1) as (n' & Hn' & Ha & Hlen').
  destruct (drain_reorder_buf f s1) as [s2 out]. cbn [fst snd] in *.
  exists n'. split; [done|]. split; [|cbn [length]; lia]. change (e_data x :: out) with ([e_data x] ++ out).
  apply (advances_trans S n (n + e_len x)); [lia| |done]. rewrite Hz. apply advances_one; [lia|].
  by rewrite <- Hz.
Qed.

(** Nothing that was buffered is lost or made up. *)
Lemma handle_data_rx slots p n fin s :
  rx_at n fin s -> has_flag p kTcpRst = false -> honest p ->
  (forall bs, sg_payload p = Some bs -> 0 < zlen bs) ->
  exists n', rx_at n' fin (handle_data slots p s).1.1.1.1 /\
    advances S n n' (handle_data slots p s).1.1.1.2.
Proof.
  intros Hs Hr Hh Hne. pose proof (advances_refl S n (rx_n _ _ _ Hs)) as Hrefl.
  unfold handle_data. destruct (negb (receives_data _)); [by exists n|].
  destruct (Z.ltb_spec 0 (sg_payload_len p)) as [Hpl|Hpl].
  2: { rewrite andb_false_r. exists n. unfold sg_payload_len in *.
       by destruct (sg_payload p). }
  assert (exists off bs, sg_payload p = Some bs /\ sg_payload_len p = zlen bs /\
    0 <= off /\ sg_seq p = u32 (base + off) /\ slice S off (zlen bs) = Some bs)
    as (off & bs & Ep & Elen & H0 & Eseq & Hsl).
  { destruct Hh as [Hh|[[Hh _]|(off & [? ? Hb _])]]; [congruence|lia|].
    unfold sg_payload_len in *. destruct (sg_payload p) as [bs|]; cbn [default] in *; [by exists off, bs|].
    change (zlen (@nil byte)) with 0 in Hpl. lia. }
  rewrite andb_true_r. destruct (Z.eqb_spec (sg_seq p) (rcv_nxt_ s)) as [Ein|Eout]; cbn [negb].
  - destruct (seq_is_n n fin s off (zlen bs) bs Hs ltac:(lia) Hsl ltac:(congruence)) as [-> ->].
    rewrite Ep. cbv zeta. pose proof (slice_bound _ _ _ _ Hsl).
    set (s1 := bump rx_bytes _ _).
    assert (rx_at (n + zlen bs) false s1) as H1.
    { eapply (rx_at_step n false s); [done|done|lia|lia| |reflexivity|apply Hs].
      subst s1. fields. by rewrite Elen. }
    generalize dependent s1. intros s1 H1.
    destruct (drain_rx (Datatypes.S (length (reorder_buf_ s1))) _ _ H1) as (n' & Hn' & Ha & _).
    destruct (drain_reorder_buf _ s1) as [s2 out]. cbn [fst snd] in *. exists n'. split; [done|].
    change (bs :: out) with ([bs] ++ out). apply (advances_trans S n (n + zlen bs)); [lia| |done].
    by apply advances_one.
  - exists n. split; [|by destruct (handle_out_of_order slots p s)].
    assert (rx_at n fin (handle_out_of_order slots p s).1) as Hout;
      [|by destruct (handle_out_of_order slots p s)].
    unfold handle_out_of_order. cbv zeta. rewrite Ep.
    set (s1 := if seq_after _ _ then _ else _).
    assert (rx_at n fin s1) as H1
      by (subst s1; destruct (seq_after _ _); by apply (rx_at_same n fin s)).
    generalize dependent s1. intros s1 H1.
    destruct (kDefaultMss <? _); [done|]. destruct (_ && _); cbn [fst].
    + destruct H1 as [? ? ? Hb]. constructor; fields; try done. apply list.Forall_app. split; [done|].
      constructor; [|constructor]. exists off. cbn. rewrite Elen. split_and!; (done || lia).
    + destruct (negb _); cbn [fst]; by apply (rx_at_same n fin s1).
Qed.

Lemma handle_ack_same e p s :
  rcv_nxt_ (handle_ack e p s) = rcv_nxt_ s /\ reorder_buf_ (handle_ack e p s) = reorder_buf_ s.
Proof.
  unfold handle_ack, enter_time_wait. cbv zeta.
  destruct (_ && _); fields; destruct (_ =? _); fields; destruct (state_ s); done.
Qed.

Lemma handle_fin_rx e p n fin s :
  rx_at n fin s -> has_flag p kTcpRst = false -> has_flag p kTcpFin = true -> honest p ->
  exists fin', rx_at n fin' (handle_fin e p s).1.
Proof.
  intros Hs Hr Hf Hh. unfold handle_fin, enter_time_wait. cbv zeta.
  destruct (Z.eqb_spec (u32 (sg_seq p + sg_payload_len p)) (rcv_nxt_ s)) as [E|]; [|by exists fin].
  destruct Hh as [Hh|[[_ Hh]|(off & [H0 Es Hb Hfin])]]; [congruence|congruence|]. specialize (Hfin Hf).
  rewrite Es, wrap_add_wrap_l in E by lia. rewrite <- Z.add_assoc, Hfin, (rx_nxt _ _ _ Hs) in E.
  pose proof (rx_n _ _ _ Hs). pose proof (zlen_nonneg S).
  apply u32_inj in E; [|lia|destruct fin; cbn [fin_len]; lia].
  assert (fin = false /\ n = zlen S) as [-> ->].
  { destruct fin; cbn [fin_len] in E; [|split; [done|lia]].
    pose proof (rx_fin _ _ _ Hs eq_refl). lia. }
  assert (forall s', rcv_nxt_ s' = u32 (rcv_nxt_ s + 1) -> reorder_buf_ s' = reorder_buf_ s ->
    rx_at (zlen S) true s') as Hadv.
  { intros s' E1 E2. constructor; [lia| |done|rewrite E2; apply Hs].
    rewrite E1, (rx_nxt _ _ _ Hs), wrap_add_wrap_l by lia. f_equal. cbn [fin_len]. lia. }
  destruct (state_ s); try (by exists false); cbn [fst]; exists true.
  - by apply Hadv.
  - destruct (_ =? _); by apply Hadv.
  - by apply Hadv.
  - by apply Hadv.
Qed.

Lemma process_segment_rx slots e p n fin s :
  rx_at n fin s -> honest p -> (forall bs, sg_payload p = Some bs -> 0 < zlen bs) ->
  exists n' fin', rx_at n' fin' (process_segment slots e p s).1.1.1.1 /\
    advances S n n' (process_segment slots e p s).1.1.1.2.
Proof.
  intros Hs Hh Hne. pose proof (advances_refl S n (rx_n _ _ _ Hs)) as Hrefl.
  unfold process_segment. cbv zeta. set (s1 := set_keepalive_misses_ 0 _).
  assert (rx_at n fin s1) as H1 by (by apply (rx_at_same n fin s)).
  generalize dependent s1. intros s1 H1. destruct (has_flag p kTcpRst) eqn:Hr.
  { destruct (rst_in_window _ _); exists n, fin; (split; [by apply (rx_at_same n fin s1)|done]). }
  set (s2 := if has_flag p kTcpAck then _ else s1).
  assert (rx_at n fin s2) as H2.
  { subst s2. destruct (has_flag p kTcpAck); [|done]. destruct (handle_ack_same e p s1) as [E1 E2].
    by apply (rx_at_same n fin s1). }
  generalize dependent s2. intros s2 H2.
  destruct (handle_data_rx slots p n fin s2 H2 Hr Hh Hne) as (n' & Hn' & Ha).
  destruct (handle_data slots p s2) as [[[[s3 out] count] owed] flow]. cbn [fst snd] in *.
  destruct flow; try (by exists n', fin).
  destruct (has_flag p kTcpFin) eqn:Hf; [|by exists n', fin].
  destruct (handle_fin_rx e p n' fin s3 Hn' Hr Hf Hh) as (fin' & Hfin).
  destruct (handle_fin e p s3) as [s4 owed']. cbn [fst snd] in *.
  by exists n', fin'.
Qed.

Lemma process_loop_rx slots e pkts : forall i fl dc na n fin s r,
  rx_at n fin s -> honest_burst (c_tuple (config_ s)) pkts ->
  process_loop slots e i pkts fl dc na s = Some r ->
  exists n' fin', rx_at n' fin' (rx_session r) /\ advances S n n' (rx_chunks r).
Proof.
  induction pkts as [|m rest IH]; intros i fl dc na n fin s r Hs Hb; cbn [process_loop].
  { intros [= <-]. exists n, fin. cbn [rx_session rx_chunks]. pose proof (rx_n _ _ _ Hs).
    destruct (_ && _); (split; [by apply (rx_at_same n fin s)|by apply advances_refl]). }
  inversion Hb as [|? ? [Hmok Hm] Hb']; subst. destruct (view m) as [v|] eqn:Ev; [|done]. cbn [mbind option_bind].
  assert (forall dc na s1 r, rx_at n fin s1 -> config_ s1 = config_ s ->
    (fl' ← push_free fl i; process_loop slots e (Datatypes.S i) rest fl' dc na s1) = Some r ->
    exists n' fin', rx_at n' fin' (rx_session r) /\ advances S n n' (rx_chunks r)) as Hskip.
  { intros dc' na' s1 r' H1 Hc1 E. destruct (push_free fl i) as [fl'|]; [|done]. cbn [mbind option_bind] in E.
    eapply IH; [done|by rewrite Hc1|done]. }
  destruct v as [p|].
  2: { destruct (is_ip_fragment (Some m)); [|done]. cbn [mbind option_bind]. apply Hskip; [|done].
       by apply (rx_at_same n fin s). }
  destruct (matches p (c_tuple (config_ s))) eqn:Em; cbn [negb].
  2: { apply Hskip; [|done]. by apply (rx_at_same n fin s). }
  pose proof (Hm p eq_refl Em) as Hh.
  assert (forall bs, sg_payload p = Some bs -> 0 < zlen bs) as Hne
    by (intros bs Hp; by apply (sgo_payload _ (view_segment_ok m p Hmok Ev))).
  destruct (process_segment_rx slots e p n fin s Hs Hh Hne) as (n1 & fin1 & H1 & Ha).
  pose proof (st_config _ _ (proj1 (process_segment_step slots e p s))) as Hc1.
  destruct (process_segment slots e p s) as [[[[s1 out] count] owed] flow]. cbn [fst snd] in *.
  assert (0 <= n) by apply Hs.
  destruct flow as [| |err]; destruct (push_free fl i) as [fl'|]; try done; cbn [mbind option_bind].
  3: { intros [= <-]. exists n1, fin1. cbn [rx_session rx_chunks]. by split. }
  all: destruct (process_loop _ _ _ _ _ _ _ _) as [r'|] eqn:E; [|done]; cbn [mbind option_bind];
    intros [= <-]; cbn [rx_session rx_chunks];
    destruct (IH _ _ _ _ n1 fin1 s1 r' H1 ltac:(by rewrite Hc1) E) as (n2 & fin2 & H2 & Ha2);
    exists n2, fin2; (split; [done|]); by apply (advances_trans S n n1).
Qed.

End receive.

(** ** Whole runs *)

Section runs.
Context (rte_ipv4_phdr_cksum : list byte -> Z -> Z).
Context (RTE_MBUF_F_TX_IP_CKSUM RTE_MBUF_F_TX_TCP_CKSUM : Z).
Context (ReorderSlots : Z).
Context (to_cycles : Z -> option Z) (fallback_cycles : Z -> Z).

#[local] Abbreviation run_op := (run_op rte_ipv4_phdr_cksum RTE_MBUF_F_TX_IP_CKSUM RTE_MBUF_F_TX_TCP_CKSUM
  ReorderSlots to_cycles fallback_cycles).
#[local] Abbreviation run_ops := (run_ops rte_ipv4_phdr_cksum RTE_MBUF_F_TX_IP_CKSUM RTE_MBUF_F_TX_TCP_CKSUM
  ReorderSlots to_cycles fallback_cycles).

Definition op_honest (S : list byte) (base : Z) (t : ConnectionTuple) (op : Op) : Prop :=
  match op with
  | OProcessRx _ pkts => honest_burst S base t pkts
  | OPollRx _ rx => forall n, honest_burst S base t (rx n)
  | _ => True
  end.

Lemma same_rx_at S base n fin s s' : same_rx s s' -> rx_at S base n fin s -> rx_at S base n fin s'.
Proof. intros [E1 E2 _ _]. by apply rx_at_same. Qed.

Lemma run_op_rx S base n fin op s s' x :
  zlen S + 1 < 2 ^ 32 -> within_connection op -> op_honest S base (c_tuple (config_ s)) op ->
  rx_feed_ s = [] -> rx_at S base n fin s -> run_op op s = Some (s', x) ->
  exists n' fin', rx_at S base n' fin' s' /\ advances S n n' (eff_chunks x) /\
    rx_feed_ s' = [] /\ config_ s' = config_ s.
Proof.
  intros HS Hw Hh Hfeed Hrx E. pose proof (advances_refl S n (rx_n _ _ _ _ _ Hrx)) as Hrefl.
  assert (forall s1, same_rx s s1 -> exists n' fin', rx_at S base n' fin' s1 /\
    advances S n n' [] /\ rx_feed_ s1 = [] /\ config_ s1 = config_ s) as Hsame.
  { intros s1 H1. exists n, fin. split; [by apply (same_rx_at S base n fin s)|]. split; [done|].
    destruct H1. split; congruence. }
  assert (forall e pkts s1 r, same_rx s s1 -> honest_burst S base (c_tuple (config_ s)) pkts ->
    process_loop ReorderSlots e 0 pkts [] 0 false s1 = Some r ->
    exists n' fin', rx_at S base n' fin' (rx_session r) /\ advances S n n' (rx_chunks r) /\
      rx_feed_ (rx_session r) = [] /\ config_ (rx_session r) = config_ s) as Hproc.
  { intros e pkts s1 r H1 Hb Er. pose proof (proj1 (process_loop_step _ _ _ _ _ _ _ _ _ Er)) as Hst.
    destruct (process_loop_rx S base HS ReorderSlots e pkts 0 [] 0 false n fin s1 r) as (n' & fin' & Hr & Ha);
      [by apply (same_rx_at S base n fin s)|by rewrite (sr_config _ _ H1)|done|].
    exists n', fin'. split; [done|]. split; [done|]. destruct Hst, H1. split; congruence. }
  destruct (receives op) eqn:Hr.
  2: { destruct (run_op_same_rx _ _ _ _ _ _ op s s' x Hw Hr E) as [H1 ->]. by apply Hsame. }
  destruct op; try done; cbn [op_honest TcpOps.run_op] in *.
  - unfold process_rx in E. destruct (process_loop _ _ _ _ _ _ _ _) as [r|] eqn:Er; [|done].
    injection E as <- <-. cbn [eff_chunks]. by apply (Hproc e pkts s).
  - unfold poll_rx, process_rx in E. rewrite Hfeed in E.
    destruct (flush_pending_ack _ _ _ _ _) as [[s1 w]|] eqn:Ef.
    2: { destruct (feed_only_ s); [done|]. destruct (rx _) as [|m rest] eqn:Erx; [done|].
         cbv zeta in E. destruct (process_loop _ _ _ _ _ _ _ _) as [r|] eqn:Er; [|done].
         injection E as <- <-. cbn [eff_chunks].
         eapply (Hproc e (m :: rest)); [|rewrite <- Erx; apply Hh|exact Er]. done. }
    apply flush_frame in Ef. destruct (feed_only_ s).
    { injection E as <- <-. cbn [eff_chunks rx_chunks rx_session]. by apply Hsame. }
    destruct (rx _) as [|m rest] eqn:Erx.
    { injection E as <- <-. cbn [eff_chunks rx_chunks rx_session]. by apply Hsame. }
    cbv zeta in E. destruct (process_loop _ _ _ _ _ _ _ _) as [r|] eqn:Er; [|done].
    injection E as <- <-. cbn [eff_chunks].
    eapply (Hproc e (m :: rest)); [|rewrite <- Erx; apply Hh|exact Er]. done.
Qed.

Lemma run_ops_rx S base ops : zlen S + 1 < 2 ^ 32 -> forall n fin s s' x,
  Forall within_connection ops -> Forall (op_honest S base (c_tuple (config_ s))) ops ->
  rx_feed_ s = [] -> rx_at S base n fin s -> run_ops ops s = Some (s', x) ->
  exists n' fin', rx_at S base n' fin' s' /\ advances S n n' (eff_chunks x).
Proof.
  intros HS. induction ops as [|op rest IH]; intros n fin s s' x Hw Hh Hf Hrx; cbn [TcpOps.run_ops].
  { intros [= <- <-]. exists n, fin. split; [done|]. apply advances_refl, Hrx. }
  apply list.Forall_cons in Hw as [Hw1 Hw2]. apply list.Forall_cons in Hh as [Hh1 Hh2].
  destruct (run_op op s) as [[s1 y]|] eqn:E1; [|done].
  cbn [mbind option_bind]. destruct (run_ops rest s1) as [[s2 z]|] eqn:E2; [|done]. intros [= <- <-].
  destruct (run_op_rx S base n fin op s s1 y) as (n1 & fin1 & H1 & Ha1 & Hf1 & Hc1); try done.
  destruct (IH n1 fin1 s1 s2 z) as (n2 & fin2 & H2' & Ha2'); try done; [by rewrite Hc1|].
  exists n2, fin2. split; [done|]. apply (advances_trans S n n1); [|done|done]. apply Hrx.
Qed.

(** C2: Receive safety.  Let the peer's stream be [S] (shorter than [2^32 - 1] bytes),
    numbered from [base], and let a session in any state stand at the start of it.
    Whatever the network does to the peer's packets -- loss, duplication, reordering,
    padding, RSTs, packets of other connections, malformed ones -- and however polling is
    interleaved with sends, timers and closes, the chunks passed to the callback are
    together a prefix of [S]: no byte is lost, repeated, invented or out of order.
    [rcv_nxt_] acknowledges exactly the delivered bytes, plus one once the FIN was
    consumed, which happens only after all of [S]. *)
Theorem tcp_receive_prefix S base ops s s' x :
  zlen S + 1 < 2 ^ 32 -> rx_feed_ s = [] -> reorder_buf_ s = [] -> rcv_nxt_ s = u32 base ->
  Forall within_connection ops -> Forall (op_honest S base (c_tuple (config_ s))) ops ->
  run_ops ops s = Some (s', x) ->
  exists n fin, 0 <= n <= zlen S /\ concat (eff_chunks x) = take (Z.to_nat n) S /\
    rcv_nxt_ s' = u32 (base + n + fin_len fin) /\ (fin = true -> n = zlen S).
Proof.
  intros HS Hf Hb Hn Hw Hh E.
  destruct (run_ops_rx S base ops HS 0 false s s' x Hw Hh Hf) as (n & fin & Hrx & Ha & Hs); [|done|].
  { pose proof (zlen_nonneg S). constructor; [lia| |done|by rewrite Hb]. rewrite Hn. f_equal. cbn; lia. }
  exists n, fin. destruct Hrx as [Hrn Hnxt Hfin _]. split; [done|]. split_and!; [|by rewrite <- Z.add_assoc|done].
  rewrite slice_Some in Hs by lia. injection Hs as Hs. rewrite <- Hs. f_equal. lia.
Qed.

End runs.

(** "hello" in two packets, the second one first. *)
Definition demo_hello : list byte := [x68; x65; x6c; x6c; x6f].

Lemma demo_honest m seq off payload t :
  mbuf_ok m ->
  match view m with
  | Some (Some p) => sg_seq p = seq /\ sg_payload p = Some payload /\ sg_flags p = 0x18
  | _ => False
  end ->
  seq = u32 (5000 + off) -> 0 <= off -> slice demo_hello off (zlen payload) = Some payload ->
  mbuf_ok m /\ forall p, view m = Some (Some p) -> matches p t = true -> honest demo_hello 5000 p.
Proof.
  intros Hok Hv Hs H0 Hsl. split; [done|]. intros p Hp _. rewrite Hp in Hv. destruct Hv as (E1 & E2 & E3).
  right. right. exists off. constructor; [done|congruence| |].
  - unfold sg_payload_len. by rewrite E2.
  - unfold has_flag. by rewrite E3.
Qed.

Definition demo_rx_ops : list Op :=
  [OProcessRx demo_env [demo_packet 5002 0x18 [x6c; x6c; x6f]; demo_packet 5000 0x18 [x68; x65]]].

Lemma tcp_receive_prefix_witness :
  exists s' x, run_ops (fun _ _ => 0) 1 2 8 Some id
      demo_rx_ops
      demo_session = Some (s', x) /\
    exists n fin, 0 <= n <= zlen demo_hello /\ concat (eff_chunks x) = take (Z.to_nat n) demo_hello /\
      rcv_nxt_ s' = u32 (5000 + n + fin_len fin) /\ (fin = true -> n = zlen demo_hello).
Proof.
  assert (mbuf_ok (demo_packet 5002 0x18 [x6c; x6c; x6f])) as H1 by (by vm_compute).
  assert (mbuf_ok (demo_packet 5000 0x18 [x68; x65])) as H2 by (by vm_compute).
  destruct (run_ops_ok (fun _ _ => 0) 1 2 8 Some id
    demo_rx_ops
    demo_session demo_session_ok) as (s' & x & E & _).
  - constructor; [|constructor]. split; [apply demo_env_ok|]. split; [by repeat constructor|by vm_compute].
  - exists s', x. split; [exact E|].
    apply (tcp_receive_prefix (fun _ _ => 0) 1 2 8 Some id demo_hello 5000 demo_rx_ops demo_session s' x);
      [by vm_compute|done|done|done|by repeat constructor| |exact E].
    constructor; [|constructor]. constructor; [|constructor; [|constructor]].
    + apply (demo_honest _ 5002 2 [x6c; x6c; x6f]); [exact H1|vm_compute; repeat split|reflexivity|lia|reflexivity].
    + apply (demo_honest _ 5000 0 [x68; x65]); [exact H2|vm_compute; repeat split|reflexivity|lia|reflexivity].
Defined.
