(* ===== verification/TcpReorder.v ===== *)
(** * Reassembly: bounded reordering loses nothing

    The peer cuts its stream into [pieces] and the network delivers them in any order, with
    repetitions.  [tcp_receive_complete]: when no piece is overtaken by more than
    [ReorderSlots] arrivals, every piece reaches the callback exactly once and in order.
    The bound is the capacity of the reorder buffer; entries of repeated pieces stay in it,
    so repetitions count. *)

From stdpp Require Import list.
From S2P Require Import Prelude Codecs PacketCore PacketParse PacketTemplate TcpSession TcpOps TcpStates TcpReceive.

#[local] Open Scope Z_scope.

(** On positions less than [2^31] apart the comparison on the circle is the order. *)
Lemma seq_after_order b x y :
  - 2 ^ 31 < x - y < 2 ^ 31 -> seq_after (u32 (b + x)) (u32 (b + y)) = (y <? x).
Proof.
  intros H. unfold seq_after, s32. rewrite wrap_sub_wrap by lia.
  replace (b + x - (b + y)) with (x - y) by lia.
  destruct (Z.ltb_spec y x).
  - rewrite wrap_small by lia. destruct (Z.ltb_spec (x - y) (2 ^ 31)); [|lia]. apply Z.ltb_lt. lia.
  - destruct (decide (x = y)) as [->|]; [by rewrite Z.sub_diag|].
    replace (u32 (x - y)) with (x - y + 2 ^ 32).
    2: { unfold wrap. apply (Z.mod_unique_pos _ _ (-1)); lia. }
    destruct (Z.ltb_spec (x - y + 2 ^ 32) (2 ^ 31)); [lia|]. apply Z.ltb_ge. lia.
Qed.

Section reassembly.
Context (ReorderSlots : Z) (pieces : list (list byte)) (base : Z).

(** Where piece [k] starts. *)
Definition offset (k : nat) : Z := zlen (concat (take k pieces)).

Hypothesis Hpieces : Forall (fun bs => 0 < zlen bs <= kDefaultMss) pieces.
Hypothesis Hlen : zlen (concat pieces) < 2 ^ 31.

Lemma offset_S k bs : pieces !! k = Some bs -> offset (S k) = offset k + zlen bs.
Proof.
  intros H. unfold offset. rewrite (take_S_r _ _ _ H), concat_app, zlen_app. cbn [concat].
  by rewrite app_nil_r.
Qed.

Lemma offset_app j d : (j + d <= length pieces)%nat ->
  offset j <= offset (j + d) /\ ((0 < d)%nat -> offset j < offset (j + d)).
Proof.
  induction d as [|d IH]; intros H; [rewrite Nat.add_0_r; split; lia|].
  destruct (lookup_lt_is_Some_2 pieces (j + d) ltac:(lia)) as [bs Hbs].
  pose proof (proj1 (list.Forall_lookup _ _) Hpieces _ _ Hbs) as Hb. cbn in Hb.
  rewrite <- Nat.add_succ_comm, Nat.add_succ_l, (offset_S _ _ Hbs). destruct (IH ltac:(lia)). lia.
Qed.

Lemma offset_lt j k : (j < k <= length pieces)%nat -> offset j < offset k.
Proof.
  intros H. replace k with (j + (k - j))%nat by lia. apply offset_app; lia.
Qed.

Lemma offset_range k : (k <= length pieces)%nat -> 0 <= offset k < 2 ^ 31.
Proof.
  intros H. split; [apply zlen_nonneg|].
  destruct (offset_app k (length pieces - k) ltac:(lia)) as [Hle _].
  replace (k + (length pieces - k))%nat with (length pieces) in Hle by lia.
  unfold offset in Hle at 2. rewrite take_ge in Hle by lia. lia.
Qed.

Lemma seq_inj j k : (j <= length pieces)%nat -> (k <= length pieces)%nat ->
  u32 (base + offset j) = u32 (base + offset k) -> j = k.
Proof.
  intros Hj Hk E. pose proof (offset_range j Hj). pose proof (offset_range k Hk).
  apply wrap_inj_close in E; [|lia..]. assert (offset j = offset k) by lia.
  destruct (Nat.lt_trichotomy j k) as [Hlt|[->|Hlt]]; [|done|];
    [pose proof (offset_lt j k)|pose proof (offset_lt k j)]; lia.
Qed.

(** ** Arrivals *)

(** A data segment that carries piece [k]. *)
Record carries_piece (p : Segment) (k : nat) : Prop := {
  cp_seq : sg_seq p = u32 (base + offset k);
  cp_payload : exists bs, pieces !! k = Some bs /\ sg_payload p = Some bs;
  cp_rst : has_flag p kTcpRst = false;
  cp_fin : has_flag p kTcpFin = false
}.

(** Packets that carry nothing for connection [t]: unparsable ones, those of other
    connections, segments without payload, RST and FIN. *)
Definition carries_nothing (t : ConnectionTuple) (m : mbuf) : Prop :=
  forall p, view m = Some (Some p) -> matches p t = true ->
    sg_payload p = None /\ has_flag p kTcpRst = false /\ has_flag p kTcpFin = false.

(** The pieces a burst brings, in order of arrival. *)
Inductive brings (t : ConnectionTuple) : list mbuf -> list nat -> Prop :=
| brings_nil : brings t [] []
| brings_piece m p k pkts js :
    view m = Some (Some p) -> matches p t = true -> carries_piece p k ->
    brings t pkts js -> brings t (m :: pkts) (k :: js)
| brings_nothing m pkts js :
    carries_nothing t m -> brings t pkts js -> brings t (m :: pkts) js.

(** No piece is overtaken by more than [ReorderSlots] arrivals. *)
Definition timely (js : list nat) : Prop :=
  forall k, (k < length pieces)%nat -> exists t, js !! t = Some k /\ Z.of_nat t <= Z.of_nat k + ReorderSlots.

(** ** The invariant: [k] pieces delivered after the arrivals [past] *)

Definition entry_is (x : ReorderEntry) (j : nat) : Prop :=
  (j <= length pieces)%nat /\ pieces !! j = Some (e_data x) /\ e_seq x = u32 (base + offset j) /\
  e_len x = zlen (e_data x).

Definition listening (st : TcpState) : bool :=
  match st with Established | FinWait1 | FinWait2 => true | _ => false end.

Record delivered (k : nat) (s : TcpSession) : Prop := {
  dl_k : (k <= length pieces)%nat;
  dl_nxt : rcv_nxt_ s = u32 (base + offset k);
  dl_state : listening (state_ s) = true;
  dl_buf : Forall (fun x => exists j, entry_is x j) (reorder_buf_ s)
}.

Record caught_up (past : list nat) (k : nat) (s : TcpSession) : Prop := {
  cu_delivered : delivered k s;
  cu_drained : find_entry (rcv_nxt_ s) (reorder_buf_ s) = None;
  cu_seen : forall j, j ∈ past -> (j < k)%nat \/ exists x, x ∈ reorder_buf_ s /\ entry_is x j;
  cu_room : (length (reorder_buf_ s) + k <= length past)%nat
}.

Lemma cu_listening past k s : caught_up past k s -> listening (state_ s) = true.
Proof. intros Hc. apply Hc. Qed.

(** The pieces [k, k'), as chunks. *)
Definition chunks (k k' : nat) (out : list (list byte)) : Prop :=
  (k <= k')%nat /\ take k pieces ++ out = take k' pieces.

Lemma chunks_trans k k1 k2 a b : chunks k k1 a -> chunks k1 k2 b -> chunks k k2 (a ++ b).
Proof. intros [? E1] [? E2]. split; [lia|]. by rewrite app_assoc, E1. Qed.

Lemma chunks_one k bs : pieces !! k = Some bs -> chunks k (S k) [bs].
Proof. intros H. split; [lia|]. by rewrite (take_S_r _ _ _ H). Qed.

Lemma chunks_nil k : chunks k k [].
Proof. split; [lia|]. by rewrite app_nil_r. Qed.

(** Delivering one piece. *)
Lemma delivered_step k s s' bs buf :
  delivered k s -> pieces !! k = Some bs -> rcv_nxt_ s' = u32 (rcv_nxt_ s + zlen bs) ->
  state_ s' = state_ s -> reorder_buf_ s' = buf -> Forall (fun x => exists j, entry_is x j) buf ->
  delivered (S k) s'.
Proof.
  intros [Hk Hx Hst Hb] Hbs E1 E2 E3 Hb'. pose proof (lookup_lt_Some _ _ _ Hbs).
  constructor; [lia| |by rewrite E2|by rewrite E3].
  rewrite E1, Hx, wrap_add_wrap_l, (offset_S _ _ Hbs) by lia. f_equal. lia.
Qed.

Lemma delivered_same k s s' :
  rcv_nxt_ s' = rcv_nxt_ s -> reorder_buf_ s' = reorder_buf_ s -> listening (state_ s') = true ->
  delivered k s -> delivered k s'.
Proof. intros E1 E2 E3 []. constructor; [done|by rewrite E1|done|by rewrite E2]. Qed.

Lemma caught_up_same past k s s' :
  rcv_nxt_ s' = rcv_nxt_ s -> reorder_buf_ s' = reorder_buf_ s -> listening (state_ s') = true ->
  caught_up past k s -> caught_up past k s'.
Proof.
  intros E1 E2 E3 []. constructor; [by apply (delivered_same k s)|by rewrite E1, E2|by rewrite E2|by rewrite E2].
Qed.

(** ** Draining *)

Lemma drain_complete fuel : forall k s,
  delivered k s -> (length (reorder_buf_ s) < fuel)%nat ->
  let '(s', out) := drain_reorder_buf fuel s in
  exists k', delivered k' s' /\ chunks k k' out /\
    find_entry (rcv_nxt_ s') (reorder_buf_ s') = None /\
    (length (reorder_buf_ s') + k' = length (reorder_buf_ s) + k)%nat /\
    (forall x, x ∈ reorder_buf_ s -> x ∈ reorder_buf_ s' \/ forall j, entry_is x j -> (j < k')%nat).
Proof.
  induction fuel as [|f IH]; intros k s Hs Hf; [lia|]. cbn [drain_reorder_buf].
  destruct (find_entry _ _) as [i|] eqn:Ei.
  2: { exists k. split; [done|]. split; [apply chunks_nil|]. split; [done|]. split; [done|]. auto. }
  destruct (find_entry_lookup _ _ _ Ei) as (x & Hx & Hseq). rewrite Hx. cbv zeta.
  pose proof (swap_remove_perm i _ x Hx) as Hperm. pose proof (dl_buf _ _ Hs) as Hb.
  rewrite Hperm in Hb. apply list.Forall_cons in Hb as [(j & Hj & Hp & Es & Hl) Hb'].
  assert (j = k) as -> by (apply seq_inj; [done|apply Hs|rewrite <- Es, <- (dl_nxt _ _ Hs); done]).
  set (s1 := set_reorder_buf_ _ _).
  assert (delivered (S k) s1) as H1.
  { eapply (delivered_step k s); [done|done| |reflexivity|reflexivity|done]. subst s1. fields. by rewrite Hl. }
  assert (reorder_buf_ s ≡ₚ x :: reorder_buf_ s1) as Hperm1 by exact Hperm.
  generalize dependent s1. intros s1 H1 Hperm1.
  pose proof (Permutation_length Hperm1) as Hlen1. cbn [length] in Hlen1.
  specialize (IH (S k) s1 H1 ltac:(lia)). destruct (drain_reorder_buf f s1) as [s2 out].
  destruct IH as (k' & H2 & Hc & Hnone & Hsum & Hin). exists k'. split; [done|]. split.
  { change (e_data x :: out) with ([e_data x] ++ out). by eapply chunks_trans; [apply chunks_one|]. }
  split; [done|]. split; [lia|]. intros y Hy. rewrite Hperm1 in Hy.
  apply elem_of_cons in Hy as [->|Hy]; [|by apply Hin]. right. intros j' (Hj' & _ & Es' & _).
  assert (j' = k) as -> by (apply seq_inj; [done|apply Hs|congruence]). destruct Hc. lia.
Qed.

(** ** One segment *)

(** The piece awaited has not arrived. *)
Lemma awaited past k s : caught_up past k s -> ~ k ∈ past.
Proof.
  intros [Hd Hn Hseen _] Hin. destruct (Hseen k Hin) as [|(x & Hx & _ & _ & Es & _)]; [lia|].
  apply find_entry_None in Hn. rewrite list.Forall_forall in Hn. apply (Hn x Hx).
  by rewrite Es, (dl_nxt _ _ Hd).
Qed.

(** Room for a piece that is ahead. *)
Lemma timely_room past j future k s :
  caught_up past k s -> timely (past ++ j :: future) -> (k < length pieces)%nat -> j <> k ->
  zlen (reorder_buf_ s) < ReorderSlots.
Proof.
  intros Hc Ht Hk Hj. pose proof (awaited _ _ _ Hc) as Hna. destruct (Ht k Hk) as (t & Hl & Hle).
  pose proof (cu_room _ _ _ Hc). unfold zlen.
  assert (length past < t)%nat; [|lia]. apply lookup_app_Some in Hl as [Hl|[Hge Hl]].
  { by apply list_elem_of_lookup_2 in Hl. }
  destruct (t - length past)%nat eqn:E; [|lia]. cbn in Hl. congruence.
Qed.

Lemma seen_mono past j k k' (buf buf' : list ReorderEntry) :
  (forall i, i ∈ past -> (i < k)%nat \/ exists x, x ∈ buf /\ entry_is x i) -> (k <= k')%nat ->
  (forall x, x ∈ buf -> x ∈ buf' \/ forall i, entry_is x i -> (i < k')%nat) ->
  ((j < k')%nat \/ exists x, x ∈ buf' /\ entry_is x j) ->
  forall i, i ∈ past ++ [j] -> (i < k')%nat \/ exists x, x ∈ buf' /\ entry_is x i.
Proof.
  intros H1 Hk H2 H3 i Hi. apply elem_of_app in Hi as [Hi|Hi%list_elem_of_singleton]; [|by subst].
  destruct (H1 i Hi) as [|(x & Hx & Hex)]; [left; lia|].
  destruct (H2 x Hx) as [|Hlt]; [right; by exists x|left; by apply Hlt].
Qed.

Lemma out_of_order_complete p j past k s future :
  caught_up past k s -> carries_piece p j -> timely (past ++ j :: future) -> j <> k ->
  let '(s', flow) := handle_out_of_order ReorderSlots p s in
  caught_up (past ++ [j]) k s' /\ flow = Skip.
Proof.
  intros Hc [Eseq (bs & Hbs & Epl) _ _] Ht Hjk. pose proof (cu_delivered _ _ _ Hc) as Hd.
  pose proof (lookup_lt_Some _ _ _ Hbs) as Hj. pose proof (dl_k _ _ Hd) as Hk.
  pose proof (proj1 (list.Forall_lookup _ _) Hpieces _ _ Hbs) as Hb. cbn in Hb.
  unfold handle_out_of_order. cbv zeta. set (s1 := if seq_after _ _ then _ else _).
  assert (caught_up past k s1) as Hc1
    by (subst s1; destruct (seq_after _ _); apply (caught_up_same past k s); done || apply Hd).
  assert (reorder_buf_ s1 = reorder_buf_ s) as Hbuf by (subst s1; by destruct (seq_after _ _)).
  assert (rcv_nxt_ s1 = u32 (base + offset k)) as Hnx by apply Hc1.
  generalize dependent s1. intros s1 Hc1 Hbuf Hnx.
  assert (sg_payload_len p = zlen bs) as -> by (unfold sg_payload_len; by rewrite Epl). rewrite Epl.
  destruct (Z.ltb_spec kDefaultMss (zlen bs)); [lia|].
  rewrite Eseq, Hnx, seq_after_order
    by (pose proof (offset_range j ltac:(lia)); pose proof (offset_range k Hk); lia).
  pose proof (cu_room _ _ _ Hc1) as Hroom. rewrite Hbuf in Hroom.
  destruct (Z.ltb_spec (offset k) (offset j)) as [Hlt|Hge]; cbn [andb negb].
  - assert (k < j)%nat as Hkj.
    { destruct (Nat.lt_trichotomy k j) as [|[|]]; [done|by subst|]. pose proof (offset_lt j k ltac:(lia)). lia. }
    pose proof (timely_room _ _ _ _ _ Hc Ht ltac:(lia) Hjk). rewrite Hbuf.
    destruct (Z.ltb_spec (zlen (reorder_buf_ s)) ReorderSlots); [|lia].
    destruct (Z.leb_spec (zlen bs) kDefaultMss); [|lia]. cbn [andb]. split; [|done].
    assert (entry_is (mkEntry (u32 (base + offset j)) (zlen bs) bs) j) as Hent by (unfold entry_is; split_and!; [lia|done..]).
    destruct Hc1 as [[Hk1 Hn1 Hs1 Hb1] Hdr Hseen _]. constructor; fields.
    + constructor; fields; try done. rewrite <- Hbuf. apply list.Forall_app. split; [done|].
      constructor; [by exists j|constructor].
    + rewrite Hnx in *. rewrite <- Hbuf. apply find_entry_None in Hdr.
      apply find_entry_absent. apply list.Forall_app. split; [done|]. constructor; [|constructor]. cbn.
      intros E. apply seq_inj in E; [done|lia|done].
    + rewrite <- Hbuf. apply (seen_mono past j k k (reorder_buf_ s1)); [done|lia| |].
      * intros x Hx. left. apply elem_of_app. by left.
      * right. eexists. split; [|exact Hent]. apply elem_of_app. right. by apply list_elem_of_singleton.
    + rewrite !length_app. cbn [length]. lia.
  - split; [|done].
    assert (j < k)%nat as Hkj.
    { destruct (Nat.lt_trichotomy k j) as [|[|]]; [|by subst|done]. pose proof (offset_lt k j ltac:(lia)). lia. }
    destruct Hc1 as [Hd1 Hdr Hseen _]. constructor; fields; try done.
    + by apply (delivered_same k s1); [..|apply Hd1|].
    + apply (seen_mono past j k k (reorder_buf_ s1)); [done|lia|by left|by left].
    + rewrite Hbuf, length_app. cbn [length]. lia.
Qed.

Lemma handle_data_complete p j past k s future :
  caught_up past k s -> carries_piece p j -> timely (past ++ j :: future) ->
  let '(s', out, count, owed, flow) := handle_data ReorderSlots p s in
  exists k', caught_up (past ++ [j]) k' s' /\ chunks k k' out /\ (flow = Next \/ flow = Skip).
Proof.
  intros Hc Hp Ht. pose proof (cu_delivered _ _ _ Hc) as Hd. pose proof Hp as [Eseq (bs & Hbs & Epl) _ _].
  pose proof (lookup_lt_Some _ _ _ Hbs) as Hj. pose proof (dl_k _ _ Hd) as Hk.
  pose proof (proj1 (list.Forall_lookup _ _) Hpieces _ _ Hbs) as Hb. cbn in Hb.
  assert (sg_payload_len p = zlen bs) as Elen by (unfold sg_payload_len; by rewrite Epl).
  assert (receives_data (state_ s) = true) as Hst
    by (pose proof (dl_state _ _ Hd); by destruct (state_ s)).
  unfold handle_data. rewrite Hst. cbn [negb].
  rewrite (proj2 (Z.ltb_lt 0 (sg_payload_len p))) by lia. rewrite andb_true_r.
  destruct (decide (j = k)) as [->|Hjk].
  2: { rewrite (proj2 (Z.eqb_neq (sg_seq p) (rcv_nxt_ s)))
         by (rewrite Eseq, (dl_nxt _ _ Hd); intros E; apply seq_inj in E; lia). cbn [negb].
       pose proof (out_of_order_complete p j past k s future Hc Hp Ht Hjk) as H.
       destruct (handle_out_of_order ReorderSlots p s) as [s1 flow]. destruct H as [H ->].
       exists k. split; [done|]. split; [apply chunks_nil|by right]. }
  rewrite (proj2 (Z.eqb_eq (sg_seq p) (rcv_nxt_ s))) by (by rewrite Eseq, (dl_nxt _ _ Hd)). cbn [negb].
  rewrite Epl. cbv zeta. set (s1 := bump rx_bytes _ _).
  assert (delivered (S k) s1) as H1.
  { eapply (delivered_step k s); [done|done| |reflexivity|reflexivity|apply Hd]. subst s1. fields. by rewrite Elen. }
  assert (reorder_buf_ s1 = reorder_buf_ s) as Hbuf by done.
  generalize dependent s1. intros s1 H1 Hbuf.
  pose proof (drain_complete (S (length (reorder_buf_ s1))) (S k) s1 H1 ltac:(lia)) as Hdr.
  destruct (drain_reorder_buf _ s1) as [s2 out]. destruct Hdr as (k' & H2 & Hch & Hn & Hsum & Hin).
  rewrite Hbuf in Hsum, Hin. pose proof (cu_room _ _ _ Hc) as Hroom. destruct Hch as [Hle Hch].
  exists k'. split; [|split; [|by left]].
  - constructor; [done|done| |rewrite length_app; cbn [length]; lia].
    apply (seen_mono past k k k' (reorder_buf_ s)); [apply Hc|lia|done|left; lia].
  - change (bs :: out) with ([bs] ++ out). eapply chunks_trans; [by apply chunks_one|]. by split.
Qed.

Lemma handle_ack_listening e p s : listening (state_ s) = true -> listening (state_ (handle_ack e p s)) = true.
Proof.
  unfold handle_ack, enter_time_wait. cbv zeta. destruct (_ && _); fields; destruct (_ =? _); fields;
    destruct (state_ s) eqn:E; fields; rewrite ?E; done.
Qed.

(** The bookkeeping before the data block. *)
Lemma before_data e p past k s :
  caught_up past k s ->
  caught_up past k
    (let s := set_keepalive_misses_ 0 (set_last_rx_tsc_ (last_rx_burst_tsc_ (bump rx_packets 1 s))
                (bump rx_packets 1 s)) in
     if has_flag p kTcpAck then handle_ack e p s else s).
Proof.
  intros Hc. cbv zeta. set (s1 := set_keepalive_misses_ 0 _).
  assert (caught_up past k s1) as H1 by (by apply (caught_up_same past k s); [..|apply Hc|]).
  generalize dependent s1. intros s1 H1. destruct (has_flag p kTcpAck); [|done].
  destruct (handle_ack_same e p s1) as [E1 E2].
  apply (caught_up_same past k s1); [done..| |done]. apply handle_ack_listening, H1.
Qed.

Lemma process_segment_complete e p j past k s future :
  caught_up past k s -> carries_piece p j -> timely (past ++ j :: future) ->
  let '(s', out, count, owed, flow) := process_segment ReorderSlots e p s in
  exists k', caught_up (past ++ [j]) k' s' /\ chunks k k' out /\ (flow = Next \/ flow = Skip).
Proof.
  intros Hc Hp Ht. pose proof (before_data e p past k s Hc) as H1. unfold process_segment.
  rewrite (cp_rst _ _ Hp), (cp_fin _ _ Hp). cbv zeta in *. generalize dependent
    (if has_flag p kTcpAck then handle_ack e p (set_keepalive_misses_ 0 (set_last_rx_tsc_
      (last_rx_burst_tsc_ (bump rx_packets 1 s)) (bump rx_packets 1 s)))
     else set_keepalive_misses_ 0 (set_last_rx_tsc_ (last_rx_burst_tsc_ (bump rx_packets 1 s)) (bump rx_packets 1 s))).
  intros s1 H1. pose proof (handle_data_complete p j past k s1 future H1 Hp Ht) as H.
  destruct (handle_data ReorderSlots p s1) as [[[[s2 out] count] owed] flow].
  destruct H as (k' & H2 & Hch & [-> | ->]); exists k'; auto.
Qed.

(** Segments without payload, RST and FIN change nothing here. *)
Lemma process_segment_nothing e p past k s :
  caught_up past k s -> sg_payload p = None -> has_flag p kTcpRst = false -> has_flag p kTcpFin = false ->
  let '(s', out, count, owed, flow) := process_segment ReorderSlots e p s in
  caught_up past k s' /\ out = [] /\ flow = Next.
Proof.
  intros Hc Epl Er Ef. pose proof (before_data e p past k s Hc) as H1. unfold process_segment.
  rewrite Er, Ef. cbv zeta in *. generalize dependent
    (if has_flag p kTcpAck then handle_ack e p (set_keepalive_misses_ 0 (set_last_rx_tsc_
      (last_rx_burst_tsc_ (bump rx_packets 1 s)) (bump rx_packets 1 s)))
     else set_keepalive_misses_ 0 (set_last_rx_tsc_ (last_rx_burst_tsc_ (bump rx_packets 1 s)) (bump rx_packets 1 s))).
  intros s1 H1. assert (sg_payload_len p = 0) as El by (unfold sg_payload_len; by rewrite Epl).
  unfold handle_data. rewrite El, Epl. change (0 <? 0) with false. rewrite andb_false_r.
  by destruct (negb _).
Qed.

(** ** One burst *)

Lemma process_loop_complete e t pkts js : brings t pkts js -> forall i fl dc na past k s r future,
  caught_up past k s -> c_tuple (config_ s) = t -> timely (past ++ js ++ future) ->
  process_loop ReorderSlots e i pkts fl dc na s = Some r ->
  exists k', caught_up (past ++ js) k' (rx_session r) /\ chunks k k' (rx_chunks r) /\
    exists n, rx_value r = Ok n.
Proof.
  induction 1 as [|m p j pkts js Ev Em Hp _ IH|m pkts js Hno _ IH];
    intros i fl dc na past k s r future Hc Hcfg Ht; cbn [process_loop].
  - intros [= <-]. exists k. cbn [rx_session rx_chunks rx_value]. rewrite app_nil_r.
    split; [|split; [apply chunks_nil|by eexists]].
    destruct (_ && _); [|done]. by apply (caught_up_same past k s); [..|apply Hc|].
  - rewrite Ev. cbn [mbind option_bind]. rewrite Hcfg, Em. cbn [negb].
    cbn [app] in Ht. pose proof (process_segment_complete e p j past k s _ Hc Hp Ht) as H1.
    pose proof (st_config _ _ (proj1 (process_segment_step ReorderSlots e p s))) as Hc1.
    destruct (process_segment ReorderSlots e p s) as [[[[s1 out] count] owed] flow]. cbn [fst] in Hc1.
    destruct H1 as (k1 & H1 & Hch & Hflow).
    assert (forall fl' dc' na' r, (r' ← process_loop ReorderSlots e (S i) pkts fl' dc' na' s1;
      Some (mkRx (rx_session r') (out ++ rx_chunks r') (rx_freed r') (rx_value r'))) = Some r ->
      exists k', caught_up (past ++ j :: js) k' (rx_session r) /\ chunks k k' (rx_chunks r) /\
        exists n, rx_value r = Ok n) as Hnext.
    { intros fl' dc' na' r' E. destruct (process_loop _ _ _ _ _ _ _ _) as [r1|] eqn:E1; [|done].
      cbn [mbind option_bind] in E. injection E as <-. cbn [rx_session rx_chunks rx_value].
      destruct (IH (S i) fl' dc' na' (past ++ [j]) k1 s1 r1 future H1) as (k2 & H2 & Hch2 & Hv);
        [congruence|by rewrite <- app_assoc|done|].
      exists k2. rewrite <- app_assoc in H2. split; [done|]. split; [by eapply chunks_trans|done]. }
    destruct Hflow as [-> | ->]; (destruct (push_free fl i) as [fl'|]; [|done]); cbn [mbind option_bind];
      apply Hnext.
  - destruct (view m) as [v|] eqn:Ev; [|done]. cbn [mbind option_bind].
    assert (forall dc na s1, caught_up past k s1 -> config_ s1 = config_ s ->
      (fl' ← push_free fl i; process_loop ReorderSlots e (S i) pkts fl' dc na s1) = Some r ->
      exists k', caught_up (past ++ js) k' (rx_session r) /\ chunks k k' (rx_chunks r) /\
        exists n, rx_value r = Ok n) as Hskip.
    { intros dc' na' s1 H1 Hc1 E. destruct (push_free fl i) as [fl'|]; [|done]. cbn [mbind option_bind] in E.
      eapply IH; [done|congruence|done|done]. }
    destruct v as [p|].
    2: { destruct (is_ip_fragment (Some m)); [|done]. cbn [mbind option_bind]. apply Hskip; [|done].
         by apply (caught_up_same past k s); [..|apply Hc|]. }
    destruct (matches p (c_tuple (config_ s))) eqn:Em; cbn [negb].
    2: { apply Hskip; [|done]. by apply (caught_up_same past k s); [..|apply Hc|]. }
    rewrite Hcfg in Em. destruct (Hno p Ev Em) as (Epl & Er & Ef).
    pose proof (process_segment_nothing e p past k s Hc Epl Er Ef) as H1.
    pose proof (st_config _ _ (proj1 (process_segment_step ReorderSlots e p s))) as Hc1.
    destruct (process_segment ReorderSlots e p s) as [[[[s1 out] count] owed] flow]. cbn [fst] in Hc1.
    destruct H1 as (H1 & -> & ->). destruct (push_free fl i) as [fl'|]; [|done]. cbn [mbind option_bind].
    destruct (process_loop _ _ _ _ _ _ _ _) as [r1|] eqn:E1; [|done]. cbn [mbind option_bind].
    intros [= <-]. cbn [rx_session rx_chunks rx_value app]. eapply IH; [done|congruence|done|done].
Qed.

End reassembly.

(** ** Whole runs *)

Section runs.
Context (rte_ipv4_phdr_cksum : list byte -> Z -> Z).
Context (RTE_MBUF_F_TX_IP_CKSUM RTE_MBUF_F_TX_TCP_CKSUM : Z).
Context (ReorderSlots : Z).
Context (to_cycles : Z -> option Z) (fallback_cycles : Z -> Z).

#[local] Abbreviation run_op := (run_op rte_ipv4_phdr_cksum RTE_MBUF_F_TX_IP_CKSUM RTE_MBUF_F_TX_TCP_CKSUM
  ReorderSlots to_cycles fallback_cycles).
#[local] Abbreviation run_ops := (run_ops rte_ipv4_phdr_cksum RTE_MBUF_F_TX_IP_CKSUM RTE_MBUF_F_TX_TCP_CKSUM
  ReorderSlots to_cycles fallback_cycles).

(** The operations of a connection that stays up: receiving, sending, ICMP, delayed ACKs,
    closing the sending direction. *)
Definition stays_open (op : Op) : Prop :=
  match op with
  | OBeginConnect _ _ | OConnectStep _ _ _ | OReset _ | OFeed _ | OFeedOnly _ | OKeepalive _ _ => False
  | _ => True
  end.

(** The pieces an operation receives. *)
Definition op_brings (pieces : list (list byte)) (base : Z) (c : TcpConfig) (op : Op) (js : list nat) : Prop :=
  match op with
  | OProcessRx _ pkts => brings pieces base (c_tuple c) pkts js
  | OPollRx _ rx => brings pieces base (c_tuple c) (rx (burst_limit c)) js
  | _ => js = []
  end.

Lemma stays_open_within op : stays_open op -> within_connection op.
Proof. by destruct op. Qed.

(** Sending and closing leave the receive direction open. *)
Lemma run_op_stays op s s' x :
  stays_open op -> receives op = false -> run_op op s = Some (s', x) ->
  feed_only_ s' = feed_only_ s /\ (listening (state_ s) = true -> listening (state_ s') = true).
Proof.
  destruct op; try done; intros _ _; cbn [TcpOps.run_op].
  - unfold send. destruct (negb _); [by intros [= <- <-]|]. destruct (_ <? _); [by intros [= <- <-]|].
    destruct (transmit _ _ _ _ _ _ _ _) as [[s1 r]|] eqn:E; [|done]. apply transmit_frame in E as [t ->].
    cbn [mbind option_bind]. destruct r; by intros [= <- <-].
  - unfold send_batch. destruct (negb _); [by intros [= <- <-]|].
    destruct (prepare_batch _ _ _ _ _ _ _ _) as [[[s1 m] l]|] eqn:E; [|done].
    apply prepare_frame in E as [t ->]. cbn [mbind option_bind].
    destruct (decide _); [by intros [= <- <-]|]. cbn [mbind option_bind]. intros [= <- <-].
    by destruct (decide _).
  - unfold build_data_packet. destruct (_ || _); [by intros [= <- <-]|].
    destruct (fill_packet _ _ _ _ _ _ _ _ _ _ _) as [[[t w] tx]|]; [|done]. cbn [mbind option_bind].
    destruct tx; [|by intros [= <- <-]]. destruct (w =? 0); by intros [= <- <-].
  - intros [= <- <-]. unfold on_icmp_frag_needed. cbv zeta. by destruct (_ <=? _).
  - unfold flush_pending_ack, send_ack. destruct (negb _); [by intros [= <- <-]|].
    destruct (transmit _ _ _ _ _ _ _ _) as [[s1 r]|] eqn:E; [|done]. apply transmit_frame in E as [t ->].
    cbn [mbind option_bind]. destruct r; by intros [= <- <-].
  - unfold close. destruct (_ && _) eqn:Eg; [by intros [= <- <-]|].
    destruct (transmit _ _ _ _ _ _ _ _) as [[s1 r]|] eqn:E; [|done]. apply transmit_frame in E as [t ->].
    cbn [mbind option_bind]. destruct r; [by intros [= <- <-]..|]. cbv zeta. intros [= <- <-].
    case_bool_decide as Hst; (split; [done|]); [done|]. revert Hst Eg. fields.
    by destruct (state_ s).
  - by intros [= <- <-].
  - intros [= <- <-]. unfold set_arp_refresh. cbv zeta. by destruct (_ <? _).
Qed.

Section stream.
Context (pieces : list (list byte)) (base : Z).
Hypothesis Hpieces : Forall (fun bs => 0 < zlen bs <= kDefaultMss) pieces.
Hypothesis Hlen : zlen (concat pieces) < 2 ^ 31.

#[local] Abbreviation caught_up := (caught_up pieces base).

Lemma run_op_complete op s s' x js past k future :
  stays_open op -> op_brings pieces base (config_ s) op js -> rx_feed_ s = [] -> feed_only_ s = false ->
  caught_up past k s -> timely ReorderSlots pieces (past ++ js ++ future) -> run_op op s = Some (s', x) ->
  exists k', caught_up (past ++ js) k' s' /\ chunks pieces k k' (eff_chunks x) /\
    rx_feed_ s' = [] /\ feed_only_ s' = false /\ config_ s' = config_ s.
Proof.
  intros Hop Hjs Hfeed Hfo Hc Ht E. destruct (receives op) eqn:Hr.
  2: { destruct (run_op_same_rx _ _ _ _ _ _ op s s' x (stays_open_within op Hop) Hr E) as [[E1 E2 E3 E4] ->].
       destruct (run_op_stays op s s' x Hop Hr E) as [E5 E6].
       assert (js = []) as -> by (by destruct op). exists k. rewrite app_nil_r.
       split; [by apply (caught_up_same pieces base past k s); [..|apply E6, (cu_listening pieces base _ _ _ Hc)|]|].
       split; [apply chunks_nil|]. split_and!; congruence. }
  assert (forall e pkts s1 r, brings pieces base (c_tuple (config_ s)) pkts js ->
    caught_up past k s1 -> rx_feed_ s1 = [] -> feed_only_ s1 = false -> config_ s1 = config_ s ->
    process_loop ReorderSlots e 0 pkts [] 0 false s1 = Some r ->
    exists k', caught_up (past ++ js) k' (rx_session r) /\ chunks pieces k k' (rx_chunks r) /\
      rx_feed_ (rx_session r) = [] /\ feed_only_ (rx_session r) = false /\
      config_ (rx_session r) = config_ s) as Hproc.
  { intros e pkts s1 r Hb H1 F1 F2 F3 Er. pose proof (proj1 (process_loop_step _ _ _ _ _ _ _ _ _ Er)) as [].
    destruct (process_loop_complete ReorderSlots pieces base Hpieces Hlen e _ pkts js Hb 0 [] 0 false past k s1 r
      future H1 ltac:(congruence) Ht Er) as (k' & H2 & Hch & _).
    exists k'. split; [done|]. split; [done|]. split_and!; congruence. }
  destruct op; try done; cbn [op_brings TcpOps.run_op] in *.
  - unfold process_rx in E. destruct (process_loop _ _ _ _ _ _ _ _) as [r|] eqn:Er; [|done].
    injection E as <- <-. cbn [eff_chunks]. by apply (Hproc e pkts s).
  - unfold poll_rx, process_rx in E. rewrite Hfeed, Hfo in E.
    destruct (rx (burst_limit (config_ s))) as [|m rest] eqn:Erx.
    + destruct (flush_pending_ack _ _ _ _ _) as [[s1 w]|] eqn:Ef; [|done]. injection E as <- <-.
      cbn [eff_chunks rx_chunks rx_session]. inversion Hjs; subst. rewrite app_nil_r.
      assert (run_op (OFlushAck e) s = Some (s1, wire_effect w)) as Eop by (cbn [TcpOps.run_op]; by rewrite Ef).
      destruct (run_op_stays (OFlushAck e) s s1 _ I eq_refl Eop) as [E5 E6].
      apply flush_frame in Ef as [E1 E2 E3 E4]. exists k.
      split; [by apply (caught_up_same pieces base past k s); [..|apply E6, (cu_listening pieces base _ _ _ Hc)|]|].
      split; [apply chunks_nil|]. split_and!; congruence.
    + cbv zeta in E. destruct (process_loop _ _ _ _ _ _ _ _) as [r|] eqn:Er; [|done].
      injection E as <- <-. cbn [eff_chunks].
      eapply (Hproc e (m :: rest)); [done| | | | |exact Er]; [|done..].
      by apply (caught_up_same pieces base past k s); [..|apply (cu_listening pieces base _ _ _ Hc)|].
Qed.

Lemma run_ops_complete ops : forall jss s s' x past k future,
  Forall stays_open ops -> Forall2 (op_brings pieces base (config_ s)) ops jss ->
  rx_feed_ s = [] -> feed_only_ s = false -> caught_up past k s ->
  timely ReorderSlots pieces (past ++ concat jss ++ future) -> run_ops ops s = Some (s', x) ->
  exists k', caught_up (past ++ concat jss) k' s' /\ chunks pieces k k' (eff_chunks x).
Proof.
  induction ops as [|op rest IH]; intros jss s s' x past k future Hw Hb F1 F2 Hc Ht; cbn [TcpOps.run_ops].
  { intros [= <- <-]. inversion Hb; subst. exists k. cbn [concat]. rewrite app_nil_r.
    split; [done|apply chunks_nil]. }
  apply list.Forall_cons in Hw as [Hw1 Hw2]. inversion Hb as [|? js ? jss' Hb1 Hb2]; subst.
  destruct (run_op op s) as [[s1 y]|] eqn:E1; [|done]. cbn [mbind option_bind].
  destruct (run_ops rest s1) as [[s2 z]|] eqn:E2; [|done]. intros [= <- <-]. cbn [concat] in *.
  rewrite <- app_assoc in Ht.
  destruct (run_op_complete op s s1 y js past k (concat jss' ++ future)) as (k1 & H1 & Hch & F1' & F2' & Hcfg);
    try done.
  destruct (IH jss' s1 s2 z (past ++ js) k1 future) as (k2 & H2 & Hch2); try done;
    [by rewrite Hcfg|by rewrite <- app_assoc|].
  exists k2. rewrite app_assoc. split; [done|]. by apply (chunks_trans pieces k k1).
Qed.
End stream.

(** C4: Reassembly is complete.  Let the peer cut its stream (under [2^31] bytes) into
    non-empty pieces of at most [kDefaultMss] bytes, and let the pieces arrive in bursts in
    any order, repeated, mixed with ACKs and foreign packets, such that each piece is
    overtaken by at most [ReorderSlots] arrivals.  On an open connection, whatever the
    interleaving with sends, ICMP, delayed ACKs and closing the sending direction, the
    operations are defined, every piece reaches the callback exactly once and in order,
    and [rcv_nxt_] acknowledges the whole stream. *)
Theorem tcp_receive_complete pieces base ops jss s :
  Forall (fun bs => 0 < zlen bs <= kDefaultMss) pieces -> zlen (concat pieces) < 2 ^ 31 ->
  session_ok ReorderSlots s -> Forall op_ok ops -> Forall stays_open ops ->
  rx_feed_ s = [] -> feed_only_ s = false -> reorder_buf_ s = [] -> listening (state_ s) = true ->
  rcv_nxt_ s = u32 base ->
  Forall2 (op_brings pieces base (config_ s)) ops jss -> timely ReorderSlots pieces (concat jss) ->
  exists s' x, run_ops ops s = Some (s', x) /\ eff_chunks x = pieces /\
    rcv_nxt_ s' = u32 (base + zlen (concat pieces)).
Proof.
  intros Hp Hl Hs Hops Hopen F1 F2 Hb Hst Hn Hbr Ht.
  destruct (run_ops_ok rte_ipv4_phdr_cksum RTE_MBUF_F_TX_IP_CKSUM RTE_MBUF_F_TX_TCP_CKSUM ReorderSlots
    to_cycles fallback_cycles ops s Hs Hops) as (s' & x & E & _).
  assert (caught_up pieces base [] 0 s) as Hc.
  { constructor; [|by rewrite Hb| |by rewrite Hb].
    - constructor; [lia| |done|by rewrite Hb]. by rewrite Hn, (eq_refl : offset pieces 0 = 0), Z.add_0_r.
    - intros j Hj. by apply not_elem_of_nil in Hj. }
  destruct (run_ops_complete pieces base Hp Hl ops jss s s' x [] 0 [] Hopen Hbr F1 F2 Hc) as (k & Hk & Hch);
    [by rewrite app_nil_r|done|].
  assert (k = length pieces) as ->.
  { destruct (decide (k = length pieces)) as [|Hne]; [done|]. exfalso.
    pose proof (dl_k _ _ _ _ (cu_delivered _ _ _ _ _ Hk)). destruct (Ht k ltac:(lia)) as (t & Hl' & _).
    apply (awaited pieces base _ _ _ Hk). by eapply list_elem_of_lookup_2. }
  exists s', x. split; [done|]. destruct Hch as [_ Hch]. split.
  - by rewrite firstn_all in Hch.
  - rewrite (dl_nxt _ _ _ _ (cu_delivered _ _ _ _ _ Hk)). unfold offset. by rewrite firstn_all.
Qed.

End runs.

(** "hello" as two pieces that arrive as second, first, second. *)
Lemma demo_piece seq off payload k :
  match view (demo_packet seq 0x18 payload) with
  | Some (Some p) => sg_seq p = seq /\ sg_payload p = Some payload /\ sg_flags p = 0x18 /\
      matches p (c_tuple (config_ demo_session)) = true
  | _ => False
  end ->
  [[x68; x65]; [x6c; x6c; x6f]] !! k = Some payload -> offset [[x68; x65]; [x6c; x6c; x6f]] k = off ->
  seq = u32 (5000 + off) ->
  forall pkts js, brings [[x68; x65]; [x6c; x6c; x6f]] 5000 (c_tuple (config_ demo_session)) pkts js ->
  brings [[x68; x65]; [x6c; x6c; x6f]] 5000 (c_tuple (config_ demo_session))
    (demo_packet seq 0x18 payload :: pkts) (k :: js).
Proof.
  intros Hv Hk Ho Hs pkts js Hb. destruct (view _) as [[p|]|] eqn:Ev; [|done..].
  destruct Hv as (E1 & E2 & E3 & E4). eapply brings_piece; [exact Ev|exact E4| |exact Hb].
  constructor; [congruence|by eexists| |]; unfold has_flag; by rewrite E3.
Qed.

Definition demo_reorder_ops : list Op :=
  [OProcessRx demo_env [demo_packet 5002 0x18 [x6c; x6c; x6f]; demo_packet 5000 0x18 [x68; x65]];
   OSend demo_env [x68];
   OProcessRx demo_env [demo_packet 5002 0x18 [x6c; x6c; x6f]]].

Lemma tcp_receive_complete_witness :
  exists s' x, run_ops (fun _ _ => 0) 1 2 8 Some id
      demo_reorder_ops
      demo_session = Some (s', x) /\
    eff_chunks x = [[x68; x65]; [x6c; x6c; x6f]] /\ rcv_nxt_ s' = u32 (5000 + 5).
Proof.
  assert (mbuf_ok (demo_packet 5002 0x18 [x6c; x6c; x6f])) as H1 by (by vm_compute).
  assert (mbuf_ok (demo_packet 5000 0x18 [x68; x65])) as H2 by (by vm_compute).
  assert (op_ok (OSend demo_env [x68])) as H3 by apply demo_env_ok.
  apply (tcp_receive_complete (fun _ _ => 0) 1 2 8 Some id [[x68; x65]; [x6c; x6c; x6f]] 5000 demo_reorder_ops
    [[1%nat; 0%nat]; []; [1%nat]]);
    [by repeat constructor|by vm_compute|apply demo_session_ok| |by repeat constructor|done|done|done|done|done| |].
  - constructor; [|constructor; [done|constructor; [|constructor]]]; (split; [apply demo_env_ok|]);
      (split; [by repeat constructor|by vm_compute]).
  - constructor; [|constructor; [done|constructor; [|constructor]]].
    + apply (demo_piece 5002 2); [vm_compute; repeat split|reflexivity|reflexivity|reflexivity|].
      apply (demo_piece 5000 0); [vm_compute; repeat split|reflexivity|reflexivity|reflexivity|constructor].
    + apply (demo_piece 5002 2); [vm_compute; repeat split|reflexivity|reflexivity|reflexivity|constructor].
  - intros [|[|k]] Hk; [exists 1%nat|exists 0%nat|cbn in Hk; lia]; (split; [done|lia]).
Defined.
