(* ===== verification/TcpSend.v ===== *)
(** * Sending: the packets on the wire are the accepted stream

    [tcp_send_stream]: while no new connection is opened, the payloads of the packets a
    session hands to the NIC are, in order, exactly the bytes it accepted from its callers;
    each carries the sequence number of its place in that stream, and a FIN comes after the
    last byte.  [tcp_end_to_end] joins this with the receive path of another session: what
    arrives is a prefix of what was accepted, whatever the network does in between. *)

From stdpp Require Import list.
From S2P Require Import Prelude Codecs PacketCore PacketParse PacketTemplate TcpSession TcpOps TcpStates TcpReceive.

#[local] Open Scope Z_scope.

Definition payload_of (p : Segment) : list byte := default [] (sg_payload p).

Lemma payload_of_view bs : default [] (payload_view bs) = bs.
Proof. by destruct bs. Qed.

(** The session at the other end sees these addresses. *)
Definition peer_tuple (t : ConnectionTuple) : ConnectionTuple :=
  mkTuple (dst_ip t) (src_ip t) (dst_port t) (src_port t).

Section stream.
Context (base : Z).

(** [p] carries the bytes [d] at offset [off] of the stream, or nothing at all. *)
Record data_packet (off : Z) (d : list byte) (p : Segment) : Prop := {
  dp_seq : sg_seq p = u32 (base + off);
  dp_payload : sg_payload p = payload_view d;
  dp_fin : has_flag p kTcpFin = false
}.

Fixpoint consecutive (off : Z) (segs : list (list byte)) (ps : list Segment) : Prop :=
  match segs, ps with
  | [], [] => True
  | d :: segs, p :: ps => data_packet off d p /\ consecutive (off + zlen d) segs ps
  | _, _ => False
  end.

Lemma consecutive_take n : forall off segs ps,
  consecutive off segs ps -> consecutive off (take n segs) (take n ps).
Proof.
  induction n as [|n IH]; intros off [|d segs] [|p ps]; cbn; try done. intros [? ?]. auto.
Qed.

Lemma consecutive_length : forall segs off ps, consecutive off segs ps -> length ps = length segs.
Proof. induction segs as [|d segs IH]; intros off [|p ps]; cbn; try done. intros [_ H]. by rewrite (IH _ _ H). Qed.

Lemma consecutive_payload : forall segs off ps,
  consecutive off segs ps -> concat (map payload_of ps) = concat segs.
Proof.
  induction segs as [|d segs IH]; intros off [|p ps]; cbn; try done. intros [[_ E _] H].
  rewrite (IH _ _ H). unfold payload_of. by rewrite E, payload_of_view.
Qed.

Lemma consecutive_no_fin : forall segs off ps,
  consecutive off segs ps -> Forall (fun p => has_flag p kTcpFin = false) ps.
Proof.
  induction segs as [|d segs IH]; intros off [|p ps]; cbn; try done. intros [[_ _ E] H].
  constructor; [done|by eapply IH].
Qed.

(** Pieces of a stream stay pieces when it grows. *)
Lemma data_packet_honest acc d rest p :
  data_packet (zlen acc) d p -> honest (acc ++ d ++ rest) base p.
Proof.
  intros [Es Ep Ef]. right. destruct d as [|b d]; [left; split; [|done]|right].
  { unfold sg_payload_len. by rewrite Ep. }
  exists (zlen acc). constructor; [apply zlen_nonneg|done| |by rewrite Ef].
  unfold sg_payload_len. rewrite Ep, payload_of_view. by apply slice_mid.
Qed.

Lemma consecutive_honest : forall segs acc rest ps,
  consecutive (zlen acc) segs ps -> Forall (honest (acc ++ concat segs ++ rest) base) ps.
Proof.
  induction segs as [|d segs IH]; intros acc rest [|p ps]; cbn; try done. intros [Hp H].
  rewrite <- app_assoc. constructor; [by apply data_packet_honest|].
  rewrite (app_assoc acc d). apply IH. by rewrite zlen_app.
Qed.

Lemma honest_grows S rest p : has_flag p kTcpFin = false -> honest S base p -> honest (S ++ rest) base p.
Proof.
  intros Hf [H|[H|(off & [H0 Es Hb _])]]; [by left|by right; left|]. right. right.
  exists off. constructor; [done|done| |by rewrite Hf].
  pose proof (slice_bound _ _ _ _ Hb). rewrite slice_Some in Hb |- * by (rewrite ?zlen_app; pose proof (zlen_nonneg rest); lia).
  injection Hb as <-. f_equal. unfold zlen in *. rewrite drop_app_le by lia. rewrite take_app_le; [done|].
  rewrite length_drop. lia.
Qed.

(** ** What one operation sends *)

Definition from (t : ConnectionTuple) (p : Segment) : Prop := matches p (peer_tuple t) = true.

(** After the stream [acc] the session [s] sent [wire], accepting [a], and became [s']. *)
Record sends (acc : list byte) (s s' : TcpSession) (wire : list (list byte)) (a : list byte)
    (ps : list Segment) : Prop := {
  sd_carries : Forall2 carries wire ps;
  sd_from : Forall (from (c_tuple (config_ s))) ps;
  sd_mss : Forall (fun p => sg_payload_len p <= effective_mss_ s) ps;
  sd_honest : Forall (honest (acc ++ a) base) ps;
  sd_payload : concat (map payload_of ps) = a;
  sd_fin : Forall (fun p => has_flag p kTcpFin = false) ps \/ past_fin (state_ s') = true
}.

(** The stream accepted so far is [acc]; a FIN may have followed it. *)
Definition tx_at (acc : list byte) (fin : bool) (s : TcpSession) : Prop :=
  snd_nxt_ s = u32 (base + zlen acc + fin_len fin) /\ (fin = true -> past_fin (state_ s) = true).

Lemma segment_from t s seq ack flags window bs :
  tuple t = c_tuple (config_ s) -> from (c_tuple (config_ s)) (segment_of t seq ack flags window bs).
Proof. intros E. unfold from, matches, segment_of. cbn. rewrite E, !Z.eqb_refl. done. Qed.

Lemma sends_nothing acc s s' : sends acc s s' [] [] [].
Proof. constructor; try done. by left. Qed.

(** One segment without payload and FIN, or a RST. *)
Lemma sends_empty slots acc s s' w seq ack flags window :
  session_ok slots s ->
  carries w (segment_of (pkt_template_ s) seq ack flags window []) ->
  negb (Z.land flags kTcpFin =? 0) = false ->
  sends acc s s' [w] [] [segment_of (pkt_template_ s) seq ack flags window []].
Proof.
  intros Hs Hw Hf. pose proof (so_mss _ _ Hs). constructor; cbn [map concat].
  - by constructor.
  - constructor; [|constructor]. apply segment_from, Hs.
  - constructor; [|constructor]. change (sg_payload_len _) with 0. lia.
  - constructor; [|constructor]. right. left. by split.
  - done.
  - left. by constructor.
Qed.

(** One data segment. *)
Lemma sends_data slots acc s s' w seq ack window d :
  session_ok slots s -> zlen d <= effective_mss_ s -> seq = u32 (base + zlen acc) ->
  carries w (segment_of (pkt_template_ s) seq ack (Z.lor kTcpAck kTcpPsh) window d) ->
  sends acc s s' [w] d [segment_of (pkt_template_ s) seq ack (Z.lor kTcpAck kTcpPsh) window d].
Proof.
  intros Hs Hl Es Hw. assert (consecutive (zlen acc) [d]
    [segment_of (pkt_template_ s) seq ack (Z.lor kTcpAck kTcpPsh) window d]) as Hc by (by split).
  constructor.
  - by constructor.
  - constructor; [|constructor]. apply segment_from, Hs.
  - constructor; [|constructor]. unfold sg_payload_len. cbn [segment_of sg_payload].
    by rewrite payload_of_view.
  - apply (consecutive_honest _ _ []) in Hc. cbn [concat] in Hc. by rewrite !app_nil_r in Hc.
  - apply consecutive_payload in Hc. cbn [concat] in Hc. by rewrite app_nil_r in Hc.
  - left. by apply consecutive_no_fin in Hc.
Qed.

End stream.

(** ** Operations *)

Section runs.
Context (rte_ipv4_phdr_cksum : list byte -> Z -> Z).
Context (RTE_MBUF_F_TX_IP_CKSUM RTE_MBUF_F_TX_TCP_CKSUM : Z).
Context (ReorderSlots : Z).
Context (to_cycles : Z -> option Z) (fallback_cycles : Z -> Z).

#[local] Abbreviation transmit := (transmit rte_ipv4_phdr_cksum RTE_MBUF_F_TX_IP_CKSUM RTE_MBUF_F_TX_TCP_CKSUM).
#[local] Abbreviation prepare_batch := (prepare_batch rte_ipv4_phdr_cksum RTE_MBUF_F_TX_IP_CKSUM RTE_MBUF_F_TX_TCP_CKSUM).
#[local] Abbreviation run_op := (run_op rte_ipv4_phdr_cksum RTE_MBUF_F_TX_IP_CKSUM RTE_MBUF_F_TX_TCP_CKSUM
  ReorderSlots to_cycles fallback_cycles).
#[local] Abbreviation run_ops := (run_ops rte_ipv4_phdr_cksum RTE_MBUF_F_TX_IP_CKSUM RTE_MBUF_F_TX_TCP_CKSUM
  ReorderSlots to_cycles fallback_cycles).
#[local] Abbreviation session_ok := (session_ok ReorderSlots).

(** [transmit_spec] for a transmission that is known to have returned. *)
Lemma transmit_sent e seq ack flags window payload bs s s' r :
  session_ok s -> env_ok e -> 0 <= seq < 2 ^ 32 -> 0 <= ack < 2 ^ 32 -> 0 <= flags < 256 ->
  0 <= window < 2 ^ 16 -> payload_is payload bs ->
  transmit e seq ack flags window payload (zlen bs) s = Some (s', r) ->
  (exists t, s' = set_pkt_template_ t s) /\
  (forall w, r = TxSent w -> carries w (segment_of (pkt_template_ s) seq ack flags window bs)).
Proof.
  intros Hs He H1 H2 H3 H4 H5 E.
  destruct (transmit_spec rte_ipv4_phdr_cksum RTE_MBUF_F_TX_IP_CKSUM RTE_MBUF_F_TX_TCP_CKSUM ReorderSlots
    e seq ack flags window payload bs (zlen bs) s Hs He H1 H2 H3 H4 H5 eq_refl) as (t & r' & E' & _ & _ & Hr).
  rewrite E in E'. apply some_pair_inj in E' as [-> ->]. split; [by exists t|]. intros w Hw. by apply Hr.
Qed.

(** What an operation that only emits payload-free segments without FIN keeps. *)
Definition emits (s s' : TcpSession) (wire : list (list byte)) : Prop :=
  snd_nxt_ s' = snd_nxt_ s /\ forall base acc, exists ps, sends base acc s s' wire [] ps.

Lemma emits_nothing s s' : snd_nxt_ s' = snd_nxt_ s -> emits s s' [].
Proof. intros E. split; [done|]. intros base acc. exists []. apply sends_nothing. Qed.

Lemma emits_one s s' w seq ack flags window :
  session_ok s -> snd_nxt_ s' = snd_nxt_ s ->
  carries w (segment_of (pkt_template_ s) seq ack flags window []) ->
  negb (Z.land flags kTcpFin =? 0) = false -> emits s s' [w].
Proof.
  intros Hs E Hw Hf. split; [done|]. intros base acc. eexists. by eapply sends_empty.
Qed.

Lemma empty_payload : payload_is None [].
Proof. by right. Qed.

Lemma flush_emits e s s' w :
  session_ok s -> env_ok e ->
  flush_pending_ack rte_ipv4_phdr_cksum RTE_MBUF_F_TX_IP_CKSUM RTE_MBUF_F_TX_TCP_CKSUM e s = Some (s', w) ->
  emits s s' w.
Proof.
  intros Hs He. unfold flush_pending_ack, send_ack. destruct (negb _); [intros [= <- <-]; by apply emits_nothing|].
  destruct (transmit _ _ _ _ _ _ _ _) as [[s1 r]|] eqn:E; [|done]. cbn [mbind option_bind].
  apply (transmit_sent _ _ _ _ _ _ [] _ _ _ Hs He) in E as [[t ->] Hr];
    [|apply Hs|apply Hs|vm_compute; done|apply Hs|apply empty_payload].
  destruct r; intros [= <- <-]; [by apply emits_nothing..|].
  eapply emits_one; [done|done|by apply Hr|done].
Qed.

Lemma keepalive_emits e tsc s s' w :
  session_ok s -> env_ok e ->
  tick_keepalive rte_ipv4_phdr_cksum RTE_MBUF_F_TX_IP_CKSUM RTE_MBUF_F_TX_TCP_CKSUM to_cycles fallback_cycles
    e tsc s = Some (s', w) ->
  emits s s' w.
Proof.
  intros Hs He. unfold tick_keepalive, keepalive_interval_cycles_.
  destruct (_ =? 0); [intros [= <- <-]; by apply emits_nothing|].
  destruct (negb _); [intros [= <- <-]; by apply emits_nothing|].
  destruct (last_rx_tsc_ s =? 0); [intros [= <- <-]; by apply emits_nothing|].
  set (s0 := match to_cycles _ with Some c => (s, c) | None => _ end).
  assert (exists x c, s0 = (set_stats_ x s, c)) as (x & c & ->).
  { subst s0. destruct (to_cycles _); [|by eexists _, _]. exists (stats_ s), z. by destruct s. }
  assert (session_ok (set_stats_ x s)) as H1 by (by apply ok_set_stats_).
  destruct (_ <? c); [intros [= <- <-]; by apply emits_nothing|].
  destruct (_ && _); [intros [= <- <-]; by apply emits_nothing|].
  destruct (_ <=? _); [intros [= <- <-]; by apply emits_nothing|]. unfold send_keepalive_probe_.
  destruct (transmit _ _ _ _ _ _ _ _) as [[s2 r]|] eqn:E; [|done]. cbn [mbind option_bind].
  apply (transmit_sent _ _ _ _ _ _ [] _ _ _ H1 He) in E as [[t ->] Hr];
    [|apply u32_range|apply Hs|vm_compute; done|apply Hs|apply empty_payload].
  destruct r; cbn [mbind option_bind]; intros [= <- <-]; [by apply emits_nothing..|].
  eapply emits_one; [done|done|by apply Hr|done].
Qed.

Lemma reset_emits e s s' w :
  session_ok s -> env_ok e ->
  reset rte_ipv4_phdr_cksum RTE_MBUF_F_TX_IP_CKSUM RTE_MBUF_F_TX_TCP_CKSUM e s = Some (s', w) ->
  emits s s' w.
Proof.
  intros Hs He. unfold reset.
  destruct (transmit _ _ _ _ _ _ _ _) as [[s1 r]|] eqn:E; [|done]. cbn [mbind option_bind].
  apply (transmit_sent _ _ _ _ _ _ [] _ _ _ Hs He) in E as [[t ->] Hr];
    [|apply Hs|apply Hs|vm_compute; done|lia|apply empty_payload].
  destruct r; intros [= <- <-]; [by apply emits_nothing..|].
  eapply emits_one; [done|done|by apply Hr|done].
Qed.

(** ** Data *)

(** The session after an operation that accepted [a] after [acc]. *)
Definition accepts (base : Z) (acc : list byte) (s s' : TcpSession) (wire : list (list byte)) (a : list byte) : Prop :=
  snd_nxt_ s' = u32 (base + zlen (acc ++ a)) /\ exists ps, sends base acc s s' wire a ps.

Lemma accepts_nothing base acc s s' :
  snd_nxt_ s = u32 (base + zlen acc) -> snd_nxt_ s' = snd_nxt_ s -> accepts base acc s s' [] [].
Proof.
  intros E1 E2. split; [by rewrite app_nil_r, E2|]. exists []. apply sends_nothing.
Qed.

Lemma advance_nxt base acc (s : TcpSession) n (d : list byte) :
  snd_nxt_ s = u32 (base + zlen acc) -> u32 n = u32 (zlen d) ->
  u32 (snd_nxt_ s + n) = u32 (base + zlen (acc ++ d)).
Proof.
  intros E1 E2. rewrite E1, zlen_app, wrap_add_wrap_l, <- wrap_add_wrap_r, E2, wrap_add_wrap_r by lia.
  f_equal. lia.
Qed.

Lemma send_accepts base acc e data s s' x :
  session_ok s -> op_ok (OSend e data) -> snd_nxt_ s = u32 (base + zlen acc) ->
  run_op (OSend e data) s = Some (s', x) -> accepts base acc s s' (eff_wire x) (eff_accepted x).
Proof.
  intros Hs He Hn. cbn [TcpOps.run_op op_ok] in *. unfold send.
  destruct (negb _); [intros [= <- <-]; by apply accepts_nothing|].
  destruct (Z.ltb_spec (effective_mss_ s) (zlen data)); [intros [= <- <-]; by apply accepts_nothing|].
  rewrite (mss_u16 ReorderSlots s data Hs) by lia.
  destruct (transmit _ _ _ _ _ _ _ _) as [[s1 r]|] eqn:E; [|done]. cbn [mbind option_bind].
  apply (transmit_sent _ _ _ _ _ _ data _ _ _ Hs He) in E as [[t ->] Hr];
    [|apply Hs|apply Hs|vm_compute; done|apply Hs|by left].
  destruct r as [| |w]; intros [= <- <-]; [by apply accepts_nothing..|]. cbn [eff_wire eff_accepted].
  split; [fields; apply advance_nxt; [done|by rewrite wrap_wrap]|].
  eexists. eapply sends_data; [done|lia|done|by apply Hr].
Qed.

Lemma build_accepts base acc m data s s' x :
  session_ok s -> op_ok (OBuildData m data) -> snd_nxt_ s = u32 (base + zlen acc) ->
  run_op (OBuildData m data) s = Some (s', x) -> accepts base acc s s' (eff_wire x) (eff_accepted x).
Proof.
  intros Hs Ha Hn. cbn [TcpOps.run_op op_ok] in *. unfold build_data_packet.
  destruct (_ || _) eqn:Eg; [intros [= <- <-]; by apply accepts_nothing|].
  apply orb_false_iff in Eg as [_ Hl%Z.ltb_ge]. pose proof (so_template _ _ Hs) as Ht.
  destruct m as [f|]; [|cbn [fill_packet mbind option_bind]; intros [= <- <-]; by apply accepts_nothing].
  specialize (Ha f eq_refl).
  rewrite (fill_build_eq _ _ _ _ f _ _ _ _ (Some data) data Ht Ha (so_snd_nxt _ _ Hs) (so_rcv_nxt _ _ Hs)
    (so_rcv_wnd _ _ Hs) (or_introl eq_refl)).
  change (negb (Z.land (Z.lor kTcpAck kTcpPsh) kTcpSyn =? 0)) with false. cbv iota.
  destruct (build_packet_cases rte_ipv4_phdr_cksum RTE_MBUF_F_TX_IP_CKSUM RTE_MBUF_F_TX_TCP_CKSUM
    (pkt_template_ s) f (snd_nxt_ s) (rcv_nxt_ s) (Z.lor kTcpAck kTcpPsh) (rcv_wnd_ s) (Some data) data
    Ht Ha (so_snd_nxt _ _ Hs) (so_rcv_nxt _ _ Hs) ltac:(vm_compute; done) (so_rcv_wnd _ _ Hs) (or_introl eq_refl))
    as [(_ & _ & m & -> & Hlen & Hv & _)|(_ & ->)]; cbn [mbind option_bind].
  2: { intros [= <- <-]. by apply accepts_nothing. }
  destruct (Z.eqb_spec (kAllHeadersLen + zlen data) 0) as [E0|_].
  { pose proof (zlen_nonneg data). change kAllHeadersLen with 54 in E0. lia. }
  intros [= <- <-]. cbn [eff_wire eff_accepted]. split; [fields; by apply advance_nxt|].
  eexists. eapply sends_data; [done|lia|done|]. intros pad Hpad. apply Hv. by rewrite <- Hlen.
Qed.

Lemma total_payload_len_eq (ds : list (list byte)) n :
  total_payload_len_ (map zlen ds) n = u32 (zlen (concat (take n ds))).
Proof.
  unfold total_payload_len_. rewrite <- fmap_take.
  assert (forall (l : list (list byte)) acc, foldl (fun total k => u32 (total + k)) (u32 acc) (map zlen l) =
    u32 (acc + zlen (concat l))) as H.
  { induction l as [|d l IH]; intros acc; cbn [map foldl concat].
    - change (zlen (@nil byte)) with 0. by rewrite Z.add_0_r.
    - rewrite wrap_add_wrap_l, IH, zlen_app by lia. f_equal. lia. }
  apply (H (take n ds) 0).
Qed.

Lemma prepare_sends base off segs : forall allocs done mbufs s s' m l,
  Forall alloc_ok allocs -> session_ok s -> snd_nxt_ s = u32 (base + off) ->
  length mbufs = length done ->
  prepare_batch allocs segs mbufs (map zlen done) s = Some (s', m, l) ->
  exists taken w ps, taken `prefix_of` segs /\ m = mbufs ++ w /\ l = map zlen (done ++ taken) /\
    Forall2 carries w ps /\ consecutive base (off + zlen (concat done)) taken ps /\
    Forall (from (c_tuple (config_ s))) ps /\ Forall (fun p => sg_payload_len p <= effective_mss_ s) ps.
Proof.
  induction segs as [|d rest IH]; intros allocs dn mbufs s s' m l Ha Hs Hn Hlen; cbn [TcpSession.prepare_batch].
  all: assert (forall l0 s1, Some (s1, mbufs, map zlen dn) = Some (s', m, l) ->
    exists taken w ps, taken `prefix_of` l0 /\ m = mbufs ++ w /\ l = map zlen (dn ++ taken) /\
    Forall2 carries w ps /\ consecutive base (off + zlen (concat dn)) taken ps /\
    Forall (from (c_tuple (config_ s))) ps /\ Forall (fun p => sg_payload_len p <= effective_mss_ s) ps) as Hstop
    by (intros l0 s1 [= _ <- <-]; exists [], [], []; rewrite !app_nil_r; split_and!; try done; apply prefix_nil).
  { apply Hstop. }
  destruct (Z.ltb_spec (effective_mss_ s) (zlen d)) as [|Hle]; [apply Hstop|].
  pose proof (so_template _ _ Hs) as Ht. pose proof (so_tuple _ _ Hs) as Htu.
  destruct (pool_ s); [|cbn [build_packet mbind option_bind]; apply Hstop].
  destruct (head allocs) as [[f|]|] eqn:Eh; try (cbn [build_packet mbind option_bind]; apply Hstop).
  assert (room_ok f /\ Forall alloc_ok (tail allocs)) as [Hf Ha'].
  { destruct allocs as [|a al]; [done|]. injection Eh as ->. inversion Ha; subst. split; auto. }
  rewrite total_payload_len_eq, Hlen, firstn_all.
  assert (u32 (snd_nxt_ s + u32 (zlen (concat dn))) = u32 (base + (off + zlen (concat dn)))) as Hseq
    by (rewrite wrap_add_wrap_r, Hn, wrap_add_wrap_l by lia; f_equal; lia).
  destruct (build_packet_cases rte_ipv4_phdr_cksum RTE_MBUF_F_TX_IP_CKSUM RTE_MBUF_F_TX_TCP_CKSUM
    (pkt_template_ s) f (u32 (snd_nxt_ s + u32 (zlen (concat dn)))) (rcv_nxt_ s)
    (Z.lor kTcpAck kTcpPsh) (rcv_wnd_ s) (Some d) d Ht Hf (u32_range _) (so_rcv_nxt _ _ Hs)
    ltac:(vm_compute; done) (so_rcv_wnd _ _ Hs) (or_introl eq_refl))
    as [(_ & _ & pk & -> & Hpl & Hv & _)|(_ & ->)]; cbn [mbind option_bind]; [|apply Hstop].
  assert (session_ok (set_pkt_template_ (set_ip_id (pkt_template_ s) (u16 (ip_id (pkt_template_ s) + 1))) s)) as Hs1.
  { apply ok_set_pkt_template_; [done|apply set_ip_id_ok; [done|apply u16_range]|done]. }
  pose (p := segment_of (pkt_template_ s) (u32 (snd_nxt_ s + u32 (zlen (concat dn)))) (rcv_nxt_ s)
    (Z.lor kTcpAck kTcpPsh) (rcv_wnd_ s) d).
  change [zlen d] with (map zlen [d]). rewrite <- map_app. intros E.
  apply IH in E as (taken & w & ps & Hpre & -> & -> & Hw & Hc & Hfr & Hm); [|done|done|done|by rewrite !length_app, Hlen].
  exists (d :: taken), (tx_data pk :: w), (p :: ps). rewrite <- !app_assoc. split_and!; try done.
  - by apply prefix_cons.
  - constructor; [|done]. intros pad Hpad. apply Hv. by rewrite <- Hpl.
  - cbn [consecutive]. split; [by constructor|]. rewrite concat_app, zlen_app in Hc. cbn [concat] in Hc.
    by rewrite app_nil_r, Z.add_assoc in Hc.
  - constructor; [by apply segment_from|done].
  - constructor; [|done]. unfold sg_payload_len. subst p. cbn [segment_of sg_payload]. by rewrite payload_of_view.
Qed.

Lemma batch_accepts base acc allocs burst segs s s' x :
  session_ok s -> op_ok (OSendBatch allocs burst segs) -> snd_nxt_ s = u32 (base + zlen acc) ->
  run_op (OSendBatch allocs burst segs) s = Some (s', x) ->
  accepts base acc s s' (eff_wire x) (eff_accepted x).
Proof.
  intros Hs [Ha Hburst] Hn. cbn [TcpOps.run_op]. unfold send_batch.
  destruct (negb _); [intros [= <- <-]; by apply accepts_nothing|].
  destruct (prepare_batch _ _ _ _ _) as [[[s1 m] l]|] eqn:E; [|done]. cbn [mbind option_bind].
  pose proof (prepare_frame _ _ _ _ _ _ _ _ _ _ _ E) as [t ->].
  apply (prepare_sends base (zlen acc) _ _ [] _ _ _ _ _ Ha Hs Hn eq_refl) in E
    as (taken & w & ps & Hpre & -> & -> & Hw & Hc & Hfr & Hm). cbn [app] in *.
  change (zlen (concat [])) with 0 in Hc. rewrite Z.add_0_r in Hc.
  destruct (decide _) as [|_]; [intros [= <- <-]; by apply accepts_nothing|].
  specialize (Hburst (length w)). set (n := burst (length w)) in *. clearbody n.
  assert (length taken = length w) as Hlw
    by (rewrite <- (consecutive_length _ _ _ _ Hc); symmetry; by apply Forall2_length in Hw).
  assert (take n segs = take n taken) as Htk.
  { destruct Hpre as [k Hk]. rewrite <- (take_drop kMaxBatchSize segs), Hk, <- app_assoc.
    rewrite take_app_le; [done|lia]. }
  cbn [mbind option_bind]. intros [= <- <-]. cbn [eff_wire eff_accepted]. rewrite Htk, total_payload_len_eq.
  apply (consecutive_take _ n) in Hc. split.
  - assert (forall s2, snd_nxt_ s2 = u32 (snd_nxt_ s + u32 (zlen (concat (take n taken)))) ->
      snd_nxt_ s2 = u32 (base + zlen (acc ++ concat (take n taken)))) as Hnx.
    { intros s2 ->. apply advance_nxt; [done|]. by rewrite wrap_wrap. }
    apply Hnx. by destruct (decide _).
  - exists (take n ps). constructor.
    + by apply Forall2_take.
    + by apply Forall_take.
    + by apply Forall_take.
    + apply (consecutive_honest _ _ _ []) in Hc. by rewrite app_nil_r in Hc.
    + by apply consecutive_payload in Hc.
    + left. by apply consecutive_no_fin in Hc.
Qed.

(** ** Steps *)

Definition sends_data_op (op : Op) : bool :=
  match op with OSend _ _ | OSendBatch _ _ _ | OBuildData _ _ => true | _ => false end.

Definition closes (op : Op) : bool := match op with OClose _ => true | _ => false end.

Lemma data_refused op s s' x :
  sends_data_op op = true -> state_ s <> Established -> run_op op s = Some (s', x) ->
  s' = s /\ eff_wire x = [] /\ eff_accepted x = [].
Proof.
  intros Hop Hst. destruct op; try done; cbn [TcpOps.run_op]; unfold send, send_batch, build_data_packet;
    rewrite (bool_decide_false _ Hst); cbn [negb orb mbind option_bind]; by intros [= <- <-].
Qed.

Lemma data_accepts base acc op s s' x :
  session_ok s -> op_ok op -> sends_data_op op = true -> snd_nxt_ s = u32 (base + zlen acc) ->
  run_op op s = Some (s', x) -> accepts base acc s s' (eff_wire x) (eff_accepted x).
Proof.
  destruct op; try done; intros Hs Ho _.
  - by apply send_accepts.
  - by apply batch_accepts.
  - by apply build_accepts.
Qed.

(** Everything but data and FIN. *)
Lemma run_op_emits op s s' x :
  session_ok s -> op_ok op -> no_handshake op -> sends_data_op op = false -> closes op = false ->
  run_op op s = Some (s', x) -> emits s s' (eff_wire x) /\ eff_accepted x = [].
Proof.
  intros Hs Ho Hh Hd Hc.
  assert (forall e pkts s1 r, snd_nxt_ s1 = snd_nxt_ s -> process_rx ReorderSlots e pkts s1 = Some r ->
    emits s (rx_session r) []) as Hproc.
  { intros e pkts s1 r E1 Er. apply process_loop_step in Er as [[] _]. apply emits_nothing. congruence. }
  destruct op; try done; cbn [TcpOps.run_op op_ok] in *.
  - destruct (process_rx _ _ _ _) as [r|] eqn:Er; [|done]. intros [= <- <-]. split; [by eapply (Hproc e pkts s)|done].
  - unfold poll_rx. destruct (rx_feed_ s) as [|b feed].
    2: { intros E. apply some_pair_inj in E as [<- <-]. split; [by apply emits_nothing|done]. }
    assert (forall r, ('(s1, out) ← flush_pending_ack rte_ipv4_phdr_cksum RTE_MBUF_F_TX_IP_CKSUM
      RTE_MBUF_F_TX_TCP_CKSUM e s; Some (mkRx s1 [] [] (Ok 0), out)) = Some r ->
      emits s (rx_session r.1) r.2) as Hfl.
    { intros r. destruct (flush_pending_ack _ _ _ _ _) as [[s1 w]|] eqn:Ef; [|done]. intros [= <-].
      apply (flush_emits e s s1 w Hs); [apply Ho|done]. }
    assert (forall o, (forall r, o = Some r -> emits s (rx_session r.1) r.2) ->
      ('(r, w) ← o; Some (rx_session r, mkEffect w (rx_chunks r) [])) = Some (s', x) ->
      emits s s' (eff_wire x) /\ eff_accepted x = []) as Hout.
    { intros [[r w]|] Hr; [|done]. intros [= <- <-]. split; [by apply (Hr (r, w))|done]. }
    apply Hout. destruct (feed_only_ s); [done|]. destruct (rx _) as [|m rest]; [done|]. intros r. cbv zeta.
    destruct (process_rx _ _ _ _) as [r1|] eqn:Er; [|done]. intros [= <-].
    eapply Hproc; [|exact Er]. done.
  - intros [= <- <-]. split; [|done]. apply emits_nothing. unfold on_icmp_frag_needed. cbv zeta.
    by destruct (_ <=? _).
  - destruct (tick_keepalive _ _ _ _ _ _ _ _) as [[s1 w]|] eqn:E; [|done]. intros [= <- <-].
    split; [|done]. by apply (keepalive_emits e tsc s s1 w Hs (proj1 Ho)).
  - destruct (flush_pending_ack _ _ _ _ _) as [[s1 w]|] eqn:E; [|done]. intros [= <- <-].
    split; [|done]. by apply (flush_emits e s s1 w Hs Ho).
  - destruct (reset _ _ _ _ _) as [[s1 w]|] eqn:E; [|done]. intros [= <- <-].
    split; [|done]. by apply (reset_emits e s s1 w Hs Ho).
  - intros [= <- <-]. split; [by apply emits_nothing|done].
  - intros [= <- <-]. split; [by apply emits_nothing|done].
  - intros [= <- <-]. split; [by apply emits_nothing|done].
  - intros [= <- <-]. split; [|done]. apply emits_nothing. unfold set_arp_refresh. cbv zeta. by destruct (_ <? _).
Qed.

Lemma close_sends base acc e s s' x :
  session_ok s -> env_ok e -> snd_nxt_ s = u32 (base + zlen acc) ->
  run_op (OClose e) s = Some (s', x) ->
  eff_accepted x = [] /\ exists fin ps, sends base acc s s' (eff_wire x) [] ps /\ tx_at base acc fin s'.
Proof.
  intros Hs He Hn. cbn [TcpOps.run_op]. unfold close.
  assert (forall s1, snd_nxt_ s1 = snd_nxt_ s -> exists fin ps, sends base acc s s1 [] [] ps /\
    tx_at base acc fin s1) as Hno.
  { intros s1 E. exists false, []. split; [apply sends_nothing|]. split; [|done]. rewrite E, Hn.
    cbn [fin_len]. f_equal. lia. }
  destruct (_ && _); [intros [= <- <-]; split; [done|by apply Hno]|].
  destruct (transmit _ _ _ _ _ _ _ _) as [[s1 r]|] eqn:E; [|done]. cbn [mbind option_bind].
  apply (transmit_sent _ _ _ _ _ _ [] _ _ _ Hs He) in E as [[t ->] Hr];
    [|apply Hs|apply Hs|vm_compute; done|apply Hs|apply empty_payload].
  destruct r as [| |w]; [intros [= <- <-]; (split; [done|by apply Hno])..|].
  specialize (Hr w eq_refl). cbv zeta. set (s2 := if bool_decide _ then _ else _).
  assert (snd_nxt_ s2 = u32 (snd_nxt_ s + 1) /\ past_fin (state_ s2) = true) as [E2 Hp]
    by (subst s2; by destruct (bool_decide _)).
  generalize dependent s2. intros s2 E2 Hp. intros [= <- <-]. split; [done|]. cbn [eff_wire wire_effect].
  exists true, [segment_of (pkt_template_ s) (snd_nxt_ s) (rcv_nxt_ s) (Z.lor kTcpFin kTcpAck) (rcv_wnd_ s) []].
  split.
  - pose proof (so_mss _ _ Hs). constructor; cbn [map concat].
    + by constructor.
    + constructor; [|constructor]. apply segment_from, Hs.
    + constructor; [|constructor]. change (sg_payload_len _) with 0. lia.
    + constructor; [|constructor]. rewrite app_nil_r. right. right. exists (zlen acc).
      pose proof (zlen_nonneg acc). constructor; [done|done| |].
      * change (sg_payload_len _) with 0. rewrite slice_Some by lia. done.
      * intros _. change (sg_payload_len _) with 0. lia.
    + done.
    + by right.
  - split; [|done]. rewrite E2, Hn, wrap_add_wrap_l by lia. f_equal.
Qed.

Lemma run_op_sends base acc fin op s s' x :
  session_ok s -> op_ok op -> no_handshake op -> tx_at base acc fin s -> run_op op s = Some (s', x) ->
  exists fin' ps, sends base acc s s' (eff_wire x) (eff_accepted x) ps /\
    tx_at base (acc ++ eff_accepted x) fin' s'.
Proof.
  intros Hs Ho Hh [Hn Hfin] E.
  pose proof (run_op_live _ _ _ _ _ _ op s s' x Hh E) as Hlive.
  assert (fin = true -> past_fin (state_ s') = true) as Hfin' by (intros Hf; eapply live_past_fin; eauto).
  assert (snd_nxt_ s' = snd_nxt_ s -> tx_at base acc fin s') as Hsame by (intros E'; by split; [rewrite E'|]).
  destruct (sends_data_op op) eqn:Hd.
  - destruct fin.
    + assert (state_ s <> Established) as Hne by (intros H; specialize (Hfin eq_refl); by rewrite H in Hfin).
      destruct (data_refused op s s' x Hd Hne E) as (-> & -> & ->). rewrite app_nil_r.
      exists true, []. split; [apply sends_nothing|by apply Hsame].
    + cbn [fin_len] in Hn. rewrite Z.add_0_r in Hn.
      destruct (data_accepts base acc op s s' x Hs Ho Hd Hn E) as [E1 [ps Hps]].
      exists false, ps. split; [done|]. split; [|done]. rewrite E1. cbn [fin_len]. f_equal. lia.
  - destruct (closes op) eqn:Hc.
    + destruct op; try done. destruct fin.
      * exists true, []. specialize (Hfin eq_refl). revert E. cbn [TcpOps.run_op]. unfold close.
        rewrite !bool_decide_false by (intros H; by rewrite H in Hfin). cbn [negb andb mbind option_bind].
        intros [= <- <-]. cbn [eff_wire eff_accepted wire_effect]. rewrite app_nil_r.
        split; [apply sends_nothing|by apply Hsame].
      * cbn [fin_len] in Hn. rewrite Z.add_0_r in Hn.
        destruct (close_sends base acc e s s' x Hs Ho Hn E) as (-> & fin' & ps & Hps & Hat).
        rewrite app_nil_r. by exists fin', ps.
    + destruct (run_op_emits op s s' x Hs Ho Hh Hd Hc E) as [[E1 Hem] ->]. rewrite app_nil_r.
      destruct (Hem base acc) as [ps Hps]. exists fin, ps. split; [done|by apply Hsame].
Qed.

Lemma nothing_accepted ops : forall s s' x,
  Forall no_handshake ops -> state_ s <> Established -> run_ops ops s = Some (s', x) ->
  session_ok s -> Forall op_ok ops -> eff_accepted x = [].
Proof.
  induction ops as [|op rest IH]; intros s s' x Hh Hst; cbn [TcpOps.run_ops]; [by intros [= <- <-]|].
  destruct (run_op op s) as [[s1 y]|] eqn:E1; [|done]. cbn [mbind option_bind].
  destruct (run_ops rest s1) as [[s2 z]|] eqn:E2; [|done]. intros [= <- <-] Hs Ho.
  apply list.Forall_cons in Hh as [Hh1 Hh2]. apply list.Forall_cons in Ho as [Ho1 Ho2].
  cbn [eff_accepted]. destruct (run_op_ok rte_ipv4_phdr_cksum RTE_MBUF_F_TX_IP_CKSUM
    RTE_MBUF_F_TX_TCP_CKSUM ReorderSlots to_cycles fallback_cycles op s Hs Ho1) as (s1' & y' & E1' & Hk & _).
  rewrite E1 in E1'. apply some_pair_inj in E1' as [<- <-].
  assert (state_ s1 <> Established) as Hst1.
  { intros H. apply Hst. eapply live_established; [by eapply run_op_live|done]. }
  rewrite (IH s1 s2 z Hh2 Hst1 E2 Hk Ho2), app_nil_r.
  destruct (sends_data_op op) eqn:Hd; [by apply (data_refused op s s1 y Hd Hst E1)|].
  destruct (closes op) eqn:Hc; [|by apply (run_op_emits op s s1 y Hs Ho1 Hh1 Hd Hc E1)].
  destruct op; try done. revert E1. cbn [TcpOps.run_op]. destruct (close _ _ _ _ _) as [[[? ?] ?]|]; [|done].
  by intros [= <- <-].
Qed.

(** The packets of a whole run. *)
Record run_sends (base : Z) (acc : list byte) (s : TcpSession) (x : effect) (ps : list Segment) : Prop := {
  rs_carries : Forall2 carries (eff_wire x) ps;
  rs_from : Forall (from (c_tuple (config_ s))) ps;
  rs_mss : Forall (fun p => sg_payload_len p <= c_mss (config_ s)) ps;
  rs_honest : Forall (honest (acc ++ eff_accepted x) base) ps;
  rs_payload : concat (map payload_of ps) = eff_accepted x
}.

Lemma run_ops_sends base ops : forall acc fin s s' x,
  session_ok s -> Forall op_ok ops -> Forall no_handshake ops -> tx_at base acc fin s ->
  run_ops ops s = Some (s', x) ->
  exists fin' ps, run_sends base acc s x ps /\ tx_at base (acc ++ eff_accepted x) fin' s'.
Proof.
  induction ops as [|op rest IH]; intros acc fin s s' x Hs Ho Hh Hat; cbn [TcpOps.run_ops].
  { intros [= <- <-]. exists fin, []. cbn [eff_accepted no_effect]. rewrite app_nil_r. by split. }
  destruct (run_op op s) as [[s1 y]|] eqn:E1; [|done]. cbn [mbind option_bind].
  destruct (run_ops rest s1) as [[s2 z]|] eqn:E2; [|done]. intros [= <- <-].
  apply list.Forall_cons in Hh as [Hh1 Hh2]. apply list.Forall_cons in Ho as [Ho1 Ho2].
  destruct (run_op_ok rte_ipv4_phdr_cksum RTE_MBUF_F_TX_IP_CKSUM
    RTE_MBUF_F_TX_TCP_CKSUM ReorderSlots to_cycles fallback_cycles op s Hs Ho1) as (s1' & y' & E1' & Hk & Hcfg).
  rewrite E1 in E1'. apply some_pair_inj in E1' as [<- <-].
  destruct (run_op_sends base acc fin op s s1 y Hs Ho1 Hh1 Hat E1) as (fin1 & ps1 & [C1 F1 M1 H1 P1 N1] & Hat1).
  destruct (IH _ fin1 s1 s2 z Hk Ho2 Hh2 Hat1 E2) as (fin2 & ps2 & [C2 F2 M2 H2 P2] & Hat2).
  exists fin2, (ps1 ++ ps2). cbn [eff_accepted]. rewrite app_assoc. split; [|done].
  constructor; cbn [eff_wire eff_accepted].
  - by apply Forall2_app.
  - apply list.Forall_app. split; [done|]. by rewrite <- Hcfg.
  - apply list.Forall_app. split; [|by rewrite <- Hcfg]. eapply list.Forall_impl; [exact M1|].
    intros p Hp. pose proof (so_mss _ _ Hs). cbn in Hp. lia.
  - rewrite app_assoc. apply list.Forall_app. split; [|done]. destruct N1 as [N1|N1].
    + rewrite list.Forall_forall in *. intros p Hp. apply honest_grows; auto.
    + rewrite (nothing_accepted rest s1 s2 z Hh2) by (done || (intros H; by rewrite H in N1)).
      by rewrite app_nil_r.
  - by rewrite map_app, concat_app, P1, P2.
Qed.

(** C5: Sending refines a byte stream.  While no new connection is opened, for every
    sequence of operations from a well-formed session: there is a segment for each packet
    on the wire -- what any receiver parses, with any link padding -- such that the
    payloads in order are exactly the bytes the calls accepted, each segment has the
    addresses of the connection, at most the configured MSS of payload and the sequence
    number of its place in the stream, and a FIN only after the last accepted byte;
    [snd_nxt_] counts the accepted bytes and the FIN. *)
Theorem tcp_send_stream base ops s s' x :
  session_ok s -> Forall op_ok ops -> Forall no_handshake ops -> snd_nxt_ s = u32 base ->
  run_ops ops s = Some (s', x) ->
  exists ps fin,
    Forall2 carries (eff_wire x) ps /\
    concat (map payload_of ps) = eff_accepted x /\
    Forall (honest (eff_accepted x) base) ps /\
    Forall (fun p => matches p (peer_tuple (c_tuple (config_ s))) = true /\
                     sg_payload_len p <= c_mss (config_ s)) ps /\
    snd_nxt_ s' = u32 (base + zlen (eff_accepted x) + fin_len fin).
Proof.
  intros Hs Ho Hh Hn E.
  destruct (run_ops_sends base ops [] false s s' x Hs Ho Hh) as (fin & ps & [C F M H P] & [Hat _]); [|done|].
  { split; [|done]. rewrite Hn. f_equal. change (zlen (@nil byte)) with 0. cbn [fin_len]. lia. }
  exists ps, fin. split_and!; try done. apply list.Forall_and. by split.
Qed.

(** ** Two sessions and a network *)

(** What reaches a session on its connection are copies of packets in [wire], padded by
    the link; packets of other connections and damaged ones are unconstrained. *)
Definition from_wire (wire : list (list byte)) (t : ConnectionTuple) (pkts : list mbuf) : Prop :=
  Forall (fun m => mbuf_ok m /\ forall p, view m = Some (Some p) -> matches p t = true ->
    exists w pad, w ∈ wire /\ m = mkMbuf 1 (w ++ pad) /\ zlen w + zlen pad <= UINT16_MAX) pkts.

Definition op_from_wire (wire : list (list byte)) (t : ConnectionTuple) (op : Op) : Prop :=
  match op with
  | OProcessRx _ pkts => from_wire wire t pkts
  | OPollRx _ rx => forall n, from_wire wire t (rx n)
  | _ => True
  end.

Lemma from_wire_honest wire ps S base t pkts :
  Forall2 carries wire ps -> Forall (honest S base) ps -> from_wire wire t pkts -> honest_burst S base t pkts.
Proof.
  intros Hc Hh. apply Forall_impl. intros m [Hok Hm]. split; [done|]. intros p Hv Hma.
  destruct (Hm p Hv Hma) as (w & pad & Hw & -> & Hl). apply list_elem_of_lookup in Hw as [i Hi].
  destruct (Forall2_lookup_l _ _ _ _ _ Hc Hi) as (q & Hq & Hcar). rewrite (Hcar pad Hl) in Hv.
  injection Hv as <-. by eapply (proj1 (list.Forall_lookup _ _) Hh).
Qed.

(** C1: End to end.  Session [sA] sends from sequence number [base]; session [sB] starts
    to receive there.  Its connection carries only copies of packets of [sA]: lost,
    repeated, delayed, reordered and padded at will, among any foreign traffic.  Then
    everything [sB] hands to its application is a prefix of what the application of [sA]
    handed over, and [sB] acknowledges just that prefix, plus one for the FIN after the
    whole stream. *)
Theorem tcp_end_to_end base opsA sA sA' xA opsB sB sB' xB :
  session_ok sA -> Forall op_ok opsA -> Forall no_handshake opsA -> snd_nxt_ sA = u32 base ->
  run_ops opsA sA = Some (sA', xA) -> zlen (eff_accepted xA) + 1 < 2 ^ 32 ->
  rx_feed_ sB = [] -> reorder_buf_ sB = [] -> rcv_nxt_ sB = u32 base ->
  Forall within_connection opsB ->
  Forall (op_from_wire (eff_wire xA) (c_tuple (config_ sB))) opsB ->
  run_ops opsB sB = Some (sB', xB) ->
  exists n fin, 0 <= n <= zlen (eff_accepted xA) /\
    concat (eff_chunks xB) = take (Z.to_nat n) (eff_accepted xA) /\
    rcv_nxt_ sB' = u32 (base + (n + fin_len fin)) /\ (fin = true -> n = zlen (eff_accepted xA)).
Proof.
  intros Hs Ho Hh Hn EA Hlen Hfeed Hbuf Hrn Hw Hfrom EB.
  destruct (run_ops_sends base opsA [] false sA sA' xA Hs Ho Hh) as (finA & ps & [C _ _ H _] & _); [|done|].
  { split; [|done]. rewrite Hn. f_equal. change (zlen (@nil byte)) with 0. cbn [fin_len]. lia. }
  cbn [app] in H. pose proof (zlen_nonneg (eff_accepted xA)).
  destruct (run_ops_rx rte_ipv4_phdr_cksum RTE_MBUF_F_TX_IP_CKSUM RTE_MBUF_F_TX_TCP_CKSUM ReorderSlots
    to_cycles fallback_cycles (eff_accepted xA) base opsB Hlen 0 false sB sB' xB Hw)
    as (n & fin & [Hrn' Hnx Hfin _] & Ha & Hsl); [|done| |done|].
  - eapply list.Forall_impl; [exact Hfrom|]. intros op. destruct op; cbn [op_from_wire op_honest]; try done.
    + intros Hf. by eapply from_wire_honest.
    + intros Hf k. by eapply from_wire_honest.
  - constructor; [lia| |done|by rewrite Hbuf]. rewrite Hrn. f_equal. cbn; lia.
  - exists n, fin. split; [done|]. split; [|done]. rewrite slice_Some in Hsl by lia. injection Hsl as Hs'.
    rewrite <- Hs'. f_equal. lia.
Qed.

End runs.

(** The client says "hello" in one call and closes; the server's side gets a padded copy. *)
Definition demo_ops : list Op := [OSend demo_env demo_hello; OClose demo_env].

Lemma demo_ops_ok : Forall op_ok demo_ops.
Proof. constructor; [apply demo_env_ok|constructor; [apply demo_env_ok|constructor]]. Qed.

Definition demo_wire : list (list byte) :=
  match run_ops (fun _ _ => 0) 1 2 8 Some id demo_ops demo_session with Some (_, x) => eff_wire x | None => [] end.

Lemma tcp_send_stream_witness :
  exists s' x ps fin, run_ops (fun _ _ => 0) 1 2 8 Some id demo_ops demo_session = Some (s', x) /\
    Forall2 carries (eff_wire x) ps /\ concat (map payload_of ps) = eff_accepted x /\
    snd_nxt_ s' = u32 (1000 + zlen (eff_accepted x) + fin_len fin).
Proof.
  destruct (run_ops_ok (fun _ _ => 0) 1 2 8 Some id demo_ops demo_session demo_session_ok demo_ops_ok)
    as (s' & x & E & _).
  destruct (tcp_send_stream (fun _ _ => 0) 1 2 8 Some id 1000 demo_ops demo_session s' x demo_session_ok
    demo_ops_ok ltac:(by repeat constructor) eq_refl E) as (ps & fin & H1 & H2 & _ & _ & H3).
  exists s', x, ps, fin. split; [exact E|]. split; [exact H1|]. split; [exact H2|exact H3].
Defined.

Definition demo_arrivals : list Op :=
  [OProcessRx demo_env (map (fun w => mkMbuf 1 (w ++ [x00])) demo_wire)].

Lemma tcp_end_to_end_witness :
  exists sA xA sB xB, run_ops (fun _ _ => 0) 1 2 8 Some id demo_ops demo_session = Some (sA, xA) /\
    run_ops (fun _ _ => 0) 1 2 8 Some id
      demo_arrivals demo_server = Some (sB, xB) /\
    exists n fin, 0 <= n <= zlen (eff_accepted xA) /\
      concat (eff_chunks xB) = take (Z.to_nat n) (eff_accepted xA) /\
      rcv_nxt_ sB = u32 (1000 + (n + fin_len fin)) /\ (fin = true -> n = zlen (eff_accepted xA)).
Proof.
  destruct (run_ops_ok (fun _ _ => 0) 1 2 8 Some id demo_ops demo_session demo_session_ok demo_ops_ok)
    as (sA & xA & EA & _).
  assert (Forall (fun w => zlen w + 1 <= UINT16_MAX) demo_wire) as Hlen
    by (vm_compute; repeat constructor; by vm_compute).
  assert (eff_wire xA = demo_wire) as Hwire by (unfold demo_wire; by rewrite EA).
  assert (eff_accepted xA = demo_hello) as Hacc.
  { assert (match run_ops (fun _ _ => 0) 1 2 8 Some id demo_ops demo_session with
            | Some (_, x) => eff_accepted x | None => [] end = demo_hello) as H by (by vm_compute).
    by rewrite EA in H. }
  destruct (run_ops_ok (fun _ _ => 0) 1 2 8 Some id
    demo_arrivals demo_server demo_server_ok)
    as (sB & xB & EB & _).
  - constructor; [|constructor]. split; [apply demo_env_ok|]. split; [|by vm_compute].
    apply Forall_map. eapply list.Forall_impl; [exact Hlen|]. intros w Hw. unfold mbuf_ok. cbn [mb_data].
    rewrite zlen_app. exact Hw.
  - exists sA, xA, sB, xB. split; [exact EA|]. split; [exact EB|].
    apply (tcp_end_to_end (fun _ _ => 0) 1 2 8 Some id 1000 demo_ops demo_session sA xA demo_arrivals demo_server sB xB);
      [apply demo_session_ok|apply demo_ops_ok|by repeat constructor|done|exact EA|by rewrite Hacc|done|done|done
      |by repeat constructor| |exact EB].
    rewrite Hwire. constructor; [|constructor]. cbn [op_from_wire]. apply Forall_map.
    rewrite list.Forall_forall in Hlen |- *. intros w Hw. specialize (Hlen w Hw). cbn in Hlen. split.
    + unfold mbuf_ok. cbn [mb_data]. rewrite zlen_app. exact Hlen.
    + intros p _ _. exists w, [x00]. split; [done|]. split; [done|exact Hlen].
Defined.
