(* ===== verification/TcpLive.v ===== *)
(** * Liveness of the keepalive timer and ownership of received mbufs

    [keepalive_detects_dead_peer]: a silent peer is given up after the configured number of
    probes, and not before.  [rx_mbufs_freed_once]: every mbuf of a burst is released once,
    on the normal and on the error path. *)

From S2P Require Import Prelude Codecs PacketCore PacketParse PacketTemplate TcpSession TcpOps.

#[local] Open Scope Z_scope.

Section live.
Context (rte_ipv4_phdr_cksum : list byte -> Z -> Z).
Context (RTE_MBUF_F_TX_IP_CKSUM RTE_MBUF_F_TX_TCP_CKSUM : Z).
Context (ReorderSlots : Z).
Context (to_cycles : Z -> option Z) (fallback_cycles : Z -> Z).

#[local] Abbreviation run_op := (run_op rte_ipv4_phdr_cksum RTE_MBUF_F_TX_IP_CKSUM RTE_MBUF_F_TX_TCP_CKSUM
  ReorderSlots to_cycles fallback_cycles).
#[local] Abbreviation run_ops := (run_ops rte_ipv4_phdr_cksum RTE_MBUF_F_TX_IP_CKSUM RTE_MBUF_F_TX_TCP_CKSUM
  ReorderSlots to_cycles fallback_cycles).
#[local] Abbreviation session_ok := (session_ok ReorderSlots).
#[local] Abbreviation cycles s := ((keepalive_interval_cycles_ to_cycles fallback_cycles s).2).

(** Calls of the timer, each at least [c] cycles after the one before. *)
Fixpoint spaced (c last : Z) (ticks : list (Env * Z)) : Prop :=
  match ticks with
  | [] => True
  | (e, t) :: rest => env_ok e /\ last + c <= t < 2 ^ 64 /\ spaced c t rest
  end.

Definition tick_op (x : Env * Z) : Op := OKeepalive x.1 x.2.

(** [k] probes unanswered, nothing received since [last]. *)
Record silent (k last : Z) (s : TcpSession) : Prop := {
  si_ok : session_ok s;
  si_state : state_ s = Established;
  si_interval : 0 < c_keepalive_interval (config_ s);
  si_rx : 0 < last_rx_tsc_ s <= last;
  si_ka : last_keepalive_tsc_ s <= last;
  si_misses : keepalive_misses_ s = k
}.

Lemma cycles_config s s' : config_ s' = config_ s -> cycles s' = cycles s.
Proof. intros E. unfold keepalive_interval_cycles_. rewrite E. by destruct (to_cycles _). Qed.

(** A tick in an elapsed window: a probe, or the end. *)
Lemma tick_elapsed e t k last s :
  silent k last s -> env_ok e -> 0 < cycles s -> last + cycles s <= t < 2 ^ 64 ->
  exists s' x, run_op (OKeepalive e t) s = Some (s', x) /\ config_ s' = config_ s /\
    (length (eff_wire x) <= 1)%nat /\
    if c_keepalive_probes (config_ s) <=? k then state_ s' = Closed /\ eff_wire x = []
    else silent (k + 1) t s'.
Proof.
  intros [Hs Hst Hi Hrx Hka Hk] He Hc Ht. pose proof (so_last_ka _ _ Hs). pose proof (so_last_rx _ _ Hs).
  destruct (run_op_ok rte_ipv4_phdr_cksum RTE_MBUF_F_TX_IP_CKSUM RTE_MBUF_F_TX_TCP_CKSUM ReorderSlots
    to_cycles fallback_cycles (OKeepalive e t) s Hs ltac:(split; [done|lia])) as (s' & x & E & Hs' & Hcfg).
  exists s', x. split; [done|]. split; [done|]. revert E Hs' Hcfg. cbn [TcpOps.run_op]. unfold tick_keepalive.
  destruct (Z.eqb_spec (c_keepalive_interval (config_ s)) 0); [lia|]. rewrite (bool_decide_true _ Hst). cbn [negb].
  destruct (Z.eqb_spec (last_rx_tsc_ s) 0); [lia|].
  assert (exists st, keepalive_interval_cycles_ to_cycles fallback_cycles s = (set_stats_ st s, cycles s)) as [st Est].
  { unfold keepalive_interval_cycles_. destruct (to_cycles _); [|by eexists]. exists (stats_ s). by destruct s. }
  rewrite Est. revert Hc Ht. generalize (cycles s). intros c Hc Ht. fields.
  rewrite (wrap_small _ (t - last_rx_tsc_ s)) by lia. destruct (Z.ltb_spec (t - last_rx_tsc_ s) c); [lia|].
  rewrite (wrap_small _ (t - last_keepalive_tsc_ s)) by lia.
  destruct (Z.ltb_spec (t - last_keepalive_tsc_ s) c); [lia|]. rewrite andb_false_r, Hk.
  destruct (Z.leb_spec (c_keepalive_probes (config_ s)) k) as [Hle|Hlt].
  { intros [= <- <-] _ _. split; [cbn; lia|done]. }
  pose proof (so_misses _ _ Hs). pose proof (cfg_probes _ (so_config _ _ Hs)).
  unfold send_keepalive_probe_.
  destruct (transmit _ _ _ _ _ _ _ _) as [[s1 r]|] eqn:Etx; [|done]. cbn [mbind option_bind].
  assert (exists tm, s1 = set_pkt_template_ tm (set_stats_ st s)) as [tm ->].
  { revert Etx. unfold transmit. destruct (build_packet _ _ _ _ _ _ _ _) as [[tm b]|]; [|done].
    cbn [mbind option_bind]. destruct b; intros [= <- <-]; eauto. }
  assert (u8 (k + 1) = k + 1) as Hu by (apply wrap_small; lia).
  destruct r as [| |w]; cbn [mbind option_bind]; intros [= <- <-] Hs' _;
    (split; [cbn; lia|]); (constructor; [done|..]); fields; try done; try lia; by rewrite Hk.
Qed.

Lemma closed_ticks ticks : forall c last s, state_ s = Closed -> spaced c last ticks ->
  run_ops (map tick_op ticks) s = Some (s, no_effect).
Proof.
  induction ticks as [|[e t] rest IH]; intros c last s Hs Hsp; cbn [map TcpOps.run_ops]; [done|].
  destruct Hsp as (_ & _ & Hsp). cbn [tick_op TcpOps.run_op fst snd]. unfold tick_keepalive.
  rewrite (bool_decide_false (state_ s = Established)) by (by rewrite Hs). cbn [negb].
  destruct (_ =? 0); cbn [mbind option_bind]; rewrite (IH c t s Hs Hsp).
  all: done.
Qed.

Lemma ticks_run ticks : forall k last s,
  silent k last s -> 0 < cycles s -> spaced (cycles s) last ticks ->
  exists s' x, run_ops (map tick_op ticks) s = Some (s', x) /\
    (Z.of_nat (length (eff_wire x)) <= c_keepalive_probes (config_ s) - k) /\
    if k + zlen ticks <=? c_keepalive_probes (config_ s)
    then state_ s' = Established /\ keepalive_misses_ s' = k + zlen ticks
    else state_ s' = Closed.
Proof.
  induction ticks as [|[e t] rest IH]; intros k last s Hsi Hc Hsp.
  { pose proof (so_misses _ _ (si_ok _ _ _ Hsi)) as Hm. rewrite (si_misses _ _ _ Hsi) in Hm.
    exists s, no_effect. split; [done|]. change (zlen (@nil (Env * Z))) with 0. rewrite Z.add_0_r.
    split; [cbn; lia|]. destruct (Z.leb_spec k (c_keepalive_probes (config_ s))); [|lia].
    split; apply Hsi. }
  destruct Hsp as (He & Ht & Hsp). cbn [map TcpOps.run_ops].
  destruct (tick_elapsed e t k last s Hsi He Hc Ht) as (s1 & x1 & E1 & Hcfg & Hw & Hcase).
  change (run_op (tick_op (e, t)) s) with (run_op (OKeepalive e t) s). rewrite E1. cbn [mbind option_bind].
  rewrite zlen_cons. pose proof (zlen_nonneg rest).
  pose proof (so_misses _ _ (si_ok _ _ _ Hsi)) as Hm. rewrite (si_misses _ _ _ Hsi) in Hm.
  destruct (Z.leb_spec (c_keepalive_probes (config_ s)) k) as [Hle|Hlt].
  - destruct Hcase as [Hcl Hwi]. rewrite (closed_ticks rest (cycles s) t s1 Hcl Hsp). cbn [mbind option_bind].
    eexists _, _. split; [reflexivity|]. cbn [eff_wire no_effect]. rewrite Hwi. split; [cbn; lia|].
    destruct (Z.leb_spec (k + (zlen rest + 1)) (c_keepalive_probes (config_ s))); [lia|done].
  - rewrite <- (cycles_config _ _ Hcfg) in Hsp, Hc. destruct (IH (k + 1) t s1 Hcase Hc Hsp) as (s2 & x2 & E2 & Hw2 & H2).
    rewrite E2. cbn [mbind option_bind]. eexists _, _. split; [reflexivity|]. cbn [eff_wire].
    rewrite Hcfg in Hw2, H2. rewrite length_app. split; [lia|].
    by replace (k + (zlen rest + 1)) with (k + 1 + zlen rest) by lia.
Qed.

(** A dead peer is detected, in bounded time and not early.  On an established
    connection with keepalive configured, let the timer be called any number of times, at
    least one interval apart and after the last packet received, with nothing received in
    between, whether or not the probes can be sent.  Up to [keepalive_probes] calls the
    session stays established and counts them; with one more it is [Closed].  At most
    [keepalive_probes] packets were sent. *)
Theorem keepalive_detects_dead_peer ticks s :
  session_ok s -> state_ s = Established -> 0 < c_keepalive_interval (config_ s) ->
  0 < cycles s -> 0 < last_rx_tsc_ s -> last_keepalive_tsc_ s <= last_rx_tsc_ s ->
  keepalive_misses_ s = 0 -> spaced (cycles s) (last_rx_tsc_ s) ticks ->
  exists s' x, run_ops (map tick_op ticks) s = Some (s', x) /\
    Z.of_nat (length (eff_wire x)) <= c_keepalive_probes (config_ s) /\
    (zlen ticks <= c_keepalive_probes (config_ s) ->
       state_ s' = Established /\ keepalive_misses_ s' = zlen ticks) /\
    (c_keepalive_probes (config_ s) < zlen ticks -> state_ s' = Closed).
Proof.
  intros Hs Hst Hi Hc Hrx Hka Hm Hsp.
  destruct (ticks_run ticks 0 (last_rx_tsc_ s) s) as (s' & x & E & Hw & H);
    [constructor; (done || lia)|done|done|].
  exists s', x. split; [done|]. split; [lia|]. rewrite Z.add_0_l in H.
  destruct (Z.leb_spec (zlen ticks) (c_keepalive_probes (config_ s))); split; intros; (done || lia).
Qed.

(** No mbuf leaks and none is released twice.  On a well-formed session, processing
    a burst of at most [kRxBurstSize] mbufs -- packets of the connection, foreign ones,
    fragments, garbage -- releases each exactly once, also when a RST or a full reorder
    buffer ends the loop early; so does a step of the handshake in [SynSent]. *)
Theorem rx_mbufs_freed_once e e' pkts s :
  session_ok s -> env_ok e -> env_ok e' -> burst_ok pkts -> zlen pkts <= kRxBurstSize ->
  (exists r, process_rx ReorderSlots e pkts s = Some r /\ rx_freed r ≡ₚ seq 0 (length pkts)) /\
  (state_ s = SynSent ->
   exists s' w freed r, connect_step rte_ipv4_phdr_cksum RTE_MBUF_F_TX_IP_CKSUM RTE_MBUF_F_TX_TCP_CKSUM
     e e' pkts s = Some (s', w, freed, r) /\ freed = seq 0 (length pkts)).
Proof.
  intros Hs He He' Hb Hl. split.
  - destruct (process_loop_ok ReorderSlots e pkts He Hb 0 [] 0 false s Hs) as (r & E & _ & Hf); [by cbn|]. by exists r.
  - intros Hst. unfold connect_step. rewrite Hst, bool_decide_false by done. cbn [negb bool_decide].
    destruct (retransmit_ok rte_ipv4_phdr_cksum RTE_MBUF_F_TX_IP_CKSUM RTE_MBUF_F_TX_TCP_CKSUM ReorderSlots e s Hs He)
      as (s1 & w1 & -> & Hs1 & _). cbn [mbind option_bind].
    destruct (handshake_ok rte_ipv4_phdr_cksum RTE_MBUF_F_TX_IP_CKSUM RTE_MBUF_F_TX_TCP_CKSUM ReorderSlots
      e' pkts He' Hb 0 s1 Hs1) as (s2 & w & fr & r & -> & _ & _ & Hfr).
    by eexists _, _, _, _.
Qed.

End live.

(** Four ticks, one to two seconds apart (a cycle is a nanosecond here): the session is closed. *)
Definition demo_ticks : list (Env * Z) :=
  [(demo_env, 1000000007); (mkEnv None true 0 0 0, 2000000007); (demo_env, 4000000000); (demo_env, 5000000000)].

Lemma keepalive_detects_dead_peer_witness :
  exists s' x, run_ops (fun _ _ => 0) 1 2 8 Some id (map tick_op demo_ticks) (set_last_rx_tsc_ 7 demo_session) =
      Some (s', x) /\ Z.of_nat (length (eff_wire x)) <= 3 /\ state_ s' = Closed.
Proof.
  destruct (keepalive_detects_dead_peer (fun _ _ => 0) 1 2 8 Some id demo_ticks (set_last_rx_tsc_ 7 demo_session))
    as (s' & x & E & Hw & _ & Hc); [|reflexivity|reflexivity|reflexivity|reflexivity|discriminate|reflexivity| |].
  - apply ok_set_last_rx_tsc_; [apply demo_session_ok|lia].
  - assert (env_ok (mkEnv None true 0 0 0)) by (split; [done|cbn; lia]).
    change (keepalive_interval_cycles_ Some id (set_last_rx_tsc_ 7 demo_session)).2 with 1000000000.
    cbn [spaced demo_ticks]. pose proof demo_env_ok. fields. split_and!; (done || lia).
  - exists s', x. split; [exact E|]. split; [exact Hw|]. apply Hc. by vm_compute.
Defined.

(** A burst of a RST and a data packet behind it: both are released. *)
Lemma rx_mbufs_freed_once_witness :
  exists r, process_rx 8 demo_env [demo_packet 5000 0x14 []; demo_packet 5000 0x18 [x68; x69]] demo_session = Some r /\
    rx_freed r ≡ₚ seq 0 2.
Proof.
  apply (rx_mbufs_freed_once (fun _ _ => 0) 1 2 8 demo_env demo_env
    [demo_packet 5000 0x14 []; demo_packet 5000 0x18 [x68; x69]] demo_session demo_session_ok demo_env_ok demo_env_ok).
  - by repeat constructor; vm_compute.
  - by vm_compute.
Defined.
