(* ===== verification/PollLoop.v ===== *)
(** * The send-and-poll loop of the blocking resolvers

    arp.hpp and dns.hpp of eph-net-dpdk resolve an address with the same loop: until a
    deadline, (re)send a request at most three times, a retry interval apart, and poll the
    receive queue for an acceptable reply.  The loop is a function of the request's builder
    and of the scan of one received burst; [poll_loop_spec] holds for every instance whose
    builder yields one request and whose scan releases every mbuf of its burst.  The ARP and
    DNS files instantiate both. *)

From S2P Require Import Prelude Codecs PacketCore PacketParse PacketTemplate.

#[local] Open Scope Z_scope.

(** One round of the loop: the times of its two clock readings, what the request's
    allocation and [tx_burst] would yield, the burst [rx_burst] returns. *)
Record poll_round := mkRound {
  rd_test : Z;
  rd_now : Z;
  rd_alloc : option fresh_mbuf;
  rd_tx_ok : bool;
  rd_rx : list mbuf
}.

(** [PollRefused]: rejected before the loop; [PollPending]: the rounds given are over and
    the loop goes on. *)
Inductive poll_outcome (A : Type) :=
| PollRefused | PollAllocFailed | PollTimeout | PollPending | PollResolved (a : A).
Arguments PollRefused {A}.
Arguments PollAllocFailed {A}.
Arguments PollTimeout {A}.
Arguments PollPending {A}.
Arguments PollResolved {A} a.

(** The frames sent, the mbufs released per polled burst, the result. *)
Record poll_run (A : Type) := mkPollRun {
  pr_wire : list (list byte);
  pr_freed : list (list nat);
  pr_outcome : poll_outcome A
}.
Arguments mkPollRun {A} _ _ _.
Arguments pr_wire {A} _.
Arguments pr_freed {A} _.
Arguments pr_outcome {A} _.

Section loop.
Context {A : Type} (build : mempool -> option build_result) (scan : list mbuf -> option (option A * list nat)).

(** The (re)send step: [None] for a failed allocation, else the frame sent, if any, and
    the new [next_send] and [requests_sent]. *)
Definition send_step (retry_interval next_send requests_sent : Z) (r : poll_round)
    : option (option (list (list byte) * Z * Z)) :=
  if (next_send <=? rd_now r) && (requests_sent <? 3) then
    b ← build (match rd_alloc r with Some f => Alloc f | None => Exhausted end);
    match b with
    | NoMbuf | Freed => Some None
    | Built m =>
      let next_send := rd_now r + retry_interval in
      if rd_tx_ok r then Some (Some ([tx_data m], next_send, requests_sent + 1))
      else Some (Some ([], next_send, requests_sent))
    end
  else Some (Some ([], next_send, requests_sent)).

Fixpoint poll_loop (deadline retry_interval next_send requests_sent : Z) (rounds : list poll_round)
    : option (poll_run A) :=
  match rounds with
  | [] => Some (mkPollRun [] [] PollPending)
  | r :: rest =>
    if negb (rd_test r <? deadline) then Some (mkPollRun [] [] PollTimeout) else
    x ← send_step retry_interval next_send requests_sent r;
    match x with
    | None => Some (mkPollRun [] [] PollAllocFailed)
    | Some (wire, next_send, requests_sent) =>
      '(found, freed) ← scan (rd_rx r);
      match found with
      | Some a => Some (mkPollRun wire [freed] (PollResolved a))
      | None =>
        y ← poll_loop deadline retry_interval next_send requests_sent rest;
        Some (mkPollRun (wire ++ pr_wire y) (freed :: pr_freed y) (pr_outcome y))
      end
    end
  end.

End loop.

Definition round_ok (r : poll_round) : Prop := forall f, rd_alloc r = Some f -> room_ok f.

Section spec.
Context {A : Type} (build : mempool -> option build_result) (scan : list mbuf -> option (option A * list nat)).
Context (accept : mbuf -> option (option A)) (request : list byte).

(** A builder of [request]: it fails only when there is no mbuf or no room in it. *)
Definition builds : Prop :=
  build Exhausted = Some NoMbuf /\
  forall f, room_ok f ->
    build (Alloc f) = Some Freed \/ exists m, build (Alloc f) = Some (Built m) /\ tx_data m = request.

(** A scan that finds the first packet [accept]ed and releases the whole burst. *)
Definition scans : Prop := forall pkts,
  exists found freed, scan pkts = Some (found, freed) /\ freed ≡ₚ seq 0 (length pkts) /\
    match found with
    | Some a => exists m, m ∈ pkts /\ accept m = Some (Some a)
    | None => Forall (fun m => accept m = Some None) pkts
    end.

(** What a run over [rounds] guarantees. *)
Record resolves (deadline : Z) (rounds : list poll_round) (run : poll_run A) : Prop := {
  re_wire : Forall (eq request) (pr_wire run);
  re_freed : Forall2 (fun r freed => freed ≡ₚ seq 0 (length (rd_rx r)))
               (take (length (pr_freed run)) rounds) (pr_freed run);
  re_found : forall a, pr_outcome run = PollResolved a ->
    exists r m, r ∈ rounds /\ rd_test r < deadline /\ m ∈ rd_rx r /\ accept m = Some (Some a);
  re_missed : pr_outcome run = PollTimeout \/ pr_outcome run = PollPending ->
    Forall (fun r => Forall (fun m => accept m = Some None) (rd_rx r)) (take (length (pr_freed run)) rounds);
  re_ends : Exists (fun r => deadline <= rd_test r) rounds -> pr_outcome run <> PollPending
}.

Hypothesis Hbuild : builds.
Hypothesis Hscan : scans.

Lemma send_step_spec retry next n r : round_ok r -> 0 <= n <= 3 ->
  exists x, send_step build retry next n r = Some x /\
    match x with
    | None => True
    | Some (wire, _, n') => Forall (eq request) wire /\ zlen wire = n' - n /\ n <= n' <= 3
    end.
Proof.
  intros Hr Hn. unfold send_step. destruct (_ && _) eqn:Eg.
  2: { eexists. split; [reflexivity|]. split; [constructor|]. change (zlen []) with 0. lia. }
  apply andb_true_iff in Eg as [_ Eg%Z.ltb_lt]. destruct Hbuild as [Hex Hal].
  destruct (rd_alloc r) as [f|] eqn:Ea; [|rewrite Hex; by eexists].
  destruct (Hal f (Hr f Ea)) as [->|(m & -> & Hm)]; [by eexists|].
  cbn [mbind option_bind]. destruct (rd_tx_ok r); (eexists; split; [reflexivity|]).
  - split; [rewrite Hm; by constructor|]. change (zlen [_]) with 1. lia.
  - split; [constructor|]. change (zlen []) with 0. lia.
Qed.

Lemma poll_loop_spec deadline retry rounds : forall next n,
  Forall round_ok rounds -> 0 <= n <= 3 ->
  exists run, poll_loop build scan deadline retry next n rounds = Some run /\
    resolves deadline rounds run /\ n + zlen (pr_wire run) <= 3.
Proof.
  induction rounds as [|r rest IH]; intros next n Hok Hn; cbn [poll_loop].
  { eexists. split; [reflexivity|]. split; [|change (zlen (pr_wire _)) with 0; lia].
    constructor; try done. by intros H%Exists_nil. }
  inversion Hok as [|? ? Hr Hok']; subst.
  destruct (Z.ltb_spec (rd_test r) deadline) as [Hlt|Hge]; cbn [negb].
  2: { eexists. split; [reflexivity|]. split; [|change (zlen (pr_wire _)) with 0; lia]. by constructor. }
  destruct (send_step_spec retry next n r Hr Hn) as (x & -> & Hx). cbn [mbind option_bind].
  destruct x as [[[wire next'] n']|].
  2: { eexists. split; [reflexivity|]. split; [|change (zlen (pr_wire _)) with 0; lia]. by constructor. }
  destruct Hx as (Hw & Hlen & Hn').
  destruct (Hscan (rd_rx r)) as (found & freed & -> & Hfr & Hfound).
  cbn [mbind option_bind]. destruct found as [a|].
  - eexists. split; [reflexivity|]. split; [|cbn [pr_wire]; lia].
    constructor; cbn [pr_wire pr_freed pr_outcome length take]; try done.
    + constructor; [done|constructor].
    + intros a' [= <-]. destruct Hfound as (m & Hm & E). exists r, m. split_and!; try done. by left.
    + by intros [|].
  - destruct (IH next' n' Hok' ltac:(lia)) as (run & -> & [] & Hl). cbn [mbind option_bind].
    eexists. split; [reflexivity|]. cbn [pr_wire]. rewrite zlen_app. split; [|lia].
    constructor; cbn [pr_wire pr_freed pr_outcome length take].
    + by apply list.Forall_app.
    + by constructor.
    + intros a Ha. destruct (re_found0 a Ha) as (r' & m & ? & ? & ? & ?). exists r', m.
      split_and!; try done. by right.
    + intros Ho. constructor; [done|auto].
    + intros [Hd|He]%Exists_cons; [lia|auto].
Qed.

End spec.
