(* ===== verification/Arp.v ===== *)
(** * ARP resolution

    arp.hpp of eph-net-dpdk: building requests, parsing replies, the resolve loop, and the
    periodic refresh of tcp.hpp that uses them.

    [arp_reply_exact]: [parse_arp_reply] accepts exactly the frames that are laid out as an
    Ethernet/IPv4 ARP reply for the address and pass the configured checks.
    [arp_resolve_sound]: what the resolve loop returns comes from such a reply; it sends at
    most three requests, each the well-formed broadcast, releases every received mbuf once
    and ends once the deadline has passed. *)

From S2P Require Import Prelude Codecs PacketCore PacketParse PacketTemplate PollLoop TcpSession TcpOps.

#[local] Open Scope Z_scope.

(** ** Constants *)

Definition kEtherTypeArp : Z := 0x0806.
Definition kArpHwTypeEthernet : Z := 1.
Definition kArpProtoIpv4 : Z := 0x0800.
Definition kArpOpRequest : Z := 1.
Definition kArpOpReply : Z := 2.
Definition kArpHwAddrLen : Z := 6.
Definition kArpProtoAddrLen : Z := 4.
Definition kArpPacketLen : Z := 28.
Definition kBroadcastMac : list byte := [xff; xff; xff; xff; xff; xff].
Definition kArpResolveBurstSize : Z := 16.

(** Offsets of the members of [ArpPacket]. *)
Definition arp_hw_type : Z := 0.
Definition arp_proto_type : Z := 2.
Definition arp_hw_addr_len : Z := 4.
Definition arp_proto_addr_len : Z := 5.
Definition arp_opcode : Z := 6.
Definition arp_sender_mac : Z := 8.
Definition arp_sender_ip : Z := 14.
Definition arp_target_mac : Z := 18.
Definition arp_target_ip : Z := 24.

(** ** Requests *)

Definition build_arp_request (pool : mempool) (src_mac : list byte) (src_ip target_ip : Z)
    : option build_result :=
  match pool with
  | NullPool | Exhausted => Some NoMbuf
  | Alloc mbuf =>
    let frame_len := kEtherHeaderLen + kArpPacketLen in
    match room mbuf frame_len with
    | None => Some Freed
    | Some pkt =>
      pkt ← store_fields pkt 0 [kBroadcastMac; src_mac; le_bytes 2 (hton16 kEtherTypeArp)];
      pkt ← store_fields pkt kEtherHeaderLen
              [le_bytes 2 (hton16 kArpHwTypeEthernet); le_bytes 2 (hton16 kArpProtoIpv4);
               [z2b kArpHwAddrLen]; [z2b kArpProtoAddrLen]; le_bytes 2 (hton16 kArpOpRequest);
               src_mac; le_bytes 4 (hton32 src_ip); repeat x00 6; le_bytes 4 (hton32 target_ip)];
      Some (Built (mkTx pkt 0 (stale_lens mbuf)))
    end
  end.

(** ** Replies *)

Definition all_zero (mac : list byte) : bool :=
  foldr (fun b acc => Z.lor (b2z b) acc) 0 mac =? 0.

Definition is_group (mac : list byte) : bool :=
  match mac with [] => false | b :: _ => negb (Z.land (b2z b) 1 =? 0) end.

(** The inner [None] is [std::nullopt]; the outer one an access outside the mbuf. *)
Definition parse_arp_reply (mbuf : option mbuf) (target_ip : Z) (expected_mac : option (list byte))
    (expected_local_ip : option Z) : option (option (list byte)) :=
  match mbuf with
  | None => Some None
  | Some mb =>
    let m := mb_data mb in
    let min_len := kEtherHeaderLen + kArpPacketLen in
    if 1 <? nb_segs mb then Some None else
    if zlen m <? min_len then Some None else
    ether_type ← load_ntoh16 m eth_ether_type;
    if negb (ether_type =? kEtherTypeArp) then Some None else
    let arp := kEtherHeaderLen in
    hw_type ← load_ntoh16 m (arp + arp_hw_type);
    if negb (hw_type =? kArpHwTypeEthernet) then Some None else
    proto_type ← load_ntoh16 m (arp + arp_proto_type);
    if negb (proto_type =? kArpProtoIpv4) then Some None else
    hw_addr_len ← load8 m (arp + arp_hw_addr_len);
    if negb (hw_addr_len =? kArpHwAddrLen) then Some None else
    proto_addr_len ← load8 m (arp + arp_proto_addr_len);
    if negb (proto_addr_len =? kArpProtoAddrLen) then Some None else
    opcode ← load_ntoh16 m (arp + arp_opcode);
    if negb (opcode =? kArpOpReply) then Some None else
    sender_ip ← load_ntoh32 m (arp + arp_sender_ip);
    if negb (sender_ip =? target_ip) then Some None else
    reflected ← match expected_local_ip with
                | None => Some false
                | Some local => reply_target ← load_ntoh32 m (arp + arp_target_ip);
                                Some (negb (reply_target =? local))
                end;
    if (reflected : bool) then Some None else
    result ← slice m (arp + arp_sender_mac) 6;
    if all_zero result || is_group result then Some None else
    match expected_mac with
    | None => Some (Some result)
    | Some mac => if bool_decide (result = mac) then Some (Some result) else Some None
    end
  end.

(** ** The resolve loop *)

(** The loop over a burst from packet [i]: the MAC found and the mbufs released. *)
Fixpoint scan_burst (target_ip src_ip : Z) (expected_mac : option (list byte)) (i : nat) (pkts : list mbuf)
    : option (option (list byte) * list nat) :=
  match pkts with
  | [] => Some (None, [])
  | m :: rest =>
    r ← parse_arp_reply (Some m) target_ip expected_mac (Some src_ip);
    match r with
    | Some mac => Some (Some mac, seq (S i) (length rest) ++ [i])
    | None => '(r, freed) ← scan_burst target_ip src_ip expected_mac (S i) rest; Some (r, i :: freed)
    end
  end.

Section resolve.
Context (src_mac : list byte) (src_ip target_ip : Z) (expected_mac : option (list byte)).

(** The loop of [resolve_with_io]: [poll_loop] with this request and this scan. *)
Definition resolve_loop : Z -> Z -> Z -> Z -> list poll_round -> option (poll_run (list byte)) :=
  poll_loop (fun pool => build_arp_request pool src_mac src_ip target_ip)
    (scan_burst target_ip src_ip expected_mac 0).

(** [timeout] in milliseconds, [start] and the clock in nanoseconds. *)
Definition resolve_with_io (pool : bool) (start timeout : Z) (rounds : list poll_round)
    : option (poll_run (list byte)) :=
  if negb pool then Some (mkPollRun [] [] PollRefused) else
  let deadline := start + timeout * 1000000 in
  let retry_interval := Z.max (Z.quot timeout 3) 50 * 1000000 in
  resolve_loop deadline retry_interval 0 0 rounds.

End resolve.

(** ** The refresh of tcp.hpp *)

Definition maybe_refresh_arp (e : Env) (s : TcpSession) : option (TcpSession * list (list byte)) :=
  if arp_refresh_interval_ s =? 0 then Some (s, [])
  else if now_ns e <? arp_next_refresh_ s then Some (s, [])
  else
    let again := set_arp_next_refresh_ (now_ns e + arp_refresh_interval_ s * 1000000000) s in
    req ← build_arp_request
            (if pool_ s then match alloc e with Some f => Alloc f | None => Exhausted end else NullPool)
            (c_src_mac (config_ s)) (src_ip (c_tuple (config_ s))) (arp_refresh_gateway_ip_ s);
    match req with
    | NoMbuf | Freed => Some (again, [])
    | Built m => Some (again, if tx_ok e then [tx_data m] else [])
    end.

(** ** The frame layout of RFC 826 *)

Record arp_frame := mkFrame {
  fr_dst : list byte; fr_src : list byte; fr_ether_type : Z;
  fr_hw_type : Z; fr_proto_type : Z; fr_hw_len : Z; fr_proto_len : Z; fr_opcode : Z;
  fr_sender_mac : list byte; fr_sender_ip : Z; fr_target_mac : list byte; fr_target_ip : Z
}.

Definition frame_bytes (f : arp_frame) : list byte :=
  fr_dst f ++ fr_src f ++ be_bytes 2 (fr_ether_type f) ++
  be_bytes 2 (fr_hw_type f) ++ be_bytes 2 (fr_proto_type f) ++ [z2b (fr_hw_len f)] ++ [z2b (fr_proto_len f)] ++
  be_bytes 2 (fr_opcode f) ++ fr_sender_mac f ++ be_bytes 4 (fr_sender_ip f) ++ fr_target_mac f ++
  be_bytes 4 (fr_target_ip f).

Record frame_ok (f : arp_frame) : Prop := {
  fo_dst : zlen (fr_dst f) = 6;
  fo_src : zlen (fr_src f) = 6;
  fo_ether_type : 0 <= fr_ether_type f < 2 ^ 16;
  fo_hw_type : 0 <= fr_hw_type f < 2 ^ 16;
  fo_proto_type : 0 <= fr_proto_type f < 2 ^ 16;
  fo_hw_len : 0 <= fr_hw_len f < 256;
  fo_proto_len : 0 <= fr_proto_len f < 256;
  fo_opcode : 0 <= fr_opcode f < 2 ^ 16;
  fo_sender_mac : zlen (fr_sender_mac f) = 6;
  fo_sender_ip : 0 <= fr_sender_ip f < 2 ^ 32;
  fo_target_mac : zlen (fr_target_mac f) = 6;
  fo_target_ip : 0 <= fr_target_ip f < 2 ^ 32
}.

(** The frame announces [fr_sender_mac] as the owner of [target_ip]. *)
Definition answers (f : arp_frame) (target_ip : Z) : Prop :=
  fr_ether_type f = kEtherTypeArp /\ fr_hw_type f = kArpHwTypeEthernet /\ fr_proto_type f = kArpProtoIpv4 /\
  fr_hw_len f = kArpHwAddrLen /\ fr_proto_len f = kArpProtoAddrLen /\ fr_opcode f = kArpOpReply /\
  fr_sender_ip f = target_ip.

(** An individual address: not all zero, I/G bit clear. *)
Definition unicast (mac : list byte) : Prop := all_zero mac = false /\ is_group mac = false.

Lemma slice_split (m : list byte) off n : 0 <= off -> 0 <= n -> off + n <= zlen m ->
  exists x, zlen x = n /\ drop (Z.to_nat off) m = x ++ drop (Z.to_nat (off + n)) m.
Proof.
  intros H0 H1 H2. exists (take (Z.to_nat n) (drop (Z.to_nat off) m)). split.
  - rewrite zlen_take, zlen_drop. lia.
  - replace (Z.to_nat (off + n)) with (Z.to_nat off + Z.to_nat n)%nat by lia. rewrite <- drop_drop.
    by rewrite take_drop.
Qed.

Lemma bytes_are_be n bs : zlen bs = Z.of_nat n -> exists v, bs = be_bytes n v /\ 0 <= v < 256 ^ Z.of_nat n.
Proof.
  intros H. assert (length bs = n) as <- by (unfold zlen in H; lia).
  exists (be_val bs). split; [by rewrite be_bytes_be_val|apply be_val_bound].
Qed.

(** Every buffer of 42 bytes or more is a frame and a rest. *)
Lemma frame_cut m : 42 <= zlen m -> exists f pad, frame_ok f /\ m = frame_bytes f ++ pad.
Proof.
  intros H.
  destruct (slice_split m 0 6) as (dst & L1 & D1); [lia..|]. destruct (slice_split m 6 6) as (src & L2 & D2); [lia..|].
  destruct (slice_split m 12 2) as (et & L3 & D3); [lia..|]. destruct (slice_split m 14 2) as (hw & L4 & D4); [lia..|].
  destruct (slice_split m 16 2) as (pt & L5 & D5); [lia..|]. destruct (slice_split m 18 1) as (hl & L6 & D6); [lia..|].
  destruct (slice_split m 19 1) as (pl & L7 & D7); [lia..|]. destruct (slice_split m 20 2) as (op & L8 & D8); [lia..|].
  destruct (slice_split m 22 6) as (sm & L9 & D9); [lia..|]. destruct (slice_split m 28 4) as (si & L10 & D10); [lia..|].
  destruct (slice_split m 32 6) as (tm & L11 & D11); [lia..|]. destruct (slice_split m 38 4) as (ti & L12 & D12); [lia..|].
  apply (bytes_are_be 2) in L3 as (et' & -> & R3). apply (bytes_are_be 2) in L4 as (hw' & -> & R4).
  apply (bytes_are_be 2) in L5 as (pt' & -> & R5). apply (bytes_are_be 1) in L6 as (hl' & -> & R6).
  apply (bytes_are_be 1) in L7 as (pl' & -> & R7). apply (bytes_are_be 2) in L8 as (op' & -> & R8).
  apply (bytes_are_be 4) in L10 as (si' & -> & R10). apply (bytes_are_be 4) in L12 as (ti' & -> & R12).
  exists (mkFrame dst src et' hw' pt' hl' pl' op' sm si' tm ti'), (drop (Z.to_nat (38 + 4)) m).
  split; [by constructor|]. unfold frame_bytes. cbn [fr_dst fr_src fr_ether_type fr_hw_type fr_proto_type fr_hw_len
    fr_proto_len fr_opcode fr_sender_mac fr_sender_ip fr_target_mac fr_target_ip].
  change (drop (Z.to_nat 0) m) with m in D1. rewrite D1 at 1. rewrite D2 at 1. rewrite D3 at 1. rewrite D4 at 1.
  rewrite D5 at 1. rewrite D6 at 1. rewrite D7 at 1. rewrite D8 at 1. rewrite D9 at 1. rewrite D10 at 1.
  rewrite D11 at 1. rewrite D12 at 1. rewrite <- !app_assoc.
  change (be_bytes 1 hl') with [z2b (Z.shiftr hl' 0)]. change (be_bytes 1 pl') with [z2b (Z.shiftr pl' 0)].
  by rewrite !Z.shiftr_0_r.
Qed.

Section frame_fields.
Context (f : arp_frame) (pad : list byte) (Hf : frame_ok f).

#[local] Abbreviation m := (frame_bytes f ++ pad).

(** The field behind the bytes [pre]. *)
#[local] Ltac field_at pre :=
  destruct Hf; eapply (slice_at m pre);
    [unfold frame_bytes; rewrite <- !app_assoc; reflexivity
    |autorewrite with zlen; change (zlen (@nil byte)) with 0; lia|autorewrite with zlen; reflexivity].

#[local] Abbreviation pre22 := (fr_dst f ++ fr_src f ++ be_bytes 2 (fr_ether_type f) ++
  be_bytes 2 (fr_hw_type f) ++ be_bytes 2 (fr_proto_type f) ++ [z2b (fr_hw_len f)] ++ [z2b (fr_proto_len f)] ++
  be_bytes 2 (fr_opcode f)).

Lemma at_ether_type : load_ntoh16 m 12 = Some (fr_ether_type f).
Proof. apply load_of_slice16; [apply Hf|]. field_at (fr_dst f ++ fr_src f). Qed.

Lemma at_hw_type : load_ntoh16 m 14 = Some (fr_hw_type f).
Proof.
  apply load_of_slice16; [apply Hf|]. field_at (fr_dst f ++ fr_src f ++ be_bytes 2 (fr_ether_type f)).
Qed.

Lemma at_proto_type : load_ntoh16 m 16 = Some (fr_proto_type f).
Proof.
  apply load_of_slice16; [apply Hf|].
  field_at (fr_dst f ++ fr_src f ++ be_bytes 2 (fr_ether_type f) ++ be_bytes 2 (fr_hw_type f)).
Qed.

Lemma at_hw_len : load8 m 18 = Some (fr_hw_len f).
Proof.
  rewrite <- (b2z_z2b_small (fr_hw_len f)) by apply Hf. apply load_of_slice8.
  field_at (fr_dst f ++ fr_src f ++ be_bytes 2 (fr_ether_type f) ++ be_bytes 2 (fr_hw_type f) ++
    be_bytes 2 (fr_proto_type f)).
Qed.

Lemma at_proto_len : load8 m 19 = Some (fr_proto_len f).
Proof.
  rewrite <- (b2z_z2b_small (fr_proto_len f)) by apply Hf. apply load_of_slice8.
  field_at (fr_dst f ++ fr_src f ++ be_bytes 2 (fr_ether_type f) ++ be_bytes 2 (fr_hw_type f) ++
    be_bytes 2 (fr_proto_type f) ++ [z2b (fr_hw_len f)]).
Qed.

Lemma at_opcode : load_ntoh16 m 20 = Some (fr_opcode f).
Proof.
  apply load_of_slice16; [apply Hf|].
  field_at (fr_dst f ++ fr_src f ++ be_bytes 2 (fr_ether_type f) ++ be_bytes 2 (fr_hw_type f) ++
    be_bytes 2 (fr_proto_type f) ++ [z2b (fr_hw_len f)] ++ [z2b (fr_proto_len f)]).
Qed.

Lemma at_sender_mac : slice m 22 6 = Some (fr_sender_mac f).
Proof.
  destruct Hf. eapply (slice_at m pre22); [unfold frame_bytes; rewrite <- !app_assoc; reflexivity| |done].
  autorewrite with zlen. change (zlen (@nil byte)) with 0. lia.
Qed.

Lemma at_sender_ip : load_ntoh32 m 28 = Some (fr_sender_ip f).
Proof. apply load_of_slice32; [apply Hf|]. field_at (pre22 ++ fr_sender_mac f). Qed.

Lemma at_target_ip : load_ntoh32 m 38 = Some (fr_target_ip f).
Proof.
  apply load_of_slice32; [apply Hf|].
  field_at (pre22 ++ fr_sender_mac f ++ be_bytes 4 (fr_sender_ip f) ++ fr_target_mac f).
Qed.

Lemma zlen_frame : zlen (frame_bytes f) = 42.
Proof. destruct Hf. unfold frame_bytes. autorewrite with zlen. change (zlen (@nil byte)) with 0. lia. Qed.

End frame_fields.

(** ** Replies, exactly *)

(** The address filters of [parse_arp_reply]. *)
Definition permitted (f : arp_frame) (expected_mac : option (list byte)) (expected_local_ip : option Z) : Prop :=
  unicast (fr_sender_mac f) /\ (forall mac, expected_mac = Some mac -> fr_sender_mac f = mac) /\
  (forall ip, expected_local_ip = Some ip -> fr_target_ip f = ip).

(** The last checks, on the sender's address. *)
Lemma sender_checked f em el (b : bool) :
  (b = true <-> exists ip, el = Some ip /\ fr_target_ip f <> ip) ->
  exists r, (if b then Some None else
      x ← Some (fr_sender_mac f); if all_zero x || is_group x then Some None
      else match em with None => Some (Some x) | Some mac => if bool_decide (x = mac) then Some (Some x) else Some None end)
      = Some r /\
    (forall mac, r = Some mac -> permitted f em el /\ mac = fr_sender_mac f) /\
    (permitted f em el -> r = Some (fr_sender_mac f)).
Proof.
  intros Hb. destruct b.
  { destruct (proj1 Hb eq_refl) as (ip & -> & Hne). eexists. split; [reflexivity|]. split; [done|].
    intros (_ & _ & Hip). by destruct (Hne (Hip ip eq_refl)). }
  cbn [mbind option_bind].
  assert (forall ip, el = Some ip -> fr_target_ip f = ip) as Hip.
  { intros ip ->. destruct (decide (fr_target_ip f = ip)); [done|]. discriminate (proj2 Hb). by exists ip. }
  destruct (all_zero (fr_sender_mac f)) eqn:Ez; cbn [orb].
  { eexists. split; [reflexivity|]. split; [done|]. intros ([Hu _] & _). congruence. }
  destruct (is_group (fr_sender_mac f)) eqn:Eg.
  { eexists. split; [reflexivity|]. split; [done|]. intros ([_ Hu] & _). congruence. }
  destruct em as [mac|]; [case_bool_decide as Em|]; eexists; (split; [reflexivity|]).
  - split; [|done]. intros mac' [= <-]. split; [|done]. split; [done|]. split; [|done]. by intros ? [= <-].
  - split; [done|]. intros (_ & Hm & _). by destruct (Em (Hm mac eq_refl)).
  - split; [|done]. intros mac' [= <-]. by split.
Qed.

#[local] Ltac reject := eexists; split; [reflexivity|]; split; [done|];
  intros (_ & (? & ? & ? & ? & ? & ? & ?) & _); congruence.

Lemma parse_frame f pad k target_ip em el : frame_ok f ->
  exists r, parse_arp_reply (Some (mkMbuf k (frame_bytes f ++ pad))) target_ip em el = Some r /\
    (forall mac, r = Some mac -> k <= 1 /\ answers f target_ip /\ permitted f em el /\ mac = fr_sender_mac f) /\
    (k <= 1 /\ answers f target_ip /\ permitted f em el -> r = Some (fr_sender_mac f)).
Proof.
  intros Hf. unfold parse_arp_reply. cbn [mb_data nb_segs]. pose proof (zlen_frame f Hf). pose proof (zlen_nonneg pad).
  change (kEtherHeaderLen + kArpPacketLen) with 42. rewrite zlen_app.
  destruct (Z.ltb_spec 1 k). { eexists. split; [reflexivity|]. split; [done|]. lia. }
  destruct (Z.ltb_spec (zlen (frame_bytes f) + zlen pad) 42); [lia|].
  change eth_ether_type with 12. rewrite (at_ether_type f pad Hf). cbn [mbind option_bind].
  destruct (Z.eqb_spec (fr_ether_type f) kEtherTypeArp); cbn [negb]; [|reject].
  change (kEtherHeaderLen + arp_hw_type) with 14. rewrite (at_hw_type f pad Hf). cbn [mbind option_bind].
  destruct (Z.eqb_spec (fr_hw_type f) kArpHwTypeEthernet); cbn [negb]; [|reject].
  change (kEtherHeaderLen + arp_proto_type) with 16. rewrite (at_proto_type f pad Hf). cbn [mbind option_bind].
  destruct (Z.eqb_spec (fr_proto_type f) kArpProtoIpv4); cbn [negb]; [|reject].
  change (kEtherHeaderLen + arp_hw_addr_len) with 18. rewrite (at_hw_len f pad Hf). cbn [mbind option_bind].
  destruct (Z.eqb_spec (fr_hw_len f) kArpHwAddrLen); cbn [negb]; [|reject].
  change (kEtherHeaderLen + arp_proto_addr_len) with 19. rewrite (at_proto_len f pad Hf). cbn [mbind option_bind].
  destruct (Z.eqb_spec (fr_proto_len f) kArpProtoAddrLen); cbn [negb]; [|reject].
  change (kEtherHeaderLen + arp_opcode) with 20. rewrite (at_opcode f pad Hf). cbn [mbind option_bind].
  destruct (Z.eqb_spec (fr_opcode f) kArpOpReply); cbn [negb]; [|reject].
  change (kEtherHeaderLen + arp_sender_ip) with 28. rewrite (at_sender_ip f pad Hf). cbn [mbind option_bind].
  destruct (Z.eqb_spec (fr_sender_ip f) target_ip); cbn [negb]; [|reject].
  change (kEtherHeaderLen + arp_target_ip) with 38. rewrite (at_target_ip f pad Hf). cbn [mbind option_bind].
  change (kEtherHeaderLen + arp_sender_mac) with 22. rewrite (at_sender_mac f pad Hf).
  assert (exists b : bool, (b = true <-> exists ip, el = Some ip /\ fr_target_ip f <> ip) /\
    match el with None => Some false | Some local => Some (negb (fr_target_ip f =? local)) end = Some b)
    as (b & Hb & Eb).
  { destruct el as [ip|]; (eexists; split; [|reflexivity]); [|split; [done|by intros (? & ? & _)]].
    destruct (Z.eqb_spec (fr_target_ip f) ip); cbn [negb]; (split; [|done || intros (? & [= <-] & ?); congruence]);
      [done|eauto]. }
  rewrite Eb. cbn [mbind option_bind]. destruct (sender_checked f em el b Hb) as (r & E & Hr1 & Hr2).
  cbn [mbind option_bind] in E. rewrite E. exists r. split; [reflexivity|]. split.
  - intros mac Hr. destruct (Hr1 mac Hr). unfold answers. by split_and!.
  - intros (_ & _ & Hp). by apply Hr2.
Qed.

(** Parsing ARP replies, exactly.  On every mbuf [parse_arp_reply] is defined (it reads
    only inside the packet), and it returns [mac] if and only if the packet is one segment
    that starts with an Ethernet frame carrying an ARP reply for IPv4 over Ethernet in the
    layout of RFC 826, whose sender has the resolved IP and the address [mac] -- an
    individual, non-zero one -- and which passes the optional filters on the sender's MAC and
    on the requester's IP; whatever follows as padding is ignored. *)
Theorem arp_reply_exact mb target_ip expected_mac expected_local_ip :
  exists r, parse_arp_reply (Some mb) target_ip expected_mac expected_local_ip = Some r /\
    forall mac, r = Some mac <->
      nb_segs mb <= 1 /\ exists f pad, frame_ok f /\ mb_data mb = frame_bytes f ++ pad /\
        answers f target_ip /\ permitted f expected_mac expected_local_ip /\ mac = fr_sender_mac f.
Proof.
  destruct mb as [k m]. cbn [nb_segs mb_data]. destruct (Z.leb_spec 42 (zlen m)) as [Hlen|Hlen].
  - destruct (frame_cut m Hlen) as (f & pad & Hf & ->).
    destruct (parse_frame f pad k target_ip expected_mac expected_local_ip Hf) as (r & E & H1 & _).
    exists r. split; [exact E|]. intros mac. split.
    + intros Hr. destruct (H1 mac Hr) as (? & ? & ? & ->). split; [done|]. exists f, pad. by split_and!.
    + intros (Hk & g & pad' & Hg & Eg & Ha & Hp & ->). rewrite Eg in E.
      destruct (parse_frame g pad' k target_ip expected_mac expected_local_ip Hg) as (r' & E' & _ & H2).
      rewrite E in E'. injection E' as ->. by apply H2.
  - exists None. split.
    + unfold parse_arp_reply. cbn [nb_segs mb_data]. change (kEtherHeaderLen + kArpPacketLen) with 42.
      destruct (1 <? k); [done|]. by rewrite (proj2 (Z.ltb_lt _ _)).
    + intros mac. split; [done|]. intros (_ & f & pad & Hf & -> & _). rewrite zlen_app, (zlen_frame f Hf) in Hlen.
      pose proof (zlen_nonneg pad). lia.
Qed.

(** ** Requests and the loop *)

Definition request_frame (src_mac : list byte) (src_ip target_ip : Z) : arp_frame :=
  mkFrame kBroadcastMac src_mac kEtherTypeArp kArpHwTypeEthernet kArpProtoIpv4 kArpHwAddrLen kArpProtoAddrLen
    kArpOpRequest src_mac src_ip (repeat x00 6) target_ip.

Lemma build_request_frame f src_mac src_ip target_ip :
  room_ok f -> zlen src_mac = 6 -> 0 <= src_ip < 2 ^ 32 -> 0 <= target_ip < 2 ^ 32 ->
  build_arp_request (Alloc f) src_mac src_ip target_ip =
  Some (match room f 42 with
        | None => Freed
        | Some _ => Built (mkTx (frame_bytes (request_frame src_mac src_ip target_ip)) 0 (stale_lens f))
        end).
Proof.
  intros Hr Hm Hs Ht. unfold build_arp_request. change (kEtherHeaderLen + kArpPacketLen) with 42.
  destruct (room f 42) as [pkt|] eqn:Er; [|done]. pose proof (Hr _ _ Er) as Hlen.
  change (le_bytes 2 (hton16 kEtherTypeArp)) with (be_bytes 2 kEtherTypeArp).
  change (le_bytes 2 (hton16 kArpHwTypeEthernet)) with (be_bytes 2 kArpHwTypeEthernet).
  change (le_bytes 2 (hton16 kArpProtoIpv4)) with (be_bytes 2 kArpProtoIpv4).
  change (le_bytes 2 (hton16 kArpOpRequest)) with (be_bytes 2 kArpOpRequest).
  rewrite (le_bytes_hton32 src_ip Hs), (le_bytes_hton32 target_ip Ht).
  rewrite store_fields_wr, wr_0 by (cbn [concat]; autorewrite with zlen; change (zlen (@nil byte)) with 0;
    change (zlen kBroadcastMac) with 6; lia).
  cbn [mbind option_bind]. set (h := concat _).
  assert (zlen h = 14) as Hh by (subst h; cbn [concat]; autorewrite with zlen; change (zlen (@nil byte)) with 0;
    change (zlen kBroadcastMac) with 6; lia).
  rewrite store_fields_wr. set (p := concat _).
  assert (zlen p = 28) as Hp by (subst p; cbn [concat]; autorewrite with zlen; change (zlen (@nil byte)) with 0;
    change (zlen (repeat x00 6)) with 6; lia).
  rewrite (wr_app h) by (rewrite ?zlen_drop; unfold zlen in *; change kEtherHeaderLen with 14; lia).
  cbn [mbind option_bind]. rewrite drop_drop, (drop_ge pkt) by (unfold zlen in *; lia). rewrite app_nil_r.
  do 3 f_equal. subst h p. unfold frame_bytes, request_frame. cbn [concat fr_dst fr_src fr_ether_type fr_hw_type
    fr_proto_type fr_hw_len fr_proto_len fr_opcode fr_sender_mac fr_sender_ip fr_target_mac fr_target_ip].
  rewrite !app_nil_r, <- !app_assoc. done.
Qed.

(** The loop over one burst. *)
Lemma scan_burst_spec target_ip src_ip em pkts : forall i,
  exists found freed, scan_burst target_ip src_ip em i pkts = Some (found, freed) /\
    freed ≡ₚ seq i (length pkts) /\
    match found with
    | Some mac => exists m, m ∈ pkts /\ parse_arp_reply (Some m) target_ip em (Some src_ip) = Some (Some mac)
    | None => Forall (fun m => parse_arp_reply (Some m) target_ip em (Some src_ip) = Some None) pkts
    end.
Proof.
  induction pkts as [|m rest IH]; intros i; cbn [scan_burst].
  { exists None, []. split; [done|]. by split; [|constructor]. }
  assert (exists r, parse_arp_reply (Some m) target_ip em (Some src_ip) = Some r) as [r E].
  { destruct m as [k d]. destruct (Z.leb_spec 42 (zlen d)) as [Hl|Hl].
    - destruct (frame_cut d Hl) as (f & pad & Hf & ->).
      destruct (parse_frame f pad k target_ip em (Some src_ip) Hf) as (r & E & _). by exists r.
    - exists None. unfold parse_arp_reply. cbn [nb_segs mb_data]. change (kEtherHeaderLen + kArpPacketLen) with 42.
      destruct (1 <? k); [done|]. by rewrite (proj2 (Z.ltb_lt _ _)). }
  rewrite E. cbn [mbind option_bind]. destruct r as [mac|].
  - eexists _, _. split; [reflexivity|]. split; [cbn [length seq]; by rewrite Permutation_app_comm|].
    exists m. split; [by left|done].
  - destruct (IH (S i)) as (found & freed & -> & Hp & Hf). cbn [mbind option_bind]. eexists _, _.
    split; [reflexivity|]. split; [cbn [length seq]; by constructor|]. destruct found as [mac|].
    + destruct Hf as (m' & Hm' & E'). exists m'. split; [by right|done].
    + by constructor.
Qed.

Section resolve_loop.
Context (src_mac : list byte) (src_ip target_ip : Z) (em : option (list byte)).
Hypothesis Hmac : zlen src_mac = 6.
Hypothesis Hsrc : 0 <= src_ip < 2 ^ 32.
Hypothesis Htarget : 0 <= target_ip < 2 ^ 32.

#[local] Abbreviation request := (frame_bytes (request_frame src_mac src_ip target_ip)).

Lemma arp_builds : builds (fun pool => build_arp_request pool src_mac src_ip target_ip) request.
Proof.
  split; [done|]. intros f Hf. rewrite (build_request_frame f) by done.
  destruct (room f 42); [right; by eexists|by left].
Qed.

Lemma arp_scans : scans (scan_burst target_ip src_ip em 0)
  (fun m => parse_arp_reply (Some m) target_ip em (Some src_ip)).
Proof. intros pkts. apply scan_burst_spec. Qed.

(** The resolve loop.  Whatever mbuf allocation, transmission and reception do in its
    rounds, the loop is defined and sends at most three packets, each the broadcast request
    of RFC 826 for the address; it releases every mbuf of every burst it polled exactly
    once; the MAC it returns is that of a received packet which [parse_arp_reply] accepts
    with our own address as requester; on a timeout no received packet was an acceptable
    reply; and once the clock has passed the deadline it has ended. *)
Theorem arp_resolve_sound start timeout rounds :
  Forall round_ok rounds ->
  exists run, resolve_with_io src_mac src_ip target_ip em true start timeout rounds = Some run /\
    zlen (pr_wire run) <= 3 /\
    resolves (fun m => parse_arp_reply (Some m) target_ip em (Some src_ip)) request
      (start + timeout * 1000000) rounds run.
Proof.
  intros Hok. unfold resolve_with_io. cbn [negb].
  destruct (poll_loop_spec _ _ _ _ arp_builds arp_scans (start + timeout * 1000000)
    (Z.max (Z.quot timeout 3) 50 * 1000000) rounds 0 0 Hok) as (run & E & Hr & Hl); [lia|].
  exists run. split; [exact E|]. split; [lia|done].
Qed.

End resolve_loop.

(** The refresh touches nothing but its own deadline, so the session stays well-formed. *)
Lemma maybe_refresh_arp_ok slots e s : session_ok slots s -> env_ok e -> 0 <= arp_refresh_gateway_ip_ s < 2 ^ 32 ->
  exists t w, maybe_refresh_arp e s = Some (set_arp_next_refresh_ t s, w) /\
    session_ok slots (set_arp_next_refresh_ t s) /\
    Forall (eq (frame_bytes (request_frame (c_src_mac (config_ s)) (src_ip (c_tuple (config_ s)))
                               (arp_refresh_gateway_ip_ s)))) w.
Proof.
  intros Hs He Hg. unfold maybe_refresh_arp. pose proof (so_config _ _ Hs) as Hc.
  assert (forall t, session_ok slots (set_arp_next_refresh_ t s)) as Hok by (intros; by apply ok_set_arp_next_refresh_).
  assert (s = set_arp_next_refresh_ (arp_next_refresh_ s) s) as Hid by (by destruct s).
  destruct (_ =? 0); [eexists _, []; split; [by rewrite <- Hid|by split]|].
  destruct (_ <? _); [eexists _, []; split; [by rewrite <- Hid|by split]|].
  destruct (pool_ s); [|eexists _, _; split; [reflexivity|by split]].
  destruct (alloc e) as [f|] eqn:Ea; [|eexists _, _; split; [reflexivity|by split]].
  rewrite (build_request_frame f) by (apply Hc || done || by apply (env_room _ He)).
  destruct (room f 42); cbn [mbind option_bind]; (eexists _, _; split; [reflexivity|]); (split; [done|]); [|done].
  destruct (tx_ok e); by repeat constructor.
Qed.

(** A request, silence, then the reply of 10.0.0.254 among garbage. *)
Definition demo_mac : list byte := [x02; x00; x00; x00; x00; xfe].

Definition demo_reply : mbuf :=
  mkMbuf 1 (frame_bytes (mkFrame (c_src_mac demo_config) demo_mac kEtherTypeArp kArpHwTypeEthernet kArpProtoIpv4
    kArpHwAddrLen kArpProtoAddrLen kArpOpReply demo_mac 0x0A0000FE (c_src_mac demo_config) 0x0A000001) ++ repeat x00 18).

Definition demo_rounds : list poll_round :=
  [mkRound 0 0 (Some demo_fresh) true []; mkRound 5 6 None true [mkMbuf 1 [x00]; demo_reply; demo_reply]].

Example arp_demo_resolves :
  (fun run => (length (pr_wire run), pr_freed run, pr_outcome run)) <$>
    resolve_with_io (c_src_mac demo_config) 0x0A000001 0x0A0000FE (Some demo_mac) true 0 1000 demo_rounds =
  Some (1%nat, [[]; [0; 2; 1]%nat], PollResolved demo_mac).
Proof. vm_compute. reflexivity. Qed.

Lemma arp_resolve_sound_witness :
  exists run, resolve_with_io (c_src_mac demo_config) 0x0A000001 0x0A0000FE (Some demo_mac) true 0 1000 demo_rounds =
      Some run /\ zlen (pr_wire run) <= 3 /\
    resolves (fun m => parse_arp_reply (Some m) 0x0A0000FE (Some demo_mac) (Some 0x0A000001))
      (frame_bytes (request_frame (c_src_mac demo_config) 0x0A000001 0x0A0000FE)) (0 + 1000 * 1000000) demo_rounds run.
Proof.
  apply (arp_resolve_sound (c_src_mac demo_config) 0x0A000001 0x0A0000FE (Some demo_mac));
    [reflexivity|lia|lia|].
  constructor; [|constructor; [|constructor]]; intros f; cbn [rd_alloc]; [|discriminate].
  intros [= <-]. apply demo_room_ok.
Defined.
