(* ===== verification/Dns.v ===== *)
(** * DNS messages, packets and the blocking resolver

    dns.hpp of eph-net-dpdk: the encoding of a query, the parser of replies, the packets
    that carry them and the blocking [resolve].  The asynchronous resolver is in DnsAsync.

    [dns_resolve_sound]: what the blocking resolver sends, accepts and returns.
    [dns_reply_roundtrip]: a name server's reply, CNAME chains and compressed names included,
    parses to the address of its first A record.  [dns_deep_name_rejected]: the limit. *)

From S2P Require Import Prelude FixText Codecs PacketCore PacketParse PacketTemplate PollLoop.

#[local] Open Scope Z_scope.

(** ** Constants *)

Definition kDnsHeaderLen : Z := 12.
Definition kDnsPort : Z := 53.
Definition kMaxDnsPacketLen : Z := 512.
Definition kDnsFlagQr : Z := 0x8000.
Definition kDnsFlagRd : Z := 0x0100.
Definition kDnsRcodeMask : Z := 0x000F.
Definition kDnsTypeA : Z := 1.
Definition kDnsClassIn : Z := 1.
Definition kEphemeralPortMin : Z := 49152.
Definition kEphemeralPortRange : Z := 16384.

(** Offsets of the members of [DnsHeader]. *)
Definition dns_id : Z := 0.
Definition dns_flags : Z := 2.
Definition dns_qd_count : Z := 4.
Definition dns_an_count : Z := 6.

(** ** Configuration *)

(** [timeout] in milliseconds. *)
Record DnsConfig := mkDnsConfig {
  nameserver_ip : Z;
  dns_port : Z;
  timeout_ms : Z
}.

Definition default_dns_config : DnsConfig := mkDnsConfig 0x08080808 kDnsPort 3000.

(** [validate()], with the returned description as the field it names. *)
Inductive dns_config_error := NameserverZero | DnsPortZero | TimeoutNotPositive.

Definition dns_validate (c : DnsConfig) : option dns_config_error :=
  if nameserver_ip c =? 0 then Some NameserverZero
  else if dns_port c =? 0 then Some DnsPortZero
  else if timeout_ms c <=? 0 then Some TimeoutNotPositive
  else None.

Inductive dns_warning := LoopbackNameserver | ShortTimeout | NonStandardPort.

Definition dns_warnings (c : DnsConfig) : list dns_warning :=
  (if Z.shiftr (nameserver_ip c) 24 =? 127 then [LoopbackNameserver] else []) ++
  (if timeout_ms c <? 500 then [ShortTimeout] else []) ++
  (if negb (dns_port c =? kDnsPort) && negb (dns_port c =? 0) then [NonStandardPort] else []).

(** ** The source port: [rnd] is what [getrandom] delivers, [None] when it fails *)

Definition random_ephemeral_port (rnd : option Z) : Z :=
  match rnd with
  | None => 0
  | Some r => u16 (kEphemeralPortMin + r mod kEphemeralPortRange)
  end.

Definition select_dns_src_port (rnd : option Z) : option Z :=
  let p := random_ephemeral_port rnd in
  if p =? 0 then None else Some p.

(** ** Queries

    [out] is the whole buffer and [at] the offset of the pointer passed; a result of 0
    bytes stands for the rejected hostname. *)

(** The end of the label [hostname[label_start, i)]: the new position, [None] when the
    label is rejected. *)
Definition put_label (hostname out : list byte) (at_ pos label_start i : Z)
    : option (option (Z * list byte)) :=
  let label_len := i - label_start in
  if (label_len =? 0) || (63 <? label_len) then Some None else
  out ← wr out (at_ + pos) [z2b label_len];
  label ← slice hostname label_start label_len;
  out ← wr out (at_ + (pos + 1)) label;
  Some (Some (pos + 1 + label_len, out)).

(** The loop from index [i], where [rest] is the hostname from there. *)
Fixpoint qname_loop (hostname out : list byte) (at_ pos label_start i : Z) (rest : list byte)
    : option (Z * list byte) :=
  match rest with
  | [] =>
    x ← put_label hostname out at_ pos label_start i;
    match x with
    | None => Some (0, out)
    | Some (pos, out) => out ← wr out (at_ + pos) [x00]; Some (pos + 1, out)
    end
  | c :: rest =>
    if bool_decide (c = ch_dot) then
      x ← put_label hostname out at_ pos label_start i;
      match x with
      | None => Some (0, out)
      | Some (pos, out) => qname_loop hostname out at_ pos (i + 1) (i + 1) rest
      end
    else qname_loop hostname out at_ pos label_start (i + 1) rest
  end.

Definition encode_qname (out : list byte) (at_ : Z) (hostname : list byte) : option (Z * list byte) :=
  if (zlen hostname =? 0) || (253 <? zlen hostname) then Some (0, out)
  else qname_loop hostname out at_ 0 0 0 hostname.

(** [tx_id] in network byte order. *)
Definition build_dns_query (out : list byte) (tx_id : Z) (hostname : list byte) : option (Z * list byte) :=
  out ← store_fields out 0
          [le_bytes 2 tx_id; le_bytes 2 (hton16 kDnsFlagRd); le_bytes 2 (hton16 1);
           le_bytes 2 0; le_bytes 2 0; le_bytes 2 0];
  let pos := kDnsHeaderLen in
  '(qname_len, out) ← encode_qname out pos hostname;
  if qname_len =? 0 then Some (0, out) else
  let pos := pos + qname_len in
  out ← wr out pos (le_bytes 2 (hton16 kDnsTypeA));
  out ← wr out (pos + 2) (le_bytes 2 (hton16 kDnsClassIn));
  Some (pos + 4, out).

(** ** Replies *)

(** The loop of [skip_dns_name] with [fuel] iterations left. *)
Fixpoint skip_loop (fuel : nat) (data : list byte) (offset end_offset : Z) (followed_pointer : bool) : option Z :=
  match fuel with
  | O => Some 0
  | S fuel =>
    if negb (offset <? zlen data) then Some 0 else
    label_len ← load8 data offset;
    if label_len =? 0 then
      let end_offset := if followed_pointer then end_offset else offset + 1 in
      Some (if end_offset =? 0 then offset + 1 else end_offset)
    else if Z.land label_len 0xC0 =? 0xC0 then
      if zlen data <=? offset + 1 then Some 0 else
      let end_offset := if followed_pointer then end_offset else offset + 2 in
      low ← load8 data (offset + 1);
      let ptr := u16 (Z.lor (Z.shiftl (Z.land label_len 0x3F) 8) low) in
      if zlen data <=? ptr then Some 0 else
      skip_loop fuel data ptr end_offset true
    else if 63 <? label_len then Some 0
    else if zlen data <? offset + 1 + label_len then Some 0
    else skip_loop fuel data (offset + (1 + label_len)) end_offset followed_pointer
  end.

Definition kMaxIterations : nat := 32.

Definition skip_dns_name (data : list byte) (offset : Z) : option Z :=
  skip_loop kMaxIterations data offset 0 false.

(** The error strings of [parse_dns_response], with the numbers they report. *)
Inductive dns_error :=
| DnsTooShort (dns_len : Z)
| DnsTxIdMismatch (got : Z)
| DnsNotResponse (flags : Z)
| DnsRcode (rcode : Z)
| DnsQuestionCount (qd_count : Z)
| DnsAnswerCount (an_count : Z)
| DnsNoAnswers
| DnsQuestionName (i : Z)
| DnsQuestionTruncated (i offset : Z)
| DnsAnswerMalformed (i offset : Z)
| DnsRdataExceeds (i rdlength offset : Z)
| DnsNoARecord (an_count : Z).

(** The questions from number [i], [n] of them left. *)
Fixpoint skip_questions (n : nat) (data : list byte) (i offset : Z) : option (expected Z dns_error) :=
  match n with
  | O => Some (Ok offset)
  | S n =>
    offset ← skip_dns_name data offset;
    if offset =? 0 then Some (Err (DnsQuestionName i)) else
    let offset := offset + 4 in
    if zlen data <? offset then Some (Err (DnsQuestionTruncated i offset))
    else skip_questions n data (i + 1) offset
  end.

(** The answers from number [i], [n] of them left. *)
Fixpoint find_answer (n : nat) (data : list byte) (an_count i offset : Z) : option (expected Z dns_error) :=
  match n with
  | O => Some (Err (DnsNoARecord an_count))
  | S n =>
    offset ← skip_dns_name data offset;
    if (offset =? 0) || (zlen data <? offset + 10) then Some (Err (DnsAnswerMalformed i offset)) else
    rr_type ← load_ntoh16 data offset;
    rr_class ← load_ntoh16 data (offset + 2);
    rdlength ← load_ntoh16 data (offset + 8);
    let offset := offset + 10 in
    if (kMaxDnsPacketLen <? rdlength) || (zlen data <? offset + rdlength)
    then Some (Err (DnsRdataExceeds i rdlength offset)) else
    if (rr_type =? kDnsTypeA) && (rr_class =? kDnsClassIn) && (rdlength =? 4) then
      ip ← load_ntoh32 data offset; Some (Ok ip)
    else find_answer n data an_count (i + 1) (offset + rdlength)
  end.

Definition parse_dns_response (dns_data : list byte) (tx_id : Z) : option (expected Z dns_error) :=
  if zlen dns_data <? kDnsHeaderLen then Some (Err (DnsTooShort (zlen dns_data))) else
  id ← load16 dns_data dns_id;
  if negb (id =? tx_id) then Some (Err (DnsTxIdMismatch id)) else
  flags ← load_ntoh16 dns_data dns_flags;
  if Z.land flags kDnsFlagQr =? 0 then Some (Err (DnsNotResponse flags)) else
  let rcode := Z.land flags kDnsRcodeMask in
  if negb (rcode =? 0) then Some (Err (DnsRcode rcode)) else
  qd_count ← load_ntoh16 dns_data dns_qd_count;
  if 16 <? qd_count then Some (Err (DnsQuestionCount qd_count)) else
  an_count ← load_ntoh16 dns_data dns_an_count;
  if 64 <? an_count then Some (Err (DnsAnswerCount an_count)) else
  if an_count =? 0 then Some (Err DnsNoAnswers) else
  q ← skip_questions (Z.to_nat qd_count) dns_data 0 kDnsHeaderLen;
  match q with
  | Err e => Some (Err e)
  | Ok offset => find_answer (Z.to_nat an_count) dns_data an_count 0 offset
  end.

(** ** Packets *)

(** The headers' assignments in the order of the fields, the [memset] of the IP header
    included. *)
Definition build_dns_packet (pool : mempool) (smac dmac : list byte) (sip dip sport dport : Z)
    (dns_payload : list byte) (dns_len : Z) : option build_result :=
  if kMaxDnsPacketLen <? dns_len then Some NoMbuf else
  match pool with
  | NullPool | Exhausted => Some NoMbuf
  | Alloc mbuf =>
    let udp_total := u16 (kUdpHeaderLen + u16 dns_len) in
    let ip_total := u16 (kIpv4HeaderLen + udp_total) in
    let frame_len := u16 (kEtherHeaderLen + ip_total) in
    match room mbuf frame_len with
    | None => Some Freed
    | Some pkt =>
      pkt ← store_fields pkt 0 [dmac; smac; le_bytes 2 (hton16 kEtherTypeIpv4)];
      pkt ← store_fields pkt ip_off
              [[z2b 0x45]; [x00]; le_bytes 2 (hton16 ip_total); le_bytes 2 0; le_bytes 2 0;
               [z2b 64]; [z2b kIpProtoUdp]; le_bytes 2 0; le_bytes 4 (hton32 sip); le_bytes 4 (hton32 dip)];
      iph ← slice pkt ip_off kIpv4HeaderLen;
      pkt ← wr pkt (ip_off + ip_hdr_checksum) (le_bytes 2 (internet_checksum (Some iph)));
      pkt ← store_fields pkt (kEtherHeaderLen + kIpv4HeaderLen)
              [le_bytes 2 (hton16 sport); le_bytes 2 (hton16 dport); le_bytes 2 (hton16 udp_total); le_bytes 2 0];
      payload ← slice dns_payload 0 dns_len;
      pkt ← wr pkt (kEtherHeaderLen + kIpv4HeaderLen + kUdpHeaderLen) payload;
      Some (Built (mkTx pkt 0 (stale_lens mbuf)))
    end
  end.

(** The inner [None] is [std::nullopt]; the outer one an access outside the mbuf. *)
Definition try_parse_dns_packet (mbuf : option mbuf) (tx_id ns_ip expected_src_port expected_dst_port
    expected_local_ip : Z) : option (option Z) :=
  match mbuf with
  | None => Some None
  | Some mb =>
    let m := mb_data mb in
    let min_len := kEtherHeaderLen + kIpv4HeaderLen + kUdpHeaderLen + kDnsHeaderLen in
    if 1 <? nb_segs mb then Some None else
    if zlen m <? min_len then Some None else
    ether_type ← load_ntoh16 m eth_ether_type;
    if negb (ether_type =? kEtherTypeIpv4) then Some None else
    let ip := kEtherHeaderLen in
    version_ihl ← load8 m (ip + ip_version_ihl);
    let ihl := u8 (Z.shiftl (Z.land version_ihl 0x0F) 2) in
    if ihl <? kIpv4HeaderLen then Some None else
    proto ← load8 m (ip + ip_next_proto_id);
    if negb (proto =? kIpProtoUdp) then Some None else
    src_addr ← load_ntoh32 m (ip + ip_src_addr);
    if negb (src_addr =? ns_ip) then Some None else
    other_host ← (if negb (expected_local_ip =? 0) then
                    dst_addr ← load_ntoh32 m (ip + ip_dst_addr); Some (negb (dst_addr =? expected_local_ip))
                  else Some false);
    if (other_host : bool) then Some None else
    if zlen m <? kEtherHeaderLen + ihl + kUdpHeaderLen + kDnsHeaderLen then Some None else
    let udp := kEtherHeaderLen + ihl in
    sport ← load_ntoh16 m (udp + tcp_src_port);
    if negb (sport =? expected_src_port) then Some None else
    other_port ← (if negb (expected_dst_port =? 0) then
                    dport ← load_ntoh16 m (udp + tcp_dst_port); Some (negb (dport =? expected_dst_port))
                  else Some false);
    if (other_port : bool) then Some None else
    udp_len ← load_ntoh16 m (udp + udp_length);
    if udp_len <? kUdpHeaderLen + kDnsHeaderLen then Some None else
    if zlen m <? kEtherHeaderLen + ihl + udp_len then Some None else
    dns_data ← slice m (udp + kUdpHeaderLen) (udp_len - kUdpHeaderLen);
    result ← parse_dns_response dns_data tx_id;
    match result with
    | Ok ip => Some (Some ip)
    | Err _ => Some None
    end
  end.

(** ** The blocking resolver *)

(** The loop over a burst from packet [i]: the address found and the mbufs released. *)
Fixpoint dns_scan (tx_id_net : Z) (cfg : DnsConfig) (sport sip : Z) (i : nat) (pkts : list mbuf)
    : option (option Z * list nat) :=
  match pkts with
  | [] => Some (None, [])
  | m :: rest =>
    r ← try_parse_dns_packet (Some m) tx_id_net (nameserver_ip cfg) (dns_port cfg) sport sip;
    match r with
    | Some ip => Some (Some ip, seq i (S (length rest)))
    | None => '(r, freed) ← dns_scan tx_id_net cfg sport sip (S i) rest; Some (r, i :: freed)
    end
  end.

(** What [resolve] answers: an address at once, a refusal before the loop, or the loop's
    run.  [pool]: the mempool is not null; [rnd_id] and [rnd_port] what the two calls of
    [getrandom] deliver; [buf] the 512 uninitialised bytes of [dns_buf]; [start] and the
    rounds' clock in nanoseconds. *)
Inductive dns_resolve_result :=
| DnsNow (ip : Z)
| DnsRefused (e : Error)
| DnsRun (r : poll_run Z).

Definition resolve (pool : bool) (smac dmac : list byte) (sip : Z) (hostname : list byte) (cfg : DnsConfig)
    (rnd_id rnd_port : option Z) (buf : list byte) (start : Z) (rounds : list poll_round)
    : option dns_resolve_result :=
  let ip := parse_ipv4 (Some hostname) in
  if negb (ip =? 0) then Some (DnsNow ip) else
  match dns_validate cfg with
  | Some _ => Some (DnsRefused InvalidConfig)
  | None =>
    if zlen hostname =? 0 then Some (DnsRefused InvalidConfig) else
    if negb pool then Some (DnsRefused InvalidConfig) else
    match rnd_id with
    | None => Some (DnsRefused InvalidConfig)
    | Some tx_id =>
      match select_dns_src_port rnd_port with
      | None => Some (DnsRefused InvalidConfig)
      | Some sport =>
        '(dns_len, dns_buf) ← build_dns_query buf (hton16 tx_id) hostname;
        if dns_len =? 0 then Some (DnsRefused InvalidConfig) else
        let deadline := start + timeout_ms cfg * 1000000 in
        let retry_interval := Z.max (Z.quot (timeout_ms cfg) 3) 100 * 1000000 in
        let tx_id_net := hton16 tx_id in
        r ← poll_loop
              (fun pool => build_dns_packet pool smac dmac sip (nameserver_ip cfg) sport (dns_port cfg) dns_buf dns_len)
              (dns_scan tx_id_net cfg sport sip 0) deadline retry_interval 0 0 rounds;
        Some (DnsRun r)
      end
    end
  end.

(** ** Names, as RFC 1035 lays them out

    [name_at data n off ls next]: a name with the labels [ls] starts at [off], is decoded in
    [n] steps and is followed by [next]; a compression pointer is one step and ends the name
    where it stands. *)

Definition pointer (hi lo : Z) : Z := Z.land hi 0x3F * 256 + lo.

Inductive name_at (data : list byte) : nat -> Z -> list (list byte) -> Z -> Prop :=
| name_root off : load8 data off = Some 0 -> name_at data 1 off [] (off + 1)
| name_label n off len l ls next :
    load8 data off = Some len -> 0 < len <= 63 -> slice data (off + 1) len = Some l ->
    name_at data n (off + 1 + len) ls next -> name_at data (S n) off (l :: ls) next
| name_pointer n off hi lo ls next :
    load8 data off = Some hi -> 192 <= hi -> load8 data (off + 1) = Some lo ->
    name_at data n (pointer hi lo) ls next -> name_at data (S n) off ls (off + 2).

Lemma load8_in m off v : load8 m off = Some v -> 0 <= off < zlen m /\ 0 <= v < 256.
Proof.
  unfold load8, rd. destruct (Z.leb_spec 0 off) as [H|]; [|done].
  destruct (m !! Z.to_nat off) as [b|] eqn:E; [|done]. intros [= <-].
  apply lookup_lt_Some in E. pose proof (b2z_range b). unfold zlen. lia.
Qed.

Lemma top_bits v : 0 <= v < 256 -> (Z.land v 0xC0 =? 0xC0) = (192 <=? v).
Proof.
  intros Hv. apply (range_forall (fun v => Bool.eqb (Z.land v 0xC0 =? 0xC0) (192 <=? v)) 256) in Hv;
    [by apply Bool.eqb_prop|by vm_compute].
Qed.

Lemma pointer_val hi lo : 0 <= lo < 256 ->
  u16 (Z.lor (Z.shiftl (Z.land hi 0x3F) 8) lo) = pointer hi lo /\ 0 <= pointer hi lo < 16384.
Proof.
  intros Hlo. unfold pointer. rewrite (lor_shiftl_add _ _ 8) by lia. change (2 ^ 8) with 256.
  assert (0 <= Z.land hi 63 < 64) by (rewrite (land_mask 6) by lia; apply Z.mod_pos_bound; lia).
  rewrite wrap_small by (change (2 ^ 16) with 65536; lia). lia.
Qed.

Lemma name_at_range data n off ls next : name_at data n off ls next -> 0 <= off < zlen data /\ off < next /\ (0 < n)%nat.
Proof.
  induction 1 as [off H|n off len l ls next H Hl Hs _ IH|n off hi lo ls next H Hh H1 _ IH];
    apply load8_in in H; try apply load8_in in H1; lia.
Qed.

Lemma name_at_pointer_inv data n off ls next v lo :
  load8 data off = Some v -> 192 <= v -> load8 data (off + 1) = Some lo -> name_at data n off ls next ->
  exists k nx, n = S k /\ name_at data k (pointer v lo) ls nx /\ next = off + 2.
Proof.
  intros Ev Hv El H. inversion H as [? H0|? ? ? ? ? ? H0 ? ? ?|k ? ? ? ? nx H0 ? H1 ?]; subst.
  - assert (v = 0) by congruence. lia.
  - assert (len = v) by congruence. lia.
  - assert (hi = v) as -> by congruence. assert (lo0 = lo) as -> by congruence. by exists k, nx.
Qed.

Lemma name_at_label_inv data n off ls next v :
  load8 data off = Some v -> 0 < v < 192 -> name_at data n off ls next ->
  v <= 63 /\ off + 1 + v <= zlen data /\
  exists k l ls', n = S k /\ ls = l :: ls' /\ slice data (off + 1) v = Some l /\ name_at data k (off + 1 + v) ls' next.
Proof.
  intros Ev Hv H. inversion H as [? H0|k ? ? l ls' ? H0 Hr Hs Hn|? ? ? ? ? ? H0 ? ? ?]; subst.
  - assert (v = 0) by congruence. lia.
  - assert (len = v) as -> by congruence. apply slice_bound in Hs as Hb. split; [lia|]. split; [lia|]. by exists k, l, ls'.
  - assert (hi = v) by congruence. lia.
Qed.

(** What the skip of a name at [off] computes with [fuel] iterations: where the name ends,
    0 if it does not end within them. *)
Definition skip_result (fuel : nat) (data : list byte) (off e : Z) : Prop :=
  (exists n ls, name_at data n off ls e /\ (n <= fuel)%nat) \/
  (e = 0 /\ forall n ls next, name_at data n off ls next -> (fuel < n)%nat).

Definition skips (fuel : nat) (data : list byte) (off eo : Z) (fp : bool) (r : option Z) : Prop :=
  exists e, skip_result fuel data off e /\ r = Some (if fp then if e =? 0 then 0 else eo else e).

Lemma skips_none fuel data off eo fp :
  (forall n ls next, name_at data n off ls next -> (fuel < n)%nat) -> skips fuel data off eo fp (Some 0).
Proof. intros H. exists 0. split; [by right|by destruct fp]. Qed.

(** One iteration on a pointer, given the rest of the loop. *)
Lemma skips_pointer fuel data off eo fp v lo r :
  0 <= off -> (fp = true -> 0 < eo) ->
  load8 data off = Some v -> 192 <= v -> load8 data (off + 1) = Some lo ->
  skips fuel data (pointer v lo) (if fp then eo else off + 2) true r -> skips (S fuel) data off eo fp r.
Proof.
  intros Ho Heo Ev Hv El (e & He & ->). destruct He as [(n & ls & Hn & Hle)|[-> Hno]].
  - exists (off + 2). split.
    + left. exists (S n), ls. split; [by eapply name_pointer|lia].
    + destruct (pointer_val v lo) as [_ Hp]; [by apply load8_in in El as [_ ?]|].
      apply name_at_range in Hn. rewrite !(proj2 (Z.eqb_neq _ 0)) by lia. by destruct fp.
  - apply skips_none. intros n ls next H.
    destruct (name_at_pointer_inv data n off ls next v lo) as (k & nx & -> & Hk%Hno & _); try done. lia.
Qed.

(** One iteration on a label. *)
Lemma skips_label fuel data off eo fp v r :
  load8 data off = Some v -> 0 < v <= 63 -> off + 1 + v <= zlen data ->
  skips fuel data (off + 1 + v) eo fp r -> skips (S fuel) data off eo fp r.
Proof.
  intros Ev Hv Hb (e & He & ->). apply load8_in in Ev as Hr. exists e. split; [|done].
  destruct He as [(n & ls & Hn & Hle)|[-> Hno]].
  - left. exists (S n). eexists (_ :: ls). split; [|lia]. eapply name_label; [done|lia|apply slice_Some; lia|done].
  - right. split; [done|]. intros n ls next H.
    destruct (name_at_label_inv data n off ls next v) as (_ & _ & k & l & ls' & -> & _ & _ & Hk%Hno); try done; lia.
Qed.

Lemma skip_loop_spec data : forall fuel off eo (fp : bool), 0 <= off -> (fp = true -> 0 < eo) ->
  skips fuel data off eo fp (skip_loop fuel data off eo fp).
Proof.
  induction fuel as [|fuel IH]; intros off eo fp Hoff Heo; cbn [skip_loop].
  { apply skips_none. intros n ls next H%name_at_range. lia. }
  destruct (Z.ltb_spec off (zlen data)) as [Hin|Hout]; cbn [negb].
  2: { apply skips_none. intros n ls next H%name_at_range. lia. }
  destruct (load8_Some data off ltac:(lia)) as (v & Ev & Hv). rewrite Ev. cbn [mbind option_bind].
  destruct (Z.eqb_spec v 0) as [->|Hv0].
  { exists (off + 1). split; [left; exists 1%nat, []; split; [by constructor|lia]|].
    destruct fp; [specialize (Heo eq_refl)|]; rewrite !(proj2 (Z.eqb_neq _ 0)) by lia; done. }
  rewrite (top_bits v Hv). destruct (Z.leb_spec 192 v) as [Hp|Hnp].
  - destruct (Z.leb_spec (zlen data) (off + 1)) as [Hs|Hs].
    { apply skips_none. intros n ls next H. exfalso.
      inversion H as [? H0|? ? ? ? ? ? H0 ? ? ?|? ? ? ? ? ? H0 ? H1 ?]; subst;
        [assert (v = 0) by congruence; lia|assert (len = v) by congruence; lia|apply load8_in in H1; lia]. }
    destruct (load8_Some data (off + 1) ltac:(lia)) as (lo & El & Hlo). rewrite El. cbn [mbind option_bind].
    destruct (pointer_val v lo Hlo) as [-> Hpr].
    destruct (Z.leb_spec (zlen data) (pointer v lo)) as [Hq|Hq].
    + apply skips_none. intros n ls next H.
      destruct (name_at_pointer_inv data n off ls next v lo) as (k & nx & _ & Hk%name_at_range & _); try done. lia.
    + eapply skips_pointer; try done. apply IH; [lia|]. destruct fp; [done|lia].
  - destruct (Z.ltb_spec 63 v) as [Hb|Hb].
    { apply skips_none. intros n ls next H. destruct (name_at_label_inv data n off ls next v) as [? _]; try done; lia. }
    destruct (Z.ltb_spec (zlen data) (off + 1 + v)) as [Hs|Hs].
    { apply skips_none. intros n ls next H. destruct (name_at_label_inv data n off ls next v) as (_ & ? & _); try done; lia. }
    replace (off + (1 + v)) with (off + 1 + v) by lia.
    eapply skips_label; [done|lia|done|]. apply IH; [lia|done].
Qed.

(** Skipping a name: defined everywhere, and exact. *)
Lemma skip_dns_name_spec data off : 0 <= off ->
  exists e, skip_dns_name data off = Some e /\ skip_result kMaxIterations data off e.
Proof.
  intros H. destruct (skip_loop_spec data kMaxIterations off 0 false H) as (e & He & E); [done|].
  exists e. by split.
Qed.

Lemma name_at_det data n off ls next : name_at data n off ls next ->
  forall n' ls' next', name_at data n' off ls' next' -> n = n' /\ ls = ls' /\ next = next'.
Proof.
  induction 1 as [off H|n off len l ls next H Hl Hs _ IH|n off hi lo ls next H Hh H1 _ IH]; intros n' ls' next' H'.
  - inversion H' as [? H0|? ? ? ? ? ? H0 ? ? ?|? ? ? ? ? ? H0 ? ? ?]; subst; [done|..];
      [assert (len = 0) by congruence|assert (hi = 0) by congruence]; lia.
  - destruct (name_at_label_inv data n' off ls' next' len) as (_ & _ & k & l' & ls'' & -> & -> & Hl' & Hk); try done; [lia|].
    apply IH in Hk as (-> & -> & ->). split_and!; congruence.
  - destruct (name_at_pointer_inv data n' off ls' next' hi lo) as (k & nx & -> & Hk & ->); try done.
    by apply IH in Hk as (-> & -> & _).
Qed.

(** A name starts at [off] and its encoding there ends before [e]; at most 32 labels and
    pointers are followed. *)
Definition name_ends (data : list byte) (off e : Z) : Prop :=
  exists n ls, name_at data n off ls e /\ (n <= kMaxIterations)%nat.

Lemma name_ends_range data off e : name_ends data off e -> 0 <= off < e.
Proof. intros (n & ls & H%name_at_range & _). lia. Qed.

Lemma skip_name_cases data off : 0 <= off ->
  (exists e, skip_dns_name data off = Some e /\ name_ends data off e /\ e <> 0) \/
  (skip_dns_name data off = Some 0 /\ forall e, ~ name_ends data off e).
Proof.
  intros H. destruct (skip_dns_name_spec data off H) as (e & E & [(n & ls & Hn & Hle)|[-> Hno]]).
  - left. exists e. split; [done|]. split; [by exists n, ls|]. apply name_at_range in Hn. lia.
  - right. split; [done|]. intros e (n & ls & Hn%Hno & Hle). lia.
Qed.

Lemma name_ends_det data off e e' : name_ends data off e -> name_ends data off e' -> e = e'.
Proof. intros (n & ls & H & _) (n' & ls' & H' & _). by destruct (name_at_det _ _ _ _ _ H _ _ _ H') as (_ & _ & ?). Qed.

(** ** Messages *)

(** [n] questions from [off], the rest of the message from [off']. *)
Inductive questions_at (data : list byte) : nat -> Z -> Z -> Prop :=
| questions_end off : questions_at data 0 off off
| question_at n off e off' :
    name_ends data off e -> e + 4 <= zlen data -> questions_at data n (e + 4) off' ->
    questions_at data (S n) off off'.

(** A resource record at [off]: its fixed fields follow the owner's name at [e], its data
    [rdata] at [e + 10]. *)
Record record_at (data : list byte) (off e type class : Z) (rdata : list byte) : Prop := {
  rr_name : name_ends data off e;
  rr_type : load_ntoh16 data e = Some type;
  rr_class : load_ntoh16 data (e + 2) = Some class;
  rr_length : load_ntoh16 data (e + 8) = Some (zlen rdata);
  rr_short : zlen rdata <= kMaxDnsPacketLen;
  rr_data : slice data (e + 10) (zlen rdata) = Some rdata
}.

Definition is_a (type class : Z) (rdata : list byte) : Prop := type = kDnsTypeA /\ class = kDnsClassIn /\ zlen rdata = 4.

(** The first A record among the [n] records from [off] carries [ip]. *)
Inductive first_a (data : list byte) : nat -> Z -> Z -> Prop :=
| a_here n off e type class rdata :
    record_at data off e type class rdata -> is_a type class rdata -> first_a data (S n) off (be_val rdata)
| a_later n off e type class rdata ip :
    record_at data off e type class rdata -> ~ is_a type class rdata ->
    first_a data n (e + 10 + zlen rdata) ip -> first_a data (S n) off ip.

(** The reply to the query [tx_id] (as stored, in network byte order) that answers [ip]. *)
Definition dns_reply (data : list byte) (tx_id ip : Z) : Prop :=
  load16 data 0 = Some tx_id /\
  exists flags qd an off,
    load_ntoh16 data 2 = Some flags /\ Z.testbit flags 15 = true /\ flags mod 16 = 0 /\
    load_ntoh16 data 4 = Some qd /\ qd <= 16 /\ load_ntoh16 data 6 = Some an /\ 1 <= an <= 64 /\
    12 <= zlen data /\ questions_at data (Z.to_nat qd) 12 off /\ first_a data (Z.to_nat an) off ip.

Lemma skip_questions_spec data : forall n i off, 0 <= off ->
  exists r, skip_questions n data i off = Some r /\ forall off', r = Ok off' <-> questions_at data n off off'.
Proof.
  induction n as [|n IH]; intros i off Hoff; cbn [skip_questions].
  { eexists. split; [reflexivity|]. intros off'. split; [intros [= <-]; constructor|by inversion 1]. }
  destruct (skip_name_cases data off Hoff) as [(e & -> & He & Hne)|[-> Hno]]; cbn [mbind option_bind].
  2: { eexists. split; [reflexivity|]. intros off'. split; [done|]. inversion 1 as [|? ? e ? He]. by apply Hno in He. }
  apply name_ends_range in He as Hr. rewrite (proj2 (Z.eqb_neq e 0)) by done.
  destruct (Z.ltb_spec (zlen data) (e + 4)) as [Hs|Hs].
  - eexists. split; [reflexivity|]. intros off'. split; [done|]. inversion 1 as [|? ? e' ? He']. subst.
    pose proof (name_ends_det _ _ _ _ He He'). lia.
  - destruct (IH (i + 1) (e + 4) ltac:(lia)) as (r & -> & Hiff). exists r. split; [done|].
    intros off'. rewrite Hiff. split; [by econstructor|].
    inversion 1 as [|? ? e' ? He']. subst. by rewrite (name_ends_det _ _ _ _ He He').
Qed.

Lemma load_ntoh32_slice data off bs : slice data off 4 = Some bs -> load_ntoh32 data off = Some (be_val bs).
Proof.
  intros E. unfold load_ntoh32, load32. rewrite E. cbn [mbind option_bind].
  destruct (slice_4_inv _ _ _ E) as (a & b & c & d & ->). by rewrite ntoh32_le.
Qed.

Lemma record_at_det data off e type class rdata e' type' class' rdata' :
  record_at data off e type class rdata -> record_at data off e' type' class' rdata' ->
  e = e' /\ type = type' /\ class = class' /\ rdata = rdata'.
Proof.
  intros [] []. assert (e = e') as -> by (by eapply name_ends_det).
  assert (zlen rdata = zlen rdata') as E by congruence. rewrite E in *. split_and!; congruence.
Qed.

Lemma is_a_dec type class rdata :
  ((type =? kDnsTypeA) && (class =? kDnsClassIn) && (zlen rdata =? 4) = true) <-> is_a type class rdata.
Proof. unfold is_a. rewrite !andb_true_iff, !Z.eqb_eq. tauto. Qed.

(** The fields behind a name, or no record. *)
Lemma record_cases data off e : name_ends data off e -> e + 10 <= zlen data ->
  exists type class len, load_ntoh16 data e = Some type /\ load_ntoh16 data (e + 2) = Some class /\
    load_ntoh16 data (e + 8) = Some len /\ 0 <= len /\
    (len <= kMaxDnsPacketLen -> e + 10 + len <= zlen data ->
       exists rdata, zlen rdata = len /\ record_at data off e type class rdata).
Proof.
  intros He Hb. apply name_ends_range in He as Hr.
  destruct (load_ntoh16_Some data e) as (t & Et & _); [lia..|].
  destruct (load_ntoh16_Some data (e + 2)) as (c & Ec & _); [lia..|].
  destruct (load_ntoh16_Some data (e + 8)) as (l & El & Hl); [lia..|].
  exists t, c, l. split_and!; [done..|lia|]. intros H1 H2.
  pose proof (slice_Some data (e + 10) l ltac:(lia) ltac:(lia) ltac:(lia)) as Es.
  pose proof (slice_zlen _ _ _ _ Es) as Hz. eexists. split; [exact Hz|].
  constructor; rewrite ?Hz; done.
Qed.

Lemma find_answer_spec data an : forall n i off, 0 <= off ->
  exists r, find_answer n data an i off = Some r /\ forall ip, r = Ok ip <-> first_a data n off ip.
Proof.
  induction n as [|n IH]; intros i off Hoff; cbn [find_answer].
  { eexists. split; [reflexivity|]. intros ip. split; [done|by inversion 1]. }
  assert (forall e, (forall e' t c d, ~ record_at data off e' t c d) ->
    forall ip, @Err Z dns_error e = Ok ip <-> first_a data (S n) off ip) as Hnone.
  { intros er Hno ip. split; [done|].
    inversion 1 as [? ? e ? ? ? Hrec _|? ? e ? ? ? ? Hrec]; subst; by apply Hno in Hrec. }
  destruct (skip_name_cases data off Hoff) as [(e & -> & He & Hne)|[-> Hno]]; cbn [mbind option_bind].
  2: { eexists. split; [reflexivity|]. apply Hnone. intros e t c d [Hn]. by apply Hno in Hn. }
  apply name_ends_range in He as Hr. rewrite (proj2 (Z.eqb_neq e 0)) by done. cbn [orb].
  destruct (Z.ltb_spec (zlen data) (e + 10)) as [Hs|Hs].
  { eexists. split; [reflexivity|]. apply Hnone. intros e' t c d [Hn ? ? Hl].
    rewrite (name_ends_det _ _ _ _ He Hn) in Hs. unfold load_ntoh16, load16 in Hl.
    destruct (slice data (e' + 8) 2) eqn:Es; [|done]. apply slice_bound in Es. lia. }
  destruct (record_cases data off e He Hs) as (t & c & l & Et & Ec & El & Hl & Hrec).
  rewrite Et, Ec, El. cbn [mbind option_bind].
  destruct (_ || _) eqn:Eb.
  { eexists. split; [reflexivity|]. apply Hnone. intros e' t' c' d [Hn ? ? Hl' Hs' Hd].
    rewrite (name_ends_det _ _ _ _ He Hn) in *. assert (l = zlen d) as -> by congruence.
    apply slice_bound in Hd. apply orb_true_iff in Eb as [Eb%Z.ltb_lt|Eb%Z.ltb_lt]; lia. }
  apply orb_false_iff in Eb as [Eb1%Z.ltb_ge Eb2%Z.ltb_ge].
  destruct (Hrec Eb1 Eb2) as (d & <- & Hd). destruct (_ && _) eqn:Ea.
  - apply is_a_dec in Ea. destruct Ea as (Ha1 & Ha2 & Ha3). pose proof (rr_data _ _ _ _ _ _ Hd) as Hsl. rewrite Ha3 in Hsl.
    rewrite (load_ntoh32_slice _ _ _ Hsl). cbn [mbind option_bind]. eexists. split; [reflexivity|].
    intros ip. split; [intros [= <-]; by econstructor|].
    inversion 1 as [? ? e' ? ? d' Hd'|? ? e' ? ? d' ? Hd' Hn]; subst;
      destruct (record_at_det _ _ _ _ _ _ _ _ _ _ Hd Hd') as (<- & <- & <- & <-); [done|].
    by destruct Hn.
  - assert (~ is_a t c d) as Hna by (intros H%is_a_dec; congruence).
    destruct (IH (i + 1) (e + 10 + zlen d)) as (r & -> & Hiff); [lia|]. exists r. split; [done|].
    intros ip. rewrite Hiff. split; [by econstructor|].
    inversion 1 as [? ? e' ? ? d' Hd'|? ? e' ? ? d' ? Hd' Hn]; subst;
      destruct (record_at_det _ _ _ _ _ _ _ _ _ _ Hd Hd') as (<- & <- & <- & <-); [contradiction|done].
Qed.

Lemma flag_qr flags : 0 <= flags < 2 ^ 16 -> (Z.land flags kDnsFlagQr =? 0) = negb (Z.testbit flags 15).
Proof.
  intros Hf. unfold kDnsFlagQr. change 0x8000 with (2 ^ 15). destruct (Z.testbit flags 15) eqn:E; cbn [negb].
  - apply Z.eqb_neq. intros H. assert (Z.testbit (Z.land flags (2 ^ 15)) 15 = false) as Hb by (rewrite H; apply Z.bits_0).
    rewrite Z.land_spec, E, Z.pow2_bits_true in Hb by lia. done.
  - apply Z.eqb_eq, Z.bits_inj'. intros k Hk. rewrite Z.land_spec, Z.bits_0.
    destruct (decide (k = 15)) as [->|]; [by rewrite E|]. rewrite Z.pow2_bits_false by done. by rewrite andb_false_r.
Qed.

Lemma rcode_mod flags : (Z.land flags kDnsRcodeMask =? 0) = (flags mod 16 =? 0).
Proof. unfold kDnsRcodeMask. change 0x000F with (2 ^ 4 - 1). by rewrite land_mask. Qed.

#[local] Ltac rejected := eexists; split; [reflexivity|]; intros ip; split; [done|];
  intros (? & ? & ? & ? & ? & ? & ? & ? & ? & ? & ? & ? & ? & ? & ?);
  match goal with
  | |- False => first [lia|congruence]
  | _ => exfalso; simplify_eq; first [lia|congruence|done]
  end.

(** Replies of the name server, exactly.  On every byte string [parse_dns_response] is
    defined -- it reads only inside the message, whatever its counts, lengths and compression
    pointers are, loops of pointers included -- and it returns [ip] if and only if the
    message is a DNS response of RFC 1035 for the transaction without an error code, with at
    most 16 questions and 64 answers, whose records are complete and whose first record of
    type A and class IN with four bytes of data carries [ip]; a name counts as complete when
    it is spelt by at most 32 labels and pointers. *)
Lemma parse_dns_response_exact data tx_id :
  exists r, parse_dns_response data tx_id = Some r /\ forall ip, r = Ok ip <-> dns_reply data tx_id ip.
Proof.
  unfold parse_dns_response, dns_id, dns_flags, dns_qd_count, dns_an_count, kDnsHeaderLen.
  destruct (Z.ltb_spec (zlen data) 12); [rejected|].
  destruct (slice2 data 0) as (a & b & E0); [lia..|].
  assert (load16 data 0 = Some (le_val [a; b])) as L0 by (unfold load16; by rewrite E0).
  destruct (load_ntoh16_Some data 2) as (fl & L2 & Hfl); [lia..|].
  destruct (load_ntoh16_Some data 4) as (qd & L4 & Hqd); [lia..|].
  destruct (load_ntoh16_Some data 6) as (an & L6 & Han); [lia..|].
  rewrite L0, L2, L4, L6. cbn [mbind option_bind].
  destruct (Z.eqb_spec (le_val [a; b]) tx_id) as [<-|Hid]; cbn [negb].
  2: { eexists. split; [reflexivity|]. intros ip. split; [done|]. intros [H0 _]. congruence. }
  rewrite (flag_qr fl Hfl). destruct (Z.testbit fl 15) eqn:Et; cbn [negb]; [|rejected].
  rewrite (rcode_mod fl). destruct (Z.eqb_spec (fl mod 16) 0); cbn [negb]; [|rejected].
  destruct (Z.ltb_spec 16 qd); [rejected|]. destruct (Z.ltb_spec 64 an); [rejected|].
  destruct (Z.eqb_spec an 0); [rejected|].
  destruct (skip_questions_spec data (Z.to_nat qd) 0 12 ltac:(lia)) as (q & -> & Hq). cbn [mbind option_bind].
  destruct q as [off|er].
  - pose proof (proj1 (Hq off) eq_refl) as Ho.
    assert (0 <= off) as Hoff.
    { clear -Ho. assert (0 <= 12) as H by lia. revert H Ho. generalize 12. generalize (Z.to_nat qd). intros k z Hz Ho.
      induction Ho as [|? ? ? ? ?%name_ends_range]; [done|]. lia. }
    destruct (find_answer_spec data an (Z.to_nat an) 0 off Hoff) as (r & -> & Hr). exists r. split; [done|].
    intros ip. rewrite Hr. split.
    + intros H2. split; [done|]. exists fl, qd, an, off. by split_and!; try lia.
    + intros (_ & ? & qd' & an' & off' & _ & _ & _ & Eq & _ & Ea & _ & _ & Ho' & Hf). simplify_eq.
      apply Hq in Ho'. by simplify_eq.
  - eexists. split; [reflexivity|]. intros ip. split; [done|].
    intros (_ & ? & qd' & an' & off' & _ & _ & _ & Eq & _ & _ & _ & _ & Ho' & _). simplify_eq.
    apply Hq in Ho'. by simplify_eq.
Qed.

(** ** Packets that carry a reply *)

(** An Ethernet/IPv4/UDP packet from the name server [ns]:[sport] to
    [local]:[dport] (0: any), whose IP options and UDP length are honoured. *)
Definition reply_packet (m : list byte) (tx_id ns sport dport local ip : Z) : Prop :=
  load_ntoh16 m 12 = Some kEtherTypeIpv4 /\ load8 m 23 = Some kIpProtoUdp /\
  load_ntoh32 m 26 = Some ns /\ (local <> 0 -> load_ntoh32 m 30 = Some local) /\
  exists v len dns, let udp := 14 + v mod 16 * 4 in
    load8 m 14 = Some v /\ 20 <= v mod 16 * 4 /\
    load_ntoh16 m udp = Some sport /\ (dport <> 0 -> load_ntoh16 m (udp + 2) = Some dport) /\
    load_ntoh16 m (udp + 4) = Some len /\ slice m (udp + 8) (len - 8) = Some dns /\ dns_reply dns tx_id ip.

Lemma ihl_val v : 0 <= v < 256 -> u8 (Z.shiftl (Z.land v 0x0F) 2) = v mod 16 * 4.
Proof.
  intros Hv. change 0x0F with (2 ^ 4 - 1). rewrite land_mask, Z.shiftl_mul_pow2 by lia.
  change (2 ^ 4) with 16. change (2 ^ 2) with 4. apply wrap_small. pose proof (Z.mod_pos_bound v 16).
  change (2 ^ 8) with 256. lia.
Qed.

(** A field that is checked only against a non-zero expectation. *)
Lemma optional_check (load : option Z) (want : Z) v : load = Some v ->
  exists b : bool, (if negb (want =? 0) then d ← load; Some (negb (d =? want)) else Some false) = Some b /\
    if b then ~ (want <> 0 -> load = Some want) else (want <> 0 -> load = Some want).
Proof.
  intros ->. destruct (Z.eqb_spec want 0) as [->|Hw]; cbn [negb mbind option_bind].
  - by exists false.
  - eexists. split; [reflexivity|]. destruct (Z.eqb_spec v want) as [->|Hv]; cbn [negb]; [done|].
    intros H. specialize (H Hw). congruence.
Qed.

#[local] Ltac refused := exists None; split; [reflexivity|]; intros ip; split; [done|];
  intros (? & ? & ? & ? & ? & v' & len' & dns' & ? & ? & ? & ? & ? & ? & ?); exfalso;
  repeat match goal with x := _ : Z |- _ => subst x end; simplify_eq; first [lia|tauto|congruence].

Lemma dns_reply_long dns tx ip : dns_reply dns tx ip -> 12 <= zlen dns.
Proof. intros (_ & ? & ? & ? & ? & _ & _ & _ & _ & _ & _ & _ & H & _). exact H. Qed.

Lemma try_parse_exact mb tx_id ns sport dport local :
  exists r, try_parse_dns_packet (Some mb) tx_id ns sport dport local = Some r /\
    forall ip, r = Some ip <-> nb_segs mb <= 1 /\ reply_packet (mb_data mb) tx_id ns sport dport local ip.
Proof.
  destruct mb as [k m]. unfold try_parse_dns_packet, reply_packet. cbn [mb_data nb_segs].
  unfold kEtherHeaderLen, kIpv4HeaderLen, kUdpHeaderLen, kDnsHeaderLen, eth_ether_type, ip_version_ihl,
    ip_next_proto_id, ip_src_addr, ip_dst_addr, tcp_src_port, tcp_dst_port, udp_length.
  destruct (Z.ltb_spec 1 k). { exists None. split; [done|]. intros ip. split; [done|]. lia. }
  destruct (Z.ltb_spec (zlen m) (14 + 20 + 8 + 12)) as [Hs|Hs].
  { exists None. split; [done|]. intros ip. split; [done|]. intros (_ & _ & _ & _ & _ & v & len & dns & _ & Hv & _ & _ & _ & Hd & Hr).
    apply dns_reply_long in Hr. pose proof (slice_zlen _ _ _ _ Hd). apply slice_bound in Hd. lia. }
  destruct (load_ntoh16_Some m 12) as (et & L12 & _); [lia..|]. rewrite L12. cbn [mbind option_bind].
  destruct (Z.eqb_spec et kEtherTypeIpv4) as [->|]; cbn [negb]; [|refused].
  change (14 + 0) with 14. change (14 + 9) with 23. change (14 + 12) with 26. change (14 + 16) with 30.
  destruct (load8_Some m 14) as (v & L14 & Hv); [lia|]. rewrite L14. cbn [mbind option_bind].
  rewrite (ihl_val v Hv). set (ihl := v mod 16 * 4) in *.
  destruct (Z.ltb_spec ihl 20); [refused|].
  destruct (load8_Some m 23) as (pr & L23 & _); [lia|]. rewrite L23. cbn [mbind option_bind].
  destruct (Z.eqb_spec pr kIpProtoUdp) as [->|]; cbn [negb]; [|refused].
  destruct (load_ntoh32_Some m 26) as (si & L26 & _); [lia..|]. rewrite L26. cbn [mbind option_bind].
  destruct (Z.eqb_spec si ns) as [->|]; cbn [negb]; [|refused].
  destruct (load_ntoh32_Some m 30) as (di & L30 & _); [lia..|].
  destruct (optional_check _ local _ L30) as (b1 & E1 & Hb1). rewrite E1. cbn [mbind option_bind].
  destruct b1; [refused|].
  destruct (Z.ltb_spec (zlen m) (14 + ihl + 8 + 12)) as [Hs2|Hs2].
  { exists None. split; [done|]. intros ip. split; [done|]. intros (_ & _ & _ & _ & _ & v' & len & dns & Ev & _ & _ & _ & _ & Hd & Hr).
    apply dns_reply_long in Hr. pose proof (slice_zlen _ _ _ _ Hd). apply slice_bound in Hd. simplify_eq. lia. }
  rewrite (Z.add_0_r (14 + ihl)).
  destruct (load_ntoh16_Some m (14 + ihl)) as (sp & Lsp & _); [lia..|]. rewrite Lsp. cbn [mbind option_bind].
  destruct (Z.eqb_spec sp sport) as [->|]; cbn [negb]; [|refused].
  destruct (load_ntoh16_Some m (14 + ihl + 2)) as (dp & Ldp & _); [lia..|].
  destruct (optional_check _ dport _ Ldp) as (b2 & E2 & Hb2). rewrite E2. cbn [mbind option_bind].
  destruct b2; [refused|].
  destruct (load_ntoh16_Some m (14 + ihl + 4)) as (len & Lln & _); [lia..|]. rewrite Lln. cbn [mbind option_bind].
  destruct (Z.ltb_spec len (8 + 12)) as [Hs3|Hs3].
  { exists None. split; [done|]. intros ip. split; [done|]. intros (_ & _ & _ & _ & _ & v' & len' & dns & Ev & _ & _ & _ & El & Hd & Hr).
    apply dns_reply_long in Hr. pose proof (slice_zlen _ _ _ _ Hd).
    assert (v' = v) as -> by congruence. fold ihl in El. assert (len' = len) by congruence. lia. }
  destruct (Z.ltb_spec (zlen m) (14 + ihl + len)) as [Hs4|Hs4].
  { exists None. split; [done|]. intros ip. split; [done|]. intros (_ & _ & _ & _ & _ & v' & len' & dns & Ev & _ & _ & _ & El & Hd & Hr).
    apply slice_bound in Hd. assert (v' = v) as -> by congruence. fold ihl in El, Hd. assert (len' = len) by congruence. lia. }
  pose proof (slice_Some m (14 + ihl + 8) (len - 8) ltac:(lia) ltac:(lia) ltac:(lia)) as Es. rewrite Es. cbn [mbind option_bind].
  match type of Es with _ = Some ?d => set (dns := d) in * end.
  destruct (parse_dns_response_exact dns tx_id) as (r & -> & Hr). cbn [mbind option_bind].
  exists (match r with Ok ip => Some ip | Err _ => None end). split; [by destruct r|].
  intros ip. transitivity (r = Ok ip); [destruct r; split; congruence|]. rewrite Hr. split.
  - intros Hd. split; [done|]. split_and!; [done..|exact Hb1|]. exists v, len, dns. split_and!; done.
  - intros (_ & _ & _ & _ & _ & v' & len' & dns' & Ev & _ & _ & _ & El & Ed & Hd).
    assert (v' = v) as -> by congruence. fold ihl in El, Ed. assert (len' = len) as -> by congruence.
    assert (dns' = dns) as -> by congruence. done.
Qed.

Lemma try_parse_accepts mb tx_id ns sport dport local ip :
  try_parse_dns_packet (Some mb) tx_id ns sport dport local = Some (Some ip) <->
  nb_segs mb <= 1 /\ reply_packet (mb_data mb) tx_id ns sport dport local ip.
Proof.
  destruct (try_parse_exact mb tx_id ns sport dport local) as (r & -> & Hr). rewrite <- Hr. split; congruence.
Qed.

(** ** Hostnames and their encoding *)

(** The labels between the dots. *)
Fixpoint split_dots (h : list byte) : list (list byte) :=
  match h with
  | [] => [[]]
  | c :: t =>
    if bool_decide (c = ch_dot) then [] :: split_dots t
    else match split_dots t with [] => [[c]] | l :: ls => (c :: l) :: ls end
  end.

Definition label_ok (l : list byte) : Prop := 1 <= zlen l <= 63.

Definition hostname_ok (h : list byte) : Prop := zlen h <= 253 /\ Forall label_ok (split_dots h).

#[global] Instance label_ok_dec l : Decision (label_ok l).
Proof. unfold label_ok. apply _. Defined.

#[global] Instance hostname_ok_dec h : Decision (hostname_ok h).
Proof. unfold hostname_ok. apply _. Defined.

Definition wire_labels (ls : list (list byte)) : list byte := concat (map (fun l => z2b (zlen l) :: l) ls).
Definition wire_name (ls : list (list byte)) : list byte := wire_labels ls ++ [x00].

Lemma split_dots_plain cur rest : ch_dot ∉ cur ->
  exists l ls, split_dots rest = l :: ls /\ split_dots (cur ++ rest) = (cur ++ l) :: ls.
Proof.
  intros Hc. assert (exists l ls, split_dots rest = l :: ls) as (l & ls & E).
  { destruct rest as [|c t]; [by eexists _, _|]. cbn [split_dots]. case_bool_decide; [by eexists _, _|].
    destruct (split_dots t); by eexists _, _. }
  exists l, ls. split; [done|]. induction cur as [|c t IH]; [done|]. cbn [app split_dots].
  apply not_elem_of_cons in Hc as [Hc Ht]. rewrite bool_decide_eq_false_2 by congruence. by rewrite (IH Ht).
Qed.

Lemma split_dots_dot cur rest : ch_dot ∉ cur -> split_dots (cur ++ ch_dot :: rest) = cur :: split_dots rest.
Proof.
  intros Hc. destruct (split_dots_plain cur (ch_dot :: rest) Hc) as (l & ls & E & ->).
  cbn [split_dots] in E. rewrite bool_decide_eq_true_2 in E by done. injection E as <- <-. by rewrite app_nil_r.
Qed.

Lemma split_dots_end cur : ch_dot ∉ cur -> split_dots cur = [cur].
Proof.
  intros Hc. destruct (split_dots_plain cur [] Hc) as (l & ls & E & E'). cbn [split_dots] in E.
  injection E as <- <-. by rewrite app_nil_r in E'.
Qed.

Lemma wire_name_cons l ls : wire_name (l :: ls) = z2b (zlen l) :: l ++ wire_name ls.
Proof. unfold wire_name, wire_labels. cbn [map concat]. by rewrite <- app_assoc. Qed.

Lemma zlen_wire_split h : zlen (wire_name (split_dots h)) = zlen h + 2.
Proof.
  induction h as [|c t IH]; [done|]. cbn [split_dots]. case_bool_decide.
  - rewrite wire_name_cons. cbn [app]. rewrite !zlen_cons, IH. lia.
  - destruct (split_dots t) as [|l ls] eqn:E; [destruct (split_dots_plain [] t) as (? & ? & ? & _); [by apply not_elem_of_nil|congruence]|].
    rewrite !wire_name_cons in *. cbn [app] in *. rewrite !zlen_cons, ?zlen_app in *. lia.
Qed.

(** Writing the label [cur] that ends at [i]. *)
Lemma put_label_spec pre cur rest out post at_ pos label_start i :
  zlen out = at_ + pos -> label_start = zlen pre -> i = zlen pre + zlen cur -> zlen cur + 1 <= zlen post ->
  put_label (pre ++ cur ++ rest) (out ++ post) at_ pos label_start i =
  Some (if decide (label_ok cur)
        then Some (pos + 1 + zlen cur, out ++ (z2b (zlen cur) :: cur) ++ drop (S (length cur)) post) else None).
Proof.
  intros Ho -> -> Hp. unfold put_label. replace (zlen pre + zlen cur - zlen pre) with (zlen cur) by lia.
  pose proof (zlen_nonneg cur). unfold label_ok. destruct (_ || _) eqn:Eb.
  { apply orb_true_iff in Eb as [Eb%Z.eqb_eq|Eb%Z.ltb_lt]; rewrite decide_False by lia; done. }
  apply orb_false_iff in Eb as [Eb%Z.eqb_neq Eb'%Z.ltb_ge]. rewrite decide_True by lia.
  rewrite (wr_app out) by (rewrite ?zlen_cons, ?zlen_nil; lia). cbn [mbind option_bind length].
  rewrite slice_mid by done. cbn [mbind option_bind].
  rewrite app_assoc, (wr_app (out ++ [z2b (zlen cur)])) by (rewrite ?zlen_app, ?zlen_cons, ?zlen_nil, ?zlen_drop; lia).
  cbn [mbind option_bind]. rewrite drop_drop, <- app_assoc. done.
Qed.

Lemma qname_loop_spec rest : forall pre cur out post at_ pos i,
  ch_dot ∉ cur -> zlen out = at_ + pos -> 0 <= pos -> i = zlen pre + zlen cur ->
  zlen cur + zlen rest + 2 <= zlen post ->
  (Forall label_ok (split_dots (cur ++ rest)) ->
   qname_loop (pre ++ cur ++ rest) (out ++ post) at_ pos (zlen pre) i rest =
   Some (pos + zlen cur + zlen rest + 2,
         out ++ wire_name (split_dots (cur ++ rest)) ++ drop (length (wire_name (split_dots (cur ++ rest)))) post)) /\
  (~ Forall label_ok (split_dots (cur ++ rest)) ->
   exists out', qname_loop (pre ++ cur ++ rest) (out ++ post) at_ pos (zlen pre) i rest = Some (0, out')).
Proof.
  induction rest as [|c t IH]; intros pre cur out post at_ pos i Hc Ho Hp -> Hl; cbn [qname_loop].
  { rewrite (put_label_spec pre cur [] out post at_ pos (zlen pre)) by (done || (change (zlen (@nil byte)) with 0 in Hl; lia)).
    cbn [mbind option_bind]. rewrite app_nil_r, (split_dots_end cur Hc).
    destruct (decide (label_ok cur)) as [Hok|Hno].
    - split; [intros _|intros H; by destruct H; constructor].
      change (zlen (@nil byte)) with 0 in Hl.
      rewrite app_assoc, (wr_app (out ++ _)) by (rewrite ?zlen_app, ?zlen_drop, ?zlen_cons, ?zlen_nil; unfold zlen in *; lia).
      cbn [mbind option_bind]. rewrite drop_drop, wire_name_cons. change (wire_name []) with [x00].
      change (zlen (@nil byte)) with 0. cbn [length app]. rewrite length_app. cbn [length]. rewrite <- !app_assoc. cbn [app].
      do 2 f_equal. lia.
    - split; [by inversion 1|eauto]. }
  rewrite zlen_cons in Hl |- *. case_bool_decide as Ed.
  - subst c. rewrite (put_label_spec pre cur (ch_dot :: t) out post at_ pos (zlen pre)) by (done || (pose proof (zlen_nonneg t); lia)).
    cbn [mbind option_bind]. rewrite (split_dots_dot cur t Hc).
    destruct (decide (label_ok cur)) as [Hok|Hno]; [|split; [by inversion 1|eauto]].
    pose proof (zlen_nonneg cur). pose proof (zlen_nonneg t).
    assert (zlen cur + 1 = Z.of_nat (S (length cur))) as Hsc by (unfold zlen; lia).
    replace (pre ++ cur ++ ch_dot :: t) with ((pre ++ cur ++ [ch_dot]) ++ [] ++ t) by (cbn [app]; by rewrite <- !app_assoc).
    replace (zlen pre + zlen cur + 1) with (zlen (pre ++ cur ++ [ch_dot])) by (rewrite !zlen_app; change (zlen [ch_dot]) with 1; lia).
    rewrite (app_assoc out).
    destruct (IH (pre ++ cur ++ [ch_dot]) [] (out ++ z2b (zlen cur) :: cur) (drop (S (length cur)) post) at_
      (pos + 1 + zlen cur) (zlen (pre ++ cur ++ [ch_dot]))) as [IH1 IH2].
    { apply not_elem_of_nil. }
    { rewrite zlen_app, zlen_cons. lia. }
    { lia. }
    { change (zlen (@nil byte)) with 0. lia. }
    { change (zlen (@nil byte)) with 0. rewrite zlen_drop. lia. }
    cbn [app] in IH1, IH2 |- *. split.
    + inversion 1 as [|? ? _ Hf]; subst. rewrite (IH1 Hf). rewrite wire_name_cons. cbn [app length]. rewrite length_app.
      rewrite drop_drop, <- !app_assoc. cbn [app]. change (zlen (@nil byte)) with 0. do 2 f_equal. lia.
    + intros Hn. apply IH2. intros Hf. apply Hn. by constructor.
  - replace (pre ++ cur ++ c :: t) with (pre ++ (cur ++ [c]) ++ t) by (by rewrite <- app_assoc).
    replace (cur ++ c :: t) with ((cur ++ [c]) ++ t) by (by rewrite <- app_assoc).
    replace (pos + zlen cur + (zlen t + 1) + 2) with (pos + zlen (cur ++ [c]) + zlen t + 2)
      by (rewrite zlen_app; change (zlen [c]) with 1; lia).
    apply IH; try done; try (rewrite zlen_app; change (zlen [c]) with 1; lia).
    rewrite elem_of_app, list_elem_of_singleton. intros [?|?]; [done|congruence].
Qed.

(** The encoding of a hostname, exactly: the labels between its dots with their lengths,
    when each has 1 to 63 bytes and the hostname at most 253; it takes two bytes more than
    the hostname. *)
Lemma encode_qname_exact out post hostname : zlen hostname + 2 <= zlen post ->
  (hostname_ok hostname ->
   encode_qname (out ++ post) (zlen out) hostname =
   Some (zlen hostname + 2, out ++ wire_name (split_dots hostname) ++ drop (length (wire_name (split_dots hostname))) post)) /\
  (~ hostname_ok hostname -> exists out', encode_qname (out ++ post) (zlen out) hostname = Some (0, out')).
Proof.
  intros Hl. unfold encode_qname, hostname_ok. pose proof (zlen_nonneg hostname).
  destruct (qname_loop_spec hostname [] [] out post (zlen out) 0 0) as [H1 H2];
    [apply not_elem_of_nil|lia|lia|done|change (zlen (@nil byte)) with 0; lia|].
  change (zlen (@nil byte)) with 0 in H1, H2. cbn [app] in H1, H2. rewrite Z.add_0_l in H1.
  destruct (Z.eqb_spec (zlen hostname) 0) as [Hz|Hz]; cbn [orb].
  { rewrite (zlen_nil_inv hostname) by lia. split; [|by eauto]. intros [_ Hf].
    inversion Hf as [|? ? Hl0]. unfold label_ok in Hl0. change (zlen (@nil byte)) with 0 in Hl0. lia. }
  destruct (Z.ltb_spec 253 (zlen hostname)); [split; [lia|by eauto]|]. split.
  - intros [_ Hf]. by apply H1.
  - intros Hn. apply H2. tauto.
Qed.

(** The query message for [hostname]: recursion desired, one question of type A. *)
Definition query_bytes (tx_id : Z) (hostname : list byte) : list byte :=
  le_bytes 2 tx_id ++ be_bytes 2 kDnsFlagRd ++ be_bytes 2 1 ++ repeat x00 6 ++
  wire_name (split_dots hostname) ++ be_bytes 2 kDnsTypeA ++ be_bytes 2 kDnsClassIn.

Lemma zlen_query tx_id hostname : zlen (query_bytes tx_id hostname) = zlen hostname + 18.
Proof.
  unfold query_bytes. autorewrite with zlen. rewrite zlen_wire_split.
  change (zlen (repeat x00 6)) with 6. lia.
Qed.

Lemma build_dns_query_exact buf tx_id hostname : zlen buf = kMaxDnsPacketLen ->
  (hostname_ok hostname ->
   build_dns_query buf tx_id hostname =
   Some (zlen hostname + 18, query_bytes tx_id hostname ++ drop (length (query_bytes tx_id hostname)) buf)) /\
  (~ hostname_ok hostname -> exists out, build_dns_query buf tx_id hostname = Some (0, out)).
Proof.
  intros Hb. unfold kMaxDnsPacketLen in Hb. unfold build_dns_query, kDnsHeaderLen.
  rewrite store_fields_wr. set (h := concat _).
  assert (zlen h = 12) as Hh by (subst h; cbn [concat]; autorewrite with zlen;
    change (zlen (@nil byte)) with 0; lia).
  rewrite wr_0 by lia. cbn [mbind option_bind]. rewrite <- Hh. split.
  - intros Hok. destruct Hok as [Hl Hf] eqn:E0. clear E0.
    rewrite (proj1 (encode_qname_exact h (drop (length h) buf) hostname ltac:(rewrite zlen_drop; unfold zlen in *; lia))) by done.
    cbn [mbind option_bind]. rewrite drop_drop. pose proof (zlen_nonneg hostname).
    rewrite (proj2 (Z.eqb_neq _ 0)) by lia. rewrite wr_bind by (by rewrite zlen_le_bytes).
    pose proof (zlen_wire_split hostname) as Hw.
    rewrite app_assoc, (wr_app (h ++ _)) by (rewrite ?zlen_app, ?zlen_drop, ?zlen_le_bytes; unfold zlen in *; lia).
    cbn [mbind option_bind]. rewrite drop_drop. f_equal. f_equal; [lia|].
    unfold query_bytes. change (le_bytes 2 (hton16 kDnsTypeA)) with (be_bytes 2 kDnsTypeA).
    change (le_bytes 2 (hton16 kDnsClassIn)) with (be_bytes 2 kDnsClassIn). subst h. cbn [concat].
    change (le_bytes 2 (hton16 kDnsFlagRd)) with (be_bytes 2 kDnsFlagRd). change (le_bytes 2 (hton16 1)) with (be_bytes 2 1).
    rewrite <- !app_assoc. cbn [app]. do 2 f_equal. rewrite !length_app, !length_be_bytes, !length_le_bytes.
    reflexivity.
  - intros Hn. destruct (decide (zlen hostname <= 253)) as [Hs|Hs].
    + destruct (proj2 (encode_qname_exact h (drop (length h) buf) hostname
        ltac:(rewrite zlen_drop; unfold zlen in *; lia)) Hn) as (o & ->). by exists o.
    + unfold encode_qname. rewrite (proj2 (Z.ltb_lt 253 _)) by lia. rewrite orb_true_r. by eexists.
Qed.

Section packets.
Context (smac dmac : list byte) (sip dip sport dport : Z).
Hypothesis (Hsm : zlen smac = 6) (Hdm : zlen dmac = 6) (Hsip : 0 <= sip < 2 ^ 32) (Hdip : 0 <= dip < 2 ^ 32)
  (Hsp : 0 <= sport < 2 ^ 16) (Hdp : 0 <= dport < 2 ^ 16).

(** The IP header without its checksum, and the checksum over it. *)
Definition dns_ip_header (total ck : Z) : list byte :=
  ([x45; x00] ++ be_bytes 2 total ++ be_bytes 2 0 ++ be_bytes 2 0 ++ [x40; x11]) ++
  le_bytes 2 ck ++ be_bytes 4 sip ++ be_bytes 4 dip.

Definition dns_checksum (total : Z) : Z := internet_checksum (Some (dns_ip_header total 0)).

Definition dns_frame (payload : list byte) : list byte :=
  udp_header smac dmac 0 (28 + zlen payload) 0 sip dip sport dport (8 + zlen payload)
    (dns_checksum (28 + zlen payload)) 0 ++ payload.

Lemma build_dns_packet_frame f buf len payload :
  room_ok f -> slice buf 0 len = Some payload -> len <= kMaxDnsPacketLen ->
  build_dns_packet (Alloc f) smac dmac sip dip sport dport buf len =
  Some (match room f (42 + len) with
        | None => Freed
        | Some _ => Built (mkTx (dns_frame payload) 0 (stale_lens f))
        end).
Proof.
  intros Hr Hs Hl. pose proof (slice_zlen _ _ _ _ Hs) as <-. unfold kMaxDnsPacketLen in Hl.
  pose proof (zlen_nonneg payload). set (n := zlen payload) in *.
  unfold build_dns_packet, kMaxDnsPacketLen, kUdpHeaderLen, kIpv4HeaderLen, kEtherHeaderLen.
  rewrite (proj2 (Z.ltb_ge _ _)) by lia.
  assert (forall z, 0 <= z <= 600 -> u16 z = z) as Hw by (intros; apply wrap_small; change (2 ^ 16) with 65536; lia).
  rewrite (Hw n), (Hw (8 + n)), (Hw (20 + (8 + n))), (Hw (14 + _)) by lia.
  replace (14 + (20 + (8 + n))) with (42 + n) by lia. destruct (room f (42 + n)) as [pkt|] eqn:Er; [|done].
  pose proof (Hr _ _ Er) as Hlen. rewrite !le_bytes_hton16, !le_bytes_hton32 by (done || (unfold kEtherTypeIpv4; change (2 ^ 16) with 65536; lia)).
  change (le_bytes 2 0) with (be_bytes 2 0). change ip_off with 14. change (14 + ip_hdr_checksum) with 24.
  rewrite !store_fields_wr, wr_0 by (cbn [concat]; autorewrite with zlen; change (zlen (@nil byte)) with 0; lia).
  cbn [mbind option_bind]. set (E := concat _).
  assert (zlen E = 14) as HE by (subst E; cbn [concat]; autorewrite with zlen; change (zlen (@nil byte)) with 0; lia).
  rewrite store_fields_wr.
  change (concat [[z2b 0x45]; [x00]; be_bytes 2 (20 + (8 + n)); be_bytes 2 0; be_bytes 2 0; [z2b 64]; [z2b kIpProtoUdp];
    be_bytes 2 0; be_bytes 4 sip; be_bytes 4 dip]) with (dns_ip_header (20 + (8 + n)) 0).
  replace (20 + (8 + n)) with (28 + n) by lia.
  assert (forall ck, zlen (dns_ip_header (28 + n) ck) = 20) as HI by (intros ck; unfold dns_ip_header; autorewrite with zlen;
    change (zlen (@nil byte)) with 0; lia).
  rewrite (wr_app E) by (rewrite ?HI, ?zlen_drop; unfold zlen in *; lia). cbn [mbind option_bind].
  rewrite slice_mid by (rewrite ?HI; done). cbn [mbind option_bind].
  set (ck := internet_checksum _). set (tl := drop _ (drop _ pkt)).
  assert (zlen tl = 8 + n) as Htl.
  { subst tl. rewrite !zlen_drop. specialize (HI 0). unfold zlen in *. lia. }
  assert (wr (E ++ dns_ip_header (28 + n) 0 ++ tl) 24 (le_bytes 2 ck) = Some (E ++ dns_ip_header (28 + n) ck ++ tl)) as ->.
  { unfold dns_ip_header. set (I1 := [x45; x00] ++ _). rewrite <- !app_assoc, (app_assoc E I1), (app_assoc E I1).
    apply wr_mid; [|done]. rewrite zlen_app. change (zlen I1) with 10. lia. }
  cbn [mbind option_bind]. rewrite store_fields_wr, (app_assoc E), (wr_app (E ++ _))
    by (rewrite ?zlen_app, ?HI; cbn [concat]; autorewrite with zlen; change (zlen (@nil byte)) with 0; lia).
  cbn [mbind option_bind]. rewrite Hs. cbn [mbind option_bind]. set (U := concat _).
  assert (zlen U = 8) as HU by (subst U; cbn [concat]; autorewrite with zlen; change (zlen (@nil byte)) with 0; lia).
  rewrite (app_assoc _ U), (wr_app (_ ++ U)) by (rewrite ?zlen_app, ?HI, ?zlen_drop; unfold zlen in *; lia).
  cbn [mbind option_bind]. rewrite drop_drop, (drop_ge tl) by (unfold zlen in *; lia). rewrite app_nil_r.
  do 3 f_equal. unfold dns_frame, udp_header, dns_checksum. fold n. change (internet_checksum _) with ck. subst E U. unfold dns_ip_header. cbn [concat].
  rewrite <- !app_assoc. reflexivity.
Qed.

Lemma dns_frame_parse payload : zlen payload <= kMaxDnsPacketLen ->
  parse_udp_packet (Some (mkMbuf 1 (dns_frame payload))) =
    Some (mkParsedUdp (Some 0) (Some 14) (Some 34) (Some 42) (zlen payload)) /\
  load_ntoh32 (dns_frame payload) 26 = Some sip /\ load_ntoh32 (dns_frame payload) 30 = Some dip /\
  load_ntoh16 (dns_frame payload) 34 = Some sport /\ load_ntoh16 (dns_frame payload) 36 = Some dport /\
  slice (dns_frame payload) 42 (zlen payload) = Some payload /\
  exists iph, slice (dns_frame payload) 14 20 = Some iph /\ internet_checksum (Some iph) = 0.
Proof.
  intros Hl. unfold kMaxDnsPacketLen in Hl. pose proof (zlen_nonneg payload). unfold dns_frame.
  set (ck := dns_checksum _). set (h := udp_header _ _ _ _ _ _ _ _ _ _ _ _).
  assert (zlen h = 42) as Hh by (subst h; unfold udp_header; autorewrite with zlen; change (zlen (@nil byte)) with 0; lia).
  pose proof (udp_frame_parse smac dmac sip dip sport dport 0 Hsm Hdm Hsip Hdip Hsp Hdp 0 payload [] ck 0) as HP.
  rewrite app_nil_r in HP. fold h in HP.
  rewrite HP by (done || (unfold UINT16_MAX; change (zlen (@nil byte)) with 0; lia)).
  destruct (uh_loads smac dmac sip dip sport dport 0 Hsm Hdm Hsip Hdip Hsp Hdp 0 (28 + zlen payload)
    (8 + zlen payload) ck 0 payload) as (_ & _ & _ & _ & _ & L26 & L30 & L34 & L36 & _);
    [done|change (2 ^ 16) with 65536; lia..|].
  fold h in L26, L30, L34, L36. split_and!; try done.
  - rewrite <- (app_nil_r payload) at 1. by rewrite slice_mid.
  - exists (dns_ip_header (28 + zlen payload) ck). split.
    + rewrite slice_in_prefix by lia. subst h. unfold udp_header. rewrite (app_assoc dmac), (app_assoc (dmac ++ smac) [_; _; _; _]).
      change [x08; x00; x45; x00] with ([x08; x00] ++ [x45; x00]).
      unfold dns_ip_header. eapply (slice_at _ (dmac ++ smac ++ [x08; x00])).
      * rewrite <- !app_assoc. reflexivity.
      * rewrite !zlen_app. change (zlen [x08; x00]) with 2. lia.
      * autorewrite with zlen. change (zlen (@nil byte)) with 0. lia.
    + subst ck. unfold dns_checksum, dns_ip_header. rewrite !seg_internet. by apply seg_verify.
Qed.

(** A frame of the name server with an answer as its payload is one the resolver accepts. *)
Lemma dns_frame_reply payload tx ip : zlen payload <= kMaxDnsPacketLen -> dns_reply payload tx ip ->
  reply_packet (dns_frame payload) tx sip sport dport dip ip.
Proof.
  intros Hl Hr. destruct (dns_frame_parse payload Hl) as (_ & L26 & L30 & L34 & L36 & Hs & _).
  unfold kMaxDnsPacketLen in Hl. pose proof (zlen_nonneg payload).
  destruct (uh_loads smac dmac sip dip sport dport 0 Hsm Hdm Hsip Hdip Hsp Hdp 0 (28 + zlen payload)
    (8 + zlen payload) (dns_checksum (28 + zlen payload)) 0 payload) as (L12 & L14 & _ & _ & L23 & _ & _ & _ & _ & L38);
    [done|change (2 ^ 16) with 65536; lia..|].
  split_and!; try done. exists 0x45, (8 + zlen payload), payload. cbv zeta. change (14 + 0x45 mod 16 * 4) with 34.
  split_and!; try done. by replace (8 + zlen payload - 8) with (zlen payload) by lia.
Qed.

End packets.

(** ** The resolver *)

Lemma random_port_range rnd : 0 <= rnd -> 49152 <= random_ephemeral_port (Some rnd) <= 65535.
Proof.
  intros H. unfold random_ephemeral_port, kEphemeralPortMin, kEphemeralPortRange.
  pose proof (Z.mod_pos_bound rnd 16384). rewrite wrap_small by (change (2 ^ 16) with 65536; lia). lia.
Qed.

Lemma select_port_cases rnd : (forall r, rnd = Some r -> 0 <= r) ->
  match select_dns_src_port rnd with
  | None => rnd = None
  | Some p => 49152 <= p <= 65535
  end.
Proof.
  intros H. unfold select_dns_src_port. destruct rnd as [r|]; [|done].
  pose proof (random_port_range r (H r eq_refl)). rewrite (proj2 (Z.eqb_neq _ 0)) by lia. done.
Qed.

Lemma dns_scan_spec tx cfg sport sip pkts : forall i,
  exists found freed, dns_scan tx cfg sport sip i pkts = Some (found, freed) /\
    freed ≡ₚ seq i (length pkts) /\
    match found with
    | Some ip => exists m, m ∈ pkts /\
        try_parse_dns_packet (Some m) tx (nameserver_ip cfg) (dns_port cfg) sport sip = Some (Some ip)
    | None => Forall (fun m => try_parse_dns_packet (Some m) tx (nameserver_ip cfg) (dns_port cfg) sport sip = Some None) pkts
    end.
Proof.
  induction pkts as [|m rest IH]; intros i; cbn [dns_scan].
  { exists None, []. split; [done|]. by split; [|constructor]. }
  destruct (try_parse_exact m tx (nameserver_ip cfg) (dns_port cfg) sport sip) as (r & E & _).
  rewrite E. cbn [mbind option_bind]. destruct r as [ip|].
  - eexists _, _. split; [reflexivity|]. split; [done|]. exists m. split; [by left|done].
  - destruct (IH (S i)) as (found & freed & -> & Hp & Hf). cbn [mbind option_bind]. eexists _, _.
    split; [reflexivity|]. split; [cbn [length seq]; by constructor|]. destruct found as [ip|].
    + destruct Hf as (m' & Hm' & E'). exists m'. split; [by right|done].
    + by constructor.
Qed.

(** A frame that a receiver reads as the UDP datagram from [sip]:[sport] to [ns]:[port]
    carrying the query [tx_id] for [hostname], with a correct IP checksum. *)
Definition query_packet (w : list byte) (sip ns sport port tx_id : Z) (hostname : list byte) : Prop :=
  exists p, parse_udp_packet (Some (mkMbuf 1 w)) = Some p /\
    pu_src_ip w p = Some sip /\ pu_dst_ip w p = Some ns /\ pu_src_port w p = Some sport /\ pu_dst_port w p = Some port /\
    (exists off, pu_payload p = Some off /\ slice w off (pu_payload_len p) = Some (query_bytes tx_id hostname)) /\
    exists iph, slice w 14 20 = Some iph /\ internet_checksum (Some iph) = 0.

(** What a run of the resolver's loop guarantees. *)
Record dns_run_ok (cfg : DnsConfig) (sip tx_id sport : Z) (hostname : list byte) (deadline : Z)
    (rounds : list poll_round) (run : poll_run Z) : Prop := {
  dr_port : 49152 <= sport <= 65535;
  dr_count : zlen (pr_wire run) <= 3;
  dr_wire : Forall (fun w => query_packet w sip (nameserver_ip cfg) sport (dns_port cfg) tx_id hostname) (pr_wire run);
  dr_freed : Forall2 (fun r freed => freed ≡ₚ seq 0 (length (rd_rx r)))
               (take (length (pr_freed run)) rounds) (pr_freed run);
  dr_found : forall ip, pr_outcome run = PollResolved ip ->
    exists r m, r ∈ rounds /\ rd_test r < deadline /\ m ∈ rd_rx r /\ nb_segs m <= 1 /\
      reply_packet (mb_data m) tx_id (nameserver_ip cfg) (dns_port cfg) sport sip ip;
  dr_missed : pr_outcome run = PollTimeout ->
    Forall (fun r => Forall (fun m => forall ip, nb_segs m <= 1 ->
        ~ reply_packet (mb_data m) tx_id (nameserver_ip cfg) (dns_port cfg) sport sip ip) (rd_rx r))
      (take (length (pr_freed run)) rounds);
  dr_ends : Exists (fun r => deadline <= rd_test r) rounds -> pr_outcome run <> PollPending
}.

Section resolver.
Context (smac dmac : list byte) (sip : Z) (hostname : list byte) (cfg : DnsConfig).
Hypothesis (Hsm : zlen smac = 6) (Hdm : zlen dmac = 6) (Hsip : 0 <= sip < 2 ^ 32)
  (Hns : 0 <= nameserver_ip cfg < 2 ^ 32) (Hport : 0 <= dns_port cfg < 2 ^ 16).

(** The packet built for the query is one a receiver reads as that query. *)
Lemma build_dns_packet_query tx sport buf len f :
  hostname_ok hostname -> 49152 <= sport <= 65535 -> slice buf 0 len = Some (query_bytes tx hostname) -> room_ok f ->
  let frame := dns_frame smac dmac sip (nameserver_ip cfg) sport (dns_port cfg) (query_bytes tx hostname) in
  query_packet frame sip (nameserver_ip cfg) sport (dns_port cfg) tx hostname /\
  len <= kMaxDnsPacketLen /\
  (build_dns_packet (Alloc f) smac dmac sip (nameserver_ip cfg) sport (dns_port cfg) buf len = Some Freed \/
   exists m, build_dns_packet (Alloc f) smac dmac sip (nameserver_ip cfg) sport (dns_port cfg) buf len = Some (Built m) /\
     tx_data m = frame).
Proof.
  intros [Hh _] Hsp Hs Hf. pose proof (slice_zlen _ _ _ _ Hs) as Hlen. rewrite zlen_query in Hlen. cbv zeta.
  assert (0 <= sport < 2 ^ 16) as Hsp' by (change (2 ^ 16) with 65536; lia).
  split; [|split].
  - destruct (dns_frame_parse smac dmac sip (nameserver_ip cfg) sport (dns_port cfg) Hsm Hdm Hsip Hns Hsp' Hport
      (query_bytes tx hostname)) as (P & S26 & S30 & S34 & S36 & S42 & Hck);
      [rewrite zlen_query; unfold kMaxDnsPacketLen; lia|].
    exists (mkParsedUdp (Some 0) (Some 14) (Some 34) (Some 42) (zlen (query_bytes tx hostname))).
    split_and!; try done. by exists 42.
  - unfold kMaxDnsPacketLen. lia.
  - rewrite (build_dns_packet_frame smac dmac sip (nameserver_ip cfg) sport (dns_port cfg) Hsm Hdm Hsip Hns Hsp' Hport
      f buf len _ Hf Hs) by (unfold kMaxDnsPacketLen; lia).
    destruct (room f (42 + len)); [right; by eexists|by left].
Qed.

Lemma dns_loop_ok tx sport buf len deadline retry rounds :
  hostname_ok hostname -> 49152 <= sport <= 65535 ->
  slice buf 0 len = Some (query_bytes tx hostname) -> Forall round_ok rounds ->
  exists run, poll_loop
      (fun pool => build_dns_packet pool smac dmac sip (nameserver_ip cfg) sport (dns_port cfg) buf len)
      (dns_scan tx cfg sport sip 0) deadline retry 0 0 rounds = Some run /\
    dns_run_ok cfg sip tx sport hostname deadline rounds run.
Proof.
  intros Hok Hsp Hs Hrounds. pose proof (fun f => build_dns_packet_query tx sport buf len f Hok Hsp Hs) as Hb.
  cbv zeta in Hb. set (frame := dns_frame _ _ _ _ _ _ _) in Hb.
  destruct (Hb (mkFresh (fun _ => None) (0, 0, 0))) as (Hq & Hlen & _); [done|].
  destruct (poll_loop_spec (fun pool => build_dns_packet pool smac dmac sip (nameserver_ip cfg) sport (dns_port cfg) buf len)
    (dns_scan tx cfg sport sip 0)
    (fun m => try_parse_dns_packet (Some m) tx (nameserver_ip cfg) (dns_port cfg) sport sip) frame)
    with (deadline := deadline) (retry := retry) (rounds := rounds) (next := 0) (n := 0)
    as (run & E & [] & Hl); [| |done|lia|].
  - split; [unfold build_dns_packet; by rewrite (proj2 (Z.ltb_ge _ _)) by lia|]. intros f Hf. apply Hb, Hf.
  - intros pkts. apply dns_scan_spec.
  - exists run. split; [exact E|]. constructor; try done; try lia.
    + eapply list.Forall_impl; [exact re_wire|]. by intros w <-.
    + intros ip Hip. destruct (re_found ip Hip) as (r & m & Hr & Ht & Hm & [Hn Ha]%try_parse_accepts). by exists r, m.
    + intros Ho. eapply list.Forall_impl; [apply re_missed; by left|]. intros r Hr. eapply list.Forall_impl; [exact Hr|].
      cbn beta. intros m Ha ip Hm Hp. pose proof (proj2 (try_parse_accepts _ _ _ _ _ _ _) (conj Hm Hp)). congruence.
Qed.

(** The blocking resolver.  For every hostname, configuration, clock, source of
    randomness, allocation, transmission and reception, [resolve] is defined and ends in one
    of three ways.  A dotted-decimal hostname is its own answer.  It refuses with
    [InvalidConfig] only for an invalid configuration, an empty or unencodable hostname, a
    null mempool or a failed random source.  Otherwise it sends at most three packets, each
    a well-formed query for the hostname from an ephemeral port to the configured name
    server; releases every mbuf of every burst it polled exactly once; the address it
    returns is that of the first A record of a received reply from the name server to that
    port with the transaction's id; on a timeout no received packet was such a reply; and
    once the clock has passed the deadline it has ended. *)
Theorem dns_resolve_sound pool rnd_id rnd_port buf start rounds :
  (forall r, rnd_port = Some r -> 0 <= r) -> zlen buf = kMaxDnsPacketLen -> Forall round_ok rounds ->
  exists r, resolve pool smac dmac sip hostname cfg rnd_id rnd_port buf start rounds = Some r /\
    match r with
    | DnsNow ip => ip = parse_ipv4 (Some hostname) /\ ip <> 0
    | DnsRefused e => e = InvalidConfig /\
        (dns_validate cfg <> None \/ ~ hostname_ok hostname \/ pool = false \/ rnd_id = None \/ rnd_port = None)
    | DnsRun run => hostname_ok hostname /\ exists id sport, rnd_id = Some id /\
        dns_run_ok cfg sip (hton16 id) sport hostname (start + timeout_ms cfg * 1000000) rounds run
    end.
Proof.
  intros Hrnd Hbuf Hrounds. unfold resolve.
  destruct (Z.eqb_spec (parse_ipv4 (Some hostname)) 0); cbn [negb]; [|by eexists].
  destruct (dns_validate cfg); [eexists; split; [done|]; split; [done|by left]|].
  destruct (Z.eqb_spec (zlen hostname) 0) as [Hz|Hz].
  { eexists. split; [done|]. split; [done|]. right; left. rewrite (zlen_nil_inv hostname) by lia.
    intros [_ H]. inversion H as [|? ? H1]. unfold label_ok in H1. change (zlen (@nil byte)) with 0 in H1. lia. }
  destruct pool; cbn [negb]; [|eexists; split; [done|]; split; [done|by tauto]].
  destruct rnd_id as [id|]; [|eexists; split; [done|]; split; [done|by tauto]].
  pose proof (select_port_cases rnd_port Hrnd) as Hsel.
  destruct (select_dns_src_port rnd_port) as [sport|]; [|eexists; split; [done|]; split; [done|by tauto]].
  destruct (build_dns_query_exact buf (hton16 id) hostname Hbuf) as [Hq1 Hq2].
  destruct (decide (hostname_ok hostname)) as [Hok|Hno].
  - rewrite (Hq1 Hok). cbn [mbind option_bind]. pose proof (zlen_nonneg hostname).
    rewrite (proj2 (Z.eqb_neq _ 0)) by lia.
    edestruct (dns_loop_ok (hton16 id) sport) as (run & E & Hrun);
      [exact Hok|exact Hsel|apply (slice_mid []); [done|by rewrite zlen_query]|exact Hrounds|].
    cbn [app] in E. erewrite E. cbn [mbind option_bind]. eexists. split; [reflexivity|]. split; [done|].
    exists id, sport. by split.
  - destruct (Hq2 Hno) as (o & ->). cbn [mbind option_bind]. eexists. split; [reflexivity|]. split; [done|]. by right; left.
Qed.

End resolver.

(** ** Replies as a name server writes them *)

(** The owner of a record: the question's name by a compression pointer, or spelt out. *)
Inductive owner := AtQuestion | Spelt (ls : list (list byte)).

Record answer := mkAnswer { an_owner : owner; an_type : Z; an_class : Z; an_ttl : Z; an_rdata : list byte }.

Definition owner_bytes (o : owner) : list byte :=
  match o with AtQuestion => [xc0; x0c] | Spelt ls => wire_name ls end.

Definition answer_bytes (a : answer) : list byte :=
  owner_bytes (an_owner a) ++ be_bytes 2 (an_type a) ++ be_bytes 2 (an_class a) ++ be_bytes 4 (an_ttl a) ++
  be_bytes 2 (zlen (an_rdata a)) ++ an_rdata a.

(** The reply to the query for the name [ls]: its header (response, no error), the question
    repeated, the answers, and whatever follows them. *)
Definition reply_header (tx_id flags an : Z) : list byte :=
  le_bytes 2 tx_id ++ be_bytes 2 flags ++ be_bytes 2 1 ++ be_bytes 2 an ++ repeat x00 4.

Definition reply_bytes (tx_id flags : Z) (ls : list (list byte)) (answers : list answer) (more : list byte) : list byte :=
  reply_header tx_id flags (zlen answers) ++ wire_name ls ++ be_bytes 2 kDnsTypeA ++ be_bytes 2 kDnsClassIn ++ concat (map answer_bytes answers) ++ more.

Record answer_ok (a : answer) : Prop := {
  ao_type : 0 <= an_type a < 2 ^ 16;
  ao_class : 0 <= an_class a < 2 ^ 16;
  ao_rdata : zlen (an_rdata a) <= kMaxDnsPacketLen;
  ao_owner : forall ls, an_owner a = Spelt ls -> Forall label_ok ls /\ (length ls <= 31)%nat
}.

Definition answer_is_a (a : answer) : Prop := is_a (an_type a) (an_class a) (an_rdata a).

Lemma load8_mid pre b post off : off = zlen pre -> load8 (pre ++ b :: post) off = Some (b2z b).
Proof. intros ->. unfold load8. by rewrite rd_app_r. Qed.

Lemma load16_mid pre v post off : 0 <= v < 2 ^ 16 -> off = zlen pre -> load_ntoh16 (pre ++ be_bytes 2 v ++ post) off = Some v.
Proof. intros Hv ->. apply load_of_slice16; [done|]. by rewrite slice_mid. Qed.

Lemma name_at_wire ls : forall pre post, Forall label_ok ls ->
  name_at (pre ++ wire_name ls ++ post) (S (length ls)) (zlen pre) ls (zlen pre + zlen (wire_name ls)).
Proof.
  induction ls as [|l ls IH]; intros pre post Hf.
  - apply name_root. by apply (load8_mid pre x00).
  - inversion Hf as [|? ? Hl Hf']; subst. unfold label_ok in Hl. rewrite wire_name_cons. cbn [app length].
    specialize (IH (pre ++ z2b (zlen l) :: l) post Hf').
    rewrite zlen_cons, zlen_app. rewrite zlen_app, zlen_cons, <- app_assoc in IH. cbn [app] in IH.
    replace (zlen pre + (zlen l + zlen (wire_name ls) + 1)) with (zlen pre + (zlen l + 1) + zlen (wire_name ls)) by lia.
    rewrite <- app_assoc. eapply (name_label _ _ _ (zlen l)).
    + rewrite (load8_mid pre) by done. by rewrite b2z_z2b_small by lia.
    + lia.
    + apply (slice_at _ (pre ++ [z2b (zlen l)]) l (wire_name ls ++ post)); [by rewrite <- app_assoc| |done].
      rewrite zlen_app. by change (zlen [_]) with 1.
    + replace (zlen pre + 1 + zlen l) with (zlen pre + (zlen l + 1)) by lia. exact IH.
Qed.

Section reply.
Context (tx_id flags : Z) (ls : list (list byte)) (answers : list answer) (more : list byte).

#[local] Abbreviation data := (reply_bytes tx_id flags ls answers more).

Lemma question_name : Forall label_ok ls -> name_at data (S (length ls)) 12 ls (12 + zlen (wire_name ls)).
Proof. intros H. exact (name_at_wire ls (reply_header tx_id flags (zlen answers)) _ H). Qed.

(** The record written behind [pre]. *)
Lemma record_written pre a post : data = pre ++ answer_bytes a ++ post -> answer_ok a ->
  Forall label_ok ls -> (length ls <= 30)%nat ->
  exists e, record_at data (zlen pre) e (an_type a) (an_class a) (an_rdata a) /\
    e + 10 + zlen (an_rdata a) = zlen pre + zlen (answer_bytes a).
Proof.
  intros Hd [] Hls Hn. pose proof (question_name Hls) as Hq. unfold answer_bytes in *.
  exists (zlen pre + zlen (owner_bytes (an_owner a))). split.
  2: { rewrite !zlen_app, !zlen_be_bytes. lia. }
  assert (name_ends data (zlen pre) (zlen pre + zlen (owner_bytes (an_owner a)))) as Hname.
  { unfold name_ends, kMaxIterations. destruct (an_owner a) as [|ls']; cbn [owner_bytes] in *.
    - exists (S (S (length ls))), ls. split; [|lia]. change (zlen [xc0; x0c]) with 2.
      eapply (name_pointer _ _ _ 192 12); [|lia| |exact Hq].
      + rewrite Hd, <- !app_assoc. by apply (load8_mid pre xc0).
      + rewrite Hd, <- !app_assoc. change ([xc0; x0c] ++ ?x) with ([xc0] ++ (x0c :: x)).
        rewrite (app_assoc pre). apply (load8_mid (pre ++ [xc0]) x0c). rewrite zlen_app. by change (zlen [xc0]) with 1.
    - destruct (ao_owner0 ls' eq_refl) as [Hf Hl]. exists (S (length ls')), ls'. split; [|lia].
      rewrite Hd, <- !app_assoc. by apply name_at_wire. }
  set (o := owner_bytes (an_owner a)) in *. unfold kMaxDnsPacketLen in *. pose proof (zlen_nonneg (an_rdata a)).
  constructor; try done; rewrite Hd, <- !app_assoc.
  - rewrite (app_assoc pre). apply load16_mid; [done|]. by rewrite zlen_app.
  - rewrite (app_assoc pre), (app_assoc (pre ++ o)). apply load16_mid; [done|]. by rewrite !zlen_app, zlen_be_bytes.
  - rewrite (app_assoc pre), (app_assoc (pre ++ o)), (app_assoc ((pre ++ o) ++ _)), (app_assoc (((pre ++ o) ++ _) ++ _)).
    apply load16_mid; [change (2 ^ 16) with 65536; lia|]. rewrite !zlen_app, !zlen_be_bytes. lia.
  - rewrite (app_assoc pre), (app_assoc (pre ++ o)), (app_assoc ((pre ++ o) ++ _)), (app_assoc (((pre ++ o) ++ _) ++ _)),
      (app_assoc ((((pre ++ o) ++ _) ++ _) ++ _)).
    apply slice_mid; [|done]. rewrite !zlen_app, !zlen_be_bytes. lia.
Qed.
Lemma answers_written before a after post : answer_is_a a -> Forall (fun b => ~ answer_is_a b) before ->
  Forall answer_ok (before ++ a :: after) -> Forall label_ok ls -> (length ls <= 30)%nat ->
  forall pre, data = pre ++ concat (map answer_bytes (before ++ a :: after)) ++ post ->
  first_a data (length (before ++ a :: after)) (zlen pre) (be_val (an_rdata a)).
Proof.
  intros Ha Hb Hok Hls Hn. induction before as [|b before IH]; intros pre Hd; cbn [app map concat length] in *;
    rewrite <- app_assoc in Hd; inversion Hok as [|? ? Hok1 Hok']; subst.
  - destruct (record_written pre a _ Hd Hok1 Hls Hn) as (e & He & _). by eapply a_here.
  - inversion Hb as [|? ? Hb1 Hb']; subst. destruct (record_written pre b _ Hd Hok1 Hls Hn) as (e & He & Ee).
    eapply a_later; [exact He|done|]. rewrite Ee, <- zlen_app. apply IH; [done|done|].
    by rewrite Hd, <- !app_assoc.
Qed.

Lemma header_loads : 0 <= tx_id < 2 ^ 16 -> 0 <= flags < 2 ^ 16 -> zlen answers <= 64 ->
  load16 data 0 = Some tx_id /\ load_ntoh16 data 2 = Some flags /\ load_ntoh16 data 4 = Some 1 /\
  load_ntoh16 data 6 = Some (zlen answers).
Proof.
  intros Ht Hf Ha. pose proof (zlen_nonneg answers). unfold reply_bytes, reply_header. rewrite <- !app_assoc. split_and!.
  - unfold load16. erewrite (slice_at _ [] (le_bytes 2 tx_id)) by done. cbn [mbind option_bind]. f_equal. rewrite le_val_be_rev.
    change (rev (le_bytes 2 tx_id)) with ([z2b (Z.shiftr tx_id 8)] ++ [z2b tx_id]). rewrite be_val_snoc.
    change [z2b (Z.shiftr tx_id 8)] with ([] ++ [z2b (Z.shiftr tx_id 8)]). rewrite be_val_snoc, !b2z_z2b.
    change (be_val []) with 0. rewrite Z.shiftr_div_pow2 by lia. change (2 ^ 8) with 256. change (2 ^ 16) with 65536 in Ht.
    rewrite (Z.mod_small (tx_id / 256)) by (split; [apply Z.div_pos|apply Z.div_lt_upper_bound]; lia).
    pose proof (Z.div_mod tx_id 256). lia.
  - by apply (load16_mid (le_bytes 2 tx_id)).
  - rewrite (app_assoc (le_bytes 2 tx_id)). by apply load16_mid.
  - rewrite (app_assoc (le_bytes 2 tx_id)), (app_assoc (le_bytes 2 tx_id ++ _)).
    apply load16_mid; [change (2 ^ 16) with 65536; lia|done].
Qed.

Lemma question_end : Forall label_ok ls ->
  (length ls < 32)%nat -> questions_at data 1 12 (12 + zlen (wire_name ls) + 4).
Proof.
  intros Hls Hn. eapply question_at; [exists (S (length ls)), ls; split; [by apply question_name|unfold kMaxIterations; lia]| |constructor].
  unfold reply_bytes. rewrite !zlen_app, !zlen_be_bytes. change (zlen (reply_header tx_id flags (zlen answers))) with 12.
  pose proof (zlen_nonneg (concat (map answer_bytes answers))). pose proof (zlen_nonneg more). lia.
Qed.
End reply.

(** Replies of a conforming name server are understood.  For every hostname the encoder
    accepts with at most 30 labels and every reply that repeats its question and lists up to
    64 records -- CNAMEs and anything else first, their owners spelt out (up to 31 labels)
    or compressed to a pointer at the question -- [parse_dns_response] returns the address
    of the first A record, whatever sections follow the answers. *)
Theorem dns_reply_roundtrip hostname tx_id flags before a after more :
  hostname_ok hostname -> (length (split_dots hostname) <= 30)%nat ->
  0 <= tx_id < 2 ^ 16 -> 0 <= flags < 2 ^ 16 -> Z.testbit flags 15 = true -> flags mod 16 = 0 ->
  zlen (before ++ a :: after) <= 64 -> Forall answer_ok (before ++ a :: after) ->
  Forall (fun b => ~ answer_is_a b) before -> answer_is_a a ->
  parse_dns_response (reply_bytes tx_id flags (split_dots hostname) (before ++ a :: after) more) tx_id =
  Some (Ok (be_val (an_rdata a))).
Proof.
  intros [_ Hls] Hn Ht Hf Hqr Hrc Hc Hok Hb Ha. set (answers := before ++ a :: after) in *.
  destruct (parse_dns_response_exact (reply_bytes tx_id flags (split_dots hostname) answers more) tx_id) as (r & -> & Hr).
  f_equal. apply Hr. destruct (header_loads tx_id flags (split_dots hostname) answers more Ht Hf Hc) as (L0 & L2 & L4 & L6).
  split; [done|]. exists flags, 1, (zlen answers), (12 + zlen (wire_name (split_dots hostname)) + 4).
  split_and!; try done; try lia.
  - subst answers. unfold zlen. rewrite length_app. cbn [length]. lia.
  - unfold reply_bytes. rewrite zlen_app. change (zlen (reply_header tx_id flags (zlen answers))) with 12.
    match goal with |- _ <= 12 + zlen ?x => pose proof (zlen_nonneg x) end. lia.
  - apply question_end; [done|lia].
  - replace (12 + zlen (wire_name (split_dots hostname)) + 4) with (zlen (reply_header tx_id flags (zlen answers) ++
      wire_name (split_dots hostname) ++ be_bytes 2 kDnsTypeA ++ be_bytes 2 kDnsClassIn))
      by (rewrite !zlen_app, !zlen_be_bytes; change (zlen (reply_header tx_id flags (zlen answers))) with 12; lia).
    unfold zlen at 1. rewrite Nat2Z.id. eapply answers_written; try done.
    unfold reply_bytes. rewrite <- !app_assoc. reflexivity.
Qed.

(** The encoder accepts hostnames of up to 127 labels, but every reply that repeats a
    question of 32 or more labels is rejected: the name is longer than the iterations of
    [skip_dns_name]. *)
Lemma dns_deep_name_rejected hostname tx_id flags answers more :
  hostname_ok hostname -> (32 <= length (split_dots hostname))%nat ->
  0 <= tx_id < 2 ^ 16 -> 0 <= flags < 2 ^ 16 -> zlen answers <= 64 ->
  forall ip, parse_dns_response (reply_bytes tx_id flags (split_dots hostname) answers more) tx_id <> Some (Ok ip).
Proof.
  intros [_ Hls] Hn Ht Hf Hc ip E.
  destruct (parse_dns_response_exact (reply_bytes tx_id flags (split_dots hostname) answers more) tx_id) as (r & Er & Hr).
  rewrite E in Er. injection Er as <-. destruct (header_loads tx_id flags (split_dots hostname) answers more Ht Hf Hc)
    as (_ & _ & L4 & _).
  destruct (proj1 (Hr ip) eq_refl) as (_ & fl & qd & an & off & _ & _ & _ & E4 & _ & _ & _ & _ & Hq & _).
  assert (qd = 1) as -> by congruence. change (Z.to_nat 1) with 1%nat in Hq.
  inversion Hq as [|? ? e ? (n & ls & Hna & Hle) _ _]; subst. unfold kMaxIterations in Hle.
  destruct (name_at_det _ _ _ _ _ (question_name tx_id flags (split_dots hostname) answers more Hls) _ _ _ Hna) as (<- & _). lia.
Qed.

(** ** A resolution of "eph.io" *)

Definition demo_host : list byte := [x65; x70; x68; x2e; x69; x6f].
Definition demo_smac : list byte := [x02; x00; x00; x00; x00; x01].
Definition demo_gw : list byte := [x02; x00; x00; x00; x00; xfe].

Definition demo_cname : answer := mkAnswer AtQuestion 5 1 60 [x01; x61; xc0; x0c].
Definition demo_a : answer := mkAnswer (Spelt [[x61]; [x69; x6f]]) kDnsTypeA kDnsClassIn 60 [x01; x02; x03; x04].

Definition demo_dns_reply : list byte :=
  reply_bytes (hton16 0xBEEF) 0x8180 (split_dots demo_host) [demo_cname; demo_a] [].

Definition demo_dns_rounds : list poll_round :=
  [mkRound 0 0 (Some demo_fresh) true [];
   mkRound 5 6 None true
     [mkMbuf 1 [x00]; mkMbuf 1 (dns_frame demo_gw demo_smac 0x08080808 0x0A000001 53 50000 demo_dns_reply)]].

Example dns_demo_resolves :
  match resolve true demo_smac demo_gw 0x0A000001 demo_host default_dns_config (Some 0xBEEF) (Some 848)
          (repeat x00 512) 0 demo_dns_rounds with
  | Some (DnsRun run) => (length (pr_wire run), pr_freed run, pr_outcome run)
  | _ => (O, [], PollRefused)
  end = (1%nat, [[]; [0; 1]%nat], PollResolved 0x01020304).
Proof. vm_compute. reflexivity. Qed.

Lemma dns_resolve_sound_witness :
  exists r, resolve true demo_smac demo_gw 0x0A000001 demo_host default_dns_config (Some 0xBEEF) (Some 848)
      (repeat x00 512) 0 demo_dns_rounds = Some r /\
    match r with
    | DnsNow ip => ip = parse_ipv4 (Some demo_host) /\ ip <> 0
    | DnsRefused e => e = InvalidConfig /\
        (dns_validate default_dns_config <> None \/ ~ hostname_ok demo_host \/ true = false \/ Some 0xBEEF = None \/
         Some 848 = None)
    | DnsRun run => hostname_ok demo_host /\ exists id sport, Some 0xBEEF = Some id /\
        dns_run_ok default_dns_config 0x0A000001 (hton16 id) sport demo_host (0 + 3000 * 1000000) demo_dns_rounds run
    end.
Proof.
  apply (dns_resolve_sound demo_smac demo_gw 0x0A000001 demo_host default_dns_config); try done.
  - intros r [= <-]. done.
  - constructor; [|constructor; [|constructor]]; intros f; cbn [rd_alloc]; [|discriminate].
    intros [= <-]. apply demo_room_ok.
Defined.

Lemma demo_cname_ok : answer_ok demo_cname.
Proof. constructor; cbn; try done. Qed.

Lemma demo_a_ok : answer_ok demo_a.
Proof. constructor; cbn; try done. intros ls [= <-]. split; [by repeat constructor|cbn; lia]. Qed.

Lemma dns_reply_roundtrip_witness :
  parse_dns_response demo_dns_reply (hton16 0xBEEF) = Some (Ok (be_val (an_rdata demo_a))).
Proof.
  apply (dns_reply_roundtrip demo_host (hton16 0xBEEF) 0x8180 [demo_cname] demo_a [] []); try done.
  - apply (bool_decide_unpack _). by vm_compute.
  - vm_compute. lia.
  - constructor; [apply demo_cname_ok|constructor; [apply demo_a_ok|constructor]].
  - constructor; [|constructor]. intros (H & _). discriminate H.
Defined.
