(* ===== verification/RouteTable.v ===== *)
(** * The routing table of the DPDK poller

    poller.hpp of eph-net-dpdk: [DpdkPoller] keeps its registrations in a packed array and
    routes packets by an open-addressed hash table of 128 slots with linear probing,
    tombstones, and indices into the array that are shifted when an entry is removed.

    [registry_ok] is the invariant that ties the table to the array, kept by [add] and
    [remove]; [find_route_spec]: a lookup finds exactly the entry registered for the flow. *)

From S2P Require Import Prelude Codecs PacketCore.

#[local] Open Scope Z_scope.

(** ** Flows and slots *)

(** The 5-tuple, as the pollable sees it. *)
Record flow := mkFlow {
  fl_src_ip : Z;
  fl_dst_ip : Z;
  fl_src_port : Z;
  fl_dst_port : Z;
  fl_proto : Z
}.

#[global] Instance flow_eq_dec : EqDecision flow.
Proof. solve_decision. Defined.

Definition mix (h v : Z) : Z := u64 (Z.lxor h v * 1099511628211).

Definition hash_tuple (f : flow) : Z :=
  let h := 14695981039346656037 in
  let h := mix h (Z.lxor (fl_src_ip f) (fl_dst_ip f)) in
  let h := mix h (fl_src_ip f + fl_dst_ip f) in
  let h := mix h (Z.lxor (fl_src_port f) (fl_dst_port f)) in
  let h := mix h (fl_src_port f + fl_dst_port f) in
  let h := mix h (fl_proto f) in
  u32 (Z.lxor h (Z.shiftr h 32)).

Inductive slot_state := kEmpty | kOccupied | kTombstone.

#[global] Instance slot_state_eq_dec : EqDecision slot_state.
Proof. solve_decision. Defined.

Definition kInvalidSlot : Z := 0xFF.
Definition kMaxConnHard : Z := 64.
Definition kRouteTableSize : Z := 128.
Definition kRouteTableMask : Z := kRouteTableSize - 1.

Record RouteSlot := mkSlot {
  rs_state : slot_state;
  rs_idx : Z;
  rs_flow : flow;
  rs_hash : Z
}.

Definition no_flow : flow := mkFlow 0 0 0 0 0.
Definition empty_slot : RouteSlot := mkSlot kEmpty kInvalidSlot no_flow 0.

(** A registration; [pe_obj] names the object. *)
Record PollableEntry := mkEntry {
  pe_obj : nat;
  pe_hash : Z;
  pe_flow : flow
}.

(** ** The loops over the table *)

(** The comparison of the loops: the cached hash, then the fields. *)
Definition slot_matches (s : RouteSlot) (hash : Z) (f : flow) : bool :=
  bool_decide (rs_state s = kOccupied) && (rs_hash s =? hash) && bool_decide (rs_flow s = f).

(** [steps] probes left; the index found and [last_lookup_had_collision_]. *)
Fixpoint find_loop (steps : nat) (t : list RouteSlot) (idx hash : Z) (f : flow) (collision : bool)
    : option (Z * bool) :=
  match steps with
  | O => Some (kInvalidSlot, collision)
  | S steps =>
    s ← t !! Z.to_nat idx;
    if bool_decide (rs_state s = kEmpty) then Some (kInvalidSlot, collision) else
    if slot_matches s hash f then Some (rs_idx s, collision) else
    let collision := collision || (bool_decide (rs_state s = kOccupied) && (rs_hash s =? hash)) in
    find_loop steps t (Z.land (idx + 1) kRouteTableMask) hash f collision
  end.

Definition find_route_slot_ (t : list RouteSlot) (hash : Z) (f : flow) : option (Z * bool) :=
  find_loop (Z.to_nat kRouteTableSize) t (Z.land hash kRouteTableMask) hash f false.

Fixpoint insert_loop (steps : nat) (t : list RouteSlot) (idx hash : Z) (f : flow) (entry_idx : Z)
    : option (list RouteSlot) :=
  match steps with
  | O => Some t
  | S steps =>
    s ← t !! Z.to_nat idx;
    if bool_decide (rs_state s = kEmpty) || bool_decide (rs_state s = kTombstone)
    then Some (<[Z.to_nat idx := mkSlot kOccupied (u8 entry_idx) f hash]> t)
    else insert_loop steps t (Z.land (idx + 1) kRouteTableMask) hash f entry_idx
  end.

Definition insert_route_ (t : list RouteSlot) (hash : Z) (f : flow) (entry_idx : Z) : option (list RouteSlot) :=
  insert_loop (Z.to_nat kRouteTableSize) t (Z.land hash kRouteTableMask) hash f entry_idx.

Fixpoint tombstone_loop (steps : nat) (t : list RouteSlot) (idx hash : Z) (f : flow) : option (list RouteSlot) :=
  match steps with
  | O => Some t
  | S steps =>
    s ← t !! Z.to_nat idx;
    if bool_decide (rs_state s = kEmpty) then Some t else
    if slot_matches s hash f
    then Some (<[Z.to_nat idx := mkSlot kTombstone kInvalidSlot (rs_flow s) (rs_hash s)]> t)
    else tombstone_loop steps t (Z.land (idx + 1) kRouteTableMask) hash f
  end.

Definition tombstone_route_ (t : list RouteSlot) (hash : Z) (f : flow) : option (list RouteSlot) :=
  tombstone_loop (Z.to_nat kRouteTableSize) t (Z.land hash kRouteTableMask) hash f.

Definition shift_slot (removed_idx : Z) (s : RouteSlot) : RouteSlot :=
  if bool_decide (rs_state s = kOccupied) && (removed_idx <? rs_idx s) && negb (rs_idx s =? kInvalidSlot)
  then mkSlot (rs_state s) (rs_idx s - 1) (rs_flow s) (rs_hash s) else s.

Definition shift_down_route_indices_above_ (removed_idx : Z) (t : list RouteSlot) : list RouteSlot :=
  map (shift_slot removed_idx) t.

(** ** Registration *)

(** [reg_entries] is the packed prefix of [entries_], [n_entries_] its length. *)
Record registry := mkRegistry {
  reg_max : Z;
  reg_entries : list PollableEntry;
  reg_table : list RouteSlot
}.

(** [create()]: the policy knob is validated. *)
Definition registry_create (max_connections : Z) : expected registry Error :=
  if (max_connections =? 0) || (kMaxConnHard <? max_connections) then Err InvalidConfig
  else Ok (mkRegistry max_connections [] (repeat empty_slot 128)).

(** [obj]: the pointer, [None] for null; [f] the tuple it reports. *)
Definition add (obj : option nat) (f : flow) (r : registry) : option (expected unit Error * registry) :=
  match obj with
  | None => Some (Err InvalidConfig, r)
  | Some o =>
    if reg_max r <=? zlen (reg_entries r) then Some (Err OutOfMemory, r) else
    let hash := hash_tuple f in
    if existsb (fun e => Nat.eqb (pe_obj e) o) (reg_entries r) then Some (Err InvalidConfig, r) else
    '(slot, _) ← find_route_slot_ (reg_table r) hash f;
    if negb (slot =? kInvalidSlot) then Some (Err InvalidConfig, r) else
    let entry_idx := zlen (reg_entries r) in
    t ← insert_route_ (reg_table r) hash f entry_idx;
    Some (Ok tt, mkRegistry (reg_max r) (reg_entries r ++ [mkEntry o hash f]) t)
  end.

(** The scan of [remove] from index [i], [rest] the entries from there. *)
Fixpoint remove_scan (o : nat) (r : registry) (i : nat) (rest : list PollableEntry)
    : option (expected unit Error * registry) :=
  match rest with
  | [] => Some (Err NotFound, r)
  | e :: rest =>
    if negb (Nat.eqb (pe_obj e) o) then remove_scan o r (S i) rest else
    t ← tombstone_route_ (reg_table r) (pe_hash e) (pe_flow e);
    let entries := delete i (reg_entries r) in
    let t := if Z.of_nat i <? zlen entries then shift_down_route_indices_above_ (u8 (Z.of_nat i)) t else t in
    Some (Ok tt, mkRegistry (reg_max r) entries t)
  end.

Definition remove (obj : option nat) (r : registry) : option (expected unit Error * registry) :=
  match obj with
  | None => Some (Err InvalidConfig, r)
  | Some o => remove_scan o r 0 (reg_entries r)
  end.

(** ** Probe sequences *)

(** The slot [d] steps behind the home of [hash]. *)
Definition pos (hash d : Z) : nat := Z.to_nat ((hash + d) mod 128).

Lemma home_pos hash : Z.to_nat (Z.land hash kRouteTableMask) = pos hash 0.
Proof. unfold pos, kRouteTableMask, kRouteTableSize. change (128 - 1) with (2 ^ 7 - 1). by rewrite land_mask, Z.add_0_r by lia. Qed.

Lemma pos_lt hash d : (pos hash d < 128)%nat.
Proof. unfold pos. pose proof (Z.mod_pos_bound (hash + d) 128). lia. Qed.

(** Every slot is reached within 128 steps, and only once. *)
Lemma pos_surj hash i : (i < 128)%nat -> exists d, 0 <= d < 128 /\ pos hash d = i.
Proof.
  intros Hi. exists ((Z.of_nat i - hash) mod 128). split; [apply Z.mod_pos_bound; lia|].
  unfold pos. rewrite Z.add_mod_idemp_r by lia. replace (hash + (Z.of_nat i - hash)) with (Z.of_nat i) by lia.
  rewrite Z.mod_small by lia. lia.
Qed.

Lemma pos_inj hash d d' : 0 <= d < 128 -> 0 <= d' < 128 -> pos hash d = pos hash d' -> d = d'.
Proof.
  intros Hd Hd' E. unfold pos in E. pose proof (Z.mod_pos_bound (hash + d) 128). pose proof (Z.mod_pos_bound (hash + d') 128).
  assert ((hash + d) mod 128 = (hash + d') mod 128) as E' by lia.
  pose proof (Z.div_mod (hash + d) 128). pose proof (Z.div_mod (hash + d') 128).
  assert (d - d' = 128 * ((hash + d) / 128 - (hash + d') / 128)) by lia. nia.
Qed.

(** The first slot of the probe sequence from step [d] on where [stop] holds. *)
Inductive probes (t : list RouteSlot) (hash : Z) (stop : RouteSlot -> bool) : Z -> option (Z * RouteSlot) -> Prop :=
| probes_over : probes t hash stop 128 None
| probes_stop d s : 0 <= d < 128 -> t !! pos hash d = Some s -> stop s = true -> probes t hash stop d (Some (d, s))
| probes_next d s r : 0 <= d < 128 -> t !! pos hash d = Some s -> stop s = false -> probes t hash stop (d + 1) r ->
    probes t hash stop d r.

(** The index the loops keep is the position after [d] steps. *)
Definition probing (hash d idx : Z) : Prop := Z.to_nat idx = pos hash d /\ 0 <= idx.

Lemma probing_start hash : probing hash 0 (Z.land hash kRouteTableMask).
Proof.
  split; [apply home_pos|]. unfold kRouteTableMask, kRouteTableSize. change (128 - 1) with (2 ^ 7 - 1).
  rewrite land_mask by lia. apply Z.mod_pos_bound. lia.
Qed.

Lemma probing_next hash d idx : probing hash d idx -> probing hash (d + 1) (Z.land (idx + 1) kRouteTableMask).
Proof.
  intros [E H]. unfold kRouteTableMask, kRouteTableSize, probing. change (128 - 1) with (2 ^ 7 - 1). rewrite land_mask by lia.
  change (2 ^ 7) with 128. pose proof (Z.mod_pos_bound (idx + 1) 128). split; [|lia].
  unfold pos in *. pose proof (Z.mod_pos_bound (hash + d) 128). assert (idx = (hash + d) mod 128) as -> by lia.
  rewrite Z.add_mod_idemp_l by lia. do 2 f_equal. lia.
Qed.

Lemma probes_exist t hash stop n : length t = 128%nat -> forall d, 0 <= d -> Z.of_nat n = 128 - d ->
  exists r, probes t hash stop d r.
Proof.
  intros Ht. induction n as [|n IH]; intros d Hd Hn.
  - exists None. replace d with 128 by lia. constructor.
  - destruct (lookup_lt_is_Some_2 t (pos hash d)) as [s Hs]; [rewrite Ht; apply pos_lt|].
    destruct (stop s) eqn:E; [eexists; eapply probes_stop; [lia|done|done]|].
    destruct (IH (d + 1)) as [r Hr]; [lia..|]. exists r. eapply probes_next; [lia|done|done|done].
Qed.

Lemma probes_range t hash stop d r : probes t hash stop d r ->
  match r with
  | None => forall k, d <= k < 128 -> exists s, t !! pos hash k = Some s /\ stop s = false
  | Some (e, s) => d <= e < 128 /\ t !! pos hash e = Some s /\ stop s = true /\
      forall k, d <= k < e -> exists s', t !! pos hash k = Some s' /\ stop s' = false
  end.
Proof.
  induction 1 as [|d s Hd Hs Hst|d s r Hd Hs Hst _ IH].
  - intros k Hk. lia.
  - split_and!; try done; try lia. 
  - destruct r as [[e s']|].
    + destruct IH as (He & Es & Est & Hb). split_and!; try done; try lia. intros k Hk.
      destruct (decide (k = d)) as [->|]; [by exists s|apply Hb; lia].
    + intros k Hk. destruct (decide (k = d)) as [->|]; [by exists s|apply IH; lia].
Qed.

Definition stops_find (hash : Z) (f : flow) (s : RouteSlot) : bool :=
  bool_decide (rs_state s = kEmpty) || slot_matches s hash f.

Definition stops_free (s : RouteSlot) : bool :=
  bool_decide (rs_state s = kEmpty) || bool_decide (rs_state s = kTombstone).

Lemma find_loop_probes t hash f d r : probes t hash (stops_find hash f) d r ->
  forall n idx c, Z.of_nat n = 128 - d -> probing hash d idx ->
  exists c', find_loop n t idx hash f c =
    Some (match r with Some (_, s) => if bool_decide (rs_state s = kEmpty) then kInvalidSlot else rs_idx s | None => kInvalidSlot end, c').
Proof.
  induction 1 as [|d s Hd Hs Hst|d s r Hd Hs Hst _ IH]; intros n idx c Hn Hp.
  - assert (n = O) as -> by lia. by eexists.
  - destruct n as [|n]; [lia|]. cbn [find_loop]. rewrite (proj1 Hp), Hs. cbn [mbind option_bind].
    unfold stops_find in Hst. case_bool_decide; [by eexists|]. cbn [orb] in Hst. rewrite Hst. by eexists.
  - destruct n as [|n]; [lia|]. cbn [find_loop]. rewrite (proj1 Hp), Hs. cbn [mbind option_bind].
    unfold stops_find in Hst. apply orb_false_iff in Hst as [-> ->]. apply IH; [lia|]. by apply probing_next.
Qed.

Lemma insert_loop_probes t hash d r : probes t hash stops_free d r ->
  forall n idx f e, Z.of_nat n = 128 - d -> probing hash d idx ->
  insert_loop n t idx hash f e =
    Some (match r with Some (k, _) => <[pos hash k := mkSlot kOccupied (u8 e) f hash]> t | None => t end).
Proof.
  induction 1 as [|d s Hd Hs Hst|d s r Hd Hs Hst _ IH]; intros n idx f e Hn Hp.
  - by assert (n = O) as -> by lia.
  - destruct n as [|n]; [lia|]. cbn [insert_loop]. rewrite (proj1 Hp), Hs. cbn [mbind option_bind].
    unfold stops_free in Hst. by rewrite Hst.
  - destruct n as [|n]; [lia|]. cbn [insert_loop]. rewrite (proj1 Hp), Hs. cbn [mbind option_bind].
    unfold stops_free in Hst. rewrite Hst. apply IH; [lia|]. by apply probing_next.
Qed.

Lemma tombstone_loop_probes t hash f d r : probes t hash (stops_find hash f) d r ->
  forall n idx, Z.of_nat n = 128 - d -> probing hash d idx ->
  tombstone_loop n t idx hash f =
    Some (match r with
          | Some (k, s) => if bool_decide (rs_state s = kEmpty) then t
                           else <[pos hash k := mkSlot kTombstone kInvalidSlot (rs_flow s) (rs_hash s)]> t
          | None => t
          end).
Proof.
  induction 1 as [|d s Hd Hs Hst|d s r Hd Hs Hst _ IH]; intros n idx Hn Hp.
  - by assert (n = O) as -> by lia.
  - destruct n as [|n]; [lia|]. cbn [tombstone_loop]. rewrite (proj1 Hp), Hs. cbn [mbind option_bind].
    unfold stops_find in Hst. case_bool_decide; [done|]. cbn [orb] in Hst. by rewrite Hst.
  - destruct n as [|n]; [lia|]. cbn [tombstone_loop]. rewrite (proj1 Hp), Hs. cbn [mbind option_bind].
    unfold stops_find in Hst. apply orb_false_iff in Hst as [-> ->]. apply IH; [lia|]. by apply probing_next.
Qed.

(** ** The invariant *)

(** Every occupied slot caches an entry of the array and can be reached: no slot between its
    home and itself is empty.  Every entry has exactly one slot. *)
Record registry_ok (r : registry) : Prop := {
  ro_max : 1 <= reg_max r <= kMaxConnHard;
  ro_len : zlen (reg_entries r) <= reg_max r;
  ro_objs : NoDup (pe_obj <$> reg_entries r);
  ro_flows : NoDup (pe_flow <$> reg_entries r);
  ro_hash : forall k e, reg_entries r !! k = Some e -> pe_hash e = hash_tuple (pe_flow e);
  ro_size : length (reg_table r) = 128%nat;
  ro_slot : forall i s, reg_table r !! i = Some s -> rs_state s = kOccupied ->
    exists k e, rs_idx s = Z.of_nat k /\ reg_entries r !! k = Some e /\ rs_flow s = pe_flow e /\ rs_hash s = pe_hash e;
  ro_entry : forall k e, reg_entries r !! k = Some e ->
    exists i s, reg_table r !! i = Some s /\ rs_state s = kOccupied /\ rs_idx s = Z.of_nat k;
  ro_unique : forall i j s s', reg_table r !! i = Some s -> reg_table r !! j = Some s' ->
    rs_state s = kOccupied -> rs_state s' = kOccupied -> rs_idx s = rs_idx s' -> i = j;
  ro_chain : forall i s d k, reg_table r !! i = Some s -> rs_state s = kOccupied -> 0 <= d < 128 ->
    pos (rs_hash s) d = i -> 0 <= k < d ->
    exists s', reg_table r !! pos (rs_hash s) k = Some s' /\ rs_state s' <> kEmpty
}.

(** The entry registered for a flow. *)
Definition route_of (es : list PollableEntry) (f : flow) : option nat :=
  fst <$> list_find (fun e => pe_flow e = f) es.

Lemma flows_inj es k k' e e' : NoDup (pe_flow <$> es) -> es !! k = Some e -> es !! k' = Some e' ->
  pe_flow e = pe_flow e' -> k = k'.
Proof.
  intros Hn Hk Hk' E. eapply NoDup_lookup; [exact Hn|..]; rewrite list_lookup_fmap.
  - by rewrite Hk.
  - by rewrite Hk', E.
Qed.

Lemma route_of_Some es f k e : NoDup (pe_flow <$> es) -> es !! k = Some e -> pe_flow e = f -> route_of es f = Some k.
Proof.
  intros Hn Hk Hf. unfold route_of. rewrite (proj2 (list_find_Some _ _ k e)); [done|].
  split_and!; [done|done|]. intros j x Hj Hlt Hx. assert (j = k) by (eapply flows_inj; [exact Hn|done|done|congruence]). lia.
Qed.

Lemma route_of_inv es f k : route_of es f = Some k -> exists e, es !! k = Some e /\ pe_flow e = f.
Proof.
  unfold route_of. destruct (list_find _ es) as [[j e]|] eqn:E; [|done]. cbn. intros [= <-].
  apply list_find_Some in E as (? & ? & _). by exists e.
Qed.

Lemma route_of_None es f : route_of es f = None -> forall k e, es !! k = Some e -> pe_flow e <> f.
Proof.
  unfold route_of. destruct (list_find _ es) as [[j e]|] eqn:E; [done|]. intros _ k e Hk Hf.
  apply list_find_None in E. rewrite list.Forall_forall in E. by apply (E e (list_elem_of_lookup_2 _ _ _ Hk)).
Qed.

Lemma slot_matches_true s hash f : slot_matches s hash f = true <-> rs_state s = kOccupied /\ rs_hash s = hash /\ rs_flow s = f.
Proof. unfold slot_matches. rewrite !andb_true_iff, !bool_decide_eq_true, Z.eqb_eq. tauto. Qed.

Section table.
Context (r : registry) (Hr : registry_ok r).

(** The slot of the entry registered for [f], and the way to it. *)
Lemma slot_of k e : reg_entries r !! k = Some e -> exists d s, 0 <= d < 128 /\
  reg_table r !! pos (hash_tuple (pe_flow e)) d = Some s /\ slot_matches s (hash_tuple (pe_flow e)) (pe_flow e) = true /\
  rs_idx s = Z.of_nat k /\
  forall j, 0 <= j < d -> exists s', reg_table r !! pos (hash_tuple (pe_flow e)) j = Some s' /\ rs_state s' <> kEmpty.
Proof.
  intros Hk. destruct (ro_entry r Hr k e Hk) as (i & s & Hs & Ho & Hi).
  destruct (ro_slot r Hr i s Hs Ho) as (k' & e' & Ek & He' & Ef & Eh). assert (k' = k) as -> by lia.
  assert (e' = e) as -> by congruence. pose proof (ro_hash r Hr k e Hk) as Hh.
  assert (i < 128)%nat as Hlt by (rewrite <- (ro_size r Hr); by eapply lookup_lt_Some).
  destruct (pos_surj (hash_tuple (pe_flow e)) i Hlt) as (d & Hd & <-). exists d, s. split_and!; try done; try lia.
  - apply slot_matches_true. split_and!; congruence.
  - intros j Hj. rewrite <- Hh, <- Eh. eapply (ro_chain r Hr _ s d j Hs Ho Hd); [by rewrite Eh, Hh|done].
Qed.

(** What the probe for [f] meets. *)
Lemma probe_find f : exists x, probes (reg_table r) (hash_tuple f) (stops_find (hash_tuple f) f) 0 x /\
  match route_of (reg_entries r) f with
  | Some k => exists d s, x = Some (d, s) /\ slot_matches s (hash_tuple f) f = true /\ rs_idx s = Z.of_nat k
  | None => match x with Some (_, s) => rs_state s = kEmpty | None => True end
  end.
Proof.
  destruct (probes_exist (reg_table r) (hash_tuple f) (stops_find (hash_tuple f) f) 128 (ro_size r Hr) 0) as [x Hx]; [lia..|].
  exists x. split; [done|]. pose proof (probes_range _ _ _ _ _ Hx) as Hp.
  destruct (route_of (reg_entries r) f) as [k|] eqn:Er.
  - apply route_of_inv in Er as (e & Hk & <-). destruct (slot_of k e Hk) as (d & s & Hd & Hs & Hm & Hi & Hc).
    destruct x as [[d' s']|].
    + destruct Hp as (Hd' & Hs' & Hst & Hb). unfold stops_find in Hst.
      destruct (Z.lt_trichotomy d' d) as [Hlt|[->|Hgt]].
      * exfalso. destruct (Hc d' ltac:(lia)) as (s2 & Hs2 & Hne). assert (s2 = s') as -> by congruence.
        rewrite bool_decide_eq_false_2 in Hst by done. cbn [orb] in Hst. apply slot_matches_true in Hst as (Ho & _ & Hf).
        destruct (ro_slot r Hr _ _ Hs' Ho) as (k2 & e2 & Ei2 & Hk2 & Hf2 & _).
        assert (k2 = k) as -> by (eapply (flows_inj (reg_entries r)); [apply Hr|done|done|congruence]).
        apply slot_matches_true in Hm as (Ho' & _). assert (pos (hash_tuple (pe_flow e)) d' = pos (hash_tuple (pe_flow e)) d) as Ep
          by (eapply (ro_unique r Hr); [exact Hs'|exact Hs|done|done|congruence]).
        apply pos_inj in Ep; lia.
      * assert (s' = s) as -> by congruence. by exists d, s.
      * exfalso. destruct (Hb d ltac:(lia)) as (s2 & Hs2 & Hn). assert (s2 = s) as -> by congruence.
        unfold stops_find in Hn. rewrite Hm, orb_true_r in Hn. done.
    + exfalso. destruct (Hp d ltac:(lia)) as (s2 & Hs2 & Hn). assert (s2 = s) as -> by congruence.
      unfold stops_find in Hn. rewrite Hm, orb_true_r in Hn. done.
  - destruct x as [[d s]|]; [|done]. destruct Hp as (_ & Hs & Hst & _). unfold stops_find in Hst.
    apply orb_true_iff in Hst as [Hst%bool_decide_eq_true|Hst]; [done|exfalso].
    apply slot_matches_true in Hst as (Ho & _ & Hf). destruct (ro_slot r Hr _ _ Hs Ho) as (k & e & _ & Hk & Hfe & _).
    by eapply (route_of_None _ _ Er k e Hk); congruence.
Qed.

Lemma find_route_spec f : exists c,
  find_route_slot_ (reg_table r) (hash_tuple f) f =
  Some (match route_of (reg_entries r) f with Some k => Z.of_nat k | None => kInvalidSlot end, c).
Proof.
  destruct (probe_find f) as (x & Hx & Hres).
  destruct (find_loop_probes _ _ _ _ _ Hx (Z.to_nat kRouteTableSize) (Z.land (hash_tuple f) kRouteTableMask) false)
    as (c & E); [done|apply probing_start|].
  exists c. unfold find_route_slot_. rewrite E. do 2 f_equal. destruct (route_of (reg_entries r) f) as [k|].
  - destruct Hres as (d & s & -> & (Ho & _)%slot_matches_true & Hi). rewrite bool_decide_eq_false_2 by congruence. done.
  - destruct x as [[d s]|]; [by rewrite bool_decide_eq_true_2|done].
Qed.
End table.

(** ** Registering *)

Lemma nodup_bounded (l : list nat) n : NoDup l -> (forall x, x ∈ l -> (x < n)%nat) -> (length l <= n)%nat.
Proof.
  intros Hn Hb. rewrite <- (length_seq n 0). apply submseteq_length, NoDup_submseteq; [done|].
  intros x Hx. apply elem_of_seq. specialize (Hb x Hx). lia.
Qed.

Section add.
Context (r : registry) (Hr : registry_ok r).

(** At most 64 slots are occupied: the insertion finds a free one. *)
Lemma free_slot hash : exists d s, probes (reg_table r) hash stops_free 0 (Some (d, s)).
Proof.
  destruct (probes_exist (reg_table r) hash stops_free 128 (ro_size r Hr) 0) as [x Hx]; [lia..|].
  destruct x as [[d s]|]; [by exists d, s|exfalso]. pose proof (probes_range _ _ _ _ _ Hx) as Hp. cbn beta in Hp.
  assert (forall i s, reg_table r !! i = Some s -> rs_state s = kOccupied) as Hocc.
  { intros i s Hs. assert (i < 128)%nat as Hi by (rewrite <- (ro_size r Hr); by eapply lookup_lt_Some).
    destruct (pos_surj hash i Hi) as (d & Hd & <-). destruct (Hp d ltac:(lia)) as (s' & Hs' & Hst).
    assert (s' = s) as -> by congruence. unfold stops_free in Hst. destruct (rs_state s); [done|done|done]. }
  assert (length ((fun s => Z.to_nat (rs_idx s)) <$> reg_table r) <= length (reg_entries r))%nat as Hlen.
  { apply nodup_bounded.
    - apply NoDup_alt. intros i j x. rewrite !list_lookup_fmap. destruct (reg_table r !! i) as [s|] eqn:Ei; [|done].
      destruct (reg_table r !! j) as [s'|] eqn:Ej; [|done]. cbn. intros [= <-] [= E].
      destruct (ro_slot r Hr i s Ei (Hocc i s Ei)) as (k & _ & Ek & _). destruct (ro_slot r Hr j s' Ej (Hocc j s' Ej)) as (k' & _ & Ek' & _).
      eapply (ro_unique r Hr); eauto. lia.
    - intros x (s & -> & Hs)%list_elem_of_fmap. apply list_elem_of_lookup_1 in Hs as [i Hs].
      destruct (ro_slot r Hr i s Hs (Hocc i s Hs)) as (k & e & -> & Hk & _). apply lookup_lt_Some in Hk. lia. }
  rewrite length_fmap, (ro_size r Hr) in Hlen. pose proof (ro_len r Hr). pose proof (ro_max r Hr).
  unfold kMaxConnHard, zlen in *. lia.
Qed.

Lemma stops_free_false s : stops_free s = false -> rs_state s = kOccupied.
Proof. unfold stops_free. by destruct (rs_state s). Qed.

Lemma stops_free_true s : stops_free s = true -> rs_state s <> kOccupied.
Proof. unfold stops_free. by destruct (rs_state s). Qed.

(** The table and the array with the new entry. *)
Lemma registered_ok o f d s : probes (reg_table r) (hash_tuple f) stops_free 0 (Some (d, s)) ->
  zlen (reg_entries r) < reg_max r -> o ∉ (pe_obj <$> reg_entries r) -> route_of (reg_entries r) f = None ->
  registry_ok (mkRegistry (reg_max r) (reg_entries r ++ [mkEntry o (hash_tuple f) f])
    (<[pos (hash_tuple f) d := mkSlot kOccupied (u8 (zlen (reg_entries r))) f (hash_tuple f)]> (reg_table r))).
Proof.
  intros Hp Hlt Ho Hf. pose proof (probes_range _ _ _ _ _ Hp) as (Hd & Hs & Hst & Hb).
  pose proof (ro_max r Hr) as Hmax. unfold kMaxConnHard in Hmax. pose proof (zlen_nonneg (reg_entries r)).
  rewrite (wrap_small 8) by (change (2 ^ 8) with 256; lia). apply stops_free_true in Hst.
  set (p := pos (hash_tuple f) d) in *. set (new := mkSlot kOccupied (zlen (reg_entries r)) f (hash_tuple f)).
  assert (p < length (reg_table r))%nat as Hpl by (rewrite (ro_size r Hr); apply pos_lt).
  assert (forall i x, <[p := new]> (reg_table r) !! i = Some x -> i = p /\ x = new \/ i <> p /\ reg_table r !! i = Some x) as Hin.
  { intros i x Hx. destruct (decide (p = i)) as [<-|Hne]; [left|right].
    - rewrite list_lookup_insert_eq in Hx by done. split; [done|congruence].
    - rewrite list_lookup_insert_ne in Hx by done. by split. }
  constructor; cbn [reg_max reg_entries reg_table].
  - done.
  - rewrite zlen_app. change (zlen [_]) with 1. lia.
  - rewrite fmap_app. apply list.NoDup_app. split; [apply Hr|]. split; [|apply list.NoDup_singleton].
    intros x Hx Hx'. apply list_elem_of_singleton in Hx'. cbn in Hx'. congruence.
  - rewrite fmap_app. apply list.NoDup_app. split; [apply Hr|]. split; [|apply list.NoDup_singleton].
    intros x (e & -> & [k Hk]%list_elem_of_lookup_1)%list_elem_of_fmap Hx'. apply list_elem_of_singleton in Hx'.
    by eapply (route_of_None _ _ Hf k e Hk).
  - intros k e [[_ Hk]|[_ <-]]%lookup_snoc_Some; [by eapply (ro_hash r Hr)|done].
  - rewrite length_insert. apply Hr.
  - intros i x [[-> ->]|[_ Hx]]%Hin Hocc.
    + exists (length (reg_entries r)). eexists. split; [done|]. split; [apply lookup_snoc_Some; by right|done].
    + destruct (ro_slot r Hr i x Hx Hocc) as (k & e & Ek & He & Hrest). exists k, e. split_and!; try done; try apply Hrest.
      by apply lookup_app_l_Some.
  - intros k e [[_ Hk]|[-> <-]]%lookup_snoc_Some.
    + destruct (ro_entry r Hr k e Hk) as (i & x & Hx & Hocc & Ex). exists i, x. split_and!; try done.
      rewrite list_lookup_insert_ne; [done|]. intros ->. assert (x = s) by congruence. congruence.
    + exists p, new. by rewrite list_lookup_insert_eq by done.
  - intros i j x y [[-> ->]|[Hi Hx]]%Hin [[-> ->]|[Hj Hy]]%Hin Hox Hoy E; [done|..].
    + destruct (ro_slot r Hr j y Hy Hoy) as (k & e & Ek & He & _). apply lookup_lt_Some in He. cbn [rs_idx new] in E. unfold zlen in E. lia.
    + destruct (ro_slot r Hr i x Hx Hox) as (k & e & Ek & He & _). apply lookup_lt_Some in He. cbn [rs_idx new] in E. unfold zlen in E. lia.
    + by eapply (ro_unique r Hr).
  - assert (forall q, (exists y, reg_table r !! q = Some y /\ rs_state y <> kEmpty) ->
      exists y, <[p := new]> (reg_table r) !! q = Some y /\ rs_state y <> kEmpty) as Hkeep.
    { intros q (y & Hy & Hne). destruct (decide (p = q)) as [<-|Hq].
      - exists new. by rewrite list_lookup_insert_eq by done.
      - exists y. by rewrite list_lookup_insert_ne by done. }
    intros i x d' k [[-> ->]|[_ Hx]]%Hin Hocc Hd' Hpos Hk; apply Hkeep.
    + cbn [rs_hash new] in *. apply pos_inj in Hpos; [|lia|lia]. subst d'.
      destruct (Hb k ltac:(lia)) as (y & Hy & Hn%stops_free_false). exists y. split; [done|congruence].
    + by eapply (ro_chain r Hr i x d' k).
Qed.
End add.

(** ** Unregistering *)

Lemma shift_slot_fields i s : rs_state (shift_slot i s) = rs_state s /\ rs_flow (shift_slot i s) = rs_flow s /\
  rs_hash (shift_slot i s) = rs_hash s.
Proof. unfold shift_slot. by destruct (_ && _). Qed.

Lemma shift_slot_idx i s : rs_state s = kOccupied -> rs_idx s <> kInvalidSlot ->
  rs_idx (shift_slot i s) = if i <? rs_idx s then rs_idx s - 1 else rs_idx s.
Proof.
  intros Ho Hi. unfold shift_slot. rewrite bool_decide_eq_true_2 by done. rewrite (proj2 (Z.eqb_neq _ _) Hi). cbn [negb andb].
  rewrite andb_true_r. by destruct (i <? rs_idx s).
Qed.

Section remove.
Context (r : registry) (Hr : registry_ok r) (i : nat) (e : PollableEntry) (Hi : reg_entries r !! i = Some e).

#[local] Abbreviation entries' := (delete i (reg_entries r)).

(** The table after [remove] at index [i], whose slot is [p]. *)
Definition unregistered (t t' : list RouteSlot) (p : nat) : Prop :=
  length t' = 128%nat /\ forall j s', t' !! j = Some s' ->
    exists s, t !! j = Some s /\ (rs_state s' <> kEmpty <-> rs_state s <> kEmpty) /\
      (rs_state s' = kOccupied <-> rs_state s = kOccupied /\ j <> p) /\
      (rs_state s' = kOccupied -> rs_flow s' = rs_flow s /\ rs_hash s' = rs_hash s /\
        rs_idx s' = if Z.of_nat i <? rs_idx s then rs_idx s - 1 else rs_idx s).

Lemma entry_after k x : reg_entries r !! k = Some x -> k <> i ->
  entries' !! (if decide (k < i)%nat then k else (k - 1)%nat) = Some x.
Proof.
  intros Hk Hne. rewrite list_lookup_delete. destruct (decide (k < i)%nat).
  - by rewrite decide_True by lia.
  - rewrite decide_False by lia. by replace (S (k - 1)) with k by lia.
Qed.

Lemma entry_before k x : entries' !! k = Some x -> reg_entries r !! (if decide (k < i)%nat then k else S k) = Some x.
Proof. rewrite list_lookup_delete. destruct (decide (k < i)%nat); [by rewrite ?decide_True by lia|by rewrite ?decide_False by lia]. Qed.

Lemma unregistered_ok t' p s : unregistered (reg_table r) t' p -> reg_table r !! p = Some s -> rs_state s = kOccupied ->
  rs_idx s = Z.of_nat i -> registry_ok (mkRegistry (reg_max r) entries' t').
Proof.
  intros [Hsize Ht] Hp Hps Hpi. pose proof (lookup_lt_Some _ _ _ Hi) as Hlt.
  assert (forall j x, reg_table r !! j = Some x -> exists x', t' !! j = Some x') as Hsome.
  { intros j x Hx. apply lookup_lt_Some in Hx. apply lookup_lt_is_Some_2. rewrite Hsize, <- (ro_size r Hr). done. }
  constructor; cbn [reg_max reg_entries reg_table].
  - apply Hr.
  - pose proof (ro_len r Hr). unfold zlen in *. rewrite length_delete; [lia|]. by eexists.
  - rewrite list_fmap_delete. apply sublist_NoDup with (pe_obj <$> reg_entries r); [apply Hr|apply sublist_delete].
  - rewrite list_fmap_delete. apply sublist_NoDup with (pe_flow <$> reg_entries r); [apply Hr|apply sublist_delete].
  - intros k x Hk%entry_before. by eapply (ro_hash r Hr).
  - done.
  - intros j s' Hs' Ho. destruct (Ht j s' Hs') as (x & Hx & _ & Hocc & Hf). destruct (proj1 Hocc Ho) as [Hxo Hjp].
    destruct (Hf Ho) as (E1 & E2 & E3). destruct (ro_slot r Hr j x Hx Hxo) as (k & y & Ek & Hk & Ef & Eh).
    assert (k <> i) as Hki by (intros ->; apply Hjp; eapply (ro_unique r Hr); [exact Hx|exact Hp|done|done|lia]).
    pose proof (entry_after k y Hk Hki) as Hk'. eexists _, y. split; [|split; [exact Hk'|split; congruence]].
    rewrite E3, Ek. destruct (Z.ltb_spec (Z.of_nat i) (Z.of_nat k)), (decide (k < i)%nat); lia.
  - intros k x Hk%entry_before. destruct (ro_entry r Hr _ x Hk) as (j & y & Hy & Hyo & Hyi).
    destruct (Hsome j y Hy) as [y' Hy']. destruct (Ht j y' Hy') as (y2 & Hy2 & _ & Hocc & Hf).
    assert (y2 = y) as -> by congruence. assert (j <> p) as Hjp.
    { intros ->. assert (y = s) as -> by congruence. destruct (decide (k < i)%nat); lia. }
    assert (rs_state y' = kOccupied) as Hyo' by (by apply Hocc). destruct (Hf Hyo') as (_ & _ & E3).
    exists j, y'. split_and!; try done. rewrite E3, Hyi.
    destruct (decide (k < i)%nat); [rewrite (proj2 (Z.ltb_ge _ _)) by lia|rewrite (proj2 (Z.ltb_lt _ _)) by lia]; lia.
  - intros j k x y Hx Hy Hox Hoy E. destruct (Ht j x Hx) as (x0 & Hx0 & _ & Ocx & Fx). destruct (Ht k y Hy) as (y0 & Hy0 & _ & Ocy & Fy).
    destruct (proj1 Ocx Hox) as [Ox Jx]. destruct (proj1 Ocy Hoy) as [Oy Jy]. destruct (Fx Hox) as (_ & _ & Ix). destruct (Fy Hoy) as (_ & _ & Iy).
    assert (rs_idx x0 <> Z.of_nat i) as Nx by (intros E'; apply Jx; eapply (ro_unique r Hr); [exact Hx0|exact Hp|done|done|lia]).
    assert (rs_idx y0 <> Z.of_nat i) as Ny by (intros E'; apply Jy; eapply (ro_unique r Hr); [exact Hy0|exact Hp|done|done|lia]).
    eapply (ro_unique r Hr); [exact Hx0|exact Hy0|done|done|]. rewrite Ix, Iy in E.
    destruct (Z.ltb_spec (Z.of_nat i) (rs_idx x0)), (Z.ltb_spec (Z.of_nat i) (rs_idx y0)); lia.
  - intros j x d k Hx Ho Hd Hpos Hk. destruct (Ht j x Hx) as (x0 & Hx0 & _ & Oc & F). destruct (proj1 Oc Ho) as [Ox _].
    destruct (F Ho) as (_ & Eh & _). rewrite Eh in Hpos |- *.
    destruct (ro_chain r Hr j x0 d k Hx0 Ox Hd Hpos Hk) as (y & Hy & Hne). destruct (Hsome _ y Hy) as [y' Hy'].
    destruct (Ht _ y' Hy') as (y2 & Hy2 & Hem & _). assert (y2 = y) as -> by congruence. exists y'. split; [done|]. by apply Hem.
Qed.

(** What [tombstone_route_] and the shift make of the table. *)
Lemma remove_table : exists t p s, tombstone_route_ (reg_table r) (pe_hash e) (pe_flow e) = Some t /\
  unregistered (reg_table r)
    (if Z.of_nat i <? zlen entries' then shift_down_route_indices_above_ (u8 (Z.of_nat i)) t else t) p /\
  reg_table r !! p = Some s /\ rs_state s = kOccupied /\ rs_idx s = Z.of_nat i.
Proof.
  pose proof (ro_hash r Hr i e Hi) as Hh. destruct (probe_find r Hr (pe_flow e)) as (x & Hx & Hres).
  rewrite (route_of_Some (reg_entries r) (pe_flow e) i e (ro_flows r Hr) Hi eq_refl) in Hres.
  destruct Hres as (d & s & -> & Hm & Hidx). apply slot_matches_true in Hm as (Ho & _).
  pose proof (probes_range _ _ _ _ _ Hx) as (Hd & Hs & _). set (p := pos (hash_tuple (pe_flow e)) d) in *.
  eexists _, p, s. split.
  { unfold tombstone_route_. rewrite Hh. apply (tombstone_loop_probes _ _ _ _ _ Hx); [done|apply probing_start]. }
  rewrite bool_decide_eq_false_2 by congruence. split; [|done].
  assert (p < length (reg_table r))%nat as Hpl by (rewrite (ro_size r Hr); apply pos_lt).
  pose proof (lookup_lt_Some _ _ _ Hi) as Hlt. pose proof (ro_len r Hr) as Hlen. pose proof (ro_max r Hr) as Hmax.
  unfold kMaxConnHard, zlen in *. rewrite length_delete by (by eexists).
  rewrite (wrap_small 8) by (change (2 ^ 8) with 256; lia).
  set (t1 := <[p := mkSlot kTombstone kInvalidSlot (rs_flow s) (rs_hash s)]> (reg_table r)).
  assert (length t1 = 128%nat) as Hl1 by (subst t1; rewrite length_insert; apply Hr).
  assert (forall j s', t1 !! j = Some s' -> exists s0, reg_table r !! j = Some s0 /\ (j = p /\ s0 = s /\ rs_state s' = kTombstone \/ j <> p /\ s' = s0)) as H1.
  { intros j s' Hj. destruct (decide (p = j)) as [<-|Hne].
    - subst t1. rewrite list_lookup_insert_eq in Hj by done. injection Hj as <-. exists s. split; [done|]. by left.
    - subst t1. rewrite list_lookup_insert_ne in Hj by done. exists s'. split; [done|]. right. by split. }
  assert (forall j s0, reg_table r !! j = Some s0 -> rs_state s0 = kOccupied -> rs_idx s0 <> kInvalidSlot /\ rs_idx s0 < Z.of_nat (length (reg_entries r))) as Hb.
  { intros j s0 Hj Hj0. destruct (ro_slot r Hr j s0 Hj Hj0) as (k & y & -> & Hk & _). apply lookup_lt_Some in Hk.
    unfold kInvalidSlot. lia. }
  destruct (Z.ltb_spec (Z.of_nat i) (Z.of_nat (length (reg_entries r) - 1))) as [Hsh|Hsh].
  - split; [unfold shift_down_route_indices_above_; by rewrite length_map|]. intros j s' Hj.
    apply list_lookup_fmap_Some in Hj as (s1 & -> & E1). destruct (shift_slot_fields (Z.of_nat i) s1) as (F1 & F2 & F3).
    destruct (H1 j s1 E1) as (s0 & Hs0 & [(-> & -> & Et)|(Hne & ->)]); [exists s|exists s0]; (split; [done|]); rewrite F1.
    + rewrite Et. split; [split; [intros _; congruence|done]|]. split; [split; [done|by intros []]|done].
    + split; [done|]. split; [by split; [|intros []]|]. intros Hoc. split_and!; [done|done|].
      destruct (Hb j s0 Hs0 Hoc). by apply shift_slot_idx.
  - split; [done|]. intros j s' Hj. destruct (H1 j s' Hj) as (s0 & Hs0 & [(-> & -> & Et)|(Hne & ->)]); [exists s|exists s0]; (split; [done|]).
    + rewrite Et. split; [split; [intros _; congruence|done]|]. split; [split; [done|by intros []]|done].
    + split; [done|]. split; [by split; [|intros []]|]. intros Hoc. split_and!; [done|done|].
      destruct (Hb j s0 Hs0 Hoc). rewrite (proj2 (Z.ltb_ge _ _)) by lia. done.
Qed.
End remove.

(** ** The registry as a list of registrations *)

(** What a poller promises: its registrations in order, no object and no flow twice, at most
    [max] of them. *)
Inductive reg_op := OpAdd (obj : option nat) (f : flow) | OpRemove (obj : option nat).

Definition spec_step (max : Z) (op : reg_op) (l : list (nat * flow)) : expected unit Error * list (nat * flow) :=
  match op with
  | OpAdd None _ | OpRemove None => (Err InvalidConfig, l)
  | OpAdd (Some o) f =>
    if max <=? zlen l then (Err OutOfMemory, l)
    else if decide (o ∈ l.*1 \/ f ∈ l.*2) then (Err InvalidConfig, l)
    else (Ok tt, l ++ [(o, f)])
  | OpRemove (Some o) =>
    if decide (o ∈ l.*1) then (Ok tt, filter (fun x => x.1 <> o) l) else (Err NotFound, l)
  end.

Definition reg_step (op : reg_op) (r : registry) : option (expected unit Error * registry) :=
  match op with OpAdd o f => add o f r | OpRemove o => remove o r end.

Fixpoint reg_run (ops : list reg_op) (r : registry) : option (list (expected unit Error) * registry) :=
  match ops with
  | [] => Some ([], r)
  | op :: ops => '(x, r) ← reg_step op r; '(xs, r) ← reg_run ops r; Some (x :: xs, r)
  end.

Fixpoint spec_run (max : Z) (ops : list reg_op) (l : list (nat * flow)) : list (expected unit Error) * list (nat * flow) :=
  match ops with
  | [] => ([], l)
  | op :: ops => let '(x, l) := spec_step max op l in let '(xs, l) := spec_run max ops l in (x :: xs, l)
  end.

Definition registrations (r : registry) : list (nat * flow) := (fun e => (pe_obj e, pe_flow e)) <$> reg_entries r.

Lemma registrations_fst r : (registrations r).*1 = pe_obj <$> reg_entries r.
Proof. unfold registrations. by rewrite <- list_fmap_compose. Qed.

Lemma registrations_snd r : (registrations r).*2 = pe_flow <$> reg_entries r.
Proof. unfold registrations. by rewrite <- list_fmap_compose. Qed.

Lemma route_of_elem es f : route_of es f <> None <-> f ∈ (pe_flow <$> es).
Proof.
  destruct (route_of es f) as [k|] eqn:E; split; try done.
  - intros _. apply route_of_inv in E as (e & Hk & <-). apply list_elem_of_fmap. exists e. split; [done|].
    by eapply list_elem_of_lookup_2.
  - intros (e & -> & [k Hk]%list_elem_of_lookup_1)%list_elem_of_fmap. by destruct (route_of_None _ _ E k e Hk).
Qed.

Lemma existsb_obj o es : existsb (fun e => Nat.eqb (pe_obj e) o) es = true <-> o ∈ (pe_obj <$> es).
Proof.
  rewrite existsb_exists, list_elem_of_fmap. split.
  - intros (e & He & E%Nat.eqb_eq). exists e. split; [done|]. by apply list_elem_of_In.
  - intros (e & -> & He). exists e. split; [by apply list_elem_of_In|apply Nat.eqb_refl].
Qed.

Lemma add_refines r o f : registry_ok r ->
  exists x r', add o f r = Some (x, r') /\ registry_ok r' /\ reg_max r' = reg_max r /\
    spec_step (reg_max r) (OpAdd o f) (registrations r) = (x, registrations r').
Proof.
  intros Hr. destruct o as [o|]; [|by exists (Err InvalidConfig), r]. unfold add, spec_step.
  assert (zlen (registrations r) = zlen (reg_entries r)) as Hz by (unfold registrations, zlen; by rewrite length_fmap).
  rewrite Hz. destruct (Z.leb_spec (reg_max r) (zlen (reg_entries r))); [by exists (Err OutOfMemory), r|].
  rewrite registrations_fst, registrations_snd.
  destruct (existsb _ _) eqn:Eo.
  { apply existsb_obj in Eo. rewrite decide_True by (by left). by exists (Err InvalidConfig), r. }
  assert (o ∉ (pe_obj <$> reg_entries r)) as Ho by (intros H'%existsb_obj; congruence).
  destruct (find_route_spec r Hr f) as (c & ->). cbn [mbind option_bind].
  destruct (route_of (reg_entries r) f) as [k|] eqn:Ef.
  - assert (f ∈ (pe_flow <$> reg_entries r)) by (apply route_of_elem; congruence).
    rewrite decide_True by (by right). apply route_of_inv in Ef as (e & Hk & _). apply lookup_lt_Some in Hk.
    pose proof (ro_max r Hr). unfold kMaxConnHard, zlen, kInvalidSlot in *.
    rewrite (proj2 (Z.eqb_neq _ _)) by lia. by exists (Err InvalidConfig), r.
  - rewrite Z.eqb_refl. cbn [negb]. destruct (free_slot r Hr (hash_tuple f)) as (d & s & Hp).
    unfold insert_route_. rewrite (insert_loop_probes _ _ _ _ Hp) by (done || apply probing_start). cbn [mbind option_bind].
    eexists _, _. split; [reflexivity|]. split; [by apply registered_ok with s|]. split; [done|].
    assert (~ (f ∈ (pe_flow <$> reg_entries r))) by (intros H'%route_of_elem; congruence).
    rewrite decide_False by tauto. unfold registrations. cbn [reg_entries]. by rewrite fmap_app.
Qed.

Lemma filter_all {A} (P : A -> Prop) `{forall x, Decision (P x)} (l : list A) : Forall P l -> filter P l = l.
Proof. induction 1; [done|]. by rewrite filter_cons_True, IHForall. Qed.

Lemma delete_is_filter es i e : NoDup (pe_obj <$> es) -> es !! i = Some e ->
  (fun e => (pe_obj e, pe_flow e)) <$> delete i es =
  filter (fun x => x.1 <> pe_obj e) ((fun e => (pe_obj e, pe_flow e)) <$> es).
Proof.
  revert i. induction es as [|a es IH]; intros i Hn Hi; [done|]. rewrite fmap_cons in Hn.
  apply list.NoDup_cons in Hn as [Ha Hn]. destruct i as [|i]; cbn [lookup list_lookup] in Hi.
  - injection Hi as <-. change (delete 0%nat (a :: es)) with es. rewrite fmap_cons, filter_cons_False by (cbn; tauto).
    symmetry. rewrite filter_all; [done|]. apply list.Forall_forall. intros x (b & -> & Hb)%list_elem_of_fmap. cbn.
    intros E. apply Ha. apply list_elem_of_fmap. by exists b.
  - change (delete (S i) (a :: es)) with (a :: delete i es). rewrite !fmap_cons, filter_cons_True; [by rewrite (IH i Hn Hi)|].
    cbn. intros E. apply Ha, list_elem_of_fmap. exists e. split; [done|by eapply list_elem_of_lookup_2].
Qed.

Lemma remove_scan_spec o r rest : forall i, drop i (reg_entries r) = rest ->
  (exists k e, reg_entries r !! k = Some e /\ pe_obj e = o /\ remove_scan o r i rest =
     (t ← tombstone_route_ (reg_table r) (pe_hash e) (pe_flow e);
      let entries := delete k (reg_entries r) in
      let t := if Z.of_nat k <? zlen entries then shift_down_route_indices_above_ (u8 (Z.of_nat k)) t else t in
      Some (Ok tt, mkRegistry (reg_max r) entries t))) \/
  (Forall (fun e => pe_obj e <> o) rest /\ remove_scan o r i rest = Some (Err NotFound, r)).
Proof.
  induction rest as [|e rest IH]; intros i Hd; cbn [remove_scan]; [by right|].
  destruct (Nat.eqb_spec (pe_obj e) o) as [<-|Hne]; cbn [negb].
  - left. exists i, e. split; [|done]. rewrite <- (Nat.add_0_r i), <- lookup_drop, Hd. done.
  - destruct (IH (S i)) as [(k & e' & H)|[Hf E]].
    + by rewrite <- Nat.add_1_r, <- drop_drop, Hd.
    + left. by exists k, e'.
    + right. split; [by constructor|done].
Qed.

Lemma remove_refines r o : registry_ok r ->
  exists x r', remove o r = Some (x, r') /\ registry_ok r' /\ reg_max r' = reg_max r /\
    spec_step (reg_max r) (OpRemove o) (registrations r) = (x, registrations r').
Proof.
  intros Hr. destruct o as [o|]; [|by exists (Err InvalidConfig), r]. unfold remove, spec_step. rewrite registrations_fst.
  destruct (remove_scan_spec o r (reg_entries r) 0 eq_refl) as [(k & e & Hk & <- & ->)|[Hf ->]].
  - destruct (remove_table r Hr k e Hk) as (t & p & s & -> & Hu & Hp & Hs & Hi). cbn [mbind option_bind].
    eexists _, _. split; [reflexivity|]. split; [by eapply unregistered_ok|]. split; [done|].
    rewrite decide_True by (apply list_elem_of_fmap; exists e; split; [done|by eapply list_elem_of_lookup_2]).
    unfold registrations. cbn [reg_entries]. f_equal. symmetry. apply delete_is_filter; [apply Hr|done].
  - exists (Err NotFound), r. rewrite decide_False; [done|]. intros (e & -> & He)%list_elem_of_fmap.
    rewrite list.Forall_forall in Hf. by apply (Hf e He).
Qed.

Lemma registry_create_ok max r : 0 <= max -> registry_create max = Ok r -> registry_ok r /\ reg_max r = max /\ registrations r = [].
Proof.
  unfold registry_create. intros Hmax. destruct (_ || _) eqn:E; [done|]. intros Er.
  assert (r = mkRegistry max [] (repeat empty_slot 128)) as -> by congruence. clear Er.
  apply orb_false_iff in E as [E1%Z.eqb_neq E2%Z.ltb_ge]. split; [|done].
  assert (forall i s, repeat empty_slot 128 !! i = Some s -> s = empty_slot) as Hall.
  { intros i s Hs. apply list_elem_of_lookup_2, list_elem_of_In, repeat_spec in Hs. done. }
  assert (length (repeat empty_slot 128) = 128%nat) as Hlen by done. revert Hall Hlen. generalize (repeat empty_slot 128).
  intros t Hall Hlen. constructor; cbn [reg_max reg_entries reg_table]; try done; try lia.
  - constructor.
  - constructor.
  - by intros i s ->%Hall.
  - by intros i j s s' ->%Hall.
  - by intros i s d k ->%Hall.
Qed.

Lemma reg_run_refines ops : forall r, registry_ok r ->
  exists xs r', reg_run ops r = Some (xs, r') /\ registry_ok r' /\
    spec_run (reg_max r) ops (registrations r) = (xs, registrations r').
Proof.
  induction ops as [|op ops IH]; intros r Hr; cbn [reg_run spec_run]; [by exists [], r|].
  assert (exists x r', reg_step op r = Some (x, r') /\ registry_ok r' /\ reg_max r' = reg_max r /\
    spec_step (reg_max r) op (registrations r) = (x, registrations r')) as (x & r1 & -> & Hr1 & Hm & ->)
    by (destruct op; [by apply add_refines|by apply remove_refines]).
  cbn [mbind option_bind]. destruct (IH r1 Hr1) as (xs & r' & -> & Hr' & Hs). cbn [mbind option_bind].
  rewrite Hm in Hs. rewrite Hs. by exists (x :: xs), r'.
Qed.

(** The index of the registration of a flow. *)
Definition spec_route (l : list (nat * flow)) (f : flow) : option nat := fst <$> list_find (fun x => x.2 = f) l.

Lemma route_of_spec es f : route_of es f = spec_route ((fun e => (pe_obj e, pe_flow e)) <$> es) f.
Proof.
  unfold route_of, spec_route. rewrite list_find_fmap. unfold compose. cbn [snd].
  destruct (list_find _ es) as [[k e]|] eqn:E; by rewrite ?E.
Qed.

(** C18: The poller's registry is a list of registrations.  Over every sequence of [add]s and
    [remove]s -- null pointers, duplicates, a full table and any reuse of tombstones and
    shifting of indices included -- the results are those of the list specification (no
    object and no flow twice, at most [max_connections] entries, errors leave it unchanged),
    the accesses stay inside the table and the array, and a lookup in the hash table returns
    for every flow the index of its registration in the list, or [kInvalidSlot] exactly when
    it has none: linear probing never loses an entry and never finds a removed one. *)
Theorem poller_registry_refines max r0 ops : 0 <= max -> registry_create max = Ok r0 ->
  exists xs r, reg_run ops r0 = Some (xs, r) /\
    spec_run max ops [] = (xs, registrations r) /\
    forall f, exists collision, find_route_slot_ (reg_table r) (hash_tuple f) f =
      Some (match spec_route (registrations r) f with Some k => Z.of_nat k | None => kInvalidSlot end, collision).
Proof.
  intros Hmax Hc. destruct (registry_create_ok max r0 Hmax Hc) as (Hr & Em & El).
  destruct (reg_run_refines ops r0 Hr) as (xs & r & E & Hr' & Hs). rewrite Em, El in Hs.
  exists xs, r. split; [exact E|]. split; [exact Hs|]. intros f.
  destruct (find_route_spec r Hr' f) as (c & Ec). exists c. rewrite Ec. unfold registrations. by rewrite route_of_spec.
Qed.

(** Two objects, a duplicate, a removal that shifts the second, and its lookup. *)
Definition demo_flow (p : Z) : flow := mkFlow 0x0A000001 0x0A000002 p 443 6.

Definition demo_ops : list reg_op :=
  [OpAdd (Some 1%nat) (demo_flow 40000); OpAdd (Some 2%nat) (demo_flow 40001); OpAdd (Some 3%nat) (demo_flow 40001);
   OpRemove (Some 1%nat); OpRemove (Some 1%nat)].

Example demo_registry :
  match registry_create 16 with
  | Ok r => (fun '(xs, r) => (xs, registrations r, fst <$> find_route_slot_ (reg_table r) (hash_tuple (demo_flow 40001)) (demo_flow 40001)))
              <$> reg_run demo_ops r
  | Err _ => None
  end = Some ([Ok tt; Ok tt; Err InvalidConfig; Ok tt; Err NotFound], [(2%nat, demo_flow 40001)], Some 0).
Proof. vm_compute. reflexivity. Qed.

Lemma poller_registry_refines_witness : exists r0, registry_create 16 = Ok r0 /\
  exists xs r, reg_run demo_ops r0 = Some (xs, r) /\
    spec_run 16 demo_ops [] = (xs, registrations r) /\
    forall f, exists collision, find_route_slot_ (reg_table r) (hash_tuple f) f =
      Some (match spec_route (registrations r) f with Some k => Z.of_nat k | None => kInvalidSlot end, collision).
Proof.
  eexists. split; [reflexivity|]. destruct (poller_registry_refines 16 _ demo_ops ltac:(lia) eq_refl) as (xs & r & H).
  exists xs, r. exact H.
Defined.
