(* ===== verification/Poller.v ===== *)
(** * The DPDK poller

    [DpdkPoller] of poller.hpp (eph-net-dpdk): one burst of received packets per call is
    routed to the registered objects by flow, the rest is released, and every object gets
    its periodic tick.  The registry itself is in RouteTable.

    [poller_dispatch]: each packet of a burst reaches exactly the object registered for its
    flow or is released, once; every registered object is ticked once.
    [udp_frame_flow], [tcp_frame_flow], [target_registered]: packets of a peer reach the object.
    [pick_src_port_exact]: the source port chosen is free, and one is found if there is one. *)

From S2P Require Import Prelude Codecs PacketCore PacketParse PacketTemplate RouteTable.

#[local] Open Scope Z_scope.

(** ** State *)

(** The install-once state of the ICMP callback; [Installing] is visible to other threads
    only. *)
Inductive icmp_state := IcmpUnset | IcmpInstalling | IcmpReady.

#[global] Instance icmp_state_eq_dec : EqDecision icmp_state.
Proof. solve_decision. Defined.

(** [po_icmp_cb]: the callback's name, [None] for an empty [std::function]. *)
Record Poller := mkPoller {
  po_reg : registry;
  last_lookup_had_collision_ : bool;
  hash_collision_drops_ : Z;
  icmp_cb_state_ : icmp_state;
  po_icmp_cb : option nat;
  icmp_frag_needed_dispatched_ : Z;
  injected_mbuf_for_test_ : option mbuf
}.

Definition poller_of (r : registry) : Poller := mkPoller r false 0 IcmpUnset None 0 None.

Definition poller_create (max_connections : Z) : expected Poller Error :=
  match registry_create max_connections with Ok r => Ok (poller_of r) | Err e => Err e end.

(** What the poller does to the outside, in order: [i] is the packet's position in its burst. *)
Inductive poll_event :=
| Deliver (obj i : nat) (tsc : Z)
| IcmpCallback (cb : nat) (p : ParsedIcmp)
| Release (i : nat)
| Tick (obj : nat) (tsc : Z)
| Detach (obj : nat).

(** ** Routing *)

(** The flow of a packet as its receiver registered it: source and destination swapped. *)
Definition packet_flow (mb : mbuf) : option (option flow) :=
  ip_hdr ← parse_ip_header (Some mb);
  match pih_ip ip_hdr with
  | None => Some None
  | Some _ =>
    let m := mb_data mb in
    let proto := pih_proto ip_hdr in
    if proto =? kIpProtoTcp then
      parsed ← parse_tcp_from_ip (Some mb) ip_hdr;
      match pp_tcp parsed with
      | None => Some None
      | Some _ =>
        sip ← pp_src_ip m parsed; dip ← pp_dst_ip m parsed; sport ← pp_src_port m parsed; dport ← pp_dst_port m parsed;
        Some (Some (mkFlow dip sip dport sport proto))
      end
    else if proto =? kIpProtoUdp then
      parsed ← parse_udp_from_ip (Some mb) ip_hdr;
      match pu_udp parsed with
      | None => Some None
      | Some _ =>
        sip ← pu_src_ip m parsed; dip ← pu_dst_ip m parsed; sport ← pu_src_port m parsed; dport ← pu_dst_port m parsed;
        Some (Some (mkFlow dip sip dport sport proto))
      end
    else Some None
  end.

Definition lookup_by_5tuple_ (mb : mbuf) (p : Poller) : option (option PollableEntry * Poller) :=
  key ← packet_flow mb;
  match key with
  | None => Some (None, p)
  | Some f =>
    '(idx, collision) ← find_route_slot_ (reg_table (po_reg p)) (hash_tuple f) f;
    if negb (idx =? kInvalidSlot) then
      e ← reg_entries (po_reg p) !! Z.to_nat idx;
      Some (Some e, mkPoller (po_reg p) collision (hash_collision_drops_ p) (icmp_cb_state_ p) (po_icmp_cb p)
                      (icmp_frag_needed_dispatched_ p) (injected_mbuf_for_test_ p))
    else
      let drops := if (collision : bool) then u64 (hash_collision_drops_ p + 1) else hash_collision_drops_ p in
      Some (None, mkPoller (po_reg p) collision drops (icmp_cb_state_ p) (po_icmp_cb p)
                    (icmp_frag_needed_dispatched_ p) (injected_mbuf_for_test_ p))
  end.

(** ** ICMP *)

Definition set_icmp_callback (cb : option nat) (p : Poller) : Poller :=
  if negb (bool_decide (icmp_cb_state_ p = IcmpUnset)) then p
  else mkPoller (po_reg p) (last_lookup_had_collision_ p) (hash_collision_drops_ p) IcmpReady cb
         (icmp_frag_needed_dispatched_ p) (injected_mbuf_for_test_ p).

Definition maybe_dispatch_icmp_ (mb : mbuf) (p : Poller) : option (Poller * list poll_event) :=
  if negb (bool_decide (icmp_cb_state_ p = IcmpReady)) then Some (p, []) else
  match po_icmp_cb p with
  | None => Some (p, [])
  | Some cb =>
    parsed ← parse_icmp (Some mb);
    match pi_ip parsed with
    | None => Some (p, [])
    | Some _ =>
      if negb (is_frag_needed (pi_type parsed) (pi_code parsed)) || negb (pi_embedded_valid parsed) then Some (p, [])
      else Some (mkPoller (po_reg p) (last_lookup_had_collision_ p) (hash_collision_drops_ p) (icmp_cb_state_ p)
                   (po_icmp_cb p) (u64 (icmp_frag_needed_dispatched_ p + 1)) (injected_mbuf_for_test_ p),
                 [IcmpCallback cb parsed])
    end
  end.

(** ** One cycle *)

(** The burst from packet [i]; the number dispatched. *)
Fixpoint dispatch_burst (tsc : Z) (i : nat) (burst : list mbuf) (p : Poller) : option (Z * Poller * list poll_event) :=
  match burst with
  | [] => Some (0, p, [])
  | mb :: rest =>
    '(entry, p) ← lookup_by_5tuple_ mb p;
    match entry with
    | Some e =>
      '(n, p, evs) ← dispatch_burst tsc (S i) rest p;
      Some (n + 1, p, Deliver (pe_obj e) i tsc :: evs)
    | None =>
      '(p, icmp) ← maybe_dispatch_icmp_ mb p;
      '(n, p, evs) ← dispatch_burst tsc (S i) rest p;
      Some (n, p, icmp ++ Release i :: evs)
    end
  end.

(** The tick loop runs backwards over the entries. *)
Definition tick_all (tsc : Z) (p : Poller) : list poll_event :=
  map (fun e => Tick (pe_obj e) tsc) (rev (reg_entries (po_reg p))).

(** [alive]: the value of the flag, [true] without one; [burst] what [rx_burst] returns;
    the handlers of the objects do not register or unregister.  The burst may have any
    length; the code receives at most 32 packets at a time. *)
Definition poll (alive : bool) (burst : list mbuf) (tsc : Z) (p : Poller) : option (Z * Poller * list poll_event) :=
  if negb alive then Some (0, p, []) else
  '(dispatched, p, evs) ← dispatch_burst tsc 0 burst p;
  Some (dispatched, p, evs ++ tick_all tsc p).

(** The destructor detaches every object. *)
Definition poller_destroy (p : Poller) : list poll_event := map (fun e => Detach (pe_obj e)) (reg_entries (po_reg p)).

(** ** The waiting overload *)

Definition set_injected (m : option mbuf) (p : Poller) : Poller :=
  mkPoller (po_reg p) (last_lookup_had_collision_ p) (hash_collision_drops_ p) (icmp_cb_state_ p) (po_icmp_cb p)
    (icmp_frag_needed_dispatched_ p) m.

Definition inject_mbuf_for_test_ (m : mbuf) (p : Poller) : Poller := set_injected (Some m) p.

Definition drain_injected_for_test_ (tsc : Z) (p : Poller) : option (Z * Poller * list poll_event) :=
  match injected_mbuf_for_test_ p with
  | None => Some (0, p, [])
  | Some mb =>
    let p := set_injected None p in
    '(entry, p) ← lookup_by_5tuple_ mb p;
    match entry with
    | Some e => Some (1, p, [Deliver (pe_obj e) 0 tsc])
    | None => '(p, icmp) ← maybe_dispatch_icmp_ mb p; Some (1, p, icmp)
    end
  end.

(** A pass of the loops: the clock the loop tests, and what the poll then sees. *)
Record pass := mkPass {
  pa_clock : Z;
  pa_alive : bool;
  pa_burst : list mbuf;
  pa_tsc : Z
}.

Definition drain_and_poll (x : pass) (p : Poller) : option (Z * Poller * list poll_event) :=
  '(a, p, evs) ← drain_injected_for_test_ (pa_tsc x) p;
  '(b, p, evs') ← poll (pa_alive x) (pa_burst x) (pa_tsc x) p;
  Some (a + b, p, evs ++ evs').

(** A loop until [deadline]: it returns the first positive number of packets, or ends at the
    deadline with the passes left; [Waiting] when the passes given end first. *)
Inductive wait_result := Returned (n : Z) | DeadlineAt (rest : list pass) | Waiting.

Fixpoint wait_loop (deadline : Z) (passes : list pass) (p : Poller) : option (wait_result * Poller * list poll_event) :=
  match passes with
  | [] => Some (Waiting, p, [])
  | x :: rest =>
    if negb (pa_clock x <? deadline) then Some (DeadlineAt rest, p, []) else
    '(n, p, evs) ← drain_and_poll x p;
    if 0 <? n then Some (Returned n, p, evs) else
    '(r, p, evs') ← wait_loop deadline rest p; Some (r, p, evs ++ evs')
  end.

(** Deadlines saturate at [far]: [UINT64_MAX] cycles, or the last [time_point]. *)
Definition sat_add (far a b : Z) : Z := if far - b <? a then far else a + b.

(** [start] is the clock at entry and [far] its last value; [spin] and [total] the spin budget
    and the timeout on that clock. *)
Definition poll_timeout (timeout far start spin total : Z) (first : pass) (passes : list pass) (p : Poller)
    : option (wait_result * Poller * list poll_event) :=
  '(n, p, evs) ← drain_and_poll first p;
  if (0 <? n) || (timeout <=? 0) then Some (Returned n, p, evs) else
  '(r, p, evs1) ← wait_loop (sat_add far start spin) passes p;
  match r with
  | DeadlineAt rest =>
    '(r, p, evs2) ← wait_loop (sat_add far start total) rest p;
    Some (match r with DeadlineAt _ => Returned n | _ => r end, p, evs ++ evs1 ++ evs2)
  | _ => Some (r, p, evs ++ evs1)
  end.

(** ** Source ports *)

Definition is_in_use (es : list PollableEntry) (sip dip dport candidate : Z) : bool :=
  existsb (fun e => (fl_src_ip (pe_flow e) =? sip) && (fl_dst_ip (pe_flow e) =? dip) &&
                    (fl_dst_port (pe_flow e) =? dport) && (fl_src_port (pe_flow e) =? candidate)) es.

(** The probe from the [i]-th candidate, [n] of them left. *)
Fixpoint pick_loop (n : nat) (es : list PollableEntry) (sip dip dport range_begin range start i : Z) : option Z :=
  match n with
  | O => None
  | S n =>
    let candidate := u16 (range_begin + (start + i) mod range) in
    if negb (is_in_use es sip dip dport candidate) then Some candidate
    else pick_loop n es sip dip dport range_begin range start (i + 1)
  end.

(** [seed]: the random bytes, 0 when [getrandom] fails. *)
Definition pick_src_port (sip dip dport range_begin range_end preferred : Z) (seed : option Z) (p : Poller)
    : expected Z Error :=
  let es := reg_entries (po_reg p) in
  if range_begin <? 1024 then Err InvalidConfig else
  if range_end <? range_begin then Err InvalidConfig else
  if negb (preferred =? 0) && ((preferred <? range_begin) || (range_end <? preferred)) then Err InvalidConfig else
  if negb (preferred =? 0) && negb (is_in_use es sip dip dport preferred) then Ok preferred else
  let range := range_end - range_begin + 1 in
  let start := default 0 seed mod range in
  match pick_loop (Z.to_nat range) es sip dip dport range_begin range start 0 with
  | Some port => Ok port
  | None => Err OutOfMemory
  end.

(** ** Packets and their flows *)

Lemma packet_flow_tcp mb p : parse_packet (Some mb) = Some p -> pp_tcp p <> None ->
  packet_flow mb =
  (sip ← pp_src_ip (mb_data mb) p; dip ← pp_dst_ip (mb_data mb) p;
   sport ← pp_src_port (mb_data mb) p; dport ← pp_dst_port (mb_data mb) p;
   Some (Some (mkFlow dip sip dport sport kIpProtoTcp))).
Proof.
  unfold parse_packet, packet_flow. destruct (parse_ip_header (Some mb)) as [h|]; [|done]. cbn [mbind option_bind].
  destruct (pih_ip h) eqn:Ei; [|by intros [= <-]]. destruct (Z.eqb_spec (pih_proto h) kIpProtoTcp) as [->|]; cbn [negb];
    [|by intros [= <-]].
  intros -> Hp. cbn [mbind option_bind]. by destruct (pp_tcp p).
Qed.

Lemma packet_flow_udp mb p : parse_udp_packet (Some mb) = Some p -> pu_udp p <> None ->
  packet_flow mb =
  (sip ← pu_src_ip (mb_data mb) p; dip ← pu_dst_ip (mb_data mb) p;
   sport ← pu_src_port (mb_data mb) p; dport ← pu_dst_port (mb_data mb) p;
   Some (Some (mkFlow dip sip dport sport kIpProtoUdp))).
Proof.
  unfold parse_udp_packet, packet_flow. destruct (parse_ip_header (Some mb)) as [h|]; [|done]. cbn [mbind option_bind].
  destruct (pih_ip h) eqn:Ei; [|by intros [= <-]]. destruct (Z.eqb_spec (pih_proto h) kIpProtoUdp) as [->|]; cbn [negb];
    [|by intros [= <-]].
  intros -> Hp. cbn [mbind option_bind Z.eqb Pos.eqb kIpProtoUdp kIpProtoTcp]. by destruct (pu_udp p).
Qed.

Lemma packet_flow_safe mb : mbuf_ok mb -> exists f, packet_flow mb = Some f.
Proof.
  intros Hok. destruct (parse_packet_safe mb Hok) as (p & Ep & Hp). destruct (parse_udp_packet_safe mb Hok) as (u & Eu & Hu).
  destruct (pp_tcp p) as [t|] eqn:Et; [|destruct (pu_udp u) as [d|] eqn:Ed].
  - rewrite (packet_flow_tcp mb p Ep) by congruence.
    destruct Hp as [[Hp _]|(tcp & doff & Hip & Htcp & Hlo & _ & Hd & Hin & _)]; [congruence|].
    unfold pp_src_ip, pp_dst_ip, pp_src_port, pp_dst_port, of_hdr, ip_src_addr, ip_dst_addr, tcp_src_port, tcp_dst_port.
    rewrite Hip, Htcp. unfold kEtherHeaderLen, kIpv4HeaderLen, kTcpHeaderLen in *.
    destruct (load_ntoh32_Some (mb_data mb) (14 + 12)) as (? & -> & _); [lia..|].
    destruct (load_ntoh32_Some (mb_data mb) (14 + 16)) as (? & -> & _); [lia..|].
    destruct (load_ntoh16_Some (mb_data mb) (tcp + 0)) as (? & -> & _); [lia..|].
    destruct (load_ntoh16_Some (mb_data mb) (tcp + 2)) as (? & -> & _); [lia..|]. by eexists.
  - rewrite (packet_flow_udp mb u Eu) by congruence.
    destruct Hu as [->|(udp & Hip & Hudp & Hlo & _ & Hn & Hin)]; [done|].
    unfold pu_src_ip, pu_dst_ip, pu_src_port, pu_dst_port, of_hdr, ip_src_addr, ip_dst_addr, tcp_src_port, tcp_dst_port.
    rewrite Hip, Hudp. unfold kEtherHeaderLen, kIpv4HeaderLen, kUdpHeaderLen in *.
    destruct (load_ntoh32_Some (mb_data mb) (14 + 12)) as (? & -> & _); [lia..|].
    destruct (load_ntoh32_Some (mb_data mb) (14 + 16)) as (? & -> & _); [lia..|].
    destruct (load_ntoh16_Some (mb_data mb) (udp + 0)) as (? & -> & _); [lia..|].
    destruct (load_ntoh16_Some (mb_data mb) (udp + 2)) as (? & -> & _); [lia..|]. by eexists.
  - exists None. unfold parse_packet, parse_udp_packet, packet_flow in *.
    destruct (parse_ip_header (Some mb)) as [h|]; [|done]. cbn [mbind option_bind] in *.
    destruct (pih_ip h); [|done]. destruct (pih_proto h =? kIpProtoTcp); cbn [negb] in *.
    + rewrite Ep. cbn [mbind option_bind]. by rewrite Et.
    + destruct (pih_proto h =? kIpProtoUdp); cbn [negb] in *; [|done]. rewrite Eu. cbn [mbind option_bind]. by rewrite Ed.
Qed.

(** ** Dispatch *)

(** The object registered for the flow of a packet. *)
Definition target (l : list (nat * flow)) (mb : mbuf) : option nat :=
  match packet_flow mb with
  | Some (Some f) => x ← list_find (fun x => x.2 = f) l; Some (x.2.1)
  | _ => None
  end.

Lemma lookup_spec mb p : mbuf_ok mb -> registry_ok (po_reg p) ->
  exists p' r, lookup_by_5tuple_ mb p = Some (r, p') /\ po_reg p' = po_reg p /\
    icmp_cb_state_ p' = icmp_cb_state_ p /\ po_icmp_cb p' = po_icmp_cb p /\
    injected_mbuf_for_test_ p' = injected_mbuf_for_test_ p /\ pe_obj <$> r = target (registrations (po_reg p)) mb.
Proof.
  intros Hok Hr. unfold lookup_by_5tuple_, target. destruct (packet_flow_safe mb Hok) as (k & ->). cbn [mbind option_bind].
  destruct k as [f|]; [|by exists p, None].
  destruct (find_route_spec (po_reg p) Hr f) as (c & ->). cbn [mbind option_bind].
  rewrite route_of_spec. unfold spec_route. unfold registrations.
  destruct (list_find _ _) as [[k [o f']]|] eqn:El; cbn [fmap option_fmap option_map fst mbind option_bind snd].
  - apply list_find_Some in El as (Hk & <- & _). cbn [snd] in *. apply list_lookup_fmap_Some in Hk as (e & [= -> ->] & Hk).
    pose proof (lookup_lt_Some _ _ _ Hk). pose proof (ro_len _ Hr). pose proof (ro_max _ Hr).
    unfold kInvalidSlot, kMaxConnHard, zlen in *. rewrite (proj2 (Z.eqb_neq _ _)) by lia. cbn [negb].
    rewrite Nat2Z.id, Hk. cbn [mbind option_bind]. by eexists _, (Some e).
  - rewrite Z.eqb_refl. cbn [negb]. by eexists _, None.
Qed.

Lemma icmp_spec mb p : mbuf_ok mb ->
  exists p' evs, maybe_dispatch_icmp_ mb p = Some (p', evs) /\ po_reg p' = po_reg p /\
    icmp_cb_state_ p' = icmp_cb_state_ p /\ po_icmp_cb p' = po_icmp_cb p /\
    injected_mbuf_for_test_ p' = injected_mbuf_for_test_ p /\
    (evs = [] \/ exists cb parsed, evs = [IcmpCallback cb parsed] /\ icmp_cb_state_ p = IcmpReady /\ po_icmp_cb p = Some cb /\
       parse_icmp (Some mb) = Some parsed /\ is_frag_needed (pi_type parsed) (pi_code parsed) = true /\
       pi_embedded_valid parsed = true).
Proof.
  intros Hok. unfold maybe_dispatch_icmp_. case_bool_decide as Hst; cbn [negb]; [|exists p, []; by split_and!; [..|left]].
  destruct (po_icmp_cb p) as [cb|] eqn:Ecb; [|exists p, []; by split_and!; [..|left]].
  destruct (parse_icmp_safe mb Hok) as (x & Ex). rewrite Ex. cbn [mbind option_bind].
  destruct (pi_ip x); [|exists p, []; by split_and!; [..|left]].
  destruct (is_frag_needed _ _) eqn:Ef; cbn [negb orb]; [|exists p, []; by split_and!; [..|left]].
  destruct (pi_embedded_valid x) eqn:Ev; cbn [negb]; [|exists p, []; by split_and!; [..|left]].
  eexists _, _. split; [reflexivity|]. split_and!; try done. right. exists cb, x. by split_and!.
Qed.

(** What the burst should do, ICMP callbacks apart. *)
Fixpoint routed (l : list (nat * flow)) (tsc : Z) (i : nat) (burst : list mbuf) : list poll_event :=
  match burst with
  | [] => []
  | mb :: rest =>
    match target l mb with Some o => Deliver o i tsc | None => Release i end :: routed l tsc (S i) rest
  end.

Definition is_icmp (ev : poll_event) : bool := match ev with IcmpCallback _ _ => true | _ => false end.

Definition icmp_justified (p : Poller) (burst : list mbuf) (ev : poll_event) : Prop :=
  forall cb parsed, ev = IcmpCallback cb parsed ->
    icmp_cb_state_ p = IcmpReady /\ po_icmp_cb p = Some cb /\
    exists mb, mb ∈ burst /\ target (registrations (po_reg p)) mb = None /\ parse_icmp (Some mb) = Some parsed /\
      is_frag_needed (pi_type parsed) (pi_code parsed) = true /\ pi_embedded_valid parsed = true.

Lemma dispatch_burst_spec tsc burst : forall i p, Forall mbuf_ok burst -> registry_ok (po_reg p) ->
  exists n p' evs, dispatch_burst tsc i burst p = Some (n, p', evs) /\
    (po_reg p' = po_reg p /\ injected_mbuf_for_test_ p' = injected_mbuf_for_test_ p) /\
    filter (fun ev => is_icmp ev = false) evs = routed (registrations (po_reg p)) tsc i burst /\
    Forall (icmp_justified p burst) evs /\
    n = zlen (filter (fun mb => target (registrations (po_reg p)) mb <> None) burst).
Proof.
  induction burst as [|mb rest IH]; intros i p Hok Hr; cbn [dispatch_burst routed].
  { exists 0, p, []. by split_and!; [..|constructor|]. }
  inversion Hok as [|? ? Hm Hok']; subst.
  destruct (lookup_spec mb p Hm Hr) as (p1 & r & -> & Er & Es & Ec & Ei & Ht). cbn [mbind option_bind].
  assert (forall q ev, po_reg q = po_reg p -> icmp_cb_state_ q = icmp_cb_state_ p -> po_icmp_cb q = po_icmp_cb p ->
    icmp_justified q rest ev -> icmp_justified p (mb :: rest) ev) as Hmono.
  { intros q ev E1 E2 E3 Hj cb parsed Hev. destruct (Hj cb parsed Hev) as (H1 & H2 & m & Hin & H3). rewrite E1 in H3.
    split; [congruence|]. split; [congruence|]. exists m. split; [by right|done]. }
  destruct r as [e|]; cbn [fmap option_fmap option_map] in Ht; rewrite <- Ht.
  - destruct (IH (S i) p1 Hok' ltac:(by rewrite Er)) as (n & p' & evs & -> & [Er' Ei'] & Hf & Hj & Hn). cbn [mbind option_bind].
    eexists _, p', _. split; [reflexivity|]. split; [split; congruence|]. rewrite Er in Hf, Hn. split_and!.
    + rewrite filter_cons_True by done. by rewrite Hf.
    + constructor; [by intros ? ?|]. eapply list.Forall_impl; [exact Hj|]. intros ev. by apply Hmono.
    + rewrite filter_cons_True by congruence. rewrite zlen_cons. lia.
  - destruct (icmp_spec mb p1 Hm) as (p2 & icmp & -> & Er2 & Es2 & Ec2 & Ei2 & Hi). cbn [mbind option_bind].
    destruct (IH (S i) p2 Hok' ltac:(by rewrite Er2, Er)) as (n & p' & evs & -> & [Er' Ei'] & Hf & Hj & Hn). cbn [mbind option_bind].
    eexists _, p', _. split; [reflexivity|]. split; [split; congruence|]. rewrite Er2, Er in Hf, Hn. split_and!.
    + rewrite list.filter_app. replace (filter _ icmp) with (@nil poll_event)
        by (destruct Hi as [->|(cb & x & -> & _)]; [done|by rewrite filter_cons_False]).
      cbn [app]. rewrite filter_cons_True by done. by rewrite Hf.
    + apply list.Forall_app. split.
      * destruct Hi as [->|(cb & x & -> & H1 & H2 & H3 & H4 & H5)]; [constructor|]. constructor; [|constructor].
        intros cb' x' [= <- <-]. split; [congruence|]. split; [congruence|]. exists mb. split_and!; try done. by left.
      * constructor; [by intros ? ?|]. eapply list.Forall_impl; [exact Hj|]. intros ev. apply Hmono; congruence.
    + rewrite filter_cons_False; [done|]. rewrite <- Ht. by intros [].
Qed.

(** C19: One poll cycle.  For every registry reached by [add] and [remove] and every burst of
    packets, [poll] is defined; apart from ICMP callbacks its effects are exactly, packet by
    packet in order, the delivery of the packet to the object registered for its flow -- its
    protocol and its addresses and ports seen from the receiver -- or else the packet's
    release, followed by one tick for every registered object from the last to the first; so
    every packet is handed over or released exactly once.  The count returned is the number
    delivered.  A callback is fired only for an unrouted ICMP "fragmentation needed" packet
    with a valid embedded header, and the registry is left as it was. *)
Theorem poller_dispatch p burst tsc :
  registry_ok (po_reg p) -> Forall mbuf_ok burst ->
  exists n p' evs, poll true burst tsc p = Some (n, p', evs) /\ po_reg p' = po_reg p /\
    filter (fun ev => is_icmp ev = false) evs =
      routed (registrations (po_reg p)) tsc 0 burst ++
      map (fun x => Tick x.1 tsc) (rev (registrations (po_reg p))) /\
    n = zlen (filter (fun mb => target (registrations (po_reg p)) mb <> None) burst) /\
    Forall (icmp_justified p burst) evs.
Proof.
  intros Hr Hok. unfold poll. cbn [negb].
  destruct (dispatch_burst_spec tsc burst 0 p Hok Hr) as (n & p' & evs & -> & [Er _] & Hf & Hj & Hn). cbn [mbind option_bind].
  assert (tick_all tsc p' = map (fun x => Tick x.1 tsc) (rev (registrations (po_reg p)))) as Ht.
  { unfold tick_all, registrations. rewrite Er. change (@fmap list _ PollableEntry (nat * flow)) with (@map PollableEntry (nat * flow)).
    rewrite <- map_rev, map_map. done. }
  rewrite Ht. eexists _, p', _. split; [reflexivity|]. split; [done|]. split_and!; [|done|].
  - rewrite list.filter_app, Hf. f_equal. apply filter_all. apply list.Forall_forall. by intros ev (x & -> & _)%list_elem_of_fmap.
  - apply list.Forall_app. split; [done|]. apply list.Forall_forall. by intros ev (x & -> & _)%list_elem_of_fmap.
Qed.

(** ** Packets of a peer *)

(** A UDP datagram to a registered flow reaches its object; the registry has at most one. *)
Lemma target_registered r o f mb : registry_ok r -> (o, f) ∈ registrations r -> packet_flow mb = Some (Some f) ->
  target (registrations r) mb = Some o.
Proof.
  intros Hr Hin Hf. unfold target. rewrite Hf. apply list_elem_of_lookup_1 in Hin as [k Hk].
  destruct (list_find (fun x => x.2 = f) (registrations r)) as [[j [o' f']]|] eqn:E.
  - apply list_find_Some in E as (Hj & Hf' & _). cbn [snd] in Hf'. subst f'. cbn. f_equal.
    unfold registrations in Hk, Hj. apply list_lookup_fmap_Some in Hk as (e & [= -> ->] & Hk).
    apply list_lookup_fmap_Some in Hj as (e' & [= -> E'] & Hj).
    assert (j = k) as -> by (eapply (flows_inj (reg_entries r)); [apply Hr|done|done|done]). congruence.
  - exfalso. apply list_find_None in E. rewrite list.Forall_forall in E.
    by apply (E (o, f) (list_elem_of_lookup_2 _ _ _ Hk)).
Qed.

Lemma routed_lookup l tsc burst : forall k i mb, burst !! i = Some mb ->
  routed l tsc k burst !! i = Some match target l mb with Some o => Deliver o (k + i) tsc | None => Release (k + i) end.
Proof.
  induction burst as [|m rest IH]; intros k [|i] mb H; try done; cbn [routed].
  - injection H as ->. cbn. by rewrite Nat.add_0_r.
  - cbn in H. rewrite lookup_cons. rewrite (IH (S k) i mb H). by replace (S k + i)%nat with (k + S i)%nat by lia.
Qed.

(** A packet of a registered flow is handed to its object by the cycle that receives it. *)
Lemma poll_delivers p burst tsc i mb o f : registry_ok (po_reg p) -> Forall mbuf_ok burst ->
  burst !! i = Some mb -> packet_flow mb = Some (Some f) -> (o, f) ∈ registrations (po_reg p) ->
  exists n p' evs, poll true burst tsc p = Some (n, p', evs) /\ Deliver o i tsc ∈ evs.
Proof.
  intros Hr Hb Hi Hf Hin. unfold poll. cbn [negb].
  destruct (dispatch_burst_spec tsc burst 0 p Hb Hr) as (n & p' & evs & -> & _ & He & _). cbn [mbind option_bind].
  eexists _, p', _. split; [reflexivity|]. apply elem_of_app. left.
  assert (Deliver o i tsc ∈ filter (fun ev => is_icmp ev = false) evs) as [_ H]%list_elem_of_filter; [|done].
  rewrite He. apply (list_elem_of_lookup_2 _ i). rewrite (routed_lookup _ _ _ _ _ _ Hi).
  by rewrite (target_registered _ _ _ _ Hr Hin Hf).
Qed.

Lemma udp_frame_flow smac dmac sip dip sport dport id frag bs pad ck uck :
  zlen smac = 6 -> zlen dmac = 6 -> 0 <= sip < 2 ^ 32 -> 0 <= dip < 2 ^ 32 ->
  0 <= sport < 2 ^ 16 -> 0 <= dport < 2 ^ 16 -> 0 <= id < 2 ^ 16 -> 0 <= frag < 2 ^ 16 -> fragment_bits frag = false ->
  42 + zlen bs + zlen pad <= UINT16_MAX ->
  packet_flow (mkMbuf 1 (udp_header smac dmac frag (28 + zlen bs) id sip dip sport dport (8 + zlen bs) ck uck ++ bs ++ pad)) =
  Some (Some (mkFlow dip sip dport sport kIpProtoUdp)).
Proof.
  intros H1 H2 H3 H4 H5 H6 H7 H8 H9 H10. pose proof (zlen_nonneg bs). pose proof (zlen_nonneg pad). unfold UINT16_MAX in H10.
  erewrite packet_flow_udp; [|apply udp_frame_parse; (done || (unfold UINT16_MAX; lia))|done]. cbn [mb_data].
  unfold pu_src_ip, pu_dst_ip, pu_src_port, pu_dst_port, ip_src_addr, ip_dst_addr, tcp_src_port, tcp_dst_port.
  cbn [of_hdr pu_ip pu_udp].
  destruct (uh_loads smac dmac sip dip sport dport id H1 H2 H3 H4 H5 H6 frag (28 + zlen bs) (8 + zlen bs) ck uck (bs ++ pad))
    as (_ & _ & _ & _ & _ & L26 & L30 & L34 & L36 & _); [done|change (2 ^ 16) with 65536; lia..|].
  change (14 + 12) with 26. change (14 + 16) with 30. change (34 + 0) with 34. change (34 + 2) with 36.
  rewrite L26, L30, L34, L36. done.
Qed.

Lemma tcp_frame_flow t is_syn seq ack flags window ck tck bs pad :
  template_ok t -> 0 <= seq < 2 ^ 32 -> 0 <= ack < 2 ^ 32 -> 0 <= flags < 256 -> 0 <= window < 2 ^ 16 ->
  34 + hdr_len is_syn + zlen bs + zlen pad <= UINT16_MAX ->
  packet_flow (mkMbuf 1 (frame t (kIpv4HeaderLen + hdr_len is_syn + zlen bs) (Z.shiftl (hdr_len is_syn / 4) 4) seq ack flags window
    ck tck (option_bytes is_syn (mss t) ++ bs ++ pad))) =
  Some (Some (mkFlow (dst_ip (tuple t)) (src_ip (tuple t)) (dst_port (tuple t)) (src_port (tuple t)) kIpProtoTcp)).
Proof.
  intros H1 H2 H3 H4 H5 H6. erewrite packet_flow_tcp; [|by apply frame_parse_packet|done]. cbn [mb_data].
  unfold pp_src_ip, pp_dst_ip, pp_src_port, pp_dst_port, ip_src_addr, ip_dst_addr, tcp_src_port, tcp_dst_port.
  cbn [of_hdr pp_ip pp_tcp].
  assert (0 <= kIpv4HeaderLen + hdr_len is_syn + zlen bs < 2 ^ 16) as Ht.
  { pose proof (zlen_nonneg bs). pose proof (zlen_nonneg pad). unfold UINT16_MAX, kIpv4HeaderLen in *. change (2 ^ 16) with 65536.
    assert (hdr_len is_syn = 20 \/ hdr_len is_syn = 32) by (destruct is_syn; [by right|by left]). lia. }
  assert (0 <= Z.shiftl (hdr_len is_syn / 4) 4 < 256) as Hd by (by destruct is_syn).
  destruct (frame_loads t (kIpv4HeaderLen + hdr_len is_syn + zlen bs) _ seq ack flags window ck tck
    (option_bytes is_syn (mss t) ++ bs ++ pad) H1 Ht Hd H2 H3 H4 H5) as (_ & _ & _ & _ & _ & L26 & L30 & L34 & L36 & _).
  change (14 + 12) with 26. change (14 + 16) with 30. change (34 + 0) with 34. change (34 + 2) with 36.
  rewrite L26, L30, L34, L36. done.
Qed.

(** ** Source ports *)

Lemma is_in_use_spec es sip dip dport c :
  is_in_use es sip dip dport c = true <->
  exists e, e ∈ es /\ fl_src_ip (pe_flow e) = sip /\ fl_dst_ip (pe_flow e) = dip /\ fl_dst_port (pe_flow e) = dport /\
    fl_src_port (pe_flow e) = c.
Proof.
  unfold is_in_use. rewrite existsb_exists. split.
  - intros (e & He & H). rewrite !andb_true_iff, !Z.eqb_eq in H. exists e. split; [by apply list_elem_of_In|tauto].
  - intros (e & He & H). exists e. split; [by apply list_elem_of_In|]. rewrite !andb_true_iff, !Z.eqb_eq. tauto.
Qed.

Lemma pick_loop_spec es sip dip dport rb range start : 0 <= rb -> 0 < range -> rb + range <= 65536 ->
  forall n i, match pick_loop n es sip dip dport rb range start i with
  | Some c => rb <= c < rb + range /\ is_in_use es sip dip dport c = false
  | None => forall k, i <= k < i + Z.of_nat n -> is_in_use es sip dip dport (rb + (start + k) mod range) = true
  end.
Proof.
  intros Hrb Hr Hb. induction n as [|n IH]; intros i; cbn [pick_loop]; [lia|].
  pose proof (Z.mod_pos_bound (start + i) range Hr). rewrite wrap_small by (change (2 ^ 16) with 65536; lia).
  destruct (is_in_use es sip dip dport (rb + (start + i) mod range)) eqn:E; cbn [negb]; [|split; [lia|done]].
  specialize (IH (i + 1)). destruct (pick_loop _ _ _ _ _ _ _ _ _); [done|].
  intros k Hk. destruct (decide (k = i)) as [->|]; [done|]. apply IH. lia.
Qed.

(** Choosing a source port, exactly.  A port returned lies in the range and no registered
    object uses it towards the same destination; [OutOfMemory] means that every port of the
    range is taken, which cannot happen when the range has more than 64 ports; all other
    failures are rejected arguments. *)
Lemma pick_src_port_exact sip dip dport rb re preferred seed p :
  registry_ok (po_reg p) -> re <= 65535 ->
  let used c := exists e, e ∈ reg_entries (po_reg p) /\ fl_src_ip (pe_flow e) = sip /\ fl_dst_ip (pe_flow e) = dip /\
    fl_dst_port (pe_flow e) = dport /\ fl_src_port (pe_flow e) = c in
  match pick_src_port sip dip dport rb re preferred seed p with
  | Ok c => 1024 <= rb /\ rb <= c <= re /\ ~ used c
  | Err InvalidConfig => rb < 1024 \/ re < rb \/ preferred <> 0 /\ ~ (rb <= preferred <= re)
  | Err OutOfMemory => (forall c, rb <= c <= re -> used c) /\ re - rb + 1 <= 64
  | Err _ => False
  end.
Proof.
  intros Hr Hre used. assert (forall c, is_in_use (reg_entries (po_reg p)) sip dip dport c = true <-> used c) as Hu
    by (intros c; apply is_in_use_spec).
  assert (forall c, is_in_use (reg_entries (po_reg p)) sip dip dport c = false -> ~ used c) as Hnu
    by (intros c Hc H%Hu; congruence).
  unfold pick_src_port. destruct (Z.ltb_spec rb 1024); [by left|]. destruct (Z.ltb_spec re rb); [by right; left|].
  destruct (_ && (_ || _)) eqn:E1.
  { apply andb_true_iff in E1 as [E1%negb_true_iff%Z.eqb_neq E2]. right; right. split; [done|].
    apply orb_true_iff in E2 as [?%Z.ltb_lt|?%Z.ltb_lt]; lia. }
  destruct (_ && negb _) eqn:E2.
  { apply andb_true_iff in E2 as [E2 E3%negb_true_iff]. rewrite E2 in E1. cbn [andb] in E1.
    apply orb_false_iff in E1 as [?%Z.ltb_ge ?%Z.ltb_ge]. split; [done|]. split; [lia|by apply Hnu]. }
  pose proof (pick_loop_spec (reg_entries (po_reg p)) sip dip dport rb (re - rb + 1) (default 0 seed mod (re - rb + 1))
    ltac:(lia) ltac:(lia) ltac:(lia) (Z.to_nat (re - rb + 1)) 0) as Hp.
  destruct (pick_loop _ _ _ _ _ _ _ _ _) as [c|]; [split; [done|]; split; [lia|]; apply Hnu, Hp|].
  assert (forall c, rb <= c <= re -> used c) as Hall.
  { intros c Hc. apply Hu. set (range := re - rb + 1) in *. set (start := default 0 seed mod range) in *.
    replace c with (rb + (start + (c - rb - start) mod range) mod range); [apply Hp; rewrite Z2Nat.id by lia;
      pose proof (Z.mod_pos_bound (c - rb - start) range); lia|].
    rewrite Z.add_mod_idemp_r by lia. replace (start + (c - rb - start)) with (c - rb) by lia. rewrite Z.mod_small; lia. }
  split; [done|].
  assert (length (seqZ rb (re - rb + 1)) <= length ((fun e => fl_src_port (pe_flow e)) <$> reg_entries (po_reg p)))%nat as Hlen.
  { apply submseteq_length, NoDup_submseteq; [apply NoDup_seqZ|]. intros c Hc%elem_of_seqZ.
    destruct (Hall c ltac:(lia)) as (e & He & _ & _ & _ & <-). apply list_elem_of_fmap. by exists e. }
  rewrite length_fmap, length_seqZ in Hlen. pose proof (ro_len _ Hr). pose proof (ro_max _ Hr).
  unfold kMaxConnHard, zlen in *. lia.
Qed.

(** ** Waiting *)

(** The packet waiting to be injected, if any, is a packet. *)
Definition poller_ok (p : Poller) : Prop :=
  registry_ok (po_reg p) /\ forall m, injected_mbuf_for_test_ p = Some m -> mbuf_ok m.

Definition pass_ok (x : pass) : Prop := Forall mbuf_ok (pa_burst x).

Lemma drain_spec tsc p : poller_ok p ->
  exists n p' evs, drain_injected_for_test_ tsc p = Some (n, p', evs) /\ poller_ok p' /\ po_reg p' = po_reg p /\ 0 <= n.
Proof.
  intros [Hr Hi]. unfold drain_injected_for_test_. destruct (injected_mbuf_for_test_ p) as [mb|] eqn:E.
  2: { exists 0, p, []. split_and!; try done. split; [done|]. by rewrite E. }
  specialize (Hi mb eq_refl).
  destruct (lookup_spec mb (set_injected None p) Hi Hr) as (p1 & r & -> & Er & _ & _ & Ei & _). cbn [mbind option_bind].
  destruct r as [e|].
  - eexists _, p1, _. split; [reflexivity|]. split_and!; [|done|lia]. split; [by rewrite Er|]. by rewrite Ei.
  - destruct (icmp_spec mb p1 Hi) as (p2 & icmp & -> & Er2 & _ & _ & Ei2 & _). cbn [mbind option_bind].
    eexists _, p2, _. split; [reflexivity|]. split_and!; [|by rewrite Er2, Er|lia]. split; [by rewrite Er2, Er|]. by rewrite Ei2, Ei.
Qed.

Lemma drain_and_poll_spec x p : poller_ok p -> pass_ok x ->
  exists n p' evs, drain_and_poll x p = Some (n, p', evs) /\ poller_ok p' /\ 0 <= n.
Proof.
  intros Hp Hx. unfold drain_and_poll. destruct (drain_spec (pa_tsc x) p Hp) as (a & p1 & evs & -> & [Hr Hi] & Er & Ha).
  cbn [mbind option_bind]. unfold poll. destruct (pa_alive x); cbn [negb mbind option_bind].
  - destruct (dispatch_burst_spec (pa_tsc x) (pa_burst x) 0 p1 Hx Hr) as (b & p2 & evs' & -> & [Er2 Ei2] & _ & _ & Hb).
    cbn [mbind option_bind]. eexists _, p2, _. split; [reflexivity|]. split; [split; [by rewrite Er2|by rewrite Ei2]|].
    subst b. pose proof (zlen_nonneg (filter (fun mb => target (registrations (po_reg p1)) mb <> None) (pa_burst x))). lia.
  - eexists _, p1, _. split; [reflexivity|]. split; [done|lia].
Qed.

Lemma wait_loop_spec deadline passes : forall p, poller_ok p -> Forall pass_ok passes ->
  exists r p' evs, wait_loop deadline passes p = Some (r, p', evs) /\ poller_ok p' /\
    (forall n, r = Returned n -> 0 < n) /\
    (forall rest, r = DeadlineAt rest -> Forall pass_ok rest /\
       forall a b, passes = a ++ b -> Exists (fun x => deadline <= pa_clock x) a -> exists a1, rest = a1 ++ b) /\
    (Exists (fun x => deadline <= pa_clock x) passes -> r <> Waiting).
Proof.
  induction passes as [|x rest IH]; intros p Hp Hok; cbn [wait_loop].
  { exists Waiting, p, []. split_and!; try done. by intros H%Exists_nil. }
  inversion Hok as [|? ? Hx Hok']; subst. destruct (Z.ltb_spec (pa_clock x) deadline) as [Hlt|Hge]; cbn [negb].
  2: { exists (DeadlineAt rest), p, []. split_and!; try done. intros ? [= <-]. split; [done|].
       intros [|y a] b E Ha; [by apply Exists_nil in Ha|]. injection E as -> ->. by exists a. }
  destruct (drain_and_poll_spec x p Hp Hx) as (n & p1 & evs & -> & Hp1 & Hn). cbn [mbind option_bind].
  destruct (Z.ltb_spec 0 n) as [Hn'|Hn'].
  { exists (Returned n), p1, evs. split_and!; try done. by intros ? [= <-]. }
  destruct (IH p1 Hp1 Hok') as (r & p2 & evs2 & -> & Hp2 & H1 & H2 & H3). cbn [mbind option_bind].
  exists r, p2, (evs ++ evs2). split_and!; try done.
  - intros rest' E. destruct (H2 rest' E) as (Hf & Hs). split; [done|].
    intros [|y a] b Eb Ha; [by apply Exists_nil in Ha|]. injection Eb as -> ->.
    apply Exists_cons in Ha as [Hd|Ha]; [lia|exact (Hs _ _ eq_refl Ha)].
  - intros [Hd|He]%Exists_cons; [lia|auto].
Qed.

(** The waiting overload is defined, and it has returned once the clock has passed the spin
    deadline and then the saturated total deadline. *)
Lemma poll_timeout_spec timeout far start spin total first passes1 passes2 p :
  poller_ok p -> pass_ok first -> Forall pass_ok (passes1 ++ passes2) ->
  Exists (fun x => sat_add far start spin <= pa_clock x) passes1 ->
  Forall (fun x => sat_add far start total <= pa_clock x) passes2 -> passes2 <> [] ->
  exists n p' evs, poll_timeout timeout far start spin total first (passes1 ++ passes2) p = Some (Returned n, p', evs) /\ 0 <= n.
Proof.
  intros Hp Hf Hok H1 H2 Hne. unfold poll_timeout.
  destruct (drain_and_poll_spec first p Hp Hf) as (n & p1 & evs & -> & Hp1 & Hn). cbn [mbind option_bind].
  destruct (_ || _); [by eexists _, _, _|].
  destruct (wait_loop_spec (sat_add far start spin) (passes1 ++ passes2) p1 Hp1 Hok) as (r & p2 & evs2 & E & Hp2 & Hr1 & Hr2 & Hr3).
  rewrite E. cbn [mbind option_bind]. destruct r as [k|rest|].
  - eexists _, _, _. split; [reflexivity|]. specialize (Hr1 k eq_refl). lia.
  - destruct (Hr2 rest eq_refl) as (Hok2 & Hs). destruct (Hs passes1 passes2 eq_refl H1) as (a' & ->).
    destruct (wait_loop_spec (sat_add far start total) (a' ++ passes2) p2 Hp2 Hok2) as (r & p3 & evs3 & E3 & _ & Hr4 & _ & Hr5).
    rewrite E3. cbn [mbind option_bind]. destruct r as [k|rest|].
    + eexists _, _, _. split; [reflexivity|]. specialize (Hr4 k eq_refl). lia.
    + by eexists _, _, _.
    + exfalso. apply Hr5; [|done]. apply Exists_app. right. destruct passes2 as [|y ys]; [done|].
      inversion H2; subst. by left.
  - exfalso. apply Hr3; [|done]. apply Exists_app. by left.
Qed.

(** ** A cycle *)

(** A TCP and a UDP object, and a burst with a packet for each of them and a short frame. *)
Definition demo_pollables : list reg_op :=
  [OpAdd (Some 1%nat) (demo_flow 40000); OpAdd (Some 2%nat) (mkFlow 0x0A000001 0x0A000002 5000 6000 kIpProtoUdp)].

Definition demo_poller : Poller :=
  match registry_create 16 with
  | Ok r => match reg_run demo_pollables r with Some (_, r') => poller_of r' | None => poller_of r end
  | Err _ => poller_of (mkRegistry 0 [] [])
  end.

Definition demo_peer : PacketTemplate :=
  mkTemplate [x02; x00; x00; x00; x00; x02] [x02; x00; x00; x00; x00; x01] (mkTuple 0x0A000002 0x0A000001 443 40000) 1 1460 false.

Definition demo_burst : list mbuf :=
  [mkMbuf 1 (udp_header [x02; x00; x00; x00; x00; x02] [x02; x00; x00; x00; x00; x01] 0 30 7 0x0A000002 0x0A000001 6000 5000 10 0 0
      ++ [x68; x69]);
   mkMbuf 1 [x00];
   mkMbuf 1 (frame demo_peer 42 0x50 5 7 0x18 65535 0 0 [x68; x69])].

Lemma demo_poller_ok : registry_ok (po_reg demo_poller) /\
  registrations (po_reg demo_poller) = [(1%nat, demo_flow 40000); (2%nat, mkFlow 0x0A000001 0x0A000002 5000 6000 kIpProtoUdp)].
Proof.
  destruct (registry_create 16) as [r|] eqn:E; [|done]. destruct (registry_create_ok 16 r ltac:(done) E) as (Hr & _).
  destruct (reg_run_refines demo_pollables r Hr) as (xs & r' & Er & Hr' & _).
  unfold demo_poller. rewrite E, Er. split; [done|].
  assert (po_reg demo_poller = r') as <- by (unfold demo_poller; by rewrite E, Er). vm_compute. reflexivity.
Qed.

Example demo_cycle :
  (fun '(n, _, evs) => (n, evs)) <$> poll true demo_burst 99 demo_poller =
  Some (2, [Deliver 2 0 99; Release 1; Deliver 1 2 99; Tick 2 99; Tick 1 99]).
Proof. vm_compute. reflexivity. Qed.

Lemma poller_dispatch_witness : exists n p' evs, poll true demo_burst 99 demo_poller = Some (n, p', evs) /\
  po_reg p' = po_reg demo_poller /\
  filter (fun ev => is_icmp ev = false) evs =
    routed (registrations (po_reg demo_poller)) 99 0 demo_burst ++
    map (fun x => Tick x.1 99) (rev (registrations (po_reg demo_poller))) /\
  n = zlen (filter (fun mb => target (registrations (po_reg demo_poller)) mb <> None) demo_burst) /\
  Forall (icmp_justified demo_poller demo_burst) evs.
Proof.
  apply (poller_dispatch demo_poller demo_burst 99); [apply demo_poller_ok|].
  repeat (constructor; [vm_compute; done|]). constructor.
Defined.
