(* ===== verification/DnsAsync.v ===== *)
(** * The asynchronous DNS resolver

    [AsyncDnsResolverT] of dns.hpp (eph-net-dpdk): a single-shot resolver driven by a
    poller, which delivers received packets and periodic ticks to it.

    [dns_async_sound]: over every sequence of calls, the life cycle of the resolver, what it
    sends, what it answers and the release of the mbufs it is given.
    [dns_reply_reaches_resolver]: the composition with the poller of Poller. *)

From S2P Require Import Prelude FixText Codecs PacketCore PacketParse PacketTemplate PollLoop Dns RouteTable Poller.

#[local] Open Scope Z_scope.

Definition kMaxAttempts : Z := 3.

Inductive ResolveStatus := Idle | InProgress | Ready | TimedOut | Failed.

#[global] Instance ResolveStatus_eq_dec : EqDecision ResolveStatus.
Proof. solve_decision. Defined.

(** The members.  [ad_pool]: the mempool is not null; [error_] the code of the [ErrorInfo];
    [attached_to_] names the poller. *)
Record AsyncDns := mkAsync {
  ad_pool : bool;
  ad_src_mac : list byte;
  ad_dst_mac : list byte;
  ad_src_ip : Z;
  ad_cfg : DnsConfig;
  hostname_ : list byte;
  tx_id_ : Z;
  tx_id_net_ : Z;
  src_port_ : Z;
  dns_payload_buf_ : list byte;
  dns_payload_len_ : Z;
  start_tsc_ : Z;
  next_send_tsc_ : Z;
  timeout_cycles_ : Z;
  retry_interval_cycles_ : Z;
  status_ : ResolveStatus;
  result_ip_ : Z;
  error_ : Error;
  attempts_sent_ : Z;
  resolve_duration_tsc_ : Z;
  attached_to_ : option nat
}.

(** Assignments to one member. *)
Definition set_hostname_ (v : list byte) (s : AsyncDns) : AsyncDns :=
  mkAsync (ad_pool s) (ad_src_mac s) (ad_dst_mac s) (ad_src_ip s) (ad_cfg s) v (tx_id_ s) (tx_id_net_ s)
    (src_port_ s) (dns_payload_buf_ s) (dns_payload_len_ s) (start_tsc_ s) (next_send_tsc_ s) (timeout_cycles_
    s) (retry_interval_cycles_ s) (status_ s) (result_ip_ s) (error_ s) (attempts_sent_ s)
    (resolve_duration_tsc_ s) (attached_to_ s).
Definition set_tx_id_ (v : Z) (s : AsyncDns) : AsyncDns :=
  mkAsync (ad_pool s) (ad_src_mac s) (ad_dst_mac s) (ad_src_ip s) (ad_cfg s) (hostname_ s) v (tx_id_net_ s)
    (src_port_ s) (dns_payload_buf_ s) (dns_payload_len_ s) (start_tsc_ s) (next_send_tsc_ s) (timeout_cycles_
    s) (retry_interval_cycles_ s) (status_ s) (result_ip_ s) (error_ s) (attempts_sent_ s)
    (resolve_duration_tsc_ s) (attached_to_ s).
Definition set_tx_id_net_ (v : Z) (s : AsyncDns) : AsyncDns :=
  mkAsync (ad_pool s) (ad_src_mac s) (ad_dst_mac s) (ad_src_ip s) (ad_cfg s) (hostname_ s) (tx_id_ s) v
    (src_port_ s) (dns_payload_buf_ s) (dns_payload_len_ s) (start_tsc_ s) (next_send_tsc_ s) (timeout_cycles_
    s) (retry_interval_cycles_ s) (status_ s) (result_ip_ s) (error_ s) (attempts_sent_ s)
    (resolve_duration_tsc_ s) (attached_to_ s).
Definition set_src_port_ (v : Z) (s : AsyncDns) : AsyncDns :=
  mkAsync (ad_pool s) (ad_src_mac s) (ad_dst_mac s) (ad_src_ip s) (ad_cfg s) (hostname_ s) (tx_id_ s)
    (tx_id_net_ s) v (dns_payload_buf_ s) (dns_payload_len_ s) (start_tsc_ s) (next_send_tsc_ s)
    (timeout_cycles_ s) (retry_interval_cycles_ s) (status_ s) (result_ip_ s) (error_ s) (attempts_sent_ s)
    (resolve_duration_tsc_ s) (attached_to_ s).
Definition set_dns_payload_buf_ (v : list byte) (s : AsyncDns) : AsyncDns :=
  mkAsync (ad_pool s) (ad_src_mac s) (ad_dst_mac s) (ad_src_ip s) (ad_cfg s) (hostname_ s) (tx_id_ s)
    (tx_id_net_ s) (src_port_ s) v (dns_payload_len_ s) (start_tsc_ s) (next_send_tsc_ s) (timeout_cycles_ s)
    (retry_interval_cycles_ s) (status_ s) (result_ip_ s) (error_ s) (attempts_sent_ s) (resolve_duration_tsc_
    s) (attached_to_ s).
Definition set_dns_payload_len_ (v : Z) (s : AsyncDns) : AsyncDns :=
  mkAsync (ad_pool s) (ad_src_mac s) (ad_dst_mac s) (ad_src_ip s) (ad_cfg s) (hostname_ s) (tx_id_ s)
    (tx_id_net_ s) (src_port_ s) (dns_payload_buf_ s) v (start_tsc_ s) (next_send_tsc_ s) (timeout_cycles_ s)
    (retry_interval_cycles_ s) (status_ s) (result_ip_ s) (error_ s) (attempts_sent_ s) (resolve_duration_tsc_
    s) (attached_to_ s).
Definition set_start_tsc_ (v : Z) (s : AsyncDns) : AsyncDns :=
  mkAsync (ad_pool s) (ad_src_mac s) (ad_dst_mac s) (ad_src_ip s) (ad_cfg s) (hostname_ s) (tx_id_ s)
    (tx_id_net_ s) (src_port_ s) (dns_payload_buf_ s) (dns_payload_len_ s) v (next_send_tsc_ s)
    (timeout_cycles_ s) (retry_interval_cycles_ s) (status_ s) (result_ip_ s) (error_ s) (attempts_sent_ s)
    (resolve_duration_tsc_ s) (attached_to_ s).
Definition set_next_send_tsc_ (v : Z) (s : AsyncDns) : AsyncDns :=
  mkAsync (ad_pool s) (ad_src_mac s) (ad_dst_mac s) (ad_src_ip s) (ad_cfg s) (hostname_ s) (tx_id_ s)
    (tx_id_net_ s) (src_port_ s) (dns_payload_buf_ s) (dns_payload_len_ s) (start_tsc_ s) v (timeout_cycles_
    s) (retry_interval_cycles_ s) (status_ s) (result_ip_ s) (error_ s) (attempts_sent_ s)
    (resolve_duration_tsc_ s) (attached_to_ s).
Definition set_timeout_cycles_ (v : Z) (s : AsyncDns) : AsyncDns :=
  mkAsync (ad_pool s) (ad_src_mac s) (ad_dst_mac s) (ad_src_ip s) (ad_cfg s) (hostname_ s) (tx_id_ s)
    (tx_id_net_ s) (src_port_ s) (dns_payload_buf_ s) (dns_payload_len_ s) (start_tsc_ s) (next_send_tsc_ s) v
    (retry_interval_cycles_ s) (status_ s) (result_ip_ s) (error_ s) (attempts_sent_ s) (resolve_duration_tsc_
    s) (attached_to_ s).
Definition set_retry_interval_cycles_ (v : Z) (s : AsyncDns) : AsyncDns :=
  mkAsync (ad_pool s) (ad_src_mac s) (ad_dst_mac s) (ad_src_ip s) (ad_cfg s) (hostname_ s) (tx_id_ s)
    (tx_id_net_ s) (src_port_ s) (dns_payload_buf_ s) (dns_payload_len_ s) (start_tsc_ s) (next_send_tsc_ s)
    (timeout_cycles_ s) v (status_ s) (result_ip_ s) (error_ s) (attempts_sent_ s) (resolve_duration_tsc_ s)
    (attached_to_ s).
Definition set_status_ (v : ResolveStatus) (s : AsyncDns) : AsyncDns :=
  mkAsync (ad_pool s) (ad_src_mac s) (ad_dst_mac s) (ad_src_ip s) (ad_cfg s) (hostname_ s) (tx_id_ s)
    (tx_id_net_ s) (src_port_ s) (dns_payload_buf_ s) (dns_payload_len_ s) (start_tsc_ s) (next_send_tsc_ s)
    (timeout_cycles_ s) (retry_interval_cycles_ s) v (result_ip_ s) (error_ s) (attempts_sent_ s)
    (resolve_duration_tsc_ s) (attached_to_ s).
Definition set_result_ip_ (v : Z) (s : AsyncDns) : AsyncDns :=
  mkAsync (ad_pool s) (ad_src_mac s) (ad_dst_mac s) (ad_src_ip s) (ad_cfg s) (hostname_ s) (tx_id_ s)
    (tx_id_net_ s) (src_port_ s) (dns_payload_buf_ s) (dns_payload_len_ s) (start_tsc_ s) (next_send_tsc_ s)
    (timeout_cycles_ s) (retry_interval_cycles_ s) (status_ s) v (error_ s) (attempts_sent_ s)
    (resolve_duration_tsc_ s) (attached_to_ s).
Definition set_error_ (v : Error) (s : AsyncDns) : AsyncDns :=
  mkAsync (ad_pool s) (ad_src_mac s) (ad_dst_mac s) (ad_src_ip s) (ad_cfg s) (hostname_ s) (tx_id_ s)
    (tx_id_net_ s) (src_port_ s) (dns_payload_buf_ s) (dns_payload_len_ s) (start_tsc_ s) (next_send_tsc_ s)
    (timeout_cycles_ s) (retry_interval_cycles_ s) (status_ s) (result_ip_ s) v (attempts_sent_ s)
    (resolve_duration_tsc_ s) (attached_to_ s).
Definition set_attempts_sent_ (v : Z) (s : AsyncDns) : AsyncDns :=
  mkAsync (ad_pool s) (ad_src_mac s) (ad_dst_mac s) (ad_src_ip s) (ad_cfg s) (hostname_ s) (tx_id_ s)
    (tx_id_net_ s) (src_port_ s) (dns_payload_buf_ s) (dns_payload_len_ s) (start_tsc_ s) (next_send_tsc_ s)
    (timeout_cycles_ s) (retry_interval_cycles_ s) (status_ s) (result_ip_ s) (error_ s) v
    (resolve_duration_tsc_ s) (attached_to_ s).
Definition set_resolve_duration_tsc_ (v : Z) (s : AsyncDns) : AsyncDns :=
  mkAsync (ad_pool s) (ad_src_mac s) (ad_dst_mac s) (ad_src_ip s) (ad_cfg s) (hostname_ s) (tx_id_ s)
    (tx_id_net_ s) (src_port_ s) (dns_payload_buf_ s) (dns_payload_len_ s) (start_tsc_ s) (next_send_tsc_ s)
    (timeout_cycles_ s) (retry_interval_cycles_ s) (status_ s) (result_ip_ s) (error_ s) (attempts_sent_ s) v
    (attached_to_ s).
Definition set_attached_to_ (v : option nat) (s : AsyncDns) : AsyncDns :=
  mkAsync (ad_pool s) (ad_src_mac s) (ad_dst_mac s) (ad_src_ip s) (ad_cfg s) (hostname_ s) (tx_id_ s)
    (tx_id_net_ s) (src_port_ s) (dns_payload_buf_ s) (dns_payload_len_ s) (start_tsc_ s) (next_send_tsc_ s)
    (timeout_cycles_ s) (retry_interval_cycles_ s) (status_ s) (result_ip_ s) (error_ s) (attempts_sent_ s)
    (resolve_duration_tsc_ s) v.

Definition async_init (pool : bool) (smac dmac : list byte) (sip : Z) (cfg : DnsConfig) : AsyncDns :=
  mkAsync pool smac dmac sip cfg [] 0 0 0 (repeat x00 512) 0 0 0 0 0 Idle 0 Timeout 0 0 None.

(** What a call may observe: the random bytes, the clock, [TSC::to_cycles] on nanoseconds
    ([None]: not calibrated), the mbuf an allocation yields and whether [tx_burst] takes it. *)
Record async_env := mkAsyncEnv {
  ae_rnd_id : option Z;
  ae_rnd_port : option Z;
  ae_tsc : Z;
  ae_cycles : option (Z -> Z);
  ae_alloc : option fresh_mbuf;
  ae_tx_ok : bool
}.

Definition is_done (s : AsyncDns) : bool :=
  bool_decide (status_ s = Ready) || bool_decide (status_ s = TimedOut) || bool_decide (status_ s = Failed).

Definition result (s : AsyncDns) : expected Z Error :=
  if bool_decide (status_ s = Ready) then Ok (result_ip_ s) else Err (error_ s).

Definition set_error (s : AsyncDns) (code : Error) : AsyncDns := set_error_ code (set_status_ Failed s).

(** What becomes of the mbufs of the transmit path: one is taken from the pool, and handed to the
    NIC with its frame or released. *)
Inductive tx_event := Taken | Handed (frame : list byte) | Released.

(** Whether the query was sent, and what was done with the mbuf: [build_dns_packet] takes one and
    releases it if the query does not fit, and one that [tx_burst] rejects is released. *)
Definition send_query_ (e : async_env) (s : AsyncDns) : option (bool * list tx_event) :=
  b ← build_dns_packet (if ad_pool s then match ae_alloc e with Some f => Alloc f | None => Exhausted end else NullPool)
        (ad_src_mac s) (ad_dst_mac s) (ad_src_ip s) (nameserver_ip (ad_cfg s)) (src_port_ s) (dns_port (ad_cfg s))
        (dns_payload_buf_ s) (dns_payload_len_ s);
  match b with
  | NoMbuf => Some (false, [])
  | Freed => Some (false, [Taken; Released])
  | Built m => if ae_tx_ok e then Some (true, [Taken; Handed (tx_data m)]) else Some (false, [Taken; Released])
  end.

Definition kCyclesPerMsAt3GHz : Z := 3000000.

Definition saturating_ms_to_cycles (ms : Z) : Z :=
  if ms <=? 0 then 0
  else if UINT64_MAX / kCyclesPerMsAt3GHz <=? ms then UINT64_MAX
  else ms * kCyclesPerMsAt3GHz.

(** [to_cycles] with the 3 GHz estimate when the clock is not calibrated. *)
Definition ms_to_cycles (e : async_env) (ms : Z) : Z :=
  match ae_cycles e with
  | None => saturating_ms_to_cycles ms
  | Some f => f (ms * 1000000)
  end.

Definition start (e : async_env) (hostname : list byte) (s : AsyncDns)
    : option (expected unit Error * AsyncDns * list tx_event) :=
  if negb (bool_decide (status_ s = Idle)) then Some (Err InvalidConfig, s, []) else
  let s := set_hostname_ hostname s in
  let refuse s := Some (Err InvalidConfig, set_error s InvalidConfig, []) in
  let fast_ip := parse_ipv4 (Some hostname) in
  if negb (fast_ip =? 0) then Some (Ok tt, set_status_ Ready (set_result_ip_ fast_ip s), []) else
  match dns_validate (ad_cfg s) with
  | Some _ => refuse s
  | None =>
    if zlen hostname =? 0 then refuse s else
    if negb (ad_pool s) then refuse s else
    match ae_rnd_id e with
    | None => refuse s
    | Some id =>
      let s := set_tx_id_ id s in
      match select_dns_src_port (ae_rnd_port e) with
      | None => refuse s
      | Some p =>
        let s := set_src_port_ p s in
        let s := set_tx_id_net_ (hton16 (tx_id_ s)) s in
        '(len, buf) ← build_dns_query (dns_payload_buf_ s) (tx_id_net_ s) hostname;
        let s := set_dns_payload_len_ len (set_dns_payload_buf_ buf s) in
        if len =? 0 then refuse s else
        let s := set_start_tsc_ (ae_tsc e) s in
        let s := set_timeout_cycles_ (ms_to_cycles e (timeout_ms (ad_cfg s))) s in
        let retry_ms := Z.max (Z.quot (timeout_ms (ad_cfg s)) kMaxAttempts) 100 in
        let s := set_retry_interval_cycles_ (ms_to_cycles e retry_ms) s in
        let s := set_status_ InProgress s in
        '(sent, wire) ← send_query_ e s;
        let s := if (sent : bool) then set_attempts_sent_ (attempts_sent_ s + 1) s else s in
        Some (Ok tt, set_next_send_tsc_ (u64 (start_tsc_ s + retry_interval_cycles_ s)) s, wire)
      end
    end
  end.

(** The burst from packet [i]: the mbufs are released in order. *)
Fixpoint process_burst (i : nat) (pkts : list mbuf) (rx_tsc : Z) (s : AsyncDns) : option (AsyncDns * list nat) :=
  match pkts with
  | [] => Some (s, [])
  | m :: rest =>
    s ← (if is_done s then Some s else
         resolved ← try_parse_dns_packet (Some m) (tx_id_net_ s) (nameserver_ip (ad_cfg s)) (dns_port (ad_cfg s))
                      (src_port_ s) (ad_src_ip s);
         match resolved with
         | Some ip => Some (set_resolve_duration_tsc_ (u64 (rx_tsc - start_tsc_ s))
                              (set_status_ Ready (set_result_ip_ ip s)))
         | None => Some s
         end);
    '(s, freed) ← process_burst (S i) rest rx_tsc s;
    Some (s, i :: freed)
  end.

Definition process_burst_ (pkts : list mbuf) (rx_tsc : Z) (s : AsyncDns) : option (AsyncDns * list nat) :=
  process_burst 0 pkts rx_tsc s.

Definition on_poll_tick_ (e : async_env) (tsc : Z) (s : AsyncDns) : option (AsyncDns * list tx_event) :=
  if negb (bool_decide (status_ s = InProgress)) then Some (s, []) else
  if timeout_cycles_ s <=? u64 (tsc - start_tsc_ s) then
    let s := set_error_ Timeout (set_status_ TimedOut s) in
    Some (set_resolve_duration_tsc_ (u64 (tsc - start_tsc_ s)) s, [])
  else if (attempts_sent_ s <? kMaxAttempts) && (next_send_tsc_ s <=? tsc) then
    '(sent, wire) ← send_query_ e s;
    let s := if (sent : bool) then set_attempts_sent_ (attempts_sent_ s + 1) s else s in
    Some (set_next_send_tsc_ (u64 (tsc + retry_interval_cycles_ s)) s, wire)
  else Some (s, []).

(** Source and destination address and port, protocol. *)
Definition tuple_for_poller_ (s : AsyncDns) : Z * Z * Z * Z * Z :=
  (ad_src_ip s, nameserver_ip (ad_cfg s), src_port_ s, dns_port (ad_cfg s), kIpProtoUdp).

Definition notify_attached_ (p : nat) (s : AsyncDns) : AsyncDns := set_attached_to_ (Some p) s.
Definition notify_detached_ (s : AsyncDns) : AsyncDns := set_attached_to_ None s.
Definition is_attached (s : AsyncDns) : bool := bool_decide (attached_to_ s <> None).

(** ** Calls *)

Inductive async_call :=
| CallStart (e : async_env) (hostname : list byte)
| CallBurst (pkts : list mbuf) (rx_tsc : Z)
| CallTick (e : async_env) (tsc : Z)
| CallAttach (p : nat)
| CallDetach.

(** The effects of a call: mbufs of the transmit path, received mbufs released. *)
Definition async_step (c : async_call) (s : AsyncDns) : option (AsyncDns * list tx_event * list nat) :=
  match c with
  | CallStart e h => '(_, s, w) ← start e h s; Some (s, w, [])
  | CallBurst pkts tsc => '(s, freed) ← process_burst_ pkts tsc s; Some (s, [], freed)
  | CallTick e tsc => '(s, w) ← on_poll_tick_ e tsc s; Some (s, w, [])
  | CallAttach p => Some (notify_attached_ p s, [], [])
  | CallDetach => Some (notify_detached_ s, [], [])
  end.

Fixpoint async_run (cs : list async_call) (s : AsyncDns) : option (AsyncDns * list tx_event * list (list nat)) :=
  match cs with
  | [] => Some (s, [], [])
  | c :: cs =>
    '(s, w, freed) ← async_step c s;
    '(s, w', freed') ← async_run cs s;
    Some (s, w ++ w', freed :: freed')
  end.

(** ** The invariant *)

(** The frames on the wire. *)
Definition frames (w : list tx_event) : list (list byte) := omap (fun x => match x with Handed f => Some f | _ => None end) w.

(** Every mbuf taken is handed over or released at once, and no other is. *)
Inductive settled : list tx_event -> Prop :=
| settled_nil : settled []
| settled_sent f w : settled w -> settled (Taken :: Handed f :: w)
| settled_freed w : settled w -> settled (Taken :: Released :: w).

Lemma settled_app w w' : settled w -> settled w' -> settled (w ++ w').
Proof. induction 1; intros; [done|..]; cbn [app]; constructor; auto. Qed.

Lemma settled_suffix w w' : settled w -> settled (w ++ w') -> settled w'.
Proof. induction 1 as [|f w _ IH|w _ IH]; intros H'; [done|..]; cbn [app] in H'; inversion H'; subst; auto. Qed.

Lemma frames_app w w' : frames (w ++ w') = frames w ++ frames w'.
Proof. apply omap_app. Qed.

Definition async_env_ok (e : async_env) : Prop :=
  (forall f, ae_alloc e = Some f -> room_ok f) /\ (forall r, ae_rnd_port e = Some r -> 0 <= r).

Definition call_ok (c : async_call) : Prop :=
  match c with CallStart e _ | CallTick e _ => async_env_ok e | _ => True end.

(** A packet delivered by one of the calls answers the query of [s] with [ip]. *)
Definition answered (cs : list async_call) (s : AsyncDns) (ip : Z) : Prop :=
  exists pkts tsc m, CallBurst pkts tsc ∈ cs /\ m ∈ pkts /\ nb_segs m <= 1 /\
    reply_packet (mb_data m) (tx_id_net_ s) (nameserver_ip (ad_cfg s)) (dns_port (ad_cfg s)) (src_port_ s) (ad_src_ip s) ip.

Definition is_query (s : AsyncDns) (w : list byte) : Prop :=
  query_packet w (ad_src_ip s) (nameserver_ip (ad_cfg s)) (src_port_ s) (dns_port (ad_cfg s)) (tx_id_net_ s) (hostname_ s).

Record config_valid (s : AsyncDns) : Prop := {
  cv_smac : zlen (ad_src_mac s) = 6;
  cv_dmac : zlen (ad_dst_mac s) = 6;
  cv_sip : 0 <= ad_src_ip s < 2 ^ 32;
  cv_ns : 0 <= nameserver_ip (ad_cfg s) < 2 ^ 32;
  cv_port : 0 <= dns_port (ad_cfg s) < 2 ^ 16
}.

(** [s] after the calls [cs], with [w] on the transmit path. *)
Record async_inv (cs : list async_call) (w : list tx_event) (s : AsyncDns) : Prop := {
  ai_config : config_valid s;
  ai_count : attempts_sent_ s = zlen (frames w);
  ai_max : zlen (frames w) <= kMaxAttempts;
  ai_wire : Forall (is_query s) (frames w);
  ai_settled : settled w;
  ai_idle : status_ s = Idle -> w = [] /\ zlen (dns_payload_buf_ s) = kMaxDnsPacketLen;
  ai_query : status_ s = InProgress ->
    hostname_ok (hostname_ s) /\ 49152 <= src_port_ s <= 65535 /\
    slice (dns_payload_buf_ s) 0 (dns_payload_len_ s) = Some (query_bytes (tx_id_net_ s) (hostname_ s));
  ai_ready : status_ s = Ready ->
    parse_ipv4 (Some (hostname_ s)) = result_ip_ s /\ result_ip_ s <> 0 \/ answered cs s (result_ip_ s);
  ai_timeout : status_ s = TimedOut -> error_ s = Timeout;
  ai_failed : status_ s = Failed -> error_ s = InvalidConfig /\ w = []
}.

(** The members a call other than the first [start] leaves alone. *)
Definition same_query (s s' : AsyncDns) : Prop :=
  ad_src_mac s' = ad_src_mac s /\ ad_dst_mac s' = ad_dst_mac s /\ ad_src_ip s' = ad_src_ip s /\ ad_cfg s' = ad_cfg s /\
  src_port_ s' = src_port_ s /\ tx_id_net_ s' = tx_id_net_ s /\ hostname_ s' = hostname_ s /\
  dns_payload_buf_ s' = dns_payload_buf_ s /\ dns_payload_len_ s' = dns_payload_len_ s.

(** Projections of updated states. *)
#[local] Ltac asimp := cbn [
  ad_pool ad_src_mac ad_dst_mac ad_src_ip ad_cfg hostname_ tx_id_ tx_id_net_ src_port_ dns_payload_buf_
  dns_payload_len_ start_tsc_ next_send_tsc_ timeout_cycles_ retry_interval_cycles_ status_ result_ip_ error_
  attempts_sent_ resolve_duration_tsc_ attached_to_ set_hostname_ set_tx_id_ set_tx_id_net_ set_src_port_
  set_dns_payload_buf_ set_dns_payload_len_ set_start_tsc_ set_next_send_tsc_ set_timeout_cycles_
  set_retry_interval_cycles_ set_status_ set_result_ip_ set_error_ set_attempts_sent_
  set_resolve_duration_tsc_ set_attached_to_ set_error].

Lemma send_query_spec e s : async_env_ok e -> config_valid s ->
  hostname_ok (hostname_ s) -> 49152 <= src_port_ s <= 65535 ->
  slice (dns_payload_buf_ s) 0 (dns_payload_len_ s) = Some (query_bytes (tx_id_net_ s) (hostname_ s)) ->
  exists sent wire, send_query_ e s = Some (sent, wire) /\ Forall (is_query s) (frames wire) /\ zlen (frames wire) = Z.b2z sent /\ settled wire.
Proof.
  intros [He _] [] Hok Hsp Hs. unfold send_query_.
  destruct (build_dns_packet_query (ad_src_mac s) (ad_dst_mac s) (ad_src_ip s) (hostname_ s) (ad_cfg s) cv_smac0 cv_dmac0
    cv_sip0 cv_ns0 cv_port0 (tx_id_net_ s) (src_port_ s) (dns_payload_buf_ s) (dns_payload_len_ s)
    (mkFresh (fun _ => None) (0, 0, 0)) Hok Hsp Hs) as (Hq & Hlen & _); [done|].
  assert (forall pool, pool = NullPool \/ pool = Exhausted ->
    build_dns_packet pool (ad_src_mac s) (ad_dst_mac s) (ad_src_ip s) (nameserver_ip (ad_cfg s)) (src_port_ s)
      (dns_port (ad_cfg s)) (dns_payload_buf_ s) (dns_payload_len_ s) = Some NoMbuf) as Hnone.
  { intros pool Hp. unfold build_dns_packet. rewrite (proj2 (Z.ltb_ge _ _)) by lia. by destruct Hp as [->| ->]. }
  destruct (ad_pool s); [|rewrite Hnone by (by left); exists false, []; by repeat constructor].
  destruct (ae_alloc e) as [f|] eqn:Ea; [|rewrite Hnone by (by right); exists false, []; by repeat constructor].
  destruct (build_dns_packet_query (ad_src_mac s) (ad_dst_mac s) (ad_src_ip s) (hostname_ s) (ad_cfg s) cv_smac0 cv_dmac0
    cv_sip0 cv_ns0 cv_port0 (tx_id_net_ s) (src_port_ s) (dns_payload_buf_ s) (dns_payload_len_ s) f Hok Hsp Hs (He f eq_refl))
    as (_ & _ & [->|(m & -> & Hm)]); cbn [mbind option_bind]; [exists false, [Taken; Released]; by repeat constructor|].
  destruct (ae_tx_ok e); [|exists false, [Taken; Released]; by repeat constructor]. exists true, [Taken; Handed (tx_data m)]. split; [done|]. rewrite Hm.
  split; [by repeat constructor|]. split; [done|]. by repeat constructor.
Qed.

Lemma answered_mono cs c s s' ip : same_query s s' -> answered cs s ip -> answered (cs ++ [c]) s' ip.
Proof.
  intros (_ & _ & E1 & E2 & E3 & E4 & _) (pkts & tsc & m & Hc & Hm & Hn & Hr). exists pkts, tsc, m.
  rewrite E1, E2, E3, E4. split_and!; try done. apply elem_of_app. by left.
Qed.

Lemma is_query_same s s' : same_query s s' -> forall w, is_query s w -> is_query s' w.
Proof. unfold is_query. intros (_ & _ & -> & -> & -> & -> & -> & _) w Hw. done. Qed.

Lemma config_same s s' : same_query s s' -> config_valid s -> config_valid s'.
Proof. intros (E1 & E2 & E3 & E4 & _) []. by constructor; rewrite ?E1, ?E2, ?E3, ?E4. Qed.

Lemma inv_refl cs w s c : async_inv cs w s -> async_inv (cs ++ [c]) w s.
Proof.
  intros []. constructor; try done. intros Hr. destruct (ai_ready0 Hr) as [?|H]; [by left|right].
  by eapply answered_mono; [|exact H].
Qed.

Lemma inv_in_progress cs w s : config_valid s -> attempts_sent_ s = zlen (frames w) -> zlen (frames w) <= kMaxAttempts ->
  Forall (is_query s) (frames w) -> settled w -> status_ s = InProgress -> hostname_ok (hostname_ s) -> 49152 <= src_port_ s <= 65535 ->
  slice (dns_payload_buf_ s) 0 (dns_payload_len_ s) = Some (query_bytes (tx_id_net_ s) (hostname_ s)) ->
  async_inv cs w s.
Proof. intros H1 H2 H3 H4 H0 H5 H6 H7 H8. constructor; try assumption; try congruence. intros _. exact (conj H6 (conj H7 H8)). Qed.

(** The bookkeeping behind an attempt to send. *)
Lemma inv_sent cs w s wire (sent : bool) next : config_valid s -> attempts_sent_ s = zlen (frames w) -> zlen (frames w) < kMaxAttempts ->
  Forall (is_query s) (frames w ++ frames wire) -> zlen (frames wire) = Z.b2z sent -> settled (w ++ wire) -> status_ s = InProgress ->
  hostname_ok (hostname_ s) -> 49152 <= src_port_ s <= 65535 ->
  slice (dns_payload_buf_ s) 0 (dns_payload_len_ s) = Some (query_bytes (tx_id_net_ s) (hostname_ s)) ->
  let s' := set_next_send_tsc_ next (if sent then set_attempts_sent_ (attempts_sent_ s + 1) s else s) in
  async_inv cs (w ++ wire) s' /\ same_query s s' /\ status_ s' = InProgress.
Proof.
  intros Hc Hn Hm Hw Hz Hse Hst Hok Hsp Hs. cbv zeta.
  assert (forall s', same_query s s' -> status_ s' = InProgress -> attempts_sent_ s' = attempts_sent_ s + Z.b2z sent ->
    async_inv cs (w ++ wire) s') as Hgo.
  { intros s' Hsame Hst' Hat. pose proof Hsame as (_ & _ & _ & _ & E5 & E6 & E7 & E8 & E9).
    apply inv_in_progress; rewrite ?frames_app, ?zlen_app, ?E5, ?E6, ?E7, ?E8, ?E9; try assumption.
    - by eapply config_same.
    - lia.
    - unfold kMaxAttempts in *. destruct sent; cbn [Z.b2z] in Hz; lia.
    - eapply list.Forall_impl; [exact Hw|by apply is_query_same]. }
  destruct sent; (split; [apply Hgo; asimp; [done|done|cbn [Z.b2z]; lia]|by split]).
Qed.

Lemma start_idle_inv cs s e h : async_inv cs [] s -> status_ s = Idle -> async_env_ok e ->
  exists r s' w, start e h s = Some (r, s', w) /\ async_inv (cs ++ [CallStart e h]) w s' /\
    (r = Err InvalidConfig /\ status_ s' = Failed \/ r = Ok tt /\ (status_ s' = Ready \/ status_ s' = InProgress)).
Proof.
  intros [Hc Hn _ _ _ Hi _ _ _ _] Hst He. destruct (Hi Hst) as [_ Hbuf]. unfold start.
  rewrite bool_decide_eq_true_2 by done. cbn [negb]. asimp.
  assert (forall s', ad_src_mac s' = ad_src_mac s -> ad_dst_mac s' = ad_dst_mac s -> ad_src_ip s' = ad_src_ip s ->
    ad_cfg s' = ad_cfg s -> attempts_sent_ s' = attempts_sent_ s -> exists r s'' w,
    Some (Err InvalidConfig, set_error s' InvalidConfig, []) = Some (r, s'', w) /\
    async_inv (cs ++ [CallStart e h]) w s'' /\
    (r = Err InvalidConfig /\ status_ s'' = Failed \/ r = Ok tt /\ (status_ s'' = Ready \/ status_ s'' = InProgress))) as Hrefuse.
  { intros s' E1 E2 E3 E4 E5. eexists _, _, _. split; [reflexivity|]. split; [|by left].
    destruct Hc. constructor; asimp; try done; [by constructor; asimp; rewrite ?E1, ?E2, ?E3, ?E4|by rewrite E5|constructor]. }
  destruct (Z.eqb_spec (parse_ipv4 (Some h)) 0) as [_|Hip]; cbn [negb].
  2: { eexists _, _, _. split; [reflexivity|]. split; [|by right; split; [|left]]. destruct Hc. constructor; asimp; try done; [constructor|].
       intros _. by left. }
  destruct (dns_validate (ad_cfg s)); [by apply Hrefuse|].
  destruct (Z.eqb_spec (zlen h) 0); [by apply Hrefuse|].
  destruct (ad_pool s) eqn:Ep; cbn [negb]; [|by apply Hrefuse].
  destruct (ae_rnd_id e) as [id|]; [|by apply Hrefuse].
  pose proof (select_port_cases (ae_rnd_port e) (proj2 He)) as Hsel.
  destruct (select_dns_src_port (ae_rnd_port e)) as [p|]; [|by apply Hrefuse]. asimp.
  destruct (build_dns_query_exact (dns_payload_buf_ s) (hton16 id) h Hbuf) as [Hq1 Hq2].
  destruct (decide (hostname_ok h)) as [Hok|Hno].
  2: { destruct (Hq2 Hno) as (o & ->). cbn [mbind option_bind]. by apply Hrefuse. }
  rewrite (Hq1 Hok). cbn [mbind option_bind]. pose proof (zlen_nonneg h). rewrite (proj2 (Z.eqb_neq _ 0)) by lia.
  match goal with |- context [send_query_ e ?x] => pose (s1 := x); change x with s1 end.
  assert (config_valid s1) as Hc1 by (destruct Hc; by constructor).
  assert (attempts_sent_ s = attempts_sent_ s1 /\ status_ s1 = InProgress /\ hostname_ s1 = h /\ src_port_ s1 = p /\ tx_id_net_ s1 = hton16 id)
    as (Ha1 & Hst1 & Hh1 & Hp1 & Ht1) by (split_and!; reflexivity).
  assert (slice (dns_payload_buf_ s1) 0 (dns_payload_len_ s1) = Some (query_bytes (tx_id_net_ s1) (hostname_ s1))) as Hs1
    by (subst s1; asimp; apply (slice_mid []); [done|by rewrite zlen_query]).
  clearbody s1. subst h p. rewrite Ha1 in Hn |- *.
  destruct (send_query_spec e s1 He Hc1 Hok Hsel Hs1) as (sent & wire & -> & Hw & Hz & Hse).
  cbn [mbind option_bind]. eexists _, _, _. split; [reflexivity|].
  match goal with |- async_inv ?calls _ (set_next_send_tsc_ ?n _) /\ _ =>
    destruct (inv_sent calls [] s1 wire sent n) as (Hi' & _ & Hst') end; try assumption.
  { done. }
  split; [exact Hi'|]. right. split; [done|]. by right.
Qed.

Lemma tick_inv cs w s e tsc : async_inv cs w s -> async_env_ok e ->
  exists s' w', on_poll_tick_ e tsc s = Some (s', w') /\ async_inv (cs ++ [CallTick e tsc]) (w ++ w') s' /\
    same_query s s' /\ (status_ s' = status_ s \/ status_ s = InProgress /\ status_ s' = TimedOut).
Proof.
  intros Hinv He. unfold on_poll_tick_.
  destruct (decide (status_ s = InProgress)) as [Hst|Hst];
    [rewrite bool_decide_eq_true_2 by done|rewrite bool_decide_eq_false_2 by done]; cbn [negb].
  2: { exists s, []. rewrite app_nil_r. split; [done|]. split; [by apply inv_refl|]. split; [done|by left]. }
  destruct (Z.leb_spec (timeout_cycles_ s) (u64 (tsc - start_tsc_ s))).
  { eexists _, []. rewrite app_nil_r. split; [reflexivity|]. destruct Hinv as [[] ? ? ? ? _ _ _ _ _].
    split; [constructor; asimp; try done; by constructor|]. split; [done|]. by right. }
  destruct (_ && _) eqn:Eg.
  2: { exists s, []. rewrite app_nil_r. split; [done|]. split; [by apply inv_refl|]. split; [done|by left]. }
  apply andb_true_iff in Eg as [Eg%Z.ltb_lt _].
  destruct Hinv as [Hc Hn Hm Hwi Hsw _ Hqu _ _ _]. destruct (Hqu Hst) as (Hok & Hsp & Hs).
  destruct (send_query_spec e s He Hc Hok Hsp Hs) as (sent & wire & -> & Hw & Hz & Hse). cbn [mbind option_bind].
  eexists _, wire. split; [reflexivity|]. unfold kMaxAttempts in *.
  match goal with |- async_inv _ _ (set_next_send_tsc_ ?n _) /\ _ =>
    destruct (inv_sent (cs ++ [CallTick e tsc]) w s wire sent n) as (Hi' & Hsame & Hst') end; try assumption.
  { unfold kMaxAttempts. lia. }
  { by apply list.Forall_app. }
  { by apply settled_app. }
  split; [exact Hi'|]. split; [exact Hsame|]. left. congruence.
Qed.

Lemma is_done_status s : is_done s = true <-> status_ s = Ready \/ status_ s = TimedOut \/ status_ s = Failed.
Proof. unfold is_done. rewrite !orb_true_iff, !bool_decide_eq_true. tauto. Qed.

(** The burst on a finished resolver only releases the mbufs. *)
Lemma burst_done pkts tsc s : is_done s = true -> forall i, process_burst i pkts tsc s = Some (s, seq i (length pkts)).
Proof.
  intros Hd. induction pkts as [|m rest IH]; intros i; [done|]. cbn [process_burst]. rewrite Hd. cbn [mbind option_bind].
  by rewrite IH.
Qed.

Lemma burst_spec pkts tsc s : forall i, exists s',
  process_burst i pkts tsc s = Some (s', seq i (length pkts)) /\
  (s' = s \/ is_done s = false /\ exists m ip, m ∈ pkts /\ nb_segs m <= 1 /\
     reply_packet (mb_data m) (tx_id_net_ s) (nameserver_ip (ad_cfg s)) (dns_port (ad_cfg s)) (src_port_ s) (ad_src_ip s) ip /\
     s' = set_resolve_duration_tsc_ (u64 (tsc - start_tsc_ s)) (set_status_ Ready (set_result_ip_ ip s))).
Proof.
  destruct (is_done s) eqn:Hd; [intros i; exists s; split; [by apply burst_done|by left]|].
  induction pkts as [|m rest IH]; intros i; [exists s; split; [done|by left]|]. cbn [process_burst]. rewrite Hd.
  destruct (try_parse_exact m (tx_id_net_ s) (nameserver_ip (ad_cfg s)) (dns_port (ad_cfg s)) (src_port_ s) (ad_src_ip s))
    as (r & -> & Hr). cbn [mbind option_bind]. destruct r as [ip|]; cbn [mbind option_bind].
  - rewrite burst_done by (by apply is_done_status; left). cbn [mbind option_bind]. eexists. split; [reflexivity|]. right.
    split; [done|]. destruct (proj1 (Hr ip) eq_refl). exists m, ip. split_and!; try done. by left.
  - destruct (IH (S i)) as (s' & -> & Hs). cbn [mbind option_bind]. exists s'. split; [done|].
    destruct Hs as [->|(_ & m' & ip & Hm & Hs)]; [by left|right]. split; [done|]. exists m', ip. split; [by right|done].
Qed.

Lemma burst_inv cs w s pkts tsc : async_inv cs w s ->
  exists s', process_burst_ pkts tsc s = Some (s', seq 0 (length pkts)) /\
    async_inv (cs ++ [CallBurst pkts tsc]) w s' /\
    (s' = s \/ is_done s = false /\ status_ s' = Ready).
Proof.
  intros Hinv. unfold process_burst_. destruct (burst_spec pkts tsc s 0) as (s' & -> & Hs). exists s'. split; [done|].
  destruct Hs as [->|(Hd & m & ip & Hm & Hn & Hr & ->)]; [split; [by apply inv_refl|by left]|].
  split; [|right; by split]. destruct Hinv as [[] ? ? Hw ? _ _ _ _ _]. constructor; asimp; try done.
  intros _. right. exists pkts, tsc, m. asimp. split; [apply elem_of_app; right; by constructor|]. done.
Qed.

(** The life cycle. *)
Inductive advances : ResolveStatus -> ResolveStatus -> Prop :=
| adv_stay st : advances st st
| adv_started : advances Idle InProgress
| adv_failed : advances Idle Failed
| adv_answered st : st = Idle \/ st = InProgress -> advances st Ready
| adv_expired : advances InProgress TimedOut.

(** The mbufs of the call, in order. *)
Definition mbufs_of (c : async_call) : list nat :=
  match c with CallBurst pkts _ => seq 0 (length pkts) | _ => [] end.

Lemma async_step_inv cs w s c : async_inv cs w s -> call_ok c ->
  exists s' w', async_step c s = Some (s', w', mbufs_of c) /\ async_inv (cs ++ [c]) (w ++ w') s' /\
    advances (status_ s) (status_ s') /\
    (is_done s = true -> w' = [] /\ status_ s' = status_ s /\ result s' = result s).
Proof.
  intros Hinv Hc. destruct c as [e h|pkts tsc|e tsc|p|]; cbn [async_step mbufs_of].
  - destruct (decide (status_ s = Idle)) as [Hst|Hst].
    + destruct (ai_idle _ _ _ Hinv Hst) as [-> _].
      destruct (start_idle_inv cs s e h Hinv Hst Hc) as (r & s' & w' & -> & Hi & Hs). cbn [mbind option_bind].
      exists s', w'. split; [done|]. split; [done|]. rewrite Hst. split.
      * destruct Hs as [[_ ->]|[_ [->| ->]]]; constructor. by left.
      * intros Hd%is_done_status. rewrite Hst in Hd. by destruct Hd as [|[|]].
    + exists s, []. rewrite app_nil_r. unfold start. rewrite bool_decide_eq_false_2 by done. cbn [negb mbind option_bind].
      split; [done|]. split; [by apply inv_refl|]. split; [constructor|done].
  - destruct (burst_inv cs w s pkts tsc Hinv) as (s' & -> & Hi & Hs). cbn [mbind option_bind]. exists s', [].
    rewrite app_nil_r. split; [done|]. split; [done|]. destruct Hs as [->|[Hd Hs]]; [split; [constructor|done]|].
    split; [|by rewrite Hd]. rewrite Hs. constructor. destruct (status_ s) eqn:E; try tauto;
      exfalso; revert Hd; apply not_false_iff_true, is_done_status; tauto.
  - destruct (tick_inv cs w s e tsc Hinv Hc) as (s' & w' & E & Hi & _ & Hs). rewrite E. cbn [mbind option_bind]. exists s', w'.
    split; [done|]. split; [done|]. split; [destruct Hs as [->|[-> ->]]; constructor|].
    intros Hd%is_done_status. unfold on_poll_tick_ in E. rewrite bool_decide_eq_false_2 in E by (intros E'; rewrite E' in Hd; by destruct Hd as [|[|]]).
    cbn [negb] in E. by injection E as <- <-.
  - exists (notify_attached_ p s), []. rewrite app_nil_r. split; [done|]. split; [|split; [constructor|done]].
    apply (inv_refl _ _ _ (CallAttach p)) in Hinv as [[] ? ? ? ? ? ? ? ? ?]. by constructor.
  - exists (notify_detached_ s), []. rewrite app_nil_r. split; [done|]. split; [|split; [constructor|done]].
    apply (inv_refl _ _ _ CallDetach) in Hinv as [[] ? ? ? ? ? ? ? ? ?]. by constructor.
Qed.

Lemma async_run_inv cs : forall done w s, async_inv done w s -> Forall call_ok cs ->
  exists s' w', async_run cs s = Some (s', w', map mbufs_of cs) /\ async_inv (done ++ cs) (w ++ w') s' /\
    (is_done s = true -> w' = [] /\ status_ s' = status_ s /\ result s' = result s).
Proof.
  induction cs as [|c cs IH]; intros dn w s Hinv Hcs; cbn [async_run map].
  { exists s, []. by rewrite !app_nil_r. }
  inversion Hcs as [|? ? Hc Hcs']; subst.
  destruct (async_step_inv dn w s c Hinv Hc) as (s1 & w1 & -> & Hi & _ & Hd). cbn [mbind option_bind].
  destruct (IH (dn ++ [c]) (w ++ w1) s1 Hi Hcs') as (s' & w' & -> & Hi' & Hd'). cbn [mbind option_bind].
  exists s', (w1 ++ w'). rewrite <- app_assoc in Hi'. cbn [app] in Hi'. rewrite app_assoc. split; [done|]. split; [done|].
  intros H. destruct (Hd H) as (-> & Es & Er). destruct Hd' as (-> & Es' & Er'); [|by rewrite Es', Er'].
  apply is_done_status in H. apply is_done_status. by rewrite Es.
Qed.

(** ** Theorems *)

Section sound.
Context (pool : bool) (smac dmac : list byte) (sip : Z) (cfg : DnsConfig).
Hypothesis (Hsm : zlen smac = 6) (Hdm : zlen dmac = 6) (Hsip : 0 <= sip < 2 ^ 32)
  (Hns : 0 <= nameserver_ip cfg < 2 ^ 32) (Hport : 0 <= dns_port cfg < 2 ^ 16).

Lemma async_init_inv : async_inv [] [] (async_init pool smac dmac sip cfg).
Proof. constructor; try done; by constructor. Qed.

(** C35: The asynchronous resolver.  Over every sequence of its calls -- starts, bursts of
    received packets, ticks, attaching and detaching, in any order and with any clock,
    randomness and packets -- the resolver stays defined; it sends at most three packets,
    counted by [attempts_sent_], each a well-formed query for its hostname with its id and
    port; an mbuf taken for a query is handed to the NIC or released at once, and released
    when the NIC rejects it; it releases the mbufs of every burst exactly once, in order; an address it reports
    is the dotted-decimal hostname itself or that of the first A record of a delivered reply
    from the name server to its port with its id; every further call moves its status only
    along the life cycle; and once it is done its status and result never change and it
    sends nothing more. *)
Theorem dns_async_sound cs more : Forall call_ok cs -> Forall call_ok more ->
  exists s w s' w',
    async_run cs (async_init pool smac dmac sip cfg) = Some (s, w, map mbufs_of cs) /\
    async_run more s = Some (s', w', map mbufs_of more) /\
    attempts_sent_ s = zlen (frames w) /\ zlen (frames w) <= kMaxAttempts /\ Forall (is_query s) (frames w) /\ settled w /\ settled w' /\
    (forall ip, result s = Ok ip -> parse_ipv4 (Some (hostname_ s)) = ip /\ ip <> 0 \/ answered cs s ip) /\
    (forall c, call_ok c -> exists t wc, async_step c s = Some (t, wc, mbufs_of c) /\ advances (status_ s) (status_ t)) /\
    (is_done s = true -> w' = [] /\ status_ s' = status_ s /\ result s' = result s).
Proof.
  intros Hcs Hmore. destruct (async_run_inv cs [] [] _ async_init_inv Hcs) as (s & w & E & Hi & _).
  cbn [app] in Hi. destruct (async_run_inv more cs w s Hi Hmore) as (s' & w' & E' & Hi' & Hd).
  exists s, w, s', w'. split; [exact E|]. split; [exact E'|]. split_and!; try apply Hi.
  - by eapply settled_suffix, Hi'; apply Hi.
  - unfold result. case_bool_decide as Hst; [|done]. intros ip [= <-]. by apply (ai_ready _ _ _ Hi).
  - intros c Hc. destruct (async_step_inv cs w s c Hi Hc) as (t & wc & Et & _ & Ha & _). by exists t, wc.
  - exact Hd.
Qed.

End sound.

(** A tick that reads the clock before [start] did: [tsc - start_tsc_] wraps around, and the
    resolver gives up at once, unless its timeout is within [d] cycles of 2^64. *)
Lemma dns_tick_before_start e s d : status_ s = InProgress -> 0 < d < 2 ^ 64 -> timeout_cycles_ s <= 2 ^ 64 - d ->
  exists s', on_poll_tick_ e (start_tsc_ s - d) s = Some (s', []) /\ status_ s' = TimedOut /\ result s' = Err Timeout.
Proof.
  intros Hst Hd Ht. unfold on_poll_tick_. rewrite bool_decide_eq_true_2 by done. cbn [negb].
  replace (start_tsc_ s - d - start_tsc_ s) with (- d) by lia.
  assert (u64 (- d) = 2 ^ 64 - d) as ->.
  { unfold wrap. rewrite Z.mod_opp_l_nz by (rewrite ?Z.mod_small; lia). rewrite Z.mod_small; lia. }
  rewrite (proj2 (Z.leb_le _ _)) by lia. by eexists.
Qed.

(** ** With the poller *)

(** [add] registers an object under the tuple it returns. *)
Definition resolver_flow (s : AsyncDns) : flow :=
  let '(sip, dip, sport, dport, proto) := tuple_for_poller_ s in mkFlow sip dip sport dport proto.

(** The name server's frame for [s] that carries [payload]. *)
Definition server_frame (s : AsyncDns) (payload : list byte) : mbuf :=
  mkMbuf 1 (dns_frame (ad_dst_mac s) (ad_src_mac s) (nameserver_ip (ad_cfg s)) (ad_src_ip s) (dns_port (ad_cfg s)) (src_port_ s) payload).

Lemma server_frame_flow s payload : config_valid s -> 0 <= src_port_ s < 2 ^ 16 -> zlen payload <= kMaxDnsPacketLen ->
  packet_flow (server_frame s payload) = Some (Some (resolver_flow s)).
Proof.
  intros [] Hp Hl. unfold server_frame, dns_frame, kMaxDnsPacketLen in *. pose proof (zlen_nonneg payload).
  pose proof (udp_frame_flow (ad_dst_mac s) (ad_src_mac s) (nameserver_ip (ad_cfg s)) (ad_src_ip s) (dns_port (ad_cfg s))
    (src_port_ s) 0 0 payload []) as H1. rewrite app_nil_r in H1. cbv zeta. unfold resolver_flow, tuple_for_poller_.
  apply H1; (done || (unfold UINT16_MAX; change (zlen (@nil byte)) with 0; lia)).
Qed.

Lemma process_reply s m ip tsc : is_done s = false -> nb_segs m <= 1 ->
  reply_packet (mb_data m) (tx_id_net_ s) (nameserver_ip (ad_cfg s)) (dns_port (ad_cfg s)) (src_port_ s) (ad_src_ip s) ip ->
  exists s', process_burst_ [m] tsc s = Some (s', [0%nat]) /\ status_ s' = Ready /\ result s' = Ok ip.
Proof.
  intros Hd Hn Hr. unfold process_burst_. cbn [process_burst]. rewrite Hd.
  destruct (try_parse_exact m (tx_id_net_ s) (nameserver_ip (ad_cfg s)) (dns_port (ad_cfg s)) (src_port_ s) (ad_src_ip s))
    as (r & -> & Hx). rewrite (proj2 (Hx ip) (conj Hn Hr)). cbn [mbind option_bind].
  eexists. split; [reflexivity|]. split; reflexivity.
Qed.

(** C36: The composition of the poller and the resolver.  When a resolver that is waiting for
    its answer is registered with the poller under the tuple [tuple_for_poller_] gives, and a
    burst of arbitrary packets contains, anywhere, the name server's frame with a valid reply
    of at most 512 bytes to the pending query, then the cycle that receives the burst hands
    that packet to the resolver, and on it the resolver is Ready with the reply's address. *)
Theorem dns_reply_reaches_resolver s p o burst i payload ip tsc :
  config_valid s -> 0 <= src_port_ s < 2 ^ 16 -> is_done s = false ->
  registry_ok (po_reg p) -> (o, resolver_flow s) ∈ registrations (po_reg p) ->
  Forall mbuf_ok burst -> burst !! i = Some (server_frame s payload) ->
  zlen payload <= kMaxDnsPacketLen -> dns_reply payload (tx_id_net_ s) ip ->
  exists n p' evs, poll true burst tsc p = Some (n, p', evs) /\ Deliver o i tsc ∈ evs /\
  exists s', process_burst_ [server_frame s payload] tsc s = Some (s', [0%nat]) /\ status_ s' = Ready /\ result s' = Ok ip.
Proof.
  intros Hc Hp Hd Hr Hin Hb Hi Hl Hrep.
  destruct (poll_delivers p burst tsc i _ o _ Hr Hb Hi (server_frame_flow s payload Hc Hp Hl) Hin) as (n & p' & evs & E & Hev).
  exists n, p', evs. split; [done|]. split; [done|]. destruct Hc.
  apply process_reply; [done|cbn; lia|]. by apply dns_frame_reply.
Qed.

(** ** Runs *)

Definition demo_resolver : AsyncDns := async_init true demo_smac demo_gw 0x0A000001 default_dns_config.
Definition demo_async_env : async_env := mkAsyncEnv (Some 0xBEEF) (Some 848) 1000 None (Some demo_fresh) true.
Definition demo_packet : mbuf :=
  mkMbuf 1 (dns_frame demo_gw demo_smac 0x08080808 0x0A000001 53 50000 demo_dns_reply).

Definition demo_calls : list async_call :=
  [CallStart demo_async_env demo_host; CallAttach 0; CallTick demo_async_env 2000; CallBurst [mkMbuf 1 [x00]; demo_packet] 3000].

Example dns_async_demo :
  (fun '(s, w, freed) => (status_ s, result s, attempts_sent_ s, length (frames w), freed)) <$> async_run demo_calls demo_resolver =
  Some (Ready, Ok 0x01020304, 1, 1%nat, [[]; []; []; [0; 1]%nat]).
Proof. vm_compute. reflexivity. Qed.

(** When no mbuf is available to [start], the next ticks do not send the query although they
    could; the first one after the retry interval (1000 ms, at the 3 GHz estimate) does. *)
Example dns_failed_send_waits :
  let started := CallStart (mkAsyncEnv (Some 0xBEEF) (Some 848) 1000 None None true) demo_host in
  (fun '(s, w, _) => (status_ s, length (frames w))) <$>
    async_run [started; CallTick demo_async_env 1001; CallTick demo_async_env 3000000999] demo_resolver =
    Some (InProgress, 0%nat) /\
  (fun '(s, w, _) => (status_ s, length (frames w))) <$>
    async_run [started; CallTick demo_async_env 3000001000] demo_resolver = Some (InProgress, 1%nat).
Proof. vm_compute. split; reflexivity. Qed.

(** A resolver that was never started takes any reply of the name server with the id 0. *)
Example dns_idle_answered :
  (fun '(s, w, _) => (status_ s, result s, w)) <$>
    async_run [CallBurst [mkMbuf 1 (dns_frame demo_gw demo_smac 0x08080808 0x0A000001 53 0
      (reply_bytes 0 0x8180 (split_dots demo_host) [demo_a] []))] 5] demo_resolver =
  Some (Ready, Ok 0x01020304, []).
Proof. vm_compute. reflexivity. Qed.

Lemma demo_calls_ok : Forall call_ok demo_calls.
Proof.
  assert (async_env_ok demo_async_env) as He.
  { split; [intros f [= <-]; apply demo_room_ok|]. intros r [= <-]. done. }
  repeat (constructor; [first [exact He|exact I]|]). constructor.
Qed.

Lemma dns_async_sound_witness : exists s w s' w',
  async_run demo_calls demo_resolver = Some (s, w, map mbufs_of demo_calls) /\
  async_run demo_calls s = Some (s', w', map mbufs_of demo_calls) /\
  attempts_sent_ s = zlen (frames w) /\ zlen (frames w) <= kMaxAttempts /\ Forall (is_query s) (frames w) /\ settled w /\ settled w' /\
  (forall ip, result s = Ok ip -> parse_ipv4 (Some (hostname_ s)) = ip /\ ip <> 0 \/ answered demo_calls s ip) /\
  (forall c, call_ok c -> exists t wc, async_step c s = Some (t, wc, mbufs_of c) /\ advances (status_ s) (status_ t)) /\
  (is_done s = true -> w' = [] /\ status_ s' = status_ s /\ result s' = result s).
Proof.
  apply (dns_async_sound true demo_smac demo_gw 0x0A000001 default_dns_config); try done; apply demo_calls_ok.
Defined.

(** A started resolver registered as object 7, and a burst with a stray frame and the reply. *)
Definition demo_waiting : AsyncDns :=
  match async_run [CallStart demo_async_env demo_host] demo_resolver with Some (s, _, _) => s | None => demo_resolver end.

Definition demo_dns_poller : Poller :=
  match registry_create 16 with
  | Ok r => match reg_run [OpAdd (Some 7%nat) (resolver_flow demo_waiting)] r with Some (_, r') => poller_of r' | None => poller_of r end
  | Err _ => poller_of (mkRegistry 0 [] [])
  end.

Lemma demo_dns_poller_ok : registry_ok (po_reg demo_dns_poller).
Proof.
  unfold demo_dns_poller. destruct (registry_create 16) as [r|] eqn:E; [|done].
  destruct (registry_create_ok 16 r ltac:(done) E) as (Hr & _).
  destruct (reg_run_refines [OpAdd (Some 7%nat) (resolver_flow demo_waiting)] r Hr) as (xs & r' & -> & Hr' & _). done.
Qed.

Lemma dns_reply_reaches_resolver_witness :
  exists n p' evs, poll true [mkMbuf 1 [x00]; server_frame demo_waiting demo_dns_reply] 9000 demo_dns_poller = Some (n, p', evs) /\
    Deliver 7 1 9000 ∈ evs /\
  exists s', process_burst_ [server_frame demo_waiting demo_dns_reply] 9000 demo_waiting = Some (s', [0%nat]) /\
    status_ s' = Ready /\ result s' = Ok 0x01020304.
Proof.
  apply (dns_reply_reaches_resolver demo_waiting demo_dns_poller 7 [mkMbuf 1 [x00]; server_frame demo_waiting demo_dns_reply] 1
    demo_dns_reply 0x01020304 9000).
  - split; vm_compute; (done || by split).
  - by vm_compute.
  - by vm_compute.
  - apply demo_dns_poller_ok.
  - apply (list_elem_of_lookup_2 _ 0). vm_compute. reflexivity.
  - repeat (constructor; [vm_compute; done|]). constructor.
  - reflexivity.
  - by vm_compute.
  - destruct (parse_dns_response_exact demo_dns_reply (tx_id_net_ demo_waiting)) as (r & E & Hx). apply Hx.
    assert (parse_dns_response demo_dns_reply (tx_id_net_ demo_waiting) = Some (Ok 0x01020304)) by (vm_compute; reflexivity). congruence.
Defined.
