(* ===== verification/Http.v ===== *)
(** * HTTP/1.x messages

    http.hpp of eph-net: the incremental parsers of requests and responses and the builders.
    A view into the receive buffer is the bytes it shows; the header storage of the caller is
    its number of slots.  The texts of the [ErrorInfo] values are left out.

    [http_parse_exact]: the parsers accept exactly the messages of the grammar, and nothing
    about their framing is ambiguous.
    [http_incremental]: a message that arrives in pieces is incomplete until its last byte.
    [http_build_parse]: what the builder writes is read back. *)

From Stdlib Require Import (notations) Strings.String.
From S2P Require Import Prelude FixText Codecs.

#[local] Open Scope Z_scope.

(** The bytes of a literal. *)
Definition text (s : String.string) : list byte := String.list_byte_of_string s.
#[global] Arguments text s%_string.

Definition CR : byte := x0d.
Definition LF : byte := x0a.
Definition SP : byte := x20.
Definition HT : byte := x09.
Definition NUL : byte := x00.
Definition CRLF : list byte := [CR; LF].

(** ** Types and limits *)

Record HttpHeader := mkHeader { h_name : list byte; h_value : list byte }.

Record HttpRequest := mkRequest {
  rq_method : list byte;
  rq_target : list byte;
  rq_version_minor : Z;
  rq_headers : list HttpHeader;
  rq_body : list byte
}.

Record HttpResponse := mkResponse {
  rs_status_code : Z;
  rs_reason_phrase : list byte;
  rs_version_minor : Z;
  rs_headers : list HttpHeader;
  rs_body : list byte
}.

Definition kMaxHeaderCount : Z := 64.
Definition kMaxStartLineLength : Z := 8192.
Definition kMaxHeaderLineLength : Z := 8192.
Definition kMaxBodySize : Z := 16 * 1024 * 1024.

(** ** Characters *)

Definition beq (a b : byte) : bool := bool_decide (a = b).

Definition in_range (lo hi : Z) (c : byte) : bool := (lo <=? b2z c) && (b2z c <=? hi).

Definition ascii_lower (c : byte) : byte := if in_range 65 90 c then z2b (b2z c + 32) else c.

Fixpoint iequal (a b : list byte) : bool :=
  match a, b with
  | [], [] => true
  | x :: a, y :: b => beq (ascii_lower x) (ascii_lower y) && iequal a b
  | _, _ => false
  end.

Definition tchar_marks : list byte := text "!#$%&'*+-.^_`|~".

Definition is_tchar (c : byte) : bool :=
  in_range 97 122 c || in_range 65 90 c || in_range 48 57 c || existsb (beq c) tchar_marks.

Definition is_ows (c : byte) : bool := beq c SP || beq c HT.

Definition is_target_char (c : byte) : bool := (0x20 <? b2z c) && (b2z c <? 0x7f).

Definition is_valid_token (s : list byte) : bool := negb (bool_decide (s = [])) && forallb is_tchar s.

Definition is_valid_field_value (s : list byte) : bool :=
  forallb (fun u => beq u HT || negb ((b2z u <? 0x20) || (b2z u =? 0x7f))) s.

(** ** Scanning *)

(** The index of the first CR LF in [i, end_), or [end_]. *)
Fixpoint find_crlf_loop (fuel : nat) (buf : list byte) (i end_ : Z) : option Z :=
  match fuel with
  | O => None
  | S fuel =>
    if i + 1 <? end_ then
      a ← rd buf i;
      hit ← (if beq a CR then b ← rd buf (i + 1); Some (beq b LF) else Some false);
      if (hit : bool) then Some i else find_crlf_loop fuel buf (i + 1) end_
    else Some end_
  end.

Definition find_crlf (buf : list byte) (pos end_ : Z) : option Z :=
  find_crlf_loop (S (Z.to_nat (end_ - pos))) buf pos end_.

(** [size_t] arithmetic; the guard keeps the product below 2^64. *)
Fixpoint decimal_loop (v : Z) (s : list byte) : option Z :=
  match s with
  | [] => Some v
  | c :: s =>
    if negb (is_digit c) then None else
    if Z.shiftl 1 60 <? v then None else
    decimal_loop (u64 (u64 (v * 10) + digit_of c)) s
  end.

Definition parse_decimal (s : list byte) : option Z :=
  match s with [] => None | _ => decimal_loop 0 s end.

Fixpoint trim_front_ows (v : list byte) : list byte :=
  match v with
  | [] => []
  | c :: t => if is_ows c then trim_front_ows t else v
  end.

Definition trim_back_ows (v : list byte) : list byte := rev (trim_front_ows (rev v)).

Definition trim_ows (v : list byte) : list byte := trim_back_ows (trim_front_ows v).

Definition trim_field_name (name : list byte) : list byte := trim_back_ows name.

(** [find(c)]: what is before and after the first [c]. *)
Fixpoint split_byte (c : byte) (s : list byte) : option (list byte * list byte) :=
  match s with
  | [] => None
  | x :: t => if beq x c then Some ([], t) else '(a, b) ← split_byte c t; Some (x :: a, b)
  end.

(** ** The header block *)

(** One line without its CR LF.  [cl]: the value of the Content-Length headers so far
    ([cl_parsed_count] > 0 and [first_cl_value]). *)
Definition parse_header_line (line : list byte) (cl : option Z) : expected (HttpHeader * option Z) Error :=
  match split_byte ch_colon line with
  | None => Err CodecBad
  | Some (raw_name, raw_value) =>
    let name := trim_field_name raw_name in
    if negb (is_valid_token name) then Err CodecBad else
    let value := trim_ows raw_value in
    if negb (is_valid_field_value value) then Err CodecBad else
    if iequal name (text "Transfer-Encoding") then Err CodecBad else
    if iequal name (text "Content-Length") then
      match parse_decimal value with
      | None => Err CodecBad
      | Some v =>
        if kMaxBodySize <? v then Err CodecOverflow else
        match cl with
        | Some first => if negb (v =? first) then Err CodecBad else Ok (mkHeader name value, Some first)
        | None => Ok (mkHeader name value, Some v)
        end
      end
    else Ok (mkHeader name value, cl)
  end.

Record HeaderParseState := mkHdrState {
  st_headers : list HttpHeader;
  header_block_end : Z;
  content_length : option Z
}.

(** [cap] slots are left of the storage or of the limit; [Ok None] asks for more bytes. *)
Fixpoint header_loop (fuel : nat) (buf : list byte) (cap pos : Z) (headers : list HttpHeader) (cl : option Z)
    : option (expected (option HeaderParseState) Error) :=
  match fuel with
  | O => None
  | S fuel =>
    let end_ := zlen buf in
    if end_ <=? pos then Some (Ok None) else
    c ← rd buf pos;
    if beq c CR then
      if end_ <=? pos + 1 then Some (Ok None) else
      d ← rd buf (pos + 1);
      if negb (beq d LF) then Some (Err CodecBad)
      else Some (Ok (Some (mkHdrState headers (pos + 2) cl)))
    else if beq c LF then Some (Err CodecBad)
    else
      let scan_end := Z.min end_ (pos + kMaxHeaderLineLength + 2) in
      crlf ← find_crlf buf pos scan_end;
      if crlf =? scan_end then
        if kMaxHeaderLineLength <? end_ - pos then Some (Err CodecOverflow) else Some (Ok None)
      else
        line ← slice buf pos (crlf - pos);
        if existsb (fun b => beq b LF) line then Some (Err CodecBad) else
        match parse_header_line line cl with
        | Err e => Some (Err e)
        | Ok (h, cl) =>
          if cap <=? zlen headers then Some (Err CodecOverflow)
          else header_loop fuel buf cap (crlf + 2) (headers ++ [h]) cl
        end
  end.

Definition parse_header_block (buf : list byte) (start slots : Z) : option (expected (option HeaderParseState) Error) :=
  header_loop (S (Z.to_nat (zlen buf - start))) buf (Z.min slots kMaxHeaderCount) start [] None.

(** ** The parsers *)

(** The first line: [None] when it is not complete. *)
Definition start_line (buffer : list byte) : option (expected (option (list byte)) Error) :=
  let end_ := zlen buffer in
  if end_ =? 0 then Some (Ok None) else
  let sl_search_end := Z.min end_ (kMaxStartLineLength + 2) in
  sl_crlf ← find_crlf buffer 0 sl_search_end;
  if sl_crlf =? sl_search_end then
    if sl_search_end <? end_ then Some (Err CodecOverflow) else Some (Ok None)
  else if sl_crlf =? 0 then Some (Err CodecBad)
  else line ← slice buffer 0 sl_crlf; Some (Ok (Some line)).

(** [HTTP/1.0] and [HTTP/1.1]. *)
Definition http_version (s : list byte) : option Z :=
  if bool_decide (s = text "HTTP/1.0") then Some 0 else
  if bool_decide (s = text "HTTP/1.1") then Some 1 else None.

Definition parse_request_line (line : list byte) : expected (list byte * list byte * Z) Error :=
  match split_byte SP line with
  | None => Err CodecBad
  | Some (method, rest) =>
    match split_byte SP rest with
    | None => Err CodecBad
    | Some (target, version) =>
      if negb (is_valid_token method) then Err CodecBad else
      if bool_decide (target = []) then Err CodecBad else
      if negb (forallb is_target_char target) then Err CodecBad else
      match http_version version with
      | None => Err CodecBad
      | Some minor => Ok (method, target, minor)
      end
    end
  end.

(** The body that [content_length] announces: [None] when it is not complete. *)
Definition take_body (buffer : list byte) (header_end : Z) (len : option Z) : option (option (list byte * Z)) :=
  match len with
  | Some n =>
    let body_end := header_end + n in
    if zlen buffer <? body_end then Some None
    else body ← slice buffer header_end n; Some (Some (body, body_end))
  | None => Some (Some ([], header_end))
  end.

Definition parse_http_request (buffer : list byte) (slots : Z)
    : option (expected (option (HttpRequest * Z)) Error) :=
  sl ← start_line buffer;
  match sl with
  | Err e => Some (Err e)
  | Ok None => Some (Ok None)
  | Ok (Some line) =>
    match parse_request_line line with
    | Err e => Some (Err e)
    | Ok (method, target, version_minor) =>
      hdr_res ← parse_header_block buffer (zlen line + 2) slots;
      match hdr_res with
      | Err e => Some (Err e)
      | Ok None => Some (Ok None)
      | Ok (Some st) =>
        b ← take_body buffer (header_block_end st) (content_length st);
        match b with
        | None => Some (Ok None)
        | Some (body, consumed) =>
          Some (Ok (Some (mkRequest method target version_minor (st_headers st) body, consumed)))
        end
      end
    end
  end.

(** [HTTP/1.x SP DDD], then the end of the line or SP and the reason. *)
Definition parse_status_line (line : list byte) : expected (Z * list byte * Z) Error :=
  if zlen line <? 12 then Err CodecBad else
  match http_version (take 8 line) with
  | None => Err CodecBad
  | Some minor =>
    if negb (bool_decide (line !! 8%nat = Some SP)) then Err CodecBad else
    let code_str := take 3 (drop 9 line) in
    if negb (forallb is_digit code_str) then Err CodecBad else
    let status_code := dec_val code_str in
    match drop 12 line with
    | [] => Ok (status_code, [], minor)
    | c :: reason =>
      if negb (beq c SP) then Err CodecBad else
      if negb (is_valid_field_value reason) then Err CodecBad
      else Ok (status_code, reason, minor)
    end
  end.

Definition bodyless_status (status_code : Z) : bool :=
  (100 <=? status_code) && (status_code <? 200) || (status_code =? 204) || (status_code =? 304).

Definition parse_http_response (buffer : list byte) (slots : Z)
    : option (expected (option (HttpResponse * Z)) Error) :=
  sl ← start_line buffer;
  match sl with
  | Err e => Some (Err e)
  | Ok None => Some (Ok None)
  | Ok (Some line) =>
    match parse_status_line line with
    | Err e => Some (Err e)
    | Ok (status_code, reason, version_minor) =>
      hdr_res ← parse_header_block buffer (zlen line + 2) slots;
      match hdr_res with
      | Err e => Some (Err e)
      | Ok None => Some (Ok None)
      | Ok (Some st) =>
        let bodyless := bodyless_status status_code in
        if negb bodyless && bool_decide (content_length st = None) then Some (Err CodecBad) else
        b ← take_body buffer (header_block_end st) (if bodyless then None else content_length st);
        match b with
        | None => Some (Ok None)
        | Some (body, consumed) =>
          Some (Ok (Some (mkResponse status_code reason version_minor (st_headers st) body, consumed)))
        end
      end
    end
  end.

(** ** The builders *)

Definition builder_reject_unsafe_token (s : list byte) : bool :=
  existsb (fun u => beq u CR || beq u LF || beq u NUL || beq u SP || beq u HT) s.

Definition builder_reject_unsafe_value (s : list byte) : bool :=
  existsb (fun u => beq u CR || beq u LF || beq u NUL) s.

Fixpoint validate_header_list (headers : list HttpHeader) : expected unit Error :=
  match headers with
  | [] => Ok tt
  | h :: t =>
    if negb (is_valid_token (h_name h)) then Err CodecBad else
    if builder_reject_unsafe_value (h_value h) then Err CodecBad
    else validate_header_list t
  end.

Definition validate_builder_headers (headers : list HttpHeader) : expected unit Error :=
  if kMaxHeaderCount <? zlen headers then Err CodecOverflow else validate_header_list headers.

(** The cursor after the bytes [src], or [None] when they do not fit into [cap]. *)
Definition buf_append (out_buf : list byte) (cap off : Z) (src : list byte) : option (option Z * list byte) :=
  if (cap <? off) || (cap - off <? zlen src) then Some (None, out_buf)
  else out_buf ← wr out_buf off src; Some (Some (off + zlen src), out_buf).

(** The digits of [v], the last one first, at most [room] of them. *)
Fixpoint decimal_digits (room : nat) (v : Z) : list byte :=
  match room with
  | O => []
  | S room => if 0 <? v then digit_char (v mod 10) :: decimal_digits room (v / 10) else []
  end.

Definition decimal_text (v : Z) : list byte := if v =? 0 then [digit_char 0] else rev (decimal_digits 20 v).

(** The pieces one after the other; the first that does not fit ends the build. *)
Fixpoint append_all (out_buf : list byte) (cap off : Z) (pieces : list (list byte))
    : option (expected Z Error * list byte) :=
  match pieces with
  | [] => Some (Ok off, out_buf)
  | p :: pieces =>
    '(r, out_buf) ← buf_append out_buf cap off p;
    match r with
    | None => Some (Err CodecOverflow, out_buf)
    | Some off => append_all out_buf cap off pieces
    end
  end.

Definition header_pieces (headers : list HttpHeader) : list (list byte) :=
  concat (map (fun h => [h_name h; text ": "; h_value h; CRLF]) headers).

Definition body_pieces (body : list byte) : list (list byte) := if bool_decide (body = []) then [] else [body].

Definition build_http_request (out_buf : list byte) (cap : Z) (method target : list byte) (headers : list HttpHeader)
    (body : list byte) : option (expected Z Error * list byte) :=
  if negb (is_valid_token method) then Some (Err CodecBad, out_buf) else
  if bool_decide (target = []) || builder_reject_unsafe_token target then Some (Err CodecBad, out_buf) else
  match validate_builder_headers headers with
  | Err e => Some (Err e, out_buf)
  | Ok _ =>
    append_all out_buf cap 0
      ([method; text " "; target; text " HTTP/1.1" ++ CRLF] ++ header_pieces headers ++ [CRLF] ++ body_pieces body)
  end.

Definition build_http_response (out_buf : list byte) (cap : Z) (status_code : Z) (reason_phrase : list byte)
    (headers : list HttpHeader) (body : list byte) : option (expected Z Error * list byte) :=
  if (status_code <? 100) || (599 <? status_code) then Some (Err CodecBad, out_buf) else
  if builder_reject_unsafe_value reason_phrase then Some (Err CodecBad, out_buf) else
  match validate_builder_headers headers with
  | Err e => Some (Err e, out_buf)
  | Ok _ =>
    append_all out_buf cap 0
      ([text "HTTP/1.1 "; decimal_text status_code; text " "; reason_phrase; CRLF] ++ header_pieces headers ++
       [CRLF] ++ body_pieces body)
  end.

(** ** Characters of the grammar *)

Lemma beq_true a b : beq a b = true <-> a = b.
Proof. unfold beq. by rewrite bool_decide_eq_true. Qed.

Lemma beq_false a b : beq a b = false <-> a <> b.
Proof. unfold beq. by rewrite bool_decide_eq_false. Qed.

Lemma beq_refl a : beq a a = true.
Proof. by apply beq_true. Qed.

(** A property of every byte that a computation over the 256 of them settles. *)
Lemma byte_implies (P Q : byte -> bool) c :
  forallb (fun n => implb (P (z2b (Z.of_nat n))) (Q (z2b (Z.of_nat n)))) (seq 0 256) = true -> P c = true -> Q c = true.
Proof.
  intros H HP. pose proof (b2z_range c) as Hc. rewrite forallb_forall in H. specialize (H (Z.to_nat (b2z c))).
  rewrite Z2Nat.id, z2b_b2z in H by lia. rewrite HP in H. apply H. apply in_seq. lia.
Qed.

Definition no_delim (c : byte) : bool := negb (beq c CR || beq c LF || beq c SP || beq c HT || beq c ch_colon).
Definition no_crlf_byte (c : byte) : bool := negb (beq c CR || beq c LF).

Lemma tchar_no_delim c : is_tchar c = true -> no_delim c = true.
Proof. by apply byte_implies. Qed.

Lemma value_no_crlf c : beq c HT || negb ((b2z c <? 0x20) || (b2z c =? 0x7f)) = true -> no_crlf_byte c = true.
Proof. by apply (byte_implies (fun c => beq c HT || negb ((b2z c <? 0x20) || (b2z c =? 0x7f)))). Qed.

Lemma target_no_delim c : is_target_char c = true -> no_crlf_byte c && negb (beq c SP) = true.
Proof. by apply (byte_implies is_target_char (fun c => no_crlf_byte c && negb (beq c SP))). Qed.

Lemma ows_no_crlf c : is_ows c = true -> no_crlf_byte c = true.
Proof. by apply byte_implies. Qed.

Lemma no_delim_crlf c : no_delim c = true -> no_crlf_byte c = true.
Proof. by apply byte_implies. Qed.

Definition clean (l : list byte) : Prop := Forall (fun c => no_crlf_byte c = true) l.

Lemma clean_not_in l : clean l -> (CR ∉ l) /\ (LF ∉ l).
Proof. intros H. split; intros Hin; unfold clean in H; rewrite list.Forall_forall in H; by specialize (H _ Hin). Qed.

Lemma forallb_Forall {A} (f : A -> bool) l : forallb f l = true <-> Forall (fun x => f x = true) l.
Proof. rewrite forallb_forall, list.Forall_forall. by setoid_rewrite list_elem_of_In. Qed.

Lemma token_clean s : is_valid_token s = true -> clean s /\ Forall (fun c => no_delim c = true) s /\ s <> [].
Proof.
  unfold is_valid_token. intros [Hne H]%andb_true_iff. apply forallb_Forall in H. apply negb_true_iff, bool_decide_eq_false in Hne.
  assert (Forall (fun c => no_delim c = true) s) as Hd by (eapply list.Forall_impl; [exact H|apply tchar_no_delim]).
  split_and!; try done. eapply list.Forall_impl; [exact Hd|apply no_delim_crlf].
Qed.

Lemma value_clean s : is_valid_field_value s = true -> clean s.
Proof. intros H%forallb_Forall. eapply list.Forall_impl; [exact H|]. intros c. apply value_no_crlf. Qed.

(** ** Scanning for CR LF *)

Fixpoint first_crlf (l : list byte) : option nat :=
  match l with
  | a :: ((b :: _) as t) => if beq a CR && beq b LF then Some O else S <$> first_crlf t
  | _ => None
  end.

Lemma find_crlf_loop_list t : forall fuel pre u, (length t < fuel)%nat ->
  find_crlf_loop fuel (pre ++ t ++ u) (zlen pre) (zlen pre + zlen t) =
  Some (zlen pre + match first_crlf t with Some i => Z.of_nat i | None => zlen t end).
Proof.
  induction t as [|a t IH]; intros [|fuel] pre u Hf; try (cbn in Hf; lia); cbn [find_crlf_loop].
  { rewrite (proj2 (Z.ltb_ge _ _)) by (change (zlen (@nil byte)) with 0; lia). done. }
  destruct t as [|b t].
  { rewrite (proj2 (Z.ltb_ge _ _)) by (change (zlen [a]) with 1; lia). done. }
  rewrite (proj2 (Z.ltb_lt _ _)) by (rewrite !zlen_cons; pose proof (zlen_nonneg t); lia).
  rewrite (rd_app_r pre _ (zlen pre)) by done. cbn [head app mbind option_bind].
  assert (rd (pre ++ a :: (b :: t) ++ u) (zlen pre + 1) = Some b) as Hb.
  { change (pre ++ a :: (b :: t) ++ u) with (pre ++ [a] ++ (b :: t) ++ u). rewrite app_assoc.
    rewrite rd_app_r by (rewrite zlen_app; done). done. }
  cbn [app] in Hb. specialize (IH fuel (pre ++ [a]) u ltac:(cbn in Hf |- *; lia)).
  rewrite zlen_app in IH. change (zlen [a]) with 1 in IH. rewrite <- !app_assoc in IH. cbn [app] in IH.
  cbn [first_crlf]. replace (zlen pre + zlen (a :: b :: t)) with (zlen pre + 1 + zlen (b :: t)) by (rewrite (zlen_cons a); lia).
  assert (find_crlf_loop fuel (pre ++ a :: b :: t ++ u) (zlen pre + 1) (zlen pre + 1 + zlen (b :: t)) =
    Some (zlen pre + match S <$> first_crlf (b :: t) with Some i => Z.of_nat i | None => zlen (a :: b :: t) end)) as Hnext.
  { rewrite IH. f_equal. destruct (first_crlf (b :: t)); cbn [fmap option_fmap option_map]; [|rewrite (zlen_cons a)]; lia. }
  destruct (beq a CR); cbn [andb mbind option_bind]; [|done]. rewrite Hb. cbn [mbind option_bind].
  destruct (beq b LF); [f_equal; lia|done].
Qed.

Lemma find_crlf_list pre rest k : 0 <= k <= zlen rest ->
  find_crlf (pre ++ rest) (zlen pre) (zlen pre + k) =
  Some (zlen pre + match first_crlf (take (Z.to_nat k) rest) with Some i => Z.of_nat i | None => k end).
Proof.
  intros Hk. unfold find_crlf. pose proof (find_crlf_loop_list (take (Z.to_nat k) rest) (S (Z.to_nat (zlen pre + k - zlen pre))) pre
    (drop (Z.to_nat k) rest)) as H. rewrite take_drop, zlen_take in H.
  replace (Z.min (Z.of_nat (Z.to_nat k)) (zlen rest)) with k in H by lia. apply H. rewrite length_take. lia.
Qed.

Lemma first_crlf_clean l m : clean l -> first_crlf (l ++ CRLF ++ m) = Some (length l).
Proof.
  induction 1 as [|a l Ha _ IH]; [done|]. cbn [app length].
  assert (beq a CR = false) as E by (unfold no_crlf_byte in Ha; destruct (beq a CR); done).
  cbn [first_crlf]. destruct (l ++ CRLF ++ m) as [|b t] eqn:El; [by destruct l|]. rewrite E. cbn [andb]. rewrite IH. done.
Qed.

Lemma first_crlf_none l : clean l -> first_crlf l = None /\ first_crlf (l ++ [CR]) = None.
Proof.
  induction 1 as [|a l Ha _ [IH1 IH2]]; [done|]. cbn [app].
  assert (beq a CR = false) as E by (unfold no_crlf_byte in Ha; destruct (beq a CR); done).
  cbn [first_crlf]. split; [destruct l|destruct (l ++ [CR]) eqn:El]; rewrite ?E; cbn [andb]; try done.
  - by rewrite IH1.
  - by rewrite IH2.
Qed.

Lemma first_crlf_split l i : first_crlf l = Some i -> exists a b, l = a ++ CRLF ++ b /\ length a = i.
Proof.
  revert i; induction l as [|a l IH]; intros i; [done|]. cbn [first_crlf]. destruct l as [|b l]; [done|].
  destruct (beq a CR && beq b LF) eqn:E.
  - intros [= <-]. apply andb_true_iff in E as [->%beq_true ->%beq_true]. by exists [], l.
  - destruct (first_crlf (b :: l)) as [j|] eqn:Ej; [|done]. intros [= <-].
    destruct (IH j eq_refl) as (x & y & -> & <-). by exists (a :: x), y.
Qed.

(** ** Header lines *)

Definition all_ows (o : list byte) : Prop := Forall (fun c => is_ows c = true) o.

(** Neither the first nor the last byte is white space. *)
Definition unpadded (v : list byte) : Prop :=
  (forall c, head v = Some c -> is_ows c = false) /\ (forall c, list.last v = Some c -> is_ows c = false).

Lemma trim_front_split v : exists o, v = o ++ trim_front_ows v /\ all_ows o /\
  forall c, head (trim_front_ows v) = Some c -> is_ows c = false.
Proof.
  induction v as [|c v IH]; [by exists []; split_and!; [..|constructor|]|]. cbn [trim_front_ows]. destruct (is_ows c) eqn:E.
  - destruct IH as (o & Ev & Ho & Hh). exists (c :: o). split_and!; [by cbn; f_equal|by constructor|done].
  - exists []. split_and!; [done|constructor|]. by intros ? [= <-].
Qed.

Lemma trim_front_app o v : all_ows o -> (forall c, head v = Some c -> is_ows c = false) -> trim_front_ows (o ++ v) = v.
Proof.
  intros Ho Hv. induction Ho as [|c o Hc _ IH]; cbn [app trim_front_ows]; [|by rewrite Hc].
  destruct v as [|c v]; [done|]. cbn. by rewrite (Hv c eq_refl).
Qed.

Lemma all_ows_rev o : all_ows o -> all_ows (rev o).
Proof. unfold all_ows. rewrite !list.Forall_forall. setoid_rewrite list_elem_of_In. setoid_rewrite <- in_rev. done. Qed.

Lemma head_rev {A} (l : list A) : head (rev l) = list.last l.
Proof.
  destruct l as [|x l _] using rev_ind; [done|]. rewrite last_snoc, rev_app_distr. done.
Qed.

Lemma trim_back_split v : exists o, v = trim_back_ows v ++ o /\ all_ows o /\
  forall c, list.last (trim_back_ows v) = Some c -> is_ows c = false.
Proof.
  unfold trim_back_ows. destruct (trim_front_split (rev v)) as (o & Ev & Ho & Hh). exists (rev o). split_and!.
  - rewrite <- rev_app_distr, <- Ev. by rewrite rev_involutive.
  - by apply all_ows_rev.
  - intros c. rewrite <- head_rev, rev_involutive. apply Hh.
Qed.

Lemma trim_back_app v o : all_ows o -> (forall c, list.last v = Some c -> is_ows c = false) -> trim_back_ows (v ++ o) = v.
Proof.
  intros Ho Hv. unfold trim_back_ows. rewrite rev_app_distr, trim_front_app; [apply rev_involutive|by apply all_ows_rev|].
  intros c. rewrite head_rev. apply Hv.
Qed.

Lemma trim_ows_split v : exists o1 o2, v = o1 ++ trim_ows v ++ o2 /\ all_ows o1 /\ all_ows o2 /\ unpadded (trim_ows v).
Proof.
  destruct (trim_front_split v) as (o1 & E1 & H1 & Hh). destruct (trim_back_split (trim_front_ows v)) as (o2 & E2 & H2 & Hl).
  exists o1, o2. unfold trim_ows. split_and!; [by rewrite <- E2|done|done|]. split; [|done].
  intros c Hc. apply Hh. rewrite E2. by destruct (trim_back_ows _).
Qed.

Lemma trim_ows_app o1 v o2 : all_ows o1 -> all_ows o2 -> unpadded v -> trim_ows (o1 ++ v ++ o2) = v.
Proof.
  intros H1 H2 [Hh Hl]. unfold trim_ows. destruct v as [|c v].
  - cbn [app]. replace (o1 ++ o2) with ((o1 ++ o2) ++ []) by apply app_nil_r. rewrite trim_front_app; [done| |done].
    by apply list.Forall_app.
  - rewrite trim_front_app; [by rewrite trim_back_app|done|]. intros c' [= <-]. by apply Hh.
Qed.

Lemma split_byte_spec c s a b : split_byte c s = Some (a, b) <-> s = a ++ [c] ++ b /\ (c ∉ a).
Proof.
  revert a b; induction s as [|x s IH]; intros a b; cbn [split_byte].
  { split; [done|]. intros [E _]. by destruct a. }
  destruct (beq x c) eqn:E.
  - apply beq_true in E as ->. split.
    + intros [= <- <-]. split; [done|]. apply not_elem_of_nil.
    + intros [E Hn]. destruct a as [|y a]; [by injection E as ->|]. injection E as -> _. exfalso. apply Hn. by left.
  - apply beq_false in E. destruct (split_byte c s) as [[a' b']|] eqn:Es; cbn [mbind option_bind].
    + destruct (proj1 (IH a' b') eq_refl) as [E' Hn]. subst s. split.
      * intros [= <- <-]. split; [done|]. rewrite not_elem_of_cons. split; [congruence|done].
      * intros [E' Hn']. destruct a as [|y a]; [by injection E' as -> _|]. injection E' as -> E'.
        rewrite not_elem_of_cons in Hn'. f_equal. assert (Some (a', b') = Some (a, b)) as Heq by (apply IH; split; [done|tauto]).
        congruence.
    + split; [done|]. intros [E' Hn']. destruct a as [|y a]; [by injection E' as ->|]. injection E' as -> E'.
      rewrite not_elem_of_cons in Hn'. enough (None = Some (a, b)) by done. apply IH. split; [done|tauto].
Qed.

(** field-name OWS ":" OWS field-value OWS *)
Definition field_line (line : list byte) (h : HttpHeader) : Prop := exists o1 o2 o3,
  line = h_name h ++ o1 ++ [ch_colon] ++ o2 ++ h_value h ++ o3 /\ all_ows o1 /\ all_ows o2 /\ all_ows o3 /\
  is_valid_token (h_name h) = true /\ is_valid_field_value (h_value h) = true /\ unpadded (h_value h).

Lemma all_ows_clean o : all_ows o -> clean o.
Proof. intros H. eapply list.Forall_impl; [exact H|]. intros c. apply ows_no_crlf. Qed.

Lemma field_line_clean line h : field_line line h -> clean line /\ line <> [].
Proof.
  intros (o1 & o2 & o3 & -> & H1 & H2 & H3 & Ht & Hv & _). destruct (token_clean _ Ht) as (Hc & _ & Hne). split.
  - unfold clean. rewrite !list.Forall_app. split_and!.
    + done. + by apply all_ows_clean. + by repeat constructor. + by apply all_ows_clean. + by apply value_clean. + by apply all_ows_clean.
  - by destruct (h_name h).
Qed.

(** ** Content-Length *)

Lemma decimal_loop_spec s : forall v r, 0 <= v < 2 ^ 64 -> decimal_loop v s = Some r ->
  digits s /\ r = v * 10 ^ zlen s + dec_val s /\ 0 <= r < 2 ^ 64.
Proof.
  induction s as [|c s IH]; intros v r Hv; cbn [decimal_loop].
  { intros [= <-]. split_and!; [constructor|change (zlen (@nil byte)) with 0; cbn; lia|lia|lia]. }
  destruct (is_digit c) eqn:Hc; cbn [negb]; [|done]. change (Z.shiftl 1 60) with 1152921504606846976.
  destruct (Z.ltb_spec 1152921504606846976 v) as [|Hle]; [done|]. pose proof (proj1 (is_digit_spec c) Hc) as Hd.
  change (2 ^ 64) with 18446744073709551616 in *. intros H. pose proof (zlen_nonneg s).
  rewrite (wrap_small 64 (v * 10)), wrap_small in H by (change (2 ^ 64) with 18446744073709551616; lia).
  apply IH in H as (Hs & -> & Hr); [|lia]. split_and!; [by constructor| |lia|lia].
  rewrite dec_val_cons, zlen_cons, Z.pow_add_r, Z.pow_1_r by lia. ring.
Qed.

Lemma decimal_loop_small s : forall v, digits s -> 0 <= v -> v * 10 ^ zlen s + dec_val s <= kMaxBodySize ->
  decimal_loop v s = Some (v * 10 ^ zlen s + dec_val s).
Proof.
  unfold kMaxBodySize. induction s as [|c s IH]; intros v Hs Hv Hm; cbn [decimal_loop].
  { f_equal. change (zlen (@nil byte)) with 0. cbn. lia. }
  inversion Hs as [|? ? Hc Hs']; subst. rewrite Hc. cbn [negb]. pose proof (proj1 (is_digit_spec c) Hc) as Hd.
  rewrite dec_val_cons, zlen_cons, Z.pow_add_r, Z.pow_1_r in Hm |- * by (apply zlen_nonneg || lia).
  pose proof (dec_val_bound s Hs'). assert (1 <= 10 ^ zlen s) as Hp by (pose proof (zlen_nonneg s); lia).
  change (Z.shiftl 1 60) with 1152921504606846976.
  assert (v * 10 + digit_of c <= 16777216) by nia.
  rewrite (proj2 (Z.ltb_ge _ _)) by lia.
  rewrite (wrap_small 64 (v * 10)), wrap_small by (change (2 ^ 64) with 18446744073709551616; lia).
  rewrite IH by (try done; nia). f_equal. ring.
Qed.

(** The text of a number that the parser accepts as a body length. *)
Definition decimal_of (s : list byte) (v : Z) : Prop := s <> [] /\ digits s /\ dec_val s = v /\ v <= kMaxBodySize.

Lemma parse_decimal_spec s v : parse_decimal s = Some v /\ v <= kMaxBodySize <-> decimal_of s v.
Proof.
  unfold parse_decimal, decimal_of. destruct s as [|c s]; [split; [by intros []|by intros []]|]. split.
  - intros [H Hm]. apply decimal_loop_spec in H as (Hd & -> & _); [|lia]. split_and!; try done; lia.
  - intros (_ & Hd & <- & Hm). split; [|done]. by rewrite decimal_loop_small.
Qed.

Definition is_cl (h : HttpHeader) : bool := iequal (h_name h) (text "Content-Length").
Definition is_te (h : HttpHeader) : bool := iequal (h_name h) (text "Transfer-Encoding").

(** One header against the body length found so far. *)
Definition cl_step (h : HttpHeader) (cl cl' : option Z) : Prop :=
  is_te h = false /\
  if is_cl h then exists v, decimal_of (h_value h) v /\ (cl = None \/ cl = Some v) /\ cl' = Some v else cl' = cl.

Lemma parse_header_line_spec line cl h cl' :
  parse_header_line line cl = Ok (h, cl') <-> field_line line h /\ cl_step h cl cl'.
Proof.
  unfold parse_header_line. split.
  - destruct (split_byte ch_colon line) as [[rn rv]|] eqn:Es; [|done]. apply split_byte_spec in Es as [-> Hn].
    destruct (is_valid_token (trim_field_name rn)) eqn:Ht; [|done].
    destruct (is_valid_field_value (trim_ows rv)) eqn:Hv; [|done]. cbn [negb].
    destruct (iequal _ (text "Transfer-Encoding")) eqn:Hte; [done|]. intros H.
    assert (h = mkHeader (trim_field_name rn) (trim_ows rv) /\ cl_step (mkHeader (trim_field_name rn) (trim_ows rv)) cl cl') as [-> Hst].
    { unfold cl_step, is_te, is_cl. cbn [h_name h_value]. rewrite Hte.
      destruct (iequal _ (text "Content-Length")); [|injection H as <- <-; done].
      destruct (parse_decimal (trim_ows rv)) as [v|] eqn:Ed; [|done].
      destruct (Z.ltb_spec kMaxBodySize v); [done|].
      assert (decimal_of (trim_ows rv) v) as Hdec by (by apply parse_decimal_spec).
      destruct cl as [first|]; [destruct (Z.eqb_spec v first) as [->|]; [|done]|]; cbn [negb] in H; injection H as <- <-;
        (split; [done|]; split; [done|]; eexists; split; [exact Hdec|]; auto). }
    split; [|done]. destruct (trim_back_split rn) as (o1 & E1 & H1 & _).
    destruct (trim_ows_split rv) as (o2 & o3 & E2 & H2 & H3 & Hu). exists o1, o2, o3. cbn [h_name h_value].
    split_and!; try done. unfold trim_field_name. rewrite E1 at 1. rewrite E2 at 1. by rewrite <- !app_assoc.
  - intros [(o1 & o2 & o3 & -> & H1 & H2 & H3 & Ht & Hv & Hu) [Hte Hst]].
    destruct (token_clean _ Ht) as (_ & Hd & Hne).
    assert (split_byte ch_colon (h_name h ++ o1 ++ [ch_colon] ++ o2 ++ h_value h ++ o3) = Some (h_name h ++ o1, o2 ++ h_value h ++ o3)) as ->.
    { apply split_byte_spec. rewrite <- app_assoc. split; [done|]. intros [Hin|Hin]%elem_of_app.
      - rewrite list.Forall_forall in Hd. by specialize (Hd _ Hin).
      - unfold all_ows in H1. rewrite list.Forall_forall in H1. by specialize (H1 _ Hin). }
    assert (trim_field_name (h_name h ++ o1) = h_name h) as ->.
    { apply trim_back_app; [done|]. intros c Hc. apply last_Some_elem_of in Hc. rewrite list.Forall_forall in Hd.
      specialize (Hd _ Hc). unfold no_delim in Hd. unfold is_ows. destruct (beq c SP), (beq c HT); try done;
      by rewrite ?orb_true_r in Hd. }
    rewrite Ht, trim_ows_app by done. rewrite Hv. cbn [negb]. unfold is_te in Hte. rewrite Hte.
    unfold is_cl in Hst. destruct (iequal (h_name h) (text "Content-Length")); [|by destruct h; subst].
    destruct Hst as (v & Hdec & Hcl & ->). apply parse_decimal_spec in Hdec as [-> Hm].
    rewrite (proj2 (Z.ltb_ge _ _)) by lia. destruct Hcl as [->| ->]; [by destruct h|]. rewrite Z.eqb_refl. by destruct h.
Qed.

(** ** The header block *)

Definition block_bytes (lines : list (list byte)) : list byte := concat (map (fun l => l ++ CRLF) lines) ++ CRLF.

(** The lines of a block, their headers, and the body length before and after. *)
Inductive fields : option Z -> list (list byte) -> list HttpHeader -> option Z -> Prop :=
| fields_nil cl : fields cl [] [] cl
| fields_cons cl cl' cl'' line lines h hs :
    field_line line h -> zlen line <= kMaxHeaderLineLength -> cl_step h cl cl' -> fields cl' lines hs cl'' ->
    fields cl (line :: lines) (h :: hs) cl''.

Lemma block_cons l lines : block_bytes (l :: lines) = l ++ CRLF ++ block_bytes lines.
Proof. unfold block_bytes. cbn [map concat]. by rewrite <- !app_assoc. Qed.

Lemma zlen_CRLF : zlen CRLF = 2.
Proof. done. Qed.

Section block.
Context (cap : Z).

(** What one line does, from the bytes at hand. *)
Lemma header_loop_step fuel pre line post headers cl h cl' :
  field_line line h -> zlen line <= kMaxHeaderLineLength -> cl_step h cl cl' ->
  header_loop (S fuel) (pre ++ line ++ CRLF ++ post) cap (zlen pre) headers cl =
  if cap <=? zlen headers then Some (Err CodecOverflow)
  else header_loop fuel ((pre ++ line ++ CRLF) ++ post) cap (zlen (pre ++ line ++ CRLF)) (headers ++ [h]) cl'.
Proof.
  intros Hf Hl Hc. destruct (field_line_clean _ _ Hf) as [Hcl Hne]. destruct (clean_not_in _ Hcl) as [Hcr Hlf].
  destruct line as [|c line]; [done|]. set (L := c :: line) in *.
  assert (no_crlf_byte c = true) as Hc0 by (by inversion Hcl). cbn [header_loop].
  pose proof (zlen_nonneg pre). pose proof (zlen_nonneg post). assert (0 < zlen L) by (subst L; rewrite zlen_cons; pose proof (zlen_nonneg line); lia).
  set (buf := pre ++ L ++ CRLF ++ post). assert (zlen buf = zlen pre + zlen L + 2 + zlen post) as Hb by (subst buf; rewrite !zlen_app, zlen_CRLF; lia).
  rewrite (proj2 (Z.leb_gt _ _)) by lia.
  assert (rd buf (zlen pre) = Some c) as -> by (subst buf L; rewrite rd_app_r by done; done). cbn [mbind option_bind].
  unfold no_crlf_byte in Hc0. apply negb_true_iff, orb_false_iff in Hc0 as [-> ->].
  set (k := Z.min (zlen buf - zlen pre) (kMaxHeaderLineLength + 2)).
  replace (Z.min (zlen buf) (zlen pre + kMaxHeaderLineLength + 2)) with (zlen pre + k) by (subst k; lia).
  unfold kMaxHeaderLineLength in *. assert (zlen L + 2 <= k <= zlen (L ++ CRLF ++ post)) as Hk by (rewrite !zlen_app, zlen_CRLF; subst k; lia).
  clearbody k. subst buf. rewrite find_crlf_list by lia.
  assert (take (Z.to_nat k) (L ++ CRLF ++ post) = L ++ CRLF ++ take (Z.to_nat k - length L - 2) post) as ->.
  { unfold zlen in Hk. rewrite take_app, take_ge by lia. f_equal. rewrite take_app. f_equal. apply take_ge.
    change (length CRLF) with 2%nat. lia. }
  rewrite first_crlf_clean by done. cbn [mbind option_bind]. fold (zlen L). change (Z.of_nat (length L)) with (zlen L).
  rewrite (proj2 (Z.eqb_neq _ _)) by lia. replace (zlen pre + zlen L - zlen pre) with (zlen L) by lia.
  rewrite slice_mid by done. cbn [mbind option_bind].
  assert (existsb (fun b => beq b LF) L = false) as ->.
  { apply not_true_iff_false. intros (b & Hb' & ->%beq_true)%existsb_exists. apply Hlf. by apply list_elem_of_In. }
  rewrite (proj2 (parse_header_line_spec L cl h cl') (conj Hf Hc)).
  rewrite <- !app_assoc. replace (zlen (pre ++ L ++ CRLF)) with (zlen pre + zlen L + 2) by (rewrite !zlen_app, zlen_CRLF; lia). done.
Qed.

Lemma header_loop_complete cl lines hs cl' : fields cl lines hs cl' -> forall fuel pre post headers,
  zlen headers + zlen hs <= cap -> (length lines < fuel)%nat ->
  header_loop fuel (pre ++ block_bytes lines ++ post) cap (zlen pre) headers cl =
  Some (Ok (Some (mkHdrState (headers ++ hs) (zlen pre + zlen (block_bytes lines)) cl'))).
Proof.
  induction 1 as [cl|cl cl' cl'' line lines h hs Hf Hl Hs _ IH]; intros [|fuel] pre post headers Hcap Hfu; try (cbn in Hfu; lia).
  - change (block_bytes []) with CRLF. cbn [header_loop]. pose proof (zlen_nonneg post).
    rewrite !zlen_app, zlen_CRLF, (proj2 (Z.leb_gt _ _)) by lia. rewrite (rd_app_r pre _ (zlen pre)) by done. cbn [app CRLF head mbind option_bind].
    rewrite (beq_refl CR). rewrite (proj2 (Z.leb_gt _ _)) by lia.
    assert (rd (pre ++ CR :: LF :: post) (zlen pre + 1) = Some LF) as ->.
    { change (pre ++ CR :: LF :: post) with (pre ++ [CR] ++ LF :: post). rewrite app_assoc, rd_app_r by (rewrite zlen_app; done). done. }
    cbn [mbind option_bind]. rewrite (beq_refl LF). cbn [negb]. by rewrite app_nil_r.
  - rewrite block_cons. rewrite <- !app_assoc, (header_loop_step fuel pre line _ headers cl h cl') by done.
    rewrite (zlen_cons h) in Hcap. pose proof (zlen_nonneg hs). rewrite (proj2 (Z.leb_gt _ _)) by lia.
    rewrite IH by (rewrite ?zlen_app; change (zlen [h]) with 1; cbn in Hfu; lia).
    rewrite <- !app_assoc. do 4 f_equal. rewrite !zlen_app. lia.
Qed.

(** A line that is found is a piece of the bytes at hand. *)
Lemma line_found pre rest k i : 0 <= k <= zlen rest -> first_crlf (take (Z.to_nat k) rest) = Some i ->
  exists a b, rest = a ++ CRLF ++ b /\ length a = i /\ zlen a + 2 <= k /\ slice (pre ++ rest) (zlen pre) (zlen a) = Some a.
Proof.
  intros Hk E. destruct (first_crlf_split _ _ E) as (a & b & Et & Hi). exists a, (b ++ drop (Z.to_nat k) rest).
  assert (rest = a ++ CRLF ++ b ++ drop (Z.to_nat k) rest) as Er by (rewrite <- (take_drop (Z.to_nat k) rest) at 1; rewrite Et, <- !app_assoc; done).
  split_and!; [done|done| |].
  - assert (zlen (take (Z.to_nat k) rest) = zlen a + (2 + zlen b)) as Hz by (rewrite Et, !zlen_app; done).
    rewrite zlen_take in Hz. pose proof (zlen_nonneg b). lia.
  - rewrite Er at 1. by apply slice_mid.
Qed.

Lemma header_loop_sound fuel : forall pre rest headers cl, zlen rest < Z.of_nat fuel -> zlen headers <= cap ->
  exists r, header_loop fuel (pre ++ rest) cap (zlen pre) headers cl = Some r /\
  forall st, r = Ok (Some st) -> exists lines hs post, rest = block_bytes lines ++ post /\
    fields cl lines hs (content_length st) /\ st_headers st = headers ++ hs /\ zlen headers + zlen hs <= cap /\
    header_block_end st = zlen pre + zlen (block_bytes lines).
Proof.
  induction fuel as [|fuel IH]; intros pre rest headers cl Hfu Hcap; [pose proof (zlen_nonneg rest); lia|].
  pose proof (zlen_nonneg pre). cbn [header_loop]. rewrite zlen_app. destruct rest as [|c rest].
  { change (zlen (@nil byte)) with 0. rewrite (proj2 (Z.leb_le _ _)) by lia. by eexists. }
  set (R := c :: rest) in *. assert (zlen R = zlen rest + 1) as HR by (subst R; by rewrite zlen_cons). pose proof (zlen_nonneg rest).
  rewrite (proj2 (Z.leb_gt _ _)) by lia. assert (rd (pre ++ R) (zlen pre) = Some c) as -> by (by rewrite rd_app_r).
  cbn [mbind option_bind]. destruct (beq c CR) eqn:Ec.
  { apply beq_true in Ec as ->. destruct rest as [|d post].
    - subst R. change (zlen [CR]) with 1. rewrite (proj2 (Z.leb_le _ _)) by lia. by eexists.
    - rewrite (proj2 (Z.leb_gt _ _)) by (rewrite HR, zlen_cons; pose proof (zlen_nonneg post); lia).
      assert (rd (pre ++ R) (zlen pre + 1) = Some d) as ->.
      { change (pre ++ R) with (pre ++ [CR] ++ d :: post). rewrite app_assoc, rd_app_r by (rewrite zlen_app; done). done. }
      cbn [mbind option_bind]. destruct (beq d LF) eqn:Ed; cbn [negb]; [|by eexists]. apply beq_true in Ed as ->.
      eexists. split; [reflexivity|]. intros st [= <-]. exists [], [], post. cbn [st_headers header_block_end content_length].
      split_and!; [done|constructor|by rewrite app_nil_r|change (zlen (@nil HttpHeader)) with 0; lia|done]. }
  destruct (beq c LF); [by eexists|].
  set (k := Z.min (zlen R) (kMaxHeaderLineLength + 2)).
  replace (Z.min (zlen pre + zlen R) (zlen pre + kMaxHeaderLineLength + 2)) with (zlen pre + k) by (subst k; lia).
  unfold kMaxHeaderLineLength in k. assert (0 <= k <= zlen R /\ k <= 8194) as [Hk Hk'] by (subst k; lia). clearbody k.
  rewrite find_crlf_list by lia. cbn [mbind option_bind]. destruct (first_crlf (take (Z.to_nat k) R)) as [i|] eqn:Ei.
  2: { rewrite Z.eqb_refl. destruct (_ <? _); by eexists. }
  destruct (line_found pre R k i Hk Ei) as (a & b & Er & Hi & Hak & Hs). subst i. change (Z.of_nat (length a)) with (zlen a).
  rewrite (proj2 (Z.eqb_neq _ _)) by lia. replace (zlen pre + zlen a - zlen pre) with (zlen a) by lia. rewrite Hs. cbn [mbind option_bind].
  destruct (existsb _ a); [by eexists|]. destruct (parse_header_line a cl) as [[h cl']|] eqn:Ep; [|by eexists].
  apply parse_header_line_spec in Ep as [Hf Hst].
  destruct (Z.leb_spec cap (zlen headers)) as [|Hroom]; [by eexists|]. clearbody R. subst R.
  destruct (IH (pre ++ a ++ CRLF) b (headers ++ [h]) cl') as (r & Er & Hr);
    [rewrite !zlen_app, zlen_CRLF in *; pose proof (zlen_nonneg a); lia|rewrite zlen_app; change (zlen [h]) with 1; lia|].
  rewrite !zlen_app, zlen_CRLF in Er, Hr. rewrite <- !app_assoc in Er.
  replace (zlen pre + zlen a + 2) with (zlen pre + (zlen a + 2)) by lia. exists r. split; [done|]. intros st Est.
  destruct (Hr st Est) as (lines & hs & post & -> & Hfs & Hh & Hc & He). exists (a :: lines), (h :: hs), post.
  rewrite block_cons, <- !app_assoc. split_and!; [done| |by rewrite Hh, <- app_assoc|rewrite zlen_app in Hc; change (zlen [h]) with 1 in Hc; rewrite zlen_cons; lia|].
  - eapply fields_cons; [done|unfold kMaxHeaderLineLength; lia|done|done].
  - rewrite He, !zlen_app, zlen_CRLF. lia.
Qed.

Lemma header_loop_unfinished fuel pre p headers cl c t : p = c :: t -> no_crlf_byte c = true ->
  first_crlf p = None -> zlen p <= kMaxHeaderLineLength ->
  header_loop (S fuel) (pre ++ p) cap (zlen pre) headers cl = Some (Ok None).
Proof.
  intros Ep Hc Hn Hl. cbn [header_loop]. rewrite zlen_app. pose proof (zlen_nonneg pre). pose proof (zlen_nonneg t).
  assert (0 < zlen p) by (rewrite Ep, zlen_cons; lia). rewrite (proj2 (Z.leb_gt _ _)) by lia.
  assert (rd (pre ++ p) (zlen pre) = Some c) as -> by (rewrite rd_app_r, Ep; done). cbn [mbind option_bind].
  apply negb_true_iff, orb_false_iff in Hc as [-> ->]. unfold kMaxHeaderLineLength in *.
  replace (Z.min (zlen pre + zlen p) (zlen pre + 8192 + 2)) with (zlen pre + zlen p) by lia.
  rewrite find_crlf_list by lia. rewrite take_ge by (unfold zlen; lia). rewrite Hn. cbn [mbind option_bind].
  rewrite Z.eqb_refl. by rewrite (proj2 (Z.ltb_ge _ _)) by lia.
Qed.

(** A proper prefix of a line and its CR LF. *)
Lemma line_prefix line p q : clean line -> line ++ CRLF = p ++ q -> q <> [] ->
  first_crlf p = None /\ zlen p <= zlen line + 1 /\ (line <> [] -> p = [] \/ exists c t, p = c :: t /\ no_crlf_byte c = true).
Proof.
  intros Hc E Hq. destruct q as [|y q _] using rev_ind; [done|].
  change CRLF with ([CR] ++ [LF]) in E. rewrite !app_assoc in E. apply app_inj_tail in E as [E _].
  assert (zlen p + zlen q = zlen line + 1) as Hz by (rewrite <- zlen_app, <- E, zlen_app; done).
  split_and!; [|pose proof (zlen_nonneg q); lia|].
  - destruct q as [|z q _] using rev_ind.
    + rewrite app_nil_r in E. subst p. apply (first_crlf_none line Hc).
    + rewrite app_assoc in E. apply app_inj_tail in E as [-> _]. apply list.Forall_app in Hc as [Hp _]. apply (first_crlf_none p Hp).
  - intros Hne. destruct p as [|c t]; [by left|right]. exists c, t. split; [done|].
    destruct line as [|l line]; [done|]. injection E as -> _. by inversion Hc.
Qed.

Lemma cut_point {A} (x y p q : list A) : x ++ y = p ++ q -> q <> [] ->
  (exists q', x = p ++ q' /\ q' <> []) \/ (exists p', p = x ++ p' /\ y = p' ++ q).
Proof.
  intros E Hq. apply app_eq_inv in E as [(k & -> & ->)|(k & -> & ->)].
  - destruct k as [|a k]; [right|left].
    + exists []. by rewrite !app_nil_r.
    + by exists (a :: k).
  - right. by exists k.
Qed.

Lemma header_loop_partial cl lines hs cl' : fields cl lines hs cl' -> Forall (fun l => zlen l < kMaxHeaderLineLength) lines ->
  forall fuel pre p q headers, block_bytes lines = p ++ q -> q <> [] -> zlen headers + zlen hs <= cap ->
  zlen p < Z.of_nat fuel -> header_loop fuel (pre ++ p) cap (zlen pre) headers cl = Some (Ok None).
Proof.
  induction 1 as [cl|cl cl' cl'' line lines h hs Hf Hl Hs _ IH]; intros Hlong [|fuel] pre p q headers E Hq Hcap Hfu;
    try (pose proof (zlen_nonneg p); lia).
  - change (block_bytes []) with CRLF in E. cbn [header_loop]. rewrite zlen_app. pose proof (zlen_nonneg pre).
    destruct p as [|c [|d p]].
    + change (zlen (@nil byte)) with 0. by rewrite (proj2 (Z.leb_le _ _)) by lia.
    + assert (c = CR) as -> by (by injection E as <- _). change (zlen [CR]) with 1. rewrite (proj2 (Z.leb_gt _ _)) by lia. rewrite (rd_app_r pre _ (zlen pre)) by done.
      cbn [head mbind option_bind]. rewrite (beq_refl CR). by rewrite (proj2 (Z.leb_le _ _)) by lia.
    + injection E as _ _ E. by destruct p, q.
  - inversion Hlong as [|? ? Hl1 Hlong']; subst. destruct (field_line_clean _ _ Hf) as [Hc Hne].
    rewrite block_cons, app_assoc in E. destruct (cut_point _ _ _ _ E Hq) as [(q' & E' & Hq')|(p' & -> & E')].
    + destruct (line_prefix line p q' Hc E' Hq') as (Hn & Hz & Hh). destruct (Hh Hne) as [->|(c & t & -> & Hc0)].
      * rewrite app_nil_r. cbn [header_loop]. by rewrite Z.leb_refl.
      * apply (header_loop_unfinished fuel pre _ headers cl c t); try done. lia.
    + rewrite <- app_assoc, (header_loop_step fuel pre line p' headers cl h cl') by done.
      rewrite (zlen_cons h) in Hcap. pose proof (zlen_nonneg hs). rewrite (proj2 (Z.leb_gt _ _)) by lia.
      apply (IH Hlong' fuel _ p' q); try done; [rewrite zlen_app; change (zlen [h]) with 1; lia|].
      rewrite !zlen_app, zlen_CRLF in Hfu. pose proof (zlen_nonneg line). lia.
Qed.

End block.

(** ** Messages *)

Lemma find_start buf k : 0 <= k <= zlen buf ->
  find_crlf buf 0 k = Some match first_crlf (take (Z.to_nat k) buf) with Some i => Z.of_nat i | None => k end.
Proof. intros Hk. pose proof (find_crlf_list [] buf k Hk) as H. change (zlen (@nil byte)) with 0 in H. by rewrite !Z.add_0_l in H. Qed.

Lemma start_line_complete line post : clean line -> line <> [] -> zlen line <= kMaxStartLineLength ->
  start_line (line ++ CRLF ++ post) = Some (Ok (Some line)).
Proof.
  intros Hc Hne Hl. unfold start_line. assert (0 < zlen line) as Hpos by (destruct line; [done|rewrite zlen_cons; pose proof (zlen_nonneg line); lia]).
  pose proof (zlen_nonneg post). rewrite !zlen_app, zlen_CRLF. rewrite (proj2 (Z.eqb_neq _ _)) by lia.
  unfold kMaxStartLineLength in *. set (k := Z.min _ _). assert (zlen line + 2 <= k <= zlen (line ++ CRLF ++ post)) as Hk
    by (subst k; rewrite !zlen_app, zlen_CRLF; lia). clearbody k. rewrite find_start by lia.
  assert (take (Z.to_nat k) (line ++ CRLF ++ post) = line ++ CRLF ++ take (Z.to_nat k - length line - 2) post) as ->.
  { unfold zlen in Hk. rewrite take_app, take_ge by lia. f_equal. rewrite take_app. f_equal. apply take_ge.
    change (length CRLF) with 2%nat. lia. }
  rewrite first_crlf_clean by done. cbn [mbind option_bind]. change (Z.of_nat (length line)) with (zlen line).
  rewrite !(proj2 (Z.eqb_neq _ _)) by lia. pose proof (slice_mid [] line (CRLF ++ post) 0 (zlen line) eq_refl eq_refl) as Hs.
  cbn [app] in Hs. by rewrite Hs.
Qed.

Lemma start_line_sound buf : exists r, start_line buf = Some r /\ forall line, r = Ok (Some line) ->
  exists post, buf = line ++ CRLF ++ post /\ line <> [] /\ zlen line <= kMaxStartLineLength.
Proof.
  unfold start_line. pose proof (zlen_nonneg buf). destruct (Z.eqb_spec (zlen buf) 0); [by eexists|]. unfold kMaxStartLineLength.
  set (k := Z.min _ _). assert (0 <= k <= zlen buf /\ k <= 8194) as [Hk Hk'] by (subst k; lia). clearbody k.
  rewrite find_start by lia. cbn [mbind option_bind]. destruct (first_crlf (take (Z.to_nat k) buf)) as [i|] eqn:Ei.
  2: { rewrite Z.eqb_refl. destruct (_ <? _); by eexists. }
  destruct (line_found [] buf k i Hk Ei) as (a & b & -> & <- & Hak & Hs). change (Z.of_nat (length a)) with (zlen a).
  rewrite (proj2 (Z.eqb_neq _ _)) by lia. destruct (Z.eqb_spec (zlen a) 0) as [|Hz]; [by eexists|].
  change (zlen (@nil byte)) with 0 in Hs. cbn [app] in Hs. cbn [app]. rewrite Hs. cbn [mbind option_bind].
  eexists. split; [reflexivity|]. intros line [= <-]. exists b. split_and!; [done|by intros ->|lia].
Qed.

Lemma start_line_partial line p q : clean line -> zlen line <= kMaxStartLineLength -> line ++ CRLF = p ++ q -> q <> [] ->
  start_line p = Some (Ok None).
Proof.
  intros Hc Hl E Hq. destruct (line_prefix line p q Hc E Hq) as (Hn & Hz & _). unfold start_line. pose proof (zlen_nonneg p).
  destruct (Z.eqb_spec (zlen p) 0); [done|]. unfold kMaxStartLineLength in *. rewrite Z.min_l by lia. rewrite find_start by lia.
  rewrite take_ge by (unfold zlen; lia). rewrite Hn. cbn [mbind option_bind]. rewrite Z.eqb_refl. by rewrite Z.ltb_irrefl.
Qed.

Lemma fields_nonneg cl lines hs cl' : fields cl lines hs cl' -> (forall v, cl = Some v -> 0 <= v) -> forall v, cl' = Some v -> 0 <= v.
Proof.
  induction 1 as [|cl cl' cl'' line lines h hs _ _ Hs _ IH]; [done|]. intros Hcl. apply IH. intros v ->. destruct Hs as [_ Hs].
  destruct (is_cl h); [|by apply Hcl]. destruct Hs as (w & (_ & Hd & <- & _) & _ & [= ->]). apply (dec_val_bound _ Hd).
Qed.

Lemma block_lines_len lines : (length lines < S (Z.to_nat (zlen (block_bytes lines))))%nat.
Proof.
  induction lines as [|l lines IH]; [cbn; lia|]. rewrite block_cons, !zlen_app, zlen_CRLF. cbn [length].
  pose proof (zlen_nonneg l). pose proof (zlen_nonneg (block_bytes lines)). lia.
Qed.

(** Both parsers: a first line, a header block and the body that [frame] makes of its length. *)
Section message.
Context {A : Type} (parse_line : list byte -> expected A Error) (frame : A -> option Z -> expected (option Z) Error).
Hypothesis line_clean : forall line a, parse_line line = Ok a -> clean line /\ line <> [].
Hypothesis frame_len : forall a cl k, frame a cl = Ok (Some k) -> cl = Some k.

Definition parse_message (buffer : list byte) (slots : Z)
    : option (expected (option (A * list HttpHeader * list byte * Z)) Error) :=
  sl ← start_line buffer;
  match sl with
  | Err e => Some (Err e)
  | Ok None => Some (Ok None)
  | Ok (Some line) =>
    match parse_line line with
    | Err e => Some (Err e)
    | Ok a =>
      hdr_res ← parse_header_block buffer (zlen line + 2) slots;
      match hdr_res with
      | Err e => Some (Err e)
      | Ok None => Some (Ok None)
      | Ok (Some st) =>
        match frame a (content_length st) with
        | Err e => Some (Err e)
        | Ok len =>
          b ← take_body buffer (header_block_end st) len;
          Some (Ok (match b with None => None | Some (body, n) => Some (a, st_headers st, body, n) end))
        end
      end
    end
  end.

Record message (slots : Z) (a : A) (lines : list (list byte)) (hs : list HttpHeader) (body msg : list byte) : Prop := {
  ms_parts : exists line cl n, msg = line ++ CRLF ++ block_bytes lines ++ body /\ parse_line line = Ok a /\
    zlen line <= kMaxStartLineLength /\ fields None lines hs cl /\ frame a cl = Ok n /\
    match n with Some k => zlen body = k | None => body = [] end;
  ms_room : zlen hs <= Z.min slots kMaxHeaderCount
}.

Lemma take_body_complete pre body post len : match len with Some k => zlen body = k | None => body = [] end ->
  take_body (pre ++ body ++ post) (zlen pre) len = Some (Some (body, zlen pre + zlen body)).
Proof.
  unfold take_body. pose proof (zlen_nonneg post). destruct len as [k|]; [intros <-|intros ->].
  - rewrite !zlen_app, (proj2 (Z.ltb_ge _ _)) by lia. by rewrite slice_mid.
  - change (zlen (@nil byte)) with 0. by rewrite Z.add_0_r.
Qed.

Lemma take_body_sound pre rest len : (forall k, len = Some k -> 0 <= k) ->
  exists b, take_body (pre ++ rest) (zlen pre) len = Some b /\ forall body n, b = Some (body, n) ->
    exists post, rest = body ++ post /\ n = zlen pre + zlen body /\ match len with Some k => zlen body = k | None => body = [] end.
Proof.
  intros Hk. unfold take_body. destruct len as [k|].
  - specialize (Hk k eq_refl). rewrite zlen_app. destruct (Z.ltb_spec (zlen pre + zlen rest) (zlen pre + k)); [by eexists|].
    assert (slice (pre ++ rest) (zlen pre) k = Some (take (Z.to_nat k) rest)) as ->.
    { rewrite <- (take_drop (Z.to_nat k) rest) at 1. apply slice_mid; [done|]. rewrite zlen_take. lia. }
    cbn [mbind option_bind]. eexists. split; [reflexivity|]. intros body n [= <- <-]. exists (drop (Z.to_nat k) rest).
    rewrite zlen_take. split_and!; [by rewrite take_drop|lia|lia].
  - eexists. split; [reflexivity|]. intros body n [= <- <-]. exists rest. split_and!; try done. change (zlen (@nil byte)) with 0. lia.
Qed.

Lemma parse_message_complete slots a lines hs body msg rest : message slots a lines hs body msg ->
  parse_message (msg ++ rest) slots = Some (Ok (Some (a, hs, body, zlen msg))).
Proof.
  intros [(line & cl & n & -> & Hp & Hl & Hf & Hfr & Hb) Hr]. destruct (line_clean _ _ Hp) as [Hc Hne].
  unfold parse_message. rewrite <- !app_assoc. rewrite start_line_complete by done. cbn [mbind option_bind]. rewrite Hp.
  unfold parse_header_block. set (pre := line ++ CRLF). assert (zlen line + 2 = zlen pre) as -> by (subst pre; by rewrite zlen_app).
  replace (line ++ CRLF ++ block_bytes lines ++ body ++ rest) with (pre ++ block_bytes lines ++ body ++ rest)
    by (subst pre; by rewrite <- !app_assoc).
  rewrite (header_loop_complete _ None lines hs cl Hf).
  2: { change (zlen (@nil HttpHeader)) with 0. lia. }
  2: { pose proof (block_lines_len lines). rewrite !zlen_app. pose proof (zlen_nonneg body). pose proof (zlen_nonneg rest).
       pose proof (zlen_nonneg (block_bytes lines)). lia. }
  cbn [mbind option_bind content_length header_block_end st_headers app]. rewrite Hfr.
  rewrite (app_assoc pre). rewrite <- zlen_app. rewrite take_body_complete by done. cbn [mbind option_bind].
  subst pre. rewrite !zlen_app. do 4 f_equal. lia.
Qed.

Lemma parse_message_exact slots buf : 0 <= slots -> exists r, parse_message buf slots = Some r /\ forall a hs body n,
  r = Ok (Some (a, hs, body, n)) <-> exists msg rest lines, buf = msg ++ rest /\ n = zlen msg /\ message slots a lines hs body msg.
Proof.
  intros Hslots. enough (exists r, parse_message buf slots = Some r /\ forall a hs body n, r = Ok (Some (a, hs, body, n)) ->
    exists msg rest lines, buf = msg ++ rest /\ n = zlen msg /\ message slots a lines hs body msg) as (r & E & Hr).
  { exists r. split; [done|]. intros a hs body n. split; [apply Hr|]. intros (msg & rest & lines & -> & -> & Hm).
    rewrite (parse_message_complete _ _ _ _ _ _ _ Hm) in E. congruence. }
  unfold parse_message. destruct (start_line_sound buf) as (sl & -> & Hsl). cbn [mbind option_bind].
  destruct sl as [[line|]|]; try by eexists. destruct (Hsl line eq_refl) as (post & -> & Hne & Hl).
  destruct (parse_line line) as [a|] eqn:Hp; [|by eexists]. unfold parse_header_block.
  set (pre := line ++ CRLF). assert (zlen line + 2 = zlen pre) as -> by (subst pre; by rewrite zlen_app).
  rewrite (app_assoc line). fold pre.
  destruct (header_loop_sound (Z.min slots kMaxHeaderCount) (S (Z.to_nat (zlen (pre ++ post) - zlen pre))) pre post [] None) as (hr & -> & Hh);
    [rewrite zlen_app; pose proof (zlen_nonneg post); lia|change (zlen (@nil HttpHeader)) with 0; unfold kMaxHeaderCount; lia|].
  cbn [mbind option_bind]. destruct hr as [[st|]|]; try by eexists.
  destruct (Hh st eq_refl) as (lines & hs & post' & -> & Hf & Ehs & Hcap & Hend). cbn [app] in Ehs.
  destruct (frame a (content_length st)) as [len|] eqn:Hfr; [|by eexists].
  rewrite Hend, <- zlen_app, (app_assoc pre).
  destruct (take_body_sound (pre ++ block_bytes lines) post' len) as (b & -> & Hb).
  { intros k ->. apply frame_len in Hfr. by apply (fields_nonneg _ _ _ _ Hf (fun v H => ltac:(done))). }
  cbn [mbind option_bind]. eexists. split; [reflexivity|]. intros a' hs' body n E. destruct b as [[body' n']|]; [|done].
  injection E as <- <- <- <-. destruct (Hb _ _ eq_refl) as (post2 & -> & -> & Hlen).
  exists (pre ++ block_bytes lines ++ body'), post2, lines. rewrite !zlen_app. split_and!; [by rewrite <- !app_assoc|lia|].
  split; [|by rewrite Ehs]. exists line, (content_length st), len. subst pre. rewrite <- !app_assoc, Ehs. by split_and!.
Qed.

(** Until its last byte has arrived, a message is incomplete and not an error. *)
Lemma parse_message_partial slots a lines hs body msg p q : message slots a lines hs body msg ->
  Forall (fun l => zlen l < kMaxHeaderLineLength) lines -> msg = p ++ q -> q <> [] -> parse_message p slots = Some (Ok None).
Proof.
  intros [(line & cl & n & -> & Hp & Hl & Hf & Hfr & Hb) Hr] Hlong E Hq. destruct (line_clean _ _ Hp) as [Hc Hne].
  rewrite app_assoc in E. unfold parse_message. destruct (cut_point _ _ _ _ E Hq) as [(q' & E' & Hq')|(p' & -> & E')].
  { by rewrite (start_line_partial line p q'). }
  rewrite <- app_assoc, start_line_complete by done. cbn [mbind option_bind]. rewrite Hp. unfold parse_header_block.
  set (pre := line ++ CRLF). assert (zlen line + 2 = zlen pre) as -> by (subst pre; by rewrite zlen_app).
  rewrite (app_assoc line). fold pre. destruct (cut_point _ _ _ _ E' Hq) as [(q' & E2 & Hq')|(p2 & -> & E2)].
  - rewrite (header_loop_partial _ None lines hs cl Hf Hlong _ pre p' q' []); try done.
    rewrite zlen_app. pose proof (zlen_nonneg p'). lia.
  - rewrite (header_loop_complete _ None lines hs cl Hf).
    2: { change (zlen (@nil HttpHeader)) with 0. lia. }
    2: { pose proof (block_lines_len lines). rewrite !zlen_app. pose proof (zlen_nonneg p2). pose proof (zlen_nonneg (block_bytes lines)). lia. }
    cbn [mbind option_bind content_length header_block_end]. rewrite Hfr. destruct n as [k|]; [|subst body; by destruct p2, q].
    unfold take_body. rewrite !zlen_app. assert (zlen body = zlen p2 + zlen q) as Hz by (by rewrite E2, zlen_app).
    assert (0 < zlen q) by (destruct q; [done|rewrite zlen_cons; pose proof (zlen_nonneg q); lia]).
    rewrite (proj2 (Z.ltb_lt _ _)) by lia. done.
Qed.

End message.

(** ** The grammar *)

Definition version_text (minor : Z) : list byte := text "HTTP/1." ++ [digit_char minor].

Lemma http_version_spec s v : http_version s = Some v <-> (v = 0 \/ v = 1) /\ s = version_text v.
Proof.
  unfold http_version. split.
  - destruct (bool_decide_reflect (s = text "HTTP/1.0")) as [->|_]; [intros [= <-]; auto|].
    destruct (bool_decide_reflect (s = text "HTTP/1.1")) as [->|_]; [intros [= <-]; auto|done].
  - by intros [[->| ->] ->].
Qed.

(** The body length is announced at most once, and rightly; nothing else frames the body. *)
Definition framed (hs : list HttpHeader) (body : list byte) : Prop :=
  Forall (fun h => is_te h = false) hs /\
  Forall (fun h => is_cl h = true -> decimal_of (h_value h) (zlen body)) hs /\
  (body = [] \/ Exists (fun h => is_cl h = true) hs).

(** Responses that have no body by their status may announce a length, consistently. *)
Definition framed_response (status_code : Z) (hs : list HttpHeader) (body : list byte) : Prop :=
  Forall (fun h => is_te h = false) hs /\
  if bodyless_status status_code
  then body = [] /\ exists v, Forall (fun h => is_cl h = true -> decimal_of (h_value h) v) hs
  else Forall (fun h => is_cl h = true -> decimal_of (h_value h) (zlen body)) hs /\ Exists (fun h => is_cl h = true) hs.

Definition header_block (slots : Z) (lines : list (list byte)) (hs : list HttpHeader) : Prop :=
  Forall2 field_line lines hs /\ Forall (fun l => zlen l <= kMaxHeaderLineLength) lines /\ zlen hs <= Z.min slots kMaxHeaderCount.

Definition request_line (req : HttpRequest) : list byte :=
  rq_method req ++ [SP] ++ rq_target req ++ [SP] ++ version_text (rq_version_minor req).

(** The bytes of a request whose header lines are [lines]. *)
Record request_bytes (slots : Z) (lines : list (list byte)) (req : HttpRequest) (msg : list byte) : Prop := {
  rb_bytes : msg = request_line req ++ CRLF ++ block_bytes lines ++ rq_body req;
  rb_method : is_valid_token (rq_method req) = true;
  rb_target : rq_target req <> [] /\ Forall (fun c => is_target_char c = true) (rq_target req);
  rb_version : rq_version_minor req = 0 \/ rq_version_minor req = 1;
  rb_line : zlen (request_line req) <= kMaxStartLineLength;
  rb_headers : header_block slots lines (rq_headers req);
  rb_framed : framed (rq_headers req) (rq_body req)
}.

(** [reason] with the SP before it, which may be missing when it is empty. *)
Definition reason_bytes (reason tail : list byte) : Prop := tail = SP :: reason \/ tail = [] /\ reason = [].

Record response_bytes (slots : Z) (lines : list (list byte)) (resp : HttpResponse) (msg : list byte) : Prop := {
  pb_bytes : exists code tail, let line := version_text (rs_version_minor resp) ++ [SP] ++ code ++ tail in
    msg = line ++ CRLF ++ block_bytes lines ++ rs_body resp /\ zlen line <= kMaxStartLineLength /\
    length code = 3%nat /\ digits code /\ dec_val code = rs_status_code resp /\ reason_bytes (rs_reason_phrase resp) tail;
  pb_reason : is_valid_field_value (rs_reason_phrase resp) = true;
  pb_version : rs_version_minor resp = 0 \/ rs_version_minor resp = 1;
  pb_headers : header_block slots lines (rs_headers resp);
  pb_framed : framed_response (rs_status_code resp) (rs_headers resp) (rs_body resp)
}.

Lemma fields_spec lines : forall cl0 hs cl, fields cl0 lines hs cl <->
  Forall2 field_line lines hs /\ Forall (fun l => zlen l <= kMaxHeaderLineLength) lines /\
  Forall (fun h => is_te h = false) hs /\
  Forall (fun h => is_cl h = true -> exists v, decimal_of (h_value h) v /\ cl = Some v) hs /\
  (cl0 = None \/ cl = cl0) /\ (cl = cl0 \/ Exists (fun h => is_cl h = true) hs).
Proof.
  induction lines as [|line lines IH]; intros cl0 hs cl; split.
  - inversion 1; subst. split_and!; [constructor|constructor|constructor|constructor|by right|by left].
  - intros (H1 & _ & _ & _ & _ & Hcl). inversion H1; subst. destruct Hcl as [->|He]; [constructor|by apply Exists_nil in He].
  - inversion 1 as [|? cl' ? ? ? h hs' Hf Hl [Hte Hst] Hfs]; subst. apply IH in Hfs as (H1 & H2 & H3 & H4 & H5 & H6).
    split_and!; [by constructor|by constructor|by constructor| | |]; destruct (is_cl h) eqn:Ec.
    + destruct Hst as (v & Hv & _ & ->). destruct H5 as [|H5]; [done|]. constructor; [|done]. intros _. by exists v.
    + constructor; [congruence|done].
    + destruct Hst as (v & Hv & [->| ->] & ->); [by left|]. destruct H5 as [|H5]; [done|by right].
    + by subst.
    + right. by left.
    + subst cl'. destruct H6 as [->|H6]; [by left|right; by right].
  - intros (H1 & H2 & H3 & H4 & H5 & H6). inversion H1 as [|? h ? hs' Hf H1']; subst. inversion H2; subst. inversion H3; subst.
    inversion H4 as [|? ? Hv H4']; subst. destruct (is_cl h) eqn:Ec.
    + destruct (Hv eq_refl) as (v & Hd & ->). apply (fields_cons cl0 (Some v)); [done|done| |].
      * split; [done|]. rewrite Ec. exists v. split_and!; [done| |done]. destruct H5 as [->|<-]; auto.
      * apply IH. split_and!; auto.
    + apply (fields_cons cl0 cl0); [done|done| |].
      * split; [done|]. by rewrite Ec.
      * apply IH. split_and!; auto. destruct H6 as [->|H6]; [by left|]. apply Exists_cons in H6 as [|H6]; [congruence|by right].
Qed.

Lemma exists_cl hs : Exists (fun h => is_cl h = true) hs \/ Forall (fun h => is_cl h = false) hs.
Proof.
  induction hs as [|h hs IH]; [right; constructor|]. destruct (is_cl h) eqn:E; [left; by left|].
  destruct IH; [left; by right|right; by constructor].
Qed.

Lemma framed_fields slots lines hs body :
  header_block slots lines hs /\ framed hs body <->
  zlen hs <= Z.min slots kMaxHeaderCount /\
  exists cl, fields None lines hs cl /\ match cl with Some k => zlen body = k | None => body = [] end.
Proof.
  unfold header_block, framed. setoid_rewrite fields_spec. split.
  - intros ((H1 & H2 & H3) & H4 & H5 & H6). split; [done|]. destruct (exists_cl hs) as [He|Hn].
    + exists (Some (zlen body)). split_and!; auto. eapply list.Forall_impl; [exact H5|]. intros h Hh Hc. eauto.
    + exists None. destruct H6 as [->|He].
      * split_and!; auto. eapply list.Forall_impl; [exact Hn|]. cbv beta. congruence.
      * exfalso. apply list.Exists_exists in He as (h & Hin & Hc). rewrite list.Forall_forall in Hn. specialize (Hn h Hin). congruence.
  - intros (H3 & cl & (H1 & H2 & H4 & H5 & _ & H6) & Hb). split_and!; try done.
    + eapply list.Forall_impl; [exact H5|]. intros h Hh Hc. destruct (Hh Hc) as (v & Hv & ->). by subst v.
    + destruct H6 as [->|He]; [by left|by right].
Qed.

Lemma framed_fields_response slots lines hs code body :
  header_block slots lines hs /\ framed_response code hs body <->
  zlen hs <= Z.min slots kMaxHeaderCount /\
  exists cl, fields None lines hs cl /\ if bodyless_status code then body = [] else cl = Some (zlen body).
Proof.
  unfold header_block, framed_response. setoid_rewrite fields_spec. split.
  - intros ((H1 & H2 & H3) & H4 & Hb). split; [done|].
    assert (exists v, Forall (fun h => is_cl h = true -> decimal_of (h_value h) v) hs /\
      if bodyless_status code then body = [] else v = zlen body /\ Exists (fun h => is_cl h = true) hs) as (v & H5 & H6).
    { destruct (bodyless_status code); [destruct Hb as (-> & v & Hv); by exists v|]. destruct Hb. by exists (zlen body). }
    destruct (exists_cl hs) as [He|Hn].
    + exists (Some v). split_and!; auto.
      * eapply list.Forall_impl; [exact H5|]. intros h Hh Hc. eauto.
      * destruct (bodyless_status code); [done|]. by destruct H6 as [-> _].
    + exists None. split_and!; auto; [eapply list.Forall_impl; [exact Hn|]; cbv beta; congruence|].
      destruct (bodyless_status code); [done|]. destruct H6 as [_ He]. exfalso. apply list.Exists_exists in He as (h & Hin & Hc).
      rewrite list.Forall_forall in Hn. specialize (Hn h Hin). congruence.
  - intros (H3 & cl & (H1 & H2 & H4 & H5 & _ & H6) & Hb). split_and!; try done.
    destruct (bodyless_status code).
    + split; [done|]. exists (match cl with Some v => v | None => 0 end). eapply list.Forall_impl; [exact H5|].
      intros h Hh Hc. by destruct (Hh Hc) as (v & Hv & ->).
    + subst cl. destruct H6 as [|He]; [done|]. split; [|done]. eapply list.Forall_impl; [exact H5|]. intros h Hh Hc.
      by destruct (Hh Hc) as (v & Hv & [= <-]).
Qed.

Lemma parse_request_line_spec line m t v : parse_request_line line = Ok (m, t, v) <->
  line = m ++ [SP] ++ t ++ [SP] ++ version_text v /\ is_valid_token m = true /\
  (t <> [] /\ Forall (fun c => is_target_char c = true) t) /\ (v = 0 \/ v = 1).
Proof.
  unfold parse_request_line. split.
  - destruct (split_byte SP line) as [[m' rest]|] eqn:E1; [|done]. apply split_byte_spec in E1 as [-> _].
    destruct (split_byte SP rest) as [[t' ver]|] eqn:E2; [|done]. apply split_byte_spec in E2 as [-> _].
    destruct (is_valid_token m') eqn:Em; [|done]. destruct (bool_decide_reflect (t' = [])); [done|].
    destruct (forallb is_target_char t') eqn:Et; [|done]. cbn [negb].
    destruct (http_version ver) as [v'|] eqn:Ev; [|done]. apply http_version_spec in Ev as [Hv ->].
    intros [= <- <- <-]. split_and!; try done. by apply forallb_Forall.
  - intros (-> & Hm & [Hne Ht] & Hv). destruct (token_clean m Hm) as (_ & Hd & _).
    rewrite (proj2 (split_byte_spec SP _ m (t ++ [SP] ++ version_text v))).
    2: { split; [done|]. intros Hin. rewrite list.Forall_forall in Hd. by specialize (Hd _ Hin). }
    rewrite (proj2 (split_byte_spec SP _ t (version_text v))).
    2: { split; [done|]. intros Hin. rewrite list.Forall_forall in Ht. by specialize (Ht _ Hin). }
    rewrite Hm. cbn [negb]. rewrite bool_decide_eq_false_2 by done. rewrite (proj2 (forallb_Forall _ _) Ht). cbn [negb].
    by rewrite (proj2 (http_version_spec _ v) (conj Hv eq_refl)).
Qed.

Lemma clean_app a b : clean (a ++ b) <-> clean a /\ clean b.
Proof. apply list.Forall_app. Qed.

Lemma version_clean v : v = 0 \/ v = 1 -> clean (version_text v).
Proof. intros [->| ->]; by repeat constructor. Qed.

Lemma parse_request_line_clean line a : parse_request_line line = Ok a -> clean line /\ line <> [].
Proof.
  destruct a as [[m t] v]. intros (-> & Hm & [_ Ht] & Hv)%parse_request_line_spec. destruct (token_clean m Hm) as (Hc & _ & Hne).
  split; [|by destruct m]. rewrite !clean_app. split_and!; [done|by repeat constructor| |by repeat constructor|by apply version_clean].
  eapply list.Forall_impl; [exact Ht|]. intros c Hc'. apply target_no_delim, andb_true_iff in Hc'. tauto.
Qed.

Lemma parse_status_line_spec line c r v : parse_status_line line = Ok (c, r, v) <->
  exists code tail, line = version_text v ++ [SP] ++ code ++ tail /\ length code = 3%nat /\ digits code /\ dec_val code = c /\
    reason_bytes r tail /\ is_valid_field_value r = true /\ (v = 0 \/ v = 1).
Proof.
  unfold parse_status_line. split.
  - destruct (Z.ltb_spec (zlen line) 12) as [|Hl]; [done|]. destruct (http_version (take 8 line)) as [v'|] eqn:Ev; [|done].
    apply http_version_spec in Ev as [Hv E8]. case_bool_decide as Hsp; [|done]. cbn [negb].
    destruct (forallb is_digit (take 3 (drop 9 line))) eqn:Ed; [|done]. apply forallb_Forall in Ed. cbn [negb]. intros H.
    assert (line = version_text v' ++ [SP] ++ take 3 (drop 9 line) ++ drop 12 line) as El.
    { rewrite <- E8. rewrite <- (take_drop 8 line) at 1. f_equal. rewrite <- (take_drop 1 (drop 8 line)) at 1. rewrite drop_drop. f_equal.
      - rewrite <- (take_drop_middle _ _ _ Hsp). rewrite drop_app_length' by (rewrite length_take; apply lookup_lt_Some in Hsp; lia). done.
      - change (8 + 1)%nat with 9%nat. rewrite <- (take_drop 3 (drop 9 line)) at 1. by rewrite drop_drop. }
    exists (take 3 (drop 9 line)), (drop 12 line).
    assert (length (take 3 (drop 9 line)) = 3%nat) as H3 by (rewrite length_take, length_drop; unfold zlen in Hl; lia).
    clear E8. destruct (drop 12 line) as [|sp reason].
    + injection H as <- <- <-. split_and!; try done. by right.
    + destruct (beq sp SP) eqn:Esp; [|done]. apply beq_true in Esp as ->. destruct (is_valid_field_value reason) eqn:Er; [|done].
      cbn [negb] in H. injection H as <- <- <-. split_and!; try done. by left.
  - intros (code & tail & -> & H3 & Hd & <- & Hr & Hrv & Hv).
    assert (length (version_text v) = 8%nat) as H8 by (by destruct Hv as [->| ->]). pose proof (zlen_nonneg tail).
    assert (zlen (version_text v) = 8 /\ zlen code = 3) as [Hz8 Hz3] by (unfold zlen; lia).
    rewrite !zlen_app, (proj2 (Z.ltb_ge _ _)) by (change (zlen [SP]) with 1; lia).
    rewrite take_app_length' by done. rewrite (proj2 (http_version_spec _ v) (conj Hv eq_refl)).
    rewrite lookup_app_r by lia. rewrite H8. change (([SP] ++ code ++ tail) !! (8 - 8)%nat) with (Some SP).
    rewrite bool_decide_eq_true_2 by done. cbn [negb].
    assert (drop 9 (version_text v ++ [SP] ++ code ++ tail) = code ++ tail) as E9.
    { rewrite app_assoc. apply drop_app_length'. rewrite length_app, H8. done. }
    rewrite E9, take_app_length' by done. change 12%nat with (9 + 3)%nat. rewrite <- drop_drop, E9, drop_app_length' by done.
    rewrite (proj2 (forallb_Forall _ _) Hd). cbn [negb]. destruct Hr as [->|[-> ->]]; [|done].
    rewrite beq_refl, Hrv. done.
Qed.

Lemma parse_status_line_clean line a : parse_status_line line = Ok a -> clean line /\ line <> [].
Proof.
  destruct a as [[c r] v]. intros (code & tail & -> & H3 & Hd & _ & Hr & Hrv & Hv)%parse_status_line_spec.
  split; [|by destruct Hv as [->| ->]]. rewrite !clean_app. split_and!; [by apply version_clean|by repeat constructor| |].
  - eapply list.Forall_impl; [exact Hd|]. intros x. apply (byte_implies is_digit no_crlf_byte x). done.
  - apply value_clean in Hrv. destruct Hr as [->|[-> _]]; [by constructor|constructor].
Qed.

(** ** The parsers are exact *)

Definition frame_request (a : list byte * list byte * Z) (cl : option Z) : expected (option Z) Error := Ok cl.

Definition frame_response (a : Z * list byte * Z) (cl : option Z) : expected (option Z) Error :=
  if bodyless_status a.1.1 then Ok None else match cl with Some v => Ok (Some v) | None => Err CodecBad end.

Definition request_of (x : list byte * list byte * Z * list HttpHeader * list byte * Z) : HttpRequest * Z :=
  let '(m, t, v, hs, body, n) := x in (mkRequest m t v hs body, n).

Definition response_of (x : Z * list byte * Z * list HttpHeader * list byte * Z) : HttpResponse * Z :=
  let '(c, r, v, hs, body, n) := x in (mkResponse c r v hs body, n).

Definition map_ok {A B} (f : A -> B) (r : expected (option A) Error) : expected (option B) Error :=
  match r with Ok x => Ok (f <$> x) | Err e => Err e end.

Lemma request_as_message buf slots :
  parse_http_request buf slots = map_ok request_of <$> parse_message parse_request_line frame_request buf slots.
Proof.
  unfold parse_http_request, parse_message, frame_request. destruct (start_line buf) as [[[line|]|]|]; try done. cbn [mbind option_bind].
  destruct (parse_request_line line) as [[[m t] v]|]; [|done]. destruct (parse_header_block _ _ _) as [[[st|]|]|]; try done.
  cbn [mbind option_bind]. by destruct (take_body _ _ _) as [[[body n]|]|].
Qed.

Lemma response_as_message buf slots :
  parse_http_response buf slots = map_ok response_of <$> parse_message parse_status_line frame_response buf slots.
Proof.
  unfold parse_http_response, parse_message, frame_response. destruct (start_line buf) as [[[line|]|]|]; try done. cbn [mbind option_bind].
  destruct (parse_status_line line) as [[[c r] v]|]; [|done]. destruct (parse_header_block _ _ _) as [[[st|]|]|]; try done.
  cbn [mbind option_bind fst]. destruct (bodyless_status c); cbn [negb andb].
  - by destruct (take_body _ _ _) as [[[body n]|]|].
  - destruct (content_length st) as [k|]; [|by rewrite bool_decide_eq_true_2]. rewrite bool_decide_eq_false_2 by done.
    by destruct (take_body _ _ _) as [[[body n]|]|].
Qed.

Lemma request_bytes_message slots lines m t v hs body msg :
  request_bytes slots lines (mkRequest m t v hs body) msg <->
  message parse_request_line frame_request slots (m, t, v) lines hs body msg.
Proof.
  split.
  - intros [Hb Hm Ht Hv Hl Hh Hf]. cbn in *. destruct (proj1 (framed_fields slots lines hs body) (conj Hh Hf)) as (Hr & cl & Hfs & Hn).
    split; [|done]. eexists _, cl, cl. split_and!; [exact Hb| |done|done|done|done]. by apply parse_request_line_spec.
  - intros [(line & cl & n & -> & (-> & Hm & Ht & Hv)%parse_request_line_spec & Hl & Hfs & [= <-] & Hn) Hr].
    destruct (proj2 (framed_fields slots lines hs body)) as [Hh Hf]; [split; [done|by exists cl]|]. by split.
Qed.

Lemma response_bytes_message slots lines c r v hs body msg :
  response_bytes slots lines (mkResponse c r v hs body) msg <->
  message parse_status_line frame_response slots (c, r, v) lines hs body msg.
Proof.
  assert (forall cl n, frame_response (c, r, v) cl = Ok n /\ match n with Some k => zlen body = k | None => body = [] end <->
    (if bodyless_status c then n = None /\ body = [] else n = Some (zlen body) /\ cl = Some (zlen body))) as Hframe.
  { intros cl n. unfold frame_response. cbn [fst]. destruct (bodyless_status c).
    - split; [intros [[= <-] Hb]; done|intros [-> ->]; done].
    - destruct cl as [k|]; (split; [intros [E Hb]|intros [? E]]); try done; [injection E as <-; by subst k|injection E as ->; by subst n]. }
  split.
  - intros [(code & tail & Hb & Hl & H3 & Hd & Hc & Hrs) Hrv Hv Hh Hf]. cbn [rs_status_code rs_reason_phrase rs_version_minor rs_headers rs_body] in *.
    destruct (proj1 (framed_fields_response slots lines hs c body) (conj Hh Hf)) as (Hroom & cl & Hfs & Hn).
    split; [|done]. eexists _, cl, (if bodyless_status c then None else Some (zlen body)). split; [exact Hb|]. split.
    + apply parse_status_line_spec. by exists code, tail.
    + split; [done|]. split; [done|]. apply Hframe. by destruct (bodyless_status c).
  - intros [(line & cl & n & -> & (code & tail & -> & H3 & Hd & Hc & Hrs & Hrv & Hv)%parse_status_line_spec & Hl & Hfs & Hn) Hr].
    apply Hframe in Hn. destruct (proj2 (framed_fields_response slots lines hs c body)) as [Hh Hf].
    { split; [done|]. exists cl. split; [done|]. destruct (bodyless_status c); tauto. }
    split; [by exists code, tail|done..].
Qed.

Lemma frame_request_len a cl k : frame_request a cl = Ok (Some k) -> cl = Some k.
Proof. unfold frame_request. congruence. Qed.

Lemma frame_response_len a cl k : frame_response a cl = Ok (Some k) -> cl = Some k.
Proof. unfold frame_response. destruct (bodyless_status _); [done|]. destruct cl; [congruence|done]. Qed.

(** C24: HTTP framing.  On every buffer both parsers are defined (they read only inside it), and
    they report a complete message exactly when the buffer begins with one of the grammar:
    a start line with a token as method and a printable target, or a status line with three
    digits, of HTTP 1.0 or 1.1 and of at most 8192 bytes; header lines of at most 8192 bytes,
    at most 64 and no more than the slots, with tokens as names and trimmed values without
    control characters; and a body framed in one way only -- no Transfer-Encoding, every
    Content-Length a decimal number that is the number of bytes of the body, and no body
    without one.  (A response whose status admits no body has none; any other needs a
    Content-Length.)  The bytes to drain are those of the message.  Bytes of 0x80 and above are
    refused in a target and accepted in values and reason phrases, each time against the comment
    in the source ([http_high_bytes], [http_high_bytes_example]). *)
Theorem http_parse_exact buf slots : 0 <= slots ->
  (exists r, parse_http_request buf slots = Some r /\ forall req n, r = Ok (Some (req, n)) <->
     exists msg rest lines, buf = msg ++ rest /\ n = zlen msg /\ request_bytes slots lines req msg) /\
  (exists r, parse_http_response buf slots = Some r /\ forall resp n, r = Ok (Some (resp, n)) <->
     exists msg rest lines, buf = msg ++ rest /\ n = zlen msg /\ response_bytes slots lines resp msg).
Proof.
  intros Hs. split.
  - destruct (parse_message_exact parse_request_line frame_request parse_request_line_clean frame_request_len slots buf Hs) as (r & E & Hr).
    exists (map_ok request_of r). rewrite request_as_message, E. split; [done|]. intros [m t v hs body] n.
    setoid_rewrite request_bytes_message. rewrite <- Hr. clear Hr E. destruct r as [[[[[[[m' t'] v'] hs'] body'] n']|]|]; cbn; naive_solver.
  - destruct (parse_message_exact parse_status_line frame_response parse_status_line_clean frame_response_len slots buf Hs) as (r & E & Hr).
    exists (map_ok response_of r). rewrite response_as_message, E. split; [done|]. intros [c rs v hs body] n.
    setoid_rewrite response_bytes_message. rewrite <- Hr. clear Hr E. destruct r as [[[[[[[m' t'] v'] hs'] body'] n']|]|]; cbn; naive_solver.
Qed.

(** HTTP messages in pieces.  When a request or a response arrives in pieces, the parser
    answers that it needs more bytes until the last byte of the message has arrived, for every
    way of cutting it, and then returns the message whatever follows it.  (Header lines here
    are shorter than the limit of 8192 bytes; for a line of exactly that length see
    [http_split_rejected].) *)
Theorem http_incremental slots lines p q rest : Forall (fun l => zlen l < kMaxHeaderLineLength) lines ->
  (forall req, request_bytes slots lines req (p ++ q) ->
     parse_http_request (p ++ q ++ rest) slots = Some (Ok (Some (req, zlen (p ++ q)))) /\
     (q <> [] -> parse_http_request p slots = Some (Ok None))) /\
  (forall resp, response_bytes slots lines resp (p ++ q) ->
     parse_http_response (p ++ q ++ rest) slots = Some (Ok (Some (resp, zlen (p ++ q)))) /\
     (q <> [] -> parse_http_response p slots = Some (Ok None))).
Proof.
  intros Hl. rewrite app_assoc. split.
  - intros [m t v hs body] Hm%request_bytes_message. rewrite !request_as_message. split.
    + by rewrite (parse_message_complete _ _ parse_request_line_clean _ _ _ _ _ _ rest Hm).
    + intros Hq. by rewrite (parse_message_partial _ _ parse_request_line_clean _ _ _ _ _ _ p q Hm Hl eq_refl Hq).
  - intros [c r v hs body] Hm%response_bytes_message. rewrite !response_as_message. split.
    + by rewrite (parse_message_complete _ _ parse_status_line_clean _ _ _ _ _ _ rest Hm).
    + intros Hq. by rewrite (parse_message_partial _ _ parse_status_line_clean _ _ _ _ _ _ p q Hm Hl eq_refl Hq).
Qed.

Lemma header_loop_cut cap fuel pre line h headers cl : field_line line h -> zlen line = kMaxHeaderLineLength ->
  header_loop (S fuel) (pre ++ line ++ [CR]) cap (zlen pre) headers cl = Some (Err CodecOverflow).
Proof.
  intros Hf Hl. destruct (field_line_clean _ _ Hf) as [Hc Hne]. destruct (first_crlf_none line Hc) as [_ Hn].
  destruct line as [|c line]; [done|]. set (L := (c :: line) ++ [CR]) in *. assert (zlen L = 8193) as HL by (subst L; by rewrite zlen_app, Hl).
  cbn [header_loop]. pose proof (zlen_nonneg pre). rewrite zlen_app, HL, (proj2 (Z.leb_gt _ _)) by lia.
  assert (rd (pre ++ L) (zlen pre) = Some c) as -> by (by rewrite rd_app_r). cbn [mbind option_bind].
  assert (no_crlf_byte c = true) as Hc0 by (by inversion Hc). apply negb_true_iff, orb_false_iff in Hc0 as [-> ->].
  unfold kMaxHeaderLineLength. replace (Z.min (zlen pre + 8193) (zlen pre + 8192 + 2)) with (zlen pre + 8193) by lia.
  rewrite find_crlf_list by lia. rewrite take_ge by (unfold zlen in HL; lia). rewrite Hn. cbn [mbind option_bind].
  rewrite Z.eqb_refl. by rewrite (proj2 (Z.ltb_lt _ _)) by lia.
Qed.

(** A request with a header line of exactly 8192 bytes is accepted, but refused as too long
    when the bytes received so far end between the CR and the LF of that line. *)
Lemma http_split_rejected slots line lines req msg : request_bytes slots (line :: lines) req msg -> zlen line = kMaxHeaderLineLength ->
  (exists rest, msg = (request_line req ++ CRLF ++ line ++ [CR]) ++ rest) /\
  parse_http_request msg slots = Some (Ok (Some (req, zlen msg))) /\
  parse_http_request (request_line req ++ CRLF ++ line ++ [CR]) slots = Some (Err CodecOverflow).
Proof.
  intros Hreq Hl. destruct req as [m t v hs body]. pose proof (proj1 (request_bytes_message _ _ _ _ _ _ _ _) Hreq) as Hm.
  destruct Hreq as [-> Hme Ht Hv Hrl (Hf & _ & Hroom) _]. cbn [rq_method rq_target rq_version_minor rq_headers rq_body] in *.
  assert (parse_request_line (request_line (mkRequest m t v hs body)) = Ok (m, t, v)) as Hp by (by apply parse_request_line_spec).
  destruct (parse_request_line_clean _ _ Hp) as [Hc Hne]. split_and!.
  - exists ([LF] ++ block_bytes lines ++ body). rewrite block_cons. by rewrite <- !app_assoc.
  - rewrite request_as_message. pose proof (parse_message_complete _ _ parse_request_line_clean _ _ _ _ _ _ [] Hm) as E.
    rewrite app_nil_r in E. by rewrite E.
  - rewrite request_as_message. unfold parse_message. set (rl := request_line _) in *.
    rewrite start_line_complete by done. cbn [mbind option_bind]. rewrite Hp. unfold parse_header_block.
    assert (zlen rl + 2 = zlen (rl ++ CRLF)) as -> by (by rewrite zlen_app). rewrite (app_assoc rl).
    inversion Hf as [|? h ? ? Hfl]; subst. by rewrite (header_loop_cut _ _ _ line h).
Qed.

(** The parser takes any three digits for a status code. *)
Example http_status_any :
  parse_http_response (text "HTTP/1.1 999 ?" ++ CRLF ++ text "Content-Length: 0" ++ CRLF ++ CRLF) 4 =
  Some (Ok (Some (mkResponse 999 (text "?") 1 [mkHeader (text "Content-Length") (text "0")] [], 37))).
Proof. vm_compute. reflexivity. Qed.

(** ** The builders *)

Lemma append_all_spec cap out : 0 <= cap <= zlen out -> forall pieces hdr, zlen hdr <= cap ->
  exists r m, append_all (hdr ++ drop (length hdr) out) cap (zlen hdr) pieces = Some (r, m) /\
  zlen m = zlen out /\ drop (Z.to_nat cap) m = drop (Z.to_nat cap) out /\
  if zlen hdr + zlen (concat pieces) <=? cap
  then r = Ok (zlen hdr + zlen (concat pieces)) /\ take (Z.to_nat (zlen hdr + zlen (concat pieces))) m = hdr ++ concat pieces
  else r = Err CodecOverflow.
Proof.
  intros Hcap. induction pieces as [|p pieces IH]; intros hdr Hh; cbn [append_all concat].
  - eexists _, _. split; [reflexivity|]. change (zlen (@nil byte)) with 0. rewrite Z.add_0_r, (proj2 (Z.leb_le _ _)) by lia.
    unfold zlen in *. rewrite length_app, length_drop. split_and!; [lia| |done|].
    + rewrite drop_app, drop_drop. rewrite (drop_ge hdr) by lia. cbn [app]. f_equal. lia.
    + rewrite Nat2Z.id, app_nil_r. by apply take_app_length.
  - unfold buf_append. rewrite zlen_app. pose proof (zlen_nonneg p). pose proof (zlen_nonneg (concat pieces)).
    rewrite (proj2 (Z.ltb_ge cap _)) by lia. cbn [orb]. destruct (Z.ltb_spec (cap - zlen hdr) (zlen p)) as [Hp|Hp].
    + cbn [mbind option_bind]. eexists _, _. split; [reflexivity|]. rewrite (proj2 (Z.leb_gt _ _)) by lia.
      unfold zlen in *. rewrite length_app, length_drop. split_and!; [lia| |done].
      rewrite drop_app, drop_drop. rewrite (drop_ge hdr) by lia. cbn [app]. f_equal. lia.
    + rewrite wr_grow by (try done; lia). cbn [mbind option_bind]. rewrite <- zlen_app.
      destruct (IH (hdr ++ p)) as (r & m & -> & Hm & Hd & Hr); [rewrite zlen_app; lia|]. exists r, m. split_and!; try done.
      rewrite zlen_app in Hr. rewrite <- app_assoc in Hr. by rewrite Z.add_assoc.
Qed.

Lemma append_all_start cap out pieces : 0 <= cap <= zlen out ->
  exists r m, append_all out cap 0 pieces = Some (r, m) /\ zlen m = zlen out /\ drop (Z.to_nat cap) m = drop (Z.to_nat cap) out /\
  if zlen (concat pieces) <=? cap
  then r = Ok (zlen (concat pieces)) /\ take (Z.to_nat (zlen (concat pieces))) m = concat pieces
  else r = Err CodecOverflow.
Proof. intros H. destruct (append_all_spec cap out H pieces []) as (r & m & Hx); [change (zlen (@nil byte)) with 0; lia|]. by exists r, m. Qed.

Definition header_text (h : HttpHeader) : list byte := h_name h ++ text ": " ++ h_value h.

Lemma concat_header_pieces hs : concat (header_pieces hs ++ [CRLF]) = block_bytes (map header_text hs).
Proof.
  unfold header_pieces. induction hs as [|h hs IH]; [done|]. cbn [map concat]. rewrite <- app_assoc, concat_app, IH, block_cons.
  unfold header_text. cbn [concat]. by rewrite <- !app_assoc.
Qed.

Lemma concat_body_pieces body : concat (body_pieces body) = body.
Proof. unfold body_pieces. case_bool_decide as E; [by rewrite E|]. apply app_nil_r. Qed.

Lemma concat_message first hs body : concat (first ++ header_pieces hs ++ [CRLF] ++ body_pieces body) =
  concat first ++ block_bytes (map header_text hs) ++ body.
Proof. by rewrite (app_assoc (header_pieces hs)), concat_app, (concat_app (header_pieces hs ++ _)), concat_header_pieces, concat_body_pieces. Qed.

(** Names are tokens and values have no CR, LF and NUL. *)
Definition header_safe (h : HttpHeader) : Prop := is_valid_token (h_name h) = true /\ builder_reject_unsafe_value (h_value h) = false.

Lemma validate_headers_spec hs : (validate_builder_headers hs = Ok tt <-> zlen hs <= kMaxHeaderCount /\ Forall header_safe hs) /\
  (validate_builder_headers hs <> Ok tt -> exists e, validate_builder_headers hs = Err e).
Proof.
  split; [|destruct (validate_builder_headers hs) as [[]|e]; [done|by eexists]]. unfold validate_builder_headers.
  destruct (Z.ltb_spec kMaxHeaderCount (zlen hs)) as [|Hl]; [split; [done|lia]|].
  enough (validate_header_list hs = Ok tt <-> Forall header_safe hs) by tauto. clear Hl.
  induction hs as [|h hs IH]; [split; [constructor|done]|]. cbn [validate_header_list]. rewrite list.Forall_cons, <- IH. unfold header_safe.
  destruct (is_valid_token (h_name h)), (builder_reject_unsafe_value (h_value h)); cbn [negb]; intuition congruence.
Qed.

Lemma unsafe_value_clean v : builder_reject_unsafe_value v = false -> clean v.
Proof.
  intros H. apply list.Forall_forall. intros c Hc. unfold no_crlf_byte. apply negb_true_iff, not_true_iff_false. intros Hx.
  enough (builder_reject_unsafe_value v = true) by congruence. apply existsb_exists. exists c. split; [by apply list_elem_of_In|].
  destruct (beq c CR), (beq c LF); done.
Qed.

Lemma unsafe_token_clean v : builder_reject_unsafe_token v = false -> clean v.
Proof.
  intros H. apply unsafe_value_clean. apply not_true_iff_false. intros (c & Hin & Hc)%existsb_exists.
  enough (builder_reject_unsafe_token v = true) by congruence. apply existsb_exists. exists c. split; [done|].
  destruct (beq c CR), (beq c LF), (beq c NUL); done.
Qed.

Lemma header_text_clean h : header_safe h -> clean (header_text h).
Proof.
  intros [Ht Hv]. unfold header_text. rewrite !clean_app. split_and!; [by apply token_clean|by repeat constructor|by apply unsafe_value_clean].
Qed.

(** The header as it is read back: without the white space around its value. *)
Definition received (h : HttpHeader) : HttpHeader := mkHeader (h_name h) (trim_ows (h_value h)).

Lemma header_text_line h : header_safe h -> is_valid_field_value (h_value h) = true -> field_line (header_text h) (received h).
Proof.
  intros [Ht _] Hv. destruct (trim_ows_split (h_value h)) as (o2 & o3 & E & H2 & H3 & Hu). exists [], (SP :: o2), o3.
  unfold received, header_text. cbn [h_name h_value]. split_and!; try done; [|constructor|by constructor|].
  - rewrite E at 1. done.
  - rewrite E in Hv. unfold is_valid_field_value in *. rewrite !forallb_app in Hv. apply andb_true_iff in Hv as [_ Hv].
    by apply andb_true_iff in Hv as [Hv _].
Qed.

(** A builder leaves memory outside its [cap] bytes alone, succeeds exactly for accepted
    inputs whose message fits, and then has written the message. *)
Definition writes (out mem : list byte) (cap : Z) (r : expected Z Error) (accepted : Prop) (bytes : list byte) : Prop :=
  zlen mem = zlen out /\ drop (Z.to_nat cap) mem = drop (Z.to_nat cap) out /\
  forall n, (r = Ok n <-> accepted /\ n = zlen bytes /\ n <= cap) /\ (r = Ok n -> take (Z.to_nat n) mem = bytes).

Definition request_accepted (method target : list byte) (hs : list HttpHeader) : Prop :=
  is_valid_token method = true /\ target <> [] /\ builder_reject_unsafe_token target = false /\
  zlen hs <= kMaxHeaderCount /\ Forall header_safe hs.

Definition response_accepted (status_code : Z) (reason : list byte) (hs : list HttpHeader) : Prop :=
  100 <= status_code <= 599 /\ builder_reject_unsafe_value reason = false /\ zlen hs <= kMaxHeaderCount /\ Forall header_safe hs.

Definition request_head (method target : list byte) : list byte := method ++ [SP] ++ target ++ [SP] ++ version_text 1.
Definition response_head (status_code : Z) (reason : list byte) : list byte :=
  version_text 1 ++ [SP] ++ decimal_text status_code ++ SP :: reason.

Definition http_text (first : list byte) (hs : list HttpHeader) (body : list byte) : list byte :=
  first ++ CRLF ++ block_bytes (map header_text hs) ++ body.

(** What is sent obeys the limits of the parser. *)
Definition sendable (first : list byte) (hs : list HttpHeader) (slots : Z) : Prop :=
  zlen first <= kMaxStartLineLength /\ zlen hs <= slots /\
  Forall (fun h => is_valid_field_value (h_value h) = true /\ zlen (header_text h) <= kMaxHeaderLineLength) hs.

Lemma writes_refused out cap e (P : Prop) bytes : ~ P -> writes out out cap (Err e) P bytes.
Proof. intros H. split_and!; [done|done|]. intros n. split; [|done]. split; [done|]. by intros [? _]. Qed.

Lemma writes_append out cap pieces (P : Prop) : 0 <= cap <= zlen out -> P ->
  exists r m, append_all out cap 0 pieces = Some (r, m) /\ writes out m cap r P (concat pieces).
Proof.
  intros Hc HP. destruct (append_all_start cap out pieces Hc) as (r & m & -> & Hm & Hd & Hr). exists r, m. split; [done|].
  split_and!; try done. intros n. destruct (Z.leb_spec (zlen (concat pieces)) cap) as [Hl|Hl].
  - destruct Hr as [-> Ht]. split; [split; [intros [= <-]; done|intros (_ & -> & _); done]|]. by intros [= <-].
  - subst r. split; [split; [done|intros (_ & -> & ?); lia]|done].
Qed.

Lemma build_request_spec out cap method target hs body : 0 <= cap <= zlen out ->
  exists r mem, build_http_request out cap method target hs body = Some (r, mem) /\
    writes out mem cap r (request_accepted method target hs) (http_text (request_head method target) hs body).
Proof.
  intros Hc. unfold build_http_request, request_accepted. destruct (is_valid_token method) eqn:Hm; cbn [negb].
  2: { eexists _, _. split; [reflexivity|]. apply writes_refused. by intros [? _]. }
  destruct (bool_decide_reflect (target = [])) as [|Ht]; cbn [orb].
  { eexists _, _. split; [reflexivity|]. apply writes_refused. by intros (_ & ? & _). }
  destruct (builder_reject_unsafe_token target) eqn:Hu.
  { eexists _, _. split; [reflexivity|]. apply writes_refused. by intros (_ & _ & ? & _). }
  destruct (validate_headers_spec hs) as [Hv1 Hv2]. destruct (validate_builder_headers hs) as [[]|e] eqn:Hv.
  2: { eexists _, _. split; [reflexivity|]. apply writes_refused. intros (_ & _ & _ & H). by apply Hv1 in H. }
  pose proof (proj1 Hv1 eq_refl) as Hs. set (pieces := _ ++ header_pieces hs ++ _).
  assert (http_text (request_head method target) hs body = concat pieces) as ->.
  { subst pieces. rewrite concat_message. unfold http_text, request_head. cbn [concat]. rewrite app_nil_r, <- !app_assoc. done. }
  apply writes_append; [done|]. tauto.
Qed.

Lemma build_response_spec out cap code reason hs body : 0 <= cap <= zlen out ->
  exists r mem, build_http_response out cap code reason hs body = Some (r, mem) /\
    writes out mem cap r (response_accepted code reason hs) (http_text (response_head code reason) hs body).
Proof.
  intros Hc. unfold build_http_response, response_accepted.
  destruct (Z.ltb_spec code 100); [|destruct (Z.ltb_spec 599 code)]; cbn [orb].
  1-2: eexists _, _; split; [reflexivity|]; apply writes_refused; lia.
  destruct (builder_reject_unsafe_value reason) eqn:Hu.
  { eexists _, _. split; [reflexivity|]. apply writes_refused. by intros (_ & ? & _). }
  destruct (validate_headers_spec hs) as [Hv1 Hv2]. destruct (validate_builder_headers hs) as [[]|e] eqn:Hv.
  2: { eexists _, _. split; [reflexivity|]. apply writes_refused. intros (_ & _ & H'). by apply Hv1 in H'. }
  pose proof (proj1 Hv1 eq_refl) as Hs. set (pieces := _ ++ header_pieces hs ++ _).
  assert (http_text (response_head code reason) hs body = concat pieces) as ->.
  { subst pieces. rewrite concat_message. unfold http_text, response_head. cbn [concat]. rewrite app_nil_r, <- !app_assoc. done. }
  apply writes_append; [done|]. split_and!; try done; lia || tauto.
Qed.

Lemma decimal_text_code code : 100 <= code <= 599 ->
  length (decimal_text code) = 3%nat /\ digits (decimal_text code) /\ dec_val (decimal_text code) = code.
Proof.
  intros Hc. pose proof (range_forall (fun z => (z <? 100) || (Nat.eqb (length (decimal_text z)) 3 && forallb is_digit (decimal_text z)
    && (dec_val (decimal_text z) =? z))) 600 ltac:(vm_compute; reflexivity) code ltac:(lia)) as H.
  cbv beta in H. rewrite (proj2 (Z.ltb_ge _ _)) in H by lia. cbn [orb] in H. apply andb_true_iff in H as [[H1 H2]%andb_true_iff H3].
  split_and!; [by apply Nat.eqb_eq|by apply forallb_Forall|by apply Z.eqb_eq].
Qed.

Lemma received_block slots hs first : sendable first hs slots -> zlen hs <= kMaxHeaderCount -> Forall header_safe hs ->
  header_block slots (map header_text hs) (map received hs).
Proof.
  intros (_ & Hs & Hv) Hm Hh. unfold header_block. split_and!.
  - induction hs as [|h hs IH]; [constructor|]. inversion Hv as [|? ? [Hv1 _]]; inversion Hh; subst. constructor; [by apply header_text_line|].
    apply IH; try done; rewrite zlen_cons in *; pose proof (zlen_nonneg hs); lia.
  - apply list.Forall_forall. intros l (h & -> & Hin)%list_elem_of_fmap. rewrite list.Forall_forall in Hv. by apply Hv.
  - unfold zlen in *. rewrite length_map. lia.
Qed.

Lemma request_head_clean method target hs : request_accepted method target hs -> clean (request_head method target).
Proof.
  intros (Hm & _ & Ht & _). unfold request_head. rewrite !clean_app.
  split_and!; [by apply token_clean|by repeat constructor|by apply unsafe_token_clean|by repeat constructor|apply version_clean; by right].
Qed.

Lemma response_head_clean code reason hs : response_accepted code reason hs -> clean (response_head code reason).
Proof.
  intros (Hc & Hr & _). unfold response_head. rewrite !clean_app.
  split_and!; [apply version_clean; by right|by repeat constructor| |constructor; [done|by apply unsafe_value_clean]].
  destruct (decimal_text_code code Hc) as (_ & Hd & _). eapply list.Forall_impl; [exact Hd|]. intros x. by apply (byte_implies is_digit no_crlf_byte x).
Qed.

Lemma headers_clean hs : Forall header_safe hs -> Forall clean (map header_text hs).
Proof. intros H. apply list.Forall_forall. intros l (h & -> & Hin)%list_elem_of_fmap. apply header_text_clean. rewrite list.Forall_forall in H. by apply H. Qed.

(** Building and parsing.  For every input and buffer the builders stay inside their [cap]
    bytes; they succeed exactly when the input is acceptable and the message fits, and have
    then written it.  No input can smuggle a line into the message: its first line and its
    header lines, as many as there are headers, contain neither CR nor LF.  And when the
    message obeys the limits of the parser and announces its body correctly, the parser reads
    it back, followed by anything: same method and target or status and reason, same body,
    and the headers with the white space around their values trimmed. *)
Theorem http_build_parse out cap : 0 <= cap <= zlen out ->
  (forall method target hs body, exists r mem, build_http_request out cap method target hs body = Some (r, mem) /\
     writes out mem cap r (request_accepted method target hs) (http_text (request_head method target) hs body) /\
     forall n, r = Ok n -> Forall clean (request_head method target :: map header_text hs) /\
       forall slots rest, sendable (request_head method target) hs slots ->
         Forall (fun c => is_target_char c = true) target -> framed (map received hs) body ->
         parse_http_request (take (Z.to_nat n) mem ++ rest) slots =
           Some (Ok (Some (mkRequest method target 1 (map received hs) body, n)))) /\
  (forall code reason hs body, exists r mem, build_http_response out cap code reason hs body = Some (r, mem) /\
     writes out mem cap r (response_accepted code reason hs) (http_text (response_head code reason) hs body) /\
     forall n, r = Ok n -> Forall clean (response_head code reason :: map header_text hs) /\
       forall slots rest, sendable (response_head code reason) hs slots ->
         is_valid_field_value reason = true -> framed_response code (map received hs) body ->
         parse_http_response (take (Z.to_nat n) mem ++ rest) slots =
           Some (Ok (Some (mkResponse code reason 1 (map received hs) body, n)))).
Proof.
  intros Hc. split.
  - intros method target hs body. destruct (build_request_spec out cap method target hs body Hc) as (r & mem & -> & Hw).
    exists r, mem. split; [done|]. split; [done|]. intros n Hn. destruct Hw as (_ & _ & Hw).
    pose proof (proj1 (proj1 (Hw n)) Hn) as (Hacc & -> & _). rewrite (proj2 (Hw _) Hn).
    split; [constructor; [by eapply request_head_clean|apply headers_clean; apply Hacc]|].
    intros slots rest Hs Ht Hf. rewrite request_as_message.
    assert (request_bytes slots (map header_text hs) (mkRequest method target 1 (map received hs) body)
      (http_text (request_head method target) hs body)) as Hm%request_bytes_message.
    { destruct Hacc as (Hm & Hne & _ & Hcnt & Hsafe). split; cbn; try done; [by right|apply Hs|by eapply received_block]. }
    by rewrite (parse_message_complete _ _ parse_request_line_clean _ _ _ _ _ _ rest Hm).
  - intros code reason hs body. destruct (build_response_spec out cap code reason hs body Hc) as (r & mem & -> & Hw).
    exists r, mem. split; [done|]. split; [done|]. intros n Hn. destruct Hw as (_ & _ & Hw).
    pose proof (proj1 (proj1 (Hw n)) Hn) as (Hacc & -> & _). rewrite (proj2 (Hw _) Hn).
    split; [constructor; [by eapply response_head_clean|apply headers_clean; apply Hacc]|].
    intros slots rest Hs Hr Hf. rewrite response_as_message.
    assert (response_bytes slots (map header_text hs) (mkResponse code reason 1 (map received hs) body)
      (http_text (response_head code reason) hs body)) as Hm%response_bytes_message.
    { destruct Hacc as (Hcode & _ & Hcnt & Hsafe). destruct (decimal_text_code code Hcode) as (H3 & Hd & Hv).
      split; try done; [|by right|by eapply received_block]. exists (decimal_text code), (SP :: reason). cbv zeta.
      split_and!; try done; [apply Hs|by left]. }
    by rewrite (parse_message_complete _ _ parse_status_line_clean _ _ _ _ _ _ rest Hm).
Qed.

(** ** Examples *)

Definition demo_http_headers : list HttpHeader :=
  [mkHeader (text "Host") (text "eph.io"); mkHeader (text "Content-Length") (text " 2 ")].

Definition demo_request : list byte := http_text (request_head (text "POST") (text "/order")) demo_http_headers (text "hi").

Example demo_request_parses :
  parse_http_request (demo_request ++ text "GET") 8 =
    Some (Ok (Some (mkRequest (text "POST") (text "/order") 1 (map received demo_http_headers) (text "hi"), zlen demo_request))) /\
  parse_http_request (take 30 demo_request) 8 = Some (Ok None) /\
  parse_http_request (demo_request ++ text "GET") 1 = Some (Err CodecOverflow).
Proof. vm_compute. split_and!; reflexivity. Qed.

Lemma demo_framed : framed (map received demo_http_headers) (text "hi").
Proof.
  split; [by repeat constructor|]. split; [|right; right; left; by vm_compute].
  constructor; [intros H; by vm_compute in H|]. constructor; [|constructor]. intros _. split_and!; try done.
  constructor; [by vm_compute|constructor].
Qed.

Lemma http_parse_exact_witness :
  (exists r, parse_http_request demo_request 8 = Some r /\ forall req n, r = Ok (Some (req, n)) <->
     exists msg rest lines, demo_request = msg ++ rest /\ n = zlen msg /\ request_bytes 8 lines req msg) /\
  (exists r, parse_http_response demo_request 8 = Some r /\ forall resp n, r = Ok (Some (resp, n)) <->
     exists msg rest lines, demo_request = msg ++ rest /\ n = zlen msg /\ response_bytes 8 lines resp msg).
Proof. apply (http_parse_exact demo_request 8). lia. Defined.

Definition demo_parsed : HttpRequest := mkRequest (text "POST") (text "/order") 1 (map received demo_http_headers) (text "hi").

Lemma demo_request_bytes : request_bytes 8 (map header_text demo_http_headers) demo_parsed (take 30 demo_request ++ drop 30 demo_request).
Proof.
  rewrite take_drop. split; cbn [demo_parsed rq_method rq_target rq_version_minor rq_headers rq_body]; try done.
  - split; [done|]. by repeat constructor.
  - by right.
  - apply (received_block 8 demo_http_headers []); [|done|by repeat constructor].
    split_and!; [done|done|by repeat constructor].
  - apply demo_framed.
Qed.

Lemma http_incremental_witness :
  parse_http_request (take 30 demo_request ++ drop 30 demo_request ++ [x00]) 8 =
    Some (Ok (Some (demo_parsed, zlen (take 30 demo_request ++ drop 30 demo_request)))) /\
  (drop 30 demo_request <> [] -> parse_http_request (take 30 demo_request) 8 = Some (Ok None)).
Proof.
  assert (Forall (fun l => zlen l < kMaxHeaderLineLength) (map header_text demo_http_headers)) as Hl by (by repeat constructor).
  destruct (http_incremental 8 (map header_text demo_http_headers) (take 30 demo_request) (drop 30 demo_request) [x00] Hl) as [H _].
  exact (H demo_parsed demo_request_bytes).
Defined.

Lemma http_build_parse_witness : exists r mem,
  build_http_request (repeat x00 128) 100 (text "POST") (text "/order") demo_http_headers (text "hi") = Some (r, mem) /\
  r = Ok (zlen demo_request) /\
  parse_http_request (take (Z.to_nat (zlen demo_request)) mem ++ [x00]) 8 =
    Some (Ok (Some (mkRequest (text "POST") (text "/order") 1 (map received demo_http_headers) (text "hi"), zlen demo_request))).
Proof.
  destruct (http_build_parse (repeat x00 128) 100 ltac:(vm_compute; by split)) as [H _].
  destruct (H (text "POST") (text "/order") demo_http_headers (text "hi")) as (r & mem & E & Hw & Hp).
  assert (r = Ok (zlen demo_request)) as Hr.
  { assert (fst <$> build_http_request (repeat x00 128) 100 (text "POST") (text "/order") demo_http_headers (text "hi") =
      Some (Ok (zlen demo_request))) as E1 by (vm_compute; reflexivity). rewrite E in E1. change (fst <$> Some (r, mem)) with (Some r) in E1. congruence. }
  exists r, mem. split; [exact E|]. split; [exact Hr|]. destruct (Hp _ Hr) as [_ Hx]. apply Hx.
  - repeat split; vm_compute; try done. by repeat constructor.
  - by repeat constructor.
  - apply demo_framed.
Defined.

(** Bytes of 0x80 and above.  The comment on targets has only control characters and space
    rejected, and those on field values and reason phrases only printable ASCII and HTAB
    allowed; the code rejects the bytes in targets and accepts them in the other two. *)
Lemma http_high_bytes c : 0x80 <= b2z c -> is_target_char c = false /\ is_valid_field_value [c] = true.
Proof.
  intros H%Z.leb_le. split; [apply negb_true_iff, (byte_implies (fun c => 0x80 <=? b2z c) (fun c => negb (is_target_char c)))|
    apply (byte_implies (fun c => 0x80 <=? b2z c) (fun c => is_valid_field_value [c]))]; first [exact H|vm_compute; reflexivity].
Qed.

Example http_high_bytes_example :
  parse_http_request (http_text (request_head (text "GET") (text "/" ++ [z2b 0xe9])) [] []) 8 = Some (Err CodecBad) /\
  parse_http_response (http_text (response_head 200 [z2b 0xe9]) [mkHeader (text "Content-Length") (text "0")] []) 8 =
    Some (Ok (Some (mkResponse 200 [z2b 0xe9] 1 [mkHeader (text "Content-Length") (text "0")] [], 37))).
Proof. vm_compute. split; reflexivity. Qed.
