(* ===== verification/WsAccept.v ===== *)
(** * Base64, SHA-1 and the WebSocket accept key

    base64.hpp of eph-core, and [WsSha1], [ws_sha1] and [ws_compute_accept] of
    ws_handshake.hpp of eph-net.

    [base64_roundtrip]: the encoding is inverted by the decoder of RFC 4648.
    [sha1_reference]: the buffered, incremental hash equals SHA-1 of the padded message.
    [accept_vector]: the example of RFC 6455. *)

From Stdlib Require Import (notations) Strings.String.
From S2P Require Import Prelude Http.

#[local] Open Scope Z_scope.

(** ** base64.hpp *)

Definition kChars : list byte := text "ABCDEFGHIJKLMNOPQRSTUVWXYZabcdefghijklmnopqrstuvwxyz0123456789+/".

Definition b64_char (v : Z) : list byte := match kChars !! Z.to_nat v with Some c => [c] | None => [] end.

Definition pad_char : byte := x3d.

(** One round of the loop: [b] and [c] are the second and third byte, where there are any. *)
Definition b64_group (a : byte) (b c : option byte) : list byte :=
  let triple := Z.shiftl (b2z a) 16 in
  let triple := match b with Some b => Z.lor triple (Z.shiftl (b2z b) 8) | None => triple end in
  let triple := match c with Some c => Z.lor triple (b2z c) | None => triple end in
  b64_char (Z.land (Z.shiftr triple 18) 0x3F) ++ b64_char (Z.land (Z.shiftr triple 12) 0x3F) ++
  match b with Some _ => b64_char (Z.land (Z.shiftr triple 6) 0x3F) | None => [pad_char] end ++
  match c with Some _ => b64_char (Z.land triple 0x3F) | None => [pad_char] end.

Fixpoint base64_encode (data : list byte) : list byte :=
  match data with
  | [] => []
  | [a] => b64_group a None None
  | [a; b] => b64_group a (Some b) None
  | a :: b :: c :: rest => b64_group a (Some b) (Some c) ++ base64_encode rest
  end.

(** ** SHA-1 *)

Record WsSha1 := mkSha1 {
  sha_h : list Z;
  sha_length : Z;
  sha_buffer : list byte;
  sha_used : Z
}.

Definition rotl (x n : Z) : Z := Z.lor (u32 (Z.shiftl x n)) (Z.shiftr x (32 - n)).

(** [init()]; the buffer keeps what it held. *)
Definition sha_init (buffer : list byte) : WsSha1 :=
  mkSha1 [0x67452301; 0xEFCDAB89; 0x98BADCFE; 0x10325476; 0xC3D2E1F0] 0 buffer 0.

Definition load_word (block : list byte) (i : Z) : option Z :=
  a ← rd block (i * 4); b ← rd block (i * 4 + 1); c ← rd block (i * 4 + 2); d ← rd block (i * 4 + 3);
  Some (Z.lor (Z.lor (Z.lor (Z.shiftl (b2z a) 24) (Z.shiftl (b2z b) 16)) (Z.shiftl (b2z c) 8)) (b2z d)).

(** [w[i]] for the next [n] values of [i] from 16 on. *)
Fixpoint extend_words (n : nat) (w : list Z) : option (list Z) :=
  match n with
  | O => Some w
  | S n =>
    let i := length w in
    x3 ← w !! (i - 3)%nat; x8 ← w !! (i - 8)%nat; x14 ← w !! (i - 14)%nat; x16 ← w !! (i - 16)%nat;
    extend_words n (w ++ [rotl (Z.lxor (Z.lxor (Z.lxor x3 x8) x14) x16) 1])
  end.

Definition not32 (x : Z) : Z := Z.lxor x (2 ^ 32 - 1).

(** [f] and [k] of round [i]. *)
Definition round_f (i b c d : Z) : Z :=
  if i <? 20 then Z.lor (Z.land b c) (Z.land (not32 b) d)
  else if i <? 40 then Z.lxor (Z.lxor b c) d
  else if i <? 60 then Z.lor (Z.lor (Z.land b c) (Z.land b d)) (Z.land c d)
  else Z.lxor (Z.lxor b c) d.

Definition round_k (i : Z) : Z :=
  if i <? 20 then 0x5A827999 else if i <? 40 then 0x6ED9EBA1 else if i <? 60 then 0x8F1BBCDC else 0xCA62C1D6.

(** The rounds from [i] on, over the words left. *)
Fixpoint sha_rounds (i : Z) (ws : list Z) (a b c d e : Z) : Z * Z * Z * Z * Z :=
  match ws with
  | [] => (a, b, c, d, e)
  | w :: ws => sha_rounds (i + 1) ws (u32 (rotl a 5 + round_f i b c d + e + round_k i + w)) a (rotl b 30) c d
  end.

Definition process_block (h : list Z) (block : list byte) : option (list Z) :=
  w ← mapM (load_word block) (seqZ 0 16);
  w ← extend_words 64 w;
  h0 ← h !! 0%nat; h1 ← h !! 1%nat; h2 ← h !! 2%nat; h3 ← h !! 3%nat; h4 ← h !! 4%nat;
  let '(a, b, c, d, e) := sha_rounds 0 w h0 h1 h2 h3 h4 in
  Some [u32 (h0 + a); u32 (h1 + b); u32 (h2 + c); u32 (h3 + d); u32 (h4 + e)].

(** The loop of [update]: every round takes at least one byte. *)
Fixpoint update_loop (fuel : nat) (data : list byte) (s : WsSha1) : option WsSha1 :=
  match fuel with
  | O => None
  | S fuel =>
    if zlen data =? 0 then Some s else
    let take_ := Z.min (zlen data) (64 - sha_used s) in
    chunk ← slice data 0 take_;
    buffer ← wr (sha_buffer s) (sha_used s) chunk;
    let used := sha_used s + take_ in
    rest ← slice data take_ (zlen data - take_);
    if used =? 64 then
      h ← process_block (sha_h s) buffer;
      update_loop fuel rest (mkSha1 h (sha_length s) buffer 0)
    else update_loop fuel rest (mkSha1 (sha_h s) (sha_length s) buffer used)
  end.

Definition update (data : list byte) (s : WsSha1) : option WsSha1 :=
  update_loop (S (length data)) data
    (mkSha1 (sha_h s) (u64 (sha_length s + u64 (zlen data * 8))) (sha_buffer s) (sha_used s)).

(** [while (buffer_used != 56) update(&zero, 1)]: at most 64 rounds. *)
Fixpoint zero_fill (fuel : nat) (s : WsSha1) : option WsSha1 :=
  if sha_used s =? 56 then Some s else
  match fuel with
  | O => None
  | S fuel => s ← update [x00] s; zero_fill fuel s
  end.

Fixpoint feed_bytes (bs : list byte) (s : WsSha1) : option WsSha1 :=
  match bs with
  | [] => Some s
  | b :: bs => s ← update [b] s; feed_bytes bs s
  end.

Definition finalize (s : WsSha1) : option (list byte) :=
  let len_bits := sha_length s in
  s ← update [x80] s;
  s ← zero_fill 64 s;
  s ← feed_bytes (map (fun i => z2b (Z.land (Z.shiftr len_bits (i * 8)) 0xFF)) [7; 6; 5; 4; 3; 2; 1; 0]) s;
  Some (concat (map (fun h => map (fun k => z2b (Z.land (Z.shiftr h k) 0xFF)) [24; 16; 8; 0]) (sha_h s))).

Definition ws_sha1 (buffer input : list byte) : option (list byte) :=
  s ← update input (sha_init buffer); finalize s.

(** ** The accept key *)

Definition kWsMagicGuid : list byte := text "258EAFA5-E914-47DA-95CA-C5AB0DC85B11".

Definition kMaxKeyLen : Z := 156.

(** [buffer]: what the uninitialised block buffer of the hash holds. *)
Definition ws_compute_accept (buffer client_key : list byte) : option (list byte) :=
  let n1 := Z.min (zlen client_key) kMaxKeyLen in
  key ← slice client_key 0 n1;
  digest ← ws_sha1 buffer (key ++ kWsMagicGuid);
  Some (base64_encode digest).

Definition demo_key : list byte := text "dGhlIHNhbXBsZSBub25jZQ==".

(** RFC 6455, section 1.3, and RFC 3174, section 7.3. *)
Example accept_vector : ws_compute_accept (repeat x00 64) demo_key = Some (text "s3pPLMBiTxaQ9kYGzzhZRbK+xOo=").
Proof. vm_compute. reflexivity. Qed.

Example sha1_vector : ws_sha1 (repeat x00 64) (text "abc") =
  Some (be_bytes 20 0xA9993E364706816ABA3E25717850C26C9CD0D89D).
Proof. vm_compute. reflexivity. Qed.

(** ** The reference: RFC 3174 *)

Definition word32 (x : Z) : Prop := 0 <= x < 2 ^ 32.

(** S^n(X): the circular left shift. *)
Definition ROTL (n x : Z) : Z := x mod 2 ^ (32 - n) * 2 ^ n + x / 2 ^ (32 - n).

Definition NOT (x : Z) : Z := 2 ^ 32 - 1 - x.

Definition f_t (t b c d : Z) : Z :=
  if t <? 20 then Z.lor (Z.land b c) (Z.land (NOT b) d)
  else if (40 <=? t) && (t <? 60) then Z.lor (Z.lor (Z.land b c) (Z.land b d)) (Z.land c d)
  else Z.lxor (Z.lxor b c) d.

Definition K_t (t : Z) : Z :=
  if t <? 20 then 0x5A827999 else if t <? 40 then 0x6ED9EBA1 else if t <? 60 then 0x8F1BBCDC else 0xCA62C1D6.

Definition block_words (block : list byte) : list Z := map (fun i => be_val (take 4 (drop (4 * i) block))) (seq 0 16).

Definition W_next (w : list Z) : Z :=
  let t := length w in ROTL 1 (Z.lxor (Z.lxor (Z.lxor (nth (t - 3) w 0) (nth (t - 8) w 0)) (nth (t - 14) w 0)) (nth (t - 16) w 0)).

Definition schedule (block : list byte) : list Z := Nat.iter 64 (fun w => w ++ [W_next w]) (block_words block).

Definition round (s : Z * Z * Z * Z * Z) (tw : Z * Z) : Z * Z * Z * Z * Z :=
  let '(a, b, c, d, e) := s in let '(t, w) := tw in
  ((ROTL 5 a + f_t t b c d + e + w + K_t t) mod 2 ^ 32, a, ROTL 30 b, c, d).

Definition hash_words := (Z * Z * Z * Z * Z)%type.

Definition compress (h : hash_words) (block : list byte) : hash_words :=
  let '(h0, h1, h2, h3, h4) := h in
  let '(a, b, c, d, e) := foldl round h (zip (seqZ 0 80) (schedule block)) in
  ((h0 + a) mod 2 ^ 32, (h1 + b) mod 2 ^ 32, (h2 + c) mod 2 ^ 32, (h3 + d) mod 2 ^ 32, (h4 + e) mod 2 ^ 32).

Definition H0 : hash_words := (0x67452301, 0xEFCDAB89, 0x98BADCFE, 0x10325476, 0xC3D2E1F0).

(** A one bit, zeros up to 56 bytes modulo 64, and the length in bits. *)
Definition pad (msg : list byte) : list byte :=
  msg ++ [x80] ++ repeat x00 (Z.to_nat ((55 - zlen msg) mod 64)) ++ be_bytes 8 (8 * zlen msg).

Fixpoint blocks (n : nat) (l : list byte) : list (list byte) :=
  match n with O => [] | S n => take 64 l :: blocks n (drop 64 l) end.

Definition digest_bytes (h : hash_words) : list byte :=
  let '(a, b, c, d, e) := h in concat (map (be_bytes 4) [a; b; c; d; e]).

Definition SHA1 (msg : list byte) : list byte :=
  digest_bytes (foldl compress H0 (blocks (length (pad msg) / 64) (pad msg))).

(** ** The block function *)

Lemma rotl_ROTL x n : word32 x -> 0 < n < 32 -> rotl x n = ROTL n x.
Proof.
  intros Hx Hn. unfold rotl, ROTL, wrap. rewrite Z.shiftr_div_pow2 by lia.
  rewrite Z.shiftl_mul_pow2 by lia. replace 32 with (32 - n + n) at 1 by lia. rewrite Z.pow_add_r by lia.
  rewrite Zmult_mod_distr_r. rewrite <- Z.shiftl_mul_pow2 by lia. rewrite lor_shiftl_add; [by rewrite Z.shiftl_mul_pow2 by lia|lia|].
  split; [apply Z.div_pos; [apply Hx|lia]|]. apply Z.div_lt_upper_bound; [lia|]. rewrite <- Z.pow_add_r by lia.
  replace (32 - n + n) with 32 by lia. apply Hx.
Qed.

Lemma ROTL_word32 n x : word32 x -> 0 < n < 32 -> word32 (ROTL n x).
Proof.
  intros Hx Hn. unfold word32, ROTL in *. pose proof (Z.mod_pos_bound x (2 ^ (32 - n)) ltac:(lia)).
  assert (0 <= x / 2 ^ (32 - n) < 2 ^ n) as Hd.
  { split; [apply Z.div_pos; lia|]. apply Z.div_lt_upper_bound; [lia|]. rewrite <- Z.pow_add_r by lia. replace (32 - n + n) with 32 by lia. lia. }
  assert (2 ^ 32 = 2 ^ (32 - n) * 2 ^ n) as -> by (rewrite <- Z.pow_add_r by lia; f_equal; lia). nia.
Qed.

Lemma not32_NOT x : word32 x -> not32 x = NOT x.
Proof.
  intros Hx. unfold not32, NOT. apply Z.bits_inj'. intros k Hk. rewrite Z.lxor_spec.
  assert (2 ^ 32 - 1 - x = Z.ldiff (2 ^ 32 - 1) x) as ->.
  { rewrite Z.sub_nocarry_ldiff; [done|]. apply Z.bits_inj'. intros j Hj. rewrite Z.ldiff_spec, Z.bits_0.
    change (2 ^ 32 - 1) with (Z.ones 32). destruct (Z.ltb_spec j 32).
    - rewrite Z.ones_spec_low by lia. by rewrite andb_false_r.
    - rewrite (testbit_small x 32 j) by (lia || apply Hx). done. }
  rewrite Z.ldiff_spec. change (2 ^ 32 - 1) with (Z.ones 32). destruct (Z.ltb_spec k 32).
  - rewrite Z.ones_spec_low by lia. by destruct (Z.testbit x k).
  - rewrite Z.ones_spec_high by lia. by rewrite (testbit_small x 32 k) by (lia || apply Hx).
Qed.

Lemma lxor_word32 a b : word32 a -> word32 b -> word32 (Z.lxor a b).
Proof.
  intros Ha Hb. assert (Z.lxor a b mod 2 ^ 32 = Z.lxor a b) as <-; [|apply Z.mod_pos_bound; lia].
  rewrite <- Z.land_ones by lia. apply Z.bits_inj'. intros k Hk. rewrite Z.land_spec, !Z.lxor_spec. destruct (Z.ltb_spec k 32).
  - rewrite Z.ones_spec_low by lia. apply andb_true_r.
  - rewrite Z.ones_spec_high by lia. rewrite (testbit_small a 32 k), (testbit_small b 32 k) by (lia || apply Ha || apply Hb). done.
Qed.

Lemma load_word_spec block i : length block = 64%nat -> (i < 16)%nat ->
  load_word block (Z.of_nat i) = Some (be_val (take 4 (drop (4 * i) block))) /\ word32 (be_val (take 4 (drop (4 * i) block))).
Proof.
  intros Hl Hi. pose proof (length_drop block (4 * i)) as Hd.
  destruct (drop (4 * i) block) as [|a [|b [|c [|d t]]]] eqn:E; try (cbn in Hd; lia).
  assert (forall k x, (a :: b :: c :: d :: t) !! k = Some x -> rd block (Z.of_nat i * 4 + Z.of_nat k) = Some x) as Hrd.
  { intros k x Hk. rewrite <- E, lookup_drop in Hk. replace (Z.of_nat i * 4 + Z.of_nat k) with (Z.of_nat (4 * i + k)) by lia. by rewrite rd_lookup. }
  unfold load_word. replace (Z.of_nat i * 4) with (Z.of_nat i * 4 + Z.of_nat 0) at 1 by lia.
  rewrite (Hrd 0%nat a eq_refl), (Hrd 1%nat b eq_refl : rd block (Z.of_nat i * 4 + 1) = Some b),
    (Hrd 2%nat c eq_refl : rd block (Z.of_nat i * 4 + 2) = Some c), (Hrd 3%nat d eq_refl : rd block (Z.of_nat i * 4 + 3) = Some d). cbn [mbind option_bind take].
  pose proof (b2z_range a). pose proof (b2z_range b). pose proof (b2z_range c). pose proof (b2z_range d).
  assert (be_val [a; b; c; d] = ((b2z a * 256 + b2z b) * 256 + b2z c) * 256 + b2z d) as Hbe by (change [a; b; c; d] with (((([] ++ [a]) ++ [b]) ++ [c]) ++ [d]);
    rewrite !be_val_snoc; change (be_val []) with 0; lia).
  rewrite ?take_0. split.
  - f_equal.
    rewrite Hbe, (Z.shiftl_mul_pow2 (b2z b)), (Z.shiftl_mul_pow2 (b2z c)) by lia.
    change (2 ^ 16) with 65536. change (2 ^ 8) with 256.
    rewrite (lor_shiftl_add (b2z a)) by (change (2 ^ 24) with 16777216; lia).
    replace (b2z a * 2 ^ 24 + b2z b * 65536) with (Z.shiftl (b2z a * 256 + b2z b) 16) by (rewrite Z.shiftl_mul_pow2 by lia; change (2 ^ 24) with 16777216; change (2 ^ 16) with 65536; lia).
    rewrite lor_shiftl_add by (change (2 ^ 16) with 65536; lia).
    replace ((b2z a * 256 + b2z b) * 2 ^ 16 + b2z c * 256) with (Z.shiftl ((b2z a * 256 + b2z b) * 256 + b2z c) 8) by (rewrite Z.shiftl_mul_pow2 by lia; change (2 ^ 16) with 65536; change (2 ^ 8) with 256; lia).
    rewrite lor_shiftl_add by (change (2 ^ 8) with 256; lia). change (2 ^ 8) with 256. lia.
  - rewrite Hbe. unfold word32. change (2 ^ 32) with 4294967296. lia.
Qed.

Lemma load_words block : length block = 64%nat ->
  mapM (load_word block) (seqZ 0 16) = Some (block_words block) /\ Forall word32 (block_words block).
Proof.
  intros Hl. assert (seqZ 0 16 = Z.of_nat <$> seq 0 16) as -> by reflexivity. split.
  - unfold block_words. apply mapM_Some. rewrite Forall2_fmap_l. apply Forall2_same_length_lookup_2; [by rewrite length_map|].
    intros k x y Hx Hy. rewrite list_lookup_fmap in Hy. rewrite Hx in Hy. injection Hy as <-.
    apply lookup_seq in Hx as [-> Hx]. apply load_word_spec; [done|lia].
  - apply list.Forall_forall. intros x (i & -> & Hi)%list_elem_of_fmap. apply elem_of_seq in Hi. apply load_word_spec; [done|lia].
Qed.

Lemma extend_words_spec n : forall w, (16 <= length w)%nat -> Forall word32 w ->
  extend_words n w = Some (Nat.iter n (fun w => w ++ [W_next w]) w) /\
  Forall word32 (Nat.iter n (fun w => w ++ [W_next w]) w) /\ length (Nat.iter n (fun w => w ++ [W_next w]) w) = (n + length w)%nat.
Proof.
  induction n as [|n IH]; intros w Hl Hw; [done|]. cbn [extend_words].
  assert (forall k, (0 < k <= 16)%nat -> w !! (length w - k)%nat = Some (nth (length w - k) w 0) /\ word32 (nth (length w - k) w 0)) as Hk.
  { intros k Hk. destruct (lookup_lt_is_Some_2 w (length w - k)) as [x Hx]; [lia|]. rewrite Hx.
    rewrite (nth_lookup_Some _ _ _ _ Hx). split; [done|]. eapply list.Forall_forall; [exact Hw|]. by eapply list_elem_of_lookup_2. }
  destruct (Hk 3%nat) as [-> H3]; [lia|]. destruct (Hk 8%nat) as [-> H8]; [lia|].
  destruct (Hk 14%nat) as [-> H14]; [lia|]. destruct (Hk 16%nat) as [-> H16]; [lia|]. cbn [mbind option_bind].
  assert (word32 (Z.lxor (Z.lxor (Z.lxor (nth (length w - 3) w 0) (nth (length w - 8) w 0)) (nth (length w - 14) w 0)) (nth (length w - 16) w 0))) as Hx
    by (by repeat apply lxor_word32).
  rewrite rotl_ROTL by (done || lia). fold (W_next w). rewrite Nat.iter_succ_r.
  destruct (IH (w ++ [W_next w])) as (E & Hf & Hlen).
  - rewrite length_app. lia.
  - apply list.Forall_app. split; [done|]. constructor; [|constructor]. apply ROTL_word32; [done|lia].
  - unfold W_next in E at 1. cbv zeta in E. split_and!; [exact E|exact Hf|]. rewrite Hlen, length_app. cbn. lia.
Qed.

Lemma schedule_spec block : length block = 64%nat ->
  extend_words 64 (block_words block) = Some (schedule block) /\ zlen (schedule block) = 80.
Proof.
  intros Hl. destruct (load_words block Hl) as [_ Hw]. assert (length (block_words block) = 16%nat) as H16 by (unfold block_words; by rewrite length_map).
  destruct (extend_words_spec 64 (block_words block) ltac:(lia) Hw) as (E & _ & Hlen). unfold schedule. split; [exact E|].
  unfold zlen. rewrite Hlen, H16. done.
Qed.

Lemma round_f_eq t b c d : word32 b -> round_f t b c d = f_t t b c d.
Proof.
  intros Hb. unfold round_f, f_t. destruct (Z.ltb_spec t 20); [by rewrite not32_NOT|].
  destruct (Z.ltb_spec t 40), (Z.leb_spec 40 t), (Z.ltb_spec t 60); cbn [andb]; done || lia.
Qed.

Lemma sha_rounds_spec ws : forall t a b c d e, word32 a -> word32 b ->
  sha_rounds t ws a b c d e = foldl round (a, b, c, d, e) (zip (seqZ t (zlen ws)) ws).
Proof.
  induction ws as [|w ws IH]; intros t a b c d e Ha Hb; [done|]. cbn [sha_rounds]. rewrite zlen_cons.
  rewrite seqZ_cons by (pose proof (zlen_nonneg ws); lia). cbn [zip foldl round].
  replace (Z.pred (zlen ws + 1)) with (zlen ws) by lia. rewrite IH; [|apply wrap_range; lia|done].
  replace (Z.succ t) with (t + 1) by lia. rewrite !rotl_ROTL by (done || lia). rewrite round_f_eq by done.
  do 6 f_equal. unfold wrap. f_equal. change (K_t t) with (round_k t). lia.
Qed.

Definition to_list (h : hash_words) : list Z := let '(a, b, c, d, e) := h in [a; b; c; d; e].

Lemma process_block_spec h block : length block = 64%nat -> Forall word32 (to_list h) ->
  process_block (to_list h) block = Some (to_list (compress h block)) /\ Forall word32 (to_list (compress h block)).
Proof.
  intros Hl Hh. destruct h as [[[[h0 h1] h2] h3] h4]. unfold process_block. destruct (load_words block Hl) as [-> Hw].
  destruct (schedule_spec block Hl) as [E80 Hlen]. set (w := schedule block) in *.
  cbn [mbind option_bind]. rewrite E80. cbn [mbind option_bind to_list].
  inversion Hh as [|? ? H0 Hh1]; subst. inversion Hh1 as [|? ? H1 _]; subst.
  change ([h0; h1; h2; h3; h4] !! 0%nat) with (Some h0). change ([h0; h1; h2; h3; h4] !! 1%nat) with (Some h1).
  change ([h0; h1; h2; h3; h4] !! 2%nat) with (Some h2). change ([h0; h1; h2; h3; h4] !! 3%nat) with (Some h3).
  change ([h0; h1; h2; h3; h4] !! 4%nat) with (Some h4). cbn [mbind option_bind]. rewrite sha_rounds_spec by done.
  rewrite Hlen. unfold compress. fold w. destruct (foldl round _ _) as [[[[a b] c] d] e]. split; [done|].
  repeat (constructor; [apply Z.mod_pos_bound; lia|]). constructor.
Qed.

(** ** The incremental interface *)

(** [s] has absorbed the message [m]: its full blocks are in the hash, the rest in the buffer. *)
Definition absorbed (s : WsSha1) (m : list byte) : Prop := exists bs tail,
  m = concat bs ++ tail /\ Forall (fun b => length b = 64%nat) bs /\ zlen tail < 64 /\ sha_used s = zlen tail /\
  sha_h s = to_list (foldl compress H0 bs) /\ Forall word32 (to_list (foldl compress H0 bs)) /\
  zlen (sha_buffer s) = 64 /\ take (length tail) (sha_buffer s) = tail.

Lemma absorbed_init buffer : zlen buffer = 64 -> absorbed (sha_init buffer) [].
Proof.
  intros Hb. exists [], []. split_and!; try done. repeat (constructor; [unfold word32; cbn; lia|]). constructor.
Qed.

Lemma blocks_zlen (bs : list (list byte)) : Forall (fun b => length b = 64%nat) bs -> zlen (concat bs) = 64 * zlen bs.
Proof. induction 1 as [|b bs Hb _ IH]; [done|]. cbn [concat]. rewrite zlen_app, zlen_cons, IH. unfold zlen. lia. Qed.

Lemma absorbed_used s m : absorbed s m -> sha_used s = zlen m mod 64.
Proof.
  intros (bs & tail & -> & Hbs & Ht & -> & _). rewrite zlen_app, blocks_zlen by done. pose proof (zlen_nonneg tail).
  rewrite Z.add_comm, Z.mul_comm, Z.mod_add by lia. by rewrite Z.mod_small by lia.
Qed.

Lemma update_loop_spec fuel : forall data s m, (length data < fuel)%nat -> absorbed s m ->
  exists s', update_loop fuel data s = Some s' /\ absorbed s' (m ++ data) /\ sha_length s' = sha_length s.
Proof.
  induction fuel as [|fuel IH]; intros data s m Hf Ha; [lia|]. cbn [update_loop]. destruct (Z.eqb_spec (zlen data) 0) as [Hz|Hz].
  { exists s. split; [done|]. rewrite (zlen_nil_inv data) by lia. by rewrite app_nil_r. }
  destruct Ha as (bs & tail & -> & Hbs & Ht & Hu & Hh & Hw & Hb & Hbuf). pose proof (zlen_nonneg data). pose proof (zlen_nonneg tail).
  rewrite Hu. set (t := Z.min _ _). assert (1 <= t <= zlen data /\ zlen tail + t <= 64) as [Ht1 Ht2] by (subst t; lia).
  assert (zlen tail + t < 64 -> t = zlen data) as Ht3 by (subst t; lia). clearbody t.
  rewrite !slice_Some by lia. rewrite drop_0. set (chunk := take (Z.to_nat t) data). cbn [mbind option_bind].
  assert (zlen chunk = t) as Hc by (subst chunk; rewrite zlen_take; lia).
  assert (take (Z.to_nat (zlen data - t)) (drop (Z.to_nat t) data) = drop (Z.to_nat t) data) as ->
    by (apply take_ge; rewrite length_drop; unfold zlen in *; lia).
  assert (wr (sha_buffer s) (zlen tail) chunk = Some (tail ++ chunk ++ drop (length tail + length chunk) (sha_buffer s))) as ->.
  { rewrite <- (take_drop (length tail) (sha_buffer s)) at 1. rewrite Hbuf, wr_app; [by rewrite drop_drop|done|].
    rewrite zlen_drop, Hb. unfold zlen in *. lia. }
  cbn [mbind option_bind]. assert (data = chunk ++ drop (Z.to_nat t) data) as Ed by (subst chunk; by rewrite take_drop).
  assert (length (drop (Z.to_nat t) data) < fuel)%nat as Hf' by (rewrite length_drop; unfold zlen in *; lia).
  destruct (Z.eqb_spec (zlen tail + t) 64) as [H64|H64].
  - rewrite (drop_ge (sha_buffer s)), app_nil_r by (unfold zlen in *; lia). assert (length (tail ++ chunk) = 64%nat) as Hblk by (rewrite length_app; unfold zlen in *; lia).
    rewrite Hh. destruct (process_block_spec _ (tail ++ chunk) Hblk Hw) as [-> Hw']. cbn [mbind option_bind].
    destruct (IH (drop (Z.to_nat t) data) (mkSha1 (to_list (compress (foldl compress H0 bs) (tail ++ chunk))) (sha_length s) (tail ++ chunk) 0)
      (concat (bs ++ [tail ++ chunk])) Hf') as (s' & -> & Ha' & Hl').
    { exists (bs ++ [tail ++ chunk]), []. rewrite foldl_app. split_and!; try done.
      - by rewrite app_nil_r.
      - apply list.Forall_app. split; [done|]. by repeat constructor.
      - unfold zlen. cbn [sha_buffer]. rewrite Hblk. done. }
    exists s'. split_and!; [done| |done]. rewrite concat_app in Ha'. cbn [concat] in Ha'. rewrite app_nil_r, <- !app_assoc, <- Ed in Ha'.
    by rewrite <- app_assoc.
  - assert (t = zlen data) as Et by (apply Ht3; lia). assert (chunk = data) as Ecd by (subst chunk; apply take_ge; unfold zlen in *; lia).
    destruct (IH (drop (Z.to_nat t) data) (mkSha1 (sha_h s) (sha_length s) (tail ++ chunk ++ drop (length tail + length chunk) (sha_buffer s))
      (zlen tail + t)) (concat bs ++ tail ++ chunk) Hf') as (s' & -> & Ha' & Hl').
    { exists bs, (tail ++ chunk). cbn [sha_used sha_h sha_buffer]. split_and!; try done.
      - rewrite zlen_app. lia.
      - by rewrite zlen_app, Hc.
      - rewrite !zlen_app, zlen_drop. unfold zlen in *. lia.
      - rewrite app_assoc. by apply take_app_length. }
    exists s'. split_and!; [done| |done]. rewrite <- !app_assoc, <- Ed in Ha'. by rewrite <- app_assoc.
Qed.

Lemma update_spec data s m : absorbed s m ->
  exists s', update data s = Some s' /\ absorbed s' (m ++ data) /\ sha_length s' = u64 (sha_length s + u64 (zlen data * 8)).
Proof.
  intros Ha. unfold update. apply update_loop_spec; [lia|]. destruct Ha as (bs & tail & Ha). by exists bs, tail.
Qed.

Lemma zero_fill_spec fuel : forall s m, absorbed s m -> (56 - zlen m) mod 64 <= Z.of_nat fuel ->
  exists s', zero_fill fuel s = Some s' /\ absorbed s' (m ++ repeat x00 (Z.to_nat ((56 - zlen m) mod 64))).
Proof.
  induction fuel as [|fuel IH]; intros s m Ha Hf; cbn [zero_fill]; rewrite (absorbed_used s m Ha);
    pose proof (Z.mod_pos_bound (56 - zlen m) 64 ltac:(lia)) as Hm; destruct (Z.eqb_spec (zlen m mod 64) 56) as [E|E].
  1, 3: assert ((56 - zlen m) mod 64 = 0) as E0 by (rewrite Zminus_mod, E; done); exists s; rewrite E0; cbn [Z.to_nat repeat]; by rewrite app_nil_r.
  - exfalso. apply E. assert ((56 - zlen m) mod 64 = 0) as E0 by lia. pose proof (Z.div_mod (56 - zlen m) 64). pose proof (Z.div_mod (zlen m) 64).
    pose proof (Z.mod_pos_bound (zlen m) 64). lia.
  - destruct (update_spec [x00] s m Ha) as (s1 & -> & Ha1 & _). cbn [mbind option_bind].
    assert ((56 - zlen (m ++ [x00])) mod 64 = (56 - zlen m) mod 64 - 1) as Hk.
    { rewrite zlen_app. change (zlen [x00]) with 1. pose proof (Z.div_mod (56 - zlen m) 64). pose proof (Z.div_mod (zlen m) 64).
      pose proof (Z.mod_pos_bound (zlen m) 64). assert ((56 - zlen m) mod 64 <> 0) by lia.
      symmetry. apply (Z.mod_unique _ _ ((56 - zlen m) / 64)); lia. }
    destruct (IH s1 (m ++ [x00]) Ha1) as (s' & -> & Ha'); [rewrite Hk; lia|]. exists s'. split; [done|].
    rewrite Hk in Ha'. rewrite <- app_assoc in Ha'. cbn [app] in Ha'.
    assert (Z.to_nat ((56 - zlen m) mod 64) = S (Z.to_nat ((56 - zlen m) mod 64 - 1))) as ->; [|done].
    assert ((56 - zlen (m ++ [x00])) mod 64 >= 0) by (pose proof (Z.mod_pos_bound (56 - zlen (m ++ [x00])) 64); lia). lia.
Qed.

Lemma feed_bytes_spec bs : forall s m, absorbed s m -> exists s', feed_bytes bs s = Some s' /\ absorbed s' (m ++ bs).
Proof.
  induction bs as [|b bs IH]; intros s m Ha; cbn [feed_bytes]; [exists s; by rewrite app_nil_r|].
  destruct (update_spec [b] s m Ha) as (s1 & -> & Ha1 & _). cbn [mbind option_bind].
  destruct (IH s1 (m ++ [b]) Ha1) as (s' & -> & Ha'). exists s'. split; [done|]. by rewrite <- app_assoc in Ha'.
Qed.

Lemma blocks_concat bs : Forall (fun b => length b = 64%nat) bs -> blocks (length bs) (concat bs) = bs.
Proof.
  induction 1 as [|b bs Hb _ IH]; [done|]. cbn [length blocks concat]. rewrite take_app_length' by done. rewrite drop_app_length' by done. by rewrite IH.
Qed.

Lemma length_bits_be n : map (fun i => z2b (Z.land (Z.shiftr n (i * 8)) 0xFF)) [7; 6; 5; 4; 3; 2; 1; 0] = be_bytes 8 n.
Proof. cbn [map be_bytes]. rewrite !z2b_land. reflexivity. Qed.

Lemma digest_be hs : concat (map (fun h => map (fun k => z2b (Z.land (Z.shiftr h k) 0xFF)) [24; 16; 8; 0]) hs) = concat (map (be_bytes 4) hs).
Proof. f_equal. apply map_ext. intros h. cbn [map be_bytes]. rewrite !z2b_land. reflexivity. Qed.

(** The hash computed block by block in a buffer, padding fed through [update], is SHA-1 of
    the message (up to the 2^61 bytes its length field can count). *)
Lemma sha1_reference buffer msg : zlen buffer = 64 -> 8 * zlen msg < 2 ^ 64 ->
  ws_sha1 buffer msg = Some (SHA1 msg) /\ length (SHA1 msg) = 20%nat.
Proof.
  intros Hb Hl. unfold ws_sha1, finalize. pose proof (zlen_nonneg msg).
  destruct (update_spec msg _ _ (absorbed_init buffer Hb)) as (s1 & -> & Ha1 & Hlen). cbn [mbind option_bind app] in *.
  assert (sha_length s1 = 8 * zlen msg) as -> by
    (rewrite Hlen; cbn [sha_init sha_length]; rewrite Z.add_0_l, (wrap_small 64 (zlen msg * 8)), wrap_small by lia; lia).
  destruct (update_spec [x80] s1 msg Ha1) as (s2 & -> & Ha2 & _). cbn [mbind option_bind].
  destruct (zero_fill_spec 64 s2 _ Ha2) as (s3 & -> & Ha3); [pose proof (Z.mod_pos_bound (56 - zlen (msg ++ [x80])) 64 ltac:(lia)); lia|].
  cbn [mbind option_bind]. rewrite length_bits_be.
  destruct (feed_bytes_spec (be_bytes 8 (8 * zlen msg)) s3 _ Ha3) as (s4 & -> & Ha4). cbn [mbind option_bind]. rewrite digest_be.
  assert (absorbed s4 (pad msg)) as Ha.
  { unfold pad. rewrite <- !app_assoc in Ha4. rewrite zlen_app in Ha4. change (zlen [x80]) with 1 in Ha4.
    by replace (56 - (zlen msg + 1)) with (55 - zlen msg) in Ha4 by lia. }
  pose proof (absorbed_used s4 _ Ha) as Hu. destruct Ha as (bs & tail & Ep & Hbs & Ht & Hu' & Hh & _).
  assert (tail = []) as ->.
  { apply zlen_nil_inv. assert (zlen (pad msg) mod 64 = 0) as E0; [|lia]. unfold pad. rewrite !zlen_app, zlen_be_bytes. change (zlen [x80]) with 1.
    pose proof (Z.mod_pos_bound (55 - zlen msg) 64 ltac:(lia)) as Hm.
    assert (zlen (repeat x00 (Z.to_nat ((55 - zlen msg) mod 64))) = (55 - zlen msg) mod 64) as -> by (unfold zlen at 1; rewrite repeat_length; lia).
    pose proof (Z.div_mod (55 - zlen msg) 64). symmetry. apply (Z.mod_unique _ _ (1 - (55 - zlen msg) / 64)); lia. }
  rewrite app_nil_r in Ep. unfold SHA1. rewrite Ep. pose proof (blocks_zlen bs Hbs) as Hz.
  assert (length (concat bs) / 64 = length bs)%nat as -> by (unfold zlen in Hz; replace (length (concat bs)) with (length bs * 64)%nat by lia; by apply Nat.div_mul).
  rewrite blocks_concat by done. rewrite Hh. by destruct (foldl compress H0 bs) as [[[[a b] c] d] e].
Qed.

(** ** Base64 *)

(** RFC 4648, section 4: the value of a character of the alphabet. *)
Definition b64_value (c : byte) : option Z :=
  let v := b2z c in
  if in_range 65 90 c then Some (v - 65) else if in_range 97 122 c then Some (v - 71) else if in_range 48 57 c then Some (v + 4)
  else if v =? 43 then Some 62 else if v =? 47 then Some 63 else None.

Fixpoint base64_decode (s : list byte) : option (list byte) :=
  match s with
  | [] => Some []
  | c1 :: c2 :: c3 :: c4 :: rest =>
    v1 ← b64_value c1; v2 ← b64_value c2;
    if bool_decide (c3 = pad_char) then
      if bool_decide (c4 = pad_char /\ rest = []) then Some [z2b ((v1 * 64 + v2) / 16)] else None
    else
      v3 ← b64_value c3;
      if bool_decide (c4 = pad_char) then
        if bool_decide (rest = []) then Some [z2b ((v1 * 64 + v2) / 16); z2b ((v2 * 64 + v3) / 4)] else None
      else
        v4 ← b64_value c4;
        bytes ← base64_decode rest;
        Some (z2b ((v1 * 64 + v2) / 16) :: z2b ((v2 * 64 + v3) / 4) :: z2b (v3 * 64 + v4) :: bytes)
  | _ => None
  end.

Definition b64_check (v : Z) : bool :=
  match b64_char v with
  | [c] => match b64_value c with Some w => (w =? v) && negb (beq c pad_char) && is_target_char c | None => false end
  | _ => false
  end.

Lemma b64_char_spec v : 0 <= v < 64 -> exists c, b64_char v = [c] /\ b64_value c = Some v /\ c <> pad_char /\ is_target_char c = true.
Proof.
  intros Hv. pose proof (range_forall b64_check 64 ltac:(vm_compute; reflexivity) v ltac:(lia)) as H. unfold b64_check in H.
  destruct (b64_char v) as [|c [|]]; try done. destruct (b64_value c) as [w|] eqn:Ew; [|done].
  apply andb_true_iff in H as [[->%Z.eqb_eq H2%negb_true_iff]%andb_true_iff H3]. exists c. split_and!; try done. by apply beq_false.
Qed.

Lemma sextet n k : 0 <= k -> Z.land (Z.shiftr n k) 0x3F = n / 2 ^ k mod 64.
Proof. intros Hk. change 0x3F with (2 ^ 6 - 1). rewrite land_mask by lia. by rewrite Z.shiftr_div_pow2 by lia. Qed.

Lemma sextet0 n : Z.land n 0x3F = n mod 64.
Proof. change 0x3F with (2 ^ 6 - 1). by rewrite land_mask by lia. Qed.

Lemma z2b_low a n : 0 <= n -> n mod 256 = b2z a -> z2b n = a.
Proof. intros Hn E. by rewrite <- z2b_mod, E, z2b_b2z. Qed.

(** The three cases of a round: the characters, and what they decode to. *)
Lemma b64_group_spec a b c rest : exists c1 c2 c3 c4, b64_group a b c = [c1; c2; c3; c4] /\
  Forall (fun x => is_target_char x = true) [c1; c2; c3; c4] /\
  match b, c with
  | None, None => base64_decode (b64_group a b c) = Some [a]
  | Some b', None => base64_decode (b64_group a b c) = Some [a; b']
  | Some b', Some c' => forall bs, base64_decode rest = Some bs -> base64_decode (b64_group a b c ++ rest) = Some (a :: b' :: c' :: bs)
  | None, Some _ => True
  end.
Proof.
  pose proof (b2z_range a) as Ha. assert (0 <= match b with Some b => b2z b | None => 0 end < 256) as Hb by (destruct b; [apply b2z_range|lia]).
  assert (0 <= match c with Some c => b2z c | None => 0 end < 256) as Hc by (destruct c; [apply b2z_range|lia]).
  set (n := b2z a * 65536 + match b with Some b => b2z b | None => 0 end * 256 + match c with Some c => b2z c | None => 0 end).
  assert (b64_group a b c = b64_char (n / 2 ^ 18 mod 64) ++ b64_char (n / 2 ^ 12 mod 64) ++
    match b with Some _ => b64_char (n / 2 ^ 6 mod 64) | None => [pad_char] end ++
    match c with Some _ => b64_char (n mod 64) | None => [pad_char] end) as ->.
  { unfold b64_group. cbv zeta.
    assert ((match c with Some c => Z.lor (match b with Some b => Z.lor (Z.shiftl (b2z a) 16) (Z.shiftl (b2z b) 8) | None => Z.shiftl (b2z a) 16 end) (b2z c)
      | None => match b with Some b => Z.lor (Z.shiftl (b2z a) 16) (Z.shiftl (b2z b) 8) | None => Z.shiftl (b2z a) 16 end end) = n) as ->;
      [|by rewrite !sextet, sextet0 by lia].
    assert (match b with Some b => Z.lor (Z.shiftl (b2z a) 16) (Z.shiftl (b2z b) 8) | None => Z.shiftl (b2z a) 16 end =
      Z.shiftl (b2z a * 256 + match b with Some b => b2z b | None => 0 end) 8) as ->.
    { rewrite (Z.shiftl_mul_pow2 _ 8) by lia. change (2 ^ 8) with 256. destruct b as [b|].
      - rewrite lor_shiftl_add by (rewrite ?Z.shiftl_mul_pow2 by lia; change (2 ^ 16) with 65536; change (2 ^ 8) with 256; lia).
        rewrite Z.shiftl_mul_pow2 by lia. change (2 ^ 16) with 65536. change (2 ^ 8) with 256. lia.
      - rewrite Z.shiftl_mul_pow2 by lia. change (2 ^ 16) with 65536. lia. }
    subst n. destruct c as [c|]; [rewrite lor_shiftl_add by (change (2 ^ 8) with 256; lia)|rewrite Z.shiftl_mul_pow2 by lia];
      change (2 ^ 8) with 256; lia. }
  pose proof (Z.mod_pos_bound (n / 2 ^ 18) 64 ltac:(lia)) as H1. pose proof (Z.mod_pos_bound (n / 2 ^ 12) 64 ltac:(lia)) as H2.
  pose proof (Z.mod_pos_bound (n / 2 ^ 6) 64 ltac:(lia)) as H3. pose proof (Z.mod_pos_bound n 64 ltac:(lia)) as H4.
  change (2 ^ 18) with 262144 in *. change (2 ^ 12) with 4096 in *. change (2 ^ 6) with 64 in *.
  destruct (b64_char_spec _ H1) as (c1 & -> & V1 & N1 & P1). destruct (b64_char_spec _ H2) as (c2 & -> & V2 & N2 & P2).
  destruct (b64_char_spec _ H3) as (c3 & E3 & V3 & N3 & P3). destruct (b64_char_spec _ H4) as (c4 & E4 & V4 & N4 & P4).
  exists c1, c2, (match b with Some _ => c3 | None => pad_char end), (match c with Some _ => c4 | None => pad_char end).
  split; [rewrite E3, E4; by destruct b, c|]. split; [destruct b, c; by repeat constructor|].
  subst n. destruct b as [b|], c as [c|]; try done; rewrite ?E3, ?E4.
  - intros bs Hbs. cbn [app base64_decode]. rewrite V1, V2. cbn [mbind option_bind]. rewrite bool_decide_eq_false_2, V3 by done.
    cbn [mbind option_bind]. rewrite bool_decide_eq_false_2, V4 by done. cbn [mbind option_bind]. rewrite Hbs. cbn [mbind option_bind].
    do 2 f_equal; [|f_equal; [|f_equal]]; apply z2b_low; Z.div_mod_to_equations; lia.
  - cbn [app base64_decode]. rewrite V1, V2. cbn [mbind option_bind]. rewrite bool_decide_eq_false_2, V3 by done.
    cbn [mbind option_bind]. rewrite !bool_decide_eq_true_2 by done.
    do 2 f_equal; [|f_equal]; apply z2b_low; Z.div_mod_to_equations; lia.
  - cbn [app base64_decode]. rewrite V1, V2. cbn [mbind option_bind]. rewrite !bool_decide_eq_true_2 by done.
    do 2 f_equal; apply z2b_low; Z.div_mod_to_equations; lia.
Qed.

(** The encoding has four printable characters for every three bytes, and the decoder of
    RFC 4648 gives the bytes back. *)
Lemma base64_roundtrip data : base64_decode (base64_encode data) = Some data /\
  zlen (base64_encode data) = 4 * ((zlen data + 2) / 3) /\ Forall (fun c => is_target_char c = true) (base64_encode data).
Proof.
  induction data as [data IH] using (induction_ltof1 _ (@length byte)). unfold ltof in IH.
  destruct data as [|a [|b [|c data]]]; cbn [base64_encode].
  - by split_and!; [..|constructor].
  - destruct (b64_group_spec a None None []) as (c1 & c2 & c3 & c4 & E & Hp & Hd). split_and!; [done|by rewrite E|by rewrite E].
  - destruct (b64_group_spec a (Some b) None []) as (c1 & c2 & c3 & c4 & E & Hp & Hd). split_and!; [done|by rewrite E|by rewrite E].
  - destruct (IH data) as (H1 & H2 & H3); [cbn; lia|].
    destruct (b64_group_spec a (Some b) (Some c) (base64_encode data)) as (c1 & c2 & c3 & c4 & E & Hp & Hd). split_and!.
    + by apply Hd.
    + rewrite zlen_app, E, H2, !zlen_cons. change (zlen (@nil byte)) with 0.
      replace (zlen data + 1 + 1 + 1 + 2) with (zlen data + 2 + 1 * 3) by lia. rewrite Z.div_add by lia. lia.
    + rewrite E. apply list.Forall_app. by split.
Qed.

(** What the server has to answer. *)
Definition accept_key (client_key : list byte) : list byte := base64_encode (SHA1 (take 156 client_key ++ kWsMagicGuid)).

Lemma compute_accept buffer key : zlen buffer = 64 ->
  ws_compute_accept buffer key = Some (accept_key key) /\ length (SHA1 (take 156 key ++ kWsMagicGuid)) = 20%nat.
Proof.
  intros Hb. unfold ws_compute_accept, kMaxKeyLen, accept_key. pose proof (zlen_nonneg key). rewrite slice_Some by lia. rewrite drop_0. cbn [mbind option_bind].
  assert (take (Z.to_nat (Z.min (zlen key) 156)) key = take 156 key) as ->.
  { destruct (Z.min_spec (zlen key) 156) as [[Hm ->]|[Hm ->]]; [|done]. rewrite !take_ge by (unfold zlen in *; lia). done. }
  destruct (sha1_reference buffer (take 156 key ++ kWsMagicGuid) Hb) as [-> H20]; [|done].
  rewrite zlen_app, zlen_take. change (zlen kWsMagicGuid) with 36. lia.
Qed.

(** C39: The accept key.  For every client key (its first 156 bytes) [ws_compute_accept] returns
    28 printable characters which the decoder of RFC 4648 reads as the 20 bytes of the SHA-1
    hash, in the formulation of RFC 3174, of the key followed by the GUID of RFC 6455 --
    whatever the block buffer of the incremental implementation held before. *)
Theorem ws_accept_reference buffer client_key : zlen buffer = 64 ->
  exists accept, ws_compute_accept buffer client_key = Some accept /\
    base64_decode accept = Some (SHA1 (take 156 client_key ++ kWsMagicGuid)) /\
    accept = base64_encode (SHA1 (take 156 client_key ++ kWsMagicGuid)) /\
    length (SHA1 (take 156 client_key ++ kWsMagicGuid)) = 20%nat /\
    zlen accept = 28 /\ Forall (fun c => is_target_char c = true) accept.
Proof.
  intros Hb. destruct (compute_accept buffer client_key Hb) as [-> H20]. unfold accept_key.
  destruct (base64_roundtrip (SHA1 (take 156 client_key ++ kWsMagicGuid))) as (Hr & Hl & Hp).
  eexists. split; [reflexivity|]. split_and!; try done. rewrite Hl. unfold zlen at 1. by rewrite H20.
Qed.

Lemma ws_accept_reference_witness : exists accept, ws_compute_accept (repeat x00 64) demo_key = Some accept /\
  base64_decode accept = Some (SHA1 (take 156 demo_key ++ kWsMagicGuid)) /\
  accept = base64_encode (SHA1 (take 156 demo_key ++ kWsMagicGuid)) /\
  length (SHA1 (take 156 demo_key ++ kWsMagicGuid)) = 20%nat /\
  zlen accept = 28 /\ Forall (fun c => is_target_char c = true) accept.
Proof. apply (ws_accept_reference (repeat x00 64) demo_key). reflexivity. Defined.
