(* ===== verification/WsHandshake.v ===== *)
(** * The WebSocket opening handshake

    The client side of ws_handshake.hpp of eph-net: negotiation of permessage-deflate, the
    resumable [WsHandshakeDriver] and the blocking [perform_ws_handshake].  The byte sink is a
    parameter: every step is given what its one [send] or [recv] returns. *)

From Stdlib Require Import (notations) Strings.String.
From S2P Require Import Prelude FixText Codecs Http WsAccept.

#[local] Open Scope Z_scope.

(** ** Headers *)

Fixpoint ws_find_header (headers : list HttpHeader) (name : list byte) : option (list byte) :=
  match headers with
  | [] => None
  | h :: t => if iequal (h_name h) name then Some (h_value h) else ws_find_header t name
  end.

Definition ch_comma : byte := x2c.
Definition ch_semicolon : byte := x3b.
Definition ch_quote : byte := x22.

Definition is_list_space (c : byte) : bool := is_ows c || beq c ch_comma.

Fixpoint skip_while (f : byte -> bool) (s : list byte) : list byte :=
  match s with
  | [] => []
  | c :: t => if f c then skip_while f t else s
  end.

(** Up to the next [c], and what follows it. *)
Definition cut_at (c : byte) (s : list byte) : list byte * option (list byte) :=
  match split_byte c s with
  | Some (a, b) => (a, Some b)
  | None => (s, None)
  end.

(** [value] from [pos] on; every round drops at least one byte or ends. *)
Fixpoint connection_loop (fuel : nat) (value : list byte) : option bool :=
  match fuel with
  | O => None
  | S fuel =>
    match value with
    | [] => Some false
    | _ =>
      let '(tok, rest) := cut_at ch_comma (skip_while is_list_space value) in
      let tok := trim_back_ows tok in
      if negb (bool_decide (tok = [])) && iequal tok (text "Upgrade") then Some true
      else match rest with None => Some false | Some rest => connection_loop fuel rest end
    end
  end.

Definition ws_connection_has_upgrade (value : list byte) : option bool := connection_loop (S (length value)) value.

(** ** permessage-deflate *)

Record WsHandshakeDeflate := mkDeflate {
  df_request : bool;
  df_negotiated : bool;
  df_server_no_context_takeover : bool
}.

Definition set_negotiated (b : bool) (s : WsHandshakeDeflate) : WsHandshakeDeflate :=
  mkDeflate (df_request s) b (df_server_no_context_takeover s).

(** The value of a parameter without the quotes around it. *)
Definition unquote (v : list byte) : list byte :=
  match v with
  | c :: t => if beq c ch_quote && bool_decide (list.last t = Some ch_quote) then removelast t else v
  | [] => []
  end.

(** One [;]-delimited parameter: [Some state] when it is understood, [None] when it is refused. *)
Definition deflate_param (param : list byte) (state : WsHandshakeDeflate) : option WsHandshakeDeflate :=
  let '(n, v) := cut_at ch_eq param in
  let pname := trim_ows n in
  let pvalue := unquote (match v with Some v => trim_ows v | None => [] end) in
  if iequal pname (text "server_no_context_takeover") then Some (mkDeflate (df_request state) (df_negotiated state) true)
  else if iequal pname (text "client_no_context_takeover") then Some state
  else if iequal pname (text "server_max_window_bits") || iequal pname (text "client_max_window_bits") then
    if bool_decide (pvalue = text "15") then Some state else None
  else None.

(** The parameters left; on a refusal [negotiated] is withdrawn. *)
Fixpoint deflate_params (fuel : nat) (rest : list byte) (state : WsHandshakeDeflate) : option (bool * WsHandshakeDeflate) :=
  match rest with
  | [] => Some (true, state)
  | _ =>
    match fuel with
    | O => None
    | S fuel =>
      let '(p, rest) := cut_at ch_semicolon rest in
      let rest := match rest with Some rest => rest | None => [] end in
      let param := trim_ows p in
      if bool_decide (param = []) then deflate_params fuel rest state else
      match deflate_param param state with
      | None => Some (false, set_negotiated false state)
      | Some state => deflate_params fuel rest state
      end
    end
  end.

Definition ws_parse_permessage_deflate_token (tok : list byte) (state : WsHandshakeDeflate)
    : option (bool * WsHandshakeDeflate) :=
  let tok := trim_ows tok in
  if bool_decide (tok = []) then Some (false, state) else
  let '(n, params) := cut_at ch_semicolon tok in
  if negb (iequal (trim_ows n) (text "permessage-deflate")) then Some (false, state) else
  let state := set_negotiated true state in
  match params with
  | None => Some (true, state)
  | Some rest => deflate_params (length rest) rest state
  end.

(** The [,]-delimited extensions: [None] in the middle when one is refused, else whether there was any. *)
Fixpoint extension_list (fuel : nat) (l : list byte) (any_known : bool) (state : WsHandshakeDeflate)
    : option (option bool * WsHandshakeDeflate) :=
  match l with
  | [] => Some (Some any_known, state)
  | _ =>
    match fuel with
    | O => None
    | S fuel =>
      let '(tok, rest) := cut_at ch_comma l in
      let rest := match rest with Some rest => rest | None => [] end in
      if bool_decide (tok = []) then extension_list fuel rest any_known state else
      '(ok, state) ← ws_parse_permessage_deflate_token tok state;
      if negb ok then Some (None, state) else extension_list fuel rest true state
    end
  end.

(** ** The driver *)

Inductive Phase := Sending | Receiving | Done | PFailed.

(** [host_] and [ws_path_], which are only logged, are left out. *)
Record WsHandshakeDriver := mkDriver {
  phase_ : Phase;
  deflate_ : option WsHandshakeDeflate;
  req_ : list byte;
  req_len_ : Z;
  sent_ : Z;
  rx_ : list byte;
  rx_len_ : Z;
  client_key_ : list byte;
  leftover_ : list byte
}.

Definition kReqSize : Z := 4096.
Definition kRxSize : Z := 8192.
Definition kBaseHdrs : Z := 5.

Definition kMandatoryNames : list (list byte) :=
  [text "Host"; text "Upgrade"; text "Connection"; text "Sec-WebSocket-Key"; text "Sec-WebSocket-Version"].

Definition is_extensions (h : HttpHeader) : bool := iequal (h_name h) (text "Sec-WebSocket-Extensions").

Definition handshake_headers (host client_key : list byte) (inject_deflate : bool) (extra_headers : list HttpHeader)
    : list HttpHeader :=
  [mkHeader (text "Host") host; mkHeader (text "Upgrade") (text "websocket"); mkHeader (text "Connection") (text "Upgrade");
   mkHeader (text "Sec-WebSocket-Key") client_key; mkHeader (text "Sec-WebSocket-Version") (text "13")] ++
  (if inject_deflate then [mkHeader (text "Sec-WebSocket-Extensions") (text "permessage-deflate")] else []) ++ extra_headers.

(** [nonce]: what [ws_random_nonce] got after at most three attempts. *)
Definition create (host ws_path : list byte) (extra_headers : list HttpHeader) (deflate : option WsHandshakeDeflate)
    (nonce : option (list byte)) : option (expected WsHandshakeDriver Error) :=
  if existsb (fun eh => existsb (iequal (h_name eh)) kMandatoryNames) extra_headers then Some (Err WsHandshakeFailed) else
  match nonce with
  | None => Some (Err WsHandshakeFailed)
  | Some nonce =>
    let client_key := base64_encode nonce in
    let inject_deflate :=
      match deflate with Some d => df_request d && negb (existsb is_extensions extra_headers) | None => false end in
    let injected_count := if inject_deflate then 1 else 0 in
    if kMaxHeaderCount - kBaseHdrs <? zlen extra_headers + injected_count then Some (Err WsHandshakeFailed) else
    '(built, req) ← build_http_request (repeat x00 (Z.to_nat kReqSize)) kReqSize (text "GET") ws_path
                      (handshake_headers host client_key inject_deflate extra_headers) [];
    match built with
    | Err _ => Some (Err WsHandshakeFailed)
    | Ok n => Some (Ok (mkDriver Sending deflate req n 0 (repeat x00 (Z.to_nat kRxSize)) 0 client_key []))
    end
  end.

Definition set_phase (p : Phase) (d : WsHandshakeDriver) : WsHandshakeDriver :=
  mkDriver p (deflate_ d) (req_ d) (req_len_ d) (sent_ d) (rx_ d) (rx_len_ d) (client_key_ d) (leftover_ d).

Definition set_deflate (x : option WsHandshakeDeflate) (d : WsHandshakeDriver) : WsHandshakeDriver :=
  mkDriver (phase_ d) x (req_ d) (req_len_ d) (sent_ d) (rx_ d) (rx_len_ d) (client_key_ d) (leftover_ d).

Definition fail_ (d : WsHandshakeDriver) : option (expected bool Error * WsHandshakeDriver) :=
  Some (Err WsHandshakeFailed, set_phase PFailed d).

(** The extensions the server chose against what was offered. *)
Definition negotiate (ext : option (list byte)) (d : WsHandshakeDriver) : option (bool * WsHandshakeDriver) :=
  match ext with
  | None => Some (true, d)
  | Some l =>
    match deflate_ d with
    | Some df =>
      if negb (df_request df) then Some (false, d) else
      '(r, df) ← extension_list (length l) l false df;
      let d := set_deflate (Some df) d in
      match r with
      | None => Some (false, d)
      | Some any_known => Some (any_known && df_negotiated df, d)
      end
    | None => Some (false, d)
    end
  end.

(** [hash]: what the block buffer of the hash holds. *)
Definition validate_ (hash : list byte) (parsed : HttpResponse * Z) (d : WsHandshakeDriver)
    : option (expected bool Error * WsHandshakeDriver) :=
  let '(resp, consumed) := parsed in
  if negb (rs_status_code resp =? 101) then fail_ d else
  match ws_find_header (rs_headers resp) (text "Upgrade") with
  | None => fail_ d
  | Some u =>
    if negb (iequal u (text "websocket")) then fail_ d else
    match ws_find_header (rs_headers resp) (text "Connection") with
    | None => fail_ d
    | Some c =>
      up ← ws_connection_has_upgrade c;
      if negb up then fail_ d else
      match ws_find_header (rs_headers resp) (text "Sec-WebSocket-Accept") with
      | None => fail_ d
      | Some accept =>
        expected_accept ← ws_compute_accept hash (client_key_ d);
        if negb (bool_decide (accept = expected_accept)) then fail_ d else
        '(ok, d) ← negotiate (ws_find_header (rs_headers resp) (text "Sec-WebSocket-Extensions")) d;
        if negb ok then fail_ d else
        over ← (if consumed <? rx_len_ d then slice (rx_ d) consumed (rx_len_ d - consumed) else Some (leftover_ d));
        Some (Ok true, mkDriver Done (deflate_ d) (req_ d) (req_len_ d) (sent_ d) (rx_ d) (rx_len_ d) (client_key_ d) over)
      end
    end
  end.

(** What the sink does in one step: bytes accepted, or bytes received, or an error. *)
Record sink := mkSink {
  sk_send : expected Z Error;
  sk_recv : expected (list byte) Error
}.

(** The result, the driver and the bytes handed to the sink. *)
Definition step (hash : list byte) (io : sink) (d : WsHandshakeDriver)
    : option (expected bool Error * WsHandshakeDriver * list byte) :=
  match phase_ d with
  | Sending =>
    match sk_send io with
    | Err e => Some (if bool_decide (e = WouldBlock) then Ok false else Err e, d, [])
    | Ok n =>
      if n =? 0 then Some (Err BufferFull, d, []) else
      wire ← slice (req_ d) (sent_ d) n;
      let sent := sent_ d + n in
      let p := if sent <? req_len_ d then Sending else Receiving in
      Some (Ok false, mkDriver p (deflate_ d) (req_ d) (req_len_ d) sent (rx_ d) (rx_len_ d) (client_key_ d) (leftover_ d), wire)
    end
  | Receiving =>
    if rx_len_ d =? kRxSize then Some (Err WsHandshakeFailed, d, []) else
    match sk_recv io with
    | Err e => Some (if bool_decide (e = WouldBlock) then Ok false else Err e, d, [])
    | Ok bs =>
      if zlen bs =? 0 then Some (Ok false, d, []) else
      rx ← wr (rx_ d) (rx_len_ d) bs;
      let d := mkDriver (phase_ d) (deflate_ d) (req_ d) (req_len_ d) (sent_ d) rx (rx_len_ d + zlen bs) (client_key_ d) (leftover_ d) in
      window ← slice rx 0 (rx_len_ d);
      pr ← parse_http_response window kMaxHeaderCount;
      match pr with
      | Err _ => Some (Err WsHandshakeFailed, d, [])
      | Ok None => Some (Ok false, d, [])
      | Ok (Some parsed) => '(r, d) ← validate_ hash parsed d; Some (r, d, [])
      end
    end
  | _ => Some (Err WsHandshakeFailed, d, [])
  end.

(** The blocking drive: the sink and then the clock, round after round; [None] in the middle
    while it is still waiting.  The driver it ends with and the bytes handed to the sink. *)
Fixpoint drive (hash : list byte) (deadline : Z) (rounds : list (sink * Z)) (d : WsHandshakeDriver)
    : option (option (expected (list byte) Error) * WsHandshakeDriver * list byte) :=
  match rounds with
  | [] => Some (None, d, [])
  | (io, now) :: rounds =>
    '(r, d, wire) ← step hash io d;
    match r with
    | Err e => Some (Some (Err e), d, wire)
    | Ok true => Some (Some (Ok (leftover_ d)), d, wire)
    | Ok false =>
      if deadline <=? now then Some (Some (Err Timeout), d, wire) else
      '(out, d, wire') ← drive hash deadline rounds d;
      Some (out, d, wire ++ wire')
    end
  end.

(** [leftover] of the caller grows by the bytes received after the response; [deflate] is the
    state the caller passed by reference, as the handshake leaves it. *)
Definition perform_ws_handshake (hash : list byte) (host ws_path : list byte) (extra_headers : list HttpHeader)
    (deflate : option WsHandshakeDeflate) (nonce : option (list byte)) (start timeout : Z) (leftover : list byte)
    (rounds : list (sink * Z)) : option (option (expected (list byte) Error) * option WsHandshakeDeflate * list byte) :=
  d ← create host ws_path extra_headers deflate nonce;
  match d with
  | Err e => Some (Some (Err e), deflate, [])
  | Ok d =>
    '(out, d, wire) ← drive hash (start + timeout) rounds d;
    Some (match out with Some (Ok lo) => Some (Ok (leftover ++ lo)) | x => x end, deflate_ d, wire)
  end.

(** ** Total helpers *)

Lemma cut_at_len c s a b : cut_at c s = (a, Some b) -> (length b < length s)%nat.
Proof.
  unfold cut_at. destruct (split_byte c s) as [[x y]|] eqn:E; [|done]. intros [= <- <-]. apply split_byte_spec in E as [-> _].
  rewrite !length_app. cbn. lia.
Qed.

Lemma skip_while_len f s : (length (skip_while f s) <= length s)%nat.
Proof. induction s as [|c s IH]; [done|]. cbn [skip_while]. destruct (f c); cbn [length] in *; lia. Qed.

Lemma connection_total fuel : forall value, (length value < fuel)%nat -> exists b, connection_loop fuel value = Some b.
Proof.
  induction fuel as [|fuel IH]; intros value Hl; [lia|]. cbn [connection_loop]. destruct value as [|c value]; [by eexists|].
  set (v := c :: value) in *. pose proof (skip_while_len is_list_space v) as Hs.
  destruct (cut_at ch_comma (skip_while is_list_space v)) as [tok rest] eqn:E. destruct (_ && _); [by eexists|].
  destruct rest as [rest|]; [|by eexists]. apply cut_at_len in E. apply IH. lia.
Qed.

Lemma deflate_params_total fuel : forall rest s, (length rest <= fuel)%nat ->
  exists b s', deflate_params fuel rest s = Some (b, s') /\ df_request s' = df_request s.
Proof.
  induction fuel as [|fuel IH]; intros rest s Hl; (destruct rest as [|c rest]; [by eexists _, _|]); [cbn in Hl; lia|].
  cbn [deflate_params]. destruct (cut_at ch_semicolon (c :: rest)) as [p r] eqn:E.
  assert (length (match r with Some r => r | None => [] end) <= fuel)%nat as Hr.
  { destruct r as [r|]; [apply cut_at_len in E; lia|cbn; lia]. }
  case_bool_decide; [by apply IH|]. destruct (deflate_param _ s) as [s1|] eqn:Ep; [|by eexists _, _].
  destruct (IH _ s1 Hr) as (b & s' & Es & Hq). exists b, s'. split; [done|]. rewrite Hq. unfold deflate_param in Ep.
  destruct (cut_at ch_eq (trim_ows p)) as [x y]. cbv zeta in Ep.
  destruct (iequal _ (text "server_no_context_takeover")); [by injection Ep as <-|].
  destruct (iequal _ (text "client_no_context_takeover")); [by injection Ep as <-|].
  destruct (_ || _); [|done]. case_bool_decide; [by injection Ep as <-|done].
Qed.

Lemma deflate_token_total tok s : exists b s', ws_parse_permessage_deflate_token tok s = Some (b, s') /\ df_request s' = df_request s.
Proof.
  unfold ws_parse_permessage_deflate_token. case_bool_decide; [by eexists _, _|]. destruct (cut_at _ _) as [n params].
  destruct (negb _); [by eexists _, _|]. destruct params as [rest|]; [|by eexists _, _].
  destruct (deflate_params_total (length rest) rest (set_negotiated true s)) as (b & s' & E & Hq); [lia|]. by exists b, s'.
Qed.

Lemma extension_list_total fuel : forall l any s, (length l <= fuel)%nat ->
  exists r s', extension_list fuel l any s = Some (r, s') /\ df_request s' = df_request s.
Proof.
  induction fuel as [|fuel IH]; intros l any s Hl; (destruct l as [|c l]; [by eexists _, _|]); [cbn in Hl; lia|].
  cbn [extension_list]. destruct (cut_at ch_comma (c :: l)) as [tok r] eqn:E.
  assert (length (match r with Some r => r | None => [] end) <= fuel)%nat as Hr.
  { destruct r as [r|]; [apply cut_at_len in E; lia|cbn; lia]. }
  case_bool_decide; [by apply IH|]. destruct (deflate_token_total tok s) as (b & s1 & -> & Hq). cbn [mbind option_bind].
  destruct b; cbn [negb]; [|by eexists _, _]. destruct (IH _ true s1 Hr) as (x & s' & -> & Hq'). exists x, s'. split; [done|congruence].
Qed.

Lemma negotiate_total ext d : exists ok d', negotiate ext d = Some (ok, d') /\ exists df, d' = set_deflate df d.
Proof.
  unfold negotiate. assert (d = set_deflate (deflate_ d) d) as Hd by (by destruct d).
  destruct ext as [l|]; [|by eexists _, _; split; [reflexivity|eexists]].
  destruct (deflate_ d) as [df|] eqn:E; [|by eexists _, _; split; [reflexivity|eexists]].
  destruct (df_request df); cbn [negb]; [|by eexists _, _; split; [reflexivity|eexists]].
  destruct (extension_list_total (length l) l false df) as (r & df' & -> & _); [lia|]. cbn [mbind option_bind].
  destruct r; (eexists _, _; split; [reflexivity|by eexists]).
Qed.

(** ** Lists in header values *)

(** The elements between the commas. *)
Fixpoint elements (s : list byte) : list (list byte) :=
  match s with
  | [] => [[]]
  | c :: t =>
    if beq c ch_comma then [] :: elements t
    else match elements t with e :: es => (c :: e) :: es | [] => [[c]] end
  end.

Lemma elements_app a b : (ch_comma ∉ a) -> elements (a ++ [ch_comma] ++ b) = a :: elements b.
Proof.
  induction a as [|c a IH]; intros Hn; [done|]. rewrite not_elem_of_cons in Hn. cbn [app elements].
  rewrite (proj2 (beq_false c ch_comma)) by (intros ->; tauto). cbn [app] in IH. by rewrite IH by tauto.
Qed.

Lemma elements_one a : (ch_comma ∉ a) -> elements a = [a].
Proof.
  induction a as [|c a IH]; intros Hn; [done|]. rewrite not_elem_of_cons in Hn. cbn [elements].
  rewrite (proj2 (beq_false c ch_comma)) by (intros ->; tauto). by rewrite IH by tauto.
Qed.

Lemma elements_cut s : elements s = match cut_at ch_comma s with (a, Some b) => a :: elements b | (a, None) => [a] end.
Proof.
  unfold cut_at. destruct (split_byte ch_comma s) as [[a b]|] eqn:E.
  - apply split_byte_spec in E as [-> Hn]. by apply elements_app.
  - apply elements_one. intros Hin. apply list_elem_of_split in Hin as (a & b & Es).
    assert (exists x y, split_byte ch_comma s = Some (x, y)) as (x & y & E'); [|congruence]. clear E. subst s.
    induction a as [|c a (x & y & IH)]; [by eexists _, _|]. cbn [app split_byte]. destruct (beq c ch_comma); [by eexists _, _|].
    rewrite IH. by eexists _, _.
Qed.

Definition names_upgrade (e : list byte) : Prop := iequal (trim_ows e) (text "Upgrade") = true.

Lemma trim_ows_front c e : is_ows c = true -> trim_ows (c :: e) = trim_ows e.
Proof. intros H. unfold trim_ows. cbn [trim_front_ows]. by rewrite H. Qed.

Lemma upgrade_skip v : Exists names_upgrade (elements v) <-> Exists names_upgrade (elements (skip_while is_list_space v)).
Proof.
  induction v as [|c v IH]; [done|]. cbn [skip_while]. destruct (is_list_space c) eqn:Ec; [|done]. rewrite <- IH. cbn [elements].
  destruct (beq c ch_comma) eqn:Ecomma.
  - rewrite Exists_cons. split; [intros [H|H]; [by vm_compute in H|done]|by right].
  - unfold is_list_space in Ec. rewrite Ecomma, orb_false_r in Ec. destruct (elements v) as [|e es] eqn:Ev; [by destruct v; cbn in Ev; repeat case_match|].
    rewrite !Exists_cons. unfold names_upgrade at 1. by rewrite trim_ows_front.
Qed.

Lemma skip_while_head f s c : hd_error (skip_while f s) = Some c -> f c = false.
Proof. induction s as [|x s IH]; [done|]. cbn [skip_while]. destruct (f x) eqn:E; [apply IH|]. by intros [= ->]. Qed.

(** The scan finds an element that reads Upgrade in any case, white space around it aside. *)
Lemma connection_spec fuel : forall value, (length value < fuel)%nat ->
  (connection_loop fuel value = Some true <-> Exists names_upgrade (elements value)).
Proof.
  induction fuel as [|fuel IH]; intros value Hl; [lia|]. cbn [connection_loop]. destruct value as [|c value].
  { split; [done|]. intros H. apply Exists_cons in H as [H|H]; [by vm_compute in H|by apply Exists_nil in H]. }
  remember (c :: value) as v eqn:Ev. clear Ev c value. pose proof (skip_while_len is_list_space v) as Hs. rewrite (upgrade_skip v), elements_cut.
  assert (forall x, hd_error (skip_while is_list_space v) = Some x -> is_ows x = false) as Hh.
  { intros x Hx%skip_while_head. unfold is_list_space in Hx. by apply orb_false_iff in Hx as [? _]. }
  destruct (cut_at ch_comma (skip_while is_list_space v)) as [tok rest] eqn:E.
  assert (trim_back_ows tok = trim_ows tok) as Etok.
  { unfold trim_ows. destruct tok as [|x tok]; [done|]. cbn [trim_front_ows]. enough (is_ows x = false) as -> by done. apply Hh.
    unfold cut_at in E. destruct (split_byte _ _) as [[a b]|] eqn:Es; injection E as -> <-; [|done].
    apply split_byte_spec in Es as [Es _]. by rewrite Es. }
  rewrite Etok. assert (negb (bool_decide (trim_ows tok = [])) && iequal (trim_ows tok) (text "Upgrade") = iequal (trim_ows tok) (text "Upgrade")) as ->.
  { case_bool_decide as Hn; [by rewrite Hn|done]. }
  destruct (iequal (trim_ows tok) (text "Upgrade")) eqn:Eu.
  { split; [|done]. intros _. destruct rest; by left. }
  destruct rest as [rest|]; rewrite Exists_cons; unfold names_upgrade at 1; rewrite Eu.
  - apply cut_at_len in E. rewrite IH by lia. intuition congruence.
  - rewrite Exists_nil. intuition congruence.
Qed.

(** ** What is accepted *)

(** The response agrees to the upgrade and proves that it has read the key. *)
Record upgrades (client_key : list byte) (resp : HttpResponse) : Prop := {
  up_status : rs_status_code resp = 101;
  up_upgrade : exists u, ws_find_header (rs_headers resp) (text "Upgrade") = Some u /\ iequal u (text "websocket") = true;
  up_connection : exists c, ws_find_header (rs_headers resp) (text "Connection") = Some c /\ Exists names_upgrade (elements c);
  up_accept : ws_find_header (rs_headers resp) (text "Sec-WebSocket-Accept") = Some (accept_key client_key)
}.

Definition names_deflate (e : list byte) : Prop :=
  iequal (trim_ows (cut_at ch_semicolon (trim_ows e)).1) (text "permessage-deflate") = true.

(** Extensions in the response: none, or nothing but permessage-deflate, which was offered. *)
Definition extensions_agreed (ext : option (list byte)) (before after : option WsHandshakeDeflate) : Prop :=
  match ext with
  | None => after = before
  | Some l => exists df df', before = Some df /\ df_request df = true /\ after = Some df' /\ df_negotiated df' = true /\
      Forall (fun e => e = [] \/ names_deflate e) (elements l)
  end.

Lemma deflate_token_name tok s s' : ws_parse_permessage_deflate_token tok s = Some (true, s') -> names_deflate tok.
Proof.
  unfold ws_parse_permessage_deflate_token, names_deflate. case_bool_decide; [done|]. destruct (cut_at ch_semicolon (trim_ows tok)) as [n p].
  cbn [fst]. destruct (iequal (trim_ows n) _); done.
Qed.

Lemma extension_list_names fuel : forall l any s b s', extension_list fuel l any s = Some (Some b, s') ->
  Forall (fun e => e = [] \/ names_deflate e) (elements l).
Proof.
  induction fuel as [|fuel IH]; intros l any s b s'; (destruct l as [|c l]; [intros _; by repeat constructor; left|]); [done|].
  cbn [extension_list]. rewrite elements_cut. destruct (cut_at ch_comma (c :: l)) as [tok r].
  assert (forall any s, extension_list fuel match r with Some r => r | None => [] end any s = Some (Some b, s') ->
    (tok = [] \/ names_deflate tok) -> Forall (fun e => e = [] \/ names_deflate e) match r with Some b => tok :: elements b | None => [tok] end) as Hnext.
  { intros any' s1 E Ht. destruct r as [r|]; [constructor; [done|by eapply IH]|constructor; [done|constructor]]. }
  case_bool_decide as Hnil; [intros E; apply (Hnext _ _ E); by left|].
  destruct (ws_parse_permessage_deflate_token tok s) as [[ok s1]|] eqn:Et; [|done]. cbn [mbind option_bind].
  destruct ok; cbn [negb]; [|done]. intros E. apply (Hnext _ _ E). right. by eapply deflate_token_name.
Qed.

Lemma negotiate_agreed ext d d' : negotiate ext d = Some (true, d') -> extensions_agreed ext (deflate_ d) (deflate_ d').
Proof.
  unfold negotiate, extensions_agreed. destruct ext as [l|]; [|by intros [= <-]]. destruct (deflate_ d) as [df|]; [|done].
  destruct (df_request df) eqn:Er; cbn [negb]; [|done]. destruct (extension_list (length l) l false df) as [[[any|] df']|] eqn:E; try done.
  cbn [mbind option_bind]. intros [= H <-]. apply andb_true_iff in H as [_ Hn]. exists df, df'. split_and!; try done.
  by eapply extension_list_names.
Qed.

(** ** The request *)

Definition offers (extra_headers : list HttpHeader) (deflate : option WsHandshakeDeflate) : bool :=
  match deflate with Some d => df_request d && negb (existsb is_extensions extra_headers) | None => false end.

Definition upgrade_request (host ws_path nonce : list byte) (extra_headers : list HttpHeader) (deflate : option WsHandshakeDeflate)
    : list byte :=
  http_text (request_head (text "GET") ws_path)
    (handshake_headers host (base64_encode nonce) (offers extra_headers deflate) extra_headers) [].

(** What [create] can turn into a request. *)
Definition requestable (host ws_path nonce : list byte) (extra_headers : list HttpHeader) (deflate : option WsHandshakeDeflate) : Prop :=
  Forall (fun h => Forall (fun m => iequal (h_name h) m = false) kMandatoryNames) extra_headers /\
  request_accepted (text "GET") ws_path (handshake_headers host (base64_encode nonce) (offers extra_headers deflate) extra_headers) /\
  zlen (upgrade_request host ws_path nonce extra_headers deflate) <= kReqSize.

(** What the driver has been given and has handed on. *)
Record hs_inv (request key : list byte) (deflate : option WsHandshakeDeflate) (d : WsHandshakeDriver) (wire heard : list byte) : Prop := {
  hi_req : take (Z.to_nat (req_len_ d)) (req_ d) = request;
  hi_req_len : req_len_ d = zlen request;
  hi_sent : 0 <= sent_ d <= req_len_ d;
  hi_wire : wire = take (Z.to_nat (sent_ d)) request;
  hi_rx : zlen (rx_ d) = kRxSize;
  hi_rx_len : rx_len_ d = zlen heard;
  hi_heard : take (Z.to_nat (rx_len_ d)) (rx_ d) = heard;
  hi_room : rx_len_ d <= kRxSize;
  hi_key : client_key_ d = key;
  hi_deflate : deflate_ d = deflate;
  hi_leftover : leftover_ d = [];
  hi_phase : phase_ d = Sending /\ heard = [] /\ sent_ d < req_len_ d \/ phase_ d = Receiving /\ sent_ d = req_len_ d
}.

Lemma existsb_false_Forall {A} (f : A -> bool) l : existsb f l = false <-> Forall (fun x => f x = false) l.
Proof.
  induction l as [|x l IH]; [split; [constructor|done]|]. cbn [existsb]. rewrite orb_false_iff, IH. split; [intros [? ?]; by constructor|].
  intros H. inversion H; subst. done.
Qed.

Lemma http_text_nonempty first hs body : 0 < zlen (http_text first hs body).
Proof.
  unfold http_text. rewrite !zlen_app, zlen_CRLF. pose proof (zlen_nonneg first). pose proof (zlen_nonneg body).
  pose proof (zlen_nonneg (block_bytes (map header_text hs))). lia.
Qed.

Lemma zlen_handshake_headers host key inject extra :
  zlen (handshake_headers host key inject extra) = kBaseHdrs + (if inject then 1 else 0) + zlen extra.
Proof.
  unfold handshake_headers, kBaseHdrs. rewrite !zlen_app. set (a := zlen [_; _; _; _; _]). assert (a = 5) as -> by done.
  destruct inject; [|done]. set (b := zlen [_]). assert (b = 1) as -> by done. lia.
Qed.

Lemma no_collision extra : existsb (fun eh => existsb (iequal (h_name eh)) kMandatoryNames) extra = false <->
  Forall (fun h => Forall (fun m => iequal (h_name h) m = false) kMandatoryNames) extra.
Proof. rewrite existsb_false_Forall, !Forall_forall. setoid_rewrite existsb_false_Forall. done. Qed.

(** [create] succeeds exactly on requestable inputs, and its driver is then at the start. *)
Lemma create_spec host ws_path extra deflate nonce : exists r, create host ws_path extra deflate nonce = Some r /\
  match r with
  | Err e => e = WsHandshakeFailed /\ forall n, nonce = Some n -> ~ requestable host ws_path n extra deflate
  | Ok d => exists n, nonce = Some n /\ requestable host ws_path n extra deflate /\
      hs_inv (upgrade_request host ws_path n extra deflate) (base64_encode n) deflate d [] []
  end.
Proof.
  unfold create, requestable. destruct (existsb _ extra) eqn:Hex.
  { eexists. split; [reflexivity|]. split; [done|]. intros n _ (H & _). apply no_collision in H. congruence. }
  destruct nonce as [n|]; [|by eexists; split; [reflexivity|]]. fold (offers extra deflate). set (hs := handshake_headers _ _ _ _).
  assert (zlen hs = kBaseHdrs + (if offers extra deflate then 1 else 0) + zlen extra) as Hhs by apply zlen_handshake_headers.
  destruct (Z.ltb_spec (kMaxHeaderCount - kBaseHdrs) (zlen extra + (if offers extra deflate then 1 else 0))) as [Hc|Hc].
  { eexists. split; [reflexivity|]. split; [done|]. intros ? [= <-] (_ & (_ & _ & _ & Hm & _) & _). fold hs in Hm. lia. }
  destruct (build_request_spec (repeat x00 (Z.to_nat kReqSize)) kReqSize (text "GET") ws_path hs []) as (r & mem & -> & Hlen & _ & Hw).
  { unfold zlen. rewrite repeat_length. unfold kReqSize. lia. }
  cbn [mbind option_bind]. destruct r as [k|e]; (eexists; split; [reflexivity|]).
  - destruct (Hw k) as [Hk Hb]. destruct (proj1 Hk eq_refl) as (Ha & El & Hle). specialize (Hb eq_refl). exists n.
    unfold upgrade_request. fold hs. split; [done|]. split; [split_and!; [by apply no_collision|done|by rewrite <- El]|].
    pose proof (http_text_nonempty (request_head (text "GET") ws_path) hs []). split; cbn [phase_ deflate_ req_ req_len_ sent_ rx_ rx_len_ client_key_ leftover_]; try done; [lia|].
    left. split_and!; [done|done|lia].
  - split; [done|]. intros ? [= <-] (_ & Ha & Hle). unfold upgrade_request in Hle. fold hs in Ha, Hle. pose proof (proj2 (proj1 (Hw _)) (conj Ha (conj eq_refl Hle))). done.
Qed.

(** ** One step *)

(** The contract of the sink: it takes no more than it is offered, and fills no more than it is
    given room for. *)
Definition io_ok (io : sink) (d : WsHandshakeDriver) : Prop :=
  (phase_ d = Sending -> forall n, sk_send io = Ok n -> 0 <= n <= req_len_ d - sent_ d) /\
  (phase_ d = Receiving -> forall bs, sk_recv io = Ok bs -> zlen bs <= kRxSize - rx_len_ d).

(** What a step hears. *)
Definition heard_now (io : sink) (d : WsHandshakeDriver) : list byte :=
  match phase_ d, sk_recv io with Receiving, Ok bs => bs | _, _ => [] end.

(** What the handshake has agreed on when it ends: the response that was heard first, and what
    came after it. *)
Definition agreed (key heard : list byte) (deflate : option WsHandshakeDeflate) (d : WsHandshakeDriver) : Prop :=
  exists lines resp msg, heard = msg ++ leftover_ d /\ response_bytes kMaxHeaderCount lines resp msg /\ upgrades key resp /\
    extensions_agreed (ws_find_header (rs_headers resp) (text "Sec-WebSocket-Extensions")) deflate (deflate_ d).

Ltac refuse := eexists _, _; split; [reflexivity|]; split; done.

Section hash.
Context (hash : list byte) (hash_len : zlen hash = 64).

(** [validate_] answers, and says yes to agreed upgrades only. *)
Lemma validate_sound resp consumed d : 0 <= consumed <= rx_len_ d -> rx_len_ d <= zlen (rx_ d) -> leftover_ d = [] ->
  exists r d', validate_ hash (resp, consumed) d = Some (r, d') /\ r <> Ok false /\
    (r = Ok true -> upgrades (client_key_ d) resp /\
      extensions_agreed (ws_find_header (rs_headers resp) (text "Sec-WebSocket-Extensions")) (deflate_ d) (deflate_ d') /\
      leftover_ d' = drop (Z.to_nat consumed) (take (Z.to_nat (rx_len_ d)) (rx_ d))).
Proof using hash_len.
  intros Hc Hrx Hlo. unfold validate_. destruct (Z.eqb_spec (rs_status_code resp) 101) as [H101|]; cbn [negb]; [|refuse].
  destruct (ws_find_header _ (text "Upgrade")) as [u|] eqn:Eu; [|refuse].
  destruct (iequal u (text "websocket")) eqn:Ew; cbn [negb]; [|refuse].
  destruct (ws_find_header _ (text "Connection")) as [c|] eqn:Ec; [|refuse].
  destruct (connection_total (S (length c)) c) as [up Eup]; [lia|]. unfold ws_connection_has_upgrade. rewrite Eup. cbn [mbind option_bind].
  destruct up; cbn [negb]; [|refuse]. apply connection_spec in Eup; [|lia].
  destruct (ws_find_header _ (text "Sec-WebSocket-Accept")) as [accept|] eqn:Ea; [|refuse].
  rewrite (proj1 (compute_accept hash _ hash_len)). cbn [mbind option_bind].
  destruct (bool_decide_reflect (accept = accept_key (client_key_ d))) as [->|]; cbn [negb]; [|refuse].
  destruct (negotiate_total (ws_find_header (rs_headers resp) (text "Sec-WebSocket-Extensions")) d) as (ok & d1 & En & df & ->). rewrite En.
  cbn [mbind option_bind]. destruct ok; cbn [negb]; [|refuse]. apply negotiate_agreed in En.
  cbn [set_deflate deflate_ rx_len_ rx_ leftover_] in *.
  set (all := take (Z.to_nat (rx_len_ d)) (rx_ d)).
  assert ((if consumed <? rx_len_ d then slice (rx_ d) consumed (rx_len_ d - consumed) else Some (leftover_ d)) = Some (drop (Z.to_nat consumed) all)) as ->.
  { subst all. destruct (Z.ltb_spec consumed (rx_len_ d)) as [Hl|Hl].
    - rewrite slice_Some by lia. rewrite skipn_firstn_comm. do 2 f_equal. lia.
    - rewrite Hlo, drop_ge; [done|]. rewrite length_take. lia. }
  cbn [mbind option_bind]. eexists _, _. split; [reflexivity|]. split; [done|]. intros _. split_and!; [|done|done].
  split; [done|by exists u|by exists c|done].
Qed.

Lemma sending_step io request key deflate d wire heard : hs_inv request key deflate d wire heard -> phase_ d = Sending -> io_ok io d ->
  exists r d' w, step hash io d = Some (r, d', w) /\ (wire ++ w) `prefix_of` request /\
    match r with Ok false => hs_inv request key deflate d' (wire ++ w) heard | Ok true => False | Err _ => True end.
Proof using.
  intros [Hrq Hrl Hs Hw Hrx Hxl Hh Hroom Hk Hd Hlo Hp] Ep [Hio _]. specialize (Hio Ep). unfold step. rewrite Ep.
  assert ((wire ++ []) `prefix_of` request) as Hpre by (rewrite app_nil_r, Hw; apply prefix_take).
  destruct (sk_send io) as [n|e].
  2: { eexists _, _, _. split; [reflexivity|]. split; [done|]. case_bool_decide; [|done]. rewrite app_nil_r. by split. }
  specialize (Hio n eq_refl). destruct (Z.eqb_spec n 0); [by eexists _, _, _|].
  assert (sent_ d + n <= zlen (req_ d)) as Hfit.
  { assert (zlen request <= zlen (req_ d)); [|lia]. rewrite <- Hrq, zlen_take. lia. }
  rewrite slice_Some by lia. cbn [mbind option_bind]. set (w := take (Z.to_nat n) _).
  assert (wire ++ w = take (Z.to_nat (sent_ d + n)) request) as Ew.
  { subst w. rewrite Hw, <- Hrq, !take_take. replace (Z.to_nat (sent_ d) `min` Z.to_nat (req_len_ d))%nat with (Z.to_nat (sent_ d)) by lia.
    rewrite Nat.min_l by lia. rewrite Z2Nat.inj_add by lia. by rewrite take_take_drop. }
  eexists _, _, _. split; [reflexivity|]. rewrite Ew. split; [apply prefix_take|].
  destruct Hp as [(_ & -> & Hlt)|[? _]]; [|congruence].
  split; cbn [phase_ deflate_ req_ req_len_ sent_ rx_ rx_len_ client_key_ leftover_]; try done; [lia|].
  destruct (Z.ltb_spec (sent_ d + n) (req_len_ d)); [left|right]; split_and!; try done; lia.
Qed.

(** Bytes that arrive join what was heard, and the parser sees it all. *)
Lemma receiving_read io bs request key deflate d wire heard : hs_inv request key deflate d wire heard -> phase_ d = Receiving ->
  sk_recv io = Ok bs -> 0 < zlen bs <= kRxSize - rx_len_ d ->
  exists d1, hs_inv request key deflate d1 wire (heard ++ bs) /\ phase_ d1 = Receiving /\
    step hash io d = (pr ← parse_http_response (heard ++ bs) kMaxHeaderCount;
      match pr with
      | Err _ => Some (Err WsHandshakeFailed, d1, [])
      | Ok None => Some (Ok false, d1, [])
      | Ok (Some parsed) => '(r, d) ← validate_ hash parsed d1; Some (r, d, [])
      end).
Proof using.
  intros [Hrq Hrl Hs Hw Hrx Hxl Hh Hroom Hk Hd Hlo Hp] Ep Er Hbs. unfold step. rewrite Ep, Er.
  destruct (Z.eqb_spec (rx_len_ d) kRxSize); [lia|]. destruct (Z.eqb_spec (zlen bs) 0); [lia|].
  rewrite <- (take_drop (Z.to_nat (rx_len_ d)) (rx_ d)), Hh. set (post := drop _ (rx_ d)). pose proof (zlen_nonneg heard) as Hh0.
  assert (zlen post = kRxSize - rx_len_ d) as Hpost by (subst post; rewrite zlen_drop; lia).
  rewrite wr_app by lia. cbn [mbind option_bind rx_len_]. rewrite Hxl. set (rx := heard ++ bs ++ _).
  assert (zlen rx = kRxSize) as Hrx' by (subst rx; rewrite !zlen_app, zlen_drop; unfold zlen in *; lia).
  assert (take (Z.to_nat (zlen heard + zlen bs)) rx = heard ++ bs) as Et.
  { subst rx. rewrite app_assoc. apply take_app_length'. rewrite length_app. unfold zlen. lia. }
  rewrite slice_Some by lia. rewrite drop_0, Et. cbn [mbind option_bind].
  set (d1 := mkDriver _ _ _ _ _ rx _ _ _). exists d1. split; [|by split].
  split; cbn [d1 phase_ deflate_ req_ req_len_ sent_ rx_ rx_len_ client_key_ leftover_]; try done; [by rewrite zlen_app|lia|].
  right. destruct Hp as [(? & _)|[_ ?]]; [congruence|]. done.
Qed.

(** What [validate_] decides about a parsed response, with the bytes after it. *)
Lemma parsed_leftover request key deflate d1 wire heard msg rest : hs_inv request key deflate d1 wire heard -> heard = msg ++ rest ->
  0 <= zlen msg <= rx_len_ d1 /\ rx_len_ d1 <= zlen (rx_ d1) /\
  drop (Z.to_nat (zlen msg)) (take (Z.to_nat (rx_len_ d1)) (rx_ d1)) = rest.
Proof using.
  intros [Hrq Hrl Hs Hw Hrx Hxl Hh Hroom Hk Hd Hlo Hp] ->. rewrite Hh, Hxl. pose proof (zlen_nonneg msg). pose proof (zlen_nonneg rest).
  split_and!; [lia|rewrite zlen_app; lia|lia|]. unfold zlen. by rewrite Nat2Z.id, drop_app_length.
Qed.

Lemma receiving_step io request key deflate d wire heard : hs_inv request key deflate d wire heard -> phase_ d = Receiving -> io_ok io d ->
  exists r d', step hash io d = Some (r, d', []) /\
    match r with
    | Ok false => hs_inv request key deflate d' wire (heard ++ heard_now io d)
    | Ok true => agreed key (heard ++ heard_now io d) deflate d'
    | Err _ => True
    end.
Proof using hash_len.
  intros Hinv Ep [_ Hio]. specialize (Hio Ep). unfold heard_now. rewrite Ep.
  destruct (Z.eqb_spec (rx_len_ d) kRxSize) as [Hfull|_]; [|destruct (sk_recv io) as [bs|e] eqn:Erecv].
  - unfold step. rewrite Ep, Hfull, Z.eqb_refl. by eexists _, _.
  - specialize (Hio bs eq_refl). destruct (Z.eqb_spec (zlen bs) 0) as [H0|Hn].
    + assert (bs = []) as -> by (apply zlen_nil_inv; lia). unfold step. rewrite Ep, Erecv, app_nil_r. destruct (_ =? kRxSize); by eexists _, _.
    + destruct (receiving_read io bs _ _ _ _ _ _ Hinv Ep Erecv) as (d1 & Hinv1 & _ & E); [pose proof (zlen_nonneg bs); lia|].
      rewrite E. clear E.
      pose proof (parse_message_exact parse_status_line frame_response parse_status_line_clean frame_response_len kMaxHeaderCount (heard ++ bs) ltac:(done)) as (r & Er & Hr).
      rewrite response_as_message, Er. cbn [mbind option_bind fmap option_fmap option_map map_ok].
      destruct r as [[[[[[[c rs] v] hs] body] n]|]|]; cbn [map_ok fmap option_fmap option_map response_of]; [|by eexists _, _..].
      destruct (proj1 (Hr _ _ _ _) eq_refl) as (msg & rest & lines & Emsg & -> & Hmsg). apply response_bytes_message in Hmsg.
      destruct (parsed_leftover _ _ _ _ _ _ _ _ Hinv1 Emsg) as (Hc & Hrx & Hdrop).
      destruct (validate_sound (mkResponse c rs v hs body) (zlen msg) d1 Hc Hrx (hi_leftover _ _ _ _ _ _ Hinv1)) as (r & d' & -> & Hnf & Hv).
      cbn [mbind option_bind]. eexists _, _. split; [reflexivity|]. destruct r as [[]|]; [|done|done].
      destruct (Hv eq_refl) as (Hup & Hext & Hl). exists lines, (mkResponse c rs v hs body), msg.
      rewrite Hl, Hdrop. rewrite (hi_key _ _ _ _ _ _ Hinv1) in Hup. rewrite (hi_deflate _ _ _ _ _ _ Hinv1) in Hext. by split_and!.
  - unfold step. rewrite Ep, Erecv, app_nil_r. destruct (_ =? kRxSize); [by eexists _, _|]. eexists _, _. split; [reflexivity|]. by case_bool_decide.
Qed.

(** ** The drive *)

(** Every round keeps the contract of the sink, given how the driver has got there. *)
Fixpoint honest (rounds : list (sink * Z)) (d : WsHandshakeDriver) : Prop :=
  match rounds with
  | [] => True
  | (io, _) :: rounds => io_ok io d /\ forall r d' w, step hash io d = Some (r, d', w) -> honest rounds d'
  end.

(** All that is heard until the handshake ends. *)
Fixpoint heard_all (rounds : list (sink * Z)) (d : WsHandshakeDriver) : list byte :=
  match rounds with
  | [] => []
  | (io, _) :: rounds =>
    match step hash io d with
    | Some (Ok false, d', _) => heard_now io d ++ heard_all rounds d'
    | _ => heard_now io d
    end
  end.

Lemma drive_sound deadline request key deflate : forall rounds d wire heard, hs_inv request key deflate d wire heard -> honest rounds d ->
  exists out d' w, drive hash deadline rounds d = Some (out, d', w) /\ (wire ++ w) `prefix_of` request /\
    forall lo, out = Some (Ok lo) -> lo = leftover_ d' /\ wire ++ w = request /\ agreed key (heard ++ heard_all rounds d) deflate d'.
Proof using hash_len.
  induction rounds as [|[io now] rounds IH]; intros d wire heard Hinv Hh.
  { eexists _, _, _. split; [reflexivity|]. split; [|done]. rewrite app_nil_r, (hi_wire _ _ _ _ _ _ Hinv). apply prefix_take. }
  cbn [drive honest heard_all] in *. destruct Hh as [Hio Hh].
  assert (exists r d' w, step hash io d = Some (r, d', w) /\ (wire ++ w) `prefix_of` request /\
    match r with
    | Ok false => hs_inv request key deflate d' (wire ++ w) (heard ++ heard_now io d)
    | Ok true => wire ++ w = request /\ agreed key (heard ++ heard_now io d) deflate d'
    | Err _ => True
    end) as (r & d' & w & E & Hpre & Hr).
  { destruct (hi_phase _ _ _ _ _ _ Hinv) as [(Ep & -> & _)|[Ep Hs]].
    - destruct (sending_step io _ _ _ _ _ _ Hinv Ep Hio) as (r & d' & w & E & Hpre & Hr). exists r, d', w. split_and!; try done.
      destruct r as [[]|]; try done. unfold heard_now. by rewrite Ep.
    - destruct (receiving_step io _ _ _ _ _ _ Hinv Ep Hio) as (r & d' & E & Hr). exists r, d', [].
      assert (wire = request) as Ew.
      { rewrite (hi_wire _ _ _ _ _ _ Hinv), Hs, (hi_req_len _ _ _ _ _ _ Hinv). apply take_ge. unfold zlen. lia. }
      rewrite app_nil_r. split_and!; [done|by rewrite Ew|]. by destruct r as [[]|]. }
  rewrite E. cbn [mbind option_bind]. specialize (Hh _ _ _ E). destruct r as [[]|e].
  - eexists _, _, _. split; [reflexivity|]. split; [done|]. intros lo [= <-]. by destruct Hr.
  - destruct (deadline <=? now); [by eexists _, _, _|]. destruct (IH _ _ _ Hr Hh) as (out & d2 & w2 & -> & Hp2 & Ho). cbn [mbind option_bind].
    rewrite <- app_assoc in Hp2, Ho. eexists _, _, _. split; [reflexivity|]. split; [done|]. intros lo Elo. destruct (Ho lo Elo) as (? & ? & Ha).
    rewrite <- app_assoc in Ha. done.
  - by eexists _, _, _.
Qed.
End hash.

(** C22: The opening handshake is safe.  Whatever the sink does within its contract (partial
    sends, any segmentation, errors), however the clock runs and whatever the header fields of
    the caller are, the handshake is defined, and what it puts on the wire is a prefix of one
    HTTP upgrade request (nothing, when the request cannot be built).  It succeeds only after
    the whole request was sent and a complete response of the HTTP grammar was received that
    has status 101, names the websocket upgrade, carries in Sec-WebSocket-Accept the SHA-1
    proof for the key just sent, and chooses no extension but an offered permessage-deflate;
    the bytes received after that response, and only those, are passed on. *)
Theorem ws_handshake_sound hash host ws_path extra deflate nonce start timeout leftover rounds : zlen hash = 64 ->
  (forall d, create host ws_path extra deflate nonce = Some (Ok d) -> honest hash rounds d) ->
  exists out df wire, perform_ws_handshake hash host ws_path extra deflate nonce start timeout leftover rounds = Some (out, df, wire) /\
    (wire <> [] -> exists n, nonce = Some n /\ requestable host ws_path n extra deflate /\
      wire `prefix_of` upgrade_request host ws_path n extra deflate) /\
    forall all, out = Some (Ok all) -> exists n d lines resp msg rest,
      nonce = Some n /\ create host ws_path extra deflate nonce = Some (Ok d) /\
      wire = upgrade_request host ws_path n extra deflate /\
      heard_all hash rounds d = msg ++ rest /\ all = leftover ++ rest /\
      response_bytes kMaxHeaderCount lines resp msg /\ upgrades (base64_encode n) resp /\
      extensions_agreed (ws_find_header (rs_headers resp) (text "Sec-WebSocket-Extensions")) deflate df.
Proof.
  intros Hhash Hh. unfold perform_ws_handshake. destruct (create_spec host ws_path extra deflate nonce) as (r & E & Hr). rewrite E.
  cbn [mbind option_bind]. destruct r as [d|e]; [|by eexists _, _, _]. destruct Hr as (n & -> & Hreq & Hinv).
  destruct (drive_sound hash Hhash (start + timeout) _ _ _ rounds d [] [] Hinv (Hh d E)) as (out & d' & w & -> & Hpre & Ho). cbn [mbind option_bind app] in *.
  eexists _, _, _. split; [reflexivity|]. split; [intros _; by exists n|]. intros all Eall. destruct out as [[lo|]|]; try done.
  injection Eall as <-. destruct (Ho lo eq_refl) as (-> & Hw & lines & resp & msg & Hm & Hb & Hu & He).
  by exists n, d, lines, resp, msg, (leftover_ d').
Qed.

(** ** A handshake that goes through *)

(** The extensions of a cooperating server: none, or the one that was offered. *)
Definition extensions_taken (ext : option (list byte)) (before after : option WsHandshakeDeflate) : Prop :=
  ext = None /\ after = before \/
  exists df, before = Some df /\ df_request df = true /\ ext = Some (text "permessage-deflate") /\ after = Some (set_negotiated true df).

(** A send that takes some bytes or would block; a receive of some bytes or none; the clock after it. *)
Definition send_round (x : option Z * Z) : sink * Z :=
  (mkSink (match x.1 with Some n => Ok n | None => Err WouldBlock end) (Err WouldBlock), x.2).
Definition recv_round (x : list byte * Z) : sink * Z := (mkSink (Err WouldBlock) (Ok x.1), x.2).

Definition taken (x : option Z * Z) : Z := match x.1 with Some n => n | None => 0 end.
Definition total_taken (sends : list (option Z * Z)) : Z := foldr Z.add 0 (map taken sends).
Definition progresses (x : option Z * Z) : Prop := match x.1 with Some n => 0 < n | None => True end.

Lemma negotiate_taken ext d df : extensions_taken ext (deflate_ d) df -> negotiate ext d = Some (true, set_deflate df d).
Proof.
  unfold negotiate. intros [[-> ->]|(x & -> & Hr & -> & ->)]; [by destruct d|]. rewrite Hr. cbn [negb].
  assert (extension_list (length (text "permessage-deflate")) (text "permessage-deflate") false x = Some (Some true, set_negotiated true x)) as -> by (by vm_compute).
  done.
Qed.

Lemma total_taken_nonneg sends : Forall progresses sends -> 0 <= total_taken sends.
Proof. induction 1 as [|[[n|] t] l H _ IH]; unfold total_taken in *; cbn in *; lia. Qed.

Section completes.
Context (hash : list byte) (hash_len : zlen hash = 64) (request key : list byte) (deflate : option WsHandshakeDeflate) (deadline : Z).

Lemma validate_complete resp consumed d df : upgrades (client_key_ d) resp ->
  extensions_taken (ws_find_header (rs_headers resp) (text "Sec-WebSocket-Extensions")) (deflate_ d) df ->
  0 <= consumed <= rx_len_ d -> rx_len_ d <= zlen (rx_ d) -> leftover_ d = [] ->
  exists d', validate_ hash (resp, consumed) d = Some (Ok true, d') /\ deflate_ d' = df /\
    leftover_ d' = drop (Z.to_nat consumed) (take (Z.to_nat (rx_len_ d)) (rx_ d)).
Proof using hash_len.
  intros [H101 (u & Eu & Hu) (c & Ec & Hc) Ha] Hext Hcs Hrx Hlo.
  enough (exists d', validate_ hash (resp, consumed) d = Some (Ok true, d') /\ deflate_ d' = df) as (d' & E & Ed).
  { exists d'. split_and!; [done|done|]. destruct (validate_sound hash hash_len resp consumed d Hcs Hrx Hlo) as (r & d2 & E2 & _ & Hv).
    rewrite E in E2. injection E2 as <- <-. by apply Hv. }
  apply (connection_spec (S (length c))) in Hc; [|lia].
  unfold validate_. rewrite H101, Eu, Hu, Ec. cbn [negb Z.eqb Pos.eqb]. unfold ws_connection_has_upgrade. rewrite Hc. cbn [mbind option_bind negb].
  rewrite Ha, (proj1 (compute_accept hash _ hash_len)). cbn [mbind option_bind]. rewrite bool_decide_eq_true_2 by done. cbn [negb].
  rewrite (negotiate_taken _ _ _ Hext). cbn [mbind option_bind negb set_deflate rx_len_ rx_ leftover_ deflate_].
  destruct (consumed <? rx_len_ d); [rewrite slice_Some by lia|]; cbn [mbind option_bind]; by eexists.
Qed.

Lemma drive_sends more : forall sends d wire, hs_inv request key deflate d wire [] ->
  Forall progresses sends -> Forall (fun x => x.2 < deadline) sends -> total_taken sends = req_len_ d - sent_ d ->
  exists d' w, hs_inv request key deflate d' request [] /\ phase_ d' = Receiving /\ wire ++ w = request /\
    drive hash deadline (map send_round sends ++ more) d = ('(out, d, w') ← drive hash deadline more d'; Some (out, d, w ++ w')).
Proof using.
  induction sends as [|[[n|] now] sends IH]; intros d wire Hinv Hp Ht Hs.
  - change (total_taken []) with 0 in Hs. destruct (hi_phase _ _ _ _ _ _ Hinv) as [(_ & _ & ?)|[Ep Es]]; [lia|].
    assert (wire = request) as ->.
    { rewrite (hi_wire _ _ _ _ _ _ Hinv), Es, (hi_req_len _ _ _ _ _ _ Hinv). apply take_ge. unfold zlen. lia. }
    exists d, []. split_and!; try done; [by rewrite app_nil_r|]. cbn [map app]. by destruct (drive _ _ more d) as [[[? ?] ?]|].
  - apply list.Forall_cons in Hp as [Hn Hp]. apply list.Forall_cons in Ht as [Hnow Ht]. cbn in Hn, Hnow.
    pose proof (total_taken_nonneg _ Hp) as Hrest. change (total_taken ((Some n, now) :: sends)) with (n + total_taken sends) in Hs.
    destruct (hi_phase _ _ _ _ _ _ Hinv) as [(Ep & _ & Hlt)|[Ep Es]]; [|lia].
    destruct (sending_step hash (send_round (Some n, now)).1 _ _ _ _ _ _ Hinv Ep) as (r & d' & w & E & _ & Hr).
    { split; [|by rewrite Ep]. intros _ m [= <-]. lia. }
    assert (r = Ok false /\ req_len_ d' - sent_ d' = total_taken sends) as [-> Hs'].
    { unfold step in E. rewrite Ep in E. cbn [sk_send send_round fst] in E. destruct (Z.eqb_spec n 0); [lia|].
      destruct (slice _ _ _) as [x|]; [|done]. injection E as <- <- <-. cbn [req_len_ sent_]. split; [done|lia]. }
    cbn [map app drive send_round fst snd] in *. rewrite E. cbn [mbind option_bind]. rewrite (proj2 (Z.leb_gt _ _) Hnow).
    destruct (IH d' (wire ++ w) Hr Hp Ht ltac:(lia)) as (d2 & w2 & Hi2 & Ep2 & Ew & ->). exists d2, (w ++ w2).
    rewrite <- app_assoc in Ew. split_and!; try done. destruct (drive hash deadline more d2) as [[[? ?] w3]|]; [|done]. cbn [mbind option_bind]. by rewrite app_assoc.
  - apply list.Forall_cons in Hp as [_ Hp]. apply list.Forall_cons in Ht as [Hnow Ht]. cbn in Hnow.
    change (total_taken ((None, now) :: sends)) with (0 + total_taken sends) in Hs.
    destruct (IH d wire Hinv Hp Ht ltac:(lia)) as (d' & w & Hi & Ep' & Ew & E). exists d', w. split_and!; try done.
    cbn [map app drive send_round fst snd]. assert (step hash (mkSink (Err WouldBlock) (Err WouldBlock)) d = Some (Ok false, d, [])) as ->.
    { unfold step. destruct (hi_phase _ _ _ _ _ _ Hinv) as [(-> & _)|[-> _]]; [done|]. rewrite (hi_rx_len _ _ _ _ _ _ Hinv). done. }
    cbn [mbind option_bind]. rewrite (proj2 (Z.leb_gt _ _) Hnow), E. by destruct (drive hash deadline more d') as [[[? ?] ?]|].
Qed.

Lemma drive_recvs lines c rs v hs body msg more : let resp := mkResponse c rs v hs body in
  response_bytes kMaxHeaderCount lines resp msg -> Forall (fun l => zlen l < kMaxHeaderLineLength) lines -> zlen msg <= kRxSize ->
  forall recvs d heard q, hs_inv request key deflate d request heard -> phase_ d = Receiving ->
  Forall (fun x => x.2 < deadline) recvs -> msg = heard ++ concat (map fst recvs) ++ q -> q <> [] ->
  exists d', hs_inv request key deflate d' request (heard ++ concat (map fst recvs)) /\ phase_ d' = Receiving /\
    drive hash deadline (map recv_round recvs ++ more) d = drive hash deadline more d'.
Proof using.
  intros resp Hb Hlong Hfit. apply response_bytes_message in Hb.
  induction recvs as [|[bs now] recvs IH]; intros d heard q Hinv Ep Ht Hmsg Hq.
  { exists d. by rewrite app_nil_r. }
  apply list.Forall_cons in Ht as [Hnow Ht]. cbn [map concat fst snd] in *.
  assert (0 < zlen q) as Hq0 by (destruct q; [done|rewrite zlen_cons; pose proof (zlen_nonneg q); lia]).
  pose proof (zlen_nonneg bs) as Hb0. pose proof (zlen_nonneg (concat (map fst recvs))).
  assert (zlen heard + zlen bs < kRxSize) as Hroom by (rewrite Hmsg in Hfit; rewrite !zlen_app in Hfit; lia).
  assert (exists d', hs_inv request key deflate d' request (heard ++ bs) /\ phase_ d' = Receiving /\
    step hash (recv_round (bs, now)).1 d = Some (Ok false, d', [])) as (d' & Hinv' & Ep' & E).
  { destruct (Z.eq_dec (zlen bs) 0) as [H0|Hn].
    - assert (bs = []) as -> by (apply zlen_nil_inv; lia). exists d. rewrite app_nil_r. split_and!; try done.
      unfold step. rewrite Ep. by destruct (Z.eqb_spec (rx_len_ d) kRxSize); [rewrite (hi_rx_len _ _ _ _ _ _ Hinv) in *; lia|].
    - destruct (receiving_read hash (recv_round (bs, now)).1 bs _ _ _ _ _ _ Hinv Ep eq_refl) as (d' & Hi & Ep' & ->);
        [rewrite (hi_rx_len _ _ _ _ _ _ Hinv); lia|]. exists d'. split_and!; try done.
      rewrite response_as_message.
      rewrite (parse_message_partial _ _ parse_status_line_clean _ _ _ _ _ _ (heard ++ bs) (concat (map fst recvs) ++ q) Hb Hlong); [done| |].
      + by rewrite Hmsg, <- !app_assoc.
      + by destruct q, (concat _). }
  destruct (IH d' (heard ++ bs) q Hinv' Ep' Ht) as (d2 & Hi2 & Ep2 & E2); [by rewrite Hmsg, <- !app_assoc|done|].
  exists d2. rewrite <- app_assoc in Hi2. split_and!; try done. cbn [map app drive recv_round fst snd] in *. rewrite E.
  cbn [mbind option_bind]. rewrite (proj2 (Z.leb_gt _ _) Hnow), E2. by destruct (drive hash deadline more d2) as [[[? ?] ?]|].
Qed.
End completes.

(** C23: The opening handshake completes.  For every requestable upgrade: when the sink takes the
    request in any pieces, blocking in between, and then delivers a response of the grammar
    that agrees to the upgrade and chooses no extension or the offered permessage-deflate, cut
    into any pieces, with the last of them carrying the end of the response and any further
    bytes, all within the 8192 bytes of the buffer and before the deadline, then the handshake
    succeeds, having sent exactly the request, hands exactly the further bytes on and records
    what was negotiated. *)
Theorem ws_handshake_completes hash host ws_path extra deflate nonce start timeout leftover sends recvs final lines resp msg p q over df :
  zlen hash = 64 -> requestable host ws_path nonce extra deflate ->
  Forall progresses sends -> total_taken sends = zlen (upgrade_request host ws_path nonce extra deflate) ->
  response_bytes kMaxHeaderCount lines resp msg -> Forall (fun l => zlen l < kMaxHeaderLineLength) lines ->
  upgrades (base64_encode nonce) resp ->
  extensions_taken (ws_find_header (rs_headers resp) (text "Sec-WebSocket-Extensions")) deflate df ->
  concat (map fst recvs) = p -> msg = p ++ q -> q <> [] -> zlen (msg ++ over) <= kRxSize ->
  Forall (fun x => x.2 < start + timeout) sends -> Forall (fun x => x.2 < start + timeout) recvs ->
  perform_ws_handshake hash host ws_path extra deflate (Some nonce) start timeout leftover
    (map send_round sends ++ map recv_round recvs ++ [recv_round (q ++ over, final)]) =
  Some (Some (Ok (leftover ++ over)), df, upgrade_request host ws_path nonce extra deflate).
Proof.
  intros Hhash Hreq Hprog Htot Hb Hlong Hup Hext Hp Hmsg Hq Hfit Hts Htr. unfold perform_ws_handshake.
  destruct (create_spec host ws_path extra deflate (Some nonce)) as (r & -> & Hr). cbn [mbind option_bind].
  destruct r as [d|e]; [|destruct Hr as [_ Hr]; by destruct (Hr nonce eq_refl)]. destruct Hr as (n & [= <-] & _ & Hinv).
  assert (sent_ d = 0) as Hs0.
  { pose proof (hi_wire _ _ _ _ _ _ Hinv) as E. pose proof (hi_sent _ _ _ _ _ _ Hinv) as Hs. pose proof (hi_req_len _ _ _ _ _ _ Hinv) as Hl.
    apply (f_equal zlen) in E. rewrite zlen_take in E. change (zlen (@nil byte)) with 0 in E. lia. }
  destruct (drive_sends hash _ _ _ (start + timeout) (map recv_round recvs ++ [recv_round (q ++ over, final)]) sends d [] Hinv Hprog Hts)
    as (d1 & w & Hi1 & Ep1 & Ew & ->); [rewrite Htot, (hi_req_len _ _ _ _ _ _ Hinv); lia|]. cbn [app] in Ew. subst w.
  destruct resp as [c rs v hs body]. rewrite zlen_app in Hfit. pose proof (zlen_nonneg over) as Hov.
  destruct (drive_recvs hash _ _ _ (start + timeout) lines c rs v hs body msg [recv_round (q ++ over, final)] Hb Hlong ltac:(lia)
    recvs d1 [] q Hi1 Ep1 Htr) as (d2 & Hi2 & Ep2 & ->); [by rewrite Hp|done|]. cbn [app] in Hi2. rewrite Hp in Hi2.
  assert (0 < zlen q) as Hq0 by (destruct q; [done|rewrite zlen_cons; pose proof (zlen_nonneg q); lia]).
  cbn [drive recv_round fst snd].
  destruct (receiving_read hash (mkSink (Err WouldBlock) (Ok (q ++ over))) (q ++ over) _ _ _ _ _ _ Hi2 Ep2 eq_refl) as (d3 & Hi3 & _ & ->).
  { rewrite (hi_rx_len _ _ _ _ _ _ Hi2). rewrite Hmsg in Hfit. rewrite !zlen_app in *. lia. }
  rewrite app_assoc, <- Hmsg in *. rewrite response_as_message.
  rewrite (parse_message_complete _ _ parse_status_line_clean _ _ _ _ _ _ over (proj1 (response_bytes_message _ _ _ _ _ _ _ _) Hb)).
  cbn [mbind option_bind fmap option_fmap option_map map_ok response_of].
  destruct (parsed_leftover _ _ _ _ _ _ _ _ Hi3 eq_refl) as (Hc & Hrx & Hdrop).
  destruct (validate_complete hash Hhash (mkResponse c rs v hs body) (zlen msg) d3 df) as (d4 & -> & Hdf & Hlo); try done.
  - by rewrite (hi_key _ _ _ _ _ _ Hi3).
  - by rewrite (hi_deflate _ _ _ _ _ _ Hi3).
  - by rewrite (hi_leftover _ _ _ _ _ _ Hi3).
  - cbn [mbind option_bind]. by rewrite Hlo, Hdrop, Hdf, app_nil_r.
Qed.

(** ** Examples *)

Definition demo_nonce : list byte := text "the sample nonce".
Definition demo_deflate : option WsHandshakeDeflate := Some (mkDeflate true false false).
Definition demo_upgrade : list byte := upgrade_request (text "eph.io") (text "/ws") demo_nonce [] demo_deflate.

Definition demo_response_headers : list HttpHeader :=
  [mkHeader (text "upgrade") (text "WebSocket"); mkHeader (text "Connection") (text "keep-alive, Upgrade");
   mkHeader (text "Sec-WebSocket-Accept") (text "s3pPLMBiTxaQ9kYGzzhZRbK+xOo=");
   mkHeader (text "Sec-WebSocket-Extensions") (text "permessage-deflate")].

Definition demo_response : list byte := http_text (response_head 101 (text "Switching Protocols")) demo_response_headers [].
Definition demo_switched : HttpResponse := mkResponse 101 (text "Switching Protocols") 1 (map received demo_response_headers) [].

Definition demo_sends : list (option Z * Z) := [(Some 100, 1); (None, 2); (Some (zlen demo_upgrade - 100), 3)].
Definition demo_recvs : list (list byte * Z) := [(take 20 demo_response, 4); ([], 5); (take 50 (drop 20 demo_response), 6)].
Definition demo_last : list byte := drop 70 demo_response.

(** Refusing a second extension leaves the first one marked as negotiated. *)
Lemma refused_list_stays_negotiated s : exists s', extension_list 40 (text "permessage-deflate, foo") false s = Some (None, s') /\
  df_negotiated s' = true.
Proof. by eexists. Qed.

Lemma demo_response_bytes : response_bytes kMaxHeaderCount (map header_text demo_response_headers) demo_switched demo_response.
Proof.
  split; cbn [demo_switched rs_status_code rs_reason_phrase rs_version_minor rs_headers rs_body]; try done.
  - exists (text "101"), (SP :: text "Switching Protocols"). split_and!; try done; [by repeat constructor|by left].
  - by right.
  - apply (received_block kMaxHeaderCount demo_response_headers []); [|done|by repeat constructor].
    split_and!; [done|done|by repeat constructor].
  - split; [by repeat constructor|]. change (bodyless_status 101) with true. cbv iota. split; [done|]. exists 0.
    repeat (constructor; [intros H; by vm_compute in H|]). constructor.
Qed.

Lemma demo_upgrades : upgrades (base64_encode demo_nonce) demo_switched.
Proof.
  split; [done|by exists (text "WebSocket")| |vm_compute; reflexivity]. exists (text "keep-alive, Upgrade"). split; [vm_compute; reflexivity|].
  right. by left.
Qed.

Lemma ws_handshake_completes_witness :
  perform_ws_handshake (repeat x00 64) (text "eph.io") (text "/ws") [] demo_deflate (Some demo_nonce) 0 1000 (text "a")
    (map send_round demo_sends ++ map recv_round demo_recvs ++ [recv_round (demo_last ++ text "bc", 7)]) =
  Some (Some (Ok (text "a" ++ text "bc")), Some (mkDeflate true true false), demo_upgrade).
Proof.
  apply (ws_handshake_completes (repeat x00 64) (text "eph.io") (text "/ws") [] demo_deflate demo_nonce 0 1000 (text "a") demo_sends demo_recvs 7
    (map header_text demo_response_headers) demo_switched demo_response (take 70 demo_response) demo_last (text "bc")).
  - reflexivity.
  - split; [constructor|]. split; [|vm_compute; done]. split_and!; try done. by repeat constructor.
  - by repeat constructor.
  - vm_compute. reflexivity.
  - exact demo_response_bytes.
  - by repeat constructor.
  - exact demo_upgrades.
  - right. eexists. split; [reflexivity|]. split; [reflexivity|]. split; vm_compute; reflexivity.
  - vm_compute. reflexivity.
  - vm_compute. reflexivity.
  - by vm_compute.
  - vm_compute. done.
  - by repeat constructor.
  - by repeat constructor.
Defined.

Lemma ws_handshake_sound_witness : exists out df wire,
  perform_ws_handshake (repeat x00 64) (text "eph.io") (text "/ws") [] demo_deflate (Some demo_nonce) 0 1000 []
    (map send_round demo_sends) = Some (out, df, wire) /\ out = None /\
  (wire <> [] -> exists n, Some demo_nonce = Some n /\ requestable (text "eph.io") (text "/ws") n [] demo_deflate /\
     wire `prefix_of` upgrade_request (text "eph.io") (text "/ws") n [] demo_deflate).
Proof.
  destruct (ws_handshake_sound (repeat x00 64) (text "eph.io") (text "/ws") [] demo_deflate (Some demo_nonce) 0 1000 []
    (map send_round demo_sends)) as (out & df & wire & E & Hw & _).
  - reflexivity.
  - intros d Hd. vm_compute in Hd. injection Hd as <-. 
    repeat (split; [split; intros Hph k Hk; vm_compute in Hk; try discriminate; injection Hk as <-; vm_compute; split; discriminate|
      intros r d' w Hs; vm_compute in Hs; injection Hs as <- <- <-]). exact I.
  - exists out, df, wire. split; [exact E|]. split; [|exact Hw]. vm_compute in E. congruence.
Defined.
