(* ===== verification/QueueAllocator.v ===== *)
(** * The queue-pair allocator of the daemon

    detail/queue_allocator.hpp of eph-net-dpdk: the pool of queues of a NIC, kept as a bitmap and
    a generation per queue in shared memory.  [claim] takes the first run of free queues that is
    long enough, [release] gives a range back if every queue of it is still held under the
    generation of the claim.

    Array accesses are partial: an index outside [bitmap] or [claim_gen] is [None], and the
    theorems show that it does not occur.  Both operations run under the mutex of the header,
    except that [release] compares the generation before it takes it; [alloc_step] interleaves
    these parts. *)

From Stdlib Require Import (notations) Strings.String.
From S2P Require Import Prelude Http.

#[local] Open Scope Z_scope.

(** ** The shared header *)

Record QueueRange := mkRange { lo : Z; hi : Z; range_generation : Z }.

Definition range_count (r : QueueRange) : Z := u16 (hi r - lo r).
Definition range_empty (r : QueueRange) : bool := hi r <=? lo r.

Definition kMaxAllocatorQueues : Z := 256.
Definition kMagic : Z := 0x51414c43.
Definition kVersion : Z := 3.

Record Header := mkHeader {
  magic : Z; version : Z; total_queues : Z;
  bitmap : list Z; claim_gen : list Z;
  generation : Z; stale_releases : Z }.

Definition with_bitmap (h : Header) (b : list Z) : Header :=
  mkHeader (magic h) (version h) (total_queues h) b (claim_gen h) (generation h) (stale_releases h).
Definition with_claim_gen (h : Header) (g : list Z) : Header :=
  mkHeader (magic h) (version h) (total_queues h) (bitmap h) g (generation h) (stale_releases h).
Definition with_generation (h : Header) (g : Z) : Header :=
  mkHeader (magic h) (version h) (total_queues h) (bitmap h) (claim_gen h) g (stale_releases h).

(** [stale_releases.fetch_add(1)]. *)
Definition count_stale (h : Header) : Header :=
  mkHeader (magic h) (version h) (total_queues h) (bitmap h) (claim_gen h) (generation h) (u64 (stale_releases h + 1)).

(** Results: a value, or the text of an error. *)
Definition expected (A : Type) : Type := list byte + A.

(** The codes returned by [pthread_mutexattr_init], [pthread_mutexattr_setpshared] and
    [pthread_mutex_init]. *)
Record MutexRc := mkMutexRc { rc_attr : Z; rc_shared : Z; rc_mutex : Z }.

Definition init_header (rc : MutexRc) (total : Z) : expected Header :=
  if negb (rc_attr rc =? 0) then inl (text "QueueAllocator: pthread_mutexattr_init failed") else
  if negb (rc_shared rc =? 0) then
    inl (text "QueueAllocator: pthread_mutexattr_setpshared(PROCESS_SHARED) failed — cross-process mutex sharing is unsupported on this platform (would silently fall back to PROCESS_PRIVATE and race with secondaries)") else
  if negb (rc_mutex rc =? 0) then inl (text "QueueAllocator: pthread_mutex_init failed") else
  inr (mkHeader kMagic kVersion total
         (replicate (Z.to_nat (kMaxAllocatorQueues / 64)) 0) (replicate (Z.to_nat kMaxAllocatorQueues) 0) 0 0).

(** ** One queue *)

Definition bit_is_set (h : Header) (i : Z) : option bool :=
  w ← bitmap h !! Z.to_nat (i / 64); Some (negb (Z.land (Z.shiftr w (i mod 64)) 1 =? 0)).

Definition set_bit (h : Header) (i : Z) : option Header :=
  w ← bitmap h !! Z.to_nat (i / 64);
  Some (with_bitmap h (<[Z.to_nat (i / 64) := Z.lor w (u64 (Z.shiftl 1 (i mod 64)))]> (bitmap h))).

Definition clear_bit (h : Header) (i : Z) : option Header :=
  w ← bitmap h !! Z.to_nat (i / 64);
  Some (with_bitmap h (<[Z.to_nat (i / 64) := Z.land w (u64 (Z.lnot (Z.shiftl 1 (i mod 64))))]> (bitmap h))).

(** [claim_gen[j] = gen]. *)
Definition stamp (h : Header) (j gen : Z) : option Header :=
  _ ← claim_gen h !! Z.to_nat j; Some (with_claim_gen h (<[Z.to_nat j := gen]> (claim_gen h))).

(** ** Claim *)

(** The first-fit scan over the remaining [n] queues; the result is [run_start] of the run. *)
Fixpoint scan (n : nat) (h : Header) (count i run_start run_len : Z) : option (option Z) :=
  match n with
  | O => Some None
  | S n =>
      b ← bit_is_set h i;
      if b : bool then scan n h count (i + 1) (u16 (i + 1)) 0 else
      let run_len := u16 (run_len + 1) in
      if count <=? run_len then Some (Some run_start) else scan n h count (i + 1) run_start run_len
  end.

(** The loop that marks [n] queues from [j]. *)
Fixpoint mark (n : nat) (j gen : Z) (h : Header) : option Header :=
  match n with
  | O => Some h
  | S n => h ← set_bit h j; h ← stamp h j gen; mark n (j + 1) gen h
  end.

Definition QueuePoolExhausted : list byte := text "QueuePoolExhausted".

(** [claim], with the section under the mutex. *)
Definition claim (count : Z) (h : Header) : option (expected QueueRange * Header) :=
  if count =? 0 then Some (inl (text "QueueAllocator::claim: count must be >= 1"), h) else
  if total_queues h <? count then Some (inl QueuePoolExhausted, h) else
  found ← scan (Z.to_nat (total_queues h)) h count 0 0 0;
  match found with
  | None => Some (inl QueuePoolExhausted, h)
  | Some run_start =>
      let hi := u16 (run_start + count) in
      let gen := u64 (generation h + 1) in
      h ← mark (Z.to_nat (hi - run_start)) run_start gen (with_generation h gen);
      Some (inr (mkRange run_start hi gen), h)
  end.

(** ** Release *)

(** What [release] does before it takes the mutex: [inl] if it returns, [inr] if it goes on. *)
Definition release_check (r : QueueRange) (h : Header) : Header + unit :=
  if range_empty r then inl h else
  if total_queues h <? hi r then inl (count_stale h) else
  if generation h <? range_generation r then inl (count_stale h) else inr tt.

(** The stale test: every queue of the range claimed, under the generation of the caller. *)
Fixpoint fresh (n : nat) (j gen : Z) (h : Header) : option bool :=
  match n with
  | O => Some true
  | S n =>
      b ← bit_is_set h j;
      if negb b then Some false else
      g ← claim_gen h !! Z.to_nat j;
      if negb (g =? gen) then Some false else fresh n (j + 1) gen h
  end.

Fixpoint unmark (n : nat) (j : Z) (h : Header) : option Header :=
  match n with
  | O => Some h
  | S n => h ← clear_bit h j; unmark n (j + 1) h
  end.

(** The section under the mutex and the counting of a stale release after it. *)
Definition release_locked (r : QueueRange) (h : Header) : option Header :=
  ok ← fresh (Z.to_nat (hi r - lo r)) (lo r) (range_generation r) h;
  if negb ok then Some (count_stale h) else unmark (Z.to_nat (hi r - lo r)) (lo r) h.

Definition release (r : QueueRange) (h : Header) : option Header :=
  match release_check r h with inl h => Some h | inr _ => release_locked r h end.

(** ** Diagnostics *)

Fixpoint free_loop (n : nat) (i count : Z) (h : Header) : option Z :=
  match n with
  | O => Some count
  | S n => b ← bit_is_set h i; free_loop n (i + 1) (if b : bool then count else u16 (count + 1)) h
  end.

Definition free_queues_unlocked_ (h : Header) : option Z := free_loop (Z.to_nat (total_queues h)) 0 0 h.

Fixpoint run_loop (n : nat) (i best cur : Z) (h : Header) : option Z :=
  match n with
  | O => Some best
  | S n =>
      b ← bit_is_set h i;
      if b : bool then run_loop n (i + 1) best 0 h else
      let cur := u16 (cur + 1) in run_loop n (i + 1) (if best <? cur then cur else best) cur h
  end.

Definition largest_free_run_unlocked_ (h : Header) : option Z := run_loop (Z.to_nat (total_queues h)) 0 0 0 h.

Definition owned_queues_bitmap (h : Header) : option Z := bitmap h !! 0%nat.

Record PoolState := mkPoolState { ps_total : Z; ps_free : Z; ps_largest_free_run : Z; ps_generation : Z; ps_stale_releases : Z }.

Definition dump (h : Header) : option PoolState :=
  free ← free_queues_unlocked_ h;
  run ← largest_free_run_unlocked_ h;
  Some (mkPoolState (total_queues h) free run (generation h) (stale_releases h)).

(** ** Creation *)

Definition build_allocator_memzone_name (file_prefix : list byte) : expected (list byte) :=
  if zlen file_prefix =? 0 then inl (text "QueueAllocator: file_prefix must be non-empty") else
  if 20 <? zlen file_prefix then inl (text "QueueAllocator: file_prefix > 20 bytes (memzone name overflow)") else
  inr (text "eph_qalloc/" ++ file_prefix).

(** [reserved]: whether the EAL reserves the memory zone of that name (a zone left by an earlier
    daemon is freed first); [rc]: the codes of the mutex calls. *)
Definition create_primary (reserved : list byte -> bool) (rc : MutexRc) (file_prefix : list byte) (total : Z) : expected Header :=
  if (total =? 0) || (kMaxAllocatorQueues <? total) then
    inl (text "QueueAllocator::create_primary: total_queues out of range") else
  match build_allocator_memzone_name file_prefix with
  | inl e => inl e
  | inr name =>
      if negb (reserved name) then inl (text "QueueAllocator::create_primary: memzone reserve failed") else
      init_header rc total
  end.

(** [zone]: the memory zone of a name, as the EAL finds it. *)
Definition attach_secondary (zone : list byte -> option Header) (file_prefix : list byte) : expected Header :=
  match build_allocator_memzone_name file_prefix with
  | inl e => inl e
  | inr name =>
      match zone name with
      | None => inl (text "QueueAllocator::attach_secondary: memzone not found")
      | Some h =>
          if negb (magic h =? kMagic) then inl (text "QueueAllocator::attach_secondary: header magic mismatch") else
          if negb (version h =? kVersion) then inl (text "QueueAllocator::attach_secondary: header version mismatch") else
          inr h
      end
  end.

(** ** The abstract pool

    A queue is free or held under the generation of a claim. *)

Record pool := mkPool { holders : list (option Z); claims : Z; rejected : Z }.

Definition held (p : pool) (i gen : Z) : Prop := 0 <= i /\ holders p !! Z.to_nat i = Some (Some gen).

(** [n] free queues from [start]. *)
Definition is_free (o : option Z) : bool := match o with None => true | Some _ => false end.
Definition free_run (hs : list (option Z)) (start n : nat) : bool :=
  (start + n <=? length hs)%nat && forallb is_free (take n (drop start hs)).

Definition first_fit (hs : list (option Z)) (n : nat) : option nat := find (fun s => free_run hs s n) (seq 0 (length hs)).

(** [n] entries from [start] replaced by [o]. *)
Definition assign (hs : list (option Z)) (start n : nat) (o : option Z) : list (option Z) :=
  take start hs ++ replicate n o ++ drop (start + n) hs.

Definition pool_claim (count : Z) (p : pool) : expected QueueRange * pool :=
  if count =? 0 then (inl (text "QueueAllocator::claim: count must be >= 1"), p) else
  match first_fit (holders p) (Z.to_nat count) with
  | None => (inl QueuePoolExhausted, p)
  | Some s =>
      let g := claims p + 1 in
      (inr (mkRange (Z.of_nat s) (Z.of_nat s + count) g), mkPool (assign (holders p) s (Z.to_nat count) (Some g)) g (rejected p))
  end.

Definition all_held (hs : list (option Z)) (start n : nat) (g : Z) : bool :=
  (start + n <=? length hs)%nat && forallb (fun o => bool_decide (o = Some g)) (take n (drop start hs)).

Definition pool_release (r : QueueRange) (p : pool) : pool :=
  if hi r <=? lo r then p else
  if all_held (holders p) (Z.to_nat (lo r)) (Z.to_nat (hi r - lo r)) (range_generation r)
  then mkPool (assign (holders p) (Z.to_nat (lo r)) (Z.to_nat (hi r - lo r)) None) (claims p) (rejected p)
  else mkPool (holders p) (claims p) (rejected p + 1).

(** ** Bits of the bitmap *)

(** Queue [i] is claimed, the generation of its last claim, its holder. *)
Definition claimed (h : Header) (i : Z) : bool := Z.testbit (nth (Z.to_nat (i / 64)) (bitmap h) 0) (i mod 64).
Definition gen_at (h : Header) (i : Z) : Z := nth (Z.to_nat i) (claim_gen h) 0.
Definition holder (h : Header) (i : Z) : option Z := if claimed h i then Some (gen_at h i) else None.

Definition view (h : Header) : list (option Z) := map (fun i => holder h (Z.of_nat i)) (seq 0 (Z.to_nat (total_queues h))).
Definition pool_of (h : Header) : pool := mkPool (view h) (generation h) (stale_releases h).

(** The shape of the shared memory, and the generations in use. *)
Record shaped (h : Header) : Prop := {
  sh_bitmap : zlen (bitmap h) = 4;
  sh_gens : zlen (claim_gen h) = 256;
  sh_total : 0 < total_queues h <= 256;
  sh_generation : 0 <= generation h;
  sh_stale : 0 <= stale_releases h;
  sh_words : Forall (fun w => 0 <= w < 2 ^ 64) (bitmap h);
  sh_held : forall i, 0 <= i < 256 -> claimed h i = true -> 1 <= gen_at h i <= generation h }.

Lemma word_lookup h i : zlen (bitmap h) = 4 -> 0 <= i < 256 ->
  bitmap h !! Z.to_nat (i / 64) = Some (nth (Z.to_nat (i / 64)) (bitmap h) 0).
Proof.
  intros Hl Hi. rewrite nth_lookup. destruct (lookup_lt_is_Some_2 (bitmap h) (Z.to_nat (i / 64))) as [w ->]; [|done].
  unfold zlen in Hl. pose proof (Z.div_lt_upper_bound i 64 4). pose proof (Z.div_pos i 64). lia.
Qed.

Lemma gen_lookup h i : zlen (claim_gen h) = 256 -> 0 <= i < 256 -> claim_gen h !! Z.to_nat i = Some (gen_at h i).
Proof.
  intros Hl Hi. unfold gen_at. rewrite nth_lookup. destruct (lookup_lt_is_Some_2 (claim_gen h) (Z.to_nat i)) as [w ->]; [|done].
  unfold zlen in Hl. lia.
Qed.

Lemma land_1_testbit w k : 0 <= k -> negb (Z.land (Z.shiftr w k) 1 =? 0) = Z.testbit w k.
Proof.
  intros Hk. change 1 with (Z.ones 1). rewrite Z.land_ones by lia. rewrite <- (Z.add_0_l k) at 2.
  rewrite <- Z.shiftr_spec, Z.bit0_odd by lia.
  change (2 ^ 1) with 2. rewrite Zmod_odd. by destruct (Z.odd _).
Qed.

Lemma bit_is_set_ok h i : zlen (bitmap h) = 4 -> 0 <= i < 256 -> bit_is_set h i = Some (claimed h i).
Proof.
  intros Hl Hi. unfold bit_is_set. rewrite word_lookup by done. cbn [mbind option_bind].
  rewrite land_1_testbit by (apply Z.mod_pos_bound; lia). done.
Qed.

Lemma bit_pos i : 0 <= i mod 64 < 64.
Proof. apply Z.mod_pos_bound. lia. Qed.

Lemma testbit_one k j : 0 <= k < 64 -> 0 <= j < 64 -> Z.testbit (u64 (Z.shiftl 1 k)) j = (k =? j).
Proof.
  intros Hk Hj. unfold wrap. rewrite Z.mod_pow2_bits_low, Z.shiftl_1_l, Z.pow2_bits_eqb by lia. done.
Qed.

Lemma testbit_not_one k j : 0 <= k < 64 -> 0 <= j < 64 -> Z.testbit (u64 (Z.lnot (Z.shiftl 1 k))) j = negb (k =? j).
Proof.
  intros Hk Hj. unfold wrap. rewrite Z.mod_pow2_bits_low, Z.lnot_spec, Z.shiftl_1_l, Z.pow2_bits_eqb by lia. done.
Qed.

Lemma lor_range n a b : 0 <= n -> 0 <= a < 2 ^ n -> 0 <= b < 2 ^ n -> 0 <= Z.lor a b < 2 ^ n.
Proof.
  intros Hn [Ha Ha'] [Hb Hb']. assert (0 <= Z.lor a b) by (by apply Z.lor_nonneg). split; [done|].
  destruct (Z.eq_dec (Z.lor a b) 0) as [->|]; [by apply Z.pow_pos_nonneg|]. apply Z.log2_lt_pow2; [lia|]. rewrite Z.log2_lor by done.
  apply Z.max_lub_lt.
  - destruct (Z.eq_dec a 0) as [->|]; [|apply Z.log2_lt_pow2; lia]. destruct (Z.eq_dec n 0) as [->|]; [|cbn; lia].
    assert (b = 0) by (change (2 ^ 0) with 1 in *; lia). by subst.
  - destruct (Z.eq_dec b 0) as [->|]; [|apply Z.log2_lt_pow2; lia]. destruct (Z.eq_dec n 0) as [->|]; [|cbn; lia].
    assert (a = 0) by (change (2 ^ 0) with 1 in *; lia). by subst.
Qed.

Lemma land_range n a b : 0 <= n -> 0 <= a < 2 ^ n -> 0 <= Z.land a b < 2 ^ n.
Proof.
  intros Hn Ha. rewrite <- (Z.mod_small a (2 ^ n)), <- Z.land_ones by lia.
  rewrite <- Z.land_assoc, (Z.land_comm _ b), Z.land_assoc, Z.land_ones by lia. apply Z.mod_pos_bound. by apply Z.pow_pos_nonneg.
Qed.

(** Replacing the word of queue [i] changes the bits of its own 64 queues only. *)
Lemma claimed_insert h i w k : zlen (bitmap h) = 4 -> 0 <= i < 256 -> 0 <= k < 256 ->
  claimed (with_bitmap h (<[Z.to_nat (i / 64) := w]> (bitmap h))) k =
  if i / 64 =? k / 64 then Z.testbit w (k mod 64) else claimed h k.
Proof.
  intros Hl Hi Hk. unfold claimed. cbn [bitmap with_bitmap]. rewrite !nth_lookup.
  pose proof (Z.div_lt_upper_bound i 64 4). pose proof (Z.div_pos i 64). pose proof (Z.div_pos k 64). unfold zlen in Hl.
  destruct (Z.eqb_spec (i / 64) (k / 64)) as [<-|Hn].
  - by rewrite list_lookup_insert_eq by lia.
  - by rewrite list_lookup_insert_ne by lia.
Qed.

Lemma same_queue i k : (i / 64 =? k / 64) && (i mod 64 =? k mod 64) = (i =? k).
Proof.
  pose proof (Z.div_mod i 64). pose proof (Z.div_mod k 64).
  destruct (Z.eqb_spec (i / 64) (k / 64)), (Z.eqb_spec (i mod 64) (k mod 64)), (Z.eqb_spec i k); cbn; try done; exfalso; subst; lia.
Qed.

(** [h'] differs from [h] in the bits and generations as [b] and [g] say, and has its shape. *)
Record updated (h h' : Header) (b : Z -> bool) (g : Z -> Z) : Prop := {
  up_bitmap : zlen (bitmap h') = 4;
  up_gens : zlen (claim_gen h') = 256;
  up_words : Forall (fun w => 0 <= w < 2 ^ 64) (bitmap h');
  up_total : total_queues h' = total_queues h;
  up_generation : generation h' = generation h;
  up_stale : stale_releases h' = stale_releases h;
  up_claimed : forall k, 0 <= k < 256 -> claimed h' k = b k;
  up_gen : forall k, 0 <= k < 256 -> gen_at h' k = g k }.

Lemma updated_refl h : shaped h -> updated h h (claimed h) (gen_at h).
Proof. intros []. by split. Qed.

Lemma updated_trans h1 h2 h3 b g b' g' : updated h1 h2 b g -> updated h2 h3 b' g' -> updated h1 h3 b' g'.
Proof. intros [] []. split; congruence || done. Qed.

Lemma insert_words h i w : zlen (bitmap h) = 4 -> Forall (fun w => 0 <= w < 2 ^ 64) (bitmap h) -> 0 <= w < 2 ^ 64 ->
  zlen (<[i := w]> (bitmap h)) = 4 /\ Forall (fun w => 0 <= w < 2 ^ 64) (<[i := w]> (bitmap h)).
Proof. intros Hl Hf Hw. unfold zlen in *. rewrite length_insert. split; [done|]. by apply Forall_insert. Qed.

Lemma word_range h i : zlen (bitmap h) = 4 -> Forall (fun w => 0 <= w < 2 ^ 64) (bitmap h) -> 0 <= i < 256 ->
  0 <= nth (Z.to_nat (i / 64)) (bitmap h) 0 < 2 ^ 64.
Proof. intros Hl Hf Hi. eapply (Forall_lookup_1 _ _ _ _ Hf), word_lookup; done. Qed.

Lemma set_bit_ok h i : zlen (bitmap h) = 4 -> zlen (claim_gen h) = 256 -> Forall (fun w => 0 <= w < 2 ^ 64) (bitmap h) -> 0 <= i < 256 ->
  exists h', set_bit h i = Some h' /\ updated h h' (fun k => (i =? k) || claimed h k) (gen_at h).
Proof.
  intros Hl Hg Hf Hi. unfold set_bit. rewrite word_lookup by done. cbn [mbind option_bind]. eexists. split; [done|].
  pose proof (word_range h i Hl Hf Hi) as Hw. set (w := nth _ _ _) in *. pose proof (bit_pos i).
  assert (0 <= Z.lor w (u64 (Z.shiftl 1 (i mod 64))) < 2 ^ 64) as Hr.
  { pose proof (wrap_range 64 (Z.shiftl 1 (i mod 64))). apply lor_range; lia. }
  destruct (insert_words h (Z.to_nat (i / 64)) _ Hl Hf Hr). split; try done.
  intros k Hk. rewrite claimed_insert by done. rewrite Z.lor_spec, testbit_one by (apply bit_pos || done).
  rewrite <- (same_queue i k). unfold claimed, w. destruct (Z.eqb_spec (i / 64) (k / 64)) as [->|]; [|done]. by rewrite orb_comm.
Qed.

Lemma clear_bit_ok h i : zlen (bitmap h) = 4 -> zlen (claim_gen h) = 256 -> Forall (fun w => 0 <= w < 2 ^ 64) (bitmap h) -> 0 <= i < 256 ->
  exists h', clear_bit h i = Some h' /\ updated h h' (fun k => negb (i =? k) && claimed h k) (gen_at h).
Proof.
  intros Hl Hg Hf Hi. unfold clear_bit. rewrite word_lookup by done. cbn [mbind option_bind]. eexists. split; [done|].
  pose proof (word_range h i Hl Hf Hi) as Hw. set (w := nth _ _ _) in *. pose proof (bit_pos i).
  assert (0 <= Z.land w (u64 (Z.lnot (Z.shiftl 1 (i mod 64)))) < 2 ^ 64) as Hr by (apply land_range; lia).
  destruct (insert_words h (Z.to_nat (i / 64)) _ Hl Hf Hr). split; try done.
  intros k Hk. rewrite claimed_insert by done. rewrite Z.land_spec, testbit_not_one by (apply bit_pos || done).
  rewrite <- (same_queue i k). unfold claimed, w. destruct (Z.eqb_spec (i / 64) (k / 64)) as [->|]; [|done]. by rewrite andb_comm.
Qed.

Lemma stamp_ok h j g : zlen (bitmap h) = 4 -> zlen (claim_gen h) = 256 -> Forall (fun w => 0 <= w < 2 ^ 64) (bitmap h) -> 0 <= j < 256 ->
  exists h', stamp h j g = Some h' /\ updated h h' (claimed h) (fun k => if j =? k then g else gen_at h k).
Proof.
  intros Hl Hg Hf Hj. unfold stamp. rewrite gen_lookup by done. cbn [mbind option_bind]. eexists. split; [done|].
  split; try done; cbn; unfold zlen in *; [by rewrite length_insert|]. intros k Hk. unfold gen_at. cbn. rewrite !nth_lookup.
  destruct (Z.eqb_spec j k) as [<-|]; [by rewrite list_lookup_insert_eq by lia | by rewrite list_lookup_insert_ne by lia].
Qed.

(** ** Loops over a range *)

Definition in_run (j n k : Z) : bool := (j <=? k) && (k <? j + n).

Ltac runs := unfold in_run; zbool; cbn [andb orb negb]; try done; exfalso; lia.

Lemma mark_ok n : forall h j g, zlen (bitmap h) = 4 -> zlen (claim_gen h) = 256 -> Forall (fun w => 0 <= w < 2 ^ 64) (bitmap h) ->
  0 <= j -> j + Z.of_nat n <= 256 ->
  exists h', mark n j g h = Some h' /\
    updated h h' (fun k => in_run j (Z.of_nat n) k || claimed h k) (fun k => if in_run j (Z.of_nat n) k then g else gen_at h k).
Proof.
  induction n as [|n IH]; intros h j g Hl Hg Hf Hj Hn.
  - exists h. split; [done|]. split; try done; intros k Hk; runs.
  - destruct (set_bit_ok h j Hl Hg Hf) as (h1 & E1 & U1); [lia|].
    destruct (stamp_ok h1 j g) as (h2 & E2 & U2); [apply U1..|lia|].
    destruct (IH h2 (j + 1) g) as (h3 & E3 & U3); [apply U2..|lia|lia|].
    exists h3. split; [cbn [mark]; rewrite E1; cbn [mbind option_bind]; rewrite E2; cbn [mbind option_bind]; exact E3|].
    pose proof (updated_trans _ _ _ _ _ _ _ (updated_trans _ _ _ _ _ _ _ U1 U2) U3) as U. destruct U. split; try done.
    + intros k Hk. rewrite up_claimed0, (up_claimed _ _ _ _ U2), (up_claimed _ _ _ _ U1) by done.
      runs.
    + intros k Hk. rewrite up_gen0, (up_gen _ _ _ _ U2), (up_gen _ _ _ _ U1) by done.
      runs.
Qed.

Lemma unmark_ok n : forall h j, zlen (bitmap h) = 4 -> zlen (claim_gen h) = 256 -> Forall (fun w => 0 <= w < 2 ^ 64) (bitmap h) ->
  0 <= j -> j + Z.of_nat n <= 256 ->
  exists h', unmark n j h = Some h' /\ updated h h' (fun k => negb (in_run j (Z.of_nat n) k) && claimed h k) (gen_at h).
Proof.
  induction n as [|n IH]; intros h j Hl Hg Hf Hj Hn.
  - exists h. split; [done|]. split; try done; intros k Hk; runs.
  - destruct (clear_bit_ok h j Hl Hg Hf) as (h1 & E1 & U1); [lia|].
    destruct (IH h1 (j + 1)) as (h2 & E2 & U2); [apply U1..|lia|lia|].
    exists h2. split; [cbn [unmark]; rewrite E1; cbn [mbind option_bind]; exact E2|].
    pose proof (updated_trans _ _ _ _ _ _ _ U1 U2) as U. destruct U. split; try done.
    + intros k Hk. rewrite up_claimed0, (up_claimed _ _ _ _ U1) by done. runs.
    + intros k Hk. by rewrite up_gen0, (up_gen _ _ _ _ U1).
Qed.

(** ** The view *)

Lemma length_view h : length (view h) = Z.to_nat (total_queues h).
Proof. unfold view. by rewrite length_map, length_seq. Qed.

Lemma view_lookup h i : 0 <= i < total_queues h -> view h !! Z.to_nat i = Some (holder h i).
Proof.
  intros Hi. unfold view. rewrite list_lookup_fmap, lookup_seq_lt by lia. cbn. by rewrite Z2Nat.id by lia.
Qed.

Lemma view_ext h (l : list (option Z)) : 0 <= total_queues h -> length l = Z.to_nat (total_queues h) ->
  (forall i, 0 <= i < total_queues h -> l !! Z.to_nat i = Some (holder h i)) -> view h = l.
Proof.
  intros Ht Hl H. apply list_eq. intros i. destruct (decide (i < length l)%nat) as [Hi|Hi].
  - rewrite <- (Nat2Z.id i), H by lia. apply view_lookup. lia.
  - rewrite !lookup_ge_None_2; [done|lia|rewrite length_view; lia].
Qed.

Lemma run_forallb_list (P : option Z -> bool) hs (s n : nat) :
  ((s + n <=? length hs)%nat && forallb P (take n (drop s hs)) = true <->
   (s + n <= length hs)%nat /\ forall k, (s <= k < s + n)%nat -> exists o, hs !! k = Some o /\ P o = true).
Proof.
  rewrite andb_true_iff, Nat.leb_le, forallb_forall. split; intros [Hn H]; (split; [done|]); revert H.
  - intros H k Hk. destruct (lookup_lt_is_Some_2 hs k) as [o Ho]; [lia|]. exists o. split; [done|]. apply H, list_elem_of_In.
    apply list_elem_of_lookup_2 with (k - s)%nat. rewrite lookup_take_lt, lookup_drop by lia. by replace (s + (k - s))%nat with k by lia.
  - intros H o Ho. apply list_elem_of_In, list_elem_of_lookup in Ho as [k Hk]. apply lookup_take_Some in Hk as [Hk Hkn].
    rewrite lookup_drop in Hk. destruct (H (s + k)%nat) as (o' & Ho' & Hp); [lia|]. congruence.
Qed.

Lemma run_forallb (P : option Z -> bool) h (s n : nat) :
  ((s + n <=? length (view h))%nat && forallb P (take n (drop s (view h))) = true <->
   Z.of_nat s + Z.of_nat n <= Z.max 0 (total_queues h) /\ forall i, Z.of_nat s <= i < Z.of_nat s + Z.of_nat n -> P (holder h i) = true).
Proof.
  rewrite run_forallb_list, length_view. split; intros [H1 H2]; (split; [lia|]).
  - intros i Hi. destruct (H2 (Z.to_nat i)) as (o & Ho & Hp); [lia|]. rewrite view_lookup in Ho by lia. congruence.
  - intros k Hk. exists (holder h (Z.of_nat k)). split; [|apply H2; lia]. rewrite <- (Nat2Z.id k) at 1. apply view_lookup. lia.
Qed.

Lemma assign_lookup hs (s n : nat) o (i : nat) : (s + n <= length hs)%nat -> (i < length hs)%nat ->
  assign hs s n o !! i = if bool_decide (s <= i < s + n)%nat then Some o else hs !! i.
Proof.
  intros Hn Hi. unfold assign. destruct (decide (i < s)%nat) as [H1|H1].
  - rewrite bool_decide_false by lia. rewrite lookup_app_l by (rewrite length_take; lia). by rewrite lookup_take_lt.
  - rewrite lookup_app_r by (rewrite length_take; lia). rewrite length_take, Nat.min_l by lia.
    destruct (decide (i < s + n)%nat) as [H2|H2].
    + rewrite bool_decide_true by lia. rewrite lookup_app_l by (rewrite length_replicate; lia). by rewrite lookup_replicate_2 by lia.
    + rewrite bool_decide_false by lia. rewrite lookup_app_r by (rewrite length_replicate; lia).
      rewrite length_replicate, lookup_drop. f_equal. lia.
Qed.

Lemma length_assign hs (s n : nat) o : (s + n <= length hs)%nat -> length (assign hs s n o) = length hs.
Proof. intros H. unfold assign. rewrite !length_app, length_take, length_replicate, length_drop. lia. Qed.

(** What the loops do to the view. *)
Lemma view_assign h h' (s n : Z) o : 0 <= s -> 0 <= n -> s + n <= total_queues h -> total_queues h <= 256 -> total_queues h' = total_queues h ->
  (forall k, 0 <= k < 256 -> holder h' k = if in_run s n k then o else holder h k) ->
  view h' = assign (view h) (Z.to_nat s) (Z.to_nat n) o.
Proof.
  intros Hs Hn Hb Ht E H. apply view_ext; [lia| |].
  - rewrite length_assign by (rewrite length_view; lia). rewrite length_view. by rewrite E.
  - intros i Hi. rewrite assign_lookup by (rewrite length_view; lia). rewrite view_lookup by lia. rewrite H by lia.
    unfold in_run. zbool; cbn [andb]; first [rewrite bool_decide_true by lia; done | rewrite bool_decide_false by lia; done].
Qed.

(** ** The first-fit scan *)

Lemma is_free_holder h i : is_free (holder h i) = negb (claimed h i).
Proof. unfold holder. by destruct (claimed h i). Qed.

Lemma free_run_spec h (s n : nat) : 0 < total_queues h ->
  free_run (view h) s n = true <->
  Z.of_nat s + Z.of_nat n <= total_queues h /\ forall i, Z.of_nat s <= i < Z.of_nat s + Z.of_nat n -> claimed h i = false.
Proof.
  intros Ht. unfold free_run. rewrite run_forallb, Z.max_r by lia. apply and_iff_compat_l. split; intros H i Hi; specialize (H i Hi); revert H;
    rewrite is_free_holder; by destruct (claimed h i).
Qed.

(** No run of [count] free queues ends at or before [i]. *)
Definition none_ends_before (h : Header) (count i : Z) : Prop :=
  forall s, 0 <= s -> s + count <= i -> exists k, s <= k < s + count /\ claimed h k = true.

(** The scan from [i], when the last run of free queues starts at [start] and is too short. *)
Lemma scan_run_spec n : forall h count i start, shaped h -> 0 < count -> 0 <= start <= i -> i + Z.of_nat n = total_queues h ->
  (forall k, start <= k < i -> claimed h k = false) -> i - start < count ->
  (start = 0 \/ claimed h (start - 1) = true) -> none_ends_before h count i ->
  exists r, scan n h count i start (i - start) = Some r /\
  match r with
  | None => none_ends_before h count (total_queues h)
  | Some s => 0 <= s /\ s + count <= total_queues h /\ (forall k, s <= k < s + count -> claimed h k = false) /\
      none_ends_before h count (s + count - 1)
  end.
Proof.
  induction n as [|n IH]; intros h count i start Hs Hc Hi Hn Hf Hl Hp Hb; cbn [scan].
  { exists None. split; [done|]. by replace (total_queues h) with i by lia. }
  destruct (sh_total _ Hs). rewrite bit_is_set_ok by (apply Hs || lia). cbn [mbind option_bind]. destruct (claimed h i) eqn:E.
  - rewrite wrap_small by lia. destruct (IH h count (i + 1) (i + 1) Hs) as (r & Er & Hr); try lia.
    + right. by replace (i + 1 - 1) with i by lia.
    + intros s Hs0 Hs1. destruct (decide (s + count <= i)) as [|]; [by apply Hb|]. exists i. split; [lia|done].
    + rewrite Z.sub_diag in Er. eauto.
  - rewrite wrap_small by lia. destruct (Z.leb_spec count (i - start + 1)) as [Hge|Hlt].
    + exists (Some start). assert (start + count = i + 1) by lia. split_and!; try done; try lia.
      * intros k Hk. destruct (decide (k = i)) as [->|]; [done|]. apply Hf. lia.
      * by replace (start + count - 1) with i by lia.
    + destruct (IH h count (i + 1) start Hs) as (r & Er & Hr); try done; try lia.
      * intros k Hk. destruct (decide (k = i)) as [->|]; [done|]. apply Hf. lia.
      * intros s Hs0 Hs1. destruct (decide (s + count <= i)) as [|]; [by apply Hb|].
        destruct Hp as [->|Hp]; [lia|]. exists (start - 1). split; [lia|done].
      * replace (i - start + 1) with (i + 1 - start) by lia. eauto.
Qed.

Lemma find_least (f : nat -> bool) n (s : nat) : (s < n)%nat -> f s = true -> (forall k, (k < s)%nat -> f k = false) -> find f (seq 0 n) = Some s.
Proof.
  intros Hs Ht Hk. replace n with (s + (n - s))%nat by lia. rewrite seq_app.
  assert (forall a m, (forall k, a <= k < a + m -> f k = false)%nat -> find f (seq a m) = None) as H0.
  { intros a m. revert a. induction m as [|m IH]; intros a H; [done|]. cbn. rewrite H by lia. apply IH. intros k ?. apply H. lia. }
  pose proof (H0 0%nat s) as E. revert E. generalize (seq 0 s). intros l. induction l as [|x l IH]; intros E.
  - destruct (n - s)%nat eqn:En; [lia|]. cbn. by rewrite Ht.
  - cbn in *. destruct (f x); [|apply IH; intros; apply E; intros; apply Hk; lia]. discriminate E. intros. apply Hk. lia.
Qed.

Lemma find_absent (f : nat -> bool) n : (forall k, (k < n)%nat -> f k = false) -> find f (seq 0 n) = None.
Proof.
  intros H. destruct (find f (seq 0 n)) as [x|] eqn:E; [|done]. apply find_some in E as [Hx Hf]. apply in_seq in Hx.
  rewrite H in Hf by lia. done.
Qed.

(** The scan finds the run the reference definition finds. *)
Lemma scan_first_fit h count : shaped h -> 0 < count ->
  scan (Z.to_nat (total_queues h)) h count 0 0 0 = Some (Z.of_nat <$> first_fit (view h) (Z.to_nat count)).
Proof.
  intros Hs Hc. destruct (sh_total _ Hs) as [Ht _].
  destruct (scan_run_spec (Z.to_nat (total_queues h)) h count 0 0 Hs Hc) as (r & Er & Hr); try lia; [intros s; lia|].
  change (0 - 0) with 0 in Er. rewrite Er. f_equal. symmetry. unfold first_fit. rewrite length_view.
  assert (forall (k : nat) (b : Z), none_ends_before h count b -> Z.of_nat k + count <= b -> free_run (view h) k (Z.to_nat count) = false) as Hno.
  { intros k b Hb Hk. apply not_true_iff_false. intros [_ H]%free_run_spec; [|lia]. destruct (Hb (Z.of_nat k)) as (j & Hj & Ej); [lia..|].
    rewrite H in Ej by lia. done. }
  destruct r as [s|].
  - destruct Hr as (H0 & H1 & H2 & H3). rewrite (find_least _ _ (Z.to_nat s)).
    + cbn. f_equal. lia.
    + lia.
    + apply free_run_spec; [done|]. rewrite !Z2Nat.id by lia. done.
    + intros k Hk. apply (Hno _ _ H3). lia.
  - rewrite find_absent; [done|]. intros k Hk. destruct (decide (Z.of_nat k + count <= total_queues h)).
    + apply (Hno _ _ Hr). lia.
    + apply not_true_iff_false. intros [H _]%free_run_spec; lia.
Qed.

(** ** The operations on the abstract pool *)

Lemma holder_updated h h' b g k : updated h h' b g -> 0 <= k < 256 -> holder h' k = if b k then Some (g k) else None.
Proof. intros U Hk. unfold holder. by rewrite (up_claimed _ _ _ _ U), (up_gen _ _ _ _ U). Qed.

Lemma claim_refines h count : shaped h -> 0 <= count < 2 ^ 16 -> generation h < 2 ^ 64 - 1 ->
  exists res h', claim count h = Some (res, h') /\ shaped h' /\ pool_claim count (pool_of h) = (res, pool_of h').
Proof.
  intros Hs Hc Hg. destruct (sh_total _ Hs) as [Ht Ht']. unfold claim, pool_claim.
  destruct (Z.eqb_spec count 0) as [->|Hc0]; [by do 2 eexists|]. cbn [holders claims rejected pool_of].
  destruct (Z.ltb_spec (total_queues h) count) as [Hlt|Hge].
  { unfold first_fit. rewrite find_absent; [by do 2 eexists|]. intros k Hk. apply not_true_iff_false. intros [H _]%free_run_spec; lia. }
  rewrite scan_first_fit by (done || lia). cbn [mbind option_bind].
  destruct (first_fit (view h) (Z.to_nat count)) as [s|] eqn:Ef; [|by do 2 eexists]. cbn [fmap option_fmap option_map].
  apply find_some in Ef as [_ [Hb Hf]%free_run_spec]; [|done]. rewrite Z2Nat.id in * by lia.
  rewrite !wrap_small by (pose proof (sh_generation _ Hs); lia). set (g := generation h + 1).
  destruct (mark_ok (Z.to_nat (Z.of_nat s + count - Z.of_nat s)) (with_generation h g) (Z.of_nat s) g) as (h' & E & U); [apply Hs..|lia|lia|].
  rewrite E. cbn [mbind option_bind]. rewrite Z2Nat.id in U by lia. replace (Z.of_nat s + count - Z.of_nat s) with count in U by lia.
  do 2 eexists. split; [done|].
  change (claimed (with_generation h g)) with (claimed h) in U. change (gen_at (with_generation h g)) with (gen_at h) in U. split.
  - destruct U. destruct Hs. split; try done; rewrite ?up_total0, ?up_generation0, ?up_stale0; try done; [cbn; lia|].
    intros i Hi. rewrite up_claimed0, up_gen0 by done. destruct (in_run _ _ i); cbn; [lia|]. intros Hcl. specialize (sh_held0 i Hi Hcl). lia.
  - f_equal. unfold pool_of. rewrite (up_generation _ _ _ _ U), (up_stale _ _ _ _ U). cbn. f_equal.
    symmetry. rewrite <- (Nat2Z.id s) at 1. apply view_assign; try lia; [apply U|].
    intros k Hk. rewrite (holder_updated _ _ _ _ _ U) by done. destruct (in_run _ _ k); [done|]. done.
Qed.

Lemma fresh_ok n : forall h j g, shaped h -> 0 <= j -> j + Z.of_nat n <= total_queues h ->
  exists b, fresh n j g h = Some b /\ (b = true <-> forall i, j <= i < j + Z.of_nat n -> holder h i = Some g).
Proof.
  induction n as [|n IH]; intros h j g Hs Hj Hn; cbn [fresh].
  { exists true. split; [done|]. split; [|done]. intros _ i Hi. lia. }
  destruct (sh_total _ Hs). rewrite bit_is_set_ok by (apply Hs || lia). cbn [mbind option_bind].
  assert (holder h j = Some g <-> claimed h j = true /\ gen_at h j = g) as Hh by (unfold holder; destruct (claimed h j); split; [by intros [= ->] | by intros [_ ->] | done | by intros []]).
  destruct (claimed h j) eqn:Ec; cbn [negb].
  2: { exists false. split; [done|]. split; [done|]. intros H1. destruct (proj1 Hh) as [? _]; [|done]. apply H1. lia. }
  rewrite gen_lookup by (apply Hs || lia). cbn [mbind option_bind]. destruct (Z.eqb_spec (gen_at h j) g) as [Eg|Eg]; cbn [negb].
  2: { exists false. split; [done|]. split; [done|]. intros H1. destruct (proj1 Hh) as [_ ?]; [|done]. apply H1. lia. }
  destruct (IH h (j + 1) g Hs) as (b & -> & Hb); [lia..|]. exists b. split; [done|]. rewrite Hb. split.
  - intros H1 i Hi. destruct (decide (i = j)) as [->|]; [by apply Hh|]. apply H1. lia.
  - intros H1 i Hi. apply H1. lia.
Qed.

Lemma all_held_spec h (s n : nat) g : 0 < total_queues h ->
  all_held (view h) s n g = true <->
  Z.of_nat s + Z.of_nat n <= total_queues h /\ forall i, Z.of_nat s <= i < Z.of_nat s + Z.of_nat n -> holder h i = Some g.
Proof. intros Ht. unfold all_held. rewrite run_forallb, Z.max_r by lia. by setoid_rewrite bool_decide_eq_true. Qed.

Definition valid_range (r : QueueRange) : Prop := 0 <= lo r < 2 ^ 16 /\ 0 <= hi r < 2 ^ 16.

Lemma count_stale_shaped h : shaped h -> shaped (count_stale h).
Proof. intros []. split; try done. cbn. apply wrap_range. lia. Qed.

Lemma count_stale_pool h : shaped h -> stale_releases h < 2 ^ 64 - 1 ->
  pool_of (count_stale h) = mkPool (view h) (generation h) (stale_releases h + 1).
Proof. intros Hs Hr. unfold pool_of. cbn. rewrite wrap_small by (pose proof (sh_stale _ Hs); lia). done. Qed.

(** The part before the mutex: when it returns, it has done the whole release. *)
Lemma release_check_refines h r : shaped h -> valid_range r -> stale_releases h < 2 ^ 64 - 1 ->
  match release_check r h with
  | inl h' => shaped h' /\ pool_of h' = pool_release r (pool_of h)
  | inr _ => lo r < hi r <= total_queues h /\ range_generation r <= generation h
  end.
Proof.
  intros Hs [Hl Hh] Hr. destruct (sh_total _ Hs) as [Ht Ht']. unfold release_check, range_empty, pool_release.
  destruct (Z.leb_spec (hi r) (lo r)) as [|He]; [done|].
  destruct (Z.ltb_spec (total_queues h) (hi r)) as [Hb|Hb].
  { split; [by apply count_stale_shaped|]. rewrite count_stale_pool by done.
    destruct (all_held _ _ _ _) eqn:E; [|done]. apply all_held_spec in E as [E _]; lia. }
  destruct (Z.ltb_spec (generation h) (range_generation r)) as [Hg|Hg]; [|lia].
  split; [by apply count_stale_shaped|]. rewrite count_stale_pool by done.
  destruct (all_held _ _ _ _) eqn:E; [|done]. apply all_held_spec in E as [_ E]; [|lia]. exfalso.
  rewrite !Z2Nat.id in E by lia. specialize (E (lo r) ltac:(lia)). unfold holder in E.
  destruct (claimed h (lo r)) eqn:Ec; [|done]. injection E as E. destruct (sh_held _ Hs (lo r)) as [_ ?]; [lia|done|]. lia.
Qed.

Lemma release_locked_refines h r : shaped h -> stale_releases h < 2 ^ 64 - 1 -> 0 <= lo r -> lo r < hi r <= total_queues h ->
  exists h', release_locked r h = Some h' /\ shaped h' /\ pool_of h' = pool_release r (pool_of h).
Proof.
  intros Hs Hr Hl Hb. destruct (sh_total _ Hs) as [Ht Ht']. unfold release_locked, pool_release. zdecide.
  destruct (fresh_ok (Z.to_nat (hi r - lo r)) h (lo r) (range_generation r) Hs Hl) as (b & -> & Hf); [lia|]. cbn [mbind option_bind].
  rewrite Z2Nat.id in Hf by lia.
  assert (all_held (view h) (Z.to_nat (lo r)) (Z.to_nat (hi r - lo r)) (range_generation r) = b) as Ea.
  { apply eq_true_iff_eq. rewrite all_held_spec by done. rewrite !Z2Nat.id by lia. rewrite Hf. split; [by intros [_ ?]|]. split; [lia|done]. }
  cbn [holders pool_of]. rewrite Ea. destruct b; cbn [negb].
  2: { eexists. split; [done|]. split; [by apply count_stale_shaped|]. by apply count_stale_pool. }
  destruct (unmark_ok (Z.to_nat (hi r - lo r)) h (lo r)) as (h' & E & U); [apply Hs..|lia|lia|]. rewrite Z2Nat.id in U by lia.
  exists h'. split; [done|]. split.
  - destruct U, Hs. split; try done; rewrite ?up_total0, ?up_generation0, ?up_stale0; try done.
    intros i Hi. rewrite up_claimed0, up_gen0 by done. intros [_ Hc]%andb_true_iff. by apply sh_held0.
  - unfold pool_of. rewrite (up_generation _ _ _ _ U), (up_stale _ _ _ _ U). f_equal.
    apply view_assign; try lia; [apply U|]. intros k Hk. rewrite (holder_updated _ _ _ _ _ U) by done. unfold holder. by destruct (in_run _ _ k), (claimed h k).
Qed.

Lemma release_refines h r : shaped h -> valid_range r -> stale_releases h < 2 ^ 64 - 1 ->
  exists h', release r h = Some h' /\ shaped h' /\ pool_of h' = pool_release r (pool_of h).
Proof.
  intros Hs Hv Hr. pose proof (release_check_refines h r Hs Hv Hr) as H. unfold release.
  destruct (release_check r h) as [h'|u]; [by exists h'|]. apply release_locked_refines; try done; [apply Hv|lia].
Qed.

(** ** Diagnostics *)

Lemma free_loop_spec n : forall h i c, shaped h -> 0 <= i -> i + Z.of_nat n = total_queues h -> 0 <= c <= i ->
  free_loop n i c h = Some (c + zlen (filter (fun o => o = None) (drop (Z.to_nat i) (view h)))).
Proof.
  induction n as [|n IH]; intros h i c Hs Hi Hn Hc; cbn [free_loop].
  { rewrite drop_ge by (rewrite length_view; lia). cbn. change (zlen []) with 0. f_equal. lia. }
  destruct (sh_total _ Hs). rewrite bit_is_set_ok by (apply Hs || lia). cbn [mbind option_bind].
  rewrite (drop_S _ (holder h i)) by (apply view_lookup; lia). replace (S (Z.to_nat i)) with (Z.to_nat (i + 1)) by lia.
  unfold holder at 1. destruct (claimed h i).
  - rewrite IH by (done || lia). by rewrite filter_cons_False.
  - rewrite wrap_small by lia. rewrite IH by (done || lia). rewrite filter_cons_True by done. rewrite zlen_cons. f_equal. lia.
Qed.

(** [m] is the length of the longest run of free queues before [i]. *)
Definition longest (h : Header) (i m : Z) : Prop :=
  (exists s, 0 <= s /\ s + m <= i /\ forall k, s <= k < s + m -> claimed h k = false) /\ none_ends_before h (m + 1) i.

Lemma run_loop_spec n : forall h i best cur, shaped h -> 0 <= i -> i + Z.of_nat n = total_queues h -> 0 <= cur <= best -> best <= i ->
  (forall k, i - cur <= k < i -> claimed h k = false) -> (i - cur = 0 \/ claimed h (i - cur - 1) = true) -> longest h i best ->
  exists m, run_loop n i best cur h = Some m /\ 0 <= m /\ longest h (total_queues h) m.
Proof.
  induction n as [|n IH]; intros h i best cur Hs Hi Hn Hc Hb Hf Hp Hl; cbn [run_loop].
  { exists best. split_and!; [done|lia|]. by replace (total_queues h) with i by lia. }
  destruct (sh_total _ Hs). rewrite bit_is_set_ok by (apply Hs || lia). cbn [mbind option_bind]. destruct Hl as [(s & Hs0 & Hs1 & Hs2) Hno].
  destruct (claimed h i) eqn:Ec.
  - apply IH; try done; try lia.
    + right. by replace (i + 1 - 0 - 1) with i by lia.
    + split; [exists s; split_and!; done || lia|]. intros t Ht0 Ht1. destruct (decide (t + (best + 1) <= i)); [by apply Hno|].
      exists i. split; [lia|done].
  - rewrite wrap_small by lia.
    assert (forall k, i + 1 - (cur + 1) <= k < i + 1 -> claimed h k = false) as Hf'.
    { intros k Hk. destruct (decide (k = i)) as [->|]; [done|]. apply Hf. lia. }
    assert (i + 1 - (cur + 1) = 0 \/ claimed h (i + 1 - (cur + 1) - 1) = true) as Hp' by (replace (i + 1 - (cur + 1)) with (i - cur) by lia; done).
    destruct (Z.ltb_spec best (cur + 1)) as [Hlt|Hge]; apply IH; try done; try lia; split.
    + exists (i - cur). split_and!; [lia..|]. intros k Hk. apply Hf'. lia.
    + intros t Ht0 Ht1. destruct (Hno t) as (k & Hk & Ek); [lia..|]. exists k. split; [lia|done].
    + exists s. split_and!; done || lia.
    + intros t Ht0 Ht1. destruct (decide (t + (best + 1) <= i)); [by apply Hno|].
      destruct Hp as [Hp|Hp]; [lia|]. exists (i - cur - 1). split; [lia|done].
Qed.

Lemma first_fit_iff h count m : shaped h -> 0 < count -> 0 <= m -> longest h (total_queues h) m ->
  is_Some (first_fit (view h) (Z.to_nat count)) <-> count <= m.
Proof.
  intros Hs Hc Hm [(s & H0 & H1 & H2) Hno]. destruct (sh_total _ Hs) as [Ht _]. split.
  - intros [t Ht']. apply find_some in Ht' as [_ [Hb Hf]%free_run_spec]; [|done]. rewrite Z2Nat.id in * by lia.
    destruct (decide (count <= m)); [done|]. destruct (Hno (Z.of_nat t)) as (k & Hk & Ek); [lia..|]. rewrite Hf in Ek by lia. done.
  - intros Hle. unfold first_fit. destruct (find _ _) as [t|] eqn:E; [by eexists|]. exfalso.
    pose proof (find_none _ _ E (Z.to_nat s)) as Hn. rewrite in_seq, length_view in Hn. specialize (Hn ltac:(lia)).
    apply not_true_iff_false in Hn. apply Hn, free_run_spec; [done|]. rewrite !Z2Nat.id by lia. split; [lia|]. intros k Hk. apply H2. lia.
Qed.

(** ** Runs of the allocator

    Calls of several threads, each a sequence of atomic parts.  A label records a completed call
    with its result; a release that has passed its first part is pending. *)

Inductive label := LClaim (count : Z) (res : expected QueueRange) | LRelease (r : QueueRange).

Record astate := mkA { a_header : Header; a_pending : list QueueRange }.

Inductive alloc_step : astate -> option label -> astate -> Prop :=
| step_claim h pend count res h' :
    0 <= count < 2 ^ 16 -> claim count h = Some (res, h') ->
    alloc_step (mkA h pend) (Some (LClaim count res)) (mkA h' pend)
| step_release_returns h pend r h' :
    valid_range r -> release_check r h = inl h' ->
    alloc_step (mkA h pend) (Some (LRelease r)) (mkA h' pend)
| step_release_check h pend r :
    valid_range r -> release_check r h = inr tt ->
    alloc_step (mkA h pend) None (mkA h (r :: pend))
| step_release_locked h p1 r p2 h' :
    release_locked r h = Some h' ->
    alloc_step (mkA h (p1 ++ r :: p2)) (Some (LRelease r)) (mkA h' (p1 ++ p2)).

Inductive alloc_run (s0 : astate) : list (option label) -> astate -> Prop :=
| run_nil : alloc_run s0 [] s0
| run_snoc ls s l s' : alloc_run s0 ls s -> alloc_step s l s' -> alloc_run s0 (ls ++ [l]) s'.

(** The same calls one after the other on the abstract pool, with the results recorded. *)
Inductive pool_run (p0 : pool) : list (option label) -> pool -> Prop :=
| prun_nil : pool_run p0 [] p0
| prun_claim ls p count res p' : pool_run p0 ls p -> 0 <= count -> pool_claim count p = (res, p') -> pool_run p0 (ls ++ [Some (LClaim count res)]) p'
| prun_release ls p r : pool_run p0 ls p -> pool_run p0 (ls ++ [Some (LRelease r)]) (pool_release r p)
| prun_silent ls p : pool_run p0 ls p -> pool_run p0 (ls ++ [None]) p.

Definition empty_pool (total : Z) : pool := mkPool (replicate (Z.to_nat total) None) 0 0.

(** The grants for whose generation no release has been made. *)
Definition grant_step (live : list QueueRange) (l : option label) : list QueueRange :=
  match l with
  | Some (LClaim _ (inr r)) => r :: live
  | Some (LRelease r) => filter (fun q => range_generation q <> range_generation r) live
  | _ => live
  end.
Definition live_grants (ls : list (option label)) : list QueueRange := fold_left grant_step ls [].

Record run_inv (total : Z) (ls : list (option label)) (s : astate) : Prop := {
  ri_shaped : shaped (a_header s);
  ri_total : total_queues (a_header s) = total;
  ri_generation : generation (a_header s) <= zlen ls;
  ri_stale : stale_releases (a_header s) <= zlen ls;
  ri_pending : Forall (fun r => 0 <= lo r /\ lo r < hi r <= total) (a_pending s);
  ri_pool : pool_run (empty_pool total) ls (pool_of (a_header s)) }.

Lemma pool_claim_counts count p : claims (pool_claim count p).2 <= claims p + 1 /\ rejected (pool_claim count p).2 = rejected p.
Proof. unfold pool_claim. destruct (count =? 0); cbn; [lia|]. destruct (first_fit _ _); cbn; lia. Qed.

Lemma pool_release_counts r p : claims (pool_release r p) = claims p /\ rejected (pool_release r p) <= rejected p + 1 /\
  length (holders (pool_release r p)) = length (holders p).
Proof.
  unfold pool_release. destruct (hi r <=? lo r); cbn; [lia|]. destruct (all_held _ _ _ _) eqn:E; cbn; [|lia].
  unfold all_held in E. apply andb_true_iff in E as [E _]. apply Nat.leb_le in E. split_and!; [done|lia|]. by apply length_assign.
Qed.

Lemma pool_total h h' : 0 < total_queues h -> 0 < total_queues h' -> length (holders (pool_of h')) = length (holders (pool_of h)) ->
  total_queues h' = total_queues h.
Proof. cbn. rewrite !length_view. lia. Qed.

Lemma pool_claim_length count p : length (holders (pool_claim count p).2) = length (holders p).
Proof.
  unfold pool_claim. destruct (count =? 0); [done|]. destruct (first_fit _ _) as [s|] eqn:E; [|done]. cbn.
  apply find_some in E as [_ E]. apply andb_true_iff in E as [E _]. apply Nat.leb_le in E. by apply length_assign.
Qed.

Lemma release_inv total ls h pend r h' : run_inv total ls (mkA h pend) ->
  shaped h' -> pool_of h' = pool_release r (pool_of h) -> forall pend', Forall (fun r => 0 <= lo r /\ lo r < hi r <= total) pend' ->
  run_inv total (ls ++ [Some (LRelease r)]) (mkA h' pend').
Proof.
  intros [Hs Ht Hg Hr Hp Hr'] Hs' Ep pend' Hp'. cbn in *. destruct (pool_release_counts r (pool_of h)) as (H1 & H2 & H3). rewrite <- Ep in *.
  cbn [claims rejected pool_of] in *. split; cbn; rewrite ?zlen_app; change (zlen [_]) with 1; try lia; try done.
  - rewrite <- Ht. apply pool_total; [apply Hs|apply Hs'|done].
  - rewrite Ep. by apply prun_release.
Qed.

Lemma alloc_step_inv total ls s l s' : run_inv total ls s -> zlen ls < 2 ^ 64 - 1 -> alloc_step s l s' -> run_inv total (ls ++ [l]) s'.
Proof.
  intros Hi Hb Hstep. pose proof Hi as [Hs Ht Hg Hr Hp Hr']. inversion Hstep as [h pend count res h' Hc E|h pend r h' Hv E|h pend r Hv E|h p1 r p2 h' E]; subst; cbn in *.
  - destruct (claim_refines h count Hs Hc) as (res' & h2 & E2 & Hs2 & Ep); [lia|]. rewrite E in E2. injection E2 as <- <-.
    destruct (pool_claim_counts count (pool_of h)) as (H1 & H2). pose proof (pool_claim_length count (pool_of h)) as H3. rewrite Ep in H1, H2, H3.
    cbn [fst snd claims rejected pool_of] in *. split; cbn; rewrite ?zlen_app; change (zlen [_]) with 1; try lia; try done.
    + apply pool_total; [apply Hs|apply Hs2|done].
    + eapply prun_claim; try done; lia.
  - pose proof (release_check_refines h r Hs Hv) as H. rewrite E in H. destruct H as [? ?]; [lia|]. by eapply release_inv.
  - pose proof (release_check_refines h r Hs Hv) as H. rewrite E in H. destruct H as [? ?]; [lia|].
    split; cbn; rewrite ?zlen_app; change (zlen [_]) with 1; try lia; try done.
    + constructor; [|done]. destruct Hv. lia.
    + by apply prun_silent.
  - apply Forall_app in Hp as [Hp1 Hp2]. apply Forall_cons_iff in Hp2 as [[Hl Hlh] Hp2].
    destruct (release_locked_refines h r Hs) as (h2 & E2 & Hs2 & Ep); [lia..|]. rewrite E in E2. injection E2 as <-.
    eapply release_inv; try done. by apply Forall_app.
Qed.

Lemma create_inv reserved rc prefix total h : create_primary reserved rc prefix total = inr h -> 0 <= total -> run_inv total [] (mkA h []).
Proof.
  unfold create_primary, kMaxAllocatorQueues. destruct (Z.eqb_spec total 0); [done|]. destruct (Z.ltb_spec 256 total); [done|]. cbn [orb].
  destruct (build_allocator_memzone_name prefix) as [|name]; [done|]. destruct (negb (reserved name)); [done|].
  unfold init_header. do 3 (destruct (negb _); [done|]). intros [= <-] Ht.
  assert (forall i, claimed (mkHeader kMagic kVersion total (replicate (Z.to_nat (kMaxAllocatorQueues / 64)) 0) (replicate (Z.to_nat kMaxAllocatorQueues) 0) 0 0) i = false) as Hz.
  { intros i. unfold claimed. cbn [bitmap]. change (Z.to_nat (kMaxAllocatorQueues / 64)) with 4%nat. destruct (Z.to_nat (i / 64)) as [|[|[|[|[|k]]]]]; apply Z.testbit_0_l. }
  split; cbn; try done.
  - split; cbn; try done; try lia.
    + repeat constructor; lia.
    + intros i _ Hc. by rewrite Hz in Hc.
  - replace (pool_of _) with (empty_pool total); [constructor|]. unfold pool_of, empty_pool. cbn. f_equal.
    symmetry. apply view_ext; cbn; [lia|apply length_replicate|]. intros i Hi. rewrite lookup_replicate_2 by lia. unfold holder. by rewrite Hz.
Qed.

Lemma run_invariant reserved rc prefix total h ls s : create_primary reserved rc prefix total = inr h -> 0 <= total ->
  alloc_run (mkA h []) ls s -> zlen ls < 2 ^ 64 -> run_inv total ls s.
Proof.
  intros Hc Ht Hrun. induction Hrun as [|ls s l s' _ IH Hstep]; intros Hb; [by eapply create_inv|].
  rewrite zlen_app in Hb. change (zlen [l]) with 1 in Hb. eapply alloc_step_inv; try done; [apply IH; lia|lia].
Qed.

(** ** Grants *)

Record grants_inv (p : pool) (live : list QueueRange) : Prop := {
  gi_range : forall r, r ∈ live -> 0 <= lo r /\ lo r < hi r <= zlen (holders p) /\ range_generation r <= claims p;
  gi_held : forall r i, r ∈ live -> lo r <= i < hi r -> holders p !! Z.to_nat i = Some (Some (range_generation r));
  gi_bound : forall i g, holders p !! i = Some (Some g) -> g <= claims p;
  gi_fresh : NoDup (map range_generation live) }.

Lemma claim_grants count p res p' live : grants_inv p live -> 0 <= count -> pool_claim count p = (res, p') ->
  grants_inv p' (grant_step live (Some (LClaim count res))).
Proof.
  intros Hi Hc. unfold pool_claim. destruct (Z.eqb_spec count 0); [by intros [= <- <-]|].
  destruct (first_fit (holders p) (Z.to_nat count)) as [s|] eqn:Ef; [|by intros [= <- <-]]. intros [= <- <-]. cbn [grant_step].
  apply find_some in Ef as [_ Ef]. apply run_forallb_list in Ef as [Hn Hf].
  assert (forall i, (i < length (holders p))%nat -> assign (holders p) s (Z.to_nat count) (Some (claims p + 1)) !! i =
    if bool_decide (s <= i < s + Z.to_nat count)%nat then Some (Some (claims p + 1)) else holders p !! i) as Ha by (intros; by apply assign_lookup).
  assert (zlen (assign (holders p) s (Z.to_nat count) (Some (claims p + 1))) = zlen (holders p)) as Hz by (unfold zlen; by rewrite length_assign).
  destruct Hi as [H1 H2 H3 H4]. split; cbn [holders claims].
  - intros r [->|Hr]%elem_of_cons; cbn; rewrite Hz; [unfold zlen; lia|]. specialize (H1 r Hr). lia.
  - intros r i [->|Hr]%elem_of_cons Hir; cbn in *; unfold zlen in *.
    + rewrite Ha by lia. by rewrite bool_decide_true by lia.
    + specialize (H1 r Hr). rewrite Ha by lia. rewrite bool_decide_false; [by apply H2|]. intros Hs.
      destruct (Hf _ Hs) as (o & Ho & Hfo). rewrite (H2 r i Hr Hir) in Ho. injection Ho as <-. done.
  - intros i g Hg. pose proof (lookup_lt_Some _ _ _ Hg) as Hl. unfold zlen in Hz. rewrite Ha in Hg by lia.
    destruct (bool_decide _); [injection Hg as <-; lia|]. apply H3 in Hg. lia.
  - cbn. constructor; [|done]. intros (r & E & Hr)%list_elem_of_In%in_map_iff. apply list_elem_of_In, H1 in Hr. lia.
Qed.

Lemma NoDup_filter_gen g live : NoDup (map range_generation live) -> NoDup (map range_generation (filter (fun q => range_generation q <> g) live)).
Proof.
  intros H4. induction live as [|q live IH]; [constructor|]. cbn in H4. pose proof (NoDup_cons_1_1 _ _ H4) as Hn. apply NoDup_cons_1_2 in H4. rewrite filter_cons.
  destruct (decide _); [|by apply IH]. cbn. constructor; [|by apply IH]. intros (x & E & Hx)%list_elem_of_In%in_map_iff.
  apply Hn, list_elem_of_In, in_map_iff. exists x. split; [done|]. by apply list_elem_of_In, list_elem_of_filter in Hx as [_ ?%list_elem_of_In].
Qed.

Lemma release_grants r p live : grants_inv p live -> grants_inv (pool_release r p) (grant_step live (Some (LRelease r))).
Proof.
  intros [H1 H2 H3 H4]. cbn [grant_step]. assert (NoDup (map range_generation (filter (fun q => range_generation q <> range_generation r) live))) as Hd.
  { by apply NoDup_filter_gen. }
  unfold pool_release. destruct (Z.leb_spec (hi r) (lo r)).
  { split; [intros q [_ Hq]%list_elem_of_filter; by apply H1|intros q i [_ Hq]%list_elem_of_filter; by apply H2|done|done]. }
  destruct (all_held _ _ _ _) eqn:E.
  2: { split; [intros q [_ Hq]%list_elem_of_filter; by apply H1|intros q i [_ Hq]%list_elem_of_filter; by apply H2|done|done]. }
  apply run_forallb_list in E as [Hn Hf].
  assert (forall i, (i < length (holders p))%nat -> assign (holders p) (Z.to_nat (lo r)) (Z.to_nat (hi r - lo r)) None !! i =
    if bool_decide (Z.to_nat (lo r) <= i < Z.to_nat (lo r) + Z.to_nat (hi r - lo r))%nat then Some None else holders p !! i) as Ha by (intros; by apply assign_lookup).
  assert (zlen (assign (holders p) (Z.to_nat (lo r)) (Z.to_nat (hi r - lo r)) None) = zlen (holders p)) as Hz by (unfold zlen; by rewrite length_assign).
  split; cbn [holders claims]; [..|done].
  - intros q [_ Hq]%list_elem_of_filter. rewrite Hz. by apply H1.
  - intros q i [Hne Hq]%list_elem_of_filter Hi. specialize (H1 q Hq). unfold zlen in *. rewrite Ha by lia.
    rewrite bool_decide_false; [by apply H2|]. intros Hs. destruct (Hf _ Hs) as (o & Ho & Hfo). apply bool_decide_eq_true in Hfo as ->.
    rewrite (H2 q i Hq Hi) in Ho. congruence.
  - intros i g Hg. pose proof (lookup_lt_Some _ _ _ Hg) as Hl. unfold zlen in Hz. rewrite Ha in Hg by lia.
    destruct (bool_decide _); [done|]. by apply H3 in Hg.
Qed.

Lemma pool_run_grants total ls p : pool_run (empty_pool total) ls p -> grants_inv p (live_grants ls).
Proof.
  intros H. induction H as [|ls p count res p' _ IH Hc E|ls p r _ IH|ls p _ IH].
  - split; cbn; [intros r Hr|intros r i Hr|intros i g Hg|constructor].
    + by apply not_elem_of_nil in Hr.
    + by apply not_elem_of_nil in Hr.
    + by apply lookup_replicate_1 in Hg as [? _].
  - unfold live_grants. rewrite fold_left_app. by eapply claim_grants.
  - unfold live_grants. rewrite fold_left_app. by apply release_grants.
  - unfold live_grants. rewrite fold_left_app. done.
Qed.

(** A claim and the release of what it granted leave every queue as it was. *)
Lemma claim_release_view h count r h1 : shaped h -> 0 <= count < 2 ^ 16 -> generation h < 2 ^ 64 - 1 -> stale_releases h < 2 ^ 64 - 1 ->
  claim count h = Some (inr r, h1) ->
  exists h2, release r h1 = Some h2 /\ shaped h2 /\ view h2 = view h /\ generation h2 = generation h + 1 /\ stale_releases h2 = stale_releases h.
Proof.
  intros Hs Hc Hg Hst E. destruct (claim_refines h count Hs Hc Hg) as (res & h1' & E' & Hs1 & Ep). rewrite E in E'. injection E' as <- <-.
  unfold pool_claim in Ep. destruct (Z.eqb_spec count 0); [done|]. cbn [holders claims rejected pool_of] in Ep.
  destruct (first_fit (view h) (Z.to_nat count)) as [s|] eqn:Ef; [|done]. injection Ep as <- Ev Eg Er.
  apply find_some in Ef as [_ Ef]. apply run_forallb_list in Ef as [Hn Hf]. destruct (sh_total _ Hs) as [Ht Ht']. rewrite length_view in Hn.
  destruct (release_refines h1 (mkRange (Z.of_nat s) (Z.of_nat s + count) (generation h + 1)) Hs1) as (h2 & E2 & Hs2 & Ep2).
  { split; cbn; lia. } { lia. }
  exists h2. split; [done|]. split; [done|].
  unfold pool_release in Ep2. cbn [lo hi range_generation] in Ep2. rewrite (proj2 (Z.leb_gt _ _)) in Ep2 by lia. replace (Z.of_nat s + count - Z.of_nat s) with count in Ep2 by lia.
  rewrite Nat2Z.id in Ep2. cbn [holders pool_of] in Ep2.
  assert (all_held (view h1) s (Z.to_nat count) (generation h + 1) = true) as Hall.
  { apply run_forallb_list. rewrite <- Ev. rewrite length_assign by (rewrite length_view; lia). rewrite length_view. split; [lia|].
    intros k Hk. exists (Some (generation h + 1)). rewrite assign_lookup by (rewrite length_view; lia). rewrite bool_decide_true by lia.
    split; [done|]. by apply bool_decide_eq_true. }
  rewrite Hall in Ep2. injection Ep2 as Ev2 Eg2 Er2. rewrite Eg2, Er2, <- Eg, <- Er. split_and!; try done. rewrite Ev2, <- Ev.
  apply list_eq. intros i. destruct (decide (i < length (view h))%nat) as [Hi|Hi].
  - rewrite assign_lookup by (rewrite ?length_assign by (rewrite length_view; lia); rewrite ?length_view in *; lia).
    destruct (bool_decide_reflect (s <= i < s + Z.to_nat count)%nat) as [Hin|Hin].
    + destruct (Hf i Hin) as (o & -> & Ho). by destruct o.
    + rewrite assign_lookup by (rewrite ?length_view in *; lia). by rewrite bool_decide_false.
  - rewrite !lookup_ge_None_2; [done|lia|]. rewrite !length_assign by (rewrite ?length_assign by (rewrite length_view; lia); rewrite length_view; lia). lia.
Qed.

(** Every range is inside the pool, all its queues are claimed under its generation, and no two
    ranges overlap or have the same generation. *)
Definition exclusive (total : Z) (h : Header) (live : list QueueRange) : Prop :=
  (forall r, r ∈ live -> 0 <= lo r /\ lo r < hi r <= total /\
    forall i, lo r <= i < hi r -> bit_is_set h i = Some true /\ claim_gen h !! Z.to_nat i = Some (range_generation r)) /\
  (forall r1 r2, r1 ∈ live -> r2 ∈ live -> range_generation r1 <> range_generation r2 -> hi r1 <= lo r2 \/ hi r2 <= lo r1) /\
  NoDup (map range_generation live).

Lemma grants_exclusive total h live : shaped h -> total_queues h = total -> grants_inv (pool_of h) live -> exclusive total h live.
Proof.
  intros Hs E [H1 H2 H3 H4]. destruct (sh_total _ Hs) as [Ht0 Ht1].
  assert (zlen (holders (pool_of h)) = total) as Ez by (unfold zlen; cbn; rewrite length_view; lia). rewrite Ez in H1. split; [|split; [|done]].
  - intros r Hr'. destruct (H1 r Hr') as (Hl & Hh & _). split_and!; try done; try lia. intros i Hi. specialize (H2 r i Hr' Hi).
    cbn in H2. rewrite view_lookup in H2 by lia. unfold holder in H2. rewrite bit_is_set_ok by (apply Hs || lia).
    destruct (claimed h i); [|done]. injection H2 as <-. split; [done|]. apply gen_lookup; [apply Hs|lia].
  - intros r1 r2 Hr1 Hr2 Hne. destruct (H1 r1 Hr1) as (? & ? & _), (H1 r2 Hr2) as (? & ? & _).
    destruct (decide (hi r1 <= lo r2)); [by left|]. destruct (decide (hi r2 <= lo r1)); [by right|]. exfalso. apply Hne.
    pose proof (H2 r1 (Z.max (lo r1) (lo r2)) Hr1 ltac:(lia)) as E1. rewrite (H2 r2) in E1 by (done || lia). congruence.
Qed.

(** *** A run

    A pool of eight queues: claims of three and of two, a release of the first grant that passes
    its check, a claim of four meanwhile, the rest of the release, and the same release again. *)

Definition demo_rc : MutexRc := mkMutexRc 0 0 0.
Definition demo_prefix : list byte := text "0000_01_00_0".
Definition demo_create : expected Header := create_primary (fun _ => true) demo_rc demo_prefix 8.
Definition header_of (r : option (expected QueueRange * Header)) : Header := match r with Some (_, h) => h | None => mkHeader 0 0 0 [] [] 0 0 end.
Definition demo0 : Header := match demo_create with inr h => h | inl _ => header_of None end.
Definition demo1 : Header := header_of (claim 3 demo0).
Definition demo2 : Header := header_of (claim 2 demo1).
Definition demo3 : Header := header_of (claim 3 demo2).
Definition demo4 : Header := default (header_of None) (release_locked (mkRange 0 3 1) demo3).
Definition demo_labels : list (option label) :=
  [Some (LClaim 3 (inr (mkRange 0 3 1))); Some (LClaim 2 (inr (mkRange 3 5 2))); None; Some (LClaim 3 (inr (mkRange 5 8 3)));
   Some (LRelease (mkRange 0 3 1))].

Lemma demo_steps h0 h1 h2 h3 h4 (r1 r2 r3 : QueueRange) : valid_range r1 ->
  claim 3 h0 = Some (inr r1, h1) -> claim 2 h1 = Some (inr r2, h2) -> release_check r1 h2 = inr tt ->
  claim 3 h2 = Some (inr r3, h3) -> release_locked r1 h3 = Some h4 ->
  alloc_run (mkA h0 []) [Some (LClaim 3 (inr r1)); Some (LClaim 2 (inr r2)); None; Some (LClaim 3 (inr r3)); Some (LRelease r1)] (mkA h4 []).
Proof.
  intros Hv E1 E2 E3 E4 E5.
  pose proof (run_snoc _ _ _ _ _ (run_nil _) (step_claim h0 [] 3 _ _ ltac:(lia) E1)) as R.
  pose proof (run_snoc _ _ _ _ _ R (step_claim h1 [] 2 _ _ ltac:(lia) E2)) as R2.
  pose proof (run_snoc _ _ _ _ _ R2 (step_release_check h2 [] r1 Hv E3)) as R3.
  pose proof (run_snoc _ _ _ _ _ R3 (step_claim h2 [r1] 3 _ _ ltac:(lia) E4)) as R4.
  exact (run_snoc _ _ _ _ _ R4 (step_release_locked h3 [] r1 [] h4 E5)).
Qed.

Lemma demo_run : alloc_run (mkA demo0 []) demo_labels (mkA demo4 []).
Proof. apply (demo_steps demo0 demo1 demo2 demo3); [split; cbn; lia|..]; vm_compute; reflexivity. Qed.

(** ** Main theorems *)

(** The pool behaves as if each call were atomic.  From a freshly created allocator, in every
    interleaving of claims and of the two parts of releases, the calls give the results they
    give one after the other on an abstract pool, in which a claim takes the first free run that
    is long enough and a release frees a range exactly if all its queues are held under the
    generation it names; and no call touches memory outside the two arrays.  (For up to 2^64
    calls: the generation is a 64-bit counter.) *)
Theorem queue_pool_linearizable reserved rc prefix total h0 ls s :
  create_primary reserved rc prefix total = inr h0 -> 0 <= total -> alloc_run (mkA h0 []) ls s -> zlen ls < 2 ^ 64 - 1 ->
  pool_run (empty_pool total) ls (pool_of (a_header s)) /\
  (forall count, 0 <= count < 2 ^ 16 -> exists res h', claim count (a_header s) = Some (res, h') /\
    pool_claim count (pool_of (a_header s)) = (res, pool_of h')) /\
  (forall r, r ∈ a_pending s -> exists h', release_locked r (a_header s) = Some h' /\
    pool_of h' = pool_release r (pool_of (a_header s))).
Proof.
  intros Hc Ht Hr Hb. destruct (run_invariant _ _ _ _ _ _ _ Hc Ht Hr) as [Hs E Hg Hst Hp Hpool]; [lia|]. split; [done|]. split.
  - intros count Hcount. destruct (claim_refines (a_header s) count Hs Hcount) as (res & h' & E1 & _ & E2); [lia|]. eauto.
  - intros r Hr'. rewrite Forall_forall in Hp. destruct (Hp r (proj1 (list_elem_of_In _ _) Hr')) as [H1 H2].
    destruct (release_locked_refines (a_header s) r Hs) as (h' & E1 & _ & E2); [lia..|]. eauto.
Qed.

(** A grant is exclusive and stable.  In every interleaving, the queues of a granted range
    stay claimed under its generation as long as no release names that generation, whatever else
    is claimed and released, stale or forged releases of other generations included; ranges
    granted and not yet released lie inside the pool and do not overlap. *)
Theorem queue_grants_exclusive reserved rc prefix total h0 ls s :
  create_primary reserved rc prefix total = inr h0 -> 0 <= total -> alloc_run (mkA h0 []) ls s -> zlen ls < 2 ^ 64 ->
  exclusive total (a_header s) (live_grants ls).
Proof.
  intros Hc Ht Hr Hb. destruct (run_invariant _ _ _ _ _ _ _ Hc Ht Hr) as [Hs E Hg Hst Hp Hpool]; [lia|].
  eapply grants_exclusive; try done. by eapply pool_run_grants.
Qed.

(** The diagnostics predict the claims.  In every reachable state [dump] reports the number of
    free queues and the length of the longest free run, and a claim of [count] queues is granted
    exactly if [count] is positive and at most that length; a failed claim changes nothing, and
    releasing a grant at once gives back exactly the queues it took. *)
Theorem queue_dump_exact reserved rc prefix total h0 ls s :
  create_primary reserved rc prefix total = inr h0 -> 0 <= total -> alloc_run (mkA h0 []) ls s -> zlen ls < 2 ^ 64 - 1 ->
  exists st, dump (a_header s) = Some st /\ ps_total st = total /\ ps_free st = zlen (filter (fun o => o = None) (view (a_header s))) /\
    forall count, 0 <= count < 2 ^ 16 ->
      if (1 <=? count) && (count <=? ps_largest_free_run st)
      then exists r h1 h2, claim count (a_header s) = Some (inr r, h1) /\ hi r = lo r + count /\ release r h1 = Some h2 /\ view h2 = view (a_header s)
      else exists e, claim count (a_header s) = Some (inl e, a_header s).
Proof.
  intros Hc Ht Hr Hb. destruct (run_invariant _ _ _ _ _ _ _ Hc Ht Hr) as [Hs E Hg Hst _ _]; [lia|]. destruct (sh_total _ Hs) as [Ht0 Ht1].
  set (h := a_header s) in *. unfold dump, free_queues_unlocked_, largest_free_run_unlocked_. rewrite free_loop_spec by (done || lia). cbn [mbind option_bind].
  destruct (run_loop_spec (Z.to_nat (total_queues h)) h 0 0 0) as (m & Em & Hm & Hl); try done; try lia.
  { split; [exists 0; split_and!; lia|]. intros t; lia. }
  rewrite Em. cbn [mbind option_bind]. eexists. split; [done|]. cbn. split_and!; [done|done|]. intros count Hcount.
  destruct (claim_refines h count Hs Hcount) as (res & h1 & E1 & Hs1 & E2); [lia|].
  destruct (Z.leb_spec 1 count); cbn [andb].
  2: { assert (count = 0) as -> by lia. by eexists. }
  pose proof (first_fit_iff h count m Hs ltac:(lia) Hm Hl) as Hff. unfold pool_claim in E2. rewrite (proj2 (Z.eqb_neq count 0)) in E2 by lia.
  cbn [holders claims rejected pool_of] in E2. destruct (first_fit (view h) (Z.to_nat count)) as [t|] eqn:Ef.
  - rewrite (proj2 (Z.leb_le count m)) by (apply Hff; by eexists). injection E2 as <- _ _ _.
    destruct (claim_release_view h count _ h1 Hs Hcount ltac:(lia) ltac:(lia) E1) as (h2 & E3 & _ & Ev & _). eauto 10.
  - destruct (Z.leb_spec count m) as [Hle|]; [by apply Hff in Hle as [? ?]|]. injection E2 as <- _ _ _. exists QueuePoolExhausted.
    revert E1. unfold claim. rewrite (proj2 (Z.eqb_neq count 0)) by lia. destruct (total_queues h <? count); [done|].
    rewrite scan_first_fit by (done || lia). by rewrite Ef.
Qed.

Lemma queue_pool_linearizable_witness : pool_run (empty_pool 8) demo_labels (pool_of demo4).
Proof.
  apply (queue_pool_linearizable (fun _ => true) demo_rc demo_prefix 8 demo0 demo_labels (mkA demo4 []));
    [vm_compute; reflexivity | lia | exact demo_run | reflexivity].
Defined.

Lemma queue_grants_exclusive_witness : live_grants demo_labels = [mkRange 5 8 3; mkRange 3 5 2] /\ bit_is_set demo4 4 = Some true.
Proof.
  split; [reflexivity|].
  apply (proj1 (queue_grants_exclusive (fun _ => true) demo_rc demo_prefix 8 demo0 demo_labels (mkA demo4 [])
    ltac:(vm_compute; reflexivity) ltac:(lia) demo_run ltac:(reflexivity)) (mkRange 3 5 2)); [|cbn; lia].
  vm_compute. right. left.
Defined.

Lemma queue_dump_exact_witness : exists st, dump demo4 = Some st /\ ps_total st = 8.
Proof.
  destruct (queue_dump_exact (fun _ => true) demo_rc demo_prefix 8 demo0 demo_labels (mkA demo4 [])) as (st & H1 & H2 & _);
    [vm_compute; reflexivity | lia | exact demo_run | reflexivity |]. exists st. split; [exact H1 | exact H2].
Defined.

(** The comment of [release] says that per-queue generations are not tracked; they are, and a
    release of a part of a grant is accepted. *)
Lemma partial_release_accepted : (h ← release (mkRange 0 2 1) demo1; Some (view h)) = Some [None; None; Some 1; None; None; None; None; None].
Proof. vm_compute. reflexivity. Qed.
