(* ===== verification/QueueDaemon.v ===== *)
(** * The queue daemon and its clients

    The messages between processes (detail/mp_ipc.hpp), the handlers of the daemon for claims,
    releases and queries and the distribution of the RSS table (second half of
    detail/queue_allocator.hpp), and what [Platform::create] and the destructor of a platform
    send (platform.hpp).

    The EAL is a parameter: a handler is given the codes that [rte_mp_reply],
    [rte_eth_dev_info_get] and [rte_eth_dev_rss_reta_update] return, and its calls of the last
    and the replies are its output.  The structures of the protocol are laid out as on the
    little-endian machines DPDK runs on. *)

From Stdlib Require Import (notations) Strings.String.
From S2P Require Import Prelude Codecs Http QueueAllocator.

#[local] Open Scope Z_scope.

(** ** Messages *)

Definition kMpIpcMaxNameLen : Z := 60.
Definition kMpIpcMaxParamLen : Z := 256.

Record rte_mp_msg := mkMsg { msg_name : list byte; len_param : Z; param : list byte }.

Definition ErrorInfo : Type := Error * list byte.

(** [memset], then the name, the length and the payload. *)
Definition pack_msg (name payload : list byte) : option rte_mp_msg :=
  if (zlen name =? 0) || (kMpIpcMaxNameLen <=? zlen name) then None else
  Some (mkMsg name (zlen payload) (payload ++ replicate (Z.to_nat (kMpIpcMaxParamLen - zlen payload)) x00)).

(** [size] is [sizeof(MsgT)]; the result is the object representation. *)
Definition parse_payload (size : Z) (m : option rte_mp_msg) : ErrorInfo + list byte :=
  match m with
  | None => inl (InvalidConfig, text "parse_payload: msg pointer is null")
  | Some m =>
      if negb (len_param m =? size) then
        inl (InvalidConfig, text "parse_payload: wire len_param does not match sizeof(MsgT) — cross-version IPC mismatch?") else
      inr (take (Z.to_nat size) (param m))
  end.

(** [rc]: the code of [rte_mp_sendmsg]; with the result, the message passed to it. *)
Definition mp_ipc_send_oneway (rc : Z) (name payload : list byte) : (ErrorInfo + unit) * list rte_mp_msg :=
  match pack_msg name payload with
  | None => (inl (InvalidConfig, text "mp_ipc_send_oneway: pack_msg failed (name oversize or empty)"), [])
  | Some m =>
      (if negb (rc =? 0) then
         inl (WouldBlock, text "mp_ipc_send_oneway: rte_mp_sendmsg failed (peer not listening or socket full); message dropped")
       else inr tt, [m])
  end.

(** What [rte_mp_request_sync] gives for a request and a time out. *)
Record rte_mp_reply := mkReply { reply_rc : Z; nb_sent : Z; nb_received : Z; msgs : list rte_mp_msg }.

Definition mp_ipc_request_sync (exchange : rte_mp_msg -> Z -> rte_mp_reply) (size : Z) (name payload : list byte) (millis : Z)
    : ErrorInfo + list byte :=
  match pack_msg name payload with
  | None => inl (InvalidConfig, text "mp_ipc_request_sync: pack_msg failed")
  | Some req =>
      if millis <=? 0 then inl (InvalidConfig, text "mp_ipc_request_sync: timeout must be > 0 ms") else
      let reply := exchange req millis in
      if negb (reply_rc reply =? 0) then
        inl (Timeout, text "mp_ipc_request_sync: rte_mp_request_sync failed (timeout / peer down / IPC unavailable)") else
      if negb (nb_received reply =? 1) || negb (nb_sent reply =? 1) then
        inl (InvalidConfig, text "mp_ipc_request_sync: expected exactly 1 reply (eph IPC is 1:1 primary↔secondary)") else
      parse_payload size (head (msgs reply))
  end.

(** The reply of a handler: the message, and the result by the code [rc] of [rte_mp_reply]. *)
Definition mp_ipc_reply_send (rc : Z) (name payload : list byte) : (ErrorInfo + unit) * list rte_mp_msg :=
  match pack_msg name payload with
  | None => (inl (InvalidConfig, text "mp_ipc_reply_send: pack_msg failed"), [])
  | Some m => (if negb (rc =? 0) then inl (WouldBlock, text "mp_ipc_reply_send: rte_mp_reply failed") else inr tt, [m])
  end.

(** ** Payloads *)

Definition kQueueClaimActionName : list byte := text "eph_queue_claim".
Definition kQueueReleaseActionName : list byte := text "eph_queue_release".
Definition kNicctlQueryActionName : list byte := text "eph_nicctl_query".

(** The little-endian field of [n] bytes at [off]. *)
Definition field (n off : nat) (bs : list byte) : Z := le_val (take n (drop off bs)).
Definition int32 (z : Z) : Z := if z <? 2 ^ 31 then z else z - 2 ^ 32.

Record QueueClaimRequest := mkClaimReq { cq_version : Z; cq_count : Z; cq_pid : Z }.
Definition claim_request_bytes (q : QueueClaimRequest) : list byte :=
  le_bytes 1 (cq_version q) ++ le_bytes 1 0 ++ le_bytes 2 (cq_count q) ++ le_bytes 4 (u32 (cq_pid q)).
Definition claim_request_of (bs : list byte) : QueueClaimRequest := mkClaimReq (field 1 0 bs) (field 2 2 bs) (int32 (field 4 4 bs)).

Record QueueClaimReply := mkClaimReply { cr_version : Z; cr_ok : Z; cr_lo : Z; cr_hi : Z; cr_generation : Z; cr_error : list byte }.
Definition claim_reply_bytes (r : QueueClaimReply) : list byte :=
  le_bytes 1 (cr_version r) ++ le_bytes 1 (cr_ok r) ++ le_bytes 2 (cr_lo r) ++ le_bytes 2 (cr_hi r) ++ le_bytes 2 0 ++
  le_bytes 8 (cr_generation r) ++ cr_error r.
Definition claim_reply_of (bs : list byte) : QueueClaimReply :=
  mkClaimReply (field 1 0 bs) (field 1 1 bs) (field 2 2 bs) (field 2 4 bs) (field 8 8 bs) (take 64 (drop 16 bs)).

Record QueueReleaseRequest := mkRelReq { rq_version : Z; rq_lo : Z; rq_hi : Z; rq_generation : Z; rq_pid : Z }.
Definition release_request_bytes (q : QueueReleaseRequest) : list byte :=
  le_bytes 1 (rq_version q) ++ le_bytes 1 0 ++ le_bytes 2 (rq_lo q) ++ le_bytes 2 (rq_hi q) ++ le_bytes 2 0 ++
  le_bytes 8 (rq_generation q) ++ le_bytes 4 (u32 (rq_pid q)) ++ le_bytes 4 0.
Definition release_request_of (bs : list byte) : QueueReleaseRequest :=
  mkRelReq (field 1 0 bs) (field 2 2 bs) (field 2 4 bs) (field 8 8 bs) (int32 (field 4 16 bs)).

Record NicctlQueryRequest := mkNicctlReq { nq_version : Z; nq_kind : Z; nq_pid : Z }.
Definition nicctl_request_of (bs : list byte) : NicctlQueryRequest := mkNicctlReq (field 1 0 bs) (field 1 1 bs) (int32 (field 4 4 bs)).
Definition kStats : Z := 0.

Record NicctlQueryReply := mkNicctlReply {
  nr_version : Z; nr_ok : Z; nr_total_queues : Z; nr_free_queues : Z; nr_largest_free_run : Z;
  nr_generation : Z; nr_stale_releases : Z; nr_owned_bitmap_lo64 : Z; nr_daemon_port_id : Z; nr_error : list byte }.
Definition nicctl_reply_bytes (r : NicctlQueryReply) : list byte :=
  le_bytes 1 (nr_version r) ++ le_bytes 1 (nr_ok r) ++ le_bytes 2 (nr_total_queues r) ++ le_bytes 2 (nr_free_queues r) ++
  le_bytes 2 (nr_largest_free_run r) ++ le_bytes 8 (nr_generation r) ++ le_bytes 8 (nr_stale_releases r) ++
  le_bytes 8 (nr_owned_bitmap_lo64 r) ++ le_bytes 2 (nr_daemon_port_id r) ++ le_bytes 2 0 ++ le_bytes 4 0 ++ nr_error r.

(** [strncpy(error, s, 63)] into 64 zero bytes. *)
Definition error_field (s : list byte) : list byte := take 63 s ++ replicate (64 - length (take 63 s)) x00.
Definition no_error : list byte := replicate 64 x00.

(** ** The RSS table *)

Definition RTE_ETH_RSS_RETA_SIZE_512 : Z := 512.
Definition RTE_ETH_RETA_GROUP_SIZE : Z := 64.

Record reta_entry64 := mkEntry { reta_mask : Z; reta : list Z }.

(** What a handler does outside the allocator. *)
Inductive action :=
| RetaUpdate (port : Z) (table : list reta_entry64) (size : Z)
| Reply (m : rte_mp_msg).

(** The codes the EAL returns during one handler. *)
Record eal := mkEal { dev_info_rc : Z; dev_reta_size : Z; reta_update_rc : Z; reply_code : Z }.

Definition ENOTSUP : Z := 95.

(** The loop that collects the claimed queues. *)
Fixpoint collect_claimed (n : nat) (i : Z) (acc : list Z) (h : Header) : option (list Z) :=
  match n with
  | O => Some acc
  | S n =>
      b ← bit_is_set h i;
      if b : bool then (if zlen acc <? kMaxAllocatorQueues then collect_claimed n (i + 1) (acc ++ [i]) h else None)
      else collect_claimed n (i + 1) acc h
  end.

Definition reta_target (cl : list Z) (i : Z) : option Z := if zlen cl =? 0 then Some 0 else cl !! Z.to_nat (i mod zlen cl).

Fixpoint fill_reta (n : nat) (i : Z) (cl : list Z) (t : list reta_entry64) : option (list reta_entry64) :=
  match n with
  | O => Some t
  | S n =>
      let group := i / RTE_ETH_RETA_GROUP_SIZE in
      let bit := i mod RTE_ETH_RETA_GROUP_SIZE in
      e ← t !! Z.to_nat group;
      target ← reta_target cl i;
      fill_reta n (i + 1) cl
        (<[Z.to_nat group := mkEntry (Z.lor (reta_mask e) (u64 (Z.shiftl 1 bit))) (<[Z.to_nat bit := target]> (reta e))]> t)
  end.

Definition empty_reta : list reta_entry64 :=
  replicate (Z.to_nat (RTE_ETH_RSS_RETA_SIZE_512 / RTE_ETH_RETA_GROUP_SIZE)) (mkEntry 0 (replicate (Z.to_nat RTE_ETH_RETA_GROUP_SIZE) 0)).

Definition refresh_reta_for_claimed_ (env : eal) (h : Header) (port_id : Z) : option (bool * list action) :=
  if port_id =? 0xFFFF then Some (true, []) else
  if negb (dev_info_rc env =? 0) then Some (true, []) else
  let reta_size := if dev_reta_size env =? 0 then 128 else dev_reta_size env in
  let reta_size := Z.min reta_size RTE_ETH_RSS_RETA_SIZE_512 in
  cl ← collect_claimed (Z.to_nat (total_queues h)) 0 [] h;
  t ← fill_reta (Z.to_nat reta_size) 0 cl empty_reta;
  let rc := reta_update_rc env in
  Some ((rc =? - ENOTSUP) || (rc =? 0), [RetaUpdate port_id t reta_size]).

(** ** The handlers *)

(** The daemon: its allocator, if active, and the port it serves. *)
Record daemon := mkDaemon { active_queue_allocator : option Header; active_qalloc_port_id : Z }.

Definition with_allocator (d : daemon) (h : Header) : daemon := mkDaemon (Some h) (active_qalloc_port_id d).

Definition reject_claim (env : eal) (e : list byte) : list action :=
  map Reply (mp_ipc_reply_send (reply_code env) kQueueClaimActionName (claim_reply_bytes (mkClaimReply 1 0 0 0 0 (error_field e)))).2.

Definition on_queue_claim_thunk (env : eal) (msg : option rte_mp_msg) (d : daemon) : option (list action * daemon) :=
  match active_queue_allocator d with
  | None => Some (reject_claim env (text "daemon not ready (allocator inactive)"), d)
  | Some alloc =>
    match parse_payload 8 msg with
    | inl _ => Some (reject_claim env (text "invalid claim payload"), d)
    | inr parsed =>
      let req := claim_request_of parsed in
      if negb (cq_version req =? 1) then Some (reject_claim env (text "unsupported claim wire version"), d) else
      '(claim_r, alloc) ← claim (cq_count req) alloc;
      match claim_r with
      | inl err => Some (reject_claim env err, with_allocator d alloc)
      | inr r =>
        let reply := mkClaimReply 1 1 (lo r) (hi r) (range_generation r) no_error in
        '(_, acts1) ← refresh_reta_for_claimed_ env alloc (active_qalloc_port_id d);
        let '(sr, sent) := mp_ipc_reply_send (reply_code env) kQueueClaimActionName (claim_reply_bytes reply) in
        match sr with
        | inr _ => Some (acts1 ++ map Reply sent, with_allocator d alloc)
        | inl _ =>
          alloc ← release (mkRange (cr_lo reply) (cr_hi reply) (cr_generation reply)) alloc;
          '(_, acts2) ← refresh_reta_for_claimed_ env alloc (active_qalloc_port_id d);
          Some (acts1 ++ map Reply sent ++ acts2, with_allocator d alloc)
        end
      end
    end
  end.

Definition on_queue_release_thunk (env : eal) (msg : option rte_mp_msg) (d : daemon) : option (list action * daemon) :=
  match active_queue_allocator d with
  | None => Some ([], d)
  | Some alloc =>
    match parse_payload 24 msg with
    | inl _ => Some ([], d)
    | inr parsed =>
      let req := release_request_of parsed in
      if negb (rq_version req =? 1) then Some ([], d) else
      alloc ← release (mkRange (rq_lo req) (rq_hi req) (rq_generation req)) alloc;
      '(_, acts) ← refresh_reta_for_claimed_ env alloc (active_qalloc_port_id d);
      Some (acts, with_allocator d alloc)
    end
  end.

Definition reply_query (env : eal) (r : NicctlQueryReply) : list action :=
  map Reply (mp_ipc_reply_send (reply_code env) kNicctlQueryActionName (nicctl_reply_bytes r)).2.
Definition reject_query (env : eal) (e : list byte) : list action := reply_query env (mkNicctlReply 1 0 0 0 0 0 0 0 0 (error_field e)).

Definition on_nicctl_query_thunk (env : eal) (msg : option rte_mp_msg) (d : daemon) : option (list action) :=
  match active_queue_allocator d with
  | None => Some (reject_query env (text "daemon allocator inactive"))
  | Some alloc =>
    match parse_payload 8 msg with
    | inl _ => Some (reject_query env (text "invalid query payload"))
    | inr parsed =>
      let req := nicctl_request_of parsed in
      if negb (nq_version req =? 1) then Some (reject_query env (text "unsupported nicctl wire version")) else
      if negb (nq_kind req =? kStats) then Some (reject_query env (text "kind not yet implemented (only Stats=0 is wired)")) else
      state ← dump alloc;
      owned ← owned_queues_bitmap alloc;
      Some (reply_query env (mkNicctlReply 1 1 (ps_total state) (ps_free state) (ps_largest_free_run state) (ps_generation state)
        (ps_stale_releases state) owned (active_qalloc_port_id d) no_error))
    end
  end.

(** ** The client *)

(** The bytes of a C string. *)
Fixpoint c_string (bs : list byte) : list byte := match bs with [] => [] | b :: t => if decide (b = x00) then [] else b :: c_string t end.

(** Step 3 of [Platform::create]. *)
Definition claim_queues (exchange : rte_mp_msg -> Z -> rte_mp_reply) (pid queues : Z) : expected QueueRange :=
  match mp_ipc_request_sync exchange 80 kQueueClaimActionName (claim_request_bytes (mkClaimReq 1 queues pid)) 2000 with
  | inl e => inl (text "Platform::create: queue claim IPC failed: " ++ e.2)
  | inr bs =>
      let reply := claim_reply_of bs in
      if cr_ok reply =? 0 then inl (text "Platform::create: claim rejected: " ++ c_string (cr_error reply)) else
      inr (mkRange (cr_lo reply) (cr_hi reply) (cr_generation reply))
  end.

(** The release of a range after a failed bring-up. *)
Definition release_queues (rc pid : Z) (r : QueueRange) : (ErrorInfo + unit) * list rte_mp_msg :=
  mp_ipc_send_oneway rc kQueueReleaseActionName (release_request_bytes (mkRelReq 1 (lo r) (hi r) (range_generation r) pid)).

(** The release of the range in the destructor; the result is only logged. *)
Definition destroy_platform (rc pid : Z) (secondary : bool) (owned_queues_range : QueueRange) : list rte_mp_msg :=
  if secondary && negb (range_empty owned_queues_range) then (release_queues rc pid owned_queues_range).2 else [].

(** ** The wire format *)

Lemma le_val_le_bytes n : forall z, le_val (le_bytes n z) = z mod 256 ^ Z.of_nat n.
Proof.
  induction n as [|n IH]; intros z; [by rewrite Z.mod_1_r|]. cbn [le_bytes]. rewrite le_val_cons, IH, b2z_z2b, Z.shiftr_div_pow2 by lia.
  change (2 ^ 8) with 256. replace (Z.of_nat (S n)) with (1 + Z.of_nat n) by lia. rewrite Z.pow_add_r by lia. change (256 ^ 1) with 256.
  rewrite Z.rem_mul_r by lia. lia.
Qed.

Lemma le_field n z : 0 <= z < 256 ^ Z.of_nat n -> le_val (le_bytes n z) = z.
Proof. intros H. rewrite le_val_le_bytes. by apply Z.mod_small. Qed.

Lemma int32_u32 z : - 2 ^ 31 <= z < 2 ^ 31 -> int32 (u32 z) = z.
Proof.
  intros H. unfold int32, wrap. destruct (decide (0 <= z)).
  - rewrite Z.mod_small by lia. by zdecide.
  - rewrite <- (Z.mod_add _ 1), Z.mod_small by lia. zdecide. lia.
Qed.

Ltac le_fields := rewrite ?le_field by (cbn; lia || (apply wrap_range; lia)).

Lemma claim_request_wire q : 0 <= cq_version q < 2 ^ 8 -> 0 <= cq_count q < 2 ^ 16 -> - 2 ^ 31 <= cq_pid q < 2 ^ 31 ->
  claim_request_of (claim_request_bytes q) = q /\ zlen (claim_request_bytes q) = 8.
Proof.
  intros H1 H2 H3. split; [|done]. unfold claim_request_of.
  change (field 1 0 (claim_request_bytes q)) with (le_val (le_bytes 1 (cq_version q))).
  change (field 2 2 (claim_request_bytes q)) with (le_val (le_bytes 2 (cq_count q))).
  change (field 4 4 (claim_request_bytes q)) with (le_val (le_bytes 4 (u32 (cq_pid q)))).
  le_fields. rewrite int32_u32 by done. by destruct q.
Qed.

Lemma claim_reply_wire r : 0 <= cr_version r < 2 ^ 8 -> 0 <= cr_ok r < 2 ^ 8 -> 0 <= cr_lo r < 2 ^ 16 -> 0 <= cr_hi r < 2 ^ 16 ->
  0 <= cr_generation r < 2 ^ 64 -> zlen (cr_error r) = 64 ->
  claim_reply_of (claim_reply_bytes r) = r /\ zlen (claim_reply_bytes r) = 80.
Proof.
  intros H1 H2 H3 H4 H5 H6. split.
  - unfold claim_reply_of.
    change (field 1 0 (claim_reply_bytes r)) with (le_val (le_bytes 1 (cr_version r))).
    change (field 1 1 (claim_reply_bytes r)) with (le_val (le_bytes 1 (cr_ok r))).
    change (field 2 2 (claim_reply_bytes r)) with (le_val (le_bytes 2 (cr_lo r))).
    change (field 2 4 (claim_reply_bytes r)) with (le_val (le_bytes 2 (cr_hi r))).
    change (field 8 8 (claim_reply_bytes r)) with (le_val (le_bytes 8 (cr_generation r))).
    change (drop 16 (claim_reply_bytes r)) with (cr_error r). le_fields. rewrite take_ge by (unfold zlen in H6; lia). by destruct r.
  - unfold claim_reply_bytes. rewrite !zlen_app, H6. done.
Qed.

Lemma release_request_wire q : 0 <= rq_version q < 2 ^ 8 -> 0 <= rq_lo q < 2 ^ 16 -> 0 <= rq_hi q < 2 ^ 16 -> 0 <= rq_generation q < 2 ^ 64 ->
  - 2 ^ 31 <= rq_pid q < 2 ^ 31 -> release_request_of (release_request_bytes q) = q /\ zlen (release_request_bytes q) = 24.
Proof.
  intros H1 H2 H3 H4 H5. split; [|done]. unfold release_request_of.
  change (field 1 0 (release_request_bytes q)) with (le_val (le_bytes 1 (rq_version q))).
  change (field 2 2 (release_request_bytes q)) with (le_val (le_bytes 2 (rq_lo q))).
  change (field 2 4 (release_request_bytes q)) with (le_val (le_bytes 2 (rq_hi q))).
  change (field 8 8 (release_request_bytes q)) with (le_val (le_bytes 8 (rq_generation q))).
  change (field 4 16 (release_request_bytes q)) with (le_val (le_bytes 4 (u32 (rq_pid q)))).
  le_fields. rewrite int32_u32 by done. by destruct q.
Qed.

(** A packed payload is parsed back. *)
Lemma pack_parse name payload m : pack_msg name payload = Some m -> parse_payload (zlen payload) (Some m) = inr payload.
Proof.
  unfold pack_msg. destruct (_ || _); [done|]. intros [= <-]. unfold parse_payload. cbn [len_param param]. rewrite Z.eqb_refl. cbn [negb].
  f_equal. rewrite take_app_le by (unfold zlen; lia). apply take_ge. unfold zlen. lia.
Qed.

Lemma le_val_range bs : 0 <= le_val bs < 256 ^ zlen bs.
Proof. rewrite <- (rev_involutive bs), le_val_rev. pose proof (be_val_bound (rev bs)) as H. rewrite length_rev in H. by rewrite rev_involutive. Qed.

Lemma field_range n off bs : 0 <= field n off bs < 256 ^ Z.of_nat n.
Proof.
  unfold field. pose proof (le_val_range (take n (drop off bs))) as H. pose proof (zlen_nonneg (take n (drop off bs))).
  assert (zlen (take n (drop off bs)) <= Z.of_nat n) by (rewrite zlen_take; lia).
  pose proof (Z.pow_le_mono_r 256 (zlen (take n (drop off bs))) (Z.of_nat n)). lia.
Qed.

(** ** The RSS table is spread over the claimed queues *)

Definition claimed_queues (h : Header) : list Z := filter (fun i => claimed h i = true) (seqZ 0 (total_queues h)).

(** The queue of bucket [j], and whether the update names it. *)
Definition bucket (t : list reta_entry64) (j : Z) : Z := nth (Z.to_nat (j mod 64)) (reta (nth (Z.to_nat (j / 64)) t (mkEntry 0 []))) 0.
Definition updates (t : list reta_entry64) (j : Z) : bool := Z.testbit (reta_mask (nth (Z.to_nat (j / 64)) t (mkEntry 0 []))) (j mod 64).

(** Round robin. *)
Definition spread (cl : list Z) (j : Z) : Z := if zlen cl =? 0 then 0 else nth (Z.to_nat (j mod zlen cl)) cl 0.

Lemma collect_spec n : forall i acc h, shaped h -> 0 <= i -> i + Z.of_nat n = total_queues h -> zlen acc <= i ->
  collect_claimed n i acc h = Some (acc ++ filter (fun i => claimed h i = true) (seqZ i (Z.of_nat n))).
Proof.
  induction n as [|n IH]; intros i acc h Hs Hi Hn Ha; cbn [collect_claimed]; [by rewrite app_nil_r|].
  destruct (sh_total _ Hs). rewrite bit_is_set_ok by (apply Hs || lia). cbn [mbind option_bind].
  rewrite seqZ_cons by lia. replace (Z.pred (Z.of_nat (S n))) with (Z.of_nat n) by lia. rewrite <- Z.add_1_r.
  destruct (claimed h i) eqn:Ec.
  - unfold kMaxAllocatorQueues. zdecide. rewrite IH by (rewrite ?zlen_app; change (zlen [i]) with 1; done || lia).
    rewrite filter_cons_True by done. by rewrite <- app_assoc.
  - rewrite IH by (done || lia). by rewrite filter_cons_False by (rewrite Ec; done).
Qed.

Lemma collect_all h : shaped h -> collect_claimed (Z.to_nat (total_queues h)) 0 [] h = Some (claimed_queues h).
Proof.
  intros Hs. destruct (sh_total _ Hs). rewrite collect_spec by (done || lia). unfold claimed_queues. by rewrite Z2Nat.id by lia.
Qed.

Lemma claimed_queues_spec h q : q ∈ claimed_queues h <-> 0 <= q < total_queues h /\ claimed h q = true.
Proof. unfold claimed_queues. rewrite list_elem_of_filter, elem_of_seqZ, Z.add_0_l. apply and_comm. Qed.

Lemma NoDup_claimed_queues h : NoDup (claimed_queues h).
Proof. apply list.NoDup_filter, NoDup_seqZ. Qed.

Lemma target_spread cl i : 0 <= i -> reta_target cl i = Some (spread cl i).
Proof.
  intros Hi. unfold reta_target, spread. destruct (Z.eqb_spec (zlen cl) 0) as [|Hn]; [done|]. rewrite nth_lookup.
  pose proof (zlen_nonneg cl). pose proof (Z.mod_pos_bound i (zlen cl)). unfold zlen in *.
  destruct (lookup_lt_is_Some_2 cl (Z.to_nat (i mod Z.of_nat (length cl)))) as [q ->]; [lia|done].
Qed.

(** Eight groups of 64 buckets. *)
Definition reta_shape (t : list reta_entry64) : Prop :=
  length t = 8%nat /\ Forall (fun e => length (reta e) = 64%nat) t.

Lemma bucket_split j : 0 <= j < 512 -> 0 <= j / 64 < 8 /\ 0 <= j mod 64 < 64.
Proof. intros H. split; [split; [apply Z.div_pos; lia | apply Z.div_lt_upper_bound; lia] | apply Z.mod_pos_bound; lia]. Qed.

Lemma fill_spec n : forall i cl t, reta_shape t -> 0 <= i -> i + Z.of_nat n <= 512 ->
  exists t', fill_reta n i cl t = Some t' /\ reta_shape t' /\
    (forall j, 0 <= j < 512 -> bucket t' j = if in_run i (Z.of_nat n) j then spread cl j else bucket t j) /\
    (forall j, 0 <= j < 512 -> updates t' j = in_run i (Z.of_nat n) j || updates t j).
Proof.
  induction n as [|n IH]; intros i cl t [Hl Hf] Hi Hn; cbn [fill_reta].
  { exists t. split_and!; try done; intros j Hj; runs. }
  change RTE_ETH_RETA_GROUP_SIZE with 64. destruct (bucket_split i) as [Hd Hm]; [lia|].
  destruct (lookup_lt_is_Some_2 t (Z.to_nat (i / 64))) as [e He]; [lia|]. rewrite He. cbn [mbind option_bind].
  rewrite target_spread by done. cbn [mbind option_bind].
  set (e' := mkEntry _ _). set (t1 := <[_ := _]> t).
  assert (length (reta e) = 64%nat) as Hle by (by eapply (Forall_lookup_1 _ _ _ _ Hf)).
  destruct (IH (i + 1) cl t1) as (t' & Et & Hs & Hb & Hu); try lia.
  { split; [unfold t1; by rewrite length_insert|]. apply Forall_insert; [done|]. cbn. by rewrite length_insert. }
  assert (forall j, 0 <= j < 512 -> nth (Z.to_nat (j / 64)) t1 (mkEntry 0 []) = if i / 64 =? j / 64 then e' else nth (Z.to_nat (j / 64)) t (mkEntry 0 [])) as Ht1.
  { intros j Hj. destruct (bucket_split j Hj). rewrite !nth_lookup. unfold t1. destruct (Z.eqb_spec (i / 64) (j / 64)) as [<-|].
    - by rewrite list_lookup_insert_eq by lia.
    - by rewrite list_lookup_insert_ne by lia. }
  assert (nth (Z.to_nat (i / 64)) t (mkEntry 0 []) = e) as Hne by (by rewrite nth_lookup, He).
  exists t'. split_and!; try done.
  - intros j Hj. destruct (bucket_split j Hj). rewrite Hb by done.
    assert (bucket t1 j = if i =? j then spread cl i else bucket t j) as ->.
    { rewrite <- (same_queue i j). unfold bucket. rewrite Ht1 by done. destruct (Z.eqb_spec (i / 64) (j / 64)) as [E|]; [|done]. cbn [andb].
      rewrite <- E, Hne. cbn [reta e']. rewrite !nth_lookup. destruct (Z.eqb_spec (i mod 64) (j mod 64)) as [<-|].
      - by rewrite list_lookup_insert_eq by lia.
      - by rewrite list_lookup_insert_ne by lia. }
    unfold in_run. zbool; cbn [andb]; subst; done || (exfalso; lia).
  - intros j Hj. destruct (bucket_split j Hj). rewrite Hu by done.
    assert (updates t1 j = (i =? j) || updates t j) as ->.
    { rewrite <- (same_queue i j). unfold updates. rewrite Ht1 by done. destruct (Z.eqb_spec (i / 64) (j / 64)) as [E|]; [|done]. cbn [andb].
      rewrite <- E, Hne. cbn [reta_mask e']. rewrite Z.lor_spec, testbit_one by done. by rewrite orb_comm. }
    runs.
Qed.

(** The number of buckets with residue [k]. *)
Lemma residue_count (n k : Z) (size : nat) : 0 <= k < n ->
  zlen (filter (fun j => j mod n = k) (seqZ 0 (Z.of_nat size))) = Z.of_nat size / n + (if k <? Z.of_nat size mod n then 1 else 0).
Proof.
  intros Hk. induction size as [|m IH]; [rewrite Z.div_0_l, Z.mod_0_l by lia; by zdecide|].
  replace (Z.of_nat (S m)) with (Z.of_nat m + 1) by lia. rewrite seqZ_app, list.filter_app, zlen_app, IH by lia. cbn [seqZ].
  change (seqZ (0 + Z.of_nat m) 1) with [Z.of_nat 0 + (0 + Z.of_nat m)]. change (Z.of_nat 0) with 0. rewrite !Z.add_0_l.
  set (z := Z.of_nat m). pose proof (Z.div_mod z n ltac:(lia)) as Hz. pose proof (Z.mod_pos_bound z n ltac:(lia)) as Hb.
  destruct (decide (z mod n + 1 = n)) as [E|E].
  - rewrite <- (Z.div_unique (z + 1) n (z / n + 1) 0), <- (Z.mod_unique (z + 1) n (z / n + 1) 0) by lia.
    destruct (decide (z mod n = k)).
    + rewrite filter_cons_True by done. rewrite filter_nil. change (zlen [z]) with 1. zdecides. lia.
    + rewrite filter_cons_False by done. rewrite filter_nil. change (zlen (@nil Z)) with 0. zdecides. lia.
  - rewrite <- (Z.div_unique (z + 1) n (z / n) (z mod n + 1)), <- (Z.mod_unique (z + 1) n (z / n) (z mod n + 1)) by lia.
    destruct (decide (z mod n = k)).
    + rewrite filter_cons_True by done. rewrite filter_nil. change (zlen [z]) with 1. zdecides. lia.
    + rewrite filter_cons_False by done. rewrite filter_nil. change (zlen (@nil Z)) with 0. zbool; lia.
Qed.

Definition valid_eal (env : eal) : Prop := 0 <= dev_reta_size env < 2 ^ 16.

(** The table sends every bucket to a claimed queue (to queue 0 if there is none), and every
    claimed queue has its share of them up to one. *)
Definition buckets_of (t : list reta_entry64) (size q : Z) : list Z := filter (fun j => bucket t j = q) (seqZ 0 size).
Record spreads (t : list reta_entry64) (size : Z) (cl : list Z) : Prop := {
  sp_size : 0 < size <= 512;
  sp_updates : forall j, 0 <= j < 512 -> updates t j = (j <? size);
  sp_target : forall j, 0 <= j < size -> if zlen cl =? 0 then bucket t j = 0 else bucket t j ∈ cl;
  sp_share : forall q, q ∈ cl -> size / zlen cl <= zlen (buckets_of t size q) <= size / zlen cl + 1 }.

Lemma empty_shape : reta_shape empty_reta /\ forall j, updates empty_reta j = false.
Proof.
  split; [split; [done|]; repeat constructor|]. intros j. unfold updates. change empty_reta with (replicate 8 (mkEntry 0 (replicate 64 0))).
  destruct (Z.to_nat (j / 64)) as [|[|[|[|[|[|[|[|[|k]]]]]]]]]; apply Z.testbit_0_l.
Qed.

Lemma spread_in cl j : 0 <= j -> zlen cl <> 0 -> spread cl j ∈ cl.
Proof.
  intros Hj Hn. pose proof (target_spread cl j Hj) as H. unfold reta_target in H. rewrite (proj2 (Z.eqb_neq _ _) Hn) in H.
  by eapply list_elem_of_lookup_2.
Qed.

Lemma filter_on (P Q : Z -> Prop) `{forall x, Decision (P x)} `{forall x, Decision (Q x)} (l : list Z) :
  (forall x, x ∈ l -> P x <-> Q x) -> filter P l = filter Q l.
Proof.
  induction l as [|x l IH]; intros Hl; [done|]. rewrite !filter_cons, IH by (intros y Hy; apply Hl; by right).
  assert (P x <-> Q x) as Hx by (apply Hl; left). destruct (decide (P x)), (decide (Q x)); tauto || done.
Qed.

Lemma fill_spreads size cl : 0 < size <= 512 -> NoDup cl -> exists t, fill_reta (Z.to_nat size) 0 cl empty_reta = Some t /\ spreads t size cl.
Proof.
  intros Hsz Hd. destruct empty_shape as [He Hu]. destruct (fill_spec (Z.to_nat size) 0 cl empty_reta He) as (t & -> & _ & Hb & Hup); [lia..|].
  rewrite Z2Nat.id in * by lia. exists t. split; [done|].
  assert (forall j, 0 <= j < size -> bucket t j = spread cl j) as Hbs by (intros j Hj; rewrite Hb by lia; unfold in_run; by zdecides).
  split; [done|..].
  - intros j Hj. rewrite Hup, Hu by done. runs.
  - intros j Hj. rewrite Hbs by done. destruct (Z.eqb_spec (zlen cl) 0) as [E|E].
    + unfold spread. by rewrite (proj2 (Z.eqb_eq _ _) E).
    + apply spread_in; lia.
  - intros q Hq. apply list_elem_of_lookup in Hq as [k Hk]. pose proof (lookup_lt_Some _ _ _ Hk) as Hlt.
    assert (buckets_of t size q = filter (fun j => j mod zlen cl = Z.of_nat k) (seqZ 0 size)) as ->.
    { unfold buckets_of. apply filter_on. intros j Hj%elem_of_seqZ. rewrite Hbs by lia. unfold spread. unfold zlen in *. zdecide.
      rewrite nth_lookup. pose proof (Z.mod_pos_bound j (Z.of_nat (length cl)) ltac:(lia)).
      destruct (lookup_lt_is_Some_2 cl (Z.to_nat (j mod Z.of_nat (length cl)))) as [x Hx]; [lia|]. rewrite Hx. cbn. split.
      - intros ->. pose proof (NoDup_lookup _ _ _ _ Hd Hx Hk). lia.
      - intros E. rewrite E, Nat2Z.id in Hx. congruence. }
    pose proof (residue_count (zlen cl) (Z.of_nat k) (Z.to_nat size) ltac:(unfold zlen; lia)) as Hc. rewrite Z2Nat.id in Hc by lia.
    rewrite Hc. zbool; lia.
Qed.

(** ** The handlers *)

Lemma refresh_spec env h port : shaped h -> valid_eal env -> exists b acts, refresh_reta_for_claimed_ env h port = Some (b, acts) /\
  (forall m, Reply m ∉ acts) /\
  (port <> 0xFFFF -> dev_info_rc env = 0 -> exists t size, acts = [RetaUpdate port t size] /\ spreads t size (claimed_queues h)).
Proof.
  intros Hs Hv. unfold refresh_reta_for_claimed_. destruct (Z.eqb_spec port 0xFFFF); [do 2 eexists; split_and!; try done; intros m; apply not_elem_of_nil|].
  destruct (Z.eqb_spec (dev_info_rc env) 0) as [E|]; cbn [negb]; [|do 2 eexists; split_and!; try done; intros m; apply not_elem_of_nil].
  rewrite collect_all by done. cbn [mbind option_bind].
  edestruct (fill_spreads (Z.min (if dev_reta_size env =? 0 then 128 else dev_reta_size env) RTE_ETH_RSS_RETA_SIZE_512) (claimed_queues h)) as (t & -> & Hsp);
    [|apply NoDup_claimed_queues|].
  { unfold RTE_ETH_RSS_RETA_SIZE_512. destruct (Z.eqb_spec (dev_reta_size env) 0); destruct Hv; lia. }
  cbn [mbind option_bind]. do 2 eexists. split_and!; [done| |].
  - intros m Hm%list_elem_of_singleton. done.
  - intros _ _. do 2 eexists. done.
Qed.

Lemma reject_claim_reply env e : exists m, reject_claim env e = [Reply m] /\
  parse_payload 80 (Some m) = inr (claim_reply_bytes (mkClaimReply 1 0 0 0 0 (error_field e))).
Proof.
  unfold reject_claim, mp_ipc_reply_send. change (pack_msg kQueueClaimActionName ?p) with
    (Some (mkMsg kQueueClaimActionName (zlen p) (p ++ replicate (Z.to_nat (kMpIpcMaxParamLen - zlen p)) x00))). cbn [snd map].
  eexists. split; [done|].
  assert (zlen (claim_reply_bytes (mkClaimReply 1 0 0 0 0 (error_field e))) = 80) as <-.
  { unfold claim_reply_bytes. rewrite !zlen_app. cbn [cr_error]. unfold error_field. rewrite zlen_app. unfold zlen. rewrite length_replicate.
    assert (length (take 63 e) <= 63)%nat by (rewrite length_take; lia). rewrite !length_le_bytes. lia. }
  by apply (pack_parse kQueueClaimActionName).
Qed.

(** The range a client reads from a reply, the grants among the actions of a handler, and the
    last update of the RSS table among them. *)
Definition reply_grant (m : rte_mp_msg) : option QueueRange :=
  match parse_payload 80 (Some m) with
  | inl _ => None
  | inr bs => let reply := claim_reply_of bs in
      if cr_ok reply =? 0 then None else Some (mkRange (cr_lo reply) (cr_hi reply) (cr_generation reply))
  end.
Definition grants_in (acts : list action) : list QueueRange := omap (fun a => match a with Reply m => reply_grant m | _ => None end) acts.
Definition last_update (acts : list action) : option (list reta_entry64 * Z) :=
  list.last (omap (fun a => match a with RetaUpdate _ t size => Some (t, size) | _ => None end) acts).

Definition reta_current (env : eal) (d : daemon) (acts : list action) (h : Header) : Prop :=
  active_qalloc_port_id d <> 0xFFFF -> dev_info_rc env = 0 ->
  exists t size, last_update acts = Some (t, size) /\ spreads t size (claimed_queues h).

Lemma no_grants acts : (forall m, Reply m ∉ acts) -> grants_in acts = [].
Proof.
  intros H. unfold grants_in. induction acts as [|[|m] acts IH]; [done|..]; cbn.
  - apply IH. intros m Hm. apply (H m). by right.
  - destruct (H m). left.
Qed.

Lemma rejected_grants env e : grants_in (reject_claim env e) = [].
Proof.
  destruct (reject_claim_reply env e) as (m & -> & Hp). unfold grants_in. cbn. unfold reply_grant. rewrite Hp. cbn [cr_ok claim_reply_of].
  change (field 1 1 _) with (le_val (le_bytes 1 0)). rewrite le_field by done. done.
Qed.

Lemma granted_reply env (r : QueueRange) : valid_range r -> 0 <= range_generation r < 2 ^ 64 ->
  exists m, mp_ipc_reply_send (reply_code env) kQueueClaimActionName (claim_reply_bytes (mkClaimReply 1 1 (lo r) (hi r) (range_generation r) no_error)) =
    (if negb (reply_code env =? 0) then inl (WouldBlock, text "mp_ipc_reply_send: rte_mp_reply failed") else inr tt, [m]) /\
    parse_payload 80 (Some m) = inr (claim_reply_bytes (mkClaimReply 1 1 (lo r) (hi r) (range_generation r) no_error)) /\
    reply_grant m = Some r.
Proof.
  intros [Hl Hh] Hg. destruct (claim_reply_wire (mkClaimReply 1 1 (lo r) (hi r) (range_generation r) no_error)) as [Hw Hz]; cbn [cr_version cr_ok cr_lo cr_hi cr_generation cr_error]; try lia; try done.
  set (p := claim_reply_bytes _) in *. unfold mp_ipc_reply_send.
  assert (pack_msg kQueueClaimActionName p = Some (mkMsg kQueueClaimActionName (zlen p) (p ++ replicate (Z.to_nat (kMpIpcMaxParamLen - zlen p)) x00))) as Ep by done.
  destruct (pack_msg kQueueClaimActionName p) as [m|] eqn:E; [|done]. exists m. split; [done|]. pose proof (pack_parse _ _ _ E) as Hp. rewrite Hz in Hp.
  split; [done|]. unfold reply_grant. rewrite Hp, Hw. cbn. by destruct r.
Qed.

Lemma pool_claim_range count h r p' : shaped h -> 0 <= count -> generation h < 2 ^ 64 - 1 -> pool_claim count (pool_of h) = (inr r, p') ->
  valid_range r /\ 0 <= range_generation r < 2 ^ 64 /\ range_generation r = generation h + 1.
Proof.
  intros Hs Hc Hg. unfold pool_claim. destruct (Z.eqb_spec count 0); [done|]. cbn [holders claims rejected pool_of].
  destruct (first_fit _ _) as [s|] eqn:E; [|done]. intros [= <- _]. destruct (sh_total _ Hs). pose proof (sh_generation _ Hs).
  apply find_some in E as [_ [E _]%free_run_spec]; [|lia]. unfold valid_range. cbn. lia.
Qed.

Lemma last_update_app acts1 acts2 : last_update (acts1 ++ acts2) = match last_update acts2 with None => last_update acts1 | Some x => Some x end.
Proof. unfold last_update. rewrite omap_app. apply last_app. Qed.

Lemma refresh_current env h d acts m : active_qalloc_port_id d <> 0xFFFF -> dev_info_rc env = 0 ->
  (active_qalloc_port_id d <> 0xFFFF -> dev_info_rc env = 0 -> exists t size, acts = [RetaUpdate (active_qalloc_port_id d) t size] /\ spreads t size (claimed_queues h)) ->
  exists t size, last_update (acts ++ [Reply m]) = Some (t, size) /\ last_update acts = Some (t, size) /\ spreads t size (claimed_queues h).
Proof. intros Hp Hd H. destruct (H Hp Hd) as (t & size & -> & Hsp). exists t, size. done. Qed.

Inductive claim_outcome (env : eal) (d : daemon) (h : Header) (acts : list action) (h' : Header) : Prop :=
| outcome_rejected : h' = h -> grants_in acts = [] -> claim_outcome env d h acts h'
| outcome_granted count r : 0 <= count -> reply_code env = 0 -> pool_claim count (pool_of h) = (inr r, pool_of h') ->
    grants_in acts = [r] -> reta_current env d acts h' -> claim_outcome env d h acts h'
| outcome_rolled_back count r p1 : 0 <= count -> reply_code env <> 0 -> pool_claim count (pool_of h) = (inr r, p1) -> pool_of h' = pool_release r p1 ->
    view h' = view h -> reta_current env d acts h' -> claim_outcome env d h acts h'.

Lemma claim_thunk_spec env msg d h : active_queue_allocator d = Some h -> shaped h -> generation h < 2 ^ 64 - 1 -> stale_releases h < 2 ^ 64 - 1 -> valid_eal env ->
  exists acts h', on_queue_claim_thunk env msg d = Some (acts, with_allocator d h') /\ shaped h' /\ claim_outcome env d h acts h'.
Proof.
  intros Ha Hs Hg Hst Hv. unfold on_queue_claim_thunk. rewrite Ha. assert (d = with_allocator d h) as Ed by (unfold with_allocator; rewrite <- Ha; by destruct d).
  assert (forall e, exists acts h', Some (reject_claim env e, d) = Some (acts, with_allocator d h') /\ shaped h' /\ claim_outcome env d h acts h') as Hrej.
  { intros e. do 2 eexists. split; [by rewrite Ed at 1|]. split; [done|]. apply outcome_rejected; [done|apply rejected_grants]. }
  destruct (parse_payload 8 msg) as [|bs]; [apply Hrej|]. destruct (negb (cq_version (claim_request_of bs) =? 1)); [apply Hrej|].
  assert (0 <= cq_count (claim_request_of bs) < 2 ^ 16) as Hc by (cbn; apply field_range). set (count := cq_count _) in *.
  destruct (claim_refines h count Hs Hc Hg) as (res & h1 & E1 & Hs1 & E2). rewrite E1. cbn [mbind option_bind]. destruct res as [e|r].
  { do 2 eexists. split; [done|]. split; [done|]. apply outcome_rejected; [|apply rejected_grants].
    revert E1. unfold claim. destruct (count =? 0); [by intros [= _ ->]|]. destruct (total_queues h <? count); [by intros [= _ ->]|].
    destruct (scan _ _ _ _ _ _) as [[s|]|]; cbn [mbind option_bind]; [|by intros [= _ ->]|done]. destruct (mark _ _ _ _); done. }
  destruct (pool_claim_range _ _ _ _ Hs (proj1 Hc) Hg E2) as (Hr & Hgen & _). destruct (granted_reply env r Hr Hgen) as (m & Es & _ & Hm).
  destruct (refresh_spec env h1 (active_qalloc_port_id d) Hs1 Hv) as (b & acts & Er & Hno & Hre). rewrite Er. cbn [mbind option_bind]. rewrite Es.
  destruct (Z.eqb_spec (reply_code env) 0) as [Ec|Ec]; cbn [negb map].
  - do 2 eexists. split; [done|]. split; [done|]. apply (outcome_granted _ _ _ _ _ count r); [lia|done|done| |].
    + unfold grants_in in *. rewrite omap_app. pose proof (no_grants acts Hno) as Hn. unfold grants_in in Hn. rewrite Hn. cbn. by rewrite Hm.
    + intros Hp Hd. destruct (refresh_current env h1 d acts m Hp Hd Hre) as (t & size & H1 & _ & H2). eauto.
  - cbn [cr_lo cr_hi cr_generation]. replace (mkRange (lo r) (hi r) (range_generation r)) with r by (by destruct r).
    destruct (claim_release_view h count r h1 Hs Hc Hg Hst E1) as (h2 & E3 & Hs2 & Ev & _). rewrite E3. cbn [mbind option_bind].
    destruct (refresh_spec env h2 (active_qalloc_port_id d) Hs2 Hv) as (b2 & acts2 & Er2 & Hno2 & Hre2). rewrite Er2. cbn [mbind option_bind].
    do 2 eexists. split; [done|]. split; [done|]. apply (outcome_rolled_back _ _ _ _ _ count r (pool_of h1)); [lia|done|done| |done|].
    + destruct (release_refines h1 r Hs1 Hr) as (h2' & E4 & _ & E5); [|congruence].
      destruct (pool_claim_counts count (pool_of h)) as [_ H]. rewrite E2 in H. cbn in H. lia.
    + intros Hp Hd. destruct (Hre2 Hp Hd) as (t & size & -> & Hsp). exists t, size. split; [|done].
      rewrite app_assoc, last_update_app. done.
Qed.

Lemma release_thunk_spec env msg d h : active_queue_allocator d = Some h -> shaped h -> stale_releases h < 2 ^ 64 - 1 -> valid_eal env ->
  exists acts h', on_queue_release_thunk env msg d = Some (acts, with_allocator d h') /\ shaped h' /\ grants_in acts = [] /\
    (h' = h \/ exists bs, parse_payload 24 msg = inr bs /\ let q := release_request_of bs in
      pool_of h' = pool_release (mkRange (rq_lo q) (rq_hi q) (rq_generation q)) (pool_of h) /\ reta_current env d acts h').
Proof.
  intros Ha Hs Hst Hv. unfold on_queue_release_thunk. rewrite Ha. assert (d = with_allocator d h) as Ed by (unfold with_allocator; rewrite <- Ha; by destruct d).
  assert (forall X : list action -> Header -> Prop, exists acts h', Some ([] : list action, d) = Some (acts, with_allocator d h') /\ shaped h' /\ grants_in acts = [] /\
    (h' = h \/ X acts h')) as Hrej.
  { intros X. do 2 eexists. split; [by rewrite Ed at 1|]. split_and!; [done..|by left]. }
  destruct (parse_payload 24 msg) as [|bs]; [apply Hrej|]. destruct (negb (rq_version (release_request_of bs) =? 1)); [apply Hrej|].
  set (q := release_request_of bs). destruct (release_refines h (mkRange (rq_lo q) (rq_hi q) (rq_generation q)) Hs) as (h1 & E1 & Hs1 & E2).
  { split; apply field_range. } { done. }
  rewrite E1. cbn [mbind option_bind]. destruct (refresh_spec env h1 (active_qalloc_port_id d) Hs1 Hv) as (b & acts & Er & Hno & Hre). rewrite Er. cbn [mbind option_bind].
  do 2 eexists. split; [done|]. split; [done|]. split; [by apply no_grants|]. right. exists bs. split_and!; [done|done|].
  intros Hp Hd. destruct (Hre Hp Hd) as (t & size & -> & Hsp). by exists t, size.
Qed.

Lemma query_thunk_spec env msg d h : active_queue_allocator d = Some h -> shaped h -> exists acts, on_nicctl_query_thunk env msg d = Some acts.
Proof.
  intros Ha Hs. unfold on_nicctl_query_thunk. rewrite Ha. destruct (parse_payload 8 msg) as [|bs]; [by eexists|].
  destruct (negb _); [by eexists|]. destruct (negb _); [by eexists|]. destruct (sh_total _ Hs).
  unfold dump, free_queues_unlocked_, largest_free_run_unlocked_. rewrite free_loop_spec by (done || lia). cbn [mbind option_bind].
  destruct (run_loop_spec (Z.to_nat (total_queues h)) h 0 0 0) as (m & Em & _); try done; try lia.
  { split; [exists 0; split_and!; lia|]. intros t; lia. }
  rewrite Em. cbn [mbind option_bind]. unfold owned_queues_bitmap.
  destruct (lookup_lt_is_Some_2 (bitmap h) 0) as [w ->]; [|by eexists]. pose proof (sh_bitmap _ Hs). unfold zlen in *. lia.
Qed.

(** ** Runs of the daemon *)

Inductive event := EvClaim (msg : option rte_mp_msg) | EvRelease (msg : option rte_mp_msg) | EvQuery (msg : option rte_mp_msg).

Definition handle (env : eal) (ev : event) (d : daemon) : option (list action * daemon) :=
  match ev with
  | EvClaim msg => on_queue_claim_thunk env msg d
  | EvRelease msg => on_queue_release_thunk env msg d
  | EvQuery msg => acts ← on_nicctl_query_thunk env msg d; Some (acts, d)
  end.

(** The ranges clients hold: granted by a reply that was delivered, and not named since by a
    release message. *)
Definition client_step (env : eal) (ev : event) (acts : list action) (live : list QueueRange) : list QueueRange :=
  match ev with
  | EvClaim _ => if reply_code env =? 0 then grants_in acts ++ live else live
  | EvRelease msg =>
      match parse_payload 24 msg with
      | inl _ => live
      | inr bs => filter (fun q => range_generation q <> rq_generation (release_request_of bs)) live
      end
  | EvQuery _ => live
  end.

Fixpoint daemon_run (evs : list (eal * event)) (d : daemon) (live : list QueueRange) : option (daemon * list QueueRange) :=
  match evs with
  | [] => Some (d, live)
  | (env, ev) :: evs => '(acts, d') ← handle env ev d; daemon_run evs d' (client_step env ev acts live)
  end.

Record daemon_inv (total port k : Z) (d : daemon) (h : Header) (live : list QueueRange) : Prop := {
  di_active : active_queue_allocator d = Some h;
  di_port : active_qalloc_port_id d = port;
  di_shaped : shaped h;
  di_total : total_queues h = total;
  di_generation : generation h <= k;
  di_stale : stale_releases h <= k;
  di_grants : grants_inv (pool_of h) live }.

Lemma filter_everything {A} (P : A -> Prop) `{forall x, Decision (P x)} (l : list A) : (forall x, x ∈ l -> P x) -> filter P l = l.
Proof.
  induction l as [|x l IH]; intros Hl; [done|]. rewrite filter_cons_True by (apply Hl; left). f_equal. apply IH. intros y Hy. apply Hl. by right.
Qed.

Lemma rolled_back_grants p live count r p1 : grants_inv p live -> 0 <= count -> pool_claim count p = (inr r, p1) -> range_generation r = claims p + 1 ->
  grants_inv (pool_release r p1) live.
Proof.
  intros Hi Hc E Hg. pose proof (release_grants r p1 _ (claim_grants count p _ p1 live Hi Hc E)) as H. cbn [grant_step] in H.
  rewrite filter_cons_False in H by (by intros Hn). rewrite filter_everything in H; [done|]. intros q Hq Heq. apply (gi_range _ _ Hi) in Hq. lia.
Qed.

Lemma outcome_inv total port k d h live env msg acts h' : daemon_inv total port k d h live -> k < 2 ^ 64 - 1 -> shaped h' -> claim_outcome env d h acts h' ->
  daemon_inv total port (k + 1) (with_allocator d h') h' (client_step env (EvClaim msg) acts live).
Proof.
  intros [Ha Hp Hs Ht Hg Hst Hi] Hk Hs' Ho. cbn [client_step]. destruct Ho as [-> Hn|count r Hc Hr E Hn _|count r p1 Hc Hr E Ep Ev _].
  - rewrite Hn. split; try done; try lia. by destruct (_ =? _).
  - rewrite Hr, Hn. cbn [Z.eqb]. pose proof (pool_claim_counts count (pool_of h)) as [H1 H2]. pose proof (pool_claim_length count (pool_of h)) as H3.
    rewrite E in H1, H2, H3. cbn [fst snd claims rejected pool_of] in *. split; try done; try lia.
    + rewrite <- Ht. apply pool_total; [apply Hs|apply Hs'|done].
    + by apply (claim_grants count (pool_of h) (inr r)).
  - rewrite (proj2 (Z.eqb_neq _ _) Hr). destruct (pool_claim_range _ _ _ _ Hs Hc ltac:(lia) E) as (_ & _ & Hgen).
    pose proof (pool_claim_counts count (pool_of h)) as [H1 H2]. pose proof (pool_claim_length count (pool_of h)) as H3. rewrite E in H1, H2, H3.
    destruct (pool_release_counts r p1) as (H4 & H5 & H6). rewrite <- Ep in *. cbn [fst snd claims rejected pool_of] in *. split; try done; try lia.
    + rewrite <- Ht. apply pool_total; [apply Hs|apply Hs'|congruence].
    + rewrite Ep. by eapply rolled_back_grants.
Qed.

Lemma handle_inv total port k d h live env ev : daemon_inv total port k d h live -> k < 2 ^ 64 - 1 -> valid_eal env ->
  exists acts h', handle env ev d = Some (acts, with_allocator d h') /\ daemon_inv total port (k + 1) (with_allocator d h') h' (client_step env ev acts live) /\
    (view h' = view h \/ reta_current env d acts h').
Proof.
  intros Hi Hk Hv. pose proof Hi as [Ha Hp Hs Ht Hg Hst Hgr]. destruct ev as [msg|msg|msg]; cbn [handle].
  - destruct (claim_thunk_spec env msg d h Ha Hs ltac:(lia) ltac:(lia) Hv) as (acts & h' & E & Hs' & Ho). exists acts, h'. split; [done|]. split.
    + by eapply outcome_inv.
    + destruct Ho as [->| |]; [by left|by right|by right].
  - destruct (release_thunk_spec env msg d h Ha Hs ltac:(lia) Hv) as (acts & h' & E & Hs' & Hn & Ho). exists acts, h'. split; [done|].
    destruct Ho as [->|(bs & Eb & Ep & Hr)].
    + split; [|by left]. cbn [client_step]. split; try done; try lia. destruct (parse_payload 24 msg) as [|bs]; [done|].
      destruct Hgr as [G1 G2 G3 G4]. split; [intros q [_ Hq]%list_elem_of_filter; by apply G1|intros q i [_ Hq]%list_elem_of_filter; by apply G2|done|].
      by apply NoDup_filter_gen.
    + split; [|by right]. cbn [client_step]. rewrite Eb. destruct (pool_release_counts (mkRange (rq_lo (release_request_of bs)) (rq_hi (release_request_of bs)) (rq_generation (release_request_of bs))) (pool_of h)) as (H4 & H5 & H6).
      rewrite <- Ep in *. cbn [claims rejected pool_of] in *. split; try done; try lia.
      * rewrite <- Ht. apply pool_total; [apply Hs|apply Hs'|done].
      * rewrite Ep. exact (release_grants (mkRange (rq_lo (release_request_of bs)) (rq_hi (release_request_of bs)) (rq_generation (release_request_of bs))) _ _ Hgr).
  - destruct (query_thunk_spec env msg d h Ha Hs) as (acts & E). exists acts, h. rewrite E. cbn [mbind option_bind].
    assert (d = with_allocator d h) as Ed by (unfold with_allocator; rewrite <- Ha; by destruct d). split; [by rewrite Ed at 1|]. split; [|by left].
    split; try done; lia.
Qed.

Lemma daemon_run_inv total port evs : forall k d h live, daemon_inv total port k d h live -> 0 <= k -> k + zlen evs < 2 ^ 64 -> Forall (fun e => valid_eal e.1) evs ->
  exists d' h' live', daemon_run evs d live = Some (d', live') /\ daemon_inv total port (k + zlen evs) d' h' live'.
Proof.
  induction evs as [|[env ev] evs IH]; intros k d h live Hi Hk Hb Hv; cbn [daemon_run].
  - exists d, h, live. split; [done|]. change (zlen []) with 0. by rewrite Z.add_0_r.
  - rewrite zlen_cons in *. apply Forall_cons_iff in Hv as [Hv Hvs]. pose proof (zlen_nonneg evs).
    destruct (handle_inv total port k d h live env ev Hi ltac:(lia) Hv) as (acts & h1 & -> & Hi1 & _). cbn [mbind option_bind].
    destruct (IH (k + 1) _ h1 _ Hi1) as (d' & h' & live' & E & Hi'); [lia|lia|done|]. exists d', h', live'. split; [done|].
    by replace (k + (zlen evs + 1)) with (k + 1 + zlen evs) by lia.
Qed.

Lemma create_daemon_inv reserved rc prefix total h port : create_primary reserved rc prefix total = inr h -> 0 <= total ->
  daemon_inv total port 0 (mkDaemon (Some h) port) h [].
Proof.
  intros Hc Ht. destruct (create_inv _ _ _ _ _ Hc Ht) as [Hs E Hg Hst _ Hp]. split; try done. by apply (pool_run_grants total []).
Qed.

(** ** A client of the daemon *)

(** The messages a handler sends back. *)
Definition replies (acts : list action) : list rte_mp_msg := omap (fun a => match a with Reply m => Some m | _ => None end) acts.

Lemma text_error e : (length e <= 63)%nat -> x00 ∉ e -> c_string (error_field e) = e.
Proof.
  intros Hl Hz. unfold error_field. rewrite take_ge by lia. remember (64 - length e)%nat as n. assert (n <> 0)%nat by lia. clear Heqn Hl.
  induction e as [|b e IH]; cbn.
  - destruct n; [done|]. cbn. by destruct (decide _).
  - destruct (decide (b = x00)) as [->|]; [destruct Hz; left|]. f_equal. apply IH. intros H'. apply Hz. by right.
Qed.

Lemma claim_errors count p e p' : pool_claim count p = (inl e, p') -> (length e <= 63)%nat /\ x00 ∉ e.
Proof.
  unfold pool_claim. destruct (count =? 0); [intros [= <- _]|destruct (first_fit _ _); [done|intros [= <- _]]];
    (split; [vm_compute; lia|]); apply (bool_decide_unpack _); vm_compute; exact I.
Qed.

Lemma no_replies acts : (forall m, Reply m ∉ acts) -> replies acts = [].
Proof.
  intros H. unfold replies. induction acts as [|[|m] acts IH]; [done|..]; cbn.
  - apply IH. intros m Hm. apply (H m). by right.
  - destruct (H m). left.
Qed.

Lemma request_claim exchange pid queues req m bs : pack_msg kQueueClaimActionName (claim_request_bytes (mkClaimReq 1 queues pid)) = Some req ->
  exchange req 2000 = mkReply 0 1 1 [m] -> parse_payload 80 (Some m) = inr bs ->
  claim_queues exchange pid queues = let reply := claim_reply_of bs in
    if cr_ok reply =? 0 then inl (text "Platform::create: claim rejected: " ++ c_string (cr_error reply)) else
    inr (mkRange (cr_lo reply) (cr_hi reply) (cr_generation reply)).
Proof. intros E1 E2 E3. unfold claim_queues, mp_ipc_request_sync. rewrite E1, E2. cbn [reply_rc nb_sent nb_received msgs head Z.leb Z.compare Z.eqb negb orb]. by rewrite E3. Qed.

(** The exchange of a request with the daemon, when the reply arrives. *)
Definition daemon_exchange (env : eal) (d : daemon) (req : rte_mp_msg) (millis : Z) : rte_mp_reply :=
  match on_queue_claim_thunk env (Some req) d with
  | Some (acts, _) => mkReply 0 1 1 (replies acts)
  | None => mkReply (-1) 0 0 []
  end.

Lemma claim_roundtrip env d h queues pid : active_queue_allocator d = Some h -> shaped h -> generation h < 2 ^ 64 - 1 -> valid_eal env -> reply_code env = 0 ->
  0 <= queues < 2 ^ 16 -> - 2 ^ 31 <= pid < 2 ^ 31 ->
  exists req acts h1, pack_msg kQueueClaimActionName (claim_request_bytes (mkClaimReq 1 queues pid)) = Some req /\
    on_queue_claim_thunk env (Some req) d = Some (acts, with_allocator d h1) /\ shaped h1 /\ pool_of h1 = (pool_claim queues (pool_of h)).2 /\
    claim_queues (daemon_exchange env d) pid queues =
      match (pool_claim queues (pool_of h)).1 with inr r => inr r | inl e => inl (text "Platform::create: claim rejected: " ++ e) end.
Proof.
  intros Ha Hs Hg Hv Hc Hq Hpid.
  destruct (pack_msg kQueueClaimActionName (claim_request_bytes (mkClaimReq 1 queues pid))) as [req|] eqn:Epack; [|discriminate].
  destruct (claim_request_wire (mkClaimReq 1 queues pid)) as [Hw Hz]; cbn [cq_version cq_count cq_pid]; try lia.
  pose proof (pack_parse _ _ _ Epack) as Hparse. rewrite Hz in Hparse.
  destruct (claim_refines h queues Hs Hq Hg) as (res & h1 & E1 & Hs1 & E2).
  destruct res as [e|r].
  - destruct (reject_claim_reply env e) as (m & Em & Hm).
    assert (on_queue_claim_thunk env (Some req) d = Some ([Reply m], with_allocator d h1)) as Et.
    { unfold on_queue_claim_thunk. rewrite Ha, Hparse, Hw. cbn [cq_version cq_count Z.eqb Pos.eqb negb]. rewrite E1. cbn [mbind option_bind]. by rewrite Em. }
    exists req, [Reply m], h1. rewrite E2. split_and!; try done.
    erewrite request_claim; [|exact Epack|unfold daemon_exchange; rewrite Et; reflexivity|exact Hm].
    destruct (claim_errors _ _ _ _ E2). destruct (claim_reply_wire (mkClaimReply 1 0 0 0 0 (error_field e))) as [-> _]; cbn [cr_version cr_ok cr_lo cr_hi cr_generation cr_error]; try lia.
    { unfold error_field. rewrite zlen_app. unfold zlen. rewrite length_replicate, length_take. lia. }
    cbn. by rewrite text_error.
  - destruct (pool_claim_range _ _ _ _ Hs (proj1 Hq) Hg E2) as (Hr & Hgen & _). destruct (granted_reply env r Hr Hgen) as (m & Es & Hm & Hgr).
    destruct (refresh_spec env h1 (active_qalloc_port_id d) Hs1 Hv) as (b & acts & Er & Hno & _).
    assert (on_queue_claim_thunk env (Some req) d = Some (acts ++ [Reply m], with_allocator d h1)) as Et.
    { unfold on_queue_claim_thunk. rewrite Ha, Hparse, Hw. cbn [cq_version cq_count Z.eqb Pos.eqb negb]. rewrite E1. cbn [mbind option_bind].
      rewrite Er. cbn [mbind option_bind]. rewrite Es, Hc. done. }
    exists req, (acts ++ [Reply m]), h1. rewrite E2. split_and!; try done.
    erewrite request_claim; [|exact Epack| |exact Hm].
    + unfold reply_grant in Hgr. rewrite Hm in Hgr. cbv zeta in *. destruct (cr_ok _ =? 0); [done|]. cbn [fst]. congruence.
    + unfold daemon_exchange. rewrite Et. unfold replies. rewrite omap_app. pose proof (no_replies acts Hno) as Hn. unfold replies in Hn. by rewrite Hn.
Qed.

Lemma release_roundtrip env rc d h r pid : active_queue_allocator d = Some h -> shaped h -> stale_releases h < 2 ^ 64 - 1 -> valid_eal env ->
  valid_range r -> lo r < hi r -> 0 <= range_generation r < 2 ^ 64 -> - 2 ^ 31 <= pid < 2 ^ 31 ->
  exists m acts h', destroy_platform rc pid true r = [m] /\ on_queue_release_thunk env (Some m) d = Some (acts, with_allocator d h') /\
    release r h = Some h' /\ shaped h' /\ pool_of h' = pool_release r (pool_of h).
Proof.
  intros Ha Hs Hst Hv [Hl Hh] Hlh Hg Hpid. unfold destroy_platform, range_empty. zdecide. cbn [negb andb]. unfold release_queues, mp_ipc_send_oneway.
  destruct (pack_msg kQueueReleaseActionName (release_request_bytes (mkRelReq 1 (lo r) (hi r) (range_generation r) pid))) as [m|] eqn:Epack; [|discriminate].
  destruct (release_request_wire (mkRelReq 1 (lo r) (hi r) (range_generation r) pid)) as [Hw Hz]; cbn [rq_version rq_lo rq_hi rq_generation rq_pid]; try lia.
  pose proof (pack_parse _ _ _ Epack) as Hparse. rewrite Hz in Hparse.
  destruct (release_refines h r Hs) as (h' & E1 & Hs1 & E2); [done|done|].
  destruct (refresh_spec env h' (active_qalloc_port_id d) Hs1 Hv) as (b & acts & Er & _ & _).
  exists m, acts, h'. split_and!; try done. unfold on_queue_release_thunk. rewrite Ha, Hparse, Hw. cbn [rq_version rq_lo rq_hi rq_generation Z.eqb Pos.eqb negb].
  replace (mkRange (lo r) (hi r) (range_generation r)) with r by (by destruct r). rewrite E1. cbn [mbind option_bind]. by rewrite Er.
Qed.

(** ** Main theorems *)

(** *** A run

    Two clients claim three and two queues; the second reply is lost, so the daemon takes that
    grant back. *)

Definition demo_env : eal := mkEal 0 128 0 0.
Definition lossy_env : eal := mkEal 0 128 0 (-1).
Definition demo_request (n : Z) : option rte_mp_msg := pack_msg kQueueClaimActionName (claim_request_bytes (mkClaimReq 1 n 4711)).
Definition demo_events : list (eal * event) :=
  [(demo_env, EvClaim (demo_request 3)); (lossy_env, EvClaim (demo_request 2)); (demo_env, EvQuery (demo_request 0)); (demo_env, EvClaim None)].
Definition demo_daemon : daemon := mkDaemon (Some demo0) 0.

(** The queues of a client are its own.  Over every sequence of messages that reach the
    daemon, malformed ones included, and whatever the NIC and the message layer answer, every
    handler returns without touching memory outside the allocator, and the ranges that clients
    have read from delivered replies, and that no release message has named since, lie in the
    pool, are claimed under their generation and do not overlap.  A reply that cannot be sent
    takes its grant back. *)
Theorem daemon_grants_exclusive reserved rc prefix total h0 port evs :
  create_primary reserved rc prefix total = inr h0 -> 0 <= total -> zlen evs < 2 ^ 64 -> Forall (fun e => valid_eal e.1) evs ->
  exists d h live, daemon_run evs (mkDaemon (Some h0) port) [] = Some (d, live) /\ active_queue_allocator d = Some h /\ exclusive total h live.
Proof.
  intros Hc Ht Hb Hv. destruct (daemon_run_inv total port evs 0 _ h0 [] (create_daemon_inv _ _ _ _ _ port Hc Ht)) as (d & h & live & E & Hi); [lia|lia|done|].
  exists d, h, live. split; [done|]. destruct Hi. split; [done|]. by apply grants_exclusive.
Qed.

Lemma daemon_grants_exclusive_witness :
  exists d h live, daemon_run demo_events (mkDaemon (Some demo0) 0) [] = Some (d, live) /\ active_queue_allocator d = Some h /\ exclusive 8 h live.
Proof.
  apply (daemon_grants_exclusive (fun _ => true) demo_rc demo_prefix 8 demo0 0 demo_events);
    [vm_compute; reflexivity | lia | reflexivity |].
  repeat (apply List.Forall_cons; [unfold valid_eal; cbn; lia|]). apply List.Forall_nil.
Defined.

Lemma demo_live : (r ← daemon_run demo_events demo_daemon []; Some r.2) = Some [mkRange 0 3 1].
Proof. vm_compute. reflexivity. Qed.

(** Traffic reaches claimed queues only, and evenly.  In every state the daemon reaches, a
    handler that changes which queues are claimed ends with an update of the RSS table (unless
    there is no port or the NIC gives no information) of its 128 or at most 512 buckets, in
    which every bucket leads to a queue claimed in the new state -- to queue 0 when there is none
    -- and every claimed queue has its share of the buckets up to one. *)
Theorem daemon_spreads_traffic reserved rc prefix total h0 port evs d live h env ev :
  create_primary reserved rc prefix total = inr h0 -> 0 <= total -> zlen evs < 2 ^ 64 - 1 -> Forall (fun e => valid_eal e.1) evs ->
  daemon_run evs (mkDaemon (Some h0) port) [] = Some (d, live) -> active_queue_allocator d = Some h ->
  valid_eal env -> port <> 0xFFFF -> dev_info_rc env = 0 ->
  exists acts d' h', handle env ev d = Some (acts, d') /\ active_queue_allocator d' = Some h' /\
    (view h' <> view h -> exists t size, last_update acts = Some (t, size) /\ spreads t size (claimed_queues h')).
Proof.
  intros Hc Ht Hb Hv Hrun Ha Henv Hport Hdev. pose proof (zlen_nonneg evs).
  destruct (daemon_run_inv total port evs 0 _ h0 [] (create_daemon_inv _ _ _ _ _ port Hc Ht)) as (d1 & h1 & live1 & E & Hi); [lia|lia|done|].
  rewrite Hrun in E. injection E as <- <-. pose proof (di_active _ _ _ _ _ _ Hi) as Ha'. rewrite Ha in Ha'. injection Ha' as <-.
  destruct (handle_inv _ _ _ _ _ _ env ev Hi ltac:(lia) Henv) as (acts & h' & Eh & _ & Hor). exists acts, (with_allocator d h'), h'. split; [done|]. split; [done|].
  intros Hne. destruct Hor as [?|Hr]; [done|]. apply Hr; [|done]. by rewrite (di_port _ _ _ _ _ _ Hi).
Qed.

Lemma daemon_spreads_traffic_witness :
  exists acts d' h', handle demo_env (EvClaim (demo_request 3)) demo_daemon = Some (acts, d') /\ active_queue_allocator d' = Some h' /\
    (view h' <> view demo0 -> exists t size, last_update acts = Some (t, size) /\ spreads t size (claimed_queues h')).
Proof.
  apply (daemon_spreads_traffic (fun _ => true) demo_rc demo_prefix 8 demo0 0 [] demo_daemon [] demo0 demo_env (EvClaim (demo_request 3)));
    [vm_compute; reflexivity | lia | reflexivity | constructor | reflexivity | reflexivity | unfold valid_eal; cbn; lia | lia | reflexivity].
Defined.

(** The life of a client.  From every state the daemon reaches, the request a platform sends
    is read back by the daemon, and what the platform reads from the reply is exactly the result
    of the abstract pool: the same range and generation, or the text of the refusal; and when
    the platform is destroyed the message it sends frees exactly the queues of that range, so
    that every queue is held as before. *)
Theorem platform_claim_release reserved rc prefix total h0 port evs d live h env env2 queues pid :
  create_primary reserved rc prefix total = inr h0 -> 0 <= total -> zlen evs < 2 ^ 64 - 1 -> Forall (fun e => valid_eal e.1) evs ->
  daemon_run evs (mkDaemon (Some h0) port) [] = Some (d, live) -> active_queue_allocator d = Some h ->
  valid_eal env -> reply_code env = 0 -> valid_eal env2 -> 0 <= queues < 2 ^ 16 -> - 2 ^ 31 <= pid < 2 ^ 31 ->
  let '(res, p1) := pool_claim queues (pool_of h) in
  exists req acts d1 h1, pack_msg kQueueClaimActionName (claim_request_bytes (mkClaimReq 1 queues pid)) = Some req /\
    on_queue_claim_thunk env (Some req) d = Some (acts, d1) /\ active_queue_allocator d1 = Some h1 /\ pool_of h1 = p1 /\
    match res with
    | inl e => claim_queues (daemon_exchange env d) pid queues = inl (text "Platform::create: claim rejected: " ++ e)
    | inr r => claim_queues (daemon_exchange env d) pid queues = inr r /\
        forall code, exists m acts2 d2 h2, destroy_platform code pid true r = [m] /\
          on_queue_release_thunk env2 (Some m) d1 = Some (acts2, d2) /\ active_queue_allocator d2 = Some h2 /\ view h2 = view h
    end.
Proof.
  intros Hc Ht Hb Hv Hrun Ha Henv Hcode Henv2 Hq Hpid. pose proof (zlen_nonneg evs).
  destruct (daemon_run_inv total port evs 0 _ h0 [] (create_daemon_inv _ _ _ _ _ port Hc Ht)) as (d1 & h1 & live1 & E & Hi); [lia|lia|done|].
  rewrite Hrun in E. injection E as <- <-. pose proof (di_active _ _ _ _ _ _ Hi) as Ha'. rewrite Ha in Ha'. injection Ha' as <-.
  destruct Hi as [_ _ Hs _ Hg Hst _].
  destruct (claim_roundtrip env d h queues pid Ha Hs ltac:(lia) Henv Hcode Hq Hpid) as (req & acts & h1 & E1 & E2 & Hs1 & E3 & E4).
  destruct (claim_refines h queues Hs Hq ltac:(lia)) as (res & h1' & F1 & _ & F2). rewrite F2 in *. cbn [fst snd] in *.
  exists req, acts, (with_allocator d h1), h1. split_and!; try done. destruct res as [e|r]; [done|]. split; [done|]. intros code.
  destruct (pool_claim_range _ _ _ _ Hs (proj1 Hq) ltac:(lia) F2) as (Hr & Hgen & _).
  destruct (claim_release_view h queues r h1' Hs Hq ltac:(lia) ltac:(lia) F1) as (h2' & G1 & Gs & Gv & _).
  destruct (pool_claim_counts queues (pool_of h)) as [_ Hst1]. rewrite F2 in Hst1. cbn in Hst1. pose proof (f_equal rejected E3) as Hst2. cbn in Hst2.
  assert (lo r < hi r) as Hlh.
  { revert F2. unfold pool_claim. destruct (Z.eqb_spec queues 0); [done|]. destruct (first_fit _ _); [|done]. intros [= <- _]. cbn. lia. }
  destruct (release_roundtrip env2 code (with_allocator d h1) h1 r pid eq_refl Hs1) as (m & acts2 & h2 & R1 & R2 & R3 & _ & R5); try done; [lia|].
  exists m, acts2, (with_allocator (with_allocator d h1) h2), h2. split_and!; try done.
  destruct (claim_refines h queues Hs Hq ltac:(lia)) as (res2 & h1'' & K1 & Ks & K2). rewrite F1 in K1. injection K1 as <- <-.
  destruct (release_refines h1' r Ks Hr) as (h2'' & L1 & _ & L2); [lia|].
  rewrite G1 in L1. injection L1 as <-. rewrite <- Gv. change (holders (pool_of h2) = holders (pool_of h2')). by rewrite R5, L2, E3.
Qed.

Lemma platform_claim_release_witness :
  exists r, (pool_claim 3 (pool_of demo0)).1 = inr r /\ claim_queues (daemon_exchange demo_env demo_daemon) 4711 3 = inr r.
Proof.
  pose proof (platform_claim_release (fun _ => true) demo_rc demo_prefix 8 demo0 0 [] demo_daemon [] demo0 demo_env demo_env 3 4711
    ltac:(vm_compute; reflexivity) ltac:(lia) ltac:(reflexivity) (List.Forall_nil _) ltac:(reflexivity) ltac:(reflexivity)
    ltac:(unfold valid_eal; cbn; lia) ltac:(reflexivity) ltac:(unfold valid_eal; cbn; lia) ltac:(lia) ltac:(lia)) as H.
  exists (mkRange 0 3 1). split; [vm_compute; reflexivity|]. revert H. destruct (pool_claim 3 (pool_of demo0)) as [res p1] eqn:E.
  assert ((pool_claim 3 (pool_of demo0)).1 = inr (mkRange 0 3 1)) as E1 by (vm_compute; reflexivity). rewrite E in E1. cbn [fst] in E1. subst res.
  intros (req & acts & d1 & h1 & _ & _ & _ & _ & H & _). exact H.
Defined.

(** A client that gives up waiting does not know its range: the reply was sent, the queues stay
    claimed and nobody will release them. *)
Lemma timed_out_claim_leaks :
  claim_queues (fun _ _ => mkReply (-1) 1 0 []) 4711 3 =
    inl (text "Platform::create: queue claim IPC failed: " ++ text "mp_ipc_request_sync: rte_mp_request_sync failed (timeout / peer down / IPC unavailable)") /\
  (r ← on_queue_claim_thunk demo_env (demo_request 3) demo_daemon; h ← active_queue_allocator r.2; Some (view h)) =
    Some [Some 1; Some 1; Some 1; None; None; None; None; None].
Proof. split; vm_compute; reflexivity. Qed.
