(* ===== verification/Book.v ===== *)
(** * Order books

    array_book.hpp, map_book.hpp and binance_adapter.hpp of eph-book, with [parse_number] of
    eph-core.

    [array_book_refines]: a side of an [ArrayBook] is the sorted list of the live price
    levels, as long as there is room for them.  [map_book_refines]: a side of a [MapBook] is
    that list without a bound.  [binance_shows_last_ticker]: after any tickers the book of the
    adapter shows the last valid one. *)

From Stdlib Require Import Sorted.
From stdpp Require Import gmap sorting.
From S2P Require Import Prelude Double.

#[local] Open Scope Z_scope.

(** ** array_book.hpp *)

Record PriceLevel := mkLevel { price : double; qty : double }.

(** 1e-12. *)
Definition kEps : double := S754_finite false 4951760157141521 (-92).

Definition price_eq (a b : double) : bool := SFltb (SFabs (double_sub a b)) kEps.

(** Whether a new price goes before a level: [descending] on the bid side. *)
Definition should_insert (descending : bool) (p l : double) : bool :=
  if descending then SFltb (double_add l kEps) p else SFltb p (double_sub l kEps).

(** [memmove(&l[dst], &l[src], n * sizeof(PriceLevel))]. *)
Definition memmove {A} (l : list A) (dst src n : nat) : option (list A) :=
  if (dst + n <=? length l)%nat && (src + n <=? length l)%nat
  then Some (take dst l ++ take n (drop src l) ++ drop (dst + n) l) else None.

(** [l[i] = x]. *)
Definition store {A} (l : list A) (i : nat) (x : A) : option (list A) :=
  if (i <? length l)%nat then Some (<[i := x]> l) else None.

(** The first of the next [n] indices from [i] on whose level satisfies [f]. *)
Fixpoint scan_levels (f : PriceLevel -> bool) (levels : list PriceLevel) (n i : nat) : option (option nat) :=
  match n with
  | O => Some None
  | S n => l ← levels !! i; if f l then Some (Some i) else scan_levels f levels n (S i)
  end.

Section array_book.
Context (MaxLevels : nat).

Record side := mkSide { levels_ : list PriceLevel; count_ : nat }.

Definition update_side (descending : bool) (p q : double) (s : side) : option side :=
  if negb (isfinite p) then Some s else
  if negb (isfinite q) then Some s else
  let q := if SFltb q double_zero then double_zero else q in
  found ← scan_levels (fun l => price_eq (price l) p) (levels_ s) (count_ s) 0;
  match found with
  | Some i =>
    if SFleb q double_zero then
      levels ← (if (i + 1 <? count_ s)%nat then memmove (levels_ s) i (i + 1) (count_ s - i - 1) else Some (levels_ s));
      Some (mkSide levels (count_ s - 1))
    else
      l ← levels_ s !! i;
      levels ← store (levels_ s) i (mkLevel (price l) q);
      Some (mkSide levels (count_ s))
  | None =>
    if SFleb q double_zero then Some s else
    at_ ← scan_levels (fun l => should_insert descending p (price l)) (levels_ s) (count_ s) 0;
    let pos := default (count_ s) at_ in
    if (MaxLevels <=? count_ s)%nat then
      if (MaxLevels <=? pos)%nat then Some s else
      levels ← (if (pos <? MaxLevels - 1)%nat then memmove (levels_ s) (pos + 1) pos (MaxLevels - 1 - pos) else Some (levels_ s));
      levels ← store levels pos (mkLevel p q);
      Some (mkSide levels (count_ s))
    else
      levels ← (if (pos <? count_ s)%nat then memmove (levels_ s) (pos + 1) pos (count_ s - pos) else Some (levels_ s));
      levels ← store levels pos (mkLevel p q);
      Some (mkSide levels (count_ s + 1))
  end.

Record ArrayBook := mkBook { bids_ : side; asks_ : side }.

Definition empty_side : side := mkSide (repeat (mkLevel double_zero double_zero) MaxLevels) 0.
Definition array_book_init : ArrayBook := mkBook empty_side empty_side.

Definition update_bid (p q : double) (b : ArrayBook) : option ArrayBook :=
  s ← update_side true p q (bids_ b); Some (mkBook s (asks_ b)).

Definition update_ask (p q : double) (b : ArrayBook) : option ArrayBook :=
  s ← update_side false p q (asks_ b); Some (mkBook (bids_ b) s).

Definition clear (b : ArrayBook) : ArrayBook := mkBook (mkSide (levels_ (bids_ b)) 0) (mkSide (levels_ (asks_ b)) 0).

(** [bids()] and [asks()]: the active levels. *)
Definition active (s : side) : list PriceLevel := take (count_ s) (levels_ s).

Definition best (s : side) : option (option PriceLevel) :=
  if (count_ s =? 0)%nat then Some None else l ← levels_ s !! 0%nat; Some (Some l).

Definition best_bid (b : ArrayBook) : option (option PriceLevel) := best (bids_ b).
Definition best_ask (b : ArrayBook) : option (option PriceLevel) := best (asks_ b).

Definition total_qty (l : list PriceLevel) : double := foldl (fun sum x => double_add sum (qty x)) double_zero l.

Definition is_crossed (b : ArrayBook) : option bool :=
  bid ← best_bid b; ask ← best_ask b;
  Some match bid, ask with Some x, Some y => SFltb (double_add (price y) kEps) (price x) | _, _ => false end.

Definition is_locked (b : ArrayBook) : option bool :=
  bid ← best_bid b; ask ← best_ask b;
  Some match bid, ask with Some x, Some y => SFleb (SFabs (double_sub (price x) (price y))) kEps | _, _ => false end.

End array_book.

(** ** map_book.hpp *)

(** 1e-9. *)
Definition kTickQuantum : double := S754_finite false 4835703278458517 (-82).

Definition quantize (p : double) : double := double_mul (double_round (double_div p kTickQuantum)) kTickQuantum.

(** The order of the keys: [std::greater] on the bid side. *)
Definition key_less (descending : bool) (a b : double) : bool := if descending then SFltb b a else SFltb a b.

(** A [std::map] is the sorted list of its entries. *)
Fixpoint map_erase (descending : bool) (k : double) (m : list PriceLevel) : list PriceLevel :=
  match m with
  | [] => []
  | l :: t =>
    if key_less descending (price l) k then l :: map_erase descending k t
    else if key_less descending k (price l) then m else t
  end.

Fixpoint insert_or_assign (descending : bool) (k v : double) (m : list PriceLevel) : list PriceLevel :=
  match m with
  | [] => [mkLevel k v]
  | l :: t =>
    if key_less descending (price l) k then l :: insert_or_assign descending k v t
    else if key_less descending k (price l) then mkLevel k v :: m else mkLevel (price l) v :: t
  end.

Definition map_update (descending : bool) (p q : double) (m : list PriceLevel) : list PriceLevel :=
  if negb (isfinite p) then m else
  if negb (isfinite q) then m else
  let p := quantize p in
  if SFleb q double_zero then map_erase descending p m else insert_or_assign descending p q m.

Record MapBook := mkMap { map_bids : list PriceLevel; map_asks : list PriceLevel }.

(** The operations that change a book. *)
Inductive book_op := Bid (p q : double) | Ask (p q : double) | Clear.

Definition map_step (o : book_op) (b : MapBook) : MapBook :=
  match o with
  | Bid p q => mkMap (map_update true p q (map_bids b)) (map_asks b)
  | Ask p q => mkMap (map_bids b) (map_update false p q (map_asks b))
  | Clear => mkMap [] []
  end.

Definition map_best_bid (b : MapBook) : option PriceLevel := head (map_bids b).
Definition map_best_ask (b : MapBook) : option PriceLevel := head (map_asks b).

Definition map_is_crossed (b : MapBook) : bool :=
  match map_best_bid b, map_best_ask b with
  | Some x, Some y => SFltb (double_add (price y) kEps) (price x)
  | _, _ => false
  end.

Definition map_is_locked (b : MapBook) : bool :=
  match map_best_bid b, map_best_ask b with
  | Some x, Some y => SFleb (SFabs (double_sub (price x) (price y))) kEps
  | _, _ => false
  end.

(** [top_bids(n)] and [top_asks(n)]. *)
Definition top (n : nat) (m : list PriceLevel) : list PriceLevel := take n m.

(** ** parse_number.hpp *)

Section parse_number.
(** [std::pow(10.0, e)]. *)
Context (pow10 : Z -> double).

Definition ten : double := double_of_int 10.
Definition digit_value (c : byte) : option Z := if (48 <=? b2z c) && (b2z c <=? 57) then Some (b2z c - 48) else None.
Definition is_exp_char (c : byte) : bool := (b2z c =? 101) || (b2z c =? 69).
Definition is_dot (c : byte) : bool := b2z c =? 46.

(** The digits up to a dot, an exponent or the end. *)
Fixpoint number_int (result : double) (has_int_digit : bool) (s : list byte) : option (double * bool * list byte) :=
  match s with
  | [] => Some (result, has_int_digit, s)
  | c :: t =>
    if is_dot c || is_exp_char c then Some (result, has_int_digit, s) else
    v ← digit_value c; number_int (double_add (double_mul result ten) (double_of_int v)) true t
  end.

Fixpoint number_frac (frac divisor : double) (has_frac_digit : bool) (s : list byte) : option (double * bool * list byte) :=
  match s with
  | [] => Some (frac, has_frac_digit, s)
  | c :: t =>
    if is_exp_char c then Some (frac, has_frac_digit, s) else
    v ← digit_value c; number_frac (double_add frac (double_div (double_of_int v) divisor)) (double_mul divisor ten) true t
  end.

Fixpoint number_exp (e : Z) (s : list byte) : option Z :=
  match s with
  | [] => Some e
  | c :: t => v ← digit_value c; let e := e * 10 + v in if 308 <? e then None else number_exp e t
  end.

Definition parse_number (sv : list byte) : option double :=
  match sv with
  | [] => None
  | c :: t =>
    let '(negative, p) := if b2z c =? 45 then (true, t) else (false, sv) in
    if bool_decide (p = []) then None else
    '(result, has_int_digit, p) ← number_int double_zero false p;
    '(result, has_frac_digit, p) ←
      match p with
      | d :: q =>
        if is_dot d then
          '(frac, has, q) ← number_frac double_zero ten false q;
          if negb has then None else Some (double_add result frac, true, q)
        else Some (result, false, p)
      | [] => Some (result, false, p)
      end;
    if negb has_int_digit && negb has_frac_digit then None else
    result ←
      match p with
      | d :: q =>
        if is_exp_char d then
          let '(exp_neg, q) := match q with
                               | x :: r => if b2z x =? 45 then (true, r) else if b2z x =? 43 then (false, r) else (false, q)
                               | [] => (false, q)
                               end in
          if bool_decide (q = []) then None else
          e ← number_exp 0 q;
          Some (if exp_neg then double_div result (pow10 e) else double_mul result (pow10 e))
        else None
      | [] => Some result
      end;
    let final_val := if negative then SFopp result else result in
    if isfinite final_val then Some final_val else None
  end.

(** ** binance_adapter.hpp *)

Record BookTicker := mkTicker {
  t_bid_price : list byte;
  t_bid_qty : list byte;
  t_ask_price : list byte;
  t_ask_qty : list byte
}.

Record BinanceBookAdapter := mkAdapter {
  book_ : ArrayBook;
  last_update_id_ : Z;
  last_bid_price_ : double;
  last_ask_price_ : double;
  last_bid_valid_ : bool;
  last_ask_valid_ : bool
}.

Definition update_from_ticker (MaxLevels : nat) (t : BookTicker) (a : BinanceBookAdapter) : option (bool * BinanceBookAdapter) :=
  match parse_number (t_bid_price t), parse_number (t_bid_qty t), parse_number (t_ask_price t), parse_number (t_ask_qty t) with
  | Some bid_price, Some bid_qty, Some ask_price, Some ask_qty =>
    b ← (if last_bid_valid_ a && negb (SFeqb (last_bid_price_ a) bid_price)
         then update_bid MaxLevels (last_bid_price_ a) double_zero (book_ a) else Some (book_ a));
    b ← (if last_ask_valid_ a && negb (SFeqb (last_ask_price_ a) ask_price)
         then update_ask MaxLevels (last_ask_price_ a) double_zero b else Some b);
    b ← update_bid MaxLevels bid_price bid_qty b;
    b ← update_ask MaxLevels ask_price ask_qty b;
    let bid_live := SFltb double_zero bid_qty in
    let ask_live := SFltb double_zero ask_qty in
    Some (true, mkAdapter b (last_update_id_ a)
                  (if bid_live then bid_price else last_bid_price_ a) (if ask_live then ask_price else last_ask_price_ a) bid_live ask_live)
  | _, _, _, _ => Some (false, a)
  end.

Fixpoint load_levels (MaxLevels : nat) (bid : bool) (ls : list PriceLevel) (b : ArrayBook) : option ArrayBook :=
  match ls with
  | [] => Some b
  | l :: ls =>
    b ← (if bid then update_bid MaxLevels (price l) (qty l) b else update_ask MaxLevels (price l) (qty l) b);
    load_levels MaxLevels bid ls b
  end.

Definition load_snapshot (MaxLevels : nat) (last_update_id : Z) (bids asks : list PriceLevel) (a : BinanceBookAdapter)
    : option (Z * BinanceBookAdapter) :=
  b ← load_levels MaxLevels true bids (clear (book_ a));
  b ← load_levels MaxLevels false asks b;
  Some (Z.of_nat (count_ (bids_ b) + count_ (asks_ b)), mkAdapter b last_update_id (last_bid_price_ a) (last_ask_price_ a) false false).
End parse_number.

Definition adapter_init (MaxLevels : nat) : BinanceBookAdapter :=
  mkAdapter (array_book_init MaxLevels) 0 double_zero double_zero false false.

(** ** Prices that can be told apart *)

(** The same price, or two that differ by more than twice the tolerance. *)
Definition apart (a b : Z) : Prop := a = b \/ 2 * value kEps < Z.abs (a - b).

Lemma eps_finite : finite kEps.
Proof. by split. Qed.

Lemma eps_pos : 0 < value kEps < 2 ^ 1053.
Proof. by vm_compute. Qed.

(** Adding a small number to a double cannot overflow. *)
Lemma small_sum_finite x d : finite x -> Z.abs d <= value kEps -> Z.abs (rnd (value x + d)) < too_large.
Proof.
  intros Hx Hd. destruct (rnd_value x Hx) as [_ _]. destruct (finite_form x Hx) as (q & j & E & Hj & Hq).
  set (M := (2 ^ 53 - 1) * 2 ^ 2045). assert (Z.abs (value x) <= M) as HM.
  { rewrite E, Z.abs_mul, (Z.abs_eq (2 ^ j)) by (apply Z.pow_nonneg; lia). subst M.
    apply Z.mul_le_mono_nonneg; [lia|lia|apply Z.pow_nonneg; lia|apply Z.pow_le_mono_r; lia]. }
  assert (rnd (M + value kEps) = M) as EM by (by vm_compute).
  assert (M < too_large) as HMl by (by vm_compute).
  pose proof (rnd_mono (value x + d) (M + value kEps) ltac:(lia)) as Hu. pose proof (rnd_mono (- (M + value kEps)) (value x + d) ltac:(lia)) as Hlo.
  rewrite rnd_opp, EM in Hlo. lia.
Qed.

Lemma price_eq_spec a b : finite a -> finite b -> apart (value a) (value b) -> price_eq a b = (value a =? value b).
Proof.
  intros Ha Hb Hab. unfold price_eq. pose proof (sub_value a b Ha Hb) as [Hd Hs]. pose proof eps_pos as He.
  destruct (Z.ltb_spec (Z.abs (rnd (value a - value b))) too_large) as [Hl|Hl].
  - destruct Hs as [Hf Hv]. destruct (abs_value (double_sub a b)) as [Hfa Hva]; [by split|].
    rewrite ltb_value by (done || apply eps_finite). rewrite Hva, Hv. destruct Hab as [->|Hab].
    + rewrite Z.sub_diag, rnd_0, Z.eqb_refl. apply Z.ltb_lt. lia.
    + rewrite (proj2 (Z.eqb_neq _ _)) by lia. apply Z.ltb_ge.
      assert (rnd (2 * value kEps) = 2 * value kEps) as E2 by (by vm_compute). destruct (Z.le_gt_cases 0 (value a - value b)) as [Hs|Hs].
      * pose proof (rnd_mono (2 * value kEps) (value a - value b) ltac:(lia)). lia.
      * pose proof (rnd_mono (value a - value b) (- (2 * value kEps)) ltac:(lia)) as Hm. rewrite rnd_opp in Hm. lia.
  - rewrite Hs. destruct Hab as [E|Hab]; [rewrite E, Z.sub_diag in Hl; by vm_compute in Hl|]. rewrite (proj2 (Z.eqb_neq _ _)) by lia. done.
Qed.

Lemma above_spec l p : finite l -> finite p -> apart (value p) (value l) -> SFltb (double_add l kEps) p = (value l <? value p).
Proof.
  intros Hl Hp Hab. pose proof eps_pos as He. pose proof (add_value l kEps Hl eps_finite) as Hs.
  apply rounds_finite in Hs as [Hf Hv]; [|apply small_sum_finite; [done|lia]]. rewrite ltb_value, Hv by done.
  destruct (rnd_value p Hp) as [Ep _]. destruct (rnd_value l Hl) as [El _].
  destruct (Z.ltb_spec (value l) (value p)) as [Hlt|Hge].
  - apply Z.ltb_lt. destruct Hab as [?|Hab]; [lia|]. pose proof (rnd_mono (value l + value kEps) (value p) ltac:(lia)) as Hm. rewrite Ep in Hm.
    pose proof (rnd_nearest (value l + value kEps) l Hl). lia.
  - apply Z.ltb_ge. pose proof (rnd_mono (value l) (value l + value kEps) ltac:(lia)). lia.
Qed.

Lemma below_spec l p : finite l -> finite p -> apart (value p) (value l) -> SFltb p (double_sub l kEps) = (value p <? value l).
Proof.
  intros Hl Hp Hab. pose proof eps_pos as He. pose proof (sub_value l kEps Hl eps_finite) as Hs.
  apply rounds_finite in Hs as [Hf Hv]; [|apply (small_sum_finite l (- value kEps)); [done|lia]]. rewrite ltb_value, Hv by done.
  destruct (rnd_value p Hp) as [Ep _]. destruct (rnd_value l Hl) as [El _].
  destruct (Z.ltb_spec (value p) (value l)) as [Hlt|Hge].
  - apply Z.ltb_lt. destruct Hab as [?|Hab]; [lia|]. pose proof (rnd_mono (value p) (value l - value kEps) ltac:(lia)) as Hm. rewrite Ep in Hm.
    pose proof (rnd_nearest (value l - value kEps) l Hl). lia.
  - apply Z.ltb_ge. pose proof (rnd_mono (value l - value kEps) (value l) ltac:(lia)). lia.
Qed.

(** [a] comes before [b]. *)
Definition better (descending : bool) (a b : Z) : Prop := if descending then b < a else a < b.

Lemma should_insert_spec descending p l : finite p -> finite l -> apart (value p) (value l) ->
  should_insert descending p l = true <-> better descending (value p) (value l).
Proof.
  intros Hp Hl Hab. unfold should_insert, better. destruct descending.
  - rewrite above_spec by done. apply Z.ltb_lt.
  - rewrite below_spec by done. apply Z.ltb_lt.
Qed.

(** ** Arrays and lists *)

Section array_lists.
Context (MaxLevels : nat).

(** The active levels are [L]. *)
Definition holds (s : side) (L : list PriceLevel) : Prop :=
  length (levels_ s) = MaxLevels /\ count_ s = length L /\ exists junk, levels_ s = L ++ junk.

Fixpoint first_idx (f : PriceLevel -> bool) (L : list PriceLevel) : option nat :=
  match L with
  | [] => None
  | l :: L => if f l then Some O else S <$> first_idx f L
  end.

(** [update_side] on the list of active levels. *)
Definition list_update (descending : bool) (p q : double) (L : list PriceLevel) : list PriceLevel :=
  if negb (isfinite p) || negb (isfinite q) then L else
  match first_idx (fun l => price_eq (price l) p) L with
  | Some i => if SFleb q double_zero then delete i L else alter (fun l => mkLevel (price l) q) i L
  | None =>
    if SFleb q double_zero then L else
    let pos := default (length L) (first_idx (fun l => should_insert descending p (price l)) L) in
    take MaxLevels (take pos L ++ mkLevel p q :: drop pos L)
  end.

Lemma first_idx_lt f L i : first_idx f L = Some i -> (i < length L)%nat.
Proof.
  revert i. induction L as [|l L IH]; intros i; [done|]. cbn [first_idx]. destruct (f l); [intros [= <-]; cbn; lia|].
  destruct (first_idx f L) as [j|]; [|done]. intros [= <-]. specialize (IH j eq_refl). cbn. lia.
Qed.

Lemma scan_first f L : forall pre junk, scan_levels f (pre ++ L ++ junk) (length L) (length pre) =
  Some ((fun i => length pre + i)%nat <$> first_idx f L).
Proof.
  induction L as [|l L IH]; intros pre junk; [done|]. cbn [length scan_levels first_idx app].
  rewrite list_lookup_middle by done. cbn [mbind option_bind]. destruct (f l); [cbn; do 2 f_equal; lia|].
  specialize (IH (pre ++ [l]) junk). rewrite <- app_assoc, length_app in IH. cbn [app length] in IH. rewrite Nat.add_1_r in IH. rewrite IH.
  destruct (first_idx f L) as [i|]; cbn; [do 2 f_equal; lia|done].
Qed.

Lemma scan_active f L junk : scan_levels f (L ++ junk) (length L) 0 = Some (first_idx f L).
Proof. pose proof (scan_first f L [] junk) as E. cbn [app length Nat.add] in E. rewrite E. by destruct (first_idx f L). Qed.

Lemma memmove_down {A} (a b junk : list A) x : exists junk',
  (if (length a + 1 <? length a + 1 + length b)%nat then memmove (a ++ x :: b ++ junk) (length a) (length a + 1) (length b) else Some (a ++ x :: b ++ junk)) =
  Some (a ++ b ++ junk') /\ length junk' = S (length junk).
Proof.
  destruct b as [|y b].
  - rewrite (proj2 (Nat.ltb_ge _ _)) by (cbn; lia). by exists (x :: junk).
  - rewrite (proj2 (Nat.ltb_lt _ _)) by (cbn; lia). set (B := y :: b). unfold memmove. rewrite !length_app. cbn [length]. rewrite length_app.
    rewrite (proj2 (Nat.leb_le _ _)), (proj2 (Nat.leb_le _ _)) by lia. cbn [andb].
    exists (drop (length a + length B) (a ++ x :: B ++ junk)). split.
    + f_equal. rewrite take_app_length. do 2 f_equal. rewrite (cons_middle x), app_assoc.
      rewrite drop_app_length' by (rewrite length_app; cbn; lia). by rewrite take_app_length.
    + rewrite length_drop, length_app. cbn [length]. rewrite length_app. lia.
Qed.

Lemma memmove_up {A} (a b junk : list A) y : exists x,
  (if (length a <? length a + length b)%nat then memmove (a ++ b ++ y :: junk) (length a + 1) (length a) (length b) else Some (a ++ b ++ y :: junk)) =
  Some (a ++ x :: b ++ junk).
Proof.
  destruct b as [|z b].
  - rewrite (proj2 (Nat.ltb_ge _ _)) by (cbn; lia). by exists y.
  - rewrite (proj2 (Nat.ltb_lt _ _)) by (cbn; lia). set (B := z :: b). unfold memmove. rewrite !length_app. cbn [length].
    rewrite (proj2 (Nat.leb_le _ _)), (proj2 (Nat.leb_le _ _)) by lia. cbn [andb]. exists z. f_equal.
    rewrite drop_app_length, take_app_length. subst B. cbn [app length].
    assert (a ++ z :: b ++ y :: junk = (a ++ [z]) ++ b ++ y :: junk) as -> by (by rewrite <- app_assoc).
    rewrite take_app_length' by (rewrite length_app; cbn; lia). rewrite <- app_assoc. cbn [app]. do 4 f_equal.
    assert ((a ++ [z]) ++ b ++ y :: junk = ((a ++ [z]) ++ b ++ [y]) ++ junk) as -> by (by rewrite <- !app_assoc).
    apply drop_app_length'. rewrite !length_app. cbn. lia.
Qed.

Lemma store_mid {A} (a b : list A) x y : store (a ++ x :: b) (length a) y = Some (a ++ y :: b).
Proof.
  unfold store. rewrite length_app, (proj2 (Nat.ltb_lt _ _)) by (cbn; lia). by rewrite insert_app_r_alt, Nat.sub_diag by lia.
Qed.

Lemma split_nth {A} (L : list A) i : (i < length L)%nat -> exists a x b, L = a ++ x :: b /\ length a = i.
Proof.
  intros H. destruct (lookup_lt_is_Some_2 L i H) as [x Hx]. exists (take i L), x, (drop (S i) L).
  split; [by rewrite take_drop_middle|]. rewrite length_take. lia.
Qed.

(** Removing and inserting on the array. *)
Lemma remove_array (L junk : list PriceLevel) i : (i < length L)%nat -> exists levels junk',
  (if (i + 1 <? length L)%nat then memmove (L ++ junk) i (i + 1) (length L - i - 1) else Some (L ++ junk)) = Some levels /\
  levels = delete i L ++ junk' /\ length levels = length (L ++ junk).
Proof.
  intros Hi. destruct (split_nth L i Hi) as (a & x & b & -> & <-). rewrite length_app. cbn [length].
  replace (length a + S (length b) - length a - 1)%nat with (length b) by lia.
  replace (length a + S (length b))%nat with (length a + 1 + length b)%nat by lia. rewrite <- app_assoc. cbn [app].
  destruct (memmove_down a b junk x) as (junk' & E & Hj). exists (a ++ b ++ junk'), junk'. split; [exact E|].
  rewrite delete_middle, <- app_assoc. split; [done|]. rewrite !length_app. cbn [length]. rewrite length_app. lia.
Qed.

Lemma insert_array (a b junk : list PriceLevel) x : (length (a ++ b ++ junk) = MaxLevels)%nat -> (length a < MaxLevels)%nat ->
  exists levels junk', (if (MaxLevels <=? length a + length b)%nat
    then levels ← (if (length a <? MaxLevels - 1)%nat then memmove (a ++ b ++ junk) (length a + 1) (length a) (MaxLevels - 1 - length a) else Some (a ++ b ++ junk));
         levels ← store levels (length a) x; Some (mkSide levels (length a + length b))
    else levels ← (if (length a <? length a + length b)%nat then memmove (a ++ b ++ junk) (length a + 1) (length a) (length b) else Some (a ++ b ++ junk));
         levels ← store levels (length a) x; Some (mkSide levels (length a + length b + 1))) =
    Some (mkSide levels (length (take MaxLevels (a ++ x :: b)))) /\
    levels = take MaxLevels (a ++ x :: b) ++ junk' /\ length levels = MaxLevels.
Proof.
  rewrite !length_app. intros Hlen Ha. destruct (Nat.leb_spec MaxLevels (length a + length b)) as [Hfull|Hroom].
  - assert (junk = []) as -> by (destruct junk; [done|cbn in *; lia]). rewrite app_nil_r. cbn [length] in *.
    destruct (exists_last (l := b)) as (b' & y & ->); [intros ->; cbn in *; lia|]. rewrite length_app in *. cbn [length] in *.
    destruct (memmove_up a b' [] y) as (z & Em). rewrite !app_nil_r in Em.
    replace (MaxLevels - 1 - length a)%nat with (length b') by lia. replace (MaxLevels - 1)%nat with (length a + length b')%nat by lia.
    rewrite Em. cbn [mbind option_bind]. rewrite store_mid. cbn [mbind option_bind].
    assert (take MaxLevels (a ++ x :: b' ++ [y]) = a ++ x :: b') as ->.
    { rewrite (app_comm_cons b' [y] x), app_assoc. apply take_app_length'. rewrite length_app. cbn. lia. }
    exists (a ++ x :: b'), []. rewrite app_nil_r, length_app. cbn [length]. split_and!; [do 2 f_equal; lia|done|lia].
  - destruct junk as [|y junk]; [cbn in *; lia|]. cbn [length] in *. destruct (memmove_up a b junk y) as (z & ->). cbn [mbind option_bind].
    rewrite store_mid. cbn [mbind option_bind]. rewrite take_ge by (rewrite length_app; cbn; lia).
    exists (a ++ x :: b ++ junk), junk. rewrite <- app_assoc, !length_app. cbn [length]. rewrite length_app. split_and!; [do 2 f_equal; lia|done|lia].
Qed.

Lemma update_side_list descending p q s L : holds s L -> (length L <= MaxLevels)%nat ->
  exists s', update_side MaxLevels descending p q s = Some s' /\ holds s' (list_update descending p q L).
Proof.
  intros Hs Hmax. pose proof Hs as (Hlen & Hc & junk & El). unfold update_side, list_update.
  destruct (isfinite p); cbn [negb orb]; [|by exists s]. destruct (isfinite q); cbn [negb]; [|by exists s].
  set (q' := if SFltb q double_zero then double_zero else q).
  assert (SFleb q' double_zero = SFleb q double_zero /\ (SFleb q double_zero = false -> q' = q)) as [-> Hq'].
  { subst q'. destruct (SFltb q double_zero) eqn:E; [|done]. unfold SFltb, SFleb in *. by destruct (SFcompare q double_zero) as [[]|]. }
  rewrite El, Hc. rewrite !scan_active. cbn [mbind option_bind]. rewrite El in Hlen.
  destruct (first_idx (fun l => price_eq (price l) p) L) as [i|] eqn:Ei.
  - apply first_idx_lt in Ei. destruct (SFleb q double_zero) eqn:Eq.
    + destruct (remove_array L junk i Ei) as (levels & junk' & -> & Ej & Hl). cbn [mbind option_bind]. eexists. split; [reflexivity|].
      split_and!; cbn [levels_ count_]; [by rewrite Hl|rewrite length_delete; [done|by apply lookup_lt_is_Some_2]|by exists junk'].
    + destruct (split_nth L i Ei) as (a & x & b & -> & <-). rewrite <- app_assoc. cbn [app]. rewrite list_lookup_middle by done. cbn [mbind option_bind].
      rewrite store_mid. cbn [mbind option_bind]. rewrite Hq' by done. eexists. split; [reflexivity|].
      rewrite alter_app_r_alt, Nat.sub_diag by lia. cbn [alter list_alter]. rewrite <- app_assoc, !length_app in *. cbn [app length] in *.
      split_and!; cbn [levels_ count_]; rewrite ?length_app; cbn [length]; [rewrite length_app; lia|done|]. exists junk. by rewrite <- app_assoc.
  - destruct (SFleb q double_zero) eqn:Eq; [by exists s|].
    rewrite Hq' by done. cbn [mbind option_bind].
    set (fi := first_idx (fun l => should_insert descending p (price l)) L).
    assert (default (length L) fi <= length L)%nat as Hpos.
    { subst fi. destruct (first_idx (fun l => should_insert descending p (price l)) L) eqn:E; cbn; [apply first_idx_lt in E; lia|done]. }
    set (pos := default (length L) fi) in *. clearbody pos. set (x := mkLevel p q).
    assert (exists a b, L = a ++ b /\ length a = pos) as (a & b & -> & Ha) by (exists (take pos L), (drop pos L); rewrite take_drop, length_take; split; [done|lia]).
    rewrite <- Ha, take_app_length, drop_app_length. rewrite length_app in *. rewrite <- app_assoc in *.
    destruct (Nat.leb_spec MaxLevels (length a)) as [Hworst|Hin].
    + rewrite !length_app in Hlen. rewrite (proj2 (Nat.leb_le MaxLevels (length a + length b))) by lia. exists s. split; [done|].
      assert (b = []) as -> by (destruct b; [done|cbn in *; lia]). rewrite take_app_length' by (cbn in *; lia). by rewrite app_nil_r in Hs.
    + destruct (insert_array a b junk x ltac:(by rewrite app_assoc, length_app) Hin) as (levels & junk' & E & Ej & Hl). replace (length a + length b - length a)%nat with (length b) by lia. rewrite E. eexists. split; [reflexivity|].
      split_and!; cbn [levels_ count_]; [done|done|by exists junk'].
Qed.
End array_lists.

(** ** Sides as maps of live quantities *)

(** The quantity each price has by the updates so far. *)
Definition live_update (p q : double) (live : gmap Z double) : gmap Z double :=
  if negb (isfinite p) || negb (isfinite q) then live
  else if SFleb q double_zero then delete (value p) live else <[value p := q]> live.

Definition level_at (l : PriceLevel) : Z := value (price l).

Definition level_ok (live : gmap Z double) (l : PriceLevel) : Prop :=
  finite (price l) /\ finite (qty l) /\ 0 < value (qty l) /\ live !! level_at l = Some (qty l).

(** Best first, bounded, and every level shows what is live at its price. *)
Record side_ok (MaxLevels : nat) (descending : bool) (live : gmap Z double) (L : list PriceLevel) : Prop := {
  so_sorted : StronglySorted (better descending) (map level_at L);
  so_bounded : (length L <= MaxLevels)%nat;
  so_levels : Forall (level_ok live) L
}.

(** No live price is missing. *)
Definition complete (live : gmap Z double) (L : list PriceLevel) : Prop :=
  forall v q, live !! v = Some q -> v ∈ map level_at L.

Lemma better_trans d a b c : better d a b -> better d b c -> better d a c.
Proof. unfold better. destruct d; lia. Qed.

Lemma better_irrefl d a : ~ better d a a.
Proof. unfold better. destruct d; lia. Qed.

Lemma better_total d a b : a <> b -> better d a b \/ better d b a.
Proof. unfold better. destruct d; lia. Qed.

Lemma sorted_app d (a b : list Z) : StronglySorted (better d) (a ++ b) <->
  StronglySorted (better d) a /\ StronglySorted (better d) b /\ Forall (fun x => Forall (better d x) b) a.
Proof.
  induction a as [|x a IH]; cbn [app].
  - split; [intros H; split_and!; [constructor|done|constructor]|tauto].
  - split.
    + intros H. apply StronglySorted_inv in H as [H1 H2]. apply IH in H1 as (Ha & Hb & Hab). apply list.Forall_app in H2 as [H2 H3].
      split_and!; [by constructor|done|by constructor].
    + intros (Ha & Hb & Hab). apply StronglySorted_inv in Ha as [Ha1 Ha2]. apply list.Forall_cons in Hab as [Hx Hab].
      constructor; [by apply IH|]. by apply list.Forall_app.
Qed.

Lemma sorted_NoDup d l : StronglySorted (better d) l -> NoDup l.
Proof.
  induction 1 as [|x l _ IH Hx]; constructor; [|done]. rewrite list.Forall_forall in Hx. intros Hin. by apply (better_irrefl d x), Hx.
Qed.

(** A price goes between what is better and what is worse. *)
Lemma sorted_insert d v (a b : list Z) : StronglySorted (better d) (a ++ b) -> Forall (fun x => better d x v) a ->
  (forall x t, b = x :: t -> better d v x) -> StronglySorted (better d) (a ++ v :: b).
Proof.
  intros (Ha & Hb & Hab)%sorted_app Hav Hvb. apply sorted_app. assert (Forall (better d v) b) as Hv.
  { destruct b as [|x t]; [done|]. specialize (Hvb x t eq_refl). apply StronglySorted_inv in Hb as [_ Hb].
    constructor; [done|]. eapply list.Forall_impl; [exact Hb|]. intros y. by apply better_trans. }
  split_and!; [done|by constructor|]. rewrite list.Forall_forall in *. intros x Hx. constructor; [by apply Hav|by apply Hab].
Qed.

Lemma first_idx_spec f L : match first_idx f L with
  | Some i => exists a x b, L = a ++ x :: b /\ length a = i /\ f x = true /\ Forall (fun l => f l = false) a
  | None => Forall (fun l => f l = false) L
  end.
Proof.
  induction L as [|l L IH]; [constructor|]. cbn [first_idx]. destruct (f l) eqn:E.
  - by exists [], l, L.
  - destruct (first_idx f L) as [i|]; cbn.
    + destruct IH as (a & x & b & -> & <- & Hx & Ha). exists (l :: a), x, b. split_and!; try done. by constructor.
    + by constructor.
Qed.

Lemma complete_size d live L : StronglySorted (better d) (map level_at L) -> complete live L ->
  Forall (level_ok live) L -> size live = length L.
Proof.
  intros Hs%sorted_NoDup Hc Hl. assert (dom live = list_to_set (map level_at L)) as E.
  { apply set_eq. intros v. rewrite elem_of_dom, elem_of_list_to_set. split.
    - intros [q Hq]. by eapply Hc.
    - intros (l & -> & Hin)%list_elem_of_fmap. rewrite list.Forall_forall in Hl. destruct (Hl l Hin) as (_ & _ & _ & ->). by eexists. }
  rewrite <- size_dom, E, size_list_to_set by done. by rewrite length_map.
Qed.

Lemma level_ne d (a b : list PriceLevel) x l : StronglySorted (better d) (map level_at (a ++ x :: b)) -> l ∈ a ++ b -> level_at l <> level_at x.
Proof.
  rewrite map_app. cbn [map]. intros Hs%sorted_NoDup Hl E. apply list.NoDup_app in Hs as (_ & Hn & Hb). apply list.NoDup_cons in Hb as [Hx _].
  apply elem_of_app in Hl as [Hl|Hl].
  - apply (Hn (level_at l)); [by apply list_elem_of_fmap_2|]. rewrite E. by left.
  - apply Hx. rewrite <- E. by apply list_elem_of_fmap_2.
Qed.

(** What happens at another price does not matter. *)
Lemma levels_other live live' v L : (forall w, w <> v -> live' !! w = live !! w) -> (forall l, l ∈ L -> level_at l <> v) ->
  Forall (level_ok live) L -> Forall (level_ok live') L.
Proof.
  intros Hw Hn Hl. rewrite list.Forall_forall in *. intros l Hin. destruct (Hl l Hin) as (? & ? & ? & E). split_and!; try done.
  rewrite Hw by (by apply Hn). done.
Qed.

Lemma elem_levels (a b : list PriceLevel) x v : v ∈ map level_at (a ++ x :: b) <-> v = level_at x \/ v ∈ map level_at (a ++ b).
Proof. rewrite !map_app. cbn [map]. rewrite !elem_of_app, elem_of_cons. tauto. Qed.

Section side_steps.
Context (MaxLevels : nat) (d : bool) (live : gmap Z double).

Lemma removed_ok a x b : side_ok MaxLevels d live (a ++ x :: b) ->
  side_ok MaxLevels d (delete (level_at x) live) (a ++ b) /\ (complete live (a ++ x :: b) -> complete (delete (level_at x) live) (a ++ b)).
Proof.
  intros [Hs Hb Hl]. pose proof (fun l => level_ne d a b x l Hs) as Hne. apply list.Forall_app in Hl as [Hla [_ Hlb]%list.Forall_cons].
  rewrite length_app in Hb. cbn [length] in Hb. split; [split|].
  - rewrite map_app in *. cbn [map] in Hs. apply sorted_app in Hs as (H1 & H2 & H3). apply StronglySorted_inv in H2 as [H2 _].
    apply sorted_app. split_and!; try done. eapply list.Forall_impl; [exact H3|]. cbn. intros y Hy. by apply list.Forall_cons in Hy as [_ ?].
  - rewrite length_app. lia.
  - apply (levels_other live _ (level_at x)); [intros w Hw; by apply lookup_delete_ne|done|]. by apply list.Forall_app.
  - intros Hc v q Hv. apply lookup_delete_Some in Hv as [Hv Hlv]. apply Hc, elem_levels in Hlv as [->|?]; done.
Qed.

Lemma changed_ok a x b q : side_ok MaxLevels d live (a ++ x :: b) -> finite q -> 0 < value q -> let y := mkLevel (price x) q in
  side_ok MaxLevels d (<[level_at x := q]> live) (a ++ y :: b) /\ (complete live (a ++ x :: b) -> complete (<[level_at x := q]> live) (a ++ y :: b)).
Proof.
  intros [Hs Hb Hl] Hq Hq0 y. pose proof (fun l => level_ne d a b x l Hs) as Hne. apply list.Forall_app in Hl as [Hla [Hlx Hlb]%list.Forall_cons].
  assert (map level_at (a ++ y :: b) = map level_at (a ++ x :: b)) as Emap by (by rewrite !map_app).
  assert (Forall (level_ok (<[level_at x := q]> live)) (a ++ b)) as Hab.
  { apply (levels_other live _ (level_at x)); [intros w Hw; by apply lookup_insert_ne|done|]. by apply list.Forall_app. }
  apply list.Forall_app in Hab as [Ha' Hb']. split; [split|].
  - by rewrite Emap.
  - rewrite length_app in *. done.
  - apply list.Forall_app. split; [done|]. apply list.Forall_cons. split; [|done]. destruct Hlx as (? & _). split_and!; try done. apply lookup_insert_eq.
  - intros Hc v q0 Hv. rewrite Emap. destruct (decide (v = level_at x)) as [->|Hn]; [apply elem_levels; by left|].
    rewrite lookup_insert_ne in Hv by done. by eapply Hc.
Qed.

Lemma inserted_ok a b p q : side_ok MaxLevels d live (a ++ b) -> finite p -> finite q -> 0 < value q ->
  Forall (fun l => better d (level_at l) (value p)) a -> (forall l t, b = l :: t -> better d (value p) (level_at l)) ->
  let L := take MaxLevels (a ++ mkLevel p q :: b) in
  side_ok MaxLevels d (<[value p := q]> live) L /\
  (complete live (a ++ b) -> (size (<[value p := q]> live) <= MaxLevels)%nat -> complete (<[value p := q]> live) L).
Proof.
  intros [Hs Hb Hl] Hp Hq Hq0 Ha Hhd L. set (y := mkLevel p q) in *. assert (level_at y = value p) as Ey by done.
  assert (StronglySorted (better d) (map level_at (a ++ y :: b))) as Hs'.
  { rewrite map_app in *. cbn [map]. rewrite Ey. apply sorted_insert; [done|by apply Forall_map|].
    intros x t E. destruct b as [|l b]; [done|]. injection E as <- <-. by eapply Hhd. }
  assert (Forall (level_ok (<[value p := q]> live)) (a ++ y :: b)) as Hl'.
  { assert (Forall (level_ok (<[value p := q]> live)) (a ++ b)) as Hab.
    { apply (levels_other live _ (level_at y)); [intros w Hw; rewrite Ey in Hw; by apply lookup_insert_ne|intros l Hin; by eapply level_ne|done]. }
    apply list.Forall_app in Hab as [Ha' Hb']. apply list.Forall_app. split; [done|]. apply list.Forall_cons. split; [|done].
    split_and!; try done. rewrite Ey. apply lookup_insert_eq. }
  split; [split|].
  - subst L. rewrite <- (take_drop MaxLevels (a ++ y :: b)), map_app in Hs'. by apply sorted_app in Hs' as (? & _).
  - subst L. rewrite length_take. lia.
  - by apply Forall_take.
  - intros Hc Hsize. assert (live !! value p = None) as Hnone.
    { destruct (live !! value p) as [q0|] eqn:E; [|done]. apply Hc in E. apply sorted_NoDup in Hs'. rewrite map_app in *. cbn [map] in Hs'. rewrite Ey in Hs'.
      apply list.NoDup_app in Hs' as (_ & Hn & Hb'). apply list.NoDup_cons in Hb' as [Hx _]. apply elem_of_app in E as [E|E]; [|done].
      destruct (Hn _ E). by left. }
    rewrite map_size_insert_None, (complete_size d live (a ++ b)) in Hsize by done. subst L.
    rewrite take_ge by (rewrite length_app in *; cbn; lia). intros v q0 Hv. apply elem_levels. rewrite Ey.
    destruct (decide (v = value p)) as [->|Hn]; [by left|]. rewrite lookup_insert_ne in Hv by done. right. by eapply Hc.
Qed.
End side_steps.

(** Where the second loop stops: everything before is better, what follows is worse. *)
Lemma insert_point d p L : finite p -> (forall l, l ∈ L -> finite (price l) /\ apart (value p) (level_at l) /\ level_at l <> value p) ->
  exists a b, L = a ++ b /\ length a = default (length L) (first_idx (fun l => should_insert d p (price l)) L) /\
    Forall (fun l => better d (level_at l) (value p)) a /\ (forall l t, b = l :: t -> better d (value p) (level_at l)).
Proof.
  intros Hp HL. pose proof (first_idx_spec (fun l => should_insert d p (price l)) L) as Hpos.
  assert (forall l, l ∈ L -> should_insert d p (price l) = true <-> better d (value p) (level_at l)) as Hins.
  { intros l Hin. destruct (HL l Hin) as (? & ? & _). by apply should_insert_spec. }
  assert (forall l, l ∈ L -> should_insert d p (price l) = false -> better d (level_at l) (value p)) as Hbef.
  { intros l Hin Hf. destruct (HL l Hin) as (_ & _ & Hne). destruct (better_total d (level_at l) (value p) Hne) as [|Hw]; [done|].
    apply Hins in Hw; [congruence|done]. }
  destruct (first_idx (fun l => should_insert d p (price l)) L) as [i|].
  - destruct Hpos as (a & x & b & -> & <- & Hx & Ha). exists a, (x :: b). rewrite list.Forall_forall in Ha. split_and!; try done.
    + apply list.Forall_forall. intros l Hin. apply Hbef; [apply elem_of_app; by left|by apply Ha].
    + intros l t [= <- <-]. apply Hins; [apply elem_of_app; right; by left|done].
  - exists L, []. rewrite list.Forall_forall in Hpos. rewrite app_nil_r. split_and!; try done. apply list.Forall_forall. intros l Hin. by apply Hbef, Hpos.
Qed.

(** One update keeps a side in step with the live quantities. *)
Lemma list_update_ok MaxLevels d p q live L : side_ok MaxLevels d live L -> is_double p = true -> is_double q = true ->
  (isfinite p = true -> Forall (fun l => apart (value p) (level_at l)) L) ->
  side_ok MaxLevels d (live_update p q live) (list_update MaxLevels d p q L) /\
  (complete live L -> (size (live_update p q live) <= MaxLevels)%nat -> complete (live_update p q live) (list_update MaxLevels d p q L)).
Proof.
  intros Hok Dp Dq Hap. unfold live_update, list_update. destruct (isfinite p) eqn:Fp; [|done]. cbn [negb orb].
  destruct (isfinite q) eqn:Fq; [|done]. cbn [negb]. specialize (Hap eq_refl).
  assert (finite p) as Hp by done. assert (finite q) as Hq by done. pose proof (so_levels _ _ _ _ Hok) as Hl.
  rewrite list.Forall_forall in Hap, Hl.
  assert (forall l, l ∈ L -> price_eq (price l) p = (level_at l =? value p)) as Heq.
  { intros l Hin. apply price_eq_spec; [by apply Hl|done|]. destruct (Hap l Hin) as [E|E]; [by left|right]. unfold level_at in E. lia. }
  pose proof (leb_value q double_zero Hq ltac:(done)) as Eq. change (value double_zero) with 0 in Eq.
  pose proof (first_idx_spec (fun l => price_eq (price l) p) L) as Hf. destruct (first_idx (fun l => price_eq (price l) p) L) as [i|].
  - destruct Hf as (a & x & b & -> & <- & Hx & _). rewrite Heq in Hx by (apply elem_of_app; right; by left). apply Z.eqb_eq in Hx. rewrite <- Hx.
    destruct (SFleb q double_zero).
    + rewrite delete_middle. destruct (removed_ok _ _ _ _ _ _ Hok) as [H1 H2]. split; [done|]. intros Hc _. by apply H2.
    + rewrite alter_app_r_alt, Nat.sub_diag by lia. cbn [alter list_alter]. symmetry in Eq. apply Z.leb_gt in Eq.
      destruct (changed_ok _ _ _ _ _ _ q Hok Hq Eq) as [H1 H2]. split; [done|]. intros Hc _. by apply H2.
  - rewrite list.Forall_forall in Hf. assert (forall l, l ∈ L -> level_at l <> value p) as Hne.
    { intros l Hin E. specialize (Hf l Hin). cbn in Hf. rewrite Heq in Hf by done. apply Z.eqb_neq in Hf. done. }
    destruct (SFleb q double_zero).
    + assert (complete live L -> delete (value p) live = live) as Hdel.
      { intros Hc. apply delete_id. destruct (live !! value p) eqn:E; [|done]. apply Hc, list_elem_of_fmap in E as (l & E & Hin). by destruct (Hne l Hin). }
      split.
      * destruct Hok as [Hs Hb Hl']. split; try done. apply (levels_other live _ (value p)); try done. intros w Hw. by apply lookup_delete_ne.
      * intros Hc _. rewrite (Hdel Hc). done.
    + symmetry in Eq. apply Z.leb_gt in Eq. destruct (insert_point d p L Hp) as (a & b & E & <- & Ha & Hhd).
      { intros l Hin. split; [by apply Hl|]. split; [by apply Hap|by apply Hne]. }
      subst L. rewrite take_app_length, drop_app_length. by apply inserted_ok.
Qed.

(** ** The array book *)

Definition book_step (MaxLevels : nat) (o : book_op) (b : ArrayBook) : option ArrayBook :=
  match o with
  | Bid p q => update_bid MaxLevels p q b
  | Ask p q => update_ask MaxLevels p q b
  | Clear => Some (clear b)
  end.

Fixpoint book_run (MaxLevels : nat) (ops : list book_op) (b : ArrayBook) : option ArrayBook :=
  match ops with
  | [] => Some b
  | o :: ops => b ← book_step MaxLevels o b; book_run MaxLevels ops b
  end.

(** The live quantities of both sides. *)
Definition live_step (o : book_op) (m : gmap Z double * gmap Z double) : gmap Z double * gmap Z double :=
  match o with
  | Bid p q => (live_update p q m.1, m.2)
  | Ask p q => (m.1, live_update p q m.2)
  | Clear => (∅, ∅)
  end.

Definition live_run (ops : list book_op) : gmap Z double * gmap Z double := foldl (fun m o => live_step o m) (∅, ∅) ops.

(** The arguments are doubles of the machine, and the finite prices of a side can be told apart. *)
Definition op_doubles (o : book_op) : Prop :=
  match o with Bid p q | Ask p q => is_double p = true /\ is_double q = true | Clear => True end.

Definition prices (descending : bool) (ops : list book_op) : list double :=
  omap (fun o => match o, descending with
                 | Bid p _, true | Ask p _, false => if isfinite p then Some p else None
                 | _, _ => None
                 end) ops.

Definition well_spaced (ps : list double) : Prop := forall p p', p ∈ ps -> p' ∈ ps -> apart (value p) (value p').

(** At no time more than [n] live prices on a side. *)
Definition fits (n : nat) (ops : list book_op) : Prop :=
  forall k, (size (live_run (take k ops)).1 <= n)%nat /\ (size (live_run (take k ops)).2 <= n)%nat.

(** The best live price, if there is one. *)
Definition is_best (descending : bool) (live : gmap Z double) (r : option PriceLevel) : Prop :=
  match r with
  | None => live = ∅
  | Some l => live !! level_at l = Some (qty l) /\ forall v q, live !! v = Some q -> v = level_at l \/ better descending (level_at l) v
  end.

Lemma complete_best n d live L : side_ok n d live L -> complete live L -> is_best d live (head L).
Proof.
  intros [Hs _ Hl] Hc. destruct L as [|l L]; cbn [head is_best].
  - apply map_empty. intros v. destruct (live !! v) as [q|] eqn:E; [|done]. by apply Hc, elem_of_nil in E.
  - apply list.Forall_cons in Hl as [(_ & _ & _ & Hl) _]. split; [done|]. intros v q Hv. apply Hc in Hv. cbn [map] in Hv, Hs.
    apply StronglySorted_inv in Hs as [_ Hs]. apply elem_of_cons in Hv as [->|Hv]; [by left|right]. rewrite list.Forall_forall in Hs. by apply Hs.
Qed.

Section array_book_proof.
Context (MaxLevels : nat).

(** A side after the updates that used the prices [ps]. *)
Definition side_inv (d : bool) (ps : list double) (live : gmap Z double) (full : Prop) (s : side) : Prop :=
  exists L, holds MaxLevels s L /\ side_ok MaxLevels d live L /\ Forall (fun l => price l ∈ ps) L /\ (full -> complete live L).

Lemma list_update_prices d p q L (ps : list double) : Forall (fun l => price l ∈ ps) L -> (isfinite p = true -> p ∈ ps) ->
  Forall (fun l => price l ∈ ps) (list_update MaxLevels d p q L).
Proof.
  intros HL Hp. unfold list_update. destruct (isfinite p); [|done]. specialize (Hp eq_refl). destruct (isfinite q); [|done]. cbn [negb orb].
  destruct (first_idx _ L) as [i|].
  - destruct (SFleb q double_zero); [by apply Forall_delete|]. rewrite list.Forall_forall in *. intros l Hin.
    apply list_elem_of_lookup_1 in Hin as [j Hj]. rewrite list_lookup_alter in Hj. case_decide; [|by eapply HL, list_elem_of_lookup_2].
    apply fmap_Some in Hj as (x & Hx & ->). cbn [price]. by eapply HL, list_elem_of_lookup_2.
  - destruct (SFleb q double_zero); [done|]. apply Forall_take, list.Forall_app. split; [by apply Forall_take|]. apply list.Forall_cons. split; [done|by apply Forall_drop].
Qed.

Lemma update_side_inv d ps ps' p q live (full full' : Prop) s : side_inv d ps live full s -> is_double p = true -> is_double q = true ->
  (forall x, x ∈ ps -> x ∈ ps') -> (isfinite p = true -> p ∈ ps') -> well_spaced ps' ->
  (full' -> full /\ (size (live_update p q live) <= MaxLevels)%nat) ->
  exists s', update_side MaxLevels d p q s = Some s' /\ side_inv d ps' (live_update p q live) full' s'.
Proof.
  intros (L & Hh & Hok & HL & Hf) Dp Dq Hps Hp Hw Hfull.
  destruct (update_side_list MaxLevels d p q s L Hh (so_bounded _ _ _ _ Hok)) as (s' & Es & Hh'). exists s'. split; [done|].
  assert (Forall (fun l => price l ∈ ps') L) as HL' by (eapply list.Forall_impl; [exact HL|]; cbn; auto).
  destruct (list_update_ok MaxLevels d p q live L Hok Dp Dq) as [Hok' Hc'].
  { intros Fp. eapply list.Forall_impl; [exact HL'|]. cbn. intros l Hin. apply Hw; auto. }
  exists (list_update MaxLevels d p q L). split_and!; try done.
  - by apply list_update_prices.
  - intros F. destruct (Hfull F) as [F1 F2]. by apply Hc'; [apply Hf|].
Qed.

Lemma side_inv_mono d ps ps' live (full full' : Prop) s : side_inv d ps live full s -> (forall x, x ∈ ps -> x ∈ ps') -> (full' -> full) ->
  side_inv d ps' live full' s.
Proof. intros (L & ? & ? & HL & ?) Hps Hf. exists L. split_and!; auto. eapply list.Forall_impl; [exact HL|]. cbn. auto. Qed.

Lemma cleared_inv d ps full s : length (levels_ s) = MaxLevels -> side_inv d ps ∅ full (mkSide (levels_ s) 0).
Proof.
  intros H. exists []. split_and!; [split_and!; [done|done|by exists (levels_ s)]| |constructor|done].
  split; [constructor|cbn; lia|constructor].
Qed.

Lemma book_run_app ops ops' b : book_run MaxLevels (ops ++ ops') b = (b ← book_run MaxLevels ops b; book_run MaxLevels ops' b).
Proof. revert b. induction ops as [|o ops IH]; intros b; [done|]. cbn [app book_run]. destruct (book_step _ o b); [apply IH|done]. Qed.

Lemma live_run_snoc ops o : live_run (ops ++ [o]) = live_step o (live_run ops).
Proof. unfold live_run. by rewrite foldl_app. Qed.

Lemma prices_snoc d ops o : prices d (ops ++ [o]) = prices d ops ++ prices d [o].
Proof. apply omap_app. Qed.

Lemma fits_snoc ops o : fits MaxLevels (ops ++ [o]) -> fits MaxLevels ops /\
  (size (live_step o (live_run ops)).1 <= MaxLevels)%nat /\ (size (live_step o (live_run ops)).2 <= MaxLevels)%nat.
Proof.
  intros H. split.
  - intros k. destruct (Nat.le_gt_cases k (length ops)) as [Hk|Hk].
    + specialize (H k). by rewrite take_app_le in H.
    + specialize (H (length ops)). rewrite take_app_length in H. rewrite take_ge by lia. done.
  - specialize (H (S (length ops))). rewrite take_ge in H by (rewrite length_app; cbn; lia). by rewrite live_run_snoc in H.
Qed.

Lemma well_spaced_app ps ps' : well_spaced (ps ++ ps') -> well_spaced ps.
Proof. intros H p p' Hp Hp'. apply H; apply elem_of_app; by left. Qed.

Lemma book_run_inv ops : Forall op_doubles ops -> well_spaced (prices true ops) -> well_spaced (prices false ops) ->
  exists b, book_run MaxLevels ops (array_book_init MaxLevels) = Some b /\
    side_inv true (prices true ops) (live_run ops).1 (fits MaxLevels ops) (bids_ b) /\
    side_inv false (prices false ops) (live_run ops).2 (fits MaxLevels ops) (asks_ b).
Proof.
  induction ops as [|o ops IH] using rev_ind; intros Hd Hw1 Hw2.
  { eexists. split; [reflexivity|]. split; apply (cleared_inv _ _ _ (empty_side MaxLevels)); apply repeat_length. }
  apply list.Forall_app in Hd as [Hd [Ho _]%list.Forall_cons]. rewrite !prices_snoc in *.
  destruct IH as (b & E & Hb & Ha); [done|by eapply well_spaced_app..|]. rewrite book_run_app, E, live_run_snoc. cbn [mbind option_bind book_run].
  assert (forall d x, x ∈ prices d ops -> x ∈ prices d ops ++ prices d [o]) as Hincl by (intros; apply elem_of_app; by left).
  pose proof (fits_snoc ops o) as Hfit. destruct o as [p q|p q|]; cbn [book_step live_step fst snd] in *.
  - destruct Ho as [Dp Dq]. unfold update_bid.
    destruct (update_side_inv true _ (prices true ops ++ prices true [Bid p q]) p q _ _ (fits MaxLevels (ops ++ [Bid p q])) _ Hb Dp Dq) as (s' & -> & Hs'); auto.
    { intros Fp. apply elem_of_app. right. cbn. rewrite Fp. by left. }
    { intros F. destruct (Hfit F) as (? & ? & _). done. }
    cbn [mbind option_bind]. eexists. split; [reflexivity|]. split; [done|]. eapply side_inv_mono; [exact Ha|auto|]. intros F. by destruct (Hfit F).
  - destruct Ho as [Dp Dq]. unfold update_ask.
    destruct (update_side_inv false _ (prices false ops ++ prices false [Ask p q]) p q _ _ (fits MaxLevels (ops ++ [Ask p q])) _ Ha Dp Dq) as (s' & -> & Hs'); auto.
    { intros Fp. apply elem_of_app. right. cbn. rewrite Fp. by left. }
    { intros F. destruct (Hfit F) as (? & _ & ?). done. }
    cbn [mbind option_bind]. eexists. split; [reflexivity|]. split; [|done]. eapply side_inv_mono; [exact Hb|auto|]. intros F. by destruct (Hfit F).
  - eexists. split; [reflexivity|]. destruct Hb as (L1 & (H1 & _) & _), Ha as (L2 & (H2 & _) & _). split; by apply cleared_inv.
Qed.

Lemma side_inv_best d ps live (full : Prop) s : side_inv d ps live full s -> exists r, best s = Some r /\ r = head (active s) /\
  side_ok MaxLevels d live (active s) /\ (full -> complete live (active s) /\ is_best d live r).
Proof.
  intros (L & (Hlen & Hc & junk & El) & Hok & _ & Hf). assert (active s = L) as -> by (unfold active; rewrite Hc, El; apply take_app_length).
  exists (head L). unfold best. rewrite Hc, El. split_and!; [|done|done|].
  - destruct L as [|l L]; [done|]. by rewrite (lookup_app_l (l :: L)) by (cbn; lia).
  - intros F. specialize (Hf F). split; [done|]. by eapply complete_best.
Qed.
End array_book_proof.

(** C20: The array book.  Any sequence of updates and clears is defined: no index leaves the
    arrays.  When the finite prices used on a side are equal or differ by more than 2e-12,
    each side is at all times strictly sorted with the best price first, never longer than
    [MaxLevels], and every level shows the positive quantity that the last update of its price
    set; updates with NaN or infinite arguments change nothing.  As long as no more than
    [MaxLevels] prices were live at once, the side shows all live levels, and [best_bid] and
    [best_ask] are the best live prices. *)
Theorem array_book_refines MaxLevels ops : Forall op_doubles ops -> well_spaced (prices true ops) -> well_spaced (prices false ops) ->
  exists b bid ask, book_run MaxLevels ops (array_book_init MaxLevels) = Some b /\
    side_ok MaxLevels true (live_run ops).1 (active (bids_ b)) /\ side_ok MaxLevels false (live_run ops).2 (active (asks_ b)) /\
    best_bid b = Some bid /\ bid = head (active (bids_ b)) /\ best_ask b = Some ask /\ ask = head (active (asks_ b)) /\
    (fits MaxLevels ops ->
      complete (live_run ops).1 (active (bids_ b)) /\ complete (live_run ops).2 (active (asks_ b)) /\
      is_best true (live_run ops).1 bid /\ is_best false (live_run ops).2 ask).
Proof.
  intros Hd H1 H2. destruct (book_run_inv MaxLevels ops Hd H1 H2) as (b & E & Hb & Ha).
  destruct (side_inv_best _ _ _ _ _ _ Hb) as (bid & ? & ? & ? & Hb'). destruct (side_inv_best _ _ _ _ _ _ Ha) as (ask & ? & ? & ? & Ha').
  exists b, bid, ask. split_and!; try done. intros F. destruct (Hb' F), (Ha' F). done.
Qed.

(** ** The map book *)

Lemma quantize_double p : is_double p = true -> is_double (quantize p) = true.
Proof.
  intros Hp. unfold quantize. apply mul_double; [|done]. apply round_double. by apply div_double.
Qed.

Lemma key_less_spec d a b : finite a -> finite b -> key_less d a b = true <-> better d (value a) (value b).
Proof. intros Ha Hb. unfold key_less, better. destruct d; rewrite ltb_value by done; apply Z.ltb_lt. Qed.

Lemma key_cases d l k : finite (price l) -> finite k ->
  key_less d (price l) k = true /\ better d (level_at l) (value k) \/
  key_less d (price l) k = false /\ key_less d k (price l) = true /\ better d (value k) (level_at l) \/
  key_less d (price l) k = false /\ key_less d k (price l) = false /\ level_at l = value k.
Proof.
  intros Hl Hk. pose proof (key_less_spec d (price l) k Hl Hk) as H1. pose proof (key_less_spec d k (price l) Hk Hl) as H2.
  destruct (key_less d (price l) k); [left; split; [done|]; by apply H1|right]. destruct (key_less d k (price l)); [left|right].
  - split_and!; try done. by apply H2.
  - split_and!; try done. destruct (Z.eq_dec (level_at l) (value k)) as [|Hn]; [done|].
    destruct (better_total d _ _ Hn) as [Hb|Hb]; [apply H1 in Hb|apply H2 in Hb]; done.
Qed.

(** Where a key is or goes. *)
Lemma key_split d k m : finite k -> Forall (fun l => finite (price l)) m -> exists a b, m = a ++ b /\
  Forall (fun l => better d (level_at l) (value k)) a /\ (forall l t, b = l :: t -> level_at l = value k \/ better d (value k) (level_at l)) /\
  map_erase d k m = a ++ (match b with l :: t => if level_at l =? value k then t else b | [] => b end) /\
  forall v, insert_or_assign d k v m = a ++ (match b with l :: t => if level_at l =? value k then mkLevel (price l) v :: t else mkLevel k v :: b | [] => [mkLevel k v] end).
Proof.
  intros Hk. induction m as [|l m IH]; intros Hm; [by exists [], []|]. apply list.Forall_cons in Hm as [Hl Hm].
  cbn [map_erase insert_or_assign]. destruct (key_cases d l k Hl Hk) as [[-> Hb]|[(-> & -> & Hb)|(-> & -> & E)]].
  - destruct (IH Hm) as (a & b & -> & Ha & Hhd & He & Hi). exists (l :: a), b. split_and!; [done|by constructor|done|by rewrite He|]. intros v. by rewrite Hi.
  - assert (level_at l <> value k) as Hne by (intros E; rewrite E in Hb; by apply better_irrefl in Hb).
    exists [], (l :: m). rewrite (proj2 (Z.eqb_neq _ _) Hne). split_and!; try done. intros ? ? [= <- <-]. by right.
  - exists [], (l :: m). rewrite E, Z.eqb_refl. split_and!; try done. intros ? ? [= <- <-]. by left.
Qed.

(** A side of a map book has no bound; its levels are the live ones. *)
Definition map_ok (d : bool) (live : gmap Z double) (m : list PriceLevel) : Prop := side_ok (length m) d live m /\ complete live m.

Lemma side_ok_bound n d live L : side_ok n d live L -> forall n', (length L <= n')%nat -> side_ok n' d live L.
Proof. intros [? ? ?] n' ?. by split. Qed.

(** A key between two neighbours is not live, and can be inserted there. *)
Lemma key_absent d live a b v : map_ok d live (a ++ b) -> Forall (fun l => better d (level_at l) v) a ->
  (forall l t, b = l :: t -> better d v (level_at l)) -> live !! v = None.
Proof.
  intros [[Hs _ _] Hc] Ha Hb. destruct (live !! v) as [x|] eqn:E; [|done]. apply Hc in E. exfalso. rewrite map_app in *.
  apply elem_of_app in E as [(l & E & Hin)%list_elem_of_fmap|E].
  - rewrite list.Forall_forall in Ha. specialize (Ha l Hin). rewrite E in Ha. by apply better_irrefl in Ha.
  - destruct b as [|l t]; [by apply elem_of_nil in E|]. specialize (Hb l t eq_refl). cbn [map] in E, Hs.
    apply elem_of_cons in E as [->|E]; [by apply better_irrefl in Hb|]. apply sorted_app in Hs as (_ & Hs & _). apply StronglySorted_inv in Hs as [_ Hs].
    rewrite list.Forall_forall in Hs. apply (better_irrefl d v). eapply better_trans; [exact Hb|by apply Hs].
Qed.

Lemma map_insert_ok d live a b k q : map_ok d live (a ++ b) -> finite k -> finite q -> 0 < value q ->
  Forall (fun l => better d (level_at l) (value k)) a -> (forall l t, b = l :: t -> better d (value k) (level_at l)) ->
  map_ok d (<[value k := q]> live) (a ++ mkLevel k q :: b).
Proof.
  intros Hm Hk Hq Hq0 Ha Hb. pose proof (key_absent d live a b (value k) Hm Ha Hb) as Hn. destruct Hm as [Hok Hc].
  destruct (inserted_ok (length (a ++ mkLevel k q :: b)) d live a b k q) as [H1 H2]; try done.
  { eapply side_ok_bound; [exact Hok|]. rewrite !length_app. cbn. lia. }
  rewrite take_ge in H1, H2 by done. split; [done|]. apply H2; [done|]. destruct Hok as [Hs _ Hl].
  rewrite map_size_insert_None, (complete_size d live (a ++ b)) by done. rewrite !length_app. cbn. lia.
Qed.

Lemma map_update_ok d p q live m : map_ok d live m -> is_double p = true -> is_double q = true -> (isfinite p = true -> isfinite (quantize p) = true) ->
  map_ok d (if isfinite p then live_update (quantize p) q live else live) (map_update d p q m).
Proof.
  intros Hm Dp Dq Hqf. unfold map_update, live_update. destruct (isfinite p); [|done]. specialize (Hqf eq_refl). cbn [negb]. rewrite Hqf. cbn [negb orb].
  destruct (isfinite q) eqn:Fq; [|done]. cbn [negb]. set (k := quantize p) in *.
  assert (finite k) as Hk by (split; [by apply quantize_double|done]). assert (finite q) as Hq by done.
  destruct (key_split d k m Hk) as (a & b & -> & Ha & Hhd & He & Hi).
  { eapply list.Forall_impl; [apply (so_levels _ _ _ _ (proj1 Hm))|]. by intros l (? & _). }
  pose proof (leb_value q double_zero Hq ltac:(done)) as Eq. change (value double_zero) with 0 in Eq.
  assert ((exists l t, b = l :: t /\ level_at l = value k) \/ (forall l t, b = l :: t -> level_at l <> value k /\ better d (value k) (level_at l))) as [(l & t & -> & E)|Hb].
  { destruct b as [|l t]; [by right|]. destruct (Hhd l t eq_refl) as [E|Hb]; [left; by exists l, t|right]. intros ? ? [= <- <-]. split; [|done].
    intros E. rewrite E in Hb. by apply better_irrefl in Hb. }
  - rewrite He, Hi, E, Z.eqb_refl, <- E. destruct Hm as [Hok Hc]. destruct (SFleb q double_zero).
    + destruct (removed_ok _ d live a l t Hok) as [H1 H2]. split; [|by apply H2]. destruct H1. by split.
    + symmetry in Eq. apply Z.leb_gt in Eq. destruct (changed_ok _ d live a l t q Hok Hq Eq) as [H1 H2]. split; [|by apply H2]. by eapply side_ok_bound.
  - assert (forall l t, b = l :: t -> better d (value k) (level_at l)) as Hb' by (intros; by eapply Hb). destruct (SFleb q double_zero).
    + rewrite (delete_id live) by (by eapply key_absent). rewrite He. destruct b as [|l t]; [done|].
      destruct (Hb l t eq_refl) as [Hne _]. by rewrite (proj2 (Z.eqb_neq _ _) Hne).
    + symmetry in Eq. apply Z.leb_gt in Eq. pose proof (map_insert_ok d live a b k q Hm Hk Hq Eq Ha Hb') as Hok. rewrite Hi. destruct b as [|l t]; [done|].
      destruct (Hb l t eq_refl) as [Hne _]. by rewrite (proj2 (Z.eqb_neq _ _) Hne).
Qed.

(** The quantity each quantized price has. *)
Definition map_live_step (o : book_op) (m : gmap Z double * gmap Z double) : gmap Z double * gmap Z double :=
  let upd := fun p q live => if isfinite p then live_update (quantize p) q live else live in
  match o with
  | Bid p q => (upd p q m.1, m.2)
  | Ask p q => (m.1, upd p q m.2)
  | Clear => (∅, ∅)
  end.

(** Doubles of the machine; a finite price stays finite when it is quantized. *)
Definition map_op_ok (o : book_op) : Prop :=
  match o with
  | Bid p q | Ask p q => is_double p = true /\ is_double q = true /\ (isfinite p = true -> isfinite (quantize p) = true)
  | Clear => True
  end.

(** The map book.  For updates whose finite prices stay finite when they are quantized,
    each side of the book is at all times the list of the live levels, exactly once each, in
    strict order with the best price first, keyed by the quantized price: the quantity of a
    level is the one the last update of its price set, and levels set to zero or below are
    gone; so the first entries are the best bid and the best ask. *)
Theorem map_book_refines ops : Forall map_op_ok ops ->
  let b := foldl (fun b o => map_step o b) (mkMap [] []) ops in
  let live := foldl (fun m o => map_live_step o m) (∅, ∅) ops in
  map_ok true live.1 (map_bids b) /\ map_ok false live.2 (map_asks b) /\
  is_best true live.1 (map_best_bid b) /\ is_best false live.2 (map_best_ask b).
Proof.
  intros Hops b live. enough (map_ok true live.1 (map_bids b) /\ map_ok false live.2 (map_asks b)) as [H1 H2].
  { split_and!; try done; destruct H1, H2; by eapply complete_best. }
  assert (map_ok true ∅ [] /\ map_ok false ∅ []) as Hempty.
  { split; (split; [split; [constructor|done|constructor]|by intros v q Hv; rewrite lookup_empty in Hv]). }
  subst b live. induction ops as [|o ops IH] using rev_ind; [exact Hempty|].
  apply list.Forall_app in Hops as [Hops [Ho _]%list.Forall_cons]. destruct (IH Hops) as [H1 H2]. rewrite !foldl_app. cbn [foldl].
  destruct o as [p q|p q|]; cbn [map_step map_live_step map_bids map_asks fst snd]; [destruct Ho as (Dp & Dq & Hq); split; [by apply map_update_ok|done]| |exact Hempty].
  destruct Ho as (Dp & Dq & Hq). split; [done|by apply map_update_ok].
Qed.

(** ** Tickers *)

Section tickers.
Context (pow10 : Z -> double) (pow10_double : forall e, is_double (pow10 e) = true) (MaxLevels : nat) (max_pos : (0 < MaxLevels)%nat).

Lemma number_int_double s : forall r h, is_double r = true -> match number_int r h s with Some (x, _, _) => is_double x = true | None => True end.
Proof using.
  induction s as [|c s IH]; intros r h Hr; [done|]. cbn [number_int]. destruct (_ || _); [done|]. destruct (digit_value c) as [v|]; [|done]. cbn [mbind option_bind].
  apply IH. apply add_double; [by apply mul_double|apply int_double].
Qed.

Lemma number_frac_double s : forall f d h, is_double f = true -> is_double d = true ->
  match number_frac f d h s with Some (x, _, _) => is_double x = true | None => True end.
Proof using.
  induction s as [|c s IH]; intros f d h Hf Hd; [done|]. cbn [number_frac]. destruct (is_exp_char c); [done|]. destruct (digit_value c) as [v|]; [|done]. cbn [mbind option_bind].
  apply IH; [|by apply mul_double]. apply add_double; [done|]. apply div_double; [apply int_double|done].
Qed.

Lemma parse_number_finite s x : parse_number pow10 s = Some x -> finite x.
Proof using pow10_double.
  unfold parse_number. destruct s as [|c t]; [done|]. destruct (if b2z c =? 45 then (true, t) else (false, c :: t)) as [neg p].
  destruct (bool_decide (p = [])); [done|]. pose proof (number_int_double p double_zero false ltac:(done)) as H1.
  destruct (number_int double_zero false p) as [[[r1 h1] p1]|]; [|done]. cbn [mbind option_bind].
  match goal with |- context [mbind _ ?m] => assert (match m with Some (x, _, _) => is_double x = true | None => True end) as H2; [|destruct m as [[[r2 h2] p2]|]; [|done]] end.
  { destruct p1 as [|d q]; [done|]. destruct (is_dot d); [|done]. pose proof (number_frac_double q double_zero ten false ltac:(done) ltac:(done)) as H.
    destruct (number_frac double_zero ten false q) as [[[f h] q']|]; [|done]. cbn [mbind option_bind]. destruct h; [|done]. by apply add_double. }
  cbn [mbind option_bind]. destruct (_ && _); [done|].
  match goal with |- context [mbind _ ?m] => assert (match m with Some x => is_double x = true | None => True end) as H3; [|destruct m as [r3|]; [|done]] end.
  { destruct p2 as [|d q]; [done|]. destruct (is_exp_char d); [|done].
    destruct (match q with [] => _ | _ => _ end) as [en q']. destruct (bool_decide (q' = [])); [done|]. destruct (number_exp 0 q') as [e|]; [|done]. cbn [mbind option_bind].
    destruct en; [by apply div_double|by apply mul_double]. }
  cbn [mbind option_bind]. destruct (isfinite _) eqn:Ef; [|done]. intros [= <-]. split; [|done]. destruct neg; [by apply opp_double|done].
Qed.

(** A side that shows one quote at most: the last one. *)
Definition shows (s : side) (valid : bool) (p q : double) : Prop :=
  finite p /\ finite q /\ valid = (0 <? value q) /\
  exists L, holds MaxLevels s L /\ if valid then exists l, L = [l] /\ finite (price l) /\ level_at l = value p /\ qty l = q else L = [].

Lemma price_eq_same a b : finite a -> finite b -> value a = value b -> price_eq a b = true.
Proof using. intros Ha Hb E. rewrite price_eq_spec by (done || by left). by apply Z.eqb_eq. Qed.

(** Retiring the old quote and showing the new one. *)
Lemma quote_shown d s valid lp q0 p q : shows s valid lp q0 -> finite p -> finite q -> exists s1 s2,
  (if valid && negb (SFeqb lp p) then update_side MaxLevels d lp double_zero s else Some s) = Some s1 /\
  update_side MaxLevels d p q s1 = Some s2 /\ shows s2 (SFltb double_zero q) (if SFltb double_zero q then p else lp) q.
Proof using max_pos.
  intros (Hlp & Hq0 & Ev & L & Hh & HL) Hp Hq.
  assert (exists s1 L1, (if valid && negb (SFeqb lp p) then update_side MaxLevels d lp double_zero s else Some s) = Some s1 /\ holds MaxLevels s1 L1 /\
    (L1 = [] \/ exists l, L1 = [l] /\ finite (price l) /\ level_at l = value p)) as (s1 & L1 & -> & Hh1 & HL1).
  { destruct valid; [|exists s, L; cbn [andb]; auto]. destruct HL as (l & -> & Hl & El & _). cbn [andb].
    rewrite eqb_value by done. destruct (Z.eqb_spec (value lp) (value p)) as [E|E]; cbn [negb]; [exists s, [l]; split_and!; try done; right; exists l; split_and!; try done; congruence|].
    destruct (update_side_list MaxLevels d lp double_zero s [l] Hh ltac:(cbn; lia)) as (s1 & -> & Hh1). exists s1, []. split_and!; try done; [|by left].
    unfold list_update in Hh1. rewrite (proj2 Hlp) in Hh1. cbn [negb orb isfinite double_zero first_idx] in Hh1.
    rewrite (price_eq_same (price l) lp Hl Hlp El) in Hh1. exact Hh1. }
  destruct (update_side_list MaxLevels d p q s1 L1 Hh1) as (s2 & E2 & Hh2); [destruct HL1 as [->|(l & -> & _)]; cbn; lia|].
  exists s1, s2. split; [done|]. split; [done|]. rewrite ltb_value by done. change (value double_zero) with 0.
  split; [by destruct (0 <? value q)|]. split; [done|]. split; [done|]. eexists. split; [exact Hh2|]. unfold list_update. rewrite (proj2 Hp), (proj2 Hq). cbn [negb orb].
  rewrite leb_value by done. change (value double_zero) with 0. destruct (Z.ltb_spec 0 (value q)) as [H0|H0].
  - rewrite (proj2 (Z.leb_gt _ _)) by done. destruct HL1 as [->|(l & -> & Hl & El)].
    + cbn [first_idx default length take app drop]. rewrite take_ge by (cbn; lia). by exists (mkLevel p q).
    + cbn [first_idx]. rewrite (price_eq_same (price l) p Hl Hp El). cbn [alter list_alter]. by exists (mkLevel (price l) q).
  - rewrite (proj2 (Z.leb_le _ _)) by done. destruct HL1 as [->|(l & -> & Hl & El)]; [done|]. cbn [first_idx]. by rewrite (price_eq_same (price l) p Hl Hp El).
Qed.

(** The tickers one after the other, with what each call returned. *)
Fixpoint ticker_run (ts : list BookTicker) (a : BinanceBookAdapter) : option (list bool * BinanceBookAdapter) :=
  match ts with
  | [] => Some ([], a)
  | t :: ts =>
    '(r, a) ← update_from_ticker pow10 MaxLevels t a;
    '(rs, a) ← ticker_run ts a;
    Some (r :: rs, a)
  end.

Definition quote (t : BookTicker) : option (double * double * (double * double)) :=
  bp ← parse_number pow10 (t_bid_price t); bq ← parse_number pow10 (t_bid_qty t);
  ap ← parse_number pow10 (t_ask_price t); aq ← parse_number pow10 (t_ask_qty t);
  Some (bp, bq, (ap, aq)).

(** The side shows the quote [pq] and nothing else; nothing, when there is none or it is empty. *)
Definition shows_quote (s : side) (pq : option (double * double)) : Prop :=
  match pq with
  | Some (p, q) => if 0 <? value q then exists l, active s = [l] /\ level_at l = value p /\ qty l = q else active s = []
  | None => active s = []
  end.

Lemma shows_active s valid p q : shows s valid p q -> shows_quote s (Some (p, q)).
Proof using.
  intros (_ & _ & -> & L & (Hl & Hc & junk & El) & HL). unfold shows_quote. assert (active s = L) as -> by (unfold active; rewrite Hc, El; apply take_app_length).
  destruct (0 <? value q); [|done]. destruct HL as (l & -> & _ & ? & ?). by exists l.
Qed.

Lemma ticker_step t a bq aq : shows (bids_ (book_ a)) (last_bid_valid_ a) (last_bid_price_ a) bq -> shows (asks_ (book_ a)) (last_ask_valid_ a) (last_ask_price_ a) aq ->
  exists r a', update_from_ticker pow10 MaxLevels t a = Some (r, a') /\ r = bool_decide (is_Some (quote t)) /\
    match quote t with
    | None => a' = a
    | Some (bp, bq, (ap, aq)) =>
      shows (bids_ (book_ a')) (last_bid_valid_ a') (last_bid_price_ a') bq /\ (last_bid_valid_ a' = true -> last_bid_price_ a' = bp) /\
      shows (asks_ (book_ a')) (last_ask_valid_ a') (last_ask_price_ a') aq /\ (last_ask_valid_ a' = true -> last_ask_price_ a' = ap)
    end.
Proof using max_pos pow10_double.
  intros Hb Ha. unfold update_from_ticker, quote. destruct (parse_number pow10 (t_bid_price t)) as [bp|] eqn:E1; [|by eexists _, _].
  destruct (parse_number pow10 (t_bid_qty t)) as [bq'|] eqn:E2; [|by eexists _, _]. destruct (parse_number pow10 (t_ask_price t)) as [ap|] eqn:E3; [|by eexists _, _].
  destruct (parse_number pow10 (t_ask_qty t)) as [aq'|] eqn:E4; [|by eexists _, _].
  apply parse_number_finite in E1, E2, E3, E4. cbn [mbind option_bind].
  destruct (quote_shown true _ _ _ _ bp bq' Hb E1 E2) as (b1 & b2 & Eb1 & Eb2 & Sb).
  destruct (quote_shown false _ _ _ _ ap aq' Ha E3 E4) as (a1 & a2 & Ea1 & Ea2 & Sa).
  assert ((if last_bid_valid_ a && negb (SFeqb (last_bid_price_ a) bp) then update_bid MaxLevels (last_bid_price_ a) double_zero (book_ a) else Some (book_ a)) =
    Some (mkBook b1 (asks_ (book_ a)))) as ->.
  { unfold update_bid. destruct (last_bid_valid_ a && negb (SFeqb (last_bid_price_ a) bp)) in Eb1 |- *; [by rewrite Eb1|]. injection Eb1 as <-. by destruct (book_ a). }
  cbn [mbind option_bind].
  assert ((if last_ask_valid_ a && negb (SFeqb (last_ask_price_ a) ap) then update_ask MaxLevels (last_ask_price_ a) double_zero (mkBook b1 (asks_ (book_ a))) else Some (mkBook b1 (asks_ (book_ a)))) =
    Some (mkBook b1 a1)) as ->.
  { unfold update_ask. cbn [asks_ bids_]. destruct (last_ask_valid_ a && negb (SFeqb (last_ask_price_ a) ap)) in Ea1 |- *; [by rewrite Ea1|]. by injection Ea1 as <-. }
  cbn [mbind option_bind]. unfold update_bid, update_ask. cbn [bids_ asks_]. rewrite Eb2. cbn [mbind option_bind asks_ bids_]. rewrite Ea2. cbn [mbind option_bind].
  eexists _, _. split; [reflexivity|]. split; [by rewrite bool_decide_eq_true_2|]. cbn [book_ bids_ asks_ last_bid_valid_ last_ask_valid_ last_bid_price_ last_ask_price_].
  split_and!; try done; by intros ->.
Qed.

(** What the adapter shows after the tickers [ts]. *)
Definition last_quote (ts : list BookTicker) : option (double * double * (double * double)) := list.last (omap quote ts).

Lemma last_quote_cons t ts : last_quote (t :: ts) = match last_quote ts with Some x => Some x | None => quote t end.
Proof using.
  unfold last_quote. change (omap quote (t :: ts)) with (match quote t with Some y => y :: omap quote ts | None => omap quote ts end).
  destruct (quote t); [by rewrite last_cons|]. by destruct (list.last (omap quote ts)).
Qed.

Lemma shown_quote s valid lp p q : shows s valid lp q -> (valid = true -> lp = p) -> shows_quote s (Some (p, q)).
Proof using.
  intros Hs Hp. pose proof (shows_active s valid lp q Hs) as H. destruct Hs as (_ & _ & Ev & _). unfold shows_quote in *.
  destruct (0 <? value q); [|done]. by rewrite (Hp Ev) in H.
Qed.

Lemma ticker_run_shows ts : forall a bq aq bid ask,
  shows (bids_ (book_ a)) (last_bid_valid_ a) (last_bid_price_ a) bq -> shows (asks_ (book_ a)) (last_ask_valid_ a) (last_ask_price_ a) aq ->
  shows_quote (bids_ (book_ a)) bid -> shows_quote (asks_ (book_ a)) ask ->
  exists a', ticker_run ts a = Some (map (fun t => bool_decide (is_Some (quote t))) ts, a') /\
    shows_quote (bids_ (book_ a')) (match last_quote ts with Some (x, _) => Some x | None => bid end) /\
    shows_quote (asks_ (book_ a')) (match last_quote ts with Some (_, y) => Some y | None => ask end).
Proof using max_pos pow10_double.
  induction ts as [|t ts IH]; intros a bq aq bid ask Hb Ha Qb Qa; [by exists a|]. cbn [ticker_run map].
  destruct (ticker_step t a bq aq Hb Ha) as (r & a1 & -> & -> & Hs). cbn [mbind option_bind]. rewrite last_quote_cons.
  destruct (quote t) as [[[bp bq'] [ap aq']]|].
  - destruct Hs as (Hb1 & Hp1 & Ha1 & Hp2). destruct (IH a1 bq' aq' (Some (bp, bq')) (Some (ap, aq')) Hb1 Ha1) as (a' & -> & Q1 & Q2); [by eapply shown_quote..|].
    cbn [mbind option_bind]. exists a'. split; [done|]. by destruct (last_quote ts) as [[x y]|].
  - subst a1. destruct (IH a bq aq bid ask Hb Ha Qb Qa) as (a' & -> & Q). cbn [mbind option_bind]. exists a'. split; [done|]. by destruct (last_quote ts) as [[x y]|].
Qed.
End tickers.

(** Best quotes from tickers.  Starting from an empty adapter, after any sequence of ticker
    messages the book shows exactly the quotes of the last well-formed message: one level on
    a side whose quantity is positive, none otherwise -- no level of an earlier message
    survives -- and the calls returned whether the four numbers of their message could be
    parsed. *)
Theorem binance_shows_last_ticker pow10 MaxLevels ts : (forall e, is_double (pow10 e) = true) -> (0 < MaxLevels)%nat ->
  exists a, ticker_run pow10 MaxLevels ts (adapter_init MaxLevels) = Some (map (fun t => bool_decide (is_Some (quote pow10 t))) ts, a) /\
    shows_quote (bids_ (book_ a)) (fst <$> last_quote pow10 ts) /\ shows_quote (asks_ (book_ a)) (snd <$> last_quote pow10 ts).
Proof.
  intros Hpow Hmax. assert (shows MaxLevels (empty_side MaxLevels) false double_zero double_zero) as Hs.
  { split_and!; try done. exists []. split; [|done]. split_and!; [apply repeat_length|done|by eexists]. }
  destruct (ticker_run_shows pow10 Hpow MaxLevels Hmax ts (adapter_init MaxLevels) double_zero double_zero None None Hs Hs) as (a & E & Q1 & Q2); [done|done|].
  exists a. split; [done|]. by destruct (last_quote pow10 ts) as [[x y]|].
Qed.

(** ** Examples *)

Definition demo_bids : list book_op :=
  [Bid (double_of_int 100) (double_of_int 5); Bid (double_of_int 101) (double_of_int 7); Bid S754_nan (double_of_int 1);
   Bid (double_of_int 100) (double_of_int 6); Bid (double_of_int 101) double_zero].

Lemma demo_spaced : well_spaced (prices true demo_bids).
Proof.
  assert (prices true demo_bids = [double_of_int 100; double_of_int 101; double_of_int 100; double_of_int 101]) as -> by (by vm_compute).
  intros p p' Hp Hp'. repeat (apply elem_of_cons in Hp as [->|Hp]); try (by apply elem_of_nil in Hp);
    repeat (apply elem_of_cons in Hp' as [->|Hp']); try (by apply elem_of_nil in Hp'); (by left) || (right; by vm_compute).
Qed.

Lemma array_book_refines_witness : exists b bid ask, book_run 2 demo_bids (array_book_init 2) = Some b /\
  side_ok 2 true (live_run demo_bids).1 (active (bids_ b)) /\ best_bid b = Some bid /\ bid = head (active (bids_ b)) /\ best_ask b = Some ask /\
  active (bids_ b) = [mkLevel (double_of_int 100) (double_of_int 6)].
Proof.
  destruct (array_book_refines 2 demo_bids) as (b & bid & ask & E & H1 & _ & H2 & H3 & H4 & _).
  - repeat constructor.
  - exact demo_spaced.
  - intros p p' Hp. by apply elem_of_nil in Hp.
  - exists b, bid, ask. assert (active (bids_ b) = [mkLevel (double_of_int 100) (double_of_int 6)]) as Ea.
    { vm_compute in E. injection E as <-. vm_compute. reflexivity. }
    split; [exact E|]. split; [exact H1|]. split; [exact H2|]. split; [exact H3|]. split; [exact H4|exact Ea].
Defined.

Lemma map_book_refines_witness :
  let b := foldl (fun b o => map_step o b) (mkMap [] []) [Clear; Bid (double_of_int 100) (double_of_int 5); Bid (double_of_int 101) (double_of_int 7)] in
  map level_at (map_bids b) = [value (quantize (double_of_int 101)); value (quantize (double_of_int 100))] /\ (exists live, map_ok true live (map_bids b)).
Proof.
  split; [vm_compute; reflexivity|].
  destruct (map_book_refines [Clear; Bid (double_of_int 100) (double_of_int 5); Bid (double_of_int 101) (double_of_int 7)]) as [H _].
  - repeat constructor.
  - eexists. exact H.
Defined.

Definition demo_tickers : list BookTicker :=
  [mkTicker [x31; x30] [x35] [x31; x31] [x35]; mkTicker [x39; x2e; x35] [x32] [x31; x31] [x30]; mkTicker [x39] [] [] []].

Lemma binance_shows_last_ticker_witness : exists a,
  ticker_run (fun _ => double_of_int 10) 3 demo_tickers (adapter_init 3) = Some ([true; true; false], a) /\
  map level_at (active (bids_ (book_ a))) = [19 * 2 ^ 1073] /\ active (asks_ (book_ a)) = [].
Proof.
  destruct (binance_shows_last_ticker (fun _ => double_of_int 10) 3 demo_tickers (fun _ => eq_refl) ltac:(lia)) as (a & E & Hb & Ha).
  exists a. split; [exact E|]. vm_compute in E. injection E as <-. split; vm_compute; reflexivity.
Defined.

(** Two bids 1.0 and 1.0 + 4504 * 2^-52 are not equal by the tolerance, but the second, which is
    higher, is placed behind the first. *)
Lemma array_book_missorted : exists b,
  book_run 4 [Bid (double_of_int 1) (double_of_int 1); Bid (S754_finite false 4503599627375000 (-52)) (double_of_int 1)] (array_book_init 4) = Some b /\
  best_bid b = Some (Some (mkLevel (double_of_int 1) (double_of_int 1))) /\ length (active (bids_ b)) = 2%nat /\
  SFltb (double_of_int 1) (S754_finite false 4503599627375000 (-52)) = true.
Proof. eexists. split; [vm_compute; reflexivity|]. split_and!; vm_compute; reflexivity. Qed.

(** A finite price that quantizes to infinity becomes the best bid. *)
Lemma map_book_infinite_price : isfinite (S754_finite false 4503599627370496 950) = true /\
  map_update true (S754_finite false 4503599627370496 950) (double_of_int 1) [] = [mkLevel (S754_infinity false) (double_of_int 1)].
Proof. split; vm_compute; reflexivity. Qed.

(** After a snapshot with a bid at 10, a ticker whose best bid is 9 leaves the bid at 10 on top. *)
Lemma binance_snapshot_phantom : exists n a a',
  load_snapshot 3 1 [mkLevel (double_of_int 10) (double_of_int 1)] [] (adapter_init 3) = Some (n, a) /\
  update_from_ticker (fun _ => double_of_int 10) 3 (mkTicker [x39] [x31] [x31; x31] [x31]) a = Some (true, a') /\
  best_bid (book_ a') = Some (Some (mkLevel (double_of_int 10) (double_of_int 1))).
Proof. eexists _, _, _. split; [vm_compute; reflexivity|]. split; vm_compute; reflexivity. Qed.
