(* ===== verification/Itch.v ===== *)
(** * ITCH 5.0 messages

    messages.hpp and parser.hpp of eph-itch: the message types with their sizes, every field
    accessor, [parse], [parse_all] with and without statistics, and [dispatch].

    [itch_fields_roundtrip]: on a message encoded by its documented layout every accessor
    returns its field.  [itch_feed_delivered]: which messages of a buffer are delivered, and
    which error ends it. *)

From Stdlib Require Import Strings.String.
From S2P Require Import Prelude Double.

#[local] Open Scope Z_scope.

(** ** messages.hpp *)

(** [read_be48]: the six bytes shifted into place. *)
Definition read_be48 (p : list byte) (off : Z) : option Z :=
  b0 ← rd p off; b1 ← rd p (off + 1); b2 ← rd p (off + 2); b3 ← rd p (off + 3); b4 ← rd p (off + 4); b5 ← rd p (off + 5);
  Some (Z.lor (Z.lor (Z.lor (Z.lor (Z.lor (Z.shiftl (b2z b0) 40) (Z.shiftl (b2z b1) 32)) (Z.shiftl (b2z b2) 24))
                        (Z.shiftl (b2z b3) 16)) (Z.shiftl (b2z b4) 8)) (b2z b5)).

(** [trim]: up to the last byte that is not a space. *)
Fixpoint find_last_not_of (c : byte) (s : list byte) : option nat :=
  match s with
  | [] => None
  | x :: t => match find_last_not_of c t with
              | Some i => Some (S i)
              | None => if Byte.eqb x c then None else Some O
              end
  end.

Definition trim (s : list byte) : list byte :=
  match find_last_not_of " "%byte s with None => [] | Some end_ => take (end_ + 1) s end.

Definition kItchPriceDivisor : double := double_of_int 10000.
Definition kLuldPriceDivisor : double := double_of_int 100000000.

(** An integer field as a double, over its divisor. *)
Definition scaled (divisor : double) (raw : Z) : double := double_div (double_of_int raw) divisor.

(** The header fields; the pointer is one past the type. *)
Definition stock_locate (body : list byte) : option Z := read_be 2 body 0.
Definition tracking_number (body : list byte) : option Z := read_be 2 body 2.
Definition timestamp_ns (body : list byte) : option Z := read_be48 body 4.

(** Types and sizes. *)
Definition kSystemEvent : byte := "S"%byte.
Definition kSystemEventSize : Z := 12.
Definition kStockDirectory : byte := "R"%byte.
Definition kStockDirectorySize : Z := 39.
Definition kStockTradingAction : byte := "H"%byte.
Definition kStockTradingActionSize : Z := 25.
Definition kRegSHORestriction : byte := "Y"%byte.
Definition kRegSHORestrictionSize : Z := 20.
Definition kMarketParticipantPosition : byte := "L"%byte.
Definition kMarketParticipantPositionSize : Z := 26.
Definition kMWCBDeclineLevel : byte := "V"%byte.
Definition kMWCBDeclineLevelSize : Z := 35.
Definition kMWCBStatus : byte := "W"%byte.
Definition kMWCBStatusSize : Z := 12.
Definition kIPOQuotingPeriod : byte := "K"%byte.
Definition kIPOQuotingPeriodSize : Z := 28.
Definition kLULDAuctionCollar : byte := "J"%byte.
Definition kLULDAuctionCollarSize : Z := 35.
Definition kOperationalHalt : byte := "h"%byte.
Definition kOperationalHaltSize : Z := 21.
Definition kAddOrder : byte := "A"%byte.
Definition kAddOrderSize : Z := 36.
Definition kAddOrderMPID : byte := "F"%byte.
Definition kAddOrderMPIDSize : Z := 40.
Definition kOrderExecuted : byte := "E"%byte.
Definition kOrderExecutedSize : Z := 31.
Definition kOrderExecutedWithPrice : byte := "C"%byte.
Definition kOrderExecutedWithPriceSize : Z := 36.
Definition kOrderCancel : byte := "X"%byte.
Definition kOrderCancelSize : Z := 23.
Definition kOrderDelete : byte := "D"%byte.
Definition kOrderDeleteSize : Z := 19.
Definition kOrderReplace : byte := "U"%byte.
Definition kOrderReplaceSize : Z := 35.
Definition kNonCrossTrade : byte := "P"%byte.
Definition kNonCrossTradeSize : Z := 44.
Definition kCrossTrade : byte := "Q"%byte.
Definition kCrossTradeSize : Z := 40.
Definition kBrokenTrade : byte := "B"%byte.
Definition kBrokenTradeSize : Z := 19.
Definition kNOII : byte := "I"%byte.
Definition kNOIISize : Z := 50.
Definition kRPII : byte := "N"%byte.
Definition kRPIISize : Z := 20.

Definition kAllMessageSizes : list Z :=
  [kSystemEventSize; kStockDirectorySize; kStockTradingActionSize; kRegSHORestrictionSize;
   kMarketParticipantPositionSize; kMWCBDeclineLevelSize; kMWCBStatusSize; kIPOQuotingPeriodSize;
   kLULDAuctionCollarSize; kOperationalHaltSize; kAddOrderSize; kAddOrderMPIDSize;
   kOrderExecutedSize; kOrderExecutedWithPriceSize; kOrderCancelSize; kOrderDeleteSize;
   kOrderReplaceSize; kNonCrossTradeSize; kCrossTradeSize; kBrokenTradeSize;
   kNOIISize; kRPIISize].

Definition max_of (arr : list Z) : Z := match arr with [] => 0 | m :: t => foldl (fun m x => if m <? x then x else m) m t end.
Definition min_of (arr : list Z) : Z := match arr with [] => 0 | m :: t => foldl (fun m x => if x <? m then x else m) m t end.

Definition kMaxMessageSize : Z := max_of kAllMessageSizes.
Definition kMinMessageSize : Z := min_of kAllMessageSizes.

(** [switch (t) { case k: return v; ... default: return dflt; }]. *)
Fixpoint switch {A} (t : byte) (cases : list (byte * A)) (dflt : A) : A :=
  match cases with
  | [] => dflt
  | (k, v) :: cases => if Byte.eqb t k then v else switch t cases dflt
  end.

Definition is_system_message (type : byte) : bool :=
  switch type
    [(kSystemEvent, true); (kStockDirectory, true); (kStockTradingAction, true); (kRegSHORestriction, true);
     (kMarketParticipantPosition, true); (kMWCBDeclineLevel, true); (kMWCBStatus, true); (kIPOQuotingPeriod, true);
     (kLULDAuctionCollar, true); (kOperationalHalt, true)] false.

Definition is_order_message (type : byte) : bool :=
  switch type
    [(kAddOrder, true); (kAddOrderMPID, true); (kOrderExecuted, true); (kOrderExecutedWithPrice, true);
     (kOrderCancel, true); (kOrderDelete, true); (kOrderReplace, true)] false.

Definition is_trade_message (type : byte) : bool :=
  switch type [(kNonCrossTrade, true); (kCrossTrade, true); (kBrokenTrade, true)] false.

Definition is_imbalance_message (type : byte) : bool := Byte.eqb type kNOII || Byte.eqb type kRPII.

Definition is_known_type (type : byte) : bool :=
  is_system_message type || is_order_message type || is_trade_message type || is_imbalance_message type.

(** *** Field accessors *)

(** [system_event]. *)
Definition system_event_event_code (msg : list byte) : option byte := rd msg 11.

(** [stock_directory]. *)
Definition stock_directory_stock (msg : list byte) : option (list byte) := slice msg 11 8.
Definition stock_directory_stock_trimmed (msg : list byte) : option (list byte) := trim <$> stock_directory_stock msg.
Definition stock_directory_market_category (msg : list byte) : option byte := rd msg 19.
Definition stock_directory_financial_status (msg : list byte) : option byte := rd msg 20.
Definition stock_directory_round_lot_size (msg : list byte) : option Z := read_be 4 msg 21.
Definition stock_directory_round_lots_only (msg : list byte) : option byte := rd msg 25.
Definition stock_directory_issue_classification (msg : list byte) : option byte := rd msg 26.
Definition stock_directory_issue_subtype (msg : list byte) : option (list byte) := slice msg 27 2.
Definition stock_directory_authenticity (msg : list byte) : option byte := rd msg 29.
Definition stock_directory_short_sale_threshold (msg : list byte) : option byte := rd msg 30.
Definition stock_directory_ipo_flag (msg : list byte) : option byte := rd msg 31.
Definition stock_directory_luld_ref_price_tier (msg : list byte) : option byte := rd msg 32.
Definition stock_directory_etp_flag (msg : list byte) : option byte := rd msg 33.
Definition stock_directory_etp_leverage_factor (msg : list byte) : option Z := read_be 4 msg 34.
Definition stock_directory_inverse_indicator (msg : list byte) : option byte := rd msg 38.

(** [add_order]. *)
Definition add_order_order_ref (msg : list byte) : option Z := read_be 8 msg 11.
Definition add_order_side (msg : list byte) : option byte := rd msg 19.
Definition add_order_shares (msg : list byte) : option Z := read_be 4 msg 20.
Definition add_order_stock (msg : list byte) : option (list byte) := slice msg 24 8.
Definition add_order_stock_trimmed (msg : list byte) : option (list byte) := trim <$> add_order_stock msg.
Definition add_order_price_raw (msg : list byte) : option Z := read_be 4 msg 32.
Definition add_order_price (msg : list byte) : option double := scaled kItchPriceDivisor <$> add_order_price_raw msg.

(** [add_order_mpid]. *)
Definition add_order_mpid_order_ref (msg : list byte) : option Z := read_be 8 msg 11.
Definition add_order_mpid_side (msg : list byte) : option byte := rd msg 19.
Definition add_order_mpid_shares (msg : list byte) : option Z := read_be 4 msg 20.
Definition add_order_mpid_stock (msg : list byte) : option (list byte) := slice msg 24 8.
Definition add_order_mpid_stock_trimmed (msg : list byte) : option (list byte) := trim <$> add_order_mpid_stock msg.
Definition add_order_mpid_price_raw (msg : list byte) : option Z := read_be 4 msg 32.
Definition add_order_mpid_price (msg : list byte) : option double := scaled kItchPriceDivisor <$> add_order_mpid_price_raw msg.
Definition add_order_mpid_attribution (msg : list byte) : option (list byte) := slice msg 36 4.
Definition add_order_mpid_attribution_trimmed (msg : list byte) : option (list byte) := trim <$> add_order_mpid_attribution msg.

(** [order_executed]. *)
Definition order_executed_order_ref (msg : list byte) : option Z := read_be 8 msg 11.
Definition order_executed_executed_shares (msg : list byte) : option Z := read_be 4 msg 19.
Definition order_executed_match_number (msg : list byte) : option Z := read_be 8 msg 23.

(** [order_executed_price]. *)
Definition order_executed_price_order_ref (msg : list byte) : option Z := read_be 8 msg 11.
Definition order_executed_price_executed_shares (msg : list byte) : option Z := read_be 4 msg 19.
Definition order_executed_price_match_number (msg : list byte) : option Z := read_be 8 msg 23.
Definition order_executed_price_printable (msg : list byte) : option byte := rd msg 31.
Definition order_executed_price_execution_price_raw (msg : list byte) : option Z := read_be 4 msg 32.
Definition order_executed_price_execution_price (msg : list byte) : option double := scaled kItchPriceDivisor <$> order_executed_price_execution_price_raw msg.

(** [order_cancel]. *)
Definition order_cancel_order_ref (msg : list byte) : option Z := read_be 8 msg 11.
Definition order_cancel_cancelled_shares (msg : list byte) : option Z := read_be 4 msg 19.

(** [order_delete]. *)
Definition order_delete_order_ref (msg : list byte) : option Z := read_be 8 msg 11.

(** [order_replace]. *)
Definition order_replace_original_order_ref (msg : list byte) : option Z := read_be 8 msg 11.
Definition order_replace_new_order_ref (msg : list byte) : option Z := read_be 8 msg 19.
Definition order_replace_shares (msg : list byte) : option Z := read_be 4 msg 27.
Definition order_replace_price_raw (msg : list byte) : option Z := read_be 4 msg 31.
Definition order_replace_price (msg : list byte) : option double := scaled kItchPriceDivisor <$> order_replace_price_raw msg.

(** [non_cross_trade]. *)
Definition non_cross_trade_order_ref (msg : list byte) : option Z := read_be 8 msg 11.
Definition non_cross_trade_side (msg : list byte) : option byte := rd msg 19.
Definition non_cross_trade_shares (msg : list byte) : option Z := read_be 4 msg 20.
Definition non_cross_trade_stock (msg : list byte) : option (list byte) := slice msg 24 8.
Definition non_cross_trade_stock_trimmed (msg : list byte) : option (list byte) := trim <$> non_cross_trade_stock msg.
Definition non_cross_trade_price_raw (msg : list byte) : option Z := read_be 4 msg 32.
Definition non_cross_trade_price (msg : list byte) : option double := scaled kItchPriceDivisor <$> non_cross_trade_price_raw msg.
Definition non_cross_trade_match_number (msg : list byte) : option Z := read_be 8 msg 36.

(** [cross_trade]. *)
Definition cross_trade_shares (msg : list byte) : option Z := read_be 8 msg 11.
Definition cross_trade_stock (msg : list byte) : option (list byte) := slice msg 19 8.
Definition cross_trade_stock_trimmed (msg : list byte) : option (list byte) := trim <$> cross_trade_stock msg.
Definition cross_trade_cross_price_raw (msg : list byte) : option Z := read_be 4 msg 27.
Definition cross_trade_cross_price (msg : list byte) : option double := scaled kItchPriceDivisor <$> cross_trade_cross_price_raw msg.
Definition cross_trade_match_number (msg : list byte) : option Z := read_be 8 msg 31.
Definition cross_trade_cross_type (msg : list byte) : option byte := rd msg 39.

(** [stock_trading_action]. *)
Definition stock_trading_action_stock (msg : list byte) : option (list byte) := slice msg 11 8.
Definition stock_trading_action_stock_trimmed (msg : list byte) : option (list byte) := trim <$> stock_trading_action_stock msg.
Definition stock_trading_action_trading_state (msg : list byte) : option byte := rd msg 19.
Definition stock_trading_action_reserved (msg : list byte) : option byte := rd msg 20.
Definition stock_trading_action_reason (msg : list byte) : option (list byte) := slice msg 21 4.

(** [reg_sho_restriction]. *)
Definition reg_sho_restriction_stock (msg : list byte) : option (list byte) := slice msg 11 8.
Definition reg_sho_restriction_stock_trimmed (msg : list byte) : option (list byte) := trim <$> reg_sho_restriction_stock msg.
Definition reg_sho_restriction_reg_sho_action (msg : list byte) : option byte := rd msg 19.

(** [market_participant_position]. *)
Definition market_participant_position_mpid (msg : list byte) : option (list byte) := slice msg 11 4.
Definition market_participant_position_stock (msg : list byte) : option (list byte) := slice msg 15 8.
Definition market_participant_position_stock_trimmed (msg : list byte) : option (list byte) := trim <$> market_participant_position_stock msg.
Definition market_participant_position_primary_market_maker (msg : list byte) : option byte := rd msg 23.
Definition market_participant_position_market_maker_mode (msg : list byte) : option byte := rd msg 24.
Definition market_participant_position_market_participant_state (msg : list byte) : option byte := rd msg 25.

(** [mwcb_decline_level]. *)
Definition mwcb_decline_level_level1_raw (msg : list byte) : option Z := read_be 8 msg 11.
Definition mwcb_decline_level_level1 (msg : list byte) : option double := scaled kLuldPriceDivisor <$> mwcb_decline_level_level1_raw msg.
Definition mwcb_decline_level_level2_raw (msg : list byte) : option Z := read_be 8 msg 19.
Definition mwcb_decline_level_level2 (msg : list byte) : option double := scaled kLuldPriceDivisor <$> mwcb_decline_level_level2_raw msg.
Definition mwcb_decline_level_level3_raw (msg : list byte) : option Z := read_be 8 msg 27.
Definition mwcb_decline_level_level3 (msg : list byte) : option double := scaled kLuldPriceDivisor <$> mwcb_decline_level_level3_raw msg.

(** [mwcb_status]. *)
Definition mwcb_status_breached_level (msg : list byte) : option byte := rd msg 11.

(** [ipo_quoting_period]. *)
Definition ipo_quoting_period_stock (msg : list byte) : option (list byte) := slice msg 11 8.
Definition ipo_quoting_period_stock_trimmed (msg : list byte) : option (list byte) := trim <$> ipo_quoting_period_stock msg.
Definition ipo_quoting_period_ipo_quotation_release_time (msg : list byte) : option Z := read_be 4 msg 19.
Definition ipo_quoting_period_ipo_quotation_release_qualifier (msg : list byte) : option byte := rd msg 23.
Definition ipo_quoting_period_ipo_price_raw (msg : list byte) : option Z := read_be 4 msg 24.
Definition ipo_quoting_period_ipo_price (msg : list byte) : option double := scaled kItchPriceDivisor <$> ipo_quoting_period_ipo_price_raw msg.

(** [luld_auction_collar]. *)
Definition luld_auction_collar_stock (msg : list byte) : option (list byte) := slice msg 11 8.
Definition luld_auction_collar_stock_trimmed (msg : list byte) : option (list byte) := trim <$> luld_auction_collar_stock msg.
Definition luld_auction_collar_auction_collar_reference_price_raw (msg : list byte) : option Z := read_be 4 msg 19.
Definition luld_auction_collar_auction_collar_reference_price (msg : list byte) : option double := scaled kItchPriceDivisor <$> luld_auction_collar_auction_collar_reference_price_raw msg.
Definition luld_auction_collar_upper_auction_collar_price_raw (msg : list byte) : option Z := read_be 4 msg 23.
Definition luld_auction_collar_upper_auction_collar_price (msg : list byte) : option double := scaled kItchPriceDivisor <$> luld_auction_collar_upper_auction_collar_price_raw msg.
Definition luld_auction_collar_lower_auction_collar_price_raw (msg : list byte) : option Z := read_be 4 msg 27.
Definition luld_auction_collar_lower_auction_collar_price (msg : list byte) : option double := scaled kItchPriceDivisor <$> luld_auction_collar_lower_auction_collar_price_raw msg.
Definition luld_auction_collar_auction_collar_extension (msg : list byte) : option Z := read_be 4 msg 31.

(** [operational_halt]. *)
Definition operational_halt_stock (msg : list byte) : option (list byte) := slice msg 11 8.
Definition operational_halt_stock_trimmed (msg : list byte) : option (list byte) := trim <$> operational_halt_stock msg.
Definition operational_halt_market_code (msg : list byte) : option byte := rd msg 19.
Definition operational_halt_operational_halt_action (msg : list byte) : option byte := rd msg 20.

(** [broken_trade]. *)
Definition broken_trade_match_number (msg : list byte) : option Z := read_be 8 msg 11.

(** [noii]. *)
Definition noii_paired_shares (msg : list byte) : option Z := read_be 8 msg 11.
Definition noii_imbalance_shares (msg : list byte) : option Z := read_be 8 msg 19.
Definition noii_imbalance_direction (msg : list byte) : option byte := rd msg 27.
Definition noii_stock (msg : list byte) : option (list byte) := slice msg 28 8.
Definition noii_stock_trimmed (msg : list byte) : option (list byte) := trim <$> noii_stock msg.
Definition noii_far_price_raw (msg : list byte) : option Z := read_be 4 msg 36.
Definition noii_far_price (msg : list byte) : option double := scaled kItchPriceDivisor <$> noii_far_price_raw msg.
Definition noii_near_price_raw (msg : list byte) : option Z := read_be 4 msg 40.
Definition noii_near_price (msg : list byte) : option double := scaled kItchPriceDivisor <$> noii_near_price_raw msg.
Definition noii_current_reference_price_raw (msg : list byte) : option Z := read_be 4 msg 44.
Definition noii_current_reference_price (msg : list byte) : option double := scaled kItchPriceDivisor <$> noii_current_reference_price_raw msg.
Definition noii_cross_type (msg : list byte) : option byte := rd msg 48.
Definition noii_price_variation_indicator (msg : list byte) : option byte := rd msg 49.

(** [rpii]. *)
Definition rpii_stock (msg : list byte) : option (list byte) := slice msg 11 8.
Definition rpii_stock_trimmed (msg : list byte) : option (list byte) := trim <$> rpii_stock msg.
Definition rpii_interest_flag (msg : list byte) : option byte := rd msg 19.

(** ** parser.hpp *)

Inductive ItchError : Set := kIncomplete | kUnknownType | kTruncatedMessage.

Definition parse_error_name (e : ItchError) : string :=
  match e with
  | kIncomplete => "incomplete"%string
  | kUnknownType => "unknown message type"%string
  | kTruncatedMessage => "truncated message"%string
  end.

Definition message_size (type : byte) : Z :=
  switch type
   [
    (kSystemEvent, kSystemEventSize);
    (kStockDirectory, kStockDirectorySize);
    (kStockTradingAction, kStockTradingActionSize);
    (kRegSHORestriction, kRegSHORestrictionSize);
    (kMarketParticipantPosition, kMarketParticipantPositionSize);
    (kMWCBDeclineLevel, kMWCBDeclineLevelSize);
    (kMWCBStatus, kMWCBStatusSize);
    (kIPOQuotingPeriod, kIPOQuotingPeriodSize);
    (kLULDAuctionCollar, kLULDAuctionCollarSize);
    (kOperationalHalt, kOperationalHaltSize);
    (kAddOrder, kAddOrderSize);
    (kAddOrderMPID, kAddOrderMPIDSize);
    (kOrderExecuted, kOrderExecutedSize);
    (kOrderExecutedWithPrice, kOrderExecutedWithPriceSize);
    (kOrderCancel, kOrderCancelSize);
    (kOrderDelete, kOrderDeleteSize);
    (kOrderReplace, kOrderReplaceSize);
    (kNonCrossTrade, kNonCrossTradeSize);
    (kCrossTrade, kCrossTradeSize);
    (kBrokenTrade, kBrokenTradeSize);
    (kNOII, kNOIISize);
    (kRPII, kRPIISize)
   ] 0.

Definition message_type_name (type : byte) : string :=
  switch type
   [
    (kSystemEvent, "SystemEvent"%string);
    (kStockDirectory, "StockDirectory"%string);
    (kStockTradingAction, "StockTradingAction"%string);
    (kRegSHORestriction, "RegSHORestriction"%string);
    (kMarketParticipantPosition, "MarketParticipantPosition"%string);
    (kMWCBDeclineLevel, "MWCBDeclineLevel"%string);
    (kMWCBStatus, "MWCBStatus"%string);
    (kIPOQuotingPeriod, "IPOQuotingPeriod"%string);
    (kLULDAuctionCollar, "LULDAuctionCollar"%string);
    (kOperationalHalt, "OperationalHalt"%string);
    (kAddOrder, "AddOrder"%string);
    (kAddOrderMPID, "AddOrderMPID"%string);
    (kOrderExecuted, "OrderExecuted"%string);
    (kOrderExecutedWithPrice, "OrderExecutedWithPrice"%string);
    (kOrderCancel, "OrderCancel"%string);
    (kOrderDelete, "OrderDelete"%string);
    (kOrderReplace, "OrderReplace"%string);
    (kNonCrossTrade, "NonCrossTrade"%string);
    (kCrossTrade, "CrossTrade"%string);
    (kBrokenTrade, "BrokenTrade"%string);
    (kNOII, "NOII"%string);
    (kRPII, "RPII"%string)
   ] "Unknown"%string.

(** [view_data] is the memory from the pointer to the end of the buffer. *)
Record MessageView := mkView { msg_type : byte; view_data : list byte; view_length : Z }.

Definition view_stock_locate (v : MessageView) : option Z := stock_locate (drop 1 (view_data v)).
Definition view_tracking_number (v : MessageView) : option Z := tracking_number (drop 1 (view_data v)).
Definition view_timestamp_ns (v : MessageView) : option Z := timestamp_ns (drop 1 (view_data v)).

(** [data] is the readable memory: [len] is its length. *)
Definition parse (data : list byte) : option (expected MessageView ItchError) :=
  let len := zlen data in
  if len =? 0 then Some (Err kIncomplete) else
  type ← rd data 0;
  let size := message_size type in
  if size =? 0 then Some (Err kUnknownType) else
  if len <? size then Some (Err kTruncatedMessage) else
  Some (Ok (mkView type data (wrap 16 size))).

Record ParserStats := mkStats {
  messages_parsed : Z;
  parse_errors : Z;
  bytes_consumed : Z;
  first_error_offset : Z;
  first_error_type : ItchError;
  first_error_msg_byte : byte
}.

Definition stats_reset : ParserStats := mkStats 0 0 0 0 kIncomplete "000"%byte.

Definition on_message (msg_bytes : Z) (s : ParserStats) : ParserStats :=
  mkStats (u64 (messages_parsed s + 1)) (parse_errors s) (u64 (bytes_consumed s + msg_bytes))
    (first_error_offset s) (first_error_type s) (first_error_msg_byte s).

Definition on_error (offset : Z) (err : ItchError) (msg_byte : byte) (s : ParserStats) : ParserStats :=
  if parse_errors s =? 0
  then mkStats (messages_parsed s) (u64 (parse_errors s + 1)) (bytes_consumed s) offset err msg_byte
  else mkStats (messages_parsed s) (u64 (parse_errors s + 1)) (bytes_consumed s)
         (first_error_offset s) (first_error_type s) (first_error_msg_byte s).

(** [operator-]. *)
Definition sat_sub (a b : Z) : Z := if b <=? a then a - b else 0.

Definition stats_diff (lhs rhs : ParserStats) : ParserStats :=
  mkStats (sat_sub (messages_parsed lhs) (messages_parsed rhs)) (sat_sub (parse_errors lhs) (parse_errors rhs))
    (sat_sub (bytes_consumed lhs) (bytes_consumed rhs))
    (first_error_offset lhs) (first_error_type lhs) (first_error_msg_byte lhs).

Section parse_all.
(** The callback with the state it keeps; [false] stops. *)
Context {S : Type} (callback : MessageView -> S -> option (bool * S)).

(** The loop of [parse_all]; [None] when a read is out of range or the fuel runs out. *)
Fixpoint parse_all_loop (fuel : nat) (data : list byte) (offset : Z) (st : S) : option (Z * S) :=
  match fuel with
  | O => None
  | Datatypes.S fuel =>
    if negb (offset <? zlen data) then Some (offset, st) else
    result ← parse (drop (Z.to_nat offset) data);
    match result with
    | Err _ => Some (offset, st)
    | Ok v =>
      '(go, st) ← callback v st;
      let offset := offset + view_length v in
      if negb go then Some (offset, st) else parse_all_loop fuel data offset st
    end
  end.

Definition parse_all (data : list byte) (st : S) : option (Z * S) := parse_all_loop (length data + 1) data 0 st.

Fixpoint parse_all_stats_loop (fuel : nat) (data : list byte) (offset : Z) (st : S) (stats : ParserStats) : option (Z * S * ParserStats) :=
  match fuel with
  | O => None
  | Datatypes.S fuel =>
    if negb (offset <? zlen data) then Some (offset, st, stats) else
    result ← parse (drop (Z.to_nat offset) data);
    match result with
    | Err kIncomplete => Some (offset, st, stats)
    | Err e =>
      err_byte ← (if offset <? zlen data then rd data offset else Some "000"%byte);
      Some (offset, st, on_error offset e err_byte stats)
    | Ok v =>
      let stats := on_message (view_length v) stats in
      '(go, st) ← callback v st;
      let offset := offset + view_length v in
      if negb go then Some (offset, st, stats) else parse_all_stats_loop fuel data offset st stats
    end
  end.

Definition parse_all_stats (data : list byte) (st : S) (stats : ParserStats) : option (Z * S * ParserStats) :=
  parse_all_stats_loop (length data + 1) data 0 st stats.
End parse_all.

(** The tags of namespace [msg]. *)
Inductive Tag : Set :=
| msg_SystemEvent
| msg_StockDirectory
| msg_StockTradingAction
| msg_RegSHORestriction
| msg_MarketParticipantPosition
| msg_MWCBDeclineLevel
| msg_MWCBStatus
| msg_IPOQuotingPeriod
| msg_LULDAuctionCollar
| msg_OperationalHalt
| msg_AddOrder
| msg_AddOrderMPID
| msg_OrderExecuted
| msg_OrderExecutedWithPrice
| msg_OrderCancel
| msg_OrderDelete
| msg_OrderReplace
| msg_NonCrossTrade
| msg_CrossTrade
| msg_BrokenTrade
| msg_NOII
| msg_RPII
| msg_Unknown.

Definition tag_of (type : byte) : Tag :=
  switch type
   [
    (kSystemEvent, msg_SystemEvent);
    (kStockDirectory, msg_StockDirectory);
    (kStockTradingAction, msg_StockTradingAction);
    (kRegSHORestriction, msg_RegSHORestriction);
    (kMarketParticipantPosition, msg_MarketParticipantPosition);
    (kMWCBDeclineLevel, msg_MWCBDeclineLevel);
    (kMWCBStatus, msg_MWCBStatus);
    (kIPOQuotingPeriod, msg_IPOQuotingPeriod);
    (kLULDAuctionCollar, msg_LULDAuctionCollar);
    (kOperationalHalt, msg_OperationalHalt);
    (kAddOrder, msg_AddOrder);
    (kAddOrderMPID, msg_AddOrderMPID);
    (kOrderExecuted, msg_OrderExecuted);
    (kOrderExecutedWithPrice, msg_OrderExecutedWithPrice);
    (kOrderCancel, msg_OrderCancel);
    (kOrderDelete, msg_OrderDelete);
    (kOrderReplace, msg_OrderReplace);
    (kNonCrossTrade, msg_NonCrossTrade);
    (kCrossTrade, msg_CrossTrade);
    (kBrokenTrade, msg_BrokenTrade);
    (kNOII, msg_NOII);
    (kRPII, msg_RPII)
   ] msg_Unknown.

Section dispatch.
Context {S : Type} (handler : Tag -> list byte -> S -> option (bool * S)).

Definition dispatch (v : MessageView) (st : S) : option (bool * S) := handler (tag_of (msg_type v)) (view_data v) st.

Definition dispatch_all (data : list byte) (st : S) : option (Z * S) := parse_all dispatch data st.

Definition dispatch_all_stats (data : list byte) (st : S) (stats : ParserStats) : option (Z * S * ParserStats) :=
  parse_all_stats dispatch data st stats.
End dispatch.

(** ** Layouts *)

(** The value of a field, and its place in a layout. *)
Inductive field := FNum (n : nat) (z : Z) | FChr (c : byte) | FTxt (s : list byte).
Inductive shape := Num (n : nat) | Chr | Txt (n : nat).

(** The fields after the header, as the comments beside the sizes list them. *)
Definition layout (type : byte) : list shape :=
  switch type
   [
    (kSystemEvent, [Chr]);
    (kStockDirectory, [Txt 8; Chr; Chr; Num 4; Chr; Chr; Txt 2; Chr; Chr; Chr; Chr; Chr; Num 4; Chr]);
    (kStockTradingAction, [Txt 8; Chr; Chr; Txt 4]);
    (kRegSHORestriction, [Txt 8; Chr]);
    (kMarketParticipantPosition, [Txt 4; Txt 8; Chr; Chr; Chr]);
    (kMWCBDeclineLevel, [Num 8; Num 8; Num 8]);
    (kMWCBStatus, [Chr]);
    (kIPOQuotingPeriod, [Txt 8; Num 4; Chr; Num 4]);
    (kLULDAuctionCollar, [Txt 8; Num 4; Num 4; Num 4; Num 4]);
    (kOperationalHalt, [Txt 8; Chr; Chr]);
    (kAddOrder, [Num 8; Chr; Num 4; Txt 8; Num 4]);
    (kAddOrderMPID, [Num 8; Chr; Num 4; Txt 8; Num 4; Txt 4]);
    (kOrderExecuted, [Num 8; Num 4; Num 8]);
    (kOrderExecutedWithPrice, [Num 8; Num 4; Num 8; Chr; Num 4]);
    (kOrderCancel, [Num 8; Num 4]);
    (kOrderDelete, [Num 8]);
    (kOrderReplace, [Num 8; Num 8; Num 4; Num 4]);
    (kNonCrossTrade, [Num 8; Chr; Num 4; Txt 8; Num 4; Num 8]);
    (kCrossTrade, [Num 8; Txt 8; Num 4; Num 8; Chr]);
    (kBrokenTrade, [Num 8]);
    (kNOII, [Num 8; Num 8; Chr; Txt 8; Num 4; Num 4; Num 4; Chr; Chr]);
    (kRPII, [Txt 8; Chr])
   ] [].

(** An accessor with its field. *)
Definition num (n : nat) (f : list byte -> option Z) (msg : list byte) : option field := FNum n <$> f msg.
Definition chr (f : list byte -> option byte) (msg : list byte) : option field := FChr <$> f msg.
Definition txt (f : list byte -> option (list byte)) (msg : list byte) : option field := FTxt <$> f msg.

(** The accessors of a type, in the order of the fields. *)
Definition accessors (type : byte) : list (list byte -> option field) :=
  switch type
   [
    (kSystemEvent, [chr system_event_event_code]);
    (kStockDirectory, [txt stock_directory_stock;
      chr stock_directory_market_category;
      chr stock_directory_financial_status;
      num 4 stock_directory_round_lot_size;
      chr stock_directory_round_lots_only;
      chr stock_directory_issue_classification;
      txt stock_directory_issue_subtype;
      chr stock_directory_authenticity;
      chr stock_directory_short_sale_threshold;
      chr stock_directory_ipo_flag;
      chr stock_directory_luld_ref_price_tier;
      chr stock_directory_etp_flag;
      num 4 stock_directory_etp_leverage_factor;
      chr stock_directory_inverse_indicator]);
    (kStockTradingAction, [txt stock_trading_action_stock;
      chr stock_trading_action_trading_state;
      chr stock_trading_action_reserved;
      txt stock_trading_action_reason]);
    (kRegSHORestriction, [txt reg_sho_restriction_stock;
      chr reg_sho_restriction_reg_sho_action]);
    (kMarketParticipantPosition, [txt market_participant_position_mpid;
      txt market_participant_position_stock;
      chr market_participant_position_primary_market_maker;
      chr market_participant_position_market_maker_mode;
      chr market_participant_position_market_participant_state]);
    (kMWCBDeclineLevel, [num 8 mwcb_decline_level_level1_raw;
      num 8 mwcb_decline_level_level2_raw;
      num 8 mwcb_decline_level_level3_raw]);
    (kMWCBStatus, [chr mwcb_status_breached_level]);
    (kIPOQuotingPeriod, [txt ipo_quoting_period_stock;
      num 4 ipo_quoting_period_ipo_quotation_release_time;
      chr ipo_quoting_period_ipo_quotation_release_qualifier;
      num 4 ipo_quoting_period_ipo_price_raw]);
    (kLULDAuctionCollar, [txt luld_auction_collar_stock;
      num 4 luld_auction_collar_auction_collar_reference_price_raw;
      num 4 luld_auction_collar_upper_auction_collar_price_raw;
      num 4 luld_auction_collar_lower_auction_collar_price_raw;
      num 4 luld_auction_collar_auction_collar_extension]);
    (kOperationalHalt, [txt operational_halt_stock;
      chr operational_halt_market_code;
      chr operational_halt_operational_halt_action]);
    (kAddOrder, [num 8 add_order_order_ref;
      chr add_order_side;
      num 4 add_order_shares;
      txt add_order_stock;
      num 4 add_order_price_raw]);
    (kAddOrderMPID, [num 8 add_order_mpid_order_ref;
      chr add_order_mpid_side;
      num 4 add_order_mpid_shares;
      txt add_order_mpid_stock;
      num 4 add_order_mpid_price_raw;
      txt add_order_mpid_attribution]);
    (kOrderExecuted, [num 8 order_executed_order_ref;
      num 4 order_executed_executed_shares;
      num 8 order_executed_match_number]);
    (kOrderExecutedWithPrice, [num 8 order_executed_price_order_ref;
      num 4 order_executed_price_executed_shares;
      num 8 order_executed_price_match_number;
      chr order_executed_price_printable;
      num 4 order_executed_price_execution_price_raw]);
    (kOrderCancel, [num 8 order_cancel_order_ref;
      num 4 order_cancel_cancelled_shares]);
    (kOrderDelete, [num 8 order_delete_order_ref]);
    (kOrderReplace, [num 8 order_replace_original_order_ref;
      num 8 order_replace_new_order_ref;
      num 4 order_replace_shares;
      num 4 order_replace_price_raw]);
    (kNonCrossTrade, [num 8 non_cross_trade_order_ref;
      chr non_cross_trade_side;
      num 4 non_cross_trade_shares;
      txt non_cross_trade_stock;
      num 4 non_cross_trade_price_raw;
      num 8 non_cross_trade_match_number]);
    (kCrossTrade, [num 8 cross_trade_shares;
      txt cross_trade_stock;
      num 4 cross_trade_cross_price_raw;
      num 8 cross_trade_match_number;
      chr cross_trade_cross_type]);
    (kBrokenTrade, [num 8 broken_trade_match_number]);
    (kNOII, [num 8 noii_paired_shares;
      num 8 noii_imbalance_shares;
      chr noii_imbalance_direction;
      txt noii_stock;
      num 4 noii_far_price_raw;
      num 4 noii_near_price_raw;
      num 4 noii_current_reference_price_raw;
      chr noii_cross_type;
      chr noii_price_variation_indicator]);
    (kRPII, [txt rpii_stock;
      chr rpii_interest_flag])
   ] [].


(** ** The accessors *)

Definition shape_of (f : field) : shape := match f with FNum n _ => Num n | FChr _ => Chr | FTxt s => Txt (length s) end.

Definition encode_field (f : field) : list byte := match f with FNum n z => be_bytes n z | FChr c => [c] | FTxt s => s end.

Definition in_range (f : field) : Prop := match f with FNum n z => 0 <= z < 256 ^ Z.of_nat n | _ => True end.

Definition width (s : shape) : Z := match s with Num n | Txt n => Z.of_nat n | Chr => 1 end.

Definition widths (l : list shape) : Z := foldr (fun s w => width s + w) 0 l.

(** A message by its layout: type, header, fields. *)
Definition encode_message (type : byte) (locate tracking ts : Z) (fs : list field) : list byte :=
  type :: be_bytes 2 locate ++ be_bytes 2 tracking ++ be_bytes 6 ts ++ concat (encode_field <$> fs).

(** Reading the fields one after the other. *)
Definition read_shape (off : Z) (s : shape) : list byte -> option field :=
  match s with
  | Num n => num n (fun m => read_be n m off)
  | Chr => chr (fun m => rd m off)
  | Txt n => txt (fun m => slice m off (Z.of_nat n))
  end.

Fixpoint readers (off : Z) (l : list shape) : list (list byte -> option field) :=
  match l with
  | [] => []
  | s :: l => read_shape off s :: readers (off + width s) l
  end.

(** The accessors read the fields where the layout has them. *)
Lemma accessors_layout type : accessors type = readers 11 (layout type).
Proof. destruct type; reflexivity. Qed.

Lemma message_size_layout type : is_known_type type = true -> message_size type = 11 + widths (layout type).
Proof.
  intros Hk. apply Z.eqb_eq. revert type Hk.
  assert (forall t, implb (is_known_type t) (message_size t =? 11 + widths (layout t)) = true) as H by (apply byte_forall; by vm_compute).
  intros t Hk. specialize (H t). by rewrite Hk in H.
Qed.

Lemma known_size type : is_known_type type = negb (message_size type =? 0) /\
  (is_known_type type = true -> kMinMessageSize <= message_size type <= kMaxMessageSize).
Proof.
  assert (forall t, eqb (is_known_type t) (negb (message_size t =? 0)) &&
    implb (is_known_type t) ((kMinMessageSize <=? message_size t) && (message_size t <=? kMaxMessageSize)) = true) as H by (apply byte_forall; by vm_compute).
  specialize (H type). apply andb_true_iff in H as [H1 H2]. apply eqb_prop in H1. split; [done|]. intros E. rewrite E in H2. unfold implb in H2.
  apply andb_true_iff in H2 as [H2 H3]. by apply Z.leb_le in H2, H3.
Qed.

Lemma zlen_encode_field f : zlen (encode_field f) = width (shape_of f).
Proof. destruct f; cbn [encode_field shape_of width]; zlens; done. Qed.

Lemma zlen_encode_fields fs : zlen (concat (encode_field <$> fs)) = widths (shape_of <$> fs).
Proof.
  induction fs as [|f fs IH]; [done|]. cbn [fmap list_fmap concat widths foldr]. rewrite zlen_app, zlen_encode_field. fold (widths (shape_of <$> fs)). lia.
Qed.

Lemma read_be_mid n z pre post off : off = zlen pre -> 0 <= z < 256 ^ Z.of_nat n -> read_be n (pre ++ be_bytes n z ++ post) off = Some z.
Proof.
  intros -> Hz. unfold read_be. rewrite (slice_mid pre (be_bytes n z) post) by (done || by rewrite zlen_be_bytes). cbn [mbind option_bind].
  rewrite <- (length_be_bytes n z) at 1. by rewrite byteswap_be, be_val_be_bytes_small.
Qed.

Lemma read_field f pre post off : off = zlen pre -> in_range f -> read_shape off (shape_of f) (pre ++ encode_field f ++ post) = Some f.
Proof.
  intros -> Hr. destruct f as [n z|c|s]; cbn [shape_of read_shape encode_field].
  - unfold num. by rewrite read_be_mid.
  - unfold chr. by rewrite rd_app_r.
  - unfold txt. by rewrite (slice_mid pre s post).
Qed.

Lemma read_fields fs : forall pre post off, off = zlen pre -> Forall in_range fs ->
  mapM (fun a => a (pre ++ concat (encode_field <$> fs) ++ post)) (readers off (shape_of <$> fs)) = Some fs.
Proof.
  induction fs as [|f fs IH]; intros pre post off -> Hr; [done|]. apply list.Forall_cons in Hr as [Hf Hr].
  cbn [fmap list_fmap concat readers mapM]. rewrite <- (app_assoc (encode_field f)), read_field by done. cbn [mbind option_bind].
  specialize (IH (pre ++ encode_field f) post (zlen pre + width (shape_of f)) ltac:(by rewrite zlen_app, zlen_encode_field) Hr).
  rewrite <- app_assoc in IH. by rewrite IH.
Qed.

(** Shifting six bytes into place is the big-endian number. *)
Lemma read_be48_val a b c d e f :
  Z.lor (Z.lor (Z.lor (Z.lor (Z.lor (Z.shiftl (b2z a) 40) (Z.shiftl (b2z b) 32)) (Z.shiftl (b2z c) 24)) (Z.shiftl (b2z d) 16)) (Z.shiftl (b2z e) 8)) (b2z f)
  = be_val [a; b; c; d; e; f].
Proof.
  unfold be_val. cbn [foldl]. rewrite !Z.shiftl_lor, !Z.shiftl_shiftl by lia. cbn [Z.add Pos.add Pos.succ Pos.add_carry]. by rewrite Z.shiftl_0_l, Z.lor_0_l.
Qed.

Lemma rd_shift pre l k : 0 <= k -> rd (pre ++ l) (zlen pre + k) = rd l k.
Proof.
  intros Hk. unfold rd, zlen. rewrite !(proj2 (Z.leb_le 0 _)) by lia. rewrite lookup_app_r by lia. f_equal. lia.
Qed.

Lemma read_be48_mid z pre post off : off = zlen pre -> 0 <= z < 256 ^ 6 -> read_be48 (pre ++ be_bytes 6 z ++ post) off = Some z.
Proof.
  intros -> Hz. assert (be_val (be_bytes 6 z) = z) as Ev by (by apply be_val_be_bytes_small). pose proof (length_be_bytes 6 z) as Hl.
  destruct (be_bytes 6 z) as [|a [|b [|c [|d [|e [|f [|]]]]]]]; try done. unfold read_be48. cbn [app].
  rewrite (rd_app_r pre _ (zlen pre)), !(rd_shift pre) by (lia || done). rewrite <- Ev, <- read_be48_val. reflexivity.
Qed.

(** ** Parsing *)

Lemma parse_spec data : parse data = Some match data with
  | [] => Err kIncomplete
  | t :: _ => if negb (is_known_type t) then Err kUnknownType else
              if zlen data <? message_size t then Err kTruncatedMessage else Ok (mkView t data (message_size t))
  end.
Proof.
  destruct data as [|t data]; [done|]. unfold parse. rewrite zlen_cons at 1. pose proof (zlen_nonneg data).
  rewrite (proj2 (Z.eqb_neq _ 0)) by lia. change (rd (t :: data) 0) with (Some t). cbn [mbind option_bind].
  destruct (known_size t) as [-> Hb]. destruct (Z.eqb_spec (message_size t) 0) as [E|E]; [done|]. cbn [negb].
  destruct (Z.ltb_spec (zlen (t :: data)) (message_size t)); [done|]. do 3 f_equal. rewrite wrap_small; [done|].
  specialize (Hb eq_refl). change kMinMessageSize with 12 in Hb. change kMaxMessageSize with 50 in Hb. lia.
Qed.

(** A message that is all there; a rest at which parsing ends, with the error and the byte. *)
Definition whole (m : list byte) : Prop := exists t rest, m = t :: rest /\ is_known_type t = true /\ zlen m = message_size t.

Definition stuck (rest : list byte) : Prop :=
  match rest with [] => True | t :: _ => is_known_type t = false \/ zlen rest < message_size t end.

Definition stuck_error (rest : list byte) : option (ItchError * byte) :=
  match rest with [] => None | t :: _ => Some (if is_known_type t then kTruncatedMessage else kUnknownType, t) end.

(** The callback on the messages [msgs], with [rest] behind them, from [offset] on. *)
Fixpoint feed {S} (callback : MessageView -> S -> option (bool * S)) (msgs : list (list byte)) (rest : list byte)
    (offset : Z) (st : S) (stats : ParserStats) : option (Z * S * ParserStats) :=
  match msgs with
  | [] => Some (offset, st, match stuck_error rest with Some (e, b) => on_error offset e b stats | None => stats end)
  | m :: ms =>
    t ← head m;
    '(go, st) ← callback (mkView t (concat msgs ++ rest) (zlen m)) st;
    let stats := on_message (zlen m) stats in
    if (go : bool) then feed callback ms rest (offset + zlen m) st stats else Some (offset + zlen m, st, stats)
  end.

Lemma whole_size m : whole m -> 12 <= zlen m.
Proof. intros (t & rest & -> & Hk & ->). apply (known_size t) in Hk. change kMinMessageSize with 12 in Hk. lia. Qed.

(** Every buffer is a run of whole messages and a rest. *)
Lemma split_messages n : forall data, (length data <= n)%nat -> exists msgs rest, data = concat msgs ++ rest /\ Forall whole msgs /\ stuck rest.
Proof.
  induction n as [|n IH]; intros data Hn; [destruct data; [by exists [], []|cbn in Hn; lia]|].
  destruct data as [|t data]; [by exists [], []|]. destruct (is_known_type t) eqn:Ek; [|exists [], (t :: data); split_and!; [done..|by left]].
  destruct (Z.ltb_spec (zlen (t :: data)) (message_size t)) as [Hlt|Hge]; [exists [], (t :: data); split_and!; [done..|by right]|].
  destruct (known_size t) as [_ Hs]. specialize (Hs Ek). change kMinMessageSize with 12 in Hs.
  set (k := Z.to_nat (message_size t)). destruct (IH (drop k (t :: data))) as (msgs & rest & E & Hm & Hr).
  { rewrite length_drop. cbn [length] in *. lia. }
  exists (take k (t :: data) :: msgs), rest. cbn [concat]. rewrite <- app_assoc, <- E, take_drop. split_and!; [done| |done].
  constructor; [|done]. exists t, (take (k - 1) data). assert (take k (t :: data) = t :: take (k - 1) data) as -> by (by replace k with (S (k - 1)) at 1 by lia).
  split_and!; [done|done|]. rewrite zlen_cons, zlen_take. rewrite zlen_cons in Hge. lia.
Qed.

Section feed_proof.
Context {S : Type} (callback : MessageView -> S -> option (bool * S)).

Lemma drop_zlen {A} (pre l : list A) : drop (Z.to_nat (zlen pre)) (pre ++ l) = l.
Proof. unfold zlen. by rewrite Nat2Z.id, drop_app_length. Qed.

Lemma feed_stats msgs : forall pre rest st stats fuel, Forall whole msgs -> stuck rest -> (length (concat msgs ++ rest) < fuel)%nat ->
  parse_all_stats_loop callback fuel (pre ++ concat msgs ++ rest) (zlen pre) st stats = feed callback msgs rest (zlen pre) st stats /\
  parse_all_loop callback fuel (pre ++ concat msgs ++ rest) (zlen pre) st = fst <$> feed callback msgs rest (zlen pre) st stats.
Proof.
  induction msgs as [|m msgs IH]; intros pre rest st stats fuel Hm Hr Hf; (destruct fuel as [|fuel]; [lia|]); cbn [parse_all_loop parse_all_stats_loop].
  - cbn [concat app feed]. destruct rest as [|t rest].
    { rewrite app_nil_r, Z.ltb_irrefl. done. }
    rewrite zlen_app, zlen_cons. pose proof (zlen_nonneg rest). rewrite (proj2 (Z.ltb_lt _ _)) by lia. cbn [negb].
    rewrite drop_zlen, parse_spec. cbn [mbind option_bind stuck_error]. destruct (is_known_type t) eqn:Ek; cbn [negb].
    + destruct Hr as [Hr|Hr]; [congruence|]. rewrite (proj2 (Z.ltb_lt _ _)) by done. cbn. by rewrite rd_app_r.
    + cbn. by rewrite rd_app_r.
  - apply list.Forall_cons in Hm as [Hw Hm]. pose proof (whole_size m Hw) as H12. destruct Hw as (t & m' & -> & Hk & Hsz). set (m := t :: m') in *.
    cbn [concat feed] in *. rewrite <- (app_assoc m) in *. rewrite length_app in Hf. set (tl := concat msgs ++ rest) in *.
    rewrite zlen_app, (zlen_app m). pose proof (zlen_nonneg tl). rewrite (proj2 (Z.ltb_lt _ _)) by lia. cbn [negb].
    rewrite drop_zlen, parse_spec. cbn [app m]. fold m. rewrite Hk. cbn [negb]. change (t :: m' ++ tl) with (m ++ tl).
    rewrite zlen_app, (proj2 (Z.ltb_ge _ _)) by lia. cbn [mbind option_bind view_length head m]. fold m. rewrite <- Hsz.
    destruct (callback _ st) as [[go st']|]; [|done]. cbn [mbind option_bind]. destruct go; cbn [negb]; [|done].
    assert (length m = Z.to_nat (zlen m)) as Hlm by (unfold zlen; lia).
    specialize (IH (pre ++ m) rest st' (on_message (zlen m) stats) fuel Hm Hr ltac:(subst tl; lia)). fold tl in IH.
    rewrite <- app_assoc, zlen_app in IH. done.
Qed.
End feed_proof.

(** C25: What a buffer delivers.  Every buffer is a sequence of whole messages of known types
    followed by a rest that is empty, starts with an unknown type, or is shorter than its type
    requires; [parse_all] calls the callback for exactly these messages in order, each with
    the pointer at its first byte, until the callback stops it, and returns the number of
    bytes of the messages delivered.  With statistics every delivered message is counted, and
    the error at the rest is recorded with its offset, kind and byte exactly when the messages
    were not stopped and the rest is not empty. *)
Theorem itch_feed_delivered data : exists msgs rest, data = concat msgs ++ rest /\ Forall whole msgs /\ stuck rest /\
  forall S (callback : MessageView -> S -> option (bool * S)) st stats,
    parse_all_stats callback data st stats = feed callback msgs rest 0 st stats /\
    parse_all callback data st = fst <$> feed callback msgs rest 0 st stats.
Proof.
  destruct (split_messages (length data) data) as (msgs & rest & -> & Hm & Hr); [done|]. exists msgs, rest. split_and!; try done.
  intros S callback st stats. apply (feed_stats callback msgs [] rest st stats); [done|done|lia].
Qed.

(** The accessors read the documented layout.  A message of a known type, encoded as type,
    header and the fields of its layout, is accepted by [parse] whatever follows it, with its
    own length; the header accessors and all the accessors of its type return the encoded
    values. *)
Theorem itch_fields_roundtrip type locate tracking ts fs tail : is_known_type type = true -> shape_of <$> fs = layout type -> Forall in_range fs ->
  0 <= locate < 2 ^ 16 -> 0 <= tracking < 2 ^ 16 -> 0 <= ts < 2 ^ 48 ->
  let msg := encode_message type locate tracking ts fs in
  exists v, parse (msg ++ tail) = Some (Ok v) /\ msg_type v = type /\ view_length v = zlen msg /\
    view_stock_locate v = Some locate /\ view_tracking_number v = Some tracking /\ view_timestamp_ns v = Some ts /\
    mapM (fun a => a (view_data v)) (accessors type) = Some fs.
Proof.
  intros Hk Hl Hr H1 H2 H3 msg. assert (zlen msg = message_size type) as Hz.
  { subst msg. unfold encode_message. rewrite zlen_cons, !zlen_app, !zlen_be_bytes, zlen_encode_fields, Hl, message_size_layout by done. lia. }
  exists (mkView type (msg ++ tail) (message_size type)). rewrite parse_spec, zlen_app, Hz. subst msg. cbn [app encode_message]. pose proof (zlen_nonneg tail).
  rewrite Hk, (proj2 (Z.ltb_ge _ _)) by lia. unfold view_stock_locate, view_tracking_number, view_timestamp_ns, stock_locate, tracking_number, timestamp_ns.
  cbn [negb msg_type view_length view_data drop]. rewrite <- !app_assoc. split_and!; try done.
  - by apply (read_be_mid 2 locate []).
  - apply (read_be_mid 2 tracking (be_bytes 2 locate)); [by rewrite zlen_be_bytes|done].
  - rewrite app_assoc. apply read_be48_mid; [by zlens|done].
  - pose proof (read_fields fs (type :: be_bytes 2 locate ++ be_bytes 2 tracking ++ be_bytes 6 ts) tail 11 ltac:(by zlens) Hr) as E.
    cbn [app] in E. rewrite <- !app_assoc in E. by rewrite accessors_layout, <- Hl.
Qed.

(** An add order for 100 shares at 150.2500. *)
Theorem itch_fields_roundtrip_witness :
  let fs := [FNum 8 7; FChr "B"%byte; FNum 4 100; FTxt (be_bytes 8 0); FNum 4 1502500] in
  exists v, parse (encode_message kAddOrder 1 2 3 fs ++ [kRPII]) = Some (Ok v) /\ msg_type v = kAddOrder /\ view_length v = 36 /\
    view_stock_locate v = Some 1 /\ view_tracking_number v = Some 2 /\ view_timestamp_ns v = Some 3 /\
    mapM (fun a => a (view_data v)) (accessors kAddOrder) = Some fs.
Proof.
  apply (itch_fields_roundtrip kAddOrder 1 2 3 [FNum 8 7; FChr "B"%byte; FNum 4 100; FTxt (be_bytes 8 0); FNum 4 1502500] [kRPII]);
    try done; repeat constructor; cbn; lia.
Defined.
