(* ===== verification/ItchBook.v ===== *)
(** * Order books from ITCH messages

    itch_adapter.hpp of eph-book: [ItchBookBuilder] keeps the live orders of a feed, adds up
    their shares per price, and shows the sums in an [ArrayBook].

    [itch_book_aggregates]: what the book shows is computed from the live orders, which are
    those the messages leave. *)

From Stdlib Require Import Sorted.
From stdpp Require Import gmap sorting.
From S2P Require Import Prelude Double Book Itch.

#[local] Open Scope Z_scope.

(** ** itch_adapter.hpp *)

Record Order := mkOrder { o_price : double; remaining_qty : double; o_side : byte }.

(** The hash map of orders; the [std::map]s of quantities, as sorted lists. *)
Record ItchBookBuilder := mkBuilder {
  ib_book : ArrayBook;
  orders_ : gmap Z Order;
  bid_qty_ : list PriceLevel;
  ask_qty_ : list PriceLevel
}.

(** [m.find(k)]. *)
Fixpoint map_find (k : double) (m : list PriceLevel) : option double :=
  match m with
  | [] => None
  | l :: t =>
    if key_less false (price l) k then map_find k t
    else if key_less false k (price l) then None else Some (qty l)
  end.

Definition is_buy (side : byte) : bool := Byte.eqb side "B"%byte.

Definition qty_map (side : byte) (b : ItchBookBuilder) : list PriceLevel := if is_buy side then bid_qty_ b else ask_qty_ b.

Definition set_qty_map (side : byte) (m : list PriceLevel) (b : ItchBookBuilder) : ItchBookBuilder :=
  if is_buy side then mkBuilder (ib_book b) (orders_ b) m (ask_qty_ b) else mkBuilder (ib_book b) (orders_ b) (bid_qty_ b) m.

Definition set_orders (o : gmap Z Order) (b : ItchBookBuilder) : ItchBookBuilder :=
  mkBuilder (ib_book b) o (bid_qty_ b) (ask_qty_ b).

Section builder.
Context (MaxLevels : nat).

(** [book_.update_bid] or [book_.update_ask]. *)
Definition push_level (side : byte) (p q : double) (b : ItchBookBuilder) : option ItchBookBuilder :=
  book ← (if is_buy side then update_bid MaxLevels p q (ib_book b) else update_ask MaxLevels p q (ib_book b));
  Some (mkBuilder book (orders_ b) (bid_qty_ b) (ask_qty_ b)).

Definition add_qty (price qty : double) (side : byte) (b : ItchBookBuilder) : option ItchBookBuilder :=
  let qp := quantize price in
  let total := double_add (default double_zero (map_find qp (qty_map side b))) qty in
  push_level side qp total (set_qty_map side (insert_or_assign false qp total (qty_map side b)) b).

Definition sub_qty (price qty : double) (side : byte) (b : ItchBookBuilder) : option ItchBookBuilder :=
  let qp := quantize price in
  match map_find qp (qty_map side b) with
  | None => push_level side qp double_zero b
  | Some q =>
    let total := double_sub q qty in
    if SFleb total double_zero
    then push_level side qp double_zero (set_qty_map side (map_erase false qp (qty_map side b)) b)
    else push_level side qp total (set_qty_map side (insert_or_assign false qp total (qty_map side b)) b)
  end.

Definition evict_existing_ref (ref : Z) (b : ItchBookBuilder) : option ItchBookBuilder :=
  match orders_ b !! ref with
  | None => Some b
  | Some o => sub_qty (o_price o) (remaining_qty o) (o_side o) (set_orders (delete ref (orders_ b)) b)
  end.

(** The common part of [handle_add_order] and [handle_add_order_mpid]. *)
Definition add_new_order (ref : Z) (side : byte) (shares : Z) (price : double) (b : ItchBookBuilder) : option (bool * ItchBookBuilder) :=
  if negb (Byte.eqb side "B"%byte) && negb (Byte.eqb side "S"%byte) then Some (false, b) else
  b ← evict_existing_ref ref b;
  let b := set_orders (<[ref := mkOrder price (double_of_int shares) side]> (orders_ b)) b in
  b ← add_qty price (double_of_int shares) side b;
  Some (true, b).

Definition handle_add_order (msg : list byte) (b : ItchBookBuilder) : option (bool * ItchBookBuilder) :=
  ref ← add_order_order_ref msg; side ← add_order_side msg; shares ← add_order_shares msg; price ← add_order_price msg;
  add_new_order ref side shares price b.

Definition handle_add_order_mpid (msg : list byte) (b : ItchBookBuilder) : option (bool * ItchBookBuilder) :=
  ref ← add_order_mpid_order_ref msg; side ← add_order_mpid_side msg; shares ← add_order_mpid_shares msg; price ← add_order_mpid_price msg;
  add_new_order ref side shares price b.

(** [std::min(a, b)]. *)
Definition double_min (a b : double) : double := if SFltb b a then b else a.

(** The common part of the execution and cancel handlers. *)
Definition reduce_order (ref shares : Z) (b : ItchBookBuilder) : option (bool * ItchBookBuilder) :=
  match orders_ b !! ref with
  | None => Some (false, b)
  | Some ord =>
    let old_qty := remaining_qty ord in
    let clamped := double_min (double_of_int shares) old_qty in
    let rem := double_sub old_qty clamped in
    let orders := if SFleb rem double_zero then delete ref (orders_ b) else <[ref := mkOrder (o_price ord) rem (o_side ord)]> (orders_ b) in
    b ← sub_qty (o_price ord) clamped (o_side ord) (set_orders orders b);
    Some (true, b)
  end.

Definition handle_order_executed (msg : list byte) (b : ItchBookBuilder) : option (bool * ItchBookBuilder) :=
  ref ← order_executed_order_ref msg; shares ← order_executed_executed_shares msg; reduce_order ref shares b.

Definition handle_order_executed_with_price (msg : list byte) (b : ItchBookBuilder) : option (bool * ItchBookBuilder) :=
  ref ← order_executed_price_order_ref msg; shares ← order_executed_price_executed_shares msg; reduce_order ref shares b.

Definition handle_order_cancel (msg : list byte) (b : ItchBookBuilder) : option (bool * ItchBookBuilder) :=
  ref ← order_cancel_order_ref msg; shares ← order_cancel_cancelled_shares msg; reduce_order ref shares b.

Definition handle_order_delete (msg : list byte) (b : ItchBookBuilder) : option (bool * ItchBookBuilder) :=
  ref ← order_delete_order_ref msg;
  match orders_ b !! ref with
  | None => Some (false, b)
  | Some o => b ← sub_qty (o_price o) (remaining_qty o) (o_side o) (set_orders (delete ref (orders_ b)) b); Some (true, b)
  end.

Definition handle_order_replace (msg : list byte) (b : ItchBookBuilder) : option (bool * ItchBookBuilder) :=
  orig_ref ← order_replace_original_order_ref msg; new_ref ← order_replace_new_order_ref msg;
  shares ← order_replace_shares msg; new_price ← order_replace_price msg;
  match orders_ b !! orig_ref with
  | None => Some (false, b)
  | Some o =>
    b ← sub_qty (o_price o) (remaining_qty o) (o_side o) (set_orders (delete orig_ref (orders_ b)) b);
    b ← evict_existing_ref new_ref b;
    let b := set_orders (<[new_ref := mkOrder new_price (double_of_int shares) (o_side o)]> (orders_ b)) b in
    b ← add_qty new_price (double_of_int shares) (o_side o) b;
    Some (true, b)
  end.

Definition process (msg : MessageView) (b : ItchBookBuilder) : option (bool * ItchBookBuilder) :=
  switch (msg_type msg)
    [(kAddOrder, handle_add_order (view_data msg) b);
     (kAddOrderMPID, handle_add_order_mpid (view_data msg) b);
     (kOrderExecuted, handle_order_executed (view_data msg) b);
     (kOrderExecutedWithPrice, handle_order_executed_with_price (view_data msg) b);
     (kOrderCancel, handle_order_cancel (view_data msg) b);
     (kOrderDelete, handle_order_delete (view_data msg) b);
     (kOrderReplace, handle_order_replace (view_data msg) b)]
    (Some (false, b)).

Definition builder_clear (b : ItchBookBuilder) : ItchBookBuilder := mkBuilder (Book.clear (ib_book b)) ∅ [] [].

Definition order_count (b : ItchBookBuilder) : nat := size (orders_ b).

Definition builder_init : ItchBookBuilder := mkBuilder (array_book_init MaxLevels) ∅ [] [].
End builder.

(** ** The live orders of a feed *)

Record resting := mkResting { r_buy : bool; r_price : Z; r_shares : Z }.

Inductive event :=
| EAdd (ref : Z) (o : resting)
| EReduce (ref shares : Z)
| EDelete (ref : Z)
| EReplace (orig new shares price : Z)
| EIgnore.

(** What a message says, by its accessors. *)
Definition add_event (ref : Z) (side : byte) (shares price : Z) : event :=
  if Byte.eqb side "B"%byte then EAdd ref (mkResting true price shares)
  else if Byte.eqb side "S"%byte then EAdd ref (mkResting false price shares) else EIgnore.

Definition event_of (v : MessageView) : option event :=
  let msg := view_data v in
  switch (msg_type v)
    [(kAddOrder, ref ← add_order_order_ref msg; side ← add_order_side msg; shares ← add_order_shares msg;
        price ← add_order_price_raw msg; Some (add_event ref side shares price));
     (kAddOrderMPID, ref ← add_order_mpid_order_ref msg; side ← add_order_mpid_side msg; shares ← add_order_mpid_shares msg;
        price ← add_order_mpid_price_raw msg; Some (add_event ref side shares price));
     (kOrderExecuted, ref ← order_executed_order_ref msg; shares ← order_executed_executed_shares msg; Some (EReduce ref shares));
     (kOrderExecutedWithPrice, ref ← order_executed_price_order_ref msg; shares ← order_executed_price_executed_shares msg; Some (EReduce ref shares));
     (kOrderCancel, ref ← order_cancel_order_ref msg; shares ← order_cancel_cancelled_shares msg; Some (EReduce ref shares));
     (kOrderDelete, ref ← order_delete_order_ref msg; Some (EDelete ref));
     (kOrderReplace, orig ← order_replace_original_order_ref msg; new ← order_replace_new_order_ref msg;
        shares ← order_replace_shares msg; price ← order_replace_price_raw msg; Some (EReplace orig new shares price))]
    (Some EIgnore).

(** The orders after an event, and whether it applied. *)
Definition apply_event (e : event) (m : gmap Z resting) : bool * gmap Z resting :=
  match e with
  | EAdd ref o => (true, <[ref := o]> m)
  | EReduce ref shares =>
    match m !! ref with
    | None => (false, m)
    | Some o =>
      let left := r_shares o - Z.min shares (r_shares o) in
      (true, if left <=? 0 then delete ref m else <[ref := mkResting (r_buy o) (r_price o) left]> m)
    end
  | EDelete ref => match m !! ref with None => (false, m) | Some _ => (true, delete ref m) end
  | EReplace orig new shares price =>
    match m !! orig with
    | None => (false, m)
    | Some o => (true, <[new := mkResting (r_buy o) price shares]> (delete orig m))
    end
  | EIgnore => (false, m)
  end.

(** The shares an order has on a side at a price, and their sum. *)
Definition contrib (o : resting) (buy : bool) (p : Z) : Z := if eqb (r_buy o) buy && (r_price o =? p) then r_shares o else 0.

Definition total (m : gmap Z resting) (buy : bool) (p : Z) : Z := map_fold (fun _ o acc => contrib o buy p + acc) 0 m.

(** ** Price keys *)

Definition raw_price (p : Z) : Prop := 0 <= p < 2 ^ 32.

(** The price a level is kept under. *)
Definition level_key (p : Z) : double := quantize (scaled kItchPriceDivisor p).

Lemma tick_bounds : finite kTickQuantum /\ 2 ^ 1044 <= value kTickQuantum <= 2 ^ 1045 /\
  Z.abs (value kTickQuantum * 10 ^ 9 - 2 ^ 1074) * 2 ^ 53 <= 2 ^ 1074 /\ value kEps * 400 < value kTickQuantum.
Proof. split; [done|]. by vm_compute. Qed.

Lemma pow_facts : 0 < 2 ^ 1044 /\ 2 ^ 1074 = 2 ^ 30 * 2 ^ 1044 /\ 2 ^ 1200 = 2 ^ 126 * 2 ^ 1074 /\ 2 ^ 900 <= 2 ^ 1044 /\
  2 ^ 1045 = 2 * 2 ^ 1044 /\ 2 ^ 1200 < too_large.
Proof. split_and!; (reflexivity || (apply Z.leb_le; reflexivity) || (apply Z.ltb_lt; reflexivity)). Qed.

Lemma abs_scale k a b c : 0 <= k -> Z.abs a * c <= b -> Z.abs (k * a) * c <= k * b.
Proof. intros Hk H. rewrite Z.abs_mul, (Z.abs_eq k), <- Z.mul_assoc by done. by apply Z.mul_le_mono_nonneg_l. Qed.

(** The errors of the two divisions and of the tick add up to less than half a tick. *)
Lemma ticks_error U T p v1 v2 : 0 < U -> 0 < T -> 0 < p < 2 ^ 32 -> 0 < v1 -> 0 < v2 ->
  Z.abs (10000 * v1 - p * U) * 2 ^ 51 <= p * U -> Z.abs (v2 * T - v1 * U) * 2 ^ 51 <= v1 * U -> Z.abs (T * 10 ^ 9 - U) * 2 ^ 53 <= U ->
  2 * Z.abs (v2 - p * 100000 * U) < U.
Proof.
  intros HU HT Hp H1 H2 C1 C2 C3. set (w := v2 - p * 100000 * U).
  pose proof (abs_scale (10 ^ 5 * U) _ _ _ ltac:(lia) C1) as D1. pose proof (abs_scale (10 ^ 9) _ _ _ ltac:(lia) C2) as D2.
  pose proof (abs_scale (10 ^ 5 * p * U) _ _ _ ltac:(apply Z.mul_nonneg_nonneg; lia) C3) as D3. pose proof (abs_scale U _ _ _ ltac:(lia) C3) as D4.
  set (A := 10 ^ 5 * U * (10000 * v1 - p * U)) in *. set (B := 10 ^ 9 * (v2 * T - v1 * U)) in *. set (C := 10 ^ 5 * p * U * (T * 10 ^ 9 - U)) in *.
  assert (10 ^ 9 * T * w = A + B - C) as E by (subst A B C w; lia). assert (A = 10 ^ 9 * (v1 * U) - 10 ^ 5 * (p * (U * U))) as EA by (subst A; lia).
  clearbody A B C. assert (0 < U * U) as HS by (by apply Z.mul_pos_pos). assert (0 < p * (U * U) < 2 ^ 32 * (U * U)) as HpS by (split; [apply Z.mul_pos_pos; lia|apply Z.mul_lt_mono_pos_r; lia]).
  assert (Z.abs (10 ^ 9 * T * w) * 100 < 49 * (U * U)) as Habs by lia. rewrite Z.abs_mul, (Z.abs_eq (10 ^ 9 * T)) in Habs by lia.
  apply Z.nle_gt. intros Hc. assert (U * (10 ^ 9 * T) <= 2 * Z.abs w * (10 ^ 9 * T)) by (apply Z.mul_le_mono_nonneg_r; lia).
  assert (Z.abs (U * (10 ^ 9 * T) - U * U) * 2 ^ 53 <= U * U) by (replace (U * (10 ^ 9 * T) - U * U) with (U * (T * 10 ^ 9 - U)) by lia; lia). lia.
Qed.

(** Dividing by the tick and rounding gives the number of ticks. *)
Lemma ticks_exact p : 0 < p < 2 ^ 32 ->
  finite (double_round (double_div (scaled kItchPriceDivisor p) kTickQuantum)) /\
  value (double_round (double_div (scaled kItchPriceDivisor p) kTickQuantum)) = (p * 100000) * 2 ^ 1074.
Proof.
  intros Hp. destruct tick_bounds as (Ft & Bt & Ct & _). destruct (int_value p ltac:(lia)) as [Fp Vp].
  assert (finite kItchPriceDivisor /\ value kItchPriceDivisor = 10000 * 2 ^ 1074) as [Fd Vd] by (by apply int_value).
  destruct pow_facts as (HQ & EU & EB & EL & EH & _).
  destruct (div_close (double_of_int p) kItchPriceDivisor) as (F1 & P1 & C1); [done|done|rewrite Vp; lia|rewrite Vd; lia|].
  fold (scaled kItchPriceDivisor p) in F1, P1, C1. set (x1 := scaled kItchPriceDivisor p) in *. clearbody x1. rewrite Vp, Vd in C1.
  assert (Z.abs (10000 * value x1 - p * 2 ^ 1074) * 2 ^ 51 <= p * 2 ^ 1074) as C1'.
  { replace (value x1 * (10000 * 2 ^ 1074) - p * 2 ^ 1074 * 2 ^ 1074) with (2 ^ 1074 * (10000 * value x1 - p * 2 ^ 1074)) in C1 by lia.
    remember (2 ^ 1074) as U. rewrite Z.abs_mul, (Z.abs_eq U) in C1 by lia. nia. }
  destruct (div_close x1 kTickQuantum) as (F2 & P2 & C2); [done|done|lia|lia|].
  apply round_close; [done|lia|]. apply (ticks_error _ (value kTickQuantum) p (value x1)); (done || lia).
Qed.

(** The key of a price is the double nearest to its ticks. *)
Lemma key_value p : raw_price p -> finite (level_key p) /\ value (level_key p) = rnd (p * 100000 * value kTickQuantum).
Proof.
  intros Hp. unfold raw_price in Hp. destruct (Z.eq_dec p 0) as [->|Hn]; [by vm_compute|]. destruct (ticks_exact p) as [Fr Vr]; [lia|].
  destruct tick_bounds as (Ft & Bt & _ & _). unfold level_key, quantize.
  destruct pow_facts as (HQ & EU & EB & EL & EH & ET).
  assert (0 < p * 100000 * value kTickQuantum <= 2 ^ 1100) as Hw.
  { split; [nia|]. transitivity (2 ^ 50 * 2 ^ 1045); [apply Z.mul_le_mono_nonneg; lia|]. by vm_compute. }
  apply mul_value; [done|done|rewrite Vr; lia|lia|rewrite Vr; lia|lia|].
  pose proof (rnd_mono (p * 100000 * value kTickQuantum) (2 ^ 1100) ltac:(lia)) as Hm. assert (rnd (2 ^ 1100) < too_large) by (by vm_compute). lia.
Qed.

(** Different prices have keys that are far apart, in the order of the prices. *)
Lemma key_gap p p' : raw_price p -> raw_price p' -> p < p' -> value (level_key p) + 2 * value kEps < value (level_key p').
Proof.
  intros Hp Hp' Hlt. unfold raw_price in *. destruct (key_value p Hp) as [_ ->]. destruct (key_value p' Hp') as [_ ->].
  destruct tick_bounds as (_ & Bt & _ & He). assert (0 < 2 ^ 1044) by (by vm_compute). remember (value kTickQuantum) as T. remember (value kEps) as E.
  pose proof (rnd_close (p * 100000 * T) ltac:(nia)). pose proof (rnd_close (p' * 100000 * T) ltac:(nia)).
  assert (p * 100000 * T + 100000 * T <= p' * 100000 * T) by nia. assert (p' * 100000 * T <= 2 ^ 50 * T) by nia. assert (p * 100000 * T <= 2 ^ 50 * T) by nia. lia.
Qed.

Lemma key_inj p p' : raw_price p -> raw_price p' -> value (level_key p) = value (level_key p') -> p = p'.
Proof.
  intros Hp Hp' E. pose proof eps_pos. destruct (Z.lt_total p p') as [H1|[H1|H1]]; [|done|].
  - pose proof (key_gap p p' Hp Hp' H1). lia.
  - pose proof (key_gap p' p Hp' Hp H1). lia.
Qed.

Lemma key_better buy p p' : raw_price p -> raw_price p' -> better buy (value (level_key p)) (value (level_key p')) -> better buy p p'.
Proof.
  intros Hp Hp' E. pose proof eps_pos. destruct (Z.lt_total p p') as [H1|[->|H1]]; [|by apply better_irrefl in E|].
  - pose proof (key_gap p p' Hp Hp' H1). destruct buy; cbn in *; lia.
  - pose proof (key_gap p' p Hp' Hp H1). destruct buy; cbn in *; lia.
Qed.

(** Every key there is. *)
Definition all_keys : list double := level_key <$> seqZ 0 (2 ^ 32).

Lemma in_all_keys x : x ∈ all_keys <-> exists p, raw_price p /\ x = level_key p.
Proof.
  unfold all_keys. rewrite list_elem_of_fmap. unfold raw_price. split.
  - intros (p & -> & Hp). apply elem_of_seqZ in Hp. exists p. split; [lia|done].
  - intros (p & Hp & ->). exists p. split; [done|]. apply elem_of_seqZ. lia.
Qed.

Lemma keys_well_spaced : well_spaced all_keys.
Proof.
  intros x x' (p & Hp & ->)%in_all_keys (p' & Hp' & ->)%in_all_keys. unfold apart.
  destruct (Z.lt_total p p') as [H1|[->|H1]]; [|by left|].
  - pose proof (key_gap p p' Hp Hp' H1). pose proof eps_pos. right. lia.
  - pose proof (key_gap p' p Hp' Hp H1). pose proof eps_pos. right. lia.
Qed.
#[global] Opaque all_keys.

(** ** The maps of quantities *)

Definition qmap_ok (m : list PriceLevel) : Prop :=
  StronglySorted (better false) (map level_at m) /\ Forall (fun l => finite (price l)) m.

Lemma qmap_ok_cons l m : qmap_ok (l :: m) <-> finite (price l) /\ qmap_ok m /\ Forall (fun x => level_at l < level_at x) m.
Proof.
  unfold qmap_ok. cbn [map]. rewrite list.Forall_cons. split.
  - intros [Hs [Hl Hf]]. apply StronglySorted_inv in Hs as [Hs Ha]. rewrite Forall_map in Ha. split; [done|]. split; [by split|exact Ha].
  - intros (Hl & [Hs Hf] & Ha). split; [|done]. constructor; [done|]. rewrite Forall_map. exact Ha.
Qed.

(** A key before all the others is not found. *)
Lemma find_before k m : finite k -> qmap_ok m -> Forall (fun x => value k < level_at x) m -> map_find k m = None.
Proof.
  destruct m as [|l m]; [done|]. intros Hk (Hl & _ & _)%qmap_ok_cons [Hb _]%list.Forall_cons. cbn [map_find].
  destruct (key_cases false l k Hl Hk) as [[-> H]|[(-> & -> & H)|(_ & _ & H)]]; cbn in *; [lia|done|lia].
Qed.

Lemma forall_lt_trans a b (m : list PriceLevel) : a < b -> Forall (fun x => b < level_at x) m -> Forall (fun x => a < level_at x) m.
Proof. intros H Hm. eapply list.Forall_impl; [exact Hm|]. cbn. lia. Qed.

Lemma insert_above l k v m : finite k -> Forall (fun l => finite (price l)) m -> level_at l < value k -> Forall (fun x => level_at l < level_at x) m ->
  Forall (fun x => level_at l < level_at x) (insert_or_assign false k v m).
Proof.
  intros Hk Hf Hlk H. destruct (key_split false k m Hk Hf) as (a & b & -> & _ & _ & _ & Hi). rewrite Hi. apply list.Forall_app in H as [H1 H2].
  apply list.Forall_app. split; [done|]. destruct b as [|x b]; [by constructor|]. apply list.Forall_cons in H2 as [H2 H3]. by case_match; repeat constructor.
Qed.

Lemma erase_above l k m : finite k -> Forall (fun l => finite (price l)) m -> Forall (fun x => level_at l < level_at x) m ->
  Forall (fun x => level_at l < level_at x) (map_erase false k m).
Proof.
  intros Hk Hf H. destruct (key_split false k m Hk Hf) as (a & b & -> & _ & _ & He & _). rewrite He. apply list.Forall_app in H as [H1 H2].
  apply list.Forall_app. split; [done|]. destruct b as [|x b]; [done|]. apply list.Forall_cons in H2 as [H2 H3]. by case_match; repeat constructor.
Qed.

Ltac key_order l k Hl Hk := let H := fresh "Hord" in
  destruct (key_cases false l k Hl Hk) as [[-> H]|[(-> & -> & H)|(-> & -> & H)]]; cbn [better] in H; cbn iota.

Lemma find_insert k v m : finite k -> qmap_ok m -> qmap_ok (insert_or_assign false k v m) /\
  forall k', finite k' -> map_find k' (insert_or_assign false k v m) = if value k' =? value k then Some v else map_find k' m.
Proof.
  intros Hk. induction m as [|l m IH]; intros Hm; cbn [insert_or_assign].
  - split; [apply qmap_ok_cons; split_and!; [done|split; constructor|constructor]|]. intros k' Hk'. cbn [map_find].
    key_order (mkLevel k v) k' Hk Hk'; unfold level_at in *; cbn [price qty] in *; zdecides; done.
  - pose proof Hm as (Hl & Hm' & Ha)%qmap_ok_cons. specialize (IH Hm') as [IH1 IH2]. key_order l k Hl Hk.
    + split; [apply qmap_ok_cons; split_and!; [done|done|by apply insert_above; [|apply Hm'|..]]|]. intros k' Hk'. cbn [map_find].
      key_order l k' Hl Hk'; [by apply IH2|zdecides; done..].
    + split; [apply qmap_ok_cons; split_and!; [done|done|constructor; [done|by eapply forall_lt_trans]]|]. intros k' Hk'. cbn [map_find].
      key_order (mkLevel k v) k' Hk Hk'; unfold level_at in Hord0; cbn [price qty] in *; zdecides; try done.
      symmetry. apply (find_before k' (l :: m) Hk' Hm). constructor; [lia|]. eapply forall_lt_trans; [|done]. lia.
    + split; [by apply qmap_ok_cons|]. intros k' Hk'. cbn [map_find price qty]. key_order l k' Hl Hk'; zdecides; done.
Qed.

Lemma find_erase k m : finite k -> qmap_ok m -> qmap_ok (map_erase false k m) /\
  forall k', finite k' -> map_find k' (map_erase false k m) = if value k' =? value k then None else map_find k' m.
Proof.
  intros Hk. induction m as [|l m IH]; intros Hm; cbn [map_erase]; [split; [done|]; intros; by case_match|].
  pose proof Hm as (Hl & Hm' & Ha)%qmap_ok_cons. specialize (IH Hm') as [IH1 IH2]. key_order l k Hl Hk.
  - split; [apply qmap_ok_cons; split_and!; [done|done|by apply erase_above; [|apply Hm'|..]]|]. intros k' Hk'. cbn [map_find].
    key_order l k' Hl Hk'; [by apply IH2|zdecides; done..].
  - split; [done|]. intros k' Hk'. destruct (Z.eqb_spec (value k') (value k)) as [E|E]; [|done]. apply find_before; [done|done|].
    rewrite E. constructor; [done|by eapply forall_lt_trans].
  - split; [done|]. intros k' Hk'. cbn [map_find]. key_order l k' Hl Hk'; zdecides; try done; apply find_before; try done.
    + by eapply forall_lt_trans.
    + eapply list.Forall_impl; [exact Ha|]. cbn. lia.
Qed.

(** ** Sums *)

Lemma total_insert m r o buy p : m !! r = None -> total (<[r := o]> m) buy p = contrib o buy p + total m buy p.
Proof. intros H. unfold total. rewrite map_fold_insert_L by (done || (intros; lia)). done. Qed.

Lemma total_delete m r o buy p : m !! r = Some o -> total m buy p = contrib o buy p + total (delete r m) buy p.
Proof. intros H. rewrite <- (total_insert (delete r m) r o) by apply lookup_delete_eq. by rewrite insert_delete_id. Qed.

Lemma total_change m r o o' buy p : m !! r = Some o ->
  total (<[r := o']> m) buy p = total m buy p - contrib o buy p + contrib o' buy p.
Proof. intros H. rewrite <- insert_delete_eq, total_insert, (total_delete m r o) by (done || apply lookup_delete_eq). lia. Qed.

Definition resting_ok (m : gmap Z resting) : Prop := map_Forall (fun _ o => raw_price (r_price o) /\ 0 <= r_shares o < 2 ^ 32) m.

Lemma total_nonneg m buy p : resting_ok m -> 0 <= total m buy p.
Proof.
  intros Hm. unfold total. induction m as [|r o m Hr IH] using map_ind; [by rewrite map_fold_empty|].
  rewrite map_fold_insert_L by (done || (intros; lia)). apply map_Forall_insert in Hm as [[_ Ho] Hm]; [|done]. specialize (IH Hm).
  assert (0 <= contrib o buy p) by (unfold contrib; case_match; lia). lia.
Qed.

Lemma total_least m r o : resting_ok m -> m !! r = Some o -> r_shares o <= total m (r_buy o) (r_price o).
Proof.
  intros Hm Ho. rewrite (total_delete m r o) by done. unfold contrib. rewrite eqb_reflx, Z.eqb_refl. cbn [andb].
  pose proof (total_nonneg (delete r m) (r_buy o) (r_price o) (map_Forall_delete _ _ _ Hm)). lia.
Qed.

Lemma total_raw m buy p : resting_ok m -> 0 < total m buy p -> raw_price p.
Proof.
  intros Hm. unfold total. induction m as [|r o m Hr IH] using map_ind; [by rewrite map_fold_empty|].
  rewrite map_fold_insert_L by (done || (intros; lia)). apply map_Forall_insert in Hm as [[Ho _] Hm]; [|done]. intros Hp.
  destruct (Z.eq_dec (r_price o) p) as [<-|Hn]; [done|]. apply IH; [done|].
  assert (contrib o buy p = 0) as E by (unfold contrib; by rewrite (proj2 (Z.eqb_neq _ _) Hn), andb_false_r). lia.
Qed.

(** ** A side and its sums *)

Section aggregates.
Context (MaxLevels : nat).

(** At most [MaxLevels] prices have shares. *)
Definition few (T : Z -> Z) : Prop := exists ps : list Z, (length ps <= MaxLevels)%nat /\ forall p, raw_price p -> 0 < T p -> p ∈ ps.

(** The live quantities of the array book by the sums [T]. *)
Definition live_sums (T : Z -> Z) (live : gmap Z double) : Prop :=
  forall v q, live !! v = Some q <-> exists p, raw_price p /\ v = value (level_key p) /\ 0 < T p /\ q = double_of_int (T p).

Lemma few_size T live : live_sums T live -> few T -> (size live <= MaxLevels)%nat.
Proof.
  intros Hl (ps & Hlen & Hps). rewrite <- size_dom. unfold size, set_size. cbn. transitivity (length ((fun p => value (level_key p)) <$> ps)); [|by rewrite length_fmap].
  apply submseteq_length, NoDup_submseteq; [apply NoDup_elements|]. intros v (q & Hq)%elem_of_elements%elem_of_dom.
  apply Hl in Hq as (p & Hr & -> & Hpos & ->). apply list_elem_of_fmap. exists p. split; [done|by apply Hps].
Qed.

(** A side that shows the sums [T] of the map [qm]. *)
Definition side_rel (buy : bool) (T : Z -> Z) (full : Prop) (qm : list PriceLevel) (s : side) : Prop :=
  qmap_ok qm /\ (forall p, raw_price p -> default double_zero (map_find (level_key p) qm) = double_of_int (T p)) /\
  exists live, side_inv MaxLevels buy all_keys live full s /\ live_sums T live.

Definition at_price (T : Z -> Z) (p t : Z) : Z -> Z := fun p' => if p' =? p then t else T p'.

Lemma side_rel_ext buy T T' (full full' : Prop) qm s : side_rel buy T full qm s -> (forall p, raw_price p -> T' p = T p) -> (full' -> full) -> side_rel buy T' full' qm s.
Proof.
  intros (Hq & Hf & live & Hi & Hl) E Hfull. split; [done|]. split; [intros p Hp; rewrite E by done; by apply Hf|].
  exists live. split; [by eapply side_inv_mono; [| |exact Hfull]|]. intros v q. rewrite (Hl v q). split; intros (p & Hr & Hx); exists p; by rewrite E in *.
Qed.

Lemma int_pos t : 0 <= t <= 2 ^ 53 -> SFleb (double_of_int t) double_zero = (t <=? 0).
Proof.
  intros Ht. destruct (int_value t ltac:(lia)) as [Hf Hv]. rewrite leb_value by done. rewrite Hv. change (value double_zero) with 0.
  assert (0 < 2 ^ 1074) by (by vm_compute). destruct (Z.leb_spec t 0), (Z.leb_spec (t * 2 ^ 1074) 0); (done || nia).
Qed.

(** The sum at one price changes, in the map and on the side. *)
Lemma sum_changed buy T p t (full full' : Prop) qm qm' s : side_rel buy T full qm s -> raw_price p -> 0 <= t <= 2 ^ 53 ->
  (full' -> full /\ few (at_price T p t)) -> qmap_ok qm' ->
  (forall p', raw_price p' -> default double_zero (map_find (level_key p') qm') =
     if p' =? p then double_of_int t else default double_zero (map_find (level_key p') qm)) ->
  exists s', update_side MaxLevels buy (level_key p) (double_of_int t) s = Some s' /\ side_rel buy (at_price T p t) full' qm' s'.
Proof.
  intros (Hq & Hf & live & Hi & Hl) Hp Ht Hfull Hq' Hf'. destruct (key_value p Hp) as [Hk _]. destruct (int_value t ltac:(lia)) as [Hti Htv].
  assert (live_sums (at_price T p t) (live_update (level_key p) (double_of_int t) live)) as Hl'.
  { unfold live_update. rewrite (proj2 Hk), (proj2 Hti), int_pos by done. cbn [negb orb]. unfold at_price. intros v q. destruct (Z.leb_spec t 0) as [H0|H0].
    - rewrite lookup_delete_Some, (Hl v q). split.
      + intros [Hn (p' & Hr & -> & Hx)]. exists p'. rewrite (proj2 (Z.eqb_neq p' p)) by (intros ->; done). done.
      + intros (p' & Hr & -> & Hx). destruct (Z.eqb_spec p' p) as [->|Hn]; [lia|]. split; [intros E; by apply Hn, eq_sym, key_inj|]. by exists p'.
    - rewrite lookup_insert_Some, (Hl v q). split.
      + intros [[<- <-]|[Hn (p' & Hr & -> & Hx)]]; [exists p; by rewrite Z.eqb_refl|]. exists p'. rewrite (proj2 (Z.eqb_neq p' p)) by (intros ->; done). done.
      + intros (p' & Hr & -> & Hx). destruct (Z.eqb_spec p' p) as [->|Hn]; [left; by destruct Hx as [_ ->]|]. right.
        split; [intros E; by apply Hn, eq_sym, key_inj|]. by exists p'. }
  destruct (update_side_inv MaxLevels buy all_keys all_keys (level_key p) (double_of_int t) live full full' s) as (s' & -> & Hs'); try done.
  - apply Hk.
  - apply Hti.
  - intros _. apply in_all_keys. by exists p.
  - apply keys_well_spaced.
  - intros F. destruct (Hfull F) as [F1 F2]. split; [done|]. by eapply few_size.
  - exists s'. split; [done|]. split; [done|]. split; [|by eexists]. intros p' Hp'. rewrite Hf' by done. unfold at_price. case_match; [done|by apply Hf].
Qed.

(** ** Both sides *)

Definition side_byte (buy : bool) : byte := if buy then "B"%byte else "S"%byte.
Definition side_of (buy : bool) (b : ArrayBook) : side := if buy then bids_ b else asks_ b.

Definition book_rel (T : bool -> Z -> Z) (full : Prop) (b : ItchBookBuilder) : Prop :=
  forall buy, side_rel buy (T buy) full (qty_map (side_byte buy) b) (side_of buy (ib_book b)).

Definition upd (T : bool -> Z -> Z) (buy : bool) (p t : Z) : bool -> Z -> Z :=
  fun b p' => if eqb b buy && (p' =? p) then t else T b p'.

Lemma book_rel_ext T T' (full full' : Prop) b : book_rel T full b -> (forall buy p, T' buy p = T buy p) -> (full' -> full) -> book_rel T' full' b.
Proof. intros H E F buy. eapply side_rel_ext; [apply H|intros; apply E|exact F]. Qed.

Lemma upd_at T buy p t p' : upd T buy p t buy p' = at_price (T buy) p t p'.
Proof. unfold upd, at_price. by rewrite eqb_reflx. Qed.

Lemma pushed T buy p t (full full' : Prop) qm' b : book_rel T full b -> raw_price p -> 0 <= t <= 2 ^ 53 ->
  (full' -> full /\ few (upd T buy p t buy)) -> qmap_ok qm' ->
  (forall p', raw_price p' -> default double_zero (map_find (level_key p') qm') =
     if p' =? p then double_of_int t else default double_zero (map_find (level_key p') (qty_map (side_byte buy) b))) ->
  exists b', push_level MaxLevels (side_byte buy) (level_key p) (double_of_int t) (set_qty_map (side_byte buy) qm' b) = Some b' /\
    orders_ b' = orders_ b /\ book_rel (upd T buy p t) full' b'.
Proof.
  intros Hb Hp Ht Hfull Hq' Hf'. destruct (sum_changed buy (T buy) p t full full' _ qm' _ (Hb buy) Hp Ht) as (s' & Hs' & Hr); [|done|done|].
  { intros F. destruct (Hfull F) as [F1 (ps & Hl & Hps)]. split; [done|]. exists ps. split; [done|]. intros p' Hr H. apply Hps; [done|]. by rewrite upd_at. }
  assert (forall o qm, side_rel (negb buy) (T (negb buy)) full qm o -> side_rel (negb buy) (upd T buy p t (negb buy)) full' qm o) as Hother.
  { intros o qm H. eapply side_rel_ext; [exact H| |intros F; apply (Hfull F)]. intros p' _. unfold upd. by destruct buy. }
  specialize (Hother _ _ (Hb (negb buy))). unfold push_level, update_bid, update_ask, set_qty_map. destruct b as [[bs as_] os bq aq].
  assert (side_rel buy (upd T buy p t buy) full' qm' s') as Hr' by (eapply side_rel_ext; [exact Hr|intros; apply upd_at|done]).
  destruct buy; cbn in Hs', Hother |- *; rewrite Hs'; cbn [mbind option_bind]; eexists; (split; [reflexivity|]); (split; [done|]); intros [|]; done.
Qed.

Lemma map_default T buy full b p : book_rel T full b -> raw_price p ->
  default double_zero (map_find (level_key p) (qty_map (side_byte buy) b)) = double_of_int (T buy p).
Proof. intros Hb Hp. by apply (Hb buy). Qed.

Lemma double_int_add a c : 0 <= a -> 0 <= c -> a + c <= 2 ^ 53 -> double_add (double_of_int a) (double_of_int c) = double_of_int (a + c).
Proof.
  intros Ha Hc Hs. destruct (int_value a ltac:(lia)) as [Fa Va]. destruct (int_value c ltac:(lia)) as [Fc Vc]. destruct (int_value (a + c) ltac:(lia)) as [Fs Vs].
  destruct (Z.eq_dec (a + c) 0) as [E|E]; [assert (a = 0 /\ c = 0) as [-> ->] by lia; done|].
  assert (0 < 2 ^ 1074) as HU by (by vm_compute). pose proof (add_value _ _ Fa Fc) as H. rewrite Va, Vc, <- Z.mul_add_distr_r, <- Vs in H.
  destruct (rnd_value _ Fs) as [Er Hl]. apply rounds_finite in H as [Hf Hv]; [|by rewrite Er]. rewrite Er in Hv. apply value_inj; [done..|rewrite Hv, Vs; nia].
Qed.

Lemma double_int_sub a c : 0 <= c < a -> a <= 2 ^ 53 -> double_sub (double_of_int a) (double_of_int c) = double_of_int (a - c).
Proof.
  intros Hc Hs. destruct (int_value a ltac:(lia)) as [Fa Va]. destruct (int_value c ltac:(lia)) as [Fc Vc]. destruct (int_value (a - c) ltac:(lia)) as [Fs Vs].
  assert (0 < 2 ^ 1074) as HU by (by vm_compute). pose proof (sub_value _ _ Fa Fc) as H. rewrite Va, Vc, <- Z.mul_sub_distr_r, <- Vs in H.
  destruct (rnd_value _ Fs) as [Er Hl]. apply rounds_finite in H as [Hf Hv]; [|by rewrite Er]. rewrite Er in Hv. apply value_inj; [done..|rewrite Hv, Vs; nia].
Qed.

(** Subtracting, and whether something is left. *)
Lemma double_int_left a c : 0 <= c <= a -> a <= 2 ^ 53 -> let x := double_sub (double_of_int a) (double_of_int c) in
  SFleb x double_zero = (a - c <=? 0) /\ (0 < a - c -> x = double_of_int (a - c)).
Proof.
  intros Hc Hs x. split; [|intros; by apply double_int_sub; [lia|]]. destruct (Z.eq_dec a c) as [->|Hn].
  - subst x. destruct (int_value c ltac:(lia)) as [Fc Vc]. pose proof (sub_value _ _ Fc Fc) as H. rewrite Z.sub_diag in *.
    apply rounds_finite in H as [Hf Hv]; [|by vm_compute]. rewrite leb_value by done. by rewrite Hv, rnd_0.
  - subst x. rewrite double_int_sub by lia. apply int_pos. lia.
Qed.

Lemma key_eqb p p' : raw_price p -> raw_price p' -> (value (level_key p') =? value (level_key p)) = (p' =? p).
Proof.
  intros Hp Hp'. destruct (Z.eqb_spec p' p) as [->|Hn]; [apply Z.eqb_refl|]. apply Z.eqb_neq. intros E. by apply Hn, key_inj.
Qed.

Lemma qmap_assigned T buy (full : Prop) b p t : book_rel T full b -> raw_price p -> let qm := insert_or_assign false (level_key p) (double_of_int t) (qty_map (side_byte buy) b) in
  qmap_ok qm /\ forall p', raw_price p' -> default double_zero (map_find (level_key p') qm) =
     if p' =? p then double_of_int t else default double_zero (map_find (level_key p') (qty_map (side_byte buy) b)).
Proof.
  intros Hb Hp qm. destruct (key_value p Hp) as [Hk _]. destruct (Hb buy) as [Hq _]. destruct (find_insert (level_key p) (double_of_int t) _ Hk Hq) as [H1 H2].
  split; [done|]. intros p' Hp'. destruct (key_value p' Hp') as [Hk' _]. subst qm. rewrite H2, key_eqb by done. by case_match.
Qed.

Lemma add_qty_ok T buy p c (full full' : Prop) b : book_rel T full b -> raw_price p -> 0 <= T buy p -> 0 <= c -> T buy p + c <= 2 ^ 53 ->
  (full' -> full /\ few (upd T buy p (T buy p + c) buy)) ->
  exists b', add_qty MaxLevels (scaled kItchPriceDivisor p) (double_of_int c) (side_byte buy) b = Some b' /\
    orders_ b' = orders_ b /\ book_rel (upd T buy p (T buy p + c)) full' b'.
Proof.
  intros Hb Hp Ht Hc Hs Hfull. unfold add_qty. fold (level_key p). rewrite (map_default T buy full), double_int_add by done.
  destruct (qmap_assigned T buy full b p (T buy p + c) Hb Hp) as [H1 H2]. eapply pushed; (done || lia).
Qed.

Lemma few_less (T T' : Z -> Z) : few T -> (forall p, T' p <= T p) -> few T'.
Proof. intros (ps & Hl & Hps) Hle. exists ps. split; [done|]. intros p Hr Hp. apply Hps; [done|]. specialize (Hle p). lia. Qed.

Lemma sub_qty_ok T buy p c (full : Prop) b : book_rel T full b -> raw_price p -> 0 <= c <= T buy p -> T buy p <= 2 ^ 53 ->
  (full -> few (T buy)) ->
  exists b', sub_qty MaxLevels (scaled kItchPriceDivisor p) (double_of_int c) (side_byte buy) b = Some b' /\
    orders_ b' = orders_ b /\ book_rel (upd T buy p (T buy p - c)) full b'.
Proof.
  intros Hb Hp Hc Hs Hfew. unfold sub_qty. fold (level_key p). pose proof (map_default T buy full b p Hb Hp) as Hd.
  assert (full -> full /\ few (upd T buy p (T buy p - c) buy)) as Hfull.
  { intros F. split; [done|]. eapply few_less; [by apply Hfew|]. intros p'. rewrite upd_at. unfold at_price. destruct (Z.eqb_spec p' p) as [->|]; lia. }
  destruct (key_value p Hp) as [Hk _]. destruct (Hb buy) as [Hq _].
  destruct (map_find (level_key p) (qty_map (side_byte buy) b)) as [q|] eqn:Ef; cbn [default from_option] in Hd; unfold id in Hd.
  - rewrite Hd. destruct (double_int_left (T buy p) c Hc Hs) as [-> Hleft]. destruct (Z.leb_spec (T buy p - c) 0) as [H0|H0].
    + change double_zero with (double_of_int 0). replace (T buy p - c) with 0 in * by lia. destruct (find_erase (level_key p) _ Hk Hq) as [H1 H2].
      eapply pushed; try done; try lia. intros p' Hp'. destruct (key_value p' Hp') as [Hk' _]. rewrite H2, key_eqb by done. by case_match.
    + rewrite Hleft by done. destruct (qmap_assigned T buy full b p (T buy p - c) Hb Hp) as [H1 H2]. eapply pushed; (done || lia).
  - assert (T buy p = 0) as E0.
    { destruct (Z.eq_dec (T buy p) 0) as [?|Hn]; [done|]. destruct (int_value (T buy p) ltac:(lia)) as [_ Hv]. rewrite <- Hd in Hv. cbn in Hv. lia. }
    assert (b = set_qty_map (side_byte buy) (qty_map (side_byte buy) b) b) as Eb by (by destruct b, buy).
    change double_zero with (double_of_int 0). replace (T buy p - c) with 0 in * by lia.
    destruct (pushed T buy p 0 full full (qty_map (side_byte buy) b) b) as (b' & Hb' & Hr); try done; try lia.
    + intros p' Hp'. destruct (Z.eqb_spec p' p) as [->|]; [|done]. by rewrite Ef.
    + rewrite <- Eb in Hb'. by exists b'.
Qed.

(** ** The builder and the live orders *)

Definition order_of (o : resting) : Order :=
  mkOrder (scaled kItchPriceDivisor (r_price o)) (double_of_int (r_shares o)) (side_byte (r_buy o)).

Definition builder_rel (m : gmap Z resting) (full : Prop) (b : ItchBookBuilder) : Prop :=
  resting_ok m /\ orders_ b = order_of <$> m /\ book_rel (total m) full b.

(** The sums are exact as doubles; all live prices fit into the book. *)
Definition sums_exact (m : gmap Z resting) : Prop := forall buy p, total m buy p <= 2 ^ 53.
Definition all_fit (m : gmap Z resting) : Prop := forall buy, few (total m buy).

Lemma book_rel_orders T full os b : book_rel T full b -> book_rel T full (set_orders os b).
Proof. intros H [|]; apply H. Qed.

Lemma builder_rel_mono m (full full' : Prop) b : builder_rel m full b -> (full' -> full) -> builder_rel m full' b.
Proof. intros (H1 & H2 & H3) F. split; [done|]. split; [done|]. by eapply book_rel_ext. Qed.

Lemma contrib_upd (T : bool -> Z -> Z) o c buy p :
  T buy p - (if eqb (r_buy o) buy && (r_price o =? p) then c else 0) = upd T (r_buy o) (r_price o) (T (r_buy o) (r_price o) - c) buy p.
Proof.
  unfold upd. rewrite (Z.eqb_sym p). replace (eqb buy (r_buy o)) with (eqb (r_buy o) buy) by (by destruct buy, (r_buy o)).
  destruct (eqb (r_buy o) buy) eqn:E; cbn [andb]; [|lia]. apply eqb_prop in E as <-. destruct (Z.eqb_spec (r_price o) p) as [<-|]; lia.
Qed.

Lemma order_lookup m (full : Prop) b r : builder_rel m full b -> orders_ b !! r = order_of <$> m !! r.
Proof. intros (_ & Ho & _). by rewrite Ho, lookup_fmap. Qed.

(** Taking [c] of an order's shares. *)
Lemma shares_taken m m' (full : Prop) b r o c : builder_rel m full b -> sums_exact m -> (full -> all_fit m) -> m !! r = Some o -> 0 <= c <= r_shares o ->
  resting_ok m' -> (forall buy p, total m' buy p = total m buy p - (if eqb (r_buy o) buy && (r_price o =? p) then c else 0)) ->
  exists b', sub_qty MaxLevels (scaled kItchPriceDivisor (r_price o)) (double_of_int c) (side_byte (r_buy o)) (set_orders (order_of <$> m') b) = Some b' /\ builder_rel m' full b'.
Proof.
  intros (Hm & Ho & Hb) Hex Hfit Hr Hc Hm' Ht. destruct (Hm r o Hr) as [Hp _]. pose proof (total_least m r o Hm Hr) as Hle.
  destruct (sub_qty_ok (total m) (r_buy o) (r_price o) c full (set_orders (order_of <$> m') b)) as (b' & -> & Ho' & Hb'); [by apply book_rel_orders|done|lia|apply Hex|intros F; by apply Hfit|].
  exists b'. split; [done|]. split; [done|]. split; [by rewrite Ho'|]. eapply book_rel_ext; [exact Hb'| |done]. intros buy p. by rewrite Ht, contrib_upd.
Qed.

Lemma order_removed m (full : Prop) b r o : builder_rel m full b -> sums_exact m -> (full -> all_fit m) -> m !! r = Some o ->
  exists b', sub_qty MaxLevels (o_price (order_of o)) (remaining_qty (order_of o)) (o_side (order_of o)) (set_orders (delete r (orders_ b)) b) = Some b' /\
    builder_rel (delete r m) full b'.
Proof.
  intros (Hm & Ho & Hb) Hex Hfit Hr. rewrite Ho, <- fmap_delete. cbn [order_of o_price remaining_qty o_side].
  eapply shares_taken; [by split_and!|done|done|done| | |].
  - destruct (Hm r o Hr). lia.
  - by apply map_Forall_delete.
  - intros buy p. rewrite (total_delete m r o) by done. unfold contrib. lia.
Qed.

Lemma removed_le m r buy p : resting_ok m -> total (delete r m) buy p <= total m buy p.
Proof.
  intros Hm. destruct (m !! r) as [o|] eqn:E; [|by rewrite delete_id]. rewrite (total_delete m r o) by done. destruct (Hm r o E). unfold contrib. case_match; lia.
Qed.

Lemma removed_exact m r : resting_ok m -> sums_exact m -> sums_exact (delete r m).
Proof. intros Hm H buy p. etransitivity; [by apply removed_le|apply H]. Qed.

Lemma removed_fit m r : resting_ok m -> all_fit m -> all_fit (delete r m).
Proof. intros Hm H buy. eapply few_less; [apply H|]. intros p. by apply removed_le. Qed.

Lemma evicted m (full : Prop) b r : builder_rel m full b -> sums_exact m -> (full -> all_fit m) ->
  exists b', evict_existing_ref MaxLevels r b = Some b' /\ builder_rel (delete r m) full b'.
Proof.
  intros Hb Hex Hfit. unfold evict_existing_ref. rewrite (order_lookup m full) by done. destruct (m !! r) as [o|] eqn:E; cbn [fmap option_fmap option_map].
  - by apply order_removed.
  - exists b. by rewrite delete_id.
Qed.

Lemma order_added m (full full' : Prop) b r o : builder_rel m full b -> m !! r = None -> raw_price (r_price o) -> 0 <= r_shares o < 2 ^ 32 ->
  sums_exact (<[r := o]> m) -> (full' -> full /\ all_fit (<[r := o]> m)) ->
  exists b', add_qty MaxLevels (scaled kItchPriceDivisor (r_price o)) (double_of_int (r_shares o)) (side_byte (r_buy o))
               (set_orders (<[r := order_of o]> (orders_ b)) b) = Some b' /\ builder_rel (<[r := o]> m) full' b'.
Proof.
  intros (Hm & Ho & Hb) Hr Hp Hs Hex Hfit. rewrite Ho, <- fmap_insert.
  assert (forall buy p, total (<[r := o]> m) buy p = upd (total m) (r_buy o) (r_price o) (total m (r_buy o) (r_price o) + r_shares o) buy p) as Ht.
  { intros buy p. rewrite total_insert by done. pose proof (contrib_upd (total m) o (- r_shares o) buy p) as E. rewrite Z.sub_opp_r in E. rewrite <- E. unfold contrib. case_match; lia. }
  destruct (add_qty_ok (total m) (r_buy o) (r_price o) (r_shares o) full full' (set_orders (order_of <$> <[r := o]> m) b)) as (b' & -> & Ho' & Hb');
    [by apply book_rel_orders|done|by apply total_nonneg|lia| | |].
  - specialize (Hex (r_buy o) (r_price o)). rewrite Ht, upd_at in Hex. unfold at_price in Hex. by rewrite Z.eqb_refl in Hex.
  - intros F. destruct (Hfit F) as [F1 F2]. split; [done|]. eapply few_less; [apply F2|]. intros p. by rewrite Ht.
  - exists b'. split; [done|]. split; [by apply map_Forall_insert_2|]. split; [by rewrite Ho'|]. by eapply book_rel_ext.
Qed.

(** ** Messages *)

Definition event_ok (e : event) : Prop :=
  match e with
  | EAdd _ o => raw_price (r_price o) /\ 0 <= r_shares o < 2 ^ 32
  | EReduce _ shares => 0 <= shares < 2 ^ 32
  | EReplace _ _ shares price => raw_price price /\ 0 <= shares < 2 ^ 32
  | _ => True
  end.

(** The handlers by what the message says. *)
Definition run_event (e : event) (b : ItchBookBuilder) : option (bool * ItchBookBuilder) :=
  match e with
  | EAdd ref o => add_new_order MaxLevels ref (side_byte (r_buy o)) (r_shares o) (scaled kItchPriceDivisor (r_price o)) b
  | EReduce ref shares => reduce_order MaxLevels ref shares b
  | EDelete ref =>
    match orders_ b !! ref with
    | None => Some (false, b)
    | Some o => b ← sub_qty MaxLevels (o_price o) (remaining_qty o) (o_side o) (set_orders (delete ref (orders_ b)) b); Some (true, b)
    end
  | EReplace orig new shares price =>
    match orders_ b !! orig with
    | None => Some (false, b)
    | Some o =>
      b ← sub_qty MaxLevels (o_price o) (remaining_qty o) (o_side o) (set_orders (delete orig (orders_ b)) b);
      b ← evict_existing_ref MaxLevels new b;
      let b := set_orders (<[new := mkOrder (scaled kItchPriceDivisor price) (double_of_int shares) (o_side o)]> (orders_ b)) b in
      b ← add_qty MaxLevels (scaled kItchPriceDivisor price) (double_of_int shares) (o_side o) b;
      Some (true, b)
    end
  | EIgnore => Some (false, b)
  end.

Lemma read_total k d off n : n <= zlen d -> 0 <= off -> off + Z.of_nat k <= n -> exists z, read_be k d off = Some z /\ 0 <= z < 256 ^ Z.of_nat k.
Proof.
  intros H1 H2 H3. rewrite read_be_spec by lia. eexists. split; [done|]. pose proof (be_val_bound (take k (drop (Z.to_nat off) d))) as H.
  rewrite length_take, length_drop in H. unfold zlen in *. replace (k `min` _)%nat with k in H by lia. done.
Qed.

Lemma add_event_run ref side shares price : raw_price price -> 0 <= shares < 2 ^ 32 -> event_ok (add_event ref side shares price) /\
  forall b, add_new_order MaxLevels ref side shares (scaled kItchPriceDivisor price) b = run_event (add_event ref side shares price) b.
Proof.
  intros Hp Hs. unfold add_event. destruct (Byte.eqb side "B") eqn:E1; [apply Byte.byte_dec_bl in E1 as ->; done|].
  destruct (Byte.eqb side "S") eqn:E2; [apply Byte.byte_dec_bl in E2 as ->; done|]. split; [done|]. intros b. unfold add_new_order. by rewrite E1, E2.
Qed.

(** A message type that was compared, and the fields that a whole message has. *)
#[local] Ltac at_type E := apply Byte.byte_dec_bl in E as ->.
#[local] Ltac reads Hsz := repeat match goal with
  | |- context [read_be ?k ?d ?off] => let z := fresh "z" in let E := fresh in let Hz := fresh "Hz" in
      destruct (read_total k d off _ Hsz) as (z & E & Hz); [lia|by vm_compute|]; rewrite !E; cbn [mbind option_bind fmap option_fmap option_map]; clear E
  | |- context [rd ?d ?off] => let z := fresh "z" in let E := fresh in
      destruct (rd_Some d off) as (z & E); [split; [lia|eapply Z.lt_le_trans; [|exact Hsz]; by vm_compute]|]; rewrite !E; cbn [mbind option_bind fmap option_fmap option_map]; clear E
  end.

(** What [process] does with a parsed message is told by its event. *)
Lemma process_event d v : parse d = Some (Ok v) -> exists e, event_of v = Some e /\ event_ok e /\ forall b, process MaxLevels v b = run_event e b.
Proof.
  rewrite parse_spec. destruct d as [|t d]; [done|]. remember (t :: d) as data eqn:Hd. clear Hd. destruct (negb (is_known_type t)); [done|].
  destruct (Z.ltb_spec (zlen data) (message_size t)) as [|Hsz]; [done|]. intros [= <-]. unfold event_of, process. cbn [msg_type view_data switch].
  unfold handle_add_order, handle_add_order_mpid, handle_order_executed, handle_order_executed_with_price, handle_order_cancel, handle_order_delete, handle_order_replace.
  destruct (Byte.eqb t kAddOrder) eqn:E1.
  { at_type E1. unfold add_order_order_ref, add_order_side, add_order_shares, add_order_price, add_order_price_raw. reads Hsz. eexists. split; [done|]. by apply add_event_run. }
  destruct (Byte.eqb t kAddOrderMPID) eqn:E2.
  { at_type E2. unfold add_order_mpid_order_ref, add_order_mpid_side, add_order_mpid_shares, add_order_mpid_price, add_order_mpid_price_raw. reads Hsz. eexists. split; [done|]. by apply add_event_run. }
  destruct (Byte.eqb t kOrderExecuted) eqn:E3.
  { at_type E3. unfold order_executed_order_ref, order_executed_executed_shares. reads Hsz. by eexists. }
  destruct (Byte.eqb t kOrderExecutedWithPrice) eqn:E4.
  { at_type E4. unfold order_executed_price_order_ref, order_executed_price_executed_shares. reads Hsz. by eexists. }
  destruct (Byte.eqb t kOrderCancel) eqn:E5.
  { at_type E5. unfold order_cancel_order_ref, order_cancel_cancelled_shares. reads Hsz. by eexists. }
  destruct (Byte.eqb t kOrderDelete) eqn:E6.
  { at_type E6. unfold order_delete_order_ref. reads Hsz. by eexists. }
  destruct (Byte.eqb t kOrderReplace) eqn:E7.
  { at_type E7. unfold order_replace_original_order_ref, order_replace_new_order_ref, order_replace_shares, order_replace_price, order_replace_price_raw. reads Hsz. by eexists. }
  by exists EIgnore.
Qed.

Lemma int_min a c : 0 <= a <= 2 ^ 53 -> 0 <= c <= 2 ^ 53 -> double_min (double_of_int a) (double_of_int c) = double_of_int (Z.min a c).
Proof.
  intros Ha Hc. unfold double_min. destruct (int_value a ltac:(lia)) as [Fa Va]. destruct (int_value c ltac:(lia)) as [Fc Vc]. rewrite ltb_value, Va, Vc by done.
  assert (0 < 2 ^ 1074) by (by vm_compute). destruct (Z.ltb_spec (c * 2 ^ 1074) (a * 2 ^ 1074)); f_equal; nia.
Qed.

Lemma insert_order_of m b full r o : builder_rel m full b -> <[r := order_of o]> (orders_ b) = order_of <$> <[r := o]> m.
Proof. intros (_ & -> & _). by rewrite fmap_insert. Qed.

Lemma delete_order_of m b full r : builder_rel m full b -> delete r (orders_ b) = order_of <$> delete r m.
Proof. intros (_ & -> & _). by rewrite fmap_delete. Qed.

Lemma reduced m (full : Prop) b r shares : builder_rel m full b -> sums_exact m -> (full -> all_fit m) -> 0 <= shares < 2 ^ 32 ->
  exists b', reduce_order MaxLevels r shares b = Some ((apply_event (EReduce r shares) m).1, b') /\ builder_rel (apply_event (EReduce r shares) m).2 full b'.
Proof.
  intros Hb Hex Hfit Hs. unfold reduce_order. rewrite (order_lookup m full) by done. cbn [apply_event]. destruct (m !! r) as [o|] eqn:E; cbn [fmap option_fmap option_map]; [|by exists b].
  pose proof Hb as (Hm & _ & _). destruct (Hm r o E) as [Hp Ho]. cbn [order_of remaining_qty o_price o_side fst snd]. rewrite int_min by lia.
  set (c := Z.min shares (r_shares o)). destruct (double_int_left (r_shares o) c ltac:(lia) ltac:(lia)) as [-> Hleft].
  rewrite (delete_order_of m b full) by done. destruct (Z.leb_spec (r_shares o - c) 0) as [H0|H0].
  - destruct (shares_taken m (delete r m) full b r o c) as (b' & -> & Hb'); [done..|lia|by apply map_Forall_delete| |by exists b'].
    intros buy p. rewrite (total_delete m r o) by done. unfold contrib. replace c with (r_shares o) by lia. lia.
  - rewrite Hleft by done. change (mkOrder (scaled kItchPriceDivisor (r_price o)) (double_of_int (r_shares o - c)) (side_byte (r_buy o))) with (order_of (mkResting (r_buy o) (r_price o) (r_shares o - c))).
    rewrite (insert_order_of m b full) by done. destruct (shares_taken m (<[r := mkResting (r_buy o) (r_price o) (r_shares o - c)]> m) full b r o c) as (b' & -> & Hb'); [done..|lia| | |by exists b'].
    + apply map_Forall_insert_2; [cbn; split; [done|lia]|done].
    + intros buy p. rewrite (total_change m r o) by done. unfold contrib. cbn [r_buy r_price r_shares]. case_match; lia.
Qed.

(** One event on the builder is that event on the live orders. *)
Lemma event_step m (full full' : Prop) b e : builder_rel m full b -> event_ok e -> sums_exact m -> sums_exact (apply_event e m).2 ->
  (full -> all_fit m) -> (full' -> full /\ all_fit (apply_event e m).2) ->
  exists b', run_event e b = Some ((apply_event e m).1, b') /\ builder_rel (apply_event e m).2 full' b'.
Proof.
  intros Hb He Hex Hex' Hfit Hfit'. assert (full' -> full) as Hff by (intros F; apply (Hfit' F)). pose proof Hb as (Hm & _ & _).
  destruct e as [r o|r shares|r|orig new shares p|]; cbn [run_event].
  - cbn [apply_event fst snd] in *. unfold add_new_order.
    replace (negb (Byte.eqb (side_byte (r_buy o)) "B") && negb (Byte.eqb (side_byte (r_buy o)) "S")) with false by (by destruct (r_buy o)).
    destruct (evicted m full b r) as (b1 & -> & Hb1); [done..|]. cbn [mbind option_bind].
    destruct (order_added (delete r m) full full' b1 r o) as (b2 & E2 & Hb2); [done|apply lookup_delete_eq|apply He|apply He|by rewrite insert_delete_eq|by rewrite insert_delete_eq|].
    unfold order_of in E2. rewrite E2. exists b2. by rewrite insert_delete_eq in Hb2.
  - destruct (reduced m full b r shares) as (b' & -> & Hb'); [done..|]. exists b'. split; [done|]. by eapply builder_rel_mono.
  - rewrite (order_lookup m full) by done. cbn [apply_event] in *. destruct (m !! r) as [o|] eqn:E; cbn [fmap option_fmap option_map].
    + destruct (order_removed m full b r o) as (b' & -> & Hb'); [done..|]. exists b'. split; [done|]. by eapply builder_rel_mono.
    + exists b. split; [done|]. by eapply builder_rel_mono.
  - rewrite (order_lookup m full) by done. cbn [apply_event] in *. destruct (m !! orig) as [o|] eqn:E; cbn [fmap option_fmap option_map fst snd] in *;
      [|exists b; split; [done|by eapply builder_rel_mono]].
    destruct (order_removed m full b orig o) as (b1 & -> & Hb1); [done..|]. cbn [mbind option_bind].
    destruct (evicted (delete orig m) full b1 new) as (b2 & -> & Hb2); [done|by apply removed_exact|intros F; apply removed_fit; [done|by apply Hfit]|]. cbn [mbind option_bind].
    destruct (order_added (delete new (delete orig m)) full full' b2 new (mkResting (r_buy o) p shares)) as (b3 & E3 & Hb3);
      [done|apply lookup_delete_eq|apply He|apply He|by rewrite insert_delete_eq|by rewrite insert_delete_eq|].
    unfold order_of in E3. cbn [r_buy r_price r_shares] in E3. cbn [order_of o_side]. rewrite E3. exists b3. by rewrite insert_delete_eq in Hb3.
  - exists b. split; [done|]. by eapply builder_rel_mono.
Qed.

(** ** Feeds *)

Inductive feed_op := Message (v : MessageView) | Reset.

Definition feed_step (o : feed_op) (b : ItchBookBuilder) : option (list bool * ItchBookBuilder) :=
  match o with
  | Message v => '(r, b) ← process MaxLevels v b; Some ([r], b)
  | Reset => Some ([], builder_clear b)
  end.

(** The operations one after the other, with what [process] returned. *)
Definition feed_run (ops : list feed_op) : option (list bool * ItchBookBuilder) :=
  foldl (fun acc o => '(rs, b) ← acc; '(r, b) ← feed_step o b; Some (rs ++ r, b)) (Some ([], builder_init MaxLevels)) ops.

Definition resting_step (o : feed_op) (m : gmap Z resting) : list bool * gmap Z resting :=
  match o with
  | Message v => match event_of v with Some e => ([(apply_event e m).1], (apply_event e m).2) | None => ([], m) end
  | Reset => ([], ∅)
  end.

Definition resting_run (ops : list feed_op) : list bool * gmap Z resting :=
  foldl (fun acc o => (acc.1 ++ (resting_step o acc.2).1, (resting_step o acc.2).2)) ([], ∅) ops.

Definition parsed_op (o : feed_op) : Prop := match o with Message v => exists d, parse d = Some (Ok v) | Reset => True end.

Lemma empty_rel full book : length (levels_ (bids_ book)) = MaxLevels -> length (levels_ (asks_ book)) = MaxLevels ->
  builder_rel ∅ full (mkBuilder (Book.clear book) ∅ [] []).
Proof.
  intros H1 H2. split; [apply map_Forall_empty|]. split; [by rewrite fmap_empty|]. intros buy.
  assert (side_inv MaxLevels buy all_keys ∅ full (side_of buy (Book.clear book))) as Hi by (destruct buy; by apply cleared_inv).
  assert (qty_map (side_byte buy) (mkBuilder (Book.clear book) ∅ [] []) = []) as -> by (by destruct buy). cbn [ib_book].
  split; [split; constructor|]. split; [done|]. exists ∅. split; [done|]. intros v q. rewrite lookup_empty.
  split; [done|]. intros (p & _ & _ & Hp & _). unfold total in Hp. rewrite map_fold_empty in Hp. lia.
Qed.

Lemma rel_lengths m full b : builder_rel m full b -> length (levels_ (bids_ (ib_book b))) = MaxLevels /\ length (levels_ (asks_ (ib_book b))) = MaxLevels.
Proof.
  intros (_ & _ & Hb). destruct (Hb true) as (_ & _ & ? & (? & (H1 & _) & _) & _). destruct (Hb false) as (_ & _ & ? & (? & (H2 & _) & _) & _). done.
Qed.

Lemma feed_run_snoc ops o : feed_run (ops ++ [o]) = ('(rs, b) ← feed_run ops; '(r, b) ← feed_step o b; Some (rs ++ r, b)).
Proof. unfold feed_run. by rewrite foldl_app. Qed.

Lemma resting_run_snoc ops o : resting_run (ops ++ [o]) =
  ((resting_run ops).1 ++ (resting_step o (resting_run ops).2).1, (resting_step o (resting_run ops).2).2).
Proof. unfold resting_run. by rewrite foldl_app. Qed.

(** What holds after every prefix. *)
Lemma prefixes_snoc (P : gmap Z resting -> Prop) ops o : (forall k, P (resting_run (take k (ops ++ [o]))).2) ->
  (forall k, P (resting_run (take k ops)).2) /\ P (resting_run ops).2 /\ P (resting_run (ops ++ [o])).2.
Proof.
  intros H. split_and!.
  - intros k. specialize (H (k `min` length ops)%nat). by rewrite take_app_le, <- take_take, firstn_all in H by lia.
  - specialize (H (length ops)). by rewrite take_app_length in H.
  - specialize (H (length (ops ++ [o]))). by rewrite firstn_all in H.
Qed.

Lemma feed_inv ops : Forall parsed_op ops -> (forall k, sums_exact (resting_run (take k ops)).2) ->
  exists b, feed_run ops = Some ((resting_run ops).1, b) /\
    builder_rel (resting_run ops).2 (forall k, all_fit (resting_run (take k ops)).2) b.
Proof.
  induction ops as [|o ops IH] using rev_ind; intros Hp Hex.
  { eexists. split; [reflexivity|]. apply (empty_rel _ (array_book_init MaxLevels)); apply repeat_length. }
  apply list.Forall_app in Hp as [Hp Ho]. apply list.Forall_cons in Ho as [Ho _]. apply prefixes_snoc in Hex as (Hex & Hex1 & Hex2).
  destruct (IH Hp Hex) as (b & Hrun & Hb). rewrite feed_run_snoc, Hrun. cbn [mbind option_bind]. rewrite resting_run_snoc in *.
  set (full := forall k, all_fit (resting_run (take k ops)).2) in *.
  assert ((forall k, all_fit (resting_run (take k (ops ++ [o]))).2) -> full /\ all_fit (resting_step o (resting_run ops).2).2) as Hff.
  { intros F. apply prefixes_snoc in F as (F1 & _ & F2). rewrite resting_run_snoc in F2. by split. }
  assert (full -> all_fit (resting_run ops).2) as Hfit by (intros F; specialize (F (length ops)); by rewrite firstn_all in F).
  destruct o as [v|]; cbn [feed_step resting_step fst snd] in *.
  - destruct Ho as [d Hd]. destruct (process_event d v Hd) as (e & Ee & He & ->). rewrite Ee in *. cbn [fst snd] in *.
    destruct (event_step _ full _ b e Hb He Hex1 Hex2 Hfit Hff) as (b' & -> & Hb'). by exists b'.
  - exists (builder_clear b). split; [done|]. destruct (rel_lengths _ _ _ Hb). by apply empty_rel.
Qed.

(** The level of a price: its key, and the sum of its orders. *)
Definition shown (m : gmap Z resting) (buy : bool) (p : Z) : PriceLevel := mkLevel (level_key p) (double_of_int (total m buy p)).

Lemma side_rel_shown m buy (full : Prop) qm s : resting_ok m -> side_rel buy (total m buy) full qm s -> exists ps,
  active s = map (shown m buy) ps /\ StronglySorted (better buy) ps /\ (length ps <= MaxLevels)%nat /\ Forall (fun p => 0 < total m buy p) ps /\
  (full -> forall p, 0 < total m buy p -> p ∈ ps).
Proof.
  intros Hm (_ & _ & live & Hi & Hl). destruct Hi as (L & (Hlen & Hc & junk & El) & [Hs Hb Hlv] & Hps & Hf).
  assert (active s = L) as -> by (unfold active; by rewrite Hc, El, take_app_length).
  assert (Forall (fun l => exists p, raw_price p /\ 0 < total m buy p /\ l = shown m buy p) L) as HL.
  { rewrite list.Forall_forall in *. intros l Hin. destruct (Hlv l Hin) as (_ & _ & _ & Hq). apply Hl in Hq as (p & Hr & Hv & Hpos & Hq). exists p. split_and!; try done.
    pose proof (Hps l Hin) as (p' & Hr' & Hk)%in_all_keys. assert (p' = p) as -> by (apply key_inj; [done..|]; by rewrite <- Hk). destruct l; cbn in *. unfold shown. by f_equal. }
  assert (exists ps, L = map (shown m buy) ps /\ Forall (fun p => raw_price p /\ 0 < total m buy p) ps) as (ps & -> & Hps').
  { clear -HL. induction HL as [|l L (p & Hr & Hp & ->) _ (ps & -> & IH)]; [by exists []|]. exists (p :: ps). split; [done|by constructor]. }
  exists ps. rewrite length_map in Hb. split_and!; try done.
  - clear -Hs Hps'. induction ps as [|p ps IH]; [constructor|]. cbn [map] in Hs. apply StronglySorted_inv in Hs as [Hs Ha]. apply list.Forall_cons in Hps' as [[Hp _] Hps'].
    constructor; [by apply IH|]. rewrite map_map in Ha. rewrite Forall_map in Ha. rewrite list.Forall_forall in *. intros x Hx. apply key_better; [done|by apply Hps'|]. by apply Ha.
  - eapply list.Forall_impl; [exact Hps'|]. by intros p [_ ?].
  - intros F p Hp. pose proof (total_raw m buy p Hm Hp) as Hr. specialize (Hf F (value (level_key p)) (double_of_int (total m buy p)) (proj2 (Hl _ _) (ex_intro _ p (conj Hr (conj eq_refl (conj Hp eq_refl)))))).
    rewrite map_map in Hf. apply list_elem_of_fmap in Hf as (p' & E & Hin). rewrite list.Forall_forall in Hps'. destruct (Hps' p' Hin) as [Hr' _].
    assert (p = p') as -> by (by apply key_inj). done.
Qed.
End aggregates.

(** A feed of at most 2^21 messages keeps the sums exact. *)
Lemma total_size m buy p : resting_ok m -> total m buy p <= 2 ^ 32 * Z.of_nat (size m).
Proof.
  intros Hm. unfold total. induction m as [|r o m Hr IH] using map_ind; [by rewrite map_fold_empty|].
  rewrite map_fold_insert_L by (done || (intros; lia)). apply map_Forall_insert in Hm as [[_ Ho] Hm]; [|done]. specialize (IH Hm).
  rewrite map_size_insert_None by done. assert (contrib o buy p <= 2 ^ 32) by (unfold contrib; case_match; lia). lia.
Qed.

Lemma apply_event_size e m : event_ok e -> resting_ok m -> resting_ok (apply_event e m).2 /\ (size (apply_event e m).2 <= S (size m))%nat.
Proof.
  intros He Hm. assert (forall r o (m' : gmap Z resting), size (<[r := o]> m') <= S (size m'))%nat as Hi by (intros r o m'; rewrite map_size_insert; case_match; cbn; lia).
  assert (forall r (m' : gmap Z resting), size (delete r m') <= size m')%nat as Hd by (intros r m'; rewrite map_size_delete; case_match; cbn; lia).
  destruct e as [r o|r shares|r|orig new shares p|]; cbn [apply_event snd].
  - split; [by apply map_Forall_insert_2|apply Hi].
  - destruct (m !! r) as [o|] eqn:E; cbn [snd]; [|split; [done|lia]]. destruct (Hm r o E) as [Hp Ho]. cbn in He. case_match; [split; [by apply map_Forall_delete|specialize (Hd r m); lia]|].
    split; [apply map_Forall_insert_2; [cbn; split; [done|lia]|done]|apply Hi].
  - destruct (m !! r); cbn [snd]; (split; [by try apply map_Forall_delete|specialize (Hd r m); lia]).
  - destruct (m !! orig) as [o|] eqn:E; cbn [snd]; [|split; [done|lia]]. split; [apply map_Forall_insert_2; [done|by apply map_Forall_delete]|].
    specialize (Hi new (mkResting (r_buy o) p shares) (delete orig m)). specialize (Hd orig m). lia.
  - split; [done|lia].
Qed.

Lemma resting_run_size ops : Forall parsed_op ops -> resting_ok (resting_run ops).2 /\ (size (resting_run ops).2 <= length ops)%nat.
Proof.
  induction ops as [|o ops IH] using rev_ind; intros Hp; [split; [apply map_Forall_empty|done]|]. apply list.Forall_app in Hp as [Hp Ho].
  apply list.Forall_cons in Ho as [Ho _]. destruct (IH Hp) as [IH1 IH2]. rewrite resting_run_snoc, length_app. destruct o as [v|]; cbn [resting_step fst snd length].
  - destruct Ho as [d Hd]. destruct (process_event 1 d v Hd) as (e & -> & He & _). cbn [snd]. destruct (apply_event_size e _ He IH1). split; [done|lia].
  - split; [apply map_Forall_empty|]. rewrite map_size_empty. lia.
Qed.

Lemma short_feed_exact ops : Forall parsed_op ops -> Z.of_nat (length ops) <= 2 ^ 21 -> forall k, sums_exact (resting_run (take k ops)).2.
Proof.
  intros Hp Hl k buy p. destruct (resting_run_size (take k ops)) as [Hm Hs]; [by apply Forall_take|]. pose proof (total_size _ buy p Hm).
  rewrite length_take in Hs. lia.
Qed.

(** C14: The book of an ITCH feed.  For any sequence of parsed messages and resets in which no
    price ever has more than 2^53 shares, every message is processed without leaving an array,
    [process] returns whether the message applied, and the order map is exactly the live
    orders: those added or brought in by a replace, less what was executed, cancelled, deleted
    or replaced away, an order re-added under a live reference taking its place.  Each side of
    the book shows, best first and at most [MaxLevels] of them, prices at which live orders
    have shares, each with the sum of the shares of the live orders there; and all of these
    prices as long as there were never more than [MaxLevels] of them. *)
Theorem itch_book_aggregates MaxLevels ops : Forall parsed_op ops -> (forall k, sums_exact (resting_run (take k ops)).2) ->
  let m := (resting_run ops).2 in
  exists b, feed_run MaxLevels ops = Some ((resting_run ops).1, b) /\ orders_ b = order_of <$> m /\
    forall buy, exists ps, active (side_of buy (ib_book b)) = map (shown m buy) ps /\ StronglySorted (better buy) ps /\ (length ps <= MaxLevels)%nat /\
      Forall (fun p => 0 < total m buy p) ps /\
      ((forall k, all_fit MaxLevels (resting_run (take k ops)).2) -> forall p, 0 < total m buy p -> p ∈ ps).
Proof.
  intros Hp Hex m. destruct (feed_inv MaxLevels ops Hp Hex) as (b & Hrun & Hm & Ho & Hb). exists b. split; [done|]. split; [done|].
  intros buy. by eapply side_rel_shown.
Qed.

(** A bid of 100 shares at 10.0000, an offer of 50 at 10.0100, and 30 of the bid executed. *)
Definition add_view (side : byte) (ref shares price : Z) : MessageView :=
  mkView kAddOrder (encode_message kAddOrder 0 0 0 [FNum 8 ref; FChr side; FNum 4 shares; FTxt (be_bytes 8 0); FNum 4 price]) 36.
Definition delete_view (ref : Z) : MessageView := mkView kOrderDelete (encode_message kOrderDelete 0 0 0 [FNum 8 ref]) 19.
Definition executed_view (ref shares : Z) : MessageView :=
  mkView kOrderExecuted (encode_message kOrderExecuted 0 0 0 [FNum 8 ref; FNum 4 shares; FNum 8 1]) 31.

Lemma parsed_view v : parse (view_data v) = Some (Ok v) -> parsed_op (Message v).
Proof. intros H. by exists (view_data v). Qed.

Lemma itch_book_aggregates_witness :
  let ops := [Message (add_view "B"%byte 1 100 100000); Message (add_view "S"%byte 2 50 100100); Message (executed_view 1 30)] in
  let m := (resting_run ops).2 in
  exists b, feed_run 20 ops = Some ((resting_run ops).1, b) /\ orders_ b = order_of <$> m /\
    forall buy, exists ps, active (side_of buy (ib_book b)) = map (shown m buy) ps /\ StronglySorted (better buy) ps /\ (length ps <= 20)%nat /\
      Forall (fun p => 0 < total m buy p) ps /\
      ((forall k, all_fit 20 (resting_run (take k ops)).2) -> forall p, 0 < total m buy p -> p ∈ ps).
Proof.
  intros ops m. assert (Forall parsed_op ops) as Hp
    by (constructor; [|constructor; [|constructor; [|constructor]]]; apply parsed_view; by vm_compute).
  apply (itch_book_aggregates 20 ops Hp). apply short_feed_exact; [exact Hp|]. by vm_compute.
Defined.

(** The sums of that feed, and its book. *)
Example itch_book_example :
  let ops := [Message (add_view "B"%byte 1 100 100000); Message (add_view "S"%byte 2 50 100100); Message (executed_view 1 30)] in
  (fun r => (r.1, active (bids_ (ib_book r.2)), active (asks_ (ib_book r.2)))) <$> feed_run 20 ops =
  Some ([true; true; true], [mkLevel (double_of_int 10) (double_of_int 70)], [mkLevel (level_key 100100) (double_of_int 50)]).
Proof. by vm_compute. Qed.

(** A level that a better one pushed out of a full book does not come back when the better one
    is deleted: its order is live, the book is empty. *)
Lemma itch_level_lost :
  let ops := [Message (add_view "B"%byte 1 100 100000); Message (add_view "B"%byte 2 50 110000); Message (delete_view 2)] in
  total (resting_run ops).2 true 100000 = 100 /\
  (fun r => (order_count r.2, active (bids_ (ib_book r.2)))) <$> feed_run 1 ops = Some (1%nat, []).
Proof. by vm_compute. Qed.

(** The key of an ITCH price is not always the price: 0.0003 becomes the next double. *)
Lemma itch_key_differs : SFeqb (level_key 3) (scaled kItchPriceDivisor 3) = false /\
  value (level_key 3) - value (scaled kItchPriceDivisor 3) = 2 ^ 1010.
Proof. by vm_compute. Qed.
