(* ===== verification/Histogram.v ===== *)
(** * Latency histogram

    hdr_histogram.hpp of eph-utils: [HdrHistogram], its bucket arithmetic, recording, queries,
    merging and subtracting.

    [histogram_counts]: every sample of the trackable range is counted in the bucket of its
    value, which is known to the configured precision.  [histogram_percentile]: a percentile is
    the sample of that rank to this precision.  [histogram_merge_subtract]: merging adds the
    samples of both, subtracting takes them back. *)

From stdpp Require Import sorting.
From S2P Require Import Prelude Double.

#[local] Open Scope Z_scope.

Definition INT64_MAX : Z := 2 ^ 63 - 1.

(** The signed value of a 64-bit word. *)
Definition to_int64 (z : Z) : Z := let w := wrap 64 z in if w <=? INT64_MAX then w else w - 2 ^ 64.

(** [std::bit_width]. *)
Definition bit_width (z : Z) : Z := if z <=? 0 then 0 else Z.log2 z + 1.

Record HdrHistogram := mkHist {
  lowest_trackable_value_ : Z;
  highest_trackable_value_ : Z;
  unit_magnitude_ : Z;
  sub_bucket_count_magnitude_ : Z;
  sub_bucket_half_count_magnitude_ : Z;
  sub_bucket_count_ : Z;
  sub_bucket_half_count_ : Z;
  sub_bucket_mask_ : Z;
  bucket_count_ : Z;
  counts_len_ : Z;
  counts_ : list Z;
  total_count_ : Z;
  min_value_ : Z;
  max_value_ : Z;
  dropped_count_ : Z
}.

Definition kMaxCountsLen : Z := 10000000.

(** The default constructor. *)
Definition hist_default : HdrHistogram := mkHist 1 2 0 0 0 0 0 0 0 0 [] 0 UINT64_MAX 0 0.

(** ** Size *)

Fixpoint buckets_loop (fuel : nat) (smallest_untrackable_value buckets_needed value : Z) : option Z :=
  match fuel with
  | O => None
  | S fuel =>
    if smallest_untrackable_value <=? value then
      if INT64_MAX / 2 <? smallest_untrackable_value then Some (buckets_needed + 1)
      else buckets_loop fuel (to_int64 (Z.shiftl smallest_untrackable_value 1)) (buckets_needed + 1) value
    else Some buckets_needed
  end.

(** A doubling number passes every 64-bit value within 64 steps. *)
Definition get_buckets_needed_to_cover_value (sub_bucket_count unit_magnitude value : Z) : option Z :=
  buckets_loop 65 (to_int64 (Z.shiftl sub_bucket_count unit_magnitude)) 1 (to_int64 value).

Inductive hist_error : Set := kLowestTooSmall | kBadSignificantFigures | kHighestTooSmall | kTooLarge.

Section construct.
(** [floor(log2(x))] as the math library computes it. *)
Context (floor_log2 : Z -> Z).

(** [None] when the size computation does not end.  [ceil(log2(2 * pow(10, sf)))], over the five
    admissible values of [sf], is the exact [Z.log2_up]: the logarithms are far from whole numbers. *)
Definition hist_create (lowest highest significant_figures : Z) : option (expected HdrHistogram hist_error) :=
  if lowest <? 1 then Some (Err kLowestTooSmall) else
  if (significant_figures <? 1) || (5 <? significant_figures) then Some (Err kBadSignificantFigures) else
  if highest <? u64 (2 * lowest) then Some (Err kHighestTooSmall) else
  let magnitude := Z.log2_up (2 * 10 ^ significant_figures) in
  let half_magnitude := magnitude - 1 in
  let unit := floor_log2 lowest in
  let count := u64 (Z.shiftl 1 magnitude) in
  let half := Z.shiftr count 1 in
  let mask := u64 (Z.shiftl (count - 1) unit) in
  buckets ← get_buckets_needed_to_cover_value count unit highest;
  let product := (buckets + 1) * (count / 2) in
  if kMaxCountsLen <? product then Some (Err kTooLarge) else
  Some (Ok (mkHist lowest highest unit magnitude half_magnitude count half mask buckets product
              (replicate (Z.to_nat product) 0) 0 UINT64_MAX 0 0)).
End construct.

(** ** Buckets

    The indices are [int32_t] in the code; in a histogram that [hist_create] accepts they stay
    below [kMaxCountsLen], so the casts do not change them. *)

Definition get_bucket_index (h : HdrHistogram) (value : Z) : Z :=
  bit_width (Z.lor value (sub_bucket_mask_ h)) - unit_magnitude_ h - (sub_bucket_half_count_magnitude_ h + 1).

Definition get_sub_bucket_idx (h : HdrHistogram) (value bucket_idx : Z) : Z := Z.shiftr value (bucket_idx + unit_magnitude_ h).

Definition counts_index (h : HdrHistogram) (bucket_idx sub_bucket_idx : Z) : Z :=
  Z.shiftl (bucket_idx + 1) (sub_bucket_half_count_magnitude_ h) + (sub_bucket_idx - sub_bucket_half_count_ h).

Definition counts_index_for (h : HdrHistogram) (value : Z) : Z :=
  let bucket_idx := get_bucket_index h value in counts_index h bucket_idx (get_sub_bucket_idx h value bucket_idx).

Definition value_from_index (h : HdrHistogram) (index : Z) : Z :=
  let bucket_idx := Z.shiftr index (sub_bucket_half_count_magnitude_ h) - 1 in
  let sub_bucket_idx := Z.land index (sub_bucket_half_count_ h - 1) + sub_bucket_half_count_ h in
  if bucket_idx <? 0
  then u64 (Z.shiftl (sub_bucket_idx - sub_bucket_half_count_ h) (0 + unit_magnitude_ h))
  else u64 (Z.shiftl sub_bucket_idx (bucket_idx + unit_magnitude_ h)).

Definition lowest_equivalent_value (h : HdrHistogram) (value : Z) : Z :=
  let bucket_idx := get_bucket_index h value in
  u64 (Z.shiftl (get_sub_bucket_idx h value bucket_idx) (bucket_idx + unit_magnitude_ h)).

Definition size_of_equivalent_value_range (h : HdrHistogram) (value : Z) : Z :=
  u64 (Z.shiftl 1 (unit_magnitude_ h + get_bucket_index h value)).

Definition next_non_equivalent_value (h : HdrHistogram) (value : Z) : Z :=
  u64 (lowest_equivalent_value h value + size_of_equivalent_value_range h value).

(** ** Recording *)

Definition set_dropped (d : Z) (h : HdrHistogram) : HdrHistogram :=
  mkHist (lowest_trackable_value_ h) (highest_trackable_value_ h) (unit_magnitude_ h) (sub_bucket_count_magnitude_ h)
    (sub_bucket_half_count_magnitude_ h) (sub_bucket_count_ h) (sub_bucket_half_count_ h) (sub_bucket_mask_ h)
    (bucket_count_ h) (counts_len_ h) (counts_ h) (total_count_ h) (min_value_ h) (max_value_ h) d.

Definition set_samples (counts : list Z) (total mn mx : Z) (h : HdrHistogram) : HdrHistogram :=
  mkHist (lowest_trackable_value_ h) (highest_trackable_value_ h) (unit_magnitude_ h) (sub_bucket_count_magnitude_ h)
    (sub_bucket_half_count_magnitude_ h) (sub_bucket_count_ h) (sub_bucket_half_count_ h) (sub_bucket_mask_ h)
    (bucket_count_ h) (counts_len_ h) counts total mn mx (dropped_count_ h).

Definition drop_samples (count : Z) (h : HdrHistogram) : HdrHistogram := set_dropped (u64 (dropped_count_ h + count)) h.

Definition record_values (value count : Z) (h : HdrHistogram) : option (bool * HdrHistogram) :=
  if count =? 0 then Some (true, h) else
  if counts_len_ h =? 0 then Some (false, drop_samples count h) else
  if (value <? lowest_trackable_value_ h) || (highest_trackable_value_ h <? value) then Some (false, drop_samples count h) else
  let idx := counts_index_for h value in
  if (idx <? 0) || (counts_len_ h <=? idx) then Some (false, drop_samples count h) else
  c ← counts_ h !! Z.to_nat idx;
  Some (true, set_samples (<[Z.to_nat idx := u64 (c + count)]> (counts_ h)) (u64 (total_count_ h + count))
                (Z.min (min_value_ h) value) (Z.max (max_value_ h) value) h).

Definition record (value : Z) (h : HdrHistogram) : option (bool * HdrHistogram) :=
  if counts_len_ h =? 0 then Some (false, drop_samples 1 h) else
  if (value <? lowest_trackable_value_ h) || (highest_trackable_value_ h <? value) then Some (false, drop_samples 1 h) else
  let idx := counts_index_for h value in
  if (idx <? 0) || (counts_len_ h <=? idx) then Some (false, drop_samples 1 h) else
  c ← counts_ h !! Z.to_nat idx;
  Some (true, set_samples (<[Z.to_nat idx := u64 (c + 1)]> (counts_ h)) (u64 (total_count_ h + 1))
                (Z.min (min_value_ h) value) (Z.max (max_value_ h) value) h).

(** The integer part of a double that is not negative. *)
Definition truncate (d : double) : Z :=
  match d with
  | S754_finite false m e => if 0 <=? e then Zpos m * 2 ^ e else Zpos m / 2 ^ (- e)
  | _ => 0
  end.

Definition record_double (value : double) (h : HdrHistogram) : option (bool * HdrHistogram) :=
  if negb (SFleb double_zero value) || negb (isfinite value) then Some (false, drop_samples 1 h) else
  if SFleb (double_of_int UINT64_MAX) value then Some (false, drop_samples 1 h) else
  record (truncate value) h.

(** The loop of [record_corrected]; at most [missing / expected_interval] rounds. *)
Fixpoint fill_loop (fuel : nat) (missing expected_interval : Z) (h : HdrHistogram) : option HdrHistogram :=
  match fuel with
  | O => None
  | S fuel =>
    if expected_interval <=? missing then
      if missing <? lowest_trackable_value_ h then Some h else
      '(_, h) ← record missing h; fill_loop fuel (missing - expected_interval) expected_interval h
    else Some h
  end.

Definition record_corrected (value expected_interval : Z) (h : HdrHistogram) : option (bool * HdrHistogram) :=
  '(ok, h) ← record value h;
  if negb ok then Some (false, h) else
  if (expected_interval =? 0) || (value <=? expected_interval) then Some (true, h) else
  h ← fill_loop (Z.to_nat (value / expected_interval)) (value - expected_interval) expected_interval h;
  Some (true, h).

Definition hist_reset (h : HdrHistogram) : HdrHistogram :=
  set_dropped 0 (set_samples (replicate (length (counts_ h)) 0) 0 UINT64_MAX 0 h).

(** ** Queries *)

Definition midpoint (h : HdrHistogram) (i : Z) : Z :=
  let low := value_from_index h i in
  let high := next_non_equivalent_value h low in
  u64 (low + u64 (high - low) / 2).

(** The first bucket at which the accumulated count reaches the rank. *)
Fixpoint percentile_scan (h : HdrHistogram) (counts : list Z) (i accumulated rank : Z) : Z :=
  match counts with
  | [] => max_value_ h
  | count :: counts =>
    if count =? 0 then percentile_scan h counts (i + 1) accumulated rank else
    let accumulated := u64 (accumulated + count) in
    if rank <=? accumulated then midpoint h i else percentile_scan h counts (i + 1) accumulated rank
  end.

(** [static_cast<uint64_t>(std::ceil(d))]; [None] when it is out of range. *)
Definition ceil_u64 (d : double) : option Z :=
  match d with
  | S754_zero _ => Some 0
  | S754_finite false m e =>
    let n := if 0 <=? e then Zpos m * 2 ^ e else (Zpos m + 2 ^ (- e) - 1) / 2 ^ (- e) in
    if n <? 2 ^ 64 then Some n else None
  | _ => None
  end.

Definition percentile_rank (percentile : double) (total : Z) : option Z :=
  ceil_u64 (double_mul (double_div percentile (double_of_int 100)) (double_of_int total)).

Definition get_value_at_percentile (percentile : double) (h : HdrHistogram) : option Z :=
  if negb (SFleb double_zero percentile && SFleb percentile (double_of_int 100)) || (total_count_ h =? 0) then Some 0 else
  rank ← percentile_rank percentile (total_count_ h);
  Some (percentile_scan h (counts_ h) 0 0 rank).

Definition get_min_value (h : HdrHistogram) : Z := if min_value_ h =? UINT64_MAX then 0 else min_value_ h.

(** ** Merging *)

Definition is_compatible (h other : HdrHistogram) : bool :=
  (lowest_trackable_value_ h =? lowest_trackable_value_ other) && (highest_trackable_value_ h =? highest_trackable_value_ other) &&
  (unit_magnitude_ h =? unit_magnitude_ other) && (sub_bucket_count_ h =? sub_bucket_count_ other).

Definition merge (other h : HdrHistogram) : bool * HdrHistogram :=
  if negb (is_compatible h other) then (false, h) else
  (true, set_dropped (u64 (dropped_count_ h + dropped_count_ other))
           (set_samples (zip_with (fun a b => u64 (a + b)) (counts_ h) (counts_ other)) (u64 (total_count_ h + total_count_ other))
              (Z.min (min_value_ h) (min_value_ other)) (Z.max (max_value_ h) (max_value_ other)) h)).

(** The second pass of [subtract]: the new extremes. *)
Fixpoint extremes (h : HdrHistogram) (counts : list Z) (i mn mx : Z) : Z * Z :=
  match counts with
  | [] => (mn, mx)
  | c :: counts =>
    if 0 <? c then
      let v := value_from_index h i in
      extremes h counts (i + 1) (Z.min mn v) (Z.max mx (u64 (next_non_equivalent_value h v - 1)))
    else extremes h counts (i + 1) mn mx
  end.

Definition subtract (other h : HdrHistogram) : bool * HdrHistogram :=
  if negb (is_compatible h other) then (false, h) else
  if total_count_ h <? total_count_ other then (false, h) else
  if dropped_count_ h <? dropped_count_ other then (false, h) else
  if negb (forallb (fun '(a, b) => negb (a <? b)) (zip (counts_ h) (counts_ other))) then (false, h) else
  let counts := zip_with (fun a b => a - b) (counts_ h) (counts_ other) in
  let '(mn, mx) := extremes h counts 0 UINT64_MAX 0 in
  (true, set_dropped (dropped_count_ h - dropped_count_ other) (set_samples counts (total_count_ h - total_count_ other) mn mx h)).

(** ** Bucket arithmetic *)

(** The geometry of a constructed histogram: [2^M] half sub-buckets, values from [2^u] up, and
    [B] buckets that cover the highest value. *)
Record shaped (h : HdrHistogram) (u M B : Z) : Prop := {
  sh_u : 0 <= u;
  sh_M : 0 <= M;
  sh_B : 1 <= B;
  sh_top : u + M + B <= 62;
  sh_unit : unit_magnitude_ h = u;
  sh_half_mag : sub_bucket_half_count_magnitude_ h = M;
  sh_count : sub_bucket_count_ h = 2 ^ (M + 1);
  sh_half : sub_bucket_half_count_ h = 2 ^ M;
  sh_mask : sub_bucket_mask_ h = (2 ^ (M + 1) - 1) * 2 ^ u;
  sh_len : counts_len_ h = (B + 1) * 2 ^ M;
  sh_counts : zlen (counts_ h) = counts_len_ h;
  sh_low : 0 < lowest_trackable_value_ h;
  sh_cover : highest_trackable_value_ h < 2 ^ (u + M + B)
}.

(** The bits of a value that its bucket forgets, and the least value of the bucket. *)
Definition spare_bits (u M v : Z) : Z := Z.max u (Z.log2 v - M).
Definition bucket_low (u M v : Z) : Z := v / 2 ^ spare_bits u M v * 2 ^ spare_bits u M v.

Lemma pow_split a b : 0 <= a -> 0 <= b -> 2 ^ (a + b) = 2 ^ a * 2 ^ b.
Proof. intros. by apply Z.pow_add_r. Qed.

Lemma spare_bits_spec u M v : 0 <= u -> 0 <= M -> 0 <= v ->
  spare_bits u M v = u /\ v < 2 ^ (u + M + 1) \/ u < spare_bits u M v /\ spare_bits u M v = Z.log2 v - M /\ 2 ^ (spare_bits u M v + M) <= v < 2 ^ (spare_bits u M v + M + 1).
Proof.
  intros Hu HM Hv. unfold spare_bits. destruct (Z.le_gt_cases (Z.log2 v - M) u) as [H|H].
  - left. rewrite Z.max_l by lia. split; [done|]. destruct (Z.eq_dec v 0) as [->|Hn]; [apply Z.pow_pos_nonneg; lia|]. apply Z.log2_lt_pow2; lia.
  - right. rewrite Z.max_r by lia. split_and!; [lia|done|..]; replace (Z.log2 v - M + M) with (Z.log2 v) by lia;
      assert (0 < v) by (destruct (Z.eq_dec v 0) as [->|]; [cbn in H; lia|lia]); pose proof (log2_bounds v ltac:(done)); lia.
Qed.

Lemma bucket_index_spec h u M B v : shaped h u M B -> 0 <= v -> get_bucket_index h v = spare_bits u M v - u.
Proof.
  intros [Hu HM HB Ht Eu Eh _ _ Em _ _ _ _] Hv. unfold get_bucket_index. rewrite Eu, Eh, Em.
  assert (0 < 2 ^ u) as Hpu by (apply Z.pow_pos_nonneg; lia). assert (2 <= 2 ^ (M + 1)) as HpM by (rewrite (pow_split M 1) by lia; pose proof (Z.pow_pos_nonneg 2 M ltac:(lia) ltac:(lia)); lia).
  set (m := (2 ^ (M + 1) - 1) * 2 ^ u). assert (0 < m) as Hm by (subst m; nia).
  assert (Z.log2 m = u + M) as Elm.
  { apply Z.log2_unique; [lia|]. subst m. replace (Z.succ (u + M)) with (M + 1 + u) by lia. rewrite (Z.add_comm u M), (pow_split M u), (pow_split (M + 1) u), (pow_split M 1) in * by lia. nia. }
  unfold bit_width. assert (0 < Z.lor v m) as Hl by (pose proof (Z.lor_nonneg v m); assert (Z.lor v m <> 0) by (rewrite Z.lor_eq_0_iff; lia); lia).
  rewrite (proj2 (Z.leb_gt _ _)) by done. rewrite Z.log2_lor, Elm by lia. unfold spare_bits. lia.
Qed.

Section geometry.
Context (h : HdrHistogram) (u M B : Z) (Hsh : shaped h u M B).

Lemma sub_bucket_spec v : 0 <= v -> get_sub_bucket_idx h v (get_bucket_index h v) = v / 2 ^ spare_bits u M v.
Proof.
  intros Hv. unfold get_sub_bucket_idx. erewrite bucket_index_spec by done. rewrite (sh_unit _ _ _ _ Hsh). replace (spare_bits u M v - u + u) with (spare_bits u M v) by lia.
  apply Z.shiftr_div_pow2. unfold spare_bits. destruct Hsh. lia.
Qed.

(** A sub-bucket index fits, and beyond the first bucket uses the upper half. *)
Lemma sub_bucket_range v : 0 <= v -> let k := spare_bits u M v in 0 <= v / 2 ^ k < 2 * 2 ^ M /\ (u < k -> 2 ^ M <= v / 2 ^ k) /\ u <= k.
Proof.
  intros Hv k. destruct Hsh as [Hu HM _ _ _ _ _ _ _ _ _ _ _]. assert (0 <= k) as Hk by (subst k; unfold spare_bits; lia). pose proof (Z.pow_pos_nonneg 2 k ltac:(lia) Hk) as Hp.
  pose proof (spare_bits_spec u M v Hu HM Hv) as Hsp. fold k in Hsp. destruct Hsp as [[E H]|(H1 & _ & H2)].
  - rewrite E in *. split; [|split; lia]. split; [by apply Z.div_pos|]. apply Z.div_lt_upper_bound; [done|].
    replace (u + M + 1) with (u + (1 + M)) in H by lia. rewrite (pow_split u (1 + M)), (pow_split 1 M) in H by lia. lia.
  - rewrite (pow_split k M), (Z.add_comm _ 1), (pow_split 1 (k + M)), (pow_split k M) in H2 by lia. split_and!; [by apply Z.div_pos|apply Z.div_lt_upper_bound; lia|intros _; apply Z.div_le_lower_bound; lia|lia].
Qed.

Lemma index_spec v : 0 <= v -> counts_index_for h v = (spare_bits u M v - u) * 2 ^ M + v / 2 ^ spare_bits u M v.
Proof.
  intros Hv. unfold counts_index_for, counts_index. rewrite sub_bucket_spec by done. erewrite bucket_index_spec by done. destruct Hsh as [Hu HM _ _ _ Eh _ Ehc _ _ _ _ _].
  rewrite Eh, Ehc, Z.shiftl_mul_pow2 by lia. lia.
Qed.

Lemma index_range v : 0 <= v <= highest_trackable_value_ h -> 0 <= counts_index_for h v < counts_len_ h.
Proof.
  intros Hv. rewrite index_spec by lia. destruct (sub_bucket_range v ltac:(lia)) as (H1 & H2 & H3). destruct Hsh as [Hu HM HB _ _ _ _ _ _ -> _ _ Hc].
  pose proof (Z.pow_pos_nonneg 2 M ltac:(lia) HM). assert (spare_bits u M v - u <= B - 1) as Hk.
  { unfold spare_bits. destruct (Z.eq_dec v 0) as [->|]; [cbn; lia|]. assert (Z.log2 v < u + M + B) by (apply Z.log2_lt_pow2; lia). lia. }
  split; [nia|]. assert ((spare_bits u M v - u) * 2 ^ M <= (B - 1) * 2 ^ M) by (by apply Z.mul_le_mono_nonneg_r; lia). lia.
Qed.

Lemma bucket_low_bounds v : 0 <= v -> 0 <= bucket_low u M v <= v /\ v < bucket_low u M v + 2 ^ spare_bits u M v.
Proof.
  intros Hv. unfold bucket_low. assert (0 <= spare_bits u M v) as Hk by (unfold spare_bits; destruct Hsh; lia). pose proof (Z.pow_pos_nonneg 2 _ ltac:(lia) Hk).
  pose proof (Z.div_mod v (2 ^ spare_bits u M v) ltac:(lia)). pose proof (Z.mod_pos_bound v (2 ^ spare_bits u M v) ltac:(lia)). pose proof (Z.div_pos v (2 ^ spare_bits u M v)). nia.
Qed.

(** From the index back to the least value of the bucket. *)
Lemma value_index v : 0 <= v <= highest_trackable_value_ h -> value_from_index h (counts_index_for h v) = bucket_low u M v.
Proof.
  intros Hv. rewrite index_spec by lia. destruct (sub_bucket_range v ltac:(lia)) as (H1 & H2 & H3). pose proof (bucket_low_bounds v ltac:(lia)) as [Hb _].
  pose proof Hsh as [Hu HM HB Ht Eu Eh _ Ehc _ _ _ _ Hc]. unfold value_from_index. rewrite Eh, Eu, Ehc.
  pose proof (Z.pow_pos_nonneg 2 M ltac:(lia) HM) as HpM. assert (2 ^ (u + M + B) <= 2 ^ 62) as Hcap by (apply Z.pow_le_mono_r; lia).
  rewrite Z.shiftr_div_pow2, (land_mask M) by lia. unfold bucket_low in *. set (k := spare_bits u M v) in *. set (s := v / 2 ^ k) in *.
  destruct (Z.lt_ge_cases s (2 ^ M)) as [Hs|Hs].
  - assert (k = u) as Ek by (destruct (Z.eq_dec k u); [done|specialize (H2 ltac:(lia)); lia]). rewrite Ek, Z.sub_diag, Z.mul_0_l, Z.add_0_l in *.
    rewrite (Z.div_small s), (Z.mod_small s) by lia. cbn [Z.sub Z.ltb Z.compare Z.add Z.opp]. rewrite Z.add_simpl_r, Z.shiftl_mul_pow2 by lia. apply wrap_small. lia.
  - replace ((k - u) * 2 ^ M + s) with (s - 2 ^ M + (k - u + 1) * 2 ^ M) by lia. rewrite Z.div_add, Z.mod_add, (Z.div_small (s - _)), (Z.mod_small (s - _)) by lia.
    rewrite (proj2 (Z.ltb_ge _ _)) by lia. rewrite Z.shiftl_mul_pow2 by lia. replace (s - 2 ^ M + 2 ^ M) with s by lia. replace (0 + (k - u + 1) - 1 + u) with k by lia. apply wrap_small. lia.
Qed.

(** The indices are in the order of the values. *)
Lemma index_mono v w : 0 <= v <= w -> counts_index_for h v <= counts_index_for h w.
Proof.
  intros Hvw. rewrite !index_spec by lia. destruct (sub_bucket_range v ltac:(lia)) as (H1 & _ & H3). destruct (sub_bucket_range w ltac:(lia)) as (_ & H2 & _).
  assert (spare_bits u M v <= spare_bits u M w) as Hk by (unfold spare_bits; pose proof (Z.log2_le_mono v w); lia). destruct Hsh as [Hu HM _ _ _ _ _ _ _ _ _ _ _].
  pose proof (Z.pow_pos_nonneg 2 M ltac:(lia) HM). destruct (Z.eq_dec (spare_bits u M v) (spare_bits u M w)) as [E|E].
  - rewrite E. assert (v / 2 ^ spare_bits u M w <= w / 2 ^ spare_bits u M w) by (apply Z.div_le_mono; [apply Z.pow_pos_nonneg; lia|lia]). lia.
  - specialize (H2 ltac:(lia)). assert ((spare_bits u M v - u + 1) * 2 ^ M <= (spare_bits u M w - u) * 2 ^ M) by (apply Z.mul_le_mono_nonneg_r; lia). lia.
Qed.

(** The least value of a bucket has the bits of its bucket, and the next bucket follows it. *)
Lemma spare_low v : 0 <= v -> spare_bits u M (bucket_low u M v) = spare_bits u M v.
Proof.
  intros Hv. destruct (bucket_low_bounds v Hv) as [Hb _]. destruct Hsh as [Hu HM _ _ _ _ _ _ _ _ _ _ _]. pose proof (Z.pow_pos_nonneg 2 M ltac:(lia) HM).
  destruct (sub_bucket_range v Hv) as (H1 & H2 & H3). set (k := spare_bits u M v) in *.
  assert (spare_bits u M (bucket_low u M v) <= k) as Hle by (subst k; unfold spare_bits; pose proof (Z.log2_le_mono (bucket_low u M v) v); lia).
  destruct (Z.eq_dec k u) as [E|E]; [unfold spare_bits at 1; unfold spare_bits in Hle; lia|]. specialize (H2 ltac:(lia)).
  assert (2 ^ (k + M) <= bucket_low u M v) as Hl by (rewrite pow_split by lia; unfold bucket_low; fold k; pose proof (Z.pow_pos_nonneg 2 k ltac:(lia) ltac:(lia)); nia).
  assert (k + M <= Z.log2 (bucket_low u M v)) by (apply Z.log2_le_pow2; [pose proof (Z.pow_pos_nonneg 2 (k + M) ltac:(lia) ltac:(lia)); lia|done]). unfold spare_bits in Hle |- *. lia.
Qed.

Lemma low_idem v : 0 <= v -> bucket_low u M (bucket_low u M v) = bucket_low u M v.
Proof.
  intros Hv. unfold bucket_low at 1. rewrite spare_low by done. unfold bucket_low. rewrite Z.div_mul; [done|]. apply Z.pow_nonzero; [lia|]. unfold spare_bits. destruct Hsh. lia.
Qed.

Lemma range_small v : 0 <= v <= highest_trackable_value_ h -> 0 < 2 ^ spare_bits u M v <= 2 ^ 62 /\ 0 <= bucket_low u M v < 2 ^ 62.
Proof.
  intros Hv. destruct (bucket_low_bounds v ltac:(lia)) as [Hb _]. destruct Hsh as [Hu HM HB Ht _ _ _ _ _ _ _ _ Hc]. assert (2 ^ (u + M + B) <= 2 ^ 62) by (apply Z.pow_le_mono_r; lia).
  assert (spare_bits u M v <= 62) by (unfold spare_bits; destruct (Z.eq_dec v 0) as [->|]; [cbn; lia|]; assert (Z.log2 v < u + M + B) by (apply Z.log2_lt_pow2; lia); lia).
  split; [|lia]. split; [apply Z.pow_pos_nonneg; [lia|unfold spare_bits; lia]|apply Z.pow_le_mono_r; lia].
Qed.

Lemma lowest_spec v : 0 <= v <= highest_trackable_value_ h -> lowest_equivalent_value h v = bucket_low u M v.
Proof.
  intros Hv. unfold lowest_equivalent_value. rewrite sub_bucket_spec by lia. erewrite bucket_index_spec by (done || lia). rewrite (sh_unit _ _ _ _ Hsh).
  replace (spare_bits u M v - u + u) with (spare_bits u M v) by lia. rewrite Z.shiftl_mul_pow2 by (unfold spare_bits; destruct Hsh; lia). apply wrap_small.
  destruct (range_small v Hv). unfold bucket_low in *. lia.
Qed.

Lemma size_spec v : 0 <= v <= highest_trackable_value_ h -> size_of_equivalent_value_range h v = 2 ^ spare_bits u M v.
Proof.
  intros Hv. unfold size_of_equivalent_value_range. erewrite bucket_index_spec by (done || lia). rewrite (sh_unit _ _ _ _ Hsh). replace (u + (spare_bits u M v - u)) with (spare_bits u M v) by lia.
  rewrite Z.shiftl_mul_pow2, Z.mul_1_l by (unfold spare_bits; destruct Hsh; lia). apply wrap_small. destruct (range_small v Hv). lia.
Qed.

Lemma next_spec v : 0 <= v <= highest_trackable_value_ h -> next_non_equivalent_value h v = bucket_low u M v + 2 ^ spare_bits u M v.
Proof.
  intros Hv. unfold next_non_equivalent_value. rewrite lowest_spec, size_spec by done. apply wrap_small. destruct (range_small v Hv). lia.
Qed.

(** The last value of a bucket. *)
Lemma top_spec v : 0 <= v <= highest_trackable_value_ h -> u64 (next_non_equivalent_value h (bucket_low u M v) - 1) = bucket_low u M v + 2 ^ spare_bits u M v - 1.
Proof.
  intros Hv. destruct (bucket_low_bounds v ltac:(lia)) as [Hb _]. destruct (range_small v Hv). rewrite next_spec, low_idem, spare_low by lia. apply wrap_small. lia.
Qed.

(** What a percentile shows for a sample. *)
Lemma midpoint_spec v : 0 <= v <= highest_trackable_value_ h -> midpoint h (counts_index_for h v) = bucket_low u M v + 2 ^ spare_bits u M v / 2.
Proof.
  intros Hv. destruct (range_small v Hv) as [H1 H2]. destruct (bucket_low_bounds v ltac:(lia)) as [H3 _]. unfold midpoint. rewrite value_index by done.
  rewrite next_spec, low_idem, spare_low by lia. replace (bucket_low u M v + 2 ^ spare_bits u M v - bucket_low u M v) with (2 ^ spare_bits u M v) by lia.
  rewrite (wrap_small 64 (2 ^ _)) by lia. apply wrap_small. pose proof (Z.div_le_upper_bound (2 ^ spare_bits u M v) 2 (2 ^ 62)). pose proof (Z.div_pos (2 ^ spare_bits u M v) 2). lia.
Qed.

(** Values share a counter exactly when they share the least value of their bucket. *)
Lemma same_bucket v w : 0 <= v <= highest_trackable_value_ h -> 0 <= w <= highest_trackable_value_ h ->
  counts_index_for h v = counts_index_for h w <-> bucket_low u M v = bucket_low u M w.
Proof.
  intros Hv Hw. split; [intros E; by rewrite <- !value_index, E|]. intros E.
  assert (forall x, 0 <= x <= highest_trackable_value_ h -> counts_index_for h x = counts_index_for h (bucket_low u M x)) as Hlow.
  { intros x Hx. destruct (bucket_low_bounds x ltac:(lia)) as [Hb _]. rewrite !index_spec, spare_low by lia. f_equal. unfold bucket_low at 1.
    rewrite Z.div_mul; [done|]. apply Z.pow_nonzero; [lia|]. unfold spare_bits. destruct Hsh. lia. }
  by rewrite (Hlow v Hv), (Hlow w Hw), E.
Qed.
End geometry.

(** ** Construction *)

Lemma to_int64_small z : 0 <= z < 2 ^ 63 -> to_int64 z = z.
Proof. intros Hz. unfold to_int64, INT64_MAX. rewrite wrap_small by lia. zdecides. done. Qed.

Lemma buckets_spec value : 0 <= value < 2 ^ 62 -> forall fuel j n, 0 <= j <= 62 -> 62 - j < Z.of_nat fuel ->
  exists t, buckets_loop fuel (2 ^ j) n value = Some (n + t) /\ 0 <= t /\ value < 2 ^ (j + t) /\ j + t <= 62.
Proof.
  intros Hv. induction fuel as [|fuel IH]; intros j n Hj Hf; [lia|]. cbn [buckets_loop]. destruct (Z.leb_spec (2 ^ j) value) as [Hle|Hgt].
  - assert (j < 62) as Hj2 by (apply (Z.pow_lt_mono_r_iff 2); lia). assert (2 ^ j <= 2 ^ 61) by (apply Z.pow_le_mono_r; lia).
    change (INT64_MAX / 2) with (2 ^ 62 - 1). rewrite (proj2 (Z.ltb_ge _ _)) by lia. rewrite Z.shiftl_mul_pow2, to_int64_small by lia.
    replace (2 ^ j * 2 ^ 1) with (2 ^ (j + 1)) by (rewrite Z.pow_add_r by lia; done).
    destruct (IH (j + 1) (n + 1)) as (t & -> & H1 & H2 & H3); [lia|lia|]. exists (t + 1). split; [f_equal; lia|]. replace (j + (t + 1)) with (j + 1 + t) by lia. split_and!; (done || lia).
  - exists 0. rewrite !Z.add_0_r. split_and!; (done || lia).
Qed.

(** The samples a histogram has counted, newest first, and how many it has dropped. *)
Definition tally (h : HdrHistogram) (vs : list Z) (i : Z) : Z := Z.of_nat (length (List.filter (fun v => counts_index_for h v =? i) vs)).

Definition trackable (h : HdrHistogram) (v : Z) : Prop := lowest_trackable_value_ h <= v <= highest_trackable_value_ h.

Record tallied (h : HdrHistogram) (vs : list Z) (dropped : Z) : Prop := {
  t_counts : forall i, 0 <= i < counts_len_ h -> counts_ h !! Z.to_nat i = Some (u64 (tally h vs i));
  t_total : total_count_ h = u64 (zlen vs);
  t_min : min_value_ h = foldr Z.min UINT64_MAX vs;
  t_max : max_value_ h = foldr Z.max 0 vs;
  t_dropped : dropped_count_ h = u64 dropped;
  t_range : Forall (trackable h) vs
}.

Definition same_config (h h' : HdrHistogram) : Prop := exists c t mn mx d, h' = set_dropped d (set_samples c t mn mx h).

Lemma same_config_refl h : same_config h h.
Proof. exists (counts_ h), (total_count_ h), (min_value_ h), (max_value_ h), (dropped_count_ h). by destruct h. Qed.

Lemma set_samples_config h c t mn mx : same_config h (set_samples c t mn mx h).
Proof. exists c, t, mn, mx, (dropped_count_ h). by destruct h. Qed.

Lemma same_config_trans h h' h'' : same_config h h' -> same_config h' h'' -> same_config h h''.
Proof. intros (c & t & mn & mx & d & ->) (c' & t' & mn' & mx' & d' & ->). by exists c', t', mn', mx', d'. Qed.

Lemma shaped_config h h' u M B : shaped h u M B -> same_config h h' -> zlen (counts_ h') = counts_len_ h' -> shaped h' u M B.
Proof. intros [] (c & t & mn & mx & d & ->) Hl. by split. Qed.

Lemma config_trackable h h' v : same_config h h' -> trackable h' v <-> trackable h v.
Proof. by intros (c & t & mn & mx & d & ->). Qed.

Lemma config_tally h h' vs i : same_config h h' -> tally h' vs i = tally h vs i.
Proof. by intros (c & t & mn & mx & d & ->). Qed.

Section construction.
Context (floor_log2 : Z -> Z) (floor_log2_spec : forall x, 1 <= x < 2 ^ 32 -> floor_log2 x = Z.log2 x).

Lemma hist_create_ok lowest highest sf : 1 <= lowest < 2 ^ 32 -> 2 * lowest <= highest < 2 ^ 62 -> 1 <= sf <= 5 ->
  exists h M B, hist_create floor_log2 lowest highest sf = Some (Ok h) /\ shaped h (Z.log2 lowest) M B /\ 10 ^ sf <= 2 ^ M /\ tallied h [] 0 /\
    lowest_trackable_value_ h = lowest /\ highest_trackable_value_ h = highest.
Proof.
  intros Hl Hh Hsf. unfold hist_create. rewrite (proj2 (Z.ltb_ge lowest 1)), (proj2 (Z.ltb_ge sf 1)), (proj2 (Z.ltb_ge 5 sf)) by lia. cbn [orb].
  rewrite (wrap_small 64 (2 * lowest)), (proj2 (Z.ltb_ge highest _)) by lia. rewrite floor_log2_spec by done.
  assert (exists M, Z.log2_up (2 * 10 ^ sf) = M + 1 /\ 0 <= M <= 17 /\ 10 ^ sf <= 2 ^ M) as (M & -> & HM & Hp).
  { assert (sf = 1 \/ sf = 2 \/ sf = 3 \/ sf = 4 \/ sf = 5) as [->|[->|[->|[->| ->]]]] by lia; [exists 4|exists 7|exists 10|exists 14|exists 17]; split_and!; (reflexivity || lia || done). }
  set (u := Z.log2 lowest). assert (0 <= u < 32) as Hu by (split; [apply Z.log2_nonneg|apply Z.log2_lt_pow2; lia]).
  assert (2 ^ (M + 1) <= 2 ^ 18) as HMb by (apply Z.pow_le_mono_r; lia). assert (0 < 2 ^ M) as HMp by (apply Z.pow_pos_nonneg; lia).
  assert (2 ^ (M + 1) = 2 * 2 ^ M) as EM by (rewrite Z.pow_add_r by lia; lia).
  rewrite !Z.shiftl_mul_pow2, Z.mul_1_l by lia. rewrite (wrap_small 64 (2 ^ (M + 1))) by lia. unfold get_buckets_needed_to_cover_value.
  assert (2 ^ (M + 1) * 2 ^ u = 2 ^ (M + 1 + u)) as Es by (rewrite <- Z.pow_add_r by lia; done). assert (2 ^ (M + 1 + u) <= 2 ^ 50) as Hcap by (apply Z.pow_le_mono_r; lia).
  rewrite Z.shiftl_mul_pow2, Es, !to_int64_small by (lia || (split; [apply Z.pow_nonneg; lia|lia])).
  destruct (buckets_spec highest ltac:(lia) 65 (M + 1 + u) 1) as (t & -> & Ht & Hcover & Htop); [lia|lia|]. cbn [mbind option_bind].
  replace (2 ^ (M + 1) / 2) with (2 ^ M) by (rewrite EM, Z.mul_comm, Z.div_mul by lia; done).
  assert (2 ^ M <= 2 ^ 17) by (apply Z.pow_le_mono_r; lia). assert ((1 + t + 1) * 2 ^ M <= 64 * 2 ^ 17) as Hprod by (apply Z.mul_le_mono_nonneg; lia).
  unfold kMaxCountsLen. rewrite (proj2 (Z.ltb_ge _ _)) by lia. eexists _, M, (1 + t). split; [reflexivity|].
  assert (0 < 2 ^ u) by (apply Z.pow_pos_nonneg; lia).
  split_and!; try done; split; cbn; try done; try lia.
  - rewrite EM, Z.shiftr_div_pow2 by lia. change (2 ^ 1) with 2. rewrite Z.mul_comm, Z.div_mul by lia. done.
  - apply wrap_small. nia.
  - unfold zlen. rewrite length_replicate. lia.
  - by replace (u + M + (1 + t)) with (M + 1 + u + t) by lia.
  - intros i Hi. rewrite lookup_replicate_2 by lia. done.
Qed.
End construction.

(** ** Recording *)

Lemma tally_cons h v vs i : tally h (v :: vs) i = tally h vs i + (if counts_index_for h v =? i then 1 else 0).
Proof. unfold tally. cbn [List.filter]. destruct (counts_index_for h v =? i); cbn [length]; lia. Qed.

Lemma tally_replicate h v n vs i : tally h (replicate n v ++ vs) i = tally h vs i + (if counts_index_for h v =? i then Z.of_nat n else 0).
Proof. induction n as [|n IH]; cbn [replicate app]; [case_match; lia|]. rewrite tally_cons, IH. case_match; lia. Qed.

Lemma tally_app h vs ws i : tally h (vs ++ ws) i = tally h vs i + tally h ws i.
Proof. induction vs as [|v vs IH]; [done|]. cbn [app]. rewrite !tally_cons, IH. lia. Qed.

Lemma foldr_replicate (f : Z -> Z -> Z) v n e vs : (forall x, f v (f v x) = f v x) -> foldr f e (replicate (S n) v ++ vs) = f v (foldr f e vs).
Proof. intros Hf. induction n as [|n IH]; [done|]. cbn [replicate app foldr] in *. by rewrite IH. Qed.

Lemma trackable_check h v : (v <? lowest_trackable_value_ h) || (highest_trackable_value_ h <? v) = false <-> trackable h v.
Proof. unfold trackable. rewrite orb_false_iff, !Z.ltb_ge. done. Qed.

Lemma record_as_values v h : record v h = record_values v 1 h.
Proof. reflexivity. Qed.

Section recording.
Context (u M B : Z).

(** The histogram keeps its configuration and counts the samples [vs]. *)
Definition keeps (h : HdrHistogram) (vs : list Z) (dropped : Z) (h' : HdrHistogram) : Prop :=
  same_config h h' /\ shaped h' u M B /\ tallied h' vs dropped.

Lemma dropped_ok h vs d c : shaped h u M B -> tallied h vs d -> keeps h vs (d + c) (drop_samples c h).
Proof.
  intros Hs [H1 H2 H3 H4 H5 H6]. split; [by exists (counts_ h), (total_count_ h), (min_value_ h), (max_value_ h), (u64 (dropped_count_ h + c)); destruct h|].
  split; [destruct Hs; by split|]. split; try done. cbn. rewrite H5. by apply wrap_add_wrap_l.
Qed.

Lemma len_nonzero h : shaped h u M B -> (counts_len_ h =? 0) = false.
Proof. intros [Hu HM HB _ _ _ _ _ _ -> _ _ _]. apply Z.eqb_neq. pose proof (Z.pow_pos_nonneg 2 M ltac:(lia) HM). nia. Qed.

Lemma record_values_ok h vs d v c : shaped h u M B -> tallied h vs d -> 0 <= c ->
  exists h', record_values v c h = Some (bool_decide (trackable h v) || (c =? 0), h') /\
    (if bool_decide (trackable h v) then keeps h (replicate (Z.to_nat c) v ++ vs) d h' else keeps h vs (d + c) h').
Proof.
  intros Hs Ht Hc. unfold record_values. destruct (Z.eqb_spec c 0) as [->|Hc0].
  { exists h. rewrite orb_true_r. split; [done|]. rewrite Z.add_0_r. assert (keeps h vs d h) by (split; [apply same_config_refl|done]). by case_match. }
  rewrite (len_nonzero h Hs), orb_false_r. case_bool_decide as Htr.
  2: { destruct (_ || _) eqn:E; [|by apply trackable_check in E]. eexists. split; [done|]. by apply dropped_ok. }
  rewrite (proj2 (trackable_check h v) Htr). pose proof (sh_low _ _ _ _ Hs) as Hlow. unfold trackable in Htr.
  pose proof (index_range h u M B Hs v ltac:(lia)) as Hi. rewrite (proj2 (Z.ltb_ge _ 0)), (proj2 (Z.leb_gt _ _)) by lia. cbn [orb].
  destruct Ht as [H1 H2 H3 H4 H5 H6]. rewrite (H1 _ Hi). cbn [mbind option_bind]. eexists. split; [reflexivity|].
  assert (same_config h (set_samples (<[Z.to_nat (counts_index_for h v) := u64 (u64 (tally h vs (counts_index_for h v)) + c)]> (counts_ h)) (u64 (total_count_ h + c))
            (Z.min (min_value_ h) v) (Z.max (max_value_ h) v) h)) as Hcfg by apply set_samples_config.
  pose proof (sh_counts _ _ _ _ Hs) as Hlen. split; [exact Hcfg|]. split; [eapply shaped_config; [exact Hs|exact Hcfg|]; cbn; unfold zlen in *; by rewrite length_insert|].
  assert (Z.to_nat c = S (Z.to_nat (c - 1))) as En by lia. split; cbn.
  - intros i Hi'. change (tally _ (replicate (Z.to_nat c) v ++ vs) i) with (tally h (replicate (Z.to_nat c) v ++ vs) i). rewrite tally_replicate, Z2Nat.id by lia.
    destruct (Z.eqb_spec (counts_index_for h v) i) as [<-|Hne].
    + rewrite list_lookup_insert_eq by (unfold zlen in *; lia). f_equal. by apply wrap_add_wrap_l.
    + rewrite list_lookup_insert_ne by lia. rewrite Z.add_0_r. by apply H1.
  - rewrite H2, zlen_app, wrap_add_wrap_l by lia. f_equal. unfold zlen at 2. rewrite length_replicate. lia.
  - rewrite En, foldr_replicate by lia. rewrite H3. lia.
  - rewrite En, foldr_replicate by lia. rewrite H4. lia.
  - done.
  - apply list.Forall_app. split; [|done]. apply Forall_replicate. done.
Qed.

Lemma record_ok h vs d v : shaped h u M B -> tallied h vs d ->
  exists h', record v h = Some (bool_decide (trackable h v), h') /\ (if bool_decide (trackable h v) then keeps h (v :: vs) d h' else keeps h vs (d + 1) h').
Proof. intros Hs Ht. rewrite record_as_values. destruct (record_values_ok h vs d v 1 Hs Ht ltac:(lia)) as (h' & E & H). exists h'. by rewrite orb_false_r in E. Qed.

(** The samples that a stall of [v] kept from being taken: [v - e], [v - 2e], ... down to [e]. *)
Fixpoint steps (missing e : Z) (n : nat) : list Z := match n with O => [] | S n => missing :: steps (missing - e) e n end.

Definition stalled (lowest v e : Z) : list Z :=
  if (e =? 0) || (v <=? e) then [] else List.filter (fun x => lowest <=? x) (steps (v - e) e (Z.to_nat (v / e - 1))).

Lemma steps_below lowest e n : 0 < e -> forall missing, missing < lowest -> List.filter (fun x => lowest <=? x) (steps missing e n) = [].
Proof. intros He. induction n as [|n IH]; intros missing Hm; [done|]. cbn [steps List.filter]. rewrite (proj2 (Z.leb_gt _ _)) by lia. apply IH. lia. Qed.

Lemma fill_ok e n : 0 < e -> forall fuel missing h vs d, (n < fuel)%nat -> shaped h u M B -> tallied h vs d -> e * Z.of_nat n <= missing < e * (Z.of_nat n + 1) ->
  missing <= highest_trackable_value_ h ->
  exists h', fill_loop fuel missing e h = Some h' /\ keeps h (rev (List.filter (fun x => lowest_trackable_value_ h <=? x) (steps missing e n)) ++ vs) d h'.
Proof.
  intros He. induction n as [|n IH]; intros fuel missing h vs d Hf Hs Ht Hm Hh; (destruct fuel as [|fuel]; [lia|]); cbn [fill_loop steps].
  - rewrite (proj2 (Z.leb_gt _ _)) by lia. exists h. split; [done|]. split; [apply same_config_refl|done].
  - rewrite (proj2 (Z.leb_le _ _)) by nia. cbn [List.filter]. destruct (Z.ltb_spec missing (lowest_trackable_value_ h)) as [Hlt|Hge].
    + rewrite (proj2 (Z.leb_gt _ _)), steps_below by lia. exists h. split; [done|]. split; [apply same_config_refl|done].
    + rewrite (proj2 (Z.leb_le _ _)) by lia. destruct (record_ok h vs d missing Hs Ht) as (h1 & -> & H1). rewrite bool_decide_true in H1 by done. cbn [mbind option_bind].
      destruct H1 as (C1 & S1 & T1). destruct (IH fuel (missing - e) h1 (missing :: vs) d) as (h2 & -> & C2 & S2 & T2); [lia|done|done|lia|destruct C1 as (? & ? & ? & ? & ? & ->); cbn; lia|].
      exists h2. split; [done|]. split; [by eapply same_config_trans|]. split; [done|]. cbn [rev]. rewrite <- app_assoc. cbn [app].
      destruct C1 as (? & ? & ? & ? & ? & ->). exact T2.
Qed.

Lemma record_corrected_ok h vs d v e : shaped h u M B -> tallied h vs d -> 0 <= e ->
  exists h', record_corrected v e h = Some (bool_decide (trackable h v), h') /\
    (if bool_decide (trackable h v) then keeps h (rev (v :: stalled (lowest_trackable_value_ h) v e) ++ vs) d h' else keeps h vs (d + 1) h').
Proof.
  intros Hs Ht He. unfold record_corrected, stalled. destruct (record_ok h vs d v Hs Ht) as (h1 & -> & H1). cbn [mbind option_bind].
  case_bool_decide as Htr; cbn [negb]; [|by exists h1]. destruct ((e =? 0) || (v <=? e)) eqn:E; [by exists h1|]. apply orb_false_iff in E as [E1%Z.eqb_neq E2%Z.leb_gt].
  destruct H1 as (C1 & S1 & T1). assert (1 <= v / e) as Hq by (apply Z.div_le_lower_bound; lia).
  pose proof (Z.div_mod v e ltac:(lia)). pose proof (Z.mod_pos_bound v e ltac:(lia)).
  destruct (fill_ok e (Z.to_nat (v / e - 1)) ltac:(lia) (Z.to_nat (v / e)) (v - e) h1 (v :: vs) d) as (h2 & -> & C2 & S2 & T2); [lia|done|done|rewrite Z2Nat.id by lia; nia| |].
  { destruct C1 as (? & ? & ? & ? & ? & ->). unfold trackable in Htr. cbn. lia. }
  exists h2. split; [done|]. split; [by eapply same_config_trans|]. split; [done|]. cbn [rev]. rewrite <- app_assoc. cbn [app]. destruct C1 as (? & ? & ? & ? & ? & ->). exact T2.
Qed.

Lemma hist_reset_ok h : shaped h u M B -> keeps h [] 0 (hist_reset h).
Proof.
  intros Hs. pose proof (sh_counts _ _ _ _ Hs) as Hl. assert (same_config h (hist_reset h)) as Hc by (eexists _, _, _, _, _; reflexivity).
  split; [done|]. split; [eapply shaped_config; [done|done|]; cbn; unfold zlen in *; by rewrite length_replicate|]. split; try done.
  intros i Hi. cbn in *. rewrite lookup_replicate_2 by (unfold zlen in *; lia). done.
Qed.
End recording.

(** ** Sequences of calls *)

Inductive hist_op := Record_ (v : Z) | RecordValues (v count : Z) | RecordDouble (d : double) | RecordCorrected (v interval : Z) | ResetAll.

Definition hist_step (o : hist_op) (h : HdrHistogram) : option (bool * HdrHistogram) :=
  match o with
  | Record_ v => record v h
  | RecordValues v c => record_values v c h
  | RecordDouble d => record_double d h
  | RecordCorrected v e => record_corrected v e h
  | ResetAll => Some (true, hist_reset h)
  end.

Fixpoint hist_run (ops : list hist_op) (h : HdrHistogram) : option (list bool * HdrHistogram) :=
  match ops with
  | [] => Some ([], h)
  | o :: ops => '(r, h) ← hist_step o h; '(rs, h) ← hist_run ops h; Some (r :: rs, h)
  end.

(** The integer a double stands for, if it is one that is accepted. *)
Definition sample_of (d : double) : option Z :=
  if SFleb double_zero d && isfinite d && negb (SFleb (double_of_int UINT64_MAX) d) then Some (truncate d) else None.

(** The samples of a range that the calls took, newest first, and the number dropped. *)
Definition samples_step (lowest highest : Z) (o : hist_op) (s : list Z * Z) : bool * (list Z * Z) :=
  let inside v := (lowest <=? v) && (v <=? highest) in
  let take_ vs v n := if inside v then (true, (vs ++ s.1, s.2)) else (n =? 0, (s.1, s.2 + n)) in
  match o with
  | Record_ v => take_ [v] v 1
  | RecordValues v c => take_ (replicate (Z.to_nat c) v) v c
  | RecordDouble d => match sample_of d with Some v => take_ [v] v 1 | None => (false, (s.1, s.2 + 1)) end
  | RecordCorrected v e => take_ (rev (v :: stalled lowest v e)) v 1
  | ResetAll => (true, ([], 0))
  end.

Fixpoint samples_run (lowest highest : Z) (ops : list hist_op) (s : list Z * Z) : list bool * (list Z * Z) :=
  match ops with
  | [] => ([], s)
  | o :: ops => let '(r, s) := samples_step lowest highest o s in let '(rs, s) := samples_run lowest highest ops s in (r :: rs, s)
  end.

(** Counts and intervals are unsigned words. *)
Definition hist_op_ok (o : hist_op) : Prop := match o with RecordValues _ c => 0 <= c | RecordCorrected _ e => 0 <= e | _ => True end.

Lemma inside_trackable h v : (lowest_trackable_value_ h <=? v) && (v <=? highest_trackable_value_ h) = bool_decide (trackable h v).
Proof. unfold trackable. destruct (Z.leb_spec (lowest_trackable_value_ h) v), (Z.leb_spec v (highest_trackable_value_ h)); case_bool_decide; (done || lia). Qed.

Lemma hist_step_ok u M B h vs d o : shaped h u M B -> tallied h vs d -> hist_op_ok o ->
  let '(r, (vs', d')) := samples_step (lowest_trackable_value_ h) (highest_trackable_value_ h) o (vs, d) in
  exists h', hist_step o h = Some (r, h') /\ keeps u M B h vs' d' h'.
Proof.
  intros Hs Ht Ho. destruct o as [v|v c|x|v e|]; cbn [samples_step hist_step fst snd]; rewrite ?inside_trackable.
  - destruct (record_ok u M B h vs d v Hs Ht) as (h' & -> & H). case_bool_decide; by exists h'.
  - destruct (record_values_ok u M B h vs d v c Hs Ht Ho) as (h' & -> & H). case_bool_decide; by exists h'.
  - unfold record_double, sample_of. destruct (SFleb double_zero x), (isfinite x), (SFleb (double_of_int UINT64_MAX) x); cbn [negb andb orb];
      try (eexists; split; [reflexivity|by apply dropped_ok]). rewrite inside_trackable. destruct (record_ok u M B h vs d (truncate x) Hs Ht) as (h' & -> & H). case_bool_decide; by exists h'.
  - destruct (record_corrected_ok u M B h vs d v e Hs Ht Ho) as (h' & -> & H). case_bool_decide; by exists h'.
  - eexists. split; [done|by apply hist_reset_ok].
Qed.

Lemma hist_run_ok u M B ops : Forall hist_op_ok ops -> forall h vs d, shaped h u M B -> tallied h vs d ->
  let '(rs, (vs', d')) := samples_run (lowest_trackable_value_ h) (highest_trackable_value_ h) ops (vs, d) in
  exists h', hist_run ops h = Some (rs, h') /\ keeps u M B h vs' d' h'.
Proof.
  induction 1 as [|o ops Ho _ IH]; intros h vs d Hs Ht; cbn [samples_run hist_run]; [exists h; split; [done|]; split; [apply same_config_refl|done]|].
  pose proof (hist_step_ok u M B h vs d o Hs Ht Ho) as H1. destruct (samples_step _ _ o (vs, d)) as [r [vs1 d1]]. destruct H1 as (h1 & -> & C1 & S1 & T1). cbn [mbind option_bind].
  specialize (IH h1 vs1 d1 S1 T1). assert (lowest_trackable_value_ h1 = lowest_trackable_value_ h /\ highest_trackable_value_ h1 = highest_trackable_value_ h) as [E1 E2] by (by destruct C1 as (? & ? & ? & ? & ? & ->)).
  rewrite E1, E2 in IH. destruct (samples_run _ _ ops (vs1, d1)) as [rs [vs2 d2]]. destruct IH as (h2 & -> & C2 & K2). exists h2. split; [done|]. split; [by eapply same_config_trans|done].
Qed.

(** ** Ranks *)

(** The samples below a bucket. *)
Definition below (h : HdrHistogram) (vs : list Z) (i : Z) : Z := Z.of_nat (length (List.filter (fun v => counts_index_for h v <? i) vs)).

Lemma below_succ h vs i : below h vs (i + 1) = below h vs i + tally h vs i.
Proof.
  unfold below, tally. induction vs as [|v vs IH]; [done|]. cbn [List.filter]. set (x := counts_index_for h v) in *.
  destruct (Z.ltb_spec x (i + 1)), (Z.ltb_spec x i), (Z.eqb_spec x i); cbn [length]; lia.
Qed.

Lemma below_none h vs : Forall (fun v => 0 <= counts_index_for h v) vs -> below h vs 0 = 0.
Proof. unfold below. induction 1 as [|v vs Hv _ IH]; [done|]. cbn [List.filter]. by rewrite (proj2 (Z.ltb_ge _ _)) by lia. Qed.

Lemma below_all h vs i : Forall (fun v => counts_index_for h v < i) vs -> below h vs i = zlen vs.
Proof. unfold below, zlen. induction 1 as [|v vs Hv _ IH]; [done|]. cbn [List.filter length]. rewrite (proj2 (Z.ltb_lt _ _)) by lia. cbn [length]. lia. Qed.

Lemma filter_le (P : Z -> bool) vs : (length (List.filter P vs) <= length vs)%nat.
Proof. induction vs as [|v vs IH]; [done|]. cbn [List.filter]. destruct (P v); cbn [length]; lia. Qed.

Lemma filter_perm (P : Z -> bool) vs ws : vs ≡ₚ ws -> length (List.filter P vs) = length (List.filter P ws).
Proof. induction 1 as [|x vs ws _ IH|x y vs|? ? ? _ IH1 _ IH2]; [done| | |congruence]; cbn [List.filter]; repeat case_match; cbn [length]; congruence. Qed.

(** In a sorted list a downward closed predicate holds of a prefix. *)
Lemma sorted_filter (P : Z -> bool) L : StronglySorted Z.le L -> (forall x y, x ∈ L -> y ∈ L -> x <= y -> P y = true -> P x = true) ->
  forall j x, L !! j = Some x -> P x = true <-> (j < length (List.filter P L))%nat.
Proof.
  induction L as [|a L IH]; intros Hs HP j x Hj; [done|]. apply StronglySorted_inv in Hs as [Hs Ha]. rewrite list.Forall_forall in Ha. cbn [List.filter]. destruct (P a) eqn:Ea.
  - destruct j as [|j]; [cbn in Hj; simplify_eq; cbn [length]; split; [lia|done]|]. cbn in Hj. cbn [length].
    rewrite (IH Hs (fun x y Hx Hy => HP x y (list_elem_of_further _ _ _ Hx) (list_elem_of_further _ _ _ Hy)) j x Hj). lia.
  - assert (forall y, y ∈ L -> P y = false) as Hn.
    { intros y Hy. destruct (P y) eqn:Ey; [|done]. by rewrite (HP a y) in Ea by (try apply list_elem_of_here; try (by apply list_elem_of_further); try (by apply Ha); done). }
    assert (List.filter P L = []) as ->.
    { clear -Hn. induction L as [|b L IH]; [done|]. cbn [List.filter]. rewrite (Hn b) by apply list_elem_of_here. apply IH. intros y Hy. by apply Hn, list_elem_of_further. }
    cbn [length]. split; [|lia]. intros Hx. destruct j as [|j]; cbn in Hj; [simplify_eq; congruence|]. apply list_elem_of_lookup_2 in Hj. by rewrite Hn in Hx.
Qed.

Lemma samples_pos (l : list Z) : l <> [] -> 0 < zlen l.
Proof. destruct l; [done|]. rewrite zlen_cons. pose proof (zlen_nonneg l). lia. Qed.

Lemma tally_small h vs i : 0 <= tally h vs i <= zlen vs.
Proof. unfold tally, zlen. pose proof (filter_le (fun v => counts_index_for h v =? i) vs). lia. Qed.

Section ranks.
Context (h : HdrHistogram) (u M B : Z) (Hsh : shaped h u M B) (vs : list Z) (d : Z) (Ht : tallied h vs d) (Hsmall : zlen vs < 2 ^ 64).

Lemma sample_range v : v ∈ vs -> 0 <= v <= highest_trackable_value_ h.
Proof. intros Hv. pose proof (t_range _ _ _ Ht) as H. rewrite list.Forall_forall in H. specialize (H v Hv). unfold trackable in H. pose proof (sh_low _ _ _ _ Hsh). lia. Qed.

Lemma sample_index v : v ∈ vs -> 0 <= counts_index_for h v < counts_len_ h.
Proof. intros Hv. eapply index_range; [done|by apply sample_range]. Qed.

(** The sample of rank [r] is in the bucket at which the counts reach [r]. *)
Lemma rank_bucket L r x i : L ≡ₚ vs -> StronglySorted Z.le L -> L !! Z.to_nat (r - 1) = Some x -> 1 <= r -> below h vs i < r <= below h vs (i + 1) -> counts_index_for h x = i.
Proof.
  intros HL Hs Hx Hr Hb. assert (forall v, v ∈ L -> v ∈ vs) as Hin by (intros v; by rewrite HL). unfold below in Hb. rewrite <- !(filter_perm _ L vs HL) in Hb.
  assert (forall k, forall a b, a ∈ L -> b ∈ L -> a <= b -> (counts_index_for h b <? k) = true -> (counts_index_for h a <? k) = true) as HP.
  { intros k a b Ha Hb' Hab. rewrite !Z.ltb_lt. pose proof (index_mono h u M B Hsh a b). pose proof (sample_range a (Hin a Ha)). lia. }
  pose proof (sorted_filter _ L Hs (HP i) _ _ Hx) as H1. pose proof (sorted_filter _ L Hs (HP (i + 1)) _ _ Hx) as H2. rewrite !Z.ltb_lt in H1, H2. lia.
Qed.

Lemma count_at pre c cs : counts_ h = pre ++ c :: cs -> c = tally h vs (zlen pre).
Proof.
  intros Hc. pose proof (sh_counts _ _ _ _ Hsh) as Hl. pose proof (t_counts _ _ _ Ht (zlen pre)) as H. rewrite Hc in Hl, H. rewrite zlen_app, zlen_cons in Hl. pose proof (zlen_nonneg cs).
  pose proof (zlen_nonneg pre). specialize (H ltac:(lia)). unfold zlen in H at 1. rewrite Nat2Z.id, list_lookup_middle in H by done. injection H as ->. apply wrap_small.
  pose proof (tally_small h vs (zlen pre)). lia.
Qed.

Lemma below_small i : 0 <= below h vs i <= zlen vs.
Proof. unfold below, zlen. pose proof (filter_le (fun v => counts_index_for h v <? i) vs). lia. Qed.

(** Where the scan stops. *)
Lemma scan_spec rank cs : vs <> [] -> forall pre acc, counts_ h = pre ++ cs -> acc = below h vs (zlen pre) -> acc < Z.max 1 rank ->
  percentile_scan h cs (zlen pre) acc rank = max_value_ h /\ zlen vs < rank \/
  exists i, percentile_scan h cs (zlen pre) acc rank = midpoint h i /\ below h vs i < Z.max 1 rank <= below h vs (i + 1).
Proof.
  intros Hne. induction cs as [|c cs IH]; intros pre acc Hc -> Hacc; cbn [percentile_scan].
  - left. split; [done|]. rewrite app_nil_r in Hc. rewrite below_all in Hacc; [pose proof (samples_pos vs Hne); lia|].
    apply list.Forall_forall. intros v Hv. rewrite <- Hc, (sh_counts _ _ _ _ Hsh). apply (sample_index v Hv).
  - pose proof (count_at pre c cs Hc) as Ec. pose proof (below_succ h vs (zlen pre)) as Hb. pose proof (below_small (zlen pre + 1)) as Hbs. pose proof (below_small (zlen pre)) as Hbp.
    pose proof (tally_small h vs (zlen pre)).
    assert (zlen (pre ++ [c]) = zlen pre + 1) as Ez by (by rewrite zlen_app, zlen_cons, zlen_nil). assert (counts_ h = (pre ++ [c]) ++ cs) as Hc' by (by rewrite <- app_assoc).
    destruct (Z.eqb_spec c 0) as [E0|E0].
    + rewrite <- Ez. apply IH; [done|rewrite Ez; lia|done].
    + rewrite (wrap_small 64) by lia. replace (below h vs (zlen pre) + c) with (below h vs (zlen pre + 1)) by lia.
      destruct (Z.leb_spec rank (below h vs (zlen pre + 1))) as [Hr|Hr]; [right; exists (zlen pre); split; [done|lia]|]. rewrite <- Ez. apply IH; [done|done|rewrite Ez; lia].
Qed.

(** What [get_value_at_percentile] answers for a rank. *)
Lemma percentile_answer L rank : vs <> [] -> 0 <= rank -> L ≡ₚ vs -> StronglySorted Z.le L ->
  if rank <=? zlen vs then exists x, L !! Z.to_nat (Z.max 1 rank - 1) = Some x /\ x ∈ vs /\
    percentile_scan h (counts_ h) 0 0 rank = bucket_low u M x + 2 ^ spare_bits u M x / 2
  else percentile_scan h (counts_ h) 0 0 rank = max_value_ h.
Proof.
  intros Hne Hr HL Hs. assert (below h vs 0 = 0) as E0 by (apply below_none, list.Forall_forall; intros v Hv; apply (sample_index v Hv)).
  destruct (scan_spec rank (counts_ h) Hne [] 0) as [[E H]|(i & E & H)]; [done|symmetry; exact E0|lia| |].
  - rewrite (proj2 (Z.leb_gt _ _)) by done. exact E.
  - pose proof (below_small (i + 1)). rewrite (proj2 (Z.leb_le _ _)) by lia. change (zlen []) with 0 in E.
    destruct (lookup_lt_is_Some_2 L (Z.to_nat (Z.max 1 rank - 1))) as [x Hx].
    { apply Permutation_length in HL. unfold zlen in *. lia. }
    exists x. assert (x ∈ vs) as Hin by (rewrite <- HL; by eapply list_elem_of_lookup_2). split; [done|]. split; [done|].
    assert (counts_index_for h x = i) as Ei by (eapply rank_bucket; [done|done|exact Hx|lia|done]). rewrite E, <- Ei. eapply midpoint_spec; [done|by apply sample_range].
Qed.
End ranks.

(** The error of a bucket. *)
Lemma bucket_precision h u M B v : shaped h u M B -> 0 <= v -> let k := spare_bits u M v in k = u \/ 2 ^ k * 2 ^ M <= v.
Proof.
  intros [Hu HM _ _ _ _ _ _ _ _ _ _ _] Hv k. pose proof (spare_bits_spec u M v Hu HM Hv) as H. fold k in H. destruct H as [[-> _]|(Hk & _ & H & _)]; [by left|right].
  by rewrite <- Z.pow_add_r by lia.
Qed.

Section properties.
Context (floor_log2 : Z -> Z) (floor_log2_spec : forall x, 1 <= x < 2 ^ 32 -> floor_log2 x = Z.log2 x).

(** C26: The histogram counts every sample to the configured precision.  For a range from 1 to
    less than 2^62 whose lower end is below 2^32, and 1 to 5 significant figures, the
    constructor succeeds.  After any calls of the recording operations and [reset], each
    returned whether its sample was inside the range; total, minimum, maximum and dropped count
    are those of the samples taken since the last reset, where a corrected recording takes its
    value [v] and, for an interval [e] below it, every [v - k * e] that is neither below [e] nor
    below the range (the comment of [record_corrected] stops one sample earlier in its example,
    [record_corrected_example]); and for every value of the range the counter of its bucket is the number of samples whose bucket begins at the same value,
    where the bucket contains the value and is no wider than the largest power of two up to
    the lowest value, or the value divided by 10^[sf]. *)
Theorem histogram_counts lowest highest sf ops : 1 <= lowest < 2 ^ 32 -> 2 * lowest <= highest < 2 ^ 62 -> 1 <= sf <= 5 -> Forall hist_op_ok ops ->
  let '(rs, (vs, dropped)) := samples_run lowest highest ops ([], 0) in
  exists h h', hist_create floor_log2 lowest highest sf = Some (Ok h) /\ hist_run ops h = Some (rs, h') /\
    total_count_ h' = u64 (zlen vs) /\ min_value_ h' = foldr Z.min UINT64_MAX vs /\ max_value_ h' = foldr Z.max 0 vs /\ dropped_count_ h' = u64 dropped /\
    forall v, lowest <= v <= highest ->
      let low := lowest_equivalent_value h' v in let next := next_non_equivalent_value h' v in
      low <= v < next /\ (next - low <= lowest \/ (next - low) * 10 ^ sf <= v) /\
      counts_ h' !! Z.to_nat (counts_index_for h' v) = Some (u64 (Z.of_nat (length (List.filter (fun w => lowest_equivalent_value h' w =? low) vs)))).
Proof.
  intros Hl Hh Hsf Hops. destruct (hist_create_ok floor_log2 floor_log2_spec lowest highest sf Hl Hh Hsf) as (h & M & B & Hcr & Hs & Hp & Ht & El & Eh).
  pose proof (hist_run_ok (Z.log2 lowest) M B ops Hops h [] 0 Hs Ht) as H. rewrite El, Eh in H. destruct (samples_run lowest highest ops ([], 0)) as [rs [vs d]].
  destruct H as (h' & Hrun & C & S' & T'). exists h, h'. assert (lowest_trackable_value_ h' = lowest /\ highest_trackable_value_ h' = highest) as [El' Eh'] by (by destruct C as (? & ? & ? & ? & ? & ->)).
  destruct T' as [T1 T2 T3 T4 T5 T6]. split_and!; try done. intros v Hv low next. assert (0 <= v <= highest_trackable_value_ h') as Hv' by lia.
  subst low next. rewrite (lowest_spec h' _ M B S'), (next_spec h' _ M B S') by done. destruct (bucket_low_bounds h' _ M B S' v ltac:(lia)) as [Hb1 Hb2]. split; [lia|].
  replace (bucket_low _ M v + 2 ^ spare_bits _ M v - bucket_low _ M v) with (2 ^ spare_bits (Z.log2 lowest) M v) by lia. split.
  - destruct (bucket_precision h' _ M B v S' ltac:(lia)) as [->|Hk]; [left; pose proof (log2_bounds lowest ltac:(lia)); lia|right].
    etransitivity; [|exact Hk]. apply Z.mul_le_mono_nonneg_l; [apply Z.pow_nonneg; lia|done].
  - rewrite T1 by (by eapply index_range). do 2 f_equal. unfold tally. f_equal. f_equal. apply List.filter_ext_in. intros w Hw. apply list_elem_of_In in Hw.
    rewrite list.Forall_forall in T6. specialize (T6 w Hw). unfold trackable in T6. rewrite (lowest_spec h' _ M B S' w) by lia.
    apply eq_true_iff_eq. rewrite !Z.eqb_eq. eapply same_bucket; [done|lia|lia].
Qed.

(** C34: Percentiles.  When the recording calls took the samples [vs], not none and fewer than
    2^64, the value reported at a percentile is the midpoint of the bucket of the sample whose
    rank among the sorted samples is [ceil(percentile / 100 * count)] as computed in doubles
    (at least 1), hence differs from that sample by less than the configured precision; if
    rounding makes the rank larger than the count, it is the largest sample. *)
Theorem histogram_percentile lowest highest sf ops p rank L : 1 <= lowest < 2 ^ 32 -> 2 * lowest <= highest < 2 ^ 62 -> 1 <= sf <= 5 -> Forall hist_op_ok ops ->
  let '(rs, (vs, dropped)) := samples_run lowest highest ops ([], 0) in
  vs <> [] -> zlen vs < 2 ^ 64 -> L ≡ₚ vs -> StronglySorted Z.le L ->
  SFleb double_zero p = true -> SFleb p (double_of_int 100) = true -> percentile_rank p (zlen vs) = Some rank -> 0 <= rank ->
  exists h h' r, hist_create floor_log2 lowest highest sf = Some (Ok h) /\ hist_run ops h = Some (rs, h') /\ get_value_at_percentile p h' = Some r /\
    if rank <=? zlen vs then exists x, L !! Z.to_nat (Z.max 1 rank - 1) = Some x /\ (Z.abs (r - x) <= lowest \/ Z.abs (r - x) * 10 ^ sf <= x)
    else r = foldr Z.max 0 vs.
Proof.
  intros Hl Hh Hsf Hops. destruct (hist_create_ok floor_log2 floor_log2_spec lowest highest sf Hl Hh Hsf) as (h & M & B & Hcr & Hs & Hp & Ht & El & Eh).
  pose proof (hist_run_ok (Z.log2 lowest) M B ops Hops h [] 0 Hs Ht) as H. rewrite El, Eh in H. destruct (samples_run lowest highest ops ([], 0)) as [rs [vs d]].
  destruct H as (h' & Hrun & C & S' & T'). intros Hne Hsm HL HsL Hp0 Hp1 Hrk Hr0. exists h, h'. unfold get_value_at_percentile. rewrite Hp0, Hp1, (t_total _ _ _ T').
  assert (0 < zlen vs) as Hpos by (by apply samples_pos). rewrite wrap_small by lia. rewrite (proj2 (Z.eqb_neq _ _)) by lia.
  cbn [negb orb andb]. rewrite Hrk. cbn [mbind option_bind]. eexists. split_and!; [done|done|done|].
  pose proof (percentile_answer h' _ M B S' vs d T' Hsm L rank Hne Hr0 HL HsL) as Ha. destruct (rank <=? zlen vs).
  - destruct Ha as (x & Hx & Hin & ->). exists x. split; [done|]. pose proof (sample_range h' _ M B S' vs d T' x Hin) as Hxr.
    destruct (bucket_low_bounds h' _ M B S' x ltac:(lia)) as [Hb1 Hb2]. destruct (range_small h' _ M B S' x Hxr) as [Hk _].
    pose proof (Z.div_pos (2 ^ spare_bits (Z.log2 lowest) M x) 2 ltac:(lia) ltac:(lia)). pose proof (Z.mul_div_le (2 ^ spare_bits (Z.log2 lowest) M x) 2 ltac:(lia)).
    assert (Z.abs (bucket_low (Z.log2 lowest) M x + 2 ^ spare_bits (Z.log2 lowest) M x / 2 - x) <= 2 ^ spare_bits (Z.log2 lowest) M x) as Habs by lia.
    destruct (bucket_precision h' _ M B x S' ltac:(lia)) as [Ek|Hk']; [left; rewrite Ek in *; pose proof (log2_bounds lowest ltac:(lia)); lia|right].
    etransitivity; [|exact Hk']. apply Z.mul_le_mono_nonneg; [lia|done|lia|done].
  - rewrite Ha. apply (t_max _ _ _ T').
Qed.
End properties.

(** ** Merging and subtracting *)

Lemma foldr_min_app E vs ws : foldr Z.min E ws <= E -> foldr Z.min E (vs ++ ws) = Z.min (foldr Z.min E vs) (foldr Z.min E ws).
Proof. intros H. induction vs as [|v vs IH]; cbn [app foldr]; lia. Qed.

Lemma foldr_min_le E vs : foldr Z.min E vs <= E.
Proof. induction vs as [|v vs IH]; cbn [foldr]; lia. Qed.

Lemma foldr_max_app vs ws : foldr Z.max 0 (vs ++ ws) = Z.max (foldr Z.max 0 vs) (foldr Z.max 0 ws).
Proof. assert (0 <= foldr Z.max 0 ws) by (induction ws as [|w ws IH]; cbn [foldr]; lia). induction vs as [|v vs IH]; cbn [app foldr]; lia. Qed.

Lemma compatible h h1 h2 : same_config h h1 -> same_config h h2 -> is_compatible h1 h2 = true.
Proof. intros (? & ? & ? & ? & ? & ->) (? & ? & ? & ? & ? & ->). unfold is_compatible. cbn. by rewrite !Z.eqb_refl. Qed.

Lemma config_sym h h' : same_config h h' -> same_config h' h.
Proof. intros (? & ? & ? & ? & ? & ->). exists (counts_ h), (total_count_ h), (min_value_ h), (max_value_ h), (dropped_count_ h). by destruct h. Qed.

Lemma config_len h h' : same_config h h' -> counts_len_ h' = counts_len_ h.
Proof. by intros (? & ? & ? & ? & ? & ->). Qed.

Section merging.
Context (h : HdrHistogram) (u M B : Z) (h1 h2 : HdrHistogram) (vs1 vs2 : list Z) (d1 d2 : Z) (K1 : keeps u M B h vs1 d1 h1) (K2 : keeps u M B h vs2 d2 h2).

Lemma count_of hi vsi di i : keeps u M B h vsi di hi -> 0 <= i < counts_len_ h -> counts_ hi !! Z.to_nat i = Some (u64 (tally h vsi i)).
Proof using. intros (C & _ & T) Hi. rewrite <- (config_tally h hi) by done. apply T. by rewrite (config_len h hi). Qed.

Lemma counts_length hi vsi di : keeps u M B h vsi di hi -> zlen (counts_ hi) = counts_len_ h.
Proof using. intros (C & S & _). rewrite (sh_counts _ _ _ _ S). by apply config_len. Qed.

Lemma merge_ok : exists hm, merge h2 h1 = (true, hm) /\ keeps u M B h (vs1 ++ vs2) (d1 + d2) hm.
Proof.
  destruct K1 as (C1 & S1 & T1). destruct K2 as (C2 & S2 & T2). pose proof (counts_length h1 vs1 d1 K1) as L1. pose proof (counts_length h2 vs2 d2 K2) as L2.
  unfold merge. rewrite (compatible h h1 h2) by done. cbn [negb]. eexists. split; [reflexivity|].
  set (hm := set_dropped _ _). assert (same_config h1 hm) as Cm by (eexists _, _, _, _, _; reflexivity).
  assert (same_config h hm) as Chm by exact (same_config_trans _ _ _ C1 Cm). split; [done|].
  split; [eapply shaped_config; [exact S1|exact Cm|]; rewrite (config_len h hm) by done; cbn; unfold zlen in *; rewrite length_zip_with; lia|].
  destruct T1 as [_ A2 A3 A4 A5 A6]. destruct T2 as [_ B2 B3 B4 B5 B6]. split.
  - intros i Hi. rewrite (config_len h hm) in Hi by done. rewrite (config_tally h hm), tally_app by done. cbn. rewrite lookup_zip_with, (count_of h1 vs1 d1), (count_of h2 vs2 d2) by done. cbn.
    by rewrite wrap_add_wrap_l, wrap_add_wrap_r.
  - cbn. by rewrite A2, B2, zlen_app, wrap_add_wrap_l, wrap_add_wrap_r.
  - cbn. rewrite A3, B3, foldr_min_app; [done|apply foldr_min_le].
  - cbn. by rewrite A4, B4, foldr_max_app.
  - cbn. by rewrite A5, B5, wrap_add_wrap_l, wrap_add_wrap_r.
  - apply list.Forall_app. split; [exact A6|]. eapply list.Forall_impl; [exact B6|]. intros v. rewrite (config_trackable h h2), (config_trackable h hm) by done. done.
Qed.

(** The extremes that [subtract] recomputes: at or beyond every bucket with samples, and at one of them. *)
Lemma extremes_spec h0 cs : forall i mn mx, let '(mn', mx') := extremes h0 cs i mn mx in
  mn' <= mn /\ mx <= mx' /\
  (forall j c, cs !! j = Some c -> 0 < c -> mn' <= value_from_index h0 (i + Z.of_nat j) /\ u64 (next_non_equivalent_value h0 (value_from_index h0 (i + Z.of_nat j)) - 1) <= mx') /\
  (mn' = mn \/ exists j c, cs !! j = Some c /\ 0 < c /\ mn' = value_from_index h0 (i + Z.of_nat j)) /\
  (mx' = mx \/ exists j c, cs !! j = Some c /\ 0 < c /\ mx' = u64 (next_non_equivalent_value h0 (value_from_index h0 (i + Z.of_nat j)) - 1)).
Proof using.
  induction cs as [|c cs IH]; intros i mn mx; cbn [extremes].
  { split_and!; [lia|lia|by intros j c Hj; rewrite lookup_nil in Hj|by left|by left]. }
  assert (forall j, i + Z.of_nat (S j) = i + 1 + Z.of_nat j) as Ej by lia.
  destruct (Z.ltb_spec 0 c) as [Hc|Hc].
  - set (v := value_from_index h0 i). set (t := u64 (next_non_equivalent_value h0 v - 1)). specialize (IH (i + 1) (Z.min mn v) (Z.max mx t)).
    destruct (extremes h0 cs (i + 1) (Z.min mn v) (Z.max mx t)) as [mn' mx']. destruct IH as (H1 & H2 & H3 & H4 & H5). split; [lia|]. split; [lia|]. split_and!.
    + intros [|j] c' Hj Hc'; [rewrite Z.add_0_r; fold v t; lia|]. rewrite Ej. by eapply H3.
    + assert (mn' = mn \/ mn' = v \/ mn' <> Z.min mn v) as [E|[E|E]] by lia; [by left|right; exists 0%nat, c; rewrite Z.add_0_r; done|].
      destruct H4 as [?|(j & c' & Hj & Hc' & E')]; [done|right; exists (S j), c'; rewrite Ej; done].
    + assert (mx' = mx \/ mx' = t \/ mx' <> Z.max mx t) as [E|[E|E]] by lia; [by left|right; exists 0%nat, c; rewrite Z.add_0_r; done|].
      destruct H5 as [?|(j & c' & Hj & Hc' & E')]; [done|right; exists (S j), c'; rewrite Ej; done].
  - specialize (IH (i + 1) mn mx). destruct (extremes h0 cs (i + 1) mn mx) as [mn' mx']. destruct IH as (H1 & H2 & H3 & H4 & H5). split; [done|]. split; [done|]. split_and!.
    + intros [|j] c' Hj Hc'; [cbn in Hj; simplify_eq; lia|]. rewrite Ej. by eapply H3.
    + destruct H4 as [?|(j & c' & Hj & Hc' & E')]; [by left|right; exists (S j), c'; rewrite Ej; done].
    + destruct H5 as [?|(j & c' & Hj & Hc' & E')]; [by left|right; exists (S j), c'; rewrite Ej; done].
Qed.

Lemma tally_pos hi vs i : 0 < tally hi vs i -> exists v, v ∈ vs /\ counts_index_for hi v = i.
Proof using.
  unfold tally. intros H. destruct (List.filter (fun v => counts_index_for hi v =? i) vs) as [|v l] eqn:E; [cbn in H; lia|].
  assert (In v (List.filter (fun v => counts_index_for hi v =? i) vs)) as Hin by (rewrite E; by left). apply List.filter_In in Hin as [Hin Hv%Z.eqb_eq]. exists v. by rewrite list_elem_of_In.
Qed.

Lemma tally_in hi vs v : v ∈ vs -> 0 < tally hi vs (counts_index_for hi v).
Proof using.
  unfold tally. intros H. assert (In v (List.filter (fun w => counts_index_for hi w =? counts_index_for hi v) vs)) as Hin by (apply List.filter_In; rewrite Z.eqb_refl, <- list_elem_of_In; done).
  destruct (List.filter _ vs); [done|cbn; lia].
Qed.

Lemma subtract_ok hm : keeps u M B h (vs1 ++ vs2) (d1 + d2) hm -> zlen vs1 + zlen vs2 < 2 ^ 64 -> 0 <= d1 -> 0 <= d2 -> d1 + d2 < 2 ^ 64 ->
  exists hs, subtract h2 hm = (true, hs) /\ same_config h hs /\ counts_ hs = counts_ h1 /\ total_count_ hs = total_count_ h1 /\ dropped_count_ hs = dropped_count_ h1 /\
    (vs1 = [] -> min_value_ hs = UINT64_MAX /\ max_value_ hs = 0) /\
    (forall v, v ∈ vs1 -> min_value_ hs <= v <= max_value_ hs) /\
    (vs1 <> [] -> (exists v, v ∈ vs1 /\ min_value_ hs = bucket_low u M v) /\ (exists v, v ∈ vs1 /\ max_value_ hs = bucket_low u M v + 2 ^ spare_bits u M v - 1)).
Proof.
  intros Km Hz Hd1 Hd2 Hd. pose proof K1 as (C1 & S1 & T1). pose proof K2 as (C2 & S2 & T2). pose proof Km as (Cm & Sm & Tm).
  pose proof (counts_length h1 vs1 d1 K1) as L1. pose proof (counts_length h2 vs2 d2 K2) as L2. pose proof (counts_length hm _ _ Km) as Lm.
  unfold subtract. rewrite (compatible h hm h2) by done. cbn [negb].
  pose proof (zlen_nonneg vs1). pose proof (zlen_nonneg vs2). rewrite (t_total _ _ _ Tm), (t_total _ _ _ T2), (t_dropped _ _ _ Tm), (t_dropped _ _ _ T2), zlen_app.
  rewrite !wrap_small by lia. rewrite !(proj2 (Z.ltb_ge _ _)) by lia.
  assert (forall i, (i < length (counts_ h1))%nat -> counts_ h1 !! i = Some (tally h vs1 (Z.of_nat i)) /\ counts_ h2 !! i = Some (tally h vs2 (Z.of_nat i)) /\ counts_ hm !! i = Some (tally h vs1 (Z.of_nat i) + tally h vs2 (Z.of_nat i))) as Hlk.
  { intros i Hi. rewrite <- (Nat2Z.id i) at 1 3 5. unfold zlen in L1. pose proof (tally_small h vs1 (Z.of_nat i)). pose proof (tally_small h vs2 (Z.of_nat i)).
    rewrite (count_of h1 vs1 d1), (count_of h2 vs2 d2), (count_of hm _ _ _ Km), tally_app by (done || lia). rewrite !wrap_small by lia. done. }
  assert (zip_with (fun a b => a - b) (counts_ hm) (counts_ h2) = counts_ h1) as Ecs.
  { apply list_eq. intros i. rewrite lookup_zip_with. destruct (decide (i < length (counts_ h1))%nat) as [Hi|Hi].
    - destruct (Hlk i Hi) as (-> & -> & ->). cbn. f_equal. lia.
    - rewrite !lookup_ge_None_2 by (unfold zlen in *; lia). done. }
  assert (forallb (fun '(a, b) => negb (a <? b)) (zip (counts_ hm) (counts_ h2)) = true) as ->.
  { apply forallb_forall. intros [a b] Hin%list_elem_of_In. apply list_elem_of_lookup_1 in Hin as [i Hi]. apply lookup_zip_with_Some in Hi as (x & y & [= -> ->] & Hx & Hy).
    assert (i < length (counts_ h1))%nat as Hil by (apply lookup_lt_Some in Hx; unfold zlen in *; lia). destruct (Hlk i Hil) as (_ & E2 & Em). simplify_eq.
    rewrite (proj2 (Z.ltb_ge _ _)); [done|]. pose proof (tally_small h vs1 (Z.of_nat i)). lia. }
  cbn [negb]. rewrite Ecs. pose proof (extremes_spec hm (counts_ h1) 0 UINT64_MAX 0) as He. destruct (extremes hm (counts_ h1) 0 UINT64_MAX 0) as [mn mx].
  destruct He as (_ & _ & H3 & H4 & H5). eexists. split; [reflexivity|]. cbn.
  assert (forall v, v ∈ vs1 -> 0 <= v <= highest_trackable_value_ hm) as Hr.
  { intros v Hv. apply (sample_range hm u M B Sm (vs1 ++ vs2) (d1 + d2) Tm). apply elem_of_app. by left. }
  assert (forall v, v ∈ vs1 -> counts_index_for h v = counts_index_for hm v) as Hidx by (intros v _; by destruct Cm as (? & ? & ? & ? & ? & ->)).
  pose proof (top_spec hm u M B Sm) as Hnext.
  assert (forall v, v ∈ vs1 -> exists j c, counts_ h1 !! j = Some c /\ 0 < c /\ value_from_index hm (0 + Z.of_nat j) = bucket_low u M v) as Hbucket.
  { intros v Hv. pose proof (index_range hm u M B Sm v (Hr v Hv)) as Hi. rewrite (config_len h hm Cm) in Hi. exists (Z.to_nat (counts_index_for h v)), (tally h vs1 (counts_index_for h v)).
    rewrite Hidx in * by done. destruct (Hlk (Z.to_nat (counts_index_for hm v))) as (E & _); [unfold zlen in *; lia|]. rewrite Z2Nat.id in * by lia. split; [done|].
    split; [rewrite <- (Hidx v Hv); by apply tally_in|]. rewrite Z.add_0_l. by apply (value_index hm u M B Sm), Hr. }
  assert (forall j c, counts_ h1 !! j = Some c -> 0 < c -> exists v, v ∈ vs1 /\ value_from_index hm (0 + Z.of_nat j) = bucket_low u M v) as Hsample.
  { intros j c Hj Hc. destruct (Hlk j) as (E & _); [by eapply lookup_lt_Some|]. rewrite E in Hj. injection Hj as <-. apply tally_pos in Hc as (v & Hv & Ev). exists v. split; [done|].
    rewrite Z.add_0_l, <- Ev, Hidx by done. by apply (value_index hm u M B Sm), Hr. }
  split_and!; try done.
  - by destruct Cm as (? & ? & ? & ? & ? & ->); eexists _, _, _, _, _.
  - rewrite (t_total _ _ _ T1), wrap_small by lia. lia.
  - rewrite (t_dropped _ _ _ T1), wrap_small by lia. lia.
  - intros Enil. assert (forall j c, counts_ h1 !! j = Some c -> 0 < c -> False) as Hno by (intros j c Hj Hc; destruct (Hsample j c Hj Hc) as (v & Hv & _); rewrite Enil in Hv; by apply elem_of_nil in Hv).
    split; [destruct H4 as [?|(j & c & Hj & Hc & _)]; [done|by destruct (Hno j c)]|destruct H5 as [?|(j & c & Hj & Hc & _)]; [done|by destruct (Hno j c)]].
  - intros v Hv. destruct (Hbucket v Hv) as (j & c & Hj & Hc & E). destruct (H3 j c Hj Hc) as [Hm1 Hm2]. rewrite E in Hm1, Hm2. rewrite Hnext in Hm2 by (by apply Hr).
    destruct (bucket_low_bounds hm u M B Sm v) as [Hb1 Hb2]; [apply Hr; done|]. lia.
  - intros Hne. assert (exists v, v ∈ vs1) as [v Hv] by (destruct vs1 as [|v vs]; [done|exists v; apply list_elem_of_here]).
    destruct (Hbucket v Hv) as (j0 & c0 & Hj0 & Hc0 & Ev). destruct (H3 j0 c0 Hj0 Hc0) as [Hm1 Hm2]. rewrite Ev in Hm1, Hm2. rewrite Hnext in Hm2 by (by apply Hr).
    destruct (range_small hm u M B Sm v (Hr v Hv)). split.
    + destruct H4 as [E|(j & c & Hj & Hc & ->)]; [unfold UINT64_MAX in *; lia|by eapply Hsample].
    + destruct H5 as [E|(j & c & Hj & Hc & ->)]; [exists v; split; [done|lia]|]. destruct (Hsample j c Hj Hc) as (w & Hw & Ew). exists w. split; [done|]. rewrite Ew. by apply Hnext, Hr.
Qed.
End merging.

Section merge_property.
Context (floor_log2 : Z -> Z) (floor_log2_spec : forall x, 1 <= x < 2 ^ 32 -> floor_log2 x = Z.log2 x).

(** Merging and subtracting.  Two histograms of one configuration that took the samples
    [vs1] and [vs2] merge into one that has taken both; while the totals stay below 2^64,
    subtracting the second from it succeeds and restores every counter, the total and the
    dropped count of the first, with a minimum and maximum that are the ends of the outermost
    buckets with samples, so that they enclose all its samples. *)
Theorem histogram_merge_subtract lowest highest sf ops1 ops2 : 1 <= lowest < 2 ^ 32 -> 2 * lowest <= highest < 2 ^ 62 -> 1 <= sf <= 5 ->
  Forall hist_op_ok ops1 -> Forall hist_op_ok ops2 ->
  let '(rs1, (vs1, d1)) := samples_run lowest highest ops1 ([], 0) in let '(rs2, (vs2, d2)) := samples_run lowest highest ops2 ([], 0) in
  zlen vs1 + zlen vs2 < 2 ^ 64 -> 0 <= d1 -> 0 <= d2 -> d1 + d2 < 2 ^ 64 ->
  exists h h1 h2 hm hs, hist_create floor_log2 lowest highest sf = Some (Ok h) /\ hist_run ops1 h = Some (rs1, h1) /\ hist_run ops2 h = Some (rs2, h2) /\
    merge h2 h1 = (true, hm) /\ tallied hm (vs1 ++ vs2) (d1 + d2) /\
    subtract h2 hm = (true, hs) /\ counts_ hs = counts_ h1 /\ total_count_ hs = total_count_ h1 /\ dropped_count_ hs = dropped_count_ h1 /\
    (forall v, v ∈ vs1 -> min_value_ hs <= v <= max_value_ hs) /\
    (vs1 <> [] -> (exists v, v ∈ vs1 /\ min_value_ hs = lowest_equivalent_value h v) /\ (exists v, v ∈ vs1 /\ max_value_ hs = next_non_equivalent_value h v - 1)).
Proof.
  intros Hl Hh Hsf Ho1 Ho2. destruct (hist_create_ok floor_log2 floor_log2_spec lowest highest sf Hl Hh Hsf) as (h & M & B & Hcr & Hs & Hp & Ht & El & Eh).
  pose proof (hist_run_ok (Z.log2 lowest) M B ops1 Ho1 h [] 0 Hs Ht) as R1. pose proof (hist_run_ok (Z.log2 lowest) M B ops2 Ho2 h [] 0 Hs Ht) as R2. rewrite El, Eh in R1, R2.
  destruct (samples_run lowest highest ops1 ([], 0)) as [rs1 [vs1 d1]], (samples_run lowest highest ops2 ([], 0)) as [rs2 [vs2 d2]].
  destruct R1 as (h1 & R1 & K1). destruct R2 as (h2 & R2 & K2). intros Hz Hd1 Hd2 Hd. destruct (merge_ok h _ M B h1 h2 vs1 vs2 d1 d2 K1 K2) as (hm & Hmrg & Km).
  destruct (subtract_ok h _ M B h1 h2 vs1 vs2 d1 d2 K1 K2 hm Km Hz Hd1 Hd2 Hd) as (hs & Hsub & _ & E1 & E2 & E3 & _ & Henc & Hends).
  exists h, h1, h2, hm, hs. pose proof Km as (_ & _ & Tm). split_and!; try done. intros Hne. destruct (Hends Hne) as [(v & Hv & Ev) (w & Hw & Ew)].
  assert (forall x, x ∈ vs1 -> 0 <= x <= highest_trackable_value_ h) as Hr.
  { intros x Hx. destruct K1 as (C1 & S1 & T1). pose proof (sample_range h1 _ M B S1 vs1 d1 T1 x Hx). by destruct C1 as (? & ? & ? & ? & ? & ->). }
  split; [exists v|exists w]; (split; [done|]); [by rewrite (lowest_spec h _ M B Hs) by (by apply Hr)|by rewrite (next_spec h _ M B Hs) by (by apply Hr)].
Qed.
End merge_property.

(** ** Examples *)

Lemma histogram_counts_witness : exists h h', hist_create Z.log2 1 1000000 2 = Some (Ok h) /\
  hist_run [Record_ 1000; RecordValues 1001 2; RecordCorrected 30 10; Record_ 2000000] h = Some ([true; true; true; false], h') /\ total_count_ h' = 6.
Proof.
  destruct (histogram_counts Z.log2 (fun _ _ => eq_refl) 1 1000000 2 [Record_ 1000; RecordValues 1001 2; RecordCorrected 30 10; Record_ 2000000]
    ltac:(lia) ltac:(lia) ltac:(lia) ltac:(repeat constructor; cbn; lia)) as (h & h' & Hc & Hr & Ht & _). exists h, h'.
  split; [exact Hc|]. split; [exact Hr|exact Ht].
Defined.

Lemma histogram_percentile_witness : exists h h' r, hist_create Z.log2 1 1000000 2 = Some (Ok h) /\
  hist_run [Record_ 1000; Record_ 50; Record_ 70] h = Some ([true; true; true], h') /\ get_value_at_percentile (double_of_int 50) h' = Some r /\
  (Z.abs (r - 70) <= 1 \/ Z.abs (r - 70) * 100 <= 70).
Proof.
  destruct (histogram_percentile Z.log2 (fun _ _ => eq_refl) 1 1000000 2 [Record_ 1000; Record_ 50; Record_ 70] (double_of_int 50) 2 [50; 70; 1000]
    ltac:(lia) ltac:(lia) ltac:(lia) ltac:(repeat constructor)) as (h & h' & r & Hc & Hr & Hg & x & Hx & He);
    [discriminate|reflexivity|apply (perm_swap 70 50 [1000])|repeat constructor; lia|reflexivity|reflexivity|vm_compute; reflexivity|lia|].
  exists h, h', r. cbn in Hx. injection Hx as <-. split; [exact Hc|]. split; [exact Hr|]. split; [exact Hg|exact He].
Defined.

Lemma histogram_merge_subtract_witness : exists h h1 h2 hm hs, hist_create Z.log2 1 1000000 2 = Some (Ok h) /\
  hist_run [Record_ 1000] h = Some ([true], h1) /\ hist_run [Record_ 50; Record_ 0] h = Some ([true; false], h2) /\
  merge h2 h1 = (true, hm) /\ subtract h2 hm = (true, hs) /\ counts_ hs = counts_ h1.
Proof.
  destruct (histogram_merge_subtract Z.log2 (fun _ _ => eq_refl) 1 1000000 2 [Record_ 1000] [Record_ 50; Record_ 0]
    ltac:(lia) ltac:(lia) ltac:(lia) ltac:(repeat constructor) ltac:(repeat constructor)) as (h & h1 & h2 & hm & hs & H); [reflexivity|vm_compute; discriminate|vm_compute; discriminate|reflexivity|].
  destruct H as (Hc & H1 & H2 & H3 & _ & H4 & H5 & _). exists h, h1, h2, hm, hs.
  split; [exact Hc|]. split; [exact H1|]. split; [exact H2|]. split; [exact H3|]. split; [exact H4|exact H5].
Defined.

(** With a highest value of 2^63 or more the size is computed from a negative number: the
    histogram has room for one bucket, and drops samples of its own range. *)
Lemma histogram_high_range_dropped : exists h, hist_create Z.log2 1 UINT64_MAX 3 = Some (Ok h) /\ counts_len_ h = 2048 /\
  (fun r => (r.1, dropped_count_ r.2)) <$> record 5000 h = Some (false, 1).
Proof. eexists. split; [vm_compute; reflexivity|]. by vm_compute. Qed.

(** With a lowest value of 2^53 and three figures the first bucket bound overflows to 0, which
    doubling never changes: the constructor does not return. *)
Lemma histogram_create_diverges : to_int64 (Z.shiftl (2 ^ 11) 53) = 0 /\ forall fuel n, buckets_loop fuel 0 n (2 ^ 54) = None.
Proof. split; [done|]. induction fuel as [|fuel IH]; [done|]. intros n. apply IH. Qed.

(** The example of the comment on [record_corrected], interval 10 and value 50: besides the
    samples 40, 30 and 20 it names, the code records 10. *)
Lemma record_corrected_example : stalled 1 50 10 = [40; 30; 20; 10] /\
  exists h h', hist_create Z.log2 1 1000000 2 = Some (Ok h) /\ hist_run [RecordCorrected 50 10] h = Some ([true], h') /\
    total_count_ h' = 5 /\ min_value_ h' = 10 /\ counts_ h' !! Z.to_nat (counts_index_for h' 10) = Some 1.
Proof.
  split; [vm_compute; reflexivity|]. eexists _, _. split; [vm_compute; reflexivity|]. split; [vm_compute; reflexivity|].
  split; [vm_compute; reflexivity|]. split; [vm_compute; reflexivity|]. vm_compute. reflexivity.
Qed.
