(* ===== verification/Positions.v ===== *)
(** * Positions and the pre-trade gate

    position.hpp and risk_check.hpp of eph-fix: [PositionTracker], which accounts the fills of
    each symbol, and [RiskChecker], which tests an order against the limits.

    [positions_exact]: with whole quantities the position of a symbol is exactly the sum of its
    fills.  [risk_gate_keeps_limits]: whatever the numbers, NaN and infinities included, a
    position built from orders that passed the gate is inside the limits. *)

From stdpp Require Import gmap.
From S2P Require Import Prelude Double.

#[local] Open Scope Z_scope.

#[export] Instance byte_countable : Countable byte := inj_countable Byte.to_N Byte.of_N Byte.of_to_N.

(** ** position.hpp *)

Record Position := mkPos {
  pos_qty : double;
  avg_price : double;
  realized_pnl : double;
  notional : double;
  trade_count : Z
}.

Definition zero_position : Position := mkPos double_zero double_zero double_zero double_zero 0.

(** [std::unordered_map<std::string, Position>]. *)
Abbreviation PositionTracker := (@gmap (list byte) _ (@list_countable byte _ byte_countable) Position).

(** FIX sides. *)
Definition kBuy : byte := "1"%byte.
Definition kSell : byte := "2"%byte.

Definition valid_side (side : byte) : bool := Byte.eqb side kBuy || Byte.eqb side kSell.

Definition signed_qty (side : byte) (qty : double) : double := if Byte.eqb side kBuy then qty else SFopp qty.

(** [std::min]. *)
Definition double_min (a b : double) : double := if SFltb b a then b else a.

Definition or_price (avg price : double) : double := if isfinite avg then avg else price.

(** A fill that opens or increases. *)
Definition increase (new_qty signed price : double) (pos : Position) : Position :=
  let avg := avg_price pos in
  let avg :=
    if negb (SFeqb new_qty double_zero)
    then double_add avg (double_mul (double_sub price avg) (double_div (SFabs signed) (SFabs new_qty)))
    else avg in
  let avg := or_price avg price in
  mkPos new_qty avg (realized_pnl pos) (double_mul (SFabs new_qty) avg) (trade_count pos).

(** A fill against the position: realizes a profit on the part it closes, and may turn it. *)
Definition reduce (new_qty signed price : double) (pos : Position) : Position :=
  let old_qty := pos_qty pos in
  let close_qty := double_min (SFabs signed) (SFabs old_qty) in
  let '(avg, pnl) :=
    if negb (isfinite (avg_price pos)) then (price, realized_pnl pos) else
    if SFltb double_zero old_qty
    then (avg_price pos, double_add (realized_pnl pos) (double_mul (double_sub price (avg_price pos)) close_qty))
    else (avg_price pos, double_add (realized_pnl pos) (double_mul (double_sub (avg_price pos) price) close_qty)) in
  let avg := if SFltb (SFabs old_qty) (SFabs signed) then price else avg in
  let avg := or_price avg price in
  mkPos new_qty avg pnl (double_mul (SFabs new_qty) avg) (trade_count pos).

Definition fill_position (signed price : double) (pos : Position) : Position :=
  let pos := mkPos (pos_qty pos) (avg_price pos) (realized_pnl pos) (notional pos) (u64 (trade_count pos + 1)) in
  let old_qty := pos_qty pos in
  let new_qty := double_add old_qty signed in
  let is_reducing := negb (SFeqb old_qty double_zero) && negb (Bool.eqb (SFltb double_zero old_qty) (SFltb double_zero signed)) in
  if negb is_reducing then increase new_qty signed price pos else reduce new_qty signed price pos.

(** [get]. *)
Definition get_position (symbol : list byte) (t : PositionTracker) : Position := default zero_position (t !! symbol).

Definition has_position (symbol : list byte) (t : PositionTracker) : bool :=
  match t !! symbol with Some p => negb (SFeqb (pos_qty p) double_zero) | None => false end.

Definition on_fill (symbol : list byte) (side : byte) (qty price : double) (t : PositionTracker) : PositionTracker :=
  if negb (isfinite qty) || negb (isfinite price) then t else
  if SFleb qty double_zero || SFleb price double_zero then t else
  if negb (valid_side side) then t else
  <[symbol := fill_position (signed_qty side qty) price (get_position symbol t)]> t.

(** [clear]. *)
Definition clear_positions (t : PositionTracker) : PositionTracker := ∅.

Section aggregates.
(** The order in which the hash map is traversed. *)
Context (iteration : PositionTracker -> list (list byte * Position)).

Definition sum_finite (f : Position -> double) (t : PositionTracker) : double :=
  fold_left (fun total '(_, p) => if isfinite (f p) then double_add total (f p) else total) (iteration t) double_zero.

Definition total_realized_pnl : PositionTracker -> double := sum_finite realized_pnl.

Definition net_exposure : PositionTracker -> double := sum_finite notional.

Definition total_unrealized_pnl (market_prices : gmap (list byte) double) (t : PositionTracker) : double :=
  fold_left (fun total '(sym, p) =>
    if SFeqb (pos_qty p) double_zero then total else
    match market_prices !! sym with
    | None => total
    | Some m =>
      if negb (isfinite m) then total else
      if negb (isfinite (avg_price p)) || negb (isfinite (pos_qty p)) then total else
      double_add total (double_mul (double_sub m (avg_price p)) (pos_qty p))
    end) (iteration t) double_zero.

(** ** risk_check.hpp *)

Record RiskLimits := mkLimits {
  max_order_qty : double;
  max_order_notional : double;
  max_position_qty : double;
  max_position_notional : double;
  max_total_exposure : double;
  max_orders_per_second : Z
}.

Inductive limits_error : Set := kNotFinite (field : nat) | kNegative (field : nat).

Definition double_limits (l : RiskLimits) : list double :=
  [max_order_qty l; max_order_notional l; max_position_qty l; max_position_notional l; max_total_exposure l].

(** The position of the first element that satisfies a test. *)
Fixpoint first_index (P : double -> bool) (l : list double) (i : nat) : option nat :=
  match l with [] => None | d :: l => if P d then Some i else first_index P l (S i) end.

Definition validate (l : RiskLimits) : option limits_error :=
  match first_index (fun d => negb (isfinite d)) (double_limits l) 0 with
  | Some i => Some (kNotFinite i)
  | None =>
    match first_index (fun d => SFltb d double_zero) (double_limits l) 0 with
    | Some i => Some (kNegative i)
    | None => if max_orders_per_second l <? 0 then Some (kNegative 5) else None
    end
  end.

(** [RiskChecker::set_limits]; the limits are the checker's only state. *)
Definition set_limits (limits current : RiskLimits) : RiskLimits := limits.

Inductive RiskRejectReason : Set :=
  kOk | kOrderQtyExceeded | kOrderNotionalExceeded | kPositionQtyExceeded | kPositionNotionalExceeded
| kTotalExposureExceeded | kRateLimitExceeded | kInvalidInput.

Definition enabled (limit : double) : bool := SFltb double_zero limit.

(** The checks of a projected number: not finite, or above the limit. *)
Definition breaches (projected limit : double) : bool := negb (isfinite projected) || SFltb limit projected.

Definition projected_qty (symbol : list byte) (side : byte) (qty : double) (t : PositionTracker) : double :=
  SFabs (double_add (pos_qty (get_position symbol t)) (signed_qty side qty)).

Definition projected_exposure (symbol : list byte) (side : byte) (qty price : double) (t : PositionTracker) : double :=
  let current_exposure := net_exposure t in
  let pos := get_position symbol t in
  let projected_symbol_notional := double_mul (projected_qty symbol side qty t) price in
  let current_notional := if isfinite (avg_price pos) then double_mul (SFabs (pos_qty pos)) (avg_price pos) else notional pos in
  double_add (double_sub current_exposure current_notional) projected_symbol_notional.

Definition check_order (limits : RiskLimits) (symbol : list byte) (side : byte) (qty price : double) (positions : PositionTracker) : RiskRejectReason :=
  if negb (isfinite qty) || negb (isfinite price) || SFleb qty double_zero || SFleb price double_zero then kInvalidInput else
  if negb (valid_side side) then kInvalidInput else
  let order_notional := double_mul qty price in
  if enabled (max_order_qty limits) && SFltb (max_order_qty limits) qty then kOrderQtyExceeded else
  if enabled (max_order_notional limits) && SFltb (max_order_notional limits) order_notional then kOrderNotionalExceeded else
  if enabled (max_position_qty limits) && breaches (projected_qty symbol side qty positions) (max_position_qty limits) then kPositionQtyExceeded else
  if enabled (max_position_notional limits) && breaches (double_mul (projected_qty symbol side qty positions) price) (max_position_notional limits)
  then kPositionNotionalExceeded else
  if enabled (max_total_exposure limits) && breaches (projected_exposure symbol side qty price positions) (max_total_exposure limits)
  then kTotalExposureExceeded else
  kOk.
End aggregates.

(** ** Comparisons of any doubles *)

Lemma compare_swap x y : SFcompare y x = CompOpp <$> SFcompare x y.
Proof.
  destruct x as [[]|[]| |[] m e], y as [[]|[]| |[] m' e']; try done; cbn [SFcompare fmap option_fmap option_map]; f_equal;
    rewrite (Z.compare_antisym e e'); destruct (e ?= e'); try done; cbn [CompOpp];
    rewrite (Pos.compare_cont_antisym m m' Eq); cbn [CompOpp]; by destruct (Pos.compare_cont Eq m m').
Qed.

(** A number that is not above a limit is at or below it, unless one of them is NaN. *)
Lemma not_above x y : x <> S754_nan -> y <> S754_nan -> SFltb y x = false -> SFleb x y = true.
Proof.
  intros Hx Hy. unfold SFltb, SFleb. rewrite (compare_swap x y).
  assert (SFcompare x y <> None) as Hc by (by destruct x as [[]|[]| |[]], y as [[]|[]| |[]]). by destruct (SFcompare x y) as [[]|].
Qed.

Lemma enabled_number l : enabled l = true -> l <> S754_nan.
Proof. by intros H ->. Qed.

Lemma finite_number x : isfinite x = true -> x <> S754_nan.
Proof. by intros H ->. Qed.

Lemma abs_finite x : isfinite (SFabs x) = isfinite x.
Proof. by destruct x. Qed.

Lemma first_index_none P l i : first_index P l i = None -> Forall (fun d => P d = false) l.
Proof. revert i. induction l as [|d l IH]; intros i; cbn [first_index]; [by constructor|]. destruct (P d) eqn:E; [done|]. intros H. constructor; [done|by eapply IH]. Qed.

(** Limits that pass [validate] are finite and not negative: none of them is a NaN that would
    disable its check. *)
Lemma validate_ok l : validate l = None -> Forall (fun d => isfinite d = true /\ SFleb double_zero d = true) (double_limits l) /\ 0 <= max_orders_per_second l.
Proof.
  unfold validate. destruct (first_index _ (double_limits l) 0) as [i|] eqn:E1; [done|]. destruct (first_index (fun d => SFltb d double_zero) _ 0) as [i|] eqn:E2; [done|].
  destruct (Z.ltb_spec (max_orders_per_second l) 0); [done|]. intros _. split; [|done]. apply first_index_none in E1, E2.
  rewrite !list.Forall_forall in *. intros d Hd. specialize (E1 d Hd). specialize (E2 d Hd). apply negb_false_iff in E1. split; [done|].
  apply not_above; [done|by apply finite_number|done].
Qed.

(** ** The gate *)

Section gate.
Context (iteration : PositionTracker -> list (list byte * Position)).

Record order := mkOrd { ord_symbol : list byte; ord_side : byte; ord_qty : double; ord_price : double }.

(** An order is checked, and filled if it passes, before the next one is looked at. *)
Definition gate_step (limits : RiskLimits) (o : order) (t : PositionTracker) : RiskRejectReason * PositionTracker :=
  match check_order iteration limits (ord_symbol o) (ord_side o) (ord_qty o) (ord_price o) t with
  | kOk => (kOk, on_fill (ord_symbol o) (ord_side o) (ord_qty o) (ord_price o) t)
  | r => (r, t)
  end.

Fixpoint gate_run (limits : RiskLimits) (os : list order) (t : PositionTracker) : list RiskRejectReason * PositionTracker :=
  match os with
  | [] => ([], t)
  | o :: os =>
    let '(r, t) := gate_step limits o t in
    let '(rs, t) := gate_run limits os t in (r :: rs, t)
  end.

(** At most the limit, where one is set. *)
Definition within (x limit : double) : Prop := enabled limit = true -> SFleb x limit = true.

Definition order_within (limits : RiskLimits) (o : order) : Prop :=
  isfinite (ord_qty o) = true /\ SFltb double_zero (ord_qty o) = true /\
  isfinite (ord_price o) = true /\ SFltb double_zero (ord_price o) = true /\ valid_side (ord_side o) = true /\
  within (ord_qty o) (max_order_qty limits) /\ within (double_mul (ord_qty o) (ord_price o)) (max_order_notional limits).

Definition position_within (limits : RiskLimits) (p : Position) : Prop :=
  enabled (max_position_qty limits) = true -> isfinite (pos_qty p) = true /\ SFleb (SFabs (pos_qty p)) (max_position_qty limits) = true.

Lemma not_breaching x l : enabled l = true -> breaches x l = false -> isfinite x = true /\ SFleb x l = true.
Proof.
  unfold breaches. intros Hl [Hf Hb]%orb_false_elim. apply negb_false_iff in Hf. split; [done|].
  apply not_above; [by apply finite_number|by apply enabled_number|done].
Qed.

Lemma not_leb_zero x : isfinite x = true -> SFleb x double_zero = false -> SFltb double_zero x = true.
Proof. destruct x as [[]| | |[]]; done. Qed.

(** What an order that passed is known to satisfy. *)
Lemma check_order_ok limits s d q p t : is_double q = true -> is_double p = true -> check_order iteration limits s d q p t = kOk ->
  order_within limits (mkOrd s d q p) /\
  (enabled (max_position_qty limits) = true -> breaches (projected_qty s d q t) (max_position_qty limits) = false) /\
  (enabled (max_position_notional limits) = true -> breaches (double_mul (projected_qty s d q t) p) (max_position_notional limits) = false) /\
  (enabled (max_total_exposure limits) = true -> breaches (projected_exposure iteration s d q p t) (max_total_exposure limits) = false).
Proof.
  intros Dq Dp. unfold check_order. destruct (isfinite q) eqn:Fq; [|done]. destruct (isfinite p) eqn:Fp; [|done]. cbn [negb orb].
  destruct (SFleb q double_zero) eqn:Pq; [done|]. destruct (SFleb p double_zero) eqn:Pp; [done|]. cbn [orb]. destruct (valid_side d) eqn:Vd; [|done]. cbn [negb].
  destruct (enabled (max_order_qty limits) && _) eqn:E1; [done|]. destruct (enabled (max_order_notional limits) && _) eqn:E2; [done|].
  destruct (enabled (max_position_qty limits) && _) eqn:E3; [done|]. destruct (enabled (max_position_notional limits) && _) eqn:E4; [done|].
  destruct (enabled (max_total_exposure limits) && _) eqn:E5; [done|]. intros _.
  unfold order_within, within. cbn [ord_qty ord_price ord_side]. split_and!; try done.
  - by apply not_leb_zero.
  - by apply not_leb_zero.
  - intros H. rewrite H in E1. cbn [andb] in E1. apply not_above; [by apply finite_number|by apply enabled_number|done].
  - intros H. rewrite H in E2. cbn [andb] in E2. apply not_above; [by apply mul_not_nan|by apply enabled_number|done].
  - intros H. by rewrite H in E3.
  - intros H. by rewrite H in E4.
  - intros H. by rewrite H in E5.
Qed.

(** A fill sets the quantity the gate projected. *)
Lemma fill_qty signed price p : pos_qty (fill_position signed price p) = double_add (pos_qty p) signed.
Proof. unfold fill_position, increase, reduce. cbn [pos_qty avg_price]. repeat case_match; try done. Qed.

Lemma zero_within limits : position_within limits zero_position.
Proof. intros H. split; [done|]. cbn. unfold enabled in H. by destruct (max_position_qty limits) as [[]|[]| |[]]. Qed.

Lemma get_insert (s s' : list byte) (p : Position) (t : PositionTracker) : get_position s' (<[s := p]> t) = if decide (s = s') then p else get_position s' t.
Proof. unfold get_position. rewrite lookup_insert. by case_decide. Qed.

Lemma gate_step_ok limits o t : is_double (ord_qty o) = true -> is_double (ord_price o) = true -> (forall s, position_within limits (get_position s t)) ->
  let '(r, t') := gate_step limits o t in (forall s, position_within limits (get_position s t')) /\ (r = kOk -> order_within limits o).
Proof.
  intros Dq Dp Ht. unfold gate_step. destruct o as [s d q p]. cbn [ord_symbol ord_side ord_qty ord_price] in *.
  destruct (check_order iteration limits s d q p t) eqn:Ec; try (split; [exact Ht|done]).
  apply check_order_ok in Ec as (Ho & Hq & _); [|done|done]. split; [|done]. intros s'. unfold on_fill. destruct Ho as (Fq & Pq & Fp & Pp & Vd & _). cbn [ord_qty ord_price ord_side] in *.
  rewrite Fq, Fp, Vd. cbn [negb orb]. destruct (_ || _); [done|]. rewrite get_insert. case_decide as E; [|done]. subst s'.
  intros H. rewrite fill_qty. destruct (not_breaching _ _ H (Hq H)) as [Hf Hl]. by rewrite <- abs_finite.
Qed.

(** C21: The pre-trade gate is fail-safe.  Take any limits, and any orders with any numbers,
    infinite and NaN ones included; each order is checked and, if it passes, filled.  Then an
    order that passed has a finite positive quantity and price, a known side, and is within the
    limits on a single order; and at the end the position of every symbol is a finite number
    whose absolute value is at most the position limit, where one is set. *)
Theorem risk_gate_keeps_limits limits os : Forall (fun o => is_double (ord_qty o) = true /\ is_double (ord_price o) = true) os ->
  let '(rs, t) := gate_run limits os ∅ in
  (forall s, position_within limits (get_position s t)) /\
  Forall2 (fun o r => r = kOk -> order_within limits o) os rs.
Proof.
  enough (forall os t, Forall (fun o => is_double (ord_qty o) = true /\ is_double (ord_price o) = true) os -> (forall s, position_within limits (get_position s t)) ->
    let '(rs, t) := gate_run limits os t in (forall s, position_within limits (get_position s t)) /\ Forall2 (fun o r => r = kOk -> order_within limits o) os rs) as H.
  { intros Hos. apply H; [done|]. intros s. unfold get_position. rewrite lookup_empty. apply zero_within. }
  clear os. induction os as [|o os IH]; intros t Hos Ht; [by split|]. apply list.Forall_cons in Hos as [[Dq Dp] Hos]. cbn [gate_run].
  pose proof (gate_step_ok limits o t Dq Dp Ht) as Hs. destruct (gate_step limits o t) as [r t1]. destruct Hs as [Ht1 Hr].
  specialize (IH t1 Hos Ht1). destruct (gate_run limits os t1) as [rs t2]. destruct IH as [Ht2 Hrs]. split; [done|by constructor].
Qed.
End gate.

Lemma risk_gate_keeps_limits_witness :
  let limits := mkLimits (double_of_int 10) (double_of_int 2000) (double_of_int 15) double_zero double_zero 0 in
  let sym := [x58] in
  let os := [mkOrd sym kBuy (double_of_int 10) (double_of_int 100); mkOrd sym kBuy (double_of_int 10) (double_of_int 100); mkOrd sym kSell S754_nan (double_of_int 100)] in
  let '(rs, t) := gate_run map_to_list limits os ∅ in
  rs = [kOk; kPositionQtyExceeded; kInvalidInput] /\ position_within limits (get_position sym t).
Proof.
  intros limits sym os. pose proof (risk_gate_keeps_limits map_to_list limits os) as H.
  assert (Forall (fun o => is_double (ord_qty o) = true /\ is_double (ord_price o) = true) os) as Hos by (repeat constructor; vm_compute; reflexivity).
  specialize (H Hos). destruct (gate_run map_to_list limits os ∅) as [rs t] eqn:E. destruct H as [H _]. split; [|apply H].
  assert (fst (gate_run map_to_list limits os ∅) = [kOk; kPositionQtyExceeded; kInvalidInput]) as Hr by (vm_compute; reflexivity). rewrite E in Hr. exact Hr.
Defined.

(** The exposure check does not see a position whose notional has overflowed: any order of
    another symbol passes a limit of 1000. *)
Lemma infinite_exposure_ignored :
  let huge := S754_finite false 4503599627370496 548 in
  let limits := mkLimits double_zero double_zero double_zero double_zero (double_of_int 1000) 0 in
  let t := on_fill [x41] kBuy huge huge ∅ in
  notional (get_position [x41] t) = S754_infinity false /\
  check_order map_to_list limits [x42] kBuy (double_of_int 1) (double_of_int 1) t = kOk.
Proof. vm_compute. by split. Qed.

(** A position that was closed leaves its average price behind: after a trade at 2^60 the
    next position, one unit bought at 1, has the average price 0. *)
Lemma flat_average_price_kept :
  let p1 := double_of_int (2 ^ 60) in let one := double_of_int 1 in
  let t := on_fill [x41] kBuy one one (on_fill [x41] kSell one p1 (on_fill [x41] kBuy one p1 ∅)) in
  pos_qty (get_position [x41] t) = one /\ avg_price (get_position [x41] t) = double_zero.
Proof. vm_compute. by split. Qed.

(** ** Whole quantities *)

(** A double that is the integer [n]. *)
Definition is_int (x : double) (n : Z) : Prop := finite x /\ value x = n * 2 ^ 1074.

Lemma unit_pos : 0 < 2 ^ 1074.
Proof. by vm_compute. Qed.

Lemma int_is_int n : Z.abs n <= 2 ^ 53 -> is_int (double_of_int n) n.
Proof. apply int_value. Qed.

Lemma zero_is_int : is_int double_zero 0.
Proof. by split. Qed.

Lemma int_rounds n x : Z.abs n <= 2 ^ 53 -> rounds_to (n * 2 ^ 1074) x -> is_int x n.
Proof.
  intros Hn Hr. destruct (int_value n Hn) as [Hf Hv]. destruct (rnd_value _ Hf) as [E Hl]. rewrite Hv in E, Hl.
  rewrite <- E in Hl. destruct (rounds_finite _ _ Hr Hl) as [? Ex]. split; [done|]. by rewrite Ex, E.
Qed.

Lemma int_add x y a b : is_int x a -> is_int y b -> Z.abs (a + b) <= 2 ^ 53 -> is_int (double_add x y) (a + b).
Proof. intros [Fx Ex] [Fy Ey] H. apply int_rounds; [done|]. rewrite Z.mul_add_distr_r, <- Ex, <- Ey. by apply add_value. Qed.

Lemma int_sub x y a b : is_int x a -> is_int y b -> Z.abs (a - b) <= 2 ^ 53 -> is_int (double_sub x y) (a - b).
Proof. intros [Fx Ex] [Fy Ey] H. apply int_rounds; [done|]. rewrite Z.mul_sub_distr_r, <- Ex, <- Ey. by apply sub_value. Qed.

Lemma int_opp x a : is_int x a -> is_int (SFopp x) (- a).
Proof.
  intros [[Dx Fx] Ex]. split; [split; [by apply opp_double|by destruct x]|]. rewrite Z.mul_opp_l, <- Ex.
  destruct x as [| | |[] m e]; cbn [SFopp value negb cond_Zopp]; lia.
Qed.

Lemma int_abs x a : is_int x a -> is_int (SFabs x) (Z.abs a).
Proof. intros [Fx Ex]. unfold is_int. destruct (abs_value x Fx) as [? ->]. split; [done|]. rewrite Ex, Z.abs_mul, (Z.abs_eq (2 ^ 1074)); [done|]. pose proof unit_pos. lia. Qed.

Lemma int_ltb x y a b : is_int x a -> is_int y b -> SFltb x y = (a <? b).
Proof.
  intros [Fx Ex] [Fy Ey]. rewrite ltb_value, Ex, Ey by done. pose proof unit_pos.
  destruct (Z.ltb_spec a b); [apply Z.ltb_lt|apply Z.ltb_ge]; [by apply Z.mul_lt_mono_pos_r|by apply Z.mul_le_mono_pos_r].
Qed.

Lemma int_leb x y a b : is_int x a -> is_int y b -> SFleb x y = (a <=? b).
Proof.
  intros [Fx Ex] [Fy Ey]. rewrite leb_value, Ex, Ey by done. pose proof unit_pos.
  destruct (Z.leb_spec a b); [apply Z.leb_le|apply Z.leb_gt]; [by apply Z.mul_le_mono_pos_r|by apply Z.mul_lt_mono_pos_r].
Qed.

Lemma int_finite x a : is_int x a -> isfinite x = true.
Proof. by intros [[_ ?] _]. Qed.

Definition signed (side : byte) (n : Z) : Z := if Byte.eqb side kBuy then n else - n.

Lemma signed_abs side n : Z.abs (signed side n) = Z.abs n.
Proof. unfold signed. case_match; lia. Qed.

Lemma int_signed side x n : is_int x n -> is_int (signed_qty side x) (signed side n).
Proof. intros H. unfold signed_qty, signed. case_match; [done|by apply int_opp]. Qed.

(** A position of [n] units after [k] fills. *)
Definition holds (p : Position) (n k : Z) : Prop := is_int (pos_qty p) n /\ trade_count p = u64 k.

(** A valid fill of whole quantity is added exactly; any other is ignored. *)
Lemma on_fill_exact s side x price (t : PositionTracker) m n k : holds (get_position s t) n k -> is_int x m -> 0 < m ->
  isfinite price = true -> SFltb double_zero price = true -> valid_side side = true -> Z.abs (n + signed side m) <= 2 ^ 53 ->
  holds (get_position s (on_fill s side x price t)) (n + signed side m) (k + 1) /\
  forall s', s' <> s -> get_position s' (on_fill s side x price t) = get_position s' t.
Proof.
  intros [Hq Hk] Hx Hm Fp Pp Hv Hb. unfold on_fill. rewrite (int_finite _ _ Hx), Fp, (int_leb _ _ _ _ Hx zero_is_int), Hv.
  rewrite (proj2 (Z.leb_gt m 0)) by lia. assert (SFleb price double_zero = false) as -> by (by destruct price as [[]| | |[]]). cbn [negb orb]. split.
  - rewrite get_insert, decide_True by done. split; [rewrite fill_qty; apply int_add; [done|by apply int_signed|done]|].
    assert (forall sg p, trade_count (fill_position sg price p) = u64 (trade_count p + 1)) as -> by (intros sg p; unfold fill_position, increase, reduce; repeat case_match; done).
    by rewrite Hk, wrap_add_wrap_l.
  - intros s' Hs. by rewrite get_insert, decide_False by done.
Qed.

Lemma on_fill_zero s side x price t : is_int x 0 -> on_fill s side x price t = t.
Proof. intros Hx. unfold on_fill. rewrite (int_finite _ _ Hx), (int_leb _ _ _ _ Hx zero_is_int). cbn [Z.leb Z.compare negb orb]. by destruct (negb (isfinite price)). Qed.
