(* ===== verification/Orders.v ===== *)
(** * Order management

    execution_report.hpp and order_manager.hpp of eph-fix: the typed view of an execution
    report and [OrderManager], which follows each order from its submission to a terminal
    state and passes its fills on to the [PositionTracker].

    [order_manager_ledger]: the manager computes an exact ledger of whole quantities, in which
    no order is filled beyond its size.  [positions_match_orders]: the position of a symbol is
    what its orders have filled.  [gate_bounds_fills]: an order that passed the pre-trade gate
    cannot take the position beyond the limit, however it is filled. *)

From stdpp Require Import gmap.
From S2P Require Import Prelude FixText FixTime Framers Fix FixView Double Book Positions.

#[local] Open Scope Z_scope.

(** ** Tags *)

Definition tag_ClOrdID : Z := 11.
Definition tag_OrderID : Z := 37.
Definition tag_ExecID : Z := 17.
Definition tag_ExecType : Z := 150.
Definition tag_OrdStatus : Z := 39.
Definition tag_Symbol : Z := 55.
Definition tag_Side : Z := 54.
Definition tag_CumQty : Z := 14.
Definition tag_AvgPx : Z := 6.
Definition tag_LastPx : Z := 31.
Definition tag_LastQty : Z := 32.
Definition tag_LeavesQty : Z := 151.
Definition tag_Text : Z := 58.

(** ** execution_report.hpp *)

Inductive ExecType : Set :=
  etNew | etPartialFill | etFill | etDoneForDay | etCanceled | etReplaced | etPendingCancel | etStopped | etRejected
| etSuspended | etPendingNew | etCalculated | etExpired | etPendingReplace | etTrade.

Inductive OrdStatus : Set :=
  osNew | osPartiallyFilled | osFilled | osDoneForDay | osCanceled | osReplaced | osPendingCancel | osStopped | osRejected
| osSuspended | osPendingNew | osCalculated | osExpired | osPendingReplace.

Definition to_exec_type (c : byte) : option ExecType :=
  match c with
  | "0"%byte => Some etNew | "1"%byte => Some etPartialFill | "2"%byte => Some etFill | "3"%byte => Some etDoneForDay
  | "4"%byte => Some etCanceled | "5"%byte => Some etReplaced | "6"%byte => Some etPendingCancel | "7"%byte => Some etStopped
  | "8"%byte => Some etRejected | "9"%byte => Some etSuspended | "A"%byte => Some etPendingNew | "B"%byte => Some etCalculated
  | "C"%byte => Some etExpired | "E"%byte => Some etPendingReplace | "F"%byte => Some etTrade
  | _ => None
  end.

Definition to_ord_status (c : byte) : option OrdStatus :=
  match c with
  | "0"%byte => Some osNew | "1"%byte => Some osPartiallyFilled | "2"%byte => Some osFilled | "3"%byte => Some osDoneForDay
  | "4"%byte => Some osCanceled | "5"%byte => Some osReplaced | "6"%byte => Some osPendingCancel | "7"%byte => Some osStopped
  | "8"%byte => Some osRejected | "9"%byte => Some osSuspended | "A"%byte => Some osPendingNew | "B"%byte => Some osCalculated
  | "C"%byte => Some osExpired | "E"%byte => Some osPendingReplace
  | _ => None
  end.

Section orders.
(** [std::pow(10.0, e)]. *)
Context (pow10 : Z -> double).

(** [get_double] of the parsed message. *)
Definition get_double (v : MessageView) (t : Z) : option double := sv ← get v t; parse_number pow10 sv.

Definition cl_ord_id (v : MessageView) : option (list byte) := get v tag_ClOrdID.
Definition order_id (v : MessageView) : option (list byte) := get v tag_OrderID.
Definition exec_id (v : MessageView) : option (list byte) := get v tag_ExecID.
Definition exec_type (v : MessageView) : option ExecType := c ← get_char v tag_ExecType; to_exec_type c.
Definition ord_status (v : MessageView) : option OrdStatus := c ← get_char v tag_OrdStatus; to_ord_status c.
Definition er_symbol (v : MessageView) : option (list byte) := get v tag_Symbol.
Definition er_side (v : MessageView) : option byte := get_char v tag_Side.
Definition last_px (v : MessageView) : option double := get_double v tag_LastPx.
Definition last_qty (v : MessageView) : option Z := get_int v tag_LastQty.
Definition last_qty_d (v : MessageView) : option double := get_double v tag_LastQty.
Definition avg_px (v : MessageView) : option double := get_double v tag_AvgPx.
Definition cum_qty (v : MessageView) : option Z := get_int v tag_CumQty.
Definition cum_qty_d (v : MessageView) : option double := get_double v tag_CumQty.
Definition er_leaves_qty (v : MessageView) : option Z := get_int v tag_LeavesQty.
Definition er_leaves_qty_d (v : MessageView) : option double := get_double v tag_LeavesQty.
Definition er_text (v : MessageView) : option (list byte) := get v tag_Text.

Definition er_is_fill (v : MessageView) : bool :=
  match exec_type v with Some (etPartialFill | etFill | etTrade) => true | _ => false end.

Definition er_is_terminal (v : MessageView) : bool :=
  match ord_status v with Some (osFilled | osCanceled | osRejected | osExpired | osDoneForDay) => true | _ => false end.

(** The outer option is an access outside the buffer, as in [parse]. *)
Definition try_parse_execution_report (max_fields : Z) (data : list byte) : option (option MessageView) :=
  result ← parse max_fields kDefaultMaxBodyLength data;
  match result with
  | Ok v => if bool_decide (get v MsgType = Some ["8"%byte]) then Some (Some v) else Some None
  | Err _ => Some None
  end.

(** ** order_manager.hpp *)

Inductive OrderState : Set := PendingNew | New | PartiallyFilled | Filled | PendingCancel | Canceled | Rejected.

#[global] Instance order_state_eq_dec : EqDecision OrderState.
Proof. solve_decision. Defined.

Definition is_terminal (s : OrderState) : bool := match s with Filled | Canceled | Rejected => true | _ => false end.

Record ManagedOrder := mkManaged {
  mo_cl_ord_id : list byte;
  mo_symbol : list byte;
  mo_side : byte;
  orig_qty : double;
  mo_price : double;
  filled_qty : double;
  avg_fill_price : double;
  leaves_qty : double;
  mo_state : OrderState;
  submit_time_ns : Z;
  last_update_ns : Z
}.

(** [std::unordered_map<std::string, ManagedOrder>]. *)
Abbreviation OrderManager := (@gmap (list byte) _ (@list_countable byte _ byte_countable) ManagedOrder).

Definition submit (id symbol : list byte) (side : byte) (qty price : double) (om : OrderManager) : bool * OrderManager :=
  if bool_decide (id = []) then (false, om) else
  if negb (isfinite qty) || SFleb qty double_zero then (false, om) else
  if negb (isfinite price) || SFltb price double_zero then (false, om) else
  if negb (Byte.eqb side "1"%byte) && negb (Byte.eqb side "2"%byte) then (false, om) else
  match om !! id with
  | Some _ => (false, om)
  | None => (true, <[id := mkManaged id symbol side qty price double_zero double_zero qty PendingNew 0 0]> om)
  end.

Definition set_state (st : OrderState) (o : ManagedOrder) : ManagedOrder :=
  mkManaged (mo_cl_ord_id o) (mo_symbol o) (mo_side o) (orig_qty o) (mo_price o) (filled_qty o) (avg_fill_price o) (leaves_qty o) st
    (submit_time_ns o) (last_update_ns o).

Definition set_fill (filled avg leaves : double) (o : ManagedOrder) : ManagedOrder :=
  mkManaged (mo_cl_ord_id o) (mo_symbol o) (mo_side o) (orig_qty o) (mo_price o) filled avg leaves (mo_state o)
    (submit_time_ns o) (last_update_ns o).

(** 1e-9. *)
Definition fill_eps : double := S754_finite false 4835703278458517 (-82).

(** The guards and the arithmetic of a fill, with [leaves_qty] as the two branches set it;
    [None] is [return false]. *)
Definition apply_fill (full : bool) (last_qty : Z) (last_px : double) (o : ManagedOrder) : option ManagedOrder :=
  if last_qty <? 0 then None else
  if SFltb last_px double_zero || negb (isfinite last_px) then None else
  let fill_qty := double_of_int last_qty in
  if 2 ^ 53 <? last_qty then None else
  if SFltb (double_add (orig_qty o) fill_eps) (double_add (filled_qty o) fill_qty) then None else
  let old_total := double_mul (avg_fill_price o) (filled_qty o) in
  let filled := double_add (filled_qty o) fill_qty in
  let avg := if SFltb double_zero filled then double_div (double_add old_total (double_mul last_px fill_qty)) filled else avg_fill_price o in
  let avg := if negb (isfinite avg) then last_px else avg in
  Some (set_fill filled avg (if full then double_zero else double_sub (orig_qty o) filled) o).

(** The fill branches of the switch. *)
Definition process_fill (full : bool) (v : MessageView) (o : ManagedOrder) (positions : option PositionTracker) :
    option (ManagedOrder * option PositionTracker) :=
  let st := if full then Filled else PartiallyFilled in
  match last_qty v, last_px v with
  | Some n, Some px =>
    o ← apply_fill full n px o;
    Some (set_state st o, on_fill (mo_symbol o) (mo_side o) (double_of_int n) px <$> positions)
  | _, _ => Some (set_state st o, positions)
  end.

Definition on_execution_report (v : MessageView) (s : OrderManager * option PositionTracker) : bool * (OrderManager * option PositionTracker) :=
  let '(om, positions) := s in
  match cl_ord_id v with
  | None => (false, s)
  | Some id =>
    match om !! id with
    | None => (false, s)
    | Some o =>
      if is_terminal (mo_state o) then (true, s) else
      match exec_type v with
      | None => (false, s)
      | Some et =>
        match et with
        | etNew | etPendingNew => (true, (<[id := set_state New o]> om, positions))
        | etPartialFill | etTrade =>
          match process_fill false v o positions with None => (false, s) | Some (o, positions) => (true, (<[id := o]> om, positions)) end
        | etFill =>
          match process_fill true v o positions with None => (false, s) | Some (o, positions) => (true, (<[id := o]> om, positions)) end
        | etCanceled => (true, (<[id := set_fill (filled_qty o) (avg_fill_price o) double_zero (set_state Canceled o)]> om, positions))
        | etPendingCancel => (true, (<[id := set_state PendingCancel o]> om, positions))
        | etRejected => (true, (<[id := set_fill (filled_qty o) (avg_fill_price o) double_zero (set_state Rejected o)]> om, positions))
        | _ => (true, s)
        end
      end
    end
  end.

Definition on_cancel_reject (id : list byte) (om : OrderManager) : bool * OrderManager :=
  if bool_decide (id = []) then (false, om) else
  match om !! id with
  | None => (false, om)
  | Some o =>
    if bool_decide (mo_state o = PendingCancel)
    then (true, <[id := set_state (if SFltb double_zero (filled_qty o) then PartiallyFilled else New) o]> om)
    else (true, om)
  end.

Definition mark_pending_cancel (id : list byte) (om : OrderManager) : bool * OrderManager :=
  match om !! id with
  | None => (false, om)
  | Some o => if is_terminal (mo_state o) then (false, om) else (true, <[id := set_state PendingCancel o]> om)
  end.

Definition purge_terminal (om : OrderManager) : OrderManager := filter (fun kv => is_terminal (mo_state kv.2) = false) om.

Definition active_count (om : OrderManager) : nat := size (filter (fun kv => is_terminal (mo_state kv.2) = false) om).

(** ** Sequences of calls *)

Inductive om_op :=
| Submit (id symbol : list byte) (side : byte) (qty : Z) (price : double)
| Report (v : MessageView)
| CancelReject (id : list byte)
| MarkPendingCancel (id : list byte)
| PurgeTerminal.

Definition om_step (o : om_op) (s : OrderManager * option PositionTracker) : bool * (OrderManager * option PositionTracker) :=
  let '(om, positions) := s in
  match o with
  | Submit id symbol side qty price => let '(b, om) := submit id symbol side (double_of_int qty) price om in (b, (om, positions))
  | Report v => on_execution_report v s
  | CancelReject id => let '(b, om) := on_cancel_reject id om in (b, (om, positions))
  | MarkPendingCancel id => let '(b, om) := mark_pending_cancel id om in (b, (om, positions))
  | PurgeTerminal => (true, (purge_terminal om, positions))
  end.

Fixpoint om_run (ops : list om_op) (s : OrderManager * option PositionTracker) : list bool * (OrderManager * option PositionTracker) :=
  match ops with
  | [] => ([], s)
  | o :: ops => let '(b, s) := om_step o s in let '(bs, s) := om_run ops s in (b :: bs, s)
  end.

(** ** The ledger *)

(** What the manager is to compute, in whole numbers: orders with their size, what is filled
    and what is open, and the trades. *)
Record entry := mkLine { l_symbol : list byte; l_side : byte; l_orig : Z; l_filled : Z; l_leaves : Z; l_state : OrderState }.
Record trade := mkTrade { t_symbol : list byte; t_side : byte; t_qty : Z; t_price : double }.

Abbreviation ledger := (@gmap (list byte) _ (@list_countable byte _ byte_countable) entry).

Definition l_set_state (st : OrderState) (e : entry) : entry := mkLine (l_symbol e) (l_side e) (l_orig e) (l_filled e) (l_leaves e) st.
Definition l_close (st : OrderState) (e : entry) : entry := mkLine (l_symbol e) (l_side e) (l_orig e) (l_filled e) 0 st.

(** A fill is booked if it does not exceed what is open. *)
Definition l_fill (full : bool) (v : MessageView) (e : entry) : option (entry * list trade) :=
  let st := if full then Filled else PartiallyFilled in
  match last_qty v, last_px v with
  | Some n, Some px =>
    if (n <? 0) || SFltb px double_zero || (l_orig e <? l_filled e + n) then None else
    let leaves := if full then 0 else l_orig e - (l_filled e + n) in
    Some (mkLine (l_symbol e) (l_side e) (l_orig e) (l_filled e + n) leaves st, [mkTrade (l_symbol e) (l_side e) n px])
  | _, _ => Some (l_set_state st e, [])
  end.

(** What becomes of an open order; [None] when the report is refused. *)
Definition l_report (et : ExecType) (v : MessageView) (e : entry) : option (entry * list trade) :=
  match et with
  | etNew | etPendingNew => Some (l_set_state New e, [])
  | etPartialFill | etTrade => l_fill false v e
  | etFill => l_fill true v e
  | etCanceled => Some (l_close Canceled e, [])
  | etPendingCancel => Some (l_set_state PendingCancel e, [])
  | etRejected => Some (l_close Rejected e, [])
  | _ => Some (e, [])
  end.

Definition ledger_step (o : om_op) (l : ledger) : bool * ledger * list trade :=
  match o with
  | Submit id symbol side qty price =>
    if bool_decide (id <> []) && (0 <? qty) && isfinite price && SFleb double_zero price && valid_side side && bool_decide (l !! id = None)
    then (true, <[id := mkLine symbol side qty 0 qty PendingNew]> l, []) else (false, l, [])
  | Report v =>
    match id ← cl_ord_id v; e ← l !! id; Some (id, e) with
    | None => (false, l, [])
    | Some (id, e) =>
      if is_terminal (l_state e) then (true, l, []) else
      match et ← exec_type v; l_report et v e with
      | None => (false, l, [])
      | Some (e, ts) => (true, <[id := e]> l, ts)
      end
    end
  | CancelReject id =>
    match (if bool_decide (id = []) then None else l !! id) with
    | None => (false, l, [])
    | Some e => (true, if decide (l_state e = PendingCancel) then <[id := l_set_state (if 0 <? l_filled e then PartiallyFilled else New) e]> l else l, [])
    end
  | MarkPendingCancel id =>
    match l !! id with
    | None => (false, l, [])
    | Some e => if is_terminal (l_state e) then (false, l, []) else (true, <[id := l_set_state PendingCancel e]> l, [])
    end
  | PurgeTerminal => (true, filter (fun kv => is_terminal (l_state kv.2) = false) l, [])
  end.

Fixpoint ledger_run (ops : list om_op) (l : ledger) : list bool * ledger * list trade :=
  match ops with
  | [] => ([], l, [])
  | o :: ops =>
    let '(b, l, ts) := ledger_step o l in
    let '(bs, l, ts') := ledger_run ops l in (b :: bs, l, ts ++ ts')
  end.

(** ** The manager keeps the ledger *)

Context (pow10_double : forall e, is_double (pow10 e) = true).

(** The test for an overfill is exact: the tolerance is less than a unit. *)
Lemma overfill_exact o f a b n : is_int o b -> is_int f a -> 0 <= a <= b -> b <= 2 ^ 50 -> 0 <= n <= 2 ^ 53 ->
  SFltb (double_add o fill_eps) (double_add f (double_of_int n)) = (b <? a + n).
Proof using.
  intros [Fo Eo] [Ff Ef] Hab Hb Hn. assert (finite fill_eps) as Fe by (split; vm_compute; reflexivity).
  assert (0 < value fill_eps /\ 4 * value fill_eps < 2 ^ 1074) as [He0 He] by (split; vm_compute; reflexivity).
  pose proof (add_value o fill_eps Fo Fe) as Hx. rewrite Eo in Hx. pose proof unit_pos as HU. pose proof (int_is_int n ltac:(lia)) as [Fn En].
  pose proof (add_value f (double_of_int n) Ff Fn) as Hy. rewrite Ef, En, <- Z.mul_add_distr_r in Hy.
  assert (forall k, Z.abs k <= 2 ^ 53 -> rnd (k * 2 ^ 1074) = k * 2 ^ 1074) as Hk by (intros k Hk; by apply rnd_exact).
  assert (rnd (2 ^ 54 * 2 ^ 1074) = 2 ^ 54 * 2 ^ 1074) as Hk54 by (vm_compute; reflexivity).
  assert (2 ^ 55 * 2 ^ 1074 < too_large) as Htl by (vm_compute; reflexivity).
  clear Eo Ef En. set (U := 2 ^ 1074) in *. clearbody U. set (w := value fill_eps) in *. clearbody w.
  assert (0 <= b * U + w) as Hz0 by nia. assert (b * U <= rnd (b * U + w)) as Hlo by (rewrite <- Hk at 1 by lia; apply rnd_mono; lia).
  assert (rnd (b * U + w) < (b + 1) * U) as Hhi.
  { pose proof (rnd_close _ Hz0) as Hc. assert (b * U + w <= (2 ^ 50 + 1) * U) as Hzu by nia. change (2 ^ 53) with (8 * 2 ^ 50) in Hc. nia. }
  assert ((a + n) * U <= 2 ^ 54 * U) as Hsum by (apply Z.mul_le_mono_nonneg_r; lia).
  assert (0 <= rnd ((a + n) * U) <= 2 ^ 54 * U) as Hyr.
  { split; [rewrite <- rnd_0; apply rnd_mono; nia|]. rewrite <- Hk54. by apply rnd_mono. }
  destruct (rounds_finite _ _ Hx) as [Fx Ex]; [nia|]. destruct (rounds_finite _ _ Hy) as [Fy Ey]; [nia|].
  rewrite ltb_value, Ex, Ey by done. destruct (Z.ltb_spec b (a + n)) as [Hlt|Hge].
  - apply Z.ltb_lt. eapply Z.lt_le_trans; [exact Hhi|]. rewrite <- Hk by lia. apply rnd_mono, Z.mul_le_mono_nonneg_r; lia.
  - apply Z.ltb_ge. rewrite Hk by lia. etransitivity; [|exact Hlo]. apply Z.mul_le_mono_nonneg_r; lia.
Qed.

Record order_rep (id : list byte) (o : ManagedOrder) (e : entry) : Prop := {
  r_id : mo_cl_ord_id o = id;
  r_symbol : mo_symbol o = l_symbol e;
  r_side : mo_side o = l_side e;
  r_orig : is_int (orig_qty o) (l_orig e);
  r_filled : is_int (filled_qty o) (l_filled e);
  r_leaves : is_int (leaves_qty o) (l_leaves e);
  r_state : mo_state o = l_state e;
  r_avg : finite (avg_fill_price o)
}.

(** No order is filled beyond its size; what is open is the rest. *)
Record entry_ok (e : entry) : Prop := {
  e_filled : 0 <= l_filled e <= l_orig e;
  e_orig : 0 < l_orig e <= 2 ^ 50;
  e_side : valid_side (l_side e) = true;
  e_leaves : 0 <= l_leaves e <= l_orig e - l_filled e;
  e_open : is_terminal (l_state e) = false -> l_leaves e = l_orig e - l_filled e
}.

Lemma last_px_finite v px : last_px v = Some px -> finite px.
Proof using pow10_double. unfold last_px, get_double. destruct (get v tag_LastPx) as [sv|]; [|done]. cbn [mbind option_bind]. by apply (parse_number_finite pow10 pow10_double). Qed.

Definition book_trade (positions : PositionTracker) (t : trade) : PositionTracker :=
  on_fill (t_symbol t) (t_side t) (double_of_int (t_qty t)) (t_price t) positions.

(** A fill is accepted exactly when the ledger books it, and then passed on. *)
Lemma apply_fill_ok full id n px o e : order_rep id o e -> entry_ok e -> finite px ->
  match apply_fill full n px o with
  | Some o' =>
    (n <? 0) || SFltb px double_zero || (l_orig e <? l_filled e + n) = false /\ mo_symbol o' = mo_symbol o /\ mo_side o' = mo_side o /\
    order_rep id o' (mkLine (l_symbol e) (l_side e) (l_orig e) (l_filled e + n) (if full then 0 else l_orig e - (l_filled e + n)) (l_state e))
  | None => (n <? 0) || SFltb px double_zero || (l_orig e <? l_filled e + n) = true
  end.
Proof using.
  intros [R1 R2 R3 R4 R5 R6 R7 R8] [K1 K2 K3 K4 K5] Hpx. unfold apply_fill. destruct (Z.ltb_spec n 0) as [|Hn]; [done|]. cbn [orb].
  destruct (SFltb px double_zero); [done|]. rewrite (proj2 Hpx). cbn [orb negb]. destruct (Z.ltb_spec (2 ^ 53) n) as [Hbig|Hsmall].
  { apply Z.ltb_lt. change (2 ^ 53) with (8 * 2 ^ 50) in Hbig. lia. }
  rewrite (overfill_exact _ _ (l_filled e) (l_orig e)) by (done || lia). destruct (Z.ltb_spec (l_orig e) (l_filled e + n)) as [|Hfit]; [done|].
  assert (l_orig e <= 2 ^ 53) as H53 by (change (2 ^ 53) with (8 * 2 ^ 50); lia).
  pose proof (int_is_int n ltac:(lia)) as Hin. pose proof (int_add _ _ _ _ R5 Hin ltac:(lia)) as Hfill.
  split; [done|]. split; [done|]. split; [done|]. split; cbn; try done.
  - destruct full; [apply zero_is_int|]. apply int_sub; [done|done|lia].
  - set (avg := if SFltb double_zero _ then _ else _). assert (is_double avg = true) as Ha.
    { subst avg. case_match; [|apply R8]. apply div_double; [apply add_double; apply mul_double|]; (apply R8 || apply R5 || apply Hpx || apply Hin || apply Hfill). }
    destruct (isfinite avg) eqn:Ea; [by split|done].
Qed.

(** A fill is accepted exactly when the ledger books it, and then passed on. *)
Lemma process_fill_ok full id v o e ps : order_rep id o e -> entry_ok e -> is_terminal (l_state e) = false ->
  match process_fill full v o ps, l_fill full v e with
  | Some (o', ps'), Some (e', ts) => order_rep id o' e' /\ entry_ok e' /\ ps' = (fun t => fold_left book_trade ts t) <$> ps
  | None, None => True
  | _, _ => False
  end.
Proof using pow10_double.
  intros R K Ht. unfold process_fill, l_fill. set (st := if full then Filled else PartiallyFilled).
  assert (order_rep id (set_state st o) (l_set_state st e) /\ entry_ok (l_set_state st e) /\ ps = (fun t => fold_left book_trade [] t) <$> ps) as Hplain.
  { destruct R, K. split_and!; [by split|split; cbn; intros; auto|by destruct ps]. }
  destruct (last_qty v) as [n|]; [|exact Hplain]. destruct (last_px v) as [px|] eqn:Epx; [|exact Hplain]. apply last_px_finite in Epx.
  pose proof (apply_fill_ok full id n px o e R K Epx) as Hf. destruct (apply_fill full n px o) as [o'|]; cbn [mbind option_bind]; [|by rewrite Hf].
  destruct Hf as (Hf & Es & Ed & R'). rewrite Hf. split_and!.
  - destruct R'. by split.
  - clear R'. apply orb_false_elim in Hf as [[Hn _]%orb_false_elim Hle]. apply Z.ltb_ge in Hn, Hle. destruct K. split; cbn; [lia|done|done| |]; destruct full; cbn; lia || done.
  - rewrite Es, Ed, (r_symbol _ _ _ R), (r_side _ _ _ R). by destruct ps.
Qed.

Definition manager_rep (om : OrderManager) (l : ledger) : Prop := forall id, option_Forall2 (order_rep id) (om !! id) (l !! id).
Definition ledger_ok (l : ledger) : Prop := forall id e, l !! id = Some e -> entry_ok e.

Lemma rep_insert id o e (om : OrderManager) (l : ledger) : order_rep id o e -> manager_rep om l -> manager_rep (<[id := o]> om) (<[id := e]> l).
Proof using. intros R H id'. rewrite !lookup_insert. case_decide as E; [subst id'; by constructor|apply H]. Qed.

Lemma ok_insert id e (l : ledger) : entry_ok e -> ledger_ok l -> ledger_ok (<[id := e]> l).
Proof using. intros K H id' e'. rewrite lookup_insert. case_decide; [by intros [= <-]|apply H]. Qed.

Lemma rep_lookup (om : OrderManager) (l : ledger) id : manager_rep om l ->
  match om !! id, l !! id with Some o, Some e => order_rep id o e | None, None => True | _, _ => False end.
Proof using. intros H. specialize (H id). by destruct H. Qed.

Definition op_ok (o : om_op) : Prop := match o with Submit _ _ _ n _ => Z.abs n <= 2 ^ 50 | _ => True end.

(** What a call does, by the ledger; the trades it makes are booked in the positions. *)
Definition step_agrees (l : ledger) (r : bool * (OrderManager * option PositionTracker)) (r' : bool * ledger * list trade) (ps : option PositionTracker) : Prop :=
  let '(b, (om', ps')) := r in let '(b', l', ts) := r' in
  b = b' /\ manager_rep om' l' /\ ledger_ok l' /\ ps' = (fun t => fold_left book_trade ts t) <$> ps.

Lemma no_trades (ps : option PositionTracker) : ps = (fun t => fold_left book_trade [] t) <$> ps.
Proof using. by destruct ps. Qed.

Lemma unchanged b om l ps : manager_rep om l -> ledger_ok l -> step_agrees l (b, (om, ps)) (b, l, []) ps.
Proof using. intros H K. split_and!; [done|done|done|apply no_trades]. Qed.

Lemma submit_agrees id symbol side n price om l ps : manager_rep om l -> ledger_ok l -> Z.abs n <= 2 ^ 50 ->
  step_agrees l (om_step (Submit id symbol side n price) (om, ps)) (ledger_step (Submit id symbol side n price) l) ps.
Proof using.
  intros H K Hn. cbn [om_step ledger_step]. unfold submit. assert (Z.abs n <= 2 ^ 53) as Hn' by (change (2 ^ 53) with (8 * 2 ^ 50); lia).
  pose proof (int_is_int n Hn') as Hi. rewrite (int_finite _ _ Hi), (int_leb _ _ _ _ Hi zero_is_int). pose proof (rep_lookup om l id H) as Hl.
  destruct (bool_decide_reflect (id = [])) as [->|Hid]; [rewrite bool_decide_eq_false_2 by (intros E; by apply E); by apply unchanged|]. rewrite (bool_decide_eq_true_2 (id <> [])) by done.
  destruct (Z.leb_spec n 0) as [Hn0|Hn0]; cbn [negb orb andb]; [rewrite (proj2 (Z.ltb_ge _ _)) by lia; cbn [andb]; by apply unchanged|].
  rewrite (proj2 (Z.ltb_lt _ _)) by lia. destruct (isfinite price) eqn:Fp; cbn [negb orb andb]; [|by apply unchanged].
  assert (SFltb price double_zero = negb (SFleb double_zero price)) as -> by (by destruct price as [[]| | |[]]). destruct (SFleb double_zero price); cbn [negb andb]; [|by apply unchanged].
  unfold valid_side. fold kBuy kSell. destruct (Byte.eqb side kBuy || Byte.eqb side kSell) eqn:Ev; rewrite <- negb_orb, Ev; cbn [negb andb]; [|by apply unchanged].
  destruct (om !! id) as [o|], (l !! id) as [e|] eqn:El; try done; cbn [bool_decide decide_rel]; [by apply unchanged|].
  split; [done|]. split; [|split; [|apply no_trades]].
  - apply rep_insert; [|done]. split; cbn; try done; by split.
  - apply ok_insert; [|done]. split; cbn; done || lia.
Qed.

Lemma report_agrees v om l ps : manager_rep om l -> ledger_ok l -> step_agrees l (om_step (Report v) (om, ps)) (ledger_step (Report v) l) ps.
Proof using pow10_double.
  intros H K. cbn [om_step ledger_step]. unfold on_execution_report. destruct (cl_ord_id v) as [id|]; cbn [mbind option_bind]; [|by apply unchanged].
  pose proof (rep_lookup om l id H) as R. destruct (om !! id) as [o|] eqn:Eo, (l !! id) as [e|] eqn:El; try done; cbn [mbind option_bind]; [|by apply unchanged]. pose proof (K id e El) as Ke.
  rewrite (r_state _ _ _ R). destruct (is_terminal (l_state e)) eqn:Et; [by apply unchanged|]. destruct (exec_type v) as [et|]; cbn [mbind option_bind]; [|by apply unchanged].
  assert (forall st, order_rep id (set_state st o) (l_set_state st e)) as Rs by (intros st; destruct R; by split).
  assert (forall st, order_rep id (set_fill (filled_qty o) (avg_fill_price o) double_zero (set_state st o)) (l_close st e)) as Rc by (intros st; destruct R; by split).
  assert (forall st, entry_ok (l_set_state st e)) as Ks by (intros st; destruct Ke; split; cbn; auto).
  assert (forall st, is_terminal st = true -> entry_ok (l_close st e)) as Kc by (intros st Hst; destruct Ke; split; cbn; congruence || lia || done).
  assert (forall o' e', order_rep id o' e' -> entry_ok e' -> step_agrees l (true, (<[id := o']> om, ps)) (true, <[id := e']> l, []) ps) as Hput.
  { intros o' e' R' K'. split; [done|]. split; [by apply rep_insert|]. split; [by apply ok_insert|apply no_trades]. }
  assert (step_agrees l (true, (om, ps)) (true, <[id := e]> l, []) ps) as Hsame by (rewrite insert_id by done; by apply unchanged).
  assert (forall full, step_agrees l (match process_fill full v o ps with None => (false, (om, ps)) | Some (o, ps) => (true, (<[id := o]> om, ps)) end)
    (match l_fill full v e with None => (false, l, []) | Some (e, ts) => (true, <[id := e]> l, ts) end) ps) as Hfill.
  { intros full. pose proof (process_fill_ok full id v o e ps R Ke Et) as Hp. destruct (process_fill full v o ps) as [[o' ps']|], (l_fill full v e) as [[e' ts]|]; try done; [|by apply unchanged].
    destruct Hp as (R' & K' & ->). split; [done|]. split; [by apply rep_insert|]. split; [by apply ok_insert|done]. }
  destruct et; cbn [l_report]; try exact Hsame; try apply Hfill; apply Hput; auto.
Qed.

Lemma step_ok o om l ps : manager_rep om l -> ledger_ok l -> op_ok o -> step_agrees l (om_step o (om, ps)) (ledger_step o l) ps.
Proof using pow10_double.
  intros H K Hop. destruct o as [id symbol side n price|v|id|id|]; [by apply submit_agrees|by apply report_agrees|..]; cbn [om_step ledger_step].
  - unfold on_cancel_reject. case_bool_decide; [by apply unchanged|]. pose proof (rep_lookup om l id H) as R.
    destruct (om !! id) as [o|] eqn:Eo, (l !! id) as [e|] eqn:El; try done; [|by apply unchanged]. rewrite (r_state _ _ _ R).
    case_decide as E; [rewrite bool_decide_eq_true_2 by done|rewrite bool_decide_eq_false_2 by done; by apply unchanged].
    rewrite (int_ltb _ _ _ _ zero_is_int (r_filled _ _ _ R)). pose proof (K id e El) as Ke. split; [done|]. split; [|split; [|apply no_trades]].
    + apply rep_insert; [|done]. destruct R. by split.
    + apply ok_insert; [|done]. destruct Ke as [? ? ? ? Ho]. rewrite E in Ho. split; cbn; auto.
  - unfold mark_pending_cancel. pose proof (rep_lookup om l id H) as R. destruct (om !! id) as [o|] eqn:Eo, (l !! id) as [e|] eqn:El; try done; [|by apply unchanged].
    rewrite (r_state _ _ _ R). destruct (is_terminal (l_state e)) eqn:Et; [by apply unchanged|]. pose proof (K id e El) as Ke. split; [done|]. split; [|split; [|apply no_trades]].
    + apply rep_insert; [|done]. destruct R. by split.
    + apply ok_insert; [|done]. destruct Ke. split; cbn; auto.
  - unfold purge_terminal. split; [done|]. split; [|split; [|apply no_trades]].
    + intros id. rewrite !map_lookup_filter. pose proof (rep_lookup om l id H) as R. destruct (om !! id) as [o|], (l !! id) as [e|]; try done; cbn [mbind option_bind]; [|constructor].
      pose proof (r_state _ _ _ R) as Es. cbn [snd]. repeat case_guard; cbn [mbind option_bind]; try (by constructor); cbn [snd] in *; congruence.
    + intros id e He. apply map_lookup_filter_Some in He as [He _]. by apply (K id).
Qed.

Lemma run_ok ops : forall om l ps, manager_rep om l -> ledger_ok l -> Forall op_ok ops ->
  let '(bs, (om', ps')) := om_run ops (om, ps) in let '(bs', l', ts) := ledger_run ops l in
  bs = bs' /\ manager_rep om' l' /\ ledger_ok l' /\ ps' = (fun t => fold_left book_trade ts t) <$> ps.
Proof using pow10_double.
  induction ops as [|o ops IH]; intros om l ps H K Hops; cbn [om_run ledger_run]; [split_and!; [done|done|done|apply no_trades]|].
  apply list.Forall_cons in Hops as [Ho Hops]. pose proof (step_ok o om l ps H K Ho) as Hs. destruct (om_step o (om, ps)) as [b [om1 ps1]], (ledger_step o l) as [[b1 l1] ts1].
  destruct Hs as (-> & H1 & K1 & ->). specialize (IH om1 l1 ((fun t => fold_left book_trade ts1 t) <$> ps) H1 K1 Hops).
  destruct (om_run ops _) as [bs [om2 ps2]], (ledger_run ops l1) as [[bs1 l2] ts2]. destruct IH as (-> & H2 & K2 & ->). split_and!; try done.
  destruct ps as [t|]; [|done]. cbn. by rewrite fold_left_app.
Qed.

(** ** Trades and positions *)

Definition net (s : list byte) (ts : list trade) : Z :=
  foldr (fun t acc => (if decide (t_symbol t = s) then signed (t_side t) (t_qty t) else 0) + acc) 0 ts.

(** The fills a symbol's position has counted. *)
Definition fills (s : list byte) (ts : list trade) : Z :=
  foldr (fun t acc => (if decide (t_symbol t = s /\ 0 < t_qty t) then 1 else 0) + acc) 0 ts.

Definition trade_ok (t : trade) : Prop :=
  0 <= t_qty t <= 2 ^ 53 /\ isfinite (t_price t) = true /\ SFltb double_zero (t_price t) = true /\ valid_side (t_side t) = true.

Lemma book_trade_ok s t n k (ps : PositionTracker) : trade_ok t -> Z.abs (n + net s [t]) <= 2 ^ 53 -> holds (get_position s ps) n k ->
  holds (get_position s (book_trade ps t)) (n + net s [t]) (k + fills s [t]).
Proof using.
  intros (Hq & Fp & Pp & Hv) Hb Hh. unfold net, fills in *. cbn [foldr] in *. rewrite !Z.add_0_r in *. unfold book_trade. pose proof (int_is_int (t_qty t) ltac:(lia)) as Hi.
  destruct (Z.eq_dec (t_qty t) 0) as [E0|E0].
  - rewrite E0 in *. rewrite on_fill_zero by done. rewrite (decide_False (P := t_symbol t = s /\ 0 < 0)) by (intros [_ ?]; lia). unfold signed. destruct (decide _); [case_match|]; by rewrite !Z.add_0_r.
  - destruct (decide (t_symbol t = s)) as [<-|Hs].
    + rewrite (decide_True (P := t_symbol t = t_symbol t /\ _)) by (split; [done|lia]). by apply on_fill_exact; try done; lia.
    + rewrite (decide_False (P := t_symbol t = s /\ _)) by (intros [? _]; done). rewrite !Z.add_0_r.
      assert (get_position s (on_fill (t_symbol t) (t_side t) (double_of_int (t_qty t)) (t_price t) ps) = get_position s ps) as -> by (unfold on_fill; repeat case_match; try done; by rewrite get_insert, decide_False). done.
Qed.

(** A price that the position tracker takes. *)
Definition priced (o : om_op) : Prop := match o with Report v => forall px, last_px v = Some px -> SFltb double_zero px = true | _ => True end.

(** What a call changes in the ledger: nothing of the quantities, a new order, or one fill. *)
Inductive change (o : om_op) (l l' : ledger) : list trade -> Prop :=
| no_fill id e e' : l !! id = Some e -> l' = <[id := e']> l -> l_symbol e' = l_symbol e -> l_side e' = l_side e -> l_orig e' = l_orig e -> l_filled e' = l_filled e -> change o l l' []
| new_order id symbol side n price e' : o = Submit id symbol side n price -> l !! id = None -> l' = <[id := e']> l -> l_orig e' = n -> 0 < n -> l_filled e' = 0 -> change o l l' []
| one_fill v id e e' n px : o = Report v -> last_px v = Some px -> l !! id = Some e -> l' = <[id := e']> l -> l_symbol e' = l_symbol e -> l_side e' = l_side e ->
    l_orig e' = l_orig e -> l_filled e' = l_filled e + n -> 0 <= n -> l_filled e + n <= l_orig e -> change o l l' [mkTrade (l_symbol e) (l_side e) n px]
| no_change : l' = l -> change o l l' []
| purged : o = PurgeTerminal -> l' = filter (fun kv => is_terminal (l_state kv.2) = false) l -> change o l l' [].

Lemma fill_change full v id e (l : ledger) : l !! id = Some e ->
  match l_fill full v e with Some (e', ts) => change (Report v) l (<[id := e']> l) ts | None => True end.
Proof using.
  intros El. unfold l_fill. destruct (last_qty v) as [n|]; [|by eapply no_fill]. destruct (last_px v) as [px|] eqn:Epx; [|by eapply no_fill].
  destruct (_ || _) eqn:Ec; [done|]. apply orb_false_elim in Ec as [[Hn _]%orb_false_elim Hle]. apply Z.ltb_ge in Hn, Hle. by eapply one_fill.
Qed.

Lemma ledger_change o l : let '(_, l', ts) := ledger_step o l in change o l l' ts.
Proof using.
  destruct o as [id symbol side n price|v|id|id|]; cbn [ledger_step].
  - destruct (_ && bool_decide (l !! id = None)) eqn:Ec; [|by apply no_change]. rewrite !andb_true_iff in Ec. destruct Ec as [[[[[_ Hn%Z.ltb_lt] _] _] _] El%bool_decide_eq_true_1]. by eapply new_order.
  - destruct (cl_ord_id v) as [id|]; cbn [mbind option_bind]; [|by apply no_change]. destruct (l !! id) as [e|] eqn:El; cbn [mbind option_bind]; [|by apply no_change].
    destruct (is_terminal (l_state e)); [by apply no_change|]. destruct (exec_type v) as [et|]; cbn [mbind option_bind]; [|by apply no_change].
    assert (forall full, match l_fill full v e with Some (e', ts) => change (Report v) l (<[id := e']> l) ts | None => change (Report v) l l [] end) as Hf.
    { intros full. pose proof (fill_change full v id e l El) as Hf. destruct (l_fill full v e) as [[e' ts]|]; [done|by apply no_change]. }
    destruct et; cbn [l_report]; try (by eapply no_fill); [specialize (Hf false)|specialize (Hf true)|specialize (Hf false)]; by destruct (l_fill _ v e) as [[e' ts]|].
  - case_bool_decide; [by apply no_change|]. destruct (l !! id) as [e|] eqn:El; [|by apply no_change]. case_decide; [by eapply no_fill|by apply no_change].
  - destruct (l !! id) as [e|] eqn:El; [|by apply no_change]. destruct (is_terminal (l_state e)); [by apply no_change|by eapply no_fill].
  - by apply purged.
Qed.

Lemma change_positions s o (l l' : ledger) ts n k (ps : PositionTracker) : change o l l' ts -> ledger_ok l -> priced o -> Z.abs (n + net s ts) <= 2 ^ 53 -> holds (get_position s ps) n k ->
  holds (get_position s (fold_left book_trade ts ps)) (n + net s ts) (k + fills s ts).
Proof using pow10_double.
  intros Hc K Hp Hb Hh. destruct Hc as [| |v id e e' m px -> Epx El -> ? ? ? ? Hm Hle| |]; try (cbn [fold_left net fills foldr]; by rewrite !Z.add_0_r).
  cbn [fold_left]. apply book_trade_ok; [|done|done]. pose proof (K id e El) as [? ? ? ? ?]. unfold trade_ok. cbn [t_qty t_price t_side].
  pose proof (last_px_finite v px Epx) as [_ Fp]. split_and!; try done; [change (2 ^ 53) with (8 * 2 ^ 50); lia|by apply Hp].
Qed.

(** Sums over the orders of the ledger. *)
Definition msum (f : entry -> Z) (l : ledger) : Z := map_fold (fun _ e acc => f e + acc) 0 l.

Lemma msum_new f id e (l : ledger) : l !! id = None -> msum f (<[id := e]> l) = f e + msum f l.
Proof using. intros H. unfold msum. apply (map_fold_insert_L (fun _ e acc => f e + acc)); [intros; lia|done]. Qed.

Lemma msum_update f id e e' (l : ledger) : l !! id = Some e -> msum f (<[id := e']> l) = f e' - f e + msum f l.
Proof using.
  intros H. rewrite <- (insert_delete_eq l id e'), msum_new by apply lookup_delete_eq. rewrite <- (insert_delete_id l id e H) at 2. rewrite msum_new by apply lookup_delete_eq. lia.
Qed.

Lemma msum_le f g (l : ledger) : (forall id e, l !! id = Some e -> Z.abs (f e) <= g e) -> Z.abs (msum f l) <= msum g l.
Proof using.
  induction l as [|id e l Hid IH] using map_ind; [done|]. intros H. rewrite !msum_new by done. specialize (H id e (lookup_insert_eq _ _ _)) as He.
  assert (Z.abs (msum f l) <= msum g l); [|lia]. apply IH. intros id' e' Hl. apply (H id'). rewrite lookup_insert_ne; [done|]. by intros <-; rewrite Hid in Hl.
Qed.

(** What the orders of a symbol have filled, buys minus sells. *)
Definition position_of (s : list byte) : ledger -> Z := msum (fun e => if decide (l_symbol e = s) then signed (l_side e) (l_filled e) else 0).

Definition submitted (o : om_op) : Z := match o with Submit _ _ _ n _ => Z.max 0 n | _ => 0 end.

Lemma change_sums s o (l l' : ledger) ts : change o l l' ts -> o <> PurgeTerminal ->
  position_of s l' = position_of s l + net s ts /\ msum l_orig l' <= msum l_orig l + submitted o.
Proof using.
  assert (0 <= submitted o) as H0 by (destruct o; cbn; lia). intros Hc Hp. unfold position_of.
  destruct Hc as [id e e' El -> Es Ed Eo Ef|id sy si n pr e' Ho El -> En Hn Ef|v id e e' n px -> _ El -> Es Ed Eo Ef _ _| -> |]; [..|done]; cbn [net foldr t_symbol t_side t_qty].
  - rewrite !(msum_update _ id e) by done. rewrite Es, Ed, Eo, Ef. lia.
  - rewrite !msum_new by done. rewrite Ho, Ef, En. cbn [submitted]. unfold signed. split; [|lia]. case_decide; [case_match|]; lia.
  - rewrite !(msum_update _ id e) by done. rewrite Es, Ed, Eo, Ef. split; [|lia]. unfold signed. case_decide; [case_match|]; lia.
  - lia.
Qed.

Lemma position_small s l : ledger_ok l -> Z.abs (position_of s l) <= msum l_orig l.
Proof using. intros K. apply msum_le. intros id e El. destruct (K id e El). case_decide; [rewrite signed_abs; lia|lia]. Qed.

Definition total_submitted (ops : list om_op) : Z := foldr (fun o acc => submitted o + acc) 0 ops.

Lemma run_positions s ops : forall om l (ps : PositionTracker) k, manager_rep om l -> ledger_ok l -> Forall op_ok ops -> Forall priced ops -> Forall (fun o => o <> PurgeTerminal) ops ->
  msum l_orig l + total_submitted ops <= 2 ^ 53 -> holds (get_position s ps) (position_of s l) k ->
  let '(_, l', ts) := ledger_run ops l in holds (get_position s (fold_left book_trade ts ps)) (position_of s l') (k + fills s ts).
Proof using pow10_double.
  assert (forall a b, fills s (a ++ b) = fills s a + fills s b) as Hfa by (intros a b; unfold fills; induction a as [|x a IH]; cbn [app foldr]; lia).
  induction ops as [|o ops IH]; intros om l ps k R K Ho Hp Hn Hv Hh; cbn [ledger_run]; [cbn; by rewrite Z.add_0_r|].
  apply list.Forall_cons in Ho as [Ho1 Ho], Hp as [Hp1 Hp], Hn as [Hn1 Hn]. cbn [total_submitted foldr] in Hv. fold (total_submitted ops) in Hv.
  pose proof (ledger_change o l) as Hc. pose proof (step_ok o om l None R K Ho1) as Hs. destruct (om_step o (om, None)) as [b0 [om1 ps1]], (ledger_step o l) as [[b l1] ts1]. destruct Hs as (_ & R1 & K1 & _).
  destruct (change_sums s o l l1 ts1 Hc Hn1) as [E1 E2]. specialize (IH om1 l1 (fold_left book_trade ts1 ps) (k + fills s ts1) R1 K1 Ho Hp Hn ltac:(lia)).
  assert (0 <= total_submitted ops) as Ht by (clear; induction ops as [|o ops IH]; [done|]; cbn [total_submitted foldr]; fold (total_submitted ops); destruct o; cbn [submitted]; lia).
  pose proof (position_small s l1 K1). destruct (ledger_run ops l1) as [[bs l2] ts2]. rewrite fold_left_app, Hfa, Z.add_assoc. apply IH. rewrite E1. apply (change_positions s o l l1); try done. lia.
Qed.

(** ** Properties *)

(** A terminal order stays as it is until it is purged. *)
Lemma step_terminal o om ps id x : om !! id = Some x -> is_terminal (mo_state x) = true -> o <> PurgeTerminal -> (om_step o (om, ps)).2.1 !! id = Some x.
Proof using.
  intros Hx Ht Hp. assert (forall id' y y', om !! id' = Some y -> is_terminal (mo_state y) = false -> <[id' := y']> om !! id = Some x) as Hins.
  { intros id' y y' Hy Hf. rewrite lookup_insert_ne; [done|]. intros ->. rewrite Hx in Hy. simplify_eq. congruence. }
  destruct o as [id' symbol side n price|v|id'|id'|]; [..|done]; cbn [om_step].
  - unfold submit. do 4 (match goal with |- context [if ?c then _ else _] => destruct c end; [done|]). destruct (om !! id') eqn:E; [done|]. cbn. rewrite lookup_insert_ne; [done|]. by intros ->; rewrite Hx in E.
  - unfold on_execution_report. destruct (cl_ord_id v) as [id'|]; [|done]. destruct (om !! id') as [y|] eqn:Ey; [|done]. destruct (is_terminal (mo_state y)) eqn:Ety; [done|].
    destruct (exec_type v) as [[]|]; cbn; try done; try (by eapply Hins); destruct (process_fill _ v y ps) as [[? ?]|]; cbn; try done; by eapply Hins.
  - unfold on_cancel_reject. destruct (bool_decide (id' = [])); [done|]. destruct (om !! id') as [y|] eqn:Ey; [|done]. case_bool_decide as Es; [|done]. cbn. eapply Hins; [done|]. by rewrite Es.
  - unfold mark_pending_cancel. destruct (om !! id') as [y|] eqn:Ey; [|done]. destruct (is_terminal (mo_state y)) eqn:Ety; [done|]. cbn. by eapply Hins.
Qed.

Lemma run_terminal id x ops : Forall (fun o => o <> PurgeTerminal) ops -> forall s, s.1 !! id = Some x -> is_terminal (mo_state x) = true -> (om_run ops s).2.1 !! id = Some x.
Proof using.
  induction 1 as [|o ops Ho _ IH]; intros [om ps] Hx Ht; [done|]. cbn [om_run]. pose proof (step_terminal o om ps id x Hx Ht Ho) as Hs.
  destruct (om_step o (om, ps)) as [b s1]. specialize (IH s1 Hs Ht). by destruct (om_run ops s1) as [bs s2].
Qed.

Lemma empty_rep : manager_rep ∅ ∅.
Proof using. intros id. rewrite !lookup_empty. constructor. Qed.

Lemma empty_ok : ledger_ok ∅.
Proof using. intros id e. by rewrite lookup_empty. Qed.

(** C10: The order manager computes the ledger.  Take any sequence of submissions of whole
    quantities up to 2^50, execution reports, cancel rejects, cancel marks and purges, on an
    empty manager.  Every call returns what the ledger in whole numbers says; the manager has
    the same orders as the ledger, each with the same symbol, side and state, its quantities
    exactly those of the ledger and a finite average price; the filled quantity never exceeds
    the size of the order, the open quantity is the rest while the order is live and at most the
    rest afterwards; and an order in a terminal state is not changed by any later call but a
    purge. *)
Theorem order_manager_ledger ops ps : Forall op_ok ops ->
  let '(bs, (om, ps')) := om_run ops (∅, ps) in
  let '(bs', l, ts) := ledger_run ops ∅ in
  bs = bs' /\
  (forall id, match om !! id, l !! id with
    | Some o, Some e => order_rep id o e /\ entry_ok e
    | None, None => True
    | _, _ => False
    end) /\
  forall id o more, om !! id = Some o -> is_terminal (mo_state o) = true -> Forall (fun c => c <> PurgeTerminal) more -> (om_run more (om, ps')).2.1 !! id = Some o.
Proof.
  intros Hops. pose proof (run_ok ops ∅ ∅ ps empty_rep empty_ok Hops) as H.
  destruct (om_run ops (∅, ps)) as [bs [om ps']], (ledger_run ops ∅) as [[bs' l] ts]. destruct H as (-> & R & K & _). split; [done|]. split.
  - intros id. pose proof (rep_lookup om l id R) as Hid. destruct (om !! id) as [o|], (l !! id) as [e|] eqn:El; try done. split; [done|by apply (K id)].
  - intros id o more Ho Ht Hm. by apply run_terminal.
Qed.

(** C15: Positions and orders agree.  Take any sequence of submissions, reports, cancel rejects
    and cancel marks in which the submitted quantities are whole and add up to at most 2^53 and
    the prices of the reports are positive, on an empty manager and an empty position tracker.
    Then the position of every symbol is exactly what the orders of the symbol have filled, buys
    less sells, and counts one trade for each fill that was not empty. *)
Theorem positions_match_orders ops : Forall op_ok ops -> Forall priced ops -> Forall (fun o => o <> PurgeTerminal) ops -> total_submitted ops <= 2 ^ 53 ->
  let '(_, (om, ps)) := om_run ops (∅, Some ∅) in
  let '(_, l, ts) := ledger_run ops ∅ in
  (forall id, option_Forall2 (order_rep id) (om !! id) (l !! id)) /\
  exists t, ps = Some t /\ forall s, is_int (pos_qty (get_position s t)) (position_of s l) /\ trade_count (get_position s t) = u64 (fills s ts).
Proof.
  intros Ho Hp Hn Hs. pose proof (run_ok ops ∅ ∅ (Some ∅) empty_rep empty_ok Ho) as H.
  destruct (om_run ops (∅, Some ∅)) as [bs [om ps]]. pose proof (fun s => run_positions s ops ∅ ∅ ∅ 0 empty_rep empty_ok Ho Hp Hn Hs) as Hpos.
  destruct (ledger_run ops ∅) as [[bs' l] ts]. destruct H as (_ & R & _ & ->). split; [exact R|]. eexists. split; [reflexivity|]. intros s.
  destruct (Hpos s) as [H1 H2]; [|done]. unfold get_position. rewrite lookup_empty. by split.
Qed.

(** *** One order under the gate *)

(** The ledger of one order, of which [f] has been filled. *)
Definition only (id s : list byte) (side : byte) (n f : Z) (l : ledger) : Prop :=
  0 <= f <= n /\ (l = ∅ \/ exists e, l = {[id := e]} /\ l_symbol e = s /\ l_side e = side /\ l_orig e = n /\ l_filled e = f).

Lemma only_change id s side n f o (l l' : ledger) ts : only id s side n f l -> change o l l' ts -> (forall id s d q p, o <> Submit id s d q p) ->
  exists f', only id s side n f' l' /\ net s ts = signed side (f' - f).
Proof using.
  assert (forall d, signed d 0 = 0) as Hs0 by (intros d; unfold signed; by case_match).
  intros [Hf Hl] Hc Ho. destruct Hc as [id' e e' El -> Es Ed Eo Ef|? ? ? ? ? ? E|v id' e e' m px -> _ El -> Es Ed Eo Ef Hm Hle| -> |_ ->].
  - exists f. split; [|by rewrite Z.sub_diag, Hs0]. split; [done|]. destruct Hl as [->|(e0 & -> & H)]; [by rewrite lookup_empty in El|].
    right. apply lookup_singleton_Some in El as [<- ->]. exists e'. rewrite insert_singleton_eq. destruct H as (? & ? & ? & ?). split_and!; congruence.
  - by apply Ho in E.
  - destruct Hl as [->|(e0 & -> & H)]; [by rewrite lookup_empty in El|]. apply lookup_singleton_Some in El as [<- ->]. destruct H as (<- & <- & <- & <-).
    exists (l_filled e + m). cbn [net foldr t_symbol t_side t_qty]. rewrite decide_True by done. split; [|rewrite Z.add_0_r; f_equal; lia].
    split; [lia|]. right. exists e'. by rewrite insert_singleton_eq.
  - exists f. by rewrite Z.sub_diag, Hs0.
  - exists f. rewrite Z.sub_diag, Hs0. split; [|done]. split; [done|]. destruct Hl as [->|(e0 & -> & H)]; [left; apply map_filter_empty|].
    destruct (is_terminal (l_state e0)) eqn:Et; [left; by rewrite map_filter_singleton_False by (cbn; congruence)|right; exists e0; by rewrite map_filter_singleton_True].
Qed.

Lemma only_run id s side n n0 ops : Z.abs n0 <= 2 ^ 52 -> n <= 2 ^ 50 -> Forall priced ops -> Forall (fun o => forall id s d q p, o <> Submit id s d q p) ops ->
  forall om l f (ps : PositionTracker) k, manager_rep om l -> ledger_ok l -> only id s side n f l -> holds (get_position s ps) (n0 + signed side f) k ->
  let '(_, l', ts) := ledger_run ops l in exists f' k', 0 <= f' <= n /\ holds (get_position s (fold_left book_trade ts ps)) (n0 + signed side f') k'.
Proof using pow10_double.
  intros Hn0 Hn Hp Ho. induction ops as [|o ops IH]; intros om l f ps k R K Hl Hh; cbn [ledger_run]; [exists f, k; split; [apply Hl|done]|].
  apply list.Forall_cons in Hp as [Hp1 Hp], Ho as [Ho1 Ho]. assert (op_ok o) as Hok by (destruct o; try done; by destruct (Ho1 id0 symbol side0 qty price)).
  pose proof (ledger_change o l) as Hc. pose proof (step_ok o om l None R K Hok) as Hs. destruct (om_step o (om, None)) as [b0 [om1 ps1]], (ledger_step o l) as [[b l1] ts1]. destruct Hs as (_ & R1 & K1 & _).
  destruct (only_change id s side n f o l l1 ts1 Hl Hc Ho1) as (f1 & Hl1 & En). assert (n0 + signed side f + net s ts1 = n0 + signed side f1) as E by (rewrite En; unfold signed; case_match; lia).
  assert (Z.abs (n0 + signed side f1) <= 2 ^ 53) as Hb by (destruct Hl1 as [? _]; pose proof (signed_abs side f1); change (2 ^ 53) with (2 * 2 ^ 52); change (2 ^ 52) with (4 * 2 ^ 50) in *; lia).
  rewrite <- E in Hb. pose proof (change_positions s o l l1 ts1 _ k ps Hc K Hp1 Hb Hh) as Hh1. rewrite E in Hh1.
  specialize (IH Hp Ho om1 l1 f1 _ _ R1 K1 Hl1 Hh1). destruct (ledger_run ops l1) as [[bs l2] ts2]. by rewrite fold_left_app.
Qed.

Lemma leb_limit x y lim a b : is_int x a -> is_int y b -> Z.abs a <= Z.abs b -> is_double lim = true -> SFleb (SFabs y) lim = true -> SFleb (SFabs x) lim = true.
Proof using.
  intros Hx Hy Hab Dl. pose proof (int_abs _ _ Hx) as [Fx Ex]. pose proof (int_abs _ _ Hy) as [Fy Ey]. pose proof unit_pos.
  destruct (isfinite lim) eqn:Fl.
  - rewrite !leb_value, Ex, Ey by (done || by split). intros Hl%Z.leb_le. apply Z.leb_le. etransitivity; [|exact Hl]. apply Z.mul_le_mono_nonneg_r; lia.
  - destruct Fx as [_ Fx], Fy as [_ Fy]. destruct (SFabs x) as [[]| | |[]], (SFabs y) as [[]| | |[]], lim as [|[]| |]; done.
Qed.

(** C9: The gate bounds what its orders can do.  The position of a symbol is a whole number
    within the position limit; an order passes the gate and is submitted as the only one.
    Whatever reports, cancel rejects, cancel marks and purges follow, with any partial fills at
    any positive prices, the position lies between the old one and the one with the order filled
    completely, and its absolute value is within the limit. *)
Theorem gate_bounds_fills iteration limits s side n price (t : PositionTracker) n0 k id ops : id <> [] -> n <= 2 ^ 50 -> is_double price = true ->
  is_double (max_position_qty limits) = true -> enabled (max_position_qty limits) = true ->
  holds (get_position s t) n0 k -> Z.abs n0 <= 2 ^ 52 -> SFleb (SFabs (pos_qty (get_position s t))) (max_position_qty limits) = true ->
  0 < n -> check_order iteration limits s side (double_of_int n) price t = kOk ->
  Forall priced ops -> Forall (fun o => forall id s d q p, o <> Submit id s d q p) ops ->
  exists om bs om' t', submit id s side (double_of_int n) price ∅ = (true, om) /\ om_run ops (om, Some t) = (bs, (om', Some t')) /\
    exists f, 0 <= f <= n /\ is_int (pos_qty (get_position s t')) (n0 + signed side f) /\
      SFleb (SFabs (pos_qty (get_position s t'))) (max_position_qty limits) = true.
Proof.
  intros Hid Hn Dp Dl El Hh Hn0 Hlim Hpos Hck Hp Ho. assert (2 ^ 50 <= 2 ^ 53) as H53 by done. pose proof (int_is_int n ltac:(lia)) as Hin.
  apply check_order_ok in Hck as ((_ & _ & Fp & Pp & Hv & _) & Hq & _); [|apply int_double|done]. cbn [ord_price ord_side] in *. destruct (not_breaching _ _ El (Hq El)) as [_ Hproj].
  pose proof (submit_agrees id s side n price ∅ ∅ None empty_rep empty_ok ltac:(lia)) as Hs. cbn [om_step ledger_step] in Hs.
  rewrite (bool_decide_eq_true_2 (id <> [])), (proj2 (Z.ltb_lt 0 n)), Fp, Hv, lookup_empty in Hs by done. assert (SFleb double_zero price = true) as Hle by (by destruct price as [[]| | |[]]).
  rewrite Hle in Hs. cbn [andb] in Hs. rewrite bool_decide_eq_true_2 in Hs by done. destruct (submit id s side (double_of_int n) price ∅) as [b om]. destruct Hs as (-> & R & K & _).
  exists om. assert (Forall op_ok ops) as Hok by (eapply list.Forall_impl; [exact Ho|]; intros [id' s' d' q' p'| | | |] H; try done; by destruct (H id' s' d' q' p')).
  pose proof (run_ok ops om _ (Some t) R K Hok) as Hr. pose proof (only_run id s side n n0 ops Hn0 Hn Hp Ho om _ 0 t k R K) as Hrun.
  destruct (om_run ops (om, Some t)) as [bs [om' ps']], (ledger_run ops _) as [[bs' l'] ts]. destruct Hr as (_ & _ & _ & ->).
  destruct Hrun as (f & k' & Hf & [Hq' _]).
  { split; [lia|]. right. exists (mkLine s side n 0 n PendingNew). by rewrite insert_empty. }
  { unfold signed. case_match; by rewrite ?Z.opp_0, Z.add_0_r. }
  exists bs, om', (fold_left book_trade ts t). split; [done|]. split; [done|]. exists f. split; [done|]. split; [done|].
  assert (is_int (double_add (pos_qty (get_position s t)) (signed_qty side (double_of_int n))) (n0 + signed side n)) as Hfull.
  { apply int_add; [apply Hh|by apply int_signed|]. pose proof (signed_abs side n). change (2 ^ 53) with (2 * 2 ^ 52). change (2 ^ 52) with (4 * 2 ^ 50) in *. lia. }
  assert (Z.abs (n0 + signed side f) <= Z.abs n0 \/ Z.abs (n0 + signed side f) <= Z.abs (n0 + signed side n)) as [Hb|Hb] by (unfold signed; case_match; lia).
  - by apply (leb_limit _ (pos_qty (get_position s t)) _ _ n0 Hq' (proj1 Hh)).
  - by apply (leb_limit _ _ _ _ _ Hq' Hfull).
Qed.
End orders.

(** ** Examples *)

Definition exact_pow10 (e : Z) : double := double_of_int (10 ^ e).

Lemma exact_pow10_double e : is_double (exact_pow10 e) = true.
Proof. apply int_double. Qed.

Definition report_of (id et : byte) (qty px : list byte) : MessageView :=
  mkView [mkField MsgType ["8"%byte]; mkField tag_ClOrdID [id]; mkField tag_ExecType [et]; mkField tag_LastQty qty; mkField tag_LastPx px] 0 [].

(** A buy of 10 and a sell of 4; the first is filled by 3 and then, after a report of 8 that is
    refused, by 7; the second is canceled after a fill of 1. *)
Definition example_ops : list om_op :=
  [Submit ["a"%byte] [x58] kBuy 10 (double_of_int 5); Submit ["b"%byte] [x58] kSell 4 (double_of_int 6);
   Report (report_of "a" "0" ["0"%byte] ["1"%byte]); Report (report_of "a" "1" ["3"%byte] ["5"%byte]); Report (report_of "b" "F" ["1"%byte] ["6"%byte]);
   MarkPendingCancel ["b"%byte]; CancelReject ["b"%byte]; Report (report_of "a" "1" ["8"%byte] ["5"%byte]);
   Report (report_of "a" "2" ["7"%byte] ["5"%byte]); Report (report_of "b" "4" ["0"%byte] ["1"%byte])].

Lemma example_ops_ok : Forall op_ok example_ops.
Proof. unfold example_ops. repeat (apply list.Forall_cons; split; [by vm_compute|]). apply list.Forall_nil. done. Qed.

Lemma priced_reports ops : forallb (fun o => match o with Report v => match last_px exact_pow10 v with Some px => SFltb double_zero px | None => true end | _ => true end) ops = true ->
  Forall (priced exact_pow10) ops.
Proof.
  intros H. rewrite forallb_forall in H. apply list.Forall_forall. intros o Ho. specialize (H o ltac:(by apply list_elem_of_In)).
  destruct o as [|v| | |]; try done. intros px Hpx. by rewrite Hpx in H.
Qed.

Lemma order_manager_ledger_witness :
  let '(bs, (om, _)) := om_run exact_pow10 example_ops (∅, None) in
  bs = [true; true; true; true; true; true; true; false; true; true] /\
  exists o, om !! ["a"%byte] = Some o /\ mo_state o = Filled /\ is_int (filled_qty o) 10.
Proof.
  pose proof (order_manager_ledger exact_pow10 exact_pow10_double example_ops None example_ops_ok) as H.
  assert ((fun e => (l_filled e, l_state e)) <$> (snd (fst (ledger_run exact_pow10 example_ops ∅)) !! ["a"%byte]) = Some (10, Filled)) as He by (vm_compute; reflexivity).
  assert (fst (fst (ledger_run exact_pow10 example_ops ∅)) = [true; true; true; true; true; true; true; false; true; true]) as Hb by (vm_compute; reflexivity).
  destruct (om_run exact_pow10 example_ops (∅, None)) as [bs [om ps]], (ledger_run exact_pow10 example_ops ∅) as [[bs' l] ts]. cbn [fst snd] in *.
  destruct H as (-> & H & _). split; [exact Hb|]. specialize (H ["a"%byte]). destruct (l !! ["a"%byte]) as [e|]; [|discriminate He].
  injection He as Ef Es. destruct (om !! ["a"%byte]) as [o|]; [|destruct H]. destruct H as [R _].
  exists o. split; [reflexivity|]. split; [rewrite (r_state _ _ _ R); exact Es|]. rewrite <- Ef. apply R.
Defined.

Lemma positions_match_orders_witness :
  let '(_, (_, ps)) := om_run exact_pow10 example_ops (∅, Some ∅) in
  exists t, ps = Some t /\ is_int (pos_qty (get_position [x58] t)) 9.
Proof.
  pose proof (positions_match_orders exact_pow10 exact_pow10_double example_ops example_ops_ok) as H.
  assert (Forall (priced exact_pow10) example_ops) as Hp by (apply priced_reports; vm_compute; reflexivity).
  assert (Forall (fun o => o <> PurgeTerminal) example_ops) as Hn by (unfold example_ops; repeat (apply list.Forall_cons; split; [done|]); by apply list.Forall_nil).
  assert (total_submitted example_ops <= 2 ^ 53) as Ht by (by vm_compute). specialize (H Hp Hn Ht).
  assert (position_of [x58] (snd (fst (ledger_run exact_pow10 example_ops ∅))) = 9) as H9 by (vm_compute; reflexivity).
  destruct (om_run exact_pow10 example_ops (∅, Some ∅)) as [bs [om ps]], (ledger_run exact_pow10 example_ops ∅) as [[bs' l] ts]. cbn [fst snd] in H9.
  destruct H as (_ & t & Et & H). exists t. split; [exact Et|]. rewrite <- H9. apply H.
Defined.

Lemma gate_bounds_fills_witness :
  let limits := mkLimits double_zero double_zero (double_of_int 10) double_zero double_zero 0 in
  let ops := [Report (report_of "a" "1" ["3"%byte] ["5"%byte]); Report (report_of "a" "1" ["9"%byte] ["5"%byte])] in
  exists om bs om' t', submit ["a"%byte] [x58] kBuy (double_of_int 10) (double_of_int 5) ∅ = (true, om) /\
    om_run exact_pow10 ops (om, Some ∅) = (bs, (om', Some t')) /\ SFleb (SFabs (pos_qty (get_position [x58] t'))) (double_of_int 10) = true.
Proof.
  intros limits ops.
  destruct (gate_bounds_fills exact_pow10 exact_pow10_double map_to_list limits [x58] kBuy 10 (double_of_int 5) ∅ 0 0 ["a"%byte] ops) as (om & bs & om' & t' & H1 & H2 & f & _ & _ & H3).
  - discriminate.
  - lia.
  - vm_compute; reflexivity.
  - vm_compute; reflexivity.
  - vm_compute; reflexivity.
  - split; [apply zero_is_int|vm_compute; reflexivity].
  - vm_compute; discriminate.
  - vm_compute; reflexivity.
  - lia.
  - vm_compute; reflexivity.
  - apply priced_reports. vm_compute. reflexivity.
  - apply list.Forall_cons; split; [discriminate|]. apply list.Forall_cons; split; [discriminate|]. apply list.Forall_nil. exact I.
  - exists om, bs, om', t'. split; [exact H1|]. split; [exact H2|exact H3].
Defined.

(** A report of a full fill of half a unit ends the order, without any fill: what was filled, what
    is open and the position stay as they were. *)
Lemma fractional_fill_lost :
  let half := S754_finite false 4503599627370496 (-53) in
  let s := (snd (submit ["a"%byte] [x58] kBuy half (double_of_int 5) ∅), Some ∅) in
  let '(b, (om, ps)) := on_execution_report exact_pow10 (report_of "a" "2" ["0"%byte; "."%byte; "5"%byte] ["5"%byte]) s in
  b = true /\ get_position [x58] (default ∅ ps) = zero_position /\
  (fun o => (mo_state o, filled_qty o, leaves_qty o)) <$> om !! ["a"%byte] = Some (Filled, double_zero, half).
Proof. vm_compute. split; [reflexivity|split; reflexivity]. Qed.

(** A fill at price zero counts for the order but not for the position. *)
Lemma free_fill_not_booked :
  let s := (snd (submit ["a"%byte] [x58] kBuy (double_of_int 1) (double_of_int 5) ∅), Some ∅) in
  let '(b, (om, ps)) := on_execution_report exact_pow10 (report_of "a" "2" ["1"%byte] ["0"%byte]) s in
  b = true /\ get_position [x58] (default ∅ ps) = zero_position /\
  (fun o => (mo_state o, filled_qty o)) <$> om !! ["a"%byte] = Some (Filled, double_of_int 1).
Proof. vm_compute. split; [reflexivity|split; reflexivity]. Qed.

(** An order of 1 - 2^-31 may be filled by 1: what is open becomes negative. *)
Lemma overfill_within_tolerance :
  let s := (snd (submit ["a"%byte] [x58] kBuy (double_sub (double_of_int 1) (S754_finite false 4503599627370496 (-83))) (double_of_int 5) ∅), None) in
  let '(b, (om, _)) := on_execution_report exact_pow10 (report_of "a" "1" ["1"%byte] ["5"%byte]) s in
  b = true /\ (fun o => (SFltb (leaves_qty o) double_zero, SFltb (orig_qty o) (filled_qty o))) <$> om !! ["a"%byte] = Some (true, true).
Proof. vm_compute. split; reflexivity. Qed.

(** An order that the exchange reports as expired stays open. *)
Lemma expired_stays_open :
  let s := (snd (submit ["a"%byte] [x58] kBuy (double_of_int 1) (double_of_int 5) ∅), None) in
  let '(b, (om, _)) := on_execution_report exact_pow10 (report_of "a" "C" ["0"%byte] ["0"%byte]) s in
  b = true /\ active_count om = 1%nat /\ mo_state <$> om !! ["a"%byte] = Some PendingNew.
Proof. vm_compute. split; [reflexivity|split; reflexivity]. Qed.
