(* ===== verification/OrderEntry.v ===== *)
(** * Order entry messages

    orders.hpp of eph-fix: NewOrderSingle, OrderCancelRequest and OrderCancelReplaceRequest, built
    into a caller's buffer.

    [order_entry_roundtrip]: a request is built exactly if it is valid and fits, and the parser
    reads back its fields; quantity and price are those of the request, rounded to two digits. *)

From S2P Require Import Prelude FixText FixTime Framers Fix FixView FixBuilder FixSession Double FixDouble Book Positions Orders.

#[local] Open Scope Z_scope.

(** ** orders.hpp *)

Definition tag_OrigClOrdID : Z := 41.
Definition tag_OrderQty : Z := 38.
Definition tag_OrdType : Z := 40.
Definition tag_Price : Z := 44.
Definition tag_TimeInForce : Z := 59.
Definition tag_TransactTime : Z := 60.
Definition tag_HandlInst : Z := 21.

Inductive Side : Set := Buy | Sell.
Inductive OrdType : Set := Market | Limit.
Inductive TimeInForce : Set := Day | GTC | IOC | FOK.

Definition side_char (s : Side) : byte := match s with Buy => "1"%byte | Sell => "2"%byte end.
Definition ord_type_char (t : OrdType) : byte := match t with Market => "1"%byte | Limit => "2"%byte end.
Definition tif_char (t : TimeInForce) : byte := match t with Day => "0"%byte | GTC => "1"%byte | IOC => "3"%byte | FOK => "4"%byte end.

(** The default arguments of [set_double] and [finish]. *)
Definition default_precision : Z := 2.
Definition default_begin_string : list byte := [x46; x49; x58; x2e; x34; x2e; x34].

(** The returned length, and the buffer. *)
Definition finished (b : builder) : option (Z * option (list byte)) :=
  '(len, b) ← finish default_begin_string b; Some (len, buf_ b).

(** [now] is the wall clock of [now_epoch_ns]. *)
Definition build_new_order (buf : option (list byte)) (capacity : Z) (sender target id symbol : list byte) (side : Side) (ord_type : OrdType)
    (qty price : double) (tif : TimeInForce) (sending_time_ns now : Z) : option (Z * option (list byte)) :=
  if negb (isfinite qty) || SFleb qty double_zero then Some (0, buf) else
  let b := new_builder buf capacity in
  b ← set_char MsgType "D"%byte b;
  b ← set SenderCompID sender b;
  b ← set TargetCompID target b;
  b ← set tag_ClOrdID id b;
  b ← set_char tag_HandlInst "1"%byte b;
  b ← set tag_Symbol symbol b;
  b ← set_char tag_Side (side_char side) b;
  let ts := if sending_time_ns =? 0 then now else sending_time_ns in
  b ← set_timestamp tag_TransactTime ts kMilliseconds b;
  b ← set_timestamp SendingTime ts kMilliseconds b;
  b ← set_double tag_OrderQty qty default_precision b;
  b ← set_char tag_OrdType (ord_type_char ord_type) b;
  b ← set_char tag_TimeInForce (tif_char tif) b;
  b ← (match ord_type with Limit => set_double tag_Price price default_precision b | Market => Some b end);
  finished b.

Definition build_cancel_order (buf : option (list byte)) (capacity : Z) (sender target id orig_id symbol : list byte) (side : Side) (now : Z) :
    option (Z * option (list byte)) :=
  let b := new_builder buf capacity in
  b ← set_char MsgType "F"%byte b;
  b ← set SenderCompID sender b;
  b ← set TargetCompID target b;
  b ← set tag_ClOrdID id b;
  b ← set tag_OrigClOrdID orig_id b;
  b ← set tag_Symbol symbol b;
  b ← set_char tag_Side (side_char side) b;
  b ← set_timestamp tag_TransactTime now kMilliseconds b;
  b ← set_timestamp SendingTime now kMilliseconds b;
  finished b.

Definition build_replace_order (buf : option (list byte)) (capacity : Z) (sender target id orig_id symbol : list byte) (side : Side) (ord_type : OrdType)
    (qty price : double) (tif : TimeInForce) (now : Z) : option (Z * option (list byte)) :=
  if negb (isfinite qty) || SFleb qty double_zero then Some (0, buf) else
  let b := new_builder buf capacity in
  b ← set_char MsgType "G"%byte b;
  b ← set SenderCompID sender b;
  b ← set TargetCompID target b;
  b ← set tag_ClOrdID id b;
  b ← set tag_OrigClOrdID orig_id b;
  b ← set_char tag_HandlInst "1"%byte b;
  b ← set tag_Symbol symbol b;
  b ← set_char tag_Side (side_char side) b;
  b ← set_timestamp tag_TransactTime now kMilliseconds b;
  b ← set_timestamp SendingTime now kMilliseconds b;
  b ← set_double tag_OrderQty qty default_precision b;
  b ← set_char tag_OrdType (ord_type_char ord_type) b;
  b ← set_char tag_TimeInForce (tif_char tif) b;
  b ← (match ord_type with Limit => set_double tag_Price price default_precision b | Market => Some b end);
  finished b.

(** ** Decimals with two digits, read back *)

Lemma int_zero x : is_int x 0 -> exists s, x = S754_zero s.
Proof.
  intros [[Dx Fx] Ex]. destruct x as [s| | |s m e]; try done; [by exists s|]. apply bounded_spec in Dx as (He & _). cbn [value] in Ex.
  pose proof (Z.pow_pos_nonneg 2 (e + 1074) ltac:(lia) ltac:(lia)) as Hp. destruct s; cbn [cond_Zopp] in Ex; nia.
Qed.

Lemma int_mul_ten x a : is_int x a -> 0 <= a -> a * 10 <= 2 ^ 53 -> is_int (double_mul x ten) (a * 10).
Proof.
  intros Hx Ha Hb. destruct (Z.eq_dec a 0) as [->|Hne]; [destruct (int_zero x Hx) as [s ->]; by destruct s|].
  pose proof Hx as [Fx Ex]. pose proof (int_is_int 10 ltac:(done)) as [Ft Et]. fold ten in Ft, Et.
  assert (2 ^ 900 <= 1 * 2 ^ 1074 /\ 2 ^ 53 * 2 ^ 1074 <= 2 ^ 1200 /\ 10 * 2 ^ 1074 <= 2 ^ 1200) as (B1 & B2 & B3) by (vm_compute; split_and!; discriminate).
  pose proof unit_pos as HU. assert (rnd (a * 10 * 2 ^ 1074) = a * 10 * 2 ^ 1074) as Er by (apply rnd_exact; lia).
  assert (2 ^ 53 * 2 ^ 1074 < too_large) as Htl by (by vm_compute).
  destruct (mul_value x ten (a * 10 * 2 ^ 1074) Fx Ft) as [Ff Ev]; [rewrite Ex|rewrite Et|rewrite Ex, Et| |rewrite Er|].
  - split; [etransitivity; [exact B1|]|etransitivity; [|exact B2]]; apply Z.mul_le_mono_nonneg_r; lia.
  - split; [etransitivity; [exact B1|]; apply Z.mul_le_mono_nonneg_r; lia|exact B3].
  - lia.
  - apply Z.mul_pos_pos; lia.
  - eapply Z.le_lt_trans; [|exact Htl]. apply Z.mul_le_mono_nonneg_r; lia.
  - split; [done|]. by rewrite Ev, Er.
Qed.

Lemma number_int_whole ds rest : digits ds -> forall r h a, is_int r a -> 0 <= a -> foldl (fun acc c => acc * 10 + digit_of c) a ds <= 2 ^ 53 ->
  exists r', number_int r h (ds ++ ch_dot :: rest) = Some (r', h || negb (bool_decide (ds = [])), ch_dot :: rest) /\ is_int r' (foldl (fun acc c => acc * 10 + digit_of c) a ds).
Proof.
  induction 1 as [|c ds Hc Hds IH]; intros r h a Hr Ha Hb; [exists r; by rewrite orb_false_r|]. cbn [foldl app number_int] in *.
  pose proof Hc as Hd%is_digit_spec. unfold is_digit in Hc. assert (is_dot c || is_exp_char c = false) as ->.
  { unfold is_dot, is_exp_char. unfold digit_of in Hd. rewrite !(proj2 (Z.eqb_neq _ _)) by lia. done. }
  unfold digit_value. rewrite Hc. cbn [mbind option_bind]. fold (digit_of c). rewrite foldl_dec in Hb. pose proof (dec_val_bound ds Hds) as [Hv _].
  pose proof (Z.pow_pos_nonneg 10 (zlen ds) ltac:(lia) (zlen_nonneg ds)) as Hp. assert (a * 10 + digit_of c <= 2 ^ 53) as Hle by nia.
  pose proof (int_mul_ten r a Hr Ha ltac:(lia)) as Hm. pose proof (int_add _ _ _ _ Hm (int_is_int (digit_of c) ltac:(lia)) ltac:(lia)) as Hs.
  destruct (IH _ true _ Hs ltac:(lia)) as (r' & -> & Hr'); [by rewrite foldl_dec|]. exists r'. by destruct h.
Qed.

(** The two digits behind the point. *)
Definition cents_read (n : Z) (f : double) : bool :=
  is_double f && isfinite f && (0 <=? value f) && (Z.abs (100 * value f - n * 2 ^ 1074) * 2 ^ 52 <=? n * 2 ^ 1074).

Lemma cents_all : forallb (fun '(a, b) =>
  match number_frac double_zero ten false [digit_char (Z.of_nat a); digit_char (Z.of_nat b)] with
  | Some (f, true, []) => cents_read (10 * Z.of_nat a + Z.of_nat b) f
  | _ => false
  end) (list_prod (seq 0 10) (seq 0 10)) = true.
Proof. vm_compute. reflexivity. Qed.

Lemma char_of_digit c : is_digit c = true -> c = digit_char (digit_of c).
Proof. intros _. unfold digit_char, digit_of. replace (48 + (b2z c - 48)) with (b2z c) by lia. symmetry. apply z2b_b2z. Qed.

Lemma cents_digits ds : digits ds -> length ds = 2%nat -> exists f, number_frac double_zero ten false ds = Some (f, true, []) /\ finite f /\ 0 <= value f /\
  Z.abs (100 * value f - dec_val ds * 2 ^ 1074) * 2 ^ 52 <= dec_val ds * 2 ^ 1074.
Proof.
  intros Hd Hl. destruct ds as [|c1 [|c2 [|]]]; try done. apply list.Forall_cons in Hd as [H1 Hd]. apply list.Forall_cons in Hd as [H2 _].
  pose proof (proj1 (is_digit_spec _) H1) as B1. pose proof (proj1 (is_digit_spec _) H2) as B2. pose proof cents_all as H. rewrite forallb_forall in H.
  specialize (H (Z.to_nat (digit_of c1), Z.to_nat (digit_of c2)) ltac:(apply in_prod; apply in_seq; lia)). cbv beta iota in H. rewrite !Z2Nat.id, <- !char_of_digit in H by (done || lia).
  assert (dec_val [c1; c2] = 10 * digit_of c1 + digit_of c2) as -> by (unfold dec_val; cbn [foldl]; lia).
  destruct (number_frac double_zero ten false [c1; c2]) as [[[f []] []]|]; try done. exists f. split; [done|].
  unfold cents_read in H. apply andb_true_iff in H as [[[Hd Hf]%andb_true_iff H0]%andb_true_iff He]. apply Z.leb_le in H0, He. by split; [split|].
Qed.

(** The error of integer part, fraction and their sum. *)
Lemma sum_error U I n f y : 0 < U -> 0 <= I -> 0 <= n -> 0 <= f -> Z.abs (100 * f - n * U) * 2 ^ 52 <= n * U -> Z.abs (y - (I * U + f)) * 2 ^ 53 <= I * U + f ->
  Z.abs (100 * y - (I * 100 + n) * U) * 2 ^ 51 <= (I * 100 + n) * U.
Proof.
  intros HU HI Hn Hf H1 H2. replace ((I * 100 + n) * U) with (100 * (I * U) + n * U) by ring. assert (0 <= I * U) by nia. set (IU := I * U) in *. set (nU := n * U) in *. lia.
Qed.

(** What the parser makes of a decimal with two digits behind the point. *)
Lemma parse_cents pow10 neg D text : is_decimal 2 neg D text -> 0 <= D <= 100 * 2 ^ 53 ->
  exists y, parse_number pow10 text = Some y /\ finite y /\
    Z.abs (100 * value y - (if neg then - D else D) * 2 ^ 1074) * 2 ^ 51 <= D * 2 ^ 1074 /\
    (D mod 100 = 0 -> value y = (if neg then - (D / 100) else D / 100) * 2 ^ 1074).
Proof.
  intros (ip & fs & Eip & Hfs & Hlen & Hfv & ->) HD. change (10 ^ Z.of_nat 2) with 100 in *. cbn [Nat.eqb]. pose proof unit_pos as HU.
  set (I := D / 100) in *. set (n := D mod 100) in *. assert (D = I * 100 + n) as ED by (subst I n; rewrite Z.mul_comm; apply Z.div_mod; lia).
  assert (0 <= n < 100) as Hn by (apply Z.mod_pos_bound; lia). assert (0 <= I <= 2 ^ 53) as HI by lia. clearbody I n.
  destruct (format_uint_spec I ltac:(lia)) as (ds & E & Hd & Hv & Hl). rewrite Eip in E. injection E as <-.
  destruct (number_int_whole ip fs Hd double_zero false 0 zero_is_int ltac:(lia)) as (r & Er & Hr); [fold (dec_val ip); lia|]. fold (dec_val ip) in Hr. rewrite Hv in Hr.
  destruct (cents_digits fs Hfs Hlen) as (f & Ef & Ff & F0 & Fe). rewrite Hfv in Fe. destruct Hr as [Fr Vr].
  pose proof (add_value r f Fr Ff) as R. rewrite Vr in R. assert (0 <= I * 2 ^ 1074 + value f) as Hpos by nia.
  assert ((2 ^ 53 + 1) * 2 ^ 1074 < too_large) as Htl by (by vm_compute). assert (rnd ((2 ^ 53 + 2) * 2 ^ 1074) = (2 ^ 53 + 2) * 2 ^ 1074) as X by (by vm_compute).
  assert (I * 2 ^ 1074 + value f <= (2 ^ 53 + 2) * 2 ^ 1074) as Hub by lia.
  pose proof (rnd_mono 0 _ Hpos) as L. rewrite rnd_0 in L. pose proof (rnd_mono _ _ Hub) as B. rewrite X in B.
  assert ((2 ^ 53 + 2) * 2 ^ 1074 < too_large) as Htl2 by (by vm_compute).
  apply rounds_finite in R as [Fs Vs]; [|lia]. pose proof (rnd_close _ Hpos) as C. rewrite <- Vs in C. pose proof (sum_error _ I n (value f) _ HU ltac:(lia) ltac:(lia) F0 Fe C) as He.
  assert (n = 0 -> value (double_add r f) = I * 2 ^ 1074) as Hwhole.
  { intros ->. assert (value f = 0) as E0 by lia. rewrite Vs, E0, Z.add_0_r. apply rnd_exact; lia. }
  exists (if neg then SFopp (double_add r f) else double_add r f). split.
  - destruct ip as [|c ip]; [unfold zlen in Hl; cbn in Hl; lia|]. apply list.Forall_cons in Hd as [Hc _].
    assert ((b2z c =? 45) = false) as Hm by (apply is_digit_spec in Hc; unfold digit_of in Hc; apply Z.eqb_neq; lia). unfold parse_number. destruct neg; cbn [app].
    + change (b2z ch_minus =? 45) with true. cbn iota. rewrite bool_decide_eq_false_2 by done. cbn [app] in Er. rewrite Er. cbn [mbind option_bind]. change (is_dot ch_dot) with true. cbn iota.
      rewrite Ef. cbn [mbind option_bind negb andb orb]. rewrite bool_decide_eq_false_2 by done. cbn [negb andb]. by rewrite (proj2 (proj1 (opp_value _ Fs))).
    + rewrite Hm. rewrite bool_decide_eq_false_2 by done. cbn [app] in Er. rewrite Er. cbn [mbind option_bind]. change (is_dot ch_dot) with true. cbn iota.
      rewrite Ef. cbn [mbind option_bind negb andb orb]. rewrite bool_decide_eq_false_2 by done. cbn [negb andb]. by rewrite (proj2 Fs).
  - rewrite ED. destruct neg; [destruct (opp_value _ Fs) as [Fo ->]|]; (split; [done|]); (split; [lia|]); intros E0; [rewrite Hwhole by done; lia|by apply Hwhole].
Qed.

(** ** Requests *)

Record parties := mkParties { p_sender : list byte; p_target : list byte; p_id : list byte; p_symbol : list byte; p_side : Side }.
Record terms := mkTerms { q_type : OrdType; q_qty : double; q_price : double; q_tif : TimeInForce }.

(** The three requests. *)
Inductive request :=
| NewOrder (p : parties) (q : terms) (sending_time_ns : Z)
| CancelOrder (p : parties) (orig_id : list byte)
| ReplaceOrder (p : parties) (orig_id : list byte) (q : terms).

Definition build_request (r : request) (buf : option (list byte)) (capacity now : Z) : option (Z * option (list byte)) :=
  match r with
  | NewOrder p q t =>
    build_new_order buf capacity (p_sender p) (p_target p) (p_id p) (p_symbol p) (p_side p) (q_type q) (q_qty q) (q_price q) (q_tif q) t now
  | CancelOrder p orig => build_cancel_order buf capacity (p_sender p) (p_target p) (p_id p) orig (p_symbol p) (p_side p) now
  | ReplaceOrder p orig q =>
    build_replace_order buf capacity (p_sender p) (p_target p) (p_id p) orig (p_symbol p) (p_side p) (q_type q) (q_qty q) (q_price q) (q_tif q) now
  end.

(** The fields a request is to have, in order. *)
Definition party_fields (kind : byte) (p : parties) : list Field :=
  [mkField MsgType [kind]; mkField SenderCompID (p_sender p); mkField TargetCompID (p_target p); mkField tag_ClOrdID (p_id p)].
Definition side_fields (p : parties) (ts : Z) : list Field :=
  [mkField tag_Symbol (p_symbol p); mkField tag_Side [side_char (p_side p)];
   mkField tag_TransactTime (format_timestamp ts kMilliseconds); mkField SendingTime (format_timestamp ts kMilliseconds)].
Definition number_text (x : double) : list byte := default [] (format_double x 2).
Definition term_fields (q : terms) : list Field :=
  [mkField tag_OrderQty (number_text (q_qty q)); mkField tag_OrdType [ord_type_char (q_type q)]; mkField tag_TimeInForce [tif_char (q_tif q)]] ++
  match q_type q with Limit => [mkField tag_Price (number_text (q_price q))] | Market => [] end.
Definition automated : Field := mkField tag_HandlInst ["1"%byte].

Definition request_fields (r : request) (now : Z) : list Field :=
  match r with
  | NewOrder p q t => party_fields "D" p ++ [automated] ++ side_fields p (if t =? 0 then now else t) ++ term_fields q
  | CancelOrder p orig => party_fields "F" p ++ [mkField tag_OrigClOrdID orig] ++ side_fields p now
  | ReplaceOrder p orig q => party_fields "G" p ++ [mkField tag_OrigClOrdID orig; automated] ++ side_fields p now ++ term_fields q
  end.

Definition request_parties (r : request) : parties := match r with NewOrder p _ _ | CancelOrder p _ | ReplaceOrder p _ _ => p end.
Definition request_terms (r : request) : option terms := match r with NewOrder _ q _ | ReplaceOrder _ _ q => Some q | CancelOrder _ _ => None end.
Definition request_texts (r : request) : list (list byte) :=
  let p := request_parties r in
  [p_sender p; p_target p; p_id p; p_symbol p] ++ match r with CancelOrder _ o | ReplaceOrder _ o _ => [o] | NewOrder _ _ _ => [] end.

(** No separator in the texts, something to order, and numbers of less than 1e19. *)
Definition positive (x : double) : bool := isfinite x && SFltb double_zero x.
Definition writable (x : double) : bool := isfinite x && SFltb (SFabs x) kMaxDoubleMagnitude.
Definition terms_writable (q : terms) : bool := writable (q_qty q) && match q_type q with Limit => writable (q_price q) | Market => true end.
Definition buildable (r : request) : bool :=
  forallb (fun t => negb (has_soh t)) (request_texts r) &&
  match request_terms r with Some q => positive (q_qty q) && terms_writable q | None => true end.

Definition request_ok (r : request) (now : Z) : Prop :=
  0 <= now < 2 ^ 64 /\ match r with NewOrder _ _ t => 0 <= t < 2 ^ 64 | _ => True end /\
  match request_terms r with Some q => is_double (q_qty q) = true /\ is_double (q_price q) = true | None => True end.

(** The calls of the setters. *)
Definition term_calls (q : terms) : list (bool * op) :=
  [(false, ODouble tag_OrderQty (q_qty q) default_precision); (false, OChar tag_OrdType (ord_type_char (q_type q))); (false, OChar tag_TimeInForce (tif_char (q_tif q)))] ++
  match q_type q with Limit => [(false, ODouble tag_Price (q_price q) default_precision)] | Market => [] end.
Definition party_calls (kind : byte) (p : parties) : list (bool * op) :=
  [(false, OChar MsgType kind); (false, OSet SenderCompID (p_sender p)); (false, OSet TargetCompID (p_target p)); (false, OSet tag_ClOrdID (p_id p))].
Definition side_calls (p : parties) (ts : Z) : list (bool * op) :=
  [(false, OSet tag_Symbol (p_symbol p)); (false, OChar tag_Side (side_char (p_side p)));
   (false, OTimestamp tag_TransactTime ts kMilliseconds); (false, OTimestamp SendingTime ts kMilliseconds)].
Definition request_calls (r : request) (now : Z) : list (bool * op) :=
  match r with
  | NewOrder p q t => party_calls "D" p ++ [(false, OChar tag_HandlInst "1"%byte)] ++ side_calls p (if t =? 0 then now else t) ++ term_calls q
  | CancelOrder p orig => party_calls "F" p ++ [(false, OSet tag_OrigClOrdID orig)] ++ side_calls p now
  | ReplaceOrder p orig q => party_calls "G" p ++ [(false, OSet tag_OrigClOrdID orig); (false, OChar tag_HandlInst "1"%byte)] ++ side_calls p now ++ term_calls q
  end.

Lemma calls_app cs1 cs2 b : run_calls (cs1 ++ cs2) b = (b ← run_calls cs1 b; run_calls cs2 b).
Proof. revert b. induction cs1 as [|c cs1 IH]; intros b; [done|]. cbn [app run_calls]. destruct (run_call c b); cbn [mbind option_bind]; [apply IH|done]. Qed.

Lemma term_calls_run q b :
  (b ← set_double tag_OrderQty (q_qty q) default_precision b;
   b ← set_char tag_OrdType (ord_type_char (q_type q)) b;
   b ← set_char tag_TimeInForce (tif_char (q_tif q)) b;
   b ← (match q_type q with Limit => set_double tag_Price (q_price q) default_precision b | Market => Some b end);
   finished b) = (b ← run_calls (term_calls q) b; finished b).
Proof.
  unfold term_calls. rewrite calls_app. cbn [run_calls run_call run_op fst snd].
  destruct (set_double tag_OrderQty _ _ b) as [b1|]; [|done]. cbn [mbind option_bind].
  destruct (set_char tag_OrdType _ b1) as [b2|]; [|done]. cbn [mbind option_bind].
  destruct (set_char tag_TimeInForce _ b2) as [b3|]; [|done]. cbn [mbind option_bind]. destruct (q_type q); [done|].
  cbn [run_calls run_call run_op fst snd]. by destruct (set_double tag_Price _ _ b3).
Qed.

#[local] Ltac follow_calls := repeat match goal with |- mbind _ ?m = _ => destruct m; cbn [mbind option_bind]; [|done] end.

Lemma quantity_test x : is_double x = true -> negb (isfinite x) || SFleb x double_zero = negb (positive x).
Proof.
  intros Hd. unfold positive. destruct (isfinite x) eqn:Hf; [|done]. cbn [negb orb andb]. rewrite leb_value, ltb_value by done. change (value double_zero) with 0.
  by rewrite Z.ltb_antisym, negb_involutive.
Qed.

(** A request without a quantity to order is refused; any other is its calls. *)
Lemma build_request_calls r buf capacity now : request_ok r now ->
  build_request r buf capacity now =
    if match request_terms r with Some q => positive (q_qty q) | None => true end
    then b ← run_calls (request_calls r now) (new_builder buf capacity); finished b else Some (0, buf).
Proof.
  intros (_ & _ & Hq). destruct r as [p q t|p orig|p orig q]; cbn [build_request request_terms request_calls] in *.
  - unfold build_new_order. rewrite quantity_test by apply Hq. destruct (positive (q_qty q)); [|done]. cbn [negb].
    unfold party_calls, side_calls. cbn [app run_calls run_call run_op fst snd]. follow_calls.
    apply term_calls_run.
  - unfold build_cancel_order, party_calls, side_calls. cbn [app run_calls run_call run_op fst snd]. follow_calls. done.
  - unfold build_replace_order. rewrite quantity_test by apply Hq. destruct (positive (q_qty q)); [|done]. cbn [negb].
    unfold party_calls, side_calls. cbn [app run_calls run_call run_op fst snd]. follow_calls.
    apply term_calls_run.
Qed.

(** What is written for a number. *)
Lemma number_written t x : is_double x = true -> op_value (ODouble t x default_precision) = if writable x then Some (number_text x) else None.
Proof.
  intros Hd. destruct (set_double_value t x default_precision (new_builder None 0) Hd) as [Hw _]. revert Hw. cbn [op_value]. fold (writable x). change (digits_behind default_precision) with 2%nat.
  destruct (writable x) eqn:Hx; [|done]. unfold number_text. destruct (format_double x 2); [done|]. unfold writable in Hx. apply andb_true_iff in Hx as [Hf Hlt].
  rewrite (proj1 (magnitude_tests x (conj Hd Hf))) in Hlt. apply Z.ltb_lt in Hlt. intros [Hn|Hn]; [congruence|]. by apply Z.lt_nge in Hlt.
Qed.

Lemma wanted_terms q fs : is_double (q_qty q) = true /\ is_double (q_price q) = true ->
  wanted (term_calls q) fs = if terms_writable q then Some (fs ++ term_fields q) else None.
Proof.
  intros [Hq Hp]. unfold term_calls, term_fields, terms_writable. assert (forall t, has_soh [ord_type_char t] = false) as E1 by (by intros []). assert (forall t, has_soh [tif_char t] = false) as E2 by (by intros []).
  pose proof (number_written tag_OrderQty _ Hq) as W1. pose proof (number_written tag_Price _ Hp) as W2. cbn [app wanted op_tag]. rewrite W1. destruct (writable (q_qty q)); [|done]. cbn [mbind option_bind andb op_value].
  rewrite E1, E2. cbn [mbind option_bind]. destruct (q_type q); cbn [app wanted op_tag]; [cbn [mbind option_bind]; by rewrite <- !app_assoc|]. rewrite W2. destruct (writable (q_price q)); [|done]. cbn [mbind option_bind andb]. by rewrite <- !app_assoc.
Qed.

(** The calls ask for the fields of the request, unless a text has a separator or a number is too large. *)
Lemma wanted_request r now : request_ok r now ->
  wanted (request_calls r now) [] =
    if forallb (fun t => negb (has_soh t)) (request_texts r) && match request_terms r with Some q => terms_writable q | None => true end then Some (request_fields r now) else None.
Proof.
  intros (_ & _ & Hq).
  assert (has_soh ["D"%byte] = false /\ has_soh ["F"%byte] = false /\ has_soh ["G"%byte] = false /\ has_soh ["1"%byte] = false /\ forall s, has_soh [side_char s] = false) as (HD & HF & HG & H1 & Hs) by (split_and!; try done; by intros []).
  destruct r as [p q t|p orig|p orig q]; cbn [request_terms request_calls request_texts request_parties request_fields] in *;
    unfold party_calls, side_calls, party_fields, side_fields, request_texts; cbn [app wanted op_value op_tag forallb request_parties]; rewrite ?HD, ?HF, ?HG, ?H1, ?Hs; cbn [mbind option_bind andb app].
  all: destruct (has_soh (p_sender p)); cbn [mbind option_bind negb andb app]; [done|].
  all: destruct (has_soh (p_target p)); cbn [mbind option_bind negb andb app]; [done|].
  all: destruct (has_soh (p_id p)); cbn [mbind option_bind negb andb app]; [done|].
  - destruct (has_soh (p_symbol p)); cbn [mbind option_bind negb andb app]; [done|]. by rewrite wanted_terms.
  - destruct (has_soh orig), (has_soh (p_symbol p)); done.
  - destruct (has_soh orig), (has_soh (p_symbol p)); cbn [mbind option_bind negb andb app]; try done. by rewrite wanted_terms.
Qed.

Lemma calls_ok r now : request_ok r now -> Forall (fun c => FixBuilder.op_ok c.2) (request_calls r now).
Proof.
  intros (Hn & Ht & Hd). assert (forall q, is_double (q_qty q) = true /\ is_double (q_price q) = true -> Forall (fun c => FixBuilder.op_ok c.2) (term_calls q)) as Hq.
  { intros [[] ? ? ?] [? ?]; repeat constructor; done. }
  assert (forall k p, Forall (fun c => FixBuilder.op_ok c.2) (party_calls k p)) as Hp by (intros; repeat constructor).
  assert (forall p ts, 0 <= ts < 2 ^ 64 -> Forall (fun c => FixBuilder.op_ok c.2) (side_calls p ts)) as Hs by (intros p ts H; repeat constructor; cbn [snd]; done || lia).
  destruct r as [p q t|p orig|p orig q]; cbn [request_calls request_terms] in *; rewrite !list.Forall_app; split_and!; auto; try by repeat constructor. apply Hs. case_match; lia.
Qed.

Lemma default_begin_ok : begin_string_ok default_begin_string.
Proof.
  split; [done|]. split; [by vm_compute|]. split; intros Hin; repeat (apply elem_of_cons in Hin as [Hin|Hin]; [discriminate|]); by apply elem_of_nil in Hin.
Qed.

Lemma get_find t fs n bs : get (mkView fs n bs) t = find_field t fs.
Proof. done. Qed.

Section numbers.
Context (pow10 : Z -> double).

(** The number [x] in a message: the text of its field is the decimal with two digits that [x]
    rounds to, and, for up to 2^53, the parser reads a double that differs from the decimal by at
    most one part in 2^51, and is [x] itself if [x] is whole. *)
Definition reads_number (x : double) (v : MessageView) (t : Z) : Prop :=
  exists D text, get v t = Some text /\ is_decimal 2 (value x <? 0) D text /\ rounds_decimal 2 (Z.abs (value x)) D /\
    (Z.abs (value x) <= 2 ^ 53 * 2 ^ 1074 -> exists y, get_double pow10 v t = Some y /\ finite y /\
       Z.abs (100 * value y - (if value x <? 0 then - D else D) * 2 ^ 1074) * 2 ^ 51 <= D * 2 ^ 1074 /\
       (forall n, value x = n * 2 ^ 1074 -> value y = value x)).

(** The numbers of a request, read from a message: quantity and, for a limit order, price. *)
Definition reads_terms (q : terms) (v : MessageView) : Prop :=
  reads_number (q_qty q) v tag_OrderQty /\
  match q_type q with Limit => reads_number (q_price q) v tag_Price | Market => get v tag_Price = None end.

(** Numbers close to each other. *)
Lemma rounded_bound U a D : 0 < U -> 0 <= a <= 2 ^ 53 * U -> Z.abs (D * U - a * 100) * 2 ^ 54 <= (2 ^ 53 + 4 * 100 + 2) * U -> D <= 100 * 2 ^ 53.
Proof. intros HU Ha H. assert (D * U < (100 * 2 ^ 53 + 1) * U) as Hlt by lia. apply Z.mul_lt_mono_pos_r in Hlt; lia. Qed.

Lemma rounded_whole U n D : 0 < U -> Z.abs (D * U - n * U * 100) * 2 ^ 54 <= (2 ^ 53 + 4 * 100 + 2) * U -> D = n * 100.
Proof.
  intros HU H. assert ((D - n * 100) * U < 1 * U /\ (n * 100 - D) * U < 1 * U) as [H1 H2] by lia.
  apply Z.mul_lt_mono_pos_r in H1, H2; lia.
Qed.

Lemma reads_number_text x v t : is_double x = true -> writable x = true -> get v t = Some (number_text x) -> reads_number x v t.
Proof.
  intros Hd [Hf Hlt]%andb_true_iff E. assert (finite x) as Hx by done. rewrite (proj1 (magnitude_tests x Hx)) in Hlt. apply Z.ltb_lt in Hlt. pose proof unit_pos as HU.
  destruct (format_double_spec x 2 Hx Hlt ltac:(lia)) as (D & text & Et & HD & Hdec & Hr & _). unfold number_text in E. rewrite Et in E. cbn [from_option] in E.
  exists D, text. split; [exact E|]. split; [done|]. split; [done|]. intros Hsmall. unfold rounds_decimal in Hr. change (10 ^ Z.of_nat 2) with 100 in Hr.
  destruct (parse_cents pow10 _ D text Hdec) as (y & Ey & Fy & Hc & Hw). { split; [lia|]. by apply (rounded_bound (2 ^ 1074) (Z.abs (value x))); [|split; [lia|]|]. }
  exists y. unfold get_double. rewrite E. split; [exact Ey|]. split; [done|]. split; [done|]. intros n En.
  assert (D = Z.abs n * 100) as ->. { apply (rounded_whole (2 ^ 1074)); [done|]. rewrite En, Z.abs_mul, (Z.abs_eq (2 ^ 1074)) in Hr by lia. done. }
  rewrite Z.mod_mul, Z.div_mul in Hw by lia. rewrite Hw, En by done. destruct (Z.ltb_spec (n * 2 ^ 1074) 0); f_equal; nia.
Qed.

Lemma request_numbers r now n bs : request_ok r now -> match request_terms r with Some q => terms_writable q = true | None => True end ->
  match request_terms r with Some q => reads_terms q (mkView (request_fields r now) n bs) | None => True end.
Proof.
  intros (_ & _ & Hq) H0. assert (forall q v, is_double (q_qty q) = true /\ is_double (q_price q) = true -> terms_writable q = true ->
    get v tag_OrderQty = Some (number_text (q_qty q)) -> get v tag_Price = match q_type q with Limit => Some (number_text (q_price q)) | Market => None end -> reads_terms q v) as H.
  { intros q v [Hqty Hpr] [Hw1 Hw2]%andb_true_iff Eq Ep. split; [by apply reads_number_text|]. destruct (q_type q); [done|]. by apply reads_number_text. }
  destruct r as [p q t|p orig|p orig q]; cbn [request_terms] in *; [|done|]; (apply H; [done|done|done|]); cbn [request_fields]; unfold term_fields; by destruct (q_type q).
Qed.

(** C31: What is ordered is what the counterparty reads, to the two digits that are sent.  For a
    new order, a cancel or a replace request with any texts and any doubles as quantity and
    price, the builder stays inside the buffer.  If a text contains a separator, the quantity is
    not positive, a number to send is not finite or at least 1e19, or the message does not fit,
    it returns 0.  Otherwise it returns the length of a message at the start of the buffer,
    which the parser reads back, whatever bytes follow, as exactly the fields of the request, in
    order.  The text of the quantity, and for a limit order of the price, is the decimal with
    two digits that is nearest to the number of the request, up to the error of two double
    operations (so a quantity below 0.005 is sent as 0.00, [small_quantity_sent_as_zero]); for
    numbers up to 2^53 the parser reads from it a double that differs from this decimal by at
    most one part in 2^51, and exactly the number of the request if that is whole.  A market
    order has no price. *)
Theorem order_entry_roundtrip r m capacity now maxf max rest : zlen m = capacity -> kHeaderReserve <= capacity < 2 ^ 63 -> request_ok r now ->
  exists n buf, build_request r (Some m) capacity now = Some (n, buf) /\
    if buildable r && FixBuilder.fits capacity default_begin_string (request_fields r now) then
      exists msg left, buf = Some (msg ++ left) /\ n = zlen msg /\ 0 < n /\
        (zlen (request_fields r now) <= maxf -> zlen (body_of (request_fields r now)) <= max ->
         let v := mkView (request_fields r now) n default_begin_string in
         parse maxf max (msg ++ rest) = Some (Ok v) /\ match request_terms r with Some q => reads_terms q v | None => True end)
    else n = 0.
Proof.
  intros Hm Hcap Hr. rewrite build_request_calls by done. unfold buildable.
  destruct (match request_terms r with Some q => positive (q_qty q) | None => true end) eqn:E0.
  2: { exists 0, (Some m). split; [done|]. destruct (request_terms r); [|done]. rewrite E0. cbn [andb]. by rewrite andb_false_r. }
  assert (match request_terms r with Some q => positive (q_qty q) && terms_writable q | None => true end = match request_terms r with Some q => terms_writable q | None => true end) as ->.
  { destruct (request_terms r); [|done]. by rewrite E0. }
  assert (FixBuilder.holds (new_builder (Some m) capacity) (body_of [])) as Hb0 by (apply holds_new; lia).
  assert (capacity_ (new_builder (Some m) capacity) = capacity) as Ec by (unfold new_builder; by destruct (_ <? _)).
  destruct (run_calls_spec (request_calls r now) _ [] Hb0 (List.Forall_nil _) (calls_ok r now Hr)) as (b & Erun & Hc & H). rewrite Erun. cbn [mbind option_bind]. rewrite Ec, (wanted_request r now Hr) in *.
  assert (overflow_ b = true -> finished b = Some (0, buf_ b)) as Hzero by (intros E; unfold finished, finish; by rewrite E).
  destruct (forallb _ (request_texts r) && _) eqn:Ew; cbn [andb]; [|exists 0, (buf_ b); split; [by apply Hzero|done]].
  assert (match request_terms r with Some q => terms_writable q = true | None => True end) as Hw by (apply andb_true_iff in Ew as [_ Ew]; by destruct (request_terms r)).
  destruct H as [Hfs H]. destruct (Z.leb_spec (kHeaderReserve + zlen (body_of (request_fields r now))) capacity) as [Hle|Hlt].
  2: { exists 0, (buf_ b). split; [by apply Hzero|]. unfold FixBuilder.fits, kTrailerLen. by rewrite andb_comm, (proj2 (Z.leb_gt _ capacity)) by lia. }
  assert (capacity_ b = capacity) as Ecb by (apply Hc, H).
  destruct (finish_parses b (request_fields r now) default_begin_string H Hfs default_begin_ok ltac:(lia)) as (n & b' & Ef & Hfin). rewrite Ecb in Hfin.
  exists n, (buf_ b'). split; [unfold finished; by rewrite Ef|]. destruct (FixBuilder.fits _ _ _); [|done].
  destruct Hfin as (msg & left & Hbuf & Hn & _ & Hpos & Hp). exists msg, left. split_and!; [done|done|done|]. intros Hf Hmax. split; [by apply Hp|by apply request_numbers].
Qed.
End numbers.

(** 42.375: sent as 42.38. *)
Definition sample_price : double := double_div (double_of_int 339) (double_of_int 8).

Lemma order_entry_roundtrip_witness :
  let r := NewOrder (mkParties ["C"%byte] ["V"%byte] ["1"%byte] ["X"%byte] Buy) (mkTerms Limit (double_of_int 100) sample_price IOC) 1 in
  exists n msg left v, build_request r (Some (replicate 200 x00)) 200 0 = Some (n, Some (msg ++ left)) /\
    parse 256 1000 msg = Some (Ok v) /\ reads_number exact_pow10 (double_of_int 100) v tag_OrderQty /\ reads_number exact_pow10 sample_price v tag_Price.
Proof.
  intros r. destruct (order_entry_roundtrip exact_pow10 r (replicate 200 x00) 200 0 256 1000 []) as (n & buf & E & H).
  - vm_compute; reflexivity.
  - vm_compute; split; [discriminate|reflexivity].
  - split; [vm_compute; split; [discriminate|reflexivity]|]. split; [vm_compute; split; [discriminate|reflexivity]|].
    split; vm_compute; reflexivity.
  - assert (buildable r && FixBuilder.fits 200 default_begin_string (request_fields r 0) = true) as Hb by (vm_compute; reflexivity). rewrite Hb in H.
    destruct H as (msg & left & Eb & En & _ & H). exists n, msg, left, (mkView (request_fields r 0) n default_begin_string). rewrite app_nil_r in H.
    split; [rewrite E, Eb; reflexivity|]. destruct H as [H1 [H2 H3]]; [vm_compute; discriminate|vm_compute; discriminate|]. split; [exact H1|]. split; [exact H2|exact H3].
Defined.

(** The default precision of two digits: an order of a thousandth of a unit, which passes the test
    for a positive quantity, is sent as an order of 0.00 units. *)
Lemma small_quantity_sent_as_zero :
  let thousandth := double_div (double_of_int 1) (double_of_int 1000) in
  format_double thousandth (Z.to_nat default_precision) = Some ["0"%byte; "."%byte; "0"%byte; "0"%byte] /\
  (exists n buf, build_new_order (Some (replicate 200 x00)) 200 ["C"%byte] ["V"%byte] ["1"%byte] ["X"%byte] Buy Market thousandth double_zero Day 1 0 = Some (n, buf) /\ (0 <? n) = true).
Proof. split; [vm_compute; reflexivity|]. vm_compute. eexists _, _. split; reflexivity. Qed.
