(* ===== verification/BytesQueue.v ===== *)
(** * Bounded queue of byte messages

    bounded_queue_bytes.hpp of eph-containers: [BoundedQueueBytes], messages of up to
    [MaxDataSize] bytes with a time stamp in the slots of a [BoundedQueue].

    [bytes_queue_refines]: over the interface of the bounded queue, the operations are those of a
    bounded FIFO of messages, although a slot keeps the bytes of older messages behind the
    length. *)

From S2P Require Import Prelude BoundedQueue.

#[local] Open Scope Z_scope.

Section bytes_queue.
(** [Capacity = 2^k]. *)
Context (k : Z) (MaxDataSize : Z).

Record DataWrap := mkWrap { w_ts : Z; w_len : Z; w_data : list byte }.

Abbreviation BoundedQueueBytes := (bq (T := DataWrap)).

(** A message: its bytes and its time stamp. *)
Definition message : Type := list byte * Z.

(** The writer: [memcpy] to the beginning of the slot's array. *)
Definition fill_slot (payload : list byte) (ts : Z) (slot : DataWrap) : DataWrap :=
  mkWrap ts (u32 (zlen payload)) (payload ++ drop (length payload) (w_data slot)).

(** What a visitor is shown. *)
Definition visible (msg : DataWrap) : list byte := take (Z.to_nat (Z.min (w_len msg) MaxDataSize)) (w_data msg).
Definition visible_wts (msg : DataWrap) : message := (visible msg, w_ts msg).

Definition try_push_wts (payload : list byte) (ts : Z) (q : BoundedQueueBytes) : option (bool * BoundedQueueBytes) :=
  if MaxDataSize <? zlen payload then Some (false, q) else try_produce k (fill_slot payload ts) q.

Definition bytes_push (payload : list byte) (q : BoundedQueueBytes) : option (bool * BoundedQueueBytes) := try_push_wts payload 0 q.

(** The writer of a batch. *)
Definition fill_nth (msgs : list message) (slot : DataWrap) (i : Z) : DataWrap := let m := nth (Z.to_nat i) msgs ([], 0) in fill_slot m.1 m.2 slot.

Definition try_push_n_wts (msgs : list message) (q : BoundedQueueBytes) : option (bool * BoundedQueueBytes) :=
  if existsb (fun m => MaxDataSize <? zlen m.1) msgs then Some (false, q) else
  try_produce_n k (zlen msgs) (fill_nth msgs) q.

Definition bytes_push_n (payloads : list (list byte)) (q : BoundedQueueBytes) : option (bool * BoundedQueueBytes) :=
  if existsb (fun p => MaxDataSize <? zlen p) payloads then Some (false, q) else
  try_produce_n k (zlen payloads) (fun slot i => fill_slot (nth (Z.to_nat i) payloads []) 0 slot) q.

Definition try_consume_n_wts (n : Z) (q : BoundedQueueBytes) : option (list message * BoundedQueueBytes) :=
  '(ms, q) ← try_consume_n k n q; Some (map visible_wts ms, q).

Definition bytes_consume_n (n : Z) (q : BoundedQueueBytes) : option (list (list byte) * BoundedQueueBytes) :=
  '(ms, q) ← try_consume_n k n q; Some (map visible ms, q).

Definition try_consume_all_wts (q : BoundedQueueBytes) : option (list message * BoundedQueueBytes) := try_consume_n_wts (Capacity k) q.
Definition bytes_consume_all (q : BoundedQueueBytes) : option (list (list byte) * BoundedQueueBytes) := bytes_consume_n (Capacity k) q.

Definition try_consume_wts (q : BoundedQueueBytes) : option (option message * BoundedQueueBytes) :=
  '(m, q) ← try_consume k q; Some (option_map visible_wts m, q).

Definition bytes_consume (q : BoundedQueueBytes) : option (option (list byte) * BoundedQueueBytes) :=
  '(m, q) ← try_consume k q; Some (option_map visible m, q).

Definition try_peek_visit_wts (q : BoundedQueueBytes) : option (option message * BoundedQueueBytes) :=
  '(m, q) ← try_peek k q; Some (option_map visible_wts m, q).

Definition try_peek_visit (q : BoundedQueueBytes) : option (option (list byte) * BoundedQueueBytes) :=
  '(m, q) ← try_peek k q; Some (option_map visible m, q).

Definition max_u32 : Z := 2 ^ 32 - 1.

(** The visitor of the calls that copy: as much as fits into the caller's buffer. *)
Definition copy_out (data out_buf : list byte) : Z * list byte :=
  let copy_len := Z.min (Z.min (zlen data) (zlen out_buf)) max_u32 in
  (copy_len, take (Z.to_nat copy_len) data ++ drop (Z.to_nat copy_len) out_buf).

(** Length, buffer and time stamp after a call that copies; unchanged when there is nothing. *)
Definition copied (m : option message) (out_buf : list byte) (out_ts : Z) : option Z * list byte * Z :=
  match m with
  | Some (data, ts) => let '(n, out_buf) := copy_out data out_buf in (Some n, out_buf, ts)
  | None => (None, out_buf, out_ts)
  end.

Definition try_pop_wts (out_buf : list byte) (out_ts : Z) (q : BoundedQueueBytes) : option (option Z * list byte * Z * BoundedQueueBytes) :=
  '(m, q) ← try_consume_wts q; Some (copied m out_buf out_ts, q).

Definition bytes_pop (out_buf : list byte) (q : BoundedQueueBytes) : option (option Z * list byte * BoundedQueueBytes) :=
  '(m, q) ← bytes_consume q;
  match m with
  | Some data => let '(n, out_buf) := copy_out data out_buf in Some (Some n, out_buf, q)
  | None => Some (None, out_buf, q)
  end.

Definition try_peek_wts (out_buf : list byte) (out_ts : Z) (q : BoundedQueueBytes) : option (option Z * list byte * Z * BoundedQueueBytes) :=
  '(m, q) ← try_peek_visit_wts q; Some (copied m out_buf out_ts, q).

Definition bytes_peek (out_buf : list byte) (q : BoundedQueueBytes) : option (option Z * list byte * BoundedQueueBytes) :=
  '(m, q) ← try_peek_visit q;
  match m with
  | Some data => let '(n, out_buf) := copy_out data out_buf in Some (Some n, out_buf, q)
  | None => Some (None, out_buf, q)
  end.

Definition bytes_clear (q : BoundedQueueBytes) : BoundedQueueBytes := clear q.
Definition bytes_size (q : BoundedQueueBytes) : Z := size q.

(** ** Refinement *)

Inductive bytes_op :=
| BPush (payload : list byte) (ts : Z)
| BPushN (msgs : list message)
| BPop (out_buf : list byte) (out_ts : Z)
| BPeek (out_buf : list byte) (out_ts : Z)
| BConsumeN (n : Z)
| BClear.

Inductive bytes_res := RBool (b : bool) | RCopy (r : option Z * list byte * Z) | RMsgs (ms : list message) | RUnit.

Definition bytes_exec (o : bytes_op) (q : BoundedQueueBytes) : option (bytes_res * BoundedQueueBytes) :=
  match o with
  | BPush p ts => '(b, q) ← try_push_wts p ts q; Some (RBool b, q)
  | BPushN ms => '(b, q) ← try_push_n_wts ms q; Some (RBool b, q)
  | BPop out ts => '(r, q) ← try_pop_wts out ts q; Some (RCopy r, q)
  | BPeek out ts => '(r, q) ← try_peek_wts out ts q; Some (RCopy r, q)
  | BConsumeN n => '(ms, q) ← try_consume_n_wts n q; Some (RMsgs ms, q)
  | BClear => Some (RUnit, bytes_clear q)
  end.

Fixpoint bytes_run (os : list bytes_op) (q : BoundedQueueBytes) : option (list bytes_res * BoundedQueueBytes) :=
  match os with
  | [] => Some ([], q)
  | o :: os => '(r, q) ← bytes_exec o q; '(rs, q) ← bytes_run os q; Some (r :: rs, q)
  end.

(** A message that the queue takes. *)
Definition small (m : message) : Prop := zlen m.1 <= MaxDataSize.

(** A bounded FIFO of messages. *)
Inductive fifo_bytes (l : list message) : bytes_op -> bytes_res -> list message -> Prop :=
| f_push p ts : zlen p <= MaxDataSize -> zlen l < Capacity k -> fifo_bytes l (BPush p ts) (RBool true) (l ++ [(p, ts)])
| f_push_no p ts : MaxDataSize < zlen p \/ Capacity k <= zlen l -> fifo_bytes l (BPush p ts) (RBool false) l
| f_push_n ms : Forall small ms -> ms = [] \/ zlen l + zlen ms <= Capacity k -> fifo_bytes l (BPushN ms) (RBool true) (l ++ ms)
| f_push_n_no ms : Exists (fun m => MaxDataSize < zlen m.1) ms \/ Capacity k < zlen l + zlen ms -> fifo_bytes l (BPushN ms) (RBool false) l
| f_pop out ts : fifo_bytes l (BPop out ts) (RCopy (copied (head l) out ts)) (tail l)
| f_peek out ts : fifo_bytes l (BPeek out ts) (RCopy (copied (head l) out ts)) l
| f_consume n c : (c <= length l)%nat -> Z.of_nat c <= n -> (c = 0%nat -> n = 0 \/ l = []) -> fifo_bytes l (BConsumeN n) (RMsgs (take c l)) (drop c l)
| f_clear : fifo_bytes l BClear RUnit [].

Inductive fifo_bytes_trace : list message -> list bytes_op -> list bytes_res -> list message -> Prop :=
| t_nil l : fifo_bytes_trace l [] [] l
| t_cons l o r l1 os rs l2 : fifo_bytes l o r l1 -> fifo_bytes_trace l1 os rs l2 -> fifo_bytes_trace l (o :: os) (r :: rs) l2.

Context (Hk : 0 <= k <= 63) (HM : 0 <= MaxDataSize <= max_u32).

(** A slot shows the message that was written, whatever it held before. *)
Lemma fill_visible p ts x : zlen p <= MaxDataSize -> visible_wts (fill_slot p ts x) = (p, ts).
Proof using HM.
  intros Hp. unfold visible_wts, visible, fill_slot. cbn [w_ts w_len w_data]. unfold max_u32 in HM. pose proof (zlen_nonneg p). rewrite wrap_small, Z.min_l by lia.
  unfold zlen. by rewrite Nat2Z.id, take_app_length.
Qed.

(** The queue holds the messages [l]. *)
Definition shows (q : BoundedQueueBytes) (l : list message) : Prop := exists ws, represents k q ws /\ l = visible_wts <$> ws.

Lemma visible_head (ws : list DataWrap) : option_map visible_wts (head ws) = head (visible_wts <$> ws).
Proof using. by destruct ws. Qed.

Lemma push_n_shown ms ws (ys : list DataWrap) : Forall small ms -> zlen ys = zlen ms ->
  (forall j y, ys !! j = Some y -> exists x, y = fill_nth ms x (Z.of_nat j)) ->
  visible_wts <$> (ws ++ ys) = (visible_wts <$> ws) ++ ms.
Proof using HM.
  intros Hs Hl H. rewrite fmap_app. f_equal. apply list_eq. intros j. rewrite list_lookup_fmap. unfold zlen in Hl.
  destruct (ys !! j) as [y|] eqn:Ey; cbn [fmap option_fmap option_map].
  - destruct (H j y Ey) as (x & ->). apply lookup_lt_Some in Ey. destruct (lookup_lt_is_Some_2 ms j ltac:(lia)) as [[p ts] Em]. unfold fill_nth. rewrite Nat2Z.id.
    cbn beta zeta. rewrite (nth_lookup_Some _ _ _ _ Em). cbn [fst snd]. rewrite Em. f_equal. apply fill_visible. rewrite list.Forall_forall in Hs. by apply (Hs (p, ts)), list_elem_of_lookup_2 with j.
  - apply lookup_ge_None in Ey. symmetry. apply lookup_ge_None. lia.
Qed.

Lemma exec_shown o q l : shows q l -> (forall n, o = BConsumeN n -> 0 <= n) -> exists r q' l', bytes_exec o q = Some (r, q') /\ shows q' l' /\ fifo_bytes l o r l'.
Proof using Hk HM.
  intros (ws & Hq & ->) Hn. set (l := visible_wts <$> ws). assert (zlen l = zlen ws) as Hz by (unfold zlen, l; by rewrite length_fmap).
  destruct o as [p ts|ms|out ts|out ts|n|]; cbn [bytes_exec].
  - unfold try_push_wts. destruct (Z.ltb_spec MaxDataSize (zlen p)) as [Hbig|Hp]; cbn [mbind option_bind].
    { exists (RBool false), q, l. split; [done|]. split; [by exists ws|]. apply f_push_no. by left. }
    pose proof (try_produce_spec k Hk (fill_slot p ts) q ws Hq) as H. destruct (Z.ltb_spec (zlen ws) (Capacity k)) as [Hlt|Hge].
    + destruct H as (x & q' & -> & Hq'). exists (RBool true), q', (l ++ [(p, ts)]). split; [done|]. split; [|apply f_push; [done|lia]].
      exists (ws ++ [fill_slot p ts x]). split; [done|]. rewrite fmap_app. cbn [fmap list_fmap]. by rewrite fill_visible.
    + destruct H as (q' & -> & Hq'). exists (RBool false), q', l. split; [done|]. split; [by exists ws|]. apply f_push_no. right. lia.
  - unfold try_push_n_wts. destruct (existsb (fun m => MaxDataSize <? zlen m.1) ms) eqn:Eb; cbn [mbind option_bind].
    { exists (RBool false), q, l. split; [done|]. split; [by exists ws|]. apply f_push_n_no. left. apply List.existsb_exists in Eb as (m & Hin%list_elem_of_In & Hm%Z.ltb_lt). apply list.Exists_exists. by exists m. }
    assert (Forall small ms) as Hs.
    { apply list.Forall_forall. intros m Hm. destruct (Z.ltb_spec MaxDataSize (zlen m.1)) as [Hbig|]; [|done]. assert (existsb (fun m => MaxDataSize <? zlen m.1) ms = true); [|congruence].
      apply List.existsb_exists. exists m. split; [by apply list_elem_of_In|by apply Z.ltb_lt]. }
    destruct ms as [|m0 ms]; [exists (RBool true), q, (l ++ []); rewrite app_nil_r; split; [done|]; split; [by exists ws|]; rewrite <- (app_nil_r l) at 2; apply f_push_n; [done|by left]|].
    assert (0 < zlen (m0 :: ms)) as H0 by (unfold zlen; cbn [length]; lia). set (ms' := m0 :: ms) in *. pose proof (try_produce_n_spec k Hk (zlen ms') (fill_nth ms') q ws Hq H0) as H.
    destruct (Z.leb_spec (zlen ms') (Capacity k - zlen ws)) as [Hle|Hgt].
    + destruct H as (ys & q' & -> & Hq' & Hl & Hys). exists (RBool true), q', (l ++ ms'). split; [done|]. split; [|apply f_push_n; [done|right; rewrite Hz; apply Z.le_add_le_sub_l; exact Hle]].
      exists (ws ++ ys). split; [done|]. symmetry. by apply push_n_shown.
    + destruct H as (q' & -> & Hq'). exists (RBool false), q', l. split; [done|]. split; [by exists ws|]. apply f_push_n_no. right. rewrite Hz. apply Z.lt_sub_lt_add_l. exact Hgt.
  - unfold try_pop_wts, try_consume_wts. pose proof (try_consume_spec k Hk q ws Hq) as H. destruct ws as [|w ws]; destruct H as (q' & -> & Hq'); cbn [mbind option_bind].
    + eexists _, q', []. split; [reflexivity|]. split; [by exists []|]. apply (f_pop []).
    + eexists _, q', (visible_wts <$> ws). split; [reflexivity|]. split; [by exists ws|]. apply (f_pop l).
  - unfold try_peek_wts, try_peek_visit_wts. destruct (try_peek_spec k Hk q ws Hq) as (q' & -> & Hq'). cbn [mbind option_bind]. rewrite visible_head.
    eexists _, q', l. split; [reflexivity|]. split; [by exists ws|]. apply f_peek.
  - unfold try_consume_n_wts. destruct (try_consume_n_spec k Hk n q ws Hq (Hn n eq_refl)) as (c & q' & -> & Hq' & H1 & H2 & H3). cbn [mbind option_bind]. rewrite fmap_take.
    eexists _, q', (drop c l). split; [reflexivity|]. split; [exists (drop c ws); by rewrite fmap_drop|]. apply f_consume; [unfold l; by rewrite length_fmap|done|].
    intros Hc. destruct (H3 Hc) as [?| ->]; [by left|by right].
  - eexists _, _, []. split; [reflexivity|]. split; [|apply f_clear]. exists []. split; [|done]. by eapply clear_spec.
Qed.

(** The byte queue is a bounded FIFO of messages.  Any sequence of pushes of single messages and
    batches, pops and peeks into caller buffers of any size, batch reads and clears runs without
    an access outside the slots and returns what a FIFO of at most [Capacity] messages with their
    time stamps returns; a message longer than [MaxDataSize] is refused, a batch is taken whole
    or not at all, a pop copies the message or as much as fits and leaves the rest of the
    caller's buffer as it was, and no byte of an older message is ever shown. *)
Theorem bytes_queue_refines d os : Forall (fun o => forall n, o = BConsumeN n -> 0 <= n) os ->
  exists rs q l, bytes_run os (bq_init k d) = Some (rs, q) /\ fifo_bytes_trace [] os rs l /\ bytes_size q = zlen l /\ zlen l <= Capacity k.
Proof using Hk HM.
  intros Hos. assert (shows (bq_init k d) []) as Hq by (exists []; split; [by apply bq_init_represents|done]). revert Hq. generalize (bq_init k d) as q, (@nil message) as l.
  induction Hos as [|o os Ho Hos IH]; intros q l Hq.
  - exists [], q, l. split; [done|]. split; [constructor|]. destruct Hq as (ws & Hq & ->). unfold zlen. rewrite length_fmap. by apply represents_size.
  - destruct (exec_shown o q l Hq Ho) as (r & q1 & l1 & E & Hq1 & Hf). destruct (IH q1 l1 Hq1) as (rs & q2 & l2 & E2 & Ht & Hs).
    exists (r :: rs), q2, l2. cbn [bytes_run]. rewrite E. cbn [mbind option_bind]. rewrite E2. split; [done|]. split; [by econstructor|done].
Qed.
End bytes_queue.

Lemma bytes_queue_refines_witness :
  let os := [BPush [x61; x62; x63] 7; BPush [x64] 8; BPop [x00; x00] 0; BPop [x00; x00; x00] 0; BPush (replicate 9 x00) 1] in
  exists rs q l, bytes_run 1 4 os (bq_init 1 (mkWrap 0 0 (replicate 4 x00))) = Some (rs, q) /\ fifo_bytes_trace 1 4 [] os rs l /\ bytes_size q = zlen l /\ zlen l <= Capacity 1.
Proof.
  intros os. apply (bytes_queue_refines 1 4); [lia|unfold max_u32; lia|]. unfold os. repeat (apply list.Forall_cons; split; [intros n E; discriminate E|]). apply list.Forall_nil. exact I.
Defined.
